(* ===== verification/_CoqProject ===== *)
-Q . S2P
Prelude.v
Riscv.v
CString.v
Kalloc.v
Vm.v
VmSpec.v
VmUser.v
VmCopy.v
Isa.v
Asm.v
Mmu.v
Kvm.v
Boot.v
UserMem.v
Ring.v
Spinlock.v
Pipe.v
Uart.v
Console.v
Printf.v
ULib.v
Grep.v
Primes.v
Pingpong.v
UMalloc.v
UProg.v
Sh.v
ShRun.v
Xargs.v
Filters.v
Small.v
Bio.v
BioSpec.v
BioStore.v
Log.v
LogSpec.v
LogCrash.v
LogTx.v
Proc.v
VmFree.v
UserInit.v
ProcSpec.v
ProcLife.v
Fs.v
FsTx.v
FsAlloc.v
FsInode.v
FsFile.v
FsRW.v
FsOp.v
FsDir.v
Find.v
Mkfs.v
MkfsSpec.v
File.v
FileSpec.v
Sysfile.v
Exec.v
ExecSpec.v
Syscall.v
Plic.v
Trap.v
TrapSpec.v
UserTrap.v
Virtio.v
VirtioSpec.v
Main.v
