(* ===== verification/Prelude.v ===== *)
(** * A verification of an xv6 kernel, its disk image builder and its programs

    The program is a teaching operating system in C for a RISC-V machine: the
    kernel (src/kernel), the program that builds its disk image (src/mkfs) and
    the user programs and library (src/user).  This library translates it into
    functions and transition systems and proves what makes its parts correct.

    ** How the code is represented

    A C integer is a [Z] with the wrap of its type written out ([u8] to [u64],
    [i8] to [i64], this file).  Memory is a function from addresses to bytes, a
    disk block the list of its bytes, and little-endian fields are read and
    written in them.  A routine is a function [M S A] from a state to an outcome:
    [Ok] with a result, [Panic] for a call of panic(), [Sleep] for a thread that
    gives up its processor on a channel, [Undef] for behaviour that C or the
    machine leaves undefined, and [NoFuel] for a loop whose bound was too small.
    A theorem of the form [wp m Q s] (or an equation [m s = Ok ..]) is total
    correctness: it excludes all outcomes but [Ok].  A critical section of a spin
    lock is one step; Spinlock.v, which models the lock access by access, is the
    reason why that is sound.  A call of sleep() ends a run of a routine, and
    where a property depends on the interleaving the runs are steps of a
    transition system.

    Fuel: every loop that is not structural takes a number of rounds from what
    bounds it in the code (the pages of an address range, the bytes to copy, the
    entries of a directory, the length of the line to parse, the units of the
    heap).  The theorems on those routines show a result, so the bound is enough.

    ** The files

    - Prelude: integers, the monad and its rules, bytes, the tactics.
    - Riscv: kernel/param.h, memlayout.h and the address macros of riscv.h.
    - Isa: a hart, with its privilege modes, control registers, Sv39 translation and
      physical memory protection, the instructions the assembly uses, and the register
      accessors of riscv.h.  Asm: kernel/entry.S, swtch.S, kernelvec.S,
      trampoline.S, user/initcode.S and the stubs of usys.pl.
    - CString: kernel/string.c.  Kalloc: kernel/kalloc.c.
    - Vm: kernel/vm.c.  VmSpec, VmUser, VmCopy: page tables as maps, address
      spaces, copies.  UserMem: the interface (a class with its laws) by which
      the rest of the kernel uses them, and two instances of it.
    - Mmu: page tables as the hart walks them.  Kvm: the kernel's page table.
    - Boot: kernel/start.c and the entry code.  UserInit: the first process.  Main:
      kernel/main.c, all harts together.
    - Ring: circular buffers.  Spinlock: kernel/spinlock.c and sleeplock.c.
    - Pipe, Uart, Console, Printf: the files of kernel/ with these names.
    - Bio: kernel/bio.c over any disk (class [Disk]).  BioSpec, BioStore: what a
      client of the cache sees.
    - Log: kernel/log.c.  LogSpec, LogCrash, LogTx: transactions and crashes.
    - Proc: kernel/proc.c over any file system (class [FileOps]).  ProcSpec,
      ProcLife: the process table under all system calls.
    - Fs: kernel/fs.c.  FsTx, FsAlloc, FsInode, FsFile, FsRW, FsOp, FsDir: its
      layers, each proved against the one below.
    - File: kernel/file.c and pipealloc.  FileSpec: read and write of files.
    - Sysfile: kernel/sysfile.c.  Exec: kernel/exec.c.  ExecSpec: the image it
      leaves.  Syscall: kernel/syscall.c and sysproc.c, the kernel's state put
      together.
    - Plic: kernel/plic.c.  Trap: kernel/trap.c.  TrapSpec: a system call from
      user space and back.  UserTrap: the same with the assembly, from one user
      instruction to the next.
    - Virtio: kernel/virtio_disk.c.  VirtioSpec: the driver with the device.
    - Mkfs: mkfs/mkfs.c.  MkfsSpec: the image as the kernel sees it.
    - ULib: user/ulib.c and printf.c.  UMalloc: user/umalloc.c.
    - Sh: the parser of user/sh.c.  Grep: user/grep.c.  Primes: user/primes.c.
    - VmFree: whole address spaces, from proc_pagetable to proc_freepagetable.
    - UProg: descriptor tables and strings as user programs see them.  ShRun: the
      execution half of user/sh.c.  Find: user/find.c and ls.c.  Xargs:
      user/xargs.c.  Filters: user/cat.c, wc.c, echo.c and the main of grep.c.
      Small: user/init.c, kill.c, ln.c, mkdir.c and rm.c.  Pingpong:
      user/pingpong.c.

    ** What is proved

    - Crash safety: a transaction of the log is atomic for a crash between any
      two disk writes, recovery may itself crash, and a write through an open
      file is a sequence of such transactions.
    - The disk: the driver with its device performs every request once and on the
      right block, whatever the order; the cache over it shows the disk.
    - Files: what is written is read back, directories find and insert names, an
      inode has one entry in the table, and the image mkfs builds has the files
      it was given under their names.
    - Memory: the page allocator never hands out a page twice, address spaces are
      grown, copied and freed exactly also when memory runs out, copies to and from user
      memory touch what they should; the user allocator keeps blocks disjoint,
      and what is freed can be allocated again.
    - Processes: identifiers are unique, exit leaves no orphan, locks exclude,
      pipes are queues that lose no wakeup unless a writer is killed, the
      console and the UART deliver in order, a system call resumes the program
      after its ecall.
    - The machine: every hart gets from its reset to main, the machine boots under
      every interleaving of its harts and ends with all of them in the scheduler and
      one process to run, the kernel's page table maps what it should, swtch and a
      trap into the kernel and back preserve what they must, a program in user mode
      can neither read nor write what its page table does not give it, and exec
      replaces the image of a process or leaves it alone.
    - Programs: the shell's parser accepts exactly its grammar and ends on every
      line, grep prints exactly the lines that match, and primes prints the
      primes in order and ends, under every schedule.
    - More programs: the shell gives every command of a line the descriptors it
      should have and keeps its own, the ends of a pipe are open where they must
      be and nowhere else, find prints exactly the files with the name, xargs
      runs its command once per line and stays in its buffers under a condition
      that is stated and necessary, wc counts, pingpong ends under every schedule.

    Each property has a concrete instance (its witness) where it has hypotheses.

    ** What is not modelled

    - The encoding of instructions: what memory holds as code is a parameter, and li,
      la and call count as one instruction.  The C code between two pieces of assembly
      is the functions of this library, not compiled code.
    - kernel/kernel.ld, defs.h, types.h, user/user.h and user.ld: addresses, which are
      parameters, and declarations.
    - The memory ordering of the processors: memory accesses are interleaved; the
      fences of the source are where the steps of the models begin and end.
    - Devices beyond what the drivers rely on: the UART, the interrupt controller
      and the disk are parameters or transition systems taken from their
      specifications.
    - The text of the messages of the user programs, where it is not their result.
    - user/zombie.c: a fork, a pause and an exit.
    - usertests.c, grind.c, stressfs.c, forktest.c and the scripts: tests. *)
From stdpp Require Export prelude gmap list strings.
From Stdlib Require Export ZArith Lia.

#[global] Open Scope Z_scope.

(** * Machine integers

    A C integer of width [w] is a [Z] in its range; every arithmetic operation
    of the source that can leave the range is followed by the wrap of its type. *)

Definition u8 (x : Z) : Z := x mod 2 ^ 8.
Definition u16 (x : Z) : Z := x mod 2 ^ 16.
Definition u32 (x : Z) : Z := x mod 2 ^ 32.
Definition u64 (x : Z) : Z := x mod 2 ^ 64.

(** Two's complement reading of the low [w] bits. *)
Definition signed (w x : Z) : Z :=
  let y := x mod 2 ^ w in
  if y <? 2 ^ (w - 1) then y else y - 2 ^ w.

Definition i8 (x : Z) : Z := signed 8 x.
Definition i16 (x : Z) : Z := signed 16 x.
Definition i32 (x : Z) : Z := signed 32 x.
Definition i64 (x : Z) : Z := signed 64 x.

(** * The kernel monad

    A kernel routine maps a state to an outcome.  [Panic] is a call of
    [panic()], which never returns; [Sleep c s] is a thread that gave up the
    CPU in [sleep(c, lk)] with the shared state [s]; [Undef] is behaviour C
    leaves undefined, such as an index outside an array; [NoFuel] is a loop of
    the model that used up its fuel.  [Undef] and [NoFuel] are excluded by
    theorem wherever they can arise. *)

(** Sleep channels: the addresses the source passes to [sleep] and [wakeup]. *)
Inductive chan : Type :=
| ChPipeRd (pi : Z)       (* &pi->nread *)
| ChPipeWr (pi : Z)       (* &pi->nwrite *)
| ChLog                   (* &log *)
| ChTicks                 (* &ticks *)
| ChProc (i : nat)        (* &proc[i] *)
| ChBufLock (i : nat)     (* &bcache.buf[i].lock *)
| ChInodeLock (i : nat)   (* &itable.inode[i].lock *)
| ChCons                  (* &cons.r *)
| ChUart                  (* &uart_tx_r *)
| ChDiskFree              (* &disk.free[0] *)
| ChBuf (i : nat).        (* &bcache.buf[i] *)

#[export] Instance chan_eq_dec : EqDecision chan.
Proof. solve_decision. Defined.

Inductive outcome (S A : Type) : Type :=
| Ok (a : A) (s : S)
| Panic (msg : string)
| Sleep (c : chan) (s : S)
| Undef
| NoFuel.

Arguments Ok {S A} a s.
Arguments Panic {S A} msg.
Arguments Sleep {S A} c s.
Arguments Undef {S A}.
Arguments NoFuel {S A}.

Definition M (S A : Type) : Type := S → outcome S A.

Definition ret {S A} (a : A) : M S A := λ s, Ok a s.

Definition bind {S A B} (m : M S A) (f : A → M S B) : M S B := λ s,
  match m s with
  | Ok a s' => f a s'
  | Panic e => Panic e
  | Sleep c s' => Sleep c s'
  | Undef => Undef
  | NoFuel => NoFuel
  end.

Definition panic {S A} (msg : string) : M S A := λ _, Panic msg.
Definition sleep {S A} (c : chan) : M S A := λ s, Sleep c s.
Definition undef {S A} : M S A := λ _, Undef.
Definition nofuel {S A} : M S A := λ _, NoFuel.
Definition get {S} : M S S := λ s, Ok s s.
Definition gets {S A} (f : S → A) : M S A := λ s, Ok (f s) s.
Definition modify {S} (f : S → S) : M S unit := λ s, Ok tt (f s).

(** Run a routine of a component on the component's part of a larger state. *)
Definition zoom {S T A} (g : S → T) (p : T → S → S) (m : M T A) : M S A := λ s,
  match m (g s) with
  | Ok a t => Ok a (p t s)
  | Panic e => Panic e
  | Sleep c t => Sleep c (p t s)
  | Undef => Undef
  | NoFuel => NoFuel
  end.

(** [for(i = i0; i < i0 + n; i++) body(i)]. *)
Fixpoint for_loop {S} (n : nat) (i : Z) (body : Z → M S unit) : M S unit :=
  match n with
  | O => ret tt
  | Datatypes.S n => bind (body i) (λ _, for_loop n (i + 1) body)
  end.

Declare Scope kernel_scope.
Delimit Scope kernel_scope with kernel.
Notation "'do' x <- m ; k" := (bind m (fun x => k))
  (at level 200, x name, m at level 100, k at level 200, right associativity,
   format "'[v' 'do'  x  <-  m ; '/' k ']'") : kernel_scope.
Notation "'do' ' p <- m ; k" := (bind m (fun x => match x with p => k end))
  (at level 200, p pattern, m at level 100, k at level 200, right associativity) : kernel_scope.
Notation "m ;;; k" := (bind m (fun _ => k))
  (at level 199, k at level 200, right associativity,
   format "'[v' m  ;;; '/' k ']'") : kernel_scope.
#[global] Open Scope kernel_scope.

(** ** Total correctness

    [wp m Q s]: run from [s], [m] returns (no panic, no sleep, enough fuel)
    with a result and a state that satisfy [Q]. *)
Definition wp {S A} (m : M S A) (Q : A → S → Prop) (s : S) : Prop :=
  match m s with Ok a s' => Q a s' | _ => False end.

(** What a run that returns leaves to the next one, and its result. *)
Definition result {S A B} (o : outcome S A) (g : S → option B) : option B := match o with Ok _ s => g s | _ => None end.
Definition returns {S A} (o : outcome S A) : option A := match o with Ok a _ => Some a | _ => None end.
Lemma result_inv {S A B} (o : outcome S A) (g : S → option B) a s r : result o g = Some r → o = Ok a s → g s = Some r.
Proof. by intros Hr ->. Qed.
Lemma returns_inv {S A} (o : outcome S A) r : returns o = Some r → ∃ s, o = Ok r s.
Proof. destruct o; simpl; naive_solver. Qed.

Lemma wp_ret {S A} (a : A) (Q : A → S → Prop) s : Q a s → wp (ret a) Q s.
Proof. done. Qed.

Lemma wp_bind {S A B} (m : M S A) (f : A → M S B) Q s :
  wp m (λ a, wp (f a) Q) s ↔ wp (bind m f) Q s.
Proof. unfold wp, bind. by destruct (m s). Qed.

Lemma wp_step {S A B} (m : M S A) (f : A → M S B) Q s :
  wp m (λ a, wp (f a) Q) s → wp (bind m f) Q s.
Proof. by rewrite wp_bind. Qed.

Lemma wp_mono {S A} (m : M S A) (P Q : A → S → Prop) s :
  wp m P s → (∀ a s', P a s' → Q a s') → wp m Q s.
Proof. unfold wp. destruct (m s); naive_solver. Qed.

Lemma wp_intro {S A} (m : M S A) (Q : A → S → Prop) s a s' :
  m s = Ok a s' → Q a s' → wp m Q s.
Proof. unfold wp. by intros ->. Qed.

Lemma wp_inv {S A} (m : M S A) (Q : A → S → Prop) s :
  wp m Q s → ∃ a s', m s = Ok a s' ∧ Q a s'.
Proof. unfold wp. destruct (m s); naive_solver. Qed.

Lemma wp_run {S A} (m : M S A) (Q : A → S → Prop) s a s' :
  wp m Q s → m s = Ok a s' → Q a s'.
Proof. unfold wp. intros Hw He. by rewrite He in Hw. Qed.

Lemma wp_exists {S} (m : M S unit) s (Q : S → Prop) :
  wp m (λ _, Q) s → ∃ s', m s = Ok tt s' ∧ Q s'.
Proof. intros ([] & s' & H1 & H2)%wp_inv. eauto. Qed.

Lemma wp_seq {S A B} (m : M S A) (f : A → M S B) P Q s :
  wp m P s → (∀ a s', P a s' → wp (f a) Q s') → wp (bind m f) Q s.
Proof. intros H1 H2. apply wp_bind. eapply wp_mono; eauto. Qed.

Lemma wp_zoom {S T A} (g : S → T) (p : T → S → S) (m : M T A) Q s :
  wp m (λ a t, Q a (p t s)) (g s) → wp (zoom g p m) Q s.
Proof. unfold wp, zoom. by destruct (m (g s)). Qed.

(** A loop that carries the invariant [I] from index [i] to index [i + n]. *)
Lemma wp_for {S} (I : Z → S → Prop) n i (body : Z → M S unit) s :
  (∀ j s, i ≤ j < i + Z.of_nat n → I j s → wp (body j) (λ _, I (j + 1)) s) →
  I i s → wp (for_loop n i body) (λ _, I (i + Z.of_nat n)) s.
Proof.
  revert i s. induction n as [|n IH]; intros i s Hb Hi; simpl for_loop.
  - by rewrite Z.add_0_r.
  - apply wp_step. eapply wp_mono; [apply Hb; [lia|done]|]. intros u s' Hs'.
    replace (i + Z.of_nat (Datatypes.S n)) with (i + 1 + Z.of_nat n) by lia.
    apply IH; [|done]. intros j t Hj. apply Hb. lia.
Qed.

(** ** Partial correctness

    [post m Q R s]: if [m] returns from [s], [Q] holds; if it goes to sleep, [R]
    holds of the state it leaves. *)
Definition post {S A} (m : M S A) (Q : A → S → Prop) (R : S → Prop) (s : S) : Prop :=
  match m s with Ok a s' => Q a s' | Sleep _ s' => R s' | _ => True end.

Lemma post_bind {S A B} (m : M S A) (f : A → M S B) Q R s :
  post m (λ a, post (f a) Q R) R s → post (bind m f) Q R s.
Proof. unfold post, bind. by destruct (m s). Qed.

Lemma post_mono {S A} (m : M S A) (P Q : A → S → Prop) (R R' : S → Prop) s :
  post m P R s → (∀ a s', P a s' → Q a s') → (∀ s', R s' → R' s') → post m Q R' s.
Proof. unfold post. destruct (m s); auto. Qed.

(** [m] keeps the invariant [P]. *)
Definition keeps_inv {S A} (P : S → Prop) (m : M S A) : Prop := ∀ s, P s → post m (λ _, P) P s.

Lemma keeps_bind {S A B} (P : S → Prop) (m : M S A) (f : A → M S B) :
  keeps_inv P m → (∀ a, keeps_inv P (f a)) → keeps_inv P (bind m f).
Proof. intros Hm Hf s Hs. apply post_bind. eapply post_mono; [by apply Hm| |done]. intros a s'. apply Hf. Qed.

Lemma keeps_ret {S A} (P : S → Prop) (a : A) : keeps_inv P (ret a).
Proof. by intros s. Qed.
Lemma keeps_gets {S A} (P : S → Prop) (f : S → A) : keeps_inv P (gets f).
Proof. by intros s. Qed.
Lemma keeps_panic {S A} (P : S → Prop) e : keeps_inv P (panic e : M S A).
Proof. by intros s. Qed.
Lemma keeps_undef {S A} (P : S → Prop) : keeps_inv P (undef : M S A).
Proof. by intros s. Qed.
Lemma keeps_sleep {S A} (P : S → Prop) c : keeps_inv P (sleep c : M S A).
Proof. by intros s. Qed.
Lemma keeps_if {S A} (P : S → Prop) (b : bool) (m1 m2 : M S A) :
  keeps_inv P m1 → keeps_inv P m2 → keeps_inv P (if b then m1 else m2).
Proof. by destruct b. Qed.
Lemma keeps_for_loop {S} (P : S → Prop) n i body :
  (∀ j, keeps_inv P (body j)) → keeps_inv P (for_loop n i body).
Proof.
  intros Hb. revert i. induction n as [|n IH]; intros i; simpl; [apply keeps_ret|].
  apply keeps_bind; [apply Hb|]. intros _. apply IH.
Qed.
Lemma keeps_zoom {S T A} (P : S → Prop) (g : S → T) (p : T → S → S) (m : M T A) :
  (∀ s t, P s → P (p t s)) → keeps_inv P (zoom g p m).
Proof. intros Hp s Hs. unfold post, zoom. destruct (m (g s)); auto. Qed.

Create HintDb keeps discriminated.
#[export] Hint Resolve keeps_bind keeps_ret keeps_gets keeps_panic keeps_undef keeps_sleep keeps_if keeps_for_loop : keeps.

(** Equations of the monad, used to run a routine symbolically. *)
Lemma bind_Ok {S A B} (m : M S A) (f : A → M S B) s a s' :
  m s = Ok a s' → bind m f s = f a s'.
Proof. unfold bind. by intros ->. Qed.

Lemma bind_Panic {S A B} (m : M S A) (f : A → M S B) s e :
  m s = Panic e → bind m f s = Panic e.
Proof. unfold bind. by intros ->. Qed.

Lemma bind_Sleep {S A B} (m : M S A) (f : A → M S B) s c s' :
  m s = Sleep c s' → bind m f s = Sleep c s'.
Proof. unfold bind. by intros ->. Qed.

Lemma bind_assoc {S A B C} (m : M S A) (f : A → M S B) (g : B → M S C) s :
  bind (bind m f) g s = bind m (λ a, bind (f a) g) s.
Proof. unfold bind. by destruct (m s). Qed.

Lemma bind_inv {S A B} (m : M S A) (f : A → M S B) s b s' :
  bind m f s = Ok b s' → ∃ a s1, m s = Ok a s1 ∧ f a s1 = Ok b s'.
Proof. unfold bind. destruct (m s); naive_solver. Qed.

(** * Tactics *)

(** Linear arithmetic with [/] and [mod] by constants. *)
Ltac zdm := Z.div_mod_to_equations; lia.

(** Split the boolean tests of the code into propositions. *)
Ltac bsimp :=
  repeat match goal with
  | H : context [?a && ?b = true] |- _ => rewrite andb_true_iff in H
  | H : context [?a || ?b = true] |- _ => rewrite orb_true_iff in H
  | H : ?a && ?b = false |- _ => apply andb_false_iff in H
  | H : ?a || ?b = false |- _ => apply orb_false_iff in H
  | H : negb _ = true |- _ => apply negb_true_iff in H
  | H : negb _ = false |- _ => apply negb_false_iff in H
  | H : (_ =? _) = true |- _ => apply Z.eqb_eq in H
  | H : (_ =? _) = false |- _ => apply Z.eqb_neq in H
  | H : (_ <? _) = true |- _ => apply Z.ltb_lt in H
  | H : (_ <? _) = false |- _ => apply Z.ltb_ge in H
  | H : (_ <=? _) = true |- _ => apply Z.leb_le in H
  | H : (_ <=? _) = false |- _ => apply Z.leb_gt in H
  | H : _ ∧ _ |- _ => destruct H
  end.

Ltac case_test :=
  match goal with
  | |- context [if ?b then _ else _] => destruct b eqn:?; bsimp
  end.

(** Run the monad one bind at a time, closing the test of an [if] by [lia]. *)
Ltac mstep :=
  first
  [ rewrite bind_assoc
  | erewrite bind_Ok by (first [reflexivity | eassumption]); cbv beta ].

(** * Facts on integers *)

Lemma u8_range x : 0 ≤ u8 x < 256.
Proof. unfold u8. zdm. Qed.
Lemma u16_range x : 0 ≤ u16 x < 2 ^ 16.
Proof. unfold u16. zdm. Qed.
Lemma u32_range x : 0 ≤ u32 x < 2 ^ 32.
Proof. unfold u32. zdm. Qed.
Lemma u64_range x : 0 ≤ u64 x < 2 ^ 64.
Proof. unfold u64. zdm. Qed.
Lemma u8_id x : 0 ≤ x < 256 → u8 x = x.
Proof. intros. unfold u8. by apply Z.mod_small. Qed.
Lemma u16_id x : 0 ≤ x < 2 ^ 16 → u16 x = x.
Proof. intros. unfold u16. by apply Z.mod_small. Qed.
Lemma u32_id x : 0 ≤ x < 2 ^ 32 → u32 x = x.
Proof. intros. unfold u32. by apply Z.mod_small. Qed.
Lemma u64_id x : 0 ≤ x < 2 ^ 64 → u64 x = x.
Proof. intros. unfold u64. by apply Z.mod_small. Qed.

Lemma signed_id w x : 0 < w → - 2 ^ (w - 1) ≤ x < 2 ^ (w - 1) → signed w x = x.
Proof.
  intros Hw Hx. unfold signed.
  assert (2 ^ w = 2 * 2 ^ (w - 1)) as Hp.
  { replace w with (Z.succ (w - 1)) at 1 by lia. rewrite Z.pow_succ_r; lia. }
  destruct (decide (0 ≤ x)).
  - rewrite Z.mod_small by lia. case_test; lia.
  - replace (x mod 2 ^ w) with (x + 2 ^ w).
    + case_test; lia.
    + rewrite <- (Z.mod_small (x + 2 ^ w) (2 ^ w)) by lia.
      rewrite <- (Z.mod_add x 1 (2 ^ w)) by lia. f_equal. lia.
Qed.

Lemma signed_range w x : 0 < w → - 2 ^ (w - 1) ≤ signed w x < 2 ^ (w - 1).
Proof.
  intros Hw. unfold signed.
  assert (2 ^ w = 2 * 2 ^ (w - 1)) as Hp.
  { replace w with (Z.succ (w - 1)) at 1 by lia. rewrite Z.pow_succ_r; lia. }
  assert (0 < 2 ^ (w - 1)) by (apply Z.pow_pos_nonneg; lia).
  pose proof (Z.mod_pos_bound x (2 ^ w) ltac:(lia)). case_test; lia.
Qed.

Lemma i32_id x : - 2 ^ 31 ≤ x < 2 ^ 31 → i32 x = x.
Proof. intros. apply (signed_id 32); lia. Qed.
Lemma i16_id x : - 2 ^ 15 ≤ x < 2 ^ 15 → i16 x = x.
Proof. intros. apply (signed_id 16); lia. Qed.

Create HintDb kint discriminated.
#[export] Hint Rewrite u8_id u16_id u32_id u64_id i32_id i16_id using lia : kint.
Ltac kint := autorewrite with kint.

(** * Little-endian encodings *)

Fixpoint le_bytes (n : nat) (v : Z) : list Z :=
  match n with
  | O => []
  | S n => u8 v :: le_bytes n (v / 256)
  end.

Fixpoint le_val (l : list Z) : Z :=
  match l with
  | [] => 0
  | b :: l => b + 256 * le_val l
  end.

Lemma length_le_bytes n v : length (le_bytes n v) = n.
Proof. revert v. induction n; intros; simpl; auto. Qed.

Lemma le_bytes_byte n v : Forall (λ b, 0 ≤ b < 256) (le_bytes n v).
Proof. revert v. induction n; intros; simpl; constructor; auto using u8_range. Qed.

Lemma le_val_le_bytes n v : le_val (le_bytes n v) = v mod 256 ^ Z.of_nat n.
Proof.
  revert v. induction n as [|n IH]; intros v; simpl le_bytes; simpl le_val.
  - by rewrite Z.mod_1_r.
  - rewrite IH. unfold u8. change (2 ^ 8) with 256.
    rewrite Nat2Z.inj_succ, Z.pow_succ_r by lia.
    rewrite Z.rem_mul_r by (try apply Z.pow_nonzero; lia). lia.
Qed.

Lemma le_val_range l :
  Forall (λ b, 0 ≤ b < 256) l → 0 ≤ le_val l < 256 ^ Z.of_nat (length l).
Proof.
  induction 1 as [|b l Hb Hl IH]; [simpl; lia|].
  cbn [length le_val]. rewrite Nat2Z.inj_succ, Z.pow_succ_r by lia. lia.
Qed.

Lemma le_bytes_le_val l :
  Forall (λ b, 0 ≤ b < 256) l → le_bytes (length l) (le_val l) = l.
Proof.
  induction 1 as [|b l Hb Hl IH]; [done|].
  cbn [length le_val le_bytes]. f_equal.
  - unfold u8. change (2 ^ 8) with 256. zdm.
  - replace ((b + 256 * le_val l) / 256) with (le_val l) by zdm. done.
Qed.

Lemma le_val_inj l1 l2 :
  length l1 = length l2 → Forall (λ b, 0 ≤ b < 256) l1 →
  Forall (λ b, 0 ≤ b < 256) l2 → le_val l1 = le_val l2 → l1 = l2.
Proof.
  intros Hl H1 H2 He. rewrite <- (le_bytes_le_val l1), <- (le_bytes_le_val l2) by done.
  congruence.
Qed.

(** * Lists as byte arrays *)

(** [splice l off new]: [memmove(l + off, new, length new)] inside the array. *)
Definition splice {A} (l : list A) (off : nat) (new : list A) : list A :=
  take off l ++ new ++ drop (off + length new) l.

Definition slice {A} (l : list A) (off len : nat) : list A := take len (drop off l).

Section splice.
Context {A : Type}.
Implicit Types l new : list A.

Lemma length_splice l off new :
  (off + length new ≤ length l)%nat → length (splice l off new) = length l.
Proof. intros. unfold splice. rewrite !length_app, length_take, length_drop. lia. Qed.

Lemma lookup_splice_new l off new i :
  (off ≤ length l)%nat → (off ≤ i < off + length new)%nat →
  splice l off new !! i = new !! (i - off)%nat.
Proof.
  intros. unfold splice. rewrite lookup_app_r; rewrite length_take; [|lia].
  rewrite lookup_app_l by lia. f_equal. lia.
Qed.

Lemma lookup_splice_old l off new i :
  (off + length new ≤ length l)%nat → ¬ (off ≤ i < off + length new)%nat →
  splice l off new !! i = l !! i.
Proof.
  intros H1 H2. unfold splice. destruct (decide (i < off)%nat).
  - rewrite lookup_app_l by (rewrite length_take; lia). by apply lookup_take_lt.
  - rewrite lookup_app_r; rewrite length_take; [|lia].
    rewrite lookup_app_r by lia. rewrite lookup_drop. f_equal. lia.
Qed.

Lemma slice_splice l off new :
  (off + length new ≤ length l)%nat → slice (splice l off new) off (length new) = new.
Proof.
  intros. unfold slice, splice. rewrite drop_app_length' by (rewrite length_take; lia).
  by rewrite take_app_length.
Qed.

Lemma length_slice l off len : (off + len ≤ length l)%nat → length (slice l off len) = len.
Proof. intros. unfold slice. rewrite length_take, length_drop. lia. Qed.

Lemma lookup_slice l off len i :
  (i < len)%nat → slice l off len !! i = l !! (off + i)%nat.
Proof. intros. unfold slice. rewrite lookup_take_lt by done. by rewrite lookup_drop. Qed.

Lemma slice_splice_disjoint l off new off' len :
  (off + length new ≤ length l)%nat →
  (off' + len ≤ off ∨ off + length new ≤ off')%nat →
  slice (splice l off new) off' len = slice l off' len.
Proof.
  intros H1 H2. apply list_eq. intros i. destruct (decide (i < len)%nat).
  - rewrite !lookup_slice by done. apply lookup_splice_old; lia.
  - unfold slice. rewrite !lookup_take_ge by lia. done.
Qed.
End splice.

(** * Reachability *)

Section star.
Context {S : Type} (step : S → S → Prop).

(** States reached from [s] by finitely many steps, the last step outermost. *)
Inductive steps (s : S) : S → Prop :=
| steps_refl : steps s s
| steps_snoc s1 s2 : steps s s1 → step s1 s2 → steps s s2.

Lemma steps_invariant (P : S → Prop) s :
  P s → (∀ s1 s2, P s1 → step s1 s2 → P s2) → ∀ s', steps s s' → P s'.
Proof. intros H0 Hs s' H. induction H; eauto. Qed.

Lemma steps_trans s1 s2 s3 : steps s1 s2 → steps s2 s3 → steps s1 s3.
Proof. intros H1 H2. induction H2; eauto using steps. Qed.
End star.

#[export] Hint Constructors steps : core.
