(* ===== verification/Riscv.v ===== *)
(** * Riscv: the machine constants and address macros of kernel/riscv.h,
    kernel/memlayout.h and kernel/param.h, and the arithmetic facts about them
    (page rounding, page-table entries, page-table indices) that the memory
    components use. *)
From S2P Require Import Prelude.

(** ** kernel/param.h *)
Definition NPROC : Z := 64.
Definition NCPU : Z := 8.
Definition NOFILE : Z := 16.
Definition NFILE : Z := 100.
Definition NINODE : Z := 50.
Definition NDEV : Z := 10.
Definition ROOTDEV : Z := 1.
Definition MAXARG : Z := 32.
Definition MAXOPBLOCKS : Z := 10.
Definition LOGSIZE : Z := MAXOPBLOCKS * 3.
Definition NBUF : Z := MAXOPBLOCKS * 3.
Definition FSSIZE : Z := 2000.
Definition MAXPATH : Z := 128.
(** conf/lab.mk selects LAB=util, and the Makefile compiles with -DLAB_UTIL. *)
Definition USERSTACK : Z := 2.

(** ** kernel/riscv.h *)
Definition SSTATUS_SPP : Z := Z.shiftl 1 8.
Definition SSTATUS_SPIE : Z := Z.shiftl 1 5.
Definition SSTATUS_SIE : Z := Z.shiftl 1 1.

Definition PGSIZE : Z := 4096.
Definition PGSHIFT : Z := 12.

(** [~(PGSIZE-1)] is an int, sign-extended when it meets a uint64. *)
Definition PGMASK : Z := u64 (Z.lnot (PGSIZE - 1)).
Definition PGROUNDUP (sz : Z) : Z := Z.land (u64 (sz + PGSIZE - 1)) PGMASK.
Definition PGROUNDDOWN (a : Z) : Z := Z.land a PGMASK.

Definition PTE_V : Z := Z.shiftl 1 0.
Definition PTE_R : Z := Z.shiftl 1 1.
Definition PTE_W : Z := Z.shiftl 1 2.
Definition PTE_X : Z := Z.shiftl 1 3.
Definition PTE_U : Z := Z.shiftl 1 4.

Definition PA2PTE (pa : Z) : Z := u64 (Z.shiftl (Z.shiftr pa 12) 10).
Definition PTE2PA (pte : Z) : Z := u64 (Z.shiftl (Z.shiftr pte 10) 12).
Definition PTE_FLAGS (pte : Z) : Z := Z.land pte 1023.

Definition PXMASK : Z := 511.
Definition PXSHIFT (level : Z) : Z := PGSHIFT + 9 * level.
Definition PX (level va : Z) : Z := Z.land (Z.shiftr va (PXSHIFT level)) PXMASK.

Definition MAXVA : Z := Z.shiftl 1 (9 + 9 + 9 + 12 - 1).

Definition SATP_SV39 : Z := Z.shiftl 8 60.
Definition MAKE_SATP (pagetable : Z) : Z := Z.lor SATP_SV39 (Z.shiftr pagetable 12).

(** ** kernel/memlayout.h *)
Definition UART0 : Z := 268435456.        (* 0x10000000 *)
Definition UART0_IRQ : Z := 10.
Definition VIRTIO0 : Z := 268439552.      (* 0x10001000 *)
Definition VIRTIO0_IRQ : Z := 1.
Definition PLIC : Z := 201326592.         (* 0x0c000000 *)
Definition KERNBASE : Z := 2147483648.    (* 0x80000000 *)
Definition PHYSTOP : Z := KERNBASE + 128 * 1024 * 1024.
Definition TRAMPOLINE : Z := MAXVA - PGSIZE.
Definition KSTACK (p : Z) : Z := TRAMPOLINE - (p + 1) * 2 * PGSIZE.
Definition TRAPFRAME : Z := TRAMPOLINE - PGSIZE.

(** The test [x & flag] of the code. *)
Definition has (x flag : Z) : bool := negb (Z.land x flag =? 0).

(** ** Rounding to pages *)

Lemma land_PGMASK a : 0 ≤ a < 2 ^ 64 → Z.land a PGMASK = a - a mod PGSIZE.
Proof.
  intros Ha. unfold PGMASK, PGSIZE, u64.
  change (4096 - 1) with (Z.ones 12). rewrite <- (Z.land_ones (Z.lnot _) 64) by lia.
  rewrite Z.land_assoc, <- Z.ldiff_land, Z.ldiff_ones_r by lia.
  rewrite Z.land_ones by lia.
  rewrite Z.shiftl_mul_pow2, Z.shiftr_div_pow2 by lia.
  change (2 ^ 12) with 4096. rewrite Z.mod_small by zdm. zdm.
Qed.

Lemma PGROUNDDOWN_eq a : 0 ≤ a < 2 ^ 64 → PGROUNDDOWN a = a - a mod PGSIZE.
Proof. apply land_PGMASK. Qed.

Lemma PGROUNDUP_eq sz :
  0 ≤ sz → sz + PGSIZE - 1 < 2 ^ 64 →
  PGROUNDUP sz = (sz + PGSIZE - 1) / PGSIZE * PGSIZE.
Proof.
  intros. unfold PGROUNDUP, PGSIZE in *. rewrite u64_id by lia.
  rewrite land_PGMASK by lia. unfold PGSIZE. zdm.
Qed.

Lemma PGROUNDDOWN_aligned a : 0 ≤ a < 2 ^ 64 → PGROUNDDOWN a mod PGSIZE = 0.
Proof. intros. rewrite PGROUNDDOWN_eq by done. unfold PGSIZE. zdm. Qed.

Lemma PGROUNDUP_aligned sz :
  0 ≤ sz → sz + PGSIZE - 1 < 2 ^ 64 → PGROUNDUP sz mod PGSIZE = 0.
Proof. intros. rewrite PGROUNDUP_eq by done. apply Z.mod_mul. done. Qed.

Lemma PGROUNDUP_bounds sz :
  0 ≤ sz → sz + PGSIZE - 1 < 2 ^ 64 → sz ≤ PGROUNDUP sz < sz + PGSIZE.
Proof. intros. rewrite PGROUNDUP_eq by done. unfold PGSIZE. zdm. Qed.

Lemma PGROUNDUP_of_aligned sz :
  0 ≤ sz → sz + PGSIZE - 1 < 2 ^ 64 → sz mod PGSIZE = 0 → PGROUNDUP sz = sz.
Proof. intros. rewrite PGROUNDUP_eq by done. unfold PGSIZE in *. zdm. Qed.

(** ** Page-table entries *)

Lemma has_testbit x k : 0 ≤ k → has x (2 ^ k) = Z.testbit x k.
Proof.
  intros Hk. unfold has. destruct (Z.testbit x k) eqn:E.
  - apply negb_true_iff, Z.eqb_neq. intros H.
    apply (f_equal (λ y, Z.testbit y k)) in H.
    rewrite Z.land_spec, E, Z.pow2_bits_true, Z.bits_0 in H by done. done.
  - apply negb_false_iff, Z.eqb_eq. apply Z.bits_inj_0. intros n.
    rewrite Z.land_spec. destruct (decide (n = k)) as [->|].
    + by rewrite E.
    + by rewrite Z.pow2_bits_false, andb_false_r by done.
Qed.

Lemma has_V x : has x PTE_V = Z.testbit x 0.
Proof. by apply (has_testbit x 0). Qed.
Lemma has_R x : has x PTE_R = Z.testbit x 1.
Proof. by apply (has_testbit x 1). Qed.
Lemma has_W x : has x PTE_W = Z.testbit x 2.
Proof. by apply (has_testbit x 2). Qed.
Lemma has_U x : has x PTE_U = Z.testbit x 4.
Proof. by apply (has_testbit x 4). Qed.

Lemma PTE_FLAGS_mod pte : PTE_FLAGS pte = pte mod 1024.
Proof. unfold PTE_FLAGS. change 1023 with (Z.ones 10). by rewrite Z.land_ones. Qed.

(** An aligned physical address below 2^56, with ten flag bits beside it. *)
Lemma lor_PA2PTE pa f :
  0 ≤ pa < 2 ^ 56 → pa mod PGSIZE = 0 → 0 ≤ f < 1024 →
  Z.lor (PA2PTE pa) f = pa / 4 + f.
Proof.
  intros Hpa Hal Hf. unfold PA2PTE, PGSIZE in *.
  rewrite Z.shiftl_mul_pow2, Z.shiftr_div_pow2 by lia.
  change (2 ^ 12) with 4096. change (2 ^ 10) with 1024.
  rewrite u64_id by zdm. rewrite <- Z.add_nocarry_lor; [zdm|].
  change 1024 with (2 ^ 10). rewrite <- Z.shiftl_mul_pow2 by lia.
  apply Z.bits_inj_0. intros n. rewrite Z.land_spec.
  destruct (decide (n < 10)).
  - by rewrite Z.shiftl_spec_low.
  - rewrite (Z.bits_above_log2 f n), andb_false_r; [done|lia|].
    destruct (decide (f = 0)) as [->|]; [simpl; lia|].
    apply Z.log2_lt_pow2; [lia|].
    apply Z.lt_le_trans with (2 ^ 10); [lia|]. apply Z.pow_le_mono_r; lia.
Qed.

Lemma lor_range f g k : 0 ≤ k → 0 ≤ f < 2 ^ k → 0 ≤ g < 2 ^ k → 0 ≤ Z.lor f g < 2 ^ k.
Proof.
  intros Hk Hf Hg. split; [by apply Z.lor_nonneg; lia|].
  destruct (decide (Z.lor f g = 0)) as [->|Hn]; [apply Z.pow_pos_nonneg; lia|].
  assert (0 ≤ Z.lor f g) by (apply Z.lor_nonneg; lia).
  assert (Hl : ∀ x, 0 ≤ x < 2 ^ k → x ≠ 0 → Z.log2 x < k)
    by (intros; apply Z.log2_lt_pow2; lia).
  destruct (decide (f = 0)) as [->|Hf0].
  { rewrite Z.lor_0_l. lia. }
  destruct (decide (g = 0)) as [->|Hg0].
  { rewrite Z.lor_0_r. lia. }
  apply Z.log2_lt_pow2; [lia|]. rewrite Z.log2_lor by lia.
  pose proof (Hl f Hf Hf0). pose proof (Hl g Hg Hg0). lia.
Qed.

Section pte.
Context (pa perm : Z).
Hypothesis Hpa : 0 ≤ pa < 2 ^ 56.
Hypothesis Hal : pa mod PGSIZE = 0.
Hypothesis Hperm : 0 ≤ perm < 1024.

Definition mkpte : Z := Z.lor (Z.lor (PA2PTE pa) perm) PTE_V.

Lemma mkpte_eq : mkpte = pa / 4 + Z.lor perm PTE_V.
Proof.
  unfold mkpte. rewrite <- Z.lor_assoc. apply lor_PA2PTE; try done.
  apply (lor_range _ _ 10); [lia|done|done].
Qed.

Lemma mkpte_flags_range : 0 ≤ Z.lor perm PTE_V < 1024.
Proof. apply (lor_range _ _ 10); [lia|done|done]. Qed.

Lemma mkpte_range : 0 ≤ mkpte < 2 ^ 64.
Proof. rewrite mkpte_eq. pose proof mkpte_flags_range. unfold PGSIZE in *. zdm. Qed.

Lemma PTE2PA_mkpte : PTE2PA mkpte = pa.
Proof.
  unfold PTE2PA. rewrite mkpte_eq. pose proof mkpte_flags_range. unfold PGSIZE in *.
  rewrite Z.shiftl_mul_pow2, Z.shiftr_div_pow2 by lia.
  change (2 ^ 10) with 1024. change (2 ^ 12) with 4096. rewrite u64_id; zdm.
Qed.

Lemma PTE_FLAGS_mkpte : PTE_FLAGS mkpte = Z.lor perm PTE_V.
Proof.
  rewrite PTE_FLAGS_mod, mkpte_eq. pose proof mkpte_flags_range. unfold PGSIZE in *. zdm.
Qed.

Lemma testbit_mkpte k : 0 ≤ k < 10 → Z.testbit mkpte k = Z.testbit (Z.lor perm PTE_V) k.
Proof.
  intros Hk. rewrite <- PTE_FLAGS_mkpte. unfold PTE_FLAGS.
  rewrite Z.land_spec. change 1023 with (Z.ones 10).
  rewrite Z.ones_spec_low, andb_true_r by lia. done.
Qed.

Lemma has_V_mkpte : has mkpte PTE_V = true.
Proof. rewrite has_V, testbit_mkpte by lia. rewrite Z.lor_spec. simpl. by rewrite orb_true_r. Qed.
End pte.

Lemma PTE2PA_aligned pte : PTE2PA pte mod PGSIZE = 0.
Proof.
  unfold PTE2PA, u64, PGSIZE. rewrite Z.shiftl_mul_pow2 by lia.
  change (2 ^ 12) with 4096. change (2 ^ 64) with (4096 * 4503599627370496). zdm.
Qed.

(** ** Page-table indices *)

Lemma PX_eq level va : 0 ≤ level → PX level va = va / 2 ^ PXSHIFT level mod 512.
Proof.
  intros. unfold PX, PXMASK. rewrite Z.shiftr_div_pow2 by (unfold PXSHIFT, PGSHIFT; lia).
  change 511 with (Z.ones 9). by rewrite Z.land_ones.
Qed.

Lemma PX_range level va : 0 ≤ level → 0 ≤ PX level va < 512.
Proof. intros. rewrite PX_eq by done. zdm. Qed.

(** The three indices determine the page of an address below 2^39. *)
Lemma PX_inj va va' :
  0 ≤ va < 2 ^ 39 → 0 ≤ va' < 2 ^ 39 →
  PX 2 va = PX 2 va' → PX 1 va = PX 1 va' → PX 0 va = PX 0 va' →
  va / PGSIZE = va' / PGSIZE.
Proof.
  intros Ha Ha'. rewrite !PX_eq by lia. unfold PXSHIFT, PGSHIFT, PGSIZE.
  change (2 ^ (12 + 9 * 2)) with (4096 * 512 * 512).
  change (2 ^ (12 + 9 * 1)) with (4096 * 512). change (2 ^ (12 + 9 * 0)) with 4096.
  rewrite <- !Z.div_div by lia.
  set (q := va / 4096). set (q' := va' / 4096). intros.
  assert (0 ≤ q < 2 ^ 27 ∧ 0 ≤ q' < 2 ^ 27) by (unfold q, q'; split; zdm).
  clearbody q q'. zdm.
Qed.

Lemma PX_page level va : 0 ≤ level → PX level (va - va mod PGSIZE) = PX level va.
Proof.
  intros. rewrite !PX_eq by done. unfold PXSHIFT, PGSHIFT, PGSIZE.
  rewrite Z.pow_add_r by lia. change (2 ^ 12) with 4096.
  rewrite <- !Z.div_div by (try apply Z.pow_pos_nonneg; lia).
  do 2 f_equal. zdm.
Qed.
