(* ===== verification/CString.v ===== *)
(** * CString: kernel/string.c

    The byte and string routines of the kernel.  [mem] is a byte-addressed
    memory; a [char *] that a routine only reads, or an array it fills without
    overlap, is an [arr], the function from the offset to the byte.  [char] is
    unsigned on RISC-V, so a byte is a [Z] in [0, 256). *)
From S2P Require Import Prelude.

Definition mem : Type := Z → Z.
Definition arr : Type := Z → Z.

Definition upd (m : mem) (a v : Z) : mem := λ x, if x =? a then v else m x.

(** The array a pointer [p] into the memory [m] points at. *)
Definition at_ptr (m : mem) (p : Z) : arr := λ i, m (p + i).

(** The array a list of bytes holds; past its end it reads as 0. *)
Definition arr_of (l : list Z) : arr := λ i, nth (Z.to_nat i) l 0.
Definition to_list (n : nat) (s : arr) : list Z := (λ i, s (Z.of_nat i)) <$> seq 0 n.

(** ** memset *)
Fixpoint memset_loop (k : nat) (cdst : Z) (c : Z) (i : Z) (m : mem) : mem :=
  match k with
  | O => m
  | S k => memset_loop k cdst c (i + 1) (upd m (cdst + i) (u8 c))
  end.

Definition memset (m : mem) (dst c n : Z) : mem := memset_loop (Z.to_nat n) dst c 0 m.

(** ** memcmp *)
Fixpoint memcmp_loop (k : nat) (s1 s2 : arr) (i : Z) : Z :=
  match k with
  | O => 0
  | S k => if negb (s1 i =? s2 i) then s1 i - s2 i else memcmp_loop k s1 s2 (i + 1)
  end.

Definition memcmp (v1 v2 : arr) (n : Z) : Z := memcmp_loop (Z.to_nat n) v1 v2 0.

(** ** memmove, memcpy *)
Fixpoint move_fwd (k : nat) (d s : Z) (m : mem) : mem :=
  match k with
  | O => m
  | S k => move_fwd k (d + 1) (s + 1) (upd m d (m s))
  end.

Fixpoint move_bwd (k : nat) (d s : Z) (m : mem) : mem :=
  match k with
  | O => m
  | S k => move_bwd k (d - 1) (s - 1) (upd m (d - 1) (m (s - 1)))
  end.

Definition memmove (m : mem) (dst src n : Z) : mem :=
  if n =? 0 then m
  else if (src <? dst) && (dst <? src + n)
  then move_bwd (Z.to_nat n) (dst + n) (src + n) m
  else move_fwd (Z.to_nat n) dst src m.

Definition memcpy (m : mem) (dst src n : Z) : mem := memmove m dst src n.

(** ** strncmp *)
Fixpoint strncmp_loop (n : nat) (p q : arr) (i : Z) : Z :=
  match n with
  | O => 0
  | S n =>
      if negb (p i =? 0) && (p i =? q i) then strncmp_loop n p q (i + 1)
      else u8 (p i) - u8 (q i)
  end.

Definition strncmp (p q : arr) (n : Z) : Z := strncmp_loop (Z.to_nat n) p q 0.

(** ** strncpy *)
Fixpoint strncpy_pad (n : nat) (i : Z) (s : arr) : arr :=
  match n with
  | O => s
  | S n => strncpy_pad n (i + 1) (upd s i 0)
  end.

Fixpoint strncpy_copy (n : nat) (i : Z) (s t : arr) : arr :=
  match n with
  | O => s
  | S n =>
      if negb (t i =? 0) then strncpy_copy n (i + 1) (upd s i (t i)) t
      else strncpy_pad n (i + 1) (upd s i (t i))
  end.

Definition strncpy (s t : arr) (n : Z) : arr := strncpy_copy (Z.to_nat n) 0 s t.

(** ** safestrcpy *)
Fixpoint safestrcpy_loop (n : nat) (i : Z) (s t : arr) : arr :=
  match n with
  | O => upd s i 0
  | S n =>
      if negb (t i =? 0) then safestrcpy_loop n (i + 1) (upd s i (t i)) t
      else upd (upd s i (t i)) (i + 1) 0
  end.

Definition safestrcpy (s t : arr) (n : Z) : arr :=
  if n <=? 0 then s else safestrcpy_loop (Z.to_nat (n - 1)) 0 s t.

(** ** strlen: fuel bounds the scan for the NUL *)
Fixpoint strlen_loop (fuel : nat) (s : arr) (n : Z) : option Z :=
  match fuel with
  | O => None
  | S fuel => if negb (s n =? 0) then strlen_loop fuel s (n + 1) else Some n
  end.

Definition strlen (fuel : nat) (s : arr) : option Z := strlen_loop fuel s 0.

(** ** Specification: the C string at the start of an array *)

(** The bytes of [s] from offset [i] up to the first NUL, at most [k] of them. *)
Fixpoint cstr (k : nat) (s : arr) (i : Z) : list Z :=
  match k with
  | O => []
  | S k => if s i =? 0 then [] else s i :: cstr k s (i + 1)
  end.

Lemma upd_eq m a v : upd m a v a = v.
Proof. unfold upd. by rewrite Z.eqb_refl. Qed.

Lemma upd_ne m a v x : x ≠ a → upd m a v x = m x.
Proof. intros. unfold upd. by apply Z.eqb_neq in H as ->. Qed.

Lemma upd_spec m a v x : upd m a v x = if decide (x = a) then v else m x.
Proof. case_decide; [subst; apply upd_eq|by apply upd_ne]. Qed.

Create HintDb cmem discriminated.
#[export] Hint Rewrite upd_eq : cmem.
#[export] Hint Rewrite upd_ne using lia : cmem.

Lemma memset_loop_spec k cdst c i m x :
  memset_loop k cdst c i m x =
    if decide (cdst + i ≤ x < cdst + i + Z.of_nat k) then u8 c else m x.
Proof.
  revert i m. induction k as [|k IH]; intros i m; simpl memset_loop.
  - rewrite decide_False by lia. done.
  - rewrite IH, upd_spec. repeat case_decide; done || lia.
Qed.

Lemma memset_spec m dst c n x :
  0 ≤ n → memset m dst c n x = if decide (dst ≤ x < dst + n) then u8 c else m x.
Proof.
  intros. unfold memset. rewrite memset_loop_spec.
  repeat case_decide; done || lia.
Qed.

(** The backward loop reads only bytes it has not overwritten yet. *)
Lemma move_bwd_spec k d s m x :
  s ≤ d →
  move_bwd k d s m x =
    if decide (d - Z.of_nat k ≤ x < d) then m (x - d + s) else m x.
Proof.
  revert d s m. induction k as [|k IH]; intros d s m Hsd; simpl move_bwd.
  - rewrite decide_False by lia. done.
  - rewrite IH by lia. rewrite !upd_spec.
    repeat case_decide; try done; try lia; f_equal; lia.
Qed.

(** The forward loop is right when the destination is below the source or
    past the bytes to copy. *)
Lemma move_fwd_spec k d s m x :
  d ≤ s ∨ s + Z.of_nat k ≤ d →
  move_fwd k d s m x =
    if decide (d ≤ x < d + Z.of_nat k) then m (x - d + s) else m x.
Proof.
  revert d s m. induction k as [|k IH]; intros d s m Hsd; simpl move_fwd.
  - rewrite decide_False by lia. done.
  - rewrite IH by lia. rewrite !upd_spec.
    repeat case_decide; try done; try lia; f_equal; lia.
Qed.

Lemma memmove_eq m dst src n x :
  0 ≤ n →
  memmove m dst src n x = if decide (dst ≤ x < dst + n) then m (x - dst + src) else m x.
Proof.
  intros Hn. unfold memmove. case_test.
  { rewrite decide_False by lia. done. }
  case_test.
  - rewrite move_bwd_spec by lia. repeat case_decide; try done; try lia; f_equal; lia.
  - rewrite move_fwd_spec by lia. repeat case_decide; try done; try lia.
Qed.

(** ** strncmp compares the C strings of the first [n] bytes *)

Lemma strncmp_loop_refl n p i : strncmp_loop n p p i = 0.
Proof.
  revert i. induction n as [|n IH]; intros i; [done|]. simpl. rewrite Z.eqb_refl, andb_true_r.
  case_test; [apply IH|lia].
Qed.

Lemma strncmp_loop_zero n p q i :
  (∀ j, 0 ≤ p j < 256) → (∀ j, 0 ≤ q j < 256) →
  strncmp_loop n p q i = 0 ↔ cstr n p i = cstr n q i.
Proof.
  intros Hp Hq. revert i. induction n as [|n IH]; intros i; [done|]. simpl.
  pose proof (Hp i). pose proof (Hq i). rewrite !u8_id by done.
  destruct (Z.eqb_spec (p i) 0) as [Ep|Ep], (Z.eqb_spec (q i) 0) as [Eq|Eq],
    (Z.eqb_spec (p i) (q i)) as [E|E]; simpl; try lia; try (by split; intros; first [done|lia]).
  - rewrite IH. rewrite E. split; [by intros ->|by intros [=]].
  - split; [lia|]. intros [=]. lia.
Qed.

Lemma strncmp_zero p q n :
  (∀ j, 0 ≤ p j < 256) → (∀ j, 0 ≤ q j < 256) →
  strncmp p q n = 0 ↔ cstr (Z.to_nat n) p 0 = cstr (Z.to_nat n) q 0.
Proof. apply strncmp_loop_zero. Qed.

(** ** strncpy copies the string and pads with NULs *)

Lemma strncpy_pad_spec n i s x :
  strncpy_pad n i s x = if decide (i ≤ x < i + Z.of_nat n) then 0 else s x.
Proof.
  revert i s. induction n as [|n IH]; intros i s; simpl strncpy_pad.
  - rewrite decide_False by lia. done.
  - rewrite IH, upd_spec. repeat case_decide; done || lia.
Qed.

Lemma strncpy_copy_out n i s t x :
  ¬ (i ≤ x < i + Z.of_nat n) → strncpy_copy n i s t x = s x.
Proof.
  revert i s. induction n as [|n IH]; intros i s Hx; [done|]. cbn [strncpy_copy].
  case_test.
  - rewrite IH by lia. apply upd_ne. lia.
  - rewrite strncpy_pad_spec, decide_False by lia. apply upd_ne. lia.
Qed.

Lemma strncpy_copy_cstr n i s t :
  cstr n (strncpy_copy n i s t) i = cstr n t i.
Proof.
  revert i s. induction n as [|n IH]; intros i s; [done|]. cbn [strncpy_copy cstr].
  destruct (Z.eqb_spec (t i) 0) as [E|E]; cbn [negb].
  - rewrite strncpy_pad_spec, decide_False, upd_eq by lia. by rewrite E.
  - rewrite (strncpy_copy_out n (i + 1)) by lia. rewrite upd_eq, IH.
    by apply Z.eqb_neq in E as ->.
Qed.

Lemma strncpy_copy_nul n i s t x :
  i ≤ x < i + Z.of_nat n → i + Z.of_nat (length (cstr n t i)) ≤ x →
  strncpy_copy n i s t x = 0.
Proof.
  revert i s. induction n as [|n IH]; intros i s Hx Hl; [lia|].
  cbn [strncpy_copy cstr] in *. destruct (Z.eqb_spec (t i) 0) as [E|E]; simpl in *.
  - rewrite strncpy_pad_spec, upd_spec. repeat case_decide; lia.
  - apply IH; lia.
Qed.

Lemma strncpy_copy_byte n i s t :
  (∀ j, 0 ≤ t j < 256) → (∀ j, 0 ≤ s j < 256) → ∀ j, 0 ≤ strncpy_copy n i s t j < 256.
Proof.
  intros Ht. revert i s. induction n as [|n IH]; intros i s Hs j; [auto|]. cbn [strncpy_copy].
  case_test.
  - apply IH. intros x. rewrite upd_spec. case_decide; auto.
  - rewrite strncpy_pad_spec, upd_spec. repeat case_decide; try lia; auto.
Qed.

Lemma cstr_byte n t i :
  (∀ j, 0 ≤ t j < 256) → Forall (λ b, 0 < b < 256) (cstr n t i).
Proof.
  intros Ht. revert i. induction n as [|n IH]; intros i; simpl; [constructor|].
  case_test; constructor; auto. specialize (Ht i). lia.
Qed.

(** ** safestrcpy always terminates the string inside the buffer *)

Lemma safestrcpy_loop_out n i s t x :
  ¬ (i ≤ x ≤ i + Z.of_nat n) → safestrcpy_loop n i s t x = s x.
Proof.
  revert i s. induction n as [|n IH]; intros i s Hx; cbn [safestrcpy_loop].
  - apply upd_ne. lia.
  - case_test.
    + rewrite IH by lia. apply upd_ne. lia.
    + rewrite !upd_ne by lia. done.
Qed.

Lemma safestrcpy_loop_cstr n i s t :
  cstr (S n) (safestrcpy_loop n i s t) i = cstr n t i.
Proof.
  revert i s. induction n as [|n IH]; intros i s; cbn [safestrcpy_loop].
  - simpl. by rewrite upd_eq.
  - destruct (Z.eqb_spec (t i) 0) as [E|E]; cbn [negb].
    + cbn [cstr]. rewrite upd_ne, upd_eq by lia. by rewrite E.
    + pose proof (IH (i + 1) (upd s i (t i))) as IHi. cbn [cstr] in IHi |- *.
      rewrite (safestrcpy_loop_out n (i + 1) _ t i), upd_eq by lia.
      apply Z.eqb_neq in E as ->. f_equal. exact IHi.
Qed.

Lemma safestrcpy_loop_nul n i s t :
  ∃ k, i ≤ k ≤ i + Z.of_nat n ∧ safestrcpy_loop n i s t k = 0.
Proof.
  revert i s. induction n as [|n IH]; intros i s; cbn [safestrcpy_loop].
  - exists i. split; [lia|apply upd_eq].
  - case_test.
    + destruct (IH (i + 1) (upd s i (t i))) as (k & ? & ?). exists k. split; [lia|done].
    + exists (i + 1). split; [lia|apply upd_eq].
Qed.

(** ** strlen finds the first NUL *)

Lemma strlen_loop_spec fuel s i k :
  (k < fuel)%nat → s (i + Z.of_nat k) = 0 → (∀ j, i ≤ j < i + Z.of_nat k → s j ≠ 0) →
  strlen_loop fuel s i = Some (i + Z.of_nat k).
Proof.
  revert i k. induction fuel as [|fuel IH]; intros i k Hk Hz Hn; [lia|]. simpl.
  destruct k as [|k].
  - replace (i + Z.of_nat 0) with i in * by lia. rewrite Hz. done.
  - destruct (Z.eqb_spec (s i) 0) as [E|E]; [exfalso; apply (Hn i); [lia|done]|].
    simpl. rewrite (IH (i + 1) k); [f_equal; lia|lia| |].
    + rewrite <- Hz. f_equal. lia.
    + intros j Hj. apply Hn. lia.
Qed.

(** ** Typed access: an [n]-byte little-endian object at address [a] *)

Definition read_bytes (m : mem) (a : Z) (n : nat) : list Z := to_list n (at_ptr m a).

Definition write_bytes (m : mem) (a : Z) (l : list Z) : mem := λ x,
  if (a <=? x) && (x <? a + Z.of_nat (length l)) then nth (Z.to_nat (x - a)) l 0 else m x.

Definition load64 (m : mem) (a : Z) : Z := le_val (read_bytes m a 8).
Definition store64 (m : mem) (a v : Z) : mem := write_bytes m a (le_bytes 8 v).
Definition load32 (m : mem) (a : Z) : Z := le_val (read_bytes m a 4).
Definition store32 (m : mem) (a v : Z) : mem := write_bytes m a (le_bytes 4 v).

Lemma length_read_bytes m a n : length (read_bytes m a n) = n.
Proof. unfold read_bytes, to_list. by rewrite length_fmap, length_seq. Qed.

Lemma lookup_read_bytes m a n i :
  (i < n)%nat → read_bytes m a n !! i = Some (m (a + Z.of_nat i)).
Proof.
  intros. unfold read_bytes, to_list. rewrite list_lookup_fmap, lookup_seq_lt by done. done.
Qed.

Lemma read_bytes_ext m m' a n :
  (∀ x, a ≤ x < a + Z.of_nat n → m x = m' x) → read_bytes m a n = read_bytes m' a n.
Proof.
  intros H. apply list_eq_same_length with n; rewrite ?length_read_bytes; try done.
  intros i x y Hi. rewrite !lookup_read_bytes by done. intros [= <-] [= <-].
  apply H. lia.
Qed.

Lemma write_bytes_out m a l x :
  ¬ (a ≤ x < a + Z.of_nat (length l)) → write_bytes m a l x = m x.
Proof. intros. unfold write_bytes. case_test; [lia|done]. Qed.

Lemma write_bytes_in m a l i v :
  l !! i = Some v → write_bytes m a l (a + Z.of_nat i) = v.
Proof.
  intros Hl. pose proof (lookup_lt_Some _ _ _ Hl). unfold write_bytes.
  replace ((a <=? _) && _) with true; [|symmetry; apply andb_true_iff; split; lia].
  replace (Z.to_nat (a + Z.of_nat i - a)) with i by lia.
  apply nth_lookup_Some with (d := 0) in Hl. done.
Qed.

Lemma read_write_bytes m a l : read_bytes (write_bytes m a l) a (length l) = l.
Proof.
  apply list_eq_same_length with (length l); rewrite ?length_read_bytes; try done.
  intros i x y Hi. rewrite lookup_read_bytes by done. intros [= <-] Hy.
  by apply write_bytes_in.
Qed.

Lemma read_write_bytes_disjoint m a l b n :
  b + Z.of_nat n ≤ a ∨ a + Z.of_nat (length l) ≤ b →
  read_bytes (write_bytes m a l) b n = read_bytes m b n.
Proof. intros. apply read_bytes_ext. intros. apply write_bytes_out. lia. Qed.

Lemma read_bytes_byte m a n :
  (∀ x, 0 ≤ m x < 256) → Forall (λ b, 0 ≤ b < 256) (read_bytes m a n).
Proof.
  intros H. apply Forall_lookup. intros i x Hx.
  pose proof (lookup_lt_Some _ _ _ Hx) as Hl. rewrite length_read_bytes in Hl.
  rewrite lookup_read_bytes in Hx by done. injection Hx as <-. apply H.
Qed.

Lemma load64_store64 m a v : load64 (store64 m a v) a = u64 v.
Proof.
  unfold load64, store64. rewrite <- (length_le_bytes 8 v) at 2.
  rewrite read_write_bytes, le_val_le_bytes. done.
Qed.

Lemma load64_ext m m' a :
  (∀ x, a ≤ x < a + 8 → m x = m' x) → load64 m a = load64 m' a.
Proof. intros H. unfold load64. f_equal. apply read_bytes_ext. intros. apply H. lia. Qed.

Lemma store64_out m a v x : ¬ (a ≤ x < a + 8) → store64 m a v x = m x.
Proof. intros. unfold store64. apply write_bytes_out. rewrite length_le_bytes. lia. Qed.

Lemma load64_store64_ne m a v b :
  b + 8 ≤ a ∨ a + 8 ≤ b → load64 (store64 m a v) b = load64 m b.
Proof. intros. apply load64_ext. intros. apply store64_out. lia. Qed.

Lemma load64_zero m a : (∀ x, a ≤ x < a + 8 → m x = 0) → load64 m a = 0.
Proof.
  intros H. rewrite (load64_ext m (λ _, 0) a); [done|]. intros. by apply H.
Qed.

Lemma load64_range m a : (∀ x, 0 ≤ m x < 256) → 0 ≤ load64 m a < 2 ^ 64.
Proof.
  intros H. unfold load64. pose proof (le_val_range _ (read_bytes_byte m a 8 H)) as Hr.
  rewrite length_read_bytes in Hr. exact Hr.
Qed.

Lemma load32_store32 m a v : load32 (store32 m a v) a = u32 v.
Proof.
  unfold load32, store32. rewrite <- (length_le_bytes 4 v) at 2.
  rewrite read_write_bytes, le_val_le_bytes. done.
Qed.

Lemma store32_out m a v x : ¬ (a ≤ x < a + 4) → store32 m a v x = m x.
Proof. intros. unfold store32. apply write_bytes_out. rewrite length_le_bytes. lia. Qed.

Lemma load32_ext m m' a :
  (∀ x, a ≤ x < a + 4 → m x = m' x) → load32 m a = load32 m' a.
Proof. intros H. unfold load32. f_equal. apply read_bytes_ext. intros. apply H. lia. Qed.

(** Proofs use the specifications above, never the loops. *)
#[global] Opaque memset memmove.

(** ** Properties *)

(** [memmove] copies [n] bytes from [src] to [dst] as they were before
    the call, whatever the overlap of the two ranges, and changes nothing else. *)
Theorem memmove_correct (m : mem) (dst src n : Z) (Hn : 0 ≤ n) :
  ∀ x, memmove m dst src n x =
    if decide (dst ≤ x < dst + n) then m (src + (x - dst)) else m x.
Proof.
  intros x. rewrite memmove_eq by done. case_decide; [f_equal; lia|done].
Qed.

Lemma memmove_correct_witness :
  memmove (λ a, a) 3 1 4 6 = 4 ∧ memmove (λ a, a) 1 3 4 4 = 6.
Proof.
  split.
  - rewrite (memmove_correct (λ a, a) 3 1 4 ltac:(lia) 6). reflexivity.
  - rewrite (memmove_correct (λ a, a) 1 3 4 ltac:(lia) 4). reflexivity.
Defined.

(** After [strncpy(s, t, n)] the first [n] bytes of [s] hold the C
    string of [t] cut at [n] bytes, padded with NULs, and nothing past them is
    touched; so [strncmp(s, t, n)] is 0. *)
Theorem strncpy_strncmp (s t : arr) (n : Z)
    (Hn : 0 ≤ n) (Ht : ∀ j, 0 ≤ t j < 256) (Hs : ∀ j, 0 ≤ s j < 256) :
  strncmp (strncpy s t n) t n = 0 ∧
  (∀ x, Z.of_nat (length (cstr (Z.to_nat n) t 0)) ≤ x < n → strncpy s t n x = 0) ∧
  (∀ x, ¬ (0 ≤ x < n) → strncpy s t n x = s x).
Proof.
  assert (Hb : ∀ j, 0 ≤ strncpy s t n j < 256).
  { intros j. by apply strncpy_copy_byte. }
  split; [|split].
  - apply strncmp_zero; [done..|]. apply strncpy_copy_cstr.
  - intros x Hx. apply strncpy_copy_nul; lia.
  - intros x Hx. apply strncpy_copy_out. lia.
Qed.

Lemma strncpy_strncmp_witness :
  strncmp (strncpy (λ _, 7) (arr_of [104; 105]) 14) (arr_of [104; 105]) 14 = 0.
Proof.
  apply (strncpy_strncmp (λ _, 7) (arr_of [104; 105]) 14); [lia| |lia].
  intros j. unfold arr_of. destruct (Z.to_nat j) as [|[|[|]]]; simpl; lia.
Defined.

(** [safestrcpy(s, t, n)] with [n > 0] leaves in [s] the C string
    of [t] cut at [n-1] bytes, NUL-terminated inside the [n] bytes, and writes
    nothing outside them. *)
Theorem safestrcpy_terminates (s t : arr) (n : Z) (Hn : 0 < n) :
  cstr (Z.to_nat n) (safestrcpy s t n) 0 = cstr (Z.to_nat (n - 1)) t 0 ∧
  (∃ k, 0 ≤ k < n ∧ safestrcpy s t n k = 0) ∧
  (∀ x, ¬ (0 ≤ x < n) → safestrcpy s t n x = s x).
Proof.
  unfold safestrcpy. case_test; [lia|].
  assert (Hc : cstr (S (Z.to_nat (n - 1))) (safestrcpy_loop (Z.to_nat (n - 1)) 0 s t) 0
               = cstr (Z.to_nat (n - 1)) t 0) by apply safestrcpy_loop_cstr.
  replace (S (Z.to_nat (n - 1))) with (Z.to_nat n) in Hc by lia.
  split; [done|]. split.
  - destruct (safestrcpy_loop_nul (Z.to_nat (n - 1)) 0 s t) as (k & ? & ?).
    exists k. split; [lia|done].
  - intros x Hx. apply safestrcpy_loop_out. lia.
Qed.

Lemma safestrcpy_terminates_witness :
  cstr 3 (safestrcpy (λ _, 9) (arr_of [104; 105; 106; 107]) 3) 0 = [104; 105].
Proof.
  destruct (safestrcpy_terminates (λ _, 9) (arr_of [104; 105; 106; 107]) 3 ltac:(lia))
    as [H _]. exact H.
Defined.
