(* ===== verification/Kalloc.v ===== *)
(** * Kalloc: kernel/kalloc.c, the physical page allocator

    State: the physical memory and [kmem.freelist].  The free list is threaded
    through the free pages themselves ([struct run] at the start of the page),
    so it is a chain in memory here too.  The critical sections of [kmem.lock]
    are single steps (Spinlock.v proves the lock's mutual exclusion).

    [kend] is the linker symbol [end], the first address after the kernel. *)
From S2P Require Import Prelude Riscv CString.

Record kmem : Type := mkKmem {
  km_mem : mem;
  km_freelist : Z;      (* struct run *freelist; 0 is the null pointer *)
}.

Definition set_mem (m : mem) (s : kmem) : kmem := mkKmem m (km_freelist s).
Definition set_freelist (p : Z) (s : kmem) : kmem := mkKmem (km_mem s) p.

Definition memset_page (pa c : Z) : M kmem unit :=
  modify (λ s, set_mem (memset (km_mem s) pa c PGSIZE) s).

Section Kalloc.
Context (kend : Z).

Definition kfree (pa : Z) : M kmem unit :=
  if negb (pa mod PGSIZE =? 0) || (pa <? kend) || (PHYSTOP <=? pa)
  then panic "kfree"
  else
    (* Fill with junk to catch dangling refs. *)
    memset_page pa 1 ;;;
    (* r->next = kmem.freelist; kmem.freelist = r; *)
    modify (λ s, set_mem (store64 (km_mem s) pa (km_freelist s)) s) ;;;
    modify (set_freelist pa).

Definition kalloc : M kmem Z :=
  do r <- gets km_freelist;
  (if negb (r =? 0) then modify (λ s, set_freelist (load64 (km_mem s) r) s) else ret tt) ;;;
  (if negb (r =? 0) then memset_page r 5 else ret tt) ;;;
  ret r.

(** The loop of [freerange]; [fuel] bounds its iterations. *)
Fixpoint freerange_loop (fuel : nat) (p pa_end : Z) : M kmem unit :=
  if p + PGSIZE <=? pa_end then
    match fuel with
    | O => nofuel
    | S fuel => kfree p ;;; freerange_loop fuel (p + PGSIZE) pa_end
    end
  else ret tt.

Definition freerange (pa_start pa_end : Z) : M kmem unit :=
  let p := PGROUNDUP pa_start in
  freerange_loop (Z.to_nat ((pa_end - p) / PGSIZE)) p pa_end.

Definition kinit : M kmem unit := freerange kend PHYSTOP.

(** ** Abstract state: the list of free pages, the next one to allocate first *)

Definition page_ok (p : Z) : Prop := p mod PGSIZE = 0 ∧ kend ≤ p < PHYSTOP.
Definition in_page (p x : Z) : Prop := p ≤ x < p + PGSIZE.

Fixpoint run_chain (m : mem) (head : Z) (l : list Z) : Prop :=
  match l with
  | [] => head = 0
  | p :: l => head = p ∧ p ≠ 0 ∧ run_chain m (load64 m p) l
  end.

Definition kinv (s : kmem) (l : list Z) : Prop :=
  run_chain (km_mem s) (km_freelist s) l ∧ NoDup l ∧ Forall page_ok l.

#[export] Instance in_page_dec p x : Decision (in_page p x).
Proof. unfold in_page. apply _. Defined.

#[export] Instance page_ok_dec p : Decision (page_ok p).
Proof. unfold page_ok. apply _. Defined.

(** Distinct pages do not overlap. *)
Lemma in_page_disjoint p q x :
  page_ok p → page_ok q → p ≠ q → in_page p x → in_page q x → False.
Proof. unfold page_ok, in_page, PGSIZE. intros [??] [??] ???. zdm. Qed.

Lemma run_chain_ext m m' h l :
  Forall page_ok l → (∀ p x, p ∈ l → in_page p x → m x = m' x) →
  run_chain m h l → run_chain m' h l.
Proof.
  revert h. induction l as [|p l IH]; intros h Hok Hm; simpl; [done|].
  intros (-> & Hp & Hc). split; [done|]. split; [done|].
  apply Forall_cons in Hok as [Hpok Hok].
  rewrite <- (load64_ext m m' p).
  - apply IH; [done| |done]. intros q x Hq. apply Hm. by right.
  - intros x Hx. apply (Hm p); [by left|]. unfold in_page, PGSIZE. lia.
Qed.

(** The allocator's state survives writes outside its free pages. *)
Lemma kinv_write s m' l :
  kinv s l → (∀ p x, p ∈ l → in_page p x → km_mem s x = m' x) → kinv (set_mem m' s) l.
Proof. intros (Hc & Hd & Hok) Hm. split; [|done]. simpl. by eapply run_chain_ext. Qed.

Section Spec.
Hypothesis Hend : KERNBASE ≤ kend.

Lemma page_ok_range p : page_ok p → 0 < p < 2 ^ 32 ∧ p mod PGSIZE = 0.
Proof. unfold page_ok, KERNBASE, PHYSTOP, KERNBASE in *. lia. Qed.

Lemma kalloc_spec s l :
  kinv s l →
  wp kalloc (λ r s',
    match l with
    | [] => r = 0 ∧ s' = s
    | p :: l' =>
        r = p ∧ kinv s' l' ∧
        (∀ x, km_mem s' x = if decide (in_page p x) then 5 else km_mem s x)
    end) s.
Proof.
  intros (Hc & Hd & Hok). unfold wp, kalloc, gets, bind, memset_page, modify.
  destruct l as [|p l]; simpl in Hc.
  - rewrite Hc. done.
  - destruct Hc as (-> & Hp & Hc). apply Z.eqb_neq in Hp as ->. simpl.
    apply NoDup_cons in Hd as [Hpl Hd]. apply Forall_cons in Hok as [Hpok Hok].
    assert (Hm : ∀ x, memset (km_mem s) p 5 PGSIZE x =
                      if decide (in_page p x) then 5 else km_mem s x).
    { intros x. rewrite memset_spec by done. done. }
    split; [done|]. split; [|done]. split; [|done]. simpl.
    eapply run_chain_ext; [done| |done]. intros q x Hq Hx. rewrite Hm.
    case_decide; [|done]. exfalso.
    apply (in_page_disjoint p q x); try done; [|congruence].
    by eapply Forall_forall in Hok; [|exact Hq].
Qed.

Lemma kfree_spec s l pa :
  kinv s l → page_ok pa → pa ∉ l →
  wp (kfree pa) (λ _ s',
    kinv s' (pa :: l) ∧ (∀ x, ¬ in_page pa x → km_mem s' x = km_mem s x)) s.
Proof.
  intros (Hc & Hd & Hok) Hpa Hnin. unfold wp, kfree.
  pose proof (page_ok_range pa Hpa) as [Hr Hal]. destruct Hpa as [Hal' Hb].
  replace (_ || _ || _) with false by (symmetry; rewrite !orb_false_iff, negb_false_iff; lia).
  unfold memset_page, modify, bind. simpl.
  assert (Hout : ∀ x, ¬ in_page pa x →
    store64 (memset (km_mem s) pa 1 PGSIZE) pa (km_freelist s) x = km_mem s x).
  { intros x Hx. unfold in_page, PGSIZE in *. rewrite store64_out by lia.
    rewrite memset_spec, decide_False by lia. done. }
  split; [|done]. split; [|split; [by constructor|by constructor]].
  simpl. split; [done|]. split; [lia|].
  rewrite load64_store64.
  assert (Hfl : 0 ≤ km_freelist s < 2 ^ 64).
  { destruct l as [|q l]; simpl in Hc; [lia|]. destruct Hc as (-> & _).
    apply Forall_cons in Hok as [Hq _]. apply page_ok_range in Hq. lia. }
  rewrite u64_id by done.
  eapply run_chain_ext; [done| |done]. intros q x Hq Hx. symmetry. apply Hout.
  intros Hx'. eapply (in_page_disjoint pa q x); try done.
  - by eapply Forall_forall in Hok; [|exact Hq].
  - congruence.
Qed.

Lemma kfree_panic s pa : ¬ page_ok pa → kfree pa s = Panic "kfree".
Proof.
  intros Hn. unfold kfree. case_test; [done|].
  exfalso. apply Hn. unfold page_ok. lia.
Qed.

(** [freerange] pushes every whole page of the range, the last one on top. *)
Lemma freerange_loop_spec fuel p pa_end s l :
  kinv s l → p mod PGSIZE = 0 → kend ≤ p → pa_end ≤ PHYSTOP →
  (∀ q, q ∈ l → q < p) →
  (pa_end - p) / PGSIZE ≤ Z.of_nat fuel →
  wp (freerange_loop fuel p pa_end) (λ _ s', ∃ l',
    kinv s' l' ∧
    (∀ q, q ∈ l' ↔ q ∈ l ∨ (q mod PGSIZE = 0 ∧ p ≤ q ∧ q + PGSIZE ≤ pa_end)) ∧
    (∀ x, (∀ q, q ∈ l' → ¬ in_page q x) → km_mem s' x = km_mem s x)) s.
Proof.
  revert p s l. induction fuel as [|fuel IH]; intros p s l Hk Hal Hp Hpe Hlt Hf;
    cbn [freerange_loop].
  - case_test; [unfold PGSIZE in *; zdm|]. exists l.
    split; [done|]. split; [|done]. intros q. split; [by left|]. intros [?|]; [done|lia].
  - case_test.
    + eapply wp_seq.
      { apply (kfree_spec s l p); [done|unfold page_ok, PGSIZE in *; lia|].
        intros Hin. specialize (Hlt p Hin). lia. }
      intros _ s1 [Hk1 Hm1]. eapply wp_mono.
      { apply (IH (p + PGSIZE) s1 (p :: l)); try done.
        - unfold PGSIZE in *. zdm.
        - unfold PGSIZE in *. lia.
        - intros q [->|Hq]%elem_of_cons; [unfold PGSIZE; lia|].
          specialize (Hlt q Hq). unfold PGSIZE. lia.
        - unfold PGSIZE in *. zdm. }
      intros _ s2 (l' & Hk2 & Hl' & Hm2). exists l'. split; [done|]. split.
      * intros q. rewrite Hl', elem_of_cons. split.
        -- intros [[->|?]|?]; [right|by left|right]; unfold PGSIZE in *; lia.
        -- intros [?|(Hq1 & Hq2 & Hq3)]; [tauto|].
           destruct (decide (q = p)) as [->|]; [tauto|].
           right. split; [done|]. split; [|done]. unfold PGSIZE in *. zdm.
      * intros x Hx. rewrite Hm2 by done. apply Hm1. apply Hx, Hl'. left. by left.
    + exists l. split; [done|]. split; [|done].
      intros q. split; [by left|]. intros [?|]; [done|lia].
Qed.

(** ** The life of the allocator

    [owned] are the pages handed out and not given back.  A client may free a
    page it owns and write into pages it owns; nothing else. *)
Inductive kstep : kmem * list Z → kmem * list Z → Prop :=
| kstep_alloc s owned p s' :
    kalloc s = Ok p s' → p ≠ 0 → kstep (s, owned) (s', p :: owned)
| kstep_alloc_fail s owned s' :
    kalloc s = Ok 0 s' → kstep (s, owned) (s', owned)
| kstep_free s o1 p o2 s' :
    kfree p s = Ok tt s' → kstep (s, o1 ++ p :: o2) (s', o1 ++ o2)
| kstep_write s owned m' :
    (∀ x, (∀ p, p ∈ owned → ¬ in_page p x) → m' x = km_mem s x) →
    kstep (s, owned) (set_mem m' s, owned).

(** Owned and free pages together are, at all times, all the pages. *)
Definition kstate_ok (c : kmem * list Z) : Prop :=
  ∃ l, kinv c.1 l ∧ NoDup (c.2 ++ l) ∧ ∀ p, p ∈ c.2 ++ l ↔ page_ok p.

Lemma kstep_preserves c c' : kstate_ok c → kstep c c' → kstate_ok c'.
Proof.
  intros (l & Hk & Hd & Hall) Hs. destruct Hs as [s owned p s' Ha Hp|s owned s' Ha|s o1 p o2 s' Hf|s owned m' Hm];
    cbn [fst snd] in *.
  - pose proof (kalloc_spec s l Hk) as Hw. unfold wp in Hw. rewrite Ha in Hw.
    destruct l as [|q l]; [naive_solver|]. destruct Hw as (-> & Hk' & _).
    exists l. split; [done|]. cbn [fst snd]. split.
    + eapply NoDup_Permutation_proper; [|exact Hd]. solve_Permutation.
    + intros r. rewrite <- Hall. rewrite !elem_of_app, !elem_of_cons. tauto.
  - pose proof (kalloc_spec s l Hk) as Hw. unfold wp in Hw. rewrite Ha in Hw.
    destruct l as [|q l]; [destruct Hw as [_ ->]; by exists []|].
    destruct Hw as (<- & _). destruct Hk as (_ & _ & Hok).
    apply Forall_cons in Hok as [Hq _]. apply page_ok_range in Hq. lia.
  - assert (Hpok : page_ok p) by (apply Hall; set_solver).
    assert (Hp : p ∉ l).
    { intros Hin. rewrite <- app_assoc in Hd. apply NoDup_app in Hd as (_ & _ & Hd).
      simpl in Hd. apply NoDup_cons in Hd as [Hd _]. apply Hd. set_solver. }
    pose proof (kfree_spec s l p Hk Hpok Hp) as Hw. unfold wp in Hw. rewrite Hf in Hw.
    destruct Hw as [Hk' _]. exists (p :: l). split; [done|]. cbn [fst snd]. split.
    + eapply NoDup_Permutation_proper; [|exact Hd]. solve_Permutation.
    + intros r. rewrite <- Hall. set_solver.
  - exists l. split; [|done]. apply kinv_write; [done|].
    intros p x Hp Hx. symmetry. apply Hm. intros q Hq Hqx.
    assert (page_ok q ∧ page_ok p) as [??] by (split; apply Hall; set_solver).
    apply (in_page_disjoint p q x); try done. intros ->.
    apply NoDup_app in Hd as (_ & Hd & _). by apply (Hd q).
Qed.

Lemma kinit_spec s :
  kend ≤ PHYSTOP → km_freelist s = 0 →
  wp kinit (λ _ s', ∃ l,
    kinv s' l ∧ (∀ q, q ∈ l ↔ page_ok q) ∧
    (∀ x, (∀ q, page_ok q → ¬ in_page q x) → km_mem s' x = km_mem s x)) s.
Proof.
  intros Hke Hf. unfold kinit, freerange, KERNBASE, PHYSTOP, KERNBASE in *.
  assert (Hr : kend + PGSIZE - 1 < 2 ^ 64) by (unfold PGSIZE; lia).
  pose proof (PGROUNDUP_bounds kend ltac:(lia) Hr) as Hb.
  pose proof (PGROUNDUP_aligned kend ltac:(lia) Hr) as Ha.
  eapply wp_mono.
  { apply (freerange_loop_spec _ (PGROUNDUP kend) _ s []); try done.
    - split; [done|]. split; [constructor|constructor].
    - lia.
    - intros q Hq. by apply not_elem_of_nil in Hq.
    - lia. }
  intros _ s' (l & Hk & Hl & Hm). exists l. split; [done|].
  assert (Hiff : ∀ q, q ∈ l ↔ page_ok q).
  { intros q. rewrite Hl. unfold page_ok, PHYSTOP, KERNBASE, PGSIZE in *. split.
    - intros [Hq|?]; [by apply not_elem_of_nil in Hq|]. lia.
    - intros [??]. right. split; [done|]. zdm. }
  split; [done|]. intros x Hx. apply Hm. intros q Hq. by apply Hx, Hiff.
Qed.

Lemma kinit_state_ok s s' :
  kend ≤ PHYSTOP → km_freelist s = 0 → kinit s = Ok tt s' → kstate_ok (s', []).
Proof.
  intros Hke Hf Hi. pose proof (kinit_spec s Hke Hf) as Hw. unfold wp in Hw.
  rewrite Hi in Hw. destruct Hw as (l & Hk & Hl & _). exists l. split; [done|].
  split; [apply Hk|done].
Qed.

End Spec.
End Kalloc.

(** ** Properties *)

(** [kinit] returns, and leaves on the free list every 4096-byte page
    between [end] and PHYSTOP, each exactly once, and writes no byte outside
    those pages. *)
Theorem kinit_frees_all_pages (kend : Z) (s : kmem)
    (Hlo : KERNBASE ≤ kend) (Hhi : kend ≤ PHYSTOP) (Hempty : km_freelist s = 0) :
  ∃ s' l, kinit kend s = Ok tt s' ∧
    run_chain (km_mem s') (km_freelist s') l ∧ NoDup l ∧
    (∀ q, q ∈ l ↔ q mod PGSIZE = 0 ∧ kend ≤ q < PHYSTOP) ∧
    (∀ x, (∀ q, page_ok kend q → ¬ in_page q x) → km_mem s' x = km_mem s x).
Proof.
  destruct (wp_inv _ _ _ (kinit_spec kend Hlo s Hhi Hempty))
    as ([] & s' & Hi & l & (Hc & Hd & _) & Hl & Hm).
  by exists s', l.
Qed.

Lemma kinit_frees_all_pages_witness :
  ∃ s' l, kinit (PHYSTOP - 5000) (mkKmem (λ _, 0) 0) = Ok tt s' ∧
    run_chain (km_mem s') (km_freelist s') l ∧ PHYSTOP - 4096 ∈ l ∧ PHYSTOP - 8192 ∉ l.
Proof.
  destruct (kinit_frees_all_pages (PHYSTOP - 5000) (mkKmem (λ _, 0) 0))
    as (s' & l & H1 & H2 & _ & H4 & _); [vm_compute; congruence..|reflexivity|].
  exists s', l. split; [exact H1|]. split; [exact H2|].
  split; [apply H4; vm_compute; intuition congruence|].
  intros H. apply H4 in H. revert H. vm_compute. intuition congruence.
Defined.

(** C29: allocator safety.  In every state reached from [kinit] by allocations,
    frees of owned pages and writes of clients into owned pages: no page is
    owned twice; freeing an owned page never panics; and [kalloc] returns
    either a whole page that nobody owns, or 0 when every page is owned. *)
Theorem kalloc_never_shares (kend : Z) (s0 s1 : kmem) (c : kmem * list Z)
    (Hlo : KERNBASE ≤ kend) (Hhi : kend ≤ PHYSTOP) (Hempty : km_freelist s0 = 0)
    (Hinit : kinit kend s0 = Ok tt s1) (Hreach : steps (kstep kend) (s1, []) c) :
  NoDup c.2 ∧
  (∀ p, p ∈ c.2 → ∃ s', kfree kend p c.1 = Ok tt s') ∧
  (∃ r s', kalloc c.1 = Ok r s' ∧
     ((r = 0 ∧ ∀ p, page_ok kend p → p ∈ c.2) ∨ (page_ok kend r ∧ r ∉ c.2))).
Proof.
  assert (kstate_ok kend c) as (l & Hk & Hd & Hall).
  { eapply steps_invariant; [| |exact Hreach].
    - by eapply kinit_state_ok.
    - by apply kstep_preserves. }
  pose proof Hd as (Hd1 & Hdis & Hd2)%NoDup_app. split; [done|]. split.
  - intros p Hp. assert (page_ok kend p) by (apply Hall; set_solver).
    destruct (wp_inv _ _ _ (kfree_spec kend Hlo c.1 l p Hk ltac:(done) (Hdis p Hp)))
      as ([] & s' & Hf & _). by exists s'.
  - destruct (wp_inv _ _ _ (kalloc_spec kend c.1 l Hk)) as (r & s' & Ha & Hr).
    exists r, s'. split; [done|]. destruct l as [|q l].
    + destruct Hr as [-> _]. left. split; [done|]. intros p Hp. apply Hall in Hp. set_solver.
    + destruct Hr as (-> & _). right. split; [apply Hall; set_solver|].
      intros Hq. apply (Hdis q Hq). by left.
Qed.

Lemma kalloc_never_shares_witness :
  ∃ s1 p s2, kinit (PHYSTOP - 8192) (mkKmem (λ _, 0) 0) = Ok tt s1 ∧
    kalloc s1 = Ok p s2 ∧ NoDup [p] ∧
    (∃ s', kfree (PHYSTOP - 8192) p s2 = Ok tt s').
Proof.
  assert (Hlo : KERNBASE ≤ PHYSTOP - 8192) by (vm_compute; congruence).
  assert (Hhi : PHYSTOP - 8192 ≤ PHYSTOP) by (vm_compute; congruence).
  destruct (wp_inv _ _ _ (kinit_spec _ Hlo (mkKmem (λ _, 0) 0) Hhi eq_refl))
    as ([] & s1 & Hi & l & Hk & Hl & _).
  destruct (kalloc_never_shares _ (mkKmem (λ _, 0) 0) _ (s1, []) Hlo Hhi eq_refl Hi (steps_refl _ _))
    as (_ & _ & p & s2 & Ha & [[Hz Hall]|[Hp _]]).
  { destruct (not_elem_of_nil (PHYSTOP - 4096)). apply Hall.
    vm_compute. intuition congruence. }
  exists s1, p, s2. split; [exact Hi|]. split; [exact Ha|].
  destruct (kalloc_never_shares _ (mkKmem (λ _, 0) 0) _ (s2, [p]) Hlo Hhi eq_refl Hi) as (Hd & Hf & _).
  { eapply steps_snoc; [apply steps_refl|]. apply kstep_alloc; [exact Ha|].
    destruct Hp as [_ Hp]. unfold PHYSTOP, KERNBASE in Hp. lia. }
  split; [exact Hd|]. apply Hf. by left.
Defined.

(** [kfree] panics on exactly the addresses that are not page-aligned or lie
    outside the pages the allocator manages; on the others it returns and a
    following [kalloc] hands the same page out, filled with 5s. *)
Theorem kfree_kalloc (kend : Z) (s : kmem) (l : list Z) (pa : Z)
    (Hlo : KERNBASE ≤ kend) (Hk : kinv kend s l) (Hnot : pa ∉ l) :
  (¬ page_ok kend pa → kfree kend pa s = Panic "kfree") ∧
  (page_ok kend pa → ∃ s1 s2, kfree kend pa s = Ok tt s1 ∧ kalloc s1 = Ok pa s2 ∧
     kinv kend s2 l ∧
     (∀ x, km_mem s2 x = if decide (in_page pa x) then 5 else km_mem s x)).
Proof.
  split; [apply kfree_panic|]. intros Hp.
  destruct (wp_inv _ _ _ (kfree_spec kend Hlo s l pa Hk Hp Hnot)) as ([] & s1 & Hf & Hk1 & Hm1).
  destruct (wp_inv _ _ _ (kalloc_spec kend s1 (pa :: l) Hk1)) as (r & s2 & Ha & -> & Hk2 & Hm2).
  exists s1, s2. split; [done|]. split; [done|]. split; [done|].
  intros x. rewrite Hm2. case_decide; [done|]. by apply Hm1.
Qed.

Lemma kfree_kalloc_witness :
  kfree KERNBASE 17 (mkKmem (λ _, 0) 0) = Panic "kfree" ∧
  ∃ s1 s2, kfree KERNBASE (KERNBASE + 4096) (mkKmem (λ _, 0) 0) = Ok tt s1 ∧
    kalloc s1 = Ok (KERNBASE + 4096) s2.
Proof.
  assert (Hk : kinv KERNBASE (mkKmem (λ _, 0) 0) []).
  { split; [reflexivity|]. split; constructor. }
  split.
  - apply (kfree_kalloc KERNBASE _ [] 17); [lia|exact Hk|set_solver|].
    intros [_ H]. revert H. vm_compute. intuition congruence.
  - destruct (kfree_kalloc KERNBASE _ [] (KERNBASE + 4096) ltac:(lia) Hk ltac:(set_solver))
      as [_ H].
    destruct H as (s1 & s2 & H1 & H2 & _); [vm_compute; intuition congruence|].
    exists s1, s2. split; [exact H1|exact H2].
Defined.
