(* ===== verification/Vm.v ===== *)
(** * Vm: kernel/vm.c, Sv39 page tables and copies between kernel and user

    Page tables live in the physical memory of [Kalloc.kmem]: a table is a page
    of 512 little-endian 64-bit entries.  Every routine of vm.c is a definition
    over that state; [etext] and [trampoline] are linker symbols, [end] is
    [kend] as in Kalloc.v.  [kvminithart] only loads the satp register and
    flushes the TLB, neither of which is part of the state. *)
From S2P Require Import Prelude Riscv CString Kalloc.

Section Vm.
Context (kend : Z).

Definition load_word (a : Z) : M kmem Z := gets (λ s, load64 (km_mem s) a).
Definition store_word (a v : Z) : M kmem unit :=
  modify (λ s, set_mem (store64 (km_mem s) a v) s).

(** [&pagetable[i]] for a [uint64 *pagetable]. *)
Definition slot (pagetable i : Z) : Z := pagetable + 8 * i.

(** ** walk, walkaddr *)

Fixpoint walk_loop (level : nat) (pagetable va : Z) (alloc : bool) : M kmem Z :=
  match level with
  | O => ret (slot pagetable (PX 0 va))
  | S level' =>
      let pte := slot pagetable (PX (Z.of_nat level) va) in
      do v <- load_word pte;
      if has v PTE_V then walk_loop level' (PTE2PA v) va alloc
      else if negb alloc then ret 0
      else
        do pagetable' <- kalloc;
        if pagetable' =? 0 then ret 0
        else
          memset_page pagetable' 0 ;;;
          store_word pte (Z.lor (PA2PTE pagetable') PTE_V) ;;;
          walk_loop level' pagetable' va alloc
  end.

Definition walk (pagetable va : Z) (alloc : bool) : M kmem Z :=
  if MAXVA <=? va then panic "walk" else walk_loop 2 pagetable va alloc.

Definition walkaddr (pagetable va : Z) : M kmem Z :=
  if MAXVA <=? va then ret 0
  else
    do pte <- walk pagetable va false;
    if pte =? 0 then ret 0
    else
      do v <- load_word pte;
      if negb (has v PTE_V) then ret 0
      else if negb (has v PTE_U) then ret 0
      else ret (PTE2PA v).

(** ** mappages, kvmmap *)

Fixpoint mappages_loop (fuel : nat) (pagetable a last pa perm : Z) : M kmem Z :=
  match fuel with
  | O => nofuel
  | S fuel =>
      do pte <- walk pagetable a true;
      if pte =? 0 then ret (-1)
      else
        do v <- load_word pte;
        if has v PTE_V then panic "mappages: remap"
        else
          store_word pte (Z.lor (Z.lor (PA2PTE pa) perm) PTE_V) ;;;
          if a =? last then ret 0
          else mappages_loop fuel pagetable (u64 (a + PGSIZE)) last (u64 (pa + PGSIZE)) perm
  end.

Definition mappages (pagetable va size pa perm : Z) : M kmem Z :=
  if negb (va mod PGSIZE =? 0) then panic "mappages: va not aligned"
  else if negb (size mod PGSIZE =? 0) then panic "mappages: size not aligned"
  else if size =? 0 then panic "mappages: size"
  else mappages_loop (Z.to_nat (size / PGSIZE)) pagetable va (u64 (va + size - PGSIZE)) pa perm.

Definition kvmmap (kpgtbl va pa sz perm : Z) : M kmem unit :=
  do r <- mappages kpgtbl va sz pa perm;
  if negb (r =? 0) then panic "kvmmap" else ret tt.

(** ** uvmunmap *)

Fixpoint uvmunmap_loop (fuel : nat) (pagetable a stop : Z) (do_free : bool) : M kmem unit :=
  if a <? stop then
    match fuel with
    | O => nofuel
    | S fuel =>
        do pte <- walk pagetable a false;
        if pte =? 0 then panic "uvmunmap: walk"
        else
          do v <- load_word pte;
          if negb (has v PTE_V) then panic "uvmunmap: not mapped"
          else if PTE_FLAGS v =? PTE_V then panic "uvmunmap: not a leaf"
          else
            (if do_free then kfree kend (PTE2PA v) else ret tt) ;;;
            store_word pte 0 ;;;
            uvmunmap_loop fuel pagetable (u64 (a + PGSIZE)) stop do_free
    end
  else ret tt.

Definition uvmunmap (pagetable va npages : Z) (do_free : bool) : M kmem unit :=
  if negb (va mod PGSIZE =? 0) then panic "uvmunmap: not aligned"
  else uvmunmap_loop (Z.to_nat npages) pagetable va (u64 (va + npages * PGSIZE)) do_free.

(** ** uvmcreate, uvmfirst *)

Definition uvmcreate : M kmem Z :=
  do pagetable <- kalloc;
  if pagetable =? 0 then ret 0
  else memset_page pagetable 0 ;;; ret pagetable.

(** [src] is the array of [sz] bytes to load; the result of [mappages] is not
    checked by the code. *)
Definition uvmfirst (pagetable : Z) (src : list Z) : M kmem unit :=
  if PGSIZE <=? Z.of_nat (length src) then panic "uvmfirst: more than a page"
  else
    do mem <- kalloc;
    memset_page mem 0 ;;;
    do _ <- mappages pagetable 0 PGSIZE mem (Z.lor (Z.lor (Z.lor PTE_W PTE_R) PTE_X) PTE_U);
    modify (λ s, set_mem (write_bytes (km_mem s) mem src) s).

(** ** uvmdealloc, uvmalloc *)

Definition uvmdealloc (pagetable oldsz newsz : Z) : M kmem Z :=
  if oldsz <=? newsz then ret oldsz
  else
    (if PGROUNDUP newsz <? PGROUNDUP oldsz then
       let npages := i32 ((PGROUNDUP oldsz - PGROUNDUP newsz) / PGSIZE) in
       uvmunmap pagetable (PGROUNDUP newsz) npages true
     else ret tt) ;;;
    ret newsz.

Fixpoint uvmalloc_loop (fuel : nat) (pagetable oldsz a newsz xperm : Z) : M kmem Z :=
  if a <? newsz then
    match fuel with
    | O => nofuel
    | S fuel =>
        do mem <- kalloc;
        if mem =? 0 then
          do _ <- uvmdealloc pagetable a oldsz; ret 0
        else
          memset_page mem 0 ;;;
          do r <- mappages pagetable a PGSIZE mem (Z.lor (Z.lor PTE_R PTE_U) xperm);
          if negb (r =? 0) then
            kfree kend mem ;;;
            do _ <- uvmdealloc pagetable a oldsz; ret 0
          else uvmalloc_loop fuel pagetable oldsz (u64 (a + PGSIZE)) newsz xperm
    end
  else ret newsz.

Definition uvmalloc (pagetable oldsz newsz xperm : Z) : M kmem Z :=
  if newsz <? oldsz then ret oldsz
  else
    let oldsz := PGROUNDUP oldsz in
    uvmalloc_loop (Z.to_nat ((newsz - oldsz) / PGSIZE + 1)) pagetable oldsz oldsz newsz xperm.

(** ** freewalk, uvmfree: [depth] is the number of levels of the tree *)

Fixpoint freewalk (depth : nat) (pagetable : Z) : M kmem unit :=
  match depth with
  | O => nofuel
  | S depth =>
      for_loop 512 0 (λ i,
        do pte <- load_word (slot pagetable i);
        if has pte PTE_V && negb (has pte (Z.lor (Z.lor PTE_R PTE_W) PTE_X)) then
          let child := PTE2PA pte in
          freewalk depth child ;;;
          store_word (slot pagetable i) 0
        else if has pte PTE_V then panic "freewalk: leaf"
        else ret tt) ;;;
      kfree kend pagetable
  end.

Definition uvmfree (pagetable sz : Z) : M kmem unit :=
  (if 0 <? sz then uvmunmap pagetable 0 (PGROUNDUP sz / PGSIZE) true else ret tt) ;;;
  freewalk 3 pagetable.

(** ** uvmcopy *)

Fixpoint uvmcopy_loop (fuel : nat) (old new i sz : Z) : M kmem Z :=
  if i <? sz then
    match fuel with
    | O => nofuel
    | S fuel =>
        do pte <- walk old i false;
        if pte =? 0 then panic "uvmcopy: pte should exist"
        else
          do v <- load_word pte;
          if negb (has v PTE_V) then panic "uvmcopy: page not present"
          else
            let pa := PTE2PA v in
            let flags := PTE_FLAGS v in
            do mem <- kalloc;
            if mem =? 0 then
              uvmunmap new 0 (i / PGSIZE) true ;;; ret (-1)
            else
              modify (λ s, set_mem (memmove (km_mem s) mem pa PGSIZE) s) ;;;
              do r <- mappages new i PGSIZE mem flags;
              if negb (r =? 0) then
                kfree kend mem ;;;
                uvmunmap new 0 (i / PGSIZE) true ;;; ret (-1)
              else uvmcopy_loop fuel old new (u64 (i + PGSIZE)) sz
    end
  else ret 0.

Definition uvmcopy (old new sz : Z) : M kmem Z :=
  uvmcopy_loop (Z.to_nat (sz / PGSIZE + 1)) old new 0 sz.

(** ** uvmclear *)

Definition uvmclear (pagetable va : Z) : M kmem unit :=
  do pte <- walk pagetable va false;
  if pte =? 0 then panic "uvmclear"
  else
    do v <- load_word pte;
    store_word pte (Z.land v (u64 (Z.lnot PTE_U))).

(** ** copyout, copyin, copyinstr

    The kernel side of a copy is an array of its own: the bytes still to copy
    out, or the bytes copied in so far.  Each iteration copies at least one
    byte, so the length bounds the iterations. *)

Fixpoint copyout_loop (fuel : nat) (pagetable dstva : Z) (src : list Z) : M kmem Z :=
  let len := Z.of_nat (length src) in
  if 0 <? len then
    match fuel with
    | O => nofuel
    | S fuel =>
        let va0 := PGROUNDDOWN dstva in
        if MAXVA <=? va0 then ret (-1)
        else
          do pte <- walk pagetable va0 false;
          if pte =? 0 then ret (-1)
          else
            do v <- load_word pte;
            if negb (has v PTE_V) || negb (has v PTE_U) || negb (has v PTE_W) then ret (-1)
            else
              let pa0 := PTE2PA v in
              let n := PGSIZE - (dstva - va0) in
              let n := if len <? n then len else n in
              modify (λ s, set_mem
                (write_bytes (km_mem s) (pa0 + (dstva - va0)) (take (Z.to_nat n) src)) s) ;;;
              copyout_loop fuel pagetable (u64 (va0 + PGSIZE)) (drop (Z.to_nat n) src)
    end
  else ret 0.

Definition copyout (pagetable dstva : Z) (src : list Z) : M kmem Z :=
  copyout_loop (length src) pagetable dstva src.

Fixpoint copyin_loop (fuel : nat) (pagetable : Z) (dst : list Z) (srcva len : Z) :
    M kmem (Z * list Z) :=
  if 0 <? len then
    match fuel with
    | O => nofuel
    | S fuel =>
        let va0 := PGROUNDDOWN srcva in
        do pa0 <- walkaddr pagetable va0;
        if pa0 =? 0 then ret (-1, dst)
        else
          let n := PGSIZE - (srcva - va0) in
          let n := if len <? n then len else n in
          do bs <- gets (λ s, read_bytes (km_mem s) (pa0 + (srcva - va0)) (Z.to_nat n));
          copyin_loop fuel pagetable (dst ++ bs) (u64 (va0 + PGSIZE)) (len - n)
    end
  else ret (0, dst).

Definition copyin (pagetable srcva len : Z) : M kmem (Z * list Z) :=
  copyin_loop (Z.to_nat len) pagetable [] srcva len.

(** The inner loop of [copyinstr]: whether a NUL was met, what is left of [max],
    and the destination so far. *)
Fixpoint copyinstr_page (n : nat) (m : mem) (p max : Z) (dst : list Z) : bool * Z * list Z :=
  match n with
  | O => (false, max, dst)
  | S n =>
      if m p =? 0 then (true, max, dst ++ [0])
      else copyinstr_page n m (p + 1) (max - 1) (dst ++ [m p])
  end.

Fixpoint copyinstr_loop (fuel : nat) (pagetable : Z) (dst : list Z) (srcva max : Z)
    (got_null : bool) : M kmem (Z * list Z) :=
  if negb got_null && (0 <? max) then
    match fuel with
    | O => nofuel
    | S fuel =>
        let va0 := PGROUNDDOWN srcva in
        do pa0 <- walkaddr pagetable va0;
        if pa0 =? 0 then ret (-1, dst)
        else
          let n := PGSIZE - (srcva - va0) in
          let n := if max <? n then max else n in
          do r <- gets (λ s, copyinstr_page (Z.to_nat n) (km_mem s) (pa0 + (srcva - va0)) max dst);
          let '(got_null, max, dst) := r in
          copyinstr_loop fuel pagetable dst (u64 (va0 + PGSIZE)) max got_null
    end
  else ret (if got_null then 0 else -1, dst).

Definition copyinstr (pagetable srcva max : Z) : M kmem (Z * list Z) :=
  copyinstr_loop (Z.to_nat max) pagetable [] srcva max false.

(** ** The kernel's own page table *)

Section Kvm.
Context (etext trampoline : Z).

(** proc_mapstacks, from kernel/proc.c: a stack page per process slot. *)
Definition proc_mapstacks (kpgtbl : Z) : M kmem unit :=
  for_loop (Z.to_nat NPROC) 0 (λ p,
    do pa <- kalloc;
    if pa =? 0 then panic "kalloc"
    else kvmmap kpgtbl (KSTACK p) pa PGSIZE (Z.lor PTE_R PTE_W)).

Definition kvmmake : M kmem Z :=
  do kpgtbl <- kalloc;
  memset_page kpgtbl 0 ;;;
  (* uart registers *)
  kvmmap kpgtbl UART0 UART0 PGSIZE (Z.lor PTE_R PTE_W) ;;;
  (* virtio mmio disk interface *)
  kvmmap kpgtbl VIRTIO0 VIRTIO0 PGSIZE (Z.lor PTE_R PTE_W) ;;;
  (* PLIC *)
  kvmmap kpgtbl PLIC PLIC 67108864 (Z.lor PTE_R PTE_W) ;;;
  (* map kernel text executable and read-only. *)
  kvmmap kpgtbl KERNBASE KERNBASE (u64 (etext - KERNBASE)) (Z.lor PTE_R PTE_X) ;;;
  (* map kernel data and the physical RAM we'll make use of. *)
  kvmmap kpgtbl etext etext (u64 (PHYSTOP - etext)) (Z.lor PTE_R PTE_W) ;;;
  (* map the trampoline for trap entry/exit to the highest virtual address *)
  kvmmap kpgtbl TRAMPOLINE trampoline PGSIZE (Z.lor PTE_R PTE_X) ;;;
  (* allocate and map a kernel stack for each process. *)
  proc_mapstacks kpgtbl ;;;
  ret kpgtbl.

End Kvm.
End Vm.
