(* ===== verification/VmSpec.v ===== *)
(** * VmSpec: what the page-table code of Vm.v does

    A page table is seen through [pte_at], the leaf entry of a virtual address;
    the theorems say how each routine changes that function, that the tree of
    table pages stays a tree ([vmwf]), and that copies move the right bytes. *)
From S2P Require Import Prelude Riscv CString Kalloc Vm.

(** ** The tree of table pages *)

(** The table an entry points to. *)
Definition ent (m : mem) (t i : Z) : option Z :=
  let v := load64 m (slot t i) in if has v PTE_V then Some (PTE2PA v) else None.

(** The table page reached from [r] by a path of indices. *)
Fixpoint tbl (m : mem) (r : Z) (path : list Z) : option Z :=
  match path with
  | [] => Some r
  | i :: path => ent m r i ≫= λ t, tbl m t path
  end.

Definition idx (i : Z) : Prop := 0 ≤ i < 512.

(** The leaf entry of a virtual address, 0 where there is no leaf table. *)
Definition pte_at (m : mem) (root va : Z) : Z :=
  match tbl m root [PX 2 va; PX 1 va] with
  | Some t => load64 m (slot t (PX 0 va))
  | None => 0
  end.

Lemma tbl_app m r p1 p2 : tbl m r (p1 ++ p2) = tbl m r p1 ≫= λ t, tbl m t p2.
Proof.
  revert r. induction p1 as [|i p1 IH]; intros r; [done|]. simpl.
  destruct (ent m r i); simpl; [apply IH|done].
Qed.

Lemma tbl_snoc m r p i : tbl m r (p ++ [i]) = tbl m r p ≫= λ t, ent m t i.
Proof. rewrite tbl_app. destruct (tbl m r p); simpl; [|done]. by destruct (ent m z i). Qed.

Lemma tbl_ext m m' root path :
  (∀ pre j suf t, path = pre ++ j :: suf → tbl m root pre = Some t →
     load64 m' (slot t j) = load64 m (slot t j)) →
  tbl m' root path = tbl m root path.
Proof.
  induction path as [|j pre IH] using rev_ind; intros H; [done|].
  rewrite !tbl_snoc, IH.
  - destruct (tbl m root pre) as [t|] eqn:E; simpl; [|done].
    unfold ent. by rewrite (H pre j [] t).
  - intros pre' j' suf t -> Ht. apply (H pre' j' (suf ++ [j])); [|done].
    by rewrite <- app_assoc.
Qed.

Lemma pte_at_idx m root va va' :
  PX 2 va = PX 2 va' → PX 1 va = PX 1 va' → PX 0 va = PX 0 va' →
  pte_at m root va = pte_at m root va'.
Proof. unfold pte_at. by intros -> -> ->. Qed.

Lemma pte_at_page m root va : pte_at m root (va - va mod PGSIZE) = pte_at m root va.
Proof. apply pte_at_idx; apply PX_page; lia. Qed.

#[export] Hint Resolve PX_range : core.

Lemma PX_idx level va : 0 ≤ level → idx (PX level va).
Proof. apply PX_range. Qed.

(** The flags of a leaf entry, one of which an entry for a table does not have. *)
Notation PTE_RWX := (Z.lor (Z.lor PTE_R PTE_W) PTE_X).

Lemma has_RWX_flags v : has v PTE_RWX = has (PTE_FLAGS v) PTE_RWX.
Proof. unfold has, PTE_FLAGS. by rewrite <- Z.land_assoc. Qed.

(** An entry that points to a table: no permissions, and none of the bits from 54
    on, which are reserved. *)
Definition pointer (v : Z) : Prop := has v PTE_RWX = false ∧ v < 2 ^ 54.

Lemma has_V_PTE pa : 0 ≤ pa < 2 ^ 56 → pa mod PGSIZE = 0 →
  has (Z.lor (PA2PTE pa) PTE_V) PTE_V = true ∧ PTE2PA (Z.lor (PA2PTE pa) PTE_V) = pa ∧
  0 ≤ Z.lor (PA2PTE pa) PTE_V < 2 ^ 64 ∧ pointer (Z.lor (PA2PTE pa) PTE_V).
Proof.
  intros Hpa Hal. replace (Z.lor (PA2PTE pa) PTE_V) with (mkpte pa 0).
  - split; [by apply has_V_mkpte|]. split; [by apply PTE2PA_mkpte|]. split; [by apply mkpte_range|].
    split; [rewrite has_RWX_flags, PTE_FLAGS_mkpte by done; done|]. rewrite mkpte_eq by done. unfold PGSIZE in *. change (Z.lor 0 PTE_V) with 1. zdm.
  - unfold mkpte. by rewrite Z.lor_0_r.
Qed.

Lemma PX_2_low va : 0 ≤ va < MAXVA → PX 2 va < 256.
Proof. intros Hva. rewrite PX_eq by lia. change (2 ^ PXSHIFT 2) with (2 ^ 30). change MAXVA with (2 ^ 38) in Hva. zdm. Qed.

Section VmSpec.
Context (kend : Z).
Hypothesis Hend : KERNBASE ≤ kend.

Notation page_ok := (page_ok kend).
Notation kinv := (kinv kend).

Lemma slot_in_page t i x : idx i → slot t i ≤ x < slot t i + 8 → in_page t x.
Proof. unfold idx, slot, in_page, PGSIZE. lia. Qed.

Lemma slot_disjoint t i t' i' :
  page_ok t → page_ok t' → idx i → idx i' → (t, i) ≠ (t', i') →
  slot t i + 8 ≤ slot t' i' ∨ slot t' i' + 8 ≤ slot t i.
Proof.
  unfold Kalloc.page_ok, idx, slot, PGSIZE. intros [??] [??] ?? Hne.
  destruct (decide (t = t')) as [->|]; [|zdm].
  assert (i ≠ i') by congruence. lia.
Qed.

Lemma slot_pos t i : page_ok t → idx i → 0 < slot t i.
Proof. intros Ht Hi. apply page_ok_range in Ht; [|done]. unfold slot, idx in *. lia. Qed.

(** The allocator's invariant, and: table pages are pages that are not free,
    no page is a table at two places, and the entries of the two upper levels
    have the form of entries for tables and are in the lower half of the
    address space. *)
Record vmwf (s : kmem) (root : Z) (l : list Z) : Prop := {
  vm_kinv : kinv s l;
  vm_tables : ∀ path t, (length path ≤ 2)%nat → Forall idx path →
    tbl (km_mem s) root path = Some t → page_ok t ∧ t ∉ l;
  vm_tree : ∀ p1 p2 t, (length p1 ≤ 2)%nat → (length p2 ≤ 2)%nat →
    Forall idx p1 → Forall idx p2 →
    tbl (km_mem s) root p1 = Some t → tbl (km_mem s) root p2 = Some t → p1 = p2;
  vm_inner : ∀ path t i, (length path ≤ 1)%nat → Forall idx path → idx i →
    tbl (km_mem s) root path = Some t → has (load64 (km_mem s) (slot t i)) PTE_V = true →
    pointer (load64 (km_mem s) (slot t i)) ∧ (path = [] → i < 256);
}.

(** Page [t] holds a table of the tree. *)
Definition is_table (m : mem) (root t : Z) : Prop :=
  ∃ path, (length path ≤ 2)%nat ∧ Forall idx path ∧ tbl m root path = Some t.

(** ** Hanging a new zeroed table [q] at entry [i] of the table [p] *)
Section new_table.
Context (s s' : kmem) (root : Z) (q : Z) (l : list Z) (path : list Z) (p i : Z).
Notation m := (km_mem s).
Notation m' := (km_mem s').
Hypothesis Hwf : vmwf s root (q :: l).
Hypothesis Hk' : kinv s' l.
Hypothesis Hlen : (length path ≤ 1)%nat.
Hypothesis Hidx : Forall idx path.
Hypothesis Hi : idx i.
Hypothesis Hp : tbl m root path = Some p.
Hypothesis Hnone : ent m p i = None.
Hypothesis Hout : ∀ x, ¬ in_page q x → ¬ (slot p i ≤ x < slot p i + 8) → m' x = m x.
Hypothesis Hzero : ∀ x, in_page q x → m' x = 0.
Hypothesis Hent : ent m' p i = Some q.
Hypothesis Hflag : pointer (load64 m' (slot p i)).
Hypothesis Hlow : path = [] → i < 256.

Lemma nt_p : page_ok p ∧ p ∉ q :: l.
Proof. eapply (vm_tables _ _ _ Hwf path); [lia|done..]. Qed.

Lemma nt_q : page_ok q ∧ q ∉ l.
Proof.
  destruct (vm_kinv _ _ _ Hwf) as (_ & Hd & Hok).
  apply Forall_cons in Hok as [? _]. by apply NoDup_cons in Hd as [? _].
Qed.

Lemma nt_load t j :
  page_ok t → t ∉ q :: l → idx j → (t, j) ≠ (p, i) → load64 m' (slot t j) = load64 m (slot t j).
Proof.
  intros Ht Hnin Hj Hne. destruct nt_p as [Hpok _]. destruct nt_q as [Hqok _].
  apply load64_ext. intros x Hx. apply Hout.
  - intros Hxq. apply (in_page_disjoint kend t q x); try done; [set_solver|].
    by eapply slot_in_page.
  - destruct (slot_disjoint t j p i) as [?|?]; try done; lia.
Qed.

Lemma nt_tbl_old path' :
  (length path' ≤ 2)%nat → Forall idx path' → ¬ (path ++ [i] `prefix_of` path') →
  tbl m' root path' = tbl m root path'.
Proof.
  intros Hl Hx Hnp. apply tbl_ext. intros pre j suf t -> Ht.
  rewrite length_app in Hl. simpl in Hl.
  apply Forall_app in Hx as [Hpre [Hj _]%Forall_cons].
  destruct (vm_tables _ _ _ Hwf pre t) as [Htok Htn]; [lia|done..|].
  apply nt_load; try done. intros [= -> ->]. apply Hnp.
  rewrite (vm_tree _ _ _ Hwf pre path p) by (done || lia).
  exists suf. by rewrite <- app_assoc.
Qed.

Lemma nt_tbl_new : tbl m' root (path ++ [i]) = Some q.
Proof.
  rewrite tbl_snoc, nt_tbl_old; [by rewrite Hp|lia|done|].
  intros [k Hk]. apply (f_equal length) in Hk. rewrite !length_app in Hk. simpl in Hk. lia.
Qed.

Lemma nt_ent_zero j : idx j → ent m' q j = None.
Proof.
  intros Hj. unfold ent. rewrite load64_zero; [done|].
  intros x Hx. apply Hzero. by eapply slot_in_page.
Qed.

Lemma nt_tbl_below path' j :
  Forall idx path' → idx j → tbl m' root ((path ++ [i]) ++ j :: path') = None.
Proof. intros _ Hj. by rewrite tbl_app, nt_tbl_new; simpl; rewrite nt_ent_zero. Qed.

Lemma nt_tbl_before path' : tbl m root ((path ++ [i]) ++ path') = None.
Proof. rewrite tbl_app, tbl_snoc, Hp. simpl. by rewrite Hnone. Qed.

Lemma nt_cases path' t :
  (length path' ≤ 2)%nat → Forall idx path' → tbl m' root path' = Some t →
  (path' = path ++ [i] ∧ t = q) ∨ (tbl m root path' = Some t ∧ page_ok t ∧ t ∉ q :: l).
Proof.
  intros Hl Hx Ht. destruct (decide (path ++ [i] `prefix_of` path')) as [[k ->]|Hn].
  - apply Forall_app in Hx as [_ Hx]. destruct k as [|j k].
    + left. rewrite app_nil_r in *. split; [done|]. rewrite nt_tbl_new in Ht. congruence.
    + apply Forall_cons in Hx as [? ?]. by rewrite nt_tbl_below in Ht.
  - right. rewrite nt_tbl_old in Ht by done. split; [done|].
    by eapply (vm_tables _ _ _ Hwf).
Qed.

Lemma nt_wf : vmwf s' root l.
Proof.
  destruct nt_q as [Hqok Hql]. split; [done| | |].
  - intros path' t Hl Hx Ht. destruct (nt_cases path' t Hl Hx Ht) as [[_ ->]|(_ & ? & ?)];
      [done|set_solver].
  - intros p1 p2 t H1 H2 Hx1 Hx2 Ht1 Ht2.
    destruct (nt_cases p1 t H1 Hx1 Ht1) as [[-> ->]|(Ho1 & _ & Hn1)],
      (nt_cases p2 _ H2 Hx2 Ht2) as [[-> ?]|(Ho2 & _ & Hn2)]; subst; try done;
      try (exfalso; (apply Hn1 || apply Hn2); by left).
    by eapply (vm_tree _ _ _ Hwf).
  - intros path' t j Hl Hx Hj Ht HV. destruct (nt_cases path' t ltac:(lia) Hx Ht) as [[-> ->]|(Ho & Htok & Htn)].
    { pose proof (nt_ent_zero j Hj) as He. unfold ent in He. by rewrite HV in He. }
    destruct (decide ((t, j) = (p, i))) as [[= -> ->]|Hne].
    + split; [done|]. intros ->. apply Hlow. symmetry. eapply (vm_tree _ _ _ Hwf); simpl; (done || lia).
    + rewrite nt_load in HV |- * by done. by apply (vm_inner _ _ _ Hwf path').
Qed.

Lemma nt_pte va : pte_at m' root va = pte_at m root va.
Proof.
  unfold pte_at. set (P := [PX 2 va; PX 1 va]).
  assert (HP : Forall idx P) by (repeat constructor; apply PX_idx; lia).
  destruct (decide (path ++ [i] `prefix_of` P)) as [[k Hk]|Hn].
  - rewrite Hk, nt_tbl_before. destruct k as [|j k].
    + rewrite app_nil_r, nt_tbl_new. apply load64_zero. intros x Hx. apply Hzero.
      eapply slot_in_page; [|done]. apply PX_idx. lia.
    + rewrite Hk in HP. apply Forall_app in HP as [_ [? ?]%Forall_cons].
      by rewrite nt_tbl_below.
  - rewrite nt_tbl_old by (done || simpl; lia).
    destruct (tbl m root P) as [t|] eqn:Et; [|done].
    destruct (vm_tables _ _ _ Hwf P t) as [Htok Htn]; [simpl; lia|done..|].
    apply nt_load; try done; [apply PX_idx; lia|]. intros [= -> _].
    assert (P = path) as HPp by (eapply (vm_tree _ _ _ Hwf); simpl; (done || lia)).
    rewrite <- HPp in Hlen. simpl in Hlen. lia.
Qed.

(** Old tables are still there. *)
Lemma nt_tbl_mono path' t :
  (length path' ≤ 2)%nat → Forall idx path' → tbl m root path' = Some t → tbl m' root path' = Some t.
Proof.
  intros Hl Hx Ht. rewrite nt_tbl_old; try done. intros [k ->].
  by rewrite nt_tbl_before in Ht.
Qed.
End new_table.

(** ** walk *)

(** The indices [walk] uses from a level down to the leaf table. *)
Fixpoint idxs (level : nat) (va : Z) : list Z :=
  match level with
  | O => []
  | S l' => PX (Z.of_nat level) va :: idxs l' va
  end.

Lemma length_idxs level va : length (idxs level va) = level.
Proof. induction level; simpl; congruence. Qed.

Lemma idxs_idx level va : Forall idx (idxs level va).
Proof. induction level; simpl; constructor; auto. apply PX_idx. lia. Qed.

(** Without [alloc], [walk] only follows the tree. *)
Lemma walk_loop_noalloc level p va s :
  walk_loop level p va false s =
    Ok (match tbl (km_mem s) p (idxs level va) with
        | Some t => slot t (PX 0 va) | None => 0 end) s.
Proof.
  revert p. induction level as [|level IH]; intros p; [done|].
  cbn [walk_loop idxs tbl]. unfold load_word, gets, bind, ent.
  destruct (has _ PTE_V); simpl; [apply IH|done].
Qed.

Lemma walk_noalloc root va s :
  va < MAXVA →
  walk root va false s =
    Ok (match tbl (km_mem s) root [PX 2 va; PX 1 va] with
        | Some t => slot t (PX 0 va) | None => 0 end) s.
Proof. intros. unfold walk. case_test; [lia|]. apply walk_loop_noalloc. Qed.

(** Tables are only added, taken from the front of the free list; nothing is
    written outside table pages and pages taken from the free list. *)
Record grown (s s' : kmem) (root : Z) (l l' : list Z) : Prop := {
  gr_wf : vmwf s' root l';
  gr_free : ∃ l1, l = l1 ++ l';
  gr_tbl : ∀ path t, (length path ≤ 2)%nat → Forall idx path →
    tbl (km_mem s) root path = Some t → tbl (km_mem s') root path = Some t;
  gr_frame : ∀ x, (∀ t, is_table (km_mem s) root t → ¬ in_page t x) →
    (∀ q, q ∈ l → ¬ in_page q x) → km_mem s' x = km_mem s x;
  gr_new : ∀ t, is_table (km_mem s') root t → is_table (km_mem s) root t ∨ t ∈ l;
  gr_used : ∀ q, q ∈ l → q ∈ l' ∨ is_table (km_mem s') root q;
}.

Lemma grown_refl s root l : vmwf s root l → grown s s root l l.
Proof. intros. split; auto. by exists []. Qed.

Lemma grown_trans s1 s2 s3 root l1 l2 l3 :
  grown s1 s2 root l1 l2 → grown s2 s3 root l2 l3 → grown s1 s3 root l1 l3.
Proof.
  intros [W1 [k1 F1] T1 M1 N1 U1] [W2 [k2 F2] T2 M2 N2 U2]. split; [done|..].
  - exists (k1 ++ k2). by rewrite F1, F2, <- app_assoc.
  - intros path t ???. apply T2; try done. by apply T1.
  - intros x Hx Hl. rewrite M2; [apply M1; done| |].
    + intros t Ht. destruct (N1 t Ht); auto.
    + intros q Hq. apply Hl. rewrite F1. apply elem_of_app. by right.
  - intros t Ht. destruct (N2 t Ht) as [?|?]; [auto|]. right. rewrite F1.
    apply elem_of_app. by right.
  - intros q Hq. destruct (U1 q Hq) as [?|(path & ? & ? & ?)]; [by apply U2|]. right. exists path. auto.
Qed.

(** What [walk] with [alloc] may change: tables grow, no leaf entry changes. *)
Definition walked (s s' : kmem) (root : Z) (l l' : list Z) : Prop :=
  grown s s' root l l' ∧ ∀ va, pte_at (km_mem s') root va = pte_at (km_mem s) root va.

Lemma walked_refl s root l : vmwf s root l → walked s s root l l.
Proof. split; [by apply grown_refl|done]. Qed.

Lemma walked_trans s1 s2 s3 root l1 l2 l3 :
  walked s1 s2 root l1 l2 → walked s2 s3 root l2 l3 → walked s1 s3 root l1 l3.
Proof.
  intros [G1 P1] [G2 P2]. split; [by eapply grown_trans|]. intros va. by rewrite P2, P1.
Qed.

(** One allocation of a table, as the loop of [walk] does it. *)
Lemma walk_new_table s root l path p i :
  vmwf s root l → (length path ≤ 1)%nat → Forall idx path → idx i → (path = [] → i < 256) →
  tbl (km_mem s) root path = Some p → ent (km_mem s) p i = None →
  wp kalloc (λ q s1,
    match l with
    | [] => q = 0 ∧ s1 = s
    | q' :: l' => q = q' ∧ page_ok q ∧
        let s2 := set_mem (memset (km_mem s1) q 0 PGSIZE) s1 in
        let s3 := set_mem (store64 (km_mem s2) (slot p i) (Z.lor (PA2PTE q) PTE_V)) s2 in
        walked s s3 root l l' ∧ tbl (km_mem s3) root (path ++ [i]) = Some q
    end) s.
Proof.
  intros Hwf Hlen Hidx Hi Hlow Hp Hnone.
  eapply wp_mono; [apply (kalloc_spec kend s l), (vm_kinv _ _ _ Hwf)|].
  intros q s1 Hq. destruct l as [|q' l']; [done|]. destruct Hq as (-> & Hk1 & Hm1).
  destruct (nt_p s root q' l' path p) as [Hpok Hpn]; try done.
  destruct (nt_q s root q' l') as [Hqok Hqn]; try done.
  split; [done|]. split; [done|]. intros s2 s3.
  pose proof (page_ok_range kend Hend _ Hqok) as [Hqr Hqal].
  destruct (has_V_PTE q') as (HV & HPA & Hr & HF); [lia|done|].
  assert (Hout : ∀ x, ¬ in_page q' x → ¬ (slot p i ≤ x < slot p i + 8) → km_mem s3 x = km_mem s x).
  { intros x Hx Hx'. subst s3 s2. simpl. rewrite store64_out by done.
    rewrite memset_spec, decide_False by (unfold in_page in *; (done || lia)).
    rewrite Hm1. by rewrite decide_False. }
  assert (Hzero : ∀ x, in_page q' x → km_mem s3 x = 0).
  { intros x Hx. subst s3 s2. simpl. rewrite store64_out.
    - rewrite memset_spec by done. by rewrite decide_True.
    - intros Hs. apply (in_page_disjoint kend p q' x); try done; [set_solver|].
      by eapply slot_in_page. }
  assert (Hent : ent (km_mem s3) p i = Some q').
  { unfold ent. subst s3. simpl. rewrite load64_store64, u64_id by done. by rewrite HV, HPA. }
  assert (Hflag : pointer (load64 (km_mem s3) (slot p i))).
  { subst s3. simpl. by rewrite load64_store64, u64_id. }
  assert (Hk3 : kinv s3 l').
  { unfold s3, s2. apply kinv_write; [apply kinv_write; [done|]|]; simpl.
    - intros r x Hr' Hx. rewrite memset_spec by done. rewrite decide_False; [done|].
      intros Hx'. apply (in_page_disjoint kend r q' x); try done; [|set_solver].
      destruct Hk1 as (_ & _ & Hok). by eapply Forall_forall in Hok; [|exact Hr'].
    - intros r x Hr' Hx. rewrite store64_out; [done|]. intros Hx'.
      apply (in_page_disjoint kend r p x); try done; [|set_solver|by eapply slot_in_page].
      destruct Hk1 as (_ & _ & Hok). by eapply Forall_forall in Hok; [|exact Hr']. }
  split; [|by eapply (nt_tbl_new s s3)].
  split; [|intros va; by eapply (nt_pte s s3 root q' l' path p i)].
  split.
  - by eapply (nt_wf s s3).
  - by exists [q'].
  - intros path' t ???. by eapply (nt_tbl_mono s s3 root q' l' path p i).
  - intros x Hx Hl. apply Hout; [apply Hl; by left|]. intros Hs.
    apply (Hx p); [exists path; split; [lia|done]|]. by eapply slot_in_page.
  - intros t (path' & Hl' & Hx' & Ht).
    edestruct (nt_cases s s3 root q' l' path p i) with (path' := path') (t := t)
      as [[_ ->]|(? & _)]; try done; [right; by left|]. left. by exists path'.
  - intros q [->|?]%elem_of_cons; [right|by left]. exists (path ++ [i]). rewrite length_app. split; [simpl; lia|].
    split; [apply Forall_app; split; [done|by constructor]|by eapply (nt_tbl_new s s3)].
Qed.

Lemma walk_loop_alloc level p va s root l path :
  vmwf s root l → 0 ≤ va < MAXVA → (length path + level = 2)%nat → Forall idx path →
  tbl (km_mem s) root path = Some p →
  wp (walk_loop level p va true) (λ r s', ∃ l',
    walked s s' root l l' ∧
    ((r = 0 ∧ l' = []) ∨
     ∃ t, tbl (km_mem s') root (path ++ idxs level va) = Some t ∧ r = slot t (PX 0 va))) s.
Proof.
  revert p s l path. induction level as [|level IH]; intros p s l path Hwf Hva Hlen Hidx Hp.
  { cbn [walk_loop idxs]. apply wp_ret. exists l. split; [by apply walked_refl|].
    right. exists p. by rewrite app_nil_r. }
  cbn [walk_loop]. set (i := PX (Z.of_nat (S level)) va).
  assert (Hi : idx i) by (apply PX_idx; lia).
  apply wp_bind. unfold load_word, wp at 1, gets.
  destruct (has (load64 (km_mem s) (slot p i)) PTE_V) eqn:HV.
  - set (t := PTE2PA _). eapply wp_mono; [apply (IH t s l (path ++ [i])); try done|].
    + rewrite length_app. simpl. lia.
    + apply Forall_app. split; [done|]. by constructor.
    + rewrite tbl_snoc, Hp. simpl. unfold ent. by rewrite HV.
    + intros r s' (l' & Hw & Hr). exists l'. split; [done|]. cbn [idxs].
      rewrite <- app_assoc in Hr. exact Hr.
  - cbn [negb]. eapply wp_seq; [apply (walk_new_table s root l path p i); try done; [lia| |unfold ent; by rewrite HV]|].
    { intros ->. assert (level = 1%nat) as -> by (simpl in Hlen; lia). by apply PX_2_low. }
    intros q s1 Hq. destruct l as [|q' l'].
    + destruct Hq as [-> ->]. simpl. apply wp_ret. exists []. split; [by apply walked_refl|by left].
    + destruct Hq as (-> & Hqok & Hw & Ht).
      pose proof (page_ok_range kend Hend _ Hqok).
      destruct (Z.eqb_spec q' 0); [lia|].
      apply wp_bind. unfold memset_page, wp at 1, modify.
      apply wp_bind. unfold store_word, wp at 1, modify.
      eapply wp_mono; [eapply (IH q' _ l' (path ++ [i])); try done|].
      * apply (gr_wf _ _ _ _ _ (proj1 Hw)).
      * rewrite length_app. simpl. lia.
      * apply Forall_app. split; [done|]. by constructor.
      * intros r s' (l'' & Hw' & Hr). exists l''. split; [by eapply walked_trans|].
        cbn [idxs]. rewrite <- app_assoc in Hr. exact Hr.
Qed.

Lemma walk_alloc root va s l :
  vmwf s root l → 0 ≤ va < MAXVA →
  wp (walk root va true) (λ r s', ∃ l',
    walked s s' root l l' ∧
    ((r = 0 ∧ l' = []) ∨
     ∃ t, tbl (km_mem s') root [PX 2 va; PX 1 va] = Some t ∧ r = slot t (PX 0 va))) s.
Proof.
  intros Hwf Hva. unfold walk. case_test; [lia|].
  by apply (walk_loop_alloc 2 root va s root l []).
Qed.

(** ** Storing a leaf entry *)

Lemma PX_same_page level va va' :
  0 ≤ level → va / PGSIZE = va' / PGSIZE → PX level va = PX level va'.
Proof.
  intros Hl Heq. rewrite <- (PX_page level va), <- (PX_page level va') by done.
  f_equal. rewrite !Z.mod_eq by done. rewrite Heq. lia.
Qed.

Lemma pte_at_same_page m root va va' :
  va / PGSIZE = va' / PGSIZE → pte_at m root va = pte_at m root va'.
Proof. intros. apply pte_at_idx; apply PX_same_page; (lia || done). Qed.

Lemma leaf_store s root l va t v :
  vmwf s root l → 0 ≤ va < MAXVA → 0 ≤ v < 2 ^ 64 →
  tbl (km_mem s) root [PX 2 va; PX 1 va] = Some t →
  let s' := set_mem (store64 (km_mem s) (slot t (PX 0 va)) v) s in
  grown s s' root l l ∧
  (∀ va', 0 ≤ va' < MAXVA → pte_at (km_mem s') root va' =
     if decide (va' / PGSIZE = va / PGSIZE) then v else pte_at (km_mem s) root va') ∧
  (∀ path, (length path ≤ 2)%nat → Forall idx path →
     tbl (km_mem s') root path = tbl (km_mem s) root path).
Proof.
  intros Hwf Hva Hv Ht s'. set (P := [PX 2 va; PX 1 va]) in *.
  assert (HP : Forall idx P) by (repeat constructor; apply PX_idx; lia).
  destruct (vm_tables _ _ _ Hwf P t) as [Htok Htn]; [simpl; lia|done..|].
  assert (Hi : idx (PX 0 va)) by (apply PX_idx; lia).
  assert (Hload : ∀ t' j, page_ok t' → idx j → (t', j) ≠ (t, PX 0 va) →
    load64 (km_mem s') (slot t' j) = load64 (km_mem s) (slot t' j)).
  { intros t' j Ht' Hj Hne. simpl. apply load64_store64_ne.
    destruct (slot_disjoint t' j t (PX 0 va)); try done; lia. }
  assert (Htbl : ∀ path, (length path ≤ 2)%nat → Forall idx path →
    tbl (km_mem s') root path = tbl (km_mem s) root path).
  { intros path Hl Hx. apply tbl_ext. intros pre j suf t' -> Ht'.
    rewrite length_app in Hl. simpl in Hl.
    apply Forall_app in Hx as [Hpre [Hj _]%Forall_cons].
    destruct (vm_tables _ _ _ Hwf pre t') as [Htok' _]; [lia|done..|].
    apply Hload; try done. intros [= -> _].
    assert (pre = P) as -> by (eapply (vm_tree _ _ _ Hwf); simpl; (done || lia)).
    simpl in Hl. lia. }
  split; [|split; [|done]].
  - split.
    + split.
      * unfold s'. apply kinv_write; [apply (vm_kinv _ _ _ Hwf)|].
        intros r x Hr Hx. rewrite store64_out; [done|]. intros Hx'.
        apply (in_page_disjoint kend r t x); try done; [|set_solver|by eapply slot_in_page].
        destruct (vm_kinv _ _ _ Hwf) as (_ & _ & Hok). by eapply Forall_forall in Hok.
      * intros path t' ??. rewrite Htbl by done. by apply (vm_tables _ _ _ Hwf).
      * intros p1 p2 t' ????. rewrite !Htbl by done. by apply (vm_tree _ _ _ Hwf).
      * intros path t' j Hl Hx Hj. rewrite Htbl by (done || lia). intros Ht'.
        rewrite Hload; [by apply (vm_inner _ _ _ Hwf)|by eapply (vm_tables _ _ _ Hwf path); [lia|..]|done|].
        intros [= -> _]. assert (path = P) as -> by (eapply (vm_tree _ _ _ Hwf); simpl; (done || lia)). simpl in Hl. lia.
    + by exists [].
    + intros path t' ???. by rewrite Htbl.
    + intros x Hx _. simpl. apply store64_out. intros Hx'.
      apply (Hx t); [by exists P|]. by eapply slot_in_page.
    + intros t' (path & ? & ? & Ht'). left. exists path. rewrite Htbl in Ht' by done. done.
    + by left.
  - intros va' Hva'. assert (MAXVA < 2 ^ 39) by done. case_decide as Heq.
    + rewrite (pte_at_same_page _ _ va' va) by done. unfold pte_at. fold P.
      rewrite Htbl by (done || simpl; lia). rewrite Ht. simpl. by rewrite load64_store64, u64_id.
    + unfold pte_at. rewrite Htbl by (first [simpl; lia|repeat constructor; apply PX_range; lia]).
      destruct (tbl (km_mem s) root [PX 2 va'; PX 1 va']) as [t'|] eqn:Et; [|done].
      assert (HP' : Forall idx [PX 2 va'; PX 1 va']) by (repeat constructor; apply PX_range; lia).
      destruct (vm_tables _ _ _ Hwf [PX 2 va'; PX 1 va'] t') as [Htok' _]; [simpl; lia|done..|].
      apply Hload; [done|apply PX_idx; lia|]. intros [= -> Hpx0]. apply Heq.
      assert ([PX 2 va'; PX 1 va'] = P) as [= ? ?]
        by (eapply (vm_tree _ _ _ Hwf); simpl; (done || lia)).
      apply PX_inj; (lia || congruence).
Qed.

(** ** mappages *)

(** The leaf entries after mapping [k] pages from [va] to [pa]. *)
Definition pte_map (m m' : mem) (root va k pa perm : Z) : Prop :=
  ∀ va', 0 ≤ va' < MAXVA → pte_at m' root va' =
    if decide (va ≤ va' < va + k * PGSIZE)
    then mkpte (pa + (va' - va) / PGSIZE * PGSIZE) perm
    else pte_at m root va'.

Lemma map_step s root l va t :
  vmwf s root l → 0 ≤ va < MAXVA →
  tbl (km_mem s) root [PX 2 va; PX 1 va] = Some t →
  load64 (km_mem s) (slot t (PX 0 va)) = pte_at (km_mem s) root va ∧ 0 < slot t (PX 0 va).
Proof.
  intros Hwf Hva Ht. split; [unfold pte_at; by rewrite Ht|].
  apply slot_pos; [|apply PX_idx; lia].
  eapply (vm_tables _ _ _ Hwf [PX 2 va; PX 1 va]); [simpl; lia| |done].
  repeat constructor; apply PX_range; lia.
Qed.

Lemma mappages_loop_spec n root va pa perm s l :
  vmwf s root l → (0 < n)%nat →
  va mod PGSIZE = 0 → 0 ≤ va → va + Z.of_nat n * PGSIZE ≤ MAXVA →
  pa mod PGSIZE = 0 → 0 ≤ pa → pa + Z.of_nat n * PGSIZE ≤ 2 ^ 56 → 0 ≤ perm < 1024 →
  (∀ va', va ≤ va' < va + Z.of_nat n * PGSIZE → has (pte_at (km_mem s) root va') PTE_V = false) →
  wp (mappages_loop n root va (va + (Z.of_nat n - 1) * PGSIZE) pa perm) (λ r s', ∃ l' k,
    grown s s' root l l' ∧ pte_map (km_mem s) (km_mem s') root va k pa perm ∧
    ((r = 0 ∧ k = Z.of_nat n) ∨ (r = -1 ∧ 0 ≤ k < Z.of_nat n ∧ l' = []))) s.
Proof.
  revert va pa s l. induction n as [|n IH]; intros va pa s l Hwf Hn Hal Hva Htop Hpal Hpa Hptop Hperm Hun; [lia|].
  assert (Hmax : MAXVA = 2 ^ 38) by done. cbn [mappages_loop].
  eapply wp_seq; [apply (walk_alloc root va s l Hwf); unfold PGSIZE in *; lia|].
  intros r s1 (l1 & [Hg1 Hp1] & [[-> ->]|(t & Ht & ->)]).
  { simpl. apply wp_ret. exists [], 0. split; [done|]. split; [|right; split; [done|split; [lia|done]]].
    intros va' _. rewrite Hp1, decide_False by lia. done. }
  destruct (map_step s1 root l1 va t (gr_wf _ _ _ _ _ Hg1)) as [Hld Hpos];
    [unfold PGSIZE in *; lia|done|].
  destruct (Z.eqb_spec (slot t (PX 0 va)) 0); [lia|].
  apply wp_bind. unfold load_word, wp at 1, gets. rewrite Hld, Hp1, Hun by (unfold PGSIZE in *; lia).
  apply wp_bind. unfold store_word, wp at 1, modify. fold (mkpte pa perm).
  destruct (leaf_store s1 root l1 va t (mkpte pa perm)) as (Hg2 & Hp2 & _);
    [by apply (gr_wf _ _ _ _ _ Hg1)|unfold PGSIZE in *; lia| |done|].
  { apply mkpte_range; (done || unfold PGSIZE in *; lia). }
  set (s2 := set_mem _ _) in *.
  assert (Hp12 : ∀ va', 0 ≤ va' < MAXVA → pte_at (km_mem s2) root va' =
    if decide (va ≤ va' < va + PGSIZE) then mkpte pa perm else pte_at (km_mem s) root va').
  { intros va' Hva'. rewrite Hp2 by done. rewrite Hp1. unfold PGSIZE in *.
    repeat case_decide; try done; exfalso; zdm. }
  destruct (Z.eqb_spec va (va + (Z.of_nat (S n) - 1) * PGSIZE)) as [Hlast|Hlast].
  - assert (n = O) as -> by (unfold PGSIZE in *; lia). apply wp_ret.
    exists l1, 1. split; [by eapply grown_trans|]. split; [|by left].
    intros va' Hva'. rewrite Hp12 by done. unfold PGSIZE in *.
    repeat case_decide; try done; try lia. f_equal. zdm.
  - assert (0 < n)%nat by (unfold PGSIZE in *; lia).
    rewrite !u64_id by (unfold PGSIZE in *; lia).
    replace (va + (Z.of_nat (S n) - 1) * PGSIZE)
      with (va + PGSIZE + (Z.of_nat n - 1) * PGSIZE) by lia.
    eapply wp_mono; [apply (IH (va + PGSIZE) (pa + PGSIZE) s2 l1)|]; unfold PGSIZE in *; try zdm.
    + apply (gr_wf _ _ _ _ _ Hg2).
    + intros va' Hva'. rewrite Hp12 by lia. rewrite decide_False by lia. apply Hun. lia.
    + intros r s' (l' & k & Hg' & Hm' & Hr). exists l', (k + 1).
      split; [eapply grown_trans; [|exact Hg']; by eapply grown_trans|]. split.
      2:{ destruct Hr as [[??]|(? & ? & ?)]; [left|right]; repeat split; (done || lia). }
      intros va' Hva'. rewrite Hm' by done. rewrite Hp12 by done. unfold PGSIZE in *.
      assert (0 ≤ k) by lia.
      repeat case_decide; try done; try lia; f_equal; zdm.
Qed.

Lemma mappages_spec root va size pa perm s l :
  vmwf s root l → va mod PGSIZE = 0 → size mod PGSIZE = 0 → 0 < size →
  0 ≤ va → va + size ≤ MAXVA →
  pa mod PGSIZE = 0 → 0 ≤ pa → pa + size ≤ 2 ^ 56 → 0 ≤ perm < 1024 →
  (∀ va', va ≤ va' < va + size → has (pte_at (km_mem s) root va') PTE_V = false) →
  wp (mappages root va size pa perm) (λ r s', ∃ l' k,
    grown s s' root l l' ∧ pte_map (km_mem s) (km_mem s') root va k pa perm ∧
    ((r = 0 ∧ k = size / PGSIZE) ∨ (r = -1 ∧ 0 ≤ k < size / PGSIZE ∧ l' = []))) s.
Proof.
  intros Hwf Hva Hsz Hpos Hva0 Htop Hpa Hpa0 Hptop Hperm Hun. unfold mappages.
  assert (Hmax : MAXVA = 2 ^ 38) by done.
  destruct (Z.eqb_spec (va mod PGSIZE) 0); [|done].
  destruct (Z.eqb_spec (size mod PGSIZE) 0); [|done].
  destruct (Z.eqb_spec size 0); [lia|]. cbn [negb].
  assert (Hn : Z.of_nat (Z.to_nat (size / PGSIZE)) = size / PGSIZE)
    by (unfold PGSIZE in *; zdm).
  assert (Hs : size = size / PGSIZE * PGSIZE) by (unfold PGSIZE in *; zdm).
  replace (u64 (va + size - PGSIZE)) with
    (va + (Z.of_nat (Z.to_nat (size / PGSIZE)) - 1) * PGSIZE)
    by (rewrite u64_id; unfold PGSIZE in *; lia).
  eapply wp_mono; [apply (mappages_loop_spec _ root va pa perm s l); try done|];
    rewrite ?Hn; try (unfold PGSIZE in *; lia).
  - intros va' ?. apply Hun. lia.
  - done.
Qed.
(** ** Writes outside the tables *)

Lemma is_table_ok s root l t : vmwf s root l → is_table (km_mem s) root t → page_ok t ∧ t ∉ l.
Proof. intros Hwf (path & ? & ? & ?). by eapply (vm_tables _ _ _ Hwf). Qed.

Lemma data_write m m' root :
  (∀ t x, is_table m root t → in_page t x → m' x = m x) →
  (∀ path, (length path ≤ 2)%nat → Forall idx path → tbl m' root path = tbl m root path) ∧
  (∀ va, pte_at m' root va = pte_at m root va).
Proof.
  intros H.
  assert (Ht : ∀ path, (length path ≤ 2)%nat → Forall idx path → tbl m' root path = tbl m root path).
  { intros path Hl Hx. apply tbl_ext. intros pre j suf t -> Ht.
    rewrite length_app in Hl. simpl in Hl.
    apply Forall_app in Hx as [Hpre [Hj _]%Forall_cons].
    apply load64_ext. intros x Hx. apply (H t); [exists pre; split; [lia|done]|].
    by eapply slot_in_page. }
  split; [done|]. intros va. unfold pte_at.
  assert (HP : Forall idx [PX 2 va; PX 1 va]) by (repeat constructor; apply PX_range; lia).
  rewrite Ht by (done || simpl; lia).
  destruct (tbl m root [PX 2 va; PX 1 va]) as [t|] eqn:E; [|done].
  apply load64_ext. intros x Hx. apply (H t).
  - eexists. split; [|split; [exact HP|exact E]]. simpl. lia.
  - eapply slot_in_page; [|done]. apply PX_idx. lia.
Qed.

Lemma vmwf_data_write s s' root l l' :
  vmwf s root l → kinv s' l' → (∀ t, is_table (km_mem s) root t → t ∉ l') →
  (∀ t x, is_table (km_mem s) root t → in_page t x → km_mem s' x = km_mem s x) →
  vmwf s' root l'.
Proof.
  intros Hwf Hk Hl' Hm. destruct (data_write _ _ root Hm) as [Ht _]. split; [done|..].
  - intros path t ??. rewrite Ht by done. intros Hp. split.
    + by eapply (vm_tables _ _ _ Hwf).
    + apply Hl'. by exists path.
  - intros p1 p2 t ????. rewrite !Ht by done. by apply (vm_tree _ _ _ Hwf).
  - intros path t i ?? Hi. rewrite Ht by (done || lia). intros Hp.
    rewrite (load64_ext (km_mem s') (km_mem s)).
    + by apply (vm_inner _ _ _ Hwf).
    + intros x Hx. apply (Hm t); [exists path; split; [lia|done]|by eapply slot_in_page].
Qed.

Lemma is_table_same m m' root t :
  (∀ path, (length path ≤ 2)%nat → Forall idx path → tbl m' root path = tbl m root path) →
  is_table m' root t ↔ is_table m root t.
Proof.
  intros H. split; intros (path & ? & ? & Hp); exists path; (split; [done|]; split; [done|]).
  - by rewrite <- H.
  - by rewrite H.
Qed.

(** ** uvmunmap *)

(** The pages that [n] leaf entries from [va] map. *)
Definition phys_pages (m : mem) (root va : Z) (n : nat) : list Z :=
  (λ k, PTE2PA (pte_at m root (va + Z.of_nat k * PGSIZE))) <$> seq 0 n.

Lemma phys_pages_S m root va n :
  phys_pages m root va (S n) =
    PTE2PA (pte_at m root va) :: phys_pages m root (va + PGSIZE) n.
Proof.
  unfold phys_pages. cbn [seq fmap list_fmap]. f_equal; [do 2 f_equal; lia|].
  rewrite <- fmap_S_seq, <- list_fmap_compose. apply list_fmap_ext. intros i k _.
  simpl. do 2 f_equal. lia.
Qed.

Lemma phys_pages_ext m m' root va n :
  (∀ va', va ≤ va' < va + Z.of_nat n * PGSIZE → pte_at m' root va' = pte_at m root va') →
  phys_pages m' root va n = phys_pages m root va n.
Proof.
  intros H. apply list_fmap_ext. intros i k [-> Hk]%lookup_seq. simpl. f_equal. apply H.
  unfold PGSIZE. lia.
Qed.

(** The entries of the range are valid leaves. *)
Definition leaves (m : mem) (root va : Z) (n : nat) : Prop :=
  ∀ va', va ≤ va' < va + Z.of_nat n * PGSIZE →
    has (pte_at m root va') PTE_V = true ∧ PTE_FLAGS (pte_at m root va') ≠ PTE_V.

Definition pte_unmap (m m' : mem) (root va : Z) (n : nat) : Prop :=
  ∀ va', 0 ≤ va' < MAXVA → pte_at m' root va' =
    if decide (va ≤ va' < va + Z.of_nat n * PGSIZE) then 0 else pte_at m root va'.

Lemma valid_leaf_table m root va :
  has (pte_at m root va) PTE_V = true → ∃ t, tbl m root [PX 2 va; PX 1 va] = Some t.
Proof. unfold pte_at. destruct (tbl m root _) as [t|]; [by exists t|done]. Qed.

(** One iteration up to the store, shared by the two uses of [uvmunmap]. *)
Lemma uvmunmap_iter n root va stop (do_free : bool) s l Q :
  vmwf s root l → 0 ≤ va < MAXVA → va < stop →
  has (pte_at (km_mem s) root va) PTE_V = true → PTE_FLAGS (pte_at (km_mem s) root va) ≠ PTE_V →
  (∀ t, tbl (km_mem s) root [PX 2 va; PX 1 va] = Some t →
    wp (do _ <- (if do_free then kfree kend (PTE2PA (pte_at (km_mem s) root va)) else ret tt);
        do _ <- store_word (slot t (PX 0 va)) 0;
        uvmunmap_loop kend n root (u64 (va + PGSIZE)) stop do_free) Q s) →
  wp (uvmunmap_loop kend (S n) root va stop do_free) Q s.
Proof.
  intros Hwf Hva Hstop HV HF H. cbn [uvmunmap_loop]. case_test; [|lia].
  destruct (valid_leaf_table _ _ _ HV) as [t Ht].
  destruct (map_step s root l va t Hwf) as [Hld Hpos]; [done..|].
  apply wp_bind. unfold wp at 1. rewrite walk_noalloc by lia. rewrite Ht.
  destruct (Z.eqb_spec (slot t (PX 0 va)) 0); [lia|].
  apply wp_bind. unfold load_word, wp at 1, gets. rewrite Hld, HV. cbn [negb].
  destruct (Z.eqb_spec (PTE_FLAGS (pte_at (km_mem s) root va)) PTE_V); [done|].
  by apply H.
Qed.

Lemma pte_unmap_step m m1 m' root va n :
  va mod PGSIZE = 0 →
  (∀ va', 0 ≤ va' < MAXVA → pte_at m1 root va' =
     if decide (va' / PGSIZE = va / PGSIZE) then 0 else pte_at m root va') →
  pte_unmap m1 m' root (va + PGSIZE) n → pte_unmap m m' root va (S n).
Proof.
  intros Hal H1 H2 va' Hva'. rewrite H2, H1 by done. unfold PGSIZE in *.
  repeat case_decide; try done; exfalso; zdm.
Qed.

(** Freeing the pages [pp] writes only to them and to table pages, and keeps
    the tables. *)
Definition unmap_frame (s s' : kmem) (root : Z) (pp : list Z) : Prop :=
  (∀ x, (∀ t, is_table (km_mem s) root t → ¬ in_page t x) →
     (∀ q, q ∈ pp → ¬ in_page q x) → km_mem s' x = km_mem s x) ∧
  (∀ t, is_table (km_mem s') root t ↔ is_table (km_mem s) root t).

Lemma uvmunmap_loop_keep n root va s l :
  vmwf s root l → va mod PGSIZE = 0 → 0 ≤ va → va + Z.of_nat n * PGSIZE ≤ MAXVA →
  leaves (km_mem s) root va n →
  wp (uvmunmap_loop kend n root va (va + Z.of_nat n * PGSIZE) false) (λ _ s',
    vmwf s' root l ∧ pte_unmap (km_mem s) (km_mem s') root va n ∧ unmap_frame s s' root []) s.
Proof.
  assert (Hmax : MAXVA = 2 ^ 38) by done.
  revert va s. induction n as [|n IH]; intros va s Hwf Hal Hva Htop Hlv.
  { cbn [uvmunmap_loop]. case_test; [lia|]. apply wp_ret. split; [done|].
    split; [|by split]. intros va' _. by rewrite decide_False by lia. }
  destruct (Hlv va) as [HV HF]; [unfold PGSIZE; lia|].
  apply (uvmunmap_iter n root va _ false s l);
    [done|unfold PGSIZE in *; lia|unfold PGSIZE in *; lia|done|done|].
  intros t Ht. apply wp_bind, wp_ret, wp_bind. unfold store_word, wp at 1, modify.
  destruct (leaf_store s root l va t 0) as (Hg & Hp & Htb); [done|unfold PGSIZE in *; lia|lia|done|].
  set (s1 := set_mem _ _) in *. rewrite u64_id by (unfold PGSIZE in *; lia).
  replace (va + Z.of_nat (S n) * PGSIZE) with (va + PGSIZE + Z.of_nat n * PGSIZE) by lia.
  eapply wp_mono; [apply (IH (va + PGSIZE) s1)|].
  - apply (gr_wf _ _ _ _ _ Hg).
  - unfold PGSIZE in *. zdm.
  - unfold PGSIZE in *. lia.
  - unfold PGSIZE in *. lia.
  - intros va' Hva'. rewrite Hp by (unfold PGSIZE in *; lia).
    rewrite decide_False by (unfold PGSIZE in *; zdm). apply Hlv. unfold PGSIZE in *. lia.
  - intros _ s' (Hwf' & Hp' & Hf' & Ht'). split; [done|]. split; [by eapply pte_unmap_step|].
    assert (Htb' : ∀ t, is_table (km_mem s1) root t ↔ is_table (km_mem s) root t) by (intros t'; by apply is_table_same).
    split; [|intros t'; by rewrite Ht', Htb']. intros x Hx Hn. rewrite Hf' by (done || intros t' H%Htb'; by apply Hx).
    unfold s1. cbn [set_mem km_mem]. apply store64_out. intros Hs. apply (Hx t); [|eapply slot_in_page; [|exact Hs]; apply PX_idx; lia].
    exists [PX 2 va; PX 1 va]. split; [simpl; lia|]. split; [|done]. repeat constructor; apply PX_range; lia.
Qed.

(** Unmapping with [do_free] puts the mapped pages on the free list, the last
    one on top. *)
Lemma uvmunmap_loop_free n root va s l :
  vmwf s root l → va mod PGSIZE = 0 → 0 ≤ va → va + Z.of_nat n * PGSIZE ≤ MAXVA →
  leaves (km_mem s) root va n →
  NoDup (phys_pages (km_mem s) root va n ++ l) →
  Forall page_ok (phys_pages (km_mem s) root va n) →
  (∀ t, is_table (km_mem s) root t → t ∉ phys_pages (km_mem s) root va n) →
  wp (uvmunmap_loop kend n root va (va + Z.of_nat n * PGSIZE) true) (λ _ s',
    vmwf s' root (rev (phys_pages (km_mem s) root va n) ++ l) ∧
    pte_unmap (km_mem s) (km_mem s') root va n ∧
    unmap_frame s s' root (phys_pages (km_mem s) root va n)) s.
Proof.
  assert (Hmax : MAXVA = 2 ^ 38) by done.
  revert va s l. induction n as [|n IH]; intros va s l Hwf Hal Hva Htop Hlv Hnd Hok Hnt.
  { cbn [uvmunmap_loop]. case_test; [lia|]. apply wp_ret. split; [done|].
    split; [|by split]. intros va' _. by rewrite decide_False by lia. }
  rewrite phys_pages_S in *. set (pa := PTE2PA (pte_at (km_mem s) root va)) in *.
  apply NoDup_cons in Hnd as [Hpa Hnd]. apply Forall_cons in Hok as [Hpaok Hok].
  destruct (Hlv va) as [HV HF]; [unfold PGSIZE; lia|].
  apply (uvmunmap_iter n root va _ true s l);
    [done|unfold PGSIZE in *; lia|unfold PGSIZE in *; lia|done|done|].
  intros t Ht. fold pa.
  eapply wp_seq; [apply (kfree_spec kend Hend s l pa)|].
  { apply (vm_kinv _ _ _ Hwf). } { done. } { intros ?. apply Hpa. set_solver. }
  intros _ s1 [Hk1 Hm1].
  assert (Hdw : ∀ t x, is_table (km_mem s) root t → in_page t x → km_mem s1 x = km_mem s x).
  { intros t' x Ht' Hx. apply Hm1. intros Hx'.
    destruct (is_table_ok s root l t' Hwf Ht') as [? _].
    apply (in_page_disjoint kend t' pa x); try done. intros ->. apply (Hnt pa Ht'). by left. }
  destruct (data_write _ _ _ Hdw) as [Htb1 Hpt1].
  assert (Hwf1 : vmwf s1 root (pa :: l)).
  { eapply vmwf_data_write; try done. intros t' Ht' [->|Hin]%elem_of_cons.
    - apply (Hnt pa Ht'). by left.
    - by destruct (is_table_ok s root l t' Hwf Ht'). }
  apply wp_bind. unfold store_word, wp at 1, modify.
  destruct (leaf_store s1 root (pa :: l) va t 0) as (Hg & Hp & Htb2);
    [done|unfold PGSIZE in *; lia|lia| |].
  { rewrite Htb1; [done|simpl; lia|]. repeat constructor; apply PX_range; lia. }
  set (s2 := set_mem _ _) in *. rewrite u64_id by (unfold PGSIZE in *; lia).
  assert (Hp2 : ∀ va', 0 ≤ va' < MAXVA → pte_at (km_mem s2) root va' =
     if decide (va' / PGSIZE = va / PGSIZE) then 0 else pte_at (km_mem s) root va').
  { intros va' ?. rewrite Hp by done. by rewrite Hpt1. }
  assert (Hrest : ∀ va', va + PGSIZE ≤ va' < va + PGSIZE + Z.of_nat n * PGSIZE →
    pte_at (km_mem s2) root va' = pte_at (km_mem s) root va').
  { intros va' ?. rewrite Hp2 by (unfold PGSIZE in *; lia).
    apply decide_False. unfold PGSIZE in *. zdm. }
  replace (va + Z.of_nat (S n) * PGSIZE) with (va + PGSIZE + Z.of_nat n * PGSIZE) by lia.
  pose proof (phys_pages_ext _ _ root (va + PGSIZE) n Hrest) as Hpp.
  eapply wp_mono; [apply (IH (va + PGSIZE) s2 (pa :: l))|].
  - apply (gr_wf _ _ _ _ _ Hg).
  - unfold PGSIZE in *. zdm.
  - unfold PGSIZE in *. lia.
  - unfold PGSIZE in *. lia.
  - intros va' Hva'. rewrite Hrest by done. apply Hlv. unfold PGSIZE in *. lia.
  - rewrite Hpp. rewrite <- Permutation_middle. by constructor.
  - by rewrite Hpp.
  - intros t' Ht'. rewrite Hpp. intros Hin. apply (Hnt t'); [|by right].
    apply (is_table_same _ _ root t' Htb1), (is_table_same _ _ root t' Htb2), Ht'.
  - intros _ s' (Hwf' & Hp' & Hfr & Htb'). rewrite Hpp in Hwf', Hfr.
    assert (Htb : ∀ t, is_table (km_mem s2) root t ↔ is_table (km_mem s) root t).
    { intros t'. by rewrite (is_table_same _ _ root t' Htb2), (is_table_same _ _ root t' Htb1). }
    split; [simpl; by rewrite <- app_assoc|]. split; [by eapply pte_unmap_step|]. split.
    + intros x Hx Hq. rewrite Hfr.
      * subst s2. simpl. rewrite store64_out.
        -- apply Hm1, Hq. by left.
        -- intros Hs. apply (Hx t); [|eapply slot_in_page; [|exact Hs]; apply PX_idx; lia].
           exists [PX 2 va; PX 1 va]. split; [simpl; lia|]. split; [|done].
           repeat constructor; apply PX_range; lia.
      * intros t' Ht'. apply Hx. by apply Htb.
      * intros q Hin. apply Hq. by right.
    + intros t'. by rewrite Htb', Htb.
Qed.
End VmSpec.
