(* ===== verification/VmUser.v ===== *)
(** * VmUser: user address spaces

    The invariant [uspace] of a user page table: its tables are a tree of
    allocated pages ([vmwf]), and its user pages are allocated pages, each mapped
    once and none of them a table.  Creating, growing, shrinking and copying an
    address space keep it, and their effect on the mappings is exact, also on
    the paths that run out of memory. *)
From S2P Require Import Prelude Riscv CString Kalloc Vm VmSpec.

(** A page of user memory: the trapframe and trampoline pages are above. *)
Definition mapped (m : mem) (root va : Z) : Prop :=
  0 ≤ va < TRAPFRAME ∧ has (pte_at m root va) PTE_V = true.
Definition umapped (m : mem) (root va : Z) : Prop :=
  0 ≤ va < MAXVA ∧ has (pte_at m root va) PTE_V = true ∧ has (pte_at m root va) PTE_U = true.
Definition uwritable (m : mem) (root va : Z) : Prop :=
  umapped m root va ∧ has (pte_at m root va) PTE_W = true.

#[export] Instance mapped_dec m root va : Decision (mapped m root va).
Proof. unfold mapped. apply _. Defined.
#[export] Instance umapped_dec m root va : Decision (umapped m root va).
Proof. unfold umapped. apply _. Defined.
#[export] Instance uwritable_dec m root va : Decision (uwritable m root va).
Proof. unfold uwritable. apply _. Defined.

(** The physical page and address behind a user address, and the byte there. *)
Definition upage (m : mem) (root va : Z) : Z := PTE2PA (pte_at m root va).
Definition phys (m : mem) (root va : Z) : Z := upage m root va + va mod PGSIZE.
Definition uread (m : mem) (root va : Z) : Z := m (phys m root va).

Lemma elem_of_rev {A} (x : A) l : x ∈ rev l ↔ x ∈ l.
Proof. rewrite rev_alt. apply elem_of_reverse. Qed.

Lemma MAXVA_eq : MAXVA = 2 ^ 38.
Proof. done. Qed.
Lemma TRAPFRAME_eq : TRAPFRAME = 2 ^ 38 - 8192.
Proof. done. Qed.

Lemma umapped_page m root va va' :
  va / PGSIZE = va' / PGSIZE → 0 ≤ va' < MAXVA → umapped m root va → umapped m root va'.
Proof.
  intros Hp Hr (_ & HV & HU). unfold umapped.
  by rewrite <- (pte_at_same_page m root va va').
Qed.

Lemma upage_same_page m root va va' :
  va / PGSIZE = va' / PGSIZE → upage m root va = upage m root va'.
Proof. intros. unfold upage. f_equal. by apply pte_at_same_page. Qed.

Lemma phys_in_page m root va : in_page (upage m root va) (phys m root va).
Proof. unfold in_page, phys, PGSIZE. zdm. Qed.

Lemma phys_add m root va i :
  0 ≤ i → va mod PGSIZE + i < PGSIZE → phys m root (va + i) = phys m root va + i.
Proof.
  intros. unfold phys, PGSIZE in *.
  rewrite (upage_same_page m root (va + i) va); unfold PGSIZE; zdm.
Qed.

Section VmUser.
Context (kend : Z).
Hypothesis Hend : KERNBASE ≤ kend.

Record uspace (s : kmem) (root : Z) (l : list Z) : Prop := {
  us_wf : vmwf kend s root l;
  us_user : ∀ va, umapped (km_mem s) root va → mapped (km_mem s) root va;
  us_leaf : ∀ va, mapped (km_mem s) root va → PTE_FLAGS (pte_at (km_mem s) root va) ≠ PTE_V;
  us_page : ∀ va, mapped (km_mem s) root va →
    page_ok kend (upage (km_mem s) root va) ∧ upage (km_mem s) root va ∉ l ∧
    ¬ is_table (km_mem s) root (upage (km_mem s) root va);
  us_inj : ∀ va va', mapped (km_mem s) root va → mapped (km_mem s) root va' →
    upage (km_mem s) root va = upage (km_mem s) root va' → va / PGSIZE = va' / PGSIZE;
}.

(** Page [q] is in use, but neither by the free list nor by this address space. *)
Record spare (s : kmem) (root : Z) (l : list Z) (q : Z) : Prop := {
  sp_ok : page_ok kend q;
  sp_free : q ∉ l;
  sp_table : ¬ is_table (km_mem s) root q;
  sp_user : ∀ va, mapped (km_mem s) root va → upage (km_mem s) root va ≠ q;
}.

(** Changes that leave the tables of an address space and its pages alone. *)
Lemma uspace_change s s' root l l' :
  uspace s root l → kinv kend s' l' →
  (∀ t x, is_table (km_mem s) root t → in_page t x → km_mem s' x = km_mem s x) →
  (∀ t, is_table (km_mem s) root t → t ∉ l') →
  (∀ va, mapped (km_mem s) root va → upage (km_mem s) root va ∉ l') →
  uspace s' root l' ∧
  (∀ va, pte_at (km_mem s') root va = pte_at (km_mem s) root va) ∧
  (∀ t, is_table (km_mem s') root t ↔ is_table (km_mem s) root t).
Proof.
  intros [Hwf Hu Hlf Hpg Hinj] Hk Ht Htl Hpl.
  destruct (data_write _ _ _ Ht) as [Htb Hpt].
  assert (Htab : ∀ t, is_table (km_mem s') root t ↔ is_table (km_mem s) root t)
    by (intros; by apply is_table_same).
  assert (Hup : ∀ va, upage (km_mem s') root va = upage (km_mem s) root va)
    by (intros; unfold upage; by rewrite Hpt).
  assert (Hmap : ∀ va, mapped (km_mem s') root va ↔ mapped (km_mem s) root va)
    by (intros; unfold mapped; by rewrite Hpt).
  split; [|done]. split.
  - by eapply vmwf_data_write.
  - intros va. unfold umapped. rewrite Hpt. intros ?. by apply Hmap, Hu.
  - intros va Hm. rewrite Hpt. by apply Hlf, Hmap.
  - intros va Hm%Hmap. rewrite Hup, Htab. destruct (Hpg va Hm) as (? & _ & ?). auto.
  - intros va va' ?%Hmap ?%Hmap. rewrite !Hup. by apply Hinj.
Qed.

(** The pages of an address space: its tables and its memory. *)
Definition uses (m : mem) (root q : Z) : Prop :=
  is_table m root q ∨ ∃ va, mapped m root va ∧ upage m root va = q.

Lemma uses_same m m' root : (∀ va, 0 ≤ va < MAXVA → pte_at m' root va = pte_at m root va) →
  (∀ t, is_table m' root t ↔ is_table m root t) → ∀ q, uses m' root q ↔ uses m root q.
Proof.
  intros Hp Ht q. unfold uses. rewrite Ht. apply or_iff_compat_l.
  assert (Hr : ∀ va, 0 ≤ va < TRAPFRAME → pte_at m' root va = pte_at m root va)
    by (intros va Hva; apply Hp; rewrite MAXVA_eq; rewrite TRAPFRAME_eq in Hva; lia).
  split; intros (va & [Hva HV] & <-); exists va; unfold mapped, upage; [rewrite Hr in HV |- * by done|rewrite Hr by done]; done.
Qed.

(** No page is lost or gained: the pages that are free or in this address space
    are the same. *)
Definition conserves (s s' : kmem) (root : Z) (l l' : list Z) : Prop :=
  ∀ q, q ∈ l ∨ uses (km_mem s) root q ↔ q ∈ l' ∨ uses (km_mem s') root q.

Lemma conserves_refl s root l : conserves s s root l l.
Proof. by intros q. Qed.

Lemma conserves_trans s1 s2 s3 root l1 l2 l3 : conserves s1 s2 root l1 l2 → conserves s2 s3 root l2 l3 → conserves s1 s3 root l1 l3.
Proof. intros H1 H2 q. by rewrite (H1 q), (H2 q). Qed.

(** Apart from the pages [X], what is in use keeps its bytes and stays in use. *)
Definition kept (X : list Z) (s s' : kmem) (root : Z) (l l' : list Z) : Prop :=
  ∀ q, page_ok kend q → q ∉ X → q ∉ l → ¬ is_table (km_mem s) root q →
    q ∉ l' ∧ ¬ is_table (km_mem s') root q ∧ ∀ x, in_page q x → km_mem s' x = km_mem s x.

Lemma kept_refl s root l : kept [] s s root l l.
Proof. by intros q. Qed.

Lemma kept_weaken X Y s s' root l l' :
  (∀ q, q ∈ X → q ∈ Y ∨ q ∈ l) → kept X s s' root l l' → kept Y s s' root l l'.
Proof. intros HX H q ? HY Hl ?. apply H; try done. intros Hq. by destruct (HX q Hq). Qed.

Lemma kept_trans X Y s1 s2 s3 root l1 l2 l3 :
  kept X s1 s2 root l1 l2 → kept Y s2 s3 root l2 l3 → kept (X ++ Y) s1 s3 root l1 l3.
Proof.
  intros H1 H2 q Hq HXY Hl Ht. destruct (H1 q) as (? & ? & Hm1); try done; [set_solver|].
  destruct (H2 q) as (? & ? & Hm2); try done; [set_solver|].
  split; [done|]. split; [done|]. intros x Hx. by rewrite Hm2, Hm1.
Qed.

Lemma kept_uread X s s' root l l' va :
  uspace s root l → kept X s s' root l l' → mapped (km_mem s) root va →
  upage (km_mem s) root va ∉ X → pte_at (km_mem s') root va = pte_at (km_mem s) root va →
  uread (km_mem s') root va = uread (km_mem s) root va.
Proof.
  intros Hus HK Hm HX Hp. destruct (us_page _ _ _ Hus va Hm) as (? & ? & ?).
  destruct (HK (upage (km_mem s) root va)) as (_ & _ & Hx); try done.
  unfold uread. replace (phys (km_mem s') root va) with (phys (km_mem s) root va)
    by (unfold phys, upage; by rewrite Hp).
  apply Hx, phys_in_page.
Qed.

(** ** An empty address space: uvmcreate *)

Lemma zero_root_uspace s root l :
  kinv kend s l → page_ok kend root → root ∉ l → (∀ x, in_page root x → km_mem s x = 0) →
  uspace s root l ∧ (∀ va, pte_at (km_mem s) root va = 0) ∧
  (∀ t, is_table (km_mem s) root t → t = root).
Proof.
  intros Hk Hr Hl Hz.
  assert (He : ∀ i, idx i → ent (km_mem s) root i = None).
  { intros i Hi. unfold ent. rewrite load64_zero; [done|].
    intros x Hx. apply Hz. by eapply slot_in_page. }
  assert (Hpath : ∀ path t, Forall idx path → tbl (km_mem s) root path = Some t →
    path = [] ∧ t = root).
  { intros [|i path] t Hx; simpl; [by intros [= <-]|].
    apply Forall_cons in Hx as [Hi _]. by rewrite He. }
  assert (Hp : ∀ va, pte_at (km_mem s) root va = 0).
  { intros va. unfold pte_at. destruct (tbl _ _ _) as [t|] eqn:Ht; [|done].
    apply Hpath in Ht as [? _]; [done|]. repeat constructor; apply PX_range; lia. }
  assert (Hnm : ∀ va, ¬ mapped (km_mem s) root va) by (intros va [_ HV]; by rewrite Hp in HV).
  split; [|split; [done|]; intros t (path & _ & Hx & Ht); by apply Hpath in Ht as [_ ->]].
  split; [split; [done|..]|..].
  - intros path t _ Hx Ht. by apply Hpath in Ht as [-> ->].
  - intros p1 p2 t _ _ H1 H2 Ht1 Ht2. apply Hpath in Ht1 as [-> _]; [|done].
    by apply Hpath in Ht2 as [-> _].
  - intros path t i _ Hx Hi Ht HV. apply Hpath in Ht as [-> ->]; [|done].
    specialize (He i Hi). unfold ent in He. by rewrite HV in He.
  - intros va (_ & HV & _). by rewrite Hp in HV.
  - intros va Hm. by apply Hnm in Hm.
  - intros va Hm. by apply Hnm in Hm.
  - intros va va' Hm. by apply Hnm in Hm.
Qed.

Lemma uvmcreate_spec s l :
  kinv kend s l →
  wp uvmcreate (λ r s',
    match l with
    | [] => r = 0 ∧ s' = s
    | p :: l' => r = p ∧ uspace s' p l' ∧ (∀ va, pte_at (km_mem s') p va = 0) ∧
        (∀ t, is_table (km_mem s') p t → t = p) ∧ (∀ x, ¬ in_page p x → km_mem s' x = km_mem s x)
    end) s.
Proof.
  intros Hk. unfold uvmcreate. eapply wp_seq; [apply (kalloc_spec kend s l Hk)|].
  intros p s1 Hp. destruct l as [|p' l'].
  { destruct Hp as [-> ->]. by apply wp_ret. }
  destruct Hp as (-> & Hk1 & Hm1). destruct Hk as (_ & Hd & Hok).
  apply Forall_cons in Hok as [Hpok Hok]. apply NoDup_cons in Hd as [Hpl _].
  pose proof (page_ok_range kend Hend p' Hpok).
  destruct (Z.eqb_spec p' 0) as [?|_]; [lia|].
  apply wp_bind. unfold memset_page, wp at 1, modify. apply wp_ret.
  set (s2 := set_mem _ _).
  assert (Hm2 : ∀ x, km_mem s2 x = if decide (in_page p' x) then 0 else km_mem s1 x).
  { intros x. simpl. rewrite memset_spec by done. done. }
  assert (Hk2 : kinv kend s2 l').
  { apply kinv_write; [done|]. intros q x Hq Hx. change (memset _ _ _ _ x) with (km_mem s2 x).
    rewrite Hm2, decide_False; [done|]. intros Hx'.
    apply (in_page_disjoint kend q p' x); try done; [|congruence].
    by eapply Forall_forall in Hok. }
  split; [done|]. destruct (zero_root_uspace s2 p' l' Hk2 Hpok Hpl) as (? & ? & ?).
  { intros x Hx. by rewrite Hm2, decide_True. }
  split; [done|]. split; [done|]. split; [done|]. intros x Hx. by rewrite Hm2, decide_False, Hm1, decide_False.
Qed.

(** ** [walk] without allocation finds the entry or no table *)

Lemma walk_user s root l va :
  vmwf kend s root l → 0 ≤ va < MAXVA →
  ∃ a, walk root va false s = Ok a s ∧
    ((a = 0 ∧ pte_at (km_mem s) root va = 0) ∨
     (a ≠ 0 ∧ load64 (km_mem s) a = pte_at (km_mem s) root va)).
Proof.
  intros Hwf Hva. rewrite walk_noalloc by lia.
  destruct (tbl (km_mem s) root [PX 2 va; PX 1 va]) as [t|] eqn:Ht.
  - destruct (map_step kend Hend s root l va t Hwf) as [Hld Hpos]; [done..|].
    eexists. split; [done|]. right. split; [lia|done].
  - exists 0. split; [done|]. left. split; [done|]. unfold pte_at. by rewrite Ht.
Qed.

(** ** Mapping one more page *)

Lemma grown_kept s s' root l l' :
  vmwf kend s root l → grown kend s s' root l l' → kept [] s s' root l l'.
Proof.
  intros Hwf [_ [l1 ->] _ Hf Hn] q Hq _ Hl Ht. split; [set_solver|]. split.
  - intros H%Hn. by destruct H.
  - intros x Hx. apply Hf.
    + intros t Ht' Hx'. destruct (is_table_ok kend s root _ t Hwf Ht').
      apply (in_page_disjoint kend t q x); try done. congruence.
    + intros q' Hq' Hx'. destruct (vm_kinv _ _ _ _ Hwf) as (_ & _ & Hok).
      apply (in_page_disjoint kend q' q x); try done; [|congruence].
      by eapply Forall_forall in Hok.
Qed.

Lemma mappage_spec s root l va p perm :
  uspace s root l → spare s root l p → va mod PGSIZE = 0 → 0 ≤ va → va + PGSIZE ≤ TRAPFRAME →
  0 ≤ perm < 1024 → Z.lor perm PTE_V ≠ PTE_V →
  has (pte_at (km_mem s) root va) PTE_V = false →
  wp (mappages root va PGSIZE p perm) (λ r s', ∃ l',
    uspace s' root l' ∧ kept [] s s' root l l' ∧
    (∀ q, q ∈ l ∨ is_table (km_mem s) root q ↔ q ∈ l' ∨ is_table (km_mem s') root q) ∧
    ((r = 0 ∧ pte_map (km_mem s) (km_mem s') root va 1 p perm) ∨
     (r = -1 ∧ spare s' root l' p ∧
      ∀ va', 0 ≤ va' < MAXVA → pte_at (km_mem s') root va' = pte_at (km_mem s) root va'))) s.
Proof.
  intros Hus [Hpok Hpl Hpt Hpu] Hal Hva Htop Hperm Hleaf HV.
  assert (Hmax := MAXVA_eq). assert (Htf := TRAPFRAME_eq).
  pose proof (page_ok_range kend Hend p Hpok) as [Hpr Hpal].
  eapply wp_mono; [apply (mappages_spec kend Hend root va PGSIZE p perm s l)|];
    try done; try (unfold PGSIZE in *; lia).
  { apply us_wf, Hus. }
  { intros va' Hva'. rewrite <- HV. f_equal. apply pte_at_same_page. unfold PGSIZE in *. zdm. }
  intros r s' (l' & k & Hg & Hmap & Hr). exists l'.
  pose proof (grown_kept s s' root l l' (us_wf _ _ _ Hus) Hg) as HK.
  destruct Hg as [Hwf' [l1 Hl1] Htm _ Hnew Hused]. destruct Hus as [Hwf Hu Hlf Hpg Hinj].
  assert (Hk : k = 0 ∨ k = 1) by (change (PGSIZE / PGSIZE) with 1 in Hr; lia).
  assert (Hpte : ∀ va', 0 ≤ va' < MAXVA → pte_at (km_mem s') root va' =
    if decide (k = 1 ∧ va ≤ va' < va + PGSIZE) then mkpte p perm else pte_at (km_mem s) root va').
  { intros va' Hva'. rewrite Hmap by done. destruct Hk as [-> | ->].
    - rewrite decide_False by lia. by rewrite decide_False by lia.
    - destruct (decide (va ≤ va' < va + 1 * PGSIZE)).
      + rewrite decide_True by (split; [done|lia]). f_equal. unfold PGSIZE in *. zdm.
      + by rewrite decide_False by lia. }
  assert (Hcase : ∀ va', mapped (km_mem s') root va' →
    (k = 1 ∧ va ≤ va' < va + PGSIZE ∧ upage (km_mem s') root va' = p) ∨
    (mapped (km_mem s) root va' ∧ upage (km_mem s') root va' = upage (km_mem s) root va')).
  { intros va' [Hr' HV']. unfold mapped, upage. rewrite Hpte in HV' |- * by lia.
    case_decide as Hin; [left|by right]. destruct Hin as [? ?].
    split; [done|]. split; [done|]. apply PTE2PA_mkpte; [lia|done|done]. }
  split; [split; [done|..]|].
  - intros va' (Hr' & HV' & HU'). destruct (decide (k = 1 ∧ va ≤ va' < va + PGSIZE)) as [[_ ?]|Hn].
    + split; [lia|done].
    + split; [|done]. rewrite Hpte, decide_False in HV', HU' by done.
      destruct (Hu va') as [? _]; done.
  - intros va' [Hr' HV']. rewrite Hpte in HV' |- * by lia. case_decide as Hin.
    + rewrite PTE_FLAGS_mkpte by (done || lia). done.
    + apply Hlf. by split.
  - intros va' Hm. destruct (Hcase va' Hm) as [(_ & _ & ->)|[Hm' ->]].
    + destruct (HK p) as (? & ? & _); try done. set_solver.
    + destruct (Hpg va' Hm') as (? & ? & ?). destruct (HK (upage (km_mem s) root va')) as (? & ? & _);
        try done. set_solver.
  - intros v1 v2 Hm1 Hm2.
    destruct (Hcase v1 Hm1) as [(_ & Hr1 & ->)|[Hm1' ->]];
      destruct (Hcase v2 Hm2) as [(_ & Hr2 & ->)|[Hm2' ->]].
    + intros _. unfold PGSIZE in *. zdm.
    + intros He. destruct (Hpu v2 Hm2'). done.
    + intros He. destruct (Hpu v1 Hm1'). done.
    + by apply Hinj.
  - split; [done|]. split.
    { intros q. split; [intros [?|(path & ? & ? & ?)]; [by apply Hused|right; exists path; auto]|].
      intros [?|[?|?]%Hnew]; [left; rewrite Hl1; set_solver|by right|by left]. }
    destruct Hr as [[-> Hk1]|(-> & Hk0 & ->)].
    + left. split; [done|]. by rewrite Hk1 in Hmap.
    + assert (k = 0) as -> by (change (PGSIZE / PGSIZE) with 1 in Hk0; lia).
      right. split; [done|]. split; [split|].
      * done.
      * set_solver.
      * destruct (HK p) as (? & ? & _); try done. set_solver.
      * intros va' Hm. destruct (Hcase va' Hm) as [[? _]|[Hm' ->]]; [lia|]. by apply Hpu.
      * intros va' Hva'. rewrite Hpte by done. by rewrite decide_False by lia.
Qed.

(** ** Unmapping and freeing: uvmunmap, uvmdealloc *)

Lemma elem_phys_pages m root va n q :
  q ∈ phys_pages m root va n ↔
  ∃ k : nat, (k < n)%nat ∧ q = upage m root (va + Z.of_nat k * PGSIZE).
Proof.
  unfold phys_pages. rewrite list_elem_of_fmap. split.
  - intros (k & -> & Hk%elem_of_seq). exists k. split; [lia|done].
  - intros (k & Hk & ->). exists k. split; [done|]. apply elem_of_seq. lia.
Qed.

Lemma NoDup_phys_pages m root va n :
  (∀ i j, (i < n)%nat → (j < n)%nat →
     upage m root (va + Z.of_nat i * PGSIZE) = upage m root (va + Z.of_nat j * PGSIZE) → i = j) →
  NoDup (phys_pages m root va n).
Proof.
  intros H. unfold phys_pages. apply NoDup_fmap_2_strong; [|apply NoDup_seq].
  intros i j Hi%elem_of_seq Hj%elem_of_seq. apply H; lia.
Qed.

(** The pages go to the front of the free list; the tables stay. *)
Lemma uvmunmap_pages s root l va n :
  uspace s root l → va mod PGSIZE = 0 → 0 ≤ va → va + Z.of_nat n * PGSIZE ≤ TRAPFRAME →
  (∀ va', va ≤ va' < va + Z.of_nat n * PGSIZE → mapped (km_mem s) root va') →
  let l' := rev (phys_pages (km_mem s) root va n) ++ l in
  wp (uvmunmap kend root va (Z.of_nat n) true) (λ _ s',
    uspace s' root l' ∧ pte_unmap (km_mem s) (km_mem s') root va n ∧
    kept (phys_pages (km_mem s) root va n) s s' root l l' ∧
    ∀ t, is_table (km_mem s') root t ↔ is_table (km_mem s) root t) s.
Proof.
  intros Hus Hal Hva Htop Hmap. assert (Hmax := MAXVA_eq). assert (Htf := TRAPFRAME_eq).
  unfold uvmunmap. rewrite Hal. simpl. rewrite u64_id, Nat2Z.id by (unfold PGSIZE in *; lia).
  destruct Hus as [Hwf Hu Hlf Hpg Hinj].
  assert (Hpp : ∀ k : nat, (k < n)%nat → mapped (km_mem s) root (va + Z.of_nat k * PGSIZE)).
  { intros k Hk. apply Hmap. unfold PGSIZE. nia. }
  assert (Hin : ∀ q, q ∈ phys_pages (km_mem s) root va n →
    page_ok kend q ∧ q ∉ l ∧ ¬ is_table (km_mem s) root q).
  { intros q (k & Hk & ->)%elem_phys_pages. by apply Hpg, Hpp. }
  eapply wp_mono; [apply (uvmunmap_loop_free kend Hend n root va s l)|]; try done.
  - unfold PGSIZE in *. lia.
  - intros va' Hva'. split; [apply Hmap|apply Hlf, Hmap]; done.
  - apply NoDup_app. split; [|split].
    + apply NoDup_phys_pages. intros i j Hi Hj He.
      apply Hinj in He; [|by apply Hpp..]. unfold PGSIZE in *. zdm.
    + intros q Hq. by apply Hin.
    + by destruct (vm_kinv _ _ _ _ Hwf) as (_ & ? & _).
  - apply Forall_forall. intros q Hq. by apply Hin.
  - intros t Ht Hq. by apply Hin in Hq as (_ & _ & ?).
  - intros _ s' (Hwf' & Hun & Hfr & Htb). split; [|split; [exact Hun|split; [|exact Htb]]].
    + assert (Hcase : ∀ va', mapped (km_mem s') root va' → mapped (km_mem s) root va' ∧
        ¬ (va ≤ va' < va + Z.of_nat n * PGSIZE) ∧
        pte_at (km_mem s') root va' = pte_at (km_mem s) root va').
      { intros va' [Hr HV]. unfold mapped. rewrite Hun in HV |- * by lia.
        case_decide; [done|]. done. }
      split; [done|..].
      * intros va' (Hr & HV & HU). rewrite Hun in HV, HU by lia. case_decide; [done|].
        assert (Hm : mapped (km_mem s) root va') by (by apply Hu).
        split; [apply Hm|]. rewrite Hun, decide_False by done. done.
      * intros va' (? & _ & ->)%Hcase. by apply Hlf.
      * intros va' (Hm & Hnin & Hp)%Hcase. unfold upage. rewrite Hp, Htb.
        destruct (Hpg va' Hm) as (? & ? & ?). split; [done|]. split; [|done].
        rewrite not_elem_of_app, elem_of_rev. split; [|done].
        intros (k & Hk & He)%elem_phys_pages. apply Hinj in He; [|done|by apply Hpp].
        apply Hnin. unfold PGSIZE in *. zdm.
      * intros v1 v2 (? & _ & Hp1)%Hcase (? & _ & Hp2)%Hcase. unfold upage.
        rewrite Hp1, Hp2. by apply Hinj.
    + intros q Hq Hnpp Hl Ht. rewrite not_elem_of_app, elem_of_rev, Htb. split; [done|].
      split; [done|]. intros x Hx. apply Hfr.
      * intros t Ht' Hx'. destruct (is_table_ok kend s root l t Hwf Ht').
        apply (in_page_disjoint kend t q x); try done. congruence.
      * intros q' Hq' Hx'. apply (in_page_disjoint kend q' q x); try done; [|congruence].
        by apply Hin.
Qed.

Lemma uvmunmap_spec s root l va n :
  uspace s root l → va mod PGSIZE = 0 → 0 ≤ va → va + Z.of_nat n * PGSIZE ≤ TRAPFRAME →
  (∀ va', va ≤ va' < va + Z.of_nat n * PGSIZE → mapped (km_mem s) root va') →
  wp (uvmunmap kend root va (Z.of_nat n) true) (λ _ s', ∃ l',
    uspace s' root l' ∧ pte_unmap (km_mem s) (km_mem s') root va n ∧
    kept (phys_pages (km_mem s) root va n) s s' root l l' ∧ conserves s s' root l l') s.
Proof.
  intros Hus Hal Hva Htop Hmap. assert (Hmax := MAXVA_eq). assert (Htf := TRAPFRAME_eq).
  eapply wp_mono; [by apply (uvmunmap_pages s root l va n)|]. intros _ s' (Hu & Hp & Hk & Ht). eexists.
  split; [exact Hu|]. split; [done|]. split; [done|]. intros q. rewrite elem_of_app, elem_of_rev. unfold uses in *. rewrite Ht. split.
  - intros [?|[?|(va' & Hm & <-)]]; [tauto|tauto|]. destruct (decide (va ≤ va' < va + Z.of_nat n * PGSIZE)) as [Hin|Hin].
    + left. left. apply elem_phys_pages. exists (Z.to_nat ((va' - va) / PGSIZE)). unfold PGSIZE in *. split; [zdm|].
      apply upage_same_page. unfold PGSIZE. zdm.
    + right. right. exists va'. destruct Hm as [Hr HV]. unfold mapped, upage. rewrite Hp by lia. by rewrite decide_False.
  - intros [[(k & Hk' & ->)%elem_phys_pages|?]|[?|(va' & [Hr HV] & <-)]]; [|tauto|tauto|].
    + right. right. exists (va + Z.of_nat k * PGSIZE). split; [|done]. apply Hmap. unfold PGSIZE in *. lia.
    + right. right. exists va'. unfold mapped, upage. rewrite Hp in HV |- * by lia. case_decide; [done|]. done.
Qed.

(** [uvmdealloc] back to a page boundary [o] below [a]. *)
Lemma uvmdealloc_spec s root l o n :
  uspace s root l → o mod PGSIZE = 0 → 0 ≤ o → o + Z.of_nat n * PGSIZE ≤ TRAPFRAME →
  (∀ va', o ≤ va' < o + Z.of_nat n * PGSIZE → mapped (km_mem s) root va') →
  wp (uvmdealloc kend root (o + Z.of_nat n * PGSIZE) o) (λ _ s', ∃ l',
    uspace s' root l' ∧ pte_unmap (km_mem s) (km_mem s') root o n ∧
    kept (phys_pages (km_mem s) root o n) s s' root l l' ∧ conserves s s' root l l') s.
Proof.
  intros Hus Hal Ho Htop Hmap. assert (Htf := TRAPFRAME_eq). unfold uvmdealloc.
  destruct (Z.leb_spec (o + Z.of_nat n * PGSIZE) o) as [Hle|Hgt].
  { assert (n = O) as -> by (unfold PGSIZE in *; lia). apply wp_ret. exists l. split; [done|].
    split; [|split; [apply kept_refl|apply conserves_refl]]. intros va' _. by rewrite decide_False by lia. }
  rewrite !PGROUNDUP_of_aligned by (unfold PGSIZE in *; (lia || zdm)).
  destruct (Z.ltb_spec o (o + Z.of_nat n * PGSIZE)); [|lia].
  replace (o + Z.of_nat n * PGSIZE - o) with (Z.of_nat n * PGSIZE) by lia.
  rewrite Z.div_mul by done. rewrite i32_id by (unfold PGSIZE in *; lia).
  eapply wp_seq; [by apply (uvmunmap_spec s root l o n)|]. intros u s' H'. by apply wp_ret.
Qed.

(** ** Pages on their way into or out of an address space *)

Lemma kalloc_user s root l :
  uspace s root l →
  wp kalloc (λ p s1,
    match l with
    | [] => p = 0 ∧ s1 = s
    | p' :: l1 => p = p' ∧ p ≠ 0 ∧ uspace s1 root l1 ∧ spare s1 root l1 p ∧
        kept [] s s1 root l l1 ∧
        (∀ va, pte_at (km_mem s1) root va = pte_at (km_mem s) root va) ∧
        ∀ t, is_table (km_mem s1) root t ↔ is_table (km_mem s) root t
    end) s.
Proof.
  intros Hus. pose proof (vm_kinv _ _ _ _ (us_wf _ _ _ Hus)) as Hk.
  eapply wp_mono; [apply (kalloc_spec kend s l Hk)|].
  intros p s1 Hp. destruct l as [|p' l1]; [done|]. destruct Hp as (-> & Hk1 & Hm1).
  destruct Hk as (_ & Hd & Hok). apply Forall_cons in Hok as [Hpok Hok].
  apply NoDup_cons in Hd as [Hpl _]. pose proof (page_ok_range kend Hend p' Hpok).
  assert (Htab : ∀ t, is_table (km_mem s) root t → page_ok kend t ∧ t ≠ p' ∧ t ∉ l1).
  { intros t Ht. destruct (is_table_ok kend s root _ t (us_wf _ _ _ Hus) Ht) as [? Hn].
    by apply not_elem_of_cons in Hn as [? ?]. }
  assert (Hpg : ∀ va, mapped (km_mem s) root va →
    upage (km_mem s) root va ≠ p' ∧ upage (km_mem s) root va ∉ l1).
  { intros va Hm. destruct (us_page _ _ _ Hus va Hm) as (_ & Hn & _).
    by apply not_elem_of_cons in Hn. }
  destruct (uspace_change s s1 root (p' :: l1) l1 Hus Hk1) as (Hus1 & Hp1 & Ht1).
  - intros t x Ht Hx. rewrite Hm1, decide_False; [done|]. intros Hx'.
    destruct (Htab t Ht) as (? & ? & _). by apply (in_page_disjoint kend t p' x).
  - intros t Ht. by apply Htab.
  - intros va Hm. by apply Hpg.
  - assert (Hmm : ∀ va, mapped (km_mem s1) root va ↔ mapped (km_mem s) root va)
      by (intros; unfold mapped; by rewrite Hp1).
    split; [done|]. split; [lia|]. split; [done|]. split; [split|].
    + done.
    + done.
    + rewrite Ht1. intros Ht. by destruct (Htab p' Ht) as (_ & ? & _).
    + intros va Hm%Hmm. unfold upage. rewrite Hp1. by apply Hpg.
    + split; [|done]. intros q Hq _ [Hqp Hl]%not_elem_of_cons Ht. rewrite Ht1.
      split; [done|]. split; [done|]. intros x Hx. rewrite Hm1, decide_False; [done|].
      intros Hx'. by apply (in_page_disjoint kend q p' x).
Qed.

Lemma spare_change s s' root l p (l' : list Z) :
  uspace s root l → spare s root l p → kinv kend s' l' → (∀ q, q ∈ l' → q ∈ l ∨ q = p) →
  (∀ x, ¬ in_page p x → km_mem s' x = km_mem s x) →
  uspace s' root l' ∧ kept [p] s s' root l l' ∧
  (∀ va, pte_at (km_mem s') root va = pte_at (km_mem s) root va) ∧
  (∀ t, is_table (km_mem s') root t ↔ is_table (km_mem s) root t) ∧
  (p ∉ l' → spare s' root l' p).
Proof.
  intros Hus [Hpok Hpl Hpt Hpu] Hk Hl' Hm.
  assert (Hother : ∀ q x, page_ok kend q → q ≠ p → in_page q x → km_mem s' x = km_mem s x).
  { intros q x Hq Hne Hx. apply Hm. intros Hx'. by apply (in_page_disjoint kend q p x). }
  destruct (uspace_change s s' root l l' Hus Hk) as (Hus' & Hp' & Ht').
  - intros t x Ht. destruct (is_table_ok kend s root l t (us_wf _ _ _ Hus) Ht).
    apply Hother; [done|]. congruence.
  - intros t Ht Hin. destruct (is_table_ok kend s root l t (us_wf _ _ _ Hus) Ht).
    destruct (Hl' t Hin) as [?| ->]; done.
  - intros va Hv Hin. destruct (us_page _ _ _ Hus va Hv) as (_ & ? & _).
    destruct (Hl' _ Hin) as [?|?]; [done|]. by apply (Hpu va).
  - split; [done|]. split; [|split; [done|split; [done|]]].
    + intros q Hq Hne%not_elem_of_cons Hl Ht. rewrite Ht'. split; [|split; [done|]].
      * intros Hin. destruct (Hl' q Hin) as [?| ->]; [done|]. by destruct Hne.
      * intros x. apply Hother; [done|]. by destruct Hne.
    + intros Hn. split; [done|done|by rewrite Ht'|].
      intros va [Hr HV]. unfold upage. rewrite Hp' in HV |- *. apply Hpu. by split.
Qed.

Lemma write_spare s root l p m' :
  uspace s root l → spare s root l p → (∀ x, ¬ in_page p x → m' x = km_mem s x) →
  uspace (set_mem m' s) root l ∧ kept [p] s (set_mem m' s) root l l ∧
  (∀ va, pte_at m' root va = pte_at (km_mem s) root va) ∧
  (∀ t, is_table m' root t ↔ is_table (km_mem s) root t) ∧ spare (set_mem m' s) root l p.
Proof.
  intros Hus Hsp Hm. pose proof (vm_kinv _ _ _ _ (us_wf _ _ _ Hus)) as Hk.
  assert (Hk' : kinv kend (set_mem m' s) l).
  { apply kinv_write; [done|]. intros q x Hq Hx. symmetry. apply Hm. intros Hx'.
    destruct Hk as (_ & _ & Hok). destruct Hsp.
    apply (in_page_disjoint kend q p x); try done; [|congruence]. by eapply Forall_forall in Hok. }
  destruct (spare_change s (set_mem m' s) root l p l) as (? & ? & ? & ? & Hsp'); auto.
  split; [done|]. split; [done|]. split; [done|]. split; [done|]. apply Hsp', Hsp.
Qed.

Lemma kfree_spare s root l p :
  uspace s root l → spare s root l p →
  wp (kfree kend p) (λ _ s', uspace s' root (p :: l) ∧ kept [p] s s' root l (p :: l) ∧
    (∀ va, pte_at (km_mem s') root va = pte_at (km_mem s) root va) ∧
    ∀ t, is_table (km_mem s') root t ↔ is_table (km_mem s) root t) s.
Proof.
  intros Hus Hsp. eapply wp_mono; [apply (kfree_spec kend Hend s l p)|].
  { apply (vm_kinv _ _ _ _ (us_wf _ _ _ Hus)). } { apply Hsp. } { apply Hsp. }
  intros _ s' [Hk Hm]. destruct (spare_change s s' root l p (p :: l)) as (? & ? & ? & ? & _); try done.
  intros q [->|?]%elem_of_cons; auto.
Qed.

(** ** uvmalloc *)

(** [s'] is [s] with zeroed pages with flags [perm] mapped on [a, top). *)
Record alloced (s s' : kmem) (root a top perm : Z) : Prop := {
  al_new : ∀ va, a ≤ va < top → umapped (km_mem s') root va ∧
    PTE_FLAGS (pte_at (km_mem s') root va) = Z.lor perm PTE_V ∧ uread (km_mem s') root va = 0;
  al_old : ∀ va, 0 ≤ va < MAXVA → ¬ (a ≤ va < top) →
    pte_at (km_mem s') root va = pte_at (km_mem s) root va;
  al_read : ∀ va, mapped (km_mem s) root va → uread (km_mem s') root va = uread (km_mem s) root va;
}.

Lemma mkpte_user p perm xp :
  perm = Z.lor (Z.lor PTE_R PTE_U) xp → 0 ≤ xp < 1024 → 0 ≤ p < 2 ^ 56 → p mod PGSIZE = 0 →
  0 ≤ perm < 1024 ∧ Z.lor perm PTE_V ≠ PTE_V ∧ has (mkpte p perm) PTE_U = true.
Proof.
  intros -> Hx Hp Hal. set (perm := Z.lor _ _).
  assert (Hr : 0 ≤ perm < 1024) by (apply (lor_range _ _ 10); (lia || done)).
  assert (Hb : Z.testbit (Z.lor perm PTE_V) 4 = true)
    by (unfold perm; rewrite !Z.lor_spec; done).
  split; [done|]. split.
  - intros He. by rewrite He in Hb.
  - rewrite has_U, testbit_mkpte by (done || lia). done.
Qed.

Lemma kept_nil_trans s1 s2 s3 root l1 l2 l3 :
  kept [] s1 s2 root l1 l2 → kept [] s2 s3 root l2 l3 → kept [] s1 s3 root l1 l3.
Proof. apply (kept_trans [] []). Qed.

(** The part that [uvmalloc] and [uvmcopy] share: allocate a page, fill it
    with [f], map it at [va]; on failure, free the page and run [E]. *)
Section add_page.
Context (s : kmem) (root : Z) (l : list Z) (va perm : Z).
Context (f : mem → Z → mem) (g : Z → Z).
Hypothesis Hus : uspace s root l.
Hypothesis Hal : va mod PGSIZE = 0.
Hypothesis Hva : 0 ≤ va.
Hypothesis Htop : va + PGSIZE ≤ TRAPFRAME.
Hypothesis Hperm : 0 ≤ perm < 1024.
Hypothesis Hleaf : Z.lor perm PTE_V ≠ PTE_V.
Hypothesis HV : has (pte_at (km_mem s) root va) PTE_V = false.
Hypothesis Hf_out : ∀ m p x, page_ok kend p → ¬ in_page p x → f m p x = m x.
Hypothesis Hf_in : ∀ m p off, page_ok kend p → p ∈ l → 0 ≤ off < PGSIZE →
  (∀ q x, page_ok kend q → q ∉ l → ¬ is_table (km_mem s) root q → in_page q x →
     m x = km_mem s x) →
  f m p (p + off) = g off.

Lemma add_page_rule (E K : M kmem Z) (Q : Z → kmem → Prop) :
  (∀ s' l', uspace s' root l' → kept [] s s' root l l' → conserves s s' root l l' →
     (∀ va', 0 ≤ va' < MAXVA → pte_at (km_mem s') root va' = pte_at (km_mem s) root va') →
     wp E Q s') →
  (∀ s' l' p, p ∈ l → page_ok kend p → uspace s' root l' → kept [] s s' root l l' → conserves s s' root l l' →
     pte_map (km_mem s) (km_mem s') root va 1 p perm →
     (∀ off, 0 ≤ off < PGSIZE → km_mem s' (p + off) = g off) → wp K Q s') →
  wp (do mem <- kalloc;
      if mem =? 0 then E
      else
        modify (λ s, set_mem (f (km_mem s) mem) s) ;;;
        do r <- mappages root va PGSIZE mem perm;
        if negb (r =? 0) then kfree kend mem ;;; E else K) Q s.
Proof.
  intros HE HK. assert (Hmx := MAXVA_eq). assert (Htf := TRAPFRAME_eq).
  assert (Hvtop : va < TRAPFRAME) by (pose proof Htop; unfold PGSIZE in *; lia).
  eapply wp_seq; [apply (kalloc_user s root l Hus)|].
  intros p s1 Hp. destruct l as [|p' l1].
  { destruct Hp as [-> ->]. simpl. apply (HE s []); [done|apply kept_refl|apply conserves_refl|done]. }
  destruct Hp as (-> & Hp0 & Hus1 & Hsp1 & HK1 & Hpt1 & Htb1).
  destruct (Z.eqb_spec p' 0) as [?|_]; [done|].
  assert (Hpin : p' ∈ p' :: l1) by (by left). assert (Hpok := sp_ok _ _ _ _ Hsp1).
  apply wp_bind. unfold wp at 1, modify. set (m2 := f (km_mem s1) p').
  destruct (write_spare s1 root l1 p' m2) as (Hus2 & HK2 & Hpt2 & Htb2 & Hsp2); try done.
  { intros x. by apply Hf_out. }
  assert (Hc2 : ∀ off, 0 ≤ off < PGSIZE → m2 (p' + off) = g off).
  { intros off Hoff. apply Hf_in; try done. intros q x Hq Hl Ht.
    apply (HK1 q); try done. apply not_elem_of_nil. }
  set (s2 := set_mem m2 s1) in *.
  assert (HK02 : kept [] s s2 root (p' :: l1) l1).
  { eapply kept_weaken; [|by eapply kept_trans]. intros q [->|[]%not_elem_of_nil]%elem_of_cons. by right. }
  assert (Hpt : ∀ va', pte_at (km_mem s2) root va' = pte_at (km_mem s) root va')
    by (intros va'; rewrite <- Hpt1; apply Hpt2).
  eapply wp_seq; [apply (mappage_spec s2 root l1 va p' perm); try done; by rewrite Hpt|].
  intros r s3 (l3 & Hus3 & HK3 & Hc3 & Hr).
  assert (Hold : ∀ q, q ∈ p' :: l1 ∨ uses (km_mem s) root q ↔ q = p' ∨ q ∈ l3 ∨ is_table (km_mem s3) root q ∨
    ∃ va', mapped (km_mem s2) root va' ∧ upage (km_mem s2) root va' = q).
  { intros q. rewrite <- (uses_same _ (km_mem s2) root), elem_of_cons.
    - specialize (Hc3 q). unfold uses. tauto.
    - intros va' _. apply Hpt.
    - intros t. transitivity (is_table (km_mem s1) root t); [apply Htb2|apply Htb1]. }
  assert (HK03 : kept [] s s3 root (p' :: l1) l3) by (by eapply kept_nil_trans).
  destruct Hr as [[-> Hmap]|(-> & Hsp3 & Hpt3)]; simpl.
  - assert (Hpv : pte_at (km_mem s3) root va = mkpte p' perm).
    { rewrite Hmap by lia. rewrite decide_True by (unfold PGSIZE; lia). f_equal. rewrite Z.sub_diag, Z.div_0_l by done. lia. }
    assert (Hpm : ∀ va', 0 ≤ va' < TRAPFRAME → pte_at (km_mem s3) root va' =
      if decide (va' / PGSIZE = va / PGSIZE) then mkpte p' perm else pte_at (km_mem s2) root va').
    { intros va' Hr'. case_decide as Hd; [by rewrite (pte_at_same_page _ _ va' va)|]. rewrite Hmap by lia.
      rewrite decide_False; [done|]. intros Hin. apply Hd. unfold PGSIZE in *. zdm. }
    pose proof (page_ok_range kend Hend _ Hpok) as [Hpr Hpa].
    apply (HK s3 l3 p'); try done.
    + intros q. rewrite (Hold q). unfold uses, mapped, upage. split.
      * intros [->|[?|[?|(va' & [Hr' HV'] & <-)]]]; [|by left|right; by left|]; right; right.
        -- exists va. rewrite Hpv. split; [split; [lia|apply has_V_mkpte; done || lia]|apply PTE2PA_mkpte; done || lia].
        -- exists va'. rewrite Hpm by done. case_decide as Hd; [|done]. rewrite Hpt, (pte_at_same_page _ _ va' va) in HV' by done. congruence.
      * intros [?|[?|(va' & [Hr' HV'] & <-)]]; [tauto|tauto|]. rewrite Hpm in HV' |- * by done. case_decide as Hd.
        -- left. apply PTE2PA_mkpte; done || lia.
        -- right. right. right. by exists va'.
    + intros va' Hva'. rewrite Hmap, Hpt by done. done.
    + intros off Hoff. destruct (HK3 p') as (_ & _ & Hx).
      * done.
      * apply not_elem_of_nil.
      * apply (sp_free _ _ _ _ Hsp2).
      * apply (sp_table _ _ _ _ Hsp2).
      * rewrite Hx by (unfold in_page; lia). by apply Hc2.
  - eapply wp_seq; [by apply (kfree_spare s3 root l3 p')|].
    intros u s4 (Hus4 & HK4 & Hpt4 & Htb4). apply (HE s4 (p' :: l3)); [done| | |].
    + eapply kept_weaken; [|by eapply kept_trans].
      intros q [->|[]%not_elem_of_nil]%elem_of_cons. by right.
    + intros q. rewrite (Hold q), elem_of_cons. unfold uses, mapped, upage. rewrite Htb4. split.
      * intros [?|[?|[?|(va' & [Hr' HV'] & <-)]]]; [tauto|tauto|tauto|]. right. right. exists va'. by rewrite Hpt4, Hpt3 by lia.
      * intros [?|[?|(va' & [Hr' HV'] & <-)]]; [tauto|tauto|]. right. right. right. exists va'. rewrite Hpt4, Hpt3 in HV' |- * by lia. done.
    + intros va' Hva'. by rewrite Hpt4, Hpt3, Hpt.
Qed.
End add_page.

(** What the new entry looks like after [add_page_rule]. *)
Lemma pte_map_page m m' root va p perm va' :
  pte_map m m' root va 1 p perm → 0 ≤ va' < MAXVA →
  pte_at m' root va' =
    if decide (va ≤ va' < va + PGSIZE) then mkpte p perm else pte_at m root va'.
Proof.
  intros H Hr. rewrite H by done. destruct (decide (va ≤ va' < va + PGSIZE)).
  - rewrite decide_True by lia. f_equal. unfold PGSIZE in *. zdm.
  - by rewrite decide_False by lia.
Qed.

Lemma phys_pages_snoc m root va n :
  phys_pages m root va (S n) = phys_pages m root va n ++ [upage m root (va + Z.of_nat n * PGSIZE)].
Proof. unfold phys_pages. rewrite seq_S, fmap_app. reflexivity. Qed.

Lemma page_end a x :
  a mod PGSIZE = 0 → a < x → 0 ≤ a → x ≤ TRAPFRAME →
  a + PGSIZE ≤ PGROUNDUP x ≤ TRAPFRAME ∧ x ≤ PGROUNDUP x ∧ PGROUNDUP x mod PGSIZE = 0.
Proof.
  intros. assert (Htf := TRAPFRAME_eq). rewrite PGROUNDUP_eq by (unfold PGSIZE in *; lia).
  rewrite Htf in *. unfold PGSIZE in *. zdm.
Qed.

(** The entry for [va] if it is valid, 0 if it is not. *)
Definition vpte (m : mem) (root va : Z) : Z :=
  if has (pte_at m root va) PTE_V then pte_at m root va else 0.

(** The two ways the loop of [uvmalloc] ends, from the state in which
    [o, a) is mapped: [a, top) is mapped too, or [o, a) is unmapped again. *)
Definition uvmalloc_post (s : kmem) (root : Z) (l : list Z) (o : Z) (n : nat) (newsz perm : Z)
    (r : Z) (s' : kmem) : Prop :=
  ∃ l', uspace s' root l' ∧ kept (phys_pages (km_mem s) root o n) s s' root l l' ∧ conserves s s' root l l' ∧
    ((r = newsz ∧ alloced s s' root (o + Z.of_nat n * PGSIZE) (PGROUNDUP newsz) perm) ∨
     (r = 0 ∧ ∀ va, 0 ≤ va < MAXVA → vpte (km_mem s') root va =
        if decide (o ≤ va < o + Z.of_nat n * PGSIZE) then 0 else vpte (km_mem s) root va)).

Lemma uvmalloc_undo s root l o n newsz perm :
  uspace s root l → o mod PGSIZE = 0 → 0 ≤ o → o + Z.of_nat n * PGSIZE ≤ TRAPFRAME →
  (∀ va, o ≤ va < o + Z.of_nat n * PGSIZE → mapped (km_mem s) root va) →
  ∀ s' l', uspace s' root l' → kept [] s s' root l l' → conserves s s' root l l' →
    (∀ va, 0 ≤ va < MAXVA → pte_at (km_mem s') root va = pte_at (km_mem s) root va) →
    wp (do _ <- uvmdealloc kend root (o + Z.of_nat n * PGSIZE) o; ret 0)
      (uvmalloc_post s root l o n newsz perm) s'.
Proof.
  intros Hus Hal Ho Htop Hmap s' l' Hus' HK Hc Hpt.
  assert (Hmax := MAXVA_eq). assert (Htf := TRAPFRAME_eq).
  eapply wp_seq; [apply (uvmdealloc_spec s' root l' o n); try done|].
  { intros va Hin. unfold mapped. rewrite Hpt by lia. by apply Hmap. }
  intros u s2 (l2 & Hus2 & Hun & HK2 & Hc2). apply wp_ret. exists l2. split; [done|].
  assert (Hpp : phys_pages (km_mem s') root o n = phys_pages (km_mem s) root o n).
  { apply phys_pages_ext. intros va Hin. apply Hpt. lia. }
  rewrite Hpp in HK2. split; [by eapply (kept_trans [])|]. split; [by eapply conserves_trans|]. right. split; [done|].
  intros va Hva. unfold vpte. rewrite !Hun by done. case_decide; [done|]. by rewrite !Hpt by done.
Qed.

Lemma alloced_step s s1 s' root l l1 a newsz perm p :
  uspace s root l → kept [] s s1 root l l1 → uspace s1 root l1 → page_ok kend p → p ∈ l →
  a mod PGSIZE = 0 → 0 ≤ a → a < newsz → newsz ≤ TRAPFRAME →
  0 ≤ perm < 1024 → has (mkpte p perm) PTE_U = true →
  (∀ va, a ≤ va < PGROUNDUP newsz → has (pte_at (km_mem s) root va) PTE_V = false) →
  pte_map (km_mem s) (km_mem s1) root a 1 p perm →
  (∀ off, 0 ≤ off < PGSIZE → km_mem s1 (p + off) = 0) →
  alloced s1 s' root (a + PGSIZE) (PGROUNDUP newsz) perm →
  alloced s s' root a (PGROUNDUP newsz) perm.
Proof.
  intros Hus HK Hus1 Hp Hpl Hal Ha Hlt Htop Hperm HU Hfree Hmap Hzero [N O R].
  assert (Hmax := MAXVA_eq). assert (Htf := TRAPFRAME_eq).
  pose proof (page_end a newsz Hal Hlt Ha Htop) as (Hpe & _ & Hpal).
  pose proof (page_ok_range kend Hend p Hp) as [Hpr Hpp].
  assert (Hin1 : ∀ va, a ≤ va < a + PGSIZE → pte_at (km_mem s1) root va = mkpte p perm).
  { intros va Hin. erewrite pte_map_page by (done || lia). by rewrite decide_True. }
  assert (HmV : has (mkpte p perm) PTE_V = true) by (apply has_V_mkpte; done || lia).
  split.
  - intros va Hva. destruct (decide (va < a + PGSIZE)) as [Hin|Hin]; [|apply N; lia].
    assert (Hpte : pte_at (km_mem s') root va = mkpte p perm).
    { rewrite O by lia. apply Hin1. lia. }
    unfold umapped. rewrite Hpte. split; [split; [lia|done]|]. split.
    + apply PTE_FLAGS_mkpte; done || lia.
    + rewrite R by (split; [lia|by rewrite Hin1 by lia]). unfold uread, phys, upage.
      rewrite Hin1 by lia. rewrite PTE2PA_mkpte by (done || lia). apply Hzero.
      apply Z.mod_pos_bound. done.
  - intros va Hva Hn. rewrite O by (unfold PGSIZE in *; lia). erewrite pte_map_page by done.
    by rewrite decide_False by (unfold PGSIZE in *; lia).
  - intros va Hm. assert (Hnot : ¬ (a ≤ va < PGROUNDUP newsz)).
    { intros Hin. destruct Hm as [_ HmV']. by rewrite Hfree in HmV'. }
    assert (Hpte : pte_at (km_mem s1) root va = pte_at (km_mem s) root va).
    { erewrite pte_map_page; [|done|destruct Hm; lia]. by rewrite decide_False by lia. }
    rewrite R; [|unfold mapped; by rewrite Hpte].
    apply (kept_uread [] s s1 root l l1); try done. apply not_elem_of_nil.
Qed.

Lemma uvmalloc_end s root l o n newsz perm :
  uspace s root l → o mod PGSIZE = 0 → 0 ≤ newsz ≤ TRAPFRAME →
  o + Z.of_nat n * PGSIZE ≤ PGROUNDUP newsz → newsz ≤ o + Z.of_nat n * PGSIZE →
  wp (ret newsz) (uvmalloc_post s root l o n newsz perm) s.
Proof.
  intros Hus Hal Hsz Ha Hge. assert (Htf := TRAPFRAME_eq).
  assert (Hae : o + Z.of_nat n * PGSIZE = PGROUNDUP newsz).
  { rewrite PGROUNDUP_eq in * by (unfold PGSIZE; lia). unfold PGSIZE in *. zdm. }
  apply wp_ret. exists l. split; [done|]. split.
  { eapply kept_weaken; [|apply kept_refl]. intros q []%not_elem_of_nil. }
  split; [apply conserves_refl|]. left. split; [done|]. rewrite Hae. split; [lia|done|done].
Qed.

Lemma uvmalloc_loop_spec fuel root o n newsz xperm s l :
  uspace s root l → o mod PGSIZE = 0 → 0 ≤ o → 0 ≤ xperm < 1024 →
  (∀ va, o ≤ va < o + Z.of_nat n * PGSIZE → mapped (km_mem s) root va) →
  o + Z.of_nat n * PGSIZE ≤ PGROUNDUP newsz → 0 ≤ newsz ≤ TRAPFRAME →
  (∀ va, o + Z.of_nat n * PGSIZE ≤ va < PGROUNDUP newsz →
     has (pte_at (km_mem s) root va) PTE_V = false) →
  newsz < o + (Z.of_nat n + Z.of_nat fuel) * PGSIZE →
  wp (uvmalloc_loop kend fuel root o (o + Z.of_nat n * PGSIZE) newsz xperm)
     (uvmalloc_post s root l o n newsz (Z.lor (Z.lor PTE_R PTE_U) xperm)) s.
Proof.
  assert (Hmax := MAXVA_eq). assert (Htf := TRAPFRAME_eq).
  set (perm := Z.lor _ xperm).
  revert n s l. induction fuel as [|fuel IH]; intros n s l Hus Hal Ho Hx Hmap Ha Hsz Hfree Hfuel;
    cbn [uvmalloc_loop]; set (a := o + Z.of_nat n * PGSIZE) in *;
    destruct (Z.ltb_spec a newsz) as [Hlt|Hge].
  { unfold a, PGSIZE in *. lia. }
  all: try by apply uvmalloc_end.
  assert (Haa : a mod PGSIZE = 0) by (unfold a, PGSIZE in *; zdm).
  assert (Ha0 : 0 ≤ a) by (unfold a, PGSIZE; lia).
  pose proof (page_end a newsz Haa Hlt Ha0 (proj2 Hsz)) as (Hpe & _ & _).
  assert (HV : has (pte_at (km_mem s) root a) PTE_V = false) by (apply Hfree; unfold PGSIZE in *; lia).
  destruct (mkpte_user 0 perm xperm) as (Hpr & Hlf & _); [done|done|lia|done|].
  apply (add_page_rule s root l a perm (λ m p, memset m p 0 PGSIZE) (λ _, 0)); try done; try lia.
  - intros m p x _ Hnx. rewrite memset_spec by done. by rewrite decide_False.
  - intros m p off _ _ Hoff _. rewrite memset_spec by done. by rewrite decide_True by lia.
  - unfold a. apply uvmalloc_undo; try done. unfold a in *. lia.
  - intros s1 l1 p Hpl Hpok Hus1 HK Hc Hpm Hz.
    pose proof (page_ok_range kend Hend p Hpok) as [Hpr' Hpal].
    destruct (mkpte_user p perm xperm) as (_ & _ & HU); [done|done|lia|done|].
    assert (Hpte : ∀ va, 0 ≤ va < MAXVA → pte_at (km_mem s1) root va =
       if decide (a ≤ va < a + PGSIZE) then mkpte p perm else pte_at (km_mem s) root va)
      by (intros; by apply pte_map_page).
    rewrite u64_id by (unfold PGSIZE in *; lia).
    replace (a + PGSIZE) with (o + Z.of_nat (S n) * PGSIZE) by (unfold a; lia).
    eapply wp_mono; [apply (IH (S n) s1 l1); try done|].
    + intros va Hin. destruct (decide (va < a)).
      * destruct (Hmap va) as [? ?]; [unfold a in *; lia|]. split; [done|].
        rewrite Hpte, decide_False by lia. done.
      * split; [unfold a, PGSIZE in *; lia|]. rewrite Hpte, decide_True by (unfold a, PGSIZE in *; lia).
        apply has_V_mkpte; done || lia.
    + unfold a in *. lia.
    + intros va Hin. rewrite Hpte, decide_False by (unfold a, PGSIZE in *; lia).
      apply Hfree. unfold a, PGSIZE in *. lia.
    + unfold a in *. lia.
    + intros r s' (l' & Hus' & HK' & Hc' & Hr). exists l'. split; [done|].
      assert (Hpp : phys_pages (km_mem s1) root o n = phys_pages (km_mem s) root o n).
      { apply phys_pages_ext. intros va Hin. rewrite Hpte, decide_False; unfold a, PGSIZE in *; done || lia. }
      assert (Hup : upage (km_mem s1) root a = p).
      { unfold upage. rewrite Hpte, decide_True by (unfold PGSIZE in *; lia).
        apply PTE2PA_mkpte; done || lia. }
      rewrite phys_pages_snoc, Hpp in HK'. fold a in HK'. rewrite Hup in HK'. split.
      { eapply kept_weaken; [|by eapply (kept_trans [])]. simpl.
        intros q [?|[->|[]%not_elem_of_nil]%elem_of_cons]%elem_of_app; auto. }
      split; [by eapply conserves_trans|].
      destruct Hr as [[-> Hal']|[-> Hun]]; [left|right]; (split; [done|]).
      * apply (alloced_step s s1 s' root l l1 a newsz perm p); try done; try lia.
        replace (a + PGSIZE) with (o + Z.of_nat (S n) * PGSIZE) by (unfold a; lia). done.
      * intros va Hva. rewrite Hun by done.
        destruct (decide (o ≤ va < o + Z.of_nat n * PGSIZE)).
        -- by rewrite decide_True by (unfold PGSIZE in *; lia).
        -- destruct (decide (a ≤ va < a + PGSIZE)) as [Hin|Hin].
           ++ rewrite decide_True by (unfold a, PGSIZE in *; lia). unfold vpte.
              by rewrite Hfree by lia.
           ++ rewrite decide_False by (unfold a, PGSIZE in *; lia). unfold vpte.
              by rewrite Hpte, decide_False by lia.
Qed.

(** ** uvmcopy: two address spaces over one allocator *)

(** No page of [old] is used by [new]. *)
Definition sep (s : kmem) (old new : Z) (l : list Z) : Prop :=
  ∀ q, uses (km_mem s) old q → spare s new l q.

(** What [old] keeps while [new] is worked on. *)
Record undisturbed (s s' : kmem) (old : Z) : Prop := {
  ud_pte : ∀ va, pte_at (km_mem s') old va = pte_at (km_mem s) old va;
  ud_table : ∀ t, is_table (km_mem s') old t ↔ is_table (km_mem s) old t;
  ud_read : ∀ va, mapped (km_mem s) old va → uread (km_mem s') old va = uread (km_mem s) old va;
}.

Lemma undisturbed_mapped s s' old va :
  undisturbed s s' old → mapped (km_mem s') old va ↔ mapped (km_mem s) old va.
Proof. intros [P _ _]. unfold mapped. by rewrite P. Qed.

Lemma undisturbed_uses s s' old q :
  undisturbed s s' old → uses (km_mem s') old q ↔ uses (km_mem s) old q.
Proof.
  intros U. unfold uses, upage. rewrite (ud_table _ _ _ U).
  setoid_rewrite (undisturbed_mapped s s' old _ U). by setoid_rewrite (ud_pte _ _ _ U).
Qed.

Lemma undisturbed_refl s old : undisturbed s s old.
Proof. by split. Qed.

Lemma undisturbed_trans s1 s2 s3 old :
  undisturbed s1 s2 old → undisturbed s2 s3 old → undisturbed s1 s3 old.
Proof.
  intros U1 U2. split.
  - intros va. by rewrite (ud_pte _ _ _ U2), (ud_pte _ _ _ U1).
  - intros t. by rewrite (ud_table _ _ _ U2), (ud_table _ _ _ U1).
  - intros va Hm. rewrite (ud_read _ _ _ U2), (ud_read _ _ _ U1); try done.
    by apply (undisturbed_mapped s1 s2).
Qed.

Lemma other_kept X s s' old new l l' :
  uspace s old l → sep s old new l → kept X s s' new l l' → kinv kend s' l' →
  (∀ q, uses (km_mem s) old q → q ∉ X) →
  uspace s' old l' ∧ undisturbed s s' old.
Proof.
  intros Hus Hsep HK Hk HX.
  assert (Hq : ∀ q, uses (km_mem s) old q → q ∉ l' ∧ ∀ x, in_page q x → km_mem s' x = km_mem s x).
  { intros q Hq. destruct (Hsep q Hq). destruct (HK q) as (? & _ & ?); auto. }
  destruct (uspace_change s s' old l l' Hus Hk) as (Hus' & Hp & Ht).
  - intros t x Ht. apply Hq. by left.
  - intros t Ht. apply Hq. by left.
  - intros va Hm. apply Hq. right. by exists va.
  - split; [done|]. split; [done|done|]. intros va Hm. unfold uread.
    replace (phys (km_mem s') old va) with (phys (km_mem s) old va)
      by (unfold phys, upage; by rewrite Hp).
    apply (Hq (upage (km_mem s) old va)); [right; by exists va|]. apply phys_in_page.
Qed.

(** [sep] after the mappings of [new] changed by pages from the free list. *)
Lemma sep_kept X s s' old new l l' :
  sep s old new l → undisturbed s s' old → kept X s s' new l l' →
  (∀ q, uses (km_mem s) old q → q ∉ X) →
  (∀ va, mapped (km_mem s') new va →
     upage (km_mem s') new va ∈ l ∨
     (mapped (km_mem s) new va ∧ upage (km_mem s') new va = upage (km_mem s) new va)) →
  sep s' old new l'.
Proof.
  intros Hsep HU HK HX Hmap q Hq%(undisturbed_uses s s' old q HU).
  destruct (Hsep q Hq) as [? Hl ? Hsp]. destruct (HK q) as (? & ? & _); auto. split; try done.
  intros va Hm He. destruct (Hmap va Hm) as [Hin|[Hm' Hup]].
  - by rewrite He in Hin.
  - by apply (Hsp va Hm'); rewrite <- Hup.
Qed.

(** [s'] is [s] with copies of the pages of [old] mapped in [new] on [a, top). *)
Record cloned (s s' : kmem) (old new a top : Z) : Prop := {
  cl_new : ∀ va, a ≤ va < top → mapped (km_mem s') new va ∧
    PTE_FLAGS (pte_at (km_mem s') new va) = PTE_FLAGS (pte_at (km_mem s) old va) ∧
    uread (km_mem s') new va = uread (km_mem s) old va;
  cl_old : ∀ va, 0 ≤ va < MAXVA → ¬ (a ≤ va < top) →
    pte_at (km_mem s') new va = pte_at (km_mem s) new va;
  cl_read : ∀ va, mapped (km_mem s) new va → uread (km_mem s') new va = uread (km_mem s) new va;
}.

Definition uvmcopy_post (s : kmem) (old new : Z) (l : list Z) (n : nat) (sz r : Z) (s' : kmem) : Prop :=
  ∃ l', uspace s' new l' ∧ uspace s' old l' ∧ undisturbed s s' old ∧ 
    kept (phys_pages (km_mem s) new 0 n) s s' new l l' ∧ conserves s s' new l l' ∧
    ((r = 0 ∧ cloned s s' old new (Z.of_nat n * PGSIZE) (PGROUNDUP sz)) ∨
     (r = -1 ∧ ∀ va, 0 ≤ va < MAXVA → vpte (km_mem s') new va =
        if decide (0 ≤ va < Z.of_nat n * PGSIZE) then 0 else vpte (km_mem s) new va)).

Lemma sep_phys_pages s old new l n :
  sep s old new l → (∀ va, 0 ≤ va < Z.of_nat n * PGSIZE → mapped (km_mem s) new va) →
  ∀ q, uses (km_mem s) old q → q ∉ phys_pages (km_mem s) new 0 n.
Proof.
  intros Hsep Hm q Hq (k & Hk & ->)%elem_phys_pages. destruct (Hsep _ Hq) as [_ _ _ Hn].
  eapply Hn; [|done]. apply Hm. unfold PGSIZE. lia.
Qed.

Lemma uvmcopy_undo s old new l n sz :
  uspace s old l → uspace s new l → sep s old new l → Z.of_nat n * PGSIZE ≤ TRAPFRAME →
  (∀ va, 0 ≤ va < Z.of_nat n * PGSIZE → mapped (km_mem s) new va) →
  ∀ s' l', uspace s' new l' → kept [] s s' new l l' → conserves s s' new l l' →
    (∀ va, 0 ≤ va < MAXVA → pte_at (km_mem s') new va = pte_at (km_mem s) new va) →
    wp (uvmunmap kend new 0 (Z.of_nat n * PGSIZE / PGSIZE) true ;;; ret (-1))
      (uvmcopy_post s old new l n sz) s'.
Proof.
  intros Huo Hun Hsep Htop Hmap s' l' Hun' HK Hc Hpt.
  assert (Hmax := MAXVA_eq). assert (Htf := TRAPFRAME_eq). rewrite Z.div_mul by done.
  eapply wp_seq; [apply (uvmunmap_spec s' new l' 0 n); try done|].
  { intros va Hin. unfold mapped. rewrite Hpt by lia. apply Hmap. lia. }
  intros u s2 (l2 & Hus2 & Hunm & HK2 & Hc2). apply wp_ret. exists l2. split; [done|].
  rewrite (phys_pages_ext (km_mem s)) in HK2 by (intros va Hin; apply Hpt; unfold PGSIZE in *; lia).
  assert (HK02 := kept_trans _ _ _ _ _ _ _ _ _ HK HK2). simpl in HK02.
  destruct (other_kept _ s s2 old new l l2 Huo Hsep HK02) as [? ?].
  { apply (vm_kinv _ _ _ _ (us_wf _ _ _ Hus2)). } { by apply (sep_phys_pages s old new l). }
  split; [done|]. split; [done|]. split; [done|]. split; [by eapply conserves_trans|]. right. split; [done|].
  intros va Hva. unfold vpte. rewrite !Hunm by done. rewrite Z.add_0_l.
  case_decide; [done|]. by rewrite !Hpt by done.
Qed.

Lemma flags_leaf v :
  has v PTE_V = true → PTE_FLAGS v ≠ PTE_V →
  0 ≤ PTE_FLAGS v < 1024 ∧ Z.lor (PTE_FLAGS v) PTE_V = PTE_FLAGS v ∧
  Z.lor (PTE_FLAGS v) PTE_V ≠ PTE_V.
Proof.
  intros HV Hn. assert (0 ≤ PTE_FLAGS v < 1024) by (rewrite PTE_FLAGS_mod; zdm).
  assert (He : Z.lor (PTE_FLAGS v) PTE_V = PTE_FLAGS v).
  { apply Z.bits_inj'. intros k Hk. rewrite Z.lor_spec. destruct (decide (k = 0)) as [->|].
    - unfold PTE_FLAGS. rewrite Z.land_spec. rewrite has_V in HV. by rewrite HV.
    - rewrite (Z.bits_above_log2 PTE_V k) by (done || (change (Z.log2 PTE_V) with 0; lia)). apply orb_false_r. }
  split; [done|]. by rewrite He.
Qed.

Lemma cloned_step s s1 s' old new l l1 a sz p :
  uspace s new l → kept [] s s1 new l l1 → undisturbed s s1 old → page_ok kend p →
  a mod PGSIZE = 0 → 0 ≤ a → a < sz → sz ≤ TRAPFRAME →
  (∀ va, 0 ≤ va < PGROUNDUP sz → mapped (km_mem s) old va) →
  (∀ va, a ≤ va < PGROUNDUP sz → has (pte_at (km_mem s) new va) PTE_V = false) →
  PTE_FLAGS (pte_at (km_mem s) old a) ≠ PTE_V →
  pte_map (km_mem s) (km_mem s1) new a 1 p (PTE_FLAGS (pte_at (km_mem s) old a)) →
  (∀ off, 0 ≤ off < PGSIZE → km_mem s1 (p + off) = km_mem s (upage (km_mem s) old a + off)) →
  cloned s1 s' old new (a + PGSIZE) (PGROUNDUP sz) →
  cloned s s' old new a (PGROUNDUP sz).
Proof.
  intros Hus HK HU Hp Hal Ha Hlt Htop Hold Hfree Hleaf Hmap Hcopy [N O R].
  assert (Hmax := MAXVA_eq). assert (Htf := TRAPFRAME_eq).
  pose proof (page_end a sz Hal Hlt Ha Htop) as (Hpe & _ & Hpal).
  pose proof (page_ok_range kend Hend p Hp) as [Hpr Hpp].
  destruct (flags_leaf (pte_at (km_mem s) old a)) as (Hfr & Hfe & _); [|done|].
  { apply Hold. unfold PGSIZE in *. lia. }
  set (perm := PTE_FLAGS (pte_at (km_mem s) old a)) in *.
  assert (Hin1 : ∀ va, a ≤ va < a + PGSIZE → pte_at (km_mem s1) new va = mkpte p perm).
  { intros va Hin. erewrite pte_map_page by (done || lia). by rewrite decide_True. }
  assert (Hm1 : ∀ va, a ≤ va < a + PGSIZE → mapped (km_mem s1) new va).
  { intros va Hin. split; [lia|]. rewrite Hin1 by done. apply has_V_mkpte; done || lia. }
  split.
  - intros va Hva. destruct (decide (va < a + PGSIZE)) as [Hin|Hin].
    2:{ destruct (N va) as (? & HF & Hr); [lia|]. split; [done|].
        rewrite HF, Hr, (ud_pte _ _ _ HU). split; [done|].
        apply (ud_read _ _ _ HU), Hold. lia. }
    assert (Hpte : pte_at (km_mem s') new va = mkpte p perm).
    { rewrite O by lia. apply Hin1. lia. }
    assert (Hpg : va / PGSIZE = a / PGSIZE) by (unfold PGSIZE in *; zdm).
    split; [|split].
    + split; [lia|]. rewrite Hpte. apply has_V_mkpte; done || lia.
    + rewrite Hpte, PTE_FLAGS_mkpte, Hfe by (done || lia). unfold perm. f_equal.
      symmetry. by apply pte_at_same_page.
    + rewrite R by (apply Hm1; lia). unfold uread, phys at 1, upage at 1.
      rewrite Hin1 by lia. rewrite PTE2PA_mkpte by (done || lia).
      rewrite Hcopy by (apply Z.mod_pos_bound; done). f_equal. unfold phys. f_equal.
      by apply upage_same_page.
  - intros va Hva Hn. rewrite O by (unfold PGSIZE in *; lia). erewrite pte_map_page by done.
    by rewrite decide_False by (unfold PGSIZE in *; lia).
  - intros va Hm. assert (Hnot : ¬ (a ≤ va < PGROUNDUP sz)).
    { intros Hin. destruct Hm as [_ HmV']. by rewrite Hfree in HmV'. }
    assert (Hpte : pte_at (km_mem s1) new va = pte_at (km_mem s) new va).
    { erewrite pte_map_page; [|done|destruct Hm; lia]. by rewrite decide_False by lia. }
    rewrite R; [|unfold mapped; by rewrite Hpte].
    apply (kept_uread [] s s1 new l l1); try done. apply not_elem_of_nil.
Qed.

Lemma uvmcopy_iter fuel old new i sz s l (Q : Z → kmem → Prop) :
  uspace s old l → i < sz → mapped (km_mem s) old i →
  wp (do mem <- kalloc;
      if mem =? 0 then uvmunmap kend new 0 (i / PGSIZE) true ;;; ret (-1)
      else
        modify (λ s1, set_mem (memmove (km_mem s1) mem (upage (km_mem s) old i) PGSIZE) s1) ;;;
        do r <- mappages new i PGSIZE mem (PTE_FLAGS (pte_at (km_mem s) old i));
        if negb (r =? 0) then
          kfree kend mem ;;; uvmunmap kend new 0 (i / PGSIZE) true ;;; ret (-1)
        else uvmcopy_loop kend fuel old new (u64 (i + PGSIZE)) sz) Q s →
  wp (uvmcopy_loop kend (S fuel) old new i sz) Q s.
Proof.
  intros Hus Hlt [Hr HV] HQ. cbn [uvmcopy_loop]. destruct (Z.ltb_spec i sz); [|lia].
  destruct (walk_user s old l i (us_wf _ _ _ Hus)) as (a & Hw & Ha);
    [rewrite MAXVA_eq, TRAPFRAME_eq in *; lia|].
  apply wp_bind. unfold wp at 1. rewrite Hw.
  destruct Ha as [[-> Hz]|[Ha0 Hld]]; [by rewrite Hz in HV|].
  destruct (Z.eqb_spec a 0); [done|]. apply wp_bind. unfold load_word, wp at 1, gets.
  rewrite Hld, HV. exact HQ.
Qed.

Lemma uvmcopy_end s old new l n sz :
  uspace s old l → uspace s new l → 0 ≤ sz ≤ TRAPFRAME →
  Z.of_nat n * PGSIZE ≤ PGROUNDUP sz → sz ≤ Z.of_nat n * PGSIZE →
  wp (ret 0) (uvmcopy_post s old new l n sz) s.
Proof.
  intros Huo Hun Hsz Ha Hge. assert (Htf := TRAPFRAME_eq).
  assert (Hae : Z.of_nat n * PGSIZE = PGROUNDUP sz).
  { rewrite PGROUNDUP_eq in * by (unfold PGSIZE; lia). unfold PGSIZE in *. zdm. }
  apply wp_ret. exists l. split; [done|]. split; [done|]. split; [apply undisturbed_refl|]. split.
  { eapply kept_weaken; [|apply kept_refl]. intros q []%not_elem_of_nil. }
  split; [apply conserves_refl|]. left. split; [done|]. rewrite Hae. split; [lia|done|done].
Qed.

Lemma uvmcopy_loop_spec fuel old new n sz s l :
  uspace s old l → uspace s new l → sep s old new l → 0 ≤ sz ≤ TRAPFRAME →
  (∀ va, 0 ≤ va < PGROUNDUP sz → mapped (km_mem s) old va) →
  (∀ va, 0 ≤ va < Z.of_nat n * PGSIZE → mapped (km_mem s) new va) →
  Z.of_nat n * PGSIZE ≤ PGROUNDUP sz →
  (∀ va, Z.of_nat n * PGSIZE ≤ va < PGROUNDUP sz →
     has (pte_at (km_mem s) new va) PTE_V = false) →
  sz < (Z.of_nat n + Z.of_nat fuel) * PGSIZE →
  wp (uvmcopy_loop kend fuel old new (Z.of_nat n * PGSIZE) sz)
     (uvmcopy_post s old new l n sz) s.
Proof.
  assert (Hmax := MAXVA_eq). assert (Htf := TRAPFRAME_eq).
  revert n s l. induction fuel as [|fuel IH]; intros n s l Huo Hun Hsep Hsz Hold Hnew Ha Hfree Hfuel;
    set (a := Z.of_nat n * PGSIZE) in *; destruct (decide (a < sz)) as [Hlt|Hge].
  { unfold a, PGSIZE in *. lia. }
  all: try (cbn [uvmcopy_loop]; fold a; destruct (Z.ltb_spec a sz); [lia|];
    by apply uvmcopy_end).
  assert (Haa : a mod PGSIZE = 0) by (unfold a, PGSIZE in *; zdm).
  assert (Ha0 : 0 ≤ a) by (unfold a, PGSIZE; lia).
  pose proof (page_end a sz Haa Hlt Ha0 (proj2 Hsz)) as (Hpe & _ & _).
  assert (Hma : mapped (km_mem s) old a) by (apply Hold; unfold PGSIZE in *; lia).
  destruct (flags_leaf (pte_at (km_mem s) old a)) as (Hfr & Hfe & Hlf);
    [apply Hma|by apply (us_leaf _ _ _ Huo)|].
  apply (uvmcopy_iter fuel old new a sz s l); try done.
  assert (Huse : uses (km_mem s) old (upage (km_mem s) old a)) by (right; by exists a).
  destruct (Hsep _ Huse) as [Hqok Hql Hqt Hqu].
  apply (add_page_rule s new l a _ (λ m p, memmove m p (upage (km_mem s) old a) PGSIZE)
    (λ off, km_mem s (upage (km_mem s) old a + off))); try done; try lia.
  - apply Hfree. unfold PGSIZE in *. lia.
  - intros m p x _ Hnx. rewrite memmove_eq by done. by rewrite decide_False.
  - intros m p off _ _ Hoff Hsame. rewrite memmove_eq by done. rewrite decide_True by lia.
    replace (p + off - p + upage (km_mem s) old a) with (upage (km_mem s) old a + off) by lia.
    apply (Hsame (upage (km_mem s) old a)); try done. unfold in_page. lia.
  - unfold a. apply uvmcopy_undo; try done. unfold a in *. lia.
  - intros s1 l1 p Hpl Hpok Hun1 HK Hc Hpm Hcp.
    set (perm := PTE_FLAGS (pte_at (km_mem s) old a)) in *.
    pose proof (page_ok_range kend Hend p Hpok) as [Hpr Hpal].
    assert (Hpte : ∀ va, 0 ≤ va < MAXVA → pte_at (km_mem s1) new va =
       if decide (a ≤ va < a + PGSIZE) then mkpte p perm else pte_at (km_mem s) new va)
      by (intros; by apply pte_map_page).
    assert (Hpu : PTE2PA (mkpte p perm) = p) by (apply PTE2PA_mkpte; done || lia).
    destruct (other_kept [] s s1 old new l l1 Huo Hsep HK) as [Huo1 HU1].
    { apply (vm_kinv _ _ _ _ (us_wf _ _ _ Hun1)). } { intros q _. apply not_elem_of_nil. }
    assert (Hsep1 : sep s1 old new l1).
    { apply (sep_kept [] s s1 old new l l1); try done; [intros q _; apply not_elem_of_nil|].
      intros va [Hr HV]. unfold mapped, upage. rewrite Hpte in HV |- * by lia.
      case_decide; [left; by rewrite Hpu|by right]. }
    rewrite u64_id by (unfold PGSIZE in *; lia).
    replace (a + PGSIZE) with (Z.of_nat (S n) * PGSIZE) by (unfold a; lia).
    eapply wp_mono; [apply (IH (S n) s1 l1); try done|].
    + intros va Hin. apply (undisturbed_mapped s s1); [done|]. by apply Hold.
    + intros va Hin. destruct (decide (va < a)).
      * destruct (Hnew va) as [? ?]; [unfold a in *; lia|]. split; [done|].
        rewrite Hpte, decide_False by lia. done.
      * split; [unfold a, PGSIZE in *; lia|]. rewrite Hpte, decide_True by (unfold a, PGSIZE in *; lia).
        apply has_V_mkpte; done || lia.
    + unfold a in *. lia.
    + intros va Hin. rewrite Hpte, decide_False by (unfold a, PGSIZE in *; lia).
      apply Hfree. unfold a, PGSIZE in *. lia.
    + unfold a in *. lia.
    + intros r s' (l' & Hun' & Huo' & HU' & HK' & Hc' & Hr). exists l'. split; [done|]. split; [done|].
      split; [by eapply undisturbed_trans|].
      assert (Hpp : phys_pages (km_mem s1) new 0 n = phys_pages (km_mem s) new 0 n).
      { apply phys_pages_ext. intros va Hin. rewrite Hpte, decide_False; unfold a, PGSIZE in *; done || lia. }
      assert (Hup : upage (km_mem s1) new a = p).
      { unfold upage. by rewrite Hpte, decide_True by (unfold PGSIZE in *; lia). }
      rewrite phys_pages_snoc, Hpp, Z.add_0_l in HK'. fold a in HK'. rewrite Hup in HK'. split.
      { eapply kept_weaken; [|by eapply (kept_trans [])]. simpl.
        intros q [?|[->|[]%not_elem_of_nil]%elem_of_cons]%elem_of_app; auto. }
      split; [by eapply conserves_trans|].
      destruct Hr as [[-> Hcl]|[-> Hunm]]; [left|right]; (split; [done|]).
      * apply (cloned_step s s1 s' old new l l1 a sz p); try done; try lia.
        by replace (a + PGSIZE) with (Z.of_nat (S n) * PGSIZE) by (unfold a; lia).
      * intros va Hva. rewrite Hunm by done. fold a.
        destruct (decide (0 ≤ va < a)).
        -- by rewrite decide_True by (unfold a, PGSIZE in *; lia).
        -- destruct (decide (a ≤ va < a + PGSIZE)) as [Hin|Hin].
           ++ rewrite decide_True by (unfold a, PGSIZE in *; lia). unfold vpte.
              by rewrite Hfree by lia.
           ++ rewrite decide_False by (unfold a, PGSIZE in *; lia). unfold vpte.
              by rewrite Hpte, decide_False by lia.
Qed.

(** [uvmcreate] beside another address space. *)
Lemma uvmcreate_sep s old l :
  uspace s old l →
  wp uvmcreate (λ p s',
    match l with
    | [] => p = 0 ∧ s' = s
    | _ :: l' => uspace s' old l' ∧ undisturbed s s' old ∧ uspace s' p l' ∧ sep s' old p l' ∧
        ∀ va, pte_at (km_mem s') p va = 0
    end) s.
Proof.
  intros Huo. pose proof (vm_kinv _ _ _ _ (us_wf _ _ _ Huo)) as Hk.
  eapply wp_mono; [by apply (uvmcreate_spec s l)|]. intros p s' Hp.
  destruct l as [|p' l']; [done|]. destruct Hp as (-> & Hun & Hz & Hpt & Hm).
  destruct Hk as (_ & Hd & Hok). apply Forall_cons in Hok as [Hpok Hok].
  assert (Hq : ∀ q, uses (km_mem s) old q → page_ok kend q ∧ q ≠ p' ∧ q ∉ l').
  { intros q [Ht|(va & Hv & <-)].
    - destruct (is_table_ok kend s old _ q (us_wf _ _ _ Huo) Ht) as [? Hn].
      by apply not_elem_of_cons in Hn.
    - destruct (us_page _ _ _ Huo va Hv) as (? & Hn & _). by apply not_elem_of_cons in Hn. }
  assert (Hqm : ∀ q x, uses (km_mem s) old q → in_page q x → km_mem s' x = km_mem s x).
  { intros q x (Hqok & Hne & _)%Hq Hx. apply Hm. intros Hx'.
    by apply (in_page_disjoint kend q p' x). }
  destruct (uspace_change s s' old (p' :: l') l' Huo) as (Huo' & Hp & Ht).
  - apply (vm_kinv _ _ _ _ (us_wf _ _ _ Hun)).
  - intros t x Ht. apply Hqm. by left.
  - intros t Ht. apply (Hq t). by left.
  - intros va Hv. apply (Hq (upage (km_mem s) old va)). right. by exists va.
  - assert (HU : undisturbed s s' old).
    { split; [done|done|]. intros va Hv. unfold uread.
      replace (phys (km_mem s') old va) with (phys (km_mem s) old va)
        by (unfold phys, upage; by rewrite Hp).
      apply (Hqm (upage (km_mem s) old va)); [right; by exists va|]. apply phys_in_page. }
    split; [done|]. split; [done|]. split; [done|]. split; [|done].
    intros q Hu%(undisturbed_uses s s' old q HU). destruct (Hq q Hu) as (? & ? & ?).
    split; [done|done| |].
    + intros ->%Hpt. done.
    + intros va [_ HV]. by rewrite Hz in HV.
Qed.
End VmUser.

(** [uvmalloc] as a whole. *)
Lemma uvmalloc_spec (kend root oldsz newsz xperm : Z) (s : kmem) (l : list Z) :
  KERNBASE ≤ kend → uspace kend s root l → 0 ≤ oldsz → newsz ≤ TRAPFRAME → 0 ≤ xperm < 1024 →
  (∀ va, PGROUNDUP oldsz ≤ va < PGROUNDUP newsz → has (pte_at (km_mem s) root va) PTE_V = false) → oldsz ≤ newsz →
  ∃ r s' l', uvmalloc kend root oldsz newsz xperm s = Ok r s' ∧ uspace kend s' root l' ∧
    kept kend [] s s' root l l' ∧ conserves s s' root l l' ∧
    ((r = newsz ∧ alloced s s' root (PGROUNDUP oldsz) (PGROUNDUP newsz)
                    (Z.lor (Z.lor PTE_R PTE_U) xperm)) ∨
     (r = 0 ∧ (∀ va, 0 ≤ va < MAXVA → vpte (km_mem s') root va = vpte (km_mem s) root va) ∧
      (∀ va, mapped (km_mem s) root va → uread (km_mem s') root va = uread (km_mem s) root va))).
Proof.
  intros Hend Hus Hold Hnew Hx Hfree Hle.
  assert (Htf := TRAPFRAME_eq). assert (Hmax := MAXVA_eq).
  unfold uvmalloc. destruct (Z.ltb_spec newsz oldsz); [lia|].
  set (o := PGROUNDUP oldsz).
  assert (Ho : o mod PGSIZE = 0) by (apply PGROUNDUP_aligned; unfold PGSIZE; lia).
  assert (Hob : oldsz ≤ o < oldsz + PGSIZE) by (apply PGROUNDUP_bounds; unfold PGSIZE; lia).
  assert (Hon : o ≤ PGROUNDUP newsz).
  { unfold o. rewrite !PGROUNDUP_eq by (unfold PGSIZE; lia). unfold PGSIZE. zdm. }
  pose proof (uvmalloc_loop_spec kend Hend (Z.to_nat ((newsz - o) / PGSIZE + 1)) root o 0 newsz
    xperm s l Hus Ho ltac:(lia) Hx) as HL.
  rewrite Z.add_0_r in HL. destruct (wp_inv _ _ _ (HL ltac:(lia) Hon ltac:(lia) Hfree
    ltac:(unfold PGSIZE in *; zdm))) as (r & s' & He & l' & Hus' & HK & Hc & Hr).
  exists r, s', l'. split; [done|]. split; [done|]. split; [done|]. split; [done|].
  destruct Hr as [[-> Hr]|[-> Hr]]; [left|right]; (split; [done|]).
  - by rewrite Z.add_0_r in Hr.
  - assert (Hv : ∀ va, 0 ≤ va < MAXVA → vpte (km_mem s') root va = vpte (km_mem s) root va).
    { intros va Hva. rewrite Hr by done. by rewrite decide_False by lia. }
    split; [done|]. intros va Hm. apply (kept_uread kend [] s s' root l l'); try done.
    + apply not_elem_of_nil.
    + destruct Hm as [Hr' HV]. specialize (Hv va ltac:(lia)). unfold vpte in Hv. rewrite HV in Hv.
      destruct (has (pte_at (km_mem s') root va) PTE_V); [done|].
      rewrite <- Hv in HV. done.
Qed.

(** ** A concrete address space *)

(** The kernel's end, and the state after [kinit] and [uvmcreate], of a machine
    with ten free pages. *)
Definition demo_kend : Z := PHYSTOP - 40960.
Definition state_of {S A} (d : S) (o : outcome S A) : S := match o with Ok _ s => s | _ => d end.
Definition value_of {S A} (d : A) (o : outcome S A) : A := match o with Ok a _ => a | _ => d end.
Definition demo_free : kmem :=
  state_of (mkKmem (λ _, 0) 0) (kinit demo_kend (mkKmem (λ _, 0) 0)).
Definition demo_root : Z := value_of 0 (uvmcreate demo_free).
Definition demo_space : kmem := state_of demo_free (uvmcreate demo_free).

Lemma demo_kend_ok : KERNBASE ≤ demo_kend.
Proof. unfold demo_kend, PHYSTOP. lia. Qed.

Lemma demo_uspace : ∃ l, uspace demo_kend demo_space demo_root l ∧
  ∀ va, pte_at (km_mem demo_space) demo_root va = 0.
Proof.
  destruct (wp_inv _ _ _ (kinit_spec demo_kend demo_kend_ok (mkKmem (λ _, 0) 0)
    ltac:(unfold demo_kend; lia) eq_refl)) as ([] & s1 & Hi & l & Hk & Hl & _).
  assert (Hf : demo_free = s1) by (unfold demo_free; rewrite Hi; reflexivity).
  pose proof (uvmcreate_spec demo_kend demo_kend_ok s1 l Hk) as Hw.
  destruct (wp_inv _ _ _ Hw) as (r & s2 & Hc & Hr).
  assert (Hroot : demo_root = r) by (unfold demo_root; rewrite Hf, Hc; reflexivity).
  assert (Hspace : demo_space = s2) by (unfold demo_space; rewrite Hf, Hc; reflexivity).
  rewrite Hroot, Hspace.
  destruct l as [|p l'].
  - destruct (not_elem_of_nil (PHYSTOP - 4096)). apply Hl.
    unfold demo_kend, page_ok, PHYSTOP, KERNBASE, PGSIZE. split; [done|lia].
  - destruct Hr as (-> & Hus & Hz & _). exists l'. split; [exact Hus|exact Hz].
Qed.

(** ** Properties *)

(** [uvmalloc] grows a process exactly or not at all.  It never panics and
    always returns.  On success the new size is returned, every page from the
    old end to the new end is mapped for the user with the requested
    permissions and reads as zero, and every other mapping and user byte is as
    before.  When memory runs out it returns 0, and the valid mappings and the
    user's bytes are as before.  No page is lost: those that were free or in the
    address space are free or in it. *)
Theorem uvmalloc_correct (kend root oldsz newsz xperm : Z) (s : kmem) (l : list Z)
    (Hend : KERNBASE ≤ kend) (Hus : uspace kend s root l)
    (Hold : 0 ≤ oldsz) (Hnew : newsz ≤ TRAPFRAME) (Hx : 0 ≤ xperm < 1024)
    (Hfree : ∀ va, PGROUNDUP oldsz ≤ va < PGROUNDUP newsz →
       has (pte_at (km_mem s) root va) PTE_V = false)
    (Hle : oldsz ≤ newsz) :
  ∃ r s' l', uvmalloc kend root oldsz newsz xperm s = Ok r s' ∧ uspace kend s' root l' ∧ conserves s s' root l l' ∧
    ((r = newsz ∧ alloced s s' root (PGROUNDUP oldsz) (PGROUNDUP newsz)
                    (Z.lor (Z.lor PTE_R PTE_U) xperm)) ∨
     (r = 0 ∧ (∀ va, 0 ≤ va < MAXVA → vpte (km_mem s') root va = vpte (km_mem s) root va) ∧
      (∀ va, mapped (km_mem s) root va → uread (km_mem s') root va = uread (km_mem s) root va))).
Proof.
  destruct (uvmalloc_spec kend root oldsz newsz xperm s l) as (r & s' & l' & He & Hu & _ & Hc & Hr); try done. by exists r, s', l'.
Qed.

Lemma uvmalloc_correct_witness :
  ∃ s' l', uvmalloc demo_kend demo_root 0 5000 PTE_W demo_space = Ok 5000 s' ∧
    uspace demo_kend s' demo_root l' ∧ uread (km_mem s') demo_root 4999 = 0.
Proof.
  destruct demo_uspace as (l & Hus & Hz).
  destruct (uvmalloc_correct demo_kend demo_root 0 5000 PTE_W demo_space l demo_kend_ok Hus)
    as (r & s' & l' & He & Hus' & _ & Hr).
  - lia.
  - vm_compute. congruence.
  - vm_compute. intuition congruence.
  - intros va _. rewrite Hz. reflexivity.
  - lia.
  - assert (Hc : value_of (-1) (uvmalloc demo_kend demo_root 0 5000 PTE_W demo_space) = 5000) by (vm_compute; reflexivity).
    rewrite He in Hc. simpl in Hc. subst r. exists s', l'. split; [exact He|]. split; [exact Hus'|].
    destruct Hr as [[_ [N _ _]]|[Hr _]]; [|discriminate Hr].
    apply N. vm_compute. intuition congruence.
Defined.

(** C3: [uvmcopy] gives the child an exact copy of the parent's memory or
    nothing.  It never panics and always returns.  Whatever it returns, the
    parent's mappings and bytes do not change.  If it returns 0, every address
    below the size is mapped in the child with the parent's permissions and
    reads the same byte from a page of its own; if it returns -1, the child has
    the valid mappings it had.  No page is lost in either case. *)
Theorem uvmcopy_correct (kend old new sz : Z) (s : kmem) (l : list Z)
    (Hend : KERNBASE ≤ kend) (Hold : uspace kend s old l) (Hnew : uspace kend s new l)
    (Hsep : sep kend s old new l) (Hsz : 0 ≤ sz ≤ TRAPFRAME)
    (Hpar : ∀ va, 0 ≤ va < PGROUNDUP sz → mapped (km_mem s) old va)
    (Hfree : ∀ va, 0 ≤ va < PGROUNDUP sz → has (pte_at (km_mem s) new va) PTE_V = false) :
  ∃ r s' l', uvmcopy kend old new sz s = Ok r s' ∧
    uspace kend s' old l' ∧ uspace kend s' new l' ∧ undisturbed s s' old ∧ conserves s s' new l l' ∧
    ((r = 0 ∧ cloned s s' old new 0 (PGROUNDUP sz)) ∨
     (r = -1 ∧ ∀ va, 0 ≤ va < MAXVA → vpte (km_mem s') new va = vpte (km_mem s) new va)).
Proof.
  assert (Htf := TRAPFRAME_eq). unfold uvmcopy.
  assert (Hb : sz ≤ PGROUNDUP sz < sz + PGSIZE) by (apply PGROUNDUP_bounds; unfold PGSIZE; lia).
  destruct (wp_inv _ _ _ (uvmcopy_loop_spec kend Hend (Z.to_nat (sz / PGSIZE + 1)) old new 0 sz s l
    Hold Hnew Hsep Hsz Hpar ltac:(lia) ltac:(lia) Hfree ltac:(unfold PGSIZE in *; zdm)))
    as (r & s' & He & l' & Hun' & Huo' & HU & _ & Hc & Hr).
  exists r, s', l'. split; [done|]. split; [done|]. split; [done|]. split; [done|]. split; [done|].
  destruct Hr as [[-> Hr]|[-> Hr]]; [by left|right]. split; [done|].
  intros va Hva. rewrite Hr by done. by rewrite decide_False by lia.
Qed.

(** The state after the first space grew to two pages and a second, empty space
    was created beside it. *)
Definition demo_parent : kmem :=
  state_of demo_space (uvmalloc demo_kend demo_root 0 5000 PTE_W demo_space).
Definition demo_child : Z := value_of 0 (uvmcreate demo_parent).
Definition demo_pair : kmem := state_of demo_parent (uvmcreate demo_parent).

Lemma demo_parent_size :
  value_of (-1) (uvmalloc demo_kend demo_root 0 5000 PTE_W demo_space) = 5000.
Proof. vm_compute. reflexivity. Qed.
Lemma demo_child_nonzero : demo_child ≠ 0.
Proof. apply Z.eqb_neq. vm_compute. reflexivity. Qed.

Lemma demo_parent_ok : ∃ l, uspace demo_kend demo_parent demo_root l ∧
  ∀ va, 0 ≤ va < 8192 → umapped (km_mem demo_parent) demo_root va.
Proof.
  destruct demo_uspace as (l0 & Hus & Hz).
  pose proof (uvmalloc_loop_spec demo_kend demo_kend_ok 2 demo_root 0 0 5000 PTE_W demo_space l0 Hus
    eq_refl ltac:(lia) ltac:(done) ltac:(lia) ltac:(done) ltac:(done)
    ltac:(intros; by rewrite Hz) ltac:(done)) as Hw.
  destruct (wp_inv _ _ _ Hw) as (r & s1 & He & l1 & Hus1 & _ & _ & Hr).
  assert (Hc : uvmalloc demo_kend demo_root 0 5000 PTE_W demo_space = Ok r s1) by exact He.
  assert (Hs : demo_parent = s1) by (unfold demo_parent; rewrite Hc; reflexivity).
  assert (r = 5000) as ->.
  { pose proof demo_parent_size as Hc'. rewrite Hc in Hc'. exact Hc'. }
  destruct Hr as [[_ [N _ _]]|[Hr _]]; [|discriminate Hr].
  exists l1. rewrite Hs. split; [exact Hus1|]. intros va Hva. apply N. exact Hva.
Qed.

Lemma demo_pair_ok : ∃ l, uspace demo_kend demo_pair demo_root l ∧
  uspace demo_kend demo_pair demo_child l ∧ sep demo_kend demo_pair demo_root demo_child l ∧
  (∀ va, pte_at (km_mem demo_pair) demo_child va = 0) ∧
  (∀ va, 0 ≤ va < 8192 → mapped (km_mem demo_pair) demo_root va).
Proof.
  destruct demo_parent_ok as (l1 & Hus1 & Hm1).
  destruct (wp_inv _ _ _ (uvmcreate_sep demo_kend demo_kend_ok demo_parent demo_root l1 Hus1))
    as (p & s2 & Hc2 & Hp).
  assert (Hp' : demo_child = p) by (unfold demo_child; rewrite Hc2; reflexivity).
  assert (Hs2 : demo_pair = s2) by (unfold demo_pair; rewrite Hc2; reflexivity).
  rewrite Hs2. destruct l1 as [|p1 l1].
  { destruct Hp as [-> _]. destruct (demo_child_nonzero Hp'). }
  rewrite Hp'. destruct Hp as (? & HU & ? & ? & ?). exists l1. split; [assumption|].
  split; [assumption|]. split; [assumption|]. split; [assumption|].
  intros va Hva. apply (undisturbed_mapped demo_parent s2 demo_root va HU).
  apply (us_user _ _ _ _ Hus1), Hm1, Hva.
Qed.

Lemma uvmcopy_correct_witness :
  ∃ r s', uvmcopy demo_kend demo_root demo_child 5000 demo_pair = Ok r s' ∧
    uread (km_mem s') demo_root 4999 = uread (km_mem demo_pair) demo_root 4999 ∧
    (r = 0 → uread (km_mem s') demo_child 4999 = uread (km_mem demo_pair) demo_root 4999).
Proof.
  destruct demo_pair_ok as (l & Ho & Hn & Hs & Hz & Hm).
  destruct (uvmcopy_correct demo_kend demo_root demo_child 5000 demo_pair l demo_kend_ok Ho Hn Hs)
    as (r & s' & l' & He & _ & _ & HU & _ & Hr).
  - vm_compute. intuition congruence.
  - exact Hm.
  - intros va _. rewrite Hz. reflexivity.
  - exists r, s'. split; [exact He|]. split.
    + apply (ud_read _ _ _ HU), Hm. lia.
    + intros ->. destruct Hr as [[_ [N _ _]]|[Hr _]]; [|discriminate Hr].
      apply N. vm_compute. intuition congruence.
Defined.
