(* ===== verification/VmCopy.v ===== *)
(** * VmCopy: copies between the kernel and a user address space

    What [copyout], [copyin], [copyinstr] and [walkaddr] of Vm.v do to the bytes
    a user process sees, for a page table whose user pages are ordinary pages,
    each mapped once, none of them a page table ([uspace] of VmUser.v). *)
From S2P Require Import Prelude Riscv CString Kalloc Vm VmSpec VmUser.

Section VmCopy.
Context (kend : Z).
Hypothesis Hend : KERNBASE ≤ kend.

(** ** Writing bytes into one user page *)
Section write_user.
Context (s : kmem) (root : Z) (l : list Z) (va : Z) (bs : list Z).
Hypothesis Hus : uspace kend s root l.
Hypothesis Hva : umapped (km_mem s) root va.
Hypothesis Hfit : va mod PGSIZE + Z.of_nat (length bs) ≤ PGSIZE.
Notation m := (km_mem s).
Definition wu_state : kmem := set_mem (write_bytes m (phys m root va) bs) s.
Notation m' := (km_mem wu_state).

Lemma wu_mapped : mapped m root va.
Proof. by apply (us_user _ _ _ _ Hus). Qed.

Lemma wu_in_page x :
  phys m root va ≤ x < phys m root va + Z.of_nat (length bs) →
  in_page (upage m root va) x.
Proof. unfold phys, in_page, PGSIZE in *. intros. zdm. Qed.

Lemma wu_out x :
  ¬ (phys m root va ≤ x < phys m root va + Z.of_nat (length bs)) → m' x = m x.
Proof. apply write_bytes_out. Qed.

Lemma wu_other q x :
  page_ok kend q → q ≠ upage m root va → in_page q x → m' x = m x.
Proof.
  intros Hq Hne Hx. apply wu_out. intros Hr%wu_in_page.
  destruct (us_page _ _ _ _ Hus va wu_mapped) as (? & _ & _).
  by apply (in_page_disjoint kend q (upage m root va) x).
Qed.

Lemma wu_tables t x : is_table m root t → in_page t x → m' x = m x.
Proof.
  intros Ht. destruct (us_page _ _ _ _ Hus va wu_mapped) as (_ & _ & Hn).
  destruct (is_table_ok kend s root l t (us_wf _ _ _ _ Hus) Ht) as [? _].
  apply wu_other; [done|]. intros ->. done.
Qed.

Lemma wu_pte va' : pte_at m' root va' = pte_at m root va'.
Proof. apply data_write. apply wu_tables. Qed.

Lemma wu_umapped va' : umapped m' root va' ↔ umapped m root va'.
Proof. unfold umapped. by rewrite wu_pte. Qed.

Lemma wu_uspace : uspace kend wu_state root l.
Proof.
  destruct (us_page _ _ _ _ Hus va wu_mapped) as (_ & Hnl & _).
  destruct (uspace_change kend s wu_state root l l Hus) as [? _]; try done.
  - apply kinv_write; [apply (vm_kinv _ _ _ _ (us_wf _ _ _ _ Hus))|]. intros q x Hq Hx. symmetry.
    apply (wu_other q); [|congruence|done].
    destruct (vm_kinv _ _ _ _ (us_wf _ _ _ _ Hus)) as (_ & _ & Hok). by eapply Forall_forall in Hok.
  - apply wu_tables.
  - intros t Ht. by apply (is_table_ok kend s root l t (us_wf _ _ _ _ Hus)).
  - intros va' Hm. by apply (us_page _ _ _ _ Hus).
Qed.

Lemma wu_uread va' :
  umapped m root va' →
  uread m' root va' =
    if decide (va ≤ va' < va + Z.of_nat (length bs)) then nth (Z.to_nat (va' - va)) bs 0
    else uread m root va'.
Proof.
  intros Hm'. unfold uread. replace (phys m' root va') with (phys m root va')
    by (unfold phys, upage; by rewrite wu_pte).
  assert (Hmp := us_user _ _ _ _ Hus va' Hm').
  destruct (decide (upage m root va = upage m root va')) as [Heq|Hne].
  - pose proof (us_inj _ _ _ _ Hus va va' wu_mapped Hmp Heq) as Hpg.
    assert (Hph : phys m root va' = phys m root va + (va' - va)).
    { unfold phys. rewrite <- Heq. unfold PGSIZE in *. zdm. }
    rewrite Hph. case_decide as Hin.
    + set (i := Z.to_nat (va' - va)). replace (va' - va) with (Z.of_nat i) by lia.
      apply write_bytes_in. destruct (lookup_lt_is_Some_2 bs i) as [b Hb]; [lia|].
      rewrite Hb. f_equal. symmetry. by apply nth_lookup_Some.
    + apply wu_out. lia.
  - rewrite decide_False.
    + apply (wu_other (upage m root va')); [|congruence|].
      * by apply (us_page _ _ _ _ Hus).
      * unfold phys, in_page, PGSIZE. zdm.
    + intros Hin. apply Hne. apply upage_same_page. unfold PGSIZE in *. zdm.
Qed.
End write_user.

(** ** copyout *)

(** The outcome of a copy to user space that got [k] bytes far. *)
Record copied (s s' : kmem) (root dstva : Z) (src : list Z) (k : Z) : Prop := {
  cp_pte : ∀ va, pte_at (km_mem s') root va = pte_at (km_mem s) root va;
  cp_writable : ∀ va, dstva ≤ va < dstva + k → uwritable (km_mem s) root va;
  cp_read : ∀ va, umapped (km_mem s) root va →
    uread (km_mem s') root va =
      if decide (dstva ≤ va < dstva + k) then nth (Z.to_nat (va - dstva)) src 0
      else uread (km_mem s) root va;
  cp_frame : ∀ x, (∀ va, dstva ≤ va < dstva + k → x ≠ phys (km_mem s) root va) →
    km_mem s' x = km_mem s x;
}.

Lemma copied_0 s root dstva src : copied s s root dstva src 0.
Proof.
  split; [done| |..|done].
  - intros. lia.
  - intros. by rewrite decide_False by lia.
Qed.

Lemma copyout_loop_spec fuel root dstva src s l :
  uspace kend s root l → 0 ≤ dstva < 2 ^ 64 → (length src ≤ fuel)%nat →
  wp (copyout_loop fuel root dstva src) (λ r s',
    uspace kend s' root l ∧ ∃ k, 0 ≤ k ≤ Z.of_nat (length src) ∧ copied s s' root dstva src k ∧
    ((r = 0 ∧ k = Z.of_nat (length src)) ∨
     (r = -1 ∧ k < Z.of_nat (length src) ∧ ¬ uwritable (km_mem s) root (dstva + k)))) s.
Proof.
  assert (Hmax : MAXVA = 2 ^ 38) by done.
  revert dstva src s. induction fuel as [|fuel IH]; intros dstva src s Hus Hva Hlen; cbn [copyout_loop].
  { destruct src; [|simpl in Hlen; lia]. simpl. split; [done|]. exists 0.
    split; [simpl; lia|]. split; [apply copied_0|by left]. }
  destruct (Z.ltb_spec 0 (Z.of_nat (length src))) as [Hpos|Hzero].
  2:{ destruct src; [|simpl in *; lia]. split; [done|]. exists 0.
      split; [simpl; lia|]. split; [apply copied_0|by left]. }
  rewrite PGROUNDDOWN_eq by done. set (va0 := dstva - dstva mod PGSIZE).
  assert (Hmod : 0 ≤ dstva mod PGSIZE < PGSIZE) by (by apply Z.mod_pos_bound).
  assert (Hpg : va0 / PGSIZE = dstva / PGSIZE) by (unfold va0, PGSIZE; zdm).
  assert (Hfail : ¬ uwritable (km_mem s) root dstva →
    uspace kend s root l ∧ ∃ k, 0 ≤ k ≤ Z.of_nat (length src) ∧ copied s s root dstva src k ∧
    ((-1 = 0 ∧ k = Z.of_nat (length src)) ∨
     (-1 = -1 ∧ k < Z.of_nat (length src) ∧ ¬ uwritable (km_mem s) root (dstva + k)))).
  { intros Hn. split; [done|]. exists 0. split; [lia|]. split; [apply copied_0|].
    right. split; [done|]. split; [lia|]. by rewrite Z.add_0_r. }
  destruct (Z.leb_spec MAXVA va0) as [Hbig|Hsmall].
  { apply wp_ret, Hfail. intros [((? & ?) & _) _]. unfold va0, MAXVA, PGSIZE in *.
    revert Hbig. rewrite Z.shiftl_1_l. simpl Z.pow in *. zdm. }
  destruct (walk_user kend Hend s root l va0 (us_wf _ _ _ _ Hus)) as (a & Hw & Ha);
    [unfold va0, PGSIZE in *; zdm|].
  apply wp_bind. unfold wp at 1. rewrite Hw.
  rewrite (pte_at_same_page _ _ va0 dstva Hpg) in Ha.
  destruct Ha as [[-> Hz]|[Ha0 Hld]].
  { simpl. apply Hfail. intros [(_ & HV & _) _]. by rewrite Hz in HV. }
  destruct (Z.eqb_spec a 0) as [?|_]; [done|].
  apply wp_bind. unfold load_word, wp at 1, gets. rewrite Hld.
  destruct (negb (has _ PTE_V) || _ || _) eqn:Hperm.
  { apply Hfail. intros [(_ & HV & HU) HW]. by rewrite HV, HU, HW in Hperm. }
  apply orb_false_iff in Hperm as [[HV HU]%orb_false_iff HW].
  apply negb_false_iff in HV, HU, HW.
  assert (Hdst : dstva < MAXVA).
  { unfold va0, MAXVA, PGSIZE in *. revert Hsmall. rewrite Z.shiftl_1_l. simpl Z.pow. zdm. }
  assert (Hum : umapped (km_mem s) root dstva) by (split; [lia|done]).
  set (n := PGSIZE - (dstva - va0)).
  set (n' := if Z.of_nat (length src) <? n then Z.of_nat (length src) else n).
  assert (Hn : n = PGSIZE - dstva mod PGSIZE) by (unfold n, va0; lia).
  assert (Hn' : 0 < n' ≤ n ∧ n' ≤ Z.of_nat (length src) ∧
                (n' = n ∨ n' = Z.of_nat (length src))).
  { unfold n'. destruct (Z.ltb_spec (Z.of_nat (length src)) n); lia. }
  clearbody n'. apply wp_bind. unfold wp at 1, modify.
  replace (PTE2PA (pte_at (km_mem s) root dstva) + (dstva - va0))
    with (phys (km_mem s) root dstva) by (unfold phys, upage, va0; lia).
  set (bs := take (Z.to_nat n') src).
  assert (Hbs : length bs = Z.to_nat n') by (unfold bs; rewrite length_take; lia).
  fold (wu_state s root dstva bs).
  assert (Hfit : dstva mod PGSIZE + Z.of_nat (length bs) ≤ PGSIZE) by lia.
  set (s1 := wu_state s root dstva bs).
  rewrite u64_id by (unfold va0, PGSIZE in *; lia).
  eapply wp_mono; [apply (IH (va0 + PGSIZE) (drop (Z.to_nat n') src) s1)|].
  - by apply wu_uspace.
  - unfold va0, PGSIZE in *. lia.
  - rewrite length_drop. lia.
  - intros r s' (Hus' & k & Hk & [P W R F] & Hr). rewrite length_drop in Hk, Hr.
    split; [done|]. exists (n' + k). split; [lia|].
    assert (Hnext : va0 + PGSIZE = dstva + n' ∨ k = 0) by (unfold va0, n in *; lia).
    assert (Hpte1 : ∀ va, pte_at (km_mem s1) root va = pte_at (km_mem s) root va)
      by (intros; by apply (wu_pte s root l)).
    assert (Huw1 : ∀ va, uwritable (km_mem s1) root va ↔ uwritable (km_mem s) root va)
      by (intros; unfold uwritable, umapped; by rewrite Hpte1).
    assert (Huw : ∀ va, dstva ≤ va < dstva + n' → uwritable (km_mem s) root va).
    { intros va Hin. assert (va / PGSIZE = dstva / PGSIZE) as He by (unfold PGSIZE in *; zdm).
      split; [apply (umapped_page _ _ dstva)|]; try done.
      - unfold va0, MAXVA, PGSIZE in *. revert Hdst. rewrite Z.shiftl_1_l. simpl Z.pow. zdm.
      - by rewrite (pte_at_same_page _ _ va dstva). }
    split; [split|].
    + intros va. by rewrite P.
    + intros va Hin. destruct (decide (va < dstva + n')); [apply Huw; lia|].
      apply Huw1, W. lia.
    + intros va Hm. assert (Hm1 : umapped (km_mem s1) root va)
        by (unfold umapped; by rewrite Hpte1).
      rewrite (R va Hm1). unfold s1. rewrite (wu_uread s root l dstva bs Hus Hum Hfit va Hm).
      fold s1. destruct (decide (dstva ≤ va < dstva + n')).
      * rewrite decide_False by lia. rewrite decide_True by lia. rewrite decide_True by lia.
        unfold bs. by rewrite nth_firstn, (proj2 (Nat.ltb_lt _ _)) by lia.
      * destruct (decide (va0 + PGSIZE ≤ va < va0 + PGSIZE + k)).
        -- rewrite decide_True by lia. rewrite nth_skipn. f_equal. lia.
        -- rewrite decide_False by lia. rewrite decide_False by lia. done.
    + intros x Hx. rewrite F.
      * apply (wu_out s root dstva bs). intros Hin.
        apply (Hx (dstva + (x - phys (km_mem s) root dstva))); [lia|].
        rewrite phys_add; unfold PGSIZE in *; lia.
      * intros va Hin. unfold phys, upage. rewrite Hpte1. apply Hx. lia.
    + rewrite Huw1 in Hr. destruct Hr as [[-> ->]|(-> & ? & Hn1)]; [left|right].
      * split; [done|lia].
      * split; [done|]. split; [lia|]. intros Hc. apply Hn1.
        replace (va0 + PGSIZE + k) with (dstva + (n' + k)); [done|]. lia.
Qed.

Lemma copyout_spec root dstva src s l :
  uspace kend s root l → 0 ≤ dstva < 2 ^ 64 →
  wp (copyout root dstva src) (λ r s',
    uspace kend s' root l ∧ ∃ k, 0 ≤ k ≤ Z.of_nat (length src) ∧ copied s s' root dstva src k ∧
    ((r = 0 ∧ k = Z.of_nat (length src)) ∨
     (r = -1 ∧ k < Z.of_nat (length src) ∧ ¬ uwritable (km_mem s) root (dstva + k)))) s.
Proof. intros. by apply copyout_loop_spec. Qed.

(** ** copyin *)

Lemma walkaddr_spec s root l va :
  vmwf kend s root l → 0 ≤ va →
  walkaddr root va s =
    Ok (if decide (umapped (km_mem s) root va) then PTE2PA (pte_at (km_mem s) root va) else 0) s.
Proof.
  intros Hwf Hva. unfold walkaddr. destruct (Z.leb_spec MAXVA va).
  { rewrite decide_False; [done|]. intros [? _]. lia. }
  destruct (walk_user kend Hend s root l va Hwf) as (a & Hw & Ha); [lia|].
  unfold bind. rewrite Hw. destruct Ha as [[-> Hz]|[Ha0 Hld]].
  { rewrite decide_False; [done|]. intros (_ & HV & _). by rewrite Hz in HV. }
  destruct (Z.eqb_spec a 0); [done|]. unfold load_word, gets. rewrite Hld.
  destruct (has (pte_at _ _ _) PTE_V) eqn:HV; simpl.
  2:{ rewrite decide_False; [done|]. intros (_ & ? & _). congruence. }
  destruct (has (pte_at _ _ _) PTE_U) eqn:HU; simpl.
  - by rewrite decide_True by (split; [lia|done]).
  - rewrite decide_False; [done|]. intros (_ & _ & ?). congruence.
Qed.

(** The [n] bytes a user process sees from [va] on. *)
Definition ubytes (m : mem) (root va : Z) (n : nat) : list Z :=
  (λ i : nat, uread m root (va + Z.of_nat i)) <$> seq 0 n.

Lemma length_ubytes m root va n : length (ubytes m root va n) = n.
Proof. unfold ubytes. by rewrite length_fmap, length_seq. Qed.
Lemma lookup_ubytes m root va n i :
  (i < n)%nat → ubytes m root va n !! i = Some (uread m root (va + Z.of_nat i)).
Proof. intros. unfold ubytes. by rewrite list_lookup_fmap, lookup_seq_lt. Qed.
Lemma ubytes_app m root va n k :
  ubytes m root va (n + k) = ubytes m root va n ++ ubytes m root (va + Z.of_nat n) k.
Proof.
  unfold ubytes. rewrite seq_app, fmap_app. f_equal. simpl.
  rewrite <- (Nat.add_0_r n) at 1. rewrite <- fmap_add_seq, <- list_fmap_compose.
  apply list_fmap_ext. intros i x _. simpl. f_equal. lia.
Qed.

Lemma read_bytes_user m root va n :
  va mod PGSIZE + Z.of_nat n ≤ PGSIZE → read_bytes m (phys m root va) n = ubytes m root va n.
Proof.
  intros Hfit. apply list_eq_same_length with n; rewrite ?length_read_bytes, ?length_ubytes; try done.
  intros i x y Hi. rewrite lookup_read_bytes, lookup_ubytes by done. intros [= <-] [= <-].
  unfold uread. rewrite phys_add by lia. done.
Qed.

Lemma copyin_loop_spec fuel root dst srcva len s l :
  uspace kend s root l → 0 ≤ srcva < 2 ^ 64 → 0 ≤ len → (Z.to_nat len ≤ fuel)%nat →
  ∃ r k, 0 ≤ k ≤ len ∧
    copyin_loop fuel root dst srcva len s =
      Ok (r, dst ++ ubytes (km_mem s) root srcva (Z.to_nat k)) s ∧
    (∀ va, srcva ≤ va < srcva + k → umapped (km_mem s) root va) ∧
    ((r = 0 ∧ k = len) ∨ (r = -1 ∧ k < len ∧ ¬ umapped (km_mem s) root (srcva + k))).
Proof.
  intros Hus. pose proof (us_wf _ _ _ _ Hus) as Hwf. revert dst srcva len.
  induction fuel as [|fuel IH]; intros dst srcva len Hva Hlen Hfuel; cbn [copyin_loop].
  { assert (len = 0) as -> by lia. exists 0, 0. simpl. rewrite app_nil_r.
    split; [lia|]. split; [done|]. split; [lia|by left]. }
  destruct (Z.ltb_spec 0 len) as [Hpos|Hzero].
  2:{ assert (len = 0) as -> by lia. exists 0, 0. simpl. rewrite app_nil_r.
      split; [lia|]. split; [done|]. split; [lia|by left]. }
  rewrite PGROUNDDOWN_eq by done. set (va0 := srcva - srcva mod PGSIZE).
  assert (Hmod : 0 ≤ srcva mod PGSIZE < PGSIZE) by (by apply Z.mod_pos_bound).
  assert (Hpg : va0 / PGSIZE = srcva / PGSIZE) by (unfold va0, PGSIZE; zdm).
  unfold bind at 1. rewrite (walkaddr_spec s root l) by (done || (unfold va0, PGSIZE in *; zdm)).
  assert (Hum0 : umapped (km_mem s) root va0 ↔ umapped (km_mem s) root srcva).
  { assert (MAXVA = 2 ^ 38) as Hm by done. unfold va0, PGSIZE in *.
    split; intros H; (eapply umapped_page; [| |exact H]);
      try (unfold PGSIZE; zdm); destruct H as [Hr _]; rewrite Hm in *; zdm. }
  case_decide as Hum.
  2:{ exists (-1), 0. simpl. rewrite app_nil_r. split; [lia|]. split; [done|].
      split; [lia|]. right. rewrite Z.add_0_r. rewrite <- Hum0. done. }
  apply Hum0 in Hum. rewrite (pte_at_same_page _ _ va0 srcva Hpg).
  destruct (us_page _ _ _ _ Hus srcva (us_user _ _ _ _ Hus _ Hum)) as (Hok & _ & _). unfold upage in Hok.
  pose proof (page_ok_range kend Hend _ Hok).
  destruct (Z.eqb_spec (PTE2PA (pte_at (km_mem s) root srcva)) 0) as [Hz|_]; [lia|].
  set (n := PGSIZE - (srcva - va0)). set (n' := if len <? n then len else n).
  assert (Hn : n = PGSIZE - srcva mod PGSIZE) by (unfold n, va0; lia).
  assert (Hn' : 0 < n' ≤ n ∧ n' ≤ len ∧ (n' = n ∨ n' = len)).
  { unfold n'. destruct (Z.ltb_spec len n); lia. }
  clearbody n'. unfold bind, gets.
  replace (PTE2PA (pte_at (km_mem s) root srcva) + (srcva - va0))
    with (phys (km_mem s) root srcva) by (unfold phys, upage, va0; lia).
  rewrite read_bytes_user by lia.
  assert (Hsrc : srcva < 2 ^ 38) by (destruct Hum as [[_ ?] _]; done).
  rewrite u64_id by (unfold va0, PGSIZE in *; lia).
  destruct (IH (dst ++ ubytes (km_mem s) root srcva (Z.to_nat n')) (va0 + PGSIZE) (len - n'))
    as (r & k & Hk & He & Hm & Hr); [unfold va0, PGSIZE in *; lia|lia|lia|].
  exists r, (n' + k). assert (Hnext : va0 + PGSIZE = srcva + n' ∨ k = 0) by (unfold va0, n in *; lia).
  split; [lia|]. split; [|split].
  - rewrite He, <- app_assoc. do 3 f_equal. rewrite Z2Nat.inj_add, ubytes_app by lia. f_equal.
    destruct Hnext as [->| ->]; [|done]. by rewrite Z2Nat.id by lia.
  - intros va Hin. destruct (decide (va < srcva + n')); [|apply Hm; lia].
    assert (Hmax : MAXVA = 2 ^ 38) by done.
    apply (umapped_page _ _ srcva); [unfold PGSIZE in *; zdm| |done].
    rewrite Hmax. unfold PGSIZE in *. zdm.
  - destruct Hr as [[-> ->]|(-> & ? & Hn1)]; [left; split; [done|lia]|right].
    split; [done|]. split; [lia|]. intros Hc. apply Hn1.
    replace (va0 + PGSIZE + k) with (srcva + (n' + k)); [done|lia].
Qed.

End VmCopy.

Lemma copyin_after_copyout (kend root va : Z) (src : list Z) (s s' : kmem) (l : list Z) :
  KERNBASE ≤ kend → uspace kend s root l → 0 ≤ va < 2 ^ 64 → copyout root va src s = Ok 0 s' →
  copyin root va (Z.of_nat (length src)) s' = Ok (0, src) s'.
Proof.
  intros Hend Hus Hva Ho.
  destruct (wp_run _ _ _ _ _ (copyout_spec kend Hend root va src s l Hus Hva) Ho) as (Hus' & k & Hk & [P W R F] & [[_ ->]|[? _]]); [|done].
  destruct (copyin_loop_spec kend Hend (length src) root [] va (Z.of_nat (length src)) s' l Hus' Hva)
    as (r & k & Hk' & He & Hm & Hr); [lia|lia|].
  assert (k = Z.of_nat (length src)) as ->.
  { destruct Hr as [[_ ?]|(_ & ? & Hn)]; [done|]. destruct Hn. destruct (W (va + k)) as [(?&?&?) _]; [lia|].
    unfold umapped. by rewrite P. }
  destruct Hr as [[-> _]|?]; [|lia]. unfold copyin. rewrite Nat2Z.id in *. rewrite He. simpl. do 2 f_equal.
  apply list_eq_same_length with (length src); [done|by rewrite length_ubytes|].
  intros i x y Hi. rewrite lookup_ubytes by done. intros [= <-] Hy.
  rewrite R by (destruct (W (va + Z.of_nat i)); [lia|done]).
  rewrite decide_True by lia. replace (va + Z.of_nat i - va) with (Z.of_nat i) by lia.
  rewrite Nat2Z.id. by apply nth_lookup_Some with (d := 0) in Hy.
Qed.

(** ** Properties *)

(** C28: [copyout] copies every byte of the buffer to user space, or stops at
    exactly the first byte that user space may not write: the bytes before it
    are written, no other byte of physical memory changes and the page table
    and the free list stay well formed; it never panics and always returns. *)
Theorem copyout_correct (kend root dstva : Z) (src : list Z) (s : kmem) (l : list Z)
    (Hend : KERNBASE ≤ kend) (Hus : uspace kend s root l) (Hva : 0 ≤ dstva < 2 ^ 64) :
  ∃ r k s', copyout root dstva src s = Ok r s' ∧ uspace kend s' root l ∧
    0 ≤ k ≤ Z.of_nat (length src) ∧ copied s s' root dstva src k ∧
    ((r = 0 ∧ k = Z.of_nat (length src)) ∨
     (r = -1 ∧ k < Z.of_nat (length src) ∧ ¬ uwritable (km_mem s) root (dstva + k))).
Proof.
  destruct (wp_inv _ _ _ (copyout_spec kend Hend root dstva src s l Hus Hva))
    as (r & s' & He & ? & k & ?). by exists r, k, s'.
Qed.

Definition demo_bytes : list Z := [10; 20; 30; 40; 50; 60; 70; 80; 90; 100].
Definition demo_written : kmem := state_of demo_parent (copyout demo_root 4090 demo_bytes demo_parent).
Lemma demo_copyout : value_of (-2) (copyout demo_root 4090 demo_bytes demo_parent) = 0.
Proof. vm_compute. reflexivity. Qed.
Lemma demo_copyout_top : value_of (-2) (copyout demo_root 8190 demo_bytes demo_parent) = -1.
Proof. vm_compute. reflexivity. Qed.

Lemma copyout_correct_witness :
  ∃ s' k, copyout demo_root 8190 demo_bytes demo_parent = Ok (-1) s' ∧
    ¬ uwritable (km_mem demo_parent) demo_root (8190 + k) ∧
    (∀ va, 8190 ≤ va < 8190 + k → uwritable (km_mem demo_parent) demo_root va).
Proof.
  destruct demo_parent_ok as (l & Hus & _).
  destruct (copyout_correct demo_kend demo_root 8190 demo_bytes demo_parent l demo_kend_ok Hus)
    as (r & k & s' & He & _ & _ & Hc & Hr); [lia|].
  pose proof demo_copyout_top as Hv. rewrite He in Hv. simpl in Hv. subst r.
  exists s', k. split; [exact He|]. destruct Hr as [[Hr _]|(_ & _ & Hn)]; [discriminate Hr|].
  split; [exact Hn|]. apply (cp_writable _ _ _ _ _ _ Hc).
Defined.

(** What [copyout] wrote is what [copyin] reads: after a successful
    [copyout] of [src], [copyin] of the same range returns 0 and exactly [src]. *)
Theorem copyin_copyout (kend root va : Z) (src : list Z) (s s' : kmem) (l : list Z)
    (Hend : KERNBASE ≤ kend) (Hus : uspace kend s root l) (Hva : 0 ≤ va < 2 ^ 64)
    (Ho : copyout root va src s = Ok 0 s') :
  copyin root va (Z.of_nat (length src)) s' = Ok (0, src) s'.
Proof. by apply (copyin_after_copyout kend root va src s s' l). Qed.

Lemma copyin_copyout_witness :
  copyin demo_root 4090 10 demo_written = Ok (0, demo_bytes) demo_written.
Proof.
  destruct demo_parent_ok as (l & Hus & _).
  apply (copyin_copyout demo_kend demo_root 4090 demo_bytes demo_parent demo_written l
    demo_kend_ok Hus); [lia|].
  destruct (wp_inv _ _ _ (copyout_spec demo_kend demo_kend_ok demo_root 4090 demo_bytes demo_parent l
    Hus ltac:(lia))) as (r & s' & He & _).
  pose proof demo_copyout as Hv. unfold demo_written. rewrite He in Hv |- *. simpl in Hv. subst r.
  reflexivity.
Defined.
