(* ===== verification/Isa.v ===== *)
(** * Isa: a hart as kernel/riscv.h and the assembly files see it

    The general registers, the control and status registers, the privilege mode
    and the memory of a hart; address translation by Sv39 page tables and
    physical memory protection; the accessors of kernel/riscv.h; the
    instructions that the assembly files use, with what they do by the RISC-V
    manual.  An access or an instruction that would trap has no result.

    Not modelled: the accessed and dirty bits of page-table entries, the TLB
    ([sfence.vma] does nothing, translation always reads the tables), MPRV, which
    the kernel never sets, and more than one entry of the memory protection. *)
From stdpp Require Import functions.
From S2P Require Import Prelude Riscv CString Kalloc Vm.

(** ** Registers *)

Inductive xreg : Type :=
| ZERO | RA | SP | GP | TP | T0 | T1 | T2 | S0 | S1 | A0 | A1 | A2 | A3 | A4 | A5 | A6 | A7
| S2 | S3 | S4 | S5 | S6 | S7 | S8 | S9 | S10 | S11 | T3 | T4 | T5 | T6.
#[export] Instance xreg_eq_dec : EqDecision xreg.
Proof. solve_decision. Defined.

Inductive csr : Type :=
| CSR_mhartid | CSR_mstatus | CSR_mepc | CSR_mie | CSR_mip | CSR_medeleg | CSR_mideleg | CSR_menvcfg | CSR_mcounteren | CSR_pmpcfg0 | CSR_pmpaddr0
| CSR_sstatus | CSR_sie | CSR_sip | CSR_sepc | CSR_stvec | CSR_stimecmp | CSR_satp | CSR_scause | CSR_stval | CSR_sscratch | CSR_time.
#[export] Instance csr_eq_dec : EqDecision csr.
Proof. solve_decision. Defined.

Inductive priv : Type := PrvU | PrvS | PrvM.

Record mach : Type := mkMach { regs : xreg → Z; pc : Z; prv : priv; csrs : csr → Z; ram : mem }.

Definition set_regs (f : xreg → Z) (s : mach) : mach := mkMach f (pc s) (prv s) (csrs s) (ram s).
Definition set_pc (a : Z) (s : mach) : mach := mkMach (regs s) a (prv s) (csrs s) (ram s).
Definition set_prv (p : priv) (s : mach) : mach := mkMach (regs s) (pc s) p (csrs s) (ram s).
Definition set_csrs (f : csr → Z) (s : mach) : mach := mkMach (regs s) (pc s) (prv s) f (ram s).
Definition set_ram (m : mem) (s : mach) : mach := mkMach (regs s) (pc s) (prv s) (csrs s) m.

Definition get_x (r : xreg) (s : mach) : Z := regs s r.
(** Writes to [zero] have no effect. *)
Definition put_x (r : xreg) (v : Z) (s : mach) : mach :=
  match r with ZERO => s | _ => set_regs (<[r := u64 v]> (regs s)) s end.

(** ** Status bits *)

Definition MSTATUS_MPP_MASK : Z := Z.shiftl 3 11.
Definition MSTATUS_MPP_M : Z := Z.shiftl 3 11.
Definition MSTATUS_MPP_S : Z := Z.shiftl 1 11.
Definition MSTATUS_MPP_U : Z := Z.shiftl 0 11.
Definition MSTATUS_MIE : Z := Z.shiftl 1 3.
Definition MSTATUS_MPIE : Z := Z.shiftl 1 7.
Definition SSTATUS_UPIE : Z := Z.shiftl 1 4.
Definition SSTATUS_UIE : Z := Z.shiftl 1 0.
Definition SSTATUS_SUM : Z := Z.shiftl 1 18.
Definition SSTATUS_MXR : Z := Z.shiftl 1 19.
Definition SIE_SEIE : Z := Z.shiftl 1 9.
Definition SIE_STIE : Z := Z.shiftl 1 5.
Definition SIE_SSIE : Z := Z.shiftl 1 1.
Definition MIE_STIE : Z := Z.shiftl 1 5.

(** The bits of [mstatus] that [sstatus] shows: SIE, SPIE, UBE, SPP, VS, FS, XS,
    SUM, MXR, UXL and SD. *)
Definition SSTATUS_VIEW : Z := 2 ^ 1 + 2 ^ 5 + 2 ^ 6 + 2 ^ 8 + 3 * 2 ^ 9 + 3 * 2 ^ 13 + 3 * 2 ^ 15 + 2 ^ 18 + 2 ^ 19 + 3 * 2 ^ 32 + 2 ^ 63.

(** ** Control and status registers: [sstatus], [sie] and [sip] are views of
    machine-mode registers; the low bit of the exception program counters is 0,
    and an [ecall] from machine mode cannot be delegated. *)

Definition merge (mask old new : Z) : Z := Z.lor (Z.ldiff old mask) (Z.land new mask).

Definition csr_get (c : csr) (f : csr → Z) : Z :=
  match c with
  | CSR_sstatus => Z.land (f CSR_mstatus) SSTATUS_VIEW
  | CSR_sie => Z.land (f CSR_mie) (f CSR_mideleg)
  | CSR_sip => Z.land (f CSR_mip) (f CSR_mideleg)
  | _ => f c
  end.

Definition csr_put (c : csr) (v : Z) (f : csr → Z) : csr → Z :=
  match c with
  | CSR_mhartid | CSR_time => f
  | CSR_sstatus => <[CSR_mstatus := merge SSTATUS_VIEW (f CSR_mstatus) v]> f
  | CSR_sie => <[CSR_mie := merge (f CSR_mideleg) (f CSR_mie) v]> f
  | CSR_sip => <[CSR_mip := merge (Z.land (f CSR_mideleg) SIE_SSIE) (f CSR_mip) v]> f
  | CSR_mepc | CSR_sepc => <[c := Z.ldiff v 1]> f
  | CSR_medeleg => <[c := Z.ldiff v (2 ^ 11)]> f
  | _ => <[c := v]> f
  end.

(** Which registers a mode may use: the timer registers are open to supervisor
    mode when machine mode says so. *)
Definition time_open (f : csr → Z) : bool := has (f CSR_mcounteren) 2.
Definition csr_ok (p : priv) (f : csr → Z) (c : csr) : bool :=
  match p, c with
  | PrvM, _ => true
  | PrvU, _ => false
  | PrvS, (CSR_sstatus | CSR_sie | CSR_sip | CSR_sepc | CSR_stvec | CSR_satp | CSR_scause | CSR_stval | CSR_sscratch) => true
  | PrvS, CSR_time => time_open f
  | PrvS, CSR_stimecmp => time_open f && has (f CSR_menvcfg) (2 ^ 63)
  | PrvS, _ => false
  end.

Definition csrr (c : csr) : M mach Z := λ s, if csr_ok (prv s) (csrs s) c then Ok (csr_get c (csrs s)) s else Undef.
Definition csrw (c : csr) (v : Z) : M mach unit := λ s,
  if csr_ok (prv s) (csrs s) c then Ok tt (set_csrs (csr_put c (u64 v) (csrs s)) s) else Undef.

(** ** The accessors of kernel/riscv.h *)

Definition r_mhartid : M mach Z := csrr CSR_mhartid.
Definition r_mstatus : M mach Z := csrr CSR_mstatus.
Definition w_mstatus (x : Z) : M mach unit := csrw CSR_mstatus x.
Definition w_mepc (x : Z) : M mach unit := csrw CSR_mepc x.
Definition r_sstatus : M mach Z := csrr CSR_sstatus.
Definition w_sstatus (x : Z) : M mach unit := csrw CSR_sstatus x.
Definition r_sip : M mach Z := csrr CSR_sip.
Definition w_sip (x : Z) : M mach unit := csrw CSR_sip x.
Definition r_sie : M mach Z := csrr CSR_sie.
Definition w_sie (x : Z) : M mach unit := csrw CSR_sie x.
Definition r_mie : M mach Z := csrr CSR_mie.
Definition w_mie (x : Z) : M mach unit := csrw CSR_mie x.
Definition w_sepc (x : Z) : M mach unit := csrw CSR_sepc x.
Definition r_sepc : M mach Z := csrr CSR_sepc.
Definition r_medeleg : M mach Z := csrr CSR_medeleg.
Definition w_medeleg (x : Z) : M mach unit := csrw CSR_medeleg x.
Definition r_mideleg : M mach Z := csrr CSR_mideleg.
Definition w_mideleg (x : Z) : M mach unit := csrw CSR_mideleg x.
Definition w_stvec (x : Z) : M mach unit := csrw CSR_stvec x.
Definition r_stvec : M mach Z := csrr CSR_stvec.
Definition r_stimecmp : M mach Z := csrr CSR_stimecmp.
Definition w_stimecmp (x : Z) : M mach unit := csrw CSR_stimecmp x.
Definition r_menvcfg : M mach Z := csrr CSR_menvcfg.
Definition w_menvcfg (x : Z) : M mach unit := csrw CSR_menvcfg x.
Definition w_pmpcfg0 (x : Z) : M mach unit := csrw CSR_pmpcfg0 x.
Definition w_pmpaddr0 (x : Z) : M mach unit := csrw CSR_pmpaddr0 x.
Definition w_satp (x : Z) : M mach unit := csrw CSR_satp x.
Definition r_satp : M mach Z := csrr CSR_satp.
Definition r_scause : M mach Z := csrr CSR_scause.
Definition r_stval : M mach Z := csrr CSR_stval.
Definition w_mcounteren (x : Z) : M mach unit := csrw CSR_mcounteren x.
Definition r_mcounteren : M mach Z := csrr CSR_mcounteren.
Definition r_time : M mach Z := csrr CSR_time.
Definition intr_on : M mach unit := do x <- r_sstatus; w_sstatus (Z.lor x SSTATUS_SIE).
Definition intr_off : M mach unit := do x <- r_sstatus; w_sstatus (Z.ldiff x SSTATUS_SIE).
Definition intr_get : M mach bool := do x <- r_sstatus; ret (has x SSTATUS_SIE).
Definition r_sp : M mach Z := gets (get_x SP).
Definition r_fp : M mach Z := gets (get_x S0).
Definition r_tp : M mach Z := gets (get_x TP).
Definition w_tp (x : Z) : M mach unit := modify (put_x TP x).
Definition r_ra : M mach Z := gets (get_x RA).
Definition sfence_vma : M mach unit := ret tt.

(** ** Address translation *)

Inductive access : Type := Fetch | Load | Store.

(** The leaf entry of [va] in the table at [table], and its level. *)
Fixpoint sv39_walk (level : nat) (m : mem) (table va : Z) : option (Z * nat) :=
  let pte := load64 m (slot table (PX (Z.of_nat level) va)) in
  if negb (has pte PTE_V) || (2 ^ 54 <=? pte) || (has pte PTE_W && negb (has pte PTE_R)) then None
  else if has pte PTE_R || has pte PTE_X then Some (pte, level)
  else match level with O => None | S level' => sv39_walk level' m (PTE2PA pte) va end.

(** A page that has the user bit is for user mode; supervisor mode may load and
    store there when [sstatus] says so. *)
Definition leaf_allows (p : priv) (status pte : Z) (k : access) : bool :=
  (if has pte PTE_U then
     match p, k with PrvU, _ => true | _, Fetch => false | _, _ => has status SSTATUS_SUM end
   else match p with PrvU => false | _ => true end) &&
  match k with
  | Fetch => has pte PTE_X
  | Load => has pte PTE_R || (has status SSTATUS_MXR && has pte PTE_X)
  | Store => has pte PTE_W
  end.

Definition sv39 (p : priv) (f : csr → Z) (m : mem) (k : access) (va : Z) : option Z :=
  if (0 <=? va) && (va <? 2 ^ 38) || (2 ^ 64 - 2 ^ 38 <=? va) && (va <? 2 ^ 64) then
    match sv39_walk 2 m (Z.shiftl (f CSR_satp mod 2 ^ 44) 12) va with
    | None => None
    | Some (pte, level) =>
        let size := 2 ^ (12 + 9 * Z.of_nat level) in
        if leaf_allows p (f CSR_mstatus) pte k && (PTE2PA pte mod size =? 0) then Some (PTE2PA pte + va mod size) else None
    end
  else None.

(** Entry 0 of the physical memory protection, as a range that ends at its
    address (TOR). *)
Definition pmp_ok (p : priv) (f : csr → Z) (k : access) (pa size : Z) : bool :=
  match p with
  | PrvM => true
  | _ => (Z.land (f CSR_pmpcfg0) 24 =? 8) && (0 <=? pa) && (pa + size <=? 4 * f CSR_pmpaddr0) &&
         has (f CSR_pmpcfg0) (match k with Load => 1 | Store => 2 | Fetch => 4 end)
  end.

Definition translate (p : priv) (f : csr → Z) (m : mem) (k : access) (va size : Z) : option Z :=
  if negb (va mod size =? 0) then None
  else
    match (match p with
           | PrvM => Some va
           | _ => if Z.shiftr (f CSR_satp) 60 =? 0 then Some va
                  else if Z.shiftr (f CSR_satp) 60 =? 8 then sv39 p f m k va else None
           end) with
    | Some pa => if pmp_ok p f k pa size then Some pa else None
    | None => None
    end.

(** ** Instructions *)

(** [li] and [la] stand for the sequence of instructions that loads a constant,
    and [call] for the jump-and-link; each counts as one instruction. *)
Inductive instr : Type :=
| LI (rd : xreg) (v : Z)
| ADDI (rd rs : xreg) (v : Z)
| ADD (rd rs1 rs2 : xreg)
| MUL (rd rs1 rs2 : xreg)
| SD (rs : xreg) (off : Z) (base : xreg)
| LD (rd : xreg) (off : Z) (base : xreg)
| CSRR (rd : xreg) (c : csr)
| CSRW (c : csr) (rs : xreg)
| JAL (target : Z)
| J (target : Z)
| JR (rs : xreg)
| SFENCE_VMA
| ECALL
| SRET
| MRET.

Definition next (s : mach) : mach := set_pc (u64 (pc s + 4)) s.

(** [v] with the bits of [mask] replaced by [b]. *)
Definition with_bit (v mask : Z) (b : bool) : Z := if b then Z.lor v mask else Z.ldiff v mask.

Definition mpp (status : Z) : priv :=
  match Z.land (Z.shiftr status 11) 3 with 0 => PrvU | 1 => PrvS | _ => PrvM end.

Definition mret (s : mach) : mach :=
  let st := csrs s CSR_mstatus in
  let st' := Z.ldiff (with_bit (with_bit st MSTATUS_MIE (has st MSTATUS_MPIE)) MSTATUS_MPIE true) MSTATUS_MPP_MASK in
  mkMach (regs s) (csrs s CSR_mepc) (mpp st) (<[CSR_mstatus := st']> (csrs s)) (ram s).

Definition sret (s : mach) : mach :=
  let st := csrs s CSR_mstatus in
  let st' := Z.ldiff (with_bit (with_bit st SSTATUS_SIE (has st SSTATUS_SPIE)) SSTATUS_SPIE true) SSTATUS_SPP in
  mkMach (regs s) (csrs s CSR_sepc) (if has st SSTATUS_SPP then PrvS else PrvU) (<[CSR_mstatus := st']> (csrs s)) (ram s).

(** A trap that is taken in supervisor mode. *)
Definition trap (cause : Z) (s : mach) : mach :=
  let st := csrs s CSR_mstatus in
  let st' := with_bit (with_bit (with_bit st SSTATUS_SPIE (has st SSTATUS_SIE)) SSTATUS_SIE false) SSTATUS_SPP
    (match prv s with PrvU => false | _ => true end) in
  mkMach (regs s) (csrs s CSR_stvec - csrs s CSR_stvec mod 4) PrvS
    (<[CSR_mstatus := st']> (<[CSR_scause := cause]> (<[CSR_sepc := pc s]> (csrs s)))) (ram s).

Definition execute (i : instr) (s : mach) : option mach :=
  match i with
  | LI rd v => Some (next (put_x rd v s))
  | ADDI rd rs v => Some (next (put_x rd (get_x rs s + v) s))
  | ADD rd rs1 rs2 => Some (next (put_x rd (get_x rs1 s + get_x rs2 s) s))
  | MUL rd rs1 rs2 => Some (next (put_x rd (get_x rs1 s * get_x rs2 s) s))
  | SD rs off base =>
      match translate (prv s) (csrs s) (ram s) Store (u64 (get_x base s + off)) 8 with
      | Some pa => Some (next (set_ram (store64 (ram s) pa (get_x rs s)) s))
      | None => None
      end
  | LD rd off base =>
      match translate (prv s) (csrs s) (ram s) Load (u64 (get_x base s + off)) 8 with
      | Some pa => Some (next (put_x rd (load64 (ram s) pa) s))
      | None => None
      end
  | CSRR rd c => if csr_ok (prv s) (csrs s) c then Some (next (put_x rd (csr_get c (csrs s)) s)) else None
  | CSRW c rs => if csr_ok (prv s) (csrs s) c then Some (next (set_csrs (csr_put c (get_x rs s) (csrs s)) s)) else None
  | JAL target => Some (set_pc (u64 target) (put_x RA (pc s + 4) s))
  | J target => Some (set_pc (u64 target) s)
  | JR rs => Some (set_pc (Z.ldiff (get_x rs s) 1) s)
  | SFENCE_VMA => match prv s with PrvU => None | _ => Some (next s) end
  | ECALL => match prv s with PrvU => if has (csrs s CSR_medeleg) (2 ^ 8) then Some (trap 8 s) else None | _ => None end
  | SRET => match prv s with PrvU => None | _ => Some (sret s) end
  | MRET => match prv s with PrvM => Some (mret s) | _ => None end
  end.

(** [code] is what the physical memory holds as instructions. *)
Definition fetch (code : Z → option instr) (s : mach) : option instr :=
  match translate (prv s) (csrs s) (ram s) Fetch (pc s) 4 with Some pa => code pa | None => None end.
Definition step (code : Z → option instr) (s : mach) : option mach :=
  match fetch code s with Some i => execute i s | None => None end.
Fixpoint run (code : Z → option instr) (n : nat) (s : mach) : option mach :=
  match n with O => Some s | S n => match step code s with Some s' => run code n s' | None => None end end.

(** The listing [l] is loaded at [pa]. *)
Definition loaded (code : Z → option instr) (pa : Z) (l : list instr) : Prop :=
  ∀ i ins, l !! i = Some ins → code (pa + 4 * Z.of_nat i) = Some ins.

(** ** Width: what a hart can hold *)

Definition w64 (x : Z) : Prop := 0 ≤ x < 2 ^ 64.

Lemma w64_bits x : w64 x ↔ 0 ≤ x ∧ ∀ k, 64 ≤ k → Z.testbit x k = false.
Proof.
  unfold w64. split.
  - intros [H0 H1]. split; [done|]. intros k Hk. destruct (decide (x = 0)) as [->|]; [apply Z.bits_0|].
    apply Z.bits_above_log2; [done|]. apply Z.log2_lt_pow2; [lia|]. eapply Z.lt_le_trans; [exact H1|]. apply Z.pow_le_mono_r; lia.
  - intros [H0 H1]. split; [done|]. destruct (decide (x = 0)) as [->|]; [lia|]. apply Z.log2_lt_pow2; [lia|].
    destruct (Z.lt_ge_cases (Z.log2 x) 64) as [|Hge]; [done|]. pose proof (Z.bit_log2 x ltac:(lia)). rewrite (H1 _ Hge) in H. done.
Qed.

Lemma w64_lor x y : w64 x → w64 y → w64 (Z.lor x y).
Proof. apply lor_range. lia. Qed.

Lemma w64_land x y : w64 x → 0 ≤ y → w64 (Z.land x y).
Proof.
  intros [H0 H1]%w64_bits Hy. apply w64_bits. split; [apply Z.land_nonneg; lia|]. intros k Hk. by rewrite Z.land_spec, H1.
Qed.

Lemma w64_ldiff x y : w64 x → w64 (Z.ldiff x y).
Proof.
  intros [H0 H1]%w64_bits. apply w64_bits. split; [apply Z.ldiff_nonneg; lia|]. intros k Hk. by rewrite Z.ldiff_spec, H1.
Qed.

Lemma w64_u64 x : w64 (u64 x).
Proof. apply u64_range. Qed.

Create HintDb width.
#[export] Hint Resolve w64_lor w64_land w64_ldiff w64_u64 : width.

(** Registers, control registers and the program counter have 64 bits, [zero] is 0,
    memory holds bytes. *)
Record mach_ok (s : mach) : Prop := {
  mo_regs : ∀ r, w64 (regs s r);
  mo_zero : regs s ZERO = 0;
  mo_pc : w64 (pc s);
  mo_csrs : ∀ c, w64 (csrs s c);
  mo_ram : ∀ x, 0 ≤ ram s x < 256;
}.

Lemma csr_put_ok c v f : w64 v → (∀ c, w64 (f c)) → ∀ c', w64 (csr_put c v f c').
Proof.
  intros Hv Hf c'. assert (Hi : ∀ c0 x, w64 x → w64 ((<[c0 := x]> f : csr → Z) c'))
    by (intros c0 x Hx; destruct (decide (c0 = c')) as [<-|]; [by rewrite fn_lookup_insert|by rewrite fn_lookup_insert_ne]).
  assert (Hn : ∀ c, 0 ≤ f c) by (intros c0; apply Hf).
  assert (Hm : ∀ c0 mask, 0 ≤ mask → w64 (merge mask (f c0) v)) by (intros; unfold merge; auto with width).
  destruct c; cbn [csr_put]; try apply Hf; apply Hi; auto with width; apply Hm; try done. apply Z.land_nonneg. by left.
Qed.

Lemma csr_get_ok c f : (∀ c, w64 (f c)) → w64 (csr_get c f).
Proof. intros Hf. destruct c; cbn [csr_get]; try apply Hf; apply w64_land; try apply Hf; done. Qed.

Lemma put_x_ok r v s : mach_ok s → mach_ok (put_x r v s).
Proof.
  intros [H1 H2 H3 H4 H5]. destruct (decide (r = ZERO)) as [->|Hr]; [done|].
  replace (put_x r v s) with (set_regs (<[r := u64 v]> (regs s)) s) by (by destruct r). split; [|by cbn [set_regs regs]; rewrite fn_lookup_insert_ne|done..].
  intros r'. cbn [set_regs regs]. destruct (decide (r = r')) as [<-|]; [rewrite fn_lookup_insert; apply w64_u64|by rewrite fn_lookup_insert_ne].
Qed.

Lemma set_pc_ok a s : w64 a → mach_ok s → mach_ok (set_pc a s).
Proof. by intros Ha [H1 H2 H3 H4 H5]. Qed.

Lemma next_ok s : mach_ok s → mach_ok (next s).
Proof. apply set_pc_ok, w64_u64. Qed.

Lemma store64_byte m a v : (∀ x, 0 ≤ m x < 256) → ∀ x, 0 ≤ store64 m a v x < 256.
Proof.
  intros Hm x. unfold store64. destruct (decide (a ≤ x < a + 8)) as [Hx|Hx].
  - replace x with (a + Z.of_nat (Z.to_nat (x - a))) by lia. destruct (lookup_lt_is_Some_2 (le_bytes 8 v) (Z.to_nat (x - a))) as [b Hb]; [rewrite length_le_bytes; lia|].
    rewrite (write_bytes_in _ _ _ _ _ Hb). eapply (Forall_lookup_1 _ _ _ _ (le_bytes_byte 8 v) Hb).
  - rewrite write_bytes_out; [apply Hm|]. by rewrite length_le_bytes.
Qed.

Lemma with_bit_ok v mask b : w64 v → w64 mask → w64 (with_bit v mask b).
Proof. destruct b; cbn; auto with width. Qed.
#[export] Hint Resolve with_bit_ok put_x_ok next_ok : width.

Lemma status_ok f c v : (∀ c, w64 (f c)) → w64 v → ∀ c', w64 ((<[c := v]> f : csr → Z) c').
Proof. intros Hf Hv c'. destruct (decide (c = c')) as [<-|]; [by rewrite fn_lookup_insert|by rewrite fn_lookup_insert_ne]. Qed.

Lemma return_ok s p a st : mach_ok s → w64 a → w64 st → mach_ok (mkMach (regs s) a p (<[CSR_mstatus := st]> (csrs s)) (ram s)).
Proof. intros [H1 H2 H3 H4 H5] Ha Hst. split; try done. by apply status_ok. Qed.

Lemma mret_ok s : mach_ok s → mach_ok (mret s).
Proof. intros Hs. apply return_ok; [done|apply Hs|]. apply w64_ldiff, with_bit_ok; [|done]. apply with_bit_ok; [apply Hs|done]. Qed.

Lemma sret_ok s : mach_ok s → mach_ok (sret s).
Proof. intros Hs. apply return_ok; [done|apply Hs|]. apply w64_ldiff, with_bit_ok; [|done]. apply with_bit_ok; [apply Hs|done]. Qed.

Lemma trap_ok cause s : w64 cause → mach_ok s → mach_ok (trap cause s).
Proof.
  intros Hc [H1 H2 H3 H4 H5]. assert (Hst : w64 (csrs s CSR_stvec - csrs s CSR_stvec mod 4)) by (pose proof (H4 CSR_stvec); unfold w64 in *; zdm).
  split; try done; unfold trap; cbn [csrs]. apply status_ok; [|repeat (apply with_bit_ok; [|done]); apply H4]. by repeat (apply status_ok; [|done]).
Qed.

Lemma execute_ok i s s' : mach_ok s → execute i s = Some s' → mach_ok s'.
Proof.
  intros Hs He. destruct i; cbn [execute] in He; try (injection He as <-; auto with width; fail).
  - destruct (translate _ _ _ _ _ _); [|done]. injection He as <-. apply next_ok. destruct Hs as [H1 H2 H3 H4 H5]. split; try done. by apply store64_byte.
  - destruct (translate _ _ _ _ _ _); [|done]. injection He as <-. auto with width.
  - destruct (csr_ok _ _ _); [|done]. injection He as <-. auto with width.
  - destruct (csr_ok _ _ _); [|done]. injection He as <-. apply next_ok. destruct Hs as [H1 H2 H3 H4 H5]. split; try done. apply csr_put_ok; [apply H1|done].
  - injection He as <-. apply set_pc_ok; [apply w64_u64|exact (put_x_ok RA _ s Hs)].
  - injection He as <-. apply set_pc_ok; auto with width.
  - injection He as <-. apply set_pc_ok; [|done]. apply w64_ldiff, Hs.
  - destruct (prv s); [done|..]; injection He as <-; auto with width.
  - destruct (prv s); [|done..]. destruct (has _ _); [|done]. injection He as <-. by apply trap_ok.
  - destruct (prv s); [done|..]; injection He as <-; by apply sret_ok.
  - destruct (prv s); [done..|]. injection He as <-; by apply mret_ok.
Qed.


