(* ===== verification/Asm.v ===== *)
(** * Asm: the assembly files

    kernel/entry.S, swtch.S, kernelvec.S and trampoline.S, user/initcode.S and
    the stubs that user/usys.pl writes, as listings for the hart of Isa.v, and
    what they do: which registers are where when they end.  The addresses that the
    linker chooses are arguments. *)
From stdpp Require Import functions.
From S2P Require Import Prelude Riscv CString Kalloc Vm Isa.

(** ** Listings *)

Definition entry (stack0 start spin : Z) : list instr :=
  [LI SP stack0; LI A0 (1024 * 4); CSRR A1 CSR_mhartid; ADDI A1 A1 1; MUL A0 A0 A1; ADD SP SP A0; JAL start; J spin].

Definition swtch : list instr :=
  [SD RA 0 A0; SD SP 8 A0; SD S0 16 A0; SD S1 24 A0; SD S2 32 A0; SD S3 40 A0; SD S4 48 A0; SD S5 56 A0; SD S6 64 A0;
   SD S7 72 A0; SD S8 80 A0; SD S9 88 A0; SD S10 96 A0; SD S11 104 A0;
   LD RA 0 A1; LD SP 8 A1; LD S0 16 A1; LD S1 24 A1; LD S2 32 A1; LD S3 40 A1; LD S4 48 A1; LD S5 56 A1; LD S6 64 A1;
   LD S7 72 A1; LD S8 80 A1; LD S9 88 A1; LD S10 96 A1; LD S11 104 A1;
   JR RA].

Definition kernelvec (kerneltrap : Z) : list instr :=
  [ADDI SP SP (-256);
   SD RA 0 SP; SD SP 8 SP; SD GP 16 SP; SD TP 24 SP; SD T0 32 SP; SD T1 40 SP; SD T2 48 SP;
   SD A0 72 SP; SD A1 80 SP; SD A2 88 SP; SD A3 96 SP; SD A4 104 SP; SD A5 112 SP; SD A6 120 SP; SD A7 128 SP;
   SD T3 216 SP; SD T4 224 SP; SD T5 232 SP; SD T6 240 SP;
   JAL kerneltrap;
   LD RA 0 SP; LD SP 8 SP; LD GP 16 SP; LD T0 32 SP; LD T1 40 SP; LD T2 48 SP;
   LD A0 72 SP; LD A1 80 SP; LD A2 88 SP; LD A3 96 SP; LD A4 104 SP; LD A5 112 SP; LD A6 120 SP; LD A7 128 SP;
   LD T3 216 SP; LD T4 224 SP; LD T5 232 SP; LD T6 240 SP;
   ADDI SP SP 256;
   SRET].

Definition uservec : list instr :=
  [CSRW CSR_sscratch A0; LI A0 TRAPFRAME;
   SD RA 40 A0; SD SP 48 A0; SD GP 56 A0; SD TP 64 A0; SD T0 72 A0; SD T1 80 A0; SD T2 88 A0; SD S0 96 A0; SD S1 104 A0;
   SD A1 120 A0; SD A2 128 A0; SD A3 136 A0; SD A4 144 A0; SD A5 152 A0; SD A6 160 A0; SD A7 168 A0;
   SD S2 176 A0; SD S3 184 A0; SD S4 192 A0; SD S5 200 A0; SD S6 208 A0; SD S7 216 A0; SD S8 224 A0; SD S9 232 A0;
   SD S10 240 A0; SD S11 248 A0; SD T3 256 A0; SD T4 264 A0; SD T5 272 A0; SD T6 280 A0;
   CSRR T0 CSR_sscratch; SD T0 112 A0;
   LD SP 8 A0; LD TP 32 A0; LD T0 16 A0; LD T1 0 A0;
   SFENCE_VMA; CSRW CSR_satp T1; SFENCE_VMA; JR T0].

Definition userret : list instr :=
  [SFENCE_VMA; CSRW CSR_satp A0; SFENCE_VMA; LI A0 TRAPFRAME;
   LD RA 40 A0; LD SP 48 A0; LD GP 56 A0; LD TP 64 A0; LD T0 72 A0; LD T1 80 A0; LD T2 88 A0; LD S0 96 A0; LD S1 104 A0;
   LD A1 120 A0; LD A2 128 A0; LD A3 136 A0; LD A4 144 A0; LD A5 152 A0; LD A6 160 A0; LD A7 168 A0;
   LD S2 176 A0; LD S3 184 A0; LD S4 192 A0; LD S5 200 A0; LD S6 208 A0; LD S7 216 A0; LD S8 224 A0; LD S9 232 A0;
   LD S10 240 A0; LD S11 248 A0; LD T3 256 A0; LD T4 264 A0; LD T5 272 A0; LD T6 280 A0;
   LD A0 112 A0;
   SRET].

(** The page at TRAMPOLINE: [uservec] at its start, then [userret]. *)
Definition trampoline_page : list instr := uservec ++ userret.
Definition userret_off : Z := 4 * Z.of_nat (length uservec).

(** The first user program: exec of [init] with [argv], then exit for ever;
    [start] is where it is loaded. *)
Definition initcode_asm (start init argv : Z) : list instr :=
  [LI A0 init; LI A1 argv; LI A7 7; ECALL; LI A7 2; ECALL; JAL (start + 16)].

(** The stub of the system call [num]. *)
Definition usys_stub (num : Z) : list instr := [LI A7 num; ECALL; JR RA].

(** ** Saving and loading a list of registers *)

Definition saves (b : xreg) (l : list (xreg * Z)) : list instr := (λ '(r, o), SD r o b) <$> l.
Definition loads (b : xreg) (l : list (xreg * Z)) : list instr := (λ '(r, o), LD r o b) <$> l.

Fixpoint save_all (m : mem) (pa : Z) (f : xreg → Z) (l : list (xreg * Z)) : mem :=
  match l with [] => m | (r, o) :: l => save_all (store64 m (pa + o) (f r)) pa f l end.
Fixpoint load_all (m : mem) (pa : Z) (f : xreg → Z) (l : list (xreg * Z)) : xreg → Z :=
  match l with [] => f | (r, o) :: l => load_all m pa (<[r := u64 (load64 m (pa + o))]> f) l end.

(** Offsets of an area of [n] bytes, one per register. *)
Definition offsets_ok (n : Z) (l : list (xreg * Z)) : Prop :=
  NoDup l.*1 ∧ NoDup l.*2 ∧ Forall (λ '(r, o), 0 ≤ o ∧ o + 8 ≤ n ∧ o mod 8 = 0 ∧ r ≠ ZERO) l.

Lemma offsets_ok_cons n r o l : offsets_ok n ((r, o) :: l) →
  offsets_ok n l ∧ r ∉ l.*1 ∧ o ∉ l.*2 ∧ 0 ≤ o ∧ o + 8 ≤ n ∧ o mod 8 = 0 ∧ r ≠ ZERO.
Proof. intros ([? ?]%NoDup_cons & [? ?]%NoDup_cons & [(? & ? & ? & ?) ?]%Forall_cons). by repeat split. Qed.

Lemma save_all_out m pa f l n x : offsets_ok n l → ¬ (pa ≤ x < pa + n) → save_all m pa f l x = m x.
Proof.
  revert m. induction l as [|[r o] l IH]; intros m Hok Hx; [done|]. apply offsets_ok_cons in Hok as (Hok & _ & _ & ? & ? & _).
  cbn [save_all]. rewrite IH by done. apply store64_out. lia.
Qed.

Lemma load_save_other m pa f l n o : offsets_ok n l → o mod 8 = 0 → o ∉ l.*2 →
  load64 (save_all m pa f l) (pa + o) = load64 m (pa + o).
Proof.
  revert m. induction l as [|[r o'] l IH]; intros m Hok Ho Hn; [done|]. apply offsets_ok_cons in Hok as (Hok & _ & _ & ? & ? & ? & _).
  apply not_elem_of_cons in Hn as [Hne Hn]. cbn [fst snd save_all] in *. rewrite IH by done. apply load64_store64_ne. zdm.
Qed.

Lemma load_save m pa f l n r o : offsets_ok n l → (r, o) ∈ l → load64 (save_all m pa f l) (pa + o) = u64 (f r).
Proof.
  revert m. induction l as [|[r' o'] l IH]; intros m Hok Hin; [by apply not_elem_of_nil in Hin|].
  apply offsets_ok_cons in Hok as (Hok & _ & Hn & ? & ? & ? & _). cbn [save_all]. apply elem_of_cons in Hin as [[= <- <-]|Hin]; [|by apply IH].
  rewrite (load_save_other _ _ _ _ n) by done. apply load64_store64.
Qed.

Lemma load_all_other m pa f l r : r ∉ l.*1 → load_all m pa f l r = f r.
Proof.
  revert f. induction l as [|[r' o] l IH]; intros f Hn; [done|]. apply not_elem_of_cons in Hn as [Hne Hn]. cbn [fst snd load_all] in *.
  rewrite IH by done. by rewrite fn_lookup_insert_ne.
Qed.

Lemma load_all_in m pa f l n r o : offsets_ok n l → (r, o) ∈ l → load_all m pa f l r = u64 (load64 m (pa + o)).
Proof.
  revert f. induction l as [|[r' o'] l IH]; intros f Hok Hin; [by apply not_elem_of_nil in Hin|].
  apply offsets_ok_cons in Hok as (Hok & Hn & _). cbn [load_all]. apply elem_of_cons in Hin as [[= <- <-]|Hin]; [|by apply IH].
  rewrite load_all_other by done. by rewrite fn_lookup_insert.
Qed.

(** ** Running a listing *)

Lemma run_add code n k s : run code (n + k) s = run code n s ≫= run code k.
Proof. revert s. induction n as [|n IH]; intros s; [done|]. cbn. destruct (step code s); [apply IH|done]. Qed.

Lemma run_then code n k s s' : run code n s = Some s' → run code (n + k) s = run code k s'.
Proof. intros H. by rewrite run_add, H. Qed.

Lemma loaded_cons code pa i l : loaded code pa (i :: l) → code pa = Some i ∧ loaded code (pa + 4) l.
Proof.
  intros H. split; [specialize (H 0%nat i eq_refl); by rewrite Z.mul_0_r, Z.add_0_r in H|]. intros j ins Hj.
  specialize (H (S j) ins Hj). rewrite <- H. f_equal. lia.
Qed.

Lemma loaded_app code pa l1 l2 : loaded code pa (l1 ++ l2) → loaded code pa l1 ∧ loaded code (pa + 4 * Z.of_nat (length l1)) l2.
Proof.
  intros H. split.
  - intros i ins Hi. apply H. by apply lookup_app_l_Some.
  - intros i ins Hi. specialize (H (length l1 + i)%nat ins). rewrite lookup_app_r, Nat.add_comm, Nat.add_sub in H by lia.
    rewrite <- H by done. f_equal. lia.
Qed.

(** The registers that translation reads. *)
Definition same_mmu (f g : csr → Z) : Prop :=
  f CSR_satp = g CSR_satp ∧ f CSR_mstatus = g CSR_mstatus ∧ f CSR_pmpcfg0 = g CSR_pmpcfg0 ∧ f CSR_pmpaddr0 = g CSR_pmpaddr0.

Lemma translate_same p f g m k va n : same_mmu f g → translate p f m k va n = translate p g m k va n.
Proof. intros (H1 & H2 & H3 & H4). unfold translate, sv39, pmp_ok. by rewrite H1, H2, H3, H4. Qed.

Lemma same_mmu_scratch f v : same_mmu (<[CSR_sscratch := v]> f) f.
Proof. repeat split; by apply fn_lookup_insert_ne. Qed.

Section Run.
Context (code : Z → option instr).

(** In mode [p] with registers [cs], the listing [l] is executed at [c], as long as
    the memory satisfies [P]. *)
Record runs_at (p : priv) (cs : csr → Z) (P : mem → Prop) (c ca : Z) (l : list instr) : Prop := {
  ra_loaded : loaded code ca l;
  ra_fetch : ∀ m i, P m → 0 ≤ i < Z.of_nat (length l) → translate p cs m Fetch (c + 4 * i) 4 = Some (ca + 4 * i);
  ra_low : 0 ≤ c;
  ra_high : c + 4 * Z.of_nat (length l) < 2 ^ 64;
}.

(** The words of the [n] bytes at [base] are those at [pa]. *)
Definition sees (p : priv) (cs : csr → Z) (P : mem → Prop) (k : access) (base pa n : Z) : Prop :=
  ∀ m o, P m → 0 ≤ o → o + 8 ≤ n → o mod 8 = 0 → translate p cs m k (base + o) 8 = Some (pa + o).

Lemma runs_at_csr p cs cs' P c ca l : same_mmu cs' cs → runs_at p cs P c ca l → runs_at p cs' P c ca l.
Proof. intros Hs [H1 H2 H3 H4]. split; try done. intros m i Hm Hi. rewrite (translate_same _ _ _ _ _ _ _ Hs). by apply H2. Qed.

Lemma sees_csr p cs cs' P k base pa n : same_mmu cs' cs → sees p cs P k base pa n → sees p cs' P k base pa n.
Proof. intros Hs H m o ????. rewrite (translate_same _ _ _ _ _ _ _ Hs). by apply H. Qed.

Lemma runs_at_app p cs P c ca l1 l2 : runs_at p cs P c ca (l1 ++ l2) →
  runs_at p cs P c ca l1 ∧ runs_at p cs P (c + 4 * Z.of_nat (length l1)) (ca + 4 * Z.of_nat (length l1)) l2.
Proof.
  intros [H1 H2 H3 H4]. apply loaded_app in H1 as [Ha Hb]. rewrite length_app in H2, H4. split; split; try done; try lia.
  - intros m i Hm Hi. apply H2; [done|lia].
  - intros m i Hm Hi. rewrite <- !Z.add_assoc, <- Z.mul_add_distr_l. apply H2; [done|lia].
Qed.

Lemma runs_at_cons p cs P c ca i l : runs_at p cs P c ca (i :: l) → runs_at p cs P (c + 4) (ca + 4) l.
Proof. intros H. by apply (runs_at_app p cs P c ca [i] l) in H as [_ ?]. Qed.

Lemma runs_at_step p cs P c ca i l f m s n :
  runs_at p cs P c ca (i :: l) → P m → execute i (mkMach f c p cs m) = Some s →
  run code (S n) (mkMach f c p cs m) = run code n s.
Proof.
  intros [H1 H2 H3 H4] Hm He. apply loaded_cons in H1 as [Hc _]. specialize (H2 m 0 Hm). cbn [length] in H2.
  rewrite Z.mul_0_r, !Z.add_0_r in H2. cbn [run]. unfold step, fetch. cbn [prv csrs ram pc]. rewrite H2 by lia. by rewrite Hc, He.
Qed.

Lemma runs_at_next p cs P c ca i l : runs_at p cs P c ca (i :: l) → u64 (c + 4) = c + 4.
Proof. intros [_ _ H3 H4]. cbn [length] in H4. apply u64_id. lia. Qed.

Lemma run_saves p cs P c ca b base pa n l f m :
  runs_at p cs P c ca (saves b l) → sees p cs P Store base pa n → (∀ m o v, P m → 0 ≤ o → o + 8 ≤ n → P (store64 m (pa + o) v)) →
  offsets_ok n l → f b = base → 0 ≤ base → base + n ≤ 2 ^ 64 → P m →
  run code (length l) (mkMach f c p cs m) = Some (mkMach f (c + 4 * Z.of_nat (length l)) p cs (save_all m pa f l)) ∧ P (save_all m pa f l).
Proof.
  intros Hr Hs HP Hok Hb H0 H1. revert c ca m Hr Hok. induction l as [|[r o] l IH]; intros c ca m Hr Hok Hm.
  { cbn [length run save_all]. by rewrite Z.mul_0_r, Z.add_0_r. }
  apply offsets_ok_cons in Hok as (Hok & _ & _ & Ho & Ho' & Ha & _). cbn [length save_all].
  assert (Hm' : P (store64 m (pa + o) (f r))) by (by apply HP).
  destruct (IH (c + 4) (ca + 4) _ (runs_at_cons _ _ _ _ _ _ _ Hr) Hok Hm') as [Hrun HPl]. split; [|done].
  rewrite (runs_at_step p cs P c ca (SD r o b) (saves b l) f m (mkMach f (c + 4) p cs (store64 m (pa + o) (f r)))); [|done..|].
  - rewrite Hrun. do 2 f_equal. lia.
  - cbn [execute]. unfold get_x. cbn [regs prv csrs ram]. rewrite Hb, u64_id by lia. rewrite Hs by done.
    unfold next, set_ram, set_pc. cbn [regs pc prv csrs ram]. by rewrite (runs_at_next _ _ _ _ _ _ _ Hr).
Qed.

Lemma put_x_eq r v s : r ≠ ZERO → put_x r v s = set_regs (<[r := u64 v]> (regs s)) s.
Proof. by destruct r. Qed.

Lemma run_loads p cs P c ca b base pa n l f m :
  runs_at p cs P c ca (loads b l) → sees p cs P Load base pa n → offsets_ok n l →
  (∀ o, (b, o) ∈ l → u64 (load64 m (pa + o)) = base) → f b = base → 0 ≤ base → base + n ≤ 2 ^ 64 → P m →
  run code (length l) (mkMach f c p cs m) = Some (mkMach (load_all m pa f l) (c + 4 * Z.of_nat (length l)) p cs m).
Proof.
  intros Hr Hs Hok Hl Hb H0 H1 Hm. revert c ca f Hr Hok Hl Hb. induction l as [|[r o] l IH]; intros c ca f Hr Hok Hl Hb.
  { cbn [length run load_all]. by rewrite Z.mul_0_r, Z.add_0_r. }
  apply offsets_ok_cons in Hok as (Hok & _ & _ & Ho & Ho' & Ha & Hz). cbn [length load_all].
  rewrite (runs_at_step p cs P c ca (LD r o b) (loads b l) f m (mkMach (<[r := u64 (load64 m (pa + o))]> f) (c + 4) p cs m)); [|done..|].
  - rewrite (IH (c + 4) (ca + 4)); [do 2 f_equal; lia|by eapply runs_at_cons|done| |].
    + intros o' Hin. apply Hl. by apply elem_of_cons; right.
    + destruct (decide (r = b)) as [->|]; [|by rewrite fn_lookup_insert_ne]. rewrite fn_lookup_insert. apply Hl. by apply elem_of_cons; left.
  - cbn [execute]. unfold get_x. cbn [regs prv csrs ram]. rewrite Hb, u64_id by lia. rewrite Hs by done. rewrite put_x_eq by done.
    unfold next, set_regs, set_pc. cbn [regs pc prv csrs ram]. by rewrite (runs_at_next _ _ _ _ _ _ _ Hr).
Qed.
End Run.

Ltac offsets := split; [|split]; [apply (bool_decide_unpack _); vm_compute; exact I..|repeat constructor; lia || discriminate].
(** One instruction that is not a load or a store; [H] is then about the rest. *)
Ltac instr H HP :=
  rewrite (runs_at_step _ _ _ _ _ _ _ _ _ _ _ _ H HP eq_refl); unfold next, set_pc, put_x, set_regs, set_csrs, get_x;
  cbn [regs pc prv csrs ram csr_put]; try rewrite (runs_at_next _ _ _ _ _ _ _ _ H); apply runs_at_cons in H.
Ltac member := repeat (first [apply list_elem_of_here | apply list_elem_of_further]).

(** ** swtch *)

(** struct context: the registers that a function must preserve. *)
Definition ctx_regs : list (xreg * Z) :=
  [(RA, 0); (SP, 8); (S0, 16); (S1, 24); (S2, 32); (S3, 40); (S4, 48); (S5, 56); (S6, 64); (S7, 72); (S8, 80); (S9, 88); (S10, 96); (S11, 104)].
Definition ctx_size : Z := 112.

Lemma swtch_eq : swtch = saves A0 ctx_regs ++ loads A1 ctx_regs ++ [JR RA].
Proof. reflexivity. Qed.

Lemma ctx_ok : offsets_ok ctx_size ctx_regs.
Proof. unfold ctx_size, ctx_regs. offsets. Qed.

Definition fits (base n : Z) : Prop := 0 ≤ base ∧ base + n ≤ 2 ^ 64.

Lemma run_swtch code p cs P c ca old new f m :
  runs_at code p cs P c ca swtch →
  sees p cs P Store (f A0) old ctx_size → (∀ m o v, P m → 0 ≤ o → o + 8 ≤ ctx_size → P (store64 m (old + o) v)) →
  sees p cs P Load (f A1) new ctx_size → fits (f A0) ctx_size → fits (f A1) ctx_size → P m →
  let m' := save_all m old f ctx_regs in let g := load_all m' new f ctx_regs in
  run code (length swtch) (mkMach f c p cs m) = Some (mkMach g (Z.ldiff (g RA) 1) p cs m') ∧ P m'.
Proof.
  intros Hr Hs HP Hl [] [] Hm m' g. rewrite swtch_eq in Hr. apply runs_at_app in Hr as [Hr1 Hr]. apply runs_at_app in Hr as [Hr2 Hr3].
  destruct (run_saves code p cs P c ca A0 (f A0) old ctx_size ctx_regs f m Hr1 Hs HP ctx_ok) as [R1 HP1]; try done.
  change (length swtch) with (length ctx_regs + (length ctx_regs + 1))%nat. rewrite (run_then _ _ _ _ _ R1).
  erewrite run_then by (eapply run_loads; [exact Hr2|exact Hl|exact ctx_ok| |done..]; intros o Ho; repeat (apply elem_of_cons in Ho as [?|Ho]; [congruence|]); by apply not_elem_of_nil in Ho).
  split; [|done]. rewrite (runs_at_step _ _ _ _ _ _ _ _ _ _ _ _ Hr3 HP1 eq_refl). reflexivity.
Qed.

(** A thread that called [swtch] in a state with registers [f], leaving its context
    at [old], is resumed by the [swtch] that loads from there. *)
Lemma resume m0 m f g n : (∀ x, n ≤ x < n + ctx_size → m x = save_all m0 n f ctx_regs x) →
  ∀ r, r ∈ ctx_regs.*1 → load_all m n g ctx_regs r = u64 (f r).
Proof.
  intros Hm r ([r' o] & -> & Hin)%list_elem_of_fmap. cbn [fst]. rewrite (load_all_in _ _ _ _ ctx_size _ _ ctx_ok Hin).
  pose proof (proj2 (proj2 ctx_ok)) as Hall. apply (proj1 (Forall_forall _ _) Hall) in Hin as Ho. cbn in Ho.
  rewrite (load64_ext m (save_all m0 n f ctx_regs)); [|intros x Hx; apply Hm; lia].
  rewrite (load_save _ _ _ _ ctx_size r' o) by (done || apply ctx_ok). apply u64_id, u64_range.
Qed.

(** ** kernelvec *)

Definition kv_size : Z := 256.
Definition kv_load : list (xreg * Z) :=
  [(RA, 0); (SP, 8); (GP, 16); (T0, 32); (T1, 40); (T2, 48); (A0, 72); (A1, 80); (A2, 88); (A3, 96); (A4, 104); (A5, 112); (A6, 120); (A7, 128);
   (T3, 216); (T4, 224); (T5, 232); (T6, 240)].
Definition kv_save : list (xreg * Z) :=
  [(RA, 0); (SP, 8); (GP, 16); (TP, 24); (T0, 32); (T1, 40); (T2, 48); (A0, 72); (A1, 80); (A2, 88); (A3, 96); (A4, 104); (A5, 112); (A6, 120); (A7, 128);
   (T3, 216); (T4, 224); (T5, 232); (T6, 240)].
Definition saved_regs : list xreg := [S0; S1; S2; S3; S4; S5; S6; S7; S8; S9; S10; S11].

Lemma kernelvec_eq kt : kernelvec kt = (ADDI SP SP (-256) :: saves SP kv_save) ++ [JAL kt] ++ loads SP kv_load ++ [ADDI SP SP 256; SRET].
Proof. reflexivity. Qed.

Lemma kv_save_ok : offsets_ok kv_size kv_save.
Proof. unfold kv_size, kv_save. offsets. Qed.
Lemma kv_load_ok : offsets_ok kv_size kv_load.
Proof. unfold kv_size, kv_load. offsets. Qed.

Lemma run_kernelvec_in code kt cs P c ca f m fr :
  runs_at code PrvS cs P c ca (kernelvec kt) → fits (f SP - kv_size) kv_size →
  sees PrvS cs P Store (f SP - kv_size) fr kv_size → (∀ m o v, P m → 0 ≤ o → o + 8 ≤ kv_size → P (store64 m (fr + o) v)) → P m →
  let f1 := <[SP := f SP - kv_size]> f in
  run code 21 (mkMach f c PrvS cs m) =
    Some (mkMach (<[RA := c + 84]> f1) (u64 kt) PrvS cs (save_all m fr f1 kv_save)) ∧ P (save_all m fr f1 kv_save).
Proof.
  intros Hr [H0 H1] Hs HP Hm f1. rewrite kernelvec_eq in Hr. apply runs_at_app in Hr as [Hr1 Hr]. apply runs_at_app in Hr as [Hr2 _].
  change 21%nat with (S (length kv_save + 1)). cbn [app] in Hr1. rewrite (runs_at_step _ _ _ _ _ _ _ _ _ _ _ _ Hr1 Hm eq_refl).
  unfold next, put_x, set_regs, set_pc, get_x. cbn [regs pc prv csrs ram]. rewrite (runs_at_next _ _ _ _ _ _ _ _ Hr1).
  replace (u64 (f SP + -256)) with (f SP - kv_size) by (unfold kv_size in *; rewrite u64_id; lia). fold f1. apply runs_at_cons in Hr1.
  destruct (run_saves code PrvS cs P (c + 4) (ca + 4) SP (f SP - kv_size) fr kv_size kv_save f1 m Hr1 Hs HP kv_save_ok) as [R1 HP1]; try done.
  rewrite (run_then _ _ _ _ _ R1). split; [|done]. cbn [length] in Hr2 |- *. cbn [length app] in Hr2.
  replace (c + 4 + 4 * Z.of_nat (length kv_save)) with (c + 4 * Z.of_nat (S (length (saves SP kv_save)))) by (cbn; lia).
  rewrite (runs_at_step _ _ _ _ _ _ _ _ _ _ _ _ Hr2 HP1 eq_refl). cbn [run]. unfold put_x, set_regs, set_pc. cbn [regs pc prv csrs ram].
  destruct Hr2 as [_ _ L0 L1]. cbn [length] in L1. 
  by replace (u64 (c + 4 * Z.of_nat (S (length (saves SP kv_save))) + 4)) with (c + 84) by (rewrite u64_id; cbn in *; lia).
Qed.

Lemma run_kernelvec_out code kt cs P c ca f m0 g m fr :
  runs_at code PrvS cs P c ca (kernelvec kt) → fits (f SP - kv_size) kv_size →
  sees PrvS cs P Load (f SP - kv_size) fr kv_size → P m →
  let f1 := <[SP := f SP - kv_size]> f in
  (∀ x, fr ≤ x < fr + kv_size → m x = save_all m0 fr f1 kv_save x) → g SP = f1 SP → (∀ r, r ∈ saved_regs → g r = f r) →
  (∀ r, 0 ≤ f r < 2 ^ 64) → f ZERO = 0 → g ZERO = 0 →
  ∃ h, run code 20 (mkMach g (c + 84) PrvS cs m) = Some (sret (mkMach h (c + 160) PrvS cs m)) ∧ h TP = g TP ∧ ∀ r, r ≠ TP → h r = f r.
Proof.
  intros Hr [H0 H1] Hl Hm f1 Hfr Hsp Hsv Hf Hfz Hgz. rewrite kernelvec_eq in Hr. apply runs_at_app in Hr as [_ Hr].
  apply runs_at_app in Hr as [_ Hr]. apply runs_at_app in Hr as [Hr1 Hr2]. cbn [length app] in Hr1, Hr2.
  assert (E1 : c + 4 * Z.of_nat (S (length (saves SP kv_save))) + 4 * Z.of_nat 1 = c + 84) by (cbn; lia).
  rewrite E1 in Hr1, Hr2. assert (E2 : c + 84 + 4 * Z.of_nat (length (loads SP kv_load)) = c + 156) by (cbn; lia). rewrite E2 in Hr2.
  assert (Hw : ∀ r o, (r, o) ∈ kv_load → u64 (load64 m (fr + o)) = f1 r).
  { intros r o Hin. pose proof (proj1 (Forall_forall _ _) (proj2 (proj2 kv_load_ok)) _ Hin) as Ho. cbn in Ho.
    rewrite (load64_ext m (save_all m0 fr f1 kv_save)); [|intros x Hx; apply Hfr; lia].
    rewrite (load_save _ _ _ _ kv_size r o kv_save_ok).
    - rewrite u64_id by apply u64_range. apply u64_id. unfold f1. destruct (decide (r = SP)) as [->|]; [rewrite fn_lookup_insert; pose proof (Hf SP); unfold kv_size in *; lia|].
      by rewrite fn_lookup_insert_ne.
    - unfold kv_load in Hin. repeat (apply elem_of_cons in Hin as [[= -> ->]|Hin]; [member|]). by apply not_elem_of_nil in Hin. }
  change 20%nat with (length kv_load + 2)%nat. pose proof (fn_lookup_insert f SP (f SP - kv_size)) as Hf1. fold f1 in Hf1.
  rewrite (run_then _ _ _ _ _ (run_loads code PrvS cs P (c + 84) _ SP (f SP - kv_size) fr kv_size kv_load g m Hr1 Hl kv_load_ok
    (λ o Ho, eq_trans (Hw SP o Ho) Hf1) (eq_trans Hsp Hf1) H0 H1 Hm)).
  change (c + 84 + 4 * Z.of_nat (length kv_load)) with (c + 84 + 4 * Z.of_nat (length (loads SP kv_load))). rewrite E2.
  set (h0 := load_all m fr g kv_load) in *.
  assert (Hh : ∀ r o, (r, o) ∈ kv_load → h0 r = f1 r).
  { intros r o Hin. unfold h0. rewrite (load_all_in _ _ _ _ kv_size r o kv_load_ok Hin). by apply Hw. }
  assert (Ho : ∀ r, r ∉ kv_load.*1 → h0 r = g r) by (intros r Hn; unfold h0; by apply load_all_other).
  rewrite (runs_at_step _ _ _ _ _ _ _ _ _ _ _ _ Hr2 Hm eq_refl).
  unfold next, put_x, set_regs, set_pc, get_x. cbn [regs pc prv csrs ram]. rewrite (runs_at_next _ _ _ _ _ _ _ _ Hr2). apply runs_at_cons in Hr2.
  replace (c + 156 + 4) with (c + 160) by lia. replace (c + 156 + 4) with (c + 160) in Hr2 by lia.
  rewrite (runs_at_step _ _ _ _ _ _ _ _ _ _ _ _ Hr2 Hm eq_refl). eexists. split; [reflexivity|].
  assert (Hs : u64 (h0 SP + 256) = f SP) by (rewrite (Hh SP 8) by (unfold kv_load; member); rewrite Hf1; pose proof (Hf SP); unfold kv_size in *; rewrite u64_id; lia).
  split.
  - rewrite fn_lookup_insert_ne by done. apply Ho. apply (bool_decide_unpack _). vm_compute. exact I.
  - intros r Hr. destruct (decide (r = SP)) as [->|Hn]; [by rewrite fn_lookup_insert|]. rewrite fn_lookup_insert_ne by done.
    assert (Hf1r : f1 r = f r) by (unfold f1; by rewrite fn_lookup_insert_ne).
    destruct r; try done;
      first [ rewrite <- Hf1r; eapply Hh; unfold kv_load; member; fail
            | rewrite Ho by (apply (bool_decide_unpack _); vm_compute; exact I); first [by rewrite Hgz, Hfz | apply Hsv; unfold saved_regs; member] ].
Qed.

(** ** trampoline.S *)

(** Where the trapframe keeps the user registers; [a0] is handled apart. *)
Definition tf_regs : list (xreg * Z) :=
  [(RA, 40); (SP, 48); (GP, 56); (TP, 64); (T0, 72); (T1, 80); (T2, 88); (S0, 96); (S1, 104); (A1, 120); (A2, 128); (A3, 136); (A4, 144);
   (A5, 152); (A6, 160); (A7, 168); (S2, 176); (S3, 184); (S4, 192); (S5, 200); (S6, 208); (S7, 216); (S8, 224); (S9, 232); (S10, 240);
   (S11, 248); (T3, 256); (T4, 264); (T5, 272); (T6, 280)].
Definition tf_all : list (xreg * Z) := tf_regs ++ [(A0, 112)].
Definition tf_kernel : list (xreg * Z) := [(SP, 8); (TP, 32); (T0, 16); (T1, 0)].
Definition tf_size : Z := 288.

Lemma uservec_eq : uservec = [CSRW CSR_sscratch A0; LI A0 TRAPFRAME] ++ saves A0 tf_regs ++ [CSRR T0 CSR_sscratch] ++ saves A0 [(T0, 112)] ++
  loads A0 tf_kernel ++ [SFENCE_VMA; CSRW CSR_satp T1] ++ [SFENCE_VMA; JR T0].
Proof. reflexivity. Qed.

Lemma userret_eq : userret = [SFENCE_VMA; CSRW CSR_satp A0] ++ [SFENCE_VMA; LI A0 TRAPFRAME] ++ loads A0 tf_regs ++ [LD A0 112 A0] ++ [SRET].
Proof. reflexivity. Qed.

Lemma tf_regs_ok : offsets_ok tf_size tf_regs.
Proof. unfold tf_size, tf_regs. offsets. Qed.
Lemma tf_all_ok : offsets_ok tf_size tf_all.
Proof. unfold tf_size, tf_all, tf_regs. cbn [app]. offsets. Qed.
Lemma tf_kernel_ok : offsets_ok tf_size tf_kernel.
Proof. unfold tf_size, tf_kernel. offsets. Qed.
Lemma tf_a0_ok : offsets_ok tf_size [(T0, 112)].
Proof. unfold tf_size. offsets. Qed.

Lemma save_all_ext m pa f g l : (∀ r, r ∈ l.*1 → f r = g r) → save_all m pa f l = save_all m pa g l.
Proof.
  revert m. induction l as [|[r o] l IH]; intros m H; [done|]. cbn [save_all]. rewrite (H r) by (cbn; apply elem_of_cons; by left).
  apply IH. intros r' Hr. apply H. cbn. apply elem_of_cons. by right.
Qed.

Lemma save_all_app m pa f l1 l2 : save_all m pa f (l1 ++ l2) = save_all (save_all m pa f l1) pa f l2.
Proof. revert m. induction l1 as [|[r o] l1 IH]; intros m; [done|]. apply IH. Qed.

Lemma fits_trapframe : fits TRAPFRAME tf_size.
Proof. done. Qed.

(** What [uservec] leaves: the user registers in the trapframe at [tf], the
    kernel's stack, hart number and page table installed, and [kernel_trap] next. *)
Definition uservec_regs (m : mem) (tf : Z) (f : xreg → Z) : xreg → Z := load_all m tf (<[T0 := f A0]> (<[A0 := TRAPFRAME]> f)) tf_kernel.
Definition uservec_csrs (m : mem) (tf : Z) (f : xreg → Z) (cs : csr → Z) : csr → Z :=
  <[CSR_satp := u64 (load64 m tf)]> (<[CSR_sscratch := f A0]> cs).

(** Up to the last of the stores. *)
Lemma run_uservec_saves code cs P c ca f m tf :
  (∀ r, 0 ≤ f r < 2 ^ 64) → runs_at code PrvS cs P c ca uservec → sees PrvS cs P Store TRAPFRAME tf tf_size →
  (∀ m o v, P m → 0 ≤ o → o + 8 ≤ tf_size → P (store64 m (tf + o) v)) → P m →
  let m' := save_all m tf f tf_all in let cs1 := <[CSR_sscratch := f A0]> cs in
  run code 34 (mkMach f c PrvS cs m) = Some (mkMach (<[T0 := f A0]> (<[A0 := TRAPFRAME]> f)) (c + 136) PrvS cs1 m') ∧ P m' ∧
  runs_at code PrvS cs1 P (c + 136) (ca + 136) (loads A0 tf_kernel ++ [SFENCE_VMA; CSRW CSR_satp T1] ++ [SFENCE_VMA; JR T0]).
Proof.
  intros Hf Hr Hst HP Hm m' cs1. destruct fits_trapframe as [F0 F1]. rewrite uservec_eq in Hr.
  assert (Hs1 : same_mmu cs1 cs) by apply same_mmu_scratch.
  change 34%nat with (S (S (length tf_regs + S (length [(T0, 112)] + 0))))%nat. apply runs_at_app in Hr as [Hr1 Hr]. set (f1 := <[A0 := TRAPFRAME]> f).
  instr Hr1 Hm. fold cs1. apply (runs_at_csr _ _ _ cs1) in Hr1, Hr; [|done..]. instr Hr1 Hm. clear Hr1.
  change (u64 TRAPFRAME) with TRAPFRAME. fold f1. cbn [length] in Hr.
  replace (c + 4 * Z.of_nat 2) with (c + 4 + 4) in Hr by lia. apply runs_at_app in Hr as [Hr1 Hr]. apply (sees_csr _ _ cs1) in Hst; [|done].
  destruct (run_saves code PrvS cs1 P _ _ A0 TRAPFRAME tf tf_size tf_regs f1 m Hr1 Hst HP tf_regs_ok) as [R1 HP1]; try done.
  rewrite (run_then _ _ _ _ _ R1). clear R1 Hr1. change (length (saves A0 tf_regs)) with (length tf_regs) in Hr. apply runs_at_app in Hr as [Hr1 Hr].
  instr Hr1 HP1. clear Hr1. cbn [length] in Hr. change (4 * Z.of_nat 1) with 4 in Hr. cbn [csr_get].
  replace (cs1 CSR_sscratch) with (f A0) by (unfold cs1; by rewrite fn_lookup_insert). rewrite (u64_id (f A0)) by apply Hf.
  set (f2 := <[T0 := f A0]> f1). apply runs_at_app in Hr as [Hr1 Hr].
  destruct (run_saves code PrvS cs1 P _ _ A0 TRAPFRAME tf tf_size [(T0, 112)] f2 (save_all m tf f1 tf_regs) Hr1 Hst HP tf_a0_ok) as [R1 HP2]; try done.
  rewrite (run_then _ _ _ _ _ R1). clear R1 Hr1.
  assert (Em : save_all (save_all m tf f1 tf_regs) tf f2 [(T0, 112)] = m').
  { unfold m', tf_all. rewrite save_all_app, (save_all_ext m tf f1 f tf_regs); [cbn [save_all]; f_equal; unfold f2; by rewrite fn_lookup_insert|].
    intros r Hin. unfold f1. apply fn_lookup_insert_ne. intros <-. revert Hin. apply (bool_decide_unpack _). vm_compute. exact I. }
  rewrite Em in HP2 |- *. cbn [run]. split; [do 2 f_equal; cbn; lia|]. split; [done|].
  match type of Hr with runs_at _ _ _ _ ?a ?b _ => replace a with (c + 136) in Hr by (cbn; lia); replace b with (ca + 136) in Hr by (cbn; lia) end. done.
Qed.

Lemma run_uservec code cs P c ca f m tf :
  (∀ r, 0 ≤ f r < 2 ^ 64) → runs_at code PrvS cs P c ca uservec →
  sees PrvS cs P Store TRAPFRAME tf tf_size → sees PrvS cs P Load TRAPFRAME tf tf_size →
  (∀ m o v, P m → 0 ≤ o → o + 8 ≤ tf_size → P (store64 m (tf + o) v)) → P m →
  let m' := save_all m tf f tf_all in
  runs_at code PrvS (uservec_csrs m' tf f cs) P c ca uservec →
  run code (length uservec) (mkMach f c PrvS cs m) =
    Some (mkMach (uservec_regs m' tf f) (Z.ldiff (u64 (load64 m' (tf + 16))) 1) PrvS (uservec_csrs m' tf f cs) m') ∧ P m'.
Proof.
  intros Hf Hr Hst Hld HP Hm m' Hk. destruct fits_trapframe as [F0 F1].
  destruct (run_uservec_saves code cs P c ca f m tf Hf Hr Hst HP Hm) as (R1 & HP1 & Hr1). fold m' in R1, HP1. split; [|done].
  set (cs1 := <[CSR_sscratch := f A0]> cs) in *. assert (Hs1 : same_mmu cs1 cs) by apply same_mmu_scratch. apply (sees_csr _ _ cs1) in Hld; [|done].
  change (length uservec) with (34 + (length tf_kernel + 4))%nat. rewrite (run_then _ _ _ _ _ R1). clear R1 Hr. apply runs_at_app in Hr1 as [Hr1 Hr].
  erewrite run_then by (eapply run_loads; [exact Hr1|exact Hld|exact tf_kernel_ok| |done..]; intros o Ho;
    repeat (apply elem_of_cons in Ho as [?|Ho]; [congruence|]); by apply not_elem_of_nil in Ho).
  clear Hr1. change (length (loads A0 tf_kernel)) with (length tf_kernel) in Hr. apply runs_at_app in Hr as [Hr _].
  change (load_all m' tf _ tf_kernel) with (uservec_regs m' tf f). instr Hr HP1. instr Hr HP1. clear Hr.
  assert (Et : ∀ r o, (r, o) ∈ tf_kernel → uservec_regs m' tf f r = u64 (load64 m' (tf + o))) by (intros r o Ho; by apply (load_all_in _ _ _ _ tf_size r o tf_kernel_ok)).
  rewrite (Et T1 0) by member. rewrite Z.add_0_r. change (<[CSR_satp := u64 (load64 m' tf)]> cs1) with (uservec_csrs m' tf f cs).
  set (cs2 := uservec_csrs m' tf f cs) in *. rewrite uservec_eq in Hk. do 6 (apply runs_at_app in Hk as [_ Hk]). cbn [length] in Hk.
  match type of Hk with runs_at _ _ _ _ ?a _ _ => match goal with |- context [mkMach _ ?b _ cs2 _] => replace b with a by (cbn; lia) end end.
  instr Hk HP1. instr Hk HP1. cbn [run]. by rewrite (Et T0 16) by member.
Qed.

(** [userret] goes on in user space: the registers are those of the trapframe. *)
Lemma run_userret code cs P c ca g m tf :
  runs_at code PrvS cs P c ca userret →
  let cs' := <[CSR_satp := g A0]> cs in
  runs_at code PrvS cs' P c ca userret → sees PrvS cs' P Load TRAPFRAME tf tf_size → P m →
  ∃ h, run code (length userret) (mkMach g c PrvS cs m) = Some (sret (mkMach h (c + 140) PrvS cs' m)) ∧
    h ZERO = g ZERO ∧ ∀ r o, (r, o) ∈ tf_all → h r = u64 (load64 m (tf + o)).
Proof.
  intros Hr cs' Hu Hld Hm. destruct fits_trapframe as [F0 F1]. rewrite userret_eq in Hr, Hu.
  change (length userret) with (S (S (S (S (length tf_regs + 2))))). apply runs_at_app in Hr as [Hr _]. apply runs_at_app in Hu as [_ Hu].
  instr Hr Hm. instr Hr Hm. clear Hr. fold cs'. cbn [length] in Hu. replace (c + 4 * Z.of_nat 2) with (c + 4 + 4) in Hu by lia.
  apply runs_at_app in Hu as [Hr Hu]. instr Hr Hm. instr Hr Hm. clear Hr. change (u64 TRAPFRAME) with TRAPFRAME. cbn [length] in Hu.
  replace (c + 4 + 4 + 4 * Z.of_nat 2) with (c + 4 + 4 + 4 + 4) in Hu by lia. apply runs_at_app in Hu as [Hr Hu].
  erewrite run_then by (eapply run_loads; [exact Hr|exact Hld|exact tf_regs_ok| |by apply fn_lookup_insert|done..]; intros o Ho;
    repeat (apply elem_of_cons in Ho as [?|Ho]; [congruence|]); by apply not_elem_of_nil in Ho).
  clear Hr. change (length (loads A0 tf_regs)) with (length tf_regs) in Hu.
  set (h0 := load_all m tf (<[A0 := TRAPFRAME]> g) tf_regs).
  assert (Ha : h0 A0 = TRAPFRAME) by (unfold h0; rewrite load_all_other; [by apply fn_lookup_insert|apply (bool_decide_unpack _); vm_compute; exact I]).
  apply runs_at_app in Hu as [Hr Hu]. erewrite (runs_at_step _ _ _ _ _ _ _ _ _ _ _ _ Hr Hm).
  2: { cbn [execute]. unfold get_x. cbn [regs prv csrs ram]. rewrite Ha. change (u64 (TRAPFRAME + 112)) with (TRAPFRAME + 112).
       rewrite Hld by (done || lia). reflexivity. }
  unfold next, set_pc, put_x, set_regs. cbn [regs pc prv csrs ram]. rewrite (runs_at_next _ _ _ _ _ _ _ _ Hr). clear Hr.
  assert (Ec : c + 4 + 4 + 4 + 4 + 4 * Z.of_nat (length tf_regs) + 4 = c + 140) by (cbn; lia).
  cbn [length] in Hu. change (4 * Z.of_nat 1) with 4 in Hu. rewrite (runs_at_step _ _ _ _ _ _ _ _ _ _ _ _ Hu Hm eq_refl). cbn [run].
  exists (<[A0 := u64 (load64 m (tf + 112))]> h0). rewrite Ec. split; [reflexivity|]. split.
  - rewrite fn_lookup_insert_ne by done. unfold h0. rewrite load_all_other; [by apply fn_lookup_insert_ne|apply (bool_decide_unpack _); vm_compute; exact I].
  - intros r o Hin. apply elem_of_app in Hin as [Hin|[= -> ->]%list_elem_of_singleton]; [|by rewrite fn_lookup_insert].
    rewrite fn_lookup_insert_ne; [unfold h0; exact (load_all_in m tf _ tf_regs tf_size r o tf_regs_ok Hin)|]. intros <-. revert Hin. unfold tf_regs.
    intros Ho. repeat (apply elem_of_cons in Ho as [?|Ho]; [congruence|]). by apply not_elem_of_nil in Ho.
Qed.

(** ** Coming back *)

(** A [swtch] can run: it is at [c], the contexts that [a0] and [a1] point to are the
    memory at [old] and [new], and writing the first does not disturb [P], on which
    the translation depends. *)
Record can_switch (code : Z → option instr) (p : priv) (cs : csr → Z) (P : mem → Prop) (c ca old new : Z) (f : xreg → Z) (m : mem) : Prop := {
  cw_code : runs_at code p cs P c ca swtch;
  cw_old : sees p cs P Store (f A0) old ctx_size;
  cw_keep : ∀ m o v, P m → 0 ≤ o → o + 8 ≤ ctx_size → P (store64 m (old + o) v);
  cw_new : sees p cs P Load (f A1) new ctx_size;
  cw_fit0 : fits (f A0) ctx_size;
  cw_fit1 : fits (f A1) ctx_size;
  cw_mem : P m;
}.

Lemma switch_runs code p cs P c ca old new f m : can_switch code p cs P c ca old new f m →
  let m' := save_all m old f ctx_regs in let g := load_all m' new f ctx_regs in
  run code (length swtch) (mkMach f c p cs m) = Some (mkMach g (Z.ldiff (g RA) 1) p cs m').
Proof. intros [H1 H2 H3 H4 H5 H6 H7]. by apply (run_swtch code p cs P c ca old new f m). Qed.

Lemma ldiff_even x : x mod 2 = 0 → Z.ldiff x 1 = x.
Proof.
  intros Hx. apply Z.bits_inj'. intros n Hn. rewrite Z.ldiff_spec. destruct (decide (n = 0)) as [->|].
  - rewrite Z.bit0_odd, <- Z.negb_even. rewrite (proj2 (Z.even_spec x)); [done|]. exists (x / 2). zdm.
  - rewrite (Z.bits_above_log2 1 n); [by rewrite andb_true_r|lia|cbn; lia].
Qed.

(** C14: a thread that gives up the CPU by [swtch] comes back as if [swtch] had
    returned.  The first [swtch] ends, whatever the context it switches to, and
    changes no memory but the context of the thread.  When a later [swtch], by
    whatever hart, page table and thread, loads that context, unchanged, it ends at
    the return address of the first with [ra], [sp] and [s0] to [s11] as they were,
    which is what a caller of a C function relies on. *)
Theorem swtch_roundtrip (code : Z → option instr) (p1 p2 : priv) (cs1 cs2 : csr → Z) (P1 P2 : mem → Prop) (c1 c2 ca old new old2 : Z)
    (f g : xreg → Z) (m m2 : mem)
    (H1 : can_switch code p1 cs1 P1 c1 ca old new f m) (H2 : can_switch code p2 cs2 P2 c2 ca old2 old g m2)
    (Hd : old2 + ctx_size ≤ old ∨ old + ctx_size ≤ old2) (Hf : ∀ r, 0 ≤ f r < 2 ^ 64) (Hra : f RA mod 2 = 0) :
  ∃ s1, run code (length swtch) (mkMach f c1 p1 cs1 m) = Some s1 ∧ prv s1 = p1 ∧ csrs s1 = cs1 ∧
    (∀ x, ¬ (old ≤ x < old + ctx_size) → ram s1 x = m x) ∧
    ((∀ x, old ≤ x < old + ctx_size → m2 x = ram s1 x) →
     ∃ s2, run code (length swtch) (mkMach g c2 p2 cs2 m2) = Some s2 ∧ prv s2 = p2 ∧ csrs s2 = cs2 ∧ pc s2 = f RA ∧
       ∀ r, regs s2 r = if decide (r ∈ ctx_regs.*1) then f r else g r).
Proof.
  eexists. split; [exact (switch_runs _ _ _ _ _ _ _ _ _ _ H1)|]. split; [done|]. split; [done|]. cbn [ram].
  split; [intros x Hx; by apply (save_all_out _ _ _ _ ctx_size _ ctx_ok)|]. intros Hm. set (m' := save_all m2 old2 g ctx_regs).
  assert (Hres : ∀ r, r ∈ ctx_regs.*1 → load_all m' old g ctx_regs r = f r).
  { intros r Hr. rewrite (resume m m' f g old) by (done || (intros x Hx; unfold m'; rewrite (save_all_out _ _ _ _ ctx_size _ ctx_ok) by lia; by apply Hm)).
    by apply u64_id. }
  eexists. split; [exact (switch_runs _ _ _ _ _ _ _ _ _ _ H2)|]. cbn [prv csrs pc regs]. fold m'. split; [done|]. split; [done|].
  split; [rewrite Hres by (cbn; apply elem_of_cons; by left); by apply ldiff_even|]. intros r. case_decide; [by apply Hres|by apply load_all_other].
Qed.

(** ** Without paging *)

Definition open_bare (cs : csr → Z) : Prop := Z.shiftr (cs CSR_satp) 60 = 0 ∧ cs CSR_pmpcfg0 = 15 ∧ cs CSR_pmpaddr0 = 2 ^ 54 - 1.

Lemma translate_bare p cs m k va n : open_bare cs → va mod n = 0 → 0 ≤ va → va + n ≤ 2 ^ 56 - 4 → translate p cs m k va n = Some va.
Proof.
  intros (Hs & Hc & Ha) Hal H0 H1. unfold translate, pmp_ok. rewrite Hal, Hs, Hc, Ha. cbn [Z.eqb negb]. destruct p; [| |done];
    rewrite (proj2 (Z.leb_le 0 va)), (proj2 (Z.leb_le (va + n) (4 * (2 ^ 54 - 1)))) by lia; by destruct k.
Qed.

Lemma runs_at_bare code p cs P c l : open_bare cs → loaded code c l → c mod 4 = 0 → 0 ≤ c → c + 4 * Z.of_nat (length l) ≤ 2 ^ 56 - 4 → runs_at code p cs P c c l.
Proof. intros Hb Hl Hal H0 H1. split; [done| |done|lia]. intros m i _ Hi. apply translate_bare; [done|zdm|lia|lia]. Qed.

Lemma sees_bare p cs P k base n : open_bare cs → base mod 8 = 0 → 0 ≤ base → base + n ≤ 2 ^ 56 - 4 → sees p cs P k base base n.
Proof. intros Hb Hal H0 H1 m o _ ? ? ?. apply translate_bare; [done|zdm|lia|lia]. Qed.

(** Two threads with contexts at 4096 and 8192 and code at 1024. *)
Definition sw_code (pa : Z) : option instr := if pa <? 1024 then None else swtch !! Z.to_nat ((pa - 1024) / 4).
Definition sw_csrs : csr → Z := <[CSR_pmpcfg0 := 15]> (<[CSR_pmpaddr0 := 2 ^ 54 - 1]> (λ _, 0)).
Definition sw_thread (old new ra : Z) : xreg → Z := <[A0 := old]> (<[A1 := new]> (<[RA := ra]> (<[SP := 65536]> (<[S3 := 33]> (λ _, 0))))).

Lemma sw_loaded : loaded sw_code 1024 swtch.
Proof.
  intros i ins Hi. unfold sw_code. rewrite (proj2 (Z.ltb_ge _ _)) by lia. rewrite <- Hi. f_equal. zdm.
Qed.

Lemma sw_can old new ra m : old mod 8 = 0 → new mod 8 = 0 → 0 ≤ old ≤ 65536 → 0 ≤ new ≤ 65536 →
  can_switch sw_code PrvS sw_csrs (λ _, True) 1024 1024 old new (sw_thread old new ra) m.
Proof.
  intros Ho Hn Hor Hnr. assert (Hb : open_bare sw_csrs) by done. unfold sw_thread. split; try done; rewrite ?fn_lookup_insert.
  - apply runs_at_bare; [done|apply sw_loaded|done|done|done].
  - by apply sees_bare; unfold ctx_size; [..|lia|lia].
  - rewrite fn_lookup_insert_ne, fn_lookup_insert by done. by apply sees_bare; unfold ctx_size; [..|lia|lia].
  - unfold fits, ctx_size. lia.
  - rewrite fn_lookup_insert_ne, fn_lookup_insert by done. unfold fits, ctx_size. lia.
Qed.

Lemma swtch_roundtrip_witness : ∃ s1 s2, run sw_code 29 (mkMach (sw_thread 4096 8192 2048) 1024 PrvS sw_csrs (λ _, 0)) = Some s1 ∧
  run sw_code 29 (mkMach (sw_thread 8192 4096 3072) 1024 PrvS sw_csrs (ram s1)) = Some s2 ∧ pc s2 = 2048 ∧ regs s2 S3 = 33.
Proof.
  destruct (swtch_roundtrip sw_code PrvS PrvS sw_csrs sw_csrs (λ _, True) (λ _, True) 1024 1024 1024 4096 8192 8192 (sw_thread 4096 8192 2048) (sw_thread 8192 4096 3072) (λ _, 0)
    (save_all (λ _, 0) 4096 (sw_thread 4096 8192 2048) ctx_regs)) as (s1 & R1 & _ & _ & _ & Hback).
  - apply sw_can; lia || reflexivity.
  - apply sw_can; lia || reflexivity.
  - right. unfold ctx_size. lia.
  - intros []; vm_compute; (split; [discriminate|reflexivity]).
  - reflexivity.
  - assert (E : ram s1 = save_all (λ _, 0) 4096 (sw_thread 4096 8192 2048) ctx_regs).
    { rewrite (switch_runs _ _ _ _ _ _ _ _ _ _ (sw_can 4096 8192 2048 (λ _, 0) eq_refl eq_refl ltac:(lia) ltac:(lia))) in R1. by injection R1 as <-. }
    destruct Hback as (s2 & R2 & _ & _ & Hpc & Hregs); [intros x _; by rewrite E|]. exists s1, s2. rewrite E. split; [exact R1|]. split; [exact R2|].
    split; [exact Hpc|]. rewrite (Hregs S3). reflexivity.
Defined.

(** An interrupt in the kernel is invisible to the code that it interrupts:
    [kernelvec] calls [kerneltrap] with the frame saved below the stack, and when
    that returns by the calling convention, with the frame and [sp] and [s0] to
    [s11] as they were, on whatever hart, the interrupted code goes on at [sepc]
    with all its registers but [tp], which is the hart's. *)
Theorem kernelvec_transparent (code : Z → option instr) (kt c ca fr : Z) (cs cs2 : csr → Z) (P P2 : mem → Prop) (f : xreg → Z) (m : mem)
    (Hc : runs_at code PrvS cs P c ca (kernelvec kt)) (Hc2 : runs_at code PrvS cs2 P2 c ca (kernelvec kt))
    (Hfit : fits (f SP - kv_size) kv_size) (Hf : ∀ r, 0 ≤ f r < 2 ^ 64) (Hz : f ZERO = 0)
    (Hst : sees PrvS cs P Store (f SP - kv_size) fr kv_size) (Hld : sees PrvS cs2 P2 Load (f SP - kv_size) fr kv_size)
    (Hkeep : ∀ m o v, P m → 0 ≤ o → o + 8 ≤ kv_size → P (store64 m (fr + o) v)) (Hm : P m) :
  ∃ s1, run code 21 (mkMach f c PrvS cs m) = Some s1 ∧ pc s1 = u64 kt ∧ prv s1 = PrvS ∧ csrs s1 = cs ∧
    regs s1 RA = c + 84 ∧ regs s1 SP = f SP - kv_size ∧ (∀ x, ¬ (fr ≤ x < fr + kv_size) → ram s1 x = m x) ∧
    ∀ g m2, P2 m2 → (∀ x, fr ≤ x < fr + kv_size → m2 x = ram s1 x) → g SP = regs s1 SP → (∀ r, r ∈ saved_regs → g r = f r) → g ZERO = 0 →
      ∃ s2, run code 20 (mkMach g (regs s1 RA) PrvS cs2 m2) = Some s2 ∧ pc s2 = cs2 CSR_sepc ∧ ram s2 = m2 ∧
        prv s2 = (if has (cs2 CSR_mstatus) SSTATUS_SPP then PrvS else PrvU) ∧ ∀ r, regs s2 r = if decide (r = TP) then g TP else f r.
Proof.
  destruct (run_kernelvec_in code kt cs P c ca f m fr Hc Hfit Hst Hkeep Hm) as [R1 _]. set (f1 := <[SP := f SP - kv_size]> f) in *.
  eexists. split; [exact R1|]. cbn [pc prv csrs regs ram]. split; [done|]. split; [done|]. split; [done|]. rewrite fn_lookup_insert. split; [done|].
  assert (Hsp : f1 SP = f SP - kv_size) by (unfold f1; by rewrite fn_lookup_insert). rewrite fn_lookup_insert_ne by done. split; [done|].
  split; [intros x Hx; by apply (save_all_out _ _ _ _ kv_size _ kv_save_ok)|]. intros g m2 HP2 Hfr Hg Hsv Hgz.
  destruct (run_kernelvec_out code kt cs2 P2 c ca f m g m2 fr Hc2 Hfit Hld HP2 Hfr Hg Hsv Hf Hz Hgz) as (h & R2 & Htp & Hall).
  eexists. split; [exact R2|]. do 3 (split; [done|]). intros r. cbn [sret regs]. case_decide; [by subst|by apply Hall].
Qed.
