(* ===== verification/Mmu.v ===== *)
(** * Mmu: the page tables of Vm.v under the translation of Isa.v

    The tables that the kernel builds mean to the hardware what they mean to the
    kernel ([walk] and the walk of the hart find the same entry), and what follows
    for a program in user mode: it cannot leave its address space. *)
From stdpp Require Import functions.
From S2P Require Import Prelude Riscv CString Kalloc Vm VmSpec VmUser VmCopy Isa Asm.

(** ** satp *)

Lemma land_pow2_0 a b k : 0 ≤ k → 0 ≤ a < 2 ^ k → 0 ≤ b → Z.land (Z.shiftl b k) a = 0.
Proof.
  intros Hk Ha Hb. apply Z.bits_inj_0. intros n. rewrite Z.land_spec. destruct (Z.ltb_spec n k).
  - by rewrite Z.shiftl_spec_low by lia.
  - destruct (decide (a = 0)) as [->|]; [by rewrite Z.bits_0, andb_false_r|].
    rewrite (Z.bits_above_log2 a n), andb_false_r; [done|lia|]. apply Z.log2_lt_pow2; [lia|]. destruct Ha as [_ Ha].
    eapply Z.lt_le_trans; [exact Ha|]. apply Z.pow_le_mono_r; lia.
Qed.

Lemma MAKE_SATP_eq root : 0 ≤ root < 2 ^ 56 → MAKE_SATP root = 8 * 2 ^ 60 + root / 4096.
Proof.
  intros Hr. unfold MAKE_SATP, SATP_SV39. rewrite Z.shiftr_div_pow2 by lia. change (2 ^ 12) with 4096.
  rewrite <- Z.add_nocarry_lor; [rewrite Z.shiftl_mul_pow2 by lia; done|]. apply land_pow2_0; [lia|zdm|lia].
Qed.

Lemma satp_mode root : 0 ≤ root < 2 ^ 56 → Z.shiftr (MAKE_SATP root) 60 = 8.
Proof. intros Hr. rewrite MAKE_SATP_eq, Z.shiftr_div_pow2 by lia. zdm. Qed.

Lemma satp_root root : 0 ≤ root < 2 ^ 56 → root mod PGSIZE = 0 → Z.shiftl (MAKE_SATP root mod 2 ^ 44) 12 = root.
Proof. intros Hr Ha. unfold PGSIZE in *. rewrite MAKE_SATP_eq, Z.shiftl_mul_pow2 by lia. change (2 ^ 12) with 4096. zdm. Qed.

Lemma satp_w64 root : 0 ≤ root < 2 ^ 56 → w64 (MAKE_SATP root).
Proof. intros Hr. rewrite MAKE_SATP_eq by lia. unfold w64. zdm. Qed.

Definition pmp_open (cs : csr → Z) : Prop := cs CSR_pmpcfg0 = 15 ∧ cs CSR_pmpaddr0 = 2 ^ 54 - 1.

Lemma pmp_open_ok p cs k pa n : pmp_open cs → 0 ≤ pa → pa + n ≤ 2 ^ 56 - 4 → pmp_ok p cs k pa n = true.
Proof.
  intros [Hc Ha] H0 H1. unfold pmp_ok. rewrite Hc, Ha.
  destruct p; [| |done]; rewrite (proj2 (Z.leb_le 0 pa)), (proj2 (Z.leb_le (pa + n) (4 * (2 ^ 54 - 1)))) by lia; by destruct k.
Qed.

Section Mmu.
Context (kend : Z).
Hypothesis Hend : KERNBASE ≤ kend.

Lemma root_table s root l : vmwf kend s root l → 0 ≤ root < 2 ^ 56 ∧ root mod PGSIZE = 0.
Proof.
  intros Hwf. destruct (vm_tables _ _ _ _ Hwf [] root) as [Hr _]; [simpl; lia|constructor|done|].
  pose proof (page_ok_range kend Hend root Hr) as [? ?]. split; [lia|done].
Qed.

(** What the hart needs of an entry to use it as a leaf. *)
Definition leaf_ok (pte : Z) : bool :=
  has pte PTE_V && (pte <? 2 ^ 54) && negb (has pte PTE_W && negb (has pte PTE_R)) && (has pte PTE_R || has pte PTE_X).

Lemma pointer_RWX v : pointer v → has v PTE_R = false ∧ has v PTE_W = false ∧ has v PTE_X = false ∧ v < 2 ^ 54.
Proof.
  intros [Hv Hl]. unfold has in *. apply negb_false_iff, Z.eqb_eq in Hv.
  assert (Hk : ∀ k, 0 ≤ k → Z.testbit PTE_RWX k = true → Z.land v (2 ^ k) = 0).
  { intros k Hk Ht. apply Z.bits_inj_0. intros n. rewrite Z.land_spec. destruct (decide (n = k)) as [->|].
    - pose proof (f_equal (λ x, Z.testbit x k) Hv) as Hb. cbv beta in Hb. rewrite Z.land_spec, Ht, Z.bits_0, andb_true_r in Hb. by rewrite Hb.
    - rewrite Z.pow2_bits_false by done. apply andb_false_r. }
  change PTE_R with (2 ^ 1). change PTE_W with (2 ^ 2). change PTE_X with (2 ^ 3). rewrite (Hk 1), (Hk 2), (Hk 3) by done. done.
Qed.

Lemma walk_0 m t va : sv39_walk 0 m t va = let pte := load64 m (slot t (PX 0 va)) in if leaf_ok pte then Some (pte, 0%nat) else None.
Proof.
  cbn [sv39_walk]. change (Z.of_nat 0) with 0. set (pte := load64 m _). unfold leaf_ok. rewrite Z.ltb_antisym.
  destruct (has pte PTE_V), (2 ^ 54 <=? pte), (has pte PTE_W), (has pte PTE_R), (has pte PTE_X); done.
Qed.

Lemma walk_inner level m t va : (let pte := load64 m (slot t (PX (Z.of_nat (S level)) va)) in has pte PTE_V = true → pointer pte) →
  sv39_walk (S level) m t va = match ent m t (PX (Z.of_nat (S level)) va) with Some t' => sv39_walk level m t' va | None => None end.
Proof.
  intros Hp. cbn [sv39_walk]. unfold ent. set (pte := load64 m (slot t (PX (Z.of_nat (S level)) va))) in *. cbn zeta in Hp.
  destruct (has pte PTE_V); cbn [negb orb]; [|done]. destruct (pointer_RWX pte (Hp eq_refl)) as (-> & -> & -> & Hl).
  rewrite (proj2 (Z.leb_gt _ _)) by done. done.
Qed.

(** The hart and [walk] find the same leaf entry. *)
Lemma hart_walk s root l va : vmwf kend s root l → 0 ≤ va < MAXVA →
  sv39_walk 2 (km_mem s) root va = let pte := pte_at (km_mem s) root va in if leaf_ok pte then Some (pte, 0%nat) else None.
Proof.
  intros Hwf Hva. set (m := km_mem s). pose proof (PX_idx 2 va ltac:(lia)). pose proof (PX_idx 1 va ltac:(lia)).
  unfold pte_at. cbn [tbl]. rewrite (walk_inner 1).
  2: { intros pte HV. by apply (vm_inner _ _ _ _ Hwf [] root (PX 2 va)); [simpl; lia|constructor|..]. }
  change (Z.of_nat 2) with 2. destruct (ent m root (PX 2 va)) as [t1|] eqn:E1; cbn [mbind option_bind]; [|done].
  assert (Ht1 : tbl m root [PX 2 va] = Some t1) by (cbn [tbl]; by rewrite E1).
  rewrite (walk_inner 0).
  2: { intros pte HV. apply (vm_inner _ _ _ _ Hwf [PX 2 va] t1 (PX 1 va)); [simpl; lia|constructor; [done|constructor]|done..]. }
  change (Z.of_nat 1) with 1. destruct (ent m t1 (PX 1 va)) as [t0|] eqn:E0; cbn [mbind option_bind]; [|done]. apply walk_0.
Qed.

(** Nothing is mapped in the upper half of the address space. *)
Lemma hart_walk_high s root l va : vmwf kend s root l → 2 ^ 64 - 2 ^ 38 ≤ va < 2 ^ 64 → sv39_walk 2 (km_mem s) root va = None.
Proof.
  intros Hwf Hva. cbn [sv39_walk]. change (Z.of_nat 2) with 2. destruct (has (load64 (km_mem s) (slot root (PX 2 va))) PTE_V) eqn:HV; [|done].
  exfalso. destruct (vm_inner _ _ _ _ Hwf [] root (PX 2 va) ltac:(simpl; lia) ltac:(constructor) (PX_idx 2 va ltac:(lia)) eq_refl HV) as [_ Hlo].
  specialize (Hlo eq_refl). rewrite PX_eq in Hlo by lia. change (2 ^ PXSHIFT 2) with (2 ^ 30) in Hlo. zdm.
Qed.

(** Translation by the page table at [root]. *)
Lemma translate_eq s root l p cs k va n : vmwf kend s root l → p ≠ PrvM → cs CSR_satp = MAKE_SATP root → va mod n = 0 → 0 ≤ va < MAXVA →
  translate p cs (km_mem s) k va n =
    let pte := pte_at (km_mem s) root va in let pa := PTE2PA pte + va mod PGSIZE in
    if leaf_ok pte && leaf_allows p (cs CSR_mstatus) pte k && (PTE2PA pte mod PGSIZE =? 0) && pmp_ok p cs k pa n then Some pa else None.
Proof.
  intros Hwf Hp Hsatp Hal Hva. destruct (root_table s root l Hwf) as [Hr Hra]. unfold translate. rewrite Hal. cbn [Z.eqb negb].
  rewrite Hsatp, satp_mode by done. replace (match p with PrvM => _ | _ => _ end) with (sv39 p cs (km_mem s) k va) by (by destruct p).
  unfold sv39. rewrite Hsatp, satp_root by done. change MAXVA with (2 ^ 38) in Hva.
  rewrite (proj2 (Z.leb_le 0 va)), (proj2 (Z.ltb_lt va (2 ^ 38))) by lia. cbn [andb orb].
  rewrite (hart_walk s root l) by (done || lia). set (pte := pte_at (km_mem s) root va). cbn zeta.
  destruct (leaf_ok pte); cbn [andb]; [|done]. change (12 + 9 * Z.of_nat 0) with 12. change (2 ^ 12) with PGSIZE.
  destruct (leaf_allows p (cs CSR_mstatus) pte k && (PTE2PA pte mod PGSIZE =? 0)); done.
Qed.

(** A readable page without the user bit, for the kernel: what else it may do with
    the page is in the permissions. *)
Lemma translate_perm s root l cs k va n pa perm :
  vmwf kend s root l → cs CSR_satp = MAKE_SATP root → pmp_open cs → pte_at (km_mem s) root va = mkpte pa perm → 0 ≤ perm < 1024 →
  0 ≤ va < MAXVA → va mod n = 0 → 0 < n → va mod PGSIZE + n ≤ PGSIZE → 0 ≤ pa → pa + PGSIZE ≤ 2 ^ 56 - 4 → pa mod PGSIZE = 0 →
  Z.testbit (Z.lor perm PTE_V) 1 = true → Z.testbit (Z.lor perm PTE_V) 4 = false →
  translate PrvS cs (km_mem s) k va n =
    if Z.testbit (Z.lor perm PTE_V) (match k with Fetch => 3 | Load => 1 | Store => 2 end) then Some (pa + va mod PGSIZE) else None.
Proof.
  intros Hwf Hsatp Hpmp Hpte Hperm Hva Hal Hn Hpg Hpa Hpa' Hpal HR HU. rewrite (translate_eq s root l) by done. rewrite Hpte. cbn zeta.
  assert (Hr : 0 ≤ pa < 2 ^ 56) by (unfold PGSIZE in *; lia). rewrite PTE2PA_mkpte by done.
  pose proof (Z.mod_pos_bound va PGSIZE ltac:(done)). rewrite pmp_open_ok by (done || lia). rewrite Hpal. cbn [Z.eqb]. rewrite !andb_true_r.
  assert (Hbit : ∀ j, 0 ≤ j < 10 → has (mkpte pa perm) (2 ^ j) = Z.testbit (Z.lor perm PTE_V) j) by (intros j Hj; rewrite has_testbit by lia; by apply testbit_mkpte).
  pose proof (Hbit 1 ltac:(lia)) as B1. pose proof (Hbit 2 ltac:(lia)) as B2. pose proof (Hbit 3 ltac:(lia)) as B3. pose proof (Hbit 4 ltac:(lia)) as B4.
  change (2 ^ 1) with PTE_R in B1. change (2 ^ 2) with PTE_W in B2. change (2 ^ 3) with PTE_X in B3. change (2 ^ 4) with PTE_U in B4.
  unfold leaf_ok, leaf_allows. rewrite has_V_mkpte, B1, B2, B3, B4, HR, HU by done.
  assert (Hlt : mkpte pa perm < 2 ^ 54) by (rewrite mkpte_eq by done; pose proof (mkpte_flags_range perm Hperm); unfold PGSIZE in *; zdm).
  rewrite (proj2 (Z.ltb_lt _ _) Hlt). cbn [andb negb orb]. rewrite andb_false_r. cbn [negb andb].
  destruct k; rewrite ?HR; cbn [andb orb]; [by destruct (Z.testbit _ 3)|done|by destruct (Z.testbit _ 2)].
Qed.

(** What user mode can reach. *)
Lemma translate_user s root l cs k va n pa : vmwf kend s root l → cs CSR_satp = MAKE_SATP root →
  translate PrvU cs (km_mem s) k va n = Some pa →
  va mod n = 0 ∧ umapped (km_mem s) root va ∧ pa = phys (km_mem s) root va ∧ (k = Store → uwritable (km_mem s) root va).
Proof.
  intros Hwf Hsatp Ht. destruct (root_table s root l Hwf) as [Hr Hra].
  assert (Hal : va mod n = 0) by (unfold translate in Ht; destruct (Z.eqb_spec (va mod n) 0); [done|done]).
  assert (Hva : 0 ≤ va < MAXVA).
  { unfold translate in Ht. rewrite Hal, Hsatp, satp_mode in Ht by done. cbn [Z.eqb Pos.eqb negb] in Ht. unfold sv39 in Ht.
    rewrite Hsatp, satp_root in Ht by done. change MAXVA with (2 ^ 38).
    destruct (Z.leb_spec 0 va), (Z.ltb_spec va (2 ^ 38)); cbn [andb orb] in Ht; try lia;
      (destruct (Z.leb_spec (2 ^ 64 - 2 ^ 38) va), (Z.ltb_spec va (2 ^ 64)); cbn [andb] in Ht; try done);
      rewrite (hart_walk_high s root l) in Ht by (done || lia); done. }
  rewrite (translate_eq s root l) in Ht by done. set (pte := pte_at (km_mem s) root va) in *. cbn zeta in Ht.
  destruct (leaf_ok pte && leaf_allows PrvU (cs CSR_mstatus) pte k && (PTE2PA pte mod PGSIZE =? 0) && _) eqn:E; [|done].
  injection Ht as <-. rewrite !andb_true_iff in E. destruct E as [[[El Ea] _] _]. unfold leaf_ok in El. rewrite !andb_true_iff in El.
  destruct El as [[[HV _] _] _]. unfold leaf_allows in Ea. apply andb_true_iff in Ea as [HU Hk].
  assert (Hum : umapped (km_mem s) root va) by (split; [done|]; split; [done|]; destruct (has pte PTE_U) eqn:EU; [done|discriminate HU]).
  split; [done|]. split; [done|]. split; [done|]. intros ->. by split.
Qed.

(** ** A program in user mode *)

Definition ustep (code : Z → option instr) (s s' : mach) : Prop := prv s = PrvU ∧ step code s = Some s'.

(** Still in user mode with the same control registers, or at the kernel's entry
    point in supervisor mode, by a trap. *)
Definition confined (cs : csr → Z) (st : mach) : Prop :=
  prv st = PrvU ∧ csrs st = cs ∨
  prv st = PrvS ∧ pc st = cs CSR_stvec - cs CSR_stvec mod 4 ∧ csrs st CSR_satp = cs CSR_satp ∧ csrs st CSR_stvec = cs CSR_stvec ∧
    has (csrs st CSR_mstatus) SSTATUS_SPP = false.

Lemma trap_user cause f c cs m : confined cs (trap cause (mkMach f c PrvU cs m)).
Proof.
  right. unfold trap. cbn [prv pc csrs]. split; [done|]. split; [done|]. split; [by rewrite !fn_lookup_insert_ne|]. split; [by rewrite !fn_lookup_insert_ne|].
  rewrite fn_lookup_insert. cbn [with_bit]. change SSTATUS_SPP with (2 ^ 8). rewrite has_testbit by lia. rewrite Z.ldiff_spec, Z.pow2_bits_true by lia. apply andb_false_r.
Qed.

(** One instruction in user mode writes one word of a writable page or nothing. *)
Lemma ustep_effect code s root l cs f c st : uspace kend s root l → cs CSR_satp = MAKE_SATP root →
  step code (mkMach f c PrvU cs (km_mem s)) = Some st →
  confined cs st ∧ (ram st = km_mem s ∨
    ∃ va v, va mod 8 = 0 ∧ uwritable (km_mem s) root va ∧ ram st = store64 (km_mem s) (phys (km_mem s) root va) v).
Proof.
  intros Hus Hsatp Hst. unfold step in Hst. destruct (fetch code _) as [i|]; [|done].
  assert (Hput : ∀ r v x, confined cs (next (put_x r v (mkMach f x PrvU cs (km_mem s)))) ∧ ram (next (put_x r v (mkMach f x PrvU cs (km_mem s)))) = km_mem s)
    by (intros [] v x; (split; [by left|done])).
  destruct i; cbn [execute prv csrs ram csr_ok] in Hst; try discriminate Hst; try (injection Hst as <-; split; [by left|by left]);
    try (injection Hst as <-; split; [apply Hput|left; apply Hput]).
  - destruct (translate PrvU cs (km_mem s) Store _ 8) as [pa|] eqn:Et; [|done]. injection Hst as <-. split; [by left|]. right.
    destruct (translate_user s root l cs Store _ 8 pa (us_wf _ _ _ _ Hus) Hsatp Et) as (Hal & Hum & -> & Hw). eexists _, _. split; [exact Hal|]. split; [by apply Hw|done].
  - destruct (translate PrvU cs (km_mem s) Load _ 8) as [pa|] eqn:Et; [|done]. injection Hst as <-. split; [apply Hput|left; apply Hput].
  - destruct (has (cs CSR_medeleg) (2 ^ 8)); [|done]. injection Hst as <-. split; [apply trap_user|by left].
Qed.
(** The memory [m'] differs from that of [s] in bytes that the program may write. *)
Record written (s : kmem) (root : Z) (l : list Z) (m' : mem) : Prop := {
  wr_space : uspace kend (set_mem m' s) root l;
  wr_pte : ∀ va, pte_at m' root va = pte_at (km_mem s) root va;
  wr_bytes : ∀ x, m' x ≠ km_mem s x → ∃ va, uwritable (km_mem s) root va ∧ x = phys (km_mem s) root va;
}.

Lemma written_refl s root l : uspace kend s root l → written s root l (km_mem s).
Proof. intros Hus. split; [by destruct s|done|done]. Qed.

Lemma written_trans s root l m1 m2 : written s root l m1 → written (set_mem m1 s) root l m2 → written s root l m2.
Proof.
  intros [_ P1 B1] [U2 P2 B2]. cbn [km_mem set_mem] in *. split; [done|intros va; by rewrite P2|]. intros x Hx.
  destruct (decide (m1 x = km_mem s x)) as [E|N]; [|by apply B1]. destruct (B2 x) as (va & Hw & ->); [congruence|].
  exists va. unfold uwritable, umapped, phys, upage in *. rewrite P1 in *. done.
Qed.

Lemma written_word s root l va v : uspace kend s root l → va mod 8 = 0 → uwritable (km_mem s) root va →
  written s root l (store64 (km_mem s) (phys (km_mem s) root va) v).
Proof.
  intros Hus Hal Hw. assert (Hfit : va mod PGSIZE + Z.of_nat (length (le_bytes 8 v)) ≤ PGSIZE) by (rewrite length_le_bytes; unfold PGSIZE; zdm).
  destruct Hw as [Hum HW]. pose proof (wu_uspace kend s root l va (le_bytes 8 v) Hus Hum Hfit) as Hus'.
  pose proof (wu_pte kend s root l va (le_bytes 8 v) Hus Hum Hfit) as Hp. split; [exact Hus'|exact Hp|]. intros x Hx.
  destruct (decide (phys (km_mem s) root va ≤ x < phys (km_mem s) root va + 8)) as [Hr|Hn]; [|by rewrite store64_out in Hx].
  set (j := x - phys (km_mem s) root va). assert (Hpg : va / PGSIZE = (va + j) / PGSIZE) by (unfold PGSIZE; zdm).
  assert (Hmx : 0 ≤ va + j < MAXVA) by (destruct Hum as [Hb _]; change MAXVA with (2 ^ 38) in *; zdm).
  exists (va + j). split.
  - split; [by apply (umapped_page _ _ va)|]. by rewrite <- (pte_at_same_page _ _ va (va + j)).
  - unfold phys, upage in *. rewrite <- (pte_at_same_page _ _ va (va + j)) by done. unfold j, PGSIZE in *. zdm.
Qed.

Lemma user_runs code cs root l st0 st : rtc (ustep code) st0 st → ∀ s, prv st0 = PrvU → csrs st0 = cs → ram st0 = km_mem s →
  uspace kend s root l → cs CSR_satp = MAKE_SATP root → confined cs st ∧ written s root l (ram st).
Proof.
  induction 1 as [st0|st0 st1 st [_ Hst] Hrun IH]; intros s Hp Hc Hm Hus Hsatp.
  { split; [by left|]. rewrite Hm. by apply written_refl. }
  destruct st0 as [f c p0 cs0 m0]. cbn [prv csrs ram] in *. subst p0 cs0 m0.
  destruct (ustep_effect code s root l cs f c st1 Hus Hsatp Hst) as [Hcf Heff].
  assert (Hw : written s root l (ram st1)).
  { destruct Heff as [->|(va & v & Hal & Hw & ->)]; [by apply written_refl|by apply written_word]. }
  destruct Hcf as [[Hp1 Hc1]|Hs].
  - destruct (IH (set_mem (ram st1) s) Hp1 Hc1 eq_refl (wr_space _ _ _ _ Hw) Hsatp) as [Hcf Hw2]. split; [done|]. by eapply written_trans.
  - inversion Hrun as [|? st2 ? [Hp1 _]]; subst; [split; [by right|done]|]. destruct Hs as [Hs _]. congruence.
Qed.
(** Two machines that differ only in memory that the program cannot reach. *)
Record alike (s1 s2 : kmem) (root : Z) : Prop := {
  al_pte : ∀ va, pte_at (km_mem s2) root va = pte_at (km_mem s1) root va;
  al_bytes : ∀ va, umapped (km_mem s1) root va → uread (km_mem s2) root va = uread (km_mem s1) root va;
}.

Lemma alike_phys s1 s2 root va : alike s1 s2 root → phys (km_mem s2) root va = phys (km_mem s1) root va.
Proof. intros [P _]. unfold phys, upage. by rewrite P. Qed.

Lemma alike_umapped s1 s2 root va : alike s1 s2 root → umapped (km_mem s2) root va ↔ umapped (km_mem s1) root va.
Proof. intros [P _]. unfold umapped. by rewrite P. Qed.

Lemma translate_alike s1 s2 root l1 l2 cs k va n : vmwf kend s1 root l1 → vmwf kend s2 root l2 → cs CSR_satp = MAKE_SATP root → alike s1 s2 root →
  translate PrvU cs (km_mem s2) k va n = translate PrvU cs (km_mem s1) k va n.
Proof.
  intros H1 H2 Hs Ha. assert (Hp : ∀ t1 t2 l1 l2 pa, vmwf kend t1 root l1 → vmwf kend t2 root l2 → (∀ va, pte_at (km_mem t2) root va = pte_at (km_mem t1) root va) →
    translate PrvU cs (km_mem t1) k va n = Some pa → translate PrvU cs (km_mem t2) k va n = Some pa).
  { intros t1 t2 l1' l2' pa W1 W2 P Et. destruct (translate_user t1 root l1' cs k va n pa W1 Hs Et) as (Hal & (Hva & _) & _).
    rewrite (translate_eq t1 root l1') in Et by done. rewrite (translate_eq t2 root l2') by done. cbn zeta in *. by rewrite P. }
  destruct (translate PrvU cs (km_mem s1) k va n) as [pa|] eqn:E1; [exact (Hp s1 s2 l1 l2 pa H1 H2 (al_pte _ _ _ Ha) E1)|].
  destruct (translate PrvU cs (km_mem s2) k va n) as [pa|] eqn:E2; [|done]. rewrite <- E1. symmetry.
  apply (Hp s2 s1 l2 l1); [done..|intros va'; symmetry; apply Ha|done].
Qed.

Lemma alike_load s1 s2 root va : alike s1 s2 root → umapped (km_mem s1) root va → va mod 8 = 0 →
  load64 (km_mem s2) (phys (km_mem s1) root va) = load64 (km_mem s1) (phys (km_mem s1) root va).
Proof.
  intros Ha Hum Hal. apply load64_ext. intros x Hx. set (j := x - phys (km_mem s1) root va).
  assert (Hpg : va / PGSIZE = (va + j) / PGSIZE) by (unfold PGSIZE; zdm).
  assert (Hmx : 0 ≤ va + j < MAXVA) by (destruct Hum as [Hb _]; change MAXVA with (2 ^ 38) in *; zdm).
  assert (Hph : x = phys (km_mem s1) root (va + j)).
  { unfold phys, upage in *. rewrite <- (pte_at_same_page _ _ va (va + j)) by done. unfold j, PGSIZE in *. zdm. }
  rewrite Hph. rewrite <- (alike_phys s1 s2 root (va + j) Ha) at 1. apply (al_bytes _ _ _ Ha). by apply (umapped_page _ _ va).
Qed.

Lemma alike_word s1 s2 root l1 l2 va v : uspace kend s1 root l1 → uspace kend s2 root l2 → alike s1 s2 root → va mod 8 = 0 → umapped (km_mem s1) root va →
  let pa := phys (km_mem s1) root va in alike (set_mem (store64 (km_mem s1) pa v) s1) (set_mem (store64 (km_mem s2) pa v) s2) root.
Proof.
  intros H1 H2 Ha Hal Hum pa. assert (Hfit : va mod PGSIZE + Z.of_nat (length (le_bytes 8 v)) ≤ PGSIZE) by (rewrite length_le_bytes; unfold PGSIZE; zdm).
  assert (Hum2 : umapped (km_mem s2) root va) by by apply (alike_umapped s1 s2).
  assert (Epa : pa = phys (km_mem s2) root va) by (symmetry; by apply alike_phys).
  pose proof (wu_pte kend s1 root l1 va (le_bytes 8 v) H1 Hum Hfit) as P1. pose proof (wu_pte kend s2 root l2 va (le_bytes 8 v) H2 Hum2 Hfit) as P2.
  pose proof (wu_uread kend s1 root l1 va (le_bytes 8 v) H1 Hum Hfit) as R1. pose proof (wu_uread kend s2 root l2 va (le_bytes 8 v) H2 Hum2 Hfit) as R2.
  unfold wu_state in *. cbn [km_mem set_mem] in *. rewrite <- Epa in P2, R2. split; cbn [km_mem set_mem].
  - intros va'. etrans; [apply P2|]. etrans; [apply (al_pte _ _ _ Ha)|]. symmetry. apply P1.
  - intros va' Hm. assert (Hm1 : umapped (km_mem s1) root va').
    { destruct Hm as (? & HV & HU). split; [done|]. unfold store64, pa in HV, HU. by rewrite P1 in HV, HU. }
    etrans; [apply R2; by apply (alike_umapped s1 s2)|]. etrans; [|symmetry; by apply R1]. case_decide; [done|]. by apply (al_bytes _ _ _ Ha).
Qed.
Lemma ustep_blind code s1 s2 root l1 l2 cs f c st : uspace kend s1 root l1 → uspace kend s2 root l2 → alike s1 s2 root → cs CSR_satp = MAKE_SATP root →
  step code (mkMach f c PrvU cs (km_mem s1)) = Some st →
  ∃ m2, step code (mkMach f c PrvU cs (km_mem s2)) = Some (set_ram m2 st) ∧ alike (set_mem (ram st) s1) (set_mem m2 s2) root.
Proof.
  intros H1 H2 Ha Hsatp Hst. pose proof (us_wf _ _ _ _ H1) as W1. pose proof (us_wf _ _ _ _ H2) as W2.
  assert (Hsame : alike (set_mem (km_mem s1) s1) (set_mem (km_mem s2) s2) root) by (by destruct s1, s2).
  assert (Hput : ∀ r v x m m', next (put_x r v (mkMach f x PrvU cs m')) = set_ram m' (next (put_x r v (mkMach f x PrvU cs m)))) by (by intros []).
  assert (Hram : ∀ r v x m, ram (next (put_x r v (mkMach f x PrvU cs m))) = m) by (by intros []).
  unfold step, fetch in *. cbn [prv csrs ram pc] in *. rewrite (translate_alike s1 s2 root l1 l2) by done.
  destruct (translate PrvU cs (km_mem s1) Fetch c 4) as [pa|]; [|done]. destruct (code pa) as [i|]; [|done].
  destruct i; cbn [execute prv csrs ram csr_ok] in *; try discriminate Hst;
    try (injection Hst as <-; exists (km_mem s2); split; [by rewrite (Hput _ _ _ (km_mem s1))|by rewrite Hram]; fail);
    try (injection Hst as <-; exists (km_mem s2); split; [done|done]; fail).
  - rewrite (translate_alike s1 s2 root l1 l2) by done. unfold get_x in *. cbn [regs] in *.
    destruct (translate PrvU cs (km_mem s1) Store _ 8) as [pa'|] eqn:Et; [|done].
    destruct (translate_user s1 root l1 cs Store _ 8 pa' W1 Hsatp Et) as (Hal & Hum & -> & _). injection Hst as <-.
    eexists. split; [reflexivity|]. by eapply alike_word.
  - rewrite (translate_alike s1 s2 root l1 l2) by done. unfold get_x in *. cbn [regs] in *.
    destruct (translate PrvU cs (km_mem s1) Load _ 8) as [pa'|] eqn:Et; [|done].
    destruct (translate_user s1 root l1 cs Load _ 8 pa' W1 Hsatp Et) as (Hal & Hum & -> & _). injection Hst as <-.
    exists (km_mem s2). rewrite (alike_load s1 s2) by done. split; [by rewrite (Hput _ _ _ (km_mem s1))|by rewrite Hram].
  - destruct (has (cs CSR_medeleg) (2 ^ 8)); [|done]. injection Hst as <-. exists (km_mem s2). split; [done|done].
Qed.

Lemma user_blind code cs root st0 st : rtc (ustep code) st0 st → ∀ s1 s2 l1 l2, prv st0 = PrvU → csrs st0 = cs → ram st0 = km_mem s1 →
  uspace kend s1 root l1 → uspace kend s2 root l2 → alike s1 s2 root → cs CSR_satp = MAKE_SATP root →
  ∃ m2, rtc (ustep code) (set_ram (km_mem s2) st0) (set_ram m2 st) ∧ alike (set_mem (ram st) s1) (set_mem m2 s2) root.
Proof.
  induction 1 as [st0|st0 st1 st [Hp0 Hst] Hrun IH]; intros s1 s2 l1 l2 Hp Hc Hm H1 H2 Ha Hsatp.
  { exists (km_mem s2). split; [apply rtc_refl|]. rewrite Hm. by destruct s1, s2. }
  destruct st0 as [f c p0 cs0 m0]. cbn [prv csrs ram] in *. subst p0 cs0 m0.
  destruct (ustep_blind code s1 s2 root l1 l2 cs f c st1 H1 H2 Ha Hsatp Hst) as (m2 & Hst2 & Ha2).
  destruct (user_runs code cs root l1 _ st1 (rtc_once _ _ (conj eq_refl Hst : ustep code (mkMach f c PrvU cs (km_mem s1)) _)) s1 eq_refl eq_refl eq_refl H1 Hsatp) as [Hcf Hw1].
  destruct (user_runs code cs root l2 _ _ (rtc_once _ _ (conj eq_refl Hst2 : ustep code (mkMach f c PrvU cs (km_mem s2)) _)) s2 eq_refl eq_refl eq_refl H2 Hsatp) as [_ Hw2].
  assert (Hs : ustep code (set_ram (km_mem s2) (mkMach f c PrvU cs (km_mem s1))) (set_ram m2 st1)) by (split; done).
  destruct Hcf as [[Hp1 Hc1]|[Hs1 _]].
  - destruct (IH (set_mem (ram st1) s1) (set_mem m2 s2) l1 l2 Hp1 Hc1 eq_refl (wr_space _ _ _ _ Hw1) (wr_space _ _ _ _ Hw2) Ha2 Hsatp) as (m3 & Hr & Ha3).
    exists m3. split; [by eapply rtc_l|done].
  - inversion Hrun as [|? st2 ? [Hp1 _]]; subst; [|congruence]. exists m2. split; [by apply rtc_once|done].
Qed.
End Mmu.


(** A program of one page that stores 7 at address 4096 and calls the kernel. *)
Definition iso_space : kmem := state_of demo_space (uvmalloc demo_kend demo_root 0 5000 (Z.lor PTE_W PTE_X) demo_space).
Definition iso_page : Z := upage (km_mem iso_space) demo_root 0.
Definition iso_prog : list instr := [LI A1 7; LI A0 4096; SD A1 0 A0; ECALL].
Definition iso_code (pa : Z) : option instr := if pa <? iso_page then None else iso_prog !! Z.to_nat ((pa - iso_page) / 4).
Definition iso_csrs : csr → Z :=
  <[CSR_satp := MAKE_SATP demo_root]> (<[CSR_stvec := TRAMPOLINE]> (<[CSR_medeleg := 63487]> (<[CSR_pmpcfg0 := 15]> (<[CSR_pmpaddr0 := 2 ^ 54 - 1]> (λ _, 0))))).
Definition iso_start : mach := mkMach (λ _, 0) 0 PrvU iso_csrs (km_mem iso_space).
Definition iso_at (n : nat) : mach := default iso_start (run iso_code n iso_start).

Lemma iso_size : value_of (-1) (uvmalloc demo_kend demo_root 0 5000 (Z.lor PTE_W PTE_X) demo_space) = 5000.
Proof. vm_compute. reflexivity. Qed.

Lemma iso_space_ok : ∃ l, uspace demo_kend iso_space demo_root l.
Proof.
  destruct demo_uspace as (l0 & Hus & Hz).
  pose proof (uvmalloc_loop_spec demo_kend demo_kend_ok 2 demo_root 0 0 5000 (Z.lor PTE_W PTE_X) demo_space l0 Hus
    eq_refl ltac:(lia) ltac:(done) ltac:(lia) ltac:(done) ltac:(done)
    ltac:(intros; by rewrite Hz) ltac:(done)) as Hw.
  destruct (wp_inv _ _ _ Hw) as (r & s1 & He & l1 & Hus1 & _).
  assert (Hc : uvmalloc demo_kend demo_root 0 5000 (Z.lor PTE_W PTE_X) demo_space = Ok r s1) by exact He.
  exists l1. unfold iso_space. rewrite Hc. exact Hus1.
Qed.

Definition goes_on (code : Z → option instr) (n : nat) (s : mach) : bool :=
  match run code n s with Some s' => match prv s', step code s' with PrvU, Some _ => true | _, _ => false end | None => false end.

Lemma run_ustep code n s : goes_on code n s = true → ustep code (default s (run code n s)) (default s (run code (S n) s)).
Proof.
  unfold goes_on. replace (S n) with (n + 1)%nat by lia. rewrite run_add. destruct (run code n s) as [s'|]; [|done]. intros H.
  cbn [mbind option_bind run default]. unfold ustep, default, id. destruct (prv s'); [|done|done]. by destruct (step code s').
Qed.

Lemma andb_4 a b c d : a && b && c && d = true → a = true ∧ b = true ∧ c = true ∧ d = true.
Proof. by destruct a, b, c, d. Qed.

Lemma iso_goes_on : (goes_on iso_code 0 iso_start && goes_on iso_code 1 iso_start && goes_on iso_code 2 iso_start && goes_on iso_code 3 iso_start) = true.
Proof. vm_compute. reflexivity. Qed.

Lemma iso_runs : rtc (ustep iso_code) iso_start (iso_at 4).
Proof.
  destruct (andb_4 _ _ _ _ iso_goes_on) as (H0 & H1 & H2 & H3).
  apply rtc_l with (iso_at 1); [exact (run_ustep iso_code 0 iso_start H0)|]. apply rtc_l with (iso_at 2); [exact (run_ustep iso_code 1 iso_start H1)|].
  apply rtc_l with (iso_at 3); [exact (run_ustep iso_code 2 iso_start H2)|]. apply rtc_once. exact (run_ustep iso_code 3 iso_start H3).
Qed.

Lemma iso_satp : iso_csrs CSR_satp = MAKE_SATP demo_root.
Proof. unfold iso_csrs. apply fn_lookup_insert. Qed.

