(* ===== verification/Kvm.v ===== *)
(** * Kvm: the kernel's own page table

    What [kvmmake] of Vm.v builds, and that it does so: how many pages it needs, and
    what the table then says about every virtual address. *)
From stdpp Require Import functions.
From S2P Require Import Prelude Riscv CString Kalloc Vm VmSpec VmUser Isa Mmu.

Lemma wp_both {S A} (m : M S A) (P Q : A → S → Prop) s : wp m P s → wp m Q s → wp m (λ a s', P a s' ∧ Q a s') s.
Proof. unfold wp. by destruct (m s). Qed.

Lemma omap_short {A B} (f : A → option B) l : (length (omap f l) ≤ length l)%nat.
Proof. induction l as [|x l IH]; [done|]. cbn. destruct (f x); cbn; lia. Qed.

Section Paths.
Context (kend : Z).
Hypothesis Hend : KERNBASE ≤ kend.

(** The tables of the tree at [root] are at paths of [A]. *)
Definition tables_in (A : list (list Z)) (m : mem) (root : Z) : Prop :=
  ∀ path t, (length path ≤ 2)%nat → Forall idx path → tbl m root path = Some t → path ∈ A.

(** One page was taken from the free list, for the table at [path]. *)
Lemma tables_in_new A s s' root q l path : tables_in A (km_mem s) root → vmwf kend s root (q :: l) → grown kend s s' root (q :: l) l →
  (length path ≤ 2)%nat → Forall idx path → tbl (km_mem s') root path = Some q → path ∈ A → tables_in A (km_mem s') root.
Proof.
  intros HA Hwf [Hwf' _ Ht _ Hn _] Hlen Hidx Hq Hin path' t Hl Hx Hp.
  destruct (Hn t) as [(p0 & Hl0 & Hx0 & Hp0)|Hq']; [by exists path'| |].
  - pose proof (Ht p0 t Hl0 Hx0 Hp0) as Hp0'. rewrite (vm_tree _ _ _ _ Hwf' path' p0 t) by done. by eapply HA.
  - apply elem_of_cons in Hq' as [->|Hq']; [by rewrite (vm_tree _ _ _ _ Hwf' path' path q)|].
    destruct (vm_tables _ _ _ _ Hwf' path' t Hl Hx Hp) as [_ ?]. done.
Qed.

Lemma walk_loop_paths A level p va s root l path :
  vmwf kend s root l → 0 ≤ va < MAXVA → (length path + level = 2)%nat → Forall idx path → tbl (km_mem s) root path = Some p →
  tables_in A (km_mem s) root → (∀ pre suf, idxs level va = pre ++ suf → path ++ pre ∈ A) →
  wp (walk_loop level p va true) (λ _ s', tables_in A (km_mem s') root) s.
Proof.
  revert p s l path. induction level as [|level IH]; intros p s l path Hwf Hva Hlen Hidx Hp HA Hpre; [by apply wp_ret|].
  cbn [walk_loop]. set (i := PX (Z.of_nat (S level)) va). assert (Hi : idx i) by (apply PX_idx; lia).
  assert (Hpre' : ∀ pre suf, idxs level va = pre ++ suf → (path ++ [i]) ++ pre ∈ A).
  { intros pre suf E. rewrite <- app_assoc. apply (Hpre (i :: pre) suf). cbn [idxs]. by rewrite E. }
  assert (Hlen' : (length (path ++ [i]) + level = 2)%nat) by (rewrite length_app; simpl; lia).
  assert (Hidx' : Forall idx (path ++ [i])) by (apply Forall_app; split; [done|by constructor]).
  apply wp_bind. unfold load_word, wp at 1, gets. destruct (has (load64 (km_mem s) (slot p i)) PTE_V) eqn:HV.
  - apply (IH _ s l (path ++ [i])); try done. rewrite tbl_snoc, Hp. simpl. unfold ent. by rewrite HV.
  - cbn [negb]. eapply wp_seq; [apply (walk_new_table kend Hend s root l path p i); try done; [lia| |unfold ent; by rewrite HV]|].
    { intros ->. assert (level = 1%nat) as -> by (simpl in Hlen; lia). by apply PX_2_low. }
    intros q s1 Hq. destruct l as [|q' l'].
    + destruct Hq as [-> ->]. simpl. by apply wp_ret.
    + destruct Hq as (-> & Hqok & [Hg _] & Ht). pose proof (page_ok_range kend Hend _ Hqok). destruct (Z.eqb_spec q' 0); [lia|].
      apply wp_bind. unfold memset_page, wp at 1, modify. apply wp_bind. unfold store_word, wp at 1, modify.
      apply (IH q' _ l' (path ++ [i])); try done; [apply (gr_wf _ _ _ _ _ _ Hg)|].
      eapply (tables_in_new A s _ root q' l' (path ++ [i])); try done; [rewrite length_app; simpl; lia|].
      rewrite <- (app_nil_r (path ++ [i])). by apply (Hpre' [] (idxs level va)).
Qed.

(** The tables that [va] needs. *)
Definition needs (A : list (list Z)) (va : Z) : Prop := [] ∈ A ∧ [PX 2 va] ∈ A ∧ [PX 2 va; PX 1 va] ∈ A.

Lemma walk_paths A root va s l : vmwf kend s root l → 0 ≤ va < MAXVA → tables_in A (km_mem s) root → needs A va →
  wp (walk root va true) (λ _ s', tables_in A (km_mem s') root) s.
Proof.
  intros Hwf Hva HA (N0 & N1 & N2). unfold walk. case_test; [lia|]. apply (walk_loop_paths A 2 root va s root l []); try done.
  intros pre suf. cbn [idxs]. change (Z.of_nat 2) with 2. change (Z.of_nat 1) with 1. intros E.
  destruct pre as [|a [|b [|c pre]]]; by simplify_eq/=.
Qed.

Lemma mappages_loop_paths A n root va pa perm s l :
  vmwf kend s root l → (0 < n)%nat → va mod PGSIZE = 0 → 0 ≤ va → va + Z.of_nat n * PGSIZE ≤ MAXVA →
  0 ≤ pa → pa mod PGSIZE = 0 → pa + Z.of_nat n * PGSIZE ≤ 2 ^ 56 → 0 ≤ perm < 1024 →
  tables_in A (km_mem s) root → (∀ va', va ≤ va' < va + Z.of_nat n * PGSIZE → needs A va') →
  (∀ va', va ≤ va' < va + Z.of_nat n * PGSIZE → has (pte_at (km_mem s) root va') PTE_V = false) →
  wp (mappages_loop n root va (va + (Z.of_nat n - 1) * PGSIZE) pa perm) (λ _ s', tables_in A (km_mem s') root) s.
Proof.
  revert va pa s l. induction n as [|n IH]; intros va pa s l Hwf Hn Hal Hva Htop Hpa Hpal Hptop Hperm HA Hneed Hun; [lia|].
  assert (Hmax : MAXVA = 2 ^ 38) by done. cbn [mappages_loop].
  assert (Hva' : 0 ≤ va < MAXVA) by (unfold PGSIZE in *; lia).
  eapply wp_seq; [apply wp_both; [apply (walk_alloc kend Hend root va s l Hwf Hva')|apply (walk_paths A root va s l Hwf Hva' HA), Hneed; unfold PGSIZE; lia]|].
  intros r s1 [(l1 & [Hg1 Hp1] & [[-> ->]|(t & Ht & ->)]) HA1]; [simpl; by apply wp_ret|].
  destruct (map_step kend Hend s1 root l1 va t (gr_wf _ _ _ _ _ _ Hg1)) as [Hld Hpos]; [done|done|].
  destruct (Z.eqb_spec (slot t (PX 0 va)) 0); [lia|].
  apply wp_bind. unfold load_word, wp at 1, gets. rewrite Hld, Hp1, Hun by (unfold PGSIZE in *; lia).
  apply wp_bind. unfold store_word, wp at 1, modify. fold (mkpte pa perm).
  destruct (leaf_store kend Hend s1 root l1 va t (mkpte pa perm)) as (Hg2 & Hp2 & Ht2); [by apply (gr_wf _ _ _ _ _ _ Hg1)|done| |done|].
  { apply mkpte_range; (done || unfold PGSIZE in *; lia). }
  set (s2 := set_mem _ _) in *. assert (HA2 : tables_in A (km_mem s2) root) by (intros path t' ? ?; rewrite Ht2 by done; by apply HA1).
  destruct (Z.eqb_spec va (va + (Z.of_nat (S n) - 1) * PGSIZE)) as [Hlast|Hlast]; [by apply wp_ret|].
  assert (0 < n)%nat by (unfold PGSIZE in *; lia). rewrite !u64_id by (unfold PGSIZE in *; lia).
  replace (va + (Z.of_nat (S n) - 1) * PGSIZE) with (va + PGSIZE + (Z.of_nat n - 1) * PGSIZE) by lia.
  apply (IH (va + PGSIZE) (pa + PGSIZE) s2 l1); unfold PGSIZE in *; try zdm; try done.
  - apply (gr_wf _ _ _ _ _ _ Hg2).
  - intros va' Hr. apply Hneed. lia.
  - intros va' Hr. rewrite Hp2 by lia. rewrite decide_False by zdm. rewrite Hp1. apply Hun. lia.
Qed.
End Paths.

(** ** Regions *)

Record region : Type := mkRegion { rg_va : Z; rg_size : Z; rg_pa : Z; rg_perm : Z }.

Definition covers (r : region) (va : Z) : Prop := rg_va r ≤ va < rg_va r + rg_size r.
#[export] Instance covers_dec r va : Decision (covers r va).
Proof. unfold covers. apply _. Defined.

(** The entry of [va] when the regions have been mapped, the last one first. *)
Fixpoint pte_of (rs : list region) (va : Z) : Z :=
  match rs with
  | [] => 0
  | r :: rs => if decide (covers r va) then mkpte (rg_pa r + (va - rg_va r) / PGSIZE * PGSIZE) (rg_perm r) else pte_of rs va
  end.

Lemma pte_of_none rs va : (∀ r, r ∈ rs → ¬ covers r va) → pte_of rs va = 0.
Proof.
  induction rs as [|r rs IH]; intros H; [done|]. cbn. rewrite decide_False by (apply H, elem_of_cons; by left).
  apply IH. intros r' Hr. apply H, elem_of_cons. by right.
Qed.

Record region_ok (r : region) : Prop := {
  rk_va : rg_va r mod PGSIZE = 0 ∧ 0 ≤ rg_va r ∧ rg_va r + rg_size r ≤ MAXVA;
  rk_size : rg_size r mod PGSIZE = 0 ∧ 0 < rg_size r;
  rk_pa : rg_pa r mod PGSIZE = 0 ∧ 0 ≤ rg_pa r ∧ rg_pa r + rg_size r ≤ 2 ^ 56;
  rk_perm : 0 ≤ rg_perm r < 1024;
}.

Section Build.
Context (kend : Z).
Hypothesis Hend : KERNBASE ≤ kend.
Context (A : list (list Z)) (l0 : list Z) (m0 : mem) (root : Z).
Hypothesis Hnd : NoDup l0.

(** While the table is built: [l0] are the pages that were free, [stk] those that have
    become stacks, [rs] the regions that are mapped. *)
Record building (s : kmem) (l stk : list Z) (rs : list region) : Prop := {
  bl_wf : vmwf kend s root l;
  bl_paths : tables_in A (km_mem s) root;
  bl_free : ∀ q, q ∈ l → q ∈ l0;
  bl_table : ∀ t, is_table (km_mem s) root t → t ∈ l0;
  bl_stk : ∀ q, q ∈ stk → q ∈ l0 ∧ q ∉ l ∧ page_ok kend q ∧ ¬ is_table (km_mem s) root q;
  bl_all : ∀ q, q ∈ l0 → q ∈ l ∨ is_table (km_mem s) root q ∨ q ∈ stk;
  bl_pte : ∀ va, 0 ≤ va < MAXVA → pte_at (km_mem s) root va = pte_of rs va;
  bl_frame : ∀ x, (∀ q, q ∈ l0 → ¬ in_page q x) → km_mem s x = m0 x;
}.

Lemma building_length s l stk rs : building s l stk rs → (length l0 ≤ length l + length A + length stk)%nat.
Proof.
  intros [Hwf HA _ _ _ Hall _ _]. assert (Hsub : l0 ⊆+ l ++ omap (tbl (km_mem s) root) A ++ stk).
  { apply NoDup_submseteq; [done|]. intros q Hq. rewrite !elem_of_app. destruct (Hall q Hq) as [Hn|[(path & ? & ? & Hp)|?]]; [by left|right; left|by right; right].
    apply list_elem_of_omap. exists path. split; [by eapply HA|done]. }
  apply submseteq_length in Hsub. rewrite !length_app in Hsub. pose proof (omap_short (tbl (km_mem s) root) A). lia.
Qed.

Lemma building_enough s l stk rs : building s l stk rs → (length A + length stk < length l0)%nat → l ≠ [].
Proof. intros Hb Hlen ->. apply building_length in Hb. cbn [length] in Hb. lia. Qed.

Lemma building_grown s s' l l' stk rs rs' : building s l stk rs → grown kend s s' root l l' → tables_in A (km_mem s') root →
  (∀ va, 0 ≤ va < MAXVA → pte_at (km_mem s') root va = pte_of rs' va) → building s' l' stk rs'.
Proof.
  intros [Hwf HA Hf Ht Hs Hall Hp Hm] [Hwf' [l1 Hl] Htb Hfr Hnew Hus] HA' Hp'.
  assert (Hsub : ∀ q, q ∈ l' → q ∈ l) by (intros q Hq; rewrite Hl; apply elem_of_app; by right).
  assert (Htab : ∀ t, is_table (km_mem s) root t → is_table (km_mem s') root t) by (intros t (path & ? & ? & ?); exists path; auto).
  split; try done.
  - intros q Hq. by apply Hf, Hsub.
  - intros t [Hold|Hq]%Hnew; [by apply Ht|by apply Hf].
  - intros q Hq. destruct (Hs q Hq) as (? & ? & ? & Hn). split; [done|]. split; [by intros ?%Hsub|]. split; [done|]. by intros [?|?]%Hnew.
  - intros q Hq. destruct (Hall q Hq) as [Hl'|[Hold|?]]; [destruct (Hus q Hl'); auto|auto|auto].
  - intros x Hx. rewrite Hfr; [by apply Hm| |]; intros q Hq; apply Hx; [by apply Ht|by apply Hf].
Qed.

(** The pages that have been taken keep their contents. *)
Lemma building_frame s s' l l' stk rs : building s l stk rs → grown kend s s' root l l' → ∀ q x, q ∈ stk → in_page q x → km_mem s' x = km_mem s x.
Proof.
  intros Hb Hg q x Hq Hx. pose proof (bl_wf _ _ _ _ Hb) as Hwf. destruct (bl_stk _ _ _ _ Hb q Hq) as (_ & Hql & Hqok & Hqt).
  apply (gr_frame _ _ _ _ _ _ Hg).
  - intros t Hi Hx'. destruct (is_table_ok kend s root _ t Hwf Hi). apply (in_page_disjoint kend t q x); try done. congruence.
  - intros p Hp Hx'. destruct (vm_kinv _ _ _ _ Hwf) as (_ & _ & Hok). apply (in_page_disjoint kend p q x); try done; [by eapply Forall_forall in Hok|congruence].
Qed.

Lemma mappages_done s l stk rs r : building s l stk rs → region_ok r → (∀ va, covers r va → needs A va) →
  (∀ va, covers r va → ∀ r', r' ∈ rs → ¬ covers r' va) → (length A + length stk < length l0)%nat →
  wp (mappages root (rg_va r) (rg_size r) (rg_pa r) (rg_perm r)) (λ res s', res = 0 ∧ (∀ q x, q ∈ stk → in_page q x → km_mem s' x = km_mem s x) ∧
    ∃ l', building s' l' stk (r :: rs)) s.
Proof.
  intros Hb [(Hv1 & Hv2 & Hv3) (Hs1 & Hs2) (Hp1 & Hp2 & Hp3) Hperm] Hneed Hdis Hlen. pose proof (bl_wf _ _ _ _ Hb) as Hwf.
  assert (Hun : ∀ va', rg_va r ≤ va' < rg_va r + rg_size r → has (pte_at (km_mem s) root va') PTE_V = false).
  { intros va' Hr. rewrite (bl_pte _ _ _ _ Hb) by lia. rewrite pte_of_none; [done|]. by apply Hdis. }
  assert (Hpaths : wp (mappages root (rg_va r) (rg_size r) (rg_pa r) (rg_perm r)) (λ _ s', tables_in A (km_mem s') root) s).
  { unfold mappages. rewrite Hv1, Hs1. cbn [Z.eqb negb]. rewrite (proj2 (Z.eqb_neq (rg_size r) 0)) by lia.
    assert (Hn : Z.of_nat (Z.to_nat (rg_size r / PGSIZE)) = rg_size r / PGSIZE) by (unfold PGSIZE in *; zdm).
    assert (Hsz : rg_size r / PGSIZE * PGSIZE = rg_size r) by (unfold PGSIZE in *; zdm). assert (Hmax : MAXVA = 2 ^ 38) by done.
    replace (u64 (rg_va r + rg_size r - PGSIZE)) with (rg_va r + (Z.of_nat (Z.to_nat (rg_size r / PGSIZE)) - 1) * PGSIZE) by (rewrite u64_id; unfold PGSIZE in *; lia).
    eapply (mappages_loop_paths kend Hend A _ root _ _ _ s l Hwf); rewrite ?Hn, ?Hsz; try done; [unfold PGSIZE in *; zdm|apply Hb]. }
  eapply wp_mono; [apply wp_both; [apply (mappages_spec kend Hend root _ _ _ _ s l Hwf); done|exact Hpaths]|].
  intros res s' [(l' & k & Hg & Hm & Hres) HA'].
  assert (Hb' : ∀ rs', (∀ va, 0 ≤ va < MAXVA → pte_at (km_mem s') root va = pte_of rs' va) → building s' l' stk rs') by (intros rs'; by apply (building_grown s s' l l' stk rs)).
  destruct Hres as [[-> ->]|(-> & Hk & ->)].
  - split; [done|]. split; [intros q x Hq Hx; by apply (building_frame s s' l l' stk rs Hb Hg q x)|]. exists l'. apply Hb'. intros va Hva. rewrite (Hm va Hva). cbn [pte_of]. unfold covers.
    replace (rg_size r / PGSIZE * PGSIZE) with (rg_size r) by (unfold PGSIZE in *; zdm). rewrite (bl_pte _ _ _ _ Hb) by done. done.
  - exfalso. refine (building_enough s' [] stk (mkRegion (rg_va r) (k * PGSIZE) (rg_pa r) (rg_perm r) :: rs) _ Hlen eq_refl).
    apply Hb'. intros va Hva. rewrite (Hm va Hva). cbn [pte_of]. unfold covers. cbn [rg_va rg_size rg_pa rg_perm]. by rewrite (bl_pte _ _ _ _ Hb) by done.
Qed.
Lemma kvmmap_spec s l stk rs r : building s l stk rs → region_ok r → (∀ va, covers r va → needs A va) →
  (∀ va, covers r va → ∀ r', r' ∈ rs → ¬ covers r' va) → (length A + length stk < length l0)%nat →
  wp (kvmmap root (rg_va r) (rg_pa r) (rg_size r) (rg_perm r)) (λ _ s', ∃ l', building s' l' stk (r :: rs)) s.
Proof.
  intros Hb Hok Hneed Hdis Hlen. unfold kvmmap. eapply wp_seq; [by apply (mappages_done s l stk rs r)|]. intros res s' (-> & _ & Hb'). by apply wp_ret.
Qed.

(** A page for a stack. *)
Lemma building_kalloc s q l stk rs : building s (q :: l) stk rs →
  wp kalloc (λ r s', r = q ∧ q ≠ 0 ∧ page_ok kend q ∧ building s' l (q :: stk) rs ∧ q ∉ stk) s.
Proof.
  intros [Hwf HA Hf Ht Hs Hall Hp Hm]. pose proof (vm_kinv _ _ _ _ Hwf) as Hk. pose proof Hk as (_ & Hd & Hok).
  apply NoDup_cons in Hd as [Hql _]. apply Forall_cons in Hok as [Hqok _]. pose proof (page_ok_range kend Hend q Hqok).
  assert (Hqs : q ∉ stk) by (intros Hq; destruct (Hs q Hq) as (_ & Hn & _); apply Hn, elem_of_cons; by left).
  assert (Hqt : ¬ is_table (km_mem s) root q).
  { intros Hi. destruct (is_table_ok kend s root _ q Hwf Hi) as [_ Hn]. apply Hn, elem_of_cons. by left. }
  eapply wp_mono; [apply (kalloc_spec kend s (q :: l) Hk)|]. intros r s' (-> & Hk' & Hm').
  assert (Htab : ∀ t x, is_table (km_mem s) root t → in_page t x → km_mem s' x = km_mem s x).
  { intros t x Hi Hx. rewrite Hm', decide_False; [done|]. intros Hx'. destruct (is_table_ok kend s root _ t Hwf Hi). apply (in_page_disjoint kend t q x); try done. congruence. }
  destruct (data_write _ _ root Htab) as [Hpath Hpte].
  assert (Hist : ∀ t, is_table (km_mem s') root t ↔ is_table (km_mem s) root t) by (intros t; by apply is_table_same).
  split; [done|]. split; [lia|]. split; [done|]. split; [|done]. split.
  - apply (vmwf_data_write kend s s' root (q :: l) l Hwf Hk'); [|done]. intros t Hi Hl. destruct (is_table_ok kend s root _ t Hwf Hi) as [_ Hn]. apply Hn, elem_of_cons. by right.
  - intros path t Hl Hx. rewrite Hpath by done. by apply HA.
  - intros p Hin. apply Hf, elem_of_cons. by right.
  - intros t Hi%Hist. by apply Ht.
  - intros p [->|Hin]%elem_of_cons.
    + split; [apply Hf, elem_of_cons; by left|]. split; [done|]. split; [done|]. by rewrite Hist.
    + destruct (Hs p Hin) as (? & Hn & ? & ?). split; [done|]. split; [intros Hl; apply Hn, elem_of_cons; by right|]. split; [done|]. by rewrite Hist.
  - intros p Hin. destruct (Hall p Hin) as [[->|?]%elem_of_cons|[?|?]]; [right; right; apply elem_of_cons; by left|auto| |right; right; apply elem_of_cons; by right].
    right. left. by rewrite Hist.
  - intros va Hva. rewrite Hpte. by apply Hp.
  - intros x Hx. rewrite Hm', decide_False; [by apply Hm|]. apply Hx, Hf, elem_of_cons. by left.
Qed.
(** The new root, cleared. *)
Lemma new_root l s : [] ∈ A → l0 = root :: l → kinv kend s l0 → km_mem s = m0 →
  wp kalloc (λ r s1, r = root ∧ building (set_mem (memset (km_mem s1) root 0 PGSIZE) s1) l [] []) s.
Proof.
  intros HA El Hk Hm. pose proof (kalloc_spec kend s l0 Hk) as Hw. rewrite El in Hw. eapply wp_mono; [exact Hw|]. intros r s1 (-> & Hk1 & Hm1).
  pose proof Hk as (_ & Hd & Hok). rewrite El in Hd, Hok. apply NoDup_cons in Hd as [Hrl _]. apply Forall_cons in Hok as [Hrok Hok].
  split; [done|]. set (s2 := set_mem _ _).
  assert (Hm2 : ∀ x, km_mem s2 x = if decide (in_page root x) then 0 else km_mem s1 x) by (intros x; simpl; by rewrite memset_spec).
  assert (Hk2 : kinv kend s2 l).
  { apply kinv_write; [done|]. intros q x Hq Hx. change (memset _ _ _ _ x) with (km_mem s2 x). rewrite Hm2, decide_False; [done|]. intros Hx'.
    apply (in_page_disjoint kend q root x); try done; [by eapply Forall_forall in Hok|congruence]. }
  destruct (zero_root_uspace kend s2 root l Hk2 Hrok Hrl) as (Hus & Hz & Ht); [intros x Hx; by rewrite Hm2, decide_True|].
  pose proof (us_wf _ _ _ _ Hus) as Hwf. assert (Hroot : is_table (km_mem s2) root root) by (exists []; split; [simpl; lia|done]).
  split; try done.
  - intros path t Hl Hx Hp. assert (t = root) as -> by (apply Ht; by exists path). rewrite (vm_tree _ _ _ _ Hwf path [] root); try done; simpl; lia.
  - intros q Hq. rewrite El. apply elem_of_cons. by right.
  - intros t Hi. rewrite (Ht t Hi), El. apply elem_of_cons. by left.
  - intros q Hq. by apply not_elem_of_nil in Hq.
  - rewrite El. intros q [->|Hq]%elem_of_cons; [right; left; done|by left].
  - intros x Hx. assert (Hn : ¬ in_page root x) by (apply Hx; rewrite El; apply elem_of_cons; by left). rewrite Hm2, decide_False by done. rewrite Hm1, decide_False by done. by rewrite Hm.
Qed.

End Build.

(** Writing in a page that is neither free nor a table. *)
Lemma building_data kend A l0 m0 m1 root s m' l stk rs q : building kend A l0 m0 root s l stk rs →
  page_ok kend q → q ∉ l → ¬ is_table (km_mem s) root q → (∀ x, ¬ in_page q x → m' x = km_mem s x) →
  (∀ x, (∀ p, p ∈ l0 → ¬ in_page p x) → m' x = m1 x) → building kend A l0 m1 root (set_mem m' s) l stk rs.
Proof.
  intros [Hwf HA Hf Ht Hs Hall Hp Hm] Hqok Hql Hqt Hm' Hm1. pose proof (vm_kinv _ _ _ _ Hwf) as Hk.
  assert (Htab : ∀ t x, is_table (km_mem s) root t → in_page t x → m' x = km_mem s x).
  { intros t x Hi Hx. apply Hm'. intros Hx'. destruct (is_table_ok kend s root _ t Hwf Hi). apply (in_page_disjoint kend t q x); try done. congruence. }
  destruct (data_write (km_mem s) m' root Htab) as [Hpath Hpte].
  assert (Hist : ∀ t, is_table m' root t ↔ is_table (km_mem s) root t) by (intros t; by apply is_table_same).
  assert (Hk' : kinv kend (set_mem m' s) l).
  { apply kinv_write; [done|]. intros p x Hpl Hx. symmetry. apply Hm'. intros Hx'. destruct Hk as (_ & _ & Hok). apply (in_page_disjoint kend p q x); try done; [by eapply Forall_forall in Hok|congruence]. }
  split; cbn [km_mem set_mem]; try done.
  - apply (vmwf_data_write kend s (set_mem m' s) root l l Hwf Hk'); [|done]. intros t Hi Hl. by destruct (is_table_ok kend s root _ t Hwf Hi).
  - intros path t Hl Hx. rewrite Hpath by done. by apply HA.
  - intros t Hi%Hist. by apply Ht.
  - intros p Hin. destruct (Hs p Hin) as (? & ? & ? & ?). by rewrite Hist.
  - intros p Hin. rewrite Hist. by apply Hall.
  - intros va Hva. rewrite Hpte. by apply Hp.
Qed.

Lemma building_write kend A l0 m0 root s m' l stk rs q : building kend A l0 m0 root s l stk rs → q ∈ stk →
  (∀ x, ¬ in_page q x → m' x = km_mem s x) → building kend A l0 m0 root (set_mem m' s) l stk rs.
Proof.
  intros Hb Hq Hm'. destruct (bl_stk _ _ _ _ _ _ _ _ _ Hb q Hq) as (Hq0 & Hql & Hqok & Hqt). apply (building_data kend A l0 m0 m0 root s m' l stk rs q); try done.
  intros x Hx. rewrite Hm' by (by apply Hx). by apply (bl_frame _ _ _ _ _ _ _ _ _ Hb).
Qed.

(** ** The regions of the kernel *)

Notation RW := (Z.lor PTE_R PTE_W).
Notation RX := (Z.lor PTE_R PTE_X).

(** Stacks for the processes 0, 1, ..., the last one first. *)
Fixpoint stack_regions (stk : list Z) : list region :=
  match stk with
  | [] => []
  | p :: stk => mkRegion (KSTACK (Z.of_nat (length stk))) PGSIZE p RW :: stack_regions stk
  end.

Definition base_regions (etext trampoline : Z) : list region :=
  [mkRegion TRAMPOLINE PGSIZE trampoline RX; mkRegion etext (PHYSTOP - etext) etext RW; mkRegion KERNBASE (etext - KERNBASE) KERNBASE RX;
   mkRegion PLIC 67108864 PLIC RW; mkRegion VIRTIO0 PGSIZE VIRTIO0 RW; mkRegion UART0 PGSIZE UART0 RW].

Definition kernel_regions (etext trampoline : Z) (stk : list Z) : list region := stack_regions stk ++ base_regions etext trampoline.

(** The tables of the kernel's page table: for the devices, for the memory and for the
    top of the address space. *)
Definition kernel_paths : list (list Z) :=
  [[]; [0]; [2]; [255]] ++ ((λ i, [0; i]) <$> seqZ 96 33) ++ ((λ i, [2; i]) <$> seqZ 0 64) ++ [[255; 511]].

Definition kernel_pages : nat := 166.

Lemma kernel_needs va : PLIC ≤ va < PLIC + 67108864 ∨ UART0 ≤ va < UART0 + 2097152 ∨ KERNBASE ≤ va < PHYSTOP ∨ MAXVA - 2097152 ≤ va < MAXVA → needs kernel_paths va.
Proof.
  intros Hva. unfold needs. rewrite !PX_eq by lia. change (2 ^ PXSHIFT 2) with 1073741824. change (2 ^ PXSHIFT 1) with 2097152.
  change MAXVA with 274877906944 in Hva. unfold PLIC, UART0, PHYSTOP, KERNBASE in Hva.
  split; [apply elem_of_cons; by left|]. unfold kernel_paths.
  assert (E : va / 1073741824 mod 512 = 0 ∧ 96 ≤ va / 2097152 mod 512 < 129 ∨ va / 1073741824 mod 512 = 2 ∧ 0 ≤ va / 2097152 mod 512 < 64 ∨
    va / 1073741824 mod 512 = 255 ∧ va / 2097152 mod 512 = 511) by (destruct Hva as [?|[?|[?|?]]]; [left|left|right; left|right; right]; zdm).
  destruct E as [[-> E]|[[-> E]|[-> ->]]]; (split; [apply elem_of_app; left; repeat (first [apply list_elem_of_here|apply list_elem_of_further])|]).
  - rewrite !elem_of_app. right. left. apply list_elem_of_fmap. eexists. split; [reflexivity|]. apply elem_of_seqZ. lia.
  - rewrite !elem_of_app. right. right. left. apply list_elem_of_fmap. eexists. split; [reflexivity|]. apply elem_of_seqZ. lia.
  - rewrite !elem_of_app. right. right. right. apply list_elem_of_singleton. done.
Qed.

Lemma stack_region_in r stk : r ∈ stack_regions stk → ∃ j, 0 ≤ j < Z.of_nat (length stk) ∧ rg_va r = KSTACK j ∧ rg_size r = PGSIZE.
Proof.
  induction stk as [|p stk IH]; [by intros ?%not_elem_of_nil|]. cbn [stack_regions length]. intros [->|Hr]%elem_of_cons.
  - exists (Z.of_nat (length stk)). split; [lia|done].
  - destruct (IH Hr) as (j & ? & ?). exists j. split; [lia|done].
Qed.

Section Kernel.
Context (kend etext trampoline : Z).
Hypothesis Hend : KERNBASE ≤ kend.
Hypothesis Hetext : KERNBASE < etext < PHYSTOP.
Hypothesis Hetext_al : etext mod PGSIZE = 0.
Hypothesis Htramp : KERNBASE ≤ trampoline ∧ trampoline + PGSIZE ≤ PHYSTOP.
Hypothesis Htramp_al : trampoline mod PGSIZE = 0.
Lemma stack_region_ok i pa : 0 ≤ i < 64 → page_ok kend pa → region_ok (mkRegion (KSTACK i) PGSIZE pa RW).
Proof.
  intros Hi Hpa. pose proof (page_ok_range kend Hend pa Hpa) as [Hr Ha]. unfold KSTACK, TRAMPOLINE. change MAXVA with 274877906944 in *. unfold PGSIZE in *.
  split; cbn [rg_va rg_size rg_pa rg_perm]; [|done|unfold PGSIZE; lia|done]. unfold PGSIZE. change MAXVA with 274877906944. split; [|lia].
  replace (_ - _ - _) with ((67108863 - (i + 1) * 2) * 4096) by lia. by apply Z.mod_mul.
Qed.

(** Every base region is in order, has its tables in [kernel_paths] and does not
    overlap the ones mapped before it. *)
Lemma base_region rg rs : rg :: rs `suffix_of` base_regions etext trampoline →
  region_ok rg ∧ (∀ va, covers rg va → needs kernel_paths va) ∧ (∀ va, covers rg va → ∀ r', r' ∈ rs → ¬ covers r' va).
Proof.
  intros Hsuf. unfold covers.
  assert (Hr : rg ∈ base_regions etext trampoline) by (destruct Hsuf as [pre E]; rewrite E; apply elem_of_app; right; apply elem_of_cons; by left).
  assert (Hmax : MAXVA = 274877906944) by done. assert (Htr : TRAMPOLINE = 274877902848) by done.
  split; [|split].
  - unfold base_regions in Hr. repeat (apply elem_of_cons in Hr as [->|Hr]; [split; cbn [rg_va rg_size rg_pa rg_perm]; unfold PHYSTOP, KERNBASE, PLIC, VIRTIO0, UART0, PGSIZE in *; rewrite ?Hmax, ?Htr; try done; zdm|]).
    by apply not_elem_of_nil in Hr.
  - intros va Hva. apply kernel_needs. unfold base_regions in Hr.
    repeat (apply elem_of_cons in Hr as [->|Hr]; [cbn [rg_va rg_size] in Hva; unfold PHYSTOP, KERNBASE, PLIC, VIRTIO0, UART0, PGSIZE in *; lia|]). by apply not_elem_of_nil in Hr.
  - intros va Hva r' Hin Hc.
    assert (Hpair : ∀ r1 r2, ([r1; r2] `sublist_of` base_regions etext trampoline) → ¬ (rg_va r1 ≤ va < rg_va r1 + rg_size r1 ∧ rg_va r2 ≤ va < rg_va r2 + rg_size r2)); [|].
    { intros r1 r2 Hs [H1 H2]. unfold base_regions in Hs.
      repeat (apply sublist_cons_r in Hs as [Hs|(? & [= -> <-] & Hs)];
        [|apply singleton_sublist_l in Hs; repeat (apply elem_of_cons in Hs as [->|Hs]; [cbn [rg_va rg_size] in *; unfold PHYSTOP, KERNBASE, PLIC, VIRTIO0, UART0, PGSIZE in *; lia|]); by apply not_elem_of_nil in Hs]).
      by apply sublist_nil_r in Hs. }
    apply (Hpair rg r'); [|done]. destruct Hsuf as [pre ->]. apply sublist_inserts_l. apply sublist_skip. by apply singleton_sublist_l.
Qed.
Context (l0 : list Z) (m0 : mem).
Hypothesis Hnd : NoDup l0.
Hypothesis Hlen : (kernel_pages < length l0)%nat.
Notation built := (building kend kernel_paths l0 m0).

Lemma enough_pages (stk : list Z) : (length stk ≤ 64)%nat → (length kernel_paths + length stk < length l0)%nat.
Proof. intros Hs. change (length kernel_paths) with 102%nat. unfold kernel_pages in Hlen. lia. Qed.

Lemma proc_mapstacks_spec root s l : built root s l [] (base_regions etext trampoline) →
  wp (proc_mapstacks root) (λ _ s', ∃ l' stk, length stk = 64%nat ∧ NoDup stk ∧ built root s' l' stk (kernel_regions etext trampoline stk)) s.
Proof.
  intros Hb. unfold proc_mapstacks.
  set (I := λ (i : Z) (s : kmem), ∃ l stk, Z.of_nat (length stk) = i ∧ NoDup stk ∧ built root s l stk (kernel_regions etext trampoline stk)).
  eapply wp_mono; [apply (wp_for I)|].
  - intros i s1 Hi (l1 & stk & Hls & Hns & Hb1). change (Z.of_nat (Z.to_nat NPROC)) with 64 in Hi.
    destruct l1 as [|q l1]; [exfalso; eapply (building_enough kend kernel_paths l0 m0 root Hnd); [exact Hb1|apply enough_pages; lia|done]|].
    eapply wp_seq; [exact (building_kalloc kend Hend kernel_paths l0 m0 root s1 q l1 stk _ Hb1)|]. intros r s2 (-> & Hq0 & Hqok & Hb2 & Hqs).
    rewrite (proj2 (Z.eqb_neq q 0) Hq0). set (rg := mkRegion (KSTACK i) PGSIZE q RW).
    eapply wp_mono; [apply (kvmmap_spec kend Hend kernel_paths l0 m0 root Hnd s2 l1 (q :: stk) _ rg Hb2)|].
    + by apply stack_region_ok; [lia|].
    + intros va Hva. apply kernel_needs. right. right. right. unfold covers, rg, KSTACK, TRAMPOLINE in Hva. cbn [rg_va rg_size] in Hva. unfold PGSIZE in *. lia.
    + intros va Hva r' Hr' Hc'. unfold covers, rg in Hva, Hc'. cbn [rg_va rg_size] in Hva. unfold kernel_regions in Hr'. apply elem_of_app in Hr' as [Hr'|Hr'].
      * destruct (stack_region_in r' stk Hr') as (j & Hj & Ev & Es). rewrite Ev, Es in Hc'. unfold KSTACK, TRAMPOLINE, PGSIZE in *. lia.
      * unfold base_regions in Hr'. unfold KSTACK, TRAMPOLINE in Hva. change MAXVA with 274877906944 in *. unfold PHYSTOP, KERNBASE, PGSIZE in *.
        repeat (apply elem_of_cons in Hr' as [->|Hr']; [cbn [rg_va rg_size] in Hc'; unfold TRAMPOLINE, PLIC, VIRTIO0, UART0, PHYSTOP, KERNBASE, PGSIZE in Hc'; change MAXVA with 274877906944 in Hc'; lia|]).
        by apply not_elem_of_nil in Hr'.
    + apply enough_pages. cbn [length]. lia.
    + intros _ s3 (l3 & Hb3). exists l3, (q :: stk). split; [cbn [length]; lia|]. split; [by constructor|]. unfold kernel_regions. cbn [stack_regions app].
      rewrite Hls. exact Hb3.
  - exists l, []. split; [done|]. split; [constructor|exact Hb].
  - intros _ s' (l' & stk & Hls & Hns & Hb'). exists l', stk. change (0 + Z.of_nat (Z.to_nat NPROC)) with 64 in Hls. split; [lia|]. split; [done|exact Hb'].
Qed.
Ltac suffix := first [reflexivity | apply suffix_cons_r; suffix].

Lemma kvmmap_base root s l rg rs : rg :: rs `suffix_of` base_regions etext trampoline → built root s l [] rs →
  wp (kvmmap root (rg_va rg) (rg_pa rg) (rg_size rg) (rg_perm rg)) (λ _ s', ∃ l', built root s' l' [] (rg :: rs)) s.
Proof.
  intros Hsuf Hb. destruct (base_region rg rs Hsuf) as (Hok & Hneed & Hdis).
  apply (kvmmap_spec kend Hend kernel_paths l0 m0 root Hnd s l [] rs rg Hb Hok Hneed Hdis). apply enough_pages. simpl. lia.
Qed.

Lemma kvmmake_spec s : kinv kend s l0 → km_mem s = m0 →
  wp (kvmmake etext trampoline) (λ root s', ∃ l' stk, length stk = 64%nat ∧ NoDup stk ∧ built root s' l' stk (kernel_regions etext trampoline stk)) s.
Proof.
  intros Hk Hm. unfold kvmmake. assert (Hex : ∃ root l, l0 = root :: l) by (generalize Hlen; generalize l0; intros [|r l] Hl; [simpl in Hl; lia|by exists r, l]).
  destruct Hex as (root & l & El).
  eapply wp_seq; [exact (new_root kend kernel_paths l0 m0 root l s (list_elem_of_here _ _) El Hk Hm)|]. intros r s1 [-> Hb].
  apply wp_bind. unfold memset_page, wp at 1, modify. set (s2 := set_mem _ _) in *. clearbody s2.
  rewrite !u64_id by (unfold PHYSTOP, KERNBASE in *; lia). unfold base_regions in *.
  eapply wp_seq; [apply (kvmmap_base root s2 l (mkRegion UART0 PGSIZE UART0 RW) []); [suffix|exact Hb]|]. intros _ s3 (l3 & Hb3).
  eapply wp_seq; [apply (kvmmap_base root s3 l3 (mkRegion VIRTIO0 PGSIZE VIRTIO0 RW)) in Hb3; [exact Hb3|suffix]|]. intros _ s4 (l4 & Hb4).
  eapply wp_seq; [apply (kvmmap_base root s4 l4 (mkRegion PLIC 67108864 PLIC RW)) in Hb4; [exact Hb4|suffix]|]. intros _ s5 (l5 & Hb5).
  eapply wp_seq; [apply (kvmmap_base root s5 l5 (mkRegion KERNBASE (etext - KERNBASE) KERNBASE RX)) in Hb5; [exact Hb5|suffix]|]. intros _ s6 (l6 & Hb6).
  eapply wp_seq; [apply (kvmmap_base root s6 l6 (mkRegion etext (PHYSTOP - etext) etext RW)) in Hb6; [exact Hb6|suffix]|]. intros _ s7 (l7 & Hb7).
  eapply wp_seq; [apply (kvmmap_base root s7 l7 (mkRegion TRAMPOLINE PGSIZE trampoline RX)) in Hb7; [exact Hb7|suffix]|]. intros _ s8 (l8 & Hb8).
  eapply wp_seq; [exact (proc_mapstacks_spec root s8 l8 Hb8)|]. intros ? s9 H9. apply wp_ret. exact H9.
Qed.
End Kernel.

(** ** The kernel's view of memory *)

Lemma pte_of_app rs rs' va : (∀ r, r ∈ rs → ¬ covers r va) → pte_of (rs ++ rs') va = pte_of rs' va.
Proof.
  induction rs as [|r rs IH]; intros H; [done|]. cbn. rewrite decide_False by (apply H, elem_of_cons; by left).
  apply IH. intros r' Hr. apply H, elem_of_cons. by right.
Qed.

Lemma stack_regions_pte stk rs i pa va : rev stk !! i = Some pa → KSTACK (Z.of_nat i) ≤ va < KSTACK (Z.of_nat i) + PGSIZE →
  pte_of (stack_regions stk ++ rs) va = mkpte pa RW.
Proof.
  intros Hi Hva. induction stk as [|p stk IH]; [done|]. cbn [rev stack_regions app pte_of]. cbn [rev] in Hi.
  apply lookup_app_Some in Hi as [Hi|[Hi1 Hi2]].
  - pose proof (lookup_lt_Some _ _ _ Hi) as Hl. rewrite length_rev in Hl. rewrite decide_False; [by apply IH|].
    unfold covers. cbn [rg_va rg_size]. unfold KSTACK, PGSIZE in *. lia.
  - rewrite length_rev in Hi1, Hi2. apply list_lookup_singleton_Some in Hi2 as [Hi2 ->]. assert (i = length stk) as -> by lia.
    rewrite decide_True by done. cbn [rg_pa rg_va rg_perm]. f_equal. unfold KSTACK, PGSIZE in *. zdm.
Qed.

Lemma pte_of_perm rs va : pte_of rs va = 0 ∨ ∃ r, r ∈ rs ∧ covers r va ∧ pte_of rs va = mkpte (rg_pa r + (va - rg_va r) / PGSIZE * PGSIZE) (rg_perm r).
Proof.
  induction rs as [|r rs IH]; [by left|]. cbn. case_decide as Hc.
  - right. exists r. split; [apply elem_of_cons; by left|done].
  - destruct IH as [?|(r' & ? & ? & ?)]; [by left|right]. exists r'. split; [apply elem_of_cons; by right|done].
Qed.

Section View.
Context (kend etext trampoline : Z).
Hypothesis Hend : KERNBASE ≤ kend.
Hypothesis Hetext : KERNBASE < etext < PHYSTOP.
Hypothesis Hetext_al : etext mod PGSIZE = 0.
Hypothesis Htramp : KERNBASE ≤ trampoline ∧ trampoline + PGSIZE ≤ PHYSTOP.
Hypothesis Htramp_al : trampoline mod PGSIZE = 0.
Context (s : kmem) (root : Z) (l stk : list Z) (cs : csr → Z).
Hypothesis Hwf : vmwf kend s root l.
Hypothesis Hstk : length stk = 64%nat.
Hypothesis Hok : ∀ q, q ∈ stk → page_ok kend q.
Hypothesis Hpte : ∀ va, 0 ≤ va < MAXVA → pte_at (km_mem s) root va = pte_of (kernel_regions etext trampoline stk) va.
Hypothesis Hsatp : cs CSR_satp = MAKE_SATP root.
Hypothesis Hpmp : pmp_open cs.

(** What an entry of region permissions [perm] allows. *)
Definition allowed (perm : Z) (k : access) : bool := Z.testbit (Z.lor perm PTE_V) (match k with Fetch => 3 | Load => 1 | Store => 2 end).

Lemma view_region va k n pa perm : 0 ≤ va < MAXVA → va mod n = 0 → 0 < n → va mod PGSIZE + n ≤ PGSIZE →
  pte_of (kernel_regions etext trampoline stk) va = mkpte pa perm → perm = RW ∨ perm = RX → 0 ≤ pa → pa + PGSIZE ≤ 2 ^ 56 - 4 → pa mod PGSIZE = 0 →
  translate PrvS cs (km_mem s) k va n = if allowed perm k then Some (pa + va mod PGSIZE) else None.
Proof.
  intros Hva Hal Hn Hpg Hp Hperm H0 H1 H2. apply (translate_perm kend Hend s root l cs k va n pa perm); try done; [by rewrite Hpte| | |]; by destruct Hperm as [->| ->].
Qed.

Lemma stack_covers r va : r ∈ stack_regions stk → covers r va → MAXVA - 132 * PGSIZE ≤ va < TRAMPOLINE - PGSIZE.
Proof.
  intros (j & Hj & Ev & Es)%stack_region_in Hc. rewrite Hstk in Hj. unfold covers in Hc. rewrite Ev, Es in Hc. unfold KSTACK, TRAMPOLINE, PGSIZE in *. lia.
Qed.

(** Below the stacks the regions are those of the devices and of the memory. *)
Lemma view_low va : va < PHYSTOP → pte_of (kernel_regions etext trampoline stk) va = pte_of (base_regions etext trampoline) va.
Proof.
  intros Hva. apply pte_of_app. intros r Hr Hc. pose proof (stack_covers r va Hr Hc). unfold PHYSTOP, KERNBASE, PGSIZE in *. change MAXVA with 274877906944 in *. lia.
Qed.

Lemma view_memory va k n : KERNBASE ≤ va < PHYSTOP → va mod n = 0 → 0 < n → va mod PGSIZE + n ≤ PGSIZE →
  translate PrvS cs (km_mem s) k va n = if allowed (if decide (va < etext) then RX else RW) k then Some va else None.
Proof.
  intros Hva Hal Hn Hpg. assert (Hmax : 0 ≤ va < MAXVA) by (unfold PHYSTOP, KERNBASE in *; change MAXVA with 274877906944; lia).
  assert (Hp : pte_of (kernel_regions etext trampoline stk) va = mkpte (va - va mod PGSIZE) (if decide (va < etext) then RX else RW)).
  { rewrite view_low by lia. unfold base_regions. cbn [pte_of]. unfold covers. cbn [rg_va rg_size rg_pa rg_perm]. change TRAMPOLINE with 274877902848.
    unfold PHYSTOP, KERNBASE in *. rewrite (decide_False (P := 274877902848 ≤ _ < _)) by lia. destruct (decide (va < etext)).
    - rewrite decide_False, decide_True by lia. f_equal. unfold PGSIZE in *. zdm.
    - rewrite decide_True by lia. f_equal. unfold PGSIZE in *. zdm. }
  rewrite (view_region va k n _ _ Hmax Hal Hn Hpg Hp); [|case_decide; auto| | |]; unfold PHYSTOP, KERNBASE, PGSIZE in *; [|zdm..].
  replace (va - va mod 4096 + va mod 4096) with va by lia. done.
Qed.

Lemma view_device va k n : PLIC ≤ va < PLIC + 67108864 ∨ UART0 ≤ va < UART0 + PGSIZE ∨ VIRTIO0 ≤ va < VIRTIO0 + PGSIZE → va mod n = 0 → 0 < n → va mod PGSIZE + n ≤ PGSIZE →
  translate PrvS cs (km_mem s) k va n = if allowed RW k then Some va else None.
Proof.
  intros Hva Hal Hn Hpg. unfold PLIC, UART0, VIRTIO0, PGSIZE in Hva. assert (Hmax : 0 ≤ va < MAXVA) by (change MAXVA with 274877906944; lia).
  assert (Hp : pte_of (kernel_regions etext trampoline stk) va = mkpte (va - va mod PGSIZE) RW).
  { rewrite view_low by (unfold PHYSTOP, KERNBASE; lia). unfold base_regions. cbn [pte_of]. unfold covers. cbn [rg_va rg_size rg_pa rg_perm]. change TRAMPOLINE with 274877902848.
    unfold PHYSTOP, KERNBASE, PLIC, UART0, VIRTIO0, PGSIZE in *. rewrite !(decide_False (P := 274877902848 ≤ _ < _)), !(decide_False (P := etext ≤ _ < _)), !(decide_False (P := 2147483648 ≤ _ < _)) by lia.
    repeat case_decide; try lia; f_equal; zdm. }
  rewrite (view_region va k n _ _ Hmax Hal Hn Hpg Hp); [|by left| | |]; unfold PGSIZE in *; [|zdm..].
  replace (va - va mod 4096 + va mod 4096) with va by lia. done.
Qed.
Lemma view_stack i pa o k n : rev stk !! i = Some pa → 0 ≤ o → o mod n = 0 → 0 < n → PGSIZE mod n = 0 → o + n ≤ PGSIZE →
  translate PrvS cs (km_mem s) k (KSTACK (Z.of_nat i) + o) n = if allowed RW k then Some (pa + o) else None.
Proof.
  intros Hi H0 Hal Hn Hnal Hpg. assert (Hl : (i < 64)%nat) by (apply lookup_lt_Some in Hi; by rewrite length_rev, Hstk in Hi).
  assert (Hq : page_ok kend pa) by (apply Hok, elem_of_rev; by eapply list_elem_of_lookup_2).
  destruct (page_ok_range kend Hend pa Hq) as [Hr Ha].
  assert (Hk : KSTACK (Z.of_nat i) = (67108863 - (Z.of_nat i + 1) * 2) * PGSIZE) by (unfold KSTACK, TRAMPOLINE, PGSIZE; change MAXVA with 274877906944; lia).
  assert (Hm : (KSTACK (Z.of_nat i) + o) mod PGSIZE = o) by (rewrite Hk; unfold PGSIZE in *; zdm).
  assert (Hmn : (KSTACK (Z.of_nat i) + o) mod n = 0).
  { apply Z.mod_divide in Hnal, Hal; [|lia..]. apply Z.mod_divide; [lia|]. apply Z.divide_add_r; [|done]. rewrite Hk. by apply Z.divide_mul_r. }
  rewrite (view_region _ k n pa RW); rewrite ?Hm; try done; [..|by left|lia|unfold PGSIZE; lia].
  - rewrite Hk. change MAXVA with 274877906944. unfold PGSIZE in *. lia.
  - apply (stack_regions_pte stk _ i pa); [done|lia].
Qed.

Lemma view_guard i va k n : (i < 64)%nat → KSTACK (Z.of_nat i) - PGSIZE ≤ va < KSTACK (Z.of_nat i) → translate PrvS cs (km_mem s) k va n = None.
Proof.
  intros Hi Hva. assert (Hmax : 0 ≤ va < MAXVA) by (unfold KSTACK, TRAMPOLINE, PGSIZE in Hva; change MAXVA with 274877906944 in *; lia).
  destruct (decide (va mod n = 0)) as [Hal|Hal]; [|unfold translate; by rewrite (proj2 (Z.eqb_neq _ _) Hal)].
  rewrite (translate_eq kend Hend s root l) by done. rewrite Hpte by done. rewrite pte_of_none; [done|].
  unfold kernel_regions. intros r [Hr|Hr]%elem_of_app Hc.
  - destruct (stack_region_in r stk Hr) as (j & Hj & Ev & Es). unfold covers in Hc. rewrite Ev, Es in Hc. unfold KSTACK, TRAMPOLINE, PGSIZE in *. lia.
  - unfold covers, base_regions in *. unfold KSTACK, TRAMPOLINE in Hva. change MAXVA with 274877906944 in *. unfold PHYSTOP, KERNBASE, PGSIZE in *.
    repeat (apply elem_of_cons in Hr as [->|Hr]; [cbn [rg_va rg_size] in Hc; unfold TRAMPOLINE, PLIC, VIRTIO0, UART0, PGSIZE in Hc; change MAXVA with 274877906944 in Hc; lia|]).
    by apply not_elem_of_nil in Hr.
Qed.

Lemma view_trampoline_pte : pte_of (kernel_regions etext trampoline stk) TRAMPOLINE = mkpte trampoline RX.
Proof.
  unfold kernel_regions. rewrite pte_of_app.
  - unfold base_regions. cbn [pte_of]. rewrite decide_True by (unfold covers; cbn [rg_va rg_size]; done). cbn [rg_pa rg_va rg_perm]. rewrite Z.sub_diag. by rewrite Z.add_0_r.
  - intros r Hr Hc. pose proof (stack_covers r _ Hr Hc). unfold PGSIZE in *. lia.
Qed.

(** No entry has the user bit. *)
Lemma view_user k va n : translate PrvU cs (km_mem s) k va n = None.
Proof.
  destruct (translate PrvU cs (km_mem s) k va n) as [pa|] eqn:E; [|done]. exfalso.
  destruct (translate_user kend Hend s root l cs k va n pa Hwf Hsatp E) as (_ & (Hva & _ & HU) & _). rewrite Hpte in HU by done.
  destruct (pte_of_perm (kernel_regions etext trampoline stk) va) as [Hz|(r & Hr & Hc & Hp)]; [by rewrite Hz in HU|].
  assert (Hreg : region_ok r ∧ (rg_perm r = RW ∨ rg_perm r = RX)).
  { unfold kernel_regions in Hr. apply elem_of_app in Hr as [Hr|Hr].
    - clear - Hr Hok Hend Hstk. assert (Hlen : (length stk ≤ 64)%nat) by lia. clear Hstk. induction stk as [|p stk' IH]; [by apply not_elem_of_nil in Hr|]. cbn [stack_regions length] in *.
      apply elem_of_cons in Hr as [->|Hr].
      + split; [|by left]. apply (stack_region_ok kend Hend); [lia|]. apply Hok, elem_of_cons. by left.
      + apply IH; [intros q Hq; apply Hok, elem_of_cons; by right|done|lia].
    - split.
      + destruct (list_elem_of_split _ _ Hr) as (l1 & l2 & E2). destruct (base_region etext trampoline Hetext Hetext_al Htramp Htramp_al r l2) as [? _]; [exists l1; exact E2|done].
      + unfold base_regions in Hr. repeat (apply elem_of_cons in Hr as [->|Hr]; [cbn; auto|]). by apply not_elem_of_nil in Hr. }
  destruct Hreg as [[(Hv1 & Hv2 & _) _ (Hp1 & Hp2 & Hp3) Hperm] Hcase]. rewrite Hp in HU.
  change PTE_U with (2 ^ 4) in HU. rewrite has_testbit in HU by lia. unfold covers in Hc.
  rewrite testbit_mkpte in HU by (try done; unfold PGSIZE in *; zdm). destruct Hcase as [E2|E2]; rewrite E2 in HU; discriminate HU.
Qed.
End View.

(** C8: the kernel's page table.  With more than 166 free pages, [kvmmake] returns
    (it neither panics nor runs out of memory), and under the table that it returns,
    as the hart walks it in supervisor mode: the memory from KERNBASE to PHYSTOP and
    the registers of the UART, the disk and the PLIC are at their own addresses; the
    text of the kernel can be read and executed but not written, everything else
    can be read and written but not executed; the trampoline is at TRAMPOLINE;
    every process has a page of its own as kernel stack at [KSTACK], and the page
    below each stack is not mapped.  User mode can use none of it.  The pages taken
    are the tables and the stacks; no other memory has changed. *)
Theorem kernel_page_table (kend etext trampoline : Z) (s : kmem) (l : list Z)
    (Hend : KERNBASE ≤ kend) (Hetext : KERNBASE < etext < PHYSTOP) (Hetext_al : etext mod PGSIZE = 0)
    (Htramp : KERNBASE ≤ trampoline ∧ trampoline + PGSIZE ≤ PHYSTOP) (Htramp_al : trampoline mod PGSIZE = 0)
    (Hk : kinv kend s l) (Hlen : (kernel_pages < length l)%nat) :
  ∃ root s' l' stk, kvmmake etext trampoline s = Ok root s' ∧ vmwf kend s' root l' ∧
    length stk = 64%nat ∧ NoDup stk ∧ (∀ q, q ∈ stk → q ∉ l' ∧ ¬ is_table (km_mem s') root q) ∧
    (∀ q, q ∈ l ↔ q ∈ l' ∨ is_table (km_mem s') root q ∨ q ∈ stk) ∧
    (∀ x, (∀ q, q ∈ l → ¬ in_page q x) → km_mem s' x = km_mem s x) ∧
    pte_at (km_mem s') root TRAMPOLINE = mkpte trampoline (Z.lor PTE_R PTE_X) ∧
    ∀ cs, cs CSR_satp = MAKE_SATP root → pmp_open cs →
      (∀ va k, KERNBASE ≤ va < PHYSTOP → va mod 8 = 0 →
         translate PrvS cs (km_mem s') k va 8 = if allowed (if decide (va < etext) then Z.lor PTE_R PTE_X else Z.lor PTE_R PTE_W) k then Some va else None) ∧
      (∀ va k, PLIC ≤ va < PLIC + 67108864 ∨ UART0 ≤ va < UART0 + PGSIZE ∨ VIRTIO0 ≤ va < VIRTIO0 + PGSIZE → va mod 8 = 0 →
         translate PrvS cs (km_mem s') k va 8 = if allowed (Z.lor PTE_R PTE_W) k then Some va else None) ∧
      (∀ i pa o k, rev stk !! i = Some pa → 0 ≤ o < PGSIZE → o mod 8 = 0 →
         translate PrvS cs (km_mem s') k (KSTACK (Z.of_nat i) + o) 8 = if allowed (Z.lor PTE_R PTE_W) k then Some (pa + o) else None) ∧
      (∀ i va k, (i < 64)%nat → KSTACK (Z.of_nat i) - PGSIZE ≤ va < KSTACK (Z.of_nat i) → translate PrvS cs (km_mem s') k va 8 = None) ∧
      (∀ va k, translate PrvU cs (km_mem s') k va 8 = None).
Proof.
  pose proof Hk as (_ & Hnd & _).
  destruct (wp_inv _ _ _ (kvmmake_spec kend etext trampoline Hend Hetext Hetext_al Htramp Htramp_al l (km_mem s) Hnd Hlen s Hk eq_refl))
    as (root & s' & He & l' & stk & Hls & Hns & [Hwf _ Hfr Htab Hstk Hall Hpte Hmem]).
  assert (Hok : ∀ q, q ∈ stk → page_ok kend q) by (intros q Hq; by apply Hstk).
  exists root, s', l', stk. split; [done|]. split; [done|]. split; [done|]. split; [done|].
  split; [intros q Hq; by destruct (Hstk q Hq) as (_ & ? & _ & ?)|].
  split; [intros q; split; [apply Hall|intros [?|[?|Hq]]; [by apply Hfr|by apply Htab|by apply Hstk]]|]. split; [done|].
  split; [rewrite Hpte by done; by apply view_trampoline_pte|]. intros cs Hsatp Hpmp.
  assert (Hpage : ∀ va, va mod 8 = 0 → va mod PGSIZE + 8 ≤ PGSIZE) by (intros va Ha; unfold PGSIZE; zdm).
  split; [|split; [|split; [|split]]].
  - intros va k Hva Hal. eapply (view_memory kend etext trampoline); eauto. lia.
  - intros va k Hva Hal. eapply (view_device kend etext trampoline); eauto. lia.
  - intros i pa o k Hi Ho Hal. eapply (view_stack kend etext trampoline); eauto; try lia; unfold PGSIZE in *; zdm.
  - intros i va k Hi Hva. eapply (view_guard kend etext trampoline); eauto.
  - intros va k. eapply (view_user kend etext trampoline); eauto.
Qed.

(** With 256 free pages at the end of memory. *)
Lemma kernel_page_table_witness : ∃ (s : kmem) (root : Z) (s' : kmem) (stk : list Z), kvmmake (KERNBASE + 32768) KERNBASE s = Ok root s' ∧ length stk = 64%nat ∧
  pte_at (km_mem s') root TRAMPOLINE = mkpte KERNBASE (Z.lor PTE_R PTE_X).
Proof.
  set (kend := PHYSTOP - 1048576). assert (Hend : KERNBASE ≤ kend) by (unfold kend, PHYSTOP, KERNBASE; lia).
  destruct (wp_inv _ _ _ (kinit_spec kend Hend (mkKmem (λ _, 0) 0) ltac:(unfold kend; lia) eq_refl)) as ([] & s & _ & l & Hk & Hl & _).
  assert (Hlen : (kernel_pages < length l)%nat).
  { assert (Hsub : ((λ i, kend + i * 4096) <$> seqZ 0 256) ⊆+ l).
    { apply NoDup_submseteq; [apply NoDup_fmap_2; [intros ? ?; lia|apply NoDup_seqZ]|]. intros q (i & -> & Hi)%list_elem_of_fmap. apply elem_of_seqZ in Hi. apply Hl.
      unfold page_ok, kend, PHYSTOP, KERNBASE, PGSIZE. split; [zdm|lia]. }
    apply submseteq_length in Hsub. rewrite length_fmap, length_seqZ in Hsub. unfold kernel_pages. lia. }
  destruct (kernel_page_table kend (KERNBASE + 32768) KERNBASE s l Hend ltac:(unfold PHYSTOP, KERNBASE; lia) eq_refl ltac:(unfold PHYSTOP, KERNBASE, PGSIZE; lia) eq_refl Hk Hlen)
    as (root & s' & l' & stk & He & _ & Hls & _ & _ & _ & _ & Hp & _).
  exists s, root, s', stk. split; [exact He|]. split; [exact Hls|exact Hp].
Defined.
