(* ===== verification/Boot.v ===== *)
(** * Boot: kernel/entry.S, kernel/start.c, kernel/main.c

    From the reset of a hart in machine mode to its arrival in [main] in
    supervisor mode; the initialisation that the first hart does while the others
    wait; and the state of the machine when the harts enter the scheduler. *)
From stdpp Require Import functions.
From S2P Require Import Prelude Riscv CString Kalloc Vm VmSpec Isa Asm Mmu.

(** ** kernel/start.c *)

(** ask each hart to generate timer interrupts. *)
Definition timerinit : M mach unit :=
  do x <- r_mie; w_mie (Z.lor x MIE_STIE) ;;;
  do x <- r_menvcfg; w_menvcfg (Z.lor x (Z.shiftl 1 63)) ;;;
  do x <- r_mcounteren; w_mcounteren (Z.lor x 2) ;;;
  do t <- r_time; w_stimecmp (t + 1000000).

Definition start (main : Z) : M mach unit :=
  do x <- r_mstatus;
  let x := Z.ldiff x MSTATUS_MPP_MASK in
  let x := Z.lor x MSTATUS_MPP_S in
  w_mstatus x ;;;
  w_mepc main ;;;
  w_satp 0 ;;;
  w_medeleg 65535 ;;;
  w_mideleg 65535 ;;;
  do x <- r_sie; w_sie (Z.lor (Z.lor (Z.lor x SIE_SEIE) SIE_STIE) SIE_SSIE) ;;;
  w_pmpaddr0 18014398509481983 ;;;
  w_pmpcfg0 15 ;;;
  timerinit ;;;
  do id <- r_mhartid;
  w_tp (i32 id) ;;;
  modify mret.

(** ** A hart between its reset and [main] *)

(** The registers that [start] leaves. *)
Definition started_csrs (main : Z) (f : csr → Z) : csr → Z :=
  let st := Z.lor (Z.ldiff (f CSR_mstatus) MSTATUS_MPP_MASK) MSTATUS_MPP_S in
  <[CSR_mstatus := Z.ldiff (with_bit (with_bit st MSTATUS_MIE (has st MSTATUS_MPIE)) MSTATUS_MPIE true) MSTATUS_MPP_MASK]>
  (<[CSR_stimecmp := u64 (f CSR_time + 1000000)]>
  (<[CSR_mcounteren := Z.lor (f CSR_mcounteren) 2]>
  (<[CSR_menvcfg := Z.lor (f CSR_menvcfg) (2 ^ 63)]>
  (<[CSR_mie := Z.lor (merge 65535 (f CSR_mie) (Z.lor (Z.lor (Z.lor (Z.land (f CSR_mie) 65535) SIE_SEIE) SIE_STIE) SIE_SSIE)) MIE_STIE]>
  (<[CSR_pmpcfg0 := 15]> (<[CSR_pmpaddr0 := 2 ^ 54 - 1]> (<[CSR_mideleg := 65535]> (<[CSR_medeleg := 63487]> (<[CSR_satp := 0]>
  (<[CSR_mepc := main]> f)))))))))).

Lemma u64_w x : w64 x → u64 x = x.
Proof. apply u64_id. Qed.
Lemma csrr_m c s : prv s = PrvM → csrr c s = Ok (csr_get c (csrs s)) s.
Proof. intros Hp. unfold csrr. by rewrite Hp. Qed.
Lemma csrw_m c v s : prv s = PrvM → csrw c v s = Ok tt (set_csrs (csr_put c (u64 v) (csrs s)) s).
Proof. intros Hp. unfold csrw. by rewrite Hp. Qed.

(** One access to a register in machine mode. *)
Ltac csr_lookup := repeat first [rewrite fn_lookup_insert | rewrite fn_lookup_insert_ne by discriminate].
Ltac mstep := repeat rewrite bind_assoc; erewrite bind_Ok by (first [apply csrr_m | apply csrw_m]; reflexivity);
  unfold set_csrs; cbn [regs pc prv csrs ram csr_get csr_put]; csr_lookup;
  rewrite ?u64_w by auto 10 with width; csr_lookup.

Lemma mpp_s x : mpp (Z.lor (Z.ldiff x MSTATUS_MPP_MASK) MSTATUS_MPP_S) = PrvS.
Proof.
  unfold mpp. replace (Z.land _ 3) with 1; [done|]. symmetry. apply Z.bits_inj'. intros n Hn.
  rewrite Z.land_spec, Z.shiftr_spec, Z.lor_spec, Z.ldiff_spec by done. unfold MSTATUS_MPP_MASK, MSTATUS_MPP_S.
  rewrite !Z.shiftl_spec by lia. replace (n + 11 - 11) with n by lia.
  destruct (decide (n = 0)) as [->|]; [by rewrite andb_false_r|]. destruct (decide (n = 1)) as [->|]; [by rewrite andb_false_r|].
  assert (Hb : ∀ v, 0 < v < 4 → Z.testbit v n = false) by (intros; apply Z.bits_above_log2; [lia|]; apply Z.log2_lt_pow2; [lia|];
    apply Z.lt_le_trans with (2 ^ 2); [lia|apply Z.pow_le_mono_r; lia]).
  rewrite !(Hb 1), !(Hb 3) by lia. by rewrite andb_false_r.
Qed.

Lemma w64_merge mask x y : 0 ≤ mask → w64 x → w64 y → w64 (merge mask x y).
Proof. intros. unfold merge. auto with width. Qed.
#[local] Hint Resolve w64_merge : width.

Lemma start_spec main s : mach_ok s → prv s = PrvM → w64 main → main mod 2 = 0 → 0 ≤ csrs s CSR_mhartid < 2 ^ 31 →
  ∃ s', start main s = Ok tt s' ∧ regs s' = <[TP := csrs s CSR_mhartid]> (regs s) ∧ pc s' = main ∧ prv s' = PrvS ∧ ram s' = ram s ∧
    ∀ c, csrs s' c = started_csrs main (csrs s) c.
Proof.
  intros [_ _ _ Hcs _] Hp Hmain Hev Hid. destruct s as [f c p cs m]. cbn [prv csrs regs ram] in *. subst p.
  assert (H0 : w64 0 ∧ w64 65535 ∧ w64 18014398509481983 ∧ w64 15 ∧ w64 MSTATUS_MPP_S ∧ w64 SIE_SEIE ∧ w64 SIE_STIE ∧ w64 SIE_SSIE ∧
    w64 MIE_STIE ∧ w64 (Z.shiftl 1 63) ∧ w64 2 ∧ 0 ≤ 65535) by (repeat split; try lia; done).
  destruct_and! H0. eexists. split.
  - unfold start, timerinit, r_mstatus, w_mstatus, w_mepc, w_satp, w_medeleg, w_mideleg, r_sie, w_sie, w_pmpaddr0, w_pmpcfg0, r_mie, w_mie,
      r_menvcfg, w_menvcfg, r_mcounteren, w_mcounteren, r_time, w_stimecmp, r_mhartid.
    do 19 mstep. unfold w_tp. erewrite bind_Ok by reflexivity. unfold modify, put_x. rewrite i32_id, u64_id by lia.
    unfold mret, set_regs. cbn [regs pc prv csrs ram]. csr_lookup. rewrite mpp_s, ldiff_even by done. reflexivity.
  - cbn [regs pc prv csrs ram]. do 4 (split; [done|]). intros k. unfold started_csrs. destruct k; csr_lookup; done.
Qed.

(** The entry code: the stack of hart [h] is the [h]-th page of [stack0]. *)
Lemma entry_runs code ca stack0 start_a spin s h :
  loaded code ca (entry stack0 start_a spin) → ca mod 4 = 0 → 0 ≤ ca → ca + 32 < 2 ^ 64 → w64 start_a →
  0 ≤ stack0 → stack0 + 4096 * NCPU < 2 ^ 64 → prv s = PrvM → pc s = ca → csrs s CSR_mhartid = h → 0 ≤ h < NCPU →
  ∃ f, run code 7 s = Some (mkMach f start_a PrvM (csrs s) (ram s)) ∧ f SP = stack0 + 4096 * (h + 1) ∧
    (∀ r, r ∉ [SP; A0; A1; RA] → f r = regs s r) ∧ ((∀ r, w64 (regs s r)) → ∀ r, w64 (f r)).
Proof.
  intros Hl Hal H0 H1 Hst Hs0 Hs1 Hp Hpc Hh Hn. destruct s as [g c p cs m]. cbn [prv pc csrs ram regs] in *. subst p c.
  assert (Hr : runs_at code PrvM cs (λ _, True) ca ca (entry stack0 start_a spin)).
  { split; [done| |done|cbn [length entry]; lia]. intros m' i _ Hi. unfold translate, pmp_ok.
    replace ((ca + 4 * i) mod 4) with 0 by zdm. done. }
  unfold NCPU in *. unfold entry in *. eexists. split; [|split; [|split]].
  - do 6 instr Hr I. rewrite (runs_at_step _ _ _ _ _ _ _ _ _ _ _ _ Hr I eq_refl). unfold put_x, set_regs, set_pc. cbn [regs pc prv csrs ram].
    rewrite (u64_w start_a) by done. reflexivity.
  - csr_lookup. cbn [csr_get]. rewrite Hh. change (1024 * 4) with 4096. rewrite (u64_id stack0), (u64_id 4096) by lia.
    rewrite (u64_id h), (u64_id (h + 1)), (u64_id (4096 * _)), u64_id by lia. done.
  - intros r Hr'. rewrite !fn_lookup_insert_ne; [done|set_solver..].
  - intros Hg r. repeat (match goal with |- w64 (<[?k := _]> _ _) => destruct (decide (r = k)) as [->|];
      [rewrite fn_lookup_insert; apply w64_u64|rewrite fn_lookup_insert_ne by done] end). apply Hg.
Qed.

Lemma has_or x y b : has (Z.lor x y) b = has x b || has y b.
Proof.
  unfold has. rewrite Z.land_lor_distr_l, <- negb_andb. f_equal. apply eq_true_iff_eq. rewrite andb_true_iff, !Z.eqb_eq. apply Z.lor_eq_0_iff.
Qed.

(** [has] looks at one bit, which other masks leave alone. *)
Lemma has_ldiff x y b : Z.land y b = 0 → has (Z.ldiff x y) b = has x b.
Proof.
  intros Hy. unfold has. replace (Z.land (Z.ldiff x y) b) with (Z.land x b); [done|]. apply Z.bits_inj'. intros n Hn.
  apply (f_equal (λ v, Z.testbit v n)) in Hy. rewrite Z.land_spec, Z.bits_0 in Hy. rewrite !Z.land_spec, Z.ldiff_spec.
  by destruct (Z.testbit x n), (Z.testbit y n), (Z.testbit b n).
Qed.
Lemma has_land x y b : Z.land y b = b → has (Z.land x y) b = has x b.
Proof. intros Hy. unfold has. by rewrite <- Z.land_assoc, Hy. Qed.

(** The interrupt enable bit of supervisor mode is as it was at the reset. *)
Lemma started_sie main f : has (csr_get CSR_sstatus (started_csrs main f)) SSTATUS_SIE = has (f CSR_mstatus) SSTATUS_SIE.
Proof.
  cbn [csr_get]. unfold started_csrs. csr_lookup. rewrite has_land, has_ldiff by done. cbn [with_bit].
  destruct (has _ MSTATUS_MPIE); cbn [with_bit]; rewrite !has_or; repeat (rewrite has_ldiff by done; rewrite ?has_or);
    change (has MSTATUS_MIE SSTATUS_SIE) with false; change (has MSTATUS_MPIE SSTATUS_SIE) with false;
    change (has MSTATUS_MPP_S SSTATUS_SIE) with false; by rewrite !orb_false_r.
Qed.

(** All three kinds of interrupt are enabled in [sie], and nothing is lost. *)
Lemma started_enables main f b : b ∈ [SIE_SEIE; SIE_STIE; SIE_SSIE] → has (csr_get CSR_sie (started_csrs main f)) b = true.
Proof.
  intros Hb. assert (Hm : Z.land 65535 b = b ∧ has (Z.lor (Z.lor SIE_SEIE SIE_STIE) SIE_SSIE) b = true).
  { revert b Hb. apply Forall_forall. repeat constructor. }
  destruct Hm as [Hm Hs]. cbn [csr_get]. unfold started_csrs. csr_lookup. unfold merge.
  rewrite has_land, !has_or, has_land, !has_or by done. rewrite !has_or in Hs. destruct (has SIE_SEIE b), (has SIE_STIE b), (has SIE_SSIE b); try done;
    by rewrite ?orb_true_r.
Qed.

(** A hart as [main] finds it. *)
Record in_main (main stack0 h : Z) (s : mach) : Prop := {
  im_mode : prv s = PrvS;
  im_pc : pc s = main;
  im_tp : regs s TP = h;
  im_sp : regs s SP = stack0 + 4096 * (h + 1);
  im_bare : open_bare (csrs s);
  im_deleg : csrs s CSR_mideleg = 65535 ∧ has (csrs s CSR_medeleg) (2 ^ 8) = true;
  im_time : csr_ok PrvS (csrs s) CSR_time = true ∧ csr_ok PrvS (csrs s) CSR_stimecmp = true;
  im_enabled : ∀ b, b ∈ [SIE_SEIE; SIE_STIE; SIE_SSIE] → has (csr_get CSR_sie (csrs s)) b = true;
}.

(** C15: every hart gets from its reset to [main].  In machine mode, the entry code
    runs to its end and calls [start] with the stack pointer at the top of the page of
    [stack0] that belongs to the hart, a different one for each; [start] then
    arrives at [main] in supervisor mode with that stack, the number of the hart in
    [tp], paging off and all physical memory open, every interrupt and the system
    calls of user mode delegated to supervisor mode, the three interrupt sources
    enabled and the timer registers usable.  Memory is as it was, and interrupts
    are on only if they were on at the reset. *)
Theorem boot_to_main (code : Z → option instr) (ca stack0 start_a spin main : Z) (s : mach) (h : Z)
    (Hcode : loaded code ca (entry stack0 start_a spin)) (Hca : ca mod 4 = 0) (Hca0 : 0 ≤ ca) (Hca1 : ca + 32 < 2 ^ 64) (Hstart : w64 start_a)
    (Hmain : w64 main) (Hmain2 : main mod 2 = 0) (Hs0 : 0 ≤ stack0) (Hs1 : stack0 + 4096 * NCPU < 2 ^ 64)
    (Hok : mach_ok s) (Hp : prv s = PrvM) (Hpc : pc s = ca) (Hh : csrs s CSR_mhartid = h) (Hn : 0 ≤ h < NCPU) :
  ∃ s1 s2, run code 7 s = Some s1 ∧ pc s1 = start_a ∧ regs s1 SP = stack0 + 4096 * (h + 1) ∧
    start main s1 = Ok tt s2 ∧ in_main main stack0 h s2 ∧ ram s2 = ram s ∧
    has (csr_get CSR_sstatus (csrs s2)) SSTATUS_SIE = has (csrs s CSR_mstatus) SSTATUS_SIE.
Proof.
  destruct (entry_runs code ca stack0 start_a spin s h) as (f & Hrun & Hsp & Hf & Hw); try done.
  destruct (start_spec main (mkMach f start_a PrvM (csrs s) (ram s))) as (s2 & Hs & Hr & Hpc2 & Hp2 & Hm & Hc); try done.
  { destruct Hok as [H1 H2 H3 H4 H5]. split; cbn [regs pc csrs ram]; try done; [by apply Hw|]. rewrite Hf; [done|set_solver]. }
  { cbn [csrs]. unfold NCPU in Hn. lia. }
  cbn [csrs regs ram] in *. exists (mkMach f start_a PrvM (csrs s) (ram s)), s2. do 4 (split; [done|]).
  assert (Hsame : ∀ c, csr_get c (csrs s2) = csr_get c (started_csrs main (csrs s))) by (intros []; cbn [csr_get]; by rewrite !Hc).
  split; [|split; [done|by rewrite Hsame, started_sie]]. split; try done.
  - by rewrite Hr, fn_lookup_insert.
  - by rewrite Hr, fn_lookup_insert_ne.
  - unfold open_bare. rewrite !Hc. done.
  - rewrite !Hc. done.
  - unfold csr_ok, time_open. rewrite !Hc. unfold started_csrs. csr_lookup. rewrite !has_or. change (has 2 2) with true.
    change (has (2 ^ 63) (2 ^ 63)) with true. by rewrite !orb_true_r.
  - intros b Hb. rewrite Hsame. by apply started_enables.
Qed.

(** Hart 3 of a machine with the kernel at KERNBASE. *)
Definition reset_hart : mach := mkMach (λ _, 0) KERNBASE PrvM (<[CSR_mhartid := 3]> (λ _, 0)) (λ _, 0).
Definition reset_code (pa : Z) : option instr :=
  if pa <? KERNBASE then None else entry (KERNBASE + 65536) (KERNBASE + 64) (KERNBASE + 28) !! Z.to_nat ((pa - KERNBASE) / 4).

Lemma boot_to_main_witness : ∃ s1 s2, run reset_code 7 reset_hart = Some s1 ∧ start (KERNBASE + 128) s1 = Ok tt s2 ∧
  in_main (KERNBASE + 128) (KERNBASE + 65536) 3 s2.
Proof.
  destruct (boot_to_main reset_code KERNBASE (KERNBASE + 65536) (KERNBASE + 64) (KERNBASE + 28) (KERNBASE + 128) reset_hart 3)
    as (s1 & s2 & H1 & _ & _ & H2 & H3 & _); try (done || (split; [discriminate|done])).
  - intros i ins Hi. unfold reset_code. replace (_ <? _) with false by (symmetry; apply Z.ltb_ge; lia).
    replace ((KERNBASE + 4 * Z.of_nat i - KERNBASE) / 4) with (Z.of_nat i); [by rewrite Nat2Z.id|].
    replace (_ - KERNBASE) with (Z.of_nat i * 4) by lia. by rewrite Z.div_mul.
  - split; try done. intros c. unfold reset_hart. cbn [csrs].
    destruct (decide (CSR_mhartid = c)) as [<-|]; [by rewrite fn_lookup_insert|by rewrite fn_lookup_insert_ne].
  - by exists s1, s2.
Defined.
