(* ===== verification/UserMem.v ===== *)
(** * UserMem: the memory of the current process

    What the components above the virtual memory system use of it: [copyin] and
    [copyout] on the page table of the current process.  [UserMem] names the two
    operations and [UserSpec] what they promise; the page tables of Vm.v are
    one instance, a finite map from addresses to bytes another. *)
From S2P Require Import Prelude Riscv CString Kalloc Vm VmSpec VmUser VmCopy.

(** How a run of a routine that may sleep ends: with its result, or asleep with
    the local variable its next run resumes from. *)
Inductive run_end : Type :=
| Return (r : Z)
| Asleep (i : Z).

(** [uin u a n]: the [n] bytes at [a], [None] for the error return;
    [uout u a l]: store [l] at [a]; the boolean is false for the error return,
    which may leave a prefix of [l] stored;
    [upart u a n]: the bytes [copyin] has stored when it fails;
    [ustr u a max]: the string at [a] up to its NUL, which is among the first
    [max] bytes, [None] for the error return;
    [kin] and [kout] access the kernel's own memory. *)
Class UserMem (U : Type) : Type := {
  uin : U → Z → Z → option (list Z);
  uout : U → Z → list Z → bool * U;
  upart : U → Z → Z → list Z;
  ustr : U → Z → Z → option (list Z);
  kin : U → Z → Z → list Z;
  kout : U → Z → list Z → U;
}.

(** [either_copyout] and [either_copyin] of proc.c. *)
Definition either_copyout {U} `{UserMem U} (user_dst : bool) (u : U) (dst : Z) (src : list Z) : bool * U :=
  if user_dst then uout u dst src else (true, kout u dst src).
Definition either_copyin {U} `{UserMem U} (user_src : bool) (u : U) (src len : Z) : option (list Z) :=
  if user_src then uin u src len else Some (kin u src len).

(** ... and what the destination has received in either case. *)
Definition either_copied {U} `{UserMem U} (user_src : bool) (u : U) (src len : Z) : bool * list Z :=
  match either_copyin user_src u src len with
  | Some l => (true, l)
  | None => (false, upart u src len)
  end.

Class UserSpec (U : Type) `{UserMem U} : Type := {
  uok : U → Prop;
  uin_length u a n l : uok u → 0 ≤ a < 2 ^ 64 → 0 ≤ n → uin u a n = Some l → length l = Z.to_nat n;
  uout_ok u a l : uok u → 0 ≤ a < 2 ^ 64 → uok (uout u a l).2;
  uin_uout u a l u' :
    uok u → 0 ≤ a < 2 ^ 64 → uout u a l = (true, u') → uin u' a (Z.of_nat (length l)) = Some l;
}.

(** ** The page table of a process *)

Record uproc : Type := mkU { um_mem : kmem; um_root : Z }.

#[export] Instance vm_user : UserMem uproc := {|
  uin u a n :=
    match copyin (um_root u) a n (um_mem u) with
    | Ok (r, l) _ => if r =? 0 then Some l else None
    | _ => None
    end;
  uout u a l :=
    match copyout (um_root u) a l (um_mem u) with
    | Ok r s' => (r =? 0, mkU s' (um_root u))
    | _ => (false, u)
    end;
  upart u a n := match copyin (um_root u) a n (um_mem u) with Ok (_, l) _ => l | _ => [] end;
  ustr u a max :=
    match copyinstr (um_root u) a max (um_mem u) with
    | Ok (r, l) _ => if r =? 0 then Some (take (length l - 1) l) else None
    | _ => None
    end;
  kin u a n := read_bytes (km_mem (um_mem u)) a (Z.to_nat n);
  kout u a l := mkU (set_mem (write_bytes (km_mem (um_mem u)) a l) (um_mem u)) (um_root u);
|}.

(** The memory above [kend] is that of a well-formed user page table. *)
Section vm_user.
Context (kend : Z) (Hend : KERNBASE ≤ kend).

#[local] Definition vm_ok (u : uproc) : Prop := ∃ l, uspace kend (um_mem u) (um_root u) l.

#[export] Program Instance vm_user_spec : UserSpec uproc := {| uok := vm_ok |}.
Next Obligation.
  intros u a n l [fl Hus] Ha Hn. simpl. unfold copyin.
  destruct (copyin_loop_spec kend Hend (Z.to_nat n) (um_root u) [] a n (um_mem u) fl Hus Ha Hn)
    as (r & k & Hk & He & _ & Hr); [lia|].
  rewrite He. destruct Hr as [[-> ->]|(-> & _)]; [|done]. simpl. intros [= <-]. apply length_ubytes.
Qed.
Next Obligation.
  intros u a l [fl Hus] Ha. simpl.
  destruct (wp_inv _ _ _ (copyout_spec kend Hend (um_root u) a l (um_mem u) fl Hus Ha)) as (r & s' & -> & Hus' & _).
  by exists fl.
Qed.
Next Obligation.
  intros u a l u' [fl Hus] Ha. simpl.
  destruct (wp_inv _ _ _ (copyout_spec kend Hend (um_root u) a l (um_mem u) fl Hus Ha)) as (r & s' & He & _).
  rewrite He. intros [= Hr <-]. apply Z.eqb_eq in Hr as ->.
  simpl. by rewrite (copyin_after_copyout kend (um_root u) a l (um_mem u) s' fl).
Qed.
End vm_user.

(** ** A map from addresses to bytes

    Every mapped address is readable and writable. *)
Definition fmem : Type := gmap Z Z.

Fixpoint fin (u : fmem) (a : Z) (n : nat) : option (list Z) :=
  match n with
  | O => Some []
  | S n => match u !! a, fin u (a + 1) n with Some v, Some l => Some (v :: l) | _, _ => None end
  end.
Fixpoint fpart (u : fmem) (a : Z) (n : nat) : list Z :=
  match n with
  | O => []
  | S n => match u !! a with Some v => v :: fpart u (a + 1) n | None => [] end
  end.
Fixpoint fout (u : fmem) (a : Z) (l : list Z) : bool * fmem :=
  match l with
  | [] => (true, u)
  | v :: l => match u !! a with Some _ => fout (<[a := v]> u) (a + 1) l | None => (false, u) end
  end.

Fixpoint fstr (u : fmem) (a : Z) (n : nat) : option (list Z) :=
  match n with
  | O => None
  | S n =>
      match u !! a with
      | Some 0 => Some []
      | Some v => match fstr u (a + 1) n with Some l => Some (v :: l) | None => None end
      | None => None
      end
  end.

#[export] Instance map_user : UserMem fmem := {|
  uin u a n := fin u a (Z.to_nat n);
  uout := fout;
  upart u a n := fpart u a (Z.to_nat n);
  ustr u a max := fstr u a (Z.to_nat max);
  kin u a n := (λ i, default 0 (u !! (a + Z.of_nat i))) <$> seq 0 (Z.to_nat n);
  kout u a l := foldl (λ u p, <[a + Z.of_nat p.1 := p.2]> u) u (zip (seq 0 (length l)) l);
|}.
