(* ===== verification/Ring.v ===== *)
(** * Ring: buffers indexed by counters that wrap

    The pipe, the console, the UART and the disk driver keep bytes in an array
    of [N] slots and address slot [c % N] with a counter [c] that wraps at a
    multiple of [N]. *)
From S2P Require Import Prelude.

Section ring.
Context (N : Z) (HN : 0 < N).
Implicit Types (data : list Z) (r : Z) (n k : nat).

Definition slot (c : Z) : nat := Z.to_nat (c mod N).

(** The [n] bytes from counter [r] on. *)
Definition ring data r n : list Z := (λ k, nth (slot (r + Z.of_nat k)) data 0) <$> seq 0 n.

Lemma length_ring data r n : length (ring data r n) = n.
Proof. unfold ring. by rewrite length_fmap, length_seq. Qed.

(** The counter may be taken modulo any multiple of the size. *)
Lemma slot_wrap a b W : (N | W) → 0 < W → slot (a mod W + b) = slot (a + b).
Proof using HN.
  intros [q ->] HW. unfold slot. f_equal. rewrite Zplus_mod, (Zplus_mod a). f_equal. f_equal.
  rewrite Z.mul_comm, Z.rem_mul_r by nia. rewrite Z.mul_comm, Z_mod_plus_full. apply Z.mod_mod. lia.
Qed.

Lemma ring_wrap data a n W : (N | W) → 0 < W → ring data (a mod W) n = ring data a n.
Proof using HN. intros. unfold ring. apply list_fmap_ext. intros. by rewrite slot_wrap. Qed.

Lemma slot_lt c : Z.of_nat (slot c) < N.
Proof using HN. unfold slot. pose proof (Z.mod_pos_bound c N HN). lia. Qed.

Lemma slot_inj a b : slot a = slot b → - N < a - b < N → a = b.
Proof using HN.
  unfold slot. intros He Hb. pose proof (Z.mod_pos_bound a N HN). pose proof (Z.mod_pos_bound b N HN).
  apply Z2Nat.inj in He; [|lia|lia].
  pose proof (Z.div_mod a N ltac:(lia)). pose proof (Z.div_mod b N ltac:(lia)).
  assert (a / N = b / N) by nia. lia.
Qed.

Lemma ring_ext data data' r n :
  (∀ k, (k < n)%nat → data' !! slot (r + Z.of_nat k) = data !! slot (r + Z.of_nat k)) →
  ring data' r n = ring data r n.
Proof using Type.
  intros He. unfold ring. apply list_fmap_ext. intros k x Hk. apply lookup_seq in Hk as [-> Hk]. simpl.
  by rewrite !nth_lookup, He.
Qed.

Lemma ring_snoc data r n :
  ring data r (S n) = ring data r n ++ [nth (slot (r + Z.of_nat n)) data 0].
Proof using Type. unfold ring. rewrite seq_S, fmap_app. done. Qed.

Lemma ring_cons data r n : ring data r (S n) = nth (slot r) data 0 :: ring data (r + 1) n.
Proof using Type.
  unfold ring. simpl. rewrite Z.add_0_r. f_equal.
  rewrite <- seq_shift, <- list_fmap_compose. apply list_fmap_ext. intros k x _. simpl. do 2 f_equal. lia.
Qed.

(** Putting a byte in the slot behind the last one. *)
Lemma ring_put data r n c v :
  Z.of_nat (length data) = N → Z.of_nat n < N → slot c = slot (r + Z.of_nat n) →
  ring (<[slot c := v]> data) r (S n) = ring data r n ++ [v].
Proof using HN.
  intros Hl Hn Hc. rewrite ring_snoc. f_equal.
  - apply ring_ext. intros k Hk. rewrite list_lookup_insert_ne; [done|]. rewrite Hc. intros He%slot_inj; lia.
  - rewrite Hc, nth_lookup, list_lookup_insert_eq; [done|]. pose proof (slot_lt (r + Z.of_nat n)). lia.
Qed.

(** The first [n] of [n + m] bytes. *)
Lemma ring_app data r n m : ring data r (n + m) = ring data r n ++ ring data (r + Z.of_nat n) m.
Proof using Type.
  unfold ring. rewrite seq_app, fmap_app. f_equal. simpl.
  replace (seq n m) with (Nat.add n <$> seq 0 m) by (rewrite fmap_add_seq; f_equal; lia).
  rewrite <- list_fmap_compose. apply list_fmap_ext. intros k x _. simpl.
  do 2 f_equal. lia.
Qed.
End ring.
