(* ===== verification/Spinlock.v ===== *)
(** * Spinlock: kernel/spinlock.c and kernel/sleeplock.c

    Spin locks are modelled at the grain of their memory accesses: a machine of
    CPUs runs [acquire] and [release] one access at a time, in any interleaving,
    on shared [struct spinlock]s ([step]).  Mutual exclusion, the interrupt
    discipline and the absence of spurious panics are invariants of that
    relation.  They are what lets the other files treat a critical section as
    one atomic transition.  Sleep locks are modelled above that level. *)
From stdpp Require Import functions.
From S2P Require Import Prelude.

(** ** push_off and pop_off: per-CPU state *)

(** [struct cpu], with the interrupt-enable bit of its [sstatus]. *)
Record cpu : Type := mkCpu { noff : Z; intena : bool; sie : bool }.

Definition intr_get : M cpu bool := gets sie.
Definition intr_off : M cpu unit := modify (λ c, mkCpu (noff c) (intena c) false).
Definition intr_on : M cpu unit := modify (λ c, mkCpu (noff c) (intena c) true).

Definition push_off : M cpu unit :=
  do old <- intr_get;
  intr_off ;;;
  do n <- gets noff;
  (if n =? 0 then modify (λ c, mkCpu (noff c) old (sie c)) else ret tt) ;;;
  modify (λ c, mkCpu (i32 (noff c + 1)) (intena c) (sie c)).

Definition pop_off : M cpu unit :=
  do on <- intr_get;
  if (on : bool) then panic "pop_off - interruptible"
  else
    do n <- gets noff;
    if n <? 1 then panic "pop_off"
    else
      modify (λ c, mkCpu (i32 (noff c - 1)) (intena c) (sie c)) ;;;
      do c <- get;
      if (noff c =? 0) && intena c then intr_on else ret tt.

(** [n] calls in a row. *)
Definition times {S} (n : nat) (m : M S unit) : M S unit := for_loop n 0 (λ _, m).

Lemma push_off_eq c :
  0 ≤ noff c < 2 ^ 31 - 1 →
  push_off c =
    Ok tt (mkCpu (noff c + 1) (if noff c =? 0 then sie c else intena c) false).
Proof.
  intros H. unfold push_off, bind, intr_get, intr_off, gets, modify. simpl.
  destruct (noff c =? 0); simpl; by rewrite i32_id by lia.
Qed.

Lemma pop_off_eq c :
  0 < noff c < 2 ^ 31 → sie c = false →
  pop_off c = Ok tt (mkCpu (noff c - 1) (intena c) ((noff c =? 1) && intena c)).
Proof.
  intros H Hs. unfold pop_off, bind, intr_get, gets, get, modify. rewrite Hs.
  destruct (Z.ltb_spec (noff c) 1); [lia|]. simpl. rewrite i32_id by lia.
  destruct (Z.eqb_spec (noff c) 1) as [He|He].
  - rewrite He. simpl. destruct (intena c) eqn:Hi; unfold intr_on, modify; simpl; by rewrite ?Hi, ?Hs.
  - destruct (Z.eqb_spec (noff c - 1) 0); [lia|]. by rewrite Hs.
Qed.

Lemma for_loop_const {S} n (m : M S unit) i j :
  for_loop n i (λ _, m) = for_loop n j (λ _, m).
Proof. revert i j. induction n as [|n IH]; intros; simpl; [done|]. by rewrite (IH _ (j + 1)). Qed.

Lemma times_S {S} n (m : M S unit) s : times (Datatypes.S n) m s = bind m (λ _, times n m) s.
Proof. unfold times. cbn [for_loop]. by rewrite (for_loop_const n m (0 + 1) 0). Qed.

Lemma times_push_off n c :
  0 < noff c → noff c + Z.of_nat n < 2 ^ 31 → sie c = false →
  times n push_off c = Ok tt (mkCpu (noff c + Z.of_nat n) (intena c) false).
Proof.
  revert c. induction n as [|n IH]; intros [k b i] Hk Hn Hs; simpl in *; subst.
  { unfold times. simpl. unfold ret. by rewrite Z.add_0_r. }
  rewrite times_S. unfold bind. rewrite push_off_eq by (simpl; lia). simpl.
  destruct (Z.eqb_spec k 0); [lia|].
  rewrite IH by (simpl; lia). simpl. do 2 f_equal. lia.
Qed.

Lemma times_pop_off n c :
  Z.of_nat n < noff c < 2 ^ 31 → sie c = false →
  times n pop_off c = Ok tt (mkCpu (noff c - Z.of_nat n) (intena c) false).
Proof.
  revert c. induction n as [|n IH]; intros [k b i] Hk Hs; simpl in *; subst.
  { unfold times. simpl. unfold ret. by rewrite Z.sub_0_r. }
  rewrite times_S. unfold bind. rewrite pop_off_eq by (simpl; lia || done). simpl.
  destruct (Z.eqb_spec k 1); [lia|]. simpl.
  rewrite IH by (simpl; lia || done). simpl. do 2 f_equal. lia.
Qed.

(** ** Spin locks *)

(** [struct spinlock]; [lk_cpu] is the index of the CPU recorded as holder. *)
Record spinlock : Type := mkLock { locked : Z; lk_cpu : option nat }.

Definition initlock : spinlock := mkLock 0 None.

(** Where a CPU stands in [acquire] or [release]. *)
Inductive pc : Type :=
| Idle                    (* outside both *)
| AcqLocked (lk : nat)    (* acquire: holding() is about to read lk->locked *)
| AcqCpu (lk : nat)       (* acquire: holding() is about to read lk->cpu *)
| AcqSpin (lk : nat)      (* acquire: about to swap *)
| AcqSet (lk : nat)       (* acquire: about to set lk->cpu *)
| RelLocked (lk : nat)    (* release: holding() is about to read lk->locked *)
| RelCpu (lk : nat)       (* release: holding() is about to read lk->cpu *)
| RelClear (lk : nat)     (* release: about to clear lk->cpu *)
| RelUnlock (lk : nat)    (* release: about to store 0 to lk->locked *)
| RelPop                  (* release: about to call pop_off *)
| Stopped (msg : string). (* in panic() *)

(** [held c] is the list of locks whose [acquire] returned on CPU [c] and whose
    [release] did not start to give them up; the code does not store it. *)
Record machine : Type := mkMachine {
  cpus : nat → cpu;
  locks : nat → spinlock;
  pcs : nat → pc;
  held : nat → list nat;
}.

Definition set_cpu (c : nat) (k : cpu) (m : machine) : machine :=
  mkMachine (<[c:=k]> (cpus m)) (locks m) (pcs m) (held m).
Definition set_lock (lk : nat) (v : spinlock) (m : machine) : machine :=
  mkMachine (cpus m) (<[lk:=v]> (locks m)) (pcs m) (held m).
Definition set_pc (c : nat) (p : pc) (m : machine) : machine :=
  mkMachine (cpus m) (locks m) (<[c:=p]> (pcs m)) (held m).
Definition set_held (c : nat) (l : list nat) (m : machine) : machine :=
  mkMachine (cpus m) (locks m) (pcs m) (<[c:=l]> (held m)).

Section step.
(** The number of locks in the kernel. *)
Context (nlocks : nat).

Inductive step (m : machine) : machine → Prop :=
(* acquire *)
| acquire_push c lk k :
    pcs m c = Idle → (lk < nlocks)%nat → push_off (cpus m c) = Ok tt k →
    step m (set_pc c (AcqLocked lk) (set_cpu c k m))
| acquire_unlocked c lk :
    pcs m c = AcqLocked lk → locked (locks m lk) = 0 → step m (set_pc c (AcqSpin lk) m)
| acquire_locked c lk :
    pcs m c = AcqLocked lk → locked (locks m lk) ≠ 0 → step m (set_pc c (AcqCpu lk) m)
| acquire_not_mine c lk :
    pcs m c = AcqCpu lk → lk_cpu (locks m lk) ≠ Some c → step m (set_pc c (AcqSpin lk) m)
| acquire_panic c lk :
    pcs m c = AcqCpu lk → lk_cpu (locks m lk) = Some c →
    step m (set_pc c (Stopped "acquire") m)
| acquire_spin c lk :
    pcs m c = AcqSpin lk → locked (locks m lk) ≠ 0 →
    step m (set_lock lk (mkLock 1 (lk_cpu (locks m lk))) m)
| acquire_swap c lk :
    pcs m c = AcqSpin lk → locked (locks m lk) = 0 →
    step m (set_pc c (AcqSet lk) (set_lock lk (mkLock 1 (lk_cpu (locks m lk))) m))
| acquire_set c lk :
    pcs m c = AcqSet lk →
    step m (set_held c (lk :: held m c)
      (set_pc c Idle (set_lock lk (mkLock (locked (locks m lk)) (Some c)) m)))
(* release *)
| release_call c lk :
    pcs m c = Idle → (lk < nlocks)%nat → step m (set_pc c (RelLocked lk) m)
| release_unlocked c lk :
    pcs m c = RelLocked lk → locked (locks m lk) = 0 → step m (set_pc c (Stopped "release") m)
| release_locked c lk :
    pcs m c = RelLocked lk → locked (locks m lk) ≠ 0 → step m (set_pc c (RelCpu lk) m)
| release_not_mine c lk :
    pcs m c = RelCpu lk → lk_cpu (locks m lk) ≠ Some c → step m (set_pc c (Stopped "release") m)
| release_mine c lk :
    pcs m c = RelCpu lk → lk_cpu (locks m lk) = Some c →
    step m (set_held c (remove Nat.eq_dec lk (held m c)) (set_pc c (RelClear lk) m))
| release_clear c lk :
    pcs m c = RelClear lk →
    step m (set_pc c (RelUnlock lk) (set_lock lk (mkLock (locked (locks m lk)) None) m))
| release_unlock c lk :
    pcs m c = RelUnlock lk →
    step m (set_pc c RelPop (set_lock lk (mkLock 0 (lk_cpu (locks m lk))) m))
| release_pop c k :
    pcs m c = RelPop → pop_off (cpus m c) = Ok tt k → step m (set_pc c Idle (set_cpu c k m))
| release_pop_panic c e :
    pcs m c = RelPop → pop_off (cpus m c) = Panic e → step m (set_pc c (Stopped e) m)
(* code outside critical sections turns interrupts on and off *)
| toggle_intr c b :
    pcs m c = Idle → noff (cpus m c) = 0 →
    step m (set_cpu c (mkCpu 0 (intena (cpus m c)) b) m).

(** Boot: every lock initialised, every CPU outside [acquire] and [release]. *)
Definition boot (m : machine) : Prop :=
  (∀ lk, locks m lk = initlock) ∧
  (∀ c, pcs m c = Idle ∧ held m c = [] ∧ noff (cpus m c) = 0).

(** ** The invariant *)

(** The lock that the position in the code itself stands for. *)
Definition pc_owns (p : pc) : list nat :=
  match p with AcqSet lk | RelClear lk | RelUnlock lk => [lk] | _ => [] end.

Definition owned (m : machine) (c : nat) : list nat := pc_owns (pcs m c) ++ held m c.

(** How many [push_off]s of this position await their [pop_off]. *)
Definition pc_depth (p : pc) : Z :=
  match p with
  | AcqLocked _ | AcqCpu _ | AcqSpin _ | AcqSet _ | RelClear _ | RelUnlock _ | RelPop => 1
  | _ => 0
  end.

Definition stopped (p : pc) : bool := match p with Stopped _ => true | _ => false end.

Record cpu_ok (m : machine) (c : nat) : Prop := {
  co_nodup : NoDup (owned m c);
  co_bound : Forall (λ lk, (lk < nlocks)%nat) (owned m c);
  co_depth : stopped (pcs m c) = false →
    noff (cpus m c) = Z.of_nat (length (held m c)) + pc_depth (pcs m c);
  co_intr : 0 < noff (cpus m c) → sie (cpus m c) = false;
  co_spin : ∀ lk, (pcs m c = AcqLocked lk ∨ pcs m c = AcqCpu lk ∨ pcs m c = AcqSpin lk) →
    (lk < nlocks)%nat;
}.

Record inv (m : machine) : Prop := {
  inv_cpu : ∀ c, cpu_ok m c;
  inv_locked : ∀ lk, (locked (locks m lk) = 0 ∧ ∀ c, lk ∉ owned m c) ∨
    (locked (locks m lk) = 1 ∧ ∃ c, lk ∈ owned m c ∧ ∀ c', lk ∈ owned m c' → c' = c);
  inv_holder : ∀ lk c, lk_cpu (locks m lk) = Some c ↔ lk ∈ held m c ∨ pcs m c = RelClear lk;
}.

(** A CPU that a step does not concern. *)
Lemma cpu_ok_other m m' c :
  cpus m' c = cpus m c → pcs m' c = pcs m c → held m' c = held m c → cpu_ok m c → cpu_ok m' c.
Proof.
  intros H1 H2 H3 [A B C D E].
  split; unfold owned in *; rewrite ?H1, ?H2, ?H3; done.
Qed.

(** When CPU [c] changes and the locks do not. *)
Lemma inv_local m m' c :
  inv m → (∀ lk, locks m' lk = locks m lk) →
  (∀ c', c' ≠ c → cpus m' c' = cpus m c' ∧ pcs m' c' = pcs m c' ∧ held m' c' = held m c') →
  cpu_ok m' c → (∀ lk, lk ∈ owned m' c ↔ lk ∈ owned m c) →
  (∀ lk, (lk ∈ held m' c ∨ pcs m' c = RelClear lk) ↔ (lk ∈ held m c ∨ pcs m c = RelClear lk)) →
  inv m'.
Proof.
  intros [IC IL IH] Hl Ho Hc Hown Hh.
  assert (Hown' : ∀ lk c', lk ∈ owned m' c' ↔ lk ∈ owned m c').
  { intros lk c'. destruct (decide (c' = c)) as [->|Hne]; [done|].
    destruct (Ho c' Hne) as (_ & H1 & H2). unfold owned. by rewrite H1, H2. }
  split.
  - intros c'. destruct (decide (c' = c)) as [->|Hne]; [done|].
    destruct (Ho c' Hne) as (? & ? & ?). by apply (cpu_ok_other m).
  - intros lk. rewrite Hl. setoid_rewrite Hown'. apply IL.
  - intros lk c'. rewrite Hl, IH. destruct (decide (c' = c)) as [->|Hne]; [by rewrite Hh|].
    destruct (Ho c' Hne) as (_ & H1 & H2). by rewrite H1, H2.
Qed.

Lemma owned_length m c : cpu_ok m c → (length (owned m c) ≤ nlocks)%nat.
Proof.
  intros [Hn Hb _ _ _]. rewrite <- (length_seq nlocks 0).
  apply submseteq_length, NoDup_submseteq; [done|]. intros lk Hlk.
  rewrite Forall_forall in Hb. apply elem_of_seq. specialize (Hb lk Hlk). lia.
Qed.

Hypothesis Hnl : Z.of_nat nlocks < 2 ^ 30.

Lemma held_length m c : cpu_ok m c → Z.of_nat (length (held m c)) < 2 ^ 30.
Proof. intros H%owned_length. unfold owned in H. rewrite length_app in H. lia. Qed.

Ltac upd := simpl; rewrite ?fn_lookup_insert, ?fn_lookup_insert_ne by done; simpl.
Ltac own := unfold owned in *; simpl in *; rewrite ?fn_lookup_insert in *; simpl in *.

(** Nothing but CPU [c]'s registers and position changed. *)
Definition moved (m m' : machine) (c : nat) : Prop :=
  locks m' = locks m ∧ held m' = held m ∧
  ∀ c', c' ≠ c → cpus m' c' = cpus m c' ∧ pcs m' c' = pcs m c'.

Lemma inv_move m m' c :
  inv m → moved m m' c → pc_owns (pcs m' c) = pc_owns (pcs m c) →
  (∀ lk, pcs m' c = RelClear lk ↔ pcs m c = RelClear lk) →
  (stopped (pcs m' c) = false →
     noff (cpus m' c) = Z.of_nat (length (held m c)) + pc_depth (pcs m' c)) →
  (0 < noff (cpus m' c) → sie (cpus m' c) = false) →
  (∀ lk, pcs m' c = AcqLocked lk ∨ pcs m' c = AcqCpu lk ∨ pcs m' c = AcqSpin lk →
     (lk < nlocks)%nat) →
  inv m'.
Proof.
  intros HI (Hl & Hh & Hc) Ho Hr Hd Hi Hsp. destruct (inv_cpu _ HI c) as [A B C D E].
  apply (inv_local m _ c); try done.
  - intros lk. by rewrite Hl.
  - intros c' Hc'. destruct (Hc c' Hc'). by rewrite Hh.
  - split; unfold owned; rewrite ?Ho, ?Hh; done.
  - intros lk. unfold owned. by rewrite Ho, Hh.
  - intros lk. by rewrite Hr, Hh.
Qed.

Ltac local_move m c Hp :=
  apply (inv_move m _ c); upd; rewrite ?Hp; try done;
  try (split; [done|]; split; [done|]; intros ? ?; upd; done);
  try (intros ? [?|[?|?]]; simplify_eq; try done).

Lemma inv_acquire_swap m c lk :
  inv m → pcs m c = AcqSpin lk → locked (locks m lk) = 0 →
  inv (set_pc c (AcqSet lk) (set_lock lk (mkLock 1 (lk_cpu (locks m lk))) m)).
Proof.
  intros HI Hp Hl. destruct (inv_locked _ HI lk) as [[_ Hno]|[? _]]; [|congruence].
  destruct (inv_cpu _ HI c) as [A B C D E].
  assert (Hown : ∀ c', owned (set_pc c (AcqSet lk) (set_lock lk (mkLock 1 (lk_cpu (locks m lk))) m)) c'
    = (if decide (c' = c) then [lk] else []) ++ owned m c').
  { intros c'. unfold owned. simpl. case_decide as Hc; [subst; rewrite Hp|]; by upd. }
  split.
  - intros c'. destruct (decide (c' = c)) as [->|Hne].
    + split; rewrite ?Hown, ?decide_True by done; upd.
      * apply NoDup_cons. split; [apply Hno|done].
      * constructor; [|done]. apply E. auto.
      * intros _. specialize (C ltac:(by rewrite Hp)). by rewrite Hp in C.
      * done.
      * intros lk' [?|[?|?]]; done.
    + apply (cpu_ok_other m); upd; try done. apply (inv_cpu _ HI).
  - intros lk'. setoid_rewrite Hown. destruct (decide (lk' = lk)) as [->|Hne].
    + right. upd. split; [done|]. exists c. rewrite decide_True by done. split; [by left|].
      intros c'. case_decide; [done|]. intros Hx%Hno. done.
    + upd. destruct (inv_locked _ HI lk') as [[Hz Hn]|(Hz & c0 & Hc0 & Hu)]; [left|right].
      * split; [done|]. intros c'. case_decide; [|apply Hn].
        intros [?|?]%elem_of_cons; [done|]. by apply (Hn c').
      * split; [done|]. exists c0. split; [case_decide; [by right|done]|].
        intros c' Hc'. apply Hu. case_decide; [|done]. by apply elem_of_cons in Hc' as [?|?].
  - intros lk' c'. transitivity (lk_cpu (locks m lk') = Some c').
    + destruct (decide (lk' = lk)) as [->|]; by upd.
    + rewrite (inv_holder _ HI). simpl. destruct (decide (c' = c)) as [->|]; upd; [|done].
      rewrite Hp. split; intros [?|?]; auto; done.
Qed.

Lemma inv_acquire_set m c lk :
  inv m → pcs m c = AcqSet lk →
  inv (set_held c (lk :: held m c)
      (set_pc c Idle (set_lock lk (mkLock (locked (locks m lk)) (Some c)) m))).
Proof.
  intros HI Hp. destruct (inv_cpu _ HI c) as [A B C D E]. unfold owned in A, B. rewrite Hp in A, B, C.
  set (m' := set_held _ _ _).
  assert (Hown : ∀ c' x, x ∈ owned m' c' ↔ x ∈ owned m c').
  { intros c' x. unfold owned. simpl. destruct (decide (c' = c)) as [->|]; upd; [|done]. by rewrite Hp. }
  split.
  - intros c'. destruct (decide (c' = c)) as [->|Hne].
    + split; unfold owned; upd; try done.
      * intros _. rewrite C by done. simpl. lia.
      * intros lk' [?|[?|?]]; done.
    + apply (cpu_ok_other m); upd; try done. apply (inv_cpu _ HI).
  - intros lk'. setoid_rewrite Hown.
    replace (locked (locks m' lk')) with (locked (locks m lk')); [apply (inv_locked _ HI)|].
    simpl. destruct (decide (lk' = lk)) as [->|]; by upd.
  - intros lk' c'. simpl. destruct (decide (lk' = lk)) as [->|Hne].
    + upd. destruct (decide (c' = c)) as [->|Hc]; upd.
      * split; [intros _; left; by left|done].
      * split; [congruence|]. intros Hx. exfalso. apply Hc.
        destruct (inv_locked _ HI lk) as [[_ Hn]|(_ & c0 & _ & Hu)].
        -- destruct (Hn c). unfold owned. rewrite Hp. by left.
        -- rewrite (Hu c'), (Hu c); [done|..].
           ++ unfold owned. rewrite Hp. by left.
           ++ unfold owned. destruct Hx as [?| ->]; [apply elem_of_app; by right|by left].
    + upd. rewrite (inv_holder _ HI). destruct (decide (c' = c)) as [->|Hc]; upd; [|done].
      rewrite Hp. rewrite elem_of_cons. split; [intros [?|?]; [auto|done]|].
      intros [[?|?]|?]; [done|auto|done].
Qed.

Lemma inv_release_mine m c lk :
  inv m → pcs m c = RelCpu lk → lk_cpu (locks m lk) = Some c →
  inv (set_held c (remove Nat.eq_dec lk (held m c)) (set_pc c (RelClear lk) m)).
Proof.
  intros HI Hp Hc. apply (inv_holder _ HI) in Hc as [Hin|?]; [|congruence].
  destruct (inv_cpu _ HI c) as [A B C D E]. unfold owned in A, B. rewrite Hp in A, B, C. simpl in A, B.
  assert (Hrem : ∀ x, x ∈ remove Nat.eq_dec lk (held m c) ↔ x ∈ held m c ∧ x ≠ lk).
  { intros x. rewrite !list_elem_of_In. split.
    - intros H%in_remove. done.
    - intros [? ?]. by apply in_in_remove. }
  assert (Hperm : lk :: remove Nat.eq_dec lk (held m c) ≡ₚ held m c).
  { clear -A Hin. induction (held m c) as [|x l IH]; [by apply not_elem_of_nil in Hin|].
    apply NoDup_cons in A as [Hx A]. simpl. destruct (Nat.eq_dec lk x) as [->|Hne].
    - rewrite notin_remove; [done|]. by rewrite <- list_elem_of_In.
    - rewrite Permutation_swap. f_equiv. apply IH; [|done].
      by apply elem_of_cons in Hin as [?|?]. }
  apply (inv_local m _ c); try done.
  - intros c' Hc'. upd. done.
  - split; unfold owned; upd; try done.
    + by rewrite Hperm.
    + by rewrite Hperm.
    + intros _. rewrite C by done. apply Permutation_length in Hperm. simpl in *. lia.
    + intros lk' [?|[?|?]]; done.
  - intros x. unfold owned. upd. rewrite Hp. simpl. by rewrite Hperm.
  - intros x. upd. rewrite Hrem, Hp. destruct (decide (x = lk)) as [->|]; [naive_solver|].
    split; [intros [[? ?]|?]; [auto|congruence]|intros [?|?]; [auto|done]].
Qed.

Lemma inv_release_clear m c lk :
  inv m → pcs m c = RelClear lk →
  inv (set_pc c (RelUnlock lk) (set_lock lk (mkLock (locked (locks m lk)) None) m)).
Proof.
  intros HI Hp. destruct (inv_cpu _ HI c) as [A B C D E]. unfold owned in A, B. rewrite Hp in A, B, C.
  set (m' := set_pc _ _ _).
  assert (Hown : ∀ c' x, x ∈ owned m' c' ↔ x ∈ owned m c').
  { intros c' x. unfold owned. simpl. destruct (decide (c' = c)) as [->|]; upd; [|done]. by rewrite Hp. }
  split.
  - intros c'. destruct (decide (c' = c)) as [->|Hne].
    + split; unfold owned; upd; try done. intros lk' [?|[?|?]]; done.
    + apply (cpu_ok_other m); upd; try done. apply (inv_cpu _ HI).
  - intros lk'. setoid_rewrite Hown.
    replace (locked (locks m' lk')) with (locked (locks m lk')); [apply (inv_locked _ HI)|].
    simpl. destruct (decide (lk' = lk)) as [->|]; by upd.
  - intros lk' c'. simpl. destruct (decide (lk' = lk)) as [->|Hne].
    + upd. split; [done|]. intros Hx. exfalso.
      assert (Hc : lk ∈ owned m c) by (unfold owned; rewrite Hp; by left).
      destruct (inv_locked _ HI lk) as [[_ Hn]|(_ & c0 & _ & Hu)]; [by apply (Hn c)|].
      destruct (decide (c' = c)) as [->|Hne].
      * revert Hx. upd. intros [Hx|?]; [|done]. simpl in A.
        apply NoDup_cons in A as [Hx' _]. done.
      * revert Hx. upd. intros Hx. apply Hne. rewrite (Hu c'), (Hu c); try done.
        unfold owned. destruct Hx as [?| ->]; [apply elem_of_app; by right|by left].
    + upd. rewrite (inv_holder _ HI). destruct (decide (c' = c)) as [->|Hc]; upd; [|done].
      rewrite Hp. split; intros [?|?]; auto; congruence.
Qed.

Lemma inv_release_unlock m c lk :
  inv m → pcs m c = RelUnlock lk →
  inv (set_pc c RelPop (set_lock lk (mkLock 0 (lk_cpu (locks m lk))) m)).
Proof.
  intros HI Hp. destruct (inv_cpu _ HI c) as [A B C D E]. unfold owned in A, B. rewrite Hp in A, B, C.
  simpl in A, B. apply NoDup_cons in A as [Hnin A]. apply Forall_cons in B as [_ B].
  assert (Hc : lk ∈ owned m c) by (unfold owned; rewrite Hp; by left).
  destruct (inv_locked _ HI lk) as [[_ Hn]|(_ & c0 & _ & Hu)]; [by destruct (Hn c)|].
  set (m' := set_pc _ _ _).
  assert (Hown : ∀ c' x, x ∈ owned m' c' ↔ x ∈ owned m c' ∧ x ≠ lk).
  { intros c' x. unfold owned. simpl. destruct (decide (c' = c)) as [->|Hne]; upd.
    - rewrite Hp. simpl. rewrite elem_of_cons. split; [|naive_solver]. intros ?.
      split; [by right|]. congruence.
    - split; [|by intros [? _]]. intros Hx. split; [done|]. intros ->. apply Hne.
      by rewrite (Hu c'), (Hu c). }
  split.
  - intros c'. destruct (decide (c' = c)) as [->|Hne].
    + split; unfold owned; upd; try done. intros lk' [?|[?|?]]; done.
    + apply (cpu_ok_other m); upd; try done. apply (inv_cpu _ HI).
  - intros lk'. setoid_rewrite Hown. simpl. destruct (decide (lk' = lk)) as [->|Hne]; upd.
    + left. split; [done|]. intros c' [_ ?]. done.
    + destruct (inv_locked _ HI lk') as [[Hz Hn]|(Hz & c1 & ? & Hu1)]; [left|right].
      * split; [done|]. intros c' [? _]. by apply (Hn c').
      * split; [done|]. exists c1. split; [done|]. intros c' [? _]. by apply Hu1.
  - intros lk' c'. transitivity (lk_cpu (locks m lk') = Some c').
    + simpl. destruct (decide (lk' = lk)) as [->|]; by upd.
    + rewrite (inv_holder _ HI). simpl. destruct (decide (c' = c)) as [->|]; upd; [|done].
      rewrite Hp. split; intros [?|?]; auto; done.
Qed.

Lemma step_inv m m' : inv m → step m m' → inv m'.
Proof.
  intros HI Hst. destruct Hst as [c lk k Hp Hlk Hk|c lk Hp Hl|c lk Hp Hl|c lk Hp Hl|c lk Hp Hl
    |c lk Hp Hl|c lk Hp Hl|c lk Hp|c lk Hp Hl|c lk Hp Hl|c lk Hp Hl|c lk Hp Hl|c lk Hp Hl
    |c lk Hp|c lk Hp|c k Hp Hk|c e Hp Hk|c b Hp Hn];
  destruct (inv_cpu _ HI c) as [_ _ HD HS HB]; rewrite Hp in HD; simpl in HD;
  pose proof (held_length m c (inv_cpu _ HI c)) as Hlen.
  - rewrite push_off_eq in Hk by (rewrite HD; lia || done). injection Hk as <-.
    local_move m c Hp. intros _. rewrite HD by done. lia.
  - local_move m c Hp. apply HB. auto.
  - local_move m c Hp. apply HB. auto.
  - local_move m c Hp. apply HB. auto.
  - local_move m c Hp.
  - destruct (inv_locked _ HI lk) as [[? _]|[H1 _]]; [done|].
    destruct HI as [IC IL IH].
    assert (Hsame : ∀ x, locks (set_lock lk (mkLock 1 (lk_cpu (locks m lk))) m) x = locks m x).
    { intros x. simpl. destruct (decide (x = lk)) as [->|]; upd; [|done].
      destruct (locks m lk). simpl in *. by subst. }
    split; [|intros lk'; rewrite Hsame; apply IL|intros lk' c'; rewrite Hsame; apply IH].
    intros c'. by apply (cpu_ok_other m).
  - by apply inv_acquire_swap.
  - by apply inv_acquire_set.
  - local_move m c Hp.
  - local_move m c Hp.
  - local_move m c Hp.
  - local_move m c Hp.
  - by apply inv_release_mine.
  - by apply inv_release_clear.
  - by apply inv_release_unlock.
  - rewrite pop_off_eq in Hk by (try apply HS; rewrite HD; lia || done). injection Hk as <-.
    local_move m c Hp.
    + intros _. rewrite HD by done. lia.
    + intros Hpos. destruct (Z.eqb_spec (noff (cpus m c)) 1); [lia|done].
  - rewrite pop_off_eq in Hk by (try apply HS; rewrite HD; lia || done). done.
  - local_move m c Hp.
    + intros _. rewrite <- Hn. by rewrite HD.
Qed.

Lemma boot_inv m : boot m → inv m.
Proof.
  intros [Hl Hc]. split.
  - intros c. destruct (Hc c) as (Hp & Hh & Hn).
    split; unfold owned; rewrite ?Hp, ?Hh; simpl; try done; try constructor.
    + rewrite Hn. lia.
    + intros lk' [?|[?|?]]; done.
  - intros lk. left. rewrite Hl. split; [done|]. intros c. destruct (Hc c) as (Hp & Hh & _).
    unfold owned. rewrite Hp, Hh. apply not_elem_of_nil.
  - intros lk c. destruct (Hc c) as (Hp & Hh & _). rewrite Hl, Hp, Hh. simpl.
    split; [done|]. intros [[]%not_elem_of_nil|?]. done.
Qed.

Lemma reachable_inv m0 m : boot m0 → steps step m0 m → inv m.
Proof. intros H0. apply steps_invariant; [by apply boot_inv|]. intros. by eapply step_inv. Qed.
End step.

(** ** Properties *)

(** C32: mutual exclusion.  In every state the CPUs can reach from boot, under
    any interleaving of the memory accesses of [acquire] and [release], a lock
    is held by at most one CPU; while it is held its [locked] field is 1 and
    its [cpu] field names the holder; and a CPU that holds any lock has
    interrupts disabled. *)
Theorem mutual_exclusion (nlocks : nat) (m0 m : machine)
    (Hn : Z.of_nat nlocks < 2 ^ 30) (H0 : boot m0) (Hr : steps (step nlocks) m0 m) :
  ∀ c lk, lk ∈ held m c →
    (∀ c', lk ∈ held m c' → c' = c) ∧
    locks m lk = mkLock 1 (Some c) ∧ (stopped (pcs m c) = false → sie (cpus m c) = false).
Proof.
  intros c lk Hh. pose proof (reachable_inv nlocks Hn m0 m H0 Hr) as [IC IL IH].
  assert (Ho : ∀ c', lk ∈ held m c' → lk ∈ owned m c').
  { intros c' ?. unfold owned. apply elem_of_app. by right. }
  destruct (IL lk) as [[_ Hno]|(H1 & c0 & _ & Hu)]; [by destruct (Hno c (Ho c Hh))|].
  split; [|split].
  - intros c' Hh'. by rewrite (Hu c' (Ho c' Hh')), (Hu c (Ho c Hh)).
  - assert (Hc : lk_cpu (locks m lk) = Some c) by (apply IH; by left).
    destruct (locks m lk). simpl in *. by subst.
  - intros Hs. destruct (IC c) as [_ _ HD HS _]. apply HS. rewrite HD by done.
    assert (0 < length (held m c))%nat by (destruct (held m c); [by apply not_elem_of_nil in Hh|simpl; lia]).
    assert (0 ≤ pc_depth (pcs m c)) by (by destruct (pcs m c)). lia.
Qed.

(** The panics of the lock code are the caller's errors.  In a reachable
    state, a step stops a CPU only in [acquire] of a lock that CPU already
    holds, or in [release] of a lock it does not hold: [pop_off] never panics. *)
Theorem lock_panics_are_misuse (nlocks : nat) (m0 m m' : machine) (c : nat) (e : string)
    (Hn : Z.of_nat nlocks < 2 ^ 30) (H0 : boot m0) (Hr : steps (step nlocks) m0 m)
    (Hs : step nlocks m m') (Hrun : stopped (pcs m c) = false) (Hp : pcs m' c = Stopped e) :
  (e = "acquire" ∧ ∃ lk, pcs m c = AcqCpu lk ∧ lk ∈ held m c) ∨
  (e = "release" ∧ ∃ lk, (pcs m c = RelLocked lk ∨ pcs m c = RelCpu lk) ∧ lk ∉ held m c).
Proof.
  pose proof (reachable_inv nlocks Hn m0 m H0 Hr) as HI.
  assert (Hfree : ∀ lk, locked (locks m lk) = 0 → lk ∉ held m c).
  { intros lk Hl Hh. destruct (inv_locked _ _ HI lk) as [[_ Hno]|[? _]]; [|congruence].
    apply (Hno c). unfold owned. apply elem_of_app. by right. }
  destruct Hs as [c1 lk k H|c1 lk H Hl|c1 lk H Hl|c1 lk H Hl|c1 lk H Hl|c1 lk H Hl|c1 lk H Hl
    |c1 lk H|c1 lk H Hl|c1 lk H Hl|c1 lk H Hl|c1 lk H Hl|c1 lk H Hl|c1 lk H|c1 lk H|c1 k H Hk
    |c1 e1 H Hk|c1 b H Hl]; simpl in Hp;
    try (destruct (decide (c = c1)) as [->|Hne];
         [rewrite fn_lookup_insert in Hp|rewrite fn_lookup_insert_ne in Hp by done]);
    try (rewrite Hp in Hrun; done); try done.
  - injection Hp as <-. left. split; [done|]. exists lk. split; [done|].
    apply (inv_holder _ _ HI) in Hl as [?|?]; [done|congruence].
  - injection Hp as <-. right. split; [done|]. exists lk. split; [by left|]. by apply Hfree.
  - injection Hp as <-. right. split; [done|]. exists lk. split; [by right|].
    intros Hh. apply Hl. apply (inv_holder _ _ HI). by left.
  - destruct (inv_cpu _ _ HI c1) as [_ _ HD HS _].
    pose proof (held_length _ Hn m c1 (inv_cpu _ _ HI c1)) as Hlen.
    rewrite H in HD. simpl in HD.
    rewrite pop_off_eq in Hk by (try apply HS; rewrite HD; lia || done). done.
Qed.

(** [push_off] and [pop_off] nest: after [n] calls of [push_off] and [n] of
    [pop_off], starting with no [push_off] outstanding, interrupts are enabled
    exactly if they were before, no call panics, and interrupts are disabled
    in between. *)
Theorem push_pop_nest (c : cpu) (n : nat) (Hc : noff c = 0) (Hn : 0 < Z.of_nat n < 2 ^ 31 - 1) :
  ∃ c1, times n push_off c = Ok tt c1 ∧ sie c1 = false ∧
    ∃ c2, times n pop_off c1 = Ok tt c2 ∧ sie c2 = sie c ∧ noff c2 = 0.
Proof.
  destruct n as [|n]; [lia|]. destruct c as [k b i]. simpl in Hc. subst k.
  exists (mkCpu (1 + Z.of_nat n) i false). split; [|split; [done|]].
  - rewrite times_S. unfold bind. rewrite push_off_eq by (simpl; lia).
    apply times_push_off; simpl; lia || done.
  - exists (mkCpu 0 i i). split; [|done].
    assert (Hcomm : ∀ k s, times (S k) pop_off s = bind (times k pop_off) (λ _, pop_off) s).
    { clear. induction k as [|k IH]; intros s.
      - rewrite times_S. unfold times, bind. simpl. unfold ret. by destruct (pop_off s) as [[]| | | |].
      - rewrite times_S. unfold bind at 1. destruct (pop_off s) as [[] s1| | | |] eqn:E.
        + rewrite IH. unfold bind. rewrite times_S. unfold bind. by rewrite E.
        + unfold bind. rewrite times_S. unfold bind. by rewrite E.
        + unfold bind. rewrite times_S. unfold bind. by rewrite E.
        + unfold bind. rewrite times_S. unfold bind. by rewrite E.
        + unfold bind. rewrite times_S. unfold bind. by rewrite E. }
    rewrite Hcomm. unfold bind. rewrite times_pop_off by (simpl; lia || done).
    rewrite pop_off_eq by (simpl; lia || done). simpl.
    replace (1 + Z.of_nat n - Z.of_nat n) with 1 by lia. done.
Qed.

(** ** Sleep locks: kernel/sleeplock.c *)

(** [struct sleeplock], without the spin lock that makes each routine atomic. *)
Record sleeplock : Type := mkSleep { sl_locked : Z; sl_pid : Z }.

Definition initsleeplock : sleeplock := mkSleep 0 0.

(** The loop of [acquiresleep] either takes the lock or sleeps; a sleeper that
    is woken runs the loop again. *)
Definition acquiresleep (ch : chan) (pid : Z) : M sleeplock unit :=
  do l <- get;
  if negb (sl_locked l =? 0) then sleep ch
  else modify (λ _, mkSleep 1 pid).

Definition releasesleep : M sleeplock unit := modify (λ _, mkSleep 0 0).

Definition holdingsleep (pid : Z) : M sleeplock bool :=
  do l <- get; ret (negb (sl_locked l =? 0) && (sl_pid l =? pid)).

(** Processes using one sleep lock: the lock, and the pids inside. *)
Inductive sl_step (ch : chan) : sleeplock * list Z → sleeplock * list Z → Prop :=
| sl_acquire l l' ps pid :
    acquiresleep ch pid l = Ok tt l' → sl_step ch (l, ps) (l', pid :: ps)
| sl_release l l' ps1 ps2 pid :
    holdingsleep pid l = Ok true l → releasesleep l = Ok tt l' →
    sl_step ch (l, ps1 ++ pid :: ps2) (l', ps1 ++ ps2).

Definition sl_ok (c : sleeplock * list Z) : Prop :=
  match c.2 with
  | [] => sl_locked c.1 = 0
  | [pid] => c.1 = mkSleep 1 pid
  | _ => False
  end.

Lemma sl_step_ok ch c c' : sl_ok c → sl_step ch c c' → sl_ok c'.
Proof.
  intros Hok Hst. destruct Hst as [l l' ps pid Ha|l l' ps1 ps2 pid Hh Hr]; unfold sl_ok in *; simpl in *.
  - unfold acquiresleep, bind, get in Ha. destruct (Z.eqb_spec (sl_locked l) 0) as [Hz|]; [|done].
    simpl in Ha. injection Ha as <-. destruct ps as [|q [|]]; [done| |done].
    by subst l.
  - injection Hr as <-. destruct ps1 as [|q ps1]; simpl in *.
    + destruct ps2; [done|done].
    + destruct (ps1 ++ pid :: ps2) eqn:E; [by destruct ps1|done].
Qed.

(** A sleep lock has at most one holder.  After any sequence of completed
    acquisitions and of releases by holders, at most one process is inside;
    [holdingsleep] is true exactly for it; and [acquiresleep] by another
    process sleeps without changing the lock, while on a free lock it succeeds. *)
Theorem sleeplock_one_holder (ch : chan) (l : sleeplock) (ps : list Z)
    (Hr : steps (sl_step ch) (initsleeplock, []) (l, ps)) :
  (length ps ≤ 1)%nat ∧
  (∀ pid, holdingsleep pid l = Ok true l ↔ ps = [pid]) ∧
  (∀ pid, ps ≠ [] → acquiresleep ch pid l = Sleep ch l) ∧
  (∀ pid, ps = [] → acquiresleep ch pid l = Ok tt (mkSleep 1 pid)).
Proof.
  assert (Hok : sl_ok (l, ps)).
  { revert Hr. generalize (l, ps). apply (steps_invariant (sl_step ch)); [done|].
    intros. by eapply sl_step_ok. }
  unfold sl_ok in Hok. unfold holdingsleep, acquiresleep, bind, get, ret, modify, sleep. simpl in Hok.
  destruct ps as [|p [|]]; simpl; [| |done].
  - rewrite Hok. simpl. split; [lia|]. split; [|done]. intros pid. split; intros H; [|done].
    injection H as H. done.
  - subst l. simpl. split; [lia|]. split; [|done]. intros pid. split.
    + intros H. injection H as H. destruct (Z.eqb_spec p pid) as [->|]; done.
    + intros [= ->]. by rewrite Z.eqb_refl.
Qed.

Lemma sleeplock_one_holder_witness :
  acquiresleep ChLog 5 (mkSleep 1 4) = Sleep ChLog (mkSleep 1 4).
Proof.
  destruct (sleeplock_one_holder ChLog (mkSleep 1 4) [4]) as (_ & _ & Hs & _).
  - apply (steps_snoc _ _ (initsleeplock, [])); [apply steps_refl|]. apply sl_acquire. reflexivity.
  - apply Hs. discriminate.
Defined.

(** Two CPUs and a lock: CPU 0 has taken lock 3. *)
Definition demo_boot : machine :=
  mkMachine (λ _, mkCpu 0 false true) (λ _, initlock) (λ _, Idle) (λ _, []).
Definition demo_m1 : machine := set_pc 0 (AcqLocked 3) (set_cpu 0 (mkCpu 1 true false) demo_boot).
Definition demo_m2 : machine := set_pc 0 (AcqSpin 3) demo_m1.
Definition demo_m3 : machine := set_pc 0 (AcqSet 3) (set_lock 3 (mkLock 1 None) demo_m2).
Definition demo_m4 : machine :=
  set_held 0 [3%nat] (set_pc 0 Idle (set_lock 3 (mkLock 1 (Some 0%nat)) demo_m3)).

Lemma demo_boot_ok : boot demo_boot.
Proof. split; [done|]. intros c. done. Qed.

Lemma demo_steps : steps (step 8) demo_boot demo_m4.
Proof.
  eapply steps_snoc; [eapply steps_snoc; [eapply steps_snoc; [eapply steps_snoc|]|]|].
  - apply steps_refl.
  - apply (acquire_push 8 demo_boot 0 3); [done|lia|]. reflexivity.
  - apply (acquire_unlocked 8 demo_m1 0 3); done.
  - apply (acquire_swap 8 demo_m2 0 3); done.
  - apply (acquire_set 8 demo_m3 0 3). done.
Qed.

Lemma mutual_exclusion_witness :
  locks demo_m4 3 = mkLock 1 (Some 0%nat) ∧ sie (cpus demo_m4 0) = false.
Proof.
  destruct (mutual_exclusion 8 demo_boot demo_m4 ltac:(lia) demo_boot_ok demo_steps 0 3)
    as (_ & Hl & Hs); [left|].
  split; [exact Hl|]. apply Hs. reflexivity.
Defined.

Lemma lock_panics_are_misuse_witness :
  3%nat ∉ held demo_m4 1.
Proof.
  destruct (lock_panics_are_misuse 8 demo_boot
    (set_pc 1 (RelCpu 3) (set_pc 1 (RelLocked 3) demo_m4))
    (set_pc 1 (Stopped "release") (set_pc 1 (RelCpu 3) (set_pc 1 (RelLocked 3) demo_m4))) 1 "release")
    as [[H _]|(_ & lk & Hp & Hh)].
  - lia.
  - exact demo_boot_ok.
  - eapply steps_snoc; [eapply steps_snoc; [exact demo_steps|]|].
    + apply (release_call 8 demo_m4 1 3); [reflexivity|lia].
    + apply (release_locked 8 (set_pc 1 (RelLocked 3) demo_m4) 1 3); [reflexivity|discriminate].
  - apply (release_not_mine 8 _ 1 3); [reflexivity|discriminate].
  - reflexivity.
  - reflexivity.
  - discriminate H.
  - destruct Hp as [Hp|Hp]; [discriminate Hp|]. injection Hp as <-. exact Hh.
Defined.

Lemma push_pop_nest_witness :
  ∃ c1, times 3 push_off (mkCpu 0 false true) = Ok tt c1 ∧ sie c1 = false.
Proof.
  destruct (push_pop_nest (mkCpu 0 false true) 3 eq_refl) as (c1 & H1 & H2 & _); [lia|].
  exists c1. split; [exact H1|exact H2].
Defined.
