(* ===== verification/Pipe.v ===== *)
(** * Pipe: kernel/pipe.c

    A pipe is a ring of PIPESIZE bytes with two counters that wrap at 2^32.
    Each routine runs under the pipe's lock up to its return or to its next
    [sleep]; a [sleep] ends a run of the routine and the next run resumes at
    the loop test.  The system of the last section interleaves the runs of any
    number of readers and writers. *)
From stdpp Require Import functions.
From S2P Require Import Prelude Riscv Ring UserMem.

Definition PIPESIZE : Z := 512.

Record pipe : Type := mkPipe {
  p_data : list Z;
  p_nread : Z;
  p_nwrite : Z;
  p_readopen : bool;
  p_writeopen : bool;
}.

(** What [pipealloc] makes of the page it got. *)
Definition pipe_init (page : list Z) : pipe := mkPipe (take 512 page) 0 0 true true.

(** [pi->data[pi->nwrite++ % PIPESIZE] = ch]. *)
Definition pipe_put (ch : Z) (p : pipe) : pipe :=
  mkPipe (<[Z.to_nat (p_nwrite p mod PIPESIZE) := ch]> (p_data p))
    (p_nread p) (u32 (p_nwrite p + 1)) (p_readopen p) (p_writeopen p).

(** [pi->data[pi->nread++ % PIPESIZE]]. *)
Definition pipe_get (p : pipe) : Z * pipe :=
  (nth (Z.to_nat (p_nread p mod PIPESIZE)) (p_data p) 0,
   mkPipe (p_data p) (u32 (p_nread p + 1)) (p_nwrite p) (p_readopen p) (p_writeopen p)).

Section Pipe.
Context {U : Type} `{UserMem U}.
Context (pi : Z).

(** [killed] is what [killed(pr)] returns at each iteration: another CPU may set
    the flag at any time.  A run yields how it ends, the channels it wakes, the
    bytes it took from the writer's memory, and the pipe.  [k] is the number of
    bytes left to write. *)
Fixpoint pipewrite_run (k : nat) (killed : Z → bool) (u : U) (addr i : Z) (p : pipe) :
    run_end * list chan * list Z * pipe :=
  match k with
  | O => (Return i, [ChPipeRd pi], [], p)
  | S k =>
      if negb (p_readopen p) || killed i then (Return (-1), [], [], p)
      else if p_nwrite p =? u32 (p_nread p + PIPESIZE) then (Asleep i, [ChPipeRd pi], [], p)
      else match uin u (u64 (addr + i)) 1 with
           | Some (ch :: _) =>
               let '(r, w, l, p) := pipewrite_run k killed u addr (i + 1) (pipe_put ch p) in
               (r, w, ch :: l, p)
           | _ => (Return i, [ChPipeRd pi], [], p)
           end
  end.

Definition pipewrite (killed : Z → bool) (u : U) (addr n i : Z) (p : pipe) :
    run_end * list chan * list Z * pipe :=
  pipewrite_run (Z.to_nat (n - i)) killed u addr i p.

(** The copy loop of [piperead]: the count, the bytes taken off the pipe, the
    memory and the pipe.  A byte is taken before it is copied out. *)
Fixpoint piperead_copy (k : nat) (u : U) (addr i : Z) (p : pipe) : Z * list Z * U * pipe :=
  match k with
  | O => (i, [], u, p)
  | S k =>
      if p_nread p =? p_nwrite p then (i, [], u, p)
      else
        let '(ch, p) := pipe_get p in
        match uout u (u64 (addr + i)) [ch] with
        | (true, u) =>
            let '(r, l, u, p) := piperead_copy k u addr (i + 1) p in (r, ch :: l, u, p)
        | (false, u) => (i, [ch], u, p)
        end
  end.

Definition piperead (killed : bool) (u : U) (addr n : Z) (p : pipe) :
    run_end * list chan * list Z * U * pipe :=
  if (p_nread p =? p_nwrite p) && p_writeopen p then
    if killed then (Return (-1), [], [], u, p) else (Asleep 0, [], [], u, p)
  else
    let '(r, l, u, p) := piperead_copy (Z.to_nat n) u addr 0 p in
    (Return r, [ChPipeWr pi], l, u, p).

(** The boolean tells whether the pipe's page is freed. *)
Definition pipeclose (writable : bool) (p : pipe) : list chan * bool * pipe :=
  let '(w, p) :=
    if writable then
      ([ChPipeRd pi], mkPipe (p_data p) (p_nread p) (p_nwrite p) (p_readopen p) false)
    else
      ([ChPipeWr pi], mkPipe (p_data p) (p_nread p) (p_nwrite p) false (p_writeopen p)) in
  (w, negb (p_readopen p) && negb (p_writeopen p), p).
End Pipe.

(** ** The ring as a queue *)

(** The bytes written and not yet read, oldest first. *)
Definition level (p : pipe) : Z := u32 (p_nwrite p - p_nread p).
Definition contents (p : pipe) : list Z := ring PIPESIZE (p_data p) (p_nread p) (Z.to_nat (level p)).

Record pipe_ok (p : pipe) : Prop := {
  po_data : length (p_data p) = 512%nat;
  po_nread : 0 ≤ p_nread p < 2 ^ 32;
  po_nwrite : 0 ≤ p_nwrite p < 2 ^ 32;
  po_level : level p ≤ PIPESIZE;
}.

Lemma level_pos p : 0 ≤ level p < 2 ^ 32.
Proof. unfold level, u32. zdm. Qed.

Lemma length_contents p : length (contents p) = Z.to_nat (level p).
Proof. apply length_ring. Qed.

Lemma empty_level p : pipe_ok p → p_nread p = p_nwrite p ↔ level p = 0.
Proof. intros [_ ? ? _]. unfold level, u32. split; [intros ->; by rewrite Z.sub_diag|zdm]. Qed.

Lemma full_level p : pipe_ok p → p_nwrite p = u32 (p_nread p + PIPESIZE) ↔ level p = PIPESIZE.
Proof. intros [_ ? ? _]. unfold level, u32, PIPESIZE. split; zdm. Qed.

Lemma pipesize : 0 < PIPESIZE ∧ (PIPESIZE | 2 ^ 32).
Proof. split; [done|by exists 8388608]. Qed.

Lemma pipe_put_spec p ch :
  pipe_ok p → level p < PIPESIZE → pipe_ok (pipe_put ch p) ∧ contents (pipe_put ch p) = contents p ++ [ch].
Proof.
  intros [Hd Hr Hw Hl] Hf. pose proof (level_pos p) as Hp. destruct pipesize as [H1 H2].
  assert (Hlev : level (pipe_put ch p) = level p + 1).
  { unfold level, pipe_put, u32, PIPESIZE in *. simpl. zdm. }
  split.
  - split; [by simpl; rewrite length_insert|done|simpl; unfold u32; zdm|lia].
  - unfold contents. rewrite Hlev, Z2Nat.inj_add by lia. rewrite Nat.add_1_r. simpl.
    apply (ring_put PIPESIZE H1 _ _ _ (p_nwrite p)); unfold PIPESIZE in *; [lia|lia|].
    rewrite Z2Nat.id by lia. unfold level. rewrite Z.add_comm. unfold u32.
    rewrite slot_wrap by done. f_equal. lia.
Qed.

Lemma pipe_get_spec p ch p' :
  pipe_ok p → level p ≠ 0 → pipe_get p = (ch, p') → pipe_ok p' ∧ contents p = ch :: contents p'.
Proof.
  intros [Hd Hr Hw Hl] Hne [= <- <-]. pose proof (level_pos p) as Hp. destruct pipesize as [H1 H2].
  set (p' := mkPipe _ _ _ _ _).
  assert (Hlev : level p' = level p - 1).
  { unfold p', level, u32, PIPESIZE in *. simpl. zdm. }
  split.
  - split; [done|simpl; unfold u32; zdm|done|lia].
  - unfold contents. replace (Z.to_nat (level p)) with (S (Z.to_nat (level p'))) by lia.
    rewrite ring_cons. f_equal. symmetry. by apply ring_wrap.
Qed.

Definition same_ends (p p' : pipe) : Prop :=
  p_readopen p' = p_readopen p ∧ p_writeopen p' = p_writeopen p.

Section runs.
Context {U : Type} `{UserMem U}.
Context (pi : Z).

(** The bytes a writer finds in its memory from offset [i] on. *)
Definition from_user (u : U) (addr i : Z) (l : list Z) : Prop :=
  ∀ j ch, l !! j = Some ch → ∃ t, uin u (u64 (addr + (i + Z.of_nat j))) 1 = Some (ch :: t).

Inductive write_end (k : nat) (killed : Z → bool) (i : Z) (p p' : pipe) (l : list Z) :
    run_end → list chan → Prop :=
| WE_done : write_end k killed i p p' l (Return (i + Z.of_nat (length l))) [ChPipeRd pi]
| WE_error : p_readopen p = false ∨ killed (i + Z.of_nat (length l)) = true →
    (length l < k)%nat → write_end k killed i p p' l (Return (-1)) []
| WE_sleep : level p' = PIPESIZE → p_readopen p = true → (length l < k)%nat →
    write_end k killed i p p' l (Asleep (i + Z.of_nat (length l))) [ChPipeRd pi].

Lemma pipewrite_run_spec k killed u addr i p r w l p' :
  pipe_ok p → pipewrite_run pi k killed u addr i p = (r, w, l, p') →
  pipe_ok p' ∧ same_ends p p' ∧
  contents p' = contents p ++ l ∧ from_user u addr i l ∧ write_end k killed i p p' l r w.
Proof.
  revert i p r l. induction k as [|k IH]; intros i p r l Hok; cbn [pipewrite_run].
  { intros [= <- <- <- <-]. do 2 (split; [done|]). rewrite app_nil_r. do 2 (split; [done|]).
    rewrite <- (Z.add_0_r i) at 2. constructor. }
  destruct (negb (p_readopen p) || killed i) eqn:E.
  { intros [= <- <- <- <-]. do 2 (split; [done|]). rewrite app_nil_r. do 2 (split; [done|]).
    constructor; [|simpl; lia]. simpl. rewrite Z.add_0_r.
    apply orb_true_iff in E as [?%negb_true_iff|?]; auto. }
  apply orb_false_iff in E as [E1%negb_false_iff E2].
  destruct (Z.eqb_spec (p_nwrite p) (u32 (p_nread p + PIPESIZE))) as [E3|E3].
  { apply full_level in E3; [|done]. intros [= <- <- <- <-]. do 2 (split; [done|]).
    rewrite app_nil_r. do 2 (split; [done|]). rewrite <- (Z.add_0_r i) at 2.
    constructor; [done|done|simpl; lia]. }
  assert (Hlt : level p < PIPESIZE).
  { pose proof (po_level _ Hok). destruct (decide (level p = PIPESIZE)) as [Hx|]; [|lia].
    by apply full_level in Hx. }
  assert (Hend : (Return i, [ChPipeRd pi], [], p) = (r, w, l, p') →
    pipe_ok p' ∧ same_ends p p' ∧
    contents p' = contents p ++ l ∧ from_user u addr i l ∧ write_end (S k) killed i p p' l r w).
  { intros [= <- <- <- <-]. do 2 (split; [done|]). rewrite app_nil_r. do 2 (split; [done|]).
    rewrite <- (Z.add_0_r i) at 2. constructor. }
  destruct (uin u (u64 (addr + i)) 1) as [[|ch t]|] eqn:Eu; [exact Hend| |exact Hend].
  destruct (pipe_put_spec p ch Hok Hlt) as [Hok1 Hc1].
  destruct (pipewrite_run _ _ _ _ _ _ _) as [[[r1 w1] l1] p1] eqn:Hrun. intros [= <- <- <- <-].
  destruct (IH _ _ _ _ Hok1 Hrun) as (Hok' & Hs & Hc & Hu & Hw). do 2 (split; [done|]).
  split; [rewrite Hc, Hc1; by rewrite <- app_assoc|]. split.
  - intros [|j] c; simpl.
    + intros [= <-]. exists t. by rewrite Z.add_0_r.
    + intros Hj. destruct (Hu _ _ Hj) as [t' Ht']. exists t'. rewrite <- Ht'. f_equal. f_equal. lia.
  - assert (Hi : i + 1 + Z.of_nat (length l1) = i + Z.of_nat (length (ch :: l1))) by (simpl; lia).
    destruct Hw as [|Ha Hb|Ha Hb Hc']; rewrite ?Hi in *; constructor; try done; simpl in *; try lia.
Qed.

Lemma piperead_copy_spec k u addr i p r l u' p' :
  pipe_ok p → piperead_copy k u addr i p = (r, l, u', p') →
  pipe_ok p' ∧ same_ends p p' ∧ contents p = l ++ contents p' ∧ (length l ≤ k)%nat ∧
  i ≤ r ≤ i + Z.of_nat (length l) ≤ r + 1.
Proof.
  revert i u p l. induction k as [|k IH]; intros i u p l Hok; cbn [piperead_copy].
  { intros [= <- <- <- <-]. do 3 (split; [done|]). simpl. lia. }
  destruct (Z.eqb_spec (p_nread p) (p_nwrite p)) as [E|E].
  { intros [= <- <- <- <-]. do 3 (split; [done|]). simpl. lia. }
  rewrite empty_level in E by done.
  destruct (pipe_get p) as [ch p1] eqn:Eg. destruct (pipe_get_spec p ch p1 Hok E Eg) as [Hok1 Hc1].
  assert (Hs1 : same_ends p p1) by (unfold pipe_get in Eg; by simplify_eq/=).
  destruct (uout u (u64 (addr + i)) [ch]) as [[] u1].
  - destruct (piperead_copy k u1 addr (i + 1) p1) as [[[r1 l1] u2] p2] eqn:Er.
    intros [= <- <- <- <-]. destruct (IH _ _ _ _ Hok1 Er) as (H1 & [H2 H2'] & H3 & H4 & H5).
    destruct Hs1 as [Hs1 Hs1']. rewrite Hc1, H3. simpl.
    split; [done|]. split; [split; congruence|]. split; [done|]. lia.
  - intros [= <- <- <- <-]. rewrite Hc1. do 3 (split; [done|]). simpl. lia.
Qed.

(** Bytes come off the pipe into the reader's memory. *)
Lemma piperead_spec killed u addr n p r w l u' p' :
  pipe_ok p → 0 ≤ n → piperead pi killed u addr n p = (r, w, l, u', p') →
  pipe_ok p' ∧ same_ends p p' ∧ contents p = l ++ contents p' ∧ Z.of_nat (length l) ≤ n ∧
  ((level p = 0 ∧ p_writeopen p = true ∧ p' = p ∧ w = [] ∧
     r = if killed then Return (-1) else Asleep 0) ∨
   (w = [ChPipeWr pi] ∧ ¬ (level p = 0 ∧ p_writeopen p = true) ∧
    ∃ c, r = Return c ∧ c ≤ Z.of_nat (length l) ≤ c + 1)).
Proof.
  intros Hok Hn. unfold piperead.
  destruct (Z.eqb_spec (p_nread p) (p_nwrite p)) as [E|E]; rewrite empty_level in E by done;
    [destruct (p_writeopen p) eqn:Ew|]; simpl.
  - destruct killed; intros [= <- <- <- <- <-]; simpl; (split; [done|]); split; try done; split; try done;
      split; try lia; by left.
  - destruct (piperead_copy _ _ _ _ _) as [[[r1 l1] u1] p1] eqn:Er. intros [= <- <- <- <- <-].
    destruct (piperead_copy_spec _ _ _ _ _ _ _ _ _ Hok Er) as (H1 & H2 & H3 & H4 & H5).
    split; [done|]. split; [done|]. split; [done|]. split; [lia|]. right. split; [done|]. split; [by intros [_ ?]|].
    exists r1. split; [done|lia].
  - destruct (piperead_copy _ _ _ _ _) as [[[r1 l1] u1] p1] eqn:Er. intros [= <- <- <- <- <-].
    destruct (piperead_copy_spec _ _ _ _ _ _ _ _ _ Hok Er) as (H1 & H2 & H3 & H4 & H5).
    split; [done|]. split; [done|]. split; [done|]. split; [lia|]. right. split; [done|]. split; [by intros [? _]|].
    exists r1. split; [done|lia].
Qed.
End runs.

(** ** Readers and writers of one pipe *)

(** What a process is doing to the pipe. *)
Inductive pth : Type :=
| PIdle
| PWriter (addr n i : Z) (asleep : bool)
| PReader (addr n : Z) (asleep : bool).

(** [psys_in] and [psys_out] record the bytes taken from the writers and off the
    pipe, in order. *)
Record psys : Type := mkPsys {
  psys_pipe : pipe;
  psys_th : nat → pth;
  psys_in : list Z;
  psys_out : list Z;
}.

Section system.
Context {U : Type} `{UserMem U}.
Context (pi : Z).

(** [wakeup] on the channels [w]. *)
Definition wake_th (w : list chan) (t : pth) : pth :=
  match t with
  | PWriter addr n i true => PWriter addr n i (negb (bool_decide (ChPipeWr pi ∈ w)))
  | PReader addr n true => PReader addr n (negb (bool_decide (ChPipeRd pi ∈ w)))
  | t => t
  end.
Definition wake (w : list chan) (f : nat → pth) : nat → pth := λ t, wake_th w (f t).

Definition after_write (r : run_end) (addr n : Z) : pth :=
  match r with Return _ => PIdle | Asleep i => PWriter addr n i true end.
Definition after_read (r : run_end) (addr n : Z) : pth :=
  match r with Return _ => PIdle | Asleep _ => PReader addr n true end.

(** [K] restricts the values [killed(pr)] may take during one run. *)
Inductive pstep (K : (Z → bool) → Prop) (s : psys) : psys → Prop :=
| PS_call t th : psys_th s t = PIdle →
    (∃ addr n, 0 ≤ n < 2 ^ 31 ∧ (th = PWriter addr n 0 false ∨ th = PReader addr n false)) →
    pstep K s (mkPsys (psys_pipe s) (<[t := th]> (psys_th s)) (psys_in s) (psys_out s))
| PS_write t addr n i (u : U) killed r w l p' : psys_th s t = PWriter addr n i false → K killed →
    pipewrite pi killed u addr n i (psys_pipe s) = (r, w, l, p') →
    pstep K s (mkPsys p' (<[t := after_write r addr n]> (wake w (psys_th s))) (psys_in s ++ l) (psys_out s))
| PS_read t addr n (u : U) killed r w l u' p' : psys_th s t = PReader addr n false →
    piperead pi killed u addr n (psys_pipe s) = (r, w, l, u', p') →
    pstep K s (mkPsys p' (<[t := after_read r addr n]> (wake w (psys_th s))) (psys_in s) (psys_out s ++ l))
| PS_close writable w freed p' : pipeclose pi writable (psys_pipe s) = (w, freed, p') →
    pstep K s (mkPsys p' (wake w (psys_th s)) (psys_in s) (psys_out s))
| PS_kill t th : psys_th s t = th →
    (* kill() makes the victim runnable *)
    pstep K s (mkPsys (psys_pipe s)
      (<[t := match th with PWriter a n i _ => PWriter a n i false | PReader a n _ => PReader a n false | PIdle => PIdle end]> (psys_th s))
      (psys_in s) (psys_out s)).

Definition psys_init (page : list Z) : psys := mkPsys (pipe_init page) (λ _, PIdle) [] [].

Record pinv (s : psys) : Prop := {
  pi_ok : pipe_ok (psys_pipe s);
  pi_fifo : psys_in s = psys_out s ++ contents (psys_pipe s);
  pi_reader : ∀ t addr n b, psys_th s t = PReader addr n b → 0 ≤ n;
}.

(** A sleeping reader has nothing to read, a sleeping writer no room. *)
Definition no_lost (s : psys) : Prop := ∀ t,
  match psys_th s t with
  | PReader _ _ true => level (psys_pipe s) = 0 ∧ p_writeopen (psys_pipe s) = true
  | PWriter _ _ _ true => level (psys_pipe s) = PIPESIZE ∧ p_readopen (psys_pipe s) = true
  | _ => True
  end.

Lemma wake_reader w f t addr n b : wake w f t = PReader addr n b →
  ∃ b', f t = PReader addr n b' ∧ (b = true → b' = true ∧ ChPipeRd pi ∉ w).
Proof.
  unfold wake, wake_th. destruct (f t) as [|? ? ? []|? ? []]; intros [= -> -> <-]; eexists; (split; [done|]).
  - intros ?%negb_true_iff%bool_decide_eq_false. done.
  - done.
Qed.

Lemma wake_writer w f t addr n i : wake w f t = PWriter addr n i true →
  f t = PWriter addr n i true ∧ ChPipeWr pi ∉ w.
Proof.
  unfold wake, wake_th. destruct (f t) as [|? ? ? []|? ? []]; intros [= -> -> -> Hb].
  split; [done|]. by apply negb_true_iff, bool_decide_eq_false in Hb.
Qed.

Lemma pipeclose_spec writable p w freed p' : pipe_ok p → pipeclose pi writable p = (w, freed, p') →
  pipe_ok p' ∧ contents p' = contents p ∧ level p' = level p ∧
  (if writable then w = [ChPipeRd pi] ∧ p_readopen p' = p_readopen p
   else w = [ChPipeWr pi] ∧ p_writeopen p' = p_writeopen p).
Proof.
  intros [H1 H2 H3 H4] Hc. destruct writable; injection Hc as <- _ <-; (split; [|done]);
    split; [exact H1|exact H2|exact H3|exact H4|exact H1|exact H2|exact H3|exact H4].
Qed.

Lemma pinv_init page : (512 ≤ length page)%nat → pinv (psys_init page).
Proof.
  intros Hl. split; simpl; try done.
  split; simpl; [rewrite length_take; lia|lia|lia|]. vm_compute. discriminate.
Qed.

Lemma pstep_inv K s s' : pinv s → pstep K s s' → pinv s'.
Proof.
  intros [Hok Hf Hr] Hst.
  assert (Hwr : ∀ w f t addr n b, wake w (psys_th s) t = PReader addr n b → f = psys_th s → 0 ≤ n).
  { intros w f t addr n b (b' & Hb & _)%wake_reader _. eauto. }
  destruct Hst as [t th Hi (addr & n & Hn & Hth)|t addr n i u killed r w l p' Ht HK He
    |t addr n u killed r w l u' p' Ht He|writable w freed p' He|t th Ht].
  - split; simpl; [done|done|]. intros t' a' n' b'. destruct (decide (t = t')) as [<-|].
    + rewrite fn_lookup_insert. intros ->. destruct Hth as [|[= -> -> _]]; [done|lia].
    + rewrite fn_lookup_insert_ne by done. apply Hr.
  - destruct (pipewrite_run_spec pi _ _ _ _ _ _ _ _ _ _ Hok He) as (H1 & _ & H2 & _).
    split; simpl; [done|by rewrite H2, Hf, app_assoc|]. intros t' a' n' b'. destruct (decide (t = t')) as [<-|].
    + rewrite fn_lookup_insert. by destruct r.
    + rewrite fn_lookup_insert_ne by done. intros Hx. by eapply Hwr.
  - destruct (piperead_spec pi _ _ _ _ _ _ _ _ _ _ Hok (Hr _ _ _ _ Ht) He) as (H1 & _ & H2 & _).
    split; simpl; [done|by rewrite Hf, H2, app_assoc|]. intros t' a' n' b'. destruct (decide (t = t')) as [<-|].
    + rewrite fn_lookup_insert. destruct r; [done|]. intros [= -> -> _]. eauto.
    + rewrite fn_lookup_insert_ne by done. intros Hx. by eapply Hwr.
  - destruct (pipeclose_spec _ _ _ _ _ Hok He) as (H1 & H2 & _). split; simpl; [done|by rewrite H2|].
    intros t' a' n' b' Hx. by eapply Hwr.
  - split; simpl; [done|done|]. intros t' a' n' b'. destruct (decide (t = t')) as [<-|].
    + rewrite fn_lookup_insert. destruct th; [done|done|]. intros [= -> -> _]. eauto.
    + rewrite fn_lookup_insert_ne by done. apply Hr.
Qed.

(** The flag does not change during a run. *)
Definition steady (killed : Z → bool) : Prop := ∀ i j, killed i = killed j.

Lemma pipewrite_run_first k killed (u : U) addr i p r w l p' :
  pipewrite_run pi k killed u addr i p = (r, w, l, p') → l ≠ [] →
  p_readopen p = true ∧ killed i = false.
Proof.
  destruct k; cbn [pipewrite_run]; [by intros [= <- <- <- <-]|].
  destruct (p_readopen p), (killed i); simpl; by intros [= <- <- <- <-] || done.
Qed.

Lemma level_app p p' l : pipe_ok p → contents p' = contents p ++ l → pipe_ok p' →
  level p' = level p + Z.of_nat (length l).
Proof.
  intros _ Hc _. pose proof (level_pos p). pose proof (level_pos p').
  apply (f_equal length) in Hc. rewrite length_app, !length_contents in Hc. lia.
Qed.

Lemma pstep_no_lost s s' : pinv s → no_lost s → pstep steady s s' → no_lost s'.
Proof.
  intros [Hok _ Hr] Hn Hst t'.
  destruct Hst as [t th Hi (addr & n & Hn' & Hth)|t addr n i u killed r w l p' Ht HK He
    |t addr n u killed r w l u' p' Ht He|writable w freed p' He|t th Ht]; simpl.
  - destruct (decide (t = t')) as [<-|].
    + rewrite fn_lookup_insert. by destruct Hth as [-> | ->].
    + rewrite fn_lookup_insert_ne by done. apply (Hn t').
  - destruct (pipewrite_run_spec pi _ _ _ _ _ _ _ _ _ _ Hok He) as (H1 & [H2 H2'] & H3 & _ & H4).
    pose proof (level_app _ _ _ Hok H3 H1) as Hlev. pose proof (po_level _ H1) as Hmax.
    destruct (decide (t = t')) as [<-|].
    + rewrite fn_lookup_insert. destruct H4; simpl; try done. split; congruence.
    + rewrite fn_lookup_insert_ne by done. specialize (Hn t').
      destruct (wake w (psys_th s) t') as [|? ? ? []|? ? []] eqn:Ew; try done.
      * apply wake_writer in Ew as [Ew _]. rewrite Ew in Hn. split; [lia|]. rewrite H2. apply Hn.
      * apply wake_reader in Ew as (b' & Ew & Hb). destruct Hb as [-> Hnw]; [done|]. rewrite Ew in Hn.
        destruct H4 as [|[Hx|Hx] Hlt|]; [by destruct Hnw; left| | |by destruct Hnw; left].
        -- destruct l as [|c l]; [simpl in *; split; [lia|rewrite H2'; apply Hn]|].
           apply pipewrite_run_first in He as [? _]; [congruence|done].
        -- destruct l as [|c l]; [simpl in *; split; [lia|rewrite H2'; apply Hn]|].
           apply pipewrite_run_first in He as [_ Hk]; [|done].
           rewrite (HK _ i) in Hx. congruence.
  - destruct (piperead_spec pi _ _ _ _ _ _ _ _ _ _ Hok (Hr _ _ _ _ Ht) He)
      as (H1 & [H2 H2'] & H3 & _ & H4).
    specialize (Hn t'). destruct (decide (t = t')) as [<-|].
    + rewrite fn_lookup_insert. destruct r; simpl; [done|].
      destruct H4 as [(Ha & Hb & -> & _)|(_ & _ & c & ? & _)]; done.
    + rewrite fn_lookup_insert_ne by done. destruct H4 as [(Ha & Hb & -> & -> & _)|(-> & Hne & _)].
      * destruct (wake [] (psys_th s) t') as [|? ? ? []|? ? []] eqn:Ew; try done.
        apply wake_writer in Ew as [Ew _]. by rewrite Ew in Hn.
      * destruct (wake _ (psys_th s) t') as [|? ? ? []|? ? []] eqn:Ew; try done.
        -- apply wake_writer in Ew as [_ Ew]. destruct Ew. by left.
        -- apply wake_reader in Ew as (b' & Ew & Hb). destruct Hb as [-> _]; [done|]. by rewrite Ew in Hn.
  - destruct (pipeclose_spec _ _ _ _ _ Hok He) as (_ & _ & -> & Hc). specialize (Hn t').
    destruct (wake w (psys_th s) t') as [|? ? ? []|? ? []] eqn:Ew; try done.
    + apply wake_writer in Ew as [Ew Hnw]. rewrite Ew in Hn.
      destruct writable; destruct Hc as [-> Hc]; [by rewrite Hc|by destruct Hnw; left].
    + apply wake_reader in Ew as (b' & Ew & Hb). destruct Hb as [-> Hnw]; [done|]. rewrite Ew in Hn.
      destruct writable; destruct Hc as [-> Hc]; [by destruct Hnw; left|by rewrite Hc].
  - destruct (decide (t = t')) as [<-|].
    + rewrite fn_lookup_insert. by destruct th.
    + rewrite fn_lookup_insert_ne by done. apply (Hn t').
Qed.
End system.

(** ** Properties *)

Lemma preach_inv {U} `{UserMem U} pi K page s :
  (512 ≤ length page)%nat → rtc (pstep (U := U) pi K) (psys_init page) s → pinv s.
Proof.
  intros Hp Hs. assert (Hi : pinv (psys_init page)) by (by apply pinv_init).
  induction Hs as [|s1 s2 s3 Hst _ IH]; [done|]. apply IH. by eapply pstep_inv.
Qed.


(** C34: no wakeup is lost.  As long as no writer is killed in the middle of a
    run, a process asleep in [piperead] sleeps on an empty pipe whose write end
    is open, and one asleep in [pipewrite] on a full pipe whose read end is open. *)
Theorem pipe_no_lost_wakeup {U} `{UserMem U} (pi : Z) (page : list Z) (s : psys) (t : nat)
    (Hpage : (512 ≤ length page)%nat) (Hs : rtc (pstep (U := U) pi steady) (psys_init page) s) :
  (∀ addr n, psys_th s t = PReader addr n true →
     contents (psys_pipe s) = [] ∧ p_writeopen (psys_pipe s) = true) ∧
  (∀ addr n i, psys_th s t = PWriter addr n i true →
     Z.of_nat (length (contents (psys_pipe s))) = PIPESIZE ∧ p_readopen (psys_pipe s) = true).
Proof.
  assert (Hn : no_lost s).
  { assert (Hi : pinv (psys_init page)) by (by apply pinv_init).
    assert (Hn : no_lost (psys_init page)) by done. clear Hpage.
    induction Hs as [|s1 s2 s3 Hst _ IH]; [done|]. apply IH; [by eapply pstep_inv|by eapply pstep_no_lost]. }
  specialize (Hn t). split.
  - intros addr n E. rewrite E in Hn. destruct Hn as [Hl Hw]. split; [|done].
    apply length_zero_iff_nil. rewrite length_contents, Hl. done.
  - intros addr n i E. rewrite E in Hn. destruct Hn as [Hl Hw]. split; [|done].
    by rewrite length_contents, Hl.
Qed.

(** A reader sleeps on the empty pipe; a writer then writes 7 and 8. *)
Definition demo_user : fmem := {[ 100 := 7; 101 := 8; 200 := 0; 201 := 0 ]}.
Definition demo_ring : list Z := replicate 512 0.
Lemma demo_ring_len : (512 ≤ length demo_ring)%nat.
Proof. vm_compute. lia. Qed.
Definition demo_p0 : psys := psys_init demo_ring.
Definition demo_p1 : psys := mkPsys (psys_pipe demo_p0) (<[1%nat := PReader 200 2 false]> (psys_th demo_p0)) [] [].
Definition demo_p2 : psys := mkPsys (psys_pipe demo_p1)
  (<[1%nat := PReader 200 2 true]> (wake 1 [] (psys_th demo_p1))) [] [].
Definition demo_p3 : psys := mkPsys (psys_pipe demo_p2) (<[2%nat := PWriter 100 2 0 false]> (psys_th demo_p2)) [] [].

Lemma demo_p3_reached K : rtc (pstep (U := fmem) 1 K) demo_p0 demo_p3.
Proof.
  eapply rtc_l; [apply (PS_call 1 K demo_p0 1 (PReader 200 2 false)); [done|exists 200, 2; split; [lia|by right]]|].
  eapply rtc_l; [apply (PS_read 1 K demo_p1 1 200 2 demo_user false (Asleep 0) [] [] demo_user); reflexivity|].
  eapply rtc_l; [apply (PS_call 1 K demo_p2 2 (PWriter 100 2 0 false)); [done|exists 100, 2; split; [lia|by left]]|].
  apply rtc_refl.
Qed.

Definition demo_run (killed : Z → bool) : run_end * list chan * list Z * pipe :=
  pipewrite 1 killed demo_user 100 2 0 (psys_pipe demo_p3).
Definition demo_p4 (killed : Z → bool) : psys :=
  let '(r, w, l, p') := demo_run killed in
  mkPsys p' (<[2%nat := after_write r 100 2]> (wake 1 w (psys_th demo_p3))) l [].

Lemma demo_p4_reached (K : (Z → bool) → Prop) killed :
  K killed → rtc (pstep (U := fmem) 1 K) demo_p0 (demo_p4 killed).
Proof.
  intros HK. eapply rtc_r; [apply demo_p3_reached|]. unfold demo_p4.
  destruct (demo_run killed) as [[[r w] l] p'] eqn:E.
  apply (PS_write 1 K demo_p3 2 100 2 0 demo_user killed r w l p'); [reflexivity|exact HK|exact E].
Qed.


Lemma pipe_no_lost_wakeup_witness :
  psys_th demo_p3 1%nat = PReader 200 2 true ∧
  contents (psys_pipe demo_p3) = [] ∧ p_writeopen (psys_pipe demo_p3) = true.
Proof.
  split; [reflexivity|].
  apply (pipe_no_lost_wakeup (U := fmem) 1 demo_ring demo_p3 1) with (addr := 200) (n := 2);
    [exact demo_ring_len|exact (demo_p3_reached steady)|reflexivity].
Defined.

(** C39: killing a writer in mid-run loses a wakeup.  There is an execution in
    which the pipe holds a byte, its write end is open, and the reader is still
    asleep: [pipewrite] returns -1 without [wakeup(&pi->nread)] although it
    has put a byte in the ring. *)
Theorem pipe_killed_writer_loses_wakeup :
  ∃ s, rtc (pstep (U := fmem) 1 (λ _, True)) (psys_init demo_ring) s ∧
    psys_th s 1%nat = PReader 200 2 true ∧ contents (psys_pipe s) = [7] ∧
    p_writeopen (psys_pipe s) = true.
Proof.
  exists (demo_p4 (λ i, 0 <? i)). split; [by apply (demo_p4_reached (λ _, True))|].
  vm_compute. done.
Qed.
