(* ===== verification/Uart.v ===== *)
(** * Uart: kernel/uart.c

    The device is a parameter: a state with register reads and writes.  The
    model records the register writes of the driver ([u_log]) and the channels
    it wakes ([u_woken]). *)
From S2P Require Import Prelude Riscv Ring.

Definition RHR : Z := 0.
Definition THR : Z := 0.
Definition IER : Z := 1.
Definition IER_RX_ENABLE : Z := Z.shiftl 1 0.
Definition IER_TX_ENABLE : Z := Z.shiftl 1 1.
Definition FCR : Z := 2.
Definition FCR_FIFO_ENABLE : Z := Z.shiftl 1 0.
Definition FCR_FIFO_CLEAR : Z := Z.shiftl 3 1.
Definition ISR : Z := 2.
Definition LCR : Z := 3.
Definition LCR_EIGHT_BITS : Z := Z.shiftl 3 0.
Definition LCR_BAUD_LATCH : Z := Z.shiftl 1 7.
Definition LSR : Z := 5.
Definition LSR_RX_READY : Z := Z.shiftl 1 0.
Definition LSR_TX_IDLE : Z := Z.shiftl 1 5.

Definition UART_TX_BUF_SIZE : Z := 32.

(** The 16550: reading a register may change the device. *)
Class UartDev (V : Type) : Type := {
  read_reg : Z → V → Z * V;
  write_reg : Z → Z → V → V;
}.

Record uart (V : Type) : Type := mkUart {
  tx_buf : list Z;
  tx_w : Z;
  tx_r : Z;
  u_panicked : bool;
  u_dev : V;
  u_log : list (Z * Z);
  u_woken : list chan;
}.
Arguments mkUart {V}.
Arguments tx_buf {V} _.
Arguments tx_w {V} _.
Arguments tx_r {V} _.
Arguments u_panicked {V} _.
Arguments u_dev {V} _.
Arguments u_log {V} _.
Arguments u_woken {V} _.

Section Uart.
Context {V : Type} `{UartDev V}.
Notation MU := (M (uart V)).

Definition ReadReg (reg : Z) : MU Z := λ s,
  let '(v, d) := read_reg reg (u_dev s) in
  Ok v (mkUart (tx_buf s) (tx_w s) (tx_r s) (u_panicked s) d (u_log s) (u_woken s)).
Definition WriteReg (reg v : Z) : MU unit := modify (λ s,
  mkUart (tx_buf s) (tx_w s) (tx_r s) (u_panicked s) (write_reg reg (u8 v) (u_dev s))
    (u_log s ++ [(reg, u8 v)]) (u_woken s)).
Definition uart_wakeup (c : chan) : MU unit := modify (λ s,
  mkUart (tx_buf s) (tx_w s) (tx_r s) (u_panicked s) (u_dev s) (u_log s) (u_woken s ++ [c])).

Definition uartinit : MU unit :=
  (* disable interrupts. *)
  WriteReg IER 0 ;;;
  (* special mode to set baud rate. *)
  WriteReg LCR LCR_BAUD_LATCH ;;;
  WriteReg 0 3 ;;;
  WriteReg 1 0 ;;;
  (* leave set-baud mode, and set word length to 8 bits, no parity. *)
  WriteReg LCR LCR_EIGHT_BITS ;;;
  (* reset and enable FIFOs. *)
  WriteReg FCR (Z.lor FCR_FIFO_ENABLE FCR_FIFO_CLEAR) ;;;
  (* enable transmit and receive interrupts. *)
  WriteReg IER (Z.lor IER_TX_ENABLE IER_RX_ENABLE).

(** The [while(1)] of [uartstart]. *)
Fixpoint uartstart_loop (fuel : nat) : MU unit :=
  match fuel with
  | O => nofuel
  | S fuel =>
      do s <- get;
      if tx_w s =? tx_r s then ReadReg ISR ;;; ret tt
      else
        do lsr <- ReadReg LSR;
        if Z.land lsr LSR_TX_IDLE =? 0 then ret tt
        else
          let c := nth (slot UART_TX_BUF_SIZE (tx_r s)) (tx_buf s) 0 in
          modify (λ s, mkUart (tx_buf s) (tx_w s) (u64 (tx_r s + 1)) (u_panicked s) (u_dev s)
            (u_log s) (u_woken s)) ;;;
          uart_wakeup ChUart ;;;
          WriteReg THR c ;;;
          uartstart_loop fuel
  end.

(** The buffer holds at most UART_TX_BUF_SIZE bytes. *)
Definition uartstart : MU unit := uartstart_loop (S (Z.to_nat UART_TX_BUF_SIZE)).

(** Once the kernel has panicked, [for(;;)]. *)
Definition uartputc (c : Z) : MU unit :=
  do s <- get;
  if u_panicked s then nofuel
  else if tx_w s =? u64 (tx_r s + UART_TX_BUF_SIZE) then sleep ChUart
  else
    modify (λ s, mkUart (<[slot UART_TX_BUF_SIZE (tx_w s) := u8 c]> (tx_buf s)) (u64 (tx_w s + 1))
      (tx_r s) (u_panicked s) (u_dev s) (u_log s) (u_woken s)) ;;;
    uartstart.

(** [while((ReadReg(LSR) & LSR_TX_IDLE) == 0)]. *)
Fixpoint spin_idle (fuel : nat) : MU unit :=
  match fuel with
  | O => nofuel
  | S fuel =>
      do lsr <- ReadReg LSR;
      if Z.land lsr LSR_TX_IDLE =? 0 then spin_idle fuel else ret tt
  end.

Definition uartputc_sync (fuel : nat) (c : Z) : MU unit :=
  do s <- get;
  if u_panicked s then nofuel
  else spin_idle fuel ;;; WriteReg THR c.

Definition uartgetc : MU Z :=
  do lsr <- ReadReg LSR;
  if Z.land lsr 1 =? 0 then ret (-1) else ReadReg RHR.
End Uart.

(** ** The transmit buffer is a queue *)

Section queue.
Context {V : Type} `{UartDev V}.
Implicit Types s : uart V.

Definition tx_level s : Z := u64 (tx_w s - tx_r s).
Definition tx_queue s : list Z := ring UART_TX_BUF_SIZE (tx_buf s) (tx_r s) (Z.to_nat (tx_level s)).

Record uart_ok s : Prop := {
  uo_buf : length (tx_buf s) = 32%nat;
  uo_w : 0 ≤ tx_w s < 2 ^ 64;
  uo_r : 0 ≤ tx_r s < 2 ^ 64;
  uo_level : tx_level s ≤ UART_TX_BUF_SIZE;
}.

(** The bytes in [l] went to the transmitter. *)
Definition transmits s (l : list Z) s' : Prop := u_log s' = u_log s ++ ((λ c, (THR, u8 c)) <$> l).

Lemma tx_size : 0 < UART_TX_BUF_SIZE ∧ (UART_TX_BUF_SIZE | 2 ^ 64).
Proof. split; [done|by exists (2 ^ 59)]. Qed.

Lemma tx_level_pos s : 0 ≤ tx_level s < 2 ^ 64.
Proof. unfold tx_level, u64. zdm. Qed.

Lemma uartstart_loop_spec fuel s :
  uart_ok s → tx_level s < Z.of_nat fuel →
  wp (uartstart_loop fuel) (λ _ s', uart_ok s' ∧ u_panicked s' = u_panicked s ∧
    ∃ l, tx_queue s = l ++ tx_queue s' ∧ transmits s l s' ∧
      u_woken s' = u_woken s ++ ((λ _, ChUart) <$> l)) s.
Proof.
  revert s. induction fuel as [|fuel IH]; intros s Hok Hf; pose proof (tx_level_pos s) as Hp; [lia|].
  cbn [uartstart_loop]. apply wp_step. unfold wp at 1, get. cbv beta.
  assert (Hdev : ∀ d, let s' := mkUart (tx_buf s) (tx_w s) (tx_r s) (u_panicked s) d (u_log s) (u_woken s) in
    uart_ok s' ∧ u_panicked s' = u_panicked s ∧
    ∃ l, tx_queue s = l ++ tx_queue s' ∧ transmits s l s' ∧ u_woken s' = u_woken s ++ ((λ _, ChUart) <$> l)).
  { intros d. split; [by destruct Hok|]. split; [done|]. exists []. split; [done|].
    unfold transmits. simpl. by rewrite !app_nil_r. }
  destruct (Z.eqb_spec (tx_w s) (tx_r s)) as [E|E].
  { apply wp_step. unfold wp at 1, ReadReg. destruct (read_reg ISR (u_dev s)) as [v d]. apply wp_ret, Hdev. }
  apply wp_step. unfold wp at 1, ReadReg. destruct (read_reg LSR (u_dev s)) as [lsr d].
  destruct (Z.land lsr LSR_TX_IDLE =? 0); [apply wp_ret, Hdev|].
  destruct Hok as [Hb Hw Hr Hl]. destruct tx_size as [T1 T2].
  do 3 (apply wp_step; unfold wp at 1, modify, uart_wakeup, WriteReg; cbn [u_dev tx_buf tx_w tx_r u_panicked u_log u_woken]).
  set (c := nth _ _ _). set (s1 := mkUart _ _ _ _ _ _ _).
  assert (Hlev : tx_level s1 = tx_level s - 1).
  { unfold s1, tx_level, u64, UART_TX_BUF_SIZE in *. simpl. zdm. }
  assert (Hq : tx_queue s = c :: tx_queue s1).
  { unfold tx_queue. replace (Z.to_nat (tx_level s)) with (S (Z.to_nat (tx_level s1))).
    - rewrite ring_cons. f_equal. symmetry. by apply ring_wrap.
    - rewrite Hlev. assert (tx_level s ≠ 0); [unfold tx_level, u64; zdm|lia]. }
  eapply wp_mono; [apply IH|].
  { split; simpl; [done|done|unfold u64; zdm|lia]. }
  { lia. }
  intros [] s' (Hok' & Hpn & l & Hq' & Ht & Hwk). split; [done|]. split; [done|]. exists (c :: l).
  split; [by rewrite Hq, Hq'|]. unfold transmits in *. split.
  - rewrite Ht. simpl. by rewrite <- app_assoc.
  - rewrite Hwk. simpl. by rewrite <- app_assoc.
Qed.

Lemma uartstart_spec s : uart_ok s →
  wp uartstart (λ _ s', uart_ok s' ∧ u_panicked s' = u_panicked s ∧
    ∃ l, tx_queue s = l ++ tx_queue s' ∧ transmits s l s' ∧
      u_woken s' = u_woken s ++ ((λ _, ChUart) <$> l)) s.
Proof. intros Hok. apply uartstart_loop_spec; [done|]. pose proof (uo_level _ Hok). unfold UART_TX_BUF_SIZE in *. lia. Qed.

(** A byte is accepted at the back of the queue. *)
Lemma uartputc_spec s c :
  uart_ok s → u_panicked s = false → tx_level s < UART_TX_BUF_SIZE →
  wp (uartputc c) (λ _ s', uart_ok s' ∧ u_panicked s' = false ∧
    ∃ l, tx_queue s ++ [u8 c] = l ++ tx_queue s' ∧ transmits s l s' ∧
      u_woken s' = u_woken s ++ ((λ _, ChUart) <$> l)) s.
Proof.
  intros [Hb Hw Hr Hl] Hp Hf. pose proof (tx_level_pos s) as Hpos. destruct tx_size as [T1 T2].
  unfold uartputc. apply wp_step. unfold wp at 1, get. cbv beta. rewrite Hp.
  destruct (Z.eqb_spec (tx_w s) (u64 (tx_r s + UART_TX_BUF_SIZE))) as [E|E].
  { unfold tx_level, u64, UART_TX_BUF_SIZE in *. exfalso. zdm. }
  apply wp_step. unfold wp at 1, modify. set (s1 := mkUart _ _ _ _ _ _ _).
  assert (Hlev : tx_level s1 = tx_level s + 1).
  { unfold s1, tx_level, u64, UART_TX_BUF_SIZE in *. simpl. zdm. }
  assert (Hok1 : uart_ok s1).
  { split; [by simpl; rewrite length_insert|simpl; unfold u64; zdm|done|lia]. }
  assert (Hq : tx_queue s1 = tx_queue s ++ [u8 c]).
  { unfold tx_queue. rewrite Hlev, Z2Nat.inj_add by lia. rewrite Nat.add_1_r. simpl.
    apply (ring_put UART_TX_BUF_SIZE T1); unfold UART_TX_BUF_SIZE in *; [lia|lia|].
    rewrite Z2Nat.id by lia. unfold tx_level, u64. rewrite Z.add_comm, slot_wrap by done. f_equal. lia. }
  eapply wp_mono; [by apply uartstart_spec|]. intros [] s' (H1 & H2 & l & H3 & H4 & H5).
  split; [done|]. split; [by rewrite H2|]. exists l. rewrite <- Hq. done.
Qed.
End queue.

(** ** Properties *)

(** What happens to the transmitter: writers call [uartputc], and interrupts
    call [uartstart]. *)
Inductive uop : Type :=
| UPut (c : Z)
| UStart.

Section run.
Context {V : Type} `{UartDev V}.

(** The bytes accepted and the final state; a writer that finds the buffer full
    sleeps and its byte is not accepted. *)
Fixpoint uart_run (ops : list uop) (s : uart V) : option (list Z * uart V) :=
  match ops with
  | [] => Some ([], s)
  | UPut c :: ops =>
      match uartputc c s with
      | Ok _ s => match uart_run ops s with Some (l, s) => Some (u8 c :: l, s) | None => None end
      | Sleep _ s => uart_run ops s
      | _ => None
      end
  | UStart :: ops =>
      match uartstart s with
      | Ok _ s => uart_run ops s
      | _ => None
      end
  end.

Lemma uartputc_full (s : uart V) c :
  uart_ok s → u_panicked s = false → tx_level s = UART_TX_BUF_SIZE → uartputc c s = Sleep ChUart s.
Proof.
  intros [_ Hw Hr _] Hp Hl. unfold uartputc, bind, get, sleep. rewrite Hp.
  destruct (Z.eqb_spec (tx_w s) (u64 (tx_r s + UART_TX_BUF_SIZE))) as [E|E]; [done|].
  unfold tx_level, u64, UART_TX_BUF_SIZE in *. exfalso. zdm.
Qed.

Lemma uart_run_spec ops (s : uart V) :
  uart_ok s → u_panicked s = false →
  ∃ acc s' l, uart_run ops s = Some (acc, s') ∧ uart_ok s' ∧ transmits s l s' ∧
    tx_queue s ++ acc = l ++ tx_queue s'.
Proof.
  revert s. induction ops as [|[c|] ops IH]; intros s Hok Hp; simpl.
  - exists [], s, []. unfold transmits. simpl. by rewrite !app_nil_r.
  - destruct (decide (tx_level s = UART_TX_BUF_SIZE)) as [Hf|Hf].
    { rewrite uartputc_full by done. by apply IH. }
    destruct (wp_inv _ _ _ (uartputc_spec s c Hok Hp ltac:(pose proof (uo_level _ Hok); lia)))
      as ([] & s1 & -> & Hok1 & Hp1 & l1 & Hq1 & Ht1 & _).
    destruct (IH s1 Hok1 Hp1) as (acc & s' & l & -> & Hok' & Ht & Hq).
    exists (u8 c :: acc), s', (l1 ++ l). split; [done|]. split; [done|]. unfold transmits in *. split.
    + by rewrite Ht, Ht1, fmap_app, app_assoc.
    + rewrite <- app_assoc, <- Hq, (app_assoc l1), <- Hq1, <- app_assoc. done.
  - destruct (wp_inv _ _ _ (uartstart_spec s Hok)) as ([] & s1 & -> & Hok1 & Hp1 & l1 & Hq1 & Ht1 & _).
    destruct (IH s1 Hok1 ltac:(congruence)) as (acc & s' & l & -> & Hok' & Ht & Hq).
    exists acc, s', (l1 ++ l). split; [done|]. split; [done|]. unfold transmits in *. split.
    + by rewrite Ht, Ht1, fmap_app, app_assoc.
    + by rewrite Hq1, <- app_assoc, Hq, app_assoc.
Qed.
End run.

(** C37: the UART sends what it accepted, in order.  Whatever the device answers
    and however writers and interrupts alternate, the driver never gets stuck,
    the bytes written to the transmit register followed by the at most
    UART_TX_BUF_SIZE bytes still buffered are the bytes accepted, in order,
    across the wrap of the 64-bit counters. *)
Theorem uart_sends_in_order {V} `{UartDev V} (ops : list uop) (s : uart V)
    (Hok : uart_ok s) (Hp : u_panicked s = false) (Hq : tx_queue s = []) :
  ∃ acc s' l, uart_run ops s = Some (acc, s') ∧ acc = l ++ tx_queue s' ∧
    u_log s' = u_log s ++ ((λ c, (THR, u8 c)) <$> l) ∧
    Z.of_nat (length (tx_queue s')) ≤ UART_TX_BUF_SIZE.
Proof.
  destruct (uart_run_spec ops s Hok Hp) as (acc & s' & l & He & Hok' & Ht & Hl).
  exists acc, s', l. rewrite Hq in Hl. split; [done|]. split; [done|]. split; [done|].
  unfold tx_queue. rewrite length_ring. pose proof (tx_level_pos s'). pose proof (uo_level _ Hok'). lia.
Qed.

(** A device that is idle every other time it is asked. *)
#[local] Instance demo_uart_dev : UartDev bool := {|
  read_reg reg (v : bool) := if reg =? LSR then (if v then 32 else 0, negb v) else (0, v);
  write_reg (_ _ : Z) (v : bool) := v;
|}.
Definition demo_uart : uart bool := mkUart (replicate 32 0) (2 ^ 64 - 1) (2 ^ 64 - 1) false true [] [].

Lemma uart_sends_in_order_witness :
  ∃ acc s' l, uart_run [UPut 104; UPut 105; UStart] demo_uart = Some (acc, s') ∧ acc = l ++ tx_queue s'.
Proof.
  destruct (uart_sends_in_order [UPut 104; UPut 105; UStart] demo_uart) as (acc & s' & l & H1 & H2 & _);
    [by split; vm_compute|reflexivity|reflexivity|].
  exists acc, s', l. split; [exact H1|exact H2].
Defined.
