(* ===== verification/Console.v ===== *)
(** * Console: kernel/console.c and the interrupt side of kernel/uart.c

    The input buffer is a ring with three counters: [r] <= [w] <= [e].  The
    bytes from [r] to [w] are complete lines for [consoleread], those from [w]
    to [e] the line being edited.  [procdump] is a parameter. *)
From S2P Require Import Prelude Riscv Ring UserMem Uart.

Definition BACKSPACE : Z := 256.
(** [C(x)]: control characters. *)
Definition ctrl (x : Z) : Z := x - 64.
Definition INPUT_BUF_SIZE : Z := 128.

Record cons_t : Type := mkCons { c_buf : list Z; c_r : Z; c_w : Z; c_e : Z }.

Record con (V : Type) : Type := mkCon { cns : cons_t; ua : uart V; c_woken : list chan }.
Arguments mkCon {V}.
Arguments cns {V} _.
Arguments ua {V} _.
Arguments c_woken {V} _.

Section Console.
Context {V : Type} `{UartDev V}.
Context (fuel : nat) (procdump : M (con V) unit).
Notation MC := (M (con V)).

Definition on_uart {A} (m : M (uart V) A) : MC A :=
  zoom ua (λ u s, mkCon (cns s) u (c_woken s)) m.
Definition on_cons (f : cons_t → cons_t) : MC unit :=
  modify (λ s, mkCon (f (cns s)) (ua s) (c_woken s)).
Definition cons_wakeup (c : chan) : MC unit :=
  modify (λ s, mkCon (cns s) (ua s) (c_woken s ++ [c])).

Definition consputc (c : Z) : MC unit :=
  if c =? BACKSPACE then
    on_uart (uartputc_sync fuel 8) ;;; on_uart (uartputc_sync fuel 32) ;;; on_uart (uartputc_sync fuel 8)
  else on_uart (uartputc_sync fuel c).

(** [cons.e--]. *)
Definition dec_e (c : cons_t) : cons_t := mkCons (c_buf c) (c_r c) (c_w c) (u32 (c_e c - 1)).
(** [cons.w = cons.e]. *)
Definition commit_e (c : cons_t) : cons_t := mkCons (c_buf c) (c_r c) (c_e c) (c_e c).
(** [cons.buf[cons.e++ % INPUT_BUF_SIZE] = c]. *)
Definition store_e (v : Z) (c : cons_t) : cons_t :=
  mkCons (<[slot INPUT_BUF_SIZE (c_e c) := u8 v]> (c_buf c)) (c_r c) (c_w c) (u32 (c_e c + 1)).

(** The kill-line loop; the line being edited has at most INPUT_BUF_SIZE bytes. *)
Fixpoint kill_line (n : nat) : MC unit :=
  match n with
  | O => nofuel
  | S n =>
      do c <- gets cns;
      if negb (c_e c =? c_w c) &&
         negb (nth (slot INPUT_BUF_SIZE (u32 (c_e c - 1))) (c_buf c) 0 =? 10)
      then on_cons dec_e ;;; consputc BACKSPACE ;;; kill_line n
      else ret tt
  end.

Definition consoleintr (c : Z) : MC unit :=
  if c =? ctrl 80 then procdump
  else if c =? ctrl 85 then kill_line (S (Z.to_nat INPUT_BUF_SIZE))
  else if (c =? ctrl 72) || (c =? 127) then
    do k <- gets cns;
    if negb (c_e k =? c_w k) then on_cons dec_e ;;; consputc BACKSPACE else ret tt
  else
    do k <- gets cns;
    if negb (c =? 0) && (u32 (c_e k - c_r k) <? INPUT_BUF_SIZE) then
      let c := if c =? 13 then 10 else c in
      consputc c ;;;
      on_cons (store_e c) ;;;
      do k <- gets cns;
      if (c =? 10) || (c =? ctrl 68) || (u32 (c_e k - c_r k) =? INPUT_BUF_SIZE) then
        on_cons commit_e ;;; cons_wakeup (ChCons)
      else ret tt
    else ret tt.

(** The interrupt handler: [n] bounds the characters the device delivers. *)
Fixpoint uartintr_read (n : nat) : MC unit :=
  match n with
  | O => nofuel
  | S n =>
      do c <- on_uart uartgetc;
      if c =? -1 then ret tt else consoleintr c ;;; uartintr_read n
  end.

Definition uartintr (n : nat) : MC unit :=
  uartintr_read n ;;; on_uart uartstart.

(** [devsw[CONSOLE]] is set by the caller of this model. *)
Definition consoleinit : MC unit := on_uart uartinit.
End Console.

Section ConsoleUser.
Context {U : Type} `{UserMem U}.

(** One run of [consoleread], with [k] bytes still wanted out of [target]. *)
Fixpoint consoleread_run (k : nat) (killed user_dst : bool) (u : U) (dst target : Z) (c : cons_t) :
    run_end * U * cons_t :=
  let n := Z.of_nat k in
  match k with
  | O => (Return (target - n), u, c)
  | S k =>
      if c_r c =? c_w c then
        if killed then (Return (-1), u, c) else (Asleep n, u, c)
      else
        let ch := nth (slot INPUT_BUF_SIZE (c_r c)) (c_buf c) 0 in
        let c := mkCons (c_buf c) (u32 (c_r c + 1)) (c_w c) (c_e c) in
        if ch =? ctrl 68 then
          let c := if n <? target then mkCons (c_buf c) (u32 (c_r c - 1)) (c_w c) (c_e c) else c in
          (Return (target - n), u, c)
        else
          match either_copyout user_dst u dst [ch] with
          | (false, u) => (Return (target - n), u, c)
          | (true, u) =>
              if ch =? 10 then (Return (target - (n - 1)), u, c)
              else consoleread_run k killed user_dst u (u64 (dst + 1)) target c
          end
  end.

(** The first run has [n = target]; one that slept resumes with the [n] it had. *)
Definition consoleread (killed user_dst : bool) (u : U) (dst target n : Z) (c : cons_t) :
    run_end * U * cons_t :=
  consoleread_run (Z.to_nat n) killed user_dst u (u64 (dst + (target - n))) target c.

Context {V : Type} `{UartDev V}.

(** One run of [consolewrite] from index [i], with [k] bytes left. *)
Fixpoint consolewrite_run (k : nat) (user_src : bool) (u : U) (src i : Z) (s : uart V) :
    outcome (uart V) run_end :=
  match k with
  | O => Ok (Return i) s
  | S k =>
      match either_copyin user_src u (u64 (src + i)) 1 with
      | Some (c :: _) =>
          match uartputc c s with
          | Ok _ s => consolewrite_run k user_src u src (i + 1) s
          | Sleep _ s => Ok (Asleep i) s
          | Panic e => Panic e
          | Undef => Undef
          | NoFuel => NoFuel
          end
      | _ => Ok (Return i) s
      end
  end.

Definition consolewrite (user_src : bool) (u : U) (src n i : Z) (s : uart V) :
    outcome (uart V) run_end :=
  consolewrite_run (Z.to_nat (n - i)) user_src u src i s.
End ConsoleUser.

(** ** The line editor *)

Definition committed (c : cons_t) : list Z :=
  ring INPUT_BUF_SIZE (c_buf c) (c_r c) (Z.to_nat (u32 (c_w c - c_r c))).
Definition editing (c : cons_t) : list Z :=
  ring INPUT_BUF_SIZE (c_buf c) (c_w c) (Z.to_nat (u32 (c_e c - c_w c))).

Record cons_ok (c : cons_t) : Prop := {
  co_buf : length (c_buf c) = 128%nat;
  co_r : 0 ≤ c_r c < 2 ^ 32;
  co_w : 0 ≤ c_w c < 2 ^ 32;
  co_e : 0 ≤ c_e c < 2 ^ 32;
  co_split : u32 (c_w c - c_r c) + u32 (c_e c - c_w c) = u32 (c_e c - c_r c);
  co_size : u32 (c_e c - c_r c) ≤ INPUT_BUF_SIZE;
  co_line : 10 ∉ editing c;
}.

(** What a character does to the finished input [q] and the line [l]. *)
Definition edit (c : Z) (ql : list Z * list Z) : list Z * list Z :=
  let '(q, l) := ql in
  if decide (c = 16) then (q, l)
  else if decide (c = 21) then (q, [])
  else if decide (c = 8 ∨ c = 127) then (q, take (length l - 1) l)
  else if decide (c ≠ 0 ∧ (length q + length l < 128)%nat) then
    let c := if decide (c = 13) then 10 else c in
    if decide (c = 10 ∨ c = 4 ∨ (length q + length l = 127)%nat) then (q ++ l ++ [c], []) else (q, l ++ [c])
  else (q, l).

Lemma input_size : 0 < INPUT_BUF_SIZE ∧ (INPUT_BUF_SIZE | 2 ^ 32).
Proof. split; [done|by exists 33554432]. Qed.

Lemma length_committed c : length (committed c) = Z.to_nat (u32 (c_w c - c_r c)).
Proof. apply length_ring. Qed.
Lemma length_editing c : length (editing c) = Z.to_nat (u32 (c_e c - c_w c)).
Proof. apply length_ring. Qed.

Lemma cons_levels c : cons_ok c →
  u32 (c_e c - c_r c) = Z.of_nat (length (committed c) + length (editing c)).
Proof.
  intros Hok. rewrite length_committed, length_editing, <- (co_split _ Hok).
  pose proof (u32_range (c_w c - c_r c)). pose proof (u32_range (c_e c - c_w c)). lia.
Qed.

Lemma editing_empty c : cons_ok c → c_e c = c_w c ↔ editing c = [].
Proof.
  intros [_ _ ? ? _ _ _]. rewrite <- length_zero_iff_nil, length_editing. unfold u32. split.
  - intros ->. by rewrite Z.sub_diag.
  - intros He. zdm.
Qed.

(** [cons.e--] on a line that is not empty. *)
Lemma dec_e_spec c : cons_ok c → c_e c ≠ c_w c →
  cons_ok (dec_e c) ∧ committed (dec_e c) = committed c ∧
  editing c = editing (dec_e c) ++ [nth (slot INPUT_BUF_SIZE (u32 (c_e c - 1))) (c_buf c) 0].
Proof.
  intros [Hb Hr Hw He Hs Hz Hl] Hne. destruct input_size as [T1 T2].
  assert (H1 : u32 (u32 (c_e c - 1) - c_w c) = u32 (c_e c - c_w c) - 1) by (unfold u32 in *; zdm).
  assert (H2 : u32 (u32 (c_e c - 1) - c_r c) = u32 (c_e c - c_r c) - 1) by (unfold u32, INPUT_BUF_SIZE in *; zdm).
  assert (Hp : 0 < u32 (c_e c - c_w c)) by (unfold u32; zdm).
  assert (Hed : editing c = editing (dec_e c) ++ [nth (slot INPUT_BUF_SIZE (u32 (c_e c - 1))) (c_buf c) 0]).
  { unfold editing, dec_e. cbn [c_buf c_w c_e]. rewrite H1.
    replace (Z.to_nat (u32 (c_e c - c_w c))) with (S (Z.to_nat (u32 (c_e c - c_w c) - 1))) by lia.
    rewrite ring_snoc. do 3 f_equal. rewrite Z2Nat.id by lia.
    replace (c_w c + (u32 (c_e c - c_w c) - 1)) with (u32 (c_e c - c_w c) + (c_w c - 1)) by lia.
    rewrite <- (Z.add_0_r (u32 (c_e c - 1))). unfold u32. rewrite !slot_wrap by done. f_equal. lia. }
  split; [|done]. split; cbn [dec_e c_buf c_r c_w c_e]; try done; try lia.
  - unfold u32. zdm.
  - intros Hx. apply Hl. rewrite Hed. apply elem_of_app. by left.
Qed.

(** A character at the end of the line. *)
Lemma store_e_spec c v : cons_ok c → u32 (c_e c - c_r c) < INPUT_BUF_SIZE →
  let c' := store_e v c in
  committed c' = committed c ∧ editing c' = editing c ++ [u8 v] ∧
  u32 (c_e c' - c_r c') = u32 (c_e c - c_r c) + 1 ∧ u32 (c_e c' - c_w c') = u32 (c_e c - c_w c) + 1 ∧
  length (c_buf c') = 128%nat ∧ 0 ≤ c_e c' < 2 ^ 32.
Proof.
  intros [Hb Hr Hw He Hs Hz Hl] Hlt c'. destruct input_size as [T1 T2].
  pose proof (u32_range (c_w c - c_r c)) as R1. pose proof (u32_range (c_e c - c_w c)) as R2.
  assert (Hslot : ∀ x n, Z.of_nat n = u32 (c_e c - x) → slot INPUT_BUF_SIZE (c_e c) = slot INPUT_BUF_SIZE (x + Z.of_nat n)).
  { intros x n ->. rewrite Z.add_comm. unfold u32. rewrite slot_wrap by done. f_equal. lia. }
  assert (H1 : u32 (u32 (c_e c + 1) - c_r c) = u32 (c_e c - c_r c) + 1) by (unfold u32, INPUT_BUF_SIZE in *; zdm).
  assert (H2 : u32 (u32 (c_e c + 1) - c_w c) = u32 (c_e c - c_w c) + 1) by (unfold u32, INPUT_BUF_SIZE in *; zdm).
  unfold committed, editing. unfold c', store_e. cbn [c_buf c_r c_w c_e]. rewrite H1, H2. split_and!; try done.
  - apply ring_ext. intros k Hk. rewrite list_lookup_insert_ne; [done|].
    rewrite (Hslot (c_r c) (Z.to_nat (u32 (c_e c - c_r c)))) by lia.
    intros Hx%slot_inj; [|done|]; unfold INPUT_BUF_SIZE in *; lia.
  - rewrite Z2Nat.inj_add by lia. rewrite Nat.add_1_r.
    apply (ring_put INPUT_BUF_SIZE T1); unfold INPUT_BUF_SIZE in *; [lia|lia|]. apply Hslot. lia.
  - by rewrite length_insert.
  - apply u32_range.
  - apply u32_range.
Qed.

(** [cons.w = cons.e]. *)
Lemma commit_e_spec c :
  u32 (c_w c - c_r c) + u32 (c_e c - c_w c) = u32 (c_e c - c_r c) → 0 ≤ c_e c < 2 ^ 32 →
  committed (commit_e c) = committed c ++ editing c ∧ editing (commit_e c) = [].
Proof.
  intros Hs He. destruct input_size as [T1 T2].
  pose proof (u32_range (c_w c - c_r c)) as R1. pose proof (u32_range (c_e c - c_w c)) as R2.
  split; [|unfold editing; simpl; by rewrite Z.sub_diag].
  unfold committed, editing, commit_e. cbn [c_buf c_r c_w c_e].
  rewrite <- Hs, Z2Nat.inj_add by lia. rewrite ring_app. f_equal.
  rewrite Z2Nat.id by lia. unfold ring. apply list_fmap_ext. intros k x _. f_equal.
  rewrite Z.add_comm, Z.add_assoc, Z.add_comm. unfold u32. rewrite slot_wrap by done. f_equal. lia.
Qed.

Section editor.
Context {V : Type} `{UartDev V}.

(** Polled [n] times, the transmitter reports idle. *)
Fixpoint ready_within (n : nat) (v : V) : bool :=
  match n with
  | O => false
  | S n =>
      let '(x, v) := read_reg LSR v in
      if Z.land x LSR_TX_IDLE =? 0 then ready_within n v else true
  end.

Context (fuel : nat) (procdump : M (con V) unit).
Hypothesis Hready : ∀ v, ready_within fuel v = true.

(** The parts of the state [printf] leaves alone. *)
Definition prints (s s' : con V) : Prop :=
  cns s' = cns s ∧ u_panicked (ua s') = false ∧ c_woken s' = c_woken s.
Hypothesis Hdump : ∀ s, u_panicked (ua s) = false → wp procdump (λ _, prints s) s.

Lemma spin_idle_spec n (u : uart V) : ready_within n (u_dev u) = true →
  wp (spin_idle n) (λ _ u', u_panicked u' = u_panicked u) u.
Proof using Type.
  revert u. induction n as [|n IH]; intros u; cbn [ready_within spin_idle]; [done|].
  intros Hr. apply wp_step. unfold wp at 1, ReadReg. destruct (read_reg LSR (u_dev u)) as [x d].
  destruct (Z.land x LSR_TX_IDLE =? 0); [|by apply wp_ret]. eapply wp_mono; [by apply IH|]. done.
Qed.

Lemma sync_spec (u : uart V) c : u_panicked u = false →
  wp (uartputc_sync fuel c) (λ _ u', u_panicked u' = false) u.
Proof using Hready.
  intros Hp. unfold uartputc_sync. apply wp_step. unfold wp at 1, get. rewrite Hp.
  apply wp_step. eapply wp_mono; [by apply spin_idle_spec|]. intros [] u' Hu. unfold wp, WriteReg, modify. simpl. congruence.
Qed.

Lemma on_uart_spec {A} (m : M (uart V) A) (s : con V) :
  wp m (λ _ u', u_panicked u' = false) (ua s) → wp (on_uart m) (λ _, prints s) s.
Proof using Type. intros Hm. apply wp_zoom. eapply wp_mono; [done|]. intros a u' Hu. by repeat split. Qed.

Lemma consputc_spec c (s : con V) : u_panicked (ua s) = false → wp (consputc fuel c) (λ _, prints s) s.
Proof using Hready.
  intros Hp. unfold consputc. case_test.
  - apply wp_step. eapply wp_mono; [apply on_uart_spec; by apply sync_spec|]. intros [] s1 (H1 & H2 & H3).
    apply wp_step. eapply wp_mono; [apply on_uart_spec; by apply sync_spec|]. intros [] s2 (H4 & H5 & H6).
    eapply wp_mono; [apply on_uart_spec; by apply sync_spec|]. intros [] s3 (H7 & H8 & H9).
    repeat split; congruence.
  - apply on_uart_spec. by apply sync_spec.
Qed.

Lemma kill_line_spec n (s : con V) :
  cons_ok (cns s) → u_panicked (ua s) = false → (length (editing (cns s)) < n)%nat →
  wp (kill_line fuel n) (λ _ s', cons_ok (cns s') ∧ u_panicked (ua s') = false ∧ c_woken s' = c_woken s ∧
    committed (cns s') = committed (cns s) ∧ editing (cns s') = []) s.
Proof using Hready.
  revert s. induction n as [|n IH]; intros s Hok Hp Hn; [lia|]. cbn [kill_line].
  apply wp_step. unfold wp at 1, gets.
  destruct (Z.eqb_spec (c_e (cns s)) (c_w (cns s))) as [E|E]; simpl negb; cbn [andb].
  { apply wp_ret. split_and!; try done. by apply editing_empty. }
  destruct (dec_e_spec _ Hok E) as (Hok1 & Hc1 & He1).
  destruct (Z.eqb_spec (nth (slot INPUT_BUF_SIZE (u32 (c_e (cns s) - 1))) (c_buf (cns s)) 0) 10) as [E2|E2]; cbn [negb].
  { destruct (co_line _ Hok). rewrite He1, E2. apply elem_of_app. right. by left. }
  apply wp_step. unfold on_cons, wp at 1, modify.
  apply wp_step. eapply wp_mono; [by apply consputc_spec|]. intros [] s2 (H1 & H2 & H3). simpl in H1, H3.
  eapply wp_mono; [apply IH; rewrite ?H1; try done|].
  - rewrite He1, length_app in Hn. simpl in Hn. lia.
  - intros [] s3 (H4 & H5 & H6 & H7 & H8). split_and!; try done; [congruence|]. rewrite H7, H1. done.
Qed.

Lemma take_snoc {A} (l : list A) x : take (length (l ++ [x]) - 1) (l ++ [x]) = l.
Proof using Type. rewrite length_app. simpl. rewrite Nat.add_sub, take_app_length. done. Qed.

(** The default case: the character is stored and, at the end of a line, the
    line is handed to the readers. *)
Lemma store_spec c (s : con V) :
  cons_ok (cns s) → u_panicked (ua s) = false → 0 < c < 256 →
  u32 (c_e (cns s) - c_r (cns s)) < INPUT_BUF_SIZE →
  let q := committed (cns s) in
  let l := editing (cns s) in
  wp (consputc fuel c ;;; on_cons (store_e c) ;;;
      do k <- gets cns;
      if (c =? 10) || (c =? ctrl 68) || (u32 (c_e k - c_r k) =? INPUT_BUF_SIZE) then
        on_cons commit_e ;;; cons_wakeup (ChCons)
      else ret tt)
    (λ _ s', cons_ok (cns s') ∧ u_panicked (ua s') = false ∧
      (committed (cns s'), editing (cns s')) =
        (if decide (c = 10 ∨ c = 4 ∨ (length q + length l = 127)%nat) then (q ++ l ++ [c], []) else (q, l ++ [c])) ∧
      (committed (cns s') = q ∨ c_woken s' = c_woken s ++ [ChCons])) s.
Proof using Hready.
  intros Hok Hp Hc Hlt q l. pose proof (cons_levels _ Hok) as Hlev.
  apply wp_step. eapply wp_mono; [by apply consputc_spec|]. intros [] s1 (H1 & H2 & H3).
  apply wp_step. unfold on_cons at 1, wp at 1, modify. rewrite H1.
  destruct (store_e_spec _ c Hok Hlt) as (S1 & S2 & S3 & S4 & S5 & S6).
  set (k := store_e c (cns s)) in *. rewrite u8_id in S2 by lia. fold q in S1. fold l in S2.
  assert (Hsplit : u32 (c_w k - c_r k) + u32 (c_e k - c_w k) = u32 (c_e k - c_r k)).
  { rewrite S3, S4. change (c_w k) with (c_w (cns s)). change (c_r k) with (c_r (cns s)).
    pose proof (co_split _ Hok). lia. }
  apply wp_step. unfold wp at 1, gets. cbn [cns]. rewrite S3, Hlev. fold q l.
  assert (Htest : (c =? 10) || (c =? ctrl 68) || (Z.of_nat (length q + length l) + 1 =? INPUT_BUF_SIZE) =
    bool_decide (c = 10 ∨ c = 4 ∨ (length q + length l = 127)%nat)).
  { unfold INPUT_BUF_SIZE. change (ctrl 68) with 4. apply eq_true_iff_eq. rewrite bool_decide_eq_true.
    rewrite !orb_true_iff, !Z.eqb_eq. lia. }
  rewrite Htest. destruct Hok as [Hb Hr Hw He Hs Hz Hl].
  destruct (decide (c = 10 ∨ c = 4 ∨ (length q + length l = 127)%nat)) as [Hd|Hd].
  - rewrite bool_decide_eq_true_2 by done. apply wp_step. unfold on_cons, cons_wakeup, wp, modify. cbn [cns ua c_woken].
    destruct (commit_e_spec k Hsplit S6) as [C1 C2]. split_and!; try done.
    + split; cbn [commit_e c_buf c_r c_w c_e]; try done; [|unfold INPUT_BUF_SIZE in *; lia|].
      * rewrite Z.sub_diag. change (u32 0) with 0. lia.
      * change (10 ∉ editing (commit_e k)). rewrite C2. apply not_elem_of_nil.
    + rewrite C1, C2, S1, S2. done.
    + right. by rewrite H3.
  - rewrite bool_decide_eq_false_2 by done. apply wp_ret. cbn [cns ua c_woken]. rewrite S1, S2. split_and!; try done; [|by left].
    split; try done; [unfold INPUT_BUF_SIZE in *; lia|].
    rewrite S2. rewrite not_elem_of_app. split; [done|]. intros Hx%list_elem_of_singleton. apply Hd. by left.
Qed.

Lemma consoleintr_spec c (s : con V) :
  cons_ok (cns s) → u_panicked (ua s) = false → 0 ≤ c < 256 →
  wp (consoleintr fuel procdump c) (λ _ s', cons_ok (cns s') ∧ u_panicked (ua s') = false ∧
    (committed (cns s'), editing (cns s')) = edit c (committed (cns s), editing (cns s)) ∧
    (committed (cns s') = committed (cns s) ∨ c_woken s' = c_woken s ++ [ChCons])) s.
Proof using Hready Hdump.
  intros Hok Hp Hc. unfold consoleintr, edit.
  change (ctrl 80) with 16. change (ctrl 85) with 21. change (ctrl 72) with 8.
  destruct (Z.eqb_spec c 16) as [E1|E1]; [rewrite decide_True by done|rewrite decide_False by done].
  { eapply wp_mono; [by apply Hdump|]. intros [] s' (H1 & H2 & H3). rewrite H1. auto. }
  destruct (Z.eqb_spec c 21) as [E2|E2]; [rewrite decide_True by done|rewrite decide_False by done].
  { eapply wp_mono; [apply kill_line_spec; try done|].
    - rewrite length_editing. pose proof (co_size _ Hok). pose proof (co_split _ Hok).
      pose proof (u32_range (c_w (cns s) - c_r (cns s))). unfold INPUT_BUF_SIZE in *. lia.
    - intros [] s' (H1 & H2 & H3 & H4 & H5). rewrite H4, H5. auto. }
  assert (Ht : (c =? 8) || (c =? 127) = bool_decide (c = 8 ∨ c = 127)).
  { apply eq_true_iff_eq. rewrite bool_decide_eq_true, orb_true_iff, !Z.eqb_eq. done. }
  rewrite Ht. destruct (decide (c = 8 ∨ c = 127)) as [E3|E3].
  { rewrite bool_decide_eq_true_2 by done. apply wp_step. unfold wp at 1, gets.
    destruct (Z.eqb_spec (c_e (cns s)) (c_w (cns s))) as [E|E]; cbn [negb].
    - apply wp_ret. apply editing_empty in E; [|done]. rewrite E. auto.
    - destruct (dec_e_spec _ Hok E) as (Hok1 & Hc1 & He1). apply wp_step. unfold on_cons, wp at 1, modify.
      eapply wp_mono; [by apply consputc_spec|]. intros [] s' (H1 & H2 & H3). cbn [cns] in H1.
      rewrite H1, Hc1, He1, take_snoc. auto. }
  rewrite bool_decide_eq_false_2 by done. apply wp_step. unfold wp at 1, gets.
  pose proof (cons_levels _ Hok) as Hlev.
  assert (Ht2 : negb (c =? 0) && (u32 (c_e (cns s) - c_r (cns s)) <? INPUT_BUF_SIZE) =
    bool_decide (c ≠ 0 ∧ (length (committed (cns s)) + length (editing (cns s)) < 128)%nat)).
  { rewrite Hlev. unfold INPUT_BUF_SIZE. apply eq_true_iff_eq.
    rewrite bool_decide_eq_true, andb_true_iff, negb_true_iff, Z.eqb_neq, Z.ltb_lt. lia. }
  rewrite Ht2.
  destruct (decide (c ≠ 0 ∧ (length (committed (cns s)) + length (editing (cns s)) < 128)%nat)) as [E4|E4].
  - rewrite bool_decide_eq_true_2 by done. assert (He : (if c =? 13 then 10 else c) = if decide (c = 13) then 10 else c).
    { destruct (Z.eqb_spec c 13); [by rewrite decide_True|by rewrite decide_False]. }
    rewrite He. apply store_spec; try done; [case_decide; lia|rewrite Hlev; unfold INPUT_BUF_SIZE; lia].
  - rewrite bool_decide_eq_false_2 by done. apply wp_ret. auto.
Qed.

(** Interrupts for the characters [cs], in order. *)
Fixpoint type (cs : list Z) : M (con V) unit :=
  match cs with [] => ret tt | c :: cs => consoleintr fuel procdump c ;;; type cs end.

Lemma type_spec cs (s : con V) :
  cons_ok (cns s) → u_panicked (ua s) = false → Forall (λ c, 0 ≤ c < 256) cs →
  wp (type cs) (λ _ s', cons_ok (cns s') ∧ u_panicked (ua s') = false ∧
    (committed (cns s'), editing (cns s')) = foldl (λ ql c, edit c ql) (committed (cns s), editing (cns s)) cs) s.
Proof using Hready Hdump.
  revert s. induction cs as [|c cs IH]; intros s Hok Hp Hcs; simpl; [by apply wp_ret|].
  apply Forall_cons in Hcs as [Hc Hcs]. apply wp_step. eapply wp_mono; [by apply consoleintr_spec|].
  intros [] s1 (H1 & H2 & H3 & _). eapply wp_mono; [by apply IH|]. rewrite H3. done.
Qed.
End editor.

(** ** consoleread *)

(** What a read of [n] bytes takes from the finished input [q], of which
    [first] tells whether nothing was read yet: the bytes and what is left. *)
Fixpoint read_line (n : nat) (first : bool) (q : list Z) : list Z * list Z :=
  match n, q with
  | S n, c :: q =>
      if c =? 4 then ([], if first then q else c :: q)
      else if c =? 10 then ([c], q)
      else let '(l, q) := read_line n false q in (c :: l, q)
  | _, _ => ([], q)
  end.

(** The read ends before it runs out of input. *)
Fixpoint line_ends (n : nat) (q : list Z) : bool :=
  match n, q with
  | O, _ => true
  | S n, c :: q => (c =? 4) || (c =? 10) || line_ends n q
  | S _, [] => false
  end.

Section read.
Context {U : Type} `{UserMem U}.

(** The bytes of [l] copied out one at a time. *)
Fixpoint put_bytes (user_dst : bool) (u : U) (dst : Z) (l : list Z) : option U :=
  match l with
  | [] => Some u
  | c :: l =>
      match either_copyout user_dst u dst [c] with
      | (true, u) => put_bytes user_dst u (u64 (dst + 1)) l
      | (false, _) => None
      end
  end.

Lemma committed_nil c : cons_ok c → c_r c = c_w c ↔ committed c = [].
Proof.
  intros [_ ? ? _ _ _ _]. rewrite <- length_zero_iff_nil, length_committed. unfold u32. split.
  - intros ->. by rewrite Z.sub_diag.
  - intros He. zdm.
Qed.

Lemma take_r_spec c : cons_ok c → c_r c ≠ c_w c →
  let c' := mkCons (c_buf c) (u32 (c_r c + 1)) (c_w c) (c_e c) in
  cons_ok c' ∧ editing c' = editing c ∧
  committed c = nth (slot INPUT_BUF_SIZE (c_r c)) (c_buf c) 0 :: committed c' ∧
  mkCons (c_buf c') (u32 (c_r c' - 1)) (c_w c') (c_e c') = c.
Proof.
  intros [Hb Hr Hw He Hs Hz Hl] Hne c'. destruct input_size as [T1 T2].
  assert (H1 : u32 (c_w c - u32 (c_r c + 1)) = u32 (c_w c - c_r c) - 1) by (unfold u32 in *; zdm).
  assert (H2 : u32 (c_e c - u32 (c_r c + 1)) = u32 (c_e c - c_r c) - 1) by (unfold u32, INPUT_BUF_SIZE in *; zdm).
  assert (Hp : 0 < u32 (c_w c - c_r c)) by (unfold u32; zdm).
  split_and!.
  - split; simpl; try done; [apply u32_range|lia|lia].
  - done.
  - unfold committed, c'. cbn [c_buf c_r c_w]. rewrite H1.
    replace (Z.to_nat (u32 (c_w c - c_r c))) with (S (Z.to_nat (u32 (c_w c - c_r c) - 1))) by lia.
    rewrite ring_cons. f_equal. symmetry. by apply ring_wrap.
  - unfold c'. simpl. destruct c as [buf r w e]. simpl in *. f_equal. unfold u32. zdm.
Qed.

Lemma consoleread_run_spec k killed user_dst (u u' : U) dst target c :
  cons_ok c → line_ends k (committed c) = true → Z.of_nat k ≤ target →
  put_bytes user_dst u dst (read_line k (bool_decide (Z.of_nat k = target)) (committed c)).1 = Some u' →
  ∃ c', consoleread_run k killed user_dst u dst target c =
      (Return (target - Z.of_nat k + Z.of_nat (length (read_line k (bool_decide (Z.of_nat k = target)) (committed c)).1)), u', c') ∧
    cons_ok c' ∧ editing c' = editing c ∧
    committed c' = (read_line k (bool_decide (Z.of_nat k = target)) (committed c)).2.
Proof.
  revert u dst c. induction k as [|k IH]; intros u dst c Hok Hle Ht Hput; cbn [consoleread_run].
  { simpl in *. simplify_eq. exists c. split_and!; try done. f_equal. f_equal. f_equal. lia. }
  destruct (Z.eqb_spec (c_r c) (c_w c)) as [E|E].
  { apply committed_nil in E; [|done]. by rewrite E in Hle. }
  destruct (take_r_spec c Hok E) as (Hok1 & He1 & Hc1 & Hback).
  set (ch := nth (slot INPUT_BUF_SIZE (c_r c)) (c_buf c) 0) in *. set (c1 := mkCons _ _ _ _) in *.
  rewrite Hc1 in *. cbn [read_line line_ends] in *. change (ctrl 68) with 4.
  destruct (Z.eqb_spec ch 4) as [E4|E4].
  { simpl in Hput. simplify_eq. simpl length.
    destruct (Z.ltb_spec (Z.of_nat (S k)) target) as [Hlt|Hge].
    - rewrite bool_decide_eq_false_2 by lia. exists c. rewrite Hback.
      split_and!; [f_equal; f_equal; f_equal; lia|done|done|by rewrite Hc1, E4].
    - rewrite bool_decide_eq_true_2 by lia. exists c1. split_and!; try done. f_equal. f_equal. f_equal. lia. }
  destruct (Z.eqb_spec ch 10) as [E10|E10].
  { cbn [fst put_bytes] in Hput. destruct (either_copyout user_dst u dst [ch]) as [[] u1]; [|done].
    simplify_eq. exists c1. split_and!; try done. f_equal. f_equal. f_equal. simpl length. lia. }
  destruct (read_line k false (committed c1)) as [l q] eqn:Er. cbn [fst snd put_bytes] in *.
  destruct (either_copyout user_dst u dst [ch]) as [[] u1]; [|done].
  assert (Hf : bool_decide (Z.of_nat k = target) = false) by (apply bool_decide_eq_false; lia).
  destruct (IH u1 (u64 (dst + 1)) c1 Hok1) as (c' & Hrun & Hok' & He' & Hc'); [done|lia| |].
  { by rewrite Hf, Er. }
  exists c'. rewrite Hf, Er in *. cbn [fst snd] in *.
  split_and!; [|done|congruence|done]. rewrite Hrun. f_equal. f_equal. f_equal. simpl length. lia.
Qed.
End read.

(** ** Properties *)

(** The buffer at boot. *)
Definition cons_boot (c : cons_t) : Prop :=
  length (c_buf c) = 128%nat ∧ c_r c = 0 ∧ c_w c = 0 ∧ c_e c = 0.

Lemma cons_boot_ok c : cons_boot c → cons_ok c ∧ committed c = [] ∧ editing c = [].
Proof.
  intros (Hb & Hr & Hw & He). assert (H1 : committed c = []) by (unfold committed; by rewrite Hr, Hw).
  assert (H2 : editing c = []) by (unfold editing; by rewrite He, Hw).
  split; [|done]. split; rewrite ?Hr, ?Hw, ?He, ?H2; try done; try lia. apply not_elem_of_nil.
Qed.

(** C36: the console is a line editor.  Typing the characters [cs] (with
    backspace, kill-line and end-of-file characters, and more input than the
    buffer holds) leaves in the buffer exactly what the editor [edit] makes of
    them, and a [consoleread] of [n] bytes that finds its end returns, in user
    memory, the finished input up to a newline, to end-of-file or to [n] bytes,
    and leaves the rest for the next read. *)
Theorem console_edits_and_reads {V U} `{UartDev V} `{UserMem U}
    (fuel : nat) (procdump : M (con V) unit) (s : con V) (cs : list Z)
    (killed user_dst : bool) (u u' : U) (dst n : Z)
    (Hready : ∀ v, ready_within fuel v = true)
    (Hdump : ∀ s, u_panicked (ua s) = false → wp procdump (λ _, prints s) s)
    (Hboot : cons_boot (cns s)) (Hp : u_panicked (ua s) = false)
    (Hcs : Forall (λ c, 0 ≤ c < 256) cs) (Hn : 0 ≤ n) (Hdst : 0 ≤ dst < 2 ^ 64) :
  let '(q, l) := foldl (λ ql c, edit c ql) ([], []) cs in
  let '(line, rest) := read_line (Z.to_nat n) true q in
  line_ends (Z.to_nat n) q = true → put_bytes user_dst u dst line = Some u' →
  ∃ s' c', type fuel procdump cs s = Ok tt s' ∧ committed (cns s') = q ∧ editing (cns s') = l ∧
    consoleread killed user_dst u dst n n (cns s') = (Return (Z.of_nat (length line)), u', c') ∧
    committed c' = rest ∧ editing c' = l.
Proof.
  destruct (cons_boot_ok _ Hboot) as (Hok & H1 & H2).
  destruct (wp_exists _ _ _ (type_spec fuel procdump Hready Hdump cs s Hok Hp Hcs)) as (s' & Hs' & Hok' & _ & Hql).
  rewrite H1, H2 in Hql. destruct (foldl _ _ cs) as [q l]. injection Hql as <- <-.
  destruct (read_line (Z.to_nat n) true (committed (cns s'))) as [line rest] eqn:Er. intros Hle Hput.
  destruct (consoleread_run_spec (Z.to_nat n) killed user_dst u u' dst n (cns s') Hok' Hle) as (c' & Hrun & _ & He & Hc).
  { lia. }
  { rewrite bool_decide_eq_true_2 by lia. by rewrite Er. }
  rewrite bool_decide_eq_true_2, Er in Hrun, Hc by lia. cbn [fst snd] in *.
  exists s', c'. split_and!; [exact Hs'|done|done| |done|done].
  unfold consoleread. rewrite Z.sub_diag, Z.add_0_r, u64_id by lia. rewrite Hrun. do 3 f_equal. lia.
Qed.

(** Typing "ab", backspace, "c" and return; then reading ten bytes. *)
#[local] Instance idle_uart : UartDev unit := {|
  read_reg (reg : Z) (v : unit) := (32, v);
  write_reg (_ _ : Z) (v : unit) := v;
|}.
Definition demo_con : con unit :=
  mkCon (mkCons (replicate 128 0) 0 0 0) (mkUart (replicate 32 0) 0 0 false tt [] []) [].
Definition demo_dst : fmem := {[ 4096 := 0; 4097 := 0; 4098 := 0 ]}.
Definition demo_got : fmem := {[ 4096 := 97; 4097 := 99; 4098 := 10 ]}.

Lemma console_edits_and_reads_witness :
  ∃ s' c', type 1 (ret tt) [97; 98; 8; 99; 13] demo_con = Ok tt s' ∧
    consoleread false true demo_dst 4096 10 10 (cns s') = (Return 3, demo_got, c').
Proof.
  destruct (console_edits_and_reads 1 (ret tt) demo_con [97; 98; 8; 99; 13] false true demo_dst demo_got 4096 10)
    as (s' & c' & H1 & _ & _ & H2 & _).
  - intros []. reflexivity.
  - intros s Hs. by repeat split.
  - by repeat split.
  - reflexivity.
  - repeat constructor; discriminate.
  - lia.
  - lia.
  - reflexivity.
  - vm_compute. reflexivity.
  - exists s', c'. split; [exact H1|exact H2].
Defined.
