(* ===== verification/Printf.v ===== *)
(** * Printf: kernel/printf.c

    The characters the routines hand to [consputc], in order.  [None] is
    behaviour C leaves undefined: a write beyond [buf], or a conversion without
    an argument of its kind. *)
From S2P Require Import Prelude Riscv.

(** ** Printing numbers *)

Definition digit (base0 : Z) (d : Z) : Z := if d <? 10 then 48 + d else base0 + (d - 10).
(** [digits[d]] of "0123456789abcdef". *)
Definition digits (d : Z) : Z := digit 97 d.

(** [buf[i++] = c] on [char buf[16]]. *)
Definition buf_push (buf : list Z) (c : Z) : option (list Z) :=
  if (length buf <? 16)%nat then Some (buf ++ [c]) else None.

(** The [do]/[while] loop that stores the digits of [x], last one first. *)
Fixpoint digits_loop (digits : Z → Z) (fuel : nat) (x base : Z) (buf : list Z) : option (list Z) :=
  match fuel with
  | O => None
  | S fuel =>
      match buf_push buf (digits (x mod base)) with
      | None => None
      | Some buf =>
          let x := x / base in
          if x =? 0 then Some buf else digits_loop digits fuel x base buf
      end
  end.

(** The buffer holds 16 characters, so 17 iterations decide. *)
Definition printint (xx base : Z) (sign : bool) : option (list Z) :=
  let neg := sign && (xx <? 0) in
  let x := if neg then u64 (- xx) else u64 xx in
  match digits_loop digits 17 x base [] with
  | None => None
  | Some buf =>
      match (if neg then buf_push buf 45 else Some buf) with
      | None => None
      | Some buf => Some (reverse buf)
      end
  end.

(** [digits[x >> 60]], then [x <<= 4], sixteen times. *)
Fixpoint printptr_loop (digits : Z → Z) (n : nat) (x : Z) : list Z :=
  match n with
  | O => []
  | S n => digits (Z.shiftr x 60) :: printptr_loop digits n (u64 (Z.shiftl x 4))
  end.
Definition printptr (x : Z) : list Z := 48 :: 120 :: printptr_loop digits 16 x.

(** ** Formats *)

(** An argument register, or a pointer to a string ([None] for a null one). *)
Inductive arg : Type :=
| AWord (v : Z)
| AStr (s : option (list Z)).

Definition null_str : list Z := [40; 110; 117; 108; 108; 41].   (* (null) *)

(** [fmt[i] & 0xff]; the terminating NUL ends the list. *)
Definition fchar (fmt : list Z) (i : nat) : Z := nth i fmt 0.

(** One conversion: its characters and how many further format characters it
    used.  [c0], [c1], [c2] are those after the percent sign. *)
Definition convert (c0 c1 c2 : Z) (ap : list arg) : option (list Z * nat * list arg) :=
  let word n (f : Z → option (list Z)) :=
    match ap with
    | AWord v :: ap => match f v with Some l => Some (l, n, ap) | None => None end
    | _ => None
    end in
  if c0 =? 100 then word 0%nat (λ v, printint (i32 v) 10 true)
  else if (c0 =? 108) && (c1 =? 100) then word 1%nat (λ v, printint (i64 v) 10 true)
  else if (c0 =? 108) && (c1 =? 108) && (c2 =? 100) then word 2%nat (λ v, printint (i64 v) 10 true)
  else if c0 =? 117 then word 0%nat (λ v, printint (i32 v) 10 false)
  else if (c0 =? 108) && (c1 =? 117) then word 1%nat (λ v, printint (i64 v) 10 false)
  else if (c0 =? 108) && (c1 =? 108) && (c2 =? 117) then word 2%nat (λ v, printint (i64 v) 10 false)
  else if c0 =? 120 then word 0%nat (λ v, printint (i32 v) 16 false)
  else if (c0 =? 108) && (c1 =? 120) then word 1%nat (λ v, printint (i64 v) 16 false)
  else if (c0 =? 108) && (c1 =? 108) && (c2 =? 120) then word 2%nat (λ v, printint (i64 v) 16 false)
  else if c0 =? 112 then word 0%nat (λ v, Some (printptr (u64 v)))
  else if c0 =? 115 then
    match ap with
    | AStr s :: ap => Some (default null_str s, 0%nat, ap)
    | _ => None
    end
  else if c0 =? 37 then Some ([37], 0%nat, ap)
  else Some ([37; c0], 0%nat, ap).

Fixpoint printf_loop (fuel : nat) (fmt : list Z) (i : nat) (ap : list arg) : option (list Z) :=
  match fuel with
  | O => None
  | S fuel =>
      let cx := fchar fmt i in
      if cx =? 0 then Some []
      else if negb (cx =? 37) then
        match printf_loop fuel fmt (S i) ap with Some l => Some (cx :: l) | None => None end
      else
        let i := S i in
        let c0 := fchar fmt i in
        let c1 := if c0 =? 0 then 0 else fchar fmt (i + 1) in
        let c2 := if c1 =? 0 then 0 else fchar fmt (i + 2) in
        if c0 =? 0 then Some []
        else
          match convert c0 c1 c2 ap with
          | None => None
          | Some (l, n, ap) =>
              match printf_loop fuel fmt (S (i + n)) ap with Some l' => Some (l ++ l') | None => None end
          end
  end.

(** Each iteration passes at least one character of the format. *)
Definition printf (fmt : list Z) (ap : list arg) : option (list Z) :=
  printf_loop (S (length fmt)) fmt 0 ap.

(** [panic(s)] prints "panic: ", the message and a newline before it freezes
    the machine. *)
Definition panic_output (s : list Z) : option (list Z) :=
  match printf [112; 97; 110; 105; 99; 58; 32] [], printf [37; 115; 10] [AStr (Some s)] with
  | Some a, Some b => Some (a ++ b)
  | _, _ => None
  end.

(** ** Digits and values *)

(** The value of digits in base [b], first one first. *)
Definition digit_val (c : Z) : Z := if c <? 58 then c - 48 else if c <? 97 then c - 65 + 10 else c - 97 + 10.
Fixpoint number (b : Z) (l : list Z) : Z :=
  match l with
  | [] => 0
  | c :: l => digit_val c * b ^ Z.of_nat (length l) + number b l
  end.
(** The value of a printed integer, with its sign. *)
Definition signed_number (b : Z) (l : list Z) : Z :=
  match l with
  | 45 :: l => - number b l
  | l => number b l
  end.

Lemma digit_val_digit base0 d : base0 = 97 ∨ base0 = 65 → 0 ≤ d < 16 → digit_val (digit base0 d) = d.
Proof.
  intros Hb Hd. unfold digit, digit_val.
  destruct (Z.ltb_spec d 10), Hb as [-> | ->]; repeat case_test; lia.
Qed.

Lemma digit_range base0 d : base0 = 97 ∨ base0 = 65 → 0 ≤ d < 16 → 48 ≤ digit base0 d < 103.
Proof. intros Hb Hd. unfold digit. destruct Hb as [-> | ->]; case_test; lia. Qed.

Lemma number_snoc b l c : 0 < b → number b (l ++ [c]) = b * number b l + digit_val c.
Proof.
  intros Hb. induction l as [|a l IH]; simpl.
  - lia.
  - rewrite IH, length_app. simpl. rewrite Nat2Z.inj_add, Z.pow_add_r by lia. simpl. rewrite Z.pow_1_r. ring.
Qed.

(** [c] is a digit of the base. *)
Definition is_digit (base0 base c : Z) : Prop := ∃ d, 0 ≤ d < base ∧ c = digit base0 d.

(** The loop stores as many digits as [x] has; it fails only for want of room. *)
Lemma digits_loop_spec base0 base n : base0 = 97 ∨ base0 = 65 → 2 ≤ base ≤ 16 → ∀ fuel x buf,
  base ^ Z.of_nat n ≤ x < base ^ Z.of_nat (S n) ∨ (n = 0%nat ∧ 0 ≤ x < base) →
  (16 < length buf + fuel)%nat → (length buf ≤ 16)%nat →
  if (length buf + S n <=? 16)%nat then
    ∃ ds, digits_loop (digit base0) fuel x base buf = Some (buf ++ ds) ∧ length ds = S n ∧
      number base (reverse ds) = x ∧ Forall (is_digit base0 base) ds
  else digits_loop (digit base0) fuel x base buf = None.
Proof.
  intros H0 Hb. induction n as [|n IH]; intros fuel x buf Hx Hf Hl.
  - assert (0 ≤ x < base) as Hx' by (destruct Hx as [Hx|[_ ?]]; [simpl in Hx; lia|done]). clear Hx.
    destruct fuel as [|fuel]; [lia|]. cbn [digits_loop]. unfold buf_push.
    rewrite Z.mod_small, Z.div_small, Z.eqb_refl by lia.
    destruct (Nat.leb_spec (length buf + 1) 16), (Nat.ltb_spec (length buf) 16); try lia; [|done].
    exists [digit base0 x]. split; [done|]. split; [done|]. split.
    + simpl. rewrite digit_val_digit by (auto; lia). lia.
    + constructor; [|constructor]. by exists x.
  - destruct Hx as [Hx|[? _]]; [|done].
    assert (Hp : base ^ Z.of_nat (S n) = base * base ^ Z.of_nat n) by (rewrite Nat2Z.inj_succ, Z.pow_succ_r; lia).
    assert (Hp2 : base ^ Z.of_nat (S (S n)) = base * base ^ Z.of_nat (S n)) by (rewrite Nat2Z.inj_succ, Z.pow_succ_r; lia).
    assert (Hpos : 0 < base ^ Z.of_nat n) by (apply Z.pow_pos_nonneg; lia).
    assert (Hq : base ^ Z.of_nat n ≤ x / base < base ^ Z.of_nat (S n)).
    { split; [apply Z.div_le_lower_bound; lia|apply Z.div_lt_upper_bound; lia]. }
    destruct fuel as [|fuel]; [destruct (Nat.leb_spec (length buf + S (S n)) 16); [lia|done]|].
    cbn [digits_loop]. unfold buf_push.
    destruct (Nat.ltb_spec (length buf) 16) as [Hlt|Hge].
    + destruct (Z.eqb_spec (x / base) 0) as [E|E]; [lia|].
      specialize (IH fuel (x / base) (buf ++ [digit base0 (x mod base)]) (or_introl Hq)).
      rewrite length_app in IH. simpl length in IH. specialize (IH ltac:(lia) ltac:(lia)).
      destruct (Nat.leb_spec (length buf + S (S n)) 16) as [H16|H16],
        (Nat.leb_spec (length buf + 1 + S n) 16); try lia; [|exact IH].
      destruct IH as (ds & He & Hlen & Hv & Hr). exists (digit base0 (x mod base) :: ds). rewrite He, <- app_assoc.
      split; [done|]. split; [simpl; lia|]. split.
      * rewrite reverse_cons, number_snoc, Hv by lia.
        rewrite digit_val_digit by (auto; pose proof (Z.mod_pos_bound x base); lia).
        pose proof (Z.div_mod x base). lia.
      * constructor; [|done]. eexists. split; [|done]. apply Z.mod_pos_bound. lia.
    + destruct (Nat.leb_spec (length buf + S (S n)) 16); [lia|done].
Qed.

Lemma digit_count base x : 2 ≤ base → 0 ≤ x →
  ∃ n, base ^ Z.of_nat n ≤ x < base ^ Z.of_nat (S n) ∨ (n = 0%nat ∧ 0 ≤ x < base).
Proof.
  intros Hb Hx. remember (Z.to_nat x) as k eqn:Hk. revert x Hx Hk.
  induction (lt_wf k) as [k _ IH]. intros x Hx ->.
  destruct (decide (x < base)) as [Hlt|Hge]; [exists 0%nat; right; lia|].
  assert (Hq : 1 ≤ x / base < x) by (split; [apply Z.div_le_lower_bound|apply Z.div_lt]; lia).
  destruct (IH (Z.to_nat (x / base)) ltac:(lia) (x / base) ltac:(lia) eq_refl) as [n Hn].
  exists (S n). left. rewrite !Nat2Z.inj_succ, !Z.pow_succ_r in * by lia.
  pose proof (Z.div_mod x base ltac:(lia)) as Hdm. pose proof (Z.mod_pos_bound x base ltac:(lia)) as Hm.
  destruct Hn as [Hn|[-> Hn]]; [nia|]. simpl. nia.
Qed.

(** A number has at most [n] digits exactly when it is below [base ^ n]. *)
Lemma digit_count_le base x n m : 2 ≤ base →
  base ^ Z.of_nat n ≤ x < base ^ Z.of_nat (S n) ∨ (n = 0%nat ∧ 0 ≤ x < base) →
  (S n ≤ S m)%nat ↔ x < base ^ Z.of_nat (S m).
Proof.
  intros Hb Hn. split.
  - intros Hle. eapply Z.lt_le_trans; [|apply Z.pow_le_mono_r; [lia|]; apply (Nat2Z.inj_le (S n)); exact Hle].
    destruct Hn as [Hn|[-> Hn]]; [lia|]. change (Z.of_nat 1) with 1. rewrite Z.pow_1_r. lia.
  - intros Hlt. destruct Hn as [Hn|[-> _]]; [|lia].
    destruct (decide (S n ≤ S m)%nat); [done|].
    assert (base ^ Z.of_nat (S m) ≤ base ^ Z.of_nat n) by (apply Z.pow_le_mono_r; lia). lia.
Qed.

Lemma signed_number_pos b l : Forall (λ c, 48 ≤ c) l → signed_number b l = number b l.
Proof.
  intros Hl. destruct l as [|c l]; [done|]. apply Forall_cons in Hl as [Hc _].
  destruct c as [|p|p]; [done| |lia]. do 6 (destruct p as [p|p|]; try done); lia.
Qed.

(** Printing [x] and, for [neg], a minus sign. *)
Lemma digits_print base0 base (neg : bool) x : base0 = 97 ∨ base0 = 65 → 2 ≤ base ≤ 16 → 0 ≤ x →
  let r := match digits_loop (digit base0) 17 x base [] with
           | None => None
           | Some buf =>
               match (if neg then buf_push buf 45 else Some buf) with
               | None => None
               | Some buf => Some (reverse buf)
               end
           end in
  if decide (x < base ^ (if neg then 15 else 16)) then
    ∃ l, r = Some l ∧ (length l ≤ 16)%nat ∧ signed_number base l = (if neg then - x else x) ∧
      (neg = false → Forall (is_digit base0 base) l)
  else r = None.
Proof.
  intros H0 Hb Hx r. destruct (digit_count base x ltac:(lia) Hx) as [n Hn].
  pose proof (digits_loop_spec base0 base n H0 Hb 17 x [] Hn ltac:(simpl; lia) ltac:(simpl; lia)) as Hloop.
  simpl plus in Hloop. pose proof (digit_count_le base x n 14 ltac:(lia) Hn) as H15.
  pose proof (digit_count_le base x n 15 ltac:(lia) Hn) as H16. simpl Z.of_nat in H15, H16.
  assert (Hmono : base ^ 15 ≤ base ^ 16) by (apply Z.pow_le_mono_r; lia).
  unfold r. destruct (Nat.leb_spec (S n) 16) as [Hs|Hs].
  - destruct Hloop as (ds & -> & Hlen & Hv & Hr). simpl app.
    assert (Hrev : Forall (λ c, 48 ≤ c) (reverse ds)).
    { apply Forall_forall. intros c Hc. rewrite elem_of_reverse in Hc. rewrite Forall_forall in Hr.
      destruct (Hr c Hc) as (d & Hd & ->). apply digit_range; [done|lia]. }
    destruct neg.
    + unfold buf_push. destruct (Nat.ltb_spec (length ds) 16) as [Hl|Hl].
      * rewrite decide_True by (apply H15; lia). eexists. split; [done|].
        split; [rewrite length_reverse, length_app; simpl; lia|].
        rewrite reverse_app. simpl. by rewrite Hv.
      * rewrite decide_False; [done|]. intros ?%H15. lia.
    + rewrite decide_True by (apply H16; lia). eexists. split; [done|]. split; [rewrite length_reverse; lia|].
      rewrite signed_number_pos by done. split; [done|]. intros _. by apply Forall_reverse.
  - rewrite Hloop. rewrite decide_False; [done|]. destruct neg; [intros ?%H15; lia|intros ?%H16; lia].
Qed.

(** ** Properties *)

(** C38: the kernel prints a decimal integer as its sign and digits, with value
    the integer, exactly when these fit the 16 bytes of [buf]; for every other
    64-bit integer, from 10^16 up and from -10^15 down, [printint] writes
    beyond the end of its buffer. *)
Theorem printint_decimal (xx : Z) (Hxx : - 2 ^ 63 ≤ xx < 2 ^ 63) :
  (- 10 ^ 15 < xx < 10 ^ 16 →
     ∃ l, printint xx 10 true = Some l ∧ (length l ≤ 16)%nat ∧ signed_number 10 l = xx) ∧
  (¬ (- 10 ^ 15 < xx < 10 ^ 16) → printint xx 10 true = None).
Proof.
  unfold printint. simpl andb. set (neg := xx <? 0).
  assert (Hx : (if neg then u64 (- xx) else u64 xx) = Z.abs xx).
  { unfold neg. destruct (Z.ltb_spec xx 0); rewrite u64_id by lia; lia. }
  rewrite Hx. pose proof (digits_print 97 10 neg (Z.abs xx) ltac:(auto) ltac:(lia) ltac:(lia)) as Hp.
  cbv zeta in Hp. fold digits in Hp. unfold neg in *. destruct (Z.ltb_spec xx 0) as [Hn|Hn].
  - case_decide as Hd.
    + split; [intros _|intros Hc; exfalso; lia]. destruct Hp as (l & H1 & H2 & H3 & _). exists l.
      split; [exact H1|]. split; [done|]. lia.
    + split; [intros Hc; exfalso; lia|]. intros _. exact Hp.
  - case_decide as Hd.
    + split; [intros _|intros Hc; exfalso; lia]. destruct Hp as (l & H1 & H2 & H3 & _). exists l.
      split; [exact H1|]. split; [done|]. lia.
    + split; [intros Hc; exfalso; lia|]. intros _. exact Hp.
Qed.

Lemma printint_decimal_witness :
  (∃ l, printint (-42) 10 true = Some l ∧ signed_number 10 l = -42) ∧
  printint (2 ^ 63 - 1) 10 true = None.
Proof.
  split.
  - destruct (printint_decimal (-42)) as [H _]; [lia|]. destruct H as (l & H1 & _ & H2); [lia|].
    exists l. split; [exact H1|exact H2].
  - destruct (printint_decimal (2 ^ 63 - 1)) as [_ H]; [lia|]. apply H. lia.
Defined.

(** A conversion [%u] or [%x] of an [int] sign-extends its argument to 64
    bits: -1 prints as sixteen hexadecimal digits under [%x], and under [%u]
    overflows the buffer. *)
Theorem printf_unsigned_sign_extends :
  printf [37; 120] [AWord (2 ^ 32 - 1)] = Some (replicate 16 102) ∧
  printf [37; 117] [AWord (2 ^ 32 - 1)] = None.
Proof. by vm_compute. Qed.
