(* ===== verification/ULib.v ===== *)
(** * ULib: user/ulib.c and user/printf.c

    The user library: string routines over arrays, [gets] and [stat] over the
    system calls they make (parameters), and the formatted output of user
    programs as the characters written, in order. *)
From S2P Require Import Prelude Riscv CString Printf.

(** ** Strings *)

(** Fuel bounds the distance to the NUL. *)
Fixpoint strcpy_loop (fuel : nat) (i : Z) (s t : arr) : option arr :=
  match fuel with
  | O => None
  | S fuel =>
      let s := upd s i (t i) in
      if t i =? 0 then Some s else strcpy_loop fuel (i + 1) s t
  end.
Definition strcpy (fuel : nat) (s t : arr) : option arr := strcpy_loop fuel 0 s t.

Fixpoint strcmp_loop (fuel : nat) (p q : arr) (i : Z) : option Z :=
  match fuel with
  | O => None
  | S fuel =>
      if negb (p i =? 0) && (p i =? q i) then strcmp_loop fuel p q (i + 1)
      else Some (u8 (p i) - u8 (q i))
  end.
Definition strcmp (fuel : nat) (p q : arr) : option Z := strcmp_loop fuel p q 0.

Fixpoint strlen_loop (fuel : nat) (s : arr) (n : Z) : option Z :=
  match fuel with
  | O => None
  | S fuel => if s n =? 0 then Some n else strlen_loop fuel s (n + 1)
  end.
Definition strlen (fuel : nat) (s : arr) : option Z := strlen_loop fuel s 0.

Fixpoint memset_loop (k : nat) (cdst c i : Z) (m : mem) : mem :=
  match k with O => m | S k => memset_loop k cdst c (i + 1) (upd m (cdst + i) (u8 c)) end.
Definition memset (m : mem) (dst c n : Z) : mem := memset_loop (Z.to_nat n) dst c 0 m.

(** The index of the first [c], [None] inside for the null pointer. *)
Fixpoint strchr_loop (fuel : nat) (s : arr) (c i : Z) : option (option Z) :=
  match fuel with
  | O => None
  | S fuel =>
      if s i =? 0 then Some None
      else if s i =? c then Some (Some i)
      else strchr_loop fuel s c (i + 1)
  end.
Definition strchr (fuel : nat) (s : arr) (c : Z) : option (option Z) := strchr_loop fuel s c 0.

(** [read1] is [read(0, &c, 1)]: a byte, or [None] when it returns less than 1. *)
Section gets.
Context {I : Type} (read1 : I → option Z * I).

Fixpoint gets_loop (k : nat) (i : Z) (buf : arr) (inp : I) : Z * arr * I :=
  match k with
  | O => (i, buf, inp)
  | S k =>
      match read1 inp with
      | (None, inp) => (i, buf, inp)
      | (Some c, inp) =>
          let buf := upd buf i c in
          if (c =? 10) || (c =? 13) then (i + 1, buf, inp) else gets_loop k (i + 1) buf inp
      end
  end.

(** [i+1 < max] holds at most [max - 1] times. *)
Definition gets (buf : arr) (max : Z) (inp : I) : arr * I :=
  let '(i, buf, inp) := gets_loop (Z.to_nat (max - 1)) 0 buf inp in
  (upd buf i 0, inp).
End gets.

(** [stat] over the system calls [open], [fstat] and [close]. *)
Definition stat {S A : Type} (open : M S Z) (fstat : Z → M S (Z * A)) (close : Z → M S unit) :
    M S (Z * option A) :=
  do fd <- open;
  if fd <? 0 then ret (-1, None)
  else
    do r <- fstat fd;
    close fd ;;;
    ret (r.1, Some r.2).

Fixpoint atoi_loop (fuel : nat) (s : arr) (i n : Z) : option Z :=
  match fuel with
  | O => None
  | S fuel =>
      if (48 <=? s i) && (s i <=? 57) then atoi_loop fuel s (i + 1) (i32 (i32 (n * 10) + s i - 48))
      else Some n
  end.
Definition atoi (fuel : nat) (s : arr) : option Z := atoi_loop fuel s 0 0.

Definition memmove (m : mem) (vdst vsrc n : Z) : mem :=
  if vdst <? vsrc then move_fwd (Z.to_nat n) vdst vsrc m
  else move_bwd (Z.to_nat n) (vdst + n) (vsrc + n) m.

Fixpoint memcmp_loop (k : nat) (s1 s2 : arr) (i : Z) : Z :=
  match k with
  | O => 0
  | S k => if negb (s1 i =? s2 i) then s1 i - s2 i else memcmp_loop k s1 s2 (i + 1)
  end.
Definition memcmp (s1 s2 : arr) (n : Z) : Z := memcmp_loop (Z.to_nat n) s1 s2 0.

Definition memcpy (m : mem) (dst src n : Z) : mem := memmove m dst src n.

(** ** Formatted output *)

(** [digits[d]] of "0123456789ABCDEF". *)
Definition udigits (d : Z) : Z := digit 65 d.

(** [printint] takes an [int]. *)
Definition printint (xx base : Z) (sgn : bool) : option (list Z) :=
  let xx := i32 xx in
  let neg := sgn && (xx <? 0) in
  let x := if neg then u32 (- xx) else u32 xx in
  match digits_loop udigits 17 x base [] with
  | None => None
  | Some buf =>
      match (if neg then buf_push buf 45 else Some buf) with
      | None => None
      | Some buf => Some (reverse buf)
      end
  end.

Definition printptr (x : Z) : list Z := 48 :: 120 :: printptr_loop udigits 16 x.

Definition convert (c0 c1 c2 : Z) (ap : list arg) : option (list Z * nat * list arg) :=
  let word n (f : Z → option (list Z)) :=
    match ap with
    | AWord v :: ap => match f v with Some l => Some (l, n, ap) | None => None end
    | _ => None
    end in
  if c0 =? 100 then word 0%nat (λ v, printint (i32 v) 10 true)
  else if (c0 =? 108) && (c1 =? 100) then word 1%nat (λ v, printint (u64 v) 10 true)
  else if (c0 =? 108) && (c1 =? 108) && (c2 =? 100) then word 2%nat (λ v, printint (u64 v) 10 true)
  else if c0 =? 117 then word 0%nat (λ v, printint (i32 v) 10 false)
  else if (c0 =? 108) && (c1 =? 117) then word 1%nat (λ v, printint (u64 v) 10 false)
  else if (c0 =? 108) && (c1 =? 108) && (c2 =? 117) then word 2%nat (λ v, printint (u64 v) 10 false)
  else if c0 =? 120 then word 0%nat (λ v, printint (i32 v) 16 false)
  else if (c0 =? 108) && (c1 =? 120) then word 1%nat (λ v, printint (u64 v) 16 false)
  else if (c0 =? 108) && (c1 =? 108) && (c2 =? 120) then word 2%nat (λ v, printint (u64 v) 16 false)
  else if c0 =? 112 then word 0%nat (λ v, Some (printptr (u64 v)))
  else if c0 =? 115 then
    match ap with
    | AStr s :: ap => Some (default null_str s, 0%nat, ap)
    | _ => None
    end
  else if c0 =? 37 then Some ([37], 0%nat, ap)
  else Some ([37; c0], 0%nat, ap).

(** [state] tells whether a percent sign was the last character. *)
Fixpoint vprintf_loop (fuel : nat) (fmt : list Z) (i : nat) (state : bool) (ap : list arg) :
    option (list Z) :=
  match fuel with
  | O => None
  | S fuel =>
      let c0 := fchar fmt i in
      if c0 =? 0 then Some []
      else if negb state then
        if c0 =? 37 then vprintf_loop fuel fmt (S i) true ap
        else match vprintf_loop fuel fmt (S i) false ap with Some l => Some (c0 :: l) | None => None end
      else
        let c1 := fchar fmt (i + 1) in
        let c2 := if c1 =? 0 then 0 else fchar fmt (i + 2) in
        match convert c0 c1 c2 ap with
        | None => None
        | Some (l, n, ap) =>
            match vprintf_loop fuel fmt (S (i + n)) false ap with Some l' => Some (l ++ l') | None => None end
        end
  end.

Definition vprintf (fmt : list Z) (ap : list arg) : option (list Z) :=
  vprintf_loop (S (length fmt)) fmt 0 false ap.
Definition fprintf (fmt : list Z) (ap : list arg) : option (list Z) := vprintf fmt ap.
Definition printf (fmt : list Z) (ap : list arg) : option (list Z) := vprintf fmt ap.

(** ** Properties *)

(** The library's [memmove] and the kernel's compute the same memory,
    although they choose the direction of the copy by different tests. *)
Theorem memmove_user_kernel (m : mem) (dst src n : Z) (Hn : 0 ≤ n) :
  ∀ x, memmove m dst src n x = CString.memmove m dst src n x.
Proof.
  intros x. rewrite memmove_eq by done. unfold memmove. case_test.
  - rewrite move_fwd_spec by lia. by rewrite Z2Nat.id.
  - rewrite move_bwd_spec by lia. repeat case_decide; try done; try lia; f_equal; lia.
Qed.

Lemma memmove_user_kernel_witness : memmove (λ a, a) 3 1 4 6 = CString.memmove (λ a, a) 3 1 4 6.
Proof. apply (memmove_user_kernel (λ a, a) 3 1 4). lia. Defined.

Lemma number_nonneg l : Forall (is_digit 65 10) l → 0 ≤ number 10 l.
Proof.
  induction 1 as [|c l (d & Hd & ->) _ IH]; simpl; [lia|]. rewrite digit_val_digit by (auto; lia).
  pose proof (Z.pow_nonneg 10 (Z.of_nat (length l))). nia.
Qed.

Lemma atoi_loop_spec fuel l pre n :
  Forall (is_digit 65 10) l → (length l < fuel)%nat → 0 ≤ n →
  n * 10 ^ Z.of_nat (length l) + number 10 l < 2 ^ 31 →
  atoi_loop fuel (arr_of (pre ++ l)) (Z.of_nat (length pre)) n =
    Some (n * 10 ^ Z.of_nat (length l) + number 10 l).
Proof.
  revert fuel pre n. induction l as [|c l IH]; intros fuel pre n Hl Hf Hn Hb;
    (destruct fuel as [|fuel]; [simpl in *; lia|]); cbn [atoi_loop].
  - unfold arr_of at 1. rewrite Nat2Z.id, app_nil_r, nth_overflow by lia. simpl. do 2 f_equal. lia.
  - apply Forall_cons in Hl as [(d & Hd & ->) Hl]. pose proof (number_nonneg l Hl) as Hnn.
    assert (Hc : arr_of (pre ++ digit 65 d :: l) (Z.of_nat (length pre)) = 48 + d).
    { unfold arr_of. rewrite Nat2Z.id, app_nth2, Nat.sub_diag by lia. simpl. unfold digit. case_test; lia. }
    assert (Hdv : digit_val (digit 65 d) = d) by (apply digit_val_digit; [by right|lia]).
    rewrite Hc. simpl number in *. rewrite Hdv in *. simpl length in *.
    rewrite Nat2Z.inj_succ, Z.pow_succ_r in * by lia.
    assert (0 < 10 ^ Z.of_nat (length l)) by (apply Z.pow_pos_nonneg; lia).
    assert (n * 10 + d < 2 ^ 31) by nia.
    destruct (Z.leb_spec 48 (48 + d)), (Z.leb_spec (48 + d) 57); try lia. cbn [andb].
    rewrite (i32_id (n * 10)) by lia. rewrite i32_id by lia.
    replace (n * 10 + (48 + d) - 48) with (n * 10 + d) by lia.
    replace (pre ++ digit 65 d :: l) with ((pre ++ [digit 65 d]) ++ l) by (by rewrite <- app_assoc).
    replace (Z.of_nat (length pre) + 1) with (Z.of_nat (length (pre ++ [digit 65 d]))) by (rewrite length_app; simpl; lia).
    rewrite IH; [|done|lia|lia|nia]. f_equal. ring.
Qed.

(** A non-negative [int] survives printing and [atoi]: [printint] stays
    inside its buffer and [atoi] of what it prints is the integer. *)
Theorem atoi_printint (n : Z) (Hn : 0 ≤ n < 2 ^ 31) :
  ∃ l, printint n 10 true = Some l ∧ (length l ≤ 16)%nat ∧
    ∀ fuel, (length l < fuel)%nat → atoi fuel (arr_of l) = Some n.
Proof.
  unfold printint. rewrite i32_id by lia. destruct (Z.ltb_spec n 0); [lia|]. simpl andb. cbv iota.
  rewrite u32_id by lia.
  pose proof (digits_print 65 10 false n ltac:(auto) ltac:(lia) ltac:(lia)) as Hp. cbv zeta in Hp.
  fold udigits in Hp. rewrite decide_True in Hp by lia. destruct Hp as (l & H1 & H2 & H3 & H4).
  specialize (H4 eq_refl). exists l. split; [exact H1|]. split; [done|]. intros fuel Hf.
  assert (Hv : number 10 l = n).
  { rewrite <- (signed_number_pos 10 l); [exact H3|]. apply Forall_forall. intros c Hc.
    rewrite Forall_forall in H4. destruct (H4 c Hc) as (d & Hd & ->). apply digit_range; [by right|lia]. }
  unfold atoi. pose proof (atoi_loop_spec fuel l [] 0 H4 Hf) as Ha. simpl in Ha.
  change (Z.of_nat 0) with 0 in Ha. rewrite Ha by lia. by rewrite Hv.
Qed.

Lemma atoi_printint_witness :
  ∃ l, printint 2147483647 10 true = Some l ∧ atoi 20 (arr_of l) = Some 2147483647.
Proof.
  destruct (atoi_printint 2147483647) as (l & H1 & H2 & H3); [lia|].
  exists l. split; [exact H1|]. apply H3. lia.
Defined.

(** The conversions for 64-bit integers print 32 bits: [%lx] of 2^32 is 0. *)
Theorem printf_long_truncates (v : Z) :
  printf [37; 108; 120] [AWord v] = printf [37; 120] [AWord v].
Proof.
  assert (Hv : i32 (u64 v) = i32 (i32 v)).
  { unfold i32, signed, u64.
    assert (v mod 2 ^ 64 mod 2 ^ 32 = v mod 2 ^ 32) as -> by zdm.
    destruct (Z.ltb_spec (v mod 2 ^ 32) (2 ^ (32 - 1))).
    - rewrite Z.mod_mod by lia. destruct (Z.ltb_spec (v mod 2 ^ 32) (2 ^ (32 - 1))); lia.
    - assert ((v mod 2 ^ 32 - 2 ^ 32) mod 2 ^ 32 = v mod 2 ^ 32) as ->.
      { rewrite <- (Z_mod_plus_full _ 1). rewrite Z.mul_1_l, Z.sub_add, Z.mod_mod by lia. done. }
      destruct (Z.ltb_spec (v mod 2 ^ 32) (2 ^ (32 - 1))); lia. }
  assert (Hp : printint (u64 v) 16 false = printint (i32 v) 16 false) by (unfold printint; by rewrite Hv).
  unfold printf, vprintf. cbn -[printint i32 u64]. rewrite Hp. by destruct (printint (i32 v) 16 false).
Qed.
