(* ===== verification/Grep.v ===== *)
(** * Grep: user/grep.c

    The pattern matcher, with what its operators mean, and the loop that reads
    a file and writes its matching lines.  Strings are lists of characters
    without their NUL. *)
From S2P Require Import Prelude.

(** The characters of the operators, and newline. *)
Definition CARET : Z := 94.
Definition DOLLAR : Z := 36.
Definition STAR : Z := 42.
Definition DOT : Z := 46.
Definition NL : Z := 10.

(** [matchstar(c, re, text)]; [mh] is [matchhere] of [re]. *)
Fixpoint matchstar (mh : list Z → bool) (c : Z) (text : list Z) : bool :=
  mh text ||
  match text with
  | [] => false
  | t :: text' => ((t =? c) || (c =? DOT)) && matchstar mh c text'
  end.

Fixpoint matchhere (re text : list Z) : bool :=
  match re with
  | [] => true
  | c :: re1 =>
      let next :=
        if (c =? DOLLAR) && (match re1 with [] => true | _ => false end) then
          match text with [] => true | _ => false end
        else
          match text with
          | t :: text' => ((c =? DOT) || (c =? t)) && matchhere re1 text'
          | [] => false
          end in
      match re1 with
      | c1 :: re2 => if c1 =? STAR then matchstar (matchhere re2) c text else next
      | [] => next
      end
  end.

(** The loop of [match] over the positions of the text. *)
Fixpoint match_at (re text : list Z) : bool :=
  matchhere re text || match text with [] => false | _ :: text' => match_at re text' end.

Definition match_ (re text : list Z) : bool :=
  match re with
  | c :: re1 => if c =? CARET then matchhere re1 text else match_at re text
  | [] => match_at re text
  end.

(** [strchr(p, '\n')]: what is before the newline and what is after it. *)
Fixpoint cut_line (p : list Z) : option (list Z * list Z) :=
  match p with
  | [] => None
  | c :: p' =>
      if c =? 0 then None
      else if c =? NL then Some ([], p')
      else match cut_line p' with Some (l, r) => Some (c :: l, r) | None => None end
  end.

(** The inner loop on the bytes [p] of the buffer: the bytes written and those
    that are left.  Every round drops a newline. *)
Fixpoint grep_lines (fuel : nat) (pattern p : list Z) : list Z * list Z :=
  match cut_line p with
  | None => ([], p)
  | Some (l, rest) =>
      match fuel with
      | O => ([], p)
      | S fuel =>
          let '(out, p) := grep_lines fuel pattern rest in
          ((if match_ pattern l then l ++ [NL] else []) ++ out, p)
      end
  end.

(** [read(fd, buf, k)] on a file with [inp] left: at most [k] bytes, at least one
    if there is one; [want] is how many the file gives. *)
Definition read_some (k want : nat) (inp : list Z) : list Z * list Z :=
  let n := (k `min` S want)%nat in (take n inp, drop n inp).

Definition bufsize : nat := 1024.

(** [grep] with the bytes [p] in the buffer; [want] gives the sizes of the reads
    to come.  Every round reads a byte. *)
Fixpoint grep_loop (fuel : nat) (pattern : list Z) (want : nat → nat) (p inp : list Z) : list Z :=
  let '(chunk, inp) := read_some (bufsize - length p - 1) (want (length inp)) inp in
  match chunk with
  | [] => []
  | _ =>
      match fuel with
      | O => []
      | S fuel =>
          let '(out, p) := grep_lines (length (p ++ chunk)) pattern (p ++ chunk) in
          out ++ grep_loop fuel pattern want p inp
      end
  end.

Definition grep (pattern : list Z) (want : nat → nat) (inp : list Z) : list Z :=
  grep_loop (length inp) pattern want [] inp.

(** ** What a pattern means *)

(** [c] stands for the character [t]. *)
Definition stands (c t : Z) : Prop := c = DOT ∨ c = t.

(** The pattern matches a prefix of the text. *)
Inductive matches : list Z → list Z → Prop :=
| m_empty text : matches [] text
| m_star c re s text : Forall (stands c) s → matches re text → matches (c :: STAR :: re) (s ++ text)
| m_end : matches [DOLLAR] []
| m_char c t re text :
    head re ≠ Some STAR → (c = DOLLAR → re ≠ []) → stands c t → matches re text → matches (c :: re) (t :: text).

Lemma matchstar_spec (mh : list Z → bool) c text :
  matchstar mh c text = true ↔ ∃ s text', text = s ++ text' ∧ Forall (stands c) s ∧ mh text' = true.
Proof.
  induction text as [|t text IH]; simpl; rewrite orb_true_iff.
  - split; [intros [H|[=]]; by exists [], []|]. intros (s & text' & He & _ & Hm). left.
    symmetry in He. apply app_eq_nil in He as [-> ->]. done.
  - rewrite andb_true_iff, IH, orb_true_iff, !Z.eqb_eq. split.
    + intros [Hm|[Hc (s & text' & -> & Hs & Hm)]]; [by exists [], (t :: text)|].
      exists (t :: s), text'. split; [done|]. split; [|done]. constructor; [|done]. unfold stands. destruct Hc; auto.
    + intros ([|x s] & text' & He & Hs & Hm); simpl in He; [left; by subst|]. injection He as -> ->.
      apply Forall_cons in Hs as [Hx Hs]. right. split; [destruct Hx; auto|]. by exists s, text'.
Qed.

Lemma matchhere_spec n re text : (length re ≤ n)%nat → matchhere re text = true ↔ matches re text.
Proof.
  revert re text. induction n as [|n IH]; intros re text Hl.
  { destruct re; [|simpl in Hl; lia]. split; [intros _; constructor|done]. }
  destruct re as [|c re1]; [split; [intros _; constructor|done]|]. simpl in Hl.
  assert (Hnext : head re1 ≠ Some STAR →
    (if (c =? DOLLAR) && (match re1 with [] => true | _ => false end) then match text with [] => true | _ => false end
     else match text with t :: text' => ((c =? DOT) || (c =? t)) && matchhere re1 text' | [] => false end) = true ↔
    matches (c :: re1) text).
  { intros Hh. destruct ((c =? DOLLAR) && match re1 with [] => true | _ => false end) eqn:Ed.
    - apply andb_true_iff in Ed as [->%Z.eqb_eq Hr]. destruct re1; [|done]. destruct text as [|t text].
      + split; [intros _; constructor|done].
      + split; [done|]. intros Hm. inversion Hm as [| | |c' t' re' x Hh' Hd]; subst. by destruct Hd.
    - assert (Hd : c = DOLLAR → re1 ≠ []) by (intros -> ->; done).
      destruct text as [|t text].
      + split; [done|]. intros Hm. inversion Hm as [|c' re' s x| |]; subst; [done|by destruct Hd].
      + rewrite andb_true_iff, orb_true_iff, !Z.eqb_eq, IH by lia. split.
        * intros [Hc Hm]. by constructor.
        * intros Hm. inversion Hm as [|c' re' s x| |]; subst; [done|]. done. }
  simpl. destruct re1 as [|c1 re2]; [by apply Hnext|].
  destruct (Z.eqb_spec c1 STAR) as [->|Hne]; [|apply Hnext; simpl; congruence].
  rewrite matchstar_spec. split.
  - intros (s & text' & -> & Hs & Hm). constructor; [done|]. apply IH; [simpl in Hl; lia|done].
  - intros Hm. inversion Hm as [|c' re' s x Hs Hm'| |c' t re' x Hh]; subst; [|done].
    exists s, x. split; [done|]. split; [done|]. apply IH; [simpl in Hl; lia|done].
Qed.

Lemma match_at_spec re text :
  match_at re text = true ↔ ∃ s text', text = s ++ text' ∧ matches re text'.
Proof.
  induction text as [|t text IH]; simpl; rewrite orb_true_iff, (matchhere_spec (length re)) by done.
  - split; [intros [H|[=]]; by exists [], []|]. intros (s & text' & He & Hm). left.
    symmetry in He. apply app_eq_nil in He as [-> ->]. done.
  - rewrite IH. split.
    + intros [Hm|(s & text' & -> & Hm)]; [by exists [], (t :: text)|by exists (t :: s), text'].
    + intros ([|x s] & text' & He & Hm); simpl in He; [left; by subst|]. injection He as -> ->. right. by exists s, text'.
Qed.

(** The matcher decides what the pattern language means: the pattern matches
    somewhere in the text, or at its beginning when it starts with a caret; a dot
    stands for any character, a starred character for any number of those it
    stands for, and a final dollar sign for the end of the text. *)
Theorem match_correct (re text : list Z) :
  match_ re text = true ↔
  if decide (head re = Some CARET) then matches (tail re) text
  else ∃ s text', text = s ++ text' ∧ matches re text'.
Proof.
  unfold match_. destruct re as [|c re1]; [apply match_at_spec|]. simpl.
  destruct (Z.eqb_spec c CARET) as [->|Hne]; [by apply (matchhere_spec (length re1))|].
  rewrite match_at_spec. rewrite decide_False by congruence. done.
Qed.

Lemma match_correct_example :
  match_ [94; 97; 46; 42; 36] [97; 98; 99] = true ∧ match_ [98; 36] [97; 98; 99] = false.
Proof. split; reflexivity. Qed.

(** ** What [grep] writes *)

(** The lines of a text, and what follows its last newline. *)
Fixpoint lines (l : list Z) : list (list Z) * list Z :=
  match l with
  | [] => ([], [])
  | c :: l =>
      let '(ls, r) := lines l in
      if c =? NL then ([] :: ls, r)
      else match ls with [] => ([], c :: r) | l1 :: ls => ((c :: l1) :: ls, r) end
  end.

Definition selected (pattern : list Z) (ls : list (list Z)) : list Z :=
  mjoin ((λ l, if match_ pattern l then l ++ [NL] else []) <$> ls).

Lemma lines_app a b : lines (a ++ b) = ((lines a).1 ++ (lines ((lines a).2 ++ b)).1, (lines ((lines a).2 ++ b)).2).
Proof.
  induction a as [|c a IH]; simpl; [by destruct (lines b)|]. rewrite IH. destruct (lines a) as [ls r]. simpl.
  destruct (c =? NL) eqn:E; [done|]. destruct ls as [|l1 ls]; simpl.
  - rewrite E. by destruct (lines (r ++ b)) as [[|? ?] ?].
  - by destruct (lines (r ++ b)).
Qed.

Lemma lines_rest l : NL ∉ (lines l).2.
Proof.
  induction l as [|c l IH]; simpl; [apply not_elem_of_nil|]. destruct (lines l) as [ls r]. simpl in IH.
  destruct (Z.eqb_spec c NL); simpl; [done|]. destruct ls; simpl; [|done]. rewrite not_elem_of_cons. split; [congruence|done].
Qed.

Lemma lines_no_nl l : NL ∉ l → lines l = ([], l).
Proof.
  induction l as [|c l IH]; simpl; [done|]. rewrite not_elem_of_cons. intros [Hc Hl]. rewrite IH by done.
  destruct (Z.eqb_spec c NL); [congruence|done].
Qed.

Lemma lines_in l : ∀ x, x ∈ (lines l).2 → x ∈ l.
Proof.
  induction l as [|c l IH]; simpl; [done|]. destruct (lines l) as [ls r]. simpl in IH. intros x.
  destruct (c =? NL); simpl; [right; by apply IH|]. destruct ls; simpl; [|right; by apply IH].
  rewrite !elem_of_cons. intros [->|Hx]; [by left|right; by apply IH].
Qed.

Lemma cut_line_spec p :
  0 ∉ p →
  match cut_line p with
  | None => lines p = ([], p)
  | Some (l, r) => lines p = (l :: (lines r).1, (lines r).2) ∧ (length r < length p)%nat ∧ 0 ∉ r
  end.
Proof.
  induction p as [|c p IH]; simpl; [done|]. rewrite not_elem_of_cons. intros [Hc Hp]. specialize (IH Hp).
  destruct (Z.eqb_spec c 0); [congruence|]. destruct (Z.eqb_spec c NL) as [->|Hn].
  - split; [by destruct (lines p)|]. split; [lia|done].
  - destruct (cut_line p) as [[l r]|].
    + destruct IH as (-> & Hl & Hr). split; [done|]. split; [lia|done].
    + by rewrite IH.
Qed.

Lemma grep_lines_spec fuel pattern p :
  0 ∉ p → (length p ≤ fuel)%nat → grep_lines fuel pattern p = (selected pattern (lines p).1, (lines p).2).
Proof.
  revert p. induction fuel as [|fuel IH]; intros p Hz Hl; pose proof (cut_line_spec p Hz) as Hc; simpl;
    destruct (cut_line p) as [[l r]|].
  - destruct Hc as (_ & ? & _). lia.
  - by rewrite Hc.
  - destruct Hc as (Hc & Hlt & Hr). rewrite IH by (done || lia). by rewrite Hc.
  - by rewrite Hc.
Qed.

(** Every line fits the buffer. *)
Definition fits (l : list Z) : Prop :=
  Forall (λ x : list Z, (length x ≤ 1022)%nat) (lines l).1 ∧ (length (lines l).2 ≤ 1022)%nat.

Lemma lines_prefix p l :
  NL ∉ p →
  lines (p ++ l) = match (lines l).1 with [] => ([], p ++ (lines l).2) | l1 :: ls => ((p ++ l1) :: ls, (lines l).2) end.
Proof.
  induction p as [|c p IH]; simpl; [by destruct (lines l) as [[|? ?] ?]|]. rewrite not_elem_of_cons. intros [Hc Hp].
  rewrite IH by done. destruct (Z.eqb_spec c NL); [congruence|]. by destruct (lines l) as [[|? ?] ?].
Qed.

Lemma fits_prefix p l : NL ∉ p → fits (p ++ l) → (length p ≤ 1022)%nat.
Proof.
  intros Hp. unfold fits. rewrite lines_prefix by done. destruct (lines l) as [[|l1 ls] r]; simpl.
  - rewrite length_app. lia.
  - intros [[Hl _]%Forall_cons _]. rewrite length_app in Hl. lia.
Qed.

Lemma grep_loop_spec fuel pattern want p inp :
  0 ∉ p ++ inp → NL ∉ p → fits (p ++ inp) → (length inp ≤ fuel)%nat →
  grep_loop fuel pattern want p inp = selected pattern (lines (p ++ inp)).1.
Proof.
  revert p inp. induction fuel as [|fuel IH]; intros p inp Hz Hp Hf Hl; pose proof (fits_prefix p inp Hp Hf) as Hk;
    cbn [grep_loop read_some]; set (n := (_ `min` _)%nat); destruct inp as [|c inp]; try (simpl in Hl; lia).
  1,2: rewrite take_nil; rewrite app_nil_r, lines_no_nl by done; done.
  destruct n as [|n'] eqn:En; [unfold n, bufsize in En; lia|]. simpl take. cbn [drop].
  set (chunk := c :: take n' inp). set (inp' := drop n' inp).
  assert (Hsplit : p ++ c :: inp = (p ++ chunk) ++ inp').
  { rewrite <- app_assoc. unfold chunk, inp'. simpl. by rewrite take_drop. }
  rewrite Hsplit in *. rewrite elem_of_app in Hz.
  rewrite grep_lines_spec by (done || tauto). rewrite (lines_app (p ++ chunk) inp').
  assert (Hf' : fits ((lines (p ++ chunk)).2 ++ inp')).
  { unfold fits in *. rewrite (lines_app (p ++ chunk) inp') in Hf. simpl in Hf. rewrite Forall_app in Hf. tauto. }
  rewrite IH; [| |apply lines_rest|exact Hf'|unfold inp'; rewrite length_drop; simpl in Hl; lia].
  - simpl. unfold selected. rewrite fmap_app. by rewrite join_app.
  - rewrite elem_of_app. intros [Hx%lines_in|Hx]; tauto.
Qed.

(** C35: [grep] writes the matching lines of its input, whatever the sizes of the
    reads: for an input without NULs whose lines fit the buffer, exactly the
    complete lines that match, each with its newline, in order.  What follows
    the last newline is not written. *)
Theorem grep_correct (pattern : list Z) (want : nat → nat) (inp : list Z) (Hz : 0 ∉ inp) (Hf : fits inp) :
  grep pattern want inp = selected pattern (lines inp).1.
Proof. apply (grep_loop_spec (length inp) pattern want [] inp); [done|apply not_elem_of_nil|done|done]. Qed.

Lemma grep_correct_witness :
  grep [98] (λ n, n mod 2)%nat [97; 98; 10; 99; 10; 98; 10; 98] = [97; 98; 10; 98; 10].
Proof.
  rewrite (grep_correct [98] (λ n, n mod 2)%nat [97; 98; 10; 99; 10; 98; 10; 98]); [reflexivity| |].
  - apply (bool_decide_eq_true_1 _). vm_compute. reflexivity.
  - split; [repeat constructor; simpl; lia|simpl; lia].
Defined.
