(* ===== verification/Primes.v ===== *)
(** * Primes: user/primes.c

    The sieve as a chain of processes connected by pipes.  The configuration is
    the chain; a step is one system call of one process, in any order.  The
    calls of [pipe] and [fork], whose results the code does not look at, are
    taken to succeed.  A number moves through a pipe as a whole: 4 divides
    PIPESIZE, so that a writer only sleeps between two numbers. *)
From Stdlib Require Import Znumtheory Sorting.Sorted.
From S2P Require Import Prelude.

(** The numbers the first process writes are those up to [limit]. *)
Definition limit : Z := 280.

(** A pipe of PIPESIZE = 512 bytes holds 128 numbers of 4 bytes. *)
Definition pipe_room : nat := 128.

(** What the process of one call of [primes] does: it waits for its first
    number, filters with that number, waits for its child, or has exited. *)
Inductive phase : Type := First | Filter (num : Z) | Wait | Exited.

(** A process of the chain with the pipe it reads: what the pipe holds and
    whether its write end is closed. *)
Record stage : Type := mkStage { inpipe : list Z; closed : bool; ph : phase }.

(** The system calls of the processes of the chain, from a process on; the list
    is what the step prints. *)
Inductive chain_step : list stage → list Z → list stage → Prop :=
| S_first n q b :
    chain_step [mkStage (n :: q) b First] [n] [mkStage q b (Filter n); mkStage [] false First]
| S_eof :
    chain_step [mkStage [] true First] [] [mkStage [] true Exited]
| S_drop n t q b cs :
    Z.rem t n = 0 → chain_step (mkStage (t :: q) b (Filter n) :: cs) [] (mkStage q b (Filter n) :: cs)
| S_pass n t q b q' b' p' cs :
    Z.rem t n ≠ 0 → (length q' < pipe_room)%nat →
    chain_step (mkStage (t :: q) b (Filter n) :: mkStage q' b' p' :: cs) [] (mkStage q b (Filter n) :: mkStage (q' ++ [t]) b' p' :: cs)
| S_close n q' p' cs :
    chain_step (mkStage [] true (Filter n) :: mkStage q' false p' :: cs) [] (mkStage [] true Wait :: mkStage q' true p' :: cs)
| S_exit q' b' cs :
    chain_step (mkStage [] true Wait :: mkStage q' b' Exited :: cs) [] (mkStage [] true Exited :: mkStage q' b' Exited :: cs)
| S_later c cs out cs' :
    chain_step cs out cs' → chain_step (c :: cs) out (c :: cs').

(** The whole program: the next number of the first process ([None] once it has
    closed its pipe), the chain, and what has been printed. *)
Record prog : Type := mkProg { next : option Z; chain : list stage; printed : list Z }.

Inductive prog_step : prog → prog → Prop :=
| P_write i q b p cs out :
    i ≤ limit → (length q < pipe_room)%nat →
    prog_step (mkProg (Some i) (mkStage q b p :: cs) out) (mkProg (Some (i + 1)) (mkStage (q ++ [i]) b p :: cs) out)
| P_close i q b p cs out :
    limit < i → prog_step (mkProg (Some i) (mkStage q b p :: cs) out) (mkProg None (mkStage q true p :: cs) out)
| P_chain n cs out cs' out' :
    chain_step cs out' cs' → prog_step (mkProg n cs out) (mkProg n cs' (out ++ out')).

Definition start : prog := mkProg (Some 2) [mkStage [] false First] [].
(** The first process can return from [wait] and exit. *)
Definition finished (s : prog) : Prop :=
  next s = None ∧ match chain s with c :: _ => ph c = Exited | [] => False end.

(** ** The sieve on a list *)

Definition keep (n : Z) (l : list Z) : list Z := List.filter (λ t, negb (Z.rem t n =? 0)) l.

Fixpoint sieve_fuel (fuel : nat) (l : list Z) : list Z :=
  match fuel, l with
  | S fuel, n :: l => n :: sieve_fuel fuel (keep n l)
  | _, _ => []
  end.
Definition sieve (l : list Z) : list Z := sieve_fuel (length l) l.

Lemma length_keep n l : (length (keep n l) ≤ length l)%nat.
Proof. induction l as [|t l IH]; simpl; [lia|]. destruct (negb _); simpl; lia. Qed.

Lemma sieve_fuel_enough f1 f2 l : (length l ≤ f1)%nat → (length l ≤ f2)%nat → sieve_fuel f1 l = sieve_fuel f2 l.
Proof.
  revert f2 l. induction f1 as [|f1 IH]; intros [|f2] [|n l] H1 H2; simpl in *; try lia; try done.
  f_equal. pose proof (length_keep n l). apply IH; lia.
Qed.

Lemma sieve_cons n l : sieve (n :: l) = n :: sieve (keep n l).
Proof. unfold sieve. simpl. f_equal. pose proof (length_keep n l). apply sieve_fuel_enough; lia. Qed.

(** What is still to be printed by a chain into which [s] is still to come. *)
Fixpoint to_come (cs : list stage) (s : list Z) : list Z :=
  match cs with
  | [] => []
  | c :: cs =>
      match ph c with
      | First => sieve (inpipe c ++ s)
      | Filter n => to_come cs (keep n (inpipe c ++ s))
      | Wait => to_come cs []
      | Exited => []
      end
  end.

(** The chain is well formed: [eof] says that nothing more comes in. *)
Fixpoint chain_ok (eof : bool) (cs : list stage) : Prop :=
  match cs with
  | [] => False
  | c :: cs =>
      closed c = eof ∧ (length (inpipe c) ≤ pipe_room)%nat ∧
      match ph c with
      | First => cs = []
      | Filter n => chain_ok false cs
      | Wait => inpipe c = [] ∧ eof = true ∧ chain_ok true cs
      | Exited => inpipe c = [] ∧ eof = true ∧ Forall (λ c, ph c = Exited) cs
      end
  end.

Lemma gone_stuck cs out cs' : Forall (λ c, ph c = Exited) cs → ¬ chain_step cs out cs'.
Proof.
  intros Hf. revert out cs'. induction Hf as [|c cs Hc _ IH]; intros out cs' Hs; [inversion Hs|].
  destruct c as [q b p]. simpl in Hc. subst p.
  inversion Hs; subst; by eapply IH.
Qed.

Ltac parts := repeat match goal with H : _ ∧ _ |- _ => destruct H end; simpl in *; split_and!; simpl; try done; try (unfold pipe_room in *; lia).

Lemma chain_step_ok cs out cs' :
  chain_step cs out cs' → ∀ eof s, chain_ok eof cs → (eof = true → s = []) →
  chain_ok eof cs' ∧ to_come cs s = out ++ to_come cs' s.
Proof.
  induction 1 as [n q b| |n t q b cs Hr|n t q b q' b' p' cs Hr Hroom|n q' p' cs|q' b' cs|c cs out cs' Hs IH];
    intros eof s Hok He; simpl in Hok.
  - split; [parts|]. simpl. by rewrite sieve_cons.
  - split; [parts; by constructor|]. simpl. destruct Hok as (<- & _). by rewrite He.
  - split; [parts|]. simpl. unfold keep at 1. simpl. apply Z.eqb_eq in Hr as ->. done.
  - split.
    + destruct Hok as (-> & Hl & Hb & Hl' & Hp). simpl. split_and!; try done; try (rewrite length_app; simpl); try (simpl in *; unfold pipe_room in *; lia).
      destruct p'; try done; destruct Hp as (_ & [=] & _).
    + simpl. unfold keep at 1. simpl. apply Z.eqb_neq in Hr as ->. simpl. fold (keep n (q ++ s)).
      destruct Hok as (_ & _ & _ & _ & Hp). destruct p'; try (by rewrite <- app_assoc); try done.
  - split; [|simpl; destruct Hok as (<- & _); by rewrite He].
    destruct Hok as (<- & Hl & _ & Hl' & Hp). simpl. split_and!; try done; try (unfold pipe_room; lia).
    destruct p'; try done; destruct Hp as (_ & [=] & _).
  - split; [|done]. destruct Hok as (<- & Hl & _ & _ & Hb & Hl' & Hq & _ & Hf). simpl. split_and!; try done. by constructor.
  - destruct Hok as (Hc & Hl & Hp). simpl. destruct (ph c) as [|n| |] eqn:Ep.
    + subst cs. inversion Hs.
    + destruct (IH false (keep n (inpipe c ++ s)) Hp ltac:(done)) as [H1 H2]. done.
    + destruct Hp as (Hq & -> & Hp). destruct (IH true [] Hp ltac:(done)) as [H1 H2]. done.
    + destruct Hp as (Hq & -> & Hp). by apply gone_stuck in Hs.
Qed.

(** ** No schedule gets stuck *)

Lemma chain_live cs : ∀ eof, chain_ok eof cs → (eof = true ∨ ∃ c cs', cs = c :: cs' ∧ inpipe c ≠ []) →
  (∃ c cs', cs = c :: cs' ∧ ph c = Exited) ∨ ∃ out cs', chain_step cs out cs'.
Proof.
  induction cs as [|[q b p] cs IH]; intros eof Hok Hin; [done|]. destruct Hok as (Hb & Hl & Hp). simpl in Hb, Hl, Hp.
  assert (Hq : q = [] → eof = true).
  { intros ->. destruct Hin as [?|(c & cs' & [= <- <-] & Hne)]; [done|]. by simpl in Hne. }
  destruct p as [|n| |].
  - right. subst cs b. destruct q as [|n q]; [rewrite (Hq eq_refl)|]; eexists _, _; constructor.
  - right. destruct cs as [|[q' b' p'] cs]; [done|]. pose proof Hp as (Hb' & Hl' & Hp'). simpl in Hb', Hl', Hp'. subst b'.
    destruct q as [|t q]; [subst b; rewrite (Hq eq_refl); eexists _, _; constructor|].
    destruct (decide (Z.rem t n = 0)) as [Hr|Hr]; [eexists _, _; by constructor|].
    destruct (decide (length q' < pipe_room)%nat) as [Hroom|Hfull]; [eexists _, _; by constructor|].
    assert (Hne : q' ≠ []) by (intros ->; unfold pipe_room in Hfull; simpl in Hfull; lia).
    destruct (IH false Hp) as [(c & cs' & [= <- <-] & He)|(out & cs' & Hs)].
    + right. by exists (mkStage q' false p'), cs.
    + simpl in He. subst p'. destruct Hp' as (-> & _). done.
    + eexists _, _. by apply S_later.
  - right. destruct Hp as (-> & -> & Hp). destruct (IH true Hp ltac:(by left)) as [(c & cs' & -> & He)|(out & cs' & Hs)].
    + destruct c as [q' b' p']. simpl in He. subst p' b. eexists _, _. constructor.
    + eexists _, _. by apply S_later.
  - left. eexists _, _. done.
Qed.

(** ** Every schedule ends *)

Definition rank (p : phase) : nat := match p with First => 3 | Filter _ => 2 | Wait => 1 | Exited => 0 end.

(** A number weighs more the earlier in the chain it is. *)
Fixpoint weight (w : nat) (cs : list stage) : nat :=
  match cs with
  | [] => 0
  | c :: cs => (3 * w * length (inpipe c) + rank (ph c) + weight (w - 1) cs)%nat
  end.

Lemma chain_step_weight cs out cs' : chain_step cs out cs' → ∀ w, (length cs ≤ w)%nat → (weight w cs' < weight w cs)%nat.
Proof.
  induction 1 as [n q b| |n t q b cs Hr|n t q b q' b' p' cs Hr Hroom|n q' p' cs|q' b' cs|c cs out cs' Hs IH];
    intros w Hw; cbn [weight inpipe ph rank length] in *; rewrite ?length_app; cbn [length]; try nia.
  assert (weight (w - 1) cs' < weight (w - 1) cs)%nat by (apply IH; lia). lia.
Qed.

Lemma chain_step_length cs out cs' : chain_step cs out cs' → length cs' = (length cs + length out)%nat.
Proof. induction 1; simpl in *; lia. Qed.

(** ** The program *)

Definition rest (n : option Z) : list Z := match n with Some i => seqZ i (limit + 1 - i) | None => [] end.
Definition answer : list Z := sieve (rest (Some 2)).

Record prog_ok (s : prog) : Prop := {
  pk_chain : chain_ok (bool_decide (next s = None)) (chain s);
  pk_next : ∀ i, next s = Some i → 2 ≤ i ≤ limit + 1;
  pk_out : printed s ++ to_come (chain s) (rest (next s)) = answer;
  pk_len : length (chain s) = S (length (printed s));
}.

Lemma to_come_snoc cs q b p t s :
  chain_ok false (mkStage q b p :: cs) → to_come (mkStage (q ++ [t]) b p :: cs) s = to_come (mkStage q b p :: cs) (t :: s).
Proof. simpl. intros (_ & _ & Hp). destruct p; rewrite <- ?app_assoc; done. Qed.

Lemma prog_step_ok s s' : prog_ok s → prog_step s s' → prog_ok s'.
Proof.
  intros [K1 K2 K3 K4] Hs. destruct Hs as [i q b p cs out Hi Hroom|i q b p cs out Hi|n cs out cs' out' Hc]; simpl in *.
  - pose proof (K2 i eq_refl) as Hr. change (bool_decide (Some i = None)) with false in K1. split; simpl.
    + destruct K1 as (-> & Hl & Hp). simpl. rewrite length_app. simpl. split_and!; [done|lia|].
      destruct p; try done; destruct Hp as (_ & [=] & _).
    + intros j [= <-]. lia.
    + rewrite <- K3. f_equal. rewrite (seqZ_cons i) by lia.
      replace (Z.pred (limit + 1 - i)) with (limit + 1 - (i + 1)) by lia. replace (Z.succ i) with (i + 1) by lia.
      exact (to_come_snoc cs q b p i _ K1).
    + done.
  - pose proof (K2 i eq_refl) as Hr. change (bool_decide (Some i = None)) with false in K1.
    assert (He : seqZ i (limit + 1 - i) = []) by (apply seqZ_nil; lia). rewrite He in K3. split; simpl; try done.
    change (bool_decide (None = None)) with true. destruct K1 as (-> & Hl & Hp). split_and!; try done.
    destruct p; try done; destruct Hp as (_ & [=] & _).
  - assert (Hrest : bool_decide (n = None) = true → rest n = []) by (intros ->%bool_decide_eq_true; done).
    destruct (chain_step_ok _ _ _ Hc _ _ K1 Hrest) as [H1 H2]. split; simpl; try done.
    + rewrite <- app_assoc, <- H2. done.
    + rewrite (chain_step_length _ _ _ Hc), K4, length_app. lia.
Qed.

Definition prog_weight (s : prog) : nat :=
  let w := S (length answer) in
  (match next s with Some i => 3 * (w + 1) * Z.to_nat (limit + 1 - i) + 1 | None => 0 end + weight w (chain s))%nat.

Lemma prog_step_weight s s' : prog_ok s → prog_step s s' → (prog_weight s' < prog_weight s)%nat.
Proof.
  intros [K1 K2 K3 K4] Hs. unfold prog_weight. set (w := S (length answer)).
  destruct Hs as [i q b p cs out Hi Hroom|i q b p cs out Hi|n cs out cs' out' Hc]; cbn [next chain printed weight inpipe ph] in *.
  - rewrite length_app. cbn [length]. replace (Z.to_nat (limit + 1 - i)) with (S (Z.to_nat (limit + 1 - (i + 1)))) by lia. nia.
  - lia.
  - assert (Hw : (weight w cs' < weight w cs)%nat); [|lia]. apply (chain_step_weight _ _ _ Hc).
    apply (f_equal length) in K3. rewrite length_app in K3. unfold w. lia.
Qed.

Lemma prog_sn s : prog_ok s → sn prog_step s.
Proof.
  remember (prog_weight s) as k eqn:Hk. revert s Hk. induction k as [k IH] using lt_wf_ind. intros s -> Hok.
  constructor. intros s' Hs. eapply IH; [by apply prog_step_weight|done|by eapply prog_step_ok].
Qed.

Lemma prog_live s : prog_ok s → finished s ∨ ∃ s', prog_step s s'.
Proof.
  intros [K1 K2 K3 K4]. destruct s as [n cs out]. simpl in *. destruct n as [i|].
  - right. change (bool_decide (Some i = None)) with false in K1. pose proof (K2 i eq_refl).
    destruct cs as [|[q b p] cs]; [done|]. destruct (decide (i ≤ limit)); [|eexists; constructor; lia].
    destruct (decide (length q < pipe_room)%nat) as [Hroom|Hfull]; [eexists; by constructor|].
    assert (Hne : q ≠ []) by (intros ->; unfold pipe_room in Hfull; simpl in Hfull; lia).
    destruct (chain_live _ _ K1) as [(c & cs' & [= <- <-] & He)|(o & cs' & Hs)].
    + right. by exists (mkStage q b p), cs.
    + simpl in He. subst p. by destruct K1 as (_ & _ & _ & [=] & _).
    + eexists. by apply P_chain.
  - change (bool_decide (None = None)) with true in K1.
    destruct (chain_live _ _ K1 ltac:(by left)) as [(c & cs' & -> & He)|(o & cs' & Hs)]; [by left|right].
    eexists. by apply P_chain.
Qed.

(** ** The sieve finds the primes *)

Definition no_divisor (x : Z) : Prop := ∀ d, 2 ≤ d < x → ¬ (d | x).

Lemma prime_no_divisor x : prime x ↔ 2 ≤ x ∧ no_divisor x.
Proof.
  rewrite <- prime_alt. unfold prime', no_divisor. split; intros [H1 H2]; (split; [lia|]); intros d Hd; apply H2; lia.
Qed.

#[local] Instance divide_dec (d x : Z) : Decision (d | x) := Zdivide_dec d x.

Lemma elem_keep n l x : 0 < n → x ∈ keep n l ↔ x ∈ l ∧ ¬ (n | x).
Proof.
  intros Hn. rewrite !list_elem_of_In. unfold keep. rewrite List.filter_In, negb_true_iff, Z.eqb_neq.
  rewrite Z.rem_divide by lia. done.
Qed.

Lemma keep_sorted n l : StronglySorted Z.lt l → StronglySorted Z.lt (keep n l).
Proof.
  induction 1 as [|x l Hs IH Hf]; simpl; [constructor|]. destruct (negb _); [|done]. constructor; [done|].
  apply Forall_forall. intros y Hy. rewrite Forall_forall in Hf. apply Hf. rewrite list_elem_of_In in *. by apply List.filter_In in Hy as [? _].
Qed.

Lemma sieve_fuel_primes fuel : ∀ l a N, (length l ≤ fuel)%nat → 2 ≤ a → StronglySorted Z.lt l →
  (∀ x, x ∈ l ↔ a ≤ x ≤ N ∧ ∀ d, 2 ≤ d < a → ¬ (d | x)) →
  StronglySorted Z.lt (sieve_fuel fuel l) ∧ ∀ x, x ∈ sieve_fuel fuel l ↔ a ≤ x ≤ N ∧ no_divisor x.
Proof.
  induction fuel as [|fuel IH]; intros l a N Hl Ha Hs Hx.
  all: destruct l as [|n l]; [|simpl in Hl; try lia].
  1,2: simpl; split; [constructor|]; intros x; split; [by intros ?%not_elem_of_nil|]; intros [Hr Hd];
    apply Hx; split; [done|]; intros d Hdr; apply Hd; lia.
  cbn [sieve_fuel]. apply StronglySorted_inv in Hs as [Hs Hf]. rewrite Forall_forall in Hf.
  assert (Hn : a ≤ n ≤ N ∧ ∀ d, 2 ≤ d < a → ¬ (d | n)) by (apply Hx; by left).
  (* a number between [a] and [n] has a divisor below [a] *)
  assert (Hgap : ∀ d, a ≤ d < n → ∃ e, 2 ≤ e < a ∧ (e | d)).
  { intros d Hd. destruct (decide (Exists (λ e, (e | d)) (seqZ 2 (a - 2)))) as [He|He].
    - apply Exists_exists in He as (e & He & Hdiv). apply elem_of_seqZ in He. exists e. split; [lia|done].
    - exfalso. assert (Hin : d ∈ n :: l).
      { apply Hx. split; [lia|]. intros e He' Hdiv. apply He, Exists_exists. exists e. split; [apply elem_of_seqZ; lia|done]. }
      apply elem_of_cons in Hin as [->|Hin]; [lia|]. specialize (Hf d Hin). lia. }
  assert (Hnd : no_divisor n).
  { intros d Hd Hdn. destruct (decide (d < a)) as [Hda|Hda]; [exact (proj2 Hn d ltac:(lia) Hdn)|].
    destruct (Hgap d ltac:(lia)) as (e & He & Hed). apply (proj2 Hn e He). exact (Z.divide_trans _ _ _ Hed Hdn). }
  destruct (IH (keep n l) (n + 1) N) as [I1 I2]; [pose proof (length_keep n l); lia|lia|by apply keep_sorted| |].
  { intros x. rewrite elem_keep by lia. split.
    - intros [Hin Hnx]. destruct (proj1 (Hx x)) as [Hr Hd]; [by right|]. specialize (Hf x Hin). split; [lia|].
      intros d Hdr Hdx. destruct (decide (d = n)) as [->|Hdn]; [done|]. destruct (decide (d < a)); [exact (Hd d ltac:(lia) Hdx)|].
      destruct (Hgap d ltac:(lia)) as (e & He & Hed). apply (Hd e He). exact (Z.divide_trans _ _ _ Hed Hdx).
    - intros [Hr Hd]. split; [|by apply Hd; lia].
      assert (Hin : x ∈ n :: l) by (apply Hx; split; [lia|]; intros d Hdr; apply Hd; lia).
      apply elem_of_cons in Hin as [->|]; [lia|done]. }
  split.
  - constructor; [done|]. apply Forall_forall. intros x Hin. apply I2 in Hin. lia.
  - intros x. rewrite elem_of_cons, I2. split.
    + intros [->|[Hr Hd]]; [split; [lia|done]|split; [lia|done]].
    + intros [Hr Hd]. assert (Hin : x ∈ n :: l) by (apply Hx; split; [lia|]; intros d Hdr; apply Hd; lia).
      apply elem_of_cons in Hin as [->|Hin]; [by left|right]. specialize (Hf x Hin). split; [lia|done].
Qed.

Lemma seqZ_sorted m n : StronglySorted Z.lt (seqZ m n).
Proof.
  destruct (decide (0 ≤ n)) as [Hn|Hn]; [|rewrite seqZ_nil by lia; constructor].
  rewrite <- (Z2Nat.id n Hn). generalize (Z.to_nat n) as k. clear. intros k. revert m.
  induction k as [|k IH]; intros m; [constructor|]. rewrite seqZ_cons by lia.
  replace (Z.pred (Z.of_nat (S k))) with (Z.of_nat k) by lia. constructor; [apply IH|].
  apply Forall_forall. intros x Hx%elem_of_seqZ. lia.
Qed.

Lemma answer_primes : StronglySorted Z.lt answer ∧ ∀ x, x ∈ answer ↔ 2 ≤ x ≤ limit ∧ prime x.
Proof.
  destruct (sieve_fuel_primes (length (rest (Some 2))) (rest (Some 2)) 2 limit) as [H1 H2]; [reflexivity|lia|apply seqZ_sorted| |].
  - intros x. unfold rest. rewrite elem_of_seqZ. split; [intros Hx; split; [lia|intros; lia]|intros [Hx _]; lia].
  - split; [exact H1|]. intros x. unfold answer, sieve. rewrite H2, prime_no_divisor. split; [intros [[? ?] ?]; split_and!; done|intros [? [? ?]]; done].
Qed.

Lemma start_ok : prog_ok start.
Proof.
  split; simpl; try done.
  - split_and!; try done. unfold pipe_room. lia.
  - intros i [= <-]. unfold limit. lia.
Qed.


