(* ===== verification/Pingpong.v ===== *)
(** * Pingpong: user/pingpong.c

    The two processes of the program as a transition system, one step per system
    call, in every order in which the kernel may run them.  A pipe is the queue of
    its bytes; both processes keep both ends of both pipes open until they exit, so
    that a read of an empty pipe waits.  [byte] is the byte that the parent sends,
    which the program does not initialise. *)
From S2P Require Import Prelude Riscv.

(** Where a process is in its branch of the program. *)
Inductive child_pc : Type := C_read | C_print | C_write | C_exit | C_done.
Inductive parent_pc : Type := P_write | P_read | P_print | P_exit | P_done.

Inductive note : Type := Ping (pid : Z) | Pong (pid : Z).

Record state : Type := mkState { parent : parent_pc; child : child_pc; p : list Z; q : list Z; buf_c : option Z; buf_p : option Z; printed : list note }.

Definition PIPE_BYTES : nat := 512.

Section Pingpong.
Context (byte pid_parent pid_child : Z).

(** After the two pipes have been made and [fork] has returned. *)
Definition forked : state := mkState P_write C_read [] [] None None [].

(** The result of [fork] decides; without a child the program exits with 1. *)
Definition main (pid : Z) : option state := if pid <? 0 then None else Some forked.

Definition parent_step (s : state) : option state :=
  let 'mkState pp cc p q bc bp out := s in
  match pp with
  | P_write => if (length p <? PIPE_BYTES)%nat then Some (mkState P_read cc (p ++ [byte]) q bc bp out) else None
  | P_read => match q with b :: q => Some (mkState P_print cc p q bc (Some b) out) | [] => None end
  | P_print => Some (mkState P_exit cc p q bc bp (out ++ [Pong pid_parent]))
  | P_exit => Some (mkState P_done cc p q bc bp out)
  | P_done => None
  end.

Definition child_step (s : state) : option state :=
  let 'mkState pp cc p q bc bp out := s in
  match cc with
  | C_read => match p with b :: p => Some (mkState pp C_print p q (Some b) bp out) | [] => None end
  | C_print => Some (mkState pp C_write p q bc bp (out ++ [Ping pid_child]))
  | C_write =>
      match bc with
      | Some b => if (length q <? PIPE_BYTES)%nat then Some (mkState pp C_exit p (q ++ [b]) bc bp out) else None
      | None => None
      end
  | C_exit => Some (mkState pp C_done p q bc bp out)
  | C_done => None
  end.

Definition step (s s' : state) : Prop := parent_step s = Some s' ∨ child_step s = Some s'.

(** ** Every run *)

(** How many steps are left. *)
Definition left_parent (pp : parent_pc) : nat := match pp with P_write => 4 | P_read => 3 | P_print => 2 | P_exit => 1 | P_done => 0 end.
Definition left_child (cc : child_pc) : nat := match cc with C_read => 4 | C_print => 3 | C_write => 2 | C_exit => 1 | C_done => 0 end.
Definition steps_left (s : state) : nat := left_parent (parent s) + left_child (child s).

(** What is in the pipes, in the two buffers and on the console when the processes
    are at these places; [None] for places they are not at together. *)
Definition expected (pp : parent_pc) (cc : child_pc) : option (list Z * list Z * option Z * option Z * list note) :=
  let np := left_parent pp in
  let nc := left_child cc in
  if ((np =? 4) && negb (nc =? 4))%nat || ((np <=? 2) && negb (nc <=? 1))%nat then None
  else Some (if ((np <? 4) && (nc =? 4))%nat then [byte] else [],
             if ((nc <=? 1) && (np =? 3))%nat then [byte] else [],
             if (nc =? 4)%nat then None else Some byte,
             if (np <=? 2)%nat then Some byte else None,
             (if (nc <=? 2)%nat then [Ping pid_child] else []) ++ (if (np <=? 1)%nat then [Pong pid_parent] else [])).

Definition inv (s : state) : Prop := expected (parent s) (child s) = Some (p s, q s, buf_c s, buf_p s, printed s).

Lemma play_inv s s' : inv s → step s s' → inv s' ∧ steps_left s = S (steps_left s').
Proof.
  destruct s as [pp cc p1 q1 bc bp out]. unfold inv, step. cbn [parent child p q buf_c buf_p printed].
  destruct pp, cc; cbn; intros Hinv; try discriminate Hinv; injection Hinv as <- <- <- <- <-; cbn;
    intros [Hs|Hs]; try discriminate Hs; injection Hs as <-; done.
Qed.

Lemma inv_progress s : inv s → steps_left s ≠ 0%nat → ∃ s', step s s'.
Proof.
  destruct s as [pp cc p1 q1 bc bp out]. unfold inv, step, steps_left. cbn [parent child p q buf_c buf_p printed].
  destruct pp, cc; cbn; intros Hinv; try discriminate Hinv; injection Hinv as <- <- <- <- <-; cbn; try done; eauto.
Qed.

(** The processes play ping pong.  In whatever order the two processes run, no
    state is a deadlock and no run has more than eight steps: each run can be
    continued until both have exited, and then exactly two lines have been printed,
    first that of the child, then that of the parent, and the parent has got back
    the byte that it sent. *)
Theorem pingpong_ends (s : state) (Hs : steps step forked s) :
  ((parent s = P_done ∧ child s = C_done) ∨ ∃ s', step s s' ∧ (steps_left s' < steps_left s)%nat) ∧
  (steps_left s ≤ 8)%nat ∧
  (parent s = P_done → child s = C_done → printed s = [Ping pid_child; Pong pid_parent] ∧ buf_p s = Some byte).
Proof.
  assert (Hinv : inv s ∧ (steps_left s ≤ 8)%nat).
  { revert s Hs. apply steps_invariant; [done|]. intros s1 s2 [H1 H2] Hstep. destruct (play_inv s1 s2 H1 Hstep). split; [done|lia]. }
  destruct Hinv as [Hinv Hle]. split_and!; [|done|].
  - destruct (decide (steps_left s = 0%nat)) as [H0|H0].
    + left. unfold steps_left in H0. destruct (parent s), (child s); done.
    + right. destruct (inv_progress s Hinv H0) as [s' Hs']. exists s'. split; [done|]. destruct (play_inv s s' Hinv Hs'). lia.
  - intros H1 H2. unfold inv in Hinv. rewrite H1, H2 in Hinv. cbn in Hinv. by simplify_eq.
Qed.

(** The run in which the processes go in the given order. *)
Fixpoint play (order : list bool) (s : state) : option state :=
  match order with
  | [] => Some s
  | b :: order => match (if b then parent_step s else child_step s) with Some s => play order s | None => None end
  end.

Lemma play_steps order : ∀ s0 s s', steps step s0 s → play order s = Some s' → steps step s0 s'.
Proof.
  induction order as [|b order IH]; intros s0 s s' H0 H; cbn in H; [by simplify_eq|].
  destruct (if b then parent_step s else child_step s) as [s1|] eqn:E; [|done]. eapply IH; [|done].
  eapply steps_snoc; [exact H0|]. destruct b; [by left|by right].
Qed.
End Pingpong.

Definition demo_end : state := mkState P_done C_done [] [] (Some 7) (Some 7) [Ping 4; Pong 3].

Lemma demo_plays : steps (step 7 3 4) forked demo_end.
Proof. apply (play_steps 7 3 4 [true; false; false; false; true; false; true; true] forked forked); [constructor|reflexivity]. Qed.

Lemma pingpong_ends_witness : printed demo_end = [Ping 4; Pong 3] ∧ buf_p demo_end = Some 7.
Proof. exact (proj2 (proj2 (pingpong_ends 7 3 4 demo_end demo_plays)) eq_refl eq_refl). Defined.
