(* ===== verification/UMalloc.v ===== *)
(** * UMalloc: user/umalloc.c, the allocator of user programs

    A circular list of free blocks, kept in address order and threaded through
    the blocks; the memory comes from the [sbrk] of kernel/sysproc.c.  Memory is
    a byte array; a header is 16 bytes, the pointer first, then the size in
    units of 16 bytes.  An access outside the process's memory is [Undef]. *)
From stdpp Require Import sorting.
From S2P Require Import Prelude CString.

Record heap : Type := mkHeap {
  h_mem : mem;
  h_freep : Z;       (* static Header *freep; 0 is the null pointer *)
  h_sz : Z;          (* the size of the process, p->sz in the kernel *)
}.

Definition set_hmem (m : mem) (h : heap) : heap := mkHeap m (h_freep h) (h_sz h).
Definition set_freep (p : Z) (h : heap) : heap := mkHeap (h_mem h) p (h_sz h).
Definition set_hsz (n : Z) (h : heap) : heap := mkHeap (h_mem h) (h_freep h) n.

Section UMalloc.
(** [base] is the address of the static header, [lo] the size the process had
    when it started, and [grow sz n] says whether the kernel finds the memory to
    extend a process of size [sz] by [n] bytes. *)
Context (base lo : Z) (grow : Z → Z → bool).

Definition sizeof_Header : Z := 16.

(** The header at [p] is in the process's memory. *)
Definition mapped (h : heap) (p : Z) : bool :=
  (p =? base) || ((lo <=? p) && (p + sizeof_Header <=? h_sz h)).

Definition at_header {A} (p : Z) (m : M heap A) : M heap A :=
  do h <- get; if mapped h p then m else undef.

(** p->s.ptr and p->s.size *)
Definition get_ptr (p : Z) : M heap Z := at_header p (gets (λ h, load64 (h_mem h) p)).
Definition get_size (p : Z) : M heap Z := at_header p (gets (λ h, load32 (h_mem h) (p + 8))).
Definition set_ptr (p v : Z) : M heap unit :=
  at_header p (modify (λ h, set_hmem (store64 (h_mem h) p v) h)).
Definition set_size (p v : Z) : M heap unit :=
  at_header p (modify (λ h, set_hmem (store32 (h_mem h) (p + 8) v) h)).

(** The two loops go around the list of free blocks; this many steps are more
    than twice around any list in the process's memory. *)
Definition list_fuel (h : heap) : nat := Z.to_nat (2 * ((h_sz h - lo) / sizeof_Header) + 4).

(** The search of [free] for the free block before [bp]. *)
Fixpoint free_scan (fuel : nat) (bp p : Z) : M heap Z :=
  do next <- get_ptr p;
  if (p <? bp) && (bp <? next) then ret p
  else if (next <=? p) && ((p <? bp) || (bp <? next)) then ret p
  else match fuel with O => nofuel | S fuel => free_scan fuel bp next end.

Definition free (ap : Z) : M heap unit :=
  let bp := ap - sizeof_Header in
  do h <- get;
  do p <- free_scan (list_fuel h) bp (h_freep h);
  do next <- get_ptr p;
  do bsize <- get_size bp;
  (if bp + sizeof_Header * bsize =? next then
     do nsize <- get_size next;
     set_size bp (u32 (bsize + nsize)) ;;;
     do nnext <- get_ptr next;
     set_ptr bp nnext
   else set_ptr bp next) ;;;
  do psize <- get_size p;
  (if p + sizeof_Header * psize =? bp then
     do bsize <- get_size bp;
     set_size p (u32 (psize + bsize)) ;;;
     do bnext <- get_ptr bp;
     set_ptr p bnext
   else set_ptr p bp) ;;;
  modify (set_freep p).

(** sbrk(n): [None] is the result -1.  Shrinking below zero leaves the size as
    it is ([uvmdealloc] compares the sizes as unsigned numbers). *)
Definition sbrk (n : Z) : M heap (option Z) :=
  do h <- get;
  let sz := h_sz h in
  if 0 <? n then
    if grow sz n then modify (set_hsz (sz + n)) ;;; ret (Some sz) else ret None
  else if n <? 0 then
    let newsz := u64 (sz + n) in
    modify (set_hsz (if sz <=? newsz then sz else newsz)) ;;; ret (Some sz)
  else ret (Some sz).

Definition morecore (nu : Z) : M heap Z :=
  let nu := if nu <? 4096 then 4096 else nu in
  (* the argument of sbrk is an int *)
  do p <- sbrk (i32 (nu * sizeof_Header));
  match p with
  | None => ret 0
  | Some hp =>
      set_size hp nu ;;;
      free (hp + sizeof_Header) ;;;
      gets h_freep
  end.

(** (nbytes + sizeof(Header) - 1)/sizeof(Header) + 1, kept in a uint *)
Definition units (nbytes : Z) : Z := u32 ((nbytes + sizeof_Header - 1) / sizeof_Header + 1).

(** [p] has room for [nunits]. *)
Definition take_units (prevp p nunits : Z) : M heap Z :=
  do psize <- get_size p;
  do p' <-
    (if psize =? nunits then
       do next <- get_ptr p; set_ptr prevp next ;;; ret p
     else
       set_size p (u32 (psize - nunits)) ;;;
       let p' := p + sizeof_Header * u32 (psize - nunits) in
       set_size p' nunits ;;; ret p');
  modify (set_freep prevp) ;;;
  ret (p' + sizeof_Header).

Fixpoint malloc_loop (fuel : nat) (nunits prevp p : Z) : M heap Z :=
  do psize <- get_size p;
  if nunits <=? psize then take_units prevp p nunits
  else
    do freep <- gets h_freep;
    do p' <- (if p =? freep then morecore nunits else ret p);
    if (p =? freep) && (p' =? 0) then ret 0
    else match fuel with
         | O => nofuel
         | S fuel => do next <- get_ptr p'; malloc_loop fuel nunits p' next
         end.

Definition malloc (nbytes : Z) : M heap Z :=
  let nunits := units nbytes in
  do freep <- gets h_freep;
  (if freep =? 0 then set_ptr base base ;;; modify (set_freep base) ;;; set_size base 0 else ret tt) ;;;
  do h <- get;
  let prevp := h_freep h in
  do p <- get_ptr prevp;
  malloc_loop (list_fuel h) nunits prevp p.

End UMalloc.

(** ** Headers in memory *)

Definition hptr (m : mem) (p : Z) : Z := load64 m p.
Definition hsize (m : mem) (p : Z) : Z := load32 m (p + 8).
(** Two different headers. *)
Definition apart (p q : Z) : Prop := p + 16 ≤ q ∨ q + 16 ≤ p.

Lemma hptr_ext m m' p : (∀ x, p ≤ x < p + 16 → m x = m' x) → hptr m p = hptr m' p.
Proof. intros Hx. apply load64_ext. intros. apply Hx. lia. Qed.

Lemma hsize_ext m m' p : (∀ x, p ≤ x < p + 16 → m x = m' x) → hsize m p = hsize m' p.
Proof. intros Hx. apply load32_ext. intros. apply Hx. lia. Qed.

Lemma hptr_set_ptr m p v : 0 ≤ v < 2 ^ 64 → hptr (store64 m p v) p = v.
Proof. intros. unfold hptr. rewrite load64_store64. by apply u64_id. Qed.

Lemma hsize_set_ptr m p v : hsize (store64 m p v) p = hsize m p.
Proof. apply load32_ext. intros. apply store64_out. lia. Qed.

Lemma hsize_set_size m p v : 0 ≤ v < 2 ^ 32 → hsize (store32 m (p + 8) v) p = v.
Proof. intros. unfold hsize. rewrite load32_store32. by apply u32_id. Qed.

Lemma hptr_set_size m p v : hptr (store32 m (p + 8) v) p = hptr m p.
Proof. apply load64_ext. intros. apply store32_out. lia. Qed.

Lemma hptr_set_ptr_ne m p v q : apart p q → hptr (store64 m p v) q = hptr m q.
Proof. unfold apart. intros. apply hptr_ext. intros. apply store64_out. lia. Qed.

Lemma hsize_set_ptr_ne m p v q : apart p q → hsize (store64 m p v) q = hsize m q.
Proof. unfold apart. intros. apply hsize_ext. intros. apply store64_out. lia. Qed.

Lemma hptr_set_size_ne m p v q : apart p q → hptr (store32 m (p + 8) v) q = hptr m q.
Proof. unfold apart. intros. apply hptr_ext. intros. apply store32_out. lia. Qed.

Lemma hsize_set_size_ne m p v q : apart p q → hsize (store32 m (p + 8) v) q = hsize m q.
Proof. unfold apart. intros. apply hsize_ext. intros. apply store32_out. lia. Qed.

Create HintDb header.
#[export] Hint Rewrite hptr_set_ptr hsize_set_ptr hsize_set_size hptr_set_size
  hptr_set_ptr_ne hsize_set_ptr_ne hptr_set_size_ne hsize_set_size_ne
  using (first [done | lia | unfold apart in *; lia]) : header.
Ltac header := autorewrite with header.

(** ** The circular list *)

(** From [p] the pointers lead through [l] to [q]. *)
Fixpoint links (m : mem) (p : Z) (l : list Z) (q : Z) : Prop :=
  match l with
  | [] => hptr m p = q
  | x :: l => hptr m p = x ∧ links m x l q
  end.

Lemma links_app m p l1 x l2 q : links m p (l1 ++ x :: l2) q ↔ links m p l1 x ∧ links m x l2 q.
Proof. revert p. induction l1 as [|y l1 IH]; intros p; simpl; [done|]. rewrite IH. tauto. Qed.

Lemma links_frame m m' p l q : (∀ x, x ∈ p :: l → hptr m' x = hptr m x) → links m p l q → links m' p l q.
Proof.
  revert p. induction l as [|x l IH]; intros p Hf; simpl; [rewrite Hf by left; done|].
  intros [H1 H2]. split; [rewrite Hf by left; done|]. apply IH; [|done]. intros. apply Hf. by right.
Qed.

Lemma links_next m b l l1 x l2 : links m b l b → b :: l = l1 ++ x :: l2 → hptr m x = hd b l2.
Proof.
  intros Hl Hs. assert (Hx : links m x l2 b).
  { destruct l1 as [|y l1]; [by injection Hs as -> ->|]. injection Hs as -> ->. by apply links_app in Hl as [_ ?]. }
  destruct l2; [done|by destruct Hx].
Qed.

Lemma links_rotate m b l l1 x l2 : links m b l b → b :: l = l1 ++ x :: l2 → links m x (l2 ++ l1) x.
Proof.
  intros Hl Hs. destruct l1 as [|y l1]; [injection Hs as -> ->; by rewrite app_nil_r|].
  injection Hs as -> ->. apply links_app in Hl as [H1 H2]. by apply links_app.
Qed.

(** The last element of [p :: l]. *)
Fixpoint final (p : Z) (l : list Z) : Z := match l with [] => p | x :: l => final x l end.

Lemma final_elem p l : final p l ∈ p :: l.
Proof. revert p. induction l as [|x l IH]; intros p; simpl; [by left|right; apply IH]. Qed.

Lemma final_snoc p l x : final p (l ++ [x]) = x.
Proof. revert p. induction l as [|y l IH]; intros p; simpl; [done|apply IH]. Qed.

Lemma final_split p l : ∃ l', p :: l = l' ++ [final p l].
Proof.
  revert p. induction l as [|x l IH]; intros p; [by exists []|]. destruct (IH x) as [l' Hl']. exists (p :: l'). simpl. by rewrite Hl'.
Qed.

(** A list cut in two: the first part ends with a pointer to the second. *)
Definition links_from (m : mem) (l : list Z) (q : Z) : Prop :=
  match l with [] => True | x :: l => links m x l q end.

Lemma links_cut m p l1 l2 q : links m p (l1 ++ l2) q ↔ links m p l1 (hd q l2) ∧ links_from m l2 q.
Proof. destruct l2 as [|x l2]; simpl; [rewrite app_nil_r; tauto|apply links_app]. Qed.

Lemma links_from_frame m m' l q : (∀ x, x ∈ l → hptr m' x = hptr m x) → links_from m l q → links_from m' l q.
Proof. destruct l; [done|]. apply links_frame. Qed.

Lemma links_from_cons m x l q : links_from m (x :: l) q ↔ hptr m x = hd q l ∧ links_from m l q.
Proof. destruct l; simpl; tauto. Qed.

Lemma links_redirect m m' p l y y' :
  NoDup (p :: l) → links m p l y → (∀ x, x ∈ p :: l → x ≠ final p l → hptr m' x = hptr m x) →
  hptr m' (final p l) = y' → links m' p l y'.
Proof.
  revert p. induction l as [|x l IH]; intros p Hnd Hl Hf He; [done|]. apply NoDup_cons in Hnd as [Hp Hnd].
  destruct Hl as [H1 H2]. simpl in He. split.
  - rewrite Hf; [done|by left|]. intros Heq. apply Hp. rewrite Heq. apply (final_elem x l).
  - apply IH; try done. intros. apply Hf; [by right|done].
Qed.

(** ** Blocks

    The memory from [a] on as a sequence of blocks, each with its size in units
    and whether it is free.  The blocks are adjacent by construction. *)
Notation blk := (bool * Z)%type.

Fixpoint total (bs : list blk) : Z := match bs with [] => 0 | b :: bs => b.2 + total bs end.

(** The addresses of the free blocks, and the blocks in use. *)
Fixpoint frees (a : Z) (bs : list blk) : list Z :=
  match bs with
  | [] => []
  | (true, s) :: bs => a :: frees (a + 16 * s) bs
  | (false, s) :: bs => frees (a + 16 * s) bs
  end.
Fixpoint lives (a : Z) (bs : list blk) : list (Z * Z) :=
  match bs with
  | [] => []
  | (true, s) :: bs => lives (a + 16 * s) bs
  | (false, s) :: bs => (a, s) :: lives (a + 16 * s) bs
  end.
(** Every block's header holds its size. *)
Fixpoint sizes (m : mem) (a : Z) (bs : list blk) : Prop :=
  match bs with
  | [] => True
  | (_, s) :: bs => hsize m a = s ∧ sizes m (a + 16 * s) bs
  end.

Definition starts_free (bs : list blk) : bool := match bs with (b, _) :: _ => b | [] => false end.
Definition ends_free (bs : list blk) : bool := match last bs with Some (b, _) => b | None => false end.
(** No two free blocks touch. *)
Fixpoint coalesced (bs : list blk) : Prop :=
  match bs with
  | [] => True
  | (b, _) :: bs => (b = true → starts_free bs = false) ∧ coalesced bs
  end.

Lemma total_app l1 l2 : total (l1 ++ l2) = total l1 + total l2.
Proof. induction l1 as [|b l IH]; simpl; lia. Qed.

Lemma frees_app l1 l2 a : frees a (l1 ++ l2) = frees a l1 ++ frees (a + 16 * total l1) l2.
Proof.
  revert a. induction l1 as [|[[] s] l IH]; intros a; simpl; [f_equal; lia| |]; rewrite IH; repeat (f_equal; try lia).
Qed.

Lemma lives_app l1 l2 a : lives a (l1 ++ l2) = lives a l1 ++ lives (a + 16 * total l1) l2.
Proof.
  revert a. induction l1 as [|[[] s] l IH]; intros a; simpl; [f_equal; lia| |]; rewrite IH; repeat (f_equal; try lia).
Qed.

Lemma sizes_app m l1 l2 a : sizes m a (l1 ++ l2) ↔ sizes m a l1 ∧ sizes m (a + 16 * total l1) l2.
Proof.
  revert a. induction l1 as [|[b s] l IH]; intros a; cbn [app sizes total snd].
  - replace (a + 16 * 0) with a by lia. tauto.
  - rewrite IH. replace (a + 16 * s + 16 * total l) with (a + 16 * (s + total l)) by lia. tauto.
Qed.

Definition positive (bs : list blk) : Prop := Forall (λ b, 0 < b.2) bs.

Lemma total_pos bs : positive bs → 0 ≤ total bs.
Proof. induction 1; simpl; lia. Qed.

Lemma length_total bs : positive bs → Z.of_nat (length bs) ≤ total bs.
Proof. induction 1; simpl; lia. Qed.

Lemma length_frees a bs : (length (frees a bs) ≤ length bs)%nat.
Proof. revert a. induction bs as [|[[] s] bs IH]; intros a; simpl; [done| |]; specialize (IH (a + 16 * s)); lia. Qed.

Lemma frees_split a bs x : x ∈ frees a bs → ∃ L s R, bs = L ++ (true, s) :: R ∧ x = a + 16 * total L.
Proof.
  revert a. induction bs as [|[[] s] bs IH]; intros a Hx; simpl in Hx.
  - by apply not_elem_of_nil in Hx.
  - apply elem_of_cons in Hx as [->|Hx]; [exists [], s, bs; split; [done|simpl; lia]|].
    destruct (IH _ Hx) as (L & t & R & -> & ->). exists ((true, s) :: L), t, R. split; [done|simpl; lia].
  - destruct (IH _ Hx) as (L & t & R & -> & ->). exists ((false, s) :: L), t, R. split; [done|simpl; lia].
Qed.

Lemma lives_split a bs x s : (x, s) ∈ lives a bs → ∃ L R, bs = L ++ (false, s) :: R ∧ x = a + 16 * total L.
Proof.
  revert a. induction bs as [|[[] t] bs IH]; intros a Hx; simpl in Hx.
  - by apply not_elem_of_nil in Hx.
  - destruct (IH _ Hx) as (L & R & -> & ->). exists ((true, t) :: L), R. split; [done|simpl; lia].
  - apply elem_of_cons in Hx as [[= -> ->]|Hx]; [exists [], bs; split; [done|simpl; lia]|].
    destruct (IH _ Hx) as (L & R & -> & ->). exists ((false, t) :: L), R. split; [done|simpl; lia].
Qed.

Lemma positive_app L R : positive (L ++ R) ↔ positive L ∧ positive R.
Proof. apply Forall_app. Qed.

Lemma positive_cons b s R : positive ((b, s) :: R) ↔ 0 < s ∧ positive R.
Proof. unfold positive. rewrite Forall_cons. done. Qed.

Lemma frees_range a bs x : positive bs → x ∈ frees a bs → a ≤ x ∧ x + 16 ≤ a + 16 * total bs.
Proof.
  intros Hp (L & s & R & -> & ->)%frees_split. apply positive_app in Hp as [H1 [H2 H3]%positive_cons].
  apply total_pos in H1, H3. rewrite total_app. simpl. lia.
Qed.

Lemma lives_range a bs x s : positive bs → (x, s) ∈ lives a bs → 0 < s ∧ a ≤ x ∧ x + 16 * s ≤ a + 16 * total bs.
Proof.
  intros Hp (L & R & -> & ->)%lives_split. apply positive_app in Hp as [H1 [H2 H3]%positive_cons].
  apply total_pos in H1, H3. rewrite total_app. simpl. lia.
Qed.

Fixpoint starts (a : Z) (bs : list blk) : list Z :=
  match bs with [] => [] | (_, s) :: bs => a :: starts (a + 16 * s) bs end.

Lemma starts_range a bs x : positive bs → x ∈ starts a bs → a ≤ x ∧ x + 16 ≤ a + 16 * total bs.
Proof.
  revert a. induction bs as [|[b s] bs IH]; intros a Hp Hx; [by apply not_elem_of_nil in Hx|].
  apply positive_cons in Hp as [Hs Hp]. pose proof (total_pos _ Hp). simpl. apply elem_of_cons in Hx as [->|Hx]; [lia|].
  specialize (IH _ Hp Hx). lia.
Qed.

Lemma frees_starts a bs x : x ∈ frees a bs → x ∈ starts a bs.
Proof.
  revert a. induction bs as [|[[] s] bs IH]; intros a; simpl; [done| |]; [|right; by apply IH].
  intros [->|Hx]%elem_of_cons; [by left|right; by apply IH].
Qed.

Lemma sizes_frame m m' a bs : (∀ x, x ∈ starts a bs → hsize m' x = hsize m x) → sizes m a bs → sizes m' a bs.
Proof.
  revert a. induction bs as [|[b s] bs IH]; intros a Hf; simpl; [done|]. intros [H1 H2].
  split; [rewrite Hf; [done|by left]|]. apply IH; [|done]. intros. apply Hf. by right.
Qed.

Lemma ends_free_snoc L b s : ends_free (L ++ [(b, s)]) = b.
Proof. unfold ends_free. by rewrite last_snoc. Qed.

Lemma ends_free_true L : ends_free L = true → ∃ L' t, L = L' ++ [(true, t)].
Proof.
  destruct L as [|[b t] L' _] using rev_ind; [done|]. rewrite ends_free_snoc. intros ->. by exists L', t.
Qed.

Lemma starts_free_true R : starts_free R = true → ∃ t R', R = (true, t) :: R'.
Proof. destruct R as [|[b t] R']; [done|]. simpl. intros ->. by exists t, R'. Qed.

Lemma coalesced_app L R : coalesced (L ++ R) ↔ coalesced L ∧ coalesced R ∧ (ends_free L = true → starts_free R = false).
Proof.
  induction L as [|[b s] L IH]; [simpl; unfold ends_free; simpl; naive_solver|].
  cbn [app coalesced]. rewrite IH. destruct L as [|[b' s'] L]; [unfold ends_free; simpl; naive_solver|].
  change (starts_free (((b', s') :: L) ++ R)) with b'. change (starts_free ((b', s') :: L)) with b'.
  unfold ends_free. rewrite (last_cons_cons (b, s)). tauto.
Qed.

Definition before (x y : Z) : Prop := x + 16 ≤ y.

Lemma frees_sorted a bs : positive bs → StronglySorted before (frees a bs).
Proof.
  intros Hp. revert a. induction bs as [|[b s] bs IH]; intros a; [constructor|]. apply positive_cons in Hp as [Hs Hp].
  destruct b; simpl; [|by apply IH]. constructor; [by apply IH|]. apply Forall_forall. intros x Hx.
  apply frees_range in Hx; [|done]. unfold before. lia.
Qed.

Lemma starts_apart a bs x y : positive bs → x ∈ starts a bs → y ∈ starts a bs → x ≠ y → apart x y.
Proof.
  revert a. induction bs as [|[b s] bs IH]; intros a Hp Hx Hy Hne; [by apply not_elem_of_nil in Hx|].
  apply positive_cons in Hp as [Hs Hp]. unfold apart. cbn [starts] in Hx, Hy.
  apply elem_of_cons in Hx as [->|Hx]; apply elem_of_cons in Hy as [->|Hy]; try done; [| |by eapply IH].
  all: match goal with H : _ ∈ starts _ _ |- _ => apply starts_range in H; [lia|done] end.
Qed.

Lemma sorted_NoDup l : StronglySorted before l → NoDup l.
Proof.
  induction 1 as [|x l _ IH Hf]; constructor; [|done]. intros Hx. rewrite Forall_forall in Hf. apply Hf in Hx. unfold before in Hx. lia.
Qed.

Lemma sorted_apart l x y : StronglySorted before l → x ∈ l → y ∈ l → x ≠ y → apart x y.
Proof.
  induction 1 as [|z l _ IH Hf]; [by intros ?%not_elem_of_nil|]. rewrite Forall_forall in Hf. unfold before, apart in *.
  intros [->|Hx]%elem_of_cons [->|Hy]%elem_of_cons Hne; try done; [left; by apply Hf|right; by apply Hf|by apply IH].
Qed.

(** ** The state of the allocator *)

Section Correct.
Context (base lo : Z) (grow : Z → Z → bool).
Hypothesis Hbase : 0 < base.
Hypothesis Hlo : base + 16 ≤ lo.
(** The kernel gives a process less than 4 GB (physical memory ends 128 MB
    after KERNBASE). *)
Hypothesis Hgrow : ∀ sz n, grow sz n = true → sz + n ≤ 2 ^ 32.

Notation free := (free base lo).
Notation get_ptr := (get_ptr base lo).
Notation get_size := (get_size base lo).
Notation set_ptr := (set_ptr base lo).
Notation set_size := (set_size base lo).

(** The heap is made of the blocks [bs]. *)
Record ready (h : heap) (bs : list blk) : Prop := {
  rd_pos : positive bs;
  rd_sz : h_sz h = lo + 16 * total bs;
  rd_max : h_sz h ≤ 2 ^ 32;
  rd_hdr : sizes (h_mem h) lo bs;
  rd_base : hsize (h_mem h) base = 0;
  rd_links : links (h_mem h) base (frees lo bs) base;
  rd_freep : h_freep h ∈ base :: frees lo bs;
  rd_coal : coalesced bs;
}.

Definition ok_at (h : heap) (p : Z) : Prop := p = base ∨ lo ≤ p ∧ p + 16 ≤ h_sz h.

Lemma mapped_ok h p : ok_at h p → mapped base lo h p = true.
Proof.
  unfold mapped, sizeof_Header. intros [->|[H1 H2]]; [by rewrite Z.eqb_refl|].
  apply orb_true_iff. right. apply andb_true_iff. rewrite !Z.leb_le. lia.
Qed.

Lemma wp_get_ptr p Q h : ok_at h p → Q (hptr (h_mem h) p) h → wp (get_ptr p) Q h.
Proof. intros Hm HQ. unfold UMalloc.get_ptr, at_header, wp, bind, get. rewrite mapped_ok by done. exact HQ. Qed.

Lemma wp_get_size p Q h : ok_at h p → Q (hsize (h_mem h) p) h → wp (get_size p) Q h.
Proof. intros Hm HQ. unfold UMalloc.get_size, at_header, wp, bind, get. rewrite mapped_ok by done. exact HQ. Qed.

Lemma wp_set_ptr p v (Q : unit → heap → Prop) h :
  ok_at h p → Q tt (set_hmem (store64 (h_mem h) p v) h) → wp (set_ptr p v) Q h.
Proof. intros Hm HQ. unfold UMalloc.set_ptr, at_header, wp, bind, get. rewrite mapped_ok by done. exact HQ. Qed.

Lemma wp_set_size p v (Q : unit → heap → Prop) h :
  ok_at h p → Q tt (set_hmem (store32 (h_mem h) (p + 8) v) h) → wp (set_size p v) Q h.
Proof. intros Hm HQ. unfold UMalloc.set_size, at_header, wp, bind, get. rewrite mapped_ok by done. exact HQ. Qed.

Lemma nodes_sorted bs : positive bs → StronglySorted before (base :: frees lo bs).
Proof.
  intros Hp. constructor; [by apply frees_sorted|]. apply Forall_forall. intros x Hx. apply frees_range in Hx; [|done].
  unfold before. lia.
Qed.

Lemma node_ok h bs x : positive bs → h_sz h = lo + 16 * total bs → x ∈ base :: frees lo bs → ok_at h x.
Proof. intros Hp Hs [->|Hx]%elem_of_cons; [by left|]. apply frees_range in Hx; [|done]. right. lia. Qed.

(** ** [free] *)

(** The search ends at the last free block before [bp]. *)
Section Scan.
Context (h : heap) (bp : Z) (A B : list Z) (Q : Z → heap → Prop).
Hypothesis Hl : links (h_mem h) base (A ++ B) base.
Hypothesis Hs : StronglySorted before (base :: A ++ B).
Hypothesis Hok : ∀ x, x ∈ base :: A ++ B → ok_at h x.
Hypothesis HA : ∀ x, x ∈ base :: A → x < bp.
Hypothesis HB : ∀ x, x ∈ B → bp < x.
Hypothesis HQ : Q (final base A) h.

Lemma scan_stop fuel l1 x l2 : base :: A ++ B = l1 ++ x :: l2 →
  x < bp → (bp < hd base l2 ∨ hd base l2 ≤ x) → Q x h → wp (free_scan base lo fuel bp x) Q h.
Proof.
  intros Hsp H1 H2 HQx. pose proof (links_next _ _ _ _ _ _ Hl Hsp) as Hn.
  destruct fuel; cbn [free_scan]; apply wp_step, wp_get_ptr;
    try (apply Hok; rewrite Hsp; apply elem_of_app; right; left); rewrite Hn; bsimp; case_test; try lia; try (case_test; try lia); by apply wp_ret.
Qed.

Lemma scan_go fuel l1 x l2 : base :: A ++ B = l1 ++ x :: l2 →
  ¬ (x < bp < hd base l2) → (x < hd base l2 ∨ bp < x ∧ base < bp ∧ hd base l2 = base) →
  wp (free_scan base lo fuel bp (hd base l2)) Q h → wp (free_scan base lo (S fuel) bp x) Q h.
Proof.
  intros Hsp H1 H2 HQx. pose proof (links_next _ _ _ _ _ _ Hl Hsp) as Hn. cbn [free_scan]. apply wp_step, wp_get_ptr;
    [apply Hok; rewrite Hsp; apply elem_of_app; right; left|]. rewrite Hn.
  bsimp; case_test; try lia; try (case_test; try lia). done.
Qed.

Lemma scan_up A2 : ∀ fuel A1 x, base :: A = A1 ++ x :: A2 → (length A2 ≤ fuel)%nat → wp (free_scan base lo fuel bp x) Q h.
Proof.
  induction A2 as [|y A2 IH]; intros fuel A1 x Hsp Hf.
  all: pose proof (HA x ltac:(rewrite Hsp; apply elem_of_app; right; left)) as Hx.
  all: assert (Hb : base < bp) by (apply HA; left).
  - assert (Hx' : final base A = x) by (destruct A1; [by injection Hsp as -> ->|injection Hsp as -> ->; apply final_snoc]).
    apply (scan_stop fuel A1 x B); [by rewrite app_comm_cons, Hsp, <- app_assoc|done| |by rewrite <- Hx'].
    destruct B as [|b B']; simpl; [|left; apply HB; left]. right. rewrite <- Hx'. destruct (final_split base A) as [l' Hl'].
    destruct (decide (final base A = base)) as [->|Hne]; [lia|]. apply StronglySorted_inv in Hs as [_ Hf'].
    rewrite Forall_forall in Hf'. specialize (Hf' (final base A)). unfold before in Hf'. enough (base + 16 ≤ final base A) by lia.
    apply Hf'. rewrite app_nil_r. pose proof (final_elem base A) as He. by apply elem_of_cons in He as [?|?].
  - destruct fuel as [|fuel]; simpl in Hf; [lia|].
    assert (Hsp' : base :: A ++ B = A1 ++ x :: y :: A2 ++ B) by (by rewrite app_comm_cons, Hsp, <- app_assoc).
    assert (Hy : y < bp) by (apply HA; rewrite Hsp; apply elem_of_app; right; right; left).
    apply (scan_go fuel A1 x (y :: A2 ++ B) Hsp'); simpl; [lia| |].
    + left. rewrite Hsp' in Hs. apply StronglySorted_app_1_r in Hs. apply StronglySorted_inv in Hs as [_ Hf'].
      apply Forall_cons in Hf' as [Hxy _]. unfold before in Hxy. lia.
    + apply (IH fuel (A1 ++ [x])); [by rewrite <- app_assoc|lia].
Qed.

Lemma scan_down B2 : ∀ fuel B1 x, B = B1 ++ x :: B2 → (length B2 + 1 + length A ≤ fuel)%nat → wp (free_scan base lo fuel bp x) Q h.
Proof.
  induction B2 as [|y B2 IH]; intros fuel B1 x Hsp Hf.
  all: pose proof (HB x ltac:(rewrite Hsp; apply elem_of_app; right; left)) as Hx.
  all: assert (Hb : base < bp) by (apply HA; left).
  all: destruct fuel as [|fuel]; simpl in Hf; [lia|].
  - apply (scan_go fuel (base :: A ++ B1) x []); simpl; [by rewrite Hsp, <- app_assoc|lia|lia|].
    apply (scan_up A fuel [] base eq_refl). lia.
  - assert (Hsp' : base :: A ++ B = (base :: A ++ B1) ++ x :: y :: B2) by (by rewrite Hsp; simpl; rewrite <- app_assoc).
    apply (scan_go fuel (base :: A ++ B1) x (y :: B2) Hsp'); simpl; [lia| |].
    + left. rewrite Hsp' in Hs. apply StronglySorted_app_1_r in Hs. apply StronglySorted_inv in Hs as [_ Hf'].
      apply Forall_cons in Hf' as [Hxy _]. unfold before in Hxy. lia.
    + apply (IH fuel (B1 ++ [x])); [by rewrite <- app_assoc|lia].
Qed.

Lemma free_scan_spec fuel x : x ∈ base :: A ++ B → (length (A ++ B) + 1 ≤ fuel)%nat → wp (free_scan base lo fuel bp x) Q h.
Proof.
  rewrite app_comm_cons, length_app. intros [Hx|Hx]%elem_of_app Hf; apply list_elem_of_split in Hx as (l1 & l2 & Hsp).
  - apply (scan_up l2 fuel l1 x Hsp). apply (f_equal length) in Hsp. rewrite length_app in Hsp. simpl in Hsp. lia.
  - apply (scan_down l2 fuel l1 x Hsp). apply (f_equal length) in Hsp. rewrite length_app in Hsp. simpl in Hsp. lia.
Qed.
End Scan.

(** What [free] leaves in the two headers it writes; [right] and [left] say
    whether the block joins the next and the previous free block. *)
Lemma free_run h p bp (Q : unit → heap → Prop) :
  let m := h_mem h in
  let n := hptr m p in
  let right := bp + 16 * hsize m bp =? n in
  let bsize := if right then hsize m bp + hsize m n else hsize m bp in
  let bnext := if right then hptr m n else n in
  let left := p + 16 * hsize m p =? bp in
  wp (free_scan base lo (list_fuel lo h) bp (h_freep h)) (λ p' h', p' = p ∧ h' = h) h →
  ok_at h p → ok_at h bp → apart p bp → 0 ≤ bp < 2 ^ 64 →
  (right = true → ok_at h n ∧ apart n bp ∧ apart n p) →
  0 ≤ bnext < 2 ^ 64 → 0 ≤ bsize < 2 ^ 32 → (left = true → 0 ≤ hsize m p + bsize < 2 ^ 32) →
  (∀ m', hptr m' p = (if left then bnext else bp) → hsize m' p = (if left then hsize m p + bsize else hsize m p) →
         (left = false → hptr m' bp = bnext ∧ hsize m' bp = bsize) →
         (∀ x, ¬ (p ≤ x < p + 16) → ¬ (bp ≤ x < bp + 16) → m' x = m x) →
         Q tt (mkHeap m' p (h_sz h))) →
  wp (free (bp + 16)) Q h.
Proof.
  intros m n right bsize bnext left Hscan Hp Hb Hap Hbp Hr Hbn Hbs Hl HQ. unfold UMalloc.free.
  change sizeof_Header with 16. replace (bp + 16 - 16) with bp by lia.
  apply wp_step. apply wp_intro with h h; [done|]. apply wp_step. eapply wp_mono; [exact Hscan|]. intros p' h' [-> ->].
  apply wp_step, wp_get_ptr; [done|]. apply wp_step, wp_get_size; [done|]. fold m. fold n.
  change (bp + 16 * hsize m bp =? n) with right.
  (* the right neighbour *)
  apply wp_step. apply wp_mono with (λ _ h', ∃ m1, h' = set_hmem m1 h ∧ hptr m1 bp = bnext ∧ hsize m1 bp = bsize ∧
    hptr m1 p = n ∧ hsize m1 p = hsize m p ∧ ∀ x, ¬ (bp ≤ x < bp + 16) → m1 x = m x).
  { subst bsize bnext. destruct right.
    - destruct (Hr eq_refl) as (H1 & H2 & H3). apply wp_step, wp_get_size; [done|]. apply wp_step, wp_set_size; [done|].
      apply wp_step, wp_get_ptr; [done|]. apply wp_set_ptr; [done|]. cbn [set_hmem h_mem]. fold m. rewrite u32_id by lia.
      eexists. split; [reflexivity|]. rewrite (hptr_set_size_ne _ bp _ n) by (unfold apart in *; lia).
      split_and!; try (header; done). intros x Hx. rewrite store64_out, store32_out by lia. done.
    - apply wp_set_ptr; [done|]. eexists. split; [reflexivity|]. cbn [h_mem]. fold m. split_and!; try (header; done).
      intros x Hx. by rewrite store64_out by lia. }
  intros [] h1 (m1 & -> & E1 & E2 & E3 & E4 & E5).
  (* the left neighbour *)
  assert (Hok1 : ∀ x, ok_at h x → ok_at (set_hmem m1 h) x) by (intros x Hx; exact Hx).
  apply wp_step, wp_get_size; [by apply Hok1|]. cbn [set_hmem h_mem]. rewrite E4.
  change (p + 16 * hsize m p =? bp) with left. apply wp_step.
  apply wp_mono with (λ _ h', ∃ m2, h' = set_hmem m2 h ∧ hptr m2 p = (if left then bnext else bp) ∧
    hsize m2 p = (if left then hsize m p + bsize else hsize m p) ∧
    (left = false → hptr m2 bp = bnext ∧ hsize m2 bp = bsize) ∧ ∀ x, ¬ (p ≤ x < p + 16) → m2 x = m1 x).
  { destruct left.
    - specialize (Hl eq_refl). apply wp_step, wp_get_size; [by apply Hok1|]. apply wp_step, wp_set_size; [by apply Hok1|].
      apply wp_step, wp_get_ptr; [exact Hb|]. apply wp_set_ptr; [exact Hp|]. cbn [set_hmem h_mem]. rewrite E2, u32_id by lia.
      eexists. split; [reflexivity|]. rewrite (hptr_set_size_ne _ p _ bp), E1 by done.
      split_and!; [header; done|header; done|done|]. intros x Hx. by rewrite store64_out, store32_out by lia.
    - apply wp_set_ptr; [by apply Hok1|]. eexists. split; [reflexivity|]. cbn [set_hmem h_mem].
      split_and!; [header; done|header; done|intros _; split; header; done|].
      intros x Hx. by rewrite store64_out by lia. }
  intros [] h2 (m2 & -> & F1 & F2 & F3 & F4). apply HQ; try done. intros x X1 X2. rewrite F4, E5 by done. done.
Qed.

(** The two tests of [free] find the free neighbours. *)
Lemma right_test R a : positive R → base < a → (a =? hd base (frees a R)) = starts_free R.
Proof.
  intros Hp Ha. destruct R as [|[[] s] R]; simpl; [apply Z.eqb_neq; lia|by rewrite Z.eqb_refl|].
  apply positive_cons in Hp as [Hs Hp]. apply Z.eqb_neq. destruct (frees (a + 16 * s) R) as [|x l] eqn:E; simpl; [lia|].
  assert (Hx : x ∈ frees (a + 16 * s) R) by (rewrite E; left). apply frees_range in Hx; [lia|done].
Qed.

Lemma sizes_at m a L b s R : sizes m a (L ++ (b, s) :: R) → hsize m (a + 16 * total L) = s.
Proof. rewrite sizes_app. by intros [_ [? _]]. Qed.

Lemma left_test m L : positive L → hsize m base = 0 → sizes m lo L →
  (final base (frees lo L) + 16 * hsize m (final base (frees lo L)) =? lo + 16 * total L) = ends_free L.
Proof.
  intros Hp Hb Hs. destruct L as [|[b s] L' _] using rev_ind; [simpl; apply Z.eqb_neq; lia|].
  rewrite ends_free_snoc. destruct b.
  - rewrite frees_app. simpl. rewrite final_snoc, (sizes_at _ _ _ _ _ _ Hs), total_app. simpl. apply Z.eqb_eq. lia.
  - apply Z.eqb_neq. rewrite frees_app. simpl. rewrite app_nil_r. apply positive_app in Hp as [Hp [Hs0 _]%positive_cons].
    rewrite total_app. simpl. pose proof (total_pos _ Hp). pose proof (final_elem base (frees lo L')) as He.
    apply elem_of_cons in He as [->|(L1 & t & L2 & -> & ->)%frees_split]; [lia|]. rewrite <- app_assoc in Hs.
    rewrite (sizes_at _ _ _ _ _ _ Hs), total_app. simpl. apply positive_app in Hp as [_ [_ Hp]%positive_cons].
    apply total_pos in Hp. lia.
Qed.

(** The contents of the blocks in use. *)
Definition same_lives (bs : list blk) (m m' : mem) : Prop :=
  ∀ a t x, (a, t) ∈ lives lo bs → a ≤ x < a + 16 * t → m' x = m x.

Lemma final_range L : positive L → final base (frees lo L) + 16 ≤ lo + 16 * total L ∧ 0 < final base (frees lo L).
Proof.
  intros Hp. pose proof (total_pos _ Hp). pose proof (final_elem base (frees lo L)) as He.
  apply elem_of_cons in He as [->|He]; [lia|]. apply frees_range in He; [lia|done].
Qed.

Lemma final_apart L x : positive L → x ∈ base :: starts lo L → x ≠ final base (frees lo L) → apart x (final base (frees lo L)).
Proof.
  intros Hp Hx Hne. pose proof (final_elem base (frees lo L)) as He. unfold apart.
  apply elem_of_cons in Hx as [->|Hx]; apply elem_of_cons in He as [He|He]; try done.
  - apply frees_range in He; [lia|done].
  - rewrite He. apply starts_range in Hx; [lia|done].
  - apply frees_starts in He. by apply (starts_apart lo L).
Qed.

(** Blocks [X], a free block of [z] units, and [Y] make a heap again. *)
Lemma ready_join m sz fp X z Y :
  positive X → positive Y → 0 < z → sz = lo + 16 * (total X + z + total Y) → sz ≤ 2 ^ 32 →
  sizes m lo X → hsize m (lo + 16 * total X) = z → sizes m (lo + 16 * (total X + z)) Y → hsize m base = 0 →
  links m base (frees lo X ++ lo + 16 * total X :: frees (lo + 16 * (total X + z)) Y) base →
  fp ∈ base :: frees lo X ++ [lo + 16 * total X] → coalesced X → coalesced Y → ends_free X = false → starts_free Y = false →
  ready (mkHeap m fp sz) (X ++ (true, z) :: Y).
Proof.
  intros HX HY Hz Hsz Hmx Hs1 Hs2 Hs3 Hb Hl Hf C1 C2 C3 C4.
  assert (Hfr : frees lo (X ++ (true, z) :: Y) = frees lo X ++ lo + 16 * total X :: frees (lo + 16 * (total X + z)) Y).
  { rewrite frees_app. simpl. do 3 f_equal. lia. }
  split; cbn [h_mem h_freep h_sz].
  - apply positive_app. split; [done|]. by apply positive_cons.
  - rewrite total_app. simpl. lia.
  - done.
  - apply sizes_app. split; [done|]. simpl. split; [done|]. by replace (lo + 16 * total X + 16 * z) with (lo + 16 * (total X + z)) by lia.
  - done.
  - by rewrite Hfr.
  - rewrite Hfr, cons_middle, app_assoc, app_comm_cons. apply elem_of_app. by left.
  - apply coalesced_app. split_and!; [done| |by rewrite C3]. simpl. done.
Qed.

Lemma lives_free_apart L a t q x : positive L → (a, t) ∈ lives lo L → q ∈ base :: frees lo L → a ≤ x < a + 16 * t → ¬ (q ≤ x < q + 16).
Proof.
  intros Hp (L1 & L2 & -> & ->)%lives_split Hq Hx. apply positive_app in Hp as [P1 [Pt P2]%positive_cons].
  pose proof (total_pos _ P1). apply elem_of_cons in Hq as [->|Hq]; [lia|]. rewrite frees_app in Hq. simpl in Hq.
  apply elem_of_app in Hq as [Hq|Hq]; apply frees_range in Hq; try done; lia.
Qed.

(** The block [(false, s)] after [L] is released: [m'] is the memory after the
    two headers are written. *)
Section Release.
Context (h : heap) (L : list blk) (s : Z) (R : list blk) (m' : mem).
Hypothesis Hrd : ready h (L ++ (false, s) :: R).
Notation m := (h_mem h).
Notation bp := (lo + 16 * total L).
Notation p := (final base (frees lo L)).
Notation B := (frees (lo + 16 * (total L + s)) R).
Notation right := (starts_free R).
Notation left := (ends_free L).
Notation bsize := (if right then s + hsize m (hd base B) else s).
Notation bnext := (if right then hptr m (hd base B) else hd base B).
Hypothesis M1 : hptr m' p = if left then bnext else bp.
Hypothesis M2 : hsize m' p = if left then hsize m p + bsize else hsize m p.
Hypothesis M3 : left = false → hptr m' bp = bnext ∧ hsize m' bp = bsize.
Hypothesis M4 : ∀ x, ¬ (p ≤ x < p + 16) → ¬ (bp ≤ x < bp + 16) → m' x = m x.

Lemma rel_parts : positive L ∧ 0 < s ∧ positive R ∧ sizes m lo L ∧ sizes m (lo + 16 * (total L + s)) R ∧
  links m base (frees lo L ++ B) base ∧ coalesced L ∧ coalesced R.
Proof.
  destruct Hrd as [R1 R2 R3 R4 R5 R6 R7 R8]. apply positive_app in R1 as [P1 [P2 P3]%positive_cons].
  apply sizes_app in R4 as [S1 [_ S2]]. apply coalesced_app in R8 as (C1 & [_ C2] & _).
  rewrite frees_app in R6. simpl in R6.
  replace (bp + 16 * s) with (lo + 16 * (total L + s)) in * by lia. done.
Qed.

Lemma rel_apart x : apart x p → apart x bp → hptr m' x = hptr m x ∧ hsize m' x = hsize m x.
Proof. unfold apart. intros H1 H2. split; [apply hptr_ext|apply hsize_ext]; intros y Hy; apply M4; lia. Qed.

Lemma rel_right x : x ∈ starts (lo + 16 * (total L + s)) R → hptr m' x = hptr m x ∧ hsize m' x = hsize m x.
Proof.
  destruct rel_parts as (P1 & P2 & P3 & _). intros Hx. apply starts_range in Hx; [|done].
  pose proof (final_range L P1). pose proof (total_pos _ P1). apply rel_apart; unfold apart; lia.
Qed.

Lemma rel_left x : x ∈ base :: starts lo L → x ≠ p → hptr m' x = hptr m x ∧ hsize m' x = hsize m x.
Proof.
  destruct rel_parts as (P1 & P2 & P3 & _). intros Hx Hne. pose proof (total_pos _ P1).
  apply rel_apart; [by apply final_apart|]. unfold apart.
  apply elem_of_cons in Hx as [->|Hx]; [lia|]. apply starts_range in Hx; [lia|done].
Qed.

Lemma rel_links_left : links m' base (frees lo L) (hptr m' p).
Proof.
  destruct rel_parts as (P1 & P2 & P3 & _ & _ & Hl & _). apply links_cut in Hl as [Hl _].
  eapply links_redirect; [|exact Hl| |done]; [by apply sorted_NoDup, nodes_sorted|].
  intros x Hx Hne. apply rel_left; [|done]. apply elem_of_cons in Hx as [->|Hx]; [by left|right; by apply frees_starts].
Qed.

Lemma rel_links_right B' : (∀ x, x ∈ B' → x ∈ B) → links_from m B' base → links_from m' B' base.
Proof. intros Hs. apply links_from_frame. intros x Hx. apply rel_right, frees_starts, Hs, Hx. Qed.

Lemma rel_base : hsize m' base = 0.
Proof.
  destruct (decide (base = p)) as [He|Hne].
  - destruct rel_parts as (P1 & _ & _ & S1 & _). pose proof (left_test m L P1 (rd_base _ _ Hrd) S1) as Ht.
    rewrite <- He in Ht. rewrite (rd_base _ _ Hrd) in Ht. pose proof (total_pos _ P1).
    replace (base + 16 * 0 =? bp) with false in Ht by (symmetry; apply Z.eqb_neq; lia).
    rewrite He, M2, <- Ht, <- He. apply Hrd.
  - destruct (rel_left base ltac:(left) Hne) as [_ ->]. apply Hrd.
Qed.

Lemma rel_size_left : left = false → sizes m' lo L.
Proof.
  intros Hlf. destruct rel_parts as (_ & _ & _ & S1 & _). revert S1. apply sizes_frame. intros x Hx.
  destruct (decide (x = p)) as [->|Hne]; [by rewrite M2, Hlf|]. apply rel_left; [by right|done].
Qed.

Lemma rel_lives X z Y : lives lo (X ++ (true, z) :: Y) = lives lo L ++ lives (lo + 16 * (total L + s)) R →
  same_lives (X ++ (true, z) :: Y) m m'.
Proof.
  intros He a t x Hin Hx. rewrite He in Hin. destruct rel_parts as (P1 & P2 & P3 & _). pose proof (final_range L P1).
  pose proof (total_pos _ P1). apply elem_of_app in Hin as [Hin|Hin].
  - pose proof Hin as (_ & _ & Hr)%lives_range; [|done]. apply M4; [|lia]. apply (lives_free_apart L a t); try done. apply final_elem.
  - apply lives_range in Hin; [|done]. apply M4; lia.
Qed.

Definition released (h' : heap) : Prop := ∃ X z Y,
  ready h' (X ++ (true, z) :: Y) ∧ h_sz h' = h_sz h ∧ s ≤ z ∧
  lives lo (X ++ (true, z) :: Y) = lives lo L ++ lives (lo + 16 * (total L + s)) R ∧
  (length (X ++ (true, z) :: Y) ≤ length (L ++ (false, s) :: R))%nat.

Lemma rel_sz : h_sz h = lo + 16 * (total L + s + total R) ∧ h_sz h ≤ 2 ^ 32.
Proof. destruct Hrd as [_ R2 R3 _]. rewrite total_app in R2. simpl in R2. lia. Qed.

Lemma rel_sizes_right Y a : (∀ x, x ∈ starts a Y → x ∈ starts (lo + 16 * (total L + s)) R) → sizes m a Y → sizes m' a Y.
Proof. intros Hx. apply sizes_frame. intros. by apply rel_right, Hx. Qed.

Lemma release_none : left = false → right = false → released (mkHeap m' p (h_sz h)).
Proof.
  intros El Er. destruct rel_parts as (P1 & P2 & P3 & S1 & S2 & Hl & C1 & C2). destruct rel_sz as [Z1 Z2].
  pose proof M1 as N1. rewrite El in N1. destruct (M3 El) as [M31 M32]. rewrite Er in M31, M32. exists L, s, R. split_and!; [|done|lia| |].
  - apply ready_join; try done; [by apply rel_size_left|by apply rel_sizes_right|apply rel_base| |].
    + apply links_cut. apply links_cut in Hl as [_ Hl]. split; [simpl; rewrite <- N1; apply rel_links_left|].
      apply links_from_cons. split; [done|]. by apply rel_links_right.
    + rewrite app_comm_cons. apply elem_of_app. left. apply final_elem.
  - rewrite lives_app. simpl. do 2 f_equal. lia.
  - rewrite !length_app. done.
Qed.

Lemma release_right t R' : left = false → R = (true, t) :: R' → released (mkHeap m' p (h_sz h)).
Proof.
  intros El HR. destruct rel_parts as (P1 & P2 & P3 & S1 & S2 & Hl & C1 & C2). destruct rel_sz as [Z1 Z2].
  pose proof (rel_links_right (frees (lo + 16 * (total L + s) + 16 * t) R')) as Hlr.
  pose proof (rel_sizes_right R' (lo + 16 * (total L + s) + 16 * t)) as Hsr.
  pose proof M1 as N1. rewrite El in N1. destruct (M3 El) as [M31 M32]. rewrite HR in M31, M32, P3, S2, Hl, C2, Z1, Hlr, Hsr. simpl in *.
  apply positive_cons in P3 as [Pt P3]. destruct S2 as [S2 S3]. destruct C2 as [C2 C3]. rewrite S2 in M32.
  exists L, (s + t), R'. split_and!; [|done|lia| |].
  - apply ready_join; try done; [lia|lia|by apply rel_size_left| |apply rel_base| | |by apply C2].
    + replace (lo + 16 * (total L + (s + t))) with (lo + 16 * (total L + s) + 16 * t) by lia. apply Hsr; [by right|done].
    + apply links_cut. apply links_cut in Hl as [_ Hl]. split; [simpl; rewrite <- N1; apply rel_links_left|].
      apply links_from_cons in Hl as [Hl1 Hl2]. replace (lo + 16 * (total L + (s + t))) with (lo + 16 * (total L + s) + 16 * t) by lia.
      apply links_from_cons. split; [by rewrite M31|]. apply Hlr; [by right|done].
    + rewrite app_comm_cons. apply elem_of_app. left. apply final_elem.
  - rewrite lives_app, HR. simpl. do 2 f_equal. lia.
  - rewrite !length_app, HR. simpl. lia.
Qed.

(** With a free block before it. *)
Lemma rel_snoc L' t : L = L' ++ [(true, t)] →
  p = lo + 16 * total L' ∧ hsize m p = t ∧ total L = total L' + t ∧ frees lo L = frees lo L' ++ [p] ∧
  positive L' ∧ 0 < t ∧ coalesced L' ∧ ends_free L' = false ∧ lives lo L = lives lo L' ∧ sizes m' lo L'.
Proof.
  intros HL. destruct rel_parts as (P1 & P2 & P3 & S1 & S2 & Hl & C1 & C2).
  assert (Hp : p = lo + 16 * total L') by (rewrite HL, frees_app; apply final_snoc).
  rewrite HL in P1, S1, C1. pose proof S1 as Sz%sizes_at. apply sizes_app in S1 as [S1 _].
  apply positive_app in P1 as [P1 [Pt _]%positive_cons]. apply coalesced_app in C1 as (C1 & _ & C3).
  split_and!; try done.
  - by rewrite Hp.
  - rewrite HL, total_app. simpl. lia.
  - rewrite Hp. rewrite HL, frees_app. done.
  - destruct (ends_free L'); [by discriminate C3|done].
  - rewrite HL, lives_app. simpl. apply app_nil_r.
  - revert S1. apply sizes_frame. intros x Hx. pose proof (starts_range _ _ _ P1 Hx) as Hr. apply rel_left; [|lia].
    right. rewrite HL. clear -Hx. revert Hx. generalize lo. induction L' as [|[b u] L' IH]; intros a; simpl; [by intros ?%not_elem_of_nil|].
    intros [->|Hx]%elem_of_cons; [by left|right]. by apply IH.
Qed.

Lemma release_left L' t : L = L' ++ [(true, t)] → right = false → released (mkHeap m' p (h_sz h)).
Proof.
  intros HL Er. destruct rel_parts as (P1 & P2 & P3 & S1 & S2 & Hl & C1 & C2). destruct rel_sz as [Z1 Z2].
  destruct (rel_snoc L' t HL) as (Hp & Hsz & Ht & Hf & P1' & Pt & C1' & C3 & Hlv & S1').
  assert (El : left = true) by (rewrite HL; apply ends_free_snoc).
  pose proof M1 as N1. pose proof M2 as N2. rewrite El, Er in N1, N2. rewrite Hsz in N2.
  exists L', (t + s), R. split_and!; [|done|lia| |].
  - apply ready_join; try done; [lia|lia|by rewrite <- Hp| |apply rel_base| |].
    + replace (total L' + (t + s)) with (total L + s) by lia. by apply rel_sizes_right.
    + rewrite cons_middle, app_assoc, <- Hp, <- Hf. replace (total L' + (t + s)) with (total L + s) by lia.
      apply links_cut. apply links_cut in Hl as [_ Hl]. split; [rewrite <- N1; apply rel_links_left|by apply rel_links_right].
    + rewrite <- Hp, <- Hf. apply final_elem.
  - rewrite lives_app, Hlv. simpl. do 2 f_equal. lia.
  - rewrite HL, !length_app. simpl. lia.
Qed.

Lemma release_both L' t u R' : L = L' ++ [(true, t)] → R = (true, u) :: R' → released (mkHeap m' p (h_sz h)).
Proof.
  intros HL HR. destruct rel_parts as (P1 & P2 & P3 & S1 & S2 & Hl & C1 & C2). destruct rel_sz as [Z1 Z2].
  destruct (rel_snoc L' t HL) as (Hp & Hsz & Ht & Hf & P1' & Pt & C1' & C3 & Hlv & S1').
  assert (El : left = true) by (rewrite HL; apply ends_free_snoc).
  pose proof (rel_links_right (frees (lo + 16 * (total L + s) + 16 * u) R')) as Hlr.
  pose proof (rel_sizes_right R' (lo + 16 * (total L + s) + 16 * u)) as Hsr.
  pose proof M1 as N1. pose proof M2 as N2. rewrite El in N1, N2. rewrite HR in N1, N2, P3, S2, Hl, C2, Z1, Hlr, Hsr.
  cbn [starts_free frees hd total snd sizes coalesced starts] in N1, N2, P3, S2, Hl, C2, Z1, Hlr, Hsr.
  apply positive_cons in P3 as [Pu P3]. destruct S2 as [S2 S3]. destruct C2 as [C2 C4]. rewrite Hsz, S2 in N2.
  exists L', (t + (s + u)), R'. split_and!; [|done|lia| |].
  - apply ready_join; try done; [lia|lia|by rewrite <- Hp| |apply rel_base| | |by apply C2].
    + replace (lo + 16 * (total L' + (t + (s + u)))) with (lo + 16 * (total L + s) + 16 * u) by lia. apply Hsr; [by right|done].
    + rewrite cons_middle, app_assoc, <- Hp, <- Hf.
      replace (lo + 16 * (total L' + (t + (s + u)))) with (lo + 16 * (total L + s) + 16 * u) by lia.
      apply links_cut in Hl as [_ [Hl1 Hl2]%links_from_cons].
      apply links_cut. split; [rewrite <- Hl1, <- N1; apply rel_links_left|apply Hlr; [by right|done]].
    + rewrite <- Hp, <- Hf. apply final_elem.
  - rewrite lives_app, Hlv, HR. simpl. do 2 f_equal. lia.
  - rewrite HL, HR, !length_app. simpl. lia.
Qed.

Lemma release_ok : released (mkHeap m' p (h_sz h)).
Proof.
  destruct (decide (left = true)) as [El|El%not_true_is_false], (decide (right = true)) as [Er|Er%not_true_is_false].
  - apply ends_free_true in El as (L' & t & HL). apply starts_free_true in Er as (u & R' & HR). by eapply release_both.
  - apply ends_free_true in El as (L' & t & HL). by eapply release_left.
  - apply starts_free_true in Er as (u & R' & HR). by eapply release_right.
  - by apply release_none.
Qed.
End Release.

Lemma free_spec h L s R : ready h (L ++ (false, s) :: R) →
  wp (free (lo + 16 * total L + 16))
     (λ _ h', ∃ X z Y, ready h' (X ++ (true, z) :: Y) ∧ h_sz h' = h_sz h ∧ s ≤ z ∧
       lives lo (X ++ (true, z) :: Y) = lives lo L ++ lives (lo + 16 * (total L + s)) R ∧
       (length (X ++ (true, z) :: Y) ≤ length (L ++ (false, s) :: R))%nat ∧
       same_lives (X ++ (true, z) :: Y) (h_mem h) (h_mem h')) h.
Proof.
  intros Hrd. destruct (rel_parts h L s R Hrd) as (P1 & P2 & P3 & S1 & S2 & Hl & C1 & C2).
  destruct (rel_sz h L s R Hrd) as [Z1 Z2]. pose proof (final_range L P1) as Hfr. pose proof (total_pos _ P1). pose proof (total_pos _ P3).
  set (bp := lo + 16 * total L). set (p := final base (frees lo L)). set (B := frees (lo + 16 * (total L + s)) R) in *.
  assert (Hfs : frees lo (L ++ (false, s) :: R) = frees lo L ++ B) by (rewrite frees_app; simpl; unfold B; do 2 f_equal; lia).
  assert (Hok : ∀ x, x ∈ base :: frees lo L ++ B → ok_at h x).
  { intros x Hx. apply (node_ok h (L ++ (false, s) :: R)); [apply Hrd|apply Hrd|by rewrite Hfs]. }
  assert (HB : ∀ x, x ∈ B → bp + 16 * s ≤ x ∧ x + 16 ≤ h_sz h).
  { intros x Hx. apply frees_range in Hx; [unfold bp; lia|done]. }
  assert (Hp : p ∈ base :: frees lo L) by apply final_elem.
  assert (Hn : hptr (h_mem h) p = hd base B).
  { destruct (final_split base (frees lo L)) as [l' Hl']. eapply (links_next _ _ _ l' _ B); [exact Hl|].
    by rewrite app_comm_cons, Hl', <- app_assoc. }
  assert (Hs : hsize (h_mem h) bp = s) by (eapply sizes_at, Hrd).
  assert (Hright : (bp + 16 * s =? hd base B) = starts_free R).
  { unfold bp, B. rewrite <- (right_test R (lo + 16 * (total L + s))) by (done || lia). f_equal. lia. }
  assert (Hleft : (p + 16 * hsize (h_mem h) p =? bp) = ends_free L) by (apply left_test; [done|apply Hrd|done]).
  (* the sizes and the pointers that are written *)
  assert (Hbn : ∀ x, x ∈ base :: B → 0 ≤ x < 2 ^ 64) by (intros x [->|Hx%HB]%elem_of_cons; unfold bp in *; lia).
  assert (Hrt : starts_free R = true → ∃ u R', R = (true, u) :: R' ∧ hd base B = bp + 16 * s ∧ hsize (h_mem h) (hd base B) = u ∧
    0 < u ∧ bp + 16 * (s + u) ≤ h_sz h ∧ hd base B ∈ B ∧ hptr (h_mem h) (hd base B) ∈ base :: B).
  { intros (u & R' & HR)%starts_free_true. exists u, R'. subst R. apply positive_cons in P3 as [Pu P3]. destruct S2 as [S2 _].
    apply total_pos in P3. apply links_cut in Hl as [_ Hl]. unfold B in *. cbn [frees hd total snd] in *.
    apply links_from_cons in Hl as [Hl _]. rewrite Hl. split_and!; try done; try (unfold bp; lia); [left|].
    destruct (frees _ R'); simpl; [left|right; right; left]. }
  assert (Hlt : ends_free L = true → ∃ t, hsize (h_mem h) p = t ∧ 0 < t ∧ lo ≤ p ∧ p + 16 * t = bp).
  { intros He. rewrite He in Hleft. apply Z.eqb_eq in Hleft. exists (hsize (h_mem h) p). apply ends_free_true in He as (L' & t & HL).
    assert (Hpt : p = lo + 16 * total L') by (unfold p; rewrite HL, frees_app; apply final_snoc). subst L.
    apply positive_app in P1 as [P1 _]. apply total_pos in P1. split_and!; try done; [|lia]. unfold bp in Hleft. lia. }
  apply (free_run h p bp); fold bp; rewrite ?Hn, ?Hs, ?Hright, ?Hleft.
  - apply (free_scan_spec h bp (frees lo L) B); try done.
    + rewrite <- Hfs. by apply nodes_sorted, Hrd.
    + intros x [->|Hx]%elem_of_cons; [unfold bp; lia|]. apply frees_range in Hx; [unfold bp; lia|done].
    + intros x Hx%HB. lia.
    + rewrite <- Hfs. apply Hrd.
    + rewrite <- Hfs. pose proof (length_frees lo (L ++ (false, s) :: R)) as H1. pose proof (length_total _ (rd_pos _ _ Hrd)) as H2.
      unfold list_fuel, sizeof_Header. rewrite (rd_sz _ _ Hrd).
      replace ((lo + 16 * total (L ++ (false, s) :: R) - lo) / 16) with (total (L ++ (false, s) :: R)) by zdm. lia.
  - apply Hok. rewrite app_comm_cons. apply elem_of_app. by left.
  - right. unfold bp. lia.
  - left. unfold p, bp. lia.
  - unfold bp. lia.
  - intros Hr. destruct (Hrt Hr) as (u & R' & _ & H1 & H2 & H3 & H4 & H5 & _). split_and!.
    + apply Hok. right. apply elem_of_app. by right.
    + right. lia.
    + right. unfold p, bp in *. lia.
  - destruct (starts_free R) eqn:Er; apply Hbn.
    + by destruct (Hrt eq_refl) as (u & R' & _ & _ & _ & _ & _ & _ & ?).
    + destruct B; simpl; [left|right; left].
  - destruct (starts_free R) eqn:Er; [|unfold bp in *; lia]. destruct (Hrt eq_refl) as (u & R' & _ & H1 & -> & H3 & H4 & _).
    unfold bp in *. lia.
  - intros He. destruct (Hlt He) as (t & -> & Ht & Ht1 & Ht2). destruct (starts_free R) eqn:Er; [|unfold bp in *; lia].
    destruct (Hrt eq_refl) as (u & R' & _ & H1 & -> & H3 & H4 & _). unfold bp in *. lia.
  - intros m' M1 M2 M3 M4. destruct (release_ok h L s R m' Hrd M1 M2 M3 M4) as (X & z & Y & Hx1 & Hx2 & Hx3 & Hx4 & Hx5).
    exists X, z, Y. split_and!; try done. by apply (rel_lives h L s R m' Hrd).
Qed.

(** ** [morecore] *)

Definition core (n : Z) : Z := if n <? 4096 then 4096 else n.

Lemma same_lives_eq bs bs' m m' : lives lo bs = lives lo bs' → same_lives bs m m' → same_lives bs' m m'.
Proof. unfold same_lives. intros ->. done. Qed.

Lemma same_lives_trans bs m1 m2 m3 : same_lives bs m1 m2 → same_lives bs m2 m3 → same_lives bs m1 m3.
Proof. intros H1 H2 a t x Hin Hx. rewrite (H2 a t x), (H1 a t x); done. Qed.

(** Memory past the last block. *)
Lemma ready_extend h bs nu : ready h bs → 0 < nu < 2 ^ 32 → h_sz h + 16 * nu ≤ 2 ^ 32 →
  ready (mkHeap (store32 (h_mem h) (h_sz h + 8) nu) (h_freep h) (h_sz h + 16 * nu)) (bs ++ [(false, nu)]).
Proof.
  intros [R1 R2 R3 R4 R5 R6 R7 R8] Hnu Hmx. pose proof (total_pos _ R1).
  assert (Hfr : frees lo (bs ++ [(false, nu)]) = frees lo bs) by (rewrite frees_app; apply app_nil_r).
  assert (Hap : ∀ x, x + 16 ≤ h_sz h → apart (h_sz h) x) by (unfold apart; lia).
  split; cbn [h_mem h_sz h_freep]; rewrite ?Hfr.
  - apply positive_app. split; [done|]. apply positive_cons. split; [lia|constructor].
  - rewrite total_app. simpl. lia.
  - done.
  - apply sizes_app. rewrite <- R2. split; [|simpl; by header]. revert R4. apply sizes_frame.
    intros x Hx. apply starts_range in Hx; [|done]. apply hsize_set_size_ne, Hap. lia.
  - rewrite hsize_set_size_ne; [done|]. apply Hap. lia.
  - revert R6. apply links_frame. intros x Hx. apply hptr_set_size_ne, Hap.
    apply elem_of_cons in Hx as [->|Hx]; [lia|]. apply frees_range in Hx; [lia|done].
  - done.
  - apply coalesced_app. split_and!; [done|simpl; done|done].
Qed.

Lemma morecore_spec h bs n : ready h bs → 0 < n < 2 ^ 27 →
  wp (morecore base lo grow n)
    (λ r h', (r = 0 ∧ h' = h ∧ grow (h_sz h) (16 * core n) = false) ∨
       (r = h_freep h' ∧ r ≠ 0 ∧ ∃ bs', ready h' bs' ∧ (∃ z, (true, z) ∈ bs' ∧ n ≤ z) ∧ lives lo bs' = lives lo bs ∧
          (length bs' ≤ S (length bs))%nat ∧ same_lives bs (h_mem h) (h_mem h'))) h.
Proof.
  intros Hrd Hn. pose proof Hrd as [R1 R2 R3 R4 R5 R6 R7 R8]. unfold morecore. fold (core n). change sizeof_Header with 16.
  assert (Hc : n ≤ core n ∧ 0 < core n < 2 ^ 27) by (unfold core; case_test; lia). rewrite i32_id by lia.
  rewrite (Z.mul_comm (core n) 16). apply wp_step. unfold sbrk. apply wp_step. apply wp_intro with h h; [done|]. cbv zeta.
  destruct (0 <? 16 * core n) eqn:E0; [|apply Z.ltb_ge in E0; lia]. destruct (grow (h_sz h) (16 * core n)) eqn:Eg.
  2: { apply wp_ret, wp_ret. left. done. }
  apply wp_step. apply wp_intro with tt (set_hsz (h_sz h + 16 * core n) h); [done|]. apply wp_ret. pose proof (Hgrow _ _ Eg) as Hmx.
  apply wp_step, wp_set_size; [right; cbn [h_sz set_hsz]; pose proof (total_pos _ R1); lia|]. cbn [set_hsz set_hmem h_mem h_sz h_freep].
  pose proof (ready_extend h bs (core n) Hrd ltac:(lia) Hmx) as Hx. pose proof (free_spec _ bs (core n) [] Hx) as Hf.
  rewrite R2. rewrite R2 in Hf. apply wp_step. eapply wp_mono; [exact Hf|]. cbn [h_mem h_sz h_freep].
  intros _ h' (X & z & Y & Hr & Hsz & Hz & Hlv & Hlen & Hsl). right. split; [done|]. split.
  { pose proof (rd_freep _ _ Hr) as [->|Hfp]%elem_of_cons; [lia|]. apply frees_range in Hfp; [lia|apply Hr]. }
  simpl in Hlv. rewrite app_nil_r in Hlv. exists (X ++ (true, z) :: Y). split_and!; try done.
  - exists z. split; [apply elem_of_app; right; left|lia].
  - rewrite (length_app bs) in Hlen. simpl in Hlen. lia.
  - eapply same_lives_trans; [|eapply same_lives_eq; [exact Hlv|exact Hsl]].
    intros a t x Hin Hxr. apply lives_range in Hin; [|done]. apply store32_out. lia.
Qed.

(** ** [malloc] *)

Lemma split_unique {A} (x : A) l1 l2 l1' l2' : NoDup (l1 ++ x :: l2) → l1 ++ x :: l2 = l1' ++ x :: l2' → l1 = l1' ∧ l2 = l2'.
Proof.
  revert l1'. induction l1 as [|y l1 IH]; intros [|y' l1'] Hnd He; simpl in *.
  - by injection He.
  - injection He as <- ->. apply NoDup_cons in Hnd as [Hx _]. exfalso. apply Hx, elem_of_app. right. left.
  - injection He as -> <-. apply NoDup_cons in Hnd as [Hx _]. exfalso. apply Hx, elem_of_app. right. left.
  - injection He as <- He. apply NoDup_cons in Hnd as [_ Hnd]. by destruct (IH _ Hnd He) as [-> ->].
Qed.

(** The node whose pointer leads to the free block after [L]. *)
Lemma prev_node h L t R prevp : ready h (L ++ (true, t) :: R) →
  prevp ∈ base :: frees lo (L ++ (true, t) :: R) → hptr (h_mem h) prevp = lo + 16 * total L → prevp = final base (frees lo L).
Proof.
  intros [R1 R2 R3 R4 R5 R6 R7 R8] Hin Hp. pose proof (sorted_NoDup _ (nodes_sorted _ R1)) as Hnd.
  apply list_elem_of_split in Hin as (l1 & l2 & Hsp). pose proof (links_next _ _ _ _ _ _ R6 Hsp) as Hn. rewrite Hp in Hn.
  apply positive_app in R1 as [P1 _]. apply total_pos in P1.
  destruct l2 as [|y l2]; simpl in Hn; [lia|]. subst y. rewrite frees_app in Hsp, Hnd. cbn [frees] in Hsp, Hnd.
  rewrite (cons_middle prevp), (app_assoc l1) in Hsp. rewrite app_comm_cons in Hsp, Hnd. apply split_unique in Hsp as [Hl _]; [|done].
  destruct l1 as [|y l1]; simpl in Hl; injection Hl; [by intros -> ->|]. intros -> ->. by rewrite final_snoc.
Qed.

Definition taken (h : heap) (bs : list blk) (n r : Z) (h' : heap) : Prop :=
  ∃ X Y, r = lo + 16 * total X + 16 ∧ ready h' (X ++ (false, n) :: Y) ∧ h_sz h' = h_sz h ∧
    lives lo X ++ lives (lo + 16 * (total X + n)) Y = lives lo bs ∧ same_lives bs (h_mem h) (h_mem h').

(** The block fits exactly: it leaves the list. *)
Lemma take_exact h L n R : ready h (L ++ (true, n) :: R) →
  taken h (L ++ (true, n) :: R) n (lo + 16 * total L + 16)
    (mkHeap (store64 (h_mem h) (final base (frees lo L)) (hptr (h_mem h) (lo + 16 * total L))) (final base (frees lo L)) (h_sz h)).
Proof.
  intros Hrd. pose proof Hrd as [R1 R2 R3 R4 R5 R6 R7 R8]. pose proof R1 as [P1 [Pn P2]%positive_cons]%positive_app.
  set (p := final base (frees lo L)). set (x := lo + 16 * total L). pose proof (final_range L P1) as [Hp1 Hp2]. fold p x in Hp1, Hp2.
  assert (Hfr : frees lo (L ++ (true, n) :: R) = frees lo L ++ x :: frees (x + 16 * n) R) by (rewrite frees_app; done).
  assert (Hfr' : frees lo (L ++ (false, n) :: R) = frees lo L ++ frees (x + 16 * n) R) by (rewrite frees_app; done).
  rewrite Hfr in R6, R7. apply links_cut in R6 as [K1 K2]. apply links_from_cons in K2 as [K2 K3].
  pose proof (nodes_sorted _ P1) as Hs. pose proof (total_pos _ P1). pose proof (total_pos _ P2).
  assert (Hnx : hptr (h_mem h) x = base ∨ hptr (h_mem h) x ∈ frees (x + 16 * n) R)
    by (rewrite K2; destruct (frees (x + 16 * n) R); simpl; [by left|right; left]).
  assert (Hr : 0 ≤ hptr (h_mem h) x < 2 ^ 64).
  { rewrite total_app in R2. simpl in R2. destruct Hnx as [->|Hx]; [lia|]. assert (Hxe : x = lo + 16 * total L) by done. apply frees_range in Hx; [lia|done]. }
  assert (Hap : ∀ y, y ∈ starts (x + 16 * n) R → apart p y) by (intros y Hy%starts_range; [unfold apart; lia|done]).
  assert (Hfa : ∀ y, y ∈ base :: starts lo L → y ≠ p → apart p y).
  { intros y Hy Hne. destruct (final_apart L y P1 Hy Hne); [by right|by left]. }
  exists L, R. split_and!; [done| |done| |].
  - split; cbn [h_mem h_sz h_freep]; rewrite ?Hfr'.
    + apply positive_app. split; [done|]. by apply positive_cons.
    + rewrite R2, !total_app. done.
    + done.
    + apply sizes_app in R4 as [S1 [S2 S3]]. apply sizes_app. split; [|split].
      * revert S1. apply sizes_frame. intros y Hy. destruct (decide (y = p)) as [->|Hne]; [apply hsize_set_ptr|].
        apply hsize_set_ptr_ne, Hfa; [by right|done].
      * rewrite hsize_set_ptr_ne; [done|]. left. lia.
      * revert S3. apply sizes_frame. intros y Hy. by apply hsize_set_ptr_ne, Hap.
    + destruct (decide (base = p)) as [He|Hne]; [rewrite <- He; by rewrite hsize_set_ptr|]. rewrite hsize_set_ptr_ne; [done|]. apply Hfa; [by left|done].
    + apply links_cut. split.
      * eapply links_redirect; [by apply sorted_NoDup|exact K1| |]; fold p; [|header; by rewrite K2].
        intros y Hy Hne. apply hptr_set_ptr_ne, Hfa; [|done].
        apply elem_of_cons in Hy as [->|Hy]; [by left|right; by apply frees_starts].
      * revert K3. apply links_from_frame. intros y Hy. by apply hptr_set_ptr_ne, Hap, frees_starts.
    + rewrite app_comm_cons. apply elem_of_app. left. apply final_elem.
    + apply coalesced_app in R8 as (C1 & [C2 C3] & C4). apply coalesced_app. split_and!; [done|done|done].
  - rewrite lives_app. simpl. do 2 f_equal. lia.
  - intros a t y Hin Hy. apply store64_out. intros Hy'. apply (lives_free_apart (L ++ (true, n) :: R) a t p y); try done; [|lia].
    rewrite Hfr, app_comm_cons. apply elem_of_app. left. apply final_elem.
Qed.

(** The block is larger: its tail is given away. *)
Lemma take_tail h L t n R : ready h (L ++ (true, t) :: R) → 0 < n < t →
  taken h (L ++ (true, t) :: R) n (lo + 16 * total L + 16 * (t - n) + 16)
    (mkHeap (store32 (store32 (h_mem h) (lo + 16 * total L + 8) (t - n)) (lo + 16 * total L + 16 * (t - n) + 8) n)
       (final base (frees lo L)) (h_sz h)).
Proof.
  intros Hrd Hn. pose proof Hrd as [R1 R2 R3 R4 R5 R6 R7 R8]. pose proof R1 as [P1 [Pn P2]%positive_cons]%positive_app.
  pose proof (total_pos _ P1). pose proof (total_pos _ P2). assert (Hsz : h_sz h = lo + 16 * (total L + (t + total R))) by (rewrite R2, total_app; done).
  remember (lo + 16 * total L) as x eqn:Hx. remember (x + 16 * (t - n)) as y eqn:Hy.
  assert (Hfr : frees lo (L ++ (true, t) :: R) = frees lo L ++ x :: frees (x + 16 * t) R) by (rewrite frees_app, Hx; done).
  assert (Hfr' : frees lo (L ++ (true, t - n) :: (false, n) :: R) = frees lo L ++ x :: frees (x + 16 * t) R).
  { rewrite frees_app, <- Hx. simpl. do 3 f_equal. lia. }
  set (m' := store32 (store32 (h_mem h) (x + 8) (t - n)) (y + 8) n).
  assert (Hout : ∀ z, ¬ (x ≤ z < x + 16 * t) → m' z = h_mem h z) by (intros z Hz; unfold m'; rewrite !store32_out by lia; done).
  assert (Hap : ∀ z, z + 16 ≤ x ∨ x + 16 * t ≤ z → hsize m' z = hsize (h_mem h) z) by (intros z Hz; apply hsize_ext; intros; apply Hout; lia).
  exists (L ++ [(true, t - n)]), R. split_and!.
  - rewrite total_app. simpl. lia.
  - rewrite <- app_assoc. cbn [app]. split; cbn [h_mem h_sz h_freep]; rewrite ?Hfr'.
    + apply positive_app. split; [done|]. rewrite !positive_cons. split_and!; [lia|lia|done].
    + rewrite Hsz, total_app. simpl. lia.
    + done.
    + apply sizes_app in R4 as [S1 [S2 S3]]. apply sizes_app. rewrite <- Hx in *. split; [|simpl; split_and!].
      * revert S1. apply sizes_frame. intros z Hz. apply starts_range in Hz; [|done]. apply Hap. lia.
      * unfold m'. rewrite hsize_set_size_ne by (unfold apart; lia). apply hsize_set_size. lia.
      * rewrite <- Hy. apply hsize_set_size. lia.
      * replace (x + 16 * (t - n) + 16 * n) with (x + 16 * t) by lia. revert S3. apply sizes_frame.
        intros z Hz. apply starts_range in Hz; [|done]. apply Hap. lia.
    + rewrite Hap; [done|lia].
    + rewrite Hfr in R6. revert R6. apply links_frame. intros z Hz. rewrite app_comm_cons in Hz.
      apply elem_of_app in Hz as [Hz|[->|Hz]%elem_of_cons].
      * apply hptr_ext. intros. apply Hout. apply elem_of_cons in Hz as [->|Hz]; [lia|]. apply frees_range in Hz; [lia|done].
      * unfold m'. rewrite hptr_set_size_ne by (unfold apart; lia). apply hptr_set_size.
      * apply hptr_ext. intros. apply Hout. apply frees_range in Hz; [lia|done].
    + rewrite app_comm_cons. apply elem_of_app. left. apply final_elem.
    + apply coalesced_app in R8 as (C1 & [C2 C3] & C4). apply coalesced_app. split_and!; [done|simpl; done|done].
  - done.
  - rewrite lives_app, lives_app, total_app, <- Hx. simpl. rewrite app_nil_r. do 2 f_equal. lia.
  - intros a u z Hin Hz. apply Hout. rewrite lives_app in Hin. simpl in Hin.
    apply elem_of_app in Hin as [Hin|Hin]; apply lives_range in Hin; try done; lia.
Qed.

Lemma take_units_spec h L t n R prevp (Q : Z → heap → Prop) : ready h (L ++ (true, t) :: R) → 0 < n ≤ t →
  prevp ∈ base :: frees lo (L ++ (true, t) :: R) → hptr (h_mem h) prevp = lo + 16 * total L →
  (∀ r h', taken h (L ++ (true, t) :: R) n r h' → Q r h') → wp (take_units base lo prevp (lo + 16 * total L) n) Q h.
Proof.
  intros Hrd Hn Hpv Hpp HQ. rewrite (prev_node _ _ _ _ _ Hrd Hpv Hpp) in Hpv |- *. pose proof Hrd as [R1 R2 R3 R4 R5 R6 R7 R8].
  pose proof R1 as [P1 [Pn P2]%positive_cons]%positive_app. pose proof (total_pos _ P1). pose proof (total_pos _ P2).
  assert (Hsz : h_sz h = lo + 16 * (total L + (t + total R))) by (rewrite R2, total_app; done).
  assert (Hokp : ok_at h (final base (frees lo L))) by exact (node_ok _ _ _ R1 R2 Hpv).
  unfold take_units. change sizeof_Header with 16.
  apply wp_step, wp_get_size; [right; lia|]. rewrite (sizes_at _ _ _ _ _ _ R4). destruct (t =? n) eqn:E; bsimp.
  - subst t. apply wp_step. apply wp_step, wp_get_ptr; [right; lia|]. apply wp_step, wp_set_ptr; [done|]. apply wp_ret.
    apply wp_step. eapply wp_intro; [done|]. apply wp_ret. apply HQ. by apply take_exact.
  - rewrite u32_id by lia. apply wp_step. apply wp_step, wp_set_size; [right; lia|].
    apply wp_step, wp_set_size; [right; cbn; lia|]. apply wp_ret.
    apply wp_step. eapply wp_intro; [done|]. apply wp_ret. apply HQ. apply take_tail; [done|lia].
Qed.

Lemma links_step m a l q C x d D : links m a l q → l ++ [q] = C ++ x :: d :: D → hptr m x = d.
Proof.
  revert a C. induction l as [|y l IH]; intros a C Hl He; [apply (f_equal length) in He; rewrite !length_app in He; simpl in He; lia|].
  destruct Hl as [_ Hl]. destruct C as [|c C]; simpl in He; injection He as -> He; [|by eapply IH].
  destruct l as [|z l]; simpl in He; injection He as -> _; [done|by destruct Hl].
Qed.

(** One round of the search, from the block after [f]: it takes the first block
    that is large enough, or comes to [f] and asks for more memory. *)
Section Round.
Context (h : heap) (bs : list blk) (n : Z) (rot : list Z) (k0 : nat) (Q : Z → heap → Prop).
Hypothesis Hrd : ready h bs.
Hypothesis Hn : 0 < n.
Hypothesis Hlinks : links (h_mem h) (h_freep h) rot (h_freep h).
Hypothesis Hnodes : ∀ x, x ∈ rot ++ [h_freep h] ↔ x ∈ base :: frees lo bs.
Hypothesis Hnd : NoDup (rot ++ [h_freep h]).
Hypothesis Hfound : ∀ L t R prevp, bs = L ++ (true, t) :: R → n ≤ t → prevp ∈ base :: frees lo bs →
  hptr (h_mem h) prevp = lo + 16 * total L → wp (take_units base lo prevp (lo + 16 * total L) n) Q h.
Hypothesis Hmore : ∀ k, (k0 ≤ k)%nat → (∀ t, (true, t) ∈ bs → t < n) →
  wp (do p' <- morecore base lo grow n;
      if p' =? 0 then ret 0
      else match k with
           | O => nofuel
           | S k => do next <- get_ptr p'; malloc_loop base lo grow k n p' next
           end) Q h.

Lemma small_blocks : (∀ x, x ∈ base :: frees lo bs → hsize (h_mem h) x < n) → ∀ t, (true, t) ∈ bs → t < n.
Proof.
  intros Hs t (L & R & HL)%list_elem_of_split. pose proof (rd_hdr _ _ Hrd) as Hh. rewrite HL in Hh. apply sizes_at in Hh.
  rewrite <- Hh. apply Hs. right. rewrite HL, frees_app. apply elem_of_app. right. left.
Qed.

Lemma malloc_round D : ∀ C p prevp fuel, rot ++ [h_freep h] = C ++ p :: D → (∀ x, x ∈ C → hsize (h_mem h) x < n) →
  prevp ∈ base :: frees lo bs → hptr (h_mem h) prevp = p → (length D + k0 ≤ fuel)%nat →
  wp (malloc_loop base lo grow fuel n prevp p) Q h.
Proof.
  induction D as [|d D IH]; intros C p prevp fuel Hsp HC Hpv Hpp Hfuel.
  all: assert (Hp : p ∈ base :: frees lo bs) by (apply Hnodes; rewrite Hsp; apply elem_of_app; right; left).
  all: assert (Hloop : hsize (h_mem h) p < n → wp (do freep <- gets h_freep;
      do p' <- (if p =? freep then morecore base lo grow n else ret p);
      if (p =? freep) && (p' =? 0) then ret 0
      else match fuel with O => nofuel | S fuel => do next <- get_ptr p'; malloc_loop base lo grow fuel n p' next end) Q h →
    wp (malloc_loop base lo grow fuel n prevp p) Q h).
  1, 3: intros Hsm Hw; destruct fuel; cbn [malloc_loop]; (apply wp_step, wp_get_size; [by eapply node_ok; [apply Hrd|apply Hrd|]|]);
    case_test; try lia; exact Hw.
  all: destruct (decide (n ≤ hsize (h_mem h) p)) as [Hbig|Hsm].
  1, 3: assert (Hpf : p ∈ frees lo bs) by (apply elem_of_cons in Hp as [->|?]; [rewrite (rd_base _ _ Hrd) in Hbig; lia|done]);
    destruct (frees_split _ _ _ Hpf) as (L & t & R & HL & ->); pose proof (rd_hdr _ _ Hrd) as Hh; rewrite HL in Hh;
    apply sizes_at in Hh; rewrite Hh in Hbig; destruct fuel; cbn [malloc_loop];
    (apply wp_step, wp_get_size; [by eapply node_ok; [apply Hrd|apply Hrd|]|]); rewrite Hh; case_test; try lia; by apply (Hfound L t R).
  - apply Hloop; [lia|]. assert (Hf : p = h_freep h) by (apply app_inj_tail in Hsp as [_ ?]; done).
    apply wp_step. eapply wp_intro; [done|]. rewrite (proj2 (Z.eqb_eq p (h_freep h)) Hf). cbn [andb].
    apply Hmore; [simpl in Hfuel; lia|]. apply small_blocks. intros x Hx. apply Hnodes in Hx. rewrite Hsp in Hx.
    apply elem_of_app in Hx as [Hx|Hx]; [by apply HC|]. apply list_elem_of_singleton in Hx as ->. lia.
  - apply Hloop; [lia|]. assert (Hne : p ≠ h_freep h).
    { intros ->. pose proof Hnd as Hnd'. rewrite Hsp in Hnd'.
      destruct (split_unique _ C (d :: D) rot [] Hnd' (eq_sym Hsp)) as [_ He]. discriminate He. }
    apply wp_step. eapply wp_intro; [done|]. rewrite (proj2 (Z.eqb_neq p (h_freep h)) Hne). cbn [andb].
    apply wp_step, wp_ret. destruct fuel as [|fuel]; simpl in Hfuel; [lia|].
    pose proof (links_step _ _ _ _ _ _ _ _ Hlinks Hsp) as Hd.
    apply wp_step, wp_get_ptr; [by eapply node_ok; [apply Hrd|apply Hrd|]|]. rewrite Hd.
    apply (IH (C ++ [p])); try done; [by rewrite <- app_assoc| |lia].
    intros x [Hx|Hx%list_elem_of_singleton]%elem_of_app; [by apply HC|subst x; lia].
Qed.
End Round.

(** The nodes in the order in which the search meets them. *)
Lemma rotation h bs : ready h bs → ∃ rot D,
  links (h_mem h) (h_freep h) rot (h_freep h) ∧ (∀ x, x ∈ rot ++ [h_freep h] ↔ x ∈ base :: frees lo bs) ∧
  NoDup (rot ++ [h_freep h]) ∧ rot ++ [h_freep h] = hptr (h_mem h) (h_freep h) :: D ∧ length D = length (frees lo bs).
Proof.
  intros [R1 R2 R3 R4 R5 R6 R7 R8]. pose proof (sorted_NoDup _ (nodes_sorted _ R1)) as Hnd.
  apply list_elem_of_split in R7 as (l1 & l2 & Hsp). pose proof (links_rotate _ _ _ _ _ _ R6 Hsp) as Hl.
  assert (Hperm : (l2 ++ l1) ++ [h_freep h] ≡ₚ base :: frees lo bs) by (rewrite Hsp; solve_Permutation).
  assert (Hd : ∃ D, (l2 ++ l1) ++ [h_freep h] = hptr (h_mem h) (h_freep h) :: D).
  { destruct (l2 ++ l1) as [|y l]; simpl in *; [exists []; by rewrite Hl|]. destruct Hl as [-> _]. by eexists. }
  destruct Hd as [D HD]. exists (l2 ++ l1), D. split_and!; [done|intros x; by rewrite Hperm|by rewrite Hperm|done|].
  apply Permutation_length in Hperm. rewrite HD in Hperm. simpl in Hperm. lia.
Qed.

Definition malloced (h : heap) (bs : list blk) (n r : Z) (h' : heap) : Prop :=
  (r = 0 ∧ h' = h ∧ grow (h_sz h) (16 * core n) = false ∧ ∀ t, (true, t) ∈ bs → t < n) ∨
  ∃ X Y, r = lo + 16 * total X + 16 ∧ ready h' (X ++ (false, n) :: Y) ∧
    lives lo X ++ lives (lo + 16 * (total X + n)) Y = lives lo bs ∧ same_lives bs (h_mem h) (h_mem h').

Lemma malloc_loop_spec h bs n : ready h bs → 0 < n < 2 ^ 27 →
  wp (malloc_loop base lo grow (list_fuel lo h) n (h_freep h) (hptr (h_mem h) (h_freep h))) (malloced h bs n) h.
Proof.
  intros Hrd Hn. destruct (rotation h bs Hrd) as (rot & D & Hl & Hnodes & Hnd & HD & Hlen).
  pose proof (length_frees lo bs) as Hlf. pose proof (length_total _ (rd_pos _ _ Hrd)) as Hlt.
  apply (malloc_round h bs n rot (S (S (length bs)))) with (C := []) (D := D); try done; [lia| | | |apply Hrd|].
  - intros L t R prevp HL Ht Hpv Hpp. rewrite HL in Hpv, Hrd |- *. eapply take_units_spec; try done; [lia|].
    intros r h' (X & Y & H1 & H2 & H3 & H4 & H5). right. exists X, Y. done.
  - intros k Hk Hsmall. apply wp_step. eapply wp_mono; [by apply morecore_spec|].
    intros r h1 [(-> & -> & Hg)|(-> & Hr & bs1 & Hrd1 & (z & Hz & Hnz) & Hlv & Hlen1 & Hsl)]; [apply wp_ret; by left|].
    rewrite (proj2 (Z.eqb_neq _ 0) Hr). destruct k as [|k]; [lia|].
    apply wp_step, wp_get_ptr; [eapply node_ok; apply Hrd1|].
    destruct (rotation h1 bs1 Hrd1) as (rot1 & D1 & Hl1 & Hnodes1 & Hnd1 & HD1 & HlenD).
    pose proof (length_frees lo bs1) as Hlf1.
    apply (malloc_round h1 bs1 n rot1 0) with (C := []) (D := D1); try done; [lia| | | |apply Hrd1|lia].
    + intros L t R prevp HL Ht Hpv Hpp. rewrite HL in Hpv, Hrd1, Hlv. eapply take_units_spec; try done; [lia|].
      intros r h' (X & Y & H1 & H2 & H3 & H4 & H5). right. exists X, Y. split_and!; try done; [by rewrite H4|].
      eapply same_lives_trans; [done|]. by eapply same_lives_eq.
    + intros k1 _ Hs1. specialize (Hs1 z Hz). lia.
    + intros x Hx. by apply not_elem_of_nil in Hx.
  - intros x Hx. by apply not_elem_of_nil in Hx.
  - unfold list_fuel, sizeof_Header. rewrite (rd_sz _ _ Hrd). replace ((lo + 16 * total bs - lo) / 16) with (total bs) by zdm. lia.
Qed.

(** Before the first call the list does not exist. *)
Definition fresh (h : heap) : Prop := h_freep h = 0 ∧ h_sz h = lo.
Definition heap_ok (h : heap) (bs : list blk) : Prop := (fresh h ∧ bs = []) ∨ ready h bs.
Hypothesis Hmax : lo ≤ 2 ^ 32.

Lemma units_spec nbytes : 0 ≤ nbytes ≤ 2 ^ 30 → 0 < units nbytes < 2 ^ 27 ∧ nbytes ≤ 16 * (units nbytes - 1).
Proof.
  intros Hn. unfold units, sizeof_Header. assert (Hd : 0 ≤ (nbytes + 16 - 1) / 16 ≤ 2 ^ 26) by zdm. rewrite u32_id by lia.
  split; [lia|zdm].
Qed.

Lemma malloc_spec h bs nbytes : heap_ok h bs → 0 ≤ nbytes ≤ 2 ^ 30 →
  wp (malloc base lo grow nbytes)
     (λ r h', (r = 0 ∧ heap_ok h' bs ∧ grow (h_sz h) (16 * core (units nbytes)) = false ∧ same_lives bs (h_mem h) (h_mem h')) ∨
        ∃ X Y, r = lo + 16 * total X + 16 ∧ ready h' (X ++ (false, units nbytes) :: Y) ∧
          lives lo X ++ lives (lo + 16 * (total X + units nbytes)) Y = lives lo bs ∧ same_lives bs (h_mem h) (h_mem h')) h.
Proof.
  intros Hok Hn. destruct (units_spec nbytes Hn) as [Hu _]. unfold malloc. apply wp_step. eapply wp_intro; [done|].
  apply wp_step. apply wp_mono with (λ _ h', ready h' bs ∧ h_sz h' = h_sz h ∧ same_lives bs (h_mem h) (h_mem h')).
  - destruct Hok as [[[-> Hsz] ->]|Hrd].
    + cbn [Z.eqb]. apply wp_step, wp_set_ptr; [by left|]. apply wp_step. eapply wp_intro; [done|]. apply wp_set_size; [by left|].
      cbn [set_freep set_hmem h_mem h_sz h_freep]. split_and!; [|done|by intros ? ? ? ?%not_elem_of_nil].
      split; cbn [h_mem set_freep set_hmem h_sz h_freep frees links total sizes coalesced]; [apply Forall_nil_2|lia|lia|done|by header|by header|by left|done].
    + destruct (h_freep h =? 0) eqn:E; bsimp.
      * pose proof (rd_freep _ _ Hrd) as [Hf|Hf]%elem_of_cons; [lia|]. apply frees_range in Hf; [lia|apply Hrd].
      * apply wp_ret. split_and!; done.
  - intros [] h1 (Hrd & Hsz & Hsl). apply wp_step. eapply wp_intro; [done|]. cbv zeta.
    apply wp_step, wp_get_ptr; [eapply node_ok; apply Hrd|].
    eapply wp_mono; [by apply malloc_loop_spec|]. intros r h' [(-> & -> & Hg & _)|(X & Y & -> & Hr & Hlv & Hs)].
    + left. split_and!; [done|by right|by rewrite <- Hsz|done].
    + right. exists X, Y. split_and!; try done. by eapply same_lives_trans.
Qed.

(** A program writes into a block it has. *)
Lemma ready_write h L s R x v : ready h (L ++ (false, s) :: R) → lo + 16 * total L + 16 ≤ x < lo + 16 * (total L + s) →
  ready (set_hmem (upd (h_mem h) x v) h) (L ++ (false, s) :: R).
Proof.
  intros [R1 R2 R3 R4 R5 R6 R7 R8] Hx. pose proof R1 as [P1 [Ps P2]%positive_cons]%positive_app. pose proof (total_pos _ P1).
  assert (Hout : ∀ y, ¬ (y ≤ x < y + 16) → hptr (upd (h_mem h) x v) y = hptr (h_mem h) y ∧ hsize (upd (h_mem h) x v) y = hsize (h_mem h) y).
  { intros y Hy. split; [apply hptr_ext|apply hsize_ext]; intros z Hz; unfold upd; (case_test; [lia|done]). }
  assert (Hst : ∀ y, y ∈ base :: starts lo (L ++ (false, s) :: R) → ¬ (y ≤ x < y + 16)).
  { intros y [->|Hy]%elem_of_cons; [lia|]. clear -Hy Hx P1 P2. revert Hy Hx. generalize lo as a. induction L as [|[b t] L IH]; intros a Hy Hx.
    - simpl in Hy, Hx. apply elem_of_cons in Hy as [->|Hy]; [lia|]. apply starts_range in Hy; [lia|done].
    - apply positive_cons in P1 as [Pt P1]. pose proof (total_pos _ P1). simpl in Hy, Hx.
      apply elem_of_cons in Hy as [->|Hy]; [lia|]. apply (IH P1 (a + 16 * t) Hy). lia. }
  split; cbn [h_mem set_hmem h_sz h_freep]; try done.
  - revert R4. apply sizes_frame. intros y Hy. apply Hout, Hst. by right.
  - rewrite <- R5. apply Hout, Hst. by left.
  - revert R6. apply links_frame. intros y Hy. apply Hout, Hst.
    apply elem_of_cons in Hy as [->|Hy]; [by left|right; by apply frees_starts].
Qed.

(** ** A program that allocates *)

(** The program holds blocks, each with the number of bytes it asked for; it
    allocates, frees a block it holds, and writes into a block it holds. *)
Record user : Type := mkUser { u_heap : heap; u_live : list (Z * Z) }.

Inductive ustep : user → user → Prop :=
| U_malloc h live n a h' :
    0 ≤ n ≤ 2 ^ 30 → malloc base lo grow n h = Ok a h' →
    ustep (mkUser h live) (mkUser h' (if a =? 0 then live else (a, n) :: live))
| U_free h l1 a n l2 h' :
    free a h = Ok tt h' → ustep (mkUser h (l1 ++ (a, n) :: l2)) (mkUser h' (l1 ++ l2))
| U_write h live a n x v :
    (a, n) ∈ live → a ≤ x < a + n → ustep (mkUser h live) (mkUser (set_hmem (upd (h_mem h) x v) h) live).

Definition block_of (b : Z * Z) : Z * Z := (b.1 - 16, units b.2).

Record user_ok (u : user) (bs : list blk) : Prop := {
  uo_heap : heap_ok (u_heap u) bs;
  uo_live : lives lo bs ≡ₚ block_of <$> u_live u;
  uo_size : Forall (λ b, 0 ≤ b.2 ≤ 2 ^ 30) (u_live u);
}.

Lemma live_block u bs a n : user_ok u bs → (a, n) ∈ u_live u →
  ∃ L R, bs = L ++ (false, units n) :: R ∧ a = lo + 16 * total L + 16 ∧ ready (u_heap u) bs ∧ 0 ≤ n ≤ 16 * (units n - 1).
Proof.
  intros [H1 H2 H3] Hin. rewrite Forall_forall in H3. specialize (H3 _ Hin). simpl in H3.
  assert (Hl : (a - 16, units n) ∈ lives lo bs) by (rewrite H2; by apply (list_elem_of_fmap_2 block_of _ (a, n))).
  destruct H1 as [[_ ->]|Hrd]; [by apply not_elem_of_nil in Hl|]. apply lives_split in Hl as (L & R & HL & Ha).
  exists L, R. split_and!; [done|lia|done|lia|]. by apply units_spec.
Qed.

(** The bytes of the blocks a program holds, in the block list. *)
Lemma live_bytes u bs m m' b k x : user_ok u bs → same_lives bs m m' → (b, k) ∈ u_live u → b ≤ x < b + k → m' x = m x.
Proof.
  intros Hok Hs Hin Hx. destruct (live_block _ _ _ _ Hok Hin) as (L & R & HL & -> & Hrd & Hk).
  apply (Hs (lo + 16 * total L) (units k)); [|lia]. rewrite HL, lives_app. apply elem_of_app. right. left.
Qed.

Lemma malloc_step u bs n : user_ok u bs → 0 ≤ n ≤ 2 ^ 30 → ∃ a h' bs',
  malloc base lo grow n (u_heap u) = Ok a h' ∧ user_ok (mkUser h' (if a =? 0 then u_live u else (a, n) :: u_live u)) bs' ∧
  (a = 0 → grow (h_sz (u_heap u)) (16 * core (units n)) = false) ∧ same_lives bs (h_mem (u_heap u)) (h_mem h').
Proof.
  intros [H1 H2 H3] Hn. pose proof (malloc_spec _ _ n H1 Hn) as Hw. apply wp_inv in Hw as (a & h' & Hr & Hpost).
  destruct Hpost as [(-> & Hok & Hg & Hs)|(X & Y & -> & Hok & Hlv & Hs)].
  - exists 0, h', bs. split_and!; done.
  - exists (lo + 16 * total X + 16), h', (X ++ (false, units n) :: Y).
    pose proof (total_pos X (proj1 (proj1 (positive_app _ _) (rd_pos _ _ Hok)))).
    rewrite (proj2 (Z.eqb_neq (lo + 16 * total X + 16) 0)) by lia. split_and!; [done| |lia|done].
    split; [by right| |by constructor]. rewrite lives_app. cbn [u_live fmap list_fmap lives]. rewrite <- H2, <- Hlv.
    replace (lo + 16 * total X + 16 * units n) with (lo + 16 * (total X + units n)) by lia.
    unfold block_of at 1. cbn [fst snd]. replace (lo + 16 * total X + 16 - 16) with (lo + 16 * total X) by lia. solve_Permutation.
Qed.

Lemma free_step h l1 a n l2 bs : user_ok (mkUser h (l1 ++ (a, n) :: l2)) bs → ∃ h' bs',
  free a h = Ok tt h' ∧ user_ok (mkUser h' (l1 ++ l2)) bs' ∧ same_lives bs' (h_mem h) (h_mem h').
Proof.
  intros Hok. destruct (live_block _ _ a n Hok) as (L & R & -> & -> & Hrd & Hn); [apply elem_of_app; right; left|].
  pose proof (free_spec h L _ R Hrd) as Hw. apply wp_inv in Hw as ([] & h' & Hr & X & z & Y & Hrd' & Hsz & Hz & Hlv & _ & Hs).
  exists h', (X ++ (true, z) :: Y). split_and!; [done| |done]. destruct Hok as [H1 H2 H3]. cbn [u_heap u_live] in *.
  split; cbn [u_heap u_live]; [by right| |by apply Forall_app in H3 as [? [_ ?]%Forall_cons]; apply Forall_app].
  rewrite Hlv. rewrite lives_app, !fmap_app in H2. cbn [lives fmap list_fmap] in H2. unfold block_of at 2 in H2. cbn [fst snd] in H2.
  replace (lo + 16 * total L + 16 - 16) with (lo + 16 * total L) in H2 by lia. rewrite <- !Permutation_middle in H2.
  apply Permutation_cons_inv in H2. rewrite fmap_app, <- H2. by replace (lo + 16 * total L + 16 * units n) with (lo + 16 * (total L + units n)) by lia.
Qed.

Lemma ustep_ok u u' bs : user_ok u bs → ustep u u' → ∃ bs', user_ok u' bs'.
Proof.
  intros Hok Hst. destruct Hst as [h live n a h' Hn Hm|h l1 a n l2 h' Hf|h live a n x v Hin Hx].
  - destruct (malloc_step _ _ n Hok Hn) as (a' & h1 & bs' & Hm' & Hok' & _). cbn [u_heap] in Hm'. rewrite Hm in Hm'.
    injection Hm' as <- <-. by exists bs'.
  - destruct (free_step _ _ _ _ _ _ Hok) as (h1 & bs' & Hf' & Hok' & _). rewrite Hf in Hf'. injection Hf' as <-. by exists bs'.
  - destruct (live_block _ _ a n Hok Hin) as (L & R & HL & Ha & Hrd & Hn). exists bs. destruct Hok as [H1 H2 H3].
    split; [|done|done]. right. cbn [u_heap] in *. rewrite HL in Hrd |- *. apply ready_write; [done|lia].
Qed.

Lemma reach_ok m u : rtc ustep (mkUser (mkHeap m 0 lo) []) u → ∃ bs, user_ok u bs.
Proof.
  intros Hr. assert (H0 : ∃ bs, user_ok (mkUser (mkHeap m 0 lo) []) bs).
  { exists []. split; [by left|done|by apply Forall_nil_2]. }
  induction Hr as [|u1 u2 u3 Hs _ IH]; [done|]. apply IH. destruct H0 as [bs H0]. by eapply ustep_ok.
Qed.

Lemma lives_sep L a n b k : positive L → (a, n) ∈ lives lo L → (b, k) ∈ lives lo L → a ≠ b → a + 16 * n ≤ b ∨ b + 16 * k ≤ a.
Proof.
  intros Hp (L1 & R1 & -> & ->)%lives_split Hb Hne. apply positive_app in Hp as [P1 [Pn P2]%positive_cons]. rewrite lives_app in Hb.
  cbn [lives] in Hb. apply elem_of_app in Hb as [Hb|[[= -> ->]|Hb]%elem_of_cons]; [|done|]; apply lives_range in Hb; try done; lia.
Qed.

Lemma lives_NoDup a L : positive L → NoDup (lives a L).*1.
Proof.
  revert a. induction L as [|[[] s] L IH]; intros a Hp; [constructor| |]; apply positive_cons in Hp as [Hs Hp]; simpl; [by apply IH|].
  constructor; [|by apply IH]. intros ([b k] & -> & Hb)%list_elem_of_fmap. apply lives_range in Hb; [simpl in Hb; lia|done].
Qed.

Lemma user_ok_pos u bs : user_ok u bs → positive bs.
Proof. intros [[[_ ->]|Hrd] _ _]; [apply Forall_nil_2|apply Hrd]. Qed.

(** C11: in every state that a program reaches by allocating (up to 1 GB at
    once), freeing blocks it holds and writing into blocks it holds, the blocks
    it holds are aligned, lie in its heap and are pairwise disjoint.  [malloc]
    then returns, gives the null pointer only when the kernel refuses memory, and
    changes no byte of a block in use; [free] of any block in use returns and
    changes no byte of the others. *)
Theorem umalloc_safe (m : mem) (u : user) (Hu : rtc ustep (mkUser (mkHeap m 0 lo) []) u) (Ha : lo mod 16 = 0) :
  NoDup (u_live u).*1 ∧
  (∀ a n, (a, n) ∈ u_live u → a mod 16 = 0 ∧ lo + 16 ≤ a ∧ a + n ≤ h_sz (u_heap u)) ∧
  (∀ a n b k, (a, n) ∈ u_live u → (b, k) ∈ u_live u → a ≠ b → a + n ≤ b - 16 ∨ b + k ≤ a - 16) ∧
  (∀ n, 0 ≤ n ≤ 2 ^ 30 → ∃ a h', malloc base lo grow n (u_heap u) = Ok a h' ∧
     (a = 0 → ∃ sz, grow (h_sz (u_heap u)) sz = false) ∧
     ∀ b k x, (b, k) ∈ u_live u → b ≤ x < b + k → h_mem h' x = h_mem (u_heap u) x) ∧
  (∀ l1 a n l2, u_live u = l1 ++ (a, n) :: l2 → ∃ h', free a (u_heap u) = Ok tt h' ∧
     ∀ b k x, (b, k) ∈ l1 ++ l2 → b ≤ x < b + k → h_mem h' x = h_mem (u_heap u) x).
Proof.
  destruct (reach_ok m u Hu) as [bs Hok]. pose proof (user_ok_pos _ _ Hok) as Hp. split_and!.
  - pose proof (lives_NoDup lo bs Hp) as Hnd. rewrite (uo_live _ _ Hok) in Hnd. rewrite <- list_fmap_compose in Hnd.
    apply (NoDup_fmap_1 (λ a, a - 16)). by rewrite <- list_fmap_compose.
  - intros a n Hin. destruct (live_block _ _ _ _ Hok Hin) as (L & R & -> & -> & Hrd & Hn). apply positive_app in Hp as [P1 [_ P2]%positive_cons].
    apply total_pos in P1, P2. rewrite (rd_sz _ _ Hrd), total_app. cbn [total snd]. split_and!; [zdm|lia|lia].
  - intros a n b k H1 H2 Hne. destruct (live_block _ _ _ _ Hok H1) as (L1 & R1 & E1 & -> & _ & Hn).
    destruct (live_block _ _ _ _ Hok H2) as (L2 & R2 & E2 & -> & _ & Hk).
    destruct (lives_sep bs (lo + 16 * total L1) (units n) (lo + 16 * total L2) (units k)); try done; try lia.
    + rewrite E1, lives_app. apply elem_of_app. right. left.
    + rewrite E2, lives_app. apply elem_of_app. right. left.
  - intros n Hn. destruct (malloc_step _ _ n Hok Hn) as (a & h' & bs' & Hm & _ & Hg & Hs). exists a, h'. split_and!; [done|by eauto|].
    intros. by eapply live_bytes.
  - intros l1 a n l2 Hl. destruct u as [h live]. simpl in Hl. subst live. destruct (free_step _ _ _ _ _ _ Hok) as (h' & bs' & Hf & Hok' & Hs).
    exists h'. split; [done|]. intros. by eapply (live_bytes (mkUser h' (l1 ++ l2))).
Qed.

(** Freeing everything brings the heap back together.  When a program that
    has allocated holds no block, the free list has one block, which is the whole
    heap. *)
Theorem free_all_coalesces (m : mem) (u : user) (Hu : rtc ustep (mkUser (mkHeap m 0 lo) []) u)
    (Hnone : u_live u = []) (Hsome : h_sz (u_heap u) ≠ lo) :
  let m' := h_mem (u_heap u) in
  load64 m' base = lo ∧ load64 m' lo = base ∧ lo + 16 * load32 m' (lo + 8) = h_sz (u_heap u).
Proof.
  destruct (reach_ok m u Hu) as [bs Hok]. destruct Hok as [H1 H2 H3]. rewrite Hnone in H2. apply Permutation_nil_r in H2.
  destruct H1 as [[[_ ?] _]|Hrd]; [done|]. destruct Hrd as [R1 R2 R3 R4 R5 R6 R7 R8].
  destruct bs as [|[[] t] bs]; [simpl in R2; lia| |done]. destruct bs as [|[[] k] bs]; [|destruct R8 as [R8 _]; discriminate (R8 eq_refl)|done].
  destruct R4 as [R4 _]. destruct R6 as [K1 K2]. split_and!; [done|done|]. rewrite R2. simpl. unfold hsize in R4. lia.
Qed.
End Correct.

(** ** A heap at 4096 with room up to 1 MB *)

Definition demo_grow (sz n : Z) : bool := sz + n <=? 2 ^ 20.
Definition demo_heap : heap := mkHeap (λ _, 0) 0 4096.

Lemma demo_grow_max sz n : demo_grow sz n = true → sz + n ≤ 2 ^ 32.
Proof. unfold demo_grow. intros. bsimp. lia. Qed.

(** A program allocates 100 bytes and frees them. *)
Lemma demo_run :
  match malloc 32 4096 demo_grow 100 demo_heap with
  | Ok a h1 => (a =? 69520) && match free 32 4096 69520 h1 with Ok _ h2 => negb (h_sz h2 =? 4096) | _ => false end
  | _ => false
  end = true.
Proof. vm_compute. reflexivity. Qed.

Lemma demo_malloc : ∃ h1 h2, malloc 32 4096 demo_grow 100 demo_heap = Ok 69520 h1 ∧ free 32 4096 69520 h1 = Ok tt h2 ∧ h_sz h2 ≠ 4096.
Proof.
  pose proof demo_run as Hr. destruct (malloc 32 4096 demo_grow 100 demo_heap) as [a h1| | | |]; try discriminate Hr.
  apply andb_true_iff in Hr as [->%Z.eqb_eq Hr]. destruct (free 32 4096 69520 h1) as [[] h2| | | |] eqn:E; try discriminate Hr.
  exists h1, h2. split_and!; [reflexivity|exact E|]. by apply Z.eqb_neq, negb_true_iff.
Qed.

Lemma umalloc_safe_witness : ∃ h live, rtc (ustep 32 4096 demo_grow) (mkUser demo_heap []) (mkUser h live) ∧ live = [(69520, 100)] ∧
  69520 + 100 ≤ h_sz h.
Proof.
  destruct demo_malloc as (h1 & _ & E1 & _ & _). exists h1, [(69520, 100)].
  assert (Hr : rtc (ustep 32 4096 demo_grow) (mkUser demo_heap []) (mkUser h1 [(69520, 100)])).
  { apply rtc_once. apply (U_malloc 32 4096 demo_grow demo_heap [] 100 69520 h1); [lia|exact E1]. }
  split_and!; [exact Hr|reflexivity|].
  refine (proj2 (proj2 (proj1 (proj2 (umalloc_safe 32 4096 demo_grow _ _ demo_grow_max _ (λ _, 0) _ Hr eq_refl)) 69520 100 _))).
  1-3: lia. left.
Defined.

Lemma free_all_coalesces_witness : ∃ h, rtc (ustep 32 4096 demo_grow) (mkUser demo_heap []) (mkUser h []) ∧ load64 (h_mem h) 32 = 4096.
Proof.
  destruct demo_malloc as (h1 & h2 & E1 & E2 & Hsz). exists h2.
  assert (Hr : rtc (ustep 32 4096 demo_grow) (mkUser demo_heap []) (mkUser h2 [])).
  { eapply rtc_l; [apply (U_malloc 32 4096 demo_grow demo_heap [] 100 69520 h1); [lia|exact E1]|].
    apply rtc_once. apply (U_free 32 4096 demo_grow h1 [] 69520 100 [] h2 E2). }
  split; [exact Hr|].
  refine (proj1 (free_all_coalesces 32 4096 demo_grow _ _ demo_grow_max _ (λ _, 0) _ Hr eq_refl Hsz)); lia.
Defined.

(** The size handed to [sbrk] is an int.  Of a request of 4 GB less a byte only
    16 bytes are left: [malloc] returns a block of which nothing is in memory. *)
Theorem malloc_huge_wraps :
  match malloc 32 4096 (λ _ _, true) (2 ^ 32 - 1) demo_heap with
  | Ok a h => a = 4112 ∧ h_sz h = 4112
  | _ => False
  end.
Proof. vm_compute. split; reflexivity. Qed.
