(* ===== verification/UProg.v ===== *)
(** * UProg: what user programs see of the kernel

    The descriptor table of a process, in which a new descriptor is the lowest
    free one, and the strings in a program's buffers. *)
From S2P Require Import Prelude.

(** ** Descriptors *)
Section Table.
Context {A : Type}.
Implicit Types T : list (option A).

Fixpoint fd_alloc (o : A) T : option (nat * list (option A)) :=
  match T with
  | [] => None
  | None :: T => Some (0%nat, Some o :: T)
  | Some x :: T => match fd_alloc o T with Some (n, T) => Some (S n, Some x :: T) | None => None end
  end.

Fixpoint nfree T : nat :=
  match T with
  | [] => 0
  | None :: T => S (nfree T)
  | Some _ :: T => nfree T
  end.

Lemma fd_alloc_free o T i : T !! i = Some None → ∃ n, (n ≤ i)%nat ∧ T !! n = Some None ∧ fd_alloc o T = Some (n, <[n := Some o]> T).
Proof.
  revert i. induction T as [|[x|] R IH]; intros i Hi; [done| |exists 0%nat; split; [lia|done]].
  destruct i as [|i]; [done|]. destruct (IH i Hi) as (n & Hn & HRn & Hf). exists (S n). split; [lia|]. split; [done|].
  cbn [fd_alloc]. by rewrite Hf.
Qed.

Lemma nfree_lookup T : (0 < nfree T)%nat → ∃ i, T !! i = Some None.
Proof. induction T as [|[x|] R IH]; cbn; intros H; [lia|destruct (IH H) as [i Hi]; by exists (S i)|by exists 0%nat]. Qed.

Lemma nfree_insert T n o : T !! n = Some None → nfree T = S (nfree (<[n := Some o]> T)).
Proof.
  revert n. induction T as [|[x|] R IH]; intros [|n] H; try done; cbn; [by apply IH|]. f_equal. by apply IH.
Qed.

Lemma fd_alloc_some o T : (0 < nfree T)%nat →
  ∃ n, T !! n = Some None ∧ fd_alloc o T = Some (n, <[n := Some o]> T) ∧ nfree T = S (nfree (<[n := Some o]> T)).
Proof.
  intros (i & Hi)%nfree_lookup. destruct (fd_alloc_free o T i Hi) as (n & _ & Hn & Hf). exists n.
  split; [done|]. split; [done|by apply nfree_insert].
Qed.

Lemma fd_alloc_full o T : nfree T = 0%nat → fd_alloc o T = None.
Proof. induction T as [|[x|] R IH]; cbn; intros H; [done|by rewrite IH|done]. Qed.

Lemma fd_close T n o : T !! n = Some None → <[n := None]> (<[n := Some o]> T) = T.
Proof. intros H. rewrite list_insert_insert_eq. by apply list_insert_id. Qed.
End Table.

(** ** Strings *)

Fixpoint upto_nul (l : list Z) : list Z :=
  match l with
  | [] => []
  | c :: l => if c =? 0 then [] else c :: upto_nul l
  end.

(** The string at an offset of a buffer. *)
Definition str (b : list Z) (q : nat) : list Z := upto_nul (drop q b).

(** A string has no NUL. *)
Definition nonul (s : list Z) : Prop := Forall (λ c, c ≠ 0) s.

Lemma upto_nul_app s l : nonul s → upto_nul (s ++ l) = s ++ upto_nul l.
Proof.
  induction 1 as [|c s Hc _ IH]; [done|]. cbn. destruct (Z.eqb_spec c 0); [done|]. by rewrite IH.
Qed.

Lemma upto_nul_nonul l : nonul (upto_nul l).
Proof. induction l as [|c l IH]; [constructor|]. cbn. destruct (Z.eqb_spec c 0); [constructor|by constructor]. Qed.

Lemma upto_nul_length l : (length (upto_nul l) ≤ length l)%nat.
Proof. induction l as [|c l IH]; [done|]. cbn. destruct (c =? 0); cbn; lia. Qed.

Lemma upto_nul_id s : nonul s → upto_nul s = s.
Proof. intros H. rewrite <- (app_nil_r s) at 1. rewrite upto_nul_app by done. cbn. apply app_nil_r. Qed.

Lemma upto_nul_end s l : upto_nul (s ++ 0 :: l) = upto_nul s.
Proof. induction s as [|c s IH]; [done|]. cbn. by rewrite IH. Qed.
