(* ===== verification/Sh.v ===== *)
(** * Sh: the parser of user/sh.c

    The command line is the list of the characters before its NUL; a pointer
    into it is an offset, and the position [*ps] that the parsing routines share
    is the state.  [panic] prints its message and exits the process.  The
    commands are allocated with [malloc], which is taken to succeed here. *)
From S2P Require Import Prelude.

Definition MAXARGS : Z := 10.

(** The parsed command representation; a string is the offsets of its first
    character and of the one after its last. *)
Inductive cmd : Type :=
| EXEC (argv : list (nat * nat))
| REDIR (c : cmd) (file efile : nat) (mode fd : Z)
| PIPE (left right : cmd)
| LIST (left right : cmd)
| BACK (c : cmd).

(** The execcmd at the bottom of a chain of redircmds is shared with the routine
    that parses its arguments, which adds to its argv. *)
Fixpoint push_arg (q eq : nat) (c : cmd) : cmd :=
  match c with
  | EXEC argv => EXEC (argv ++ [(q, eq)])
  | REDIR c file efile mode fd => REDIR (push_arg q eq c) file efile mode fd
  | c => c
  end.

Definition O_RDONLY : Z := 0.
Definition O_WRONLY : Z := 1.
Definition O_CREATE : Z := 512.
Definition O_TRUNC : Z := 1024.

Definition whitespace : list Z := [32; 9; 13; 10; 11].
Definition symbols : list Z := [60; 124; 62; 38; 59; 40; 41].
(** strchr(s, c) for a [c] that is not NUL *)
Definition strchr (s : list Z) (c : Z) : bool := bool_decide (c ∈ s).

Section Parser.
Context (buf : list Z).

Definition es : nat := length buf.
(** *s *)
Definition ch (s : nat) : Z := nth s buf 0.

(** while(s < es && p( *s)) s++; [n] is [es - s] *)
Fixpoint scan_loop (p : Z → bool) (n s : nat) : nat :=
  match n with
  | O => s
  | S n => if p (ch s) then scan_loop p n (S s) else s
  end.
Definition scan (p : Z → bool) (s : nat) : nat := scan_loop p (es - s) s.

Definition in_word (c : Z) : bool := negb (strchr whitespace c) && negb (strchr symbols c).

(** The token at [s], which is not white space: its code, and where it ends. *)
Definition token (s : nat) : Z * nat :=
  let c := ch s in
  if c =? 0 then (c, s)
  else if bool_decide (c ∈ [124; 40; 41; 59; 38; 60]) then (c, S s)
  else if c =? 62 then (if ch (S s) =? 62 then (43, S (S s)) else (c, S s))
  else (97, scan in_word s).

(** The result is the code with *q and *eq. *)
Definition gettoken : M nat (Z * nat * nat) :=
  do s <- get;
  let q := scan (strchr whitespace) s in
  let '(ret_, eq) := token q in
  modify (λ _, scan (strchr whitespace) eq) ;;;
  ret (ret_, q, eq).

Definition peek (toks : list Z) : M nat bool :=
  do s <- get;
  let s := scan (strchr whitespace) s in
  modify (λ _, s) ;;;
  ret (negb (ch s =? 0) && strchr toks (ch s)).

(** Every loop and every nested call takes a token first. *)
Definition loop_fuel : nat := S es.

Fixpoint redirs_loop (fuel : nat) (c : cmd) : M nat cmd :=
  match fuel with
  | O => nofuel
  | S fuel =>
      do more <- peek [60; 62];
      if more then
        do '(tok, _, _) <- gettoken;
        do '(a, q, eq) <- gettoken;
        if negb (a =? 97) then panic "missing file for redirection"
        else redirs_loop fuel
               (if tok =? 60 then REDIR c q eq O_RDONLY 0
                else if tok =? 62 then REDIR c q eq (Z.lor (Z.lor O_WRONLY O_CREATE) O_TRUNC) 1
                else if tok =? 43 then REDIR c q eq (Z.lor O_WRONLY O_CREATE) 1
                else c)
      else ret c
  end.
Definition parseredirs (c : cmd) : M nat cmd := redirs_loop loop_fuel c.

(** The arguments of a command; [r] is [ret], which holds the execcmd. *)
Fixpoint args_loop (fuel : nat) (argc : Z) (r : cmd) : M nat cmd :=
  match fuel with
  | O => nofuel
  | S fuel =>
      do stop <- peek [124; 41; 38; 59];
      if stop then ret r
      else
        do '(tok, q, eq) <- gettoken;
        if tok =? 0 then ret r
        else if negb (tok =? 97) then panic "syntax"
        else
          let r := push_arg q eq r in
          let argc := argc + 1 in
          if MAXARGS <=? argc then panic "too many args"
          else do r <- parseredirs r; args_loop fuel argc r
  end.

Fixpoint back_loop (fuel : nat) (c : cmd) : M nat cmd :=
  match fuel with
  | O => nofuel
  | S fuel =>
      do more <- peek [38];
      if more then gettoken ;;; back_loop fuel (BACK c) else ret c
  end.

Fixpoint parseline (fuel : nat) : M nat cmd :=
  match fuel with
  | O => nofuel
  | S fuel =>
      do c <- parsepipe fuel;
      do c <- back_loop loop_fuel c;
      do more <- peek [59];
      if more then gettoken ;;; do c2 <- parseline fuel; ret (LIST c c2)
      else ret c
  end
with parsepipe (fuel : nat) : M nat cmd :=
  match fuel with
  | O => nofuel
  | S fuel =>
      do c <- parseexec fuel;
      do more <- peek [124];
      if more then gettoken ;;; do c2 <- parsepipe fuel; ret (PIPE c c2)
      else ret c
  end
with parseexec (fuel : nat) : M nat cmd :=
  match fuel with
  | O => nofuel
  | S fuel =>
      do block <- peek [40];
      if block then parseblock fuel
      else do r <- parseredirs (EXEC []); args_loop loop_fuel 0 r
  end
with parseblock (fuel : nat) : M nat cmd :=
  match fuel with
  | O => nofuel
  | S fuel =>
      do open <- peek [40];
      if negb open then panic "parseblock"
      else
        gettoken ;;;
        do c <- parseline fuel;
        do close <- peek [41];
        if negb close then panic "syntax - missing )"
        else gettoken ;;; parseredirs c
  end.

(** NUL characters written over the buffer at the ends of the strings. *)
Fixpoint nulterminate (c : cmd) (b : list Z) : list Z :=
  match c with
  | EXEC argv => fold_left (λ b a, <[a.2 := 0]> b) argv b
  | REDIR c _ efile _ _ => <[efile := 0]> (nulterminate c b)
  | PIPE l r => nulterminate r (nulterminate l b)
  | LIST l r => nulterminate r (nulterminate l b)
  | BACK c => nulterminate c b
  end.

(** The command, and the buffer with its NUL characters. *)
Definition parse_fuel : nat := 4 * es + 4.
Definition parsecmd : M nat (cmd * list Z) :=
  do c <- parseline parse_fuel;
  peek [] ;;;
  do s <- get;
  if negb (Nat.eqb s es) then panic "syntax"
  else ret (c, nulterminate c (buf ++ [0])).

(** ** The tokens of a line *)

Inductive tok : Type := Sym (c : Z) | Append | Word (q eq : nat).

Definition tok_of (code : Z) (q eq : nat) : tok :=
  if code =? 97 then Word q eq else if code =? 43 then Append else Sym code.

Fixpoint lex_loop (fuel : nat) (s : nat) : list tok :=
  match fuel with
  | O => []
  | S fuel =>
      let q := scan (strchr whitespace) s in
      if ch q =? 0 then [] else let '(c, eq) := token q in tok_of c q eq :: lex_loop fuel eq
  end.
Definition lex (s : nat) : list tok := lex_loop (S es) s.

Hypothesis Hnz : Forall (λ c, c ≠ 0) buf.

Lemma ch_zero s : ch s = 0 ↔ (es ≤ s)%nat.
Proof.
  unfold ch, es. split; [|apply nth_overflow]. intros H0. destruct (decide (s < length buf)%nat) as [Hs|]; [|lia].
  rewrite Forall_forall in Hnz. exfalso. apply (Hnz (nth s buf 0)); [|done]. apply list_elem_of_In, nth_In, Hs.
Qed.

Lemma scan_loop_spec p n s : let e := scan_loop p n s in
  (s ≤ e ≤ s + n)%nat ∧ (∀ k, (s ≤ k < e)%nat → p (ch k) = true) ∧ ((e < s + n)%nat → p (ch e) = false).
Proof.
  revert s. induction n as [|n IH]; intros s; simpl; [split_and!; lia|].
  destruct (p (ch s)) eqn:E; [|split_and!; [lia|lia|lia|done]]. destruct (IH (S s)) as (H1 & H2 & H3). split_and!; [lia|lia| |intros; apply H3; lia].
  intros k Hk. destruct (decide (k = s)) as [->|]; [done|]. apply H2. lia.
Qed.

Lemma scan_spec p s : (s ≤ es)%nat → let e := scan p s in
  (s ≤ e ≤ es)%nat ∧ (∀ k, (s ≤ k < e)%nat → p (ch k) = true) ∧ ((e < es)%nat → p (ch e) = false).
Proof. intros Hs. destruct (scan_loop_spec p (es - s) s) as (H1 & H2 & H3). fold (scan p s) in *. split_and!; [lia|lia|done|intros; apply H3; lia]. Qed.

Lemma scan_at_stop p s : (s < es)%nat → p (ch s) = false → scan p s = s.
Proof. intros Hs Hp. unfold scan. destruct (es - s)%nat eqn:E; [lia|]. simpl. by rewrite Hp. Qed.

Lemma scan_scan p s : (s ≤ es)%nat → scan p (scan p s) = scan p s.
Proof.
  intros Hs. destruct (scan_spec p s Hs) as (H1 & _ & H3). destruct (decide (scan p s < es)%nat) as [Hl|Hl]; [by apply scan_at_stop; [|apply H3]|].
  unfold scan at 1. by replace (es - scan p s)%nat with 0%nat by lia.
Qed.

Lemma token_spec s : (s < es)%nat → strchr whitespace (ch s) = false →
  let '(c, e) := token s in (s < e ≤ es)%nat ∧ c ≠ 0 ∧
  match tok_of c s e with
  | Sym d => d = c ∧ d = ch s ∧ d ∈ symbols
  | Append => c = 43 ∧ ch s = 62
  | Word _ _ => c = 97 ∧ in_word (ch s) = true ∧ e = scan in_word s
  end.
Proof.
  intros Hs Hw. assert (H0 : ch s ≠ 0) by (rewrite ch_zero; lia). unfold token. rewrite (proj2 (Z.eqb_neq _ _) H0).
  destruct (bool_decide _) eqn:E1.
  { apply bool_decide_eq_true in E1. repeat (apply elem_of_cons in E1 as [E1|E1]; [rewrite E1; unfold symbols; split_and!; [lia|lia|done|cbn; split_and!; [done|done|set_solver]]|]).
    by apply not_elem_of_nil in E1. }
  destruct (ch s =? 62) eqn:E2; bsimp.
  { destruct (ch (S s) =? 62) eqn:E3; bsimp.
    - assert (¬ (es ≤ S s)%nat) by (rewrite <- ch_zero; lia). split_and!; [lia|lia|done|done].
    - rewrite E2. split_and!; [lia|lia|done|]. cbn. split_and!; [done|done|unfold symbols; set_solver]. }
  assert (Hin : in_word (ch s) = true).
  { unfold in_word. rewrite Hw. cbn. apply negb_true_iff, bool_decide_eq_false. apply bool_decide_eq_false in E1. unfold symbols. set_solver. }
  destruct (scan_spec in_word s ltac:(lia)) as (H1 & H2 & H3).
  assert (s ≠ scan in_word s) by (intros He; rewrite <- He in H3; rewrite H3 in Hin; [done|lia]).
  cbn. split_and!; [lia|lia|done|done|done|done].
Qed.

Lemma lex_loop_fuel f1 : ∀ f2 s, (s ≤ es)%nat → (es - s < f1)%nat → (es - s < f2)%nat → lex_loop f1 s = lex_loop f2 s.
Proof.
  induction f1 as [|f1 IH]; intros [|f2] s Hs H1 H2; try lia. cbn [lex_loop].
  destruct (scan_spec (strchr whitespace) s Hs) as (Hq & _ & Hw). destruct (ch _ =? 0) eqn:E; [done|]. bsimp. rewrite ch_zero in E.
  pose proof (token_spec (scan (strchr whitespace) s) ltac:(lia) ltac:(apply Hw; lia)) as Ht.
  destruct (token _) as [c e]. destruct Ht as (He & _). f_equal. apply IH; lia.
Qed.

Lemma lex_end s : (s ≤ es)%nat → scan (strchr whitespace) s = es → lex s = [].
Proof. intros Hs He. unfold lex. cbn [lex_loop]. rewrite He. by rewrite (proj2 (Z.eqb_eq (ch es) 0)) by (by apply ch_zero). Qed.

Lemma lex_cons s c e : (s ≤ es)%nat → let q := scan (strchr whitespace) s in (q < es)%nat → token q = (c, e) →
  lex s = tok_of c q e :: lex e ∧ (q < e ≤ es)%nat.
Proof.
  intros Hs q Hq Ht. destruct (scan_spec (strchr whitespace) s Hs) as (Hr & _ & Hw).
  pose proof (token_spec q Hq (Hw Hq)) as He. rewrite Ht in He. destruct He as (He & _). split; [|done].
  unfold lex at 1. cbn [lex_loop]. fold q. rewrite (proj2 (Z.eqb_neq (ch q) 0)) by (rewrite ch_zero; lia). rewrite Ht.
  f_equal. apply lex_loop_fuel; unfold q in *; lia.
Qed.

Lemma lex_skip s : (s ≤ es)%nat → lex (scan (strchr whitespace) s) = lex s.
Proof.
  intros Hs. destruct (scan_spec (strchr whitespace) s Hs) as (Hr & _ & _). unfold lex. cbn [lex_loop]. by rewrite scan_scan.
Qed.

(** The tokens ahead of the position [s]. *)
Definition ahead (ts : list tok) (s : nat) : Prop := (s ≤ es)%nat ∧ lex s = ts.

Definition code (t : tok) : Z := match t with Sym c => c | Append => 43 | Word _ _ => 97 end.
Definition peeks (toks : list Z) (ts : list tok) : bool :=
  match ts with Sym c :: _ => strchr toks c | Append :: _ => strchr toks 62 | _ => false end.
Definition tok_ok (t : tok) : Prop := match t with Sym c => c ∈ symbols | _ => True end.

(** The two ways the tokens go on. *)
Lemma ahead_cases s ts : ahead ts s → let q := scan (strchr whitespace) s in
  (ts = [] ∧ q = es) ∨
  ∃ c e, (q < es)%nat ∧ token q = (c, e) ∧ ts = tok_of c q e :: lex e ∧ (q < e ≤ es)%nat ∧ strchr whitespace (ch q) = false.
Proof.
  intros [Hs <-] q. destruct (scan_spec (strchr whitespace) s Hs) as (Hr & _ & Hw). fold q in Hr, Hw.
  destruct (decide (q < es)%nat) as [Hq|Hq]; [right|left].
  - destruct (token q) as [c e] eqn:E. destruct (lex_cons s c e Hs Hq E) as [H1 H2]. exists c, e. split_and!; try done; [lia|lia|by apply Hw].
  - assert (q = es) by lia. split; [|done]. by apply lex_end.
Qed.

Lemma in_word_symbols c toks : in_word c = true → toks ⊆ symbols → strchr toks c = false.
Proof.
  unfold in_word. intros [_ H]%andb_true_iff Hsub. apply negb_true_iff, bool_decide_eq_false in H.
  apply bool_decide_eq_false. set_solver.
Qed.

Lemma peek_run toks s ts : toks ⊆ symbols → ahead ts s → ∃ s', peek toks s = Ok (peeks toks ts) s' ∧ ahead ts s'.
Proof.
  intros Hsub Ha. exists (scan (strchr whitespace) s). pose proof Ha as [Hs Hl].
  destruct (scan_spec (strchr whitespace) s Hs) as (Hr & _ & Hw).
  split; [|split; [lia|by rewrite lex_skip]]. unfold peek, bind, get, modify, ret. f_equal.
  destruct (ahead_cases s ts Ha) as [[-> Hq]|(c & e & Hq & Ht & -> & He & Hws)].
  - rewrite Hq. by rewrite (proj2 (Z.eqb_eq (ch es) 0)) by (by apply ch_zero).
  - rewrite (proj2 (Z.eqb_neq (ch _) 0)) by (rewrite ch_zero; lia). simpl.
    pose proof (token_spec _ Hq Hws) as Hk. rewrite Ht in Hk. destruct Hk as (_ & _ & Hk).
    destruct (tok_of c _ e) as [d| |]; simpl.
    + destruct Hk as (_ & -> & _). done.
    + destruct Hk as (_ & ->). done.
    + destruct Hk as (_ & Hin & _). by apply in_word_symbols.
Qed.

Lemma gettoken_run s t ts : ahead (t :: ts) s → tok_ok t ∧ ∃ s' q e, gettoken s = Ok (code t, q, e) s' ∧ ahead ts s' ∧
  (∀ a b, t = Word a b → q = a ∧ e = b).
Proof.
  intros Ha. destruct (ahead_cases s _ Ha) as [[? _]|(c & e & Hq & Ht & Hts & He & Hws)]; [done|]. injection Hts as Htt ->.
  pose proof (token_spec _ Hq Hws) as Hk. rewrite Ht in Hk. destruct Hk as (_ & _ & Hk). split.
  { rewrite Htt. destruct (tok_of c _ e); simpl; [|done|done]. by destruct Hk as (_ & _ & ?). }
  exists (scan (strchr whitespace) e), (scan (strchr whitespace) s), e. split_and!.
  - unfold gettoken, bind, get, modify, ret. rewrite Ht. do 3 f_equal. rewrite Htt. destruct (tok_of c _ e); simpl.
    + by destruct Hk as (-> & _).
    + by destruct Hk as (-> & _).
    + by destruct Hk as (-> & _).
  - destruct (scan_spec (strchr whitespace) e ltac:(lia)) as (Hr & _). split; [lia|]. rewrite lex_skip; [done|lia].
  - intros a b ->. unfold tok_of in Htt. repeat case_match; by simplify_eq.
Qed.

Lemma gettoken_end s : ahead [] s → ∃ s' q e, gettoken s = Ok (0, q, e) s' ∧ ahead [] s'.
Proof.
  intros Ha. destruct (ahead_cases s _ Ha) as [[_ Hq]|(c & e & _ & _ & ? & _)]; [|done].
  assert (Hse : scan (strchr whitespace) es = es) by (unfold scan; by rewrite Nat.sub_diag).
  exists es, es, es. split; [|split; [done|by apply lex_end]].
  unfold gettoken, bind, get, modify, ret, token. rewrite Hq. assert (H0 : ch es = 0) by (by apply ch_zero). rewrite H0. simpl. by rewrite Hse.
Qed.

Lemma ahead_length ts s : ahead ts s → (length ts ≤ es - s)%nat.
Proof.
  revert s. induction ts as [|t ts IH]; intros s Ha; [simpl; lia|].
  destruct (ahead_cases s _ Ha) as [[? _]|(c & e & Hq & Ht & Hts & He & _)]; [done|]. injection Hts as _ ->.
  destruct Ha as [Hs _]. destruct (scan_spec (strchr whitespace) s Hs) as (Hr & _). specialize (IH e ltac:(by split; [lia|])). simpl. lia.
Qed.

(** ** The grammar

    [g_line ts c]: the tokens [ts] are a line for the command [c]. *)
Inductive g_redirs : cmd → list tok → cmd → Prop :=
| GR_none c : g_redirs c [] c
| GR_in c q e ts c' : g_redirs (REDIR c q e O_RDONLY 0) ts c' → g_redirs c (Sym 60 :: Word q e :: ts) c'
| GR_out c q e ts c' :
    g_redirs (REDIR c q e (Z.lor (Z.lor O_WRONLY O_CREATE) O_TRUNC) 1) ts c' → g_redirs c (Sym 62 :: Word q e :: ts) c'
| GR_append c q e ts c' :
    g_redirs (REDIR c q e (Z.lor O_WRONLY O_CREATE) 1) ts c' → g_redirs c (Append :: Word q e :: ts) c'.

Inductive g_args : Z → cmd → list tok → cmd → Prop :=
| GA_none argc c : g_args argc c [] c
| GA_arg argc c q e r c1 a c2 :
    argc + 1 < MAXARGS → g_redirs (push_arg q e c) r c1 → g_args (argc + 1) c1 a c2 → g_args argc c (Word q e :: r ++ a) c2.

Fixpoint backs (n : nat) (c : cmd) : cmd := match n with O => c | S n => backs n (BACK c) end.

Inductive g_line : list tok → cmd → Prop :=
| GL_last t c n : g_pipe t c → g_line (t ++ replicate n (Sym 38)) (backs n c)
| GL_list t c n t2 c2 : g_pipe t c → g_line t2 c2 → g_line (t ++ replicate n (Sym 38) ++ Sym 59 :: t2) (LIST (backs n c) c2)
with g_pipe : list tok → cmd → Prop :=
| GP_last t c : g_exec t c → g_pipe t c
| GP_pipe t c t2 c2 : g_exec t c → g_pipe t2 c2 → g_pipe (t ++ Sym 124 :: t2) (PIPE c c2)
with g_exec : list tok → cmd → Prop :=
| GE_block t c r c' : g_line t c → g_redirs c r c' → g_exec (Sym 40 :: t ++ Sym 41 :: r) c'
| GE_simple r c a c' : g_redirs (EXEC []) r c → g_args 0 c a c' → g_exec (r ++ a) c'.

(** ** Soundness: what the parser accepts is in the grammar *)

(** [m] ends, with a result that satisfies [Q] or with a syntax error. *)
Definition sound {A} (m : M nat A) (Q : A → nat → Prop) (s : nat) : Prop :=
  match m s with Ok a s' => Q a s' | Panic _ => True | _ => False end.

Lemma sound_ok {A B} (m : M nat A) (f : A → M nat B) Q s a s' : m s = Ok a s' → sound (f a) Q s' → sound (bind m f) Q s.
Proof. unfold sound, bind. by intros ->. Qed.

Lemma sound_bind {A B} (m : M nat A) (f : A → M nat B) P Q s :
  sound m P s → (∀ a s', P a s' → sound (f a) Q s') → sound (bind m f) Q s.
Proof. unfold sound, bind. intros H1 H2. destruct (m s); try done. by apply H2. Qed.

(** What is left after a command of the grammar. *)
Definition parsed (G : list tok → cmd → Prop) (ts : list tok) (c : cmd) (s : nat) : Prop :=
  ∃ t1 ts', ts = t1 ++ ts' ∧ G t1 c ∧ ahead ts' s.

Lemma peeks_sym d ts : d ≠ 62 → peeks [d] ts = true → ∃ ts', ts = Sym d :: ts'.
Proof.
  intros Hne. destruct ts as [|[c| |] ts]; simpl; try done; intros H%bool_decide_eq_true%list_elem_of_singleton; subst; [eauto|done].
Qed.

Lemma one_symbol d : d ∈ symbols → [d] ⊆ symbols.
Proof. set_solver. Qed.

(** A test for a symbol, which is taken when it is there. *)
Lemma sym_yes {A} d (yes no : M nat A) ts s : d ∈ symbols → ahead (Sym d :: ts) s →
  ∃ s', (do b <- peek [d]; if b then gettoken ;;; yes else no) s = yes s' ∧ ahead ts s'.
Proof.
  intros Hd Ha. destruct (peek_run [d] s _ (one_symbol d Hd) Ha) as (s1 & E1 & A1).
  destruct (gettoken_run s1 _ _ A1) as (_ & s2 & q & e & E2 & A2 & _). exists s2. split; [|done].
  unfold bind. rewrite E1. simpl. unfold strchr. rewrite bool_decide_eq_true_2 by (by apply list_elem_of_singleton). by rewrite E2.
Qed.

Lemma sym_no {A} d (yes no : M nat A) ts s : d ∈ symbols → ahead ts s → peeks [d] ts = false →
  ∃ s', (do b <- peek [d]; if b then gettoken ;;; yes else no) s = no s' ∧ ahead ts s'.
Proof.
  intros Hd Ha Hp. destruct (peek_run [d] s _ (one_symbol d Hd) Ha) as (s1 & E1 & A1). exists s1. split; [|done].
  unfold bind. rewrite E1, Hp. done.
Qed.

Lemma sound_sym {A} d (yes no : M nat A) Q ts s : d ∈ symbols → d ≠ 62 → ahead ts s →
  (∀ ts' s', ts = Sym d :: ts' → ahead ts' s' → sound yes Q s') → (∀ s', ahead ts s' → sound no Q s') →
  sound (do b <- peek [d]; if b then gettoken ;;; yes else no) Q s.
Proof.
  intros Hd Hne Ha Hy Hn. destruct (peeks [d] ts) eqn:Ep.
  - apply peeks_sym in Ep as [ts' ->]; [|done]. destruct (sym_yes d yes no ts' s Hd Ha) as (s' & E & A'). unfold sound. rewrite E. by eapply Hy.
  - destruct (sym_no d yes no ts s Hd Ha Ep) as (s' & E & A'). unfold sound. rewrite E. by apply Hn.
Qed.

Ltac symbol := solve [done | unfold symbols; set_solver].

Lemma redirs_sound fuel : ∀ c ts s, ahead ts s → (length ts < fuel)%nat → sound (redirs_loop fuel c) (parsed (g_redirs c) ts) s.
Proof.
  induction fuel as [|fuel IH]; intros c ts s Ha Hf; [lia|]. cbn [redirs_loop].
  destruct (peek_run [60; 62] s ts) as (s1 & E1 & A1); [symbol|done|].
  eapply sound_ok; [exact E1|]. destruct (peeks [60; 62] ts) eqn:Ep; [|exists [], ts; split_and!; [done|constructor|done]].
  destruct ts as [|t ts]; [done|]. destruct (gettoken_run s1 t ts A1) as (_ & s2 & q0 & e0 & E2 & A2 & _).
  eapply sound_ok; [exact E2|]. destruct ts as [|[d| |q e] ts].
  - destruct (gettoken_end s2 A2) as (s3 & q & e & E3 & A3). eapply sound_ok; [exact E3|]. done.
  - destruct (gettoken_run s2 _ _ A2) as (Hd & s3 & q & e & E3 & A3 & _). eapply sound_ok; [exact E3|].
    simpl in Hd |- *. destruct (d =? 97) eqn:Ed; [bsimp; subst d; unfold symbols in Hd; set_solver|done].
  - destruct (gettoken_run s2 _ _ A2) as (_ & s3 & q & e & E3 & A3 & _). eapply sound_ok; [exact E3|]. done.
  - destruct (gettoken_run s2 _ _ A2) as (_ & s3 & q' & e' & E3 & A3 & Hw). destruct (Hw q e eq_refl) as [-> ->].
    eapply sound_ok; [exact E3|]. cbn [code negb Z.eqb Pos.eqb].
    assert (Hgo : ∀ c1, (∀ t1 c', g_redirs c1 t1 c' → g_redirs c (t :: Word q e :: t1) c') →
      sound (redirs_loop fuel c1) (parsed (g_redirs c) (t :: Word q e :: ts)) s3).
    { intros c1 H1. pose proof (IH c1 ts s3 A3 ltac:(simpl in Hf; lia)) as Hs. unfold sound in *.
      destruct (redirs_loop fuel c1 s3); try done. destruct Hs as (t1 & ts' & -> & Hg & Ha').
      exists (t :: Word q e :: t1), ts'. split_and!; [done|by apply H1|done]. }
    destruct t as [d| |]; simpl in Ep; [|apply Hgo; by constructor|done].
    apply bool_decide_eq_true in Ep. apply elem_of_cons in Ep as [->|Ep]; [apply Hgo; by constructor|].
    apply list_elem_of_singleton in Ep as ->. apply Hgo. by constructor.
Qed.

Lemma parseredirs_sound c ts s : ahead ts s → sound (parseredirs c) (parsed (g_redirs c) ts) s.
Proof. intros Ha. apply redirs_sound; [done|]. pose proof (ahead_length _ _ Ha). unfold loop_fuel. lia. Qed.

Lemma args_sound fuel : ∀ argc c ts s, ahead ts s → (length ts < fuel)%nat → sound (args_loop fuel argc c) (parsed (g_args argc c) ts) s.
Proof.
  induction fuel as [|fuel IH]; intros argc c ts s Ha Hf; [lia|]. cbn [args_loop].
  destruct (peek_run [124; 41; 38; 59] s ts) as (s1 & E1 & A1); [symbol|done|].
  eapply sound_ok; [exact E1|]. destruct (peeks _ ts) eqn:Ep; [exists [], ts; split_and!; [done|constructor|done]|].
  destruct ts as [|t ts].
  { destruct (gettoken_end s1 A1) as (s2 & q & e & E2 & A2). eapply sound_ok; [exact E2|]. exists [], []. split_and!; [done|constructor|done]. }
  destruct (gettoken_run s1 t ts A1) as (Hok & s2 & q' & e' & E2 & A2 & Hw). eapply sound_ok; [exact E2|].
  destruct t as [d| |q e]; [|done|].
  { simpl in Hok |- *. destruct (d =? 0) eqn:E0; [bsimp; subst d; unfold symbols in Hok; set_solver|].
    destruct (d =? 97) eqn:E97; [bsimp; subst d; unfold symbols in Hok; set_solver|done]. }
  destruct (Hw q e eq_refl) as [-> ->]. cbn [code negb Z.eqb Pos.eqb]. cbv zeta. destruct (MAXARGS <=? argc + 1) eqn:Em; [done|]. bsimp.
  eapply sound_bind; [apply (parseredirs_sound _ ts); exact A2|]. intros c1 s3 (r & ts1 & -> & Hr & A3).
  simpl in Hf. rewrite length_app in Hf. pose proof (IH (argc + 1) c1 ts1 s3 A3 ltac:(lia)) as Hs.
  unfold sound in *. destruct (args_loop fuel _ c1 s3); try done. destruct Hs as (a1 & ts2 & -> & Hg & A4).
  exists (Word q e :: r ++ a1), ts2. split_and!; [by rewrite <- app_comm_cons, <- app_assoc|by econstructor|done].
Qed.

Lemma back_sound fuel : ∀ c ts s, ahead ts s → (length ts < fuel)%nat →
  sound (back_loop fuel c) (parsed (λ t c', ∃ n, t = replicate n (Sym 38) ∧ c' = backs n c) ts) s.
Proof.
  induction fuel as [|fuel IH]; intros c ts s Ha Hf; [lia|]. cbn [back_loop].
  apply (sound_sym 38 _ _ _ ts s); [symbol|done|done| |].
  - intros ts' s' -> A2. pose proof (IH (BACK c) ts' s' A2 ltac:(simpl in Hf; lia)) as Hs. unfold sound in *. destruct (back_loop fuel _ s'); try done.
    destruct Hs as (t1 & ts2 & -> & (n & -> & ->) & A3). exists (replicate (S n) (Sym 38)), ts2. split_and!; [done|by exists (S n)|done].
  - intros s' A2. exists [], ts. split_and!; [done|by exists 0%nat|done].
Qed.

Lemma loop_enough ts s : ahead ts s → (length ts < loop_fuel)%nat.
Proof. intros Ha. pose proof (ahead_length _ _ Ha). unfold loop_fuel. lia. Qed.

Lemma parse_sound fuel :
  (∀ ts s, ahead ts s → (4 * length ts + 4 ≤ fuel)%nat → sound (parseline fuel) (parsed g_line ts) s) ∧
  (∀ ts s, ahead ts s → (4 * length ts + 3 ≤ fuel)%nat → sound (parsepipe fuel) (parsed g_pipe ts) s) ∧
  (∀ ts s, ahead ts s → (4 * length ts + 2 ≤ fuel)%nat → sound (parseexec fuel) (parsed g_exec ts) s) ∧
  (∀ ts s, ahead ts s → (4 * length ts + 1 ≤ fuel)%nat → sound (parseblock fuel) (parsed g_exec ts) s).
Proof.
  induction fuel as [|fuel (IHl & IHp & IHe & IHb)]; [split_and!; intros; lia|]. split_and!; intros ts s Ha Hf.
  - cbn [parseline]. eapply sound_bind; [apply (IHp ts); [done|lia]|]. intros c s1 (t1 & ts1 & -> & Hg & A1). rewrite length_app in Hf.
    eapply sound_bind; [apply (back_sound _ _ ts1); [done|by eapply loop_enough]|].
    intros c1 s2 (t2 & ts2 & -> & (n & -> & ->) & A2). rewrite length_app in Hf.
    apply (sound_sym 59 _ _ _ ts2 s2); [symbol|done|done| |].
    + intros ts3 s3 -> A3. simpl in Hf. eapply sound_bind; [apply (IHl ts3); [done|lia]|]. intros c2 s5 (t3 & ts4 & -> & Hg2 & A5).
      exists (t1 ++ replicate n (Sym 38) ++ Sym 59 :: t3), ts4. split_and!; [by rewrite <- !app_assoc|by constructor|done].
    + intros s3 A3. exists (t1 ++ replicate n (Sym 38)), ts2. split_and!; [by rewrite <- app_assoc|by constructor|done].
  - cbn [parsepipe]. eapply sound_bind; [apply (IHe ts); [done|lia]|]. intros c s1 (t1 & ts1 & -> & Hg & A1). rewrite length_app in Hf.
    apply (sound_sym 124 _ _ _ ts1 s1); [symbol|done|done| |].
    + intros ts3 s3 -> A3. simpl in Hf. eapply sound_bind; [apply (IHp ts3); [done|lia]|]. intros c2 s5 (t3 & ts4 & -> & Hg2 & A5).
      exists (t1 ++ Sym 124 :: t3), ts4. split_and!; [by rewrite <- !app_assoc|by constructor|done].
    + intros s3 A3. exists t1, ts1. split_and!; [done|by constructor|done].
  - cbn [parseexec]. destruct (peek_run [40] s ts) as (s1 & E1 & A1); [symbol|done|]. eapply sound_ok; [exact E1|].
    destruct (peeks [40] ts) eqn:Ep; [apply IHb; [done|lia]|].
    eapply sound_bind; [apply (parseredirs_sound _ ts); done|]. intros c s2 (r & ts1 & -> & Hr & A2).
    pose proof (args_sound loop_fuel 0 c ts1 s2 A2 (loop_enough _ _ A2)) as Hs. unfold sound in *.
    destruct (args_loop _ _ _ s2); try done. destruct Hs as (a1 & ts2 & -> & Hg & A3).
    exists (r ++ a1), ts2. split_and!; [by rewrite <- app_assoc|by econstructor|done].
  - cbn [parseblock]. destruct (peek_run [40] s ts) as (s1 & E1 & A1); [symbol|done|]. eapply sound_ok; [exact E1|].
    destruct (peeks [40] ts) eqn:Ep; [|done].
    apply peeks_sym in Ep as (ts1 & ->); [|done].
    destruct (gettoken_run s1 _ _ A1) as (_ & s2 & q & e & E2 & A2 & _). cbn [negb]. eapply sound_ok; [exact E2|]. simpl in Hf.
    eapply sound_bind; [apply (IHl ts1); [done|lia]|]. intros c s3 (t1 & ts2 & -> & Hg & A3).
    destruct (peek_run [41] s3 ts2) as (s4 & E4 & A4); [symbol|done|]. eapply sound_ok; [exact E4|].
    destruct (peeks [41] ts2) eqn:Ep; [|done].
    apply peeks_sym in Ep as (ts3 & ->); [|done].
    destruct (gettoken_run s4 _ _ A4) as (_ & s5 & q' & e' & E5 & A5 & _). cbn [negb]. eapply sound_ok; [exact E5|].
    pose proof (parseredirs_sound c ts3 s5 A5) as Hs. unfold sound in *. destruct (parseredirs c s5); try done.
    destruct Hs as (r & ts4 & -> & Hr & A6). exists (Sym 40 :: t1 ++ Sym 41 :: r), ts4.
    split_and!; [by rewrite <- app_comm_cons, <- app_assoc|by econstructor|done].
Qed.

(** ** Completeness: the parser accepts every line of the grammar *)

(** The rest begins with one of [toks], or there is none. *)
Definition followed (toks : list Z) (rest : list tok) : Prop :=
  match rest with [] => True | Sym c :: _ => c ∈ toks | _ => False end.

Lemma followed_mono toks toks' rest : toks ⊆ toks' → followed toks rest → followed toks' rest.
Proof. destruct rest as [|[] ?]; simpl; [done|set_solver|done|done]. Qed.

Lemma followed_no toks toks' rest : (∀ c, c ∈ toks → c ∉ toks') → followed toks rest → peeks toks' rest = false.
Proof. intros Hd. destruct rest as [|[c| |] ?]; simpl; try done. intros Hc%Hd. by apply bool_decide_eq_false. Qed.

Notation after_exec := [124; 41; 38; 59].

Lemma redirs_complete c t c' : g_redirs c t c' → ∀ fuel rest s, ahead (t ++ rest) s → peeks [60; 62] rest = false →
  (length t < fuel)%nat → ∃ s', redirs_loop fuel c s = Ok c' s' ∧ ahead rest s'.
Proof.
  induction 1 as [c|c q e ts c' _ IH|c q e ts c' _ IH|c q e ts c' _ IH]; intros [|fuel] rest s Ha Hr Hf; simpl in Hf; try lia; cbn [redirs_loop].
  { destruct (peek_run [60; 62] s rest) as (s1 & E1 & A1); [symbol|done|]. exists s1. split; [|done]. unfold bind. by rewrite E1, Hr. }
  all: destruct (peek_run [60; 62] s _ ltac:(symbol) Ha) as (s1 & E1 & A1); destruct (gettoken_run s1 _ _ A1) as (_ & s2 & q0 & e0 & E2 & A2 & _).
  all: destruct (gettoken_run s2 _ _ A2) as (_ & s3 & q' & e' & E3 & A3 & Hw); destruct (Hw q e eq_refl) as [-> ->].
  all: destruct (IH fuel rest s3 A3 Hr ltac:(lia)) as (s4 & E4 & A4); exists s4; split; [|done].
  all: unfold bind; rewrite E1; simpl; rewrite E2, E3; exact E4.
Qed.

Lemma parseredirs_complete c t c' rest s : g_redirs c t c' → ahead (t ++ rest) s → peeks [60; 62] rest = false →
  ∃ s', parseredirs c s = Ok c' s' ∧ ahead rest s'.
Proof.
  intros Hg Ha Hr. eapply redirs_complete; try done. pose proof (loop_enough _ _ Ha) as Hl. rewrite length_app in Hl. lia.
Qed.

Lemma args_no_redir argc c a c' rest : g_args argc c a c' → followed after_exec rest → peeks [60; 62] (a ++ rest) = false.
Proof. intros [] Hf; [|done]. simpl. revert Hf. apply followed_no. set_solver. Qed.

Lemma exec_no_block argc r c c1 a c2 rest : g_redirs c r c1 → g_args argc c1 a c2 → followed after_exec rest → peeks [40] ((r ++ a) ++ rest) = false.
Proof. intros [] Ha Hf; try done. simpl. destruct Ha; [|done]. simpl. revert Hf. apply followed_no. set_solver. Qed.

Lemma args_complete argc c t c' : g_args argc c t c' → ∀ fuel rest s, ahead (t ++ rest) s → followed after_exec rest →
  (length t < fuel)%nat → ∃ s', args_loop fuel argc c s = Ok c' s' ∧ ahead rest s'.
Proof.
  induction 1 as [argc c|argc c q e r c1 a c2 Hm Hr Hg IH]; intros [|fuel] rest s Ha Hfo Hf; simpl in Hf; try lia; cbn [args_loop].
  - destruct (peek_run after_exec s rest) as (s1 & E1 & A1); [symbol|done|]. unfold bind. rewrite E1.
    destruct rest as [|[d| |] rest]; try done.
    + destruct (gettoken_end s1 A1) as (s2 & q & e & E2 & A2). exists s2. simpl. by rewrite E2.
    + exists s1. simpl in Hfo |- *. unfold strchr. by rewrite bool_decide_eq_true_2.
  - destruct (peek_run after_exec s _ ltac:(symbol) Ha) as (s1 & E1 & A1).
    destruct (gettoken_run s1 (Word q e) ((r ++ a) ++ rest) A1) as (_ & s2 & q' & e' & E2 & A2 & Hw).
    destruct (Hw q e eq_refl) as [-> ->]. rewrite <- app_assoc in A2.
    destruct (parseredirs_complete _ _ _ _ _ Hr A2 (args_no_redir _ _ _ _ _ Hg Hfo)) as (s3 & E3 & A3). rewrite length_app in Hf.
    destruct (IH fuel rest s3 A3 Hfo ltac:(lia)) as (s4 & E4 & A4). exists s4. split; [|done].
    unfold bind. rewrite E1. cbn [peeks app]. rewrite E2. cbn [code negb Z.eqb Pos.eqb]. rewrite (proj2 (Z.leb_gt _ _) Hm). by rewrite E3.
Qed.

Lemma back_complete n : ∀ c fuel rest s, ahead (replicate n (Sym 38) ++ rest) s → peeks [38] rest = false → (n < fuel)%nat →
  ∃ s', back_loop fuel c s = Ok (backs n c) s' ∧ ahead rest s'.
Proof.
  induction n as [|n IH]; intros c [|fuel] rest s Ha Hr Hf; try lia; cbn [back_loop].
  - destruct (sym_no 38 (back_loop fuel (BACK c)) (ret c) rest s ltac:(symbol) Ha Hr) as (s1 & -> & A1). by exists s1.
  - destruct (sym_yes 38 (back_loop fuel (BACK c)) (ret c) _ s ltac:(symbol) Ha) as (s1 & -> & A1). apply IH; [done|done|lia].
Qed.

Scheme g_line_ind2 := Minimality for g_line Sort Prop
  with g_pipe_ind2 := Minimality for g_pipe Sort Prop
  with g_exec_ind2 := Minimality for g_exec Sort Prop.
Combined Scheme g_mutind from g_line_ind2, g_pipe_ind2, g_exec_ind2.

Lemma parse_complete :
  (∀ t c, g_line t c → ∀ fuel rest s, ahead (t ++ rest) s → followed [41] rest → (4 * length t + 4 ≤ fuel)%nat →
     ∃ s', parseline fuel s = Ok c s' ∧ ahead rest s') ∧
  (∀ t c, g_pipe t c → ∀ fuel rest s, ahead (t ++ rest) s → followed [41; 38; 59] rest → (4 * length t + 3 ≤ fuel)%nat →
     ∃ s', parsepipe fuel s = Ok c s' ∧ ahead rest s') ∧
  (∀ t c, g_exec t c → ∀ fuel rest s, ahead (t ++ rest) s → followed after_exec rest → (4 * length t + 2 ≤ fuel)%nat →
     ∃ s', parseexec fuel s = Ok c s' ∧ ahead rest s').
Proof.
  apply g_mutind.
  - intros t c n _ IH [|fuel] rest s Ha Hf Hfuel; [lia|]. cbn [parseline]. rewrite <- app_assoc in Ha. rewrite length_app in Hfuel.
    destruct (IH fuel _ s Ha) as (s1 & E1 & A1); [destruct n; [by eapply followed_mono; [|done]; set_solver|simpl; set_solver]|lia|].
    pose proof (loop_enough _ _ A1) as Hl. rewrite length_app, length_replicate in Hl.
    destruct (back_complete n c loop_fuel rest s1 A1 ltac:(eapply followed_no; [|done]; set_solver) ltac:(lia)) as (s2 & E2 & A2).
    destruct (sym_no 59 (do c2 <- parseline fuel; ret (LIST (backs n c) c2)) (ret (backs n c)) rest s2 ltac:(symbol) A2
      ltac:(eapply followed_no; [|done]; set_solver)) as (s3 & E3 & A3).
    exists s3. split; [|done]. unfold bind at 1. rewrite E1. unfold bind at 1. rewrite E2. exact E3.
  - intros t c n t2 c2 _ IH _ IH2 [|fuel] rest s Ha Hf Hfuel; [lia|]. cbn [parseline]. rewrite <- !app_assoc in Ha. rewrite !length_app in Hfuel.
    simpl in Hfuel. destruct (IH fuel _ s Ha) as (s1 & E1 & A1); [destruct n; simpl; set_solver|lia|].
    pose proof (loop_enough _ _ A1) as Hl. rewrite length_app, length_replicate in Hl.
    destruct (back_complete n c loop_fuel _ s1 A1 ltac:(done) ltac:(lia)) as (s2 & E2 & A2).
    destruct (sym_yes 59 (do c2 <- parseline fuel; ret (LIST (backs n c) c2)) (ret (backs n c)) (t2 ++ rest) s2 ltac:(symbol) A2) as (s3 & E3 & A3).
    destruct (IH2 fuel rest s3 A3 Hf ltac:(lia)) as (s4 & E4 & A4).
    exists s4. split; [|done]. unfold bind at 1. rewrite E1. unfold bind at 1. rewrite E2, E3. unfold bind. by rewrite E4.
  - intros t c _ IH [|fuel] rest s Ha Hf Hfuel; [lia|]. cbn [parsepipe].
    destruct (IH fuel rest s Ha) as (s1 & E1 & A1); [eapply followed_mono; [|done]; set_solver|lia|].
    destruct (sym_no 124 (do c2 <- parsepipe fuel; ret (PIPE c c2)) (ret c) rest s1 ltac:(symbol) A1
      ltac:(eapply followed_no; [|done]; set_solver)) as (s3 & E3 & A3).
    exists s3. split; [|done]. unfold bind at 1. rewrite E1. exact E3.
  - intros t c t2 c2 _ IH _ IH2 [|fuel] rest s Ha Hf Hfuel; [lia|]. cbn [parsepipe]. rewrite <- !app_assoc in Ha. rewrite length_app in Hfuel.
    simpl in Hfuel. destruct (IH fuel _ s Ha) as (s1 & E1 & A1); [simpl; set_solver|lia|].
    destruct (sym_yes 124 (do c2 <- parsepipe fuel; ret (PIPE c c2)) (ret c) (t2 ++ rest) s1 ltac:(symbol) A1) as (s3 & E3 & A3).
    destruct (IH2 fuel rest s3 A3 Hf ltac:(lia)) as (s4 & E4 & A4).
    exists s4. split; [|done]. unfold bind at 1. rewrite E1, E3. unfold bind. by rewrite E4.
  - intros t c r c' _ IH Hr [|[|fuel]] rest s Ha Hf Hfuel; [lia|lia|]. cbn [parseexec parseblock]. simpl in Hfuel. rewrite length_app in Hfuel. simpl in Hfuel.
    destruct (peek_run [40] s _ ltac:(symbol) Ha) as (s1 & E1 & A1). destruct (peek_run [40] s1 _ ltac:(symbol) A1) as (s2 & E2 & A2).
    destruct (gettoken_run s2 (Sym 40) ((t ++ Sym 41 :: r) ++ rest) A2) as (_ & s3 & q & e & E3 & A3 & _). rewrite <- app_assoc in A3.
    destruct (IH fuel _ s3 A3) as (s4 & E4 & A4); [simpl; set_solver|lia|].
    destruct (peek_run [41] s4 _ ltac:(symbol) A4) as (s5 & E5 & A5).
    destruct (gettoken_run s5 (Sym 41) (r ++ rest) A5) as (_ & s6 & q' & e' & E6 & A6 & _).
    destruct (parseredirs_complete _ _ _ _ _ Hr A6 ltac:(eapply followed_no; [|done]; set_solver)) as (s7 & E7 & A7).
    exists s7. split; [|done]. unfold bind. rewrite E1. cbn [peeks app]. change (strchr [40] 40) with true. cbv iota beta. rewrite E2. cbn [peeks app].
    change (strchr [40] 40) with true. cbn [negb]. cbv iota beta. rewrite E3, E4, E5. cbn [peeks app]. change (strchr [41] 41) with true. cbn [negb]. cbv iota beta. by rewrite E6.
  - intros r c a c' Hr Hg [|fuel] rest s Ha Hf Hfuel; [lia|]. cbn [parseexec].
    destruct (peek_run [40] s _ ltac:(symbol) Ha) as (s1 & E1 & A1). rewrite (exec_no_block _ _ _ _ _ _ _ Hr Hg Hf) in E1. rewrite <- app_assoc in A1.
    destruct (parseredirs_complete _ _ _ _ _ Hr A1 (args_no_redir _ _ _ _ _ Hg Hf)) as (s2 & E2 & A2).
    pose proof (loop_enough _ _ A2) as Hl. rewrite length_app in Hl.
    destruct (args_complete _ _ _ _ Hg loop_fuel rest s2 A2 Hf ltac:(lia)) as (s3 & E3 & A3).
    exists s3. split; [|done]. unfold bind. rewrite E1, E2. exact E3.
Qed.

(** ** The strings of a command *)

Fixpoint words (c : cmd) : list (nat * nat) :=
  match c with
  | EXEC argv => argv
  | REDIR c q e _ _ => (q, e) :: words c
  | PIPE l r => words l ++ words r
  | LIST l r => words l ++ words r
  | BACK c => words c
  end.

(** The words of [c] are words among [ts]. *)
Definition from (ts : list tok) (c : cmd) : Prop := ∀ q e, (q, e) ∈ words c → Word q e ∈ ts.

Lemma words_push q e c x : x ∈ words (push_arg q e c) → x = (q, e) ∨ x ∈ words c.
Proof. induction c; simpl; set_solver. Qed.

Lemma redirs_words c ts c' : g_redirs c ts c' → ∀ ts0, from ts0 c → from (ts0 ++ ts) c'.
Proof.
  induction 1 as [c|c q e ts c' _ IH|c q e ts c' _ IH|c q e ts c' _ IH]; intros ts0 Hf; [by rewrite app_nil_r| | |].
  all: rewrite 2!cons_middle, !app_assoc; apply IH; intros a b; simpl; rewrite elem_of_cons; intros [[= -> ->]|Hin%Hf]; set_solver.
Qed.

Lemma args_words argc c ts c' : g_args argc c ts c' → ∀ ts0, from ts0 c → from (ts0 ++ ts) c'.
Proof.
  induction 1 as [argc c|argc c q e r c1 a c2 _ Hr _ IH]; intros ts0 Hf; [by rewrite app_nil_r|].
  rewrite cons_middle, !app_assoc. apply IH. apply (redirs_words _ _ _ Hr). intros x y [[= -> ->]|Hin%Hf]%words_push; set_solver.
Qed.

Lemma words_backs n c : words (backs n c) = words c.
Proof. revert c. induction n as [|n IH]; intros c; simpl; [done|]. by rewrite IH. Qed.

Lemma g_words : (∀ t c, g_line t c → from t c) ∧ (∀ t c, g_pipe t c → from t c) ∧ (∀ t c, g_exec t c → from t c).
Proof.
  apply g_mutind.
  - intros t c n _ IH q e Hin. rewrite words_backs in Hin. apply IH in Hin. set_solver.
  - intros t c n t2 c2 _ IH _ IH2 q e. simpl. rewrite words_backs. intros [Hin%IH|Hin%IH2]%elem_of_app; set_solver.
  - done.
  - intros t c t2 c2 _ IH _ IH2 q e [Hin%IH|Hin%IH2]%elem_of_app; set_solver.
  - intros t c r c' _ IH Hr. pose proof (redirs_words _ _ _ Hr t IH) as Hf. intros q e Hin%Hf. set_solver.
  - intros r c a c' Hr Hg. apply (args_words _ _ _ _ Hg). apply (redirs_words _ _ _ Hr []). intros q e Hin. by apply not_elem_of_nil in Hin.
Qed.

Lemma lex_words fuel : ∀ s q e, (s ≤ es)%nat → Word q e ∈ lex_loop fuel s →
  (q < e ≤ es)%nat ∧ (∀ k, (q ≤ k < e)%nat → in_word (ch k) = true) ∧ ((e < es)%nat → in_word (ch e) = false).
Proof.
  induction fuel as [|fuel IH]; intros s q e Hs Hin; [by apply not_elem_of_nil in Hin|]. cbn [lex_loop] in Hin.
  destruct (scan_spec (strchr whitespace) s Hs) as (Hq & _ & Hw). destruct (ch _ =? 0) eqn:E; [by apply not_elem_of_nil in Hin|].
  bsimp. rewrite ch_zero in E. pose proof (token_spec (scan (strchr whitespace) s) ltac:(lia) ltac:(apply Hw; lia)) as Ht.
  destruct (token _) as [c e']. destruct Ht as (He & _ & Ht). apply elem_of_cons in Hin as [Hin|Hin]; [|apply IH in Hin; [done|lia]].
  rewrite <- Hin in Ht. destruct Ht as (_ & _ & ->). unfold tok_of in Hin. destruct (c =? 97); [|by destruct (c =? 43)]. injection Hin as -> ->.
  destruct (scan_spec in_word (scan (strchr whitespace) s) ltac:(lia)) as (H1 & H2 & H3). done.
Qed.

Lemma nulterminate_length c b : length (nulterminate c b) = length b.
Proof.
  revert b. induction c as [argv| | | |]; intros b; simpl; rewrite ?length_insert; eauto.
  - revert b. induction argv as [|a l IH]; intros b; simpl; [done|]. by rewrite IH, length_insert.
  - by rewrite IHc2, IHc1.
  - by rewrite IHc2, IHc1.
Qed.

Lemma fold_insert_lookup (l : list (nat * nat)) : ∀ (b : list Z) k, (k < length b)%nat →
  fold_left (λ b a, <[a.2 := 0]> b) l b !! k = (if decide (k ∈ l.*2) then Some 0 else b !! k).
Proof.
  induction l as [|[q e] l IH]; intros b k Hk; [done|]. cbn [fold_left snd]. rewrite IH by (by rewrite length_insert). rewrite fmap_cons.
  destruct (decide (k ∈ l.*2)) as [H1|H1]; [by rewrite decide_True by (by right)|]. destruct (decide (k = e)) as [->|Hne].
  - rewrite list_lookup_insert_eq, decide_True; [done|left|done].
  - rewrite list_lookup_insert_ne, decide_False; [done| |done]. by intros [?|?]%elem_of_cons.
Qed.

(** NUL at the end of every word, the buffer as it was elsewhere. *)
Lemma nulterminate_lookup c : ∀ b k, (k < length b)%nat →
  nulterminate c b !! k = (if decide (k ∈ (words c).*2) then Some 0 else b !! k).
Proof.
  assert (Happ : ∀ (l1 l2 : list (nat * nat)) k (x : option Z), (if decide (k ∈ l2.*2) then Some 0 else if decide (k ∈ l1.*2) then Some 0 else x)
    = if decide (k ∈ (l1 ++ l2).*2) then Some 0 else x).
  { intros l1 l2 k x. rewrite fmap_app. repeat case_decide; try done; exfalso; set_solver. }
  induction c as [argv|c IH q e mode fd|c1 IH1 c2 IH2|c1 IH1 c2 IH2|c IH]; intros b k Hk; cbn [nulterminate words].
  - by apply fold_insert_lookup.
  - destruct (decide (k = e)) as [->|Hne].
    + rewrite list_lookup_insert_eq by (by rewrite nulterminate_length). rewrite decide_True by (simpl; left). done.
    + rewrite list_lookup_insert_ne, IH by done. simpl. repeat case_decide; try done; exfalso; set_solver.
  - rewrite IH2, IH1 by (by rewrite ?nulterminate_length). apply Happ.
  - rewrite IH2, IH1 by (by rewrite ?nulterminate_length). apply Happ.
  - by apply IH.
Qed.

Lemma ahead_start : ahead (lex 0%nat) 0%nat.
Proof. split; [lia|done]. Qed.

Lemma parsecmd_spec :
  (match parsecmd 0%nat with Ok _ _ => True | Panic _ => True | _ => False end) ∧
  ∀ c b, (∃ s, parsecmd 0%nat = Ok (c, b) s) ↔ g_line (lex 0%nat) c ∧ b = nulterminate c (buf ++ [0]).
Proof.
  pose proof ahead_start as Ha. pose proof (ahead_length _ _ Ha) as Hlen.
  destruct (parse_sound parse_fuel) as [Hl _]. pose proof (Hl _ _ Ha ltac:(unfold parse_fuel; lia)) as Hs.
  (* the end of [parsecmd] *)
  assert (Hend : ∀ ts s, ahead ts s → ∃ s', peek [] s = Ok false s' ∧ ahead ts s' ∧ (s' = es ↔ ts = [])).
  { intros ts s A. destruct (peek_run [] s ts ltac:(set_solver) A) as (s' & E & A').
    assert (Hp : peeks [] ts = false) by (destruct ts as [|[] ?]; simpl; try done; by apply bool_decide_eq_false, not_elem_of_nil). rewrite Hp in E.
    exists s'. split_and!; [done|done|]. assert (Hs' : s' = scan (strchr whitespace) s) by (unfold peek, bind, get, modify, ret in E; congruence).
    destruct (ahead_cases s ts A) as [[-> Hq]|(c & e & Hq & _ & -> & _)]; split; try done; [by rewrite Hs'|lia]. }
  assert (Hrun : match parseline parse_fuel 0%nat with
    | Ok c s => ∃ s', ahead (lex s) s' ∧ parsecmd 0%nat = (if decide (lex s = []) then Ok (c, nulterminate c (buf ++ [0])) s' else Panic "syntax")
    | Panic msg => parsecmd 0%nat = Panic msg
    | _ => False
    end).
  { unfold sound in Hs. destruct (parseline parse_fuel 0%nat) as [c s|msg| | |] eqn:E; try done.
    - destruct Hs as (t1 & ts & Ht & Hg & A). destruct A as [A1 A2]. destruct (Hend (lex s) s ltac:(done)) as (s' & E' & A' & Hiff).
      exists s'. split; [done|]. unfold parsecmd, bind, get. rewrite E, E'. destruct (decide (lex s = [])) as [Hd|Hd].
      + apply Hiff in Hd. subst s'. by rewrite Nat.eqb_refl.
      + destruct (Nat.eqb_spec s' es) as [He|He]; [by apply Hiff in He|done].
    - unfold parsecmd, bind. by rewrite E. }
  split.
  - destruct (parseline parse_fuel 0%nat); try done; [|by rewrite Hrun]. destruct Hrun as (s' & _ & ->). by case_decide.
  - intros c b. split.
    + intros [s Hok]. unfold sound in Hs. destruct (parseline parse_fuel 0%nat) as [c' s1|msg| | |]; try done; [|by rewrite Hrun in Hok].
      destruct Hrun as (s' & A' & Hp). rewrite Hp in Hok. case_decide as Hd; [|done]. injection Hok as <- <- <-.
      destruct Hs as (t1 & ts & Ht & Hg & [A1 A2]). rewrite Hd in A2. subst ts. rewrite app_nil_r in Ht. by rewrite Ht.
    + intros [Hg ->]. destruct parse_complete as [Hc _].
      destruct (Hc _ _ Hg parse_fuel [] 0%nat) as (s & E & A); [by rewrite app_nil_r|done|unfold parse_fuel; lia|].
      rewrite E in Hrun. destruct Hrun as (s' & _ & Hp). destruct A as [_ A]. rewrite decide_True in Hp by done. by exists s'.
Qed.

(** C12: the shell's parser accepts exactly the lines of the grammar.  It ends on
    every command line, with a command or with a syntax error, and it returns the
    command [c] if and only if the tokens of the line are a line of the grammar
    for [c]. *)
Theorem parsecmd_correct :
  (match parsecmd 0%nat with Ok _ _ => True | Panic _ => True | _ => False end) ∧
  ∀ c b, (∃ s, parsecmd 0%nat = Ok (c, b) s) ↔ g_line (lex 0%nat) c ∧ b = nulterminate c (buf ++ [0]).
Proof. exact parsecmd_spec. Qed.

(** The strings of a parsed command are the words of the line.  In the
    buffer that [nulterminate] leaves, the string that starts at an argument or
    file name of the command is that word: its characters are those of the line,
    up to where the word ends, and a NUL follows. *)
Theorem nulterminate_words (c : cmd) (b : list Z) (s : nat) (Hp : parsecmd 0%nat = Ok (c, b) s) (q e : nat) (Hw : (q, e) ∈ words c) :
  (q < e ≤ length buf)%nat ∧ b !! e = Some 0 ∧
  ∀ k, (q ≤ k < e)%nat → b !! k = buf !! k ∧ in_word (ch k) = true.
Proof.
  destruct (proj1 (proj2 parsecmd_spec c b) (ex_intro _ s Hp)) as [Hg ->].
  apply (proj1 g_words) in Hg. pose proof (lex_words (S es) 0%nat q e ltac:(lia) (Hg q e Hw)) as (H1 & H2 & _).
  assert (Hb : ∀ k, (k ≤ es)%nat → (k < length (buf ++ [0%Z]))%nat) by (intros; rewrite length_app; unfold es in *; simpl; lia).
  split_and!; [lia|unfold es in *; lia| |].
  - rewrite nulterminate_lookup by (apply Hb; lia). rewrite decide_True; [done|]. apply list_elem_of_fmap. by exists (q, e).
  - intros k Hk. split; [|by apply H2]. rewrite nulterminate_lookup by (apply Hb; lia). rewrite decide_False.
    + rewrite lookup_app_l; [done|]. unfold es in *. lia.
    + intros ([q' e'] & -> & Hin)%list_elem_of_fmap. pose proof (lex_words (S es) 0%nat q' e' ltac:(lia) (Hg _ _ Hin)) as (H3 & H4 & H5).
      simpl in Hk. rewrite H2 in H5 by done. discriminate H5. lia.
Qed.
End Parser.

(** The line [ls -l|wc >x]. *)
Definition demo_line : list Z := [108; 115; 32; 45; 108; 124; 119; 99; 32; 62; 120].

Lemma demo_nonzero : Forall (λ c, c ≠ 0) demo_line.
Proof. repeat (constructor; [lia|]). constructor. Qed.

Definition demo_cmd : cmd := PIPE (EXEC [(0, 2); (3, 5)]%nat) (REDIR (EXEC [(6, 8)]%nat) 10 11 1537 1).
Definition demo_buf : list Z := [108; 115; 0; 45; 108; 0; 119; 99; 0; 62; 120; 0].

Lemma demo_parses : ∃ s, parsecmd demo_line 0%nat = Ok (demo_cmd, demo_buf) s.
Proof. eexists. vm_compute. reflexivity. Qed.

Lemma parsecmd_correct_witness : g_line (lex demo_line 0%nat) demo_cmd.
Proof.
  pose proof (parsecmd_correct demo_line demo_nonzero) as [_ Hiff]. specialize (Hiff demo_cmd demo_buf).
  apply proj1 in Hiff. specialize (Hiff demo_parses). exact (proj1 Hiff).
Defined.

Lemma nulterminate_words_witness : demo_buf !! 8%nat = Some 0.
Proof.
  destruct demo_parses as [s Hs].
  refine (proj1 (proj2 (nulterminate_words demo_line demo_nonzero demo_cmd demo_buf s Hs 6%nat 8%nat _))).
  cbn [demo_cmd words app]. right. right. right. left.
Defined.
