(* ===== verification/ShRun.v ===== *)
(** * ShRun: running commands, the other half of user/sh.c

    The shell as the system calls it makes: [prog] is a program that makes one
    call and goes on with its result.  What a program does to its descriptor
    table, and what processes it starts with which tables, is a [tree].  Whether
    an [open], an [exec] or a [fork] succeeds is given from outside.  The text
    of messages is left out. *)
From S2P Require Import Prelude Riscv CString ULib UProg Sh.

(** ** System calls *)

Inductive prog : Type :=
| exit (status : Z)
| exec (path : list Z) (argv : list (list Z)) (failed : prog)
| open (path : list Z) (mode : Z) (k : Z → prog)
| close (fd : Z) (k : prog)
| dup (fd : Z) (k : prog)
| pipe (k : option (Z * Z) → prog)
| fork (k : Z → prog)
| wait (k : prog)
| chdir (path : list Z) (k : Z → prog)
| fprintf (k : prog).

(** ** user/sh.c *)

Definition panic_ : prog := fprintf (exit 1).

Definition fork1 (k : Z → prog) : prog :=
  fork (λ pid, if pid =? -1 then panic_ else k pid).

(** [b] is the buffer the strings of the command are in. *)
Fixpoint runcmd (b : list Z) (c : cmd) : prog :=
  match c with
  | EXEC argv =>
      match argv with
      | [] => exit 1
      | a :: _ => exec (str b a.1) ((λ a, str b a.1) <$> argv) (fprintf (exit 0))
      end
  | REDIR c file _ mode fd =>
      close fd (open (str b file) mode (λ r, if r <? 0 then fprintf (exit 1) else runcmd b c))
  | LIST l r =>
      fork1 (λ pid, if pid =? 0 then runcmd b l else wait (runcmd b r))
  | PIPE l r =>
      pipe (λ p, match p with
        | None => panic_
        | Some (p0, p1) =>
            fork1 (λ pid,
              if pid =? 0 then close 1 (dup p1 (close p0 (close p1 (runcmd b l))))
              else
                fork1 (λ pid,
                  if pid =? 0 then close 0 (dup p0 (close p0 (close p1 (runcmd b r))))
                  else close p0 (close p1 (wait (wait (exit 0))))))
        end)
  | BACK c =>
      fork1 (λ pid, if pid =? 0 then runcmd b c else exit 0)
  end.

Definition console : list Z := [99; 111; 110; 115; 111; 108; 101].
Definition O_RDWR : Z := 2.

(** Ensure that three file descriptors are open; a process has NOFILE of them. *)
Fixpoint open_console (n : nat) (k : prog) : prog :=
  match n with
  | O => k
  | S n =>
      open console O_RDWR (λ fd,
        if fd <? 0 then k else if 3 <=? fd then close fd k else open_console n k)
  end.

(** What [read(0, &c, 1)] returns, one after the other: a byte, or nothing. *)
Notation input := (list (option Z)).
Definition read1 (inp : input) : option Z * input :=
  match inp with [] => (None, []) | r :: inp => (r, inp) end.

(** The string that is in [buf] afterwards, [None] for -1. *)
Definition getcmd (nbuf : Z) (inp : input) : option (list Z) * input :=
  let '(buf, inp) := gets read1 (λ _, 0) nbuf inp in
  (if buf 0 =? 0 then None else Some (upto_nul (buf <$> seqZ 0 nbuf)), inp).

(** The lines for which [getcmd] does not return -1; a line takes a byte of input. *)
Fixpoint lines (fuel : nat) (inp : input) : list (list Z) :=
  match fuel with
  | O => []
  | S fuel => match getcmd 100 inp with (Some buf, inp) => buf :: lines fuel inp | (None, _) => [] end
  end.

(** Read and run input commands. *)
Fixpoint commands (lines : list (list Z)) : prog :=
  match lines with
  | [] => exit 0
  | buf :: lines =>
      if bool_decide (take 3 buf = [99; 100; 32]) then
        chdir (drop 3 (take (length buf - 1) buf)) (λ r, if r <? 0 then fprintf (commands lines) else commands lines)
      else
        fork1 (λ pid,
          if pid =? 0 then
            match parsecmd buf 0%nat with
            | Ok (c, b) _ => runcmd b c
            | _ => panic_
            end
          else wait (commands lines))
  end.

Definition main (inp : input) : prog := open_console (S (Z.to_nat NOFILE)) (commands (lines (S (length inp)) inp)).

(** ** Lines of input *)

Lemma gets_loop_reads k : ∀ i buf inp i' buf' inp', gets_loop read1 k i buf inp = (i', buf', inp') →
  (∃ l, inp = l ++ inp') ∧ (buf' i ≠ buf i → (length inp' < length inp)%nat).
Proof.
  induction k as [|k IH]; intros i buf inp i' buf' inp' H; cbn in H; [simplify_eq; split; [by exists []|done]|].
  destruct inp as [|[c|] inp]; cbn in H; [simplify_eq; split; [by exists []|done]|..|simplify_eq; split; [by exists [None]|done]].
  case_match; [simplify_eq; split; [by exists [Some c]|cbn; lia]|]. apply IH in H as [[l ->] _].
  split; [by exists (Some c :: l)|]. intros _. cbn. rewrite length_app. lia.
Qed.

Lemma gets_loop_line l : ∀ k i buf rest, Forall (λ c, c ≠ 10 ∧ c ≠ 13) l → (length l < k)%nat →
  ∃ buf', gets_loop read1 k i buf ((Some <$> l ++ [10]) ++ rest) = (i + Z.of_nat (length l) + 1, buf', rest) ∧
    (∀ j, j < i ∨ i + Z.of_nat (length l) < j → buf' j = buf j) ∧
    ∀ j c, (l ++ [10]) !! j = Some c → buf' (i + Z.of_nat j) = c.
Proof.
  induction l as [|c l IH]; intros k i buf rest Hl Hk; (destruct k as [|k]; [cbn in Hk; lia|]); cbn.
  - eexists. split; [f_equal; f_equal; lia|]. split; intros j; [intros; rewrite upd_ne by lia; done|].
    intros c Hc. destruct j as [|j]; [|done]. cbn in Hc. simplify_eq. by rewrite Z.add_0_r, upd_eq.
  - apply Forall_cons in Hl as [[H1 H2] Hl]. apply Z.eqb_neq in H1 as ->. apply Z.eqb_neq in H2 as ->. cbn [orb].
    destruct (IH k (i + 1) (upd buf i c) rest Hl) as (buf' & Hg & Hold & Hnew); [cbn in Hk; lia|].
    exists buf'. split; [rewrite Hg; f_equal; f_equal; lia|]. split.
    + intros j Hj. rewrite Hold by lia. apply upd_ne. lia.
    + intros [|j] c' Hc; cbn in Hc; [simplify_eq|].
      * rewrite Z.add_0_r, Hold by lia. apply upd_eq.
      * rewrite <- (Hnew j c' Hc). f_equal. lia.
Qed.

Lemma getcmd_reads inp buf inp' : getcmd 100 inp = (Some buf, inp') → (length inp' < length inp)%nat.
Proof.
  unfold getcmd, gets. destruct (gets_loop _ _ _ _ _) as [[i b] inp1] eqn:E. destruct (Z.eqb_spec (upd b i 0 0) 0) as [|Hne]; [done|].
  intros [= _ <-]. apply gets_loop_reads in E as [_ H]. apply H. intros H0. rewrite upd_spec in Hne. by case_decide.
Qed.

Lemma lines_fuel n : ∀ inp m, (length inp < n)%nat → (n ≤ m)%nat → lines m inp = lines n inp.
Proof.
  induction n as [|n IH]; intros inp [|m] Hn Hm; [lia..|]. cbn [lines].
  destruct (getcmd 100 inp) as [[buf|] inp'] eqn:E; [|done]. apply getcmd_reads in E. f_equal. apply IH; lia.
Qed.

Lemma lines_nonul n : ∀ inp, Forall nonul (lines n inp).
Proof.
  induction n as [|n IH]; intros inp; cbn [lines]; [constructor|].
  destruct (getcmd 100 inp) as [[buf|] inp'] eqn:E; [|constructor]. constructor; [|apply IH].
  unfold getcmd in E. destruct (gets _ _ _ _). case_match; [done|]. simplify_eq. apply upto_nul_nonul.
Qed.

(** A line that fits the buffer. *)
Definition short_line (l : list Z) : Prop := Forall (λ c, c ≠ 0 ∧ c ≠ 10 ∧ c ≠ 13) l ∧ (length l < 99)%nat.

Lemma getcmd_line l rest : short_line l → getcmd 100 ((Some <$> l ++ [10]) ++ rest) = (Some (l ++ [10]), rest).
Proof.
  intros [Hl Hlen]. unfold getcmd, gets.
  destruct (gets_loop_line l (Z.to_nat (100 - 1)) 0 (λ _, 0) rest) as (b & -> & _ & Hb); [|lia|].
  { eapply Forall_impl; [exact Hl|]. naive_solver. }
  assert (Hn : nonul (l ++ [10])).
  { apply Forall_app. split; [|by repeat constructor]. eapply Forall_impl; [exact Hl|]. naive_solver. }
  set (b' := upd b _ 0).
  assert (Hb' : ∀ j c, (l ++ [10]) !! j = Some c → b' (Z.of_nat j) = c).
  { intros j c Hc. unfold b'. rewrite upd_ne; [by apply (Hb j c)|]. apply lookup_lt_Some in Hc. rewrite length_app in Hc. cbn in Hc. lia. }
  assert (Hs : seqZ 0 100 = seqZ 0 (Z.of_nat (length (l ++ [10]))) ++ seqZ (Z.of_nat (length (l ++ [10]))) (100 - Z.of_nat (length (l ++ [10])))).
  { rewrite length_app. cbn. rewrite <- seqZ_app by lia. f_equal. lia. }
  rewrite Hs, fmap_app.
  assert (Hp : b' <$> seqZ 0 (Z.of_nat (length (l ++ [10]))) = l ++ [10]).
  { apply list_eq. intros j. rewrite list_lookup_fmap. destruct ((l ++ [10]) !! j) as [c|] eqn:Hc.
    - rewrite lookup_seqZ_lt by (apply lookup_lt_Some in Hc; lia). cbn. f_equal. by apply Hb'.
    - rewrite lookup_seqZ_ge; [done|]. apply lookup_ge_None in Hc. lia. }
  rewrite Hp, upto_nul_app by done. rewrite (seqZ_cons (Z.of_nat _)) by (rewrite length_app; cbn; lia). cbn [fmap list_fmap upto_nul].
  assert (Hz : b' (Z.of_nat (length (l ++ [10]))) = 0).
  { unfold b'. rewrite length_app. cbn. replace (Z.of_nat (length l + 1)) with (0 + Z.of_nat (length l) + 1) by lia. apply upd_eq. }
  rewrite Hz. cbn. rewrite app_nil_r. destruct ((l ++ [10]) !! 0%nat) as [c|] eqn:Hc; [|by apply lookup_ge_None in Hc; rewrite length_app in Hc; cbn in Hc; lia].
  assert (H0 : b' 0 = c) by exact (Hb' 0%nat c Hc). rewrite H0. destruct (Z.eqb_spec c 0) as [->|]; [|done]. by apply (Forall_lookup_1 _ _ _ _ Hn) in Hc.
Qed.

(** Short lines arrive one by one. *)
Lemma lines_text ls : Forall short_line ls →
  let text := Some <$> mjoin ((λ l, l ++ [10]) <$> ls) in lines (S (length text)) text = (λ l, l ++ [10]) <$> ls.
Proof.
  induction 1 as [|l ls Hl _ IH]; [done|]. cbv zeta in IH |- *.
  change (mjoin ((λ l, l ++ [10]) <$> l :: ls)) with ((l ++ [10]) ++ mjoin ((λ l, l ++ [10]) <$> ls)). rewrite fmap_app, fmap_cons.
  cbn [lines]. rewrite getcmd_line by done. f_equal. etransitivity; [|exact IH]. apply lines_fuel; [lia|]. rewrite length_app, !length_fmap, length_app. cbn [length]. lia.
Qed.

(** ** Descriptor tables *)

(** What a descriptor refers to: something the shell was started with, a file it
    opened, an end of a pipe. *)
Inductive obj : Type :=
| Given (n : nat)
| Opened (path : list Z) (mode : Z)
| ReadEnd (id : list nat)
| WriteEnd (id : list nat).

Notation fds := (list (option obj)).

Inductive tree : Type :=
| Exited (status : Z)
| Runs (path : list Z) (argv : list (list Z)) (T : fds)
| Forks (child parent : tree)
| Waits (T : fds) (k : tree)
| Says (k : tree).

Section Run.
Context (opens : list Z → Z → bool) (execs : list Z → bool) (chdirs : list Z → bool) (forks : list nat → option Z).

(** What a process with the table [T] does.  [id] is the place in the tree, which
    names the pipes. *)
Fixpoint run (id : list nat) (T : fds) (p : prog) : tree :=
  match p with
  | exit st => Exited st
  | exec path argv k => if execs path then Runs path argv T else run id T k
  | open path mode k =>
      if opens path mode then
        match fd_alloc (Opened path mode) T with
        | Some (n, T) => run id T (k (Z.of_nat n))
        | None => run id T (k (-1))
        end
      else run id T (k (-1))
  | close fd k => run id (<[Z.to_nat fd := None]> T) k
  | dup fd k =>
      match T !! Z.to_nat fd with
      | Some (Some o) => match fd_alloc o T with Some (_, T) => run id T k | None => run id T k end
      | _ => run id T k
      end
  | pipe k =>
      match fd_alloc (ReadEnd id) T with
      | Some (n0, T0) =>
          match fd_alloc (WriteEnd id) T0 with
          | Some (n1, T1) => run (0%nat :: id) T1 (k (Some (Z.of_nat n0, Z.of_nat n1)))
          | None => run id T (k None)
          end
      | None => run id T (k None)
      end
  | fork k =>
      match forks id with
      | Some pid => Forks (run (1%nat :: id) T (k 0)) (run (2%nat :: id) T (k pid))
      | None => run id T (k (-1))
      end
  | wait k => Waits T (run id T k)
  | chdir path k => run id T (k (if chdirs path then 0 else -1))
  | fprintf k => Says (run id T k)
  end.

(** ** What a command should do

    Each command of a pipeline gets the table of the shell with one descriptor
    replaced by an end of the pipe; a redirection replaces one descriptor by the
    file; the shell that waits has the table it had. *)
Definition forking (id : list nat) (child parent : tree) : tree :=
  match forks id with Some _ => Forks child parent | None => Says (Exited 1) end.

Fixpoint shape (b : list Z) (id : list nat) (T : fds) (c : cmd) : tree :=
  match c with
  | EXEC argv =>
      match argv with
      | [] => Exited 1
      | a :: _ => if execs (str b a.1) then Runs (str b a.1) ((λ a, str b a.1) <$> argv) T else Says (Exited 0)
      end
  | REDIR c file _ mode fd =>
      if opens (str b file) mode then shape b id (<[Z.to_nat fd := Some (Opened (str b file) mode)]> T) c else Says (Exited 1)
  | LIST l r => forking id (shape b (1%nat :: id) T l) (Waits T (shape b (2%nat :: id) T r))
  | PIPE l r =>
      let id0 := 0%nat :: id in
      let id1 := 2%nat :: id0 in
      forking id0 (shape b (1%nat :: id0) (<[1%nat := Some (WriteEnd id)]> T) l)
        (forking id1 (shape b (1%nat :: id1) (<[0%nat := Some (ReadEnd id)]> T) r) (Waits T (Waits T (Exited 0))))
  | BACK c => forking id (shape b (1%nat :: id) T c) (Exited 0)
  end.

(** Descriptors 0, 1 and 2 are open and two others are free. *)
Definition ready (T : fds) : Prop :=
  ∃ a0 a1 a2 (R : list (option obj)) i j, T = Some a0 :: Some a1 :: Some a2 :: R ∧ (i < j)%nat ∧ R !! i = Some None ∧ R !! j = Some None.

(** Redirections are of descriptors 0 and 1. *)
Fixpoint redirs_ok (c : cmd) : Prop :=
  match c with
  | EXEC _ => True
  | REDIR c _ _ _ fd => (fd = 0 ∨ fd = 1) ∧ redirs_ok c
  | PIPE l r | LIST l r => redirs_ok l ∧ redirs_ok r
  | BACK c => redirs_ok c
  end.

Lemma ready_insert T fd o : ready T → (fd < 2)%nat → ready (<[fd := Some o]> T).
Proof.
  intros (a0 & a1 & a2 & R & i & j & -> & H) Hfd. destruct fd as [|[|]]; [| |lia].
  - by exists o, a1, a2, R, i, j.
  - by exists a0, o, a2, R, i, j.
Qed.

Hypothesis Hforks : ∀ id pid, forks id = Some pid → 0 < pid.

Lemma run_fork1 id T k : run id T (fork1 k) =
  match forks id with
  | Some pid => Forks (run (1%nat :: id) T (k 0)) (run (2%nat :: id) T (k pid))
  | None => Says (Exited 1)
  end.
Proof.
  unfold fork1. cbn [run]. destruct (forks id) as [pid|] eqn:E; [|done]. apply Hforks in E.
  destruct (Z.eqb_spec pid (-1)); [lia|done].
Qed.

Lemma run_close id T fd k : run id T (close fd k) = run id (<[Z.to_nat fd := None]> T) k.
Proof. done. Qed.

Lemma run_dup id T fd o n T' k : T !! Z.to_nat fd = Some (Some o) → fd_alloc o T = Some (n, T') → run id T (dup fd k) = run id T' k.
Proof. intros H1 H2. cbn [run]. by rewrite H1, H2. Qed.

Lemma close_rest (a b c : option obj) n0 n1 (R X : fds) : <[n1 := None]> (<[n0 := None]> X) = R →
  <[S (S (S n1)) := None]> (<[S (S (S n0)) := None]> (a :: b :: c :: X)) = a :: b :: c :: R.
Proof. by intros <-. Qed.

Lemma run_shape b c : ∀ id T, ready T → redirs_ok c → run id T (runcmd b c) = shape b id T c.
Proof.
  induction c as [argv|c IH file ef mode fd|l IHl r IHr|l IHl r IHr|c IH]; intros id T HT Hok; cbn [runcmd shape].
  - destruct argv as [|a argv]; [done|]. cbn [run]. by destruct (execs _).
  - destruct Hok as [Hfd Hok]. cbn [run]. destruct (opens (str b file) mode); [|done].
    assert (Hlt : (Z.to_nat fd < 2)%nat) by lia. pose proof (ready_insert T (Z.to_nat fd) (Opened (str b file) mode) HT Hlt) as HT'.
    destruct HT as (a0 & a1 & a2 & R & i & j & -> & H). destruct Hfd as [-> | ->]; cbn; rewrite <- IH by done; done.
  - destruct Hok as [Hl Hr]. pose proof HT as (a0 & a1 & a2 & R & i & j & -> & Hij & Hi & Hj). cbn [run fd_alloc].
    destruct (fd_alloc_free (ReadEnd id) R i Hi) as (n0 & Hn0 & HR0 & Hf0). rewrite Hf0. cbn [fd_alloc].
    destruct (fd_alloc_free (WriteEnd id) (<[n0 := Some (ReadEnd id)]> R) j) as (n1 & Hn1 & HR1 & Hf1).
    { rewrite list_lookup_insert_ne by lia. done. }
    rewrite Hf1. cbv beta iota.
    assert (Hne : n0 ≠ n1) by (intros ->; rewrite list_lookup_insert_eq in HR1; [done|by eapply lookup_lt_Some]).
    rewrite list_lookup_insert_ne in HR1 by done.
    rewrite run_fork1. unfold forking. destruct (forks (0%nat :: id)) as [pid|] eqn:E0; [|done]. apply Hforks in E0.
    destruct (Z.eqb_spec pid 0) as [?|_]; [lia|]. cbn [Z.eqb].
    assert (Hrest : <[n1 := None]> (<[n0 := None]> (<[n1 := Some (WriteEnd id)]> (<[n0 := Some (ReadEnd id)]> R))) = R).
    { apply list_eq. intros k. destruct (decide (k = n1)) as [->|Hk1]; [rewrite list_lookup_insert_eq; [done|]|rewrite list_lookup_insert_ne by done].
      { rewrite !length_insert. by eapply lookup_lt_Some. }
      destruct (decide (k = n0)) as [->|Hk0]; [rewrite list_lookup_insert_eq; [done|]|by rewrite !list_lookup_insert_ne by done].
      rewrite !length_insert. by eapply lookup_lt_Some. }
    f_equal.
    + rewrite run_close. change (Z.to_nat 1) with 1%nat. erewrite run_dup; [|rewrite Nat2Z.id; cbn; apply list_lookup_insert_eq; rewrite length_insert; by eapply lookup_lt_Some|done].
      rewrite !run_close, !Nat2Z.id. rewrite (close_rest _ _ _ n0 n1 R _ Hrest). apply IHl; [|done]. by apply (ready_insert _ 1 (WriteEnd id) HT ltac:(lia)).
    + rewrite run_fork1. destruct (forks (2%nat :: 0%nat :: id)) as [pid'|] eqn:E1; [|done]. apply Hforks in E1.
      destruct (Z.eqb_spec pid' 0) as [?|_]; [lia|]. cbn [Z.eqb]. f_equal.
      * rewrite run_close. change (Z.to_nat 0) with 0%nat. erewrite run_dup; [|rewrite Nat2Z.id; cbn; transitivity (<[n0 := Some (ReadEnd id)]> R !! n0);
          [apply list_lookup_insert_ne; congruence|apply list_lookup_insert_eq; by eapply lookup_lt_Some]|done].
        rewrite !run_close, !Nat2Z.id. rewrite (close_rest _ _ _ n0 n1 R _ Hrest). apply IHr; [|done]. by apply (ready_insert _ 0 (ReadEnd id) HT ltac:(lia)).
      * rewrite !run_close, !Nat2Z.id. rewrite (close_rest _ _ _ n0 n1 R _ Hrest). done.
  - destruct Hok as [Hl Hr]. rewrite run_fork1. unfold forking. destruct (forks id) as [pid|] eqn:E; [|done]. apply Hforks in E.
    destruct (Z.eqb_spec pid 0) as [?|_]; [lia|]. cbn [Z.eqb run]. by rewrite IHl, IHr.
  - rewrite run_fork1. unfold forking. destruct (forks id) as [pid|] eqn:E; [|done]. apply Hforks in E.
    destruct (Z.eqb_spec pid 0) as [?|_]; [lia|]. cbn [Z.eqb run]. by rewrite IH.
Qed.

(** *** The whole shell *)

Fixpoint shell_shape (id : list nat) (T : fds) (lines : list (list Z)) : tree :=
  match lines with
  | [] => Exited 0
  | buf :: lines =>
      if bool_decide (take 3 buf = [99; 100; 32]) then
        if chdirs (drop 3 (take (length buf - 1) buf)) then shell_shape id T lines else Says (shell_shape id T lines)
      else
        forking id
          (match parsecmd buf 0%nat with Ok (c, b) _ => shape b (1%nat :: id) T c | _ => Says (Exited 1) end)
          (Waits T (shell_shape (2%nat :: id) T lines))
  end.

Lemma redirs_push q e c : redirs_ok c → redirs_ok (push_arg q e c).
Proof. induction c; simpl; tauto. Qed.

Lemma redirs_redirs c r c' : g_redirs c r c' → redirs_ok c → redirs_ok c'.
Proof. induction 1; [done|..]; intros; apply IHg_redirs; simpl; tauto. Qed.

Lemma redirs_args argc c a c' : g_args argc c a c' → redirs_ok c → redirs_ok c'.
Proof. induction 1 as [|argc c q e r c1 a c2 _ Hr _ IH]; [done|]. intros Hc. eapply IH, redirs_redirs; [exact Hr|by apply redirs_push]. Qed.

Lemma redirs_backs n c : redirs_ok c → redirs_ok (backs n c).
Proof. revert c. induction n as [|n IH]; [done|]. intros c Hc. by apply (IH (BACK c)). Qed.

Lemma g_redirs_ok : (∀ t c, g_line t c → redirs_ok c) ∧ (∀ t c, g_pipe t c → redirs_ok c) ∧ (∀ t c, g_exec t c → redirs_ok c).
Proof.
  apply g_mutind; try done.
  - intros t c n _ IH. by apply redirs_backs.
  - intros t c n t2 c2 _ IH _ IH2. split; [by apply redirs_backs|done].
  - intros t c r c' _ IH Hr. by eapply redirs_redirs.
  - intros r c a c' Hr Ha. eapply redirs_args, redirs_redirs; done.
Qed.

Lemma parsed_redirs_ok buf c b s : nonul buf → parsecmd buf 0%nat = Ok (c, b) s → redirs_ok c.
Proof.
  intros Hb Hp. destruct (proj1 (proj2 (parsecmd_spec buf Hb) c b) (ex_intro _ s Hp)) as [Hg _]. exact (proj1 g_redirs_ok _ _ Hg).
Qed.

Lemma run_commands lines : Forall nonul lines → ∀ id T, ready T → run id T (commands lines) = shell_shape id T lines.
Proof.
  induction 1 as [|buf lines Hb _ IH]; intros id T HT; [done|]. cbn [commands shell_shape]. case_bool_decide.
  - cbn [run]. destruct (chdirs _); cbn [Z.ltb Z.compare]; [by apply IH|]. cbn [run]. by rewrite IH.
  - rewrite run_fork1. unfold forking. destruct (forks id) as [pid|] eqn:E; [|done]. apply Hforks in E.
    destruct (Z.eqb_spec pid 0) as [?|_]; [lia|]. cbn [Z.eqb run]. rewrite IH by done. f_equal.
    destruct (parsecmd buf 0%nat) as [[c b] s| | | |] eqn:Hp; try done. apply run_shape; [done|by eapply parsed_redirs_ok].
Qed.

(** The console takes the place of descriptors 0, 1 and 2 that are not open. *)
Definition fill (a : option obj) : option obj := match a with Some o => Some o | None => Some (Opened console O_RDWR) end.

Lemma run_open id T path mode k : opens path mode = true → run id T (open path mode k) =
  match fd_alloc (Opened path mode) T with Some (n, T) => run id T (k (Z.of_nat n)) | None => run id T (k (-1)) end.
Proof. intros H. cbn [run]. by rewrite H. Qed.

Lemma open_console_full n id a b c R k : opens console O_RDWR = true → (0 < n)%nat →
  run id (Some a :: Some b :: Some c :: R) (open_console n k) = run id (Some a :: Some b :: Some c :: R) k.
Proof.
  intros Ho Hn. destruct n as [|n]; [lia|]. cbn [open_console]. rewrite run_open by done. cbn [fd_alloc].
  destruct (fd_alloc (Opened console O_RDWR) R) as [[m R']|] eqn:E; [|done].
  destruct (Z.ltb_spec (Z.of_nat (S (S (S m)))) 0); [lia|]. destruct (Z.leb_spec 3 (Z.of_nat (S (S (S m))))); [|lia].
  rewrite run_close, Nat2Z.id. f_equal. cbn. do 3 f_equal.
  clear -E. revert m R' E. induction R as [|[x|] R IH]; intros m R' E; cbn [fd_alloc] in E; [done| |by simplify_eq].
  destruct (fd_alloc _ R) as [[m' R'']|]; [|done]. simplify_eq. cbn. f_equal. by apply IH.
Qed.

Lemma open_console_step n id T T' m k : opens console O_RDWR = true → fd_alloc (Opened console O_RDWR) T = Some (m, T') → (m < 3)%nat →
  run id T (open_console (S n) k) = run id T' (open_console n k).
Proof.
  intros Ho Hf Hm. cbn [open_console]. rewrite run_open, Hf by done.
  destruct (Z.ltb_spec (Z.of_nat m) 0); [lia|]. destruct (Z.leb_spec 3 (Z.of_nat m)); [lia|done].
Qed.

Lemma run_open_console n id a b c R k : opens console O_RDWR = true → (3 < n)%nat →
  run id (a :: b :: c :: R) (open_console n k) = run id (fill a :: fill b :: fill c :: R) k.
Proof.
  intros Ho Hn. destruct n as [|[|[|n]]]; [lia..|]. destruct a as [a|], b as [b|], c as [c|]; cbn [fill];
    repeat (erewrite open_console_step; [|done|reflexivity|lia]); apply open_console_full; done || lia.
Qed.

(** ** Who holds the ends of a pipe *)

(** A process of the tree that runs a program or waits has [o] open. *)
Fixpoint holds (o : obj) (t : tree) : Prop :=
  match t with
  | Exited _ => False
  | Runs _ _ T => Some o ∈ T
  | Forks t1 t2 => holds o t1 ∨ holds o t2
  | Waits T k => Some o ∈ T ∨ holds o k
  | Says k => holds o k
  end.

(** An end of a pipe made at [id] or further down the tree. *)
Definition made_at (id : list nat) (o : obj) : Prop :=
  ∃ l, o = ReadEnd (l ++ id) ∨ o = WriteEnd (l ++ id).

Lemma made_down l id o : made_at (l ++ id) o → made_at id o.
Proof. intros [l' H]. exists (l' ++ l). by rewrite <- app_assoc. Qed.

Lemma holds_forking id o t1 t2 : holds o (forking id t1 t2) → holds o t1 ∨ holds o t2.
Proof. unfold forking. by destruct (forks id). Qed.

Lemma elem_of_set (T : fds) n x y : x ∈ <[n := y]> T → x = y ∨ x ∈ T.
Proof.
  intros [i Hi]%list_elem_of_lookup. apply list_lookup_insert_Some in Hi as [(_ & -> & _)|[_ Hi]]; [by left|right].
  by eapply list_elem_of_lookup_2.
Qed.

Lemma shape_holds o b c : ∀ id T, holds o (shape b id T c) → Some o ∈ T ∨ (∃ p m, o = Opened p m) ∨ made_at id o.
Proof.
  assert (Hdown : ∀ l id (X Y : Prop), X ∨ Y ∨ made_at (l ++ id) o → X ∨ Y ∨ made_at id o).
  { intros l id X Y [?|[?|?%made_down]]; auto. }
  induction c as [argv|c IH file ef mode fd|l IHl r IHr|l IHl r IHr|c IH]; intros id T H; cbn [shape] in H.
  - destruct argv as [|a argv]; [done|]. destruct (execs _); [by left|done].
  - destruct (opens _ _); [|done]. apply IH in H as [H|H]; [|by right].
    apply elem_of_set in H as [[= ->]|H]; [right; left; eauto|by left].
  - apply holds_forking in H as [H|H].
    + apply IHl, (Hdown [1; 0]%nat) in H as [H|H]; [|by right]. apply elem_of_set in H as [[= ->]|H]; [|by left].
      right; right. exists []. by right.
    + apply holds_forking in H as [H|H].
      * apply IHr, (Hdown [1; 2; 0]%nat) in H as [H|H]; [|by right]. apply elem_of_set in H as [[= ->]|H]; [|by left].
        right; right. exists []. by left.
      * cbn in H. tauto.
  - apply holds_forking in H as [H|[H|H]]; [|by left|].
    + by apply IHl, (Hdown [1]%nat) in H.
    + by apply IHr, (Hdown [2]%nat) in H.
  - apply holds_forking in H as [H|[]]. by apply IH, (Hdown [1]%nat) in H.
Qed.

Lemma made_below x l id o : made_at (x :: l ++ id) o → o ≠ ReadEnd id ∧ o ≠ WriteEnd id.
Proof.
  intros [l' [-> | ->]]; split; try done; intros [= Hl]; apply (f_equal length) in Hl; rewrite length_app in Hl; cbn in Hl;
    rewrite length_app in Hl; lia.
Qed.

(** No end of a pipe that the command is still to make is open. *)
Definition fresh (id : list nat) (T : fds) : Prop := ∀ o, Some o ∈ T → ¬ made_at id o.

Lemma fresh_ends id T : fresh id T → Some (ReadEnd id) ∉ T ∧ Some (WriteEnd id) ∉ T.
Proof. intros HT. split; intros H; apply (HT _ H); exists []; auto. Qed.

Lemma no_end b c id x l T o : o = ReadEnd id ∨ o = WriteEnd id → Some o ∉ T → ¬ holds o (shape b (x :: l ++ id) T c).
Proof.
  intros Ho HT [H|[(p & m & ->)|H]]%shape_holds; [done|by destruct Ho|]. apply made_below in H as [??]. tauto.
Qed.

(** C16: the shell gives every command its descriptors.  Started with any
    descriptors 0, 1 and 2, two free ones, and a console that opens, the shell
    opens the console in place of those that are missing, and then every line that
    it gets, whatever it reads, runs
    in a tree of processes of the shape it should have: a command of a pipeline
    has the shell's own table with 1 or 0 replaced by an end of the pipe, a
    redirection replaces one descriptor by the opened file, a failed open or fork
    ends only the process it is in, and the shell itself keeps its table from line
    to line, so that it does not run out of descriptors. *)
Theorem shell_runs (a b c : option obj) (R : fds) (i j : nat) (inp : input)
    (Hij : (i < j)%nat) (Hi : R !! i = Some None) (Hj : R !! j = Some None)
    (Ho : opens console O_RDWR = true) :
  run [] (a :: b :: c :: R) (main inp) = shell_shape [] (fill a :: fill b :: fill c :: R) (lines (S (length inp)) inp).
Proof.
  unfold main. rewrite run_open_console by (done || unfold NOFILE; lia). apply run_commands; [apply lines_nonul|].
  assert (Hf : ∀ x, ∃ o, fill x = Some o) by (intros [x|]; eexists; done).
  destruct (Hf a) as [x ->], (Hf b) as [y ->], (Hf c) as [z ->]. by exists x, y, z, R, i, j.
Qed.

(** C23: a pipeline ends.  When a pipeline runs, the write end of its pipe is open
    in processes of the left command only and the read end in processes of the
    right command only: not in the shell that waits for the two, and in nothing
    else that either command starts.  So the reader sees the end of the file once
    the left command has exited, and the writer gets an error once the right one
    has. *)
Theorem pipeline_ends (buf : list Z) (id : list nat) (T : fds) (l r : cmd)
    (HT : ready T) (Hok : redirs_ok (PIPE l r)) (Hid : fresh id T) :
  ∃ left right, run id T (runcmd buf (PIPE l r)) =
      forking (0%nat :: id) left (forking (2%nat :: 0%nat :: id) right (Waits T (Waits T (Exited 0)))) ∧
    ¬ holds (ReadEnd id) left ∧ ¬ holds (WriteEnd id) right ∧
    ¬ holds (ReadEnd id) (Waits T (Waits T (Exited 0))) ∧ ¬ holds (WriteEnd id) (Waits T (Waits T (Exited 0))).
Proof.
  rewrite run_shape by done. cbn [shape]. eexists _, _. split; [reflexivity|].
  destruct (fresh_ends id T Hid) as [HR HW]. split_and!.
  - apply (no_end buf l id 1%nat [0%nat]); [by left|]. intros [H|H]%elem_of_set; [discriminate H|done].
  - apply (no_end buf r id 1%nat [2%nat; 0%nat]); [by right|]. intros [H|H]%elem_of_set; [discriminate H|done].
  - cbn. tauto.
  - cbn. tauto.
Qed.
End Run.

(** A shell with descriptors 0 and 2 of which the programs ls and wc and every
    file exist, and the line [ls -l|wc >x]. *)
Definition demo_open (_ : list Z) (_ : Z) : bool := true.
Definition demo_exec (path : list Z) : bool := bool_decide (path = [108; 115] ∨ path = [119; 99]).
Definition demo_fork (id : list nat) : option Z := Some (Z.of_nat (length id) + 3).
Definition demo_table : fds := [Some (Given 0); None; Some (Given 2); None; None; None].

Lemma demo_fork_pos id pid : demo_fork id = Some pid → 0 < pid.
Proof. unfold demo_fork. intros. simplify_eq. lia. Qed.

Lemma shell_runs_witness :
  run demo_open demo_exec demo_exec demo_fork [] demo_table (main (Some <$> demo_line)) =
    let con := Some (Opened console O_RDWR) in
    let out := Some (Opened [120] 1537) in
    let shell := [Some (Given 0); con; Some (Given 2); None; None; None] in
    Forks
      (Forks (Runs [108; 115] [[108; 115]; [45; 108]] [Some (Given 0); Some (WriteEnd [1%nat]); Some (Given 2); None; None; None])
        (Forks (Runs [119; 99] [[119; 99]] [Some (ReadEnd [1%nat]); out; Some (Given 2); None; None; None])
          (Waits shell (Waits shell (Exited 0)))))
      (Waits shell (Exited 0)).
Proof.
  etransitivity.
  - apply (shell_runs demo_open demo_exec demo_exec demo_fork demo_fork_pos (Some (Given 0)) None (Some (Given 2)) [None; None; None] 0 1 (Some <$> demo_line));
      [lia|reflexivity|reflexivity|reflexivity].
  - vm_compute. reflexivity.
Defined.

Lemma pipeline_ends_witness : ∃ left right,
  run demo_open demo_exec demo_exec demo_fork [] [Some (Given 0); Some (Given 1); Some (Given 2); None; None] (runcmd demo_buf demo_cmd) =
    Forks left (Forks right (Waits [Some (Given 0); Some (Given 1); Some (Given 2); None; None]
      (Waits [Some (Given 0); Some (Given 1); Some (Given 2); None; None] (Exited 0)))) ∧
  ¬ holds (ReadEnd []) left ∧ ¬ holds (WriteEnd []) right.
Proof.
  destruct (pipeline_ends demo_open demo_exec demo_exec demo_fork demo_fork_pos demo_buf [] [Some (Given 0); Some (Given 1); Some (Given 2); None; None]
    (EXEC [(0, 2); (3, 5)]%nat) (REDIR (EXEC [(6, 8)]%nat) 10 11 1537 1)) as (left & right & Hrun & Hl & Hr & _).
  - exists (Given 0), (Given 1), (Given 2), [None; None], 0%nat, 1%nat. split; [reflexivity|]. split; [lia|]. split; reflexivity.
  - cbn. split; [exact I|]. split; [right; reflexivity|exact I].
  - intros o Hin [x Hx]. repeat (apply elem_of_cons in Hin as [Hin|Hin]; [destruct Hx as [-> | ->]; discriminate Hin|]). by apply elem_of_nil in Hin.
  - exists left, right. split; [exact Hrun|]. split; [exact Hl|exact Hr].
Defined.
