(* ===== verification/Xargs.v ===== *)
(** * Xargs: user/xargs.c

    The program on the results of its reads.  Its buffers are arrays that must
    not be overrun; what an array holds before it is written is arbitrary.  What
    it does is the commands it starts, in order. *)
From S2P Require Import Prelude Riscv UProg.

Definition BUFFER_SIZE : nat := 512.
Definition NEWLINE : Z := 10.

(** The commands that were started; whether the next [fork] succeeds is given. *)
Record xs : Type := mkXs { started : list (list (list Z)); nfork : nat }.

(** An element of an array, and an update of one. *)
Definition at_ (a : list Z) (i : nat) : M xs Z := match a !! i with Some c => ret c | None => undef end.
Definition put (a : list Z) (i : nat) (c : Z) : M xs (list Z) :=
  if (i <? length a)%nat then ret (<[i := c]> a) else undef.

Section Xargs.
Context (forks : nat → bool) (junk : list Z) (argv : list (list Z)).

Definition argc : Z := Z.of_nat (length argv).

(** [fork], [exec] in the child, [wait] in the parent; false when there is no child. *)
Definition start (cmd : list (list Z)) : M xs bool := λ s,
  if forks (nfork s) then Ok true (mkXs (started s ++ [cmd]) (S (nfork s))) else Ok false (mkXs (started s) (S (nfork s))).

(** [while (i < n && buffer[i] != '\n') line[j++] = buffer[i++]] *)
Fixpoint copy_line (fuel : nat) (buffer : list Z) (n i : nat) (line : list Z) (j : nat) : M xs (nat * list Z * nat) :=
  match fuel with
  | O => nofuel
  | S fuel =>
      if (i <? n)%nat then
        do c <- at_ buffer i;
        if c =? NEWLINE then ret (i, line, j)
        else
          do line <- put line j c;
          copy_line fuel buffer n (S i) line (S j)
      else ret (i, line, j)
  end.

(** The loop over what one read has left in the buffer; [Some] is the status of an
    exit.  [cmd_argv] has room for MAXARG pointers. *)
Fixpoint run_lines (fuel : nat) (buffer : list Z) (n i : nat) : M xs (option Z) :=
  match fuel with
  | O => nofuel
  | S fuel =>
      if (i <? n)%nat then
        do '(i, line, j) <- copy_line (S n) buffer n i junk 0;
        do c <- at_ buffer i;
        let i := if c =? NEWLINE then S i else i in
        do line <- put line j 0;
        if MAXARG <=? argc then undef
        else
          do ok <- start (drop 1 argv ++ [upto_nul line]);
          if negb ok then ret (Some 1) else run_lines fuel buffer n i
      else ret None
  end.

(** [reads] are the results of the reads that return more than 0. *)
Fixpoint read_loop (buffer : list Z) (reads : list (list Z)) : M xs Z :=
  match reads with
  | [] => ret 0
  | r :: reads =>
      let buffer := splice buffer 0 r in
      do st <- run_lines (S (length r)) buffer (length r) 0;
      match st with
      | Some st => ret st
      | None => read_loop buffer reads
      end
  end.

Definition main (buffer : list Z) (reads : list (list Z)) : M xs Z :=
  if argc <? 2 then ret 1
  else if MAXARG <? argc then undef
  else read_loop buffer reads.
End Xargs.

(** ** Lines *)

(** The lines of a text; the last one may lack its newline. *)
Fixpoint text_lines (t : list Z) : list (list Z) :=
  match t with
  | [] => []
  | c :: t =>
      if c =? NEWLINE then [] :: text_lines t
      else match text_lines t with [] => [[c]] | l :: ls => (c :: l) :: ls end
  end.

Definition plain (p : list Z) : Prop := NEWLINE ∉ p.

Lemma plain_cons c p : plain (c :: p) → c ≠ NEWLINE ∧ plain p.
Proof. unfold plain. rewrite elem_of_cons. naive_solver. Qed.

Lemma lines_cut p t : plain p → text_lines (p ++ NEWLINE :: t) = p :: text_lines t.
Proof.
  induction p as [|c p IH]; intros Hp; [done|]. apply plain_cons in Hp as [Hc Hp]. cbn.
  destruct (Z.eqb_spec c NEWLINE); [done|]. by rewrite IH.
Qed.

Lemma lines_last p : plain p → p ≠ [] → text_lines p = [p].
Proof.
  induction p as [|c p IH]; intros Hp Hne; [done|]. apply plain_cons in Hp as [Hc Hp]. cbn.
  destruct (Z.eqb_spec c NEWLINE); [done|]. destruct p as [|c' p]; [done|]. by rewrite IH.
Qed.

Lemma text_cases t : (∃ p t', t = p ++ NEWLINE :: t' ∧ plain p) ∨ plain t.
Proof.
  destruct (decide (NEWLINE ∈ t)) as [Hin|]; [left|by right]. apply list_elem_of_split_l in Hin as (p & t' & -> & Hp).
  by exists p, t'.
Qed.

Lemma lines_some a t : ∃ l ls, text_lines (a ++ NEWLINE :: t) = l :: ls.
Proof.
  induction a as [|c a (l & ls & IH)]; cbn; [by eexists _, _|]. case_match; [by eexists _, _|]. rewrite IH. by eexists _, _.
Qed.

Lemma text_lines_app a b : text_lines ((a ++ [NEWLINE]) ++ b) = text_lines (a ++ [NEWLINE]) ++ text_lines b.
Proof.
  induction a as [|c a IH]; [done|]. cbn. destruct (c =? NEWLINE); [cbn; by rewrite IH|]. rewrite IH.
  by destruct (lines_some a []) as (l & ls & ->).
Qed.

(** ** What xargs does *)
Section Spec.
Context (forks : nat → bool) (junk : list Z) (argv : list (list Z)).
Hypothesis Hforks : ∀ k, forks k = true.
Hypothesis Hjunk : length junk = BUFFER_SIZE.
Hypothesis Hargs : 2 ≤ argc argv < MAXARG.

(** The command for a line. *)
Definition command (l : list Z) : list (list Z) := drop 1 argv ++ [upto_nul l].

Definition ran (ls : list (list Z)) (s : xs) : xs := mkXs (started s ++ (command <$> ls)) (nfork s + length ls).

Lemma ran_nil s : ran [] s = s.
Proof. destruct s. unfold ran. cbn. by rewrite app_nil_r, Nat.add_0_r. Qed.

Lemma ran_cons l ls s : ran ls (ran [l] s) = ran (l :: ls) s.
Proof. unfold ran. cbn. rewrite <- app_assoc. f_equal. lia. Qed.

Lemma start_ran l s : start forks (command l) s = Ok true (ran [l] s).
Proof. unfold start, ran. rewrite Hforks. cbn. f_equal. f_equal. lia. Qed.

Lemma at_some a i c s : a !! i = Some c → at_ a i s = Ok c s.
Proof. unfold at_. by intros ->. Qed.

Lemma at_mid a c r s : at_ (a ++ c :: r) (length a) s = Ok c s.
Proof. apply at_some. by apply list_lookup_middle. Qed.

Lemma put_mid q x r c s : put (q ++ x :: r) (length q) c s = Ok ((q ++ [c]) ++ r) s.
Proof.
  unfold put. rewrite (proj2 (Nat.ltb_lt _ _)) by (rewrite length_app; cbn; lia).
  unfold ret. f_equal. rewrite insert_app_r_alt by lia. rewrite Nat.sub_diag. cbn. by rewrite <- app_assoc.
Qed.

(** The rest of a line is copied: [q] was copied before, [r] is the room for it. *)
Lemma copy_line_run p : plain p → ∀ fuel pre tail n q r s, (length p < fuel)%nat → (length p ≤ length r)%nat →
  (n = length pre + length p ∨ (length pre + length p < n ∧ ∃ t, tail = NEWLINE :: t))%nat →
  copy_line fuel (pre ++ p ++ tail) n (length pre) (q ++ r) (length q) s =
    Ok ((length pre + length p)%nat, (q ++ p) ++ drop (length p) r, (length q + length p)%nat) s.
Proof.
  induction p as [|c p IH]; intros Hp fuel pre tail n q r s Hf Hr Hn; (destruct fuel as [|fuel]; [cbn in Hf; lia|]); cbn [copy_line].
  - cbn [length app drop] in *. rewrite app_nil_r, !Nat.add_0_r in *. destruct Hn as [->|[Hn [t ->]]].
    + rewrite Nat.ltb_irrefl. done.
    + rewrite (proj2 (Nat.ltb_lt _ _)) by lia. erewrite bind_Ok by apply at_mid. done.
  - apply plain_cons in Hp as [Hc Hp]. cbn [length] in *.
    rewrite (proj2 (Nat.ltb_lt _ _)) by (destruct Hn as [?|[? _]]; lia). cbn [app].
    erewrite bind_Ok by apply at_mid. destruct (Z.eqb_spec c NEWLINE); [done|]. destruct r as [|x r]; [cbn in Hr; lia|].
    erewrite bind_Ok by apply put_mid. specialize (IH Hp fuel (pre ++ [c]) tail n (q ++ [c]) r s).
    rewrite !length_app in IH. cbn [length] in *. rewrite <- !app_assoc in IH. cbn [app] in IH. rewrite !Nat.add_1_r in IH. rewrite <- app_assoc. cbn [app].
    rewrite IH by (lia || (destruct Hn as [?|[? ?]]; [left; lia|right; split; [lia|done]])).
    f_equal. cbn [drop]. rewrite <- !app_assoc. cbn [app]. f_equal; [f_equal; lia|lia].
Qed.

Lemma put_nul p s : (length p < BUFFER_SIZE)%nat →
  ∃ line, put (p ++ drop (length p) junk) (length p) 0 s = Ok line s ∧ upto_nul line = upto_nul p.
Proof.
  intros Hp. destruct (drop (length p) junk) as [|x r] eqn:E.
  { apply (f_equal length) in E. rewrite length_drop, Hjunk in E. cbn [length] in E. lia. }
  exists ((p ++ [0]) ++ r). split; [apply put_mid|]. rewrite <- app_assoc. apply upto_nul_end.
Qed.

(** One line: what the body of the loop does once the line has been found. *)
Lemma run_line p pre c tail fuel n s : plain p → (length p < BUFFER_SIZE)%nat →
  (n = (length pre + length p)%nat ∨ ((length pre + length p < n)%nat ∧ c = NEWLINE)) → (length pre < n)%nat →
  run_lines forks junk argv (S fuel) (pre ++ p ++ c :: tail) n (length pre) s =
    run_lines forks junk argv fuel (pre ++ p ++ c :: tail) n (if c =? NEWLINE then S (length pre + length p) else (length pre + length p)%nat) (ran [p] s).
Proof.
  intros Hp Hlen Hn Hlt. cbn [run_lines]. rewrite (proj2 (Nat.ltb_lt _ _)) by done.
  erewrite bind_Ok by (apply (copy_line_run p Hp (S n) pre (c :: tail) n [] junk s); [lia|rewrite Hjunk; lia|destruct Hn as [?|[? ->]]; [by left|right; eauto]]).
  cbn [app length Nat.add]. erewrite bind_Ok by (apply at_some; rewrite app_assoc, <- length_app; by apply list_lookup_middle).
  destruct (put_nul p s Hlen) as (line & Hput & Hup). cbv zeta. erewrite bind_Ok by exact Hput.
  destruct (Z.leb_spec MAXARG (argc argv)); [lia|]. rewrite Hup. erewrite bind_Ok by apply start_ran. done.
Qed.

(** The text ends with a newline, if it is not empty. *)
Definition ended (t : list Z) : Prop := t = [] ∨ last t = Some NEWLINE.

#[global] Instance ended_dec t : Decision (ended t).
Proof. unfold ended. apply _. Defined.

Lemma ended_cut p t : ended (p ++ NEWLINE :: t) ↔ ended t.
Proof.
  unfold ended. rewrite !last_Some. split.
  - intros [H|[a H]]; [by destruct p|]. destruct t as [|x t _] using rev_ind; [by left|right]. exists t.
    rewrite app_comm_cons, app_assoc in H. by apply app_inj_tail in H as [_ ->].
  - intros [->|[a ->]]; right; [by exists p|]. exists (p ++ NEWLINE :: a). by rewrite <- app_assoc.
Qed.

Lemma run_lines_run m : ∀ rest, (length rest ≤ m)%nat → ∀ fuel pre tail s, (length rest < fuel)%nat → length (pre ++ rest ++ tail) = BUFFER_SIZE →
  (tail ≠ [] ∨ ended rest →
    run_lines forks junk argv fuel (pre ++ rest ++ tail) (length pre + length rest) (length pre) s = Ok None (ran (text_lines rest) s)) ∧
  (tail = [] → ¬ ended rest →
    run_lines forks junk argv fuel (pre ++ rest ++ tail) (length pre + length rest) (length pre) s = Undef).
Proof.
  induction m as [|m IH]; intros rest Hm [|fuel] pre tail s Hf Hlen; [lia| |lia|].
  all: destruct rest as [|x0 rest0]; [split; [intros _; cbn [run_lines length]; by rewrite Nat.add_0_r, Nat.ltb_irrefl, ran_nil|intros _ []; by left]|].
  { cbn in Hm. lia. }
  set (rest := x0 :: rest0) in *. assert (Hne : rest ≠ []) by done. clearbody rest. clear x0 rest0. rewrite !length_app in Hlen.
  destruct (text_cases rest) as [(p & t & -> & Hp)|Hp].
  - rewrite ended_cut, lines_cut by done. rewrite length_app in *. cbn [length] in *. rewrite <- app_assoc. cbn [app].
    rewrite run_line by (done || (right; split; [lia|done]) || lia). rewrite Z.eqb_refl.
    specialize (IH t ltac:(lia) fuel (pre ++ p ++ [NEWLINE]) tail (ran [p] s) ltac:(lia)).
    rewrite !length_app, <- !app_assoc in IH. cbn [length app] in IH.
    replace (S (length pre + length p)) with (length pre + (length p + 1))%nat by lia.
    replace (length pre + (length p + S (length t)))%nat with (length pre + (length p + 1) + length t)%nat by lia.
    rewrite ran_cons in IH. apply IH. lia.
  - rewrite lines_last by done. split.
    + intros [Ht|He]; [|destruct He as [?|[a ->]%last_Some]; [done|]; exfalso; apply Hp, elem_of_app; right; by apply list_elem_of_singleton].
      destruct tail as [|c tail]; [done|]. cbn [length] in Hlen. assert (0 < length rest)%nat by (destruct rest; [done|cbn; lia]).
      rewrite run_line by (done || (by left) || lia). destruct fuel as [|fuel]; [lia|]. cbn [run_lines].
      rewrite (proj2 (Nat.ltb_ge _ _)); [done|]. destruct (c =? NEWLINE); lia.
    + intros -> _. assert (0 < length rest)%nat by (destruct rest; [done|cbn; lia]). cbn [length] in Hlen.
      cbn [run_lines]. rewrite (proj2 (Nat.ltb_lt _ _)) by lia.
      erewrite bind_Ok by (apply (copy_line_run rest Hp _ pre [] _ [] junk s); [lia|rewrite Hjunk; lia|by left]).
      unfold bind at 1, at_. rewrite lookup_ge_None_2; [done|]. rewrite !length_app. cbn [length]. lia.
Qed.

(** A read that leaves no room behind a last line that is not ended. *)
Definition overfull (r : list Z) : Prop := length r = BUFFER_SIZE ∧ ¬ ended r.

#[global] Instance overfull_dec r : Decision (overfull r).
Proof. unfold overfull. apply _. Defined.

Lemma ran_app l1 l2 s : ran l2 (ran l1 s) = ran (l1 ++ l2) s.
Proof. unfold ran. cbn. rewrite fmap_app, length_app, <- app_assoc. f_equal. lia. Qed.

Lemma read_loop_run reads : Forall (λ r, (length r ≤ BUFFER_SIZE)%nat) reads → ∀ buffer s, length buffer = BUFFER_SIZE →
  (Forall (λ r, ¬ overfull r) reads → read_loop forks junk argv buffer reads s = Ok 0 (ran (mjoin (text_lines <$> reads)) s)) ∧
  (Exists overfull reads → read_loop forks junk argv buffer reads s = Undef).
Proof.
  induction 1 as [|r reads Hr _ IH]; intros buffer s Hb; [split; [by rewrite ran_nil|intros H; inversion H]|].
  cbn [read_loop]. cbv zeta. change (splice buffer 0 r) with ([] ++ r ++ drop (length r) buffer).
  destruct (run_lines_run (length r) r (le_n _) (S (length r)) [] (drop (length r) buffer) s) as [H1 H2]; [lia|cbn; rewrite length_app, length_drop; lia|].
  assert (Hdrop : drop (length r) buffer = [] ↔ length r = BUFFER_SIZE).
  { split; [intros E%(f_equal length); rewrite length_drop in E; cbn [length] in E; lia|]. intros. apply drop_ge. lia. }
  change (mjoin (text_lines <$> r :: reads)) with (text_lines r ++ mjoin (text_lines <$> reads)).
  destruct (decide (overfull r)) as [[Hfull Hend]|Hno].
  - split; [intros [Hn _]%Forall_cons; by destruct Hn|]. intros _. unfold bind. cbn [length Nat.add] in H2. rewrite H2; [done|by apply Hdrop|done].
  - assert (Hok : drop (length r) buffer ≠ [] ∨ ended r).
    { destruct (decide (ended r)); [by right|left]. intros E%Hdrop. by apply Hno. }
    specialize (H1 Hok). cbn [length Nat.add] in H1. destruct (IH ([] ++ r ++ drop (length r) buffer) (ran (text_lines r) s)) as [IH1 IH2].
    { cbn. rewrite length_app, length_drop. lia. }
    rewrite ran_app in IH1. split.
    + intros [_ Hall]%Forall_cons. erewrite bind_Ok by exact H1. by apply IH1.
    + intros [He|He]%Exists_cons; [done|]. erewrite bind_Ok by exact H1. by apply IH2.
Qed.

Lemma lines_join reads : Forall ended reads → mjoin (text_lines <$> reads) = text_lines (mjoin reads).
Proof.
  induction 1 as [|r rs [->|[a ->]%last_Some] _ IH]; [done|exact IH|].
  change (text_lines (a ++ [NEWLINE]) ++ mjoin (text_lines <$> rs) = text_lines ((a ++ [NEWLINE]) ++ mjoin rs)). by rewrite IH, text_lines_app.
Qed.

(** C24: xargs runs its command once for every line.  When forks succeed, xargs
    with at most MAXARG-2 arguments of its own starts the command with the lines of
    the input, each as the last argument, in order, whatever its buffers held
    before; lines are those of each read, so that they are those of the whole
    input if every read ends at the end of a line.  It stays within its buffers if
    and only if no read fills the buffer with a text that does not end with a
    newline. *)
Theorem xargs_correct (buffer : list Z) (reads : list (list Z))
    (Hbuf : length buffer = BUFFER_SIZE) (Hreads : Forall (λ r, (length r ≤ BUFFER_SIZE)%nat) reads) :
  (Forall (λ r, ¬ overfull r) reads → main forks junk argv buffer reads (mkXs [] 0) =
     Ok 0 (mkXs (command <$> mjoin (text_lines <$> reads)) (length (mjoin (text_lines <$> reads))))) ∧
  (Exists overfull reads → main forks junk argv buffer reads (mkXs [] 0) = Undef) ∧
  (Forall ended reads → mjoin (text_lines <$> reads) = text_lines (mjoin reads)).
Proof.
  destruct (read_loop_run reads Hreads buffer (mkXs [] 0) Hbuf) as [H1 H2]. unfold main.
  destruct (Z.ltb_spec (argc argv) 2); [lia|]. destruct (Z.ltb_spec MAXARG (argc argv)); [lia|]. split; [done|]. split; [done|].
  apply lines_join.
Qed.
End Spec.

(** [xargs e] on three lines that come in two reads. *)
Lemma xargs_correct_witness :
  main (λ _, true) (replicate 512 85) [[120]; [101]] (replicate 512 10) [[97; 10; 98; 10]; [99]] (mkXs [] 0) =
    Ok 0 (mkXs [[[101]; [97]]; [[101]; [98]]; [[101]; [99]]] 3).
Proof.
  refine (proj1 (xargs_correct (λ _, true) (replicate 512 85) [[120]; [101]] _ _ _ (replicate 512 10) [[97; 10; 98; 10]; [99]] _ _) _).
  - intros k. reflexivity.
  - reflexivity.
  - unfold argc, MAXARG. cbn. lia.
  - reflexivity.
  - repeat (constructor; [vm_compute; lia|]). constructor.
  - repeat (constructor; [intros [Hl _]; discriminate Hl|]). constructor.
Defined.
