(* ===== verification/Filters.v ===== *)
(** * Filters: user/cat.c, user/wc.c, user/echo.c and the main of user/grep.c

    Programs that go through files in turn.  A file is what the reads of it
    return: pieces of any size, then the end or an error. *)
From S2P Require Import Prelude Riscv ULib UProg Grep.

(** The pieces that [read] returns, and whether the last call fails. *)
Record input : Type := mkInput { pieces : list (list Z); fails : bool }.
Definition content (f : input) : list Z := mjoin (pieces f).

Section Files.
Context (open : list Z → option input) (stdin : input).

(** [for(i = ...; i < argc; i++)]: open the file, do [body], close it.  A body that
    exits gives its status; [cannot] is the message for a file that cannot be
    opened. *)
Fixpoint each {S : Type} (cannot : list Z → S → S) (body : input → list Z → S → S * option Z) (names : list (list Z)) (s : S) : S * Z :=
  match names with
  | [] => (s, 0)
  | name :: names =>
      match open name with
      | None => (cannot name s, 1)
      | Some f =>
          match body f name s with
          | (s, Some st) => (s, st)
          | (s, None) => each cannot body names s
          end
      end
  end.

Definition once {S : Type} (r : S * option Z) : S * Z := match r with (s, Some st) => (s, st) | (s, None) => (s, 0) end.

(** ** user/cat.c *)

(** [write out l] is the result of [write(1, l)] after [out] has been written; the
    bytes written are so many of [l]. *)
Section cat.
Context (write : list Z → list Z → Z).

Fixpoint cat_loop (chunks : list (list Z)) (out : list Z) : list Z * bool :=
  match chunks with
  | [] => (out, true)
  | buf :: chunks =>
      let n := write out buf in
      if n =? Z.of_nat (length buf) then cat_loop chunks (out ++ buf)
      else (out ++ take (Z.to_nat n) buf, false)
  end.

Definition cat (f : input) (name : list Z) (out : list Z) : list Z * option Z :=
  match cat_loop (pieces f) out with
  | (out, false) => (out, Some 1)
  | (out, true) => (out, if fails f then Some 1 else None)
  end.

Definition cat_main (argv : list (list Z)) : list Z * Z :=
  if Z.of_nat (length argv) <=? 1 then once (cat stdin [] []) else each (λ _ out, out) cat (drop 1 argv) [].
End cat.

(** ** user/wc.c *)

(** What wc prints: the counts and the name, or a message. *)
Inductive line : Type :=
| Counts (l w c : Z) (name : list Z)
| ReadError
| CannotOpen (name : list Z).

Record counters : Type := mkC { c_l : Z; c_w : Z; c_c : Z; inword : bool }.

(** The string of the characters that separate words. *)
Definition blanks (i : Z) : Z := nth (Z.to_nat i) [32; 13; 9; 10; 11] 0.
Definition blank (c : Z) : bool := match strchr 6 blanks c with Some (Some _) => true | _ => false end.

Definition wc_char (st : counters) (ch : Z) : counters :=
  let st := mkC (c_l st) (c_w st) (i32 (c_c st + 1)) (inword st) in
  let st := if ch =? 10 then mkC (i32 (c_l st + 1)) (c_w st) (c_c st) (inword st) else st in
  if blank ch then mkC (c_l st) (c_w st) (c_c st) false
  else if negb (inword st) then mkC (c_l st) (i32 (c_w st + 1)) (c_c st) true
  else st.

Definition wc (f : input) (name : list Z) (out : list line) : list line * option Z :=
  let st := fold_left (λ st buf, fold_left wc_char buf st) (pieces f) (mkC 0 0 0 false) in
  if fails f then (out ++ [ReadError], Some 1)
  else (out ++ [Counts (c_l st) (c_w st) (c_c st) name], None).

Definition wc_main (argv : list (list Z)) : list line * Z :=
  if Z.of_nat (length argv) <=? 1 then once (wc stdin [] [])
  else each (λ name out, out ++ [CannotOpen name]) wc (drop 1 argv) [].

(** ** user/echo.c *)

Fixpoint echo_loop (argv : list (list Z)) : list Z :=
  match argv with
  | [] => []
  | a :: argv => a ++ (match argv with [] => [10] | _ => [32] end) ++ echo_loop argv
  end.
Definition echo_main (argv : list (list Z)) : list Z * Z := (echo_loop (drop 1 argv), 0).

(** ** user/grep.c, main *)

(** [want] gives the sizes of the reads; a message is the name of the file that
    cannot be opened. *)
Definition grep_main (want : nat → nat) (argv : list (list Z)) : (list Z * option (list Z)) * Z :=
  let body f name (s : list Z * option (list Z)) := ((s.1 ++ grep (nth 1 argv []) want (content f), s.2), None) in
  if Z.of_nat (length argv) <=? 1 then (([], None), 1)
  else if Z.of_nat (length argv) <=? 2 then once (body stdin [] ([], None))
  else each (λ name s, (s.1, Some name)) body (drop 2 argv) ([], None).

(** ** cat copies *)

Lemma cat_loop_spec write chunks : ∀ out, ∃ rest, (cat_loop write chunks out).1 ++ rest = out ++ mjoin chunks ∧
  ((cat_loop write chunks out).2 = true → rest = []).
Proof.
  induction chunks as [|buf chunks IH]; intros out; cbn [cat_loop].
  - exists []. cbn. by rewrite !app_nil_r.
  - cbv zeta. change (mjoin (buf :: chunks)) with (buf ++ mjoin chunks). case_match.
    + destruct (IH (out ++ buf)) as (rest & He & Hr). exists rest. by rewrite app_assoc.
    + cbn. exists (drop (Z.to_nat (write out buf)) buf ++ mjoin chunks). split; [|done].
      by rewrite <- app_assoc, (app_assoc (take _ _)), take_drop.
Qed.

(** The contents of the files that can be opened. *)
Definition contents (names : list (list Z)) : list Z := mjoin ((λ nm, from_option content [] (open nm)) <$> names).

(** Cat copies.  Whatever the sizes of the reads, what cat writes is an initial
    part of the contents of its files, one after the other; and if it exits with 0
    then all of them could be opened and read, and it has written all of it. *)
Theorem cat_copies (write : list Z → list Z → Z) (prog name : list Z) (names : list (list Z)) :
  let '(out, status) := cat_main write (prog :: name :: names) in
  out `prefix_of` contents (name :: names) ∧
  (status = 0 → out = contents (name :: names) ∧ Forall (λ nm, ∃ f, open nm = Some f ∧ fails f = false) (name :: names)).
Proof.
  unfold cat_main. destruct (Z.leb_spec (Z.of_nat (length (prog :: name :: names))) 1) as [H|_]; [cbn in H; lia|].
  cbn [drop]. change (contents (name :: names)) with ([] ++ contents (name :: names)).
  generalize (name :: names), ([] : list Z). clear. intros names. induction names as [|nm names IH]; intros out; cbn [each].
  - split; [by rewrite app_nil_r|]. intros _. by rewrite app_nil_r.
  - change (contents (nm :: names)) with (from_option content [] (open nm) ++ contents names).
    destruct (open nm) as [f|] eqn:Hf; [|split; [by apply prefix_app_r|done]]. unfold cat. cbn [from_option].
    pose proof (cat_loop_spec write (pieces f) out) as (rest & He & Hr). destruct (cat_loop write (pieces f) out) as [o b]. cbn [fst snd] in *.
    assert (Hpre : o `prefix_of` out ++ content f ++ contents names) by (unfold content; rewrite app_assoc, <- He, <- app_assoc; by apply prefix_app_r).
    destruct b; [|split; [done|done]]. destruct (fails f) eqn:Hfail; [split; [done|done]|].
    rewrite Hr, app_nil_r in He by done. specialize (IH o). destruct (each _ _ names o) as [o' st].
    rewrite app_assoc. change (mjoin (pieces f)) with (content f) in He. rewrite <- He. destruct IH as [IH1 IH2]. split; [done|].
    intros Hst. destruct (IH2 Hst) as [H1 H2]. split; [done|]. constructor; [by exists f|done].
Qed.

(** ** wc counts *)

Definition is_blank (c : Z) : bool := bool_decide (c ∈ [32; 13; 9; 10; 11]).

(** A word starts at a character that is not a blank and does not follow one that
    is not. *)
Definition word_at (s : list Z) (i : nat) : bool :=
  match s !! i with
  | None => false
  | Some c => negb (is_blank c) && match i with O => true | S j => from_option is_blank false (s !! j) end
  end.

Definition n_lines (s : list Z) : nat := length (filter (λ c, c = 10) s).
Definition n_words (s : list Z) : nat := length (filter (λ i, word_at s i = true) (seq 0 (length s))).

Lemma blank_spec c : blank c = is_blank c.
Proof.
  unfold blank, is_blank. change (strchr 6 blanks c) with
    (if 32 =? c then Some (Some 0) else if 13 =? c then Some (Some 1) else if 9 =? c then Some (Some 2)
     else if 10 =? c then Some (Some 3) else if 11 =? c then Some (Some 4) else Some None).
  rewrite !(Z.eqb_sym _ c).
  destruct (Z.eqb_spec c 32) as [->|H1]; [done|]. destruct (Z.eqb_spec c 13) as [->|H2]; [done|]. destruct (Z.eqb_spec c 9) as [->|H3]; [done|].
  destruct (Z.eqb_spec c 10) as [->|H4]; [done|]. destruct (Z.eqb_spec c 11) as [->|H5]; [done|].
  symmetry. apply bool_decide_eq_false. rewrite !elem_of_cons, elem_of_nil. naive_solver.
Qed.

(** The last character is part of a word. *)
Definition in_word_end (s : list Z) : bool := from_option (λ c, negb (is_blank c)) false (last s).

Lemma filter_on {A} (P Q : A → Prop) `{!∀ x, Decision (P x), !∀ x, Decision (Q x)} (l : list A) :
  (∀ x, x ∈ l → P x ↔ Q x) → filter P l = filter Q l.
Proof.
  induction l as [|x l IH]; intros Hl; [done|]. rewrite !filter_cons, IH by (intros; apply Hl; apply elem_of_cons; by right).
  pose proof (Hl x (proj2 (elem_of_cons _ _ _) (or_introl eq_refl))). destruct (decide (P x)), (decide (Q x)); naive_solver.
Qed.

Lemma n_words_snoc s c : n_words (s ++ [c]) = (n_words s + if is_blank c || in_word_end s then 0 else 1)%nat.
Proof.
  unfold n_words. rewrite length_app, seq_app, filter_app, length_app. cbn [Nat.add seq length]. f_equal.
  - f_equal. apply filter_on. intros i Hi%elem_of_seq.
    unfold word_at. rewrite lookup_app_l by lia. destruct (s !! i); [|done]. destruct i; [done|]. by rewrite lookup_app_l by lia.
  - rewrite filter_cons, filter_nil. unfold word_at, in_word_end. rewrite list_lookup_middle by done.
    destruct s as [|x s _] using rev_ind; [cbn; by destruct (is_blank c)|]. rewrite last_snoc, length_app, Nat.add_1_r. cbn [length from_option].
    rewrite <- app_assoc. cbn [app]. rewrite list_lookup_middle by done. cbn. by destruct (is_blank c), (is_blank x).
Qed.

Lemma n_lines_snoc s c : n_lines (s ++ [c]) = (n_lines s + if (c =? 10)%Z then 1 else 0)%nat.
Proof.
  unfold n_lines. rewrite filter_app, length_app, filter_cons, filter_nil. f_equal. by destruct (Z.eqb_spec c 10), (decide (c = 10)).
Qed.

Lemma count_bounds s : (n_lines s ≤ length s)%nat ∧ (n_words s ≤ length s)%nat.
Proof. unfold n_lines, n_words. split; [apply length_filter|]. etransitivity; [apply length_filter|]. by rewrite length_seq. Qed.

Lemma wc_fold s : Z.of_nat (length s) < 2 ^ 31 → fold_left wc_char s (mkC 0 0 0 false) =
  mkC (Z.of_nat (n_lines s)) (Z.of_nat (n_words s)) (Z.of_nat (length s)) (in_word_end s).
Proof.
  induction s as [|c s IH] using rev_ind; intros Hs; [done|]. pose proof (count_bounds s) as [B1 B2]. rewrite length_app in Hs. cbn [length] in Hs.
  rewrite fold_left_app, IH by lia. cbn [fold_left]. unfold wc_char. cbn [c_l c_w c_c inword]. rewrite blank_spec.
  rewrite n_lines_snoc, n_words_snoc, length_app. cbn [length].
  assert (He : in_word_end (s ++ [c]) = negb (is_blank c)) by (unfold in_word_end; by rewrite last_snoc). rewrite He.
  rewrite (i32_id (Z.of_nat (length s) + 1)) by lia.
  destruct (c =? 10); cbn [c_l c_w c_c inword]; rewrite ?(i32_id (Z.of_nat (n_lines s) + 1)) by lia;
    destruct (is_blank c); cbn [orb]; try destruct (in_word_end s) eqn:E; cbn [negb c_l c_w c_c inword];
    rewrite ?(i32_id (Z.of_nat (n_words s) + 1)) by lia; f_equal; lia.
Qed.

(** What wc prints for a file. *)
Definition report (nm : list Z) (f : input) : line :=
  Counts (Z.of_nat (n_lines (content f))) (Z.of_nat (n_words (content f))) (Z.of_nat (length (content f))) nm.

Lemma wc_pieces ps st : fold_left (λ st buf, fold_left wc_char buf st) ps st = fold_left wc_char (mjoin ps) st.
Proof.
  revert st. induction ps as [|p ps IH]; intros st; [done|]. change (mjoin (p :: ps)) with (p ++ mjoin ps).
  cbn [fold_left]. by rewrite IH, fold_left_app.
Qed.

Lemma wc_file f nm out : Z.of_nat (length (content f)) < 2 ^ 31 → fails f = false → wc f nm out = (out ++ [report nm f], None).
Proof. intros Hlen Hf. unfold wc. rewrite Hf, wc_pieces, wc_fold by done. done. Qed.

Definition good (nm : list Z) (f : input) : Prop := open nm = Some f ∧ fails f = false ∧ Z.of_nat (length (content f)) < 2 ^ 31.

Lemma wc_each names fs missing : Forall2 good names fs → Forall (λ nm, open nm = None) missing → ∀ out,
  each (λ name out, out ++ [CannotOpen name]) wc (names ++ missing) out =
    (out ++ zip_with report names fs ++ (CannotOpen <$> take 1 missing), if decide (missing = []) then 0 else 1).
Proof.
  intros Hfs Hmissing. induction Hfs as [|nm f names fs (Ho & Hf & Hl) _ IH]; intros out; cbn [app each zip_with].
  - destruct missing as [|nm missing]; [cbn; by rewrite app_nil_r|]. apply Forall_cons in Hmissing as [Hnm _]. rewrite decide_False by done.
    cbn [each]. by rewrite Hnm.
  - rewrite Ho, (wc_file f nm out Hl Hf), IH, <- app_assoc. done.
Qed.

(** Wc counts.  For files that can be read and are smaller than 2^31 bytes, wc
    prints for each, in order, the number of newlines, of words and of characters of
    its contents, whatever the sizes of the reads; a word is counted where a
    character that is not a blank follows a blank or starts the file.  At a file
    that cannot be opened it stops with status 1. *)
Theorem wc_counts (prog : list Z) (names : list (list Z)) (fs : list input) (missing : list (list Z))
    (Hfs : Forall2 good names fs) (Hsome : names ++ missing ≠ []) (Hmissing : Forall (λ nm, open nm = None) missing) :
  wc_main (prog :: names ++ missing) =
    (zip_with report names fs ++ (CannotOpen <$> take 1 missing), if decide (missing = []) then 0 else 1).
Proof.
  unfold wc_main. destruct (Z.leb_spec (Z.of_nat (length (prog :: names ++ missing))) 1) as [H|_].
  - destruct (names ++ missing); [done|]. cbn in H. lia.
  - exact (wc_each names fs missing Hfs Hmissing []).
Qed.
End Files.

(** A file [a b] and a newline, read in two pieces, and one that does not exist. *)
Lemma wc_counts_witness :
  wc_main (λ nm, if decide (nm = [120]) then Some (mkInput [[97; 32]; [98; 10]] false) else None) (mkInput [] false) [[119]; [120]; [121]] =
    ([Counts 1 2 4 [120]; CannotOpen [121]], 1).
Proof.
  refine (wc_counts (λ nm, if decide (nm = [120]) then Some (mkInput [[97; 32]; [98; 10]] false) else None) (mkInput [] false)
    [119] [[120]] [mkInput [[97; 32]; [98; 10]] false] [[121]] _ _ _).
  - constructor; [|constructor]. split; [reflexivity|]. split; [reflexivity|]. vm_compute. reflexivity.
  - intros H. discriminate H.
  - constructor; [reflexivity|constructor].
Defined.

(** echo writes its arguments with a blank between them and a newline behind. *)
Lemma echo_joins a args : echo_loop (a :: args) = a ++ mjoin ((λ b, 32 :: b) <$> args) ++ [10].
Proof.
  revert a. induction args as [|b args IH]; intros a; [by cbn|]. change (echo_loop (a :: b :: args)) with (a ++ [32] ++ echo_loop (b :: args)).
  rewrite IH. change (mjoin ((λ b, 32 :: b) <$> b :: args)) with ((32 :: b) ++ mjoin ((λ b, 32 :: b) <$> args)). by rewrite <- app_assoc.
Qed.
