(* ===== verification/Small.v ===== *)
(** * Small: user/init.c, user/kill.c, user/ln.c, user/mkdir.c and user/rm.c

    The first program, which keeps a shell running, and the programs that make
    one system call for each of their arguments.  What the calls return is given;
    the text of messages is left out. *)
From S2P Require Import Prelude Riscv CString ULib UProg Sh ShRun.

(** ** user/init.c *)

(** What init does, as the kernel sees it. *)
Inductive event : Type :=
| Starting
| Forked (pid : Z)
| Reaped (pid : Z)
| Failed (status : Z).

(** The loop on the results of its calls of [fork] and [wait], in the order of the
    calls: [shell] is the process that it waits for.  The list ends when the
    observation does. *)
Fixpoint init_loop (shell : option Z) (results : list Z) : list event :=
  match results with
  | [] => []
  | r :: results =>
      match shell with
      | None =>
          if r <? 0 then [Starting; Failed 1]
          else Starting :: Forked r :: init_loop (Some r) results
      | Some pid =>
          if r =? pid then Reaped r :: init_loop None results
          else if r <? 0 then [Failed 1]
          else Reaped r :: init_loop (Some pid) results
      end
  end.

(** The child of [fork] runs the shell; [exec] may fail. *)
Definition init_child (execs : list Z → bool) (T : fds) : tree :=
  let sh := [115; 104] in
  if execs sh then Runs sh [sh] T else Says (Exited 1).

(** The descriptors: [open("console", O_RDWR)], which may need [mknod] first, and two
    copies of it.  [opens] is the result of the first and of the second call. *)
Definition dup0 (T : fds) : fds :=
  match T !! 0%nat with
  | Some (Some o) => match fd_alloc o T with Some (_, T) => T | None => T end
  | _ => T
  end.

Definition init_fds (opens : bool * bool) (T : fds) : fds :=
  let con := Opened console O_RDWR in
  let T :=
    if opens.1 then match fd_alloc con T with Some (_, T) => T | None => T end
    else if opens.2 then match fd_alloc con T with Some (_, T) => T | None => T end
    else T in
  dup0 (dup0 T).

(** ** One call per argument *)

(** user/mkdir.c and user/rm.c: [call] is [mkdir] or [unlink]; the arguments for which
    it was made, and whether the last one failed. *)
Fixpoint until_failure (call : list Z → Z) (args : list (list Z)) : list (list Z) * bool :=
  match args with
  | [] => ([], false)
  | a :: args =>
      if call a <? 0 then ([a], true)
      else let '(done, bad) := until_failure call args in (a :: done, bad)
  end.
Definition mkdir_main (mkdir : list Z → Z) (argv : list (list Z)) : (list (list Z) * bool) * Z :=
  if Z.of_nat (length argv) <? 2 then (([], false), 1) else (until_failure mkdir (drop 1 argv), 0).
Definition rm_main (unlink : list Z → Z) (argv : list (list Z)) : (list (list Z) * bool) * Z :=
  if Z.of_nat (length argv) <? 2 then (([], false), 1) else (until_failure unlink (drop 1 argv), 0).

(** user/kill.c: the identifiers for which [kill] is called. *)
Definition cstring (s : list Z) : arr := λ i, nth (Z.to_nat i) s 0.
Definition kill_main (argv : list (list Z)) : list (option Z) * Z :=
  if Z.of_nat (length argv) <? 2 then ([], 1)
  else ((λ a, atoi (S (length a)) (cstring a)) <$> drop 1 argv, 0).

(** user/ln.c: the arguments of [link], and whether a message follows. *)
Definition ln_main (link : list Z → list Z → Z) (argv : list (list Z)) : option (list Z * list Z * bool) * Z :=
  match argv with
  | [_; old; new] => (Some (old, new, link old new <? 0), 0)
  | _ => (None, 1)
  end.

(** ** One shell at a time *)

(** The shells that are running after the events, given those running before. *)
Fixpoint running (shells : list Z) (evs : list event) : list Z :=
  match evs with
  | [] => shells
  | Forked pid :: evs => running (pid :: shells) evs
  | Reaped pid :: evs => running (filter (λ x, x ≠ pid) shells) evs
  | _ :: evs => running shells evs
  end.

(** Init never has two shells: it starts one only after the last one has exited. *)
Lemma init_one_shell results : ∀ shell n, (length (running (option_list shell) (take n (init_loop shell results))) ≤ 1)%nat.
Proof.
  induction results as [|r results IH]; intros shell n; [cbn; rewrite take_nil; by destruct shell; cbn; lia|].
  cbn [init_loop]. destruct shell as [pid|].
  - destruct (Z.eqb_spec r pid) as [->|Hne].
    + destruct n as [|n]; [cbn; lia|]; change (option_list (Some pid)) with [pid]; cbn [take running]. rewrite filter_cons, decide_False by naive_solver.
      rewrite filter_nil. apply (IH None).
    + case_match; [destruct n as [|[|n]]; cbn; lia|]. destruct n as [|n]; [cbn; lia|]; change (option_list (Some pid)) with [pid]; cbn [take running].
      rewrite filter_cons, decide_True by done. rewrite filter_nil. apply (IH (Some pid)).
  - case_match; [destruct n as [|[|[|n]]]; cbn; lia|]. destruct n as [|[|n]]; [cbn; lia..|]; cbn [take running].
    apply (IH (Some r)).
Qed.

(** The shell that init starts has the console as its first three descriptors. *)
Lemma init_fds_ready b1 b2 R i j : b1 || b2 = true → (i < j)%nat → R !! i = Some None → R !! j = Some None →
  let con := Opened console O_RDWR in
  init_fds (b1, b2) (None :: None :: None :: R) = Some con :: Some con :: Some con :: R ∧ ready (init_fds (b1, b2) (None :: None :: None :: R)).
Proof.
  intros Hb Hij Hi Hj con. assert (He : init_fds (b1, b2) (None :: None :: None :: R) = Some con :: Some con :: Some con :: R).
  { unfold init_fds. cbn. destruct b1; [done|]. by destruct b2. }
  rewrite He. split; [done|]. by exists con, con, con, R, i, j.
Qed.

(** So every line that such a shell gets runs as it should. *)
Lemma init_shell_runs opens execs chdirs forks b1 b2 R i j inp :
  (∀ id pid, forks id = Some pid → 0 < pid) → b1 || b2 = true → (i < j)%nat → R !! i = Some None → R !! j = Some None → opens console O_RDWR = true →
  let T := init_fds (b1, b2) (None :: None :: None :: R) in
  run opens execs chdirs forks [] T (main inp) = shell_shape opens execs chdirs forks [] T (lines (S (length inp)) inp).
Proof.
  intros Hf Hb Hij Hi Hj Ho. cbv zeta. destruct (init_fds_ready b1 b2 R i j Hb Hij Hi Hj) as [He Hr]. cbv zeta in He. rewrite He in *.
  unfold main. rewrite run_open_console by (done || unfold NOFILE; lia). apply run_commands; [done|apply lines_nonul|done].
Qed.
