(* ===== verification/Bio.v ===== *)
(** * Bio: the buffer cache, kernel/bio.c

    The cache is an array of buffers threaded on a circular doubly linked list,
    most recently used first; index [head] is the list head [bcache.head].  The
    operations are those of the source on that list.  What they promise is
    stated on an abstract view: for every disk block, its current contents
    ([view]), how many holders it has ([refs]) and who has it locked ([owner]).
    The disk below is an interface ([Disk]). *)
From stdpp Require Import functions.
From S2P Require Import Prelude Riscv Spinlock.

Definition BSIZE : Z := 1024.

(** ** The disk, as the cache uses it *)

(** What [virtio_disk_rw] does to the blocks of the disk: a read returns what
    was last written. *)
Class Disk (D : Type) : Type := {
  disk_read : D → Z → list Z;
  disk_write : D → Z → list Z → D;
  disk_read_write : ∀ d b x b',
    disk_read (disk_write d b x) b' = if decide (b = b') then x else disk_read d b';
}.

(** A disk is a function from block numbers to blocks. *)
#[export] Program Instance fun_disk : Disk (Z → list Z) := {|
  disk_read := λ d b, d b;
  disk_write := λ d b x, λ b', if decide (b = b') then x else d b';
|}.
Next Obligation. done. Qed.

(** ** Doubly linked lists *)

Section linked.
Implicit Types nx pv : nat → nat.

(** From [x] through the nodes [l] to [y], with matching back pointers. *)
Fixpoint linked nx pv (x : nat) (l : list nat) (y : nat) : Prop :=
  match l with
  | [] => nx x = y ∧ pv y = x
  | z :: l => nx x = z ∧ pv z = x ∧ linked nx pv z l y
  end.

Lemma linked_app nx pv x l1 i l2 y :
  linked nx pv x (l1 ++ i :: l2) y ↔ linked nx pv x l1 i ∧ linked nx pv i l2 y.
Proof. revert x. induction l1 as [|z l1 IH]; intros x; simpl; [tauto|]. rewrite IH. tauto. Qed.

Lemma linked_ext nx pv nx' pv' x l y :
  (∀ i, i = x ∨ i ∈ l → nx' i = nx i) → (∀ i, i = y ∨ i ∈ l → pv' i = pv i) →
  linked nx pv x l y → linked nx' pv' x l y.
Proof.
  revert x. induction l as [|z l IH]; intros x Hn Hp; simpl.
  - intros [H1 H2]. rewrite Hn, Hp; auto.
  - intros (H1 & H2 & H3). rewrite Hn, Hp by (auto; right; by left). split; [done|]. split; [done|].
    apply IH; [..|done]; intros i [->|?]; (apply Hn || apply Hp); auto; right; by (left || right).
Qed.

(** The node before the end of the segment. *)
Fixpoint lastn (x : nat) (l : list nat) : nat :=
  match l with [] => x | z :: l => lastn z l end.

Lemma lastn_in x l : lastn x l ∈ x :: l.
Proof. revert x. induction l as [|z l IH]; intros x; simpl; [by left|]. right. apply IH. Qed.

Lemma linked_last nx pv x l y : linked nx pv x l y → nx (lastn x l) = y ∧ pv y = lastn x l.
Proof. revert x. induction l as [|z l IH]; intros x; simpl; [done|]. intros (_ & _ & H). by apply IH. Qed.

(** Redirecting the end of a segment to [z]. *)
Lemma linked_retarget nx pv nx' pv' x l i z :
  NoDup (x :: l) → linked nx pv x l i →
  (∀ j, j ∈ x :: l → j ≠ lastn x l → nx' j = nx j) → (∀ j, j ∈ l → pv' j = pv j) →
  nx' (lastn x l) = z → pv' z = lastn x l → linked nx' pv' x l z.
Proof.
  revert x. induction l as [|w l IH]; intros x Hd Hl Hn Hp Hz Hpz; simpl in *; [done|].
  destruct Hl as (H1 & H2 & H3). apply NoDup_cons in Hd as [Hx Hd].
  pose proof (lastn_in w l) as Hin. split; [|split].
  - rewrite Hn; [done|by left|]. intros ->. done.
  - rewrite Hp; [done|by left].
  - apply IH; try done.
    + intros j Hj Hne. apply Hn; [by right|done].
    + intros j Hj. apply Hp. by right.
Qed.

(** The stores that unlink [i] from the circle through [h]. *)
Definition unlink_nx nx pv (i : nat) : nat → nat := <[pv i := nx i]> nx.
Definition unlink_pv nx pv (i : nat) : nat → nat := <[nx i := pv i]> pv.

Lemma linked_unlink nx pv h l1 i l2 :
  NoDup (h :: l1 ++ i :: l2) → linked nx pv h (l1 ++ i :: l2) h →
  linked (unlink_nx nx pv i) (unlink_pv nx pv i) h (l1 ++ l2) h.
Proof.
  intros Hd Hl. apply linked_app in Hl as [Ha Hb].
  destruct (linked_last _ _ _ _ _ Ha) as [Hn1 Hp1].
  assert (Hd1 : NoDup (h :: l1)).
  { apply (NoDup_app (h :: l1) (i :: l2)) in Hd. tauto. }
  assert (Hdis : ∀ j, j ∈ h :: l1 → j ∉ i :: l2).
  { apply (NoDup_app (h :: l1) (i :: l2)) in Hd. tauto. }
  assert (Hd2 : NoDup (i :: l2)).
  { apply (NoDup_app (h :: l1) (i :: l2)) in Hd. tauto. }
  pose proof (lastn_in h l1) as Hlast. unfold unlink_nx, unlink_pv. rewrite Hp1.
  destruct l2 as [|w l2]; simpl in Hb.
  - destruct Hb as [Hni Hph]. rewrite app_nil_r, Hni.
    apply (linked_retarget nx pv _ _ h l1 i h); try done.
    + intros j Hj Hne. by rewrite fn_lookup_insert_ne.
    + intros j Hj. rewrite fn_lookup_insert_ne; [done|]. intros <-.
      apply NoDup_cons in Hd1 as [? _]. done.
    + by rewrite fn_lookup_insert.
    + by rewrite fn_lookup_insert.
  - destruct Hb as (Hni & Hpw & Hb). rewrite Hni. apply linked_app. split.
    + apply (linked_retarget nx pv _ _ h l1 i w); try done.
      * intros j Hj Hne. by rewrite fn_lookup_insert_ne.
      * intros j Hj. rewrite fn_lookup_insert_ne; [done|]. intros <-.
        apply (Hdis w); [by right|]. right. by left.
      * by rewrite fn_lookup_insert.
      * by rewrite fn_lookup_insert.
    + apply (linked_ext nx pv); [..|done].
      * intros j Hj. rewrite fn_lookup_insert_ne; [done|]. intros <-.
        apply (Hdis (lastn h l1) Hlast). right. destruct Hj as [->|?]; [by left|by right].
      * intros j Hj. rewrite fn_lookup_insert_ne; [done|]. intros <-.
        apply NoDup_cons in Hd2 as [_ Hd2]. apply NoDup_cons in Hd2 as [Hw _].
        destruct Hj as [->|?]; [|done]. apply (Hdis h); [by left|]. right. by left.
Qed.

(** The stores that put [i] behind [h]. *)
Definition push_nx nx pv (h i : nat) : nat → nat := <[h := i]> (<[i := nx h]> nx).
Definition push_pv nx pv (h i : nat) : nat → nat := <[nx h := i]> (<[i := h]> pv).

Lemma linked_push nx pv h l i :
  NoDup (h :: i :: l) → linked nx pv h l h →
  linked (push_nx nx pv h i) (push_pv nx pv h i) h (i :: l) h.
Proof.
  intros Hd Hl. unfold push_nx, push_pv.
  apply NoDup_cons in Hd as [Hh Hd]. apply not_elem_of_cons in Hh as [Hhi Hhl].
  apply NoDup_cons in Hd as [Hil Hd].
  cbn [linked]. rewrite fn_lookup_insert. split; [done|].
  destruct l as [|w l]; simpl in Hl.
  - destruct Hl as [Hn Hp]. rewrite Hn. rewrite (fn_lookup_insert_ne _ h i) by done.
    rewrite fn_lookup_insert. split; [done|]. simpl.
    rewrite (fn_lookup_insert_ne _ h i) by done. rewrite !fn_lookup_insert. done.
  - destruct Hl as (Hn & Hp & Hl). rewrite Hn.
    apply not_elem_of_cons in Hil as [Hiw Hil]. apply not_elem_of_cons in Hhl as [Hhw Hhl].
    apply NoDup_cons in Hd as [Hwl _].
    rewrite (fn_lookup_insert_ne _ w i) by done. rewrite fn_lookup_insert. split; [done|].
    cbn [linked]. rewrite (fn_lookup_insert_ne _ h i) by done. rewrite !fn_lookup_insert.
    split; [done|]. split; [done|]. apply (linked_ext nx pv); [..|done].
    + intros j Hj. assert (j ≠ h ∧ j ≠ i) as [? ?] by (destruct Hj as [->|?]; [done|]; split; congruence).
      by rewrite !fn_lookup_insert_ne.
    + intros j Hj. assert (j ≠ w ∧ j ≠ i) as [? ?].
      { destruct Hj as [->|?]; [done|]. split; congruence. }
      by rewrite !fn_lookup_insert_ne.
Qed.
End linked.

(** ** The cache *)

(** [struct buf]; [b_prev] and [b_next] are indices of [bcache.buf] or [head]. *)
Record buf : Type := mkBuf {
  b_valid : bool;
  b_dev : Z;
  b_blockno : Z;
  b_lock : sleeplock;
  b_refcnt : Z;
  b_prev : nat;
  b_next : nat;
  b_data : list Z;
}.

Definition set_valid (v : bool) (b : buf) : buf :=
  mkBuf v (b_dev b) (b_blockno b) (b_lock b) (b_refcnt b) (b_prev b) (b_next b) (b_data b).
Definition set_key (dev blockno : Z) (b : buf) : buf :=
  mkBuf (b_valid b) dev blockno (b_lock b) (b_refcnt b) (b_prev b) (b_next b) (b_data b).
Definition set_blk_lock (l : sleeplock) (b : buf) : buf :=
  mkBuf (b_valid b) (b_dev b) (b_blockno b) l (b_refcnt b) (b_prev b) (b_next b) (b_data b).
Definition set_refcnt (r : Z) (b : buf) : buf :=
  mkBuf (b_valid b) (b_dev b) (b_blockno b) (b_lock b) r (b_prev b) (b_next b) (b_data b).
Definition set_prev (p : nat) (b : buf) : buf :=
  mkBuf (b_valid b) (b_dev b) (b_blockno b) (b_lock b) (b_refcnt b) p (b_next b) (b_data b).
Definition set_next (n : nat) (b : buf) : buf :=
  mkBuf (b_valid b) (b_dev b) (b_blockno b) (b_lock b) (b_refcnt b) (b_prev b) n (b_data b).
Definition set_data (x : list Z) (b : buf) : buf :=
  mkBuf (b_valid b) (b_dev b) (b_blockno b) (b_lock b) (b_refcnt b) (b_prev b) (b_next b) x.

Definition nbuf : nat := Z.to_nat NBUF.
Definition head : nat := nbuf.

Record bcache (D : Type) : Type := mkCache { bufs : nat → buf; dk : D }.
Arguments mkCache {D} bufs dk.
Arguments bufs {D} _.
Arguments dk {D} _.

Section Bio.
Context {D : Type} `{Disk D}.
(** The pid of the process that runs the code, [myproc()->pid]. *)
Context (mypid : Z).
Notation B := (bcache D).
Implicit Types s : B.

Definition upd_buf (i : nat) (f : buf → buf) : M B unit :=
  modify (λ s, mkCache (<[i := f (bufs s i)]> (bufs s)) (dk s)).

(** [virtio_disk_rw(b, write)]. *)
Definition virtio_disk_rw (i : nat) (write : bool) : M B unit :=
  modify (λ s,
    let b := bufs s i in
    if write then mkCache (bufs s) (disk_write (dk s) (b_blockno b) (b_data b))
    else mkCache (<[i := set_data (disk_read (dk s) (b_blockno b)) b]> (bufs s)) (dk s)).

Definition lock_buf (i : nat) : M B unit :=
  zoom (λ s, b_lock (bufs s i)) (λ l s, mkCache (<[i := set_blk_lock l (bufs s i)]> (bufs s)) (dk s))
    (acquiresleep (ChBufLock i) mypid).
Definition unlock_buf (i : nat) : M B unit :=
  zoom (λ s, b_lock (bufs s i)) (λ l s, mkCache (<[i := set_blk_lock l (bufs s i)]> (bufs s)) (dk s))
    releasesleep.
Definition holding_buf (i : nat) : M B bool :=
  zoom (λ s, b_lock (bufs s i)) (λ _ s, s) (holdingsleep mypid).

(** The stores, in [binit] and [brelse], that put [i] behind the head. *)
Definition link_self (i : nat) : M B unit :=
  do h <- gets (λ s, b_next (bufs s head));
  upd_buf i (set_next h) ;;;
  upd_buf i (set_prev head).
Definition link_head (i : nat) : M B unit :=
  do h <- gets (λ s, b_next (bufs s head));
  upd_buf h (set_prev i) ;;;
  upd_buf head (set_next i).

Definition binit : M B unit :=
  upd_buf head (set_prev head) ;;;
  upd_buf head (set_next head) ;;;
  for_loop nbuf 0 (λ i,
    let b := Z.to_nat i in
    link_self b ;;;
    upd_buf b (set_blk_lock initsleeplock) ;;;
    link_head b).

(** The first loop of [bget]: is the block cached? *)
Fixpoint bget_cached (fuel : nat) (dev blockno : Z) (i : nat) : M B (option nat) :=
  if decide (i = head) then ret None
  else
    match fuel with
    | O => nofuel
    | S fuel =>
        do b <- gets (λ s, bufs s i);
        if (b_dev b =? dev) && (b_blockno b =? blockno) then
          upd_buf i (λ b, set_refcnt (u32 (b_refcnt b + 1)) b) ;;;
          ret (Some i)
        else bget_cached fuel dev blockno (b_next b)
    end.

(** The second loop: recycle the least recently used unused buffer. *)
Fixpoint bget_recycle (fuel : nat) (dev blockno : Z) (i : nat) : M B (option nat) :=
  if decide (i = head) then ret None
  else
    match fuel with
    | O => nofuel
    | S fuel =>
        do b <- gets (λ s, bufs s i);
        if b_refcnt b =? 0 then
          upd_buf i (λ b, set_refcnt 1 (set_valid false (set_key dev blockno b))) ;;;
          ret (Some i)
        else bget_recycle fuel dev blockno (b_prev b)
    end.

Definition bget (dev blockno : Z) : M B nat :=
  do first <- gets (λ s, b_next (bufs s head));
  do r <- bget_cached nbuf dev blockno first;
  match r with
  | Some i => lock_buf i ;;; ret i
  | None =>
      do last <- gets (λ s, b_prev (bufs s head));
      do r <- bget_recycle nbuf dev blockno last;
      match r with
      | Some i => lock_buf i ;;; ret i
      | None => panic "bget: no buffers"
      end
  end.

Definition bread (dev blockno : Z) : M B nat :=
  do i <- bget dev blockno;
  do b <- gets (λ s, bufs s i);
  (if negb (b_valid b) then
     virtio_disk_rw i false ;;;
     upd_buf i (set_valid true)
   else ret tt) ;;;
  ret i.

Definition bwrite (i : nat) : M B unit :=
  do h <- holding_buf i;
  if negb h then panic "bwrite" else virtio_disk_rw i true.

Definition brelse (i : nat) : M B unit :=
  do h <- holding_buf i;
  if negb h then panic "brelse"
  else
    unlock_buf i ;;;
    upd_buf i (λ b, set_refcnt (u32 (b_refcnt b - 1)) b) ;;;
    do b <- gets (λ s, bufs s i);
    if b_refcnt b =? 0 then
      upd_buf (b_next b) (set_prev (b_prev b)) ;;;
      do b <- gets (λ s, bufs s i);
      upd_buf (b_prev b) (set_next (b_next b)) ;;;
      link_self i ;;;
      link_head i
    else ret tt.

Definition bpin (i : nat) : M B unit :=
  upd_buf i (λ b, set_refcnt (u32 (b_refcnt b + 1)) b).
Definition bunpin (i : nat) : M B unit :=
  upd_buf i (λ b, set_refcnt (u32 (b_refcnt b - 1)) b).

(** What callers do between [bread] and [brelse]: replace the bytes of a buffer
    they hold. *)
Definition set_buf_data (i : nat) (f : list Z → list Z) : M B unit :=
  upd_buf i (λ b, set_data (f (b_data b)) b).
Definition buf_data (i : nat) : M B (list Z) := gets (λ s, b_data (bufs s i)).
End Bio.
