(* ===== verification/BioSpec.v ===== *)
(** * BioSpec: what the buffer cache promises

    [binv] is the invariant of the cache: the buffers form one circular list,
    no block is cached twice, and an unused buffer holds what is on disk.  The
    specification of each operation is its effect on the abstract [info] of
    every block. *)
From stdpp Require Import functions.
From S2P Require Import Prelude Riscv Spinlock Bio.

(** What the rest of the kernel sees of a block: its references, the process
    that has it locked, its current contents. *)
Record info : Type := mkInfo { refs : Z; owner : option Z; view : list Z }.

Definition lock_owner (l : sleeplock) : option Z :=
  if sl_locked l =? 0 then None else Some (sl_pid l).

Section BioSpec.
Context {D : Type} `{Disk D}.
(** The device all cached blocks are from, and the running process. *)
Context (dev : Z) (Hdev : dev ≠ 0) (mypid : Z).
Notation B := (bcache D).
Implicit Types s : B.

Definition has_key (s : B) (b : Z) (i : nat) : Prop :=
  b_dev (bufs s i) = dev ∧ b_blockno (bufs s i) = b.
#[export] Instance has_key_dec s b i : Decision (has_key s b i).
Proof. unfold has_key. apply _. Defined.

(** The buffer that caches block [b]. *)
Definition cached (s : B) (b : Z) : option nat := fst <$> list_find (has_key s b) (seq 0 nbuf).

Definition buf_info (d : D) (b : Z) (x : buf) : info :=
  mkInfo (b_refcnt x) (lock_owner (b_lock x)) (if b_valid x then b_data x else disk_read d b).

Definition abs (s : B) (b : Z) : info :=
  match cached s b with
  | Some i => buf_info (dk s) b (bufs s i)
  | None => mkInfo 0 None (disk_read (dk s) b)
  end.

Definition nx (s : B) (i : nat) : nat := b_next (bufs s i).
Definition pv (s : B) (i : nat) : nat := b_prev (bufs s i).

(** What each buffer satisfies by itself. *)
Record buf_ok (d : D) (x : buf) : Prop := {
  bo_dev : b_dev x = 0 ∨ b_dev x = dev;
  bo_none : b_dev x = 0 → b_refcnt x = 0;
  bo_ref : 0 ≤ b_refcnt x < 2 ^ 32;
  bo_lock : b_refcnt x = 0 → sl_locked (b_lock x) = 0;
  bo_clean : b_refcnt x = 0 → b_dev x = dev → b_valid x = true →
    b_data x = disk_read d (b_blockno x);
}.

Record binv (s : B) (order : list nat) : Prop := {
  bi_list : linked (nx s) (pv s) head order head;
  bi_perm : order ≡ₚ seq 0 nbuf;
  bi_key : ∀ i j b, (i < nbuf)%nat → (j < nbuf)%nat → has_key s b i → has_key s b j → i = j;
  bi_buf : ∀ i, (i < nbuf)%nat → buf_ok (dk s) (bufs s i);
}.

(** A reference to the buffer [i] that caches block [b] and has its contents. *)
Definition handle (s : B) (i : nat) (b : Z) : Prop :=
  cached s b = Some i ∧ 0 < refs (abs s b) ∧ b_valid (bufs s i) = true.

Lemma cached_spec s order b i :
  binv s order → cached s b = Some i ↔ (i < nbuf)%nat ∧ has_key s b i.
Proof.
  intros HI. unfold cached. rewrite fmap_Some. split.
  - intros ([k x] & (Hk & Hx & _)%list_find_Some & ->). simpl.
    apply lookup_seq in Hk as [-> Hk]. auto.
  - intros [Hi Hk]. destruct (list_find (has_key s b) (seq 0 nbuf)) as [[k x]|] eqn:E.
    + exists (k, x). split; [done|]. apply list_find_Some in E as (Hl & Hx & _).
      apply lookup_seq in Hl as [-> Hl]. simpl in *. by apply (bi_key _ _ HI i k b).
    + exfalso. apply list_find_None in E. rewrite Forall_forall in E.
      apply (E i); [|done]. apply elem_of_seq. lia.
Qed.

Lemma cached_None s order b :
  binv s order → cached s b = None ↔ ∀ i, (i < nbuf)%nat → ¬ has_key s b i.
Proof.
  intros HI. split.
  - intros Hn i Hi Hk. assert (cached s b = Some i) by (by eapply cached_spec). congruence.
  - intros Hn. destruct (cached s b) as [i|] eqn:E; [|done].
    apply (cached_spec s order) in E as [Hi Hk]; [|done]. by destruct (Hn i Hi).
Qed.

Lemma cached_ext s s' b :
  (∀ i, b_dev (bufs s' i) = b_dev (bufs s i) ∧ b_blockno (bufs s' i) = b_blockno (bufs s i)) →
  cached s' b = cached s b.
Proof.
  intros He. unfold cached. f_equal. apply list_find_ext.
  intros i. unfold has_key. by destruct (He i) as [-> ->].
Qed.

Lemma handle_info s order i b :
  binv s order → handle s i b →
  (i < nbuf)%nat ∧ b_dev (bufs s i) = dev ∧ b_blockno (bufs s i) = b ∧
  abs s b = mkInfo (b_refcnt (bufs s i)) (lock_owner (b_lock (bufs s i))) (b_data (bufs s i)) ∧
  0 < b_refcnt (bufs s i).
Proof.
  intros HI (Hc & Hr & Hv). unfold abs in *. rewrite Hc in *. simpl in *.
  apply (cached_spec s order) in Hc as [Hi [Hd Hb]]; [|done].
  split; [done|]. split; [done|]. split; [done|]. split; [|done].
  unfold buf_info. by rewrite Hv.
Qed.

Lemma in_order s order i : binv s order → i ∈ order ↔ (i < nbuf)%nat.
Proof. intros HI. rewrite (bi_perm _ _ HI), elem_of_seq. lia. Qed.

Lemma order_nodup s order : binv s order → NoDup (head :: order).
Proof.
  intros HI. apply NoDup_cons. split.
  - rewrite (in_order s) by done. unfold head. lia.
  - rewrite (bi_perm _ _ HI). apply NoDup_seq.
Qed.

(** ** Changing one buffer, not its key nor its place in the list *)

Definition put (s : B) (i : nat) (x : buf) (d : D) : B := mkCache (<[i := x]> (bufs s)) d.

Record same_place (x y : buf) : Prop := {
  sp_dev : b_dev x = b_dev y;
  sp_blockno : b_blockno x = b_blockno y;
  sp_prev : b_prev x = b_prev y;
  sp_next : b_next x = b_next y;
}.

Lemma put_place s i x d j : same_place x (bufs s i) → same_place (bufs (put s i x d) j) (bufs s j).
Proof.
  intros Hp. simpl. destruct (decide (i = j)) as [->|]; [by rewrite fn_lookup_insert|].
  by rewrite fn_lookup_insert_ne.
Qed.

Lemma put_cached s i x d b : same_place x (bufs s i) → cached (put s i x d) b = cached s b.
Proof. intros Hp. apply cached_ext. intros j. by destruct (put_place s i x d j Hp). Qed.

(** [d] differs from the disk of [s] at most in block [b_blockno x]. *)
Lemma binv_put s order i x d :
  binv s order → (i < nbuf)%nat → same_place x (bufs s i) → buf_ok d x →
  (∀ b, b ≠ b_blockno x → disk_read d b = disk_read (dk s) b) →
  (b_dev x = dev ∨ ∀ b, disk_read d b = disk_read (dk s) b) →
  binv (put s i x d) order.
Proof.
  intros HI Hi Hp Hok Hd Hd'. split.
  - eapply linked_ext; [..|apply (bi_list _ _ HI)]; intros j _;
      destruct (put_place s i x d j Hp); unfold nx, pv; done.
  - apply (bi_perm _ _ HI).
  - intros j k b Hj Hk. unfold has_key.
    destruct (put_place s i x d j Hp) as [-> -> _ _], (put_place s i x d k Hp) as [-> -> _ _].
    by apply (bi_key _ _ HI).
  - intros j Hj. simpl. destruct (decide (i = j)) as [->|Hne]; [by rewrite fn_lookup_insert|].
    rewrite fn_lookup_insert_ne by done. destruct (bi_buf _ _ HI j Hj) as [O1 O2 O3 O4 O5].
    split; try done. intros Hr Hdj Hv. rewrite O5 by done.
    destruct Hd' as [Hdx|Hsame]; [|by rewrite Hsame].
    symmetry. apply Hd. intros Hb. apply Hne. apply (bi_key _ _ HI i j (b_blockno x)); try done.
    unfold has_key. by destruct Hp as [<- <- _ _].
Qed.

Lemma abs_put s order i x d b :
  binv s order → (i < nbuf)%nat → b_dev (bufs s i) = dev → same_place x (bufs s i) →
  (∀ b', b' ≠ b_blockno x → disk_read d b' = disk_read (dk s) b') →
  abs (put s i x d) b = if decide (b = b_blockno x) then buf_info d b x else abs s b.
Proof.
  intros HI Hi Hdi Hp Hd. unfold abs. rewrite put_cached by done. case_decide as Hb.
  - assert (cached s b = Some i) as ->.
    { eapply cached_spec; [done|]. split; [done|]. split; [done|]. by destruct Hp; congruence. }
    simpl. by rewrite fn_lookup_insert.
  - destruct (cached s b) as [j|] eqn:Hc; simpl.
    + rewrite fn_lookup_insert_ne.
      * unfold buf_info. by rewrite Hd.
      * intros <-. apply (cached_spec s order) in Hc as [_ [_ Hb']]; [|done].
        apply Hb. destruct Hp; congruence.
    + by rewrite Hd.
Qed.

Ltac put_tac :=
  apply binv_put; try done; try (by right);
  try (split; simpl; done || lia || (intros; congruence)).

(** Handles survive changes that keep the reference and the validity. *)
Lemma handle_put s order i x d j b :
  binv s order → (i < nbuf)%nat → b_dev (bufs s i) = dev → same_place x (bufs s i) →
  (∀ b', b' ≠ b_blockno x → disk_read d b' = disk_read (dk s) b') →
  (j = i → 0 < b_refcnt x ∧ b_valid x = true) →
  handle s j b → handle (put s i x d) j b.
Proof.
  intros HI Hi Hdi Hp Hd Hx (Hc & Hr & Hv). split; [by rewrite put_cached|].
  rewrite (abs_put s order) by done. simpl.
  destruct (decide (i = j)) as [->|Hne].
  - destruct (Hx eq_refl) as [? ?]. rewrite fn_lookup_insert. split; [|done].
    apply (cached_spec s order) in Hc as [_ [_ Hb]]; [|done].
    rewrite decide_True by (destruct Hp; congruence). done.
  - rewrite fn_lookup_insert_ne by done. split; [|done]. rewrite decide_False; [done|].
    intros Hb. apply Hne. apply (cached_spec s order) in Hc as [Hj Hk]; [|done].
    apply (bi_key _ _ HI i j b); try done. split; [done|]. by destruct Hp; congruence.
Qed.

Lemma lock_buf_Ok s i :
  sl_locked (b_lock (bufs s i)) = 0 →
  lock_buf mypid i s = Ok tt (put s i (set_blk_lock (mkSleep 1 mypid) (bufs s i)) (dk s)).
Proof. intros Hl. unfold lock_buf, zoom, acquiresleep, bind, get. by rewrite Hl. Qed.

(** ** Scanning the list *)

Definition bump (s : B) (i : nat) : B :=
  put s i (set_refcnt (u32 (b_refcnt (bufs s i) + 1)) (bufs s i)) (dk s).

Lemma bget_cached_spec fuel s b x l :
  linked (nx s) (pv s) x l head → head ∉ l → (length l ≤ fuel)%nat →
  bget_cached fuel dev b (nx s x) s =
    match list_find (has_key s b) l with
    | Some (_, i) => Ok (Some i) (bump s i)
    | None => Ok None s
    end.
Proof.
  revert fuel x. induction l as [|i l IH]; intros fuel x Hl Hh Hf; simpl in Hl.
  - destruct Hl as [-> _]. by destruct fuel; simpl.
  - destruct Hl as (-> & _ & Hl). apply not_elem_of_cons in Hh as [Hi Hh].
    destruct fuel as [|fuel]; [simpl in Hf; lia|]. cbn [bget_cached].
    rewrite decide_False by done. unfold bind at 1, gets. cbn [list_find].
    destruct (decide (has_key s b i)) as [[Hk1 Hk2]|Hk].
    + rewrite Hk1, Hk2, !Z.eqb_refl. simpl. done.
    + replace (_ && _) with false.
      * fold (nx s i). rewrite (IH fuel i Hl Hh ltac:(simpl in Hf; lia)).
        by destruct (list_find (has_key s b) l) as [[]|].
      * symmetry. apply not_true_iff_false. intros [H1%Z.eqb_eq H2%Z.eqb_eq]%andb_true_iff.
        by apply Hk.
Qed.

(** The list read backwards. *)
Lemma linked_rev nx' pv' x l y : linked nx' pv' x l y → linked pv' nx' y (reverse l) x.
Proof.
  revert x. induction l as [|z l IH]; intros x; simpl; [tauto|].
  intros (H1 & H2 & H3). rewrite reverse_cons. apply linked_app. split; [by apply IH|done].
Qed.

Definition recycled (s : B) (b : Z) (i : nat) : B :=
  put s i (set_refcnt 1 (set_valid false (set_key dev b (bufs s i)))) (dk s).

Lemma bget_recycle_spec fuel s b x l :
  linked (pv s) (nx s) x l head → head ∉ l → (length l ≤ fuel)%nat →
  bget_recycle fuel dev b (pv s x) s =
    match list_find (λ i, b_refcnt (bufs s i) = 0) l with
    | Some (_, i) => Ok (Some i) (recycled s b i)
    | None => Ok None s
    end.
Proof.
  revert fuel x. induction l as [|i l IH]; intros fuel x Hl Hh Hf; simpl in Hl.
  - destruct Hl as [-> _]. by destruct fuel; simpl.
  - destruct Hl as (-> & _ & Hl). apply not_elem_of_cons in Hh as [Hi Hh].
    destruct fuel as [|fuel]; [simpl in Hf; lia|]. cbn [bget_recycle list_find].
    rewrite decide_False by done. unfold bind at 1, gets.
    destruct (decide (b_refcnt (bufs s i) = 0)) as [Hz|Hz].
    + rewrite Hz. done.
    + apply Z.eqb_neq in Hz as ->. fold (pv s i).
      rewrite (IH fuel i Hl Hh ltac:(simpl in Hf; lia)).
      by destruct (list_find (λ i, b_refcnt (bufs s i) = 0) l) as [[]|].
Qed.

(** ** bget and bread *)

(** There is a buffer for block [b]: it is in use, or some buffer is unused. *)
Definition room (s : B) (b : Z) : Prop :=
  0 < refs (abs s b) ∨ ∃ i, (i < nbuf)%nat ∧ b_refcnt (bufs s i) = 0.

Lemma find_cached s order b :
  binv s order → snd <$> list_find (has_key s b) order = cached s b.
Proof.
  intros HI. destruct (list_find (has_key s b) order) as [[k i]|] eqn:E; simpl.
  - symmetry. eapply cached_spec; [done|]. apply list_find_Some in E as (Hk & Hx & _).
    split; [|done]. apply (in_order s order); [done|]. by eapply list_elem_of_lookup_2.
  - symmetry. eapply cached_None; [done|]. intros i Hi. apply list_find_None in E.
    rewrite Forall_forall in E. apply E. by apply (in_order s order).
Qed.

(** The effect of taking one more reference on the info of block [b]. *)
Record took (s s' : B) (order : list nat) (b : Z) (i : nat) (o : option Z) : Prop := {
  tk_inv : binv s' order;
  tk_dk : dk s' = dk s;
  tk_cached : cached s' b = Some i;
  tk_abs : abs s' b = mkInfo (refs (abs s b) + 1) o (view (abs s b));
  tk_other : ∀ b', b' ≠ b → abs s' b' = abs s b';
  tk_handle : ∀ j b', handle s j b' → handle s' j b';
}.

Lemma bump_took s order b i :
  binv s order → cached s b = Some i → refs (abs s b) < 2 ^ 32 - 1 →
  0 < refs (abs s b) ∨ owner (abs s b) = None →
  took s (bump s i) order b i (owner (abs s b)).
Proof.
  intros HI Hc Hr Ho. pose proof Hc as Hc'. eapply cached_spec in Hc' as [Hi [Hd Hb]]; [|done].
  assert (Habs : abs s b = buf_info (dk s) b (bufs s i)) by (unfold abs; by rewrite Hc).
  rewrite Habs in Hr |- *. simpl in Hr.
  pose proof (bi_buf _ _ HI i Hi) as [O1 O2 O3 O4 O5].
  assert (Hu : u32 (b_refcnt (bufs s i) + 1) = b_refcnt (bufs s i) + 1) by (apply u32_id; lia).
  unfold bump. rewrite Hu. set (x := set_refcnt _ _).
  assert (Hp : same_place x (bufs s i)) by done.
  split; try done.
  - put_tac.
  - by rewrite put_cached.
  - rewrite (abs_put s order) by done. rewrite decide_True by done. by rewrite Habs.
  - intros b' Hb'. rewrite (abs_put s order) by done. rewrite decide_False; [done|]. simpl. congruence.
  - intros j b' Hh. apply (handle_put s order); try done. intros ->. simpl.
    split; [lia|]. apply Hh.
Qed.

Lemma recycled_took s order b i :
  binv s order → cached s b = None → (i < nbuf)%nat → b_refcnt (bufs s i) = 0 →
  took s (recycled s b i) order b i None.
Proof.
  intros HI Hn Hi Hz. unfold recycled. set (x := set_refcnt _ _).
  pose proof (bi_buf _ _ HI i Hi) as [O1 O2 O3 O4 O5].
  assert (Hnk : ∀ j, (j < nbuf)%nat → ¬ has_key s b j) by (by eapply cached_None).
  assert (HI' : binv (put s i x (dk s)) order).
  { split.
    - eapply linked_ext; [..|apply (bi_list _ _ HI)]; intros j _; unfold nx, pv; simpl;
        (destruct (decide (i = j)) as [->|]; [by rewrite fn_lookup_insert|by rewrite fn_lookup_insert_ne]).
    - apply (bi_perm _ _ HI).
    - intros j k b' Hj Hk. unfold has_key. simpl.
      destruct (decide (i = j)) as [<-|Hij], (decide (i = k)) as [<-|Hik];
        rewrite ?fn_lookup_insert, ?fn_lookup_insert_ne by done; try done.
      + intros [_ <-] Hk'. simpl in Hk'. by destruct (Hnk k Hk).
      + intros Hj' [_ <-]. simpl in Hj'. by destruct (Hnk j Hj).
      + by apply (bi_key _ _ HI).
    - intros j Hj. simpl. destruct (decide (i = j)) as [<-|].
      + rewrite fn_lookup_insert. split; simpl; try done; try lia; auto.
      + rewrite fn_lookup_insert_ne by done. by apply (bi_buf _ _ HI). }
  assert (Hother : ∀ j b', j ≠ i → has_key (put s i x (dk s)) b' j ↔ has_key s b' j).
  { intros j b' Hj. unfold has_key. simpl. by rewrite fn_lookup_insert_ne. }
  assert (Hci : cached (put s i x (dk s)) b = Some i).
  { eapply cached_spec; [done|]. split; [done|]. unfold has_key. simpl. by rewrite fn_lookup_insert. }
  assert (Hco : ∀ b', b' ≠ b → abs (put s i x (dk s)) b' = abs s b').
  { intros b' Hb'. unfold abs. destruct (cached (put s i x (dk s)) b') as [j|] eqn:E.
    - eapply cached_spec in E as [Hj Hk]; [|done].
      destruct (decide (j = i)) as [->|Hne].
      + destruct Hk as [_ Hk]. simpl in Hk. rewrite fn_lookup_insert in Hk. by destruct Hb'.
      + apply Hother in Hk; [|done].
        assert (cached s b' = Some j) as -> by (by eapply cached_spec).
        simpl. by rewrite fn_lookup_insert_ne.
    - destruct (cached s b') as [j|] eqn:E'; [|done].
      eapply cached_spec in E' as [Hj Hk]; [|done].
      destruct (decide (j = i)) as [->|Hne].
      + destruct Hk as [Hk1 Hk2]. simpl. unfold buf_info, lock_owner. rewrite Hz, O4 by done. simpl.
        f_equal. destruct (b_valid (bufs s i)) eqn:Hv; [|done]. rewrite O5 by done. by subst.
      + exfalso. assert (Hnone : ¬ has_key (put s i x (dk s)) b' j) by (by eapply cached_None).
        apply Hnone. by apply Hother. }
  split; try done.
  - unfold abs. rewrite Hci, Hn. simpl. rewrite fn_lookup_insert. unfold buf_info, lock_owner. simpl.
    by rewrite O4.
  - intros j b' (Hc & Hr & Hv). assert (b' ≠ b) by congruence.
    split; [|split; [by rewrite Hco|]].
    + eapply cached_spec in Hc as [Hj Hk]; [|done]. eapply cached_spec; [done|]. split; [done|].
      apply Hother; [|done]. intros ->. unfold abs in Hr.
      assert (cached s b' = Some i) as Hc by (by eapply cached_spec). rewrite Hc in Hr. simpl in Hr. lia.
    + simpl. rewrite fn_lookup_insert_ne; [done|]. intros <-. unfold abs in Hr. rewrite Hc in Hr.
      simpl in Hr. lia.
Qed.

(** Locking, once the reference is taken. *)
Lemma lock_took s s1 order b i :
  took s s1 order b i None → 0 ≤ refs (abs s b) →
  ∃ s2, lock_buf mypid i s1 = Ok tt s2 ∧ took s s2 order b i (Some mypid) ∧ 0 < b_refcnt (bufs s2 i).
Proof.
  intros [HI Hd Hc Ha Ho Hh] Hr. pose proof Hc as Hc'.
  eapply cached_spec in Hc' as [Hi [Hdi Hb]]; [|done].
  assert (Ha' : abs s1 b = buf_info (dk s1) b (bufs s1 i)) by (unfold abs; by rewrite Hc).
  rewrite Ha in Ha'. injection Ha' as Hrc Hlo Hvw.
  assert (Hl : sl_locked (b_lock (bufs s1 i)) = 0).
  { unfold lock_owner in Hlo. by destruct (Z.eqb_spec (sl_locked (b_lock (bufs s1 i))) 0). }
  eexists. split; [by apply lock_buf_Ok|]. set (x := set_blk_lock _ _).
  assert (Hp : same_place x (bufs s1 i)) by done.
  pose proof (bi_buf _ _ HI i Hi) as [O1 O2 O3 O4 O5].
  split; [split|].
  - put_tac.
  - done.
  - by rewrite put_cached.
  - rewrite (abs_put s1 order) by done. rewrite decide_True by done.
    unfold buf_info, lock_owner. simpl. by rewrite <- Hrc, <- Hvw.
  - intros b' Hb'. rewrite (abs_put s1 order) by done. rewrite decide_False by (simpl; congruence).
    by apply Ho.
  - intros j b' Hj%Hh. apply (handle_put s1 order); try done. intros ->.
    destruct Hj as (_ & Hr' & Hv). simpl. split; [lia|done].
  - simpl. rewrite fn_lookup_insert. simpl. lia.
Qed.

Lemma bget_spec s order b :
  binv s order → room s b → owner (abs s b) = None → refs (abs s b) < 2 ^ 32 - 1 →
  wp (bget mypid dev b) (λ i s',
    took s s' order b i (Some mypid) ∧ 0 < b_refcnt (bufs s' i)) s.
Proof.
  intros HI Hroom Ho Hr. unfold bget. pose proof (order_nodup s order HI) as Hnd.
  apply NoDup_cons in Hnd as [Hh Hnd].
  assert (Hlen : (length order ≤ nbuf)%nat).
  { rewrite (Permutation_length (bi_perm _ _ HI)), length_seq. done. }
  apply wp_bind. unfold wp at 1, gets. fold (nx s head). apply wp_bind. unfold wp at 1.
  rewrite (bget_cached_spec nbuf s b head order (bi_list _ _ HI) Hh Hlen).
  pose proof (find_cached s order b HI) as Hf.
  destruct (list_find (has_key s b) order) as [[k i]|] eqn:E; simpl in Hf; symmetry in Hf.
  - pose proof (bump_took s order b i HI Hf Hr ltac:(by right)) as Ht. rewrite Ho in Ht.
    destruct (lock_took s (bump s i) order b i Ht) as (s2 & Hl & Ht2 & Hp2).
    { unfold abs. rewrite Hf. simpl. eapply cached_spec in Hf as [Hi _]; [|done].
      by destruct (bo_ref _ _ (bi_buf _ _ HI i Hi)). }
    apply wp_bind. unfold wp at 1. rewrite Hl. by apply wp_ret.
  - apply wp_bind. unfold wp at 1, gets. fold (pv s head). apply wp_bind. unfold wp at 1.
    rewrite (bget_recycle_spec nbuf s b head (reverse order)).
    2:{ apply linked_rev, (bi_list _ _ HI). } 2:{ by rewrite elem_of_reverse. }
    2:{ by rewrite length_reverse. }
    destruct Hroom as [Hpos|(i0 & Hi0 & Hz0)].
    { unfold abs in Hpos. rewrite Hf in Hpos. simpl in Hpos. lia. }
    destruct (list_find (λ i, b_refcnt (bufs s i) = 0) (reverse order)) as [[k i]|] eqn:E2.
    + apply list_find_Some in E2 as (Hk & Hz & _).
      assert (Hi : (i < nbuf)%nat).
      { apply (in_order s order); [done|]. apply elem_of_reverse. by eapply list_elem_of_lookup_2. }
      pose proof (recycled_took s order b i HI Hf Hi Hz) as Ht.
      destruct (lock_took s (recycled s b i) order b i Ht) as (s2 & Hl & Ht2 & Hp2).
      { unfold abs. by rewrite Hf. }
      apply wp_bind. unfold wp at 1. rewrite Hl. by apply wp_ret.
    + exfalso. apply list_find_None in E2. rewrite Forall_forall in E2. apply (E2 i0); [|done].
      rewrite elem_of_reverse. by apply (in_order s order).
Qed.

Lemma bread_spec s order b :
  binv s order → room s b → owner (abs s b) = None → refs (abs s b) < 2 ^ 32 - 1 →
  wp (bread mypid dev b) (λ i s', took s s' order b i (Some mypid) ∧ handle s' i b) s.
Proof.
  intros HI Hroom Ho Hr. unfold bread. eapply wp_seq; [by apply (bget_spec s order)|].
  intros i s1 [[HI1 Hd Hc Ha Hot Hh] Hpos]. apply wp_bind. unfold wp at 1, gets.
  pose proof Hc as Hc'. eapply cached_spec in Hc' as [Hi [Hdi Hb]]; [|done].
  assert (Ha' : abs s1 b = buf_info (dk s1) b (bufs s1 i)) by (unfold abs; by rewrite Hc).
  rewrite Ha in Ha'. injection Ha' as Hrc Hlo Hvw.
  destruct (b_valid (bufs s1 i)) eqn:Hv; simpl.
  { unfold wp, bind, ret. split; [by split|]. split; [done|]. rewrite Ha. simpl. split; [lia|done]. }
  unfold wp, bind, virtio_disk_rw, upd_buf, modify, ret. simpl.
  set (x := set_data (disk_read (dk s1) (b_blockno (bufs s1 i))) (bufs s1 i)).
  fold (put s1 i x (dk s1)). set (s2 := put s1 i x (dk s1)).
  pose proof (bi_buf _ _ HI1 i Hi) as [O1 O2 O3 O4 O5].
  assert (HI2 : binv s2 order).
  { put_tac. }
  rewrite fn_lookup_insert. set (s3 := put s2 i (set_valid true x) (dk s1)).
  change (mkCache (<[i:=set_valid true x]> (<[i:=x]> (bufs s1))) (dk s1)) with s3.
  assert (Hx2 : bufs s2 i = x) by (simpl; by rewrite fn_lookup_insert).
  assert (Hp3 : same_place (set_valid true x) (bufs s2 i)) by (by rewrite Hx2).
  assert (HI3 : binv s3 order).
  { put_tac. }
  assert (Hc3 : cached s3 b = Some i) by (unfold s3, s2; by rewrite !put_cached by done).
  assert (Hdk2 : dk s2 = dk s1) by done.
  assert (Hb3 : abs s3 b = mkInfo (refs (abs s b) + 1) (Some mypid) (view (abs s b))).
  { unfold s3. rewrite (abs_put s2 order) by (done || (rewrite Hx2; done)).
    rewrite decide_True by done. unfold buf_info. simpl. by rewrite <- Hrc, <- Hlo, Hvw, Hb. }
  split; [split; try done|].
  - intros b' Hb'. unfold s3. rewrite (abs_put s2 order) by (done || (rewrite Hx2; done)).
    rewrite decide_False by (simpl; congruence). unfold s2.
    rewrite (abs_put s1 order) by done. rewrite decide_False by (simpl; congruence). by apply Hot.
  - intros j b' Hj%Hh.
    assert (Hne : j ≠ i) by (intros ->; destruct Hj as (_ & _ & Hvj); congruence).
    unfold s3. apply (handle_put s2 order); try done; try (by rewrite Hx2).
    by apply (handle_put s1 order).
  - split; [done|]. rewrite Hb3. simpl in *. split; [lia|]. by rewrite fn_lookup_insert.
Qed.

(** ** Operations on a block the process holds *)

Lemma lock_owner_holding l : lock_owner l = Some mypid → holdingsleep mypid l = Ok true l.
Proof.
  unfold lock_owner, holdingsleep, bind, get, ret. destruct (Z.eqb_spec (sl_locked l) 0); [done|].
  intros [= <-]. by rewrite Z.eqb_refl.
Qed.

Lemma holding_buf_Ok s order i b :
  binv s order → handle s i b → owner (abs s b) = Some mypid → holding_buf mypid i s = Ok true s.
Proof.
  intros HI Hh Ho. destruct (handle_info s order i b HI Hh) as (_ & _ & _ & Ha & _).
  rewrite Ha in Ho. simpl in Ho. unfold holding_buf, zoom. by rewrite lock_owner_holding.
Qed.

(** The info of block [b] becomes [f]; nothing else changes. *)
Record touched (s s' : B) (order : list nat) (b : Z) (x : info) : Prop := {
  to_inv : binv s' order;
  to_abs : ∀ b', abs s' b' = if decide (b' = b) then x else abs s b';
  to_handle : ∀ j b', handle s j b' → (b' = b → 0 < refs x) → handle s' j b';
}.

Lemma touched_put s order i b x :
  binv s order → handle s i b → same_place x (bufs s i) → buf_ok (dk s) x → b_valid x = true →
  touched s (put s i x (dk s)) order b (buf_info (dk s) b x).
Proof.
  intros HI Hh Hp Hok Hv. destruct (handle_info s order i b HI Hh) as (Hi & Hd & Hb & Ha & Hr).
  assert (Hbx : b_blockno x = b) by (destruct Hp; congruence). split.
  - apply binv_put; try done. by right.
  - intros b'. rewrite (abs_put s order) by done. rewrite Hbx. by case_decide; [subst|].
  - intros j b' Hj Hpos. apply (handle_put s order); try done. intros ->. split; [|done].
    destruct (handle_info s order i b' HI Hj) as (_ & _ & Hb' & _). apply Hpos. congruence.
Qed.

Lemma set_buf_data_spec s order i b f :
  binv s order → handle s i b →
  wp (set_buf_data i f) (λ _ s', dk s' = dk s ∧
    touched s s' order b (mkInfo (refs (abs s b)) (owner (abs s b)) (f (view (abs s b))))) s.
Proof.
  intros HI Hh. destruct (handle_info s order i b HI Hh) as (Hi & Hd & Hb & Ha & Hr).
  destruct Hh as (Hc & Hr' & Hv). unfold wp, set_buf_data, upd_buf, modify. split; [done|].
  set (x := set_data _ _). fold (put s i x (dk s)).
  replace (mkInfo _ _ _) with (buf_info (dk s) b x).
  - pose proof (bi_buf _ _ HI i Hi) as [O1 O2 O3 O4 O5].
    apply touched_put; try done. split; simpl; done || lia.
  - unfold buf_info. simpl. rewrite Ha, Hv. done.
Qed.

Lemma bpin_spec s order i b :
  binv s order → handle s i b → refs (abs s b) < 2 ^ 32 - 1 →
  wp (bpin i) (λ _ s', dk s' = dk s ∧
    touched s s' order b (mkInfo (refs (abs s b) + 1) (owner (abs s b)) (view (abs s b)))) s.
Proof.
  intros HI Hh Hb32. destruct (handle_info s order i b HI Hh) as (Hi & Hd & Hb & Ha & Hr).
  destruct Hh as (Hc & Hr' & Hv). unfold wp, bpin, upd_buf, modify. split; [done|].
  rewrite Ha in Hb32. simpl in Hb32. rewrite u32_id by lia. set (x := set_refcnt _ _).
  fold (put s i x (dk s)). replace (mkInfo _ _ _) with (buf_info (dk s) b x).
  - pose proof (bi_buf _ _ HI i Hi) as [O1 O2 O3 O4 O5].
    apply touched_put; try done. split; simpl; done || lia || (intros; congruence).
  - unfold buf_info. simpl. rewrite Ha, Hv. done.
Qed.

Lemma bunpin_spec s order i b :
  binv s order → handle s i b → 1 < refs (abs s b) →
  wp (bunpin i) (λ _ s', dk s' = dk s ∧
    touched s s' order b (mkInfo (refs (abs s b) - 1) (owner (abs s b)) (view (abs s b)))) s.
Proof.
  intros HI Hh Hpos. destruct (handle_info s order i b HI Hh) as (Hi & Hd & Hb & Ha & Hr).
  destruct Hh as (Hc & Hr' & Hv). unfold wp, bunpin, upd_buf, modify. split; [done|].
  rewrite Ha in Hpos. simpl in Hpos.
  pose proof (bi_buf _ _ HI i Hi) as [O1 O2 O3 O4 O5].
  rewrite u32_id by lia. set (x := set_refcnt _ _).
  fold (put s i x (dk s)). replace (mkInfo _ _ _) with (buf_info (dk s) b x).
  - apply touched_put; try done. split; simpl; done || lia || (intros; congruence).
  - unfold buf_info. simpl. rewrite Ha, Hv. done.
Qed.

Lemma bwrite_spec s order i b :
  binv s order → handle s i b → owner (abs s b) = Some mypid →
  wp (bwrite mypid i) (λ _ s', dk s' = disk_write (dk s) b (view (abs s b)) ∧
    touched s s' order b (abs s b)) s.
Proof.
  intros HI Hh Ho. pose proof (holding_buf_Ok s order i b HI Hh Ho) as Hhold.
  destruct (handle_info s order i b HI Hh) as (Hi & Hd & Hb & Ha & Hr).
  unfold bwrite. apply wp_bind. unfold wp at 1. rewrite Hhold. cbn [negb].
  unfold wp, virtio_disk_rw, modify. rewrite Ha, Hb. simpl. split; [done|].
  set (d := disk_write _ _ _). set (s' := mkCache _ _).
  assert (Hdk : ∀ b', disk_read d b' = if decide (b = b') then b_data (bufs s i) else disk_read (dk s) b')
    by (intros; apply disk_read_write).
  assert (Hc : ∀ b', cached s' b' = cached s b') by (intros; by apply cached_ext).
  assert (Habs : ∀ b', abs s' b' = abs s b').
  { intros b'. unfold abs. rewrite Hc. destruct (cached s b') as [j|] eqn:E; simpl.
    - unfold buf_info. rewrite Hdk. case_decide as Hbb; [|done]. subst b'.
      destruct Hh as (Hc' & _ & Hv). assert (j = i) as -> by congruence. by rewrite Hv.
    - rewrite Hdk. case_decide as Hbb; [|done]. subst b'. destruct Hh as (Hc' & _). congruence. }
  split.
  - destruct HI as [L P K O]. split; try done. intros j Hj. simpl.
    destruct (O j Hj) as [O1 O2 O3 O4 O5]. split; try done. intros Hz Hdj Hvj.
    rewrite Hdk, decide_False; [by apply O5|]. intros Hbj.
    assert (i = j) as <- by (apply (K i j b); done). lia.
  - intros b'. rewrite Habs. case_decide as Hbb; [|done]. by rewrite Hbb.
  - intros j b' (H1 & H2 & H3) _. split; [by rewrite Hc|]. by rewrite Habs.
Qed.

(** ** brelse *)

(** Buffers that differ at most in their links. *)
Definition same_but_links (x y : buf) : Prop :=
  b_valid x = b_valid y ∧ b_dev x = b_dev y ∧ b_blockno x = b_blockno y ∧
  b_lock x = b_lock y ∧ b_refcnt x = b_refcnt y ∧ b_data x = b_data y.

Lemma relink s s' order order' :
  binv s order → dk s' = dk s → (∀ j, same_but_links (bufs s' j) (bufs s j)) →
  linked (nx s') (pv s') head order' head → order' ≡ₚ order →
  binv s' order' ∧ (∀ b, abs s' b = abs s b) ∧ (∀ j b, handle s j b → handle s' j b).
Proof.
  intros HI Hd Hs Hl Hp.
  assert (Hc : ∀ b, cached s' b = cached s b).
  { intros b. apply cached_ext. intros j. by destruct (Hs j) as (_ & ? & ? & _). }
  assert (Ha : ∀ b, abs s' b = abs s b).
  { intros b. unfold abs. rewrite Hc, Hd. destruct (cached s b) as [j|]; [|done].
    unfold buf_info. by destruct (Hs j) as (-> & _ & _ & -> & -> & ->). }
  split; [split|split; [done|]].
  - done.
  - by rewrite Hp, (bi_perm _ _ HI).
  - intros i j b Hi Hj. unfold has_key.
    destruct (Hs i) as (_ & -> & -> & _), (Hs j) as (_ & -> & -> & _). by apply (bi_key _ _ HI).
  - intros j Hj. rewrite Hd. destruct (bi_buf _ _ HI j Hj) as [O1 O2 O3 O4 O5].
    destruct (Hs j) as (E1 & E2 & E3 & E4 & E5 & E6). split; rewrite ?E1, ?E2, ?E3, ?E4, ?E5, ?E6; done.
  - intros j b (H1 & H2 & H3). split; [by rewrite Hc|]. rewrite Ha. split; [done|].
    by destruct (Hs j) as (-> & _).
Qed.

Definition with_prev (k p : nat) (s : B) : B := put s k (set_prev p (bufs s k)) (dk s).
Definition with_next (k n : nat) (s : B) : B := put s k (set_next n (bufs s k)) (dk s).

Lemma with_prev_spec k p s j :
  nx (with_prev k p s) j = nx s j ∧
  pv (with_prev k p s) j = (if decide (k = j) then p else pv s j) ∧
  same_but_links (bufs (with_prev k p s) j) (bufs s j).
Proof.
  unfold nx, pv, with_prev. simpl. case_decide as Hk.
  - subst. by rewrite fn_lookup_insert.
  - by rewrite fn_lookup_insert_ne.
Qed.

Lemma with_next_spec k n s j :
  nx (with_next k n s) j = (if decide (k = j) then n else nx s j) ∧
  pv (with_next k n s) j = pv s j ∧
  same_but_links (bufs (with_next k n s) j) (bufs s j).
Proof.
  unfold nx, pv, with_next. simpl. case_decide as Hk.
  - subst. by rewrite fn_lookup_insert.
  - by rewrite fn_lookup_insert_ne.
Qed.

Lemma same_but_links_trans x y z :
  same_but_links x y → same_but_links y z → same_but_links x z.
Proof. unfold same_but_links. intuition congruence. Qed.

(** The stores of [brelse] that move [i] to the front. *)
Definition to_front (i : nat) (s : B) : B :=
  let s1 := with_prev (nx s i) (pv s i) s in
  let s2 := with_next (pv s1 i) (nx s1 i) s1 in
  let s3 := with_prev i head (with_next i (nx s2 head) s2) in
  with_next head i (with_prev (nx s3 head) i s3).

Lemma to_front_eq s i :
  bind (upd_buf (b_next (bufs s i)) (set_prev (b_prev (bufs s i)))) (λ _,
    do b <- gets (λ s, bufs s i);
    upd_buf (b_prev b) (set_next (b_next b)) ;;;
    link_self i ;;; link_head i) s = Ok tt (to_front i s).
Proof. reflexivity. Qed.

Lemma to_front_spec s order i :
  binv s order → (i < nbuf)%nat →
  ∃ order', order' ≡ₚ order ∧ linked (nx (to_front i s)) (pv (to_front i s)) head order' head ∧
    ∀ j, same_but_links (bufs (to_front i s) j) (bufs s j).
Proof.
  intros HI Hi. pose proof (order_nodup s order HI) as Hnd.
  assert (Hin : i ∈ order) by (by apply (in_order s)).
  apply list_elem_of_split in Hin as (l1 & l2 & ->). pose proof (bi_list _ _ HI) as Hl.
  assert (Hih : head ≠ i) by (unfold head; lia).
  assert (Hni : nx s i ≠ i).
  { apply linked_app in Hl as [_ Hl]. intros He. destruct l2 as [|w l2]; simpl in Hl.
    - destruct Hl as [Hn _]. congruence.
    - destruct Hl as (Hn & _ & _). rewrite He in Hn. subst w.
      apply NoDup_cons in Hnd as [_ Hnd]. apply NoDup_app in Hnd as (_ & _ & Hnd).
      apply NoDup_cons in Hnd as [Hnd _]. apply Hnd. by left. }
  pose proof (linked_unlink _ _ _ _ _ _ Hnd Hl) as Hu.
  assert (Hnd' : NoDup (head :: i :: l1 ++ l2)).
  { eapply NoDup_Permutation_proper; [|exact Hnd]. f_equiv. apply Permutation_middle. }
  pose proof (linked_push _ _ _ _ _ Hnd' Hu) as Hp.
  unfold to_front.
  set (s1 := with_prev (nx s i) (pv s i) s).
  set (s2 := with_next (pv s1 i) (nx s1 i) s1).
  set (s3 := with_next i (nx s2 head) s2). set (s4 := with_prev i head s3).
  set (s5 := with_prev (nx s4 head) i s4).
  assert (N1 : ∀ j, nx s1 j = nx s j) by (intros; apply with_prev_spec).
  assert (P1 : ∀ j, pv s1 j = unlink_pv (nx s) (pv s) i j) by (intros; apply with_prev_spec).
  assert (Hpi : pv s1 i = pv s i).
  { rewrite P1. unfold unlink_pv. by rewrite fn_lookup_insert_ne. }
  assert (N2 : ∀ j, nx s2 j = unlink_nx (nx s) (pv s) i j).
  { intros j. unfold s2. rewrite (proj1 (with_next_spec _ _ _ _)), N1, N1, Hpi. done. }
  assert (P2 : ∀ j, pv s2 j = unlink_pv (nx s) (pv s) i j).
  { intros j. unfold s2. rewrite (proj1 (proj2 (with_next_spec _ _ _ _))). apply P1. }
  assert (N3 : ∀ j, nx s3 j = if decide (i = j) then nx s2 head else nx s2 j)
    by (intros; apply with_next_spec).
  assert (P3 : ∀ j, pv s3 j = pv s2 j) by (intros; apply with_next_spec).
  assert (N4 : ∀ j, nx s4 j = nx s3 j) by (intros; apply with_prev_spec).
  assert (P4 : ∀ j, pv s4 j = if decide (i = j) then head else pv s3 j)
    by (intros; apply with_prev_spec).
  assert (N5 : ∀ j, nx s5 j = nx s4 j) by (intros; apply with_prev_spec).
  assert (P5 : ∀ j, pv s5 j = if decide (nx s4 head = j) then i else pv s4 j)
    by (intros; apply with_prev_spec).
  exists (i :: l1 ++ l2). split; [apply Permutation_middle|]. split.
  - eapply linked_ext; [..|exact Hp]; intros j _.
    + rewrite (proj1 (with_next_spec _ _ _ _)), N5, N4, N3, !N2. unfold push_nx.
      case_decide; [subst; by rewrite fn_lookup_insert|]. rewrite fn_lookup_insert_ne by done.
      case_decide; [subst; by rewrite fn_lookup_insert|]. by rewrite fn_lookup_insert_ne.
    + rewrite (proj1 (proj2 (with_next_spec _ _ _ _))), P5, P4, P3, P2, N4, N3.
      rewrite (decide_False (P := i = head)) by done. rewrite N2. unfold push_pv.
      case_decide as Hx; [rewrite <- Hx; by rewrite fn_lookup_insert|].
      rewrite fn_lookup_insert_ne by done.
      case_decide; [subst; by rewrite fn_lookup_insert|]. by rewrite fn_lookup_insert_ne.
  - intros j. eapply same_but_links_trans; [apply with_next_spec|].
    eapply same_but_links_trans; [apply with_prev_spec|].
    eapply same_but_links_trans; [apply with_prev_spec|].
    eapply same_but_links_trans; [apply with_next_spec|].
    eapply same_but_links_trans; [apply with_next_spec|]. apply with_prev_spec.
Qed.

Lemma brelse_spec s order i b :
  binv s order → handle s i b → owner (abs s b) = Some mypid →
  (refs (abs s b) = 1 → view (abs s b) = disk_read (dk s) b) →
  wp (brelse mypid i) (λ _ s', ∃ order', dk s' = dk s ∧
    touched s s' order' b (mkInfo (refs (abs s b) - 1) None (view (abs s b)))) s.
Proof.
  intros HI Hh Ho Hcl. pose proof (holding_buf_Ok s order i b HI Hh Ho) as Hhold.
  destruct (handle_info s order i b HI Hh) as (Hi & Hd & Hb & Ha & Hr).
  unfold brelse. apply wp_bind. unfold wp at 1. rewrite Hhold. cbn [negb].
  pose proof (bi_buf _ _ HI i Hi) as [O1 O2 O3 O4 O5].
  assert (Hv : b_valid (bufs s i) = true) by apply Hh.
  unfold wp, bind at 1, unlock_buf, zoom, releasesleep, modify at 1.
  set (x := set_blk_lock (mkSleep 0 0) (bufs s i)). fold (put s i x (dk s)).
  set (s1 := put s i x (dk s)).
  assert (Hx1 : bufs s1 i = x) by (simpl; by rewrite fn_lookup_insert).
  unfold bind at 1, upd_buf at 1, modify at 1. rewrite Hx1.
  change (b_refcnt x) with (b_refcnt (bufs s i)). rewrite u32_id by lia.
  set (y := set_refcnt (b_refcnt (bufs s i) - 1) x). fold (put s1 i y (dk s1)).
  set (s2 := put s1 i y (dk s1)).
  assert (Hy2 : bufs s2 i = y) by (simpl; by rewrite fn_lookup_insert).
  (* what the unlock and the decrement do *)
  assert (HT1 : touched s s1 order b (buf_info (dk s) b x)).
  { apply touched_put; try done; try (split; simpl; done || lia). }
  assert (HT2 : touched s s2 order b (mkInfo (refs (abs s b) - 1) None (view (abs s b)))).
  { assert (Hinfo : buf_info (dk s) b y = mkInfo (refs (abs s b) - 1) None (view (abs s b))).
    { unfold buf_info, lock_owner. simpl. rewrite Hv, Ha. done. }
    assert (Hh1 : handle s1 i b).
    { apply (to_handle _ _ _ _ _ HT1); [done|]. intros _. simpl. lia. }
    rewrite <- Hinfo. destruct HT1 as [HI1 A1 H1].
    destruct (touched_put s1 order i b y) as [HI2 A2 H2]; try done.
    - by rewrite Hx1.
    - split; simpl; try done; try lia; try (intros; congruence).
      intros Hz _ _. rewrite Ha in Hcl. simpl in Hcl. rewrite Hb. apply Hcl. lia.
    - split; [done|..].
      + intros b'. rewrite A2. case_decide; [done|]. rewrite A1. by rewrite decide_False.
      + intros j b' Hj Hpos. apply H2; [|done]. apply H1; [done|]. intros _. simpl. lia. }
  assert (Hdk2 : dk s2 = dk s) by done.
  clearbody s2. unfold bind at 1, gets at 1. rewrite Hy2.
  change (b_refcnt y) with (b_refcnt (bufs s i) - 1).
  destruct (Z.eqb_spec (b_refcnt (bufs s i) - 1) 0) as [Hz|Hz]; [|by exists order].
  rewrite <- Hy2, to_front_eq. destruct HT2 as [HI2 A2 H2].
  destruct (to_front_spec s2 order i HI2 Hi) as (order' & Hp & Hl & Hs).
  destruct (relink s2 (to_front i s2) order order' HI2 eq_refl Hs Hl Hp) as (HI3 & A3 & H3).
  exists order'. split; [done|]. split; [done|..].
  - intros b'. by rewrite A3, A2.
  - intros j b' Hj Hpos. apply H3. by apply H2.
Qed.

(** ** When there is a buffer left *)

Lemma room_bound s order L b :
  binv s order → (∀ b', 0 < refs (abs s b') → b' ∈ L) → (length L < nbuf)%nat → room s b.
Proof.
  intros HI HL Hlen. right. destruct (decide (Exists (λ i, b_refcnt (bufs s i) = 0) (seq 0 nbuf))) as [He|Hn].
  - apply Exists_exists in He as (i & Hi%elem_of_seq & Hz). exists i. split; [lia|done].
  - exfalso. apply not_Exists_Forall in Hn; [|intros ?; apply _]. rewrite Forall_forall in Hn.
    assert (Hkey : ∀ i, (i < nbuf)%nat → has_key s (b_blockno (bufs s i)) i ∧ b_blockno (bufs s i) ∈ L).
    { intros i Hi. destruct (bi_buf _ _ HI i Hi) as [O1 O2 O3 O4 O5].
      assert (Hz : b_refcnt (bufs s i) ≠ 0) by (apply Hn, elem_of_seq; lia).
      assert (Hd : b_dev (bufs s i) = dev) by (destruct O1 as [Hd|?]; [by destruct Hz; apply O2|done]).
      split; [done|]. apply HL. unfold abs.
      assert (cached s (b_blockno (bufs s i)) = Some i) as -> by (by eapply cached_spec).
      simpl. lia. }
    assert (Hle : (length ((λ i, b_blockno (bufs s i)) <$> seq 0 nbuf) ≤ length L)%nat).
    { apply submseteq_length, NoDup_submseteq.
      - apply NoDup_fmap_2_strong; [|apply NoDup_seq].
        intros i j Hi%elem_of_seq Hj%elem_of_seq Hb.
        apply (bi_key _ _ HI i j (b_blockno (bufs s i))); try lia.
        + apply Hkey. lia.
        + rewrite Hb. apply Hkey. lia.
      - intros x (i & -> & Hi%elem_of_seq)%list_elem_of_fmap. apply Hkey. lia. }
    rewrite length_fmap, length_seq in Hle. lia.
Qed.

(** ** binit *)

(** The cache before [binit]: zeroed memory. *)
Definition zeroed (x : buf) : Prop :=
  b_valid x = false ∧ b_dev x = 0 ∧ b_refcnt x = 0.

Definition binit_iter (i : nat) (s : B) : B :=
  let s1 := with_prev i head (with_next i (nx s head) s) in
  let s2 := put s1 i (set_blk_lock initsleeplock (bufs s1 i)) (dk s1) in
  with_next head i (with_prev (nx s2 head) i s2).

Lemma binit_iter_spec s i l :
  NoDup (head :: i :: l) → linked (nx s) (pv s) head l head →
  linked (nx (binit_iter i s)) (pv (binit_iter i s)) head (i :: l) head ∧
  dk (binit_iter i s) = dk s ∧
  (∀ j, zeroed (bufs s j) → zeroed (bufs (binit_iter i s) j)) ∧
  (∀ j, (j = i ∨ sl_locked (b_lock (bufs s j)) = 0) →
     sl_locked (b_lock (bufs (binit_iter i s) j)) = 0).
Proof.
  intros Hnd Hl. pose proof (linked_push _ _ _ _ _ Hnd Hl) as Hp.
  assert (Hih : head ≠ i).
  { apply NoDup_cons in Hnd as [Hn _]. by apply not_elem_of_cons in Hn as [? _]. }
  unfold binit_iter.
  set (s0 := with_next i (nx s head) s). set (s1 := with_prev i head s0).
  set (s2 := put s1 i _ _). set (s3 := with_prev (nx s2 head) i s2).
  assert (N0 : ∀ j, nx s0 j = if decide (i = j) then nx s head else nx s j)
    by (intros; apply with_next_spec).
  assert (P0 : ∀ j, pv s0 j = pv s j) by (intros; apply with_next_spec).
  assert (N1 : ∀ j, nx s1 j = nx s0 j) by (intros; apply with_prev_spec).
  assert (P1 : ∀ j, pv s1 j = if decide (i = j) then head else pv s0 j)
    by (intros; apply with_prev_spec).
  assert (H2 : ∀ j, same_place (bufs s2 j) (bufs s1 j)) by (intros; by apply put_place).
  assert (N2 : ∀ j, nx s2 j = nx s1 j) by (intros; apply H2).
  assert (P2 : ∀ j, pv s2 j = pv s1 j) by (intros; apply H2).
  assert (N3 : ∀ j, nx s3 j = nx s2 j) by (intros; apply with_prev_spec).
  assert (P3 : ∀ j, pv s3 j = if decide (nx s2 head = j) then i else pv s2 j)
    by (intros; apply with_prev_spec).
  assert (S1 : ∀ j, same_but_links (bufs s1 j) (bufs s j)).
  { intros j. eapply same_but_links_trans; [apply with_prev_spec|]. apply with_next_spec. }
  assert (S4 : ∀ j, same_but_links (bufs (with_next head i s3) j) (bufs s2 j)).
  { intros j. eapply same_but_links_trans; [apply with_next_spec|]. apply with_prev_spec. }
  assert (B2 : ∀ j, bufs s2 j = if decide (i = j) then set_blk_lock initsleeplock (bufs s1 i) else bufs s1 j).
  { intros j. simpl. case_decide; [subst; by rewrite fn_lookup_insert|by rewrite fn_lookup_insert_ne]. }
  split; [|split; [done|split]].
  - eapply linked_ext; [..|exact Hp]; intros j _.
    + rewrite (proj1 (with_next_spec _ _ _ _)), N3, N2, N1, N0. unfold push_nx.
      case_decide; [subst; by rewrite fn_lookup_insert|]. rewrite fn_lookup_insert_ne by done.
      case_decide; [subst; by rewrite fn_lookup_insert|]. by rewrite fn_lookup_insert_ne.
    + rewrite (proj1 (proj2 (with_next_spec _ _ _ _))), P3, P2, P1, P0, N2, N1, N0.
      rewrite (decide_False (P := i = head)) by done. unfold push_pv.
      case_decide as Hx; [rewrite <- Hx; by rewrite fn_lookup_insert|].
      rewrite fn_lookup_insert_ne by done.
      case_decide; [subst; by rewrite fn_lookup_insert|]. by rewrite fn_lookup_insert_ne.
  - intros j (Z1 & Z2 & Z3). destruct (S4 j) as (E1 & E2 & _ & _ & E5 & _).
    destruct (S1 j) as (F1 & F2 & _ & _ & F5 & _).
    assert (Hz : zeroed (bufs s1 j)) by (unfold zeroed; by rewrite F1, F2, F5).
    unfold zeroed. rewrite E1, E2, E5. change (zeroed (bufs s2 j)). rewrite B2.
    case_decide as Hij; [rewrite Hij|]; exact Hz.
  - intros j Hj. destruct (S4 j) as (_ & _ & _ & -> & _). rewrite B2. case_decide; [done|].
    destruct (S1 j) as (_ & _ & _ & -> & _). destruct Hj as [?|?]; [by subst|done].
Qed.

Lemma binit_loop_spec n k s l :
  (k + n = nbuf)%nat → NoDup l → (∀ i, i ∈ l ↔ (i < k)%nat) →
  linked (nx s) (pv s) head l head → (∀ i, zeroed (bufs s i)) →
  (∀ i, (i < k)%nat → sl_locked (b_lock (bufs s i)) = 0) →
  wp (for_loop n (Z.of_nat k) (λ i,
        let b := Z.to_nat i in
        link_self b ;;; upd_buf b (set_blk_lock initsleeplock) ;;; link_head b))
     (λ _ s', dk s' = dk s ∧ (∀ i, zeroed (bufs s' i)) ∧
        (∀ i, (i < nbuf)%nat → sl_locked (b_lock (bufs s' i)) = 0) ∧
        ∃ order, linked (nx s') (pv s') head order head ∧ NoDup order ∧
          ∀ i, i ∈ order ↔ (i < nbuf)%nat) s.
Proof.
  revert k s l. induction n as [|n IH]; intros k s l Hk Hnd Hl Hlk Hz Hun; cbn [for_loop].
  { apply wp_ret. assert (k = nbuf) as -> by lia. split; [done|]. split; [done|]. split; [done|].
    by exists l. }
  apply wp_bind. rewrite Nat2Z.id. unfold wp at 1.
  change ((link_self k ;;; upd_buf k (set_blk_lock initsleeplock) ;;; link_head k) s)
    with (Ok (S := B) tt (binit_iter k s)). cbv beta iota.
  assert (Hnd' : NoDup (head :: k :: l)).
  { apply NoDup_cons. split; [|apply NoDup_cons; split; [rewrite Hl; lia|done]].
    intros [Hx|Hx]%elem_of_cons; [unfold head in Hx; lia|]. apply Hl in Hx. unfold head in Hx. lia. }
  destruct (binit_iter_spec s k l Hnd' Hlk) as (L & Dk & Zr & Lk).
  replace (Z.of_nat k + 1) with (Z.of_nat (S k)) by lia. rewrite <- Dk.
  apply (IH (S k) (binit_iter k s) (k :: l)); try done.
  - lia.
  - apply NoDup_cons in Hnd' as [_ ?]. done.
  - intros i. rewrite elem_of_cons, Hl. lia.
  - intros i. by apply Zr.
  - intros i Hi. apply Lk. destruct (decide (i = k)); [by left|right]. apply Hun. lia.
Qed.

Lemma binit_spec s :
  (∀ i, zeroed (bufs s i)) →
  wp binit (λ _ s', dk s' = dk s ∧ (∃ order, binv s' order) ∧
    ∀ b, abs s' b = mkInfo 0 None (disk_read (dk s) b)) s.
Proof.
  intros Hz. unfold binit.
  set (s1 := with_prev head head s). set (s2 := with_next head head s1).
  eapply (wp_seq _ _ (λ _ t, t = s1)); [done|]. intros _ t ->.
  eapply (wp_seq _ _ (λ _ t, t = s2)); [done|]. intros _ t ->.
  eapply wp_mono; [apply (binit_loop_spec nbuf 0 s2 [])|]; try done.
  - apply NoDup_nil_2.
  - intros i. split; [intros []%not_elem_of_nil|lia].
  - intros i. destruct (with_next_spec head head s1 i) as (_ & _ & E1 & E2 & _ & _ & E5 & _).
    destruct (with_prev_spec head head s i) as (_ & _ & F1 & F2 & _ & _ & F5 & _).
    unfold zeroed. fold s2 in E1, E2, E5. fold s1 in F1, F2, F5.
    rewrite E1, E2, E5, F1, F2, F5. apply Hz.
  - lia.
  - intros _ s' (Hd & Hz' & Hu & order & Hl & Hnd & Hin). split; [done|].
    assert (Hk : ∀ b i, ¬ has_key s' b i).
    { intros b i [Hd' _]. destruct (Hz' i) as (_ & Hd0 & _). congruence. }
    assert (HI : binv s' order).
    { split.
      - done.
      - apply NoDup_Permutation; [done|apply NoDup_seq|]. intros i. rewrite Hin, elem_of_seq. lia.
      - intros i j b _ _ Hx. by apply Hk in Hx.
      - intros i Hi. destruct (Hz' i) as (H1 & H2 & H3). split; try done; try lia; try (by left).
        intros _. by apply Hu. }
    split; [by exists order|]. intros b. unfold abs.
    assert (cached s' b = None) as ->; [|by rewrite Hd].
    eapply cached_None; [done|]. intros i _. apply Hk.
Qed.

(** ** The interface for clients

    [cst c A d]: the cache [c] is well formed, shows the blocks as [A] and sits
    on the disk [d].  The rules below give each operation as an update of [A]
    and [d]; clients reason with them alone. *)
Definition cst (c : B) (A : Z → info) (d : D) : Prop :=
  ∃ order, binv c order ∧ (∀ b, abs c b = A b) ∧ dk c = d.

(** An unreferenced block is shown as the disk has it. *)
Lemma cst_clean c A d b : cst c A d → refs (A b) = 0 → view (A b) = disk_read d b.
Proof.
  intros (order & HI & HA & <-) Hr. rewrite <- HA in *. unfold abs in *. destruct (cached c b) as [i|] eqn:E; [|done].
  apply (cached_spec c order b i HI) in E as [Hi [Hd Hb]]. simpl in *. destruct (b_valid (bufs c i)) eqn:Ev; [|done].
  rewrite <- Hb. by apply (bi_buf _ _ HI i Hi).
Qed.

(** A buffer can be had for [b]. *)
Definition avail (A : Z → info) (b : Z) : Prop :=
  0 < refs (A b) ∨ ∃ P : list Z, (∀ b', 0 < refs (A b') → b' ∈ P) ∧ (length P < nbuf)%nat.

(** Every reference of [c] is still one of [c']. *)
Definition keeps (c c' : B) : Prop := ∀ j b, handle c j b → handle c' j b.

Lemma cst_ext c A A' d : cst c A d → (∀ b, A b = A' b) → cst c A' d.
Proof. intros (order & ? & HA & ?) He. exists order. split; [done|]. split; [|done]. intros b. by rewrite HA. Qed.

Lemma cst_bread c A d b (Q : nat → B → Prop) :
  cst c A d → avail A b → owner (A b) = None → refs (A b) < 2 ^ 32 - 1 →
  (∀ i c', cst c' (<[b := mkInfo (refs (A b) + 1) (Some mypid) (view (A b))]> A) d →
     handle c' i b → keeps c c' → Q i c') →
  wp (bread mypid dev b) Q c.
Proof.
  intros (order & HI & HA & Hd) Hav Ho Hr HQ.
  eapply wp_mono; [apply (bread_spec c order b HI); rewrite ?HA; try done|].
  - destruct Hav as [Hp|(P & HP & Hl)]; [left; by rewrite HA|].
    apply (room_bound c order P); try done. intros b'. rewrite HA. apply HP.
  - intros i c' [[HI' Hd' Hc Ha Ho' Hh] Hhd]. apply HQ; [|done|done].
    exists order. split; [done|]. split; [|congruence]. intros b'.
    destruct (decide (b = b')) as [<-|Hne].
    + rewrite fn_lookup_insert, Ha, HA. done.
    + rewrite fn_lookup_insert_ne by done. rewrite Ho' by done. apply HA.
Qed.

Lemma cst_touched c c' A d' order' b x :
  (∀ b', abs c b' = A b') → dk c' = d' → touched c c' order' b x → cst c' (<[b := x]> A) d'.
Proof.
  intros HA Hd [HI HT _]. exists order'. split; [done|]. split; [|done]. intros b'. rewrite HT.
  destruct (decide (b' = b)) as [->|]; [by rewrite fn_lookup_insert|].
  by rewrite fn_lookup_insert_ne, HA.
Qed.

Lemma handle_refs c A d i b : cst c A d → handle c i b → 0 < refs (A b).
Proof. intros (order & HI & HA & _) (_ & Hr & _). by rewrite <- HA. Qed.

Lemma cst_buf_data c A d i b (Q : list Z → B → Prop) :
  cst c A d → handle c i b → Q (view (A b)) c → wp (buf_data i) Q c.
Proof.
  intros (order & HI & HA & _) Hh HQ. unfold wp, buf_data, gets.
  destruct (handle_info c order i b HI Hh) as (_ & _ & _ & Ha & _). rewrite <- HA, Ha in HQ. done.
Qed.

Lemma cst_blockno c A d i b : cst c A d → handle c i b → b_blockno (bufs c i) = b.
Proof.
  intros (order & HI & _) Hh. by destruct (handle_info c order i b HI Hh) as (_ & _ & ? & _).
Qed.

Lemma cst_set_buf_data c A d i b f (Q : unit → B → Prop) :
  cst c A d → handle c i b →
  (∀ c', cst c' (<[b := mkInfo (refs (A b)) (owner (A b)) (f (view (A b)))]> A) d → keeps c c' → Q tt c') →
  wp (set_buf_data i f) Q c.
Proof.
  intros Hc Hh HQ. pose proof (handle_refs c A d i b Hc Hh) as Hr. destruct Hc as (order & HI & HA & Hd).
  eapply wp_mono; [by apply (set_buf_data_spec c order i b f)|]. intros [] c' [Hd' HT].
  apply HQ.
  - rewrite <- (HA b). eapply cst_touched; [done|congruence|done].
  - intros j b' Hj. apply (to_handle _ _ _ _ _ HT); [done|]. intros ->. simpl. by rewrite HA.
Qed.

Lemma cst_bwrite c A d i b (Q : unit → B → Prop) :
  cst c A d → handle c i b → owner (A b) = Some mypid →
  (∀ c', cst c' A (disk_write d b (view (A b))) → keeps c c' → Q tt c') →
  wp (bwrite mypid i) Q c.
Proof.
  intros Hc Hh Ho HQ. pose proof (handle_refs c A d i b Hc Hh) as Hr. destruct Hc as (order & HI & HA & Hd).
  eapply wp_mono; [apply (bwrite_spec c order i b); rewrite ?HA; done|]. intros [] c' [Hd' HT].
  apply HQ.
  - eapply cst_ext; [eapply cst_touched; [done| |done]; rewrite Hd', Hd, HA; done|].
    intros b'. destruct (decide (b' = b)) as [->|]; [by rewrite fn_lookup_insert|].
    by rewrite fn_lookup_insert_ne.
  - intros j b' Hj. apply (to_handle _ _ _ _ _ HT); [done|]. intros ->. by rewrite HA.
Qed.

Lemma cst_bpin c A d i b (Q : unit → B → Prop) :
  cst c A d → handle c i b → refs (A b) < 2 ^ 32 - 1 →
  (∀ c', cst c' (<[b := mkInfo (refs (A b) + 1) (owner (A b)) (view (A b))]> A) d →
     keeps c c' → Q tt c') →
  wp (bpin i) Q c.
Proof.
  intros Hc Hh Hb HQ. pose proof (handle_refs c A d i b Hc Hh) as Hr. destruct Hc as (order & HI & HA & Hd).
  eapply wp_mono; [apply (bpin_spec c order i b); rewrite ?HA; done|]. intros [] c' [Hd' HT].
  apply HQ.
  - rewrite <- (HA b). eapply cst_touched; [done|congruence|done].
  - intros j b' Hj. apply (to_handle _ _ _ _ _ HT); [done|]. intros ->. simpl. rewrite HA. lia.
Qed.

Lemma cst_bunpin c A d i b (Q : unit → B → Prop) :
  cst c A d → handle c i b → 1 < refs (A b) →
  (∀ c', cst c' (<[b := mkInfo (refs (A b) - 1) (owner (A b)) (view (A b))]> A) d →
     keeps c c' → Q tt c') →
  wp (bunpin i) Q c.
Proof.
  intros Hc Hh Hb HQ. destruct Hc as (order & HI & HA & Hd).
  eapply wp_mono; [apply (bunpin_spec c order i b); rewrite ?HA; done|]. intros [] c' [Hd' HT].
  apply HQ.
  - rewrite <- (HA b). eapply cst_touched; [done|congruence|done].
  - intros j b' Hj. apply (to_handle _ _ _ _ _ HT); [done|]. intros ->. simpl. rewrite HA. lia.
Qed.

(** The last reference may go only when the block's contents are on disk. *)
Lemma cst_brelse c A d i b (Q : unit → B → Prop) :
  cst c A d → handle c i b → owner (A b) = Some mypid →
  (refs (A b) = 1 → view (A b) = disk_read d b) →
  (∀ c', cst c' (<[b := mkInfo (refs (A b) - 1) None (view (A b))]> A) d →
     (∀ j b', handle c j b' → b' ≠ b ∨ 1 < refs (A b) → handle c' j b') → Q tt c') →
  wp (brelse mypid i) Q c.
Proof.
  intros Hc Hh Ho Hcl HQ. destruct Hc as (order & HI & HA & Hd).
  eapply wp_mono; [apply (brelse_spec c order i b); rewrite ?HA, ?Hd; done|].
  intros [] c' (order' & Hd' & HT). apply HQ.
  - rewrite <- (HA b). eapply cst_touched; [done|congruence|done].
  - intros j b' Hj Hx. apply (to_handle _ _ _ _ _ HT); [done|]. intros ->. simpl. rewrite HA.
    destruct Hx; [done|lia].
Qed.

Lemma cst_binit c (Q : unit → B → Prop) :
  (∀ i, zeroed (bufs c i)) →
  (∀ c', cst c' (λ b, mkInfo 0 None (disk_read (dk c) b)) (dk c) → Q tt c') →
  wp binit Q c.
Proof.
  intros Hz HQ. eapply wp_mono; [by apply binit_spec|]. intros [] c' (Hd & [order HI] & Ha).
  apply HQ. by exists order.
Qed.

Lemma disk_of_view c A d b : cst c A d → refs (A b) = 0 → view (A b) = disk_read d b.
Proof.
  intros (order & HI & HA & Hd) Hr. rewrite <- HA in *. unfold abs in *.
  destruct (cached c b) as [i|] eqn:E; simpl in *; [|by rewrite Hd].
  apply (cached_spec c order) in E as [Hi [Hdi Hb]]; [|done].
  destruct (bi_buf _ _ HI i Hi) as [_ _ _ _ O5]. destruct (b_valid (bufs c i)) eqn:Hv; [|by rewrite Hd].
  rewrite O5 by done. by rewrite Hd, Hb.
Qed.
End BioSpec.
