(* ===== verification/BioStore.v ===== *)
(** * BioStore: the buffer cache refines the disk

    A client that reads and writes blocks through [bread], [bwrite] and
    [brelse] sees the disk, whatever blocks the cache of NBUF buffers has
    recycled in between. *)
From stdpp Require Import functions.
From S2P Require Import Prelude Riscv Spinlock Bio BioSpec.

(** The two uses the comment at the top of bio.c describes. *)
Inductive cmd : Type :=
| Get (b : Z)
| Put (b : Z) (f : list Z → list Z).

Definition cmd_block (c : cmd) : Z := match c with Get b => b | Put b _ => b end.

Section store.
Context {D : Type} `{Disk D}.
Context (mypid dev : Z).
Implicit Types (c : bcache D) (d : D).

Definition run_cmd (x : cmd) : M (bcache D) (list Z) :=
  match x with
  | Get b =>
    do i <- bread mypid dev b;
    do v <- buf_data i;
    brelse mypid i ;;;
    ret v
  | Put b f =>
    do i <- bread mypid dev b;
    set_buf_data i f ;;;
    do v <- buf_data i;
    bwrite mypid i ;;;
    brelse mypid i ;;;
    ret v
  end.

Fixpoint run_cmds (xs : list cmd) : M (bcache D) (list (list Z)) :=
  match xs with
  | [] => ret []
  | x :: xs => do v <- run_cmd x; do vs <- run_cmds xs; ret (v :: vs)
  end.

(** The same on the disk alone. *)
Definition disk_cmd (d : D) (x : cmd) : list Z * D :=
  match x with
  | Get b => (disk_read d b, d)
  | Put b f => let v := f (disk_read d b) in (v, disk_write d b v)
  end.

Fixpoint disk_cmds (d : D) (xs : list cmd) : list (list Z) * D :=
  match xs with
  | [] => ([], d)
  | x :: xs =>
    let '(v, d) := disk_cmd d x in
    let '(vs, d) := disk_cmds d xs in (v :: vs, d)
  end.

(** Between commands nothing is referenced. *)
Definition idle c d : Prop := ∃ A, cst dev c A d ∧ ∀ b, refs (A b) = 0 ∧ owner (A b) = None.

Lemma idle_view c A d b : cst dev c A d → refs (A b) = 0 → view (A b) = disk_read d b.
Proof. intros Hc Hr. by apply (disk_of_view dev c). Qed.

Lemma idle_avail A b : (∀ b, refs (A b) = 0 ∧ owner (A b) = None) → avail A b.
Proof.
  intros HA. right. exists []. split; [|unfold nbuf, NBUF, MAXOPBLOCKS; simpl; lia].
  intros b'. destruct (HA b') as [-> _]. lia.
Qed.

Lemma run_cmd_spec x c d :
  dev ≠ 0 → idle c d →
  wp (run_cmd x) (λ v c', v = (disk_cmd d x).1 ∧ idle c' (disk_cmd d x).2) c.
Proof.
  intros Hdev (A & Hc & HA). pose proof (λ b, idle_avail A b HA) as Hav.
  destruct x as [b|b f]; simpl; destruct (HA b) as [Hr Ho]; pose proof (idle_view c A d b Hc Hr) as Hv.
  - apply wp_step. eapply (cst_bread dev Hdev mypid); [exact Hc|done|done|lia|]. intros i c1 H1 Hi _.
    apply wp_step. eapply (cst_buf_data dev); [exact H1|done|]. rewrite fn_lookup_insert. cbn [view].
    apply wp_step. eapply (cst_brelse dev mypid _ _ _ i b); [exact H1|done|by rewrite fn_lookup_insert| |].
    { by rewrite fn_lookup_insert. }
    rewrite fn_lookup_insert. cbn [refs view]. intros c2 H2 _. apply wp_ret. split; [done|].
    eexists. split; [exact H2|]. intros b'. destruct (decide (b = b')) as [<-|].
    + rewrite fn_lookup_insert. simpl. split; [lia|done].
    + by rewrite !fn_lookup_insert_ne.
  - apply wp_step. eapply (cst_bread dev Hdev mypid); [exact Hc|done|done|lia|]. intros i c1 H1 Hi _.
    apply wp_step. eapply (cst_set_buf_data dev); [exact H1|exact Hi|].
    rewrite fn_lookup_insert. cbn [view refs owner]. intros c2 H2 K2. apply K2 in Hi.
    apply wp_step. eapply (cst_buf_data dev); [exact H2|exact Hi|]. rewrite fn_lookup_insert. cbn [view].
    apply wp_step. eapply (cst_bwrite dev mypid _ _ _ i b); [exact H2|exact Hi|by rewrite fn_lookup_insert|].
    rewrite fn_lookup_insert. cbn [view]. intros c3 H3 K3. apply K3 in Hi.
    apply wp_step. eapply (cst_brelse dev mypid _ _ _ i b); [exact H3|exact Hi|by rewrite fn_lookup_insert| |].
    { intros _. rewrite fn_lookup_insert. simpl. by rewrite disk_read_write, decide_True. }
    rewrite fn_lookup_insert. cbn [refs view]. intros c4 H4 _. apply wp_ret. rewrite Hv in *. split; [done|].
    eexists. split; [exact H4|]. intros b'. destruct (decide (b = b')) as [<-|].
    + rewrite fn_lookup_insert. simpl. split; [lia|done].
    + by rewrite !fn_lookup_insert_ne.
Qed.

Lemma run_cmds_spec xs c d :
  dev ≠ 0 → idle c d →
  wp (run_cmds xs) (λ vs c', vs = (disk_cmds d xs).1 ∧ idle c' (disk_cmds d xs).2) c.
Proof.
  intros Hdev. revert c d. induction xs as [|x xs IH]; intros c d Hi; simpl; [by apply wp_ret|].
  apply wp_step. eapply wp_mono; [by apply run_cmd_spec|]. intros v c1 [-> H1].
  destruct (disk_cmd d x) as [v d1]. simpl in *.
  apply wp_step. eapply wp_mono; [by apply IH|]. intros vs c2 [-> H2].
  destruct (disk_cmds d1 xs) as [vs d2]. by apply wp_ret.
Qed.
End store.

(** C20: the buffer cache is transparent.  After [binit], any sequence of block
    reads and writes through the cache, over any number of distinct blocks,
    completes without running out of buffers, returns what the same sequence
    returns on the disk itself, and leaves the disk in the same state. *)
Theorem bcache_refines_disk {D} `{Disk D} (mypid dev : Z) (c : bcache D) (xs : list cmd)
    (Hdev : dev ≠ 0) (Hz : ∀ i, zeroed (bufs c i)) :
  ∃ c', (binit ;;; run_cmds mypid dev xs) c = Ok (disk_cmds (dk c) xs).1 c' ∧
    dk c' = (disk_cmds (dk c) xs).2.
Proof.
  assert (Hw : wp (binit ;;; run_cmds mypid dev xs) (λ vs c', vs = (disk_cmds (dk c) xs).1 ∧
    idle dev c' (disk_cmds (dk c) xs).2) c).
  { apply wp_step. apply (cst_binit dev Hdev); [done|]. intros c1 H1. apply run_cmds_spec; [done|].
    eexists. split; [exact H1|]. done. }
  apply wp_inv in Hw as (vs & c' & He & -> & A & (order & _ & _ & Hd) & _).
  exists c'. split; [exact He|exact Hd].
Qed.

(** Forty-one blocks, more than there are buffers; block 5 is written first and
    read last. *)
Definition demo_cmds : list cmd :=
  Put 5 (λ _, [1; 2; 3]) :: ((λ n, Get (Z.of_nat n)) <$> seq 10 40) ++ [Get 5].

Lemma bcache_refines_disk_witness :
  ∃ c', (binit ;;; run_cmds 7 1 demo_cmds)
      (mkCache (λ _, mkBuf false 0 0 (mkSleep 0 0) 0 0 0 []) (λ b : Z, [b])) =
    Ok ([1; 2; 3] :: ((λ n, [Z.of_nat n]) <$> seq 10 40) ++ [[1; 2; 3]]) c'.
Proof.
  destruct (bcache_refines_disk 7 1 (mkCache (λ _, mkBuf false 0 0 (mkSleep 0 0) 0 0 0 []) (λ b : Z, [b]))
    demo_cmds) as (c' & He & _); [lia|intros i; repeat split|].
  exists c'. exact He.
Defined.
