(* ===== verification/Log.v ===== *)
(** * Log: the write-ahead log, kernel/log.c

    The operations of the source over the buffer cache of Bio.v.  The header
    block on disk is an array of little-endian 32-bit words. *)
From S2P Require Import Prelude Riscv Spinlock Bio.

(** ** 32-bit words inside a block *)

Definition st32 (off : nat) (v : Z) (data : list Z) : list Z := splice data off (le_bytes 4 (u32 v)).
Definition ld32 (off : nat) (data : list Z) : Z := le_val (slice data off 4).

(** [struct log] with its in-memory [struct logheader]. *)
Record log : Type := mkLog {
  l_start : Z;
  l_size : Z;
  l_outstanding : Z;
  l_committing : bool;
  l_dev : Z;
  lh_n : Z;
  lh_block : list Z;
}.

Definition set_outstanding (v : Z) (l : log) : log :=
  mkLog (l_start l) (l_size l) v (l_committing l) (l_dev l) (lh_n l) (lh_block l).
Definition set_committing (v : bool) (l : log) : log :=
  mkLog (l_start l) (l_size l) (l_outstanding l) v (l_dev l) (lh_n l) (lh_block l).
Definition set_geometry (start size dev : Z) (l : log) : log :=
  mkLog start size (l_outstanding l) (l_committing l) dev (lh_n l) (lh_block l).
Definition set_n (v : Z) (l : log) : log :=
  mkLog (l_start l) (l_size l) (l_outstanding l) (l_committing l) (l_dev l) v (lh_block l).
Definition set_block (v : list Z) (l : log) : log :=
  mkLog (l_start l) (l_size l) (l_outstanding l) (l_committing l) (l_dev l) (lh_n l) v.

Record lst (D : Type) : Type := mkLst { lbc : bcache D; lg : log }.
Arguments mkLst {D} lbc lg.
Arguments lbc {D} _.
Arguments lg {D} _.

Section Log.
Context {D : Type} `{Disk D}.
Context (mypid : Z).
Notation L := (lst D).

(** A routine of the buffer cache. *)
Definition lb {A} (m : M (bcache D) A) : M L A := zoom lbc (λ b s, mkLst b (lg s)) m.
Definition mlog (f : log → log) : M L unit := modify (λ s, mkLst (lbc s) (f (lg s))).

(** [log.lh.block[i]]. *)
Definition lh_get (i : Z) : M L Z :=
  do l <- gets lg;
  match lh_block l !! Z.to_nat i with Some v => ret v | None => undef end.

(** [log.lh.block[i] = v]. *)
Definition lh_set (i v : Z) : M L unit :=
  do l <- gets lg;
  if (0 <=? i) && (i <? LOGSIZE) then mlog (set_block (<[Z.to_nat i := v]> (lh_block l)))
  else undef.

Definition log_bread (blockno : Z) : M L nat :=
  do l <- gets lg; lb (bread mypid (u32 (l_dev l)) (u32 blockno)).

Definition install_trans (recovering : bool) : M L unit :=
  do l <- gets lg;
  for_loop (Z.to_nat (lh_n l)) 0 (λ tail,
    do lbuf <- log_bread (l_start l + tail + 1);
    do b <- lh_get tail;
    do dbuf <- log_bread b;
    do x <- lb (buf_data lbuf);
    lb (set_buf_data dbuf (λ _, x)) ;;;
    lb (bwrite mypid dbuf) ;;;
    (if recovering then ret tt else lb (bunpin dbuf)) ;;;
    lb (brelse mypid lbuf) ;;;
    lb (brelse mypid dbuf)).

Definition read_head : M L unit :=
  do l <- gets lg;
  do buf <- log_bread (l_start l);
  do data <- lb (buf_data buf);
  mlog (set_n (i32 (ld32 0 data))) ;;;
  for_loop (Z.to_nat (i32 (ld32 0 data))) 0 (λ i,
    lh_set i (i32 (ld32 (Z.to_nat (4 + 4 * i)) data))) ;;;
  lb (brelse mypid buf).

Definition write_head : M L unit :=
  do l <- gets lg;
  do buf <- log_bread (l_start l);
  lb (set_buf_data buf (st32 0 (lh_n l))) ;;;
  for_loop (Z.to_nat (lh_n l)) 0 (λ i,
    do v <- lh_get i;
    lb (set_buf_data buf (st32 (Z.to_nat (4 + 4 * i)) v))) ;;;
  lb (bwrite mypid buf) ;;;
  lb (brelse mypid buf).

Definition recover_from_log : M L unit :=
  read_head ;;;
  install_trans true ;;;
  mlog (set_n 0) ;;;
  write_head.

(** [sb->logstart] and [sb->nlog] of the superblock; [sizeof(struct logheader)]
    is 4 * (1 + LOGSIZE). *)
Definition initlog (dev logstart nlog : Z) : M L unit :=
  if BSIZE <=? 4 * (1 + LOGSIZE) then panic "initlog: too big logheader"
  else
    mlog (set_geometry (i32 logstart) (i32 nlog) dev) ;;;
    recover_from_log.

(** The loop of [begin_op] reserves space or sleeps on [&log]. *)
Definition begin_op : M L unit :=
  do l <- gets lg;
  if l_committing l then sleep ChLog
  else if LOGSIZE <? i32 (lh_n l + i32 (i32 (l_outstanding l + 1) * MAXOPBLOCKS)) then sleep ChLog
  else mlog (set_outstanding (i32 (l_outstanding l + 1))).

Definition write_log : M L unit :=
  do l <- gets lg;
  for_loop (Z.to_nat (lh_n l)) 0 (λ tail,
    do to <- log_bread (l_start l + tail + 1);
    do b <- lh_get tail;
    do from <- log_bread b;
    do x <- lb (buf_data from);
    lb (set_buf_data to (λ _, x)) ;;;
    lb (bwrite mypid to) ;;;
    lb (brelse mypid from) ;;;
    lb (brelse mypid to)).

Definition commit : M L unit :=
  do l <- gets lg;
  if 0 <? lh_n l then
    write_log ;;;
    write_head ;;;
    install_trans false ;;;
    mlog (set_n 0) ;;;
    write_head
  else ret tt.

(** The wakeups of [end_op] concern the process table only. *)
Definition end_op : M L unit :=
  mlog (λ l, set_outstanding (i32 (l_outstanding l - 1)) l) ;;;
  do l <- gets lg;
  if l_committing l then panic "log.committing"
  else if l_outstanding l =? 0 then
    mlog (set_committing true) ;;;
    commit ;;;
    mlog (set_committing false)
  else ret tt.

(** The index at which [log_write] stores block [b]: its old one, or [n]. *)
Fixpoint log_find (l : list Z) (i : Z) (b : Z) : Z :=
  match l with
  | [] => i
  | v :: l => if u32 v =? b then i else log_find l (i + 1) b
  end.

Definition log_write (buf : nat) : M L unit :=
  do l <- gets lg;
  if (LOGSIZE <=? lh_n l) || (l_size l - 1 <=? lh_n l) then panic "too big a transaction"
  else if l_outstanding l <? 1 then panic "log_write outside of trans"
  else
    do b <- lb (gets (λ s, b_blockno (bufs s buf)));
    let i := log_find (take (Z.to_nat (lh_n l)) (lh_block l)) 0 b in
    lh_set i (i32 b) ;;;
    if i =? lh_n l then
      lb (bpin buf) ;;;
      mlog (set_n (i32 (lh_n l + 1)))
    else ret tt.
End Log.
