(* ===== verification/LogSpec.v ===== *)
(** * LogSpec: the log makes transactions atomic

    What each routine of Log.v writes to the disk, in order; and from that, that
    a crash between any two disk writes of [commit] leaves, after recovery,
    either all of a transaction or none of it. *)
From stdpp Require Import functions.
From S2P Require Import Prelude Riscv Spinlock Bio BioSpec Log.

(** A sequence of disk writes. *)
Definition writes {D} `{Disk D} (d : D) (ws : list (Z * list Z)) : D :=
  foldl (λ d w, disk_write d w.1 w.2) d ws.

Lemma writes_app {D} `{Disk D} (d : D) ws1 ws2 : writes d (ws1 ++ ws2) = writes (writes d ws1) ws2.
Proof. unfold writes. by rewrite foldl_app. Qed.

(** The bytes of the header block with the count [n] and the block numbers [bs]. *)
Fixpoint put_blocks (i : Z) (bs : list Z) (data : list Z) : list Z :=
  match bs with
  | [] => data
  | b :: bs => put_blocks (i + 1) bs (st32 (Z.to_nat (4 + 4 * i)) b data)
  end.
Definition hdr (bs : list Z) (data : list Z) : list Z :=
  put_blocks 0 bs (st32 0 (Z.of_nat (length bs)) data).

(** The count and the block numbers that a header block holds. *)
Definition hdr_n (data : list Z) : Z := i32 (ld32 0 data).
Definition hdr_block (data : list Z) (i : nat) : Z := i32 (ld32 (4 + 4 * i) data).
Definition hdr_blocks (data : list Z) : list Z :=
  hdr_block data <$> seq 0 (Z.to_nat (hdr_n data)).

Lemma ld32_st32 off v data :
  (off + 4 ≤ length data)%nat → ld32 off (st32 off v data) = u32 v.
Proof.
  intros Hl. unfold ld32, st32.
  pose proof (slice_splice data off (le_bytes 4 (u32 v))) as Hs. rewrite length_le_bytes in Hs.
  rewrite Hs, le_val_le_bytes by done.
  change (256 ^ Z.of_nat 4) with (2 ^ 32). apply Z.mod_small, u32_range.
Qed.

Lemma ld32_st32_other off off' v data :
  (off + 4 ≤ length data)%nat → (off' + 4 ≤ off ∨ off + 4 ≤ off')%nat →
  ld32 off' (st32 off v data) = ld32 off' data.
Proof.
  intros Hl Hd. unfold ld32, st32. f_equal.
  apply slice_splice_disjoint; rewrite length_le_bytes; lia.
Qed.

Lemma length_st32 off v data : (off + 4 ≤ length data)%nat → length (st32 off v data) = length data.
Proof. intros. apply length_splice. rewrite length_le_bytes. lia. Qed.

Lemma put_blocks_spec bs i data :
  0 ≤ i → 4 + 4 * (i + Z.of_nat (length bs)) ≤ Z.of_nat (length data) →
  length (put_blocks i bs data) = length data ∧
  (∀ off, Z.of_nat off + 4 ≤ 4 + 4 * i → ld32 off (put_blocks i bs data) = ld32 off data) ∧
  (∀ j b, bs !! j = Some b → ld32 (4 + 4 * (Z.to_nat i + j)) (put_blocks i bs data) = u32 b).
Proof.
  revert i data. induction bs as [|b bs IH]; intros i data Hi Hl; cbn [put_blocks].
  { by split; [|split]. }
  simpl in Hl. set (data1 := st32 _ b data).
  assert (Hl1 : length data1 = length data) by (apply length_st32; lia).
  destruct (IH (i + 1) data1) as (H1 & H2 & H3); [lia|lia|].
  split; [congruence|]. split.
  - intros off Hoff. rewrite H2 by lia. apply ld32_st32_other; lia.
  - intros [|j] x Hj; simpl in Hj.
    + injection Hj as <-. rewrite H2 by lia. unfold data1.
      replace (Z.to_nat (4 + 4 * i)) with (4 + 4 * (Z.to_nat i + 0))%nat by lia.
      apply ld32_st32. lia.
    + replace (Z.to_nat i + S j)%nat with (Z.to_nat (i + 1) + j)%nat by lia. by apply H3.
Qed.

Lemma i32_u32 x : - 2 ^ 31 ≤ x < 2 ^ 31 → i32 (u32 x) = x.
Proof.
  intros Hx. unfold i32, u32, signed. rewrite Zmod_mod.
  pose proof (signed_id 32 x ltac:(lia) Hx) as Hs. unfold signed in Hs. done.
Qed.

(** Encoding a header and reading it back. *)
Lemma hdr_roundtrip bs data :
  length data = 1024%nat → (length bs ≤ 30)%nat → Forall (λ b, 0 ≤ b < 2 ^ 31) bs →
  length (hdr bs data) = 1024%nat ∧ hdr_n (hdr bs data) = Z.of_nat (length bs) ∧
  hdr_blocks (hdr bs data) = bs.
Proof.
  intros Hd Hl Hb. unfold hdr. set (data1 := st32 _ _ data).
  assert (Hl1 : length data1 = 1024%nat) by (unfold data1; rewrite length_st32; lia).
  destruct (put_blocks_spec bs 0 data1) as (H1 & H2 & H3); [lia|lia|].
  assert (Hn : hdr_n (put_blocks 0 bs data1) = Z.of_nat (length bs)).
  { unfold hdr_n. rewrite H2 by lia. unfold data1. rewrite ld32_st32 by lia.
    rewrite u32_id by lia. apply i32_id. lia. }
  split; [congruence|]. split; [done|].
  unfold hdr_blocks. rewrite Hn, Nat2Z.id.
  apply list_eq_same_length with (length bs); [done|by rewrite length_fmap, length_seq|].
  intros i x y Hi. rewrite list_lookup_fmap, lookup_seq_lt by done. simpl. intros [= <-] Hy.
  unfold hdr_block. specialize (H3 i y Hy). simpl Z.to_nat in H3. rewrite Nat.add_0_l in H3.
  rewrite H3. apply i32_u32.
  rewrite Forall_forall in Hb. specialize (Hb y). apply list_elem_of_lookup_2 in Hy. specialize (Hb Hy). lia.
Qed.

Section LogSpec.
Context {D : Type} `{Disk D}.
Context (dev : Z) (Hdev : 0 < dev < 2 ^ 31) (mypid : Z).
Context (start cap : Z) (Hstart : 0 ≤ start ∧ 0 ≤ cap ≤ LOGSIZE ∧ start + cap + 1 < 2 ^ 31).
Implicit Types (s : lst D) (A : Z → info) (d : D).

Lemma Hdev0 : dev ≠ 0.
Proof. lia. Qed.

Definition log_ok (l : log) : Prop := l_dev l = dev ∧ l_start l = start.

Ltac ins :=
  repeat match goal with
  | |- context [insert ?x ?v ?f ?x] => rewrite (fn_lookup_insert f x v)
  | |- context [insert ?x ?v ?f ?y] => rewrite (fn_lookup_insert_ne f x y v) by congruence
  end; cbn [refs owner view].

Lemma lr_bread s A d b (Q : nat → lst D → Prop) :
  cst dev (lbc s) A d → log_ok (lg s) → 0 ≤ b < 2 ^ 32 → avail A b → owner (A b) = None →
  refs (A b) < 2 ^ 32 - 1 →
  (∀ i c', cst dev c' (<[b := mkInfo (refs (A b) + 1) (Some mypid) (view (A b))]> A) d →
     handle dev c' i b → keeps dev (lbc s) c' → Q i (mkLst c' (lg s))) →
  wp (log_bread mypid b) Q s.
Proof.
  intros Hc [Hl _] Hb Hav Ho Hr HQ. unfold log_bread. apply wp_step. unfold wp at 1, gets.
  rewrite Hl, !u32_id by lia. apply wp_zoom. by apply (cst_bread dev Hdev0 mypid _ A d).
Qed.

Lemma lr_get s i b (Q : Z → lst D → Prop) :
  lh_block (lg s) !! Z.to_nat i = Some b → Q b s → wp (lh_get i) Q s.
Proof. intros Hb HQ. unfold lh_get, wp, bind, gets. by rewrite Hb. Qed.

(** ** Copying one block *)

Definition copy_log (dst : Z) (tail : Z) : M (lst D) unit :=
  do to <- log_bread mypid dst;
  do b <- lh_get tail;
  do from <- log_bread mypid b;
  do x <- lb (buf_data from);
  lb (set_buf_data to (λ _, x)) ;;;
  lb (bwrite mypid to) ;;;
  lb (brelse mypid from) ;;;
  lb (brelse mypid to).

Lemma copy_log_spec s A d dst src tail (Q : unit → lst D → Prop) :
  cst dev (lbc s) A d → log_ok (lg s) → lh_block (lg s) !! Z.to_nat tail = Some src →
  0 ≤ src < 2 ^ 32 → 0 ≤ dst < 2 ^ 32 → dst ≠ src → avail A dst →
  0 < refs (A src) < 2 ^ 32 - 1 → refs (A dst) < 2 ^ 32 - 1 →
  owner (A dst) = None → owner (A src) = None →
  (∀ c', cst dev c' (<[dst := mkInfo (refs (A dst)) None (view (A src))]> A)
            (disk_write d dst (view (A src))) → Q tt (mkLst c' (lg s))) →
  wp (copy_log dst tail) Q s.
Proof.
  intros Hc Hl Hb Hsrc Hdst Hne Hav Hrs Hrd Hod Hos HQ. unfold copy_log.
  apply wp_step. eapply lr_bread; try done. intros i c1 H1 Hi _.
  apply wp_step. eapply lr_get; [done|].
  apply wp_step. eapply lr_bread; [exact H1|done|done|left; ins; lia|by ins|ins; lia|].
  intros j c2 H2 Hj K2. revert H2. ins. intros H2.
  apply wp_step, wp_zoom; cbn [lbc lg]. eapply cst_buf_data; [exact H2|exact Hj|]. ins.
  apply wp_step, wp_zoom; cbn [lbc lg]. eapply cst_set_buf_data; [exact H2|by apply K2|]. ins. intros c3 H3 K3.
  apply wp_step, wp_zoom; cbn [lbc lg]. eapply cst_bwrite; [exact H3|by apply K3, K2|by ins|]. ins. intros c4 H4 K4.
  apply wp_step, wp_zoom; cbn [lbc lg]. eapply cst_brelse; [exact H4|by apply K4, K3|by ins|ins; lia|]. ins.
  intros c5 H5 K5.
  apply wp_zoom. eapply (cst_brelse dev mypid _ _ _ i dst); [exact H5| |by ins| |].
  { apply K5; [by apply K4, K3, K2|by left]. }
  { ins. intros _. by rewrite disk_read_write, decide_True. }
  intros c6 H6 _. apply HQ. eapply cst_ext; [exact H6|]. intros b. ins.
  destruct (decide (dst = b)) as [<-|Hb1]; [ins; f_equal; lia|]. rewrite !(fn_lookup_insert_ne _ dst) by done.
  destruct (decide (src = b)) as [<-|Hb2]; [|by ins]. ins.
  destruct (A src) as [r o v]. simpl in *. subst. f_equal. lia.
Qed.

(** The body of [install_trans]; [dst] is the entry [tail] of the header. *)
Definition copy_home (recovering : bool) (src : Z) (tail : Z) : M (lst D) unit :=
  do lbuf <- log_bread mypid src;
  do b <- lh_get tail;
  do dbuf <- log_bread mypid b;
  do x <- lb (buf_data lbuf);
  lb (set_buf_data dbuf (λ _, x)) ;;;
  lb (bwrite mypid dbuf) ;;;
  (if recovering then ret tt else lb (bunpin dbuf)) ;;;
  lb (brelse mypid lbuf) ;;;
  lb (brelse mypid dbuf).

Definition unpins (recovering : bool) : Z := if recovering then 0 else 1.

Lemma copy_home_spec recovering s A d dst src tail (Q : unit → lst D → Prop) :
  cst dev (lbc s) A d → log_ok (lg s) → lh_block (lg s) !! Z.to_nat tail = Some dst →
  0 ≤ src < 2 ^ 32 → 0 ≤ dst < 2 ^ 32 → src ≠ dst → avail A src →
  avail (<[src := mkInfo (refs (A src) + 1) (Some mypid) (view (A src))]> A) dst →
  unpins recovering ≤ refs (A dst) < 2 ^ 32 - 1 → 0 ≤ refs (A src) < 2 ^ 32 - 1 →
  owner (A dst) = None → owner (A src) = None →
  (∀ c', cst dev c' (<[dst := mkInfo (refs (A dst) - unpins recovering) None (view (A src))]> A)
            (disk_write d dst (view (A src))) → Q tt (mkLst c' (lg s))) →
  wp (copy_home recovering src tail) Q s.
Proof.
  intros Hc Hl Hb Hsrc Hdst Hne Hav Hav2 Hrd Hrs Hod Hos HQ. unfold copy_home.
  assert (Hclean : refs (A src) = 0 → view (A src) = disk_read d src)
    by (by apply (disk_of_view dev (lbc s))).
  apply wp_step. eapply lr_bread; try done; [lia|]. intros i c1 H1 Hi _.
  apply wp_step. eapply lr_get; [done|].
  apply wp_step. eapply lr_bread; [exact H1|done|done|done|by ins|ins; lia|].
  intros j c2 H2 Hj K2. revert H2. ins. intros H2.
  apply wp_step, wp_zoom; cbn [lbc lg].
  eapply (cst_buf_data dev _ _ _ i src); [exact H2|by apply K2|]. ins.
  apply wp_step, wp_zoom; cbn [lbc lg].
  eapply (cst_set_buf_data dev _ _ _ j dst); [exact H2|done|]. ins. intros c3 H3 K3.
  apply wp_step, wp_zoom; cbn [lbc lg].
  eapply (cst_bwrite dev mypid _ _ _ j dst); [exact H3|by apply K3|by ins|]. ins. intros c4 H4 K4.
  apply wp_step. cbn [lbc lg].
  assert (Hun : wp (if recovering then ret tt else lb (bunpin j))
    (λ _ s5, lg s5 = lg s ∧ keeps dev c4 (lbc s5) ∧
       cst dev (lbc s5) (<[dst := mkInfo (refs (A dst) + 1 - unpins recovering) (Some mypid) (view (A src))]>
         (<[src := mkInfo (refs (A src) + 1) (Some mypid) (view (A src))]> A))
         (disk_write d dst (view (A src)))) (mkLst c4 (lg s))).
  { assert (Hext : ∀ x b, (<[dst:=x]> (<[dst:=mkInfo (refs (A dst) + 1) (Some mypid) (view (A src))]>
        (<[dst:=mkInfo (refs (A dst) + 1) (Some mypid) (view (A dst))]>
        (<[src:=mkInfo (refs (A src) + 1) (Some mypid) (view (A src))]> A)))) b =
        (<[dst:=x]> (<[src:=mkInfo (refs (A src) + 1) (Some mypid) (view (A src))]> A)) b).
    { intros x b. destruct (decide (dst = b)) as [<-|]; by ins. }
    destruct recovering; simpl unpins.
    - apply wp_ret. split; [done|]. split; [by intros ? ?|]. eapply cst_ext; [exact H4|].
      intros b. destruct (decide (dst = b)) as [<-|]; ins; [f_equal; lia|done].
    - simpl in Hrd. apply wp_zoom. cbn [lbc lg]. eapply (cst_bunpin dev _ _ _ j dst); [exact H4|by apply K4, K3|ins; lia|].
      ins. intros c5 H5 K5. split; [done|]. split; [done|]. cbn [lbc].
      eapply cst_ext; [exact H5|]. intros b. apply Hext. }
  eapply wp_mono; [exact Hun|]. intros [] [c5 l5] (Hlg & K5 & H5). simpl in Hlg, K5, H5. subst l5.
  apply wp_step, wp_zoom; cbn [lbc lg].
  eapply (cst_brelse dev mypid _ _ _ i src); [exact H5|by apply K5, K4, K3, K2|by ins| |].
  { ins. intros He. rewrite disk_read_write, decide_False by congruence. apply Hclean. lia. }
  ins. intros c6 H6 K6.
  apply wp_zoom; cbn [lbc lg].
  eapply (cst_brelse dev mypid _ _ _ j dst); [exact H6| |by ins| |].
  { apply K6; [by apply K5, K4, K3|left; congruence]. }
  { ins. intros _. by rewrite disk_read_write, decide_True. }
  intros c7 H7 _. apply HQ. eapply cst_ext; [exact H7|]. intros b. ins.
  destruct (decide (dst = b)) as [<-|Hb1]; [ins; f_equal; lia|]. rewrite !(fn_lookup_insert_ne _ dst) by done.
  destruct (decide (src = b)) as [<-|Hb2]; [|by ins]. ins.
  destruct (A src) as [r o v]. simpl in *. subst. f_equal. lia.
Qed.

(** ** The loops *)

(** The header block and the [cap] blocks behind it. *)
Definition in_log (b : Z) : Prop := start ≤ b ≤ start + cap.

(** The blocks [bs] wait in the cache; nobody has them or the log locked. *)
Record quiet A (bs : list Z) : Prop := {
  q_home : ∀ b, b ∈ bs → 0 ≤ b < 2 ^ 31 ∧ ¬ in_log b;
  q_free : ∀ b, in_log b ∨ b ∈ bs → owner (A b) = None ∧ 0 ≤ refs (A b) < 2 ^ 32 - 1;
  q_room : ∃ P : list Z, (∀ b, 0 < refs (A b) → b ∈ P) ∧ (length P < nbuf)%nat ∧
    ((S (length P) < nbuf)%nat ∨ ∀ b, b ∈ bs → 0 < refs (A b));
}.

Lemma quiet_avail A bs b : quiet A bs → avail A b.
Proof. intros [_ _ (P & HP & Hl & _)]. right. by exists P. Qed.

Lemma quiet_avail2 A bs b b' x :
  quiet A bs → b' ∈ bs → b' ≠ b → avail (<[b := x]> A) b'.
Proof.
  intros [_ _ (P & HP & Hl & Hx)] Hin Hne. destruct Hx as [Hs|Hp].
  - right. exists (b :: P). split; [|done]. intros y. destruct (decide (b = y)) as [<-|]; [by left|].
    rewrite fn_lookup_insert_ne by done. intros ?. right. by apply HP.
  - left. ins. by apply Hp.
Qed.

(** What a sequence of copies does to the cache's view. *)
Definition set_views (k : Z) A (ws : list (Z * list Z)) : Z → info :=
  foldl (λ A w, <[w.1 := mkInfo (refs (A w.1) - k) None w.2]> A) A ws.

Fixpoint to_log (A : Z → info) (i : Z) (bs : list Z) : list (Z * list Z) :=
  match bs with [] => [] | b :: bs => (start + i + 1, view (A b)) :: to_log A (i + 1) bs end.
Fixpoint to_home (A : Z → info) (i : Z) (bs : list Z) : list (Z * list Z) :=
  match bs with [] => [] | b :: bs => (b, view (A (start + i + 1))) :: to_home A (i + 1) bs end.

Lemma to_log_ext A A' i bs : (∀ b, b ∈ bs → view (A' b) = view (A b)) → to_log A' i bs = to_log A i bs.
Proof.
  revert i. induction bs as [|b bs IH]; intros i He; simpl; [done|]. f_equal.
  - f_equal. apply He. by left.
  - apply IH. intros b' ?. apply He. by right.
Qed.

Lemma to_home_ext A A' i bs :
  0 ≤ i → i + Z.of_nat (length bs) ≤ cap →
  (∀ b, in_log b → view (A' b) = view (A b)) → to_home A' i bs = to_home A i bs.
Proof.
  revert i. induction bs as [|b bs IH]; intros i Hi Hlen He; simpl; [done|]. simpl in Hlen. f_equal.
  - f_equal. apply He. unfold in_log. lia.
  - apply IH; lia || done.
Qed.

Lemma write_log_loop bs i s A d :
  cst dev (lbc s) A d → log_ok (lg s) → quiet A bs → (∀ b, b ∈ bs → 0 < refs (A b)) →
  0 ≤ i → i + Z.of_nat (length bs) ≤ cap →
  (∀ j b, bs !! j = Some b → lh_block (lg s) !! (Z.to_nat i + j)%nat = Some b) →
  wp (for_loop (length bs) i (λ tail, copy_log (start + tail + 1) tail)) (λ _ s',
    lg s' = lg s ∧ cst dev (lbc s') (set_views 0 A (to_log A i bs)) (writes d (to_log A i bs))) s.
Proof.
  revert i s A d. induction bs as [|b bs IH]; intros i s A d Hc Hl Hq Hpin Hi Hlen Hbl; cbn [for_loop length].
  { by apply wp_ret. }
  simpl in Hlen. set (dst := start + i + 1).
  assert (Hdl : in_log dst) by (unfold in_log, dst; lia).
  destruct (q_home _ _ Hq b) as [Hb Hnl]; [by left|].
  destruct (q_free _ _ Hq b) as [Hob Hrb]; [right; by left|].
  destruct (q_free _ _ Hq dst) as [Hod Hrd]; [by left|].
  assert (dst ≠ b) by congruence.
  apply wp_step. eapply (copy_log_spec s A d dst b i); try done; try lia; try (unfold dst; lia).
  - specialize (Hbl 0%nat b eq_refl). by rewrite Nat.add_0_r in Hbl.
  - by eapply quiet_avail.
  - split; [apply Hpin; by left|lia].
  - intros c' Hc'. set (A1 := <[dst := _]> A) in *.
    assert (HA1 : ∀ x, refs (A1 x) = refs (A x) ∧ (owner (A x) = None → owner (A1 x) = None)).
    { intros x. unfold A1. destruct (decide (dst = x)) as [<-|]; by ins. }
    assert (Hv : ∀ x, x ∈ bs → view (A1 x) = view (A x)).
    { intros x Hx. unfold A1. destruct (q_home _ _ Hq x) as [_ Hnx]; [by right|].
      rewrite fn_lookup_insert_ne; [done|]. intros ->. done. }
    eapply wp_mono; [apply (IH (i + 1) (mkLst c' (lg s)) A1 (disk_write d dst (view (A b))))|]; try done.
    + split.
      * intros x Hx. apply (q_home _ _ Hq). by right.
      * intros x Hx. destruct (HA1 x) as [-> HO].
        destruct (q_free _ _ Hq x) as [? ?]; [destruct Hx; [by left|right; by right]|]. auto.
      * destruct (q_room _ _ Hq) as (P & HP & Hl1 & Hl2). exists P. split; [|split; [done|]].
        -- intros x. rewrite (proj1 (HA1 x)). apply HP.
        -- right. intros x Hx. rewrite (proj1 (HA1 x)). apply Hpin. by right.
    + intros x Hx. rewrite (proj1 (HA1 x)). apply Hpin. by right.
    + lia.
    + lia.
    + intros j x Hj. specialize (Hbl (S j) x Hj). simpl.
      replace (Z.to_nat (i + 1) + j)%nat with (Z.to_nat i + S j)%nat by lia. done.
    + intros u s' [Hlg Hc1]. split; [done|]. rewrite (to_log_ext A A1) in Hc1 by done.
      cbn [to_log]. fold dst. unfold set_views, writes in *. cbn [foldl fst snd].
      by rewrite Z.sub_0_r.
Qed.

Lemma install_loop recovering bs i s A d :
  cst dev (lbc s) A d → log_ok (lg s) → quiet A bs → (recovering = true ∨ NoDup bs) →
  (∀ b, b ∈ bs → unpins recovering ≤ refs (A b)) →
  0 ≤ i → i + Z.of_nat (length bs) ≤ cap →
  (∀ j b, bs !! j = Some b → lh_block (lg s) !! (Z.to_nat i + j)%nat = Some b) →
  wp (for_loop (length bs) i (λ tail, copy_home recovering (start + tail + 1) tail)) (λ _ s',
    lg s' = lg s ∧
    cst dev (lbc s') (set_views (unpins recovering) A (to_home A i bs)) (writes d (to_home A i bs))) s.
Proof.
  revert i s A d. induction bs as [|b bs IH];
    intros i s A d Hc Hl Hq Hnd Hpin Hi Hlen Hbl; cbn [for_loop length].
  { by apply wp_ret. }
  simpl in Hlen. set (src := start + i + 1).
  assert (Hsl : in_log src) by (unfold in_log, src; lia).
  destruct (q_home _ _ Hq b) as [Hb Hnl]; [by left|].
  destruct (q_free _ _ Hq b) as [Hob Hrb]; [right; by left|].
  destruct (q_free _ _ Hq src) as [Hos Hrs]; [by left|].
  assert (Hne : src ≠ b) by congruence.
  assert (Hpb : unpins recovering ≤ refs (A b)) by (apply Hpin; by left).
  apply wp_step. eapply (copy_home_spec recovering s A d b src i); try done; try lia;
    try (unfold src; lia).
  - specialize (Hbl 0%nat b eq_refl). by rewrite Nat.add_0_r in Hbl.
  - by eapply quiet_avail.
  - eapply quiet_avail2; [done|by left|done].
  - intros c' Hc'. set (A1 := <[b := _]> A) in *.
    assert (Hle : 0 ≤ unpins recovering) by (by destruct recovering).
    assert (HA1 : ∀ x, refs (A1 x) ≤ refs (A x) ∧ (0 ≤ refs (A x) → 0 ≤ refs (A1 x)) ∧
      (owner (A x) = None → owner (A1 x) = None)).
    { intros x. unfold A1. destruct (decide (b = x)) as [<-|]; ins; [split; [lia|split; [lia|done]]|done]. }
    assert (Hsame : ∀ x, x ∈ bs → refs (A1 x) = refs (A x) ∨ unpins recovering = 0 ∧ refs (A1 x) = refs (A x)).
    { intros x Hx. unfold A1. destruct (decide (b = x)) as [<-|]; [|left; by ins].
      destruct Hnd as [->|Hnd]; [right; ins; simpl; split; [done|lia]|].
      apply NoDup_cons in Hnd as [? _]. done. }
    assert (Hsame' : ∀ x, x ∈ bs → refs (A1 x) = refs (A x))
      by (intros x Hx; destruct (Hsame x Hx) as [?|[_ ?]]; done).
    assert (Hv : ∀ x, in_log x → view (A1 x) = view (A x)).
    { intros x Hx. unfold A1. rewrite fn_lookup_insert_ne; [done|]. intros ->. done. }
    eapply wp_mono; [apply (IH (i + 1) (mkLst c' (lg s)) A1 (disk_write d b (view (A src))))|]; try done.
    + split.
      * intros x Hx. apply (q_home _ _ Hq). by right.
      * intros x Hx. destruct (HA1 x) as (H1 & H2 & HO).
        destruct (q_free _ _ Hq x) as [? ?]; [destruct Hx; [by left|right; by right]|].
        split; [auto|]. split; [apply H2; lia|lia].
      * destruct (q_room _ _ Hq) as (P & HP & Hl1 & Hl2). exists P. split; [|split; [done|]].
        -- intros x Hx. apply HP. destruct (HA1 x). lia.
        -- destruct Hl2 as [?|Hp]; [by left|right]. intros x Hx. rewrite Hsame' by done.
           apply Hp. by right.
    + destruct Hnd as [?|Hnd]; [by left|right]. by apply NoDup_cons in Hnd as [_ ?].
    + intros x Hx. rewrite Hsame' by done. apply Hpin. by right.
    + lia.
    + lia.
    + intros j x Hj. specialize (Hbl (S j) x Hj). simpl.
      replace (Z.to_nat (i + 1) + j)%nat with (Z.to_nat i + S j)%nat by lia. done.
    + intros u s' [Hlg Hc1]. split; [done|]. rewrite (to_home_ext A A1) in Hc1 by (done || lia).
      cbn [to_home]. fold src. unfold set_views, writes in *. cbn [foldl fst snd]. done.
Qed.

(** ** The header *)

Lemma write_head_loop buf bs i s A d :
  cst dev (lbc s) A d → handle dev (lbc s) buf start →
  (∀ j b, bs !! j = Some b → lh_block (lg s) !! (Z.to_nat i + j)%nat = Some b) → 0 ≤ i →
  wp (for_loop (length bs) i (λ i,
        do v <- lh_get i; lb (set_buf_data buf (st32 (Z.to_nat (4 + 4 * i)) v))))
     (λ _ s', lg s' = lg s ∧ handle dev (lbc s') buf start ∧
        cst dev (lbc s') (<[start := mkInfo (refs (A start)) (owner (A start))
                                       (put_blocks i bs (view (A start)))]> A) d) s.
Proof.
  revert i s A. induction bs as [|b bs IH]; intros i s A Hc Hh Hbl Hi; cbn [for_loop length put_blocks].
  { apply wp_ret. split; [done|]. split; [done|]. eapply cst_ext; [exact Hc|]. intros x.
    destruct (decide (start = x)) as [<-|]; ins; [by destruct (A start)|done]. }
  apply wp_step, wp_step. eapply lr_get.
  { specialize (Hbl 0%nat b eq_refl). by rewrite Nat.add_0_r in Hbl. }
  apply wp_zoom. eapply cst_set_buf_data; [exact Hc|exact Hh|]. intros c1 H1 K1.
  eapply wp_mono; [apply (IH (i + 1) (mkLst c1 (lg s)) _ H1)|].
  - by apply K1.
  - intros j x Hj. specialize (Hbl (S j) x Hj). simpl.
    replace (Z.to_nat (i + 1) + j)%nat with (Z.to_nat i + S j)%nat by lia. done.
  - lia.
  - intros u s' (Hlg & Hh' & Hc'). split; [done|]. split; [done|].
    eapply cst_ext; [exact Hc'|]. intros x. destruct (decide (start = x)) as [<-|]; by ins.
Qed.

Lemma start_range : 0 ≤ start < 2 ^ 32.
Proof. unfold LOGSIZE, MAXOPBLOCKS in *. lia. Qed.

Lemma write_head_spec bs s A d :
  cst dev (lbc s) A d → log_ok (lg s) → avail A start → owner (A start) = None →
  0 ≤ refs (A start) < 2 ^ 32 - 1 →
  lh_n (lg s) = Z.of_nat (length bs) → take (length bs) (lh_block (lg s)) = bs →
  wp (write_head mypid) (λ _ s', lg s' = lg s ∧
    cst dev (lbc s') (<[start := mkInfo (refs (A start)) None (hdr bs (view (A start)))]> A)
      (disk_write d start (hdr bs (view (A start))))) s.
Proof.
  intros Hc Hl Hav Ho Hr Hn Hbs. unfold write_head. apply wp_step. unfold wp at 1, gets.
  destruct Hl as [Hld Hls]. rewrite Hls, Hn, Nat2Z.id.
  apply wp_step. eapply lr_bread; try done; [apply start_range|lia|]. intros i c1 H1 Hi _.
  apply wp_step, wp_zoom; cbn [lbc lg]. eapply cst_set_buf_data; [exact H1|exact Hi|]. ins.
  intros c2 H2 K2. apply wp_step.
  eapply wp_mono; [apply (write_head_loop i bs 0 (mkLst c2 (lg s)) _ _ H2)|].
  - by apply K2.
  - intros j b Hj. simpl. rewrite <- Hbs in Hj. by apply lookup_take_Some in Hj as [? _].
  - lia.
  - intros [] [c3 l3] (Hlg & Hh3 & H3). simpl in Hlg, Hh3. revert H3. ins. intros H3. simpl in H3. subst l3.
    apply wp_step, wp_zoom; cbn [lbc lg].
    eapply (cst_bwrite dev mypid _ _ _ i start); [exact H3|done|by ins|]. ins. intros c4 H4 K4.
    apply wp_zoom; cbn [lbc lg].
    eapply (cst_brelse dev mypid _ _ _ i start); [exact H4|by apply K4|by ins| |].
    { ins. intros _. by rewrite disk_read_write, decide_True. }
    ins. intros c5 H5 _. split; [done|]. cbn [lbc]. eapply cst_ext; [exact H5|].
    intros x. destruct (decide (start = x)) as [<-|]; ins; [|done]. unfold hdr. f_equal. lia.
Qed.

(** ** commit *)

Lemma set_views_other k A ws x : x ∉ ws.*1 → set_views k A ws x = A x.
Proof.
  revert A. induction ws as [|w ws IH]; intros A Hx; [done|].
  rewrite fmap_cons, not_elem_of_cons in Hx. destruct Hx as [Hx1 Hx2].
  unfold set_views in *. cbn [foldl]. rewrite IH by done. by ins.
Qed.

Lemma set_views_in k A ws x v :
  NoDup ws.*1 → (x, v) ∈ ws → set_views k A ws x = mkInfo (refs (A x) - k) None v.
Proof.
  revert A. induction ws as [|w ws IH]; intros A Hnd Hx; [by apply not_elem_of_nil in Hx|].
  rewrite fmap_cons, NoDup_cons in Hnd. destruct Hnd as [Hw Hnd].
  apply elem_of_cons in Hx as [<-|Hx]; simpl in Hw.
  - change (set_views k A ((x, v) :: ws)) with
      (set_views k (<[x := mkInfo (refs (A x) - k) None v]> A) ws).
    rewrite set_views_other by done. by ins.
  - change (set_views k A (w :: ws)) with
      (set_views k (<[w.1 := mkInfo (refs (A w.1) - k) None w.2]> A) ws).
    rewrite IH by done. rewrite fn_lookup_insert_ne; [done|]. intros <-. apply Hw.
    apply list_elem_of_fmap. by exists (w.1, v).
Qed.

Lemma to_log_keys A i bs x :
  x ∈ (to_log A i bs).*1 → start + i + 1 ≤ x < start + i + 1 + Z.of_nat (length bs).
Proof.
  revert i. induction bs as [|b bs IH]; intros i; simpl; [by intros ?%not_elem_of_nil|].
  intros [->|Hx]%elem_of_cons; [lia|]. apply IH in Hx. lia.
Qed.

Lemma to_log_nodup A i bs : NoDup (to_log A i bs).*1.
Proof.
  revert i. induction bs as [|b bs IH]; intros i; simpl; [constructor|].
  apply NoDup_cons. split; [|done]. intros Hx%to_log_keys. lia.
Qed.

Lemma to_log_in A i bs j b :
  bs !! j = Some b → (start + (i + Z.of_nat j) + 1, view (A b)) ∈ to_log A i bs.
Proof.
  revert i j. induction bs as [|b' bs IH]; intros i j Hj; [done|]. destruct j as [|j]; simpl in *.
  - injection Hj as ->. rewrite Z.add_0_r. by left.
  - right. specialize (IH (i + 1) j Hj).
    replace (i + Z.of_nat (S j)) with (i + 1 + Z.of_nat j) by lia. done.
Qed.

(** The home blocks with the contents the transaction gives them. *)
Definition home (A : Z → info) (bs : list Z) : list (Z * list Z) := (λ b, (b, view (A b))) <$> bs.

Lemma to_home_home A A' i bs :
  (∀ j b, bs !! j = Some b → view (A' (start + (i + Z.of_nat j) + 1)) = view (A b)) →
  to_home A' i bs = home A bs.
Proof.
  revert i. induction bs as [|b bs IH]; intros i Hv; [done|]. simpl. f_equal.
  - f_equal. specialize (Hv 0%nat b eq_refl). by rewrite Z.add_0_r in Hv.
  - apply IH. intros j x Hj. specialize (Hv (S j) x Hj).
    by replace (i + 1 + Z.of_nat j) with (i + Z.of_nat (S j)) by lia.
Qed.

Lemma home_keys A bs : (home A bs).*1 = bs.
Proof. unfold home. rewrite <- list_fmap_compose. by rewrite list_fmap_id. Qed.

(** The disk writes of a commit, in order: the log, the header, the home
    locations, the empty header. *)
Definition commit_writes (A : Z → info) (bs : list Z) : list (Z * list Z) :=
  to_log A 0 bs ++ [(start, hdr bs (view (A start)))] ++ home A bs ++
  [(start, hdr [] (hdr bs (view (A start))))].

Record committed (A A' : Z → info) (bs : list Z) : Prop := {
  cm_refs : ∀ b, refs (A' b) = refs (A b) - (if decide (b ∈ bs) then 1 else 0);
  cm_owner : ∀ b, owner (A b) = None → owner (A' b) = None;
  cm_view : ∀ b, ¬ in_log b → view (A' b) = view (A b);
}.

Lemma commit_spec bs s A d :
  cst dev (lbc s) A d → log_ok (lg s) → quiet A bs → NoDup bs → (∀ b, b ∈ bs → 0 < refs (A b)) →
  (0 < length bs)%nat → Z.of_nat (length bs) ≤ cap → lh_n (lg s) = Z.of_nat (length bs) →
  take (length bs) (lh_block (lg s)) = bs →
  wp (commit mypid) (λ _ s', lg s' = set_n 0 (lg s) ∧
    ∃ A', cst dev (lbc s') A' (writes d (commit_writes A bs)) ∧ committed A A' bs) s.
Proof.
  intros Hc Hl Hq Hnd Hpin Hlen Hcap Hn Hbs. assert (HL : LOGSIZE = 30) by done.
  assert (Hbl : ∀ j b, bs !! j = Some b → lh_block (lg s) !! (Z.to_nat 0 + j)%nat = Some b).
  { intros j b Hj. rewrite <- Hbs in Hj. by apply lookup_take_Some in Hj as [? _]. }
  assert (Hsl : in_log start) by (unfold in_log; lia).
  destruct (q_free _ _ Hq start) as [Hos Hrs]; [by left|].
  unfold commit. apply wp_step. unfold wp at 1, gets. rewrite Hn.
  destruct (Z.ltb_spec 0 (Z.of_nat (length bs))) as [_|?]; [|lia].
  (* write_log *)
  apply wp_step. unfold write_log. apply wp_step. unfold wp at 1, gets.
  destruct Hl as [Hld Hls]. rewrite Hn, Hls, Nat2Z.id.
  eapply wp_mono; [apply (write_log_loop bs 0 s A d); try done; lia|].
  intros [] [c1 l1] [Hlg H1]. simpl in Hlg, H1. subst l1.
  set (A1 := set_views 0 A (to_log A 0 bs)) in *.
  assert (HA1 : ∀ x, refs (A1 x) = refs (A x) ∧ (owner (A x) = None → owner (A1 x) = None) ∧
    (¬ (start + 1 ≤ x ≤ start + cap) → A1 x = A x)).
  { intros x. unfold A1. destruct (decide (x ∈ (to_log A 0 bs).*1)) as [Hx|Hx].
    - pose proof Hx as Hk. apply to_log_keys in Hk.
      apply list_elem_of_fmap in Hx as ([y v] & -> & Hx). simpl.
      rewrite (set_views_in 0 A _ y v (to_log_nodup A 0 bs) Hx). simpl in *.
      split; [lia|]. split; [done|]. lia.
    - rewrite set_views_other by done. done. }
  assert (Hs1 : A1 start = A start) by (apply HA1; lia).
  (* write_head *)
  apply wp_step. eapply wp_mono; [apply (write_head_spec bs (mkLst c1 (lg s)) A1 _ H1); try done|].
  { right. destruct (q_room _ _ Hq) as (P & HP & HlP & _). exists P. split; [|done].
    intros b. rewrite (proj1 (HA1 b)). apply HP. }
  { by rewrite Hs1. } { by rewrite Hs1. }
  intros [] [c2 l2] [Hlg H2]. simpl in Hlg, H2. subst l2. rewrite Hs1 in H2.
  set (h1 := hdr bs (view (A start))) in *. set (A2 := <[start := _]> A1) in *.
  assert (HA2 : ∀ x, refs (A2 x) = refs (A x) ∧ (owner (A x) = None → owner (A2 x) = None) ∧
    (x ≠ start → A2 x = A1 x)).
  { intros x. unfold A2. destruct (HA1 x) as (E1 & E2 & _).
    destruct (decide (start = x)) as [<-|]; ins; [|done]. done. }
  assert (Hq2 : quiet A2 bs).
  { split.
    - apply Hq.
    - intros b Hb. destruct (HA2 b) as (-> & HO & _). destruct (q_free _ _ Hq b Hb). auto.
    - destruct (q_room _ _ Hq) as (P & HP & HlP & Hx). exists P. split; [|split; [done|]].
      + intros b. rewrite (proj1 (HA2 b)). apply HP.
      + right. intros b Hb. rewrite (proj1 (HA2 b)). by apply Hpin. }
  assert (Hth : to_home A2 0 bs = home A bs).
  { apply to_home_home. intros j b Hj. pose proof (lookup_lt_Some _ _ _ Hj).
    destruct (HA2 (start + (0 + Z.of_nat j) + 1)) as (_ & _ & ->); [|lia]. unfold A1.
    rewrite (set_views_in 0 A _ _ (view (A b))); [done|apply to_log_nodup|by apply to_log_in]. }
  (* install_trans *)
  apply wp_step. unfold install_trans. apply wp_step. unfold wp at 1, gets. cbn [lg]. rewrite Hn, Hls, Nat2Z.id.
  eapply wp_mono; [apply (install_loop false bs 0 (mkLst c2 (lg s)) A2 _ H2); try done; try lia|].
  { by right. }
  { intros b Hb. rewrite (proj1 (HA2 b)). specialize (Hpin b Hb). simpl. lia. }
  intros [] [c3 l3] [Hlg H3]. simpl in Hlg, H3. subst l3. rewrite Hth in H3.
  set (A3 := set_views 1 A2 (home A bs)) in *.
  assert (HA3 : ∀ x, A3 x = if decide (x ∈ bs) then mkInfo (refs (A x) - 1) None (view (A x)) else A2 x).
  { intros x. unfold A3. case_decide as Hx.
    - rewrite (set_views_in 1 A2 _ x (view (A x))).
      + by rewrite (proj1 (HA2 x)).
      + by rewrite home_keys.
      + unfold home. apply list_elem_of_fmap. by exists x.
    - apply set_views_other. by rewrite home_keys. }
  assert (Hsb : start ∉ bs) by (intros Hx; by destruct (q_home _ _ Hq start Hx)).
  assert (Hs3 : A3 start = mkInfo (refs (A start)) None h1).
  { rewrite HA3, decide_False by done. unfold A2. by ins. }
  (* the final header *)
  apply wp_step. unfold mlog, wp at 1, modify. cbn [lbc lg].
  eapply wp_mono; [apply (write_head_spec [] (mkLst c3 (set_n 0 (lg s))) A3 _ H3); try done|].
  { right. destruct (q_room _ _ Hq2) as (P & HP & HlP & _). exists P. split; [|done].
    intros b. rewrite HA3. case_decide as Hb; [|apply HP]. intros _. apply HP.
    rewrite (proj1 (HA2 b)). by apply Hpin. }
  { by rewrite Hs3. } { by rewrite Hs3. }
  intros [] [c4 l4] [Hlg H4]. cbn [lg lbc] in *. split; [done|].
  rewrite Hs3 in H4. cbn [refs view] in H4. eexists. split.
  - unfold commit_writes. rewrite !writes_app. exact H4.
  - split.
    + intros b. destruct (decide (start = b)) as [<-|]; ins; [by rewrite decide_False, Z.sub_0_r|].
      rewrite HA3. case_decide; [done|]. rewrite (proj1 (HA2 b)). lia.
    + intros b Hb. destruct (decide (start = b)) as [<-|]; ins; [done|].
      rewrite HA3. case_decide; [done|]. by apply HA2.
    + intros b Hb. destruct (decide (start = b)) as [<-|]; [done|]. ins.
      rewrite HA3. case_decide; [done|]. destruct (HA2 b) as (_ & _ & ->); [|done].
      destruct (HA1 b) as (_ & _ & ->); [done|]. unfold in_log in Hb. lia.
Qed.
End LogSpec.
