(* ===== verification/LogCrash.v ===== *)
(** * LogCrash: crashes and recovery

    A disk that remembers its writes, so that a crash can be put between any two
    of them; what [initlog] does on such a disk at the next boot; and the two
    theorems the log exists for: a commit is atomic across crashes, and so is
    recovery itself. *)
From stdpp Require Import functions.
From S2P Require Import Prelude Riscv Spinlock Bio BioSpec Log LogSpec.

(** ** A disk with its history *)

(** The contents after the writes [ws], applied in order. *)
Definition after (f : Z → list Z) (ws : list (Z * list Z)) : Z → list Z :=
  foldl (λ f w b, if decide (w.1 = b) then w.2 else f b) f ws.

Record tdisk : Type := mkT { t_base : Z → list Z; t_hist : list (Z * list Z) }.

Lemma after_snoc f ws w b :
  after f (ws ++ [w]) b = if decide (w.1 = b) then w.2 else after f ws b.
Proof. unfold after. by rewrite foldl_app. Qed.

#[export] Program Instance tdisk_disk : Disk tdisk := {|
  disk_read := λ t b, after (t_base t) (t_hist t) b;
  disk_write := λ t b x, mkT (t_base t) (t_hist t ++ [(b, x)]);
|}.
Next Obligation. intros t b x b'. simpl. by rewrite after_snoc. Qed.

(** The disk as a crash after its first [k] writes leaves it. *)
Definition crash_at (k : nat) (t : tdisk) : tdisk := mkT (t_base t) (take k (t_hist t)).

Lemma after_app f ws1 ws2 : after f (ws1 ++ ws2) = after (after f ws1) ws2.
Proof. unfold after. by rewrite foldl_app. Qed.

Lemma after_other f ws b : b ∉ ws.*1 → after f ws b = f b.
Proof.
  revert f. induction ws as [|w ws IH]; intros f Hb; [done|].
  rewrite fmap_cons, not_elem_of_cons in Hb. destruct Hb as [H1 H2].
  change (after f (w :: ws)) with (after (λ b, if decide (w.1 = b) then w.2 else f b) ws).
  rewrite IH by done. by rewrite decide_False.
Qed.

Lemma after_in f ws b v : NoDup ws.*1 → (b, v) ∈ ws → after f ws b = v.
Proof.
  revert f. induction ws as [|w ws IH]; intros f Hnd Hx; [by apply not_elem_of_nil in Hx|].
  rewrite fmap_cons, NoDup_cons in Hnd. destruct Hnd as [Hw Hnd].
  change (after f (w :: ws)) with (after (λ b, if decide (w.1 = b) then w.2 else f b) ws).
  apply elem_of_cons in Hx as [<-|Hx].
  - rewrite after_other by done. by rewrite decide_True.
  - by apply IH.
Qed.

Lemma writes_hist (t : tdisk) ws : writes t ws = mkT (t_base t) (t_hist t ++ ws).
Proof.
  revert t. induction ws as [|w ws IH]; intros [f h]; unfold writes in *; simpl.
  - by rewrite app_nil_r.
  - rewrite IH. simpl. f_equal. rewrite <- app_assoc. by destruct w.
Qed.

Lemma read_writes {D} `{Disk D} (d : D) ws b : disk_read (writes d ws) b = after (disk_read d) ws b.
Proof.
  revert b. induction ws as [|w ws IH] using rev_ind; intros b; [done|].
  rewrite after_snoc. unfold writes. rewrite foldl_app. simpl.
  rewrite disk_read_write. case_decide; [done|]. apply IH.
Qed.

(** ** What recovery computes *)

Section recover.
Context (start cap : Z) (Hcap : 0 ≤ cap ≤ LOGSIZE).

Notation in_log := (in_log start cap).

(** The writes of [recover_from_log] on a disk with contents [f]. *)
Fixpoint replay (f : Z → list Z) (i : Z) (bs : list Z) : list (Z * list Z) :=
  match bs with [] => [] | b :: bs => (b, f (start + i + 1)) :: replay f (i + 1) bs end.
Definition recover_writes (f : Z → list Z) : list (Z * list Z) :=
  replay f 0 (hdr_blocks (f start)) ++ [(start, hdr [] (f start))].
Definition recovered (f : Z → list Z) : Z → list Z := after f (recover_writes f).

(** The header on disk is one that [write_head] wrote. *)
Record good_header (f : Z → list Z) : Prop := {
  gh_len : length (f start) = 1024%nat;
  gh_n : 0 ≤ hdr_n (f start) ≤ cap;
  gh_home : Forall (λ b, 0 ≤ b < 2 ^ 31 ∧ ¬ in_log b) (hdr_blocks (f start));
  gh_nodup : NoDup (hdr_blocks (f start));
}.

Lemma replay_keys f i bs : (replay f i bs).*1 = bs.
Proof. revert i. induction bs as [|b bs IH]; intros i; simpl; [done|]. by rewrite IH. Qed.

Lemma replay_ext f f' i bs :
  0 ≤ i → i + Z.of_nat (length bs) ≤ cap →
  (∀ b, in_log b → b ≠ start → f' b = f b) → replay f' i bs = replay f i bs.
Proof.
  revert i. induction bs as [|b bs IH]; intros i Hi Hl He; simpl; [done|]. simpl in Hl.
  f_equal; [|apply IH; lia || done]. f_equal. apply He; unfold LogSpec.in_log; lia.
Qed.

Lemma replay_in f i bs j b :
  bs !! j = Some b → (b, f (start + (i + Z.of_nat j) + 1)) ∈ replay f i bs.
Proof.
  revert i j. induction bs as [|b' bs IH]; intros i j Hj; [done|]. destruct j as [|j]; simpl in *.
  - injection Hj as ->. rewrite Z.add_0_r. by left.
  - right. specialize (IH (i + 1) j Hj).
    by replace (i + Z.of_nat (S j)) with (i + 1 + Z.of_nat j) by lia.
Qed.

Lemma length_hdr_blocks data : length (hdr_blocks data) = Z.to_nat (hdr_n data).
Proof. unfold hdr_blocks. by rewrite length_fmap, length_seq. Qed.

(** Outside the log, recovery changes exactly the blocks the header lists. *)
Lemma recovered_other f b : ¬ in_log b → b ∉ hdr_blocks (f start) → recovered f b = f b.
Proof.
  intros Hl Hb. unfold recovered, recover_writes. rewrite after_snoc. simpl.
  rewrite decide_False.
  - apply after_other. by rewrite replay_keys.
  - intros <-. apply Hl. unfold LogSpec.in_log, LOGSIZE, MAXOPBLOCKS. lia.
Qed.

Lemma recovered_home f j b :
  good_header f → hdr_blocks (f start) !! j = Some b →
  recovered f b = f (start + Z.of_nat j + 1).
Proof.
  intros [_ _ Hh Hnd] Hj. unfold recovered, recover_writes. rewrite after_snoc. simpl.
  rewrite Forall_forall in Hh. destruct (Hh b) as [_ Hn]; [by eapply list_elem_of_lookup_2|].
  rewrite decide_False.
  - apply after_in; [by rewrite replay_keys|]. by apply (replay_in f 0).
  - intros <-. apply Hn. unfold LogSpec.in_log, LOGSIZE, MAXOPBLOCKS. lia.
Qed.

Lemma recovered_empty f b : hdr_n (f start) = 0 → ¬ in_log b → recovered f b = f b.
Proof.
  intros Hn Hl. apply recovered_other; [done|]. unfold hdr_blocks. rewrite Hn. apply not_elem_of_nil.
Qed.

Lemma hdr_nil data : length data = 1024%nat → hdr_n (hdr [] data) = 0 ∧ length (hdr [] data) = 1024%nat.
Proof.
  intros Hl. destruct (hdr_roundtrip [] data) as (H1 & H2 & _); [done|simpl; lia|constructor|]. done.
Qed.

(** Interrupting recovery after any number of its writes does not change what
    recovery arrives at. *)
Lemma recovered_prefix f k b :
  good_header f → ¬ in_log b →
  let f' := after f (take k (recover_writes f)) in
  good_header f' ∧ recovered f' b = recovered f b.
Proof.
  intros Hg Hb f'. pose proof Hg as [Hlen Hn Hh Hnd]. set (bs := hdr_blocks (f start)) in *.
  set (R := replay f 0 bs). assert (HR : R.*1 = bs) by apply replay_keys.
  assert (Hlb : length bs = Z.to_nat (hdr_n (f start))) by apply length_hdr_blocks.
  assert (HlR : length R = length bs) by (by rewrite <- HR, length_fmap).
  assert (Hsb : start ∉ bs).
  { intros Hx. rewrite Forall_forall in Hh. destruct (Hh _ Hx) as [_ Hx']. apply Hx'.
    unfold LogSpec.in_log, LOGSIZE, MAXOPBLOCKS. lia. }
  destruct (decide (k ≤ length R)%nat) as [Hk|Hk].
  - (* the header is still there *)
    assert (Hf' : f' = after f (take k R)).
    { unfold f', recover_writes. fold bs R. by rewrite take_app_le. }
    assert (Hkeys : ∀ x, x ∈ (take k R).*1 → x ∈ bs).
    { intros x. rewrite fmap_take, HR. apply subseteq_take. }
    assert (Hlog : ∀ x, in_log x → f' x = f x).
    { intros x Hx. rewrite Hf'. apply after_other. intros Hx'%Hkeys. rewrite Forall_forall in Hh.
      by destruct (Hh x Hx'). }
    assert (Hst : f' start = f start).
    { apply Hlog. unfold LogSpec.in_log, LOGSIZE, MAXOPBLOCKS. lia. }
    split; [split; by rewrite Hst|].
    destruct (decide (b ∈ bs)) as [Hin|Hin].
    + apply list_elem_of_lookup in Hin as [j Hj].
      assert (Hg' : good_header f') by (split; by rewrite Hst).
      pose proof (lookup_lt_Some _ _ _ Hj).
      rewrite (recovered_home f j b Hg Hj), (recovered_home f' j b Hg') by (by rewrite Hst).
      apply Hlog. unfold LogSpec.in_log. lia.
    + rewrite !recovered_other by (try rewrite Hst; done). rewrite Hf'. apply after_other.
      intros Hx%Hkeys. done.
  - (* recovery had finished *)
    assert (Hf' : f' = after f (recover_writes f)).
    { unfold f'. rewrite take_ge; [done|]. unfold recover_writes. fold bs R.
      rewrite length_app. simpl. lia. }
    assert (Hst : f' start = hdr [] (f start)).
    { rewrite Hf'. unfold recover_writes. rewrite after_snoc. simpl. by rewrite decide_True. }
    destruct (hdr_nil (f start) Hlen) as [Hn0 Hl0].
    assert (Hg' : good_header f').
    { split; rewrite Hst; unfold hdr_blocks; rewrite ?Hn0;
        [done|unfold LOGSIZE, MAXOPBLOCKS; lia|constructor|constructor]. }
    split; [done|]. rewrite recovered_empty by (by rewrite ?Hst). by rewrite Hf'.
Qed.
End recover.

(** ** The code of recovery *)

Section boot.
Context {D : Type} `{Disk D}.
Context (dev : Z) (Hdev : 0 < dev < 2 ^ 31) (mypid : Z).
Context (start cap : Z) (Hstart : 0 ≤ start ∧ 0 ≤ cap ≤ LOGSIZE ∧ start + cap + 1 < 2 ^ 31).
Implicit Types (s : lst D) (A : Z → info) (d : D).
Notation log_ok := (log_ok dev start).

(** The loop of [read_head] fills the array from the front. *)
Lemma read_head_loop data n i s pre suf :
  lh_block (lg s) = pre ++ suf → length pre = Z.to_nat i → 0 ≤ i →
  i + Z.of_nat n ≤ LOGSIZE → (n ≤ length suf)%nat →
  wp (for_loop n i (λ i, lh_set i (i32 (ld32 (Z.to_nat (4 + 4 * i)) data)))) (λ _ s',
    s' = mkLst (lbc s) (set_block (pre ++ (hdr_block data <$> seq (Z.to_nat i) n) ++ drop n suf) (lg s))) s.
Proof.
  revert i s pre suf. induction n as [|n IH]; intros i s pre suf Hb Hp Hi Hn Hs; cbn [for_loop].
  { apply wp_ret. cbn [seq fmap list_fmap app]. rewrite drop_0, <- Hb. by destruct s as [c []]. }
  apply wp_step. unfold wp at 1, lh_set, bind, gets.
  destruct (Z.leb_spec 0 i); [|lia]. destruct (Z.ltb_spec i LOGSIZE); [|lia]. simpl.
  set (v := i32 _). destruct suf as [|x suf]; [simpl in Hs; lia|].
  assert (Hins : <[Z.to_nat i := v]> (lh_block (lg s)) = (pre ++ [v]) ++ suf).
  { rewrite Hb, <- Hp. replace (length pre) with (length pre + 0)%nat by lia.
    rewrite insert_app_r. simpl. by rewrite <- app_assoc. }
  eapply wp_mono; [apply (IH (i + 1) _ (pre ++ [v]) suf)|].
  - simpl. done.
  - rewrite length_app. simpl. lia.
  - lia.
  - lia.
  - simpl in Hs. lia.
  - intros u s' ->. simpl. f_equal. unfold set_block. simpl. f_equal. rewrite <- app_assoc. simpl.
    f_equal. f_equal; [unfold v, hdr_block; do 2 f_equal; lia|].
    f_equal. f_equal. f_equal. lia.
Qed.

Lemma read_head_spec s A d :
  cst dev (lbc s) A d → log_ok (lg s) → avail A start → owner (A start) = None →
  0 ≤ refs (A start) < 2 ^ 32 - 1 → 0 ≤ hdr_n (view (A start)) ≤ LOGSIZE →
  length (lh_block (lg s)) = 30%nat →
  wp (read_head mypid) (λ _ s', cst dev (lbc s') A d ∧
    lg s' = set_block (hdr_blocks (view (A start)) ++
              drop (Z.to_nat (hdr_n (view (A start)))) (lh_block (lg s)))
              (set_n (hdr_n (view (A start))) (lg s))) s.
Proof.
  intros Hc Hl Hav Ho Hr Hn Hlen. unfold read_head. apply wp_step. unfold wp at 1, gets.
  pose proof Hl as [Hld Hls]. rewrite Hls. assert (HL : LOGSIZE = 30) by done.
  assert (Hclean : refs (A start) = 0 → view (A start) = disk_read d start)
    by (by apply (disk_of_view dev (lbc s))).
  apply wp_step. eapply (lr_bread dev Hdev mypid start); try done; [lia|lia|].
  intros i c1 H1 Hi _. apply wp_step, wp_zoom; cbn [lbc lg].
  eapply (cst_buf_data dev _ _ _ i start); [exact H1|done|]. rewrite fn_lookup_insert. cbn [view].
  set (data := view (A start)) in *. fold (hdr_n data).
  apply wp_step. unfold mlog, wp at 1, modify. cbn [lbc lg].
  apply wp_step. eapply wp_mono.
  { apply (read_head_loop data (Z.to_nat (hdr_n data)) 0 _ [] (lh_block (lg s))); try done; lia. }
  intros u s' ->. apply wp_zoom; cbn [lbc lg].
  eapply (cst_brelse dev mypid _ _ _ i start); [exact H1|done|by rewrite fn_lookup_insert| |].
  { rewrite fn_lookup_insert. cbn [refs view]. intros He. apply Hclean. lia. }
  rewrite fn_lookup_insert. cbn [refs view]. intros c2 H2 _. cbn [lbc lg]. split; [|done].
  eapply cst_ext; [exact H2|]. intros b. destruct (decide (start = b)) as [<-|].
  - rewrite fn_lookup_insert. unfold data. destruct (A start). simpl in *. subst. f_equal. lia.
  - by rewrite !fn_lookup_insert_ne.
Qed.

Lemma recover_spec s A d :
  cst dev (lbc s) A d → log_ok (lg s) → (∀ b, A b = mkInfo 0 None (disk_read d b)) →
  good_header start cap (disk_read d) → length (lh_block (lg s)) = 30%nat →
  wp (recover_from_log mypid) (λ _ s', (∃ bl, length bl = 30%nat ∧ lg s' = set_n 0 (set_block bl (lg s))) ∧
    ∃ A' d', cst dev (lbc s') A' d' ∧ d' = writes d (recover_writes start (disk_read d)) ∧
      (∀ b, refs (A' b) = 0 ∧ owner (A' b) = None ∧ view (A' b) = disk_read d' b)) s.
Proof.
  intros Hc Hl HA [Hlen Hn Hh Hnd] Hlb. assert (HL : LOGSIZE = 30) by done.
  set (H0 := disk_read d start) in *. set (bs := hdr_blocks H0) in *.
  assert (Hav : ∀ b, avail A b).
  { intros b. right. exists []. split; [|simpl; unfold nbuf, NBUF, MAXOPBLOCKS; lia].
    intros b'. rewrite HA. simpl. lia. }
  assert (HAs : A start = mkInfo 0 None H0) by apply HA.
  unfold recover_from_log. apply wp_step.
  eapply wp_mono; [apply (read_head_spec s A d Hc Hl (Hav start)); rewrite ?HAs; simpl; done || lia|].
  intros [] [c1 l1] [H1 Hlg]. simpl in H1, Hlg. rewrite HAs in Hlg. simpl view in Hlg. fold bs in Hlg.
  assert (Hbl : length bs = Z.to_nat (hdr_n H0)) by apply length_hdr_blocks.
  assert (Hl1 : log_ok l1) by (subst l1; apply Hl).
  assert (Hlh : lh_n l1 = hdr_n H0) by (by subst l1).
  assert (Hlk : ∀ j b, bs !! j = Some b → lh_block l1 !! (Z.to_nat 0 + j)%nat = Some b).
  { intros j b Hj. subst l1. simpl. rewrite lookup_app_l; [done|]. by eapply lookup_lt_Some. }
  assert (Hq : quiet start cap A bs).
  { split.
    - intros b Hb. rewrite Forall_forall in Hh. by apply Hh.
    - intros b _. rewrite HA. simpl. split; [done|lia].
    - exists []. split; [intros b; rewrite HA; simpl; lia|].
      unfold nbuf, NBUF, MAXOPBLOCKS. simpl. split; [lia|left; lia]. }
  (* install_trans *)
  apply wp_step. unfold install_trans. apply wp_step. unfold wp at 1, gets. cbn [lg].
  rewrite Hlh, <- Hbl, (proj2 Hl1).
  eapply wp_mono; [apply (install_loop dev Hdev mypid start cap Hstart true bs 0 (mkLst c1 l1) A d H1);
    try done; try lia; try (by left)|].
  { intros b _. rewrite HA. simpl. lia. }
  intros [] [c2 l2] [Hlg2 H2]. simpl in Hlg2, H2. subst l2.
  assert (Hth : to_home start A 0 bs = replay start (disk_read d) 0 bs).
  { clear -HA. generalize 0. induction bs as [|b bs IH]; intros i; simpl; [done|].
    rewrite IH, HA. done. }
  rewrite Hth in H2. set (R := replay start (disk_read d) 0 bs) in *.
  assert (HR : R.*1 = bs) by apply replay_keys.
  set (A2 := set_views 0 A R) in *.
  assert (HA2 : ∀ b, A2 b = mkInfo 0 None (after (disk_read d) R b)).
  { intros b. unfold A2. destruct (decide (b ∈ bs)) as [Hb|Hb].
    - assert (Hx : b ∈ R.*1) by (by rewrite HR). apply list_elem_of_fmap in Hx as ([b1 v] & -> & Hx).
      cbn [fst]. rewrite (set_views_in 0 A R b1 v) by (rewrite ?HR; done).
      rewrite (after_in _ R b1 v) by (rewrite ?HR; done). rewrite HA. done.
    - rewrite set_views_other by (by rewrite HR). rewrite after_other by (by rewrite HR). apply HA. }
  assert (Hsb : start ∉ bs).
  { intros Hx. rewrite Forall_forall in Hh. destruct (Hh _ Hx) as [_ Hx']. apply Hx'.
    unfold LogSpec.in_log. lia. }
  assert (Hs2 : A2 start = mkInfo 0 None H0).
  { rewrite HA2. by rewrite after_other by (by rewrite HR). }
  (* the empty header *)
  apply wp_step. unfold mlog, wp at 1, modify. cbn [lbc lg].
  eapply wp_mono.
  { apply (write_head_spec dev Hdev mypid start cap Hstart [] (mkLst c2 (set_n 0 l1)) A2 _ H2);
      rewrite ?Hs2; simpl; try done.
    right. exists []. split; [|simpl; unfold nbuf, NBUF, MAXOPBLOCKS; lia].
    intros b'. rewrite HA2. simpl. lia. }
  intros [] [c3 l3] [Hlg3 H3]. cbn [lg lbc] in *. rewrite Hs2 in H3. cbn [refs view] in H3.
  split.
  { eexists. split; [|rewrite Hlg3, Hlg; reflexivity].
    rewrite length_app, Hbl, length_drop, Hlb. lia. }
  eexists _, _. split; [exact H3|]. split.
  - unfold recover_writes. fold H0 bs R. rewrite writes_app. done.
  - intros b. destruct (decide (start = b)) as [<-|Hne].
    + rewrite fn_lookup_insert. simpl. rewrite disk_read_write, decide_True by done. done.
    + rewrite fn_lookup_insert_ne by done. rewrite HA2. simpl. split; [done|]. split; [done|].
      rewrite disk_read_write, decide_False by done. by rewrite read_writes.
Qed.

(** Boot, as far as the log is concerned: initialise the cache, then the log. *)
Definition reboot (nlog : Z) : M (lst D) unit :=
  lb binit ;;; initlog mypid dev start nlog.

(** Memory before boot, over the disk [d]: zeroes. *)
Definition cold_buf : buf := mkBuf false 0 0 (mkSleep 0 0) 0 0 0 [].
Definition cold (d : D) : lst D :=
  mkLst (mkCache (λ _, cold_buf) d) (mkLog 0 0 0 false 0 0 (replicate 30 0)).

Lemma reboot_spec nlog d :
  0 ≤ nlog < 2 ^ 31 → good_header start cap (disk_read d) →
  wp (reboot nlog) (λ _ s', (∃ bl, length bl = 30%nat ∧ lg s' = mkLog start nlog 0 false dev 0 bl) ∧
    ∃ A' d', cst dev (lbc s') A' d' ∧ d' = writes d (recover_writes start (disk_read d)) ∧
      (∀ b, refs (A' b) = 0 ∧ owner (A' b) = None ∧ view (A' b) = disk_read d' b)) (cold d).
Proof.
  intros Hnl Hg. unfold reboot. apply wp_step, wp_zoom.
  apply (cst_binit dev (Hdev0 dev Hdev)); [done|]. intros c1 H1. cbn [lg dk cold lbc].
  unfold initlog. simpl (_ <=? _). cbv iota. apply wp_step. unfold mlog, wp at 1, modify. cbn [lbc lg].
  assert (HL : LOGSIZE = 30) by done. rewrite !i32_id by lia.
  eapply wp_mono; [apply (recover_spec _ (λ b, mkInfo 0 None (disk_read d b)) d); try done|].
  intros [] s' ((bl & H2 & ->) & H4). split; [by exists bl|done].
Qed.
End boot.

(** ** Crashes *)

Lemma crash_at_writes (t : tdisk) ws k :
  (length (t_hist t) ≤ k)%nat →
  crash_at k (writes t ws) = writes t (take (k - length (t_hist t)) ws).
Proof.
  intros Hk. rewrite !writes_hist. unfold crash_at. simpl. f_equal.
  rewrite take_app. f_equal. apply take_ge. lia.
Qed.

Lemma tdisk_read_writes (t : tdisk) ws : disk_read (writes t ws) = after (disk_read t) ws.
Proof.
  rewrite writes_hist. change (after (t_base t) (t_hist t ++ ws) = after (after (t_base t) (t_hist t)) ws).
  apply after_app.
Qed.

Section crash.
Context (dev : Z) (Hdev : 0 < dev < 2 ^ 31) (mypid : Z).
Context (start cap : Z) (Hstart : 0 ≤ start ∧ 0 ≤ cap ≤ LOGSIZE ∧ start + cap + 1 < 2 ^ 31).
Notation in_log := (in_log start cap).

(** A transaction on the blocks [bs], ready to commit: the blocks are pinned in
    the cache with their new contents, every other block of the cache agrees
    with the disk, and the log on disk is empty. *)
Record ready (s : lst tdisk) (A : Z → info) (bs : list Z) : Prop := {
  rd_cst : cst dev (lbc s) A (dk (lbc s));
  rd_log : log_ok dev start (lg s);
  rd_quiet : quiet start cap A bs;
  rd_nodup : NoDup bs;
  rd_pinned : ∀ b, b ∈ bs → 0 < refs (A b);
  rd_len : (0 < length bs)%nat;
  rd_cap : Z.of_nat (length bs) ≤ cap;
  rd_n : lh_n (lg s) = Z.of_nat (length bs);
  rd_blocks : take (length bs) (lh_block (lg s)) = bs;
  rd_clean : ∀ b, b ∉ bs → (¬ in_log b ∨ b = start) → view (A b) = disk_read (dk (lbc s)) b;
  rd_header : length (disk_read (dk (lbc s)) start) = 1024%nat;
  rd_empty : hdr_n (disk_read (dk (lbc s)) start) = 0;
}.

Section one.
Context (f : Z → list Z) (A : Z → info) (bs : list Z).
Hypothesis Hnd : NoDup bs.
Hypothesis Hlen : (0 < length bs)%nat.
Hypothesis Hcap : Z.of_nat (length bs) ≤ cap.
Hypothesis Hhome : ∀ b, b ∈ bs → 0 ≤ b < 2 ^ 31 ∧ ¬ in_log b.
Hypothesis Hclean : ∀ b, b ∉ bs → ¬ in_log b → view (A b) = f b.
Hypothesis Hhdr : view (A start) = f start.
Hypothesis Hl0 : length (f start) = 1024%nat.
Hypothesis Hn0 : hdr_n (f start) = 0.

Lemma start_in_log : in_log start.
Proof. unfold LogSpec.in_log, LOGSIZE, MAXOPBLOCKS. lia. Qed.

Lemma start_not_home : start ∉ bs.
Proof. intros Hx%Hhome. destruct Hx as [_ Hx]. apply Hx, start_in_log. Qed.

Lemma empty_header f' : length (f' start) = 1024%nat → hdr_n (f' start) = 0 → good_header start cap f'.
Proof.
  intros Hl Hn. split; unfold hdr_blocks; rewrite ?Hn;
    [done|unfold LOGSIZE, MAXOPBLOCKS; lia|constructor|constructor].
Qed.

Lemma hdr_bs : length (hdr bs (f start)) = 1024%nat ∧
  hdr_n (hdr bs (f start)) = Z.of_nat (length bs) ∧ hdr_blocks (hdr bs (f start)) = bs.
Proof.
  apply hdr_roundtrip; [done|unfold LOGSIZE, MAXOPBLOCKS in *; lia|]. apply Forall_forall. intros b Hb. by apply Hhome.
Qed.

(** Contents while the log is being written: outside the log nothing changed. *)
Lemma crash_before k b :
  (k ≤ length bs)%nat → ¬ in_log b →
  let f' := after f (take k (to_log start A 0 bs)) in
  good_header start cap f' ∧ recovered start f' b = f b.
Proof.
  intros Hk Hb f'. assert (HL : LOGSIZE = 30) by done.
  assert (Hkey : ∀ x, x ∈ (take k (to_log start A 0 bs)).*1 → in_log x ∧ x ≠ start).
  { intros x. rewrite fmap_take. intros Hx%subseteq_take%to_log_keys. unfold LogSpec.in_log. lia. }
  assert (Hst : f' start = f start).
  { apply after_other. intros Hx%Hkey. by destruct Hx. }
  split; [apply empty_header; by rewrite Hst|].
  rewrite (recovered_empty start cap ltac:(lia)) by (by rewrite ?Hst). apply after_other. intros Hx%Hkey. by destruct Hx.
Qed.

(** Contents once the header is written: recovery completes the transaction. *)
Lemma crash_after k b :
  ¬ in_log b →
  let f1 := after f (to_log start A 0 bs ++ [(start, hdr bs (view (A start)))]) in
  let f' := after f1 (take k (home A bs ++ [(start, hdr [] (hdr bs (view (A start))))])) in
  good_header start cap f' ∧ recovered start f' b = view (A b).
Proof.
  intros Hb. rewrite Hhdr. intros f1 f'. assert (HL : LOGSIZE = 30) by done.
  destruct hdr_bs as (Hh1 & Hh2 & Hh3). set (h := hdr bs (f start)) in *.
  assert (Hs1 : f1 start = h).
  { unfold f1. rewrite after_snoc. simpl. by rewrite decide_True. }
  assert (Hlg1 : ∀ j x, bs !! j = Some x → f1 (start + Z.of_nat j + 1) = view (A x)).
  { intros j x Hj. unfold f1. rewrite after_snoc. simpl. rewrite decide_False by lia.
    apply after_in; [apply to_log_nodup|]. by apply (to_log_in start A 0). }
  assert (Hot1 : ∀ x, ¬ in_log x → f1 x = f x).
  { intros x Hx. unfold f1. rewrite after_snoc. simpl. rewrite decide_False.
    - apply after_other. intros Hk%to_log_keys. apply Hx. unfold LogSpec.in_log. lia.
    - intros <-. apply Hx, start_in_log. }
  assert (Hhl : length (home A bs) = length bs) by (unfold home; by rewrite length_fmap).
  destruct (decide (k ≤ length (home A bs))%nat) as [Hk|Hk].
  - assert (Hf' : f' = after f1 (take k (home A bs))) by (unfold f'; by rewrite take_app_le).
    assert (Hkey : ∀ x, x ∈ (take k (home A bs)).*1 → x ∈ bs).
    { intros x. rewrite fmap_take, home_keys. apply subseteq_take. }
    assert (Hlog : ∀ x, in_log x → f' x = f1 x).
    { intros x Hx. rewrite Hf'. apply after_other. intros Hy%Hkey%Hhome. by destruct Hy. }
    assert (Hst : f' start = h) by (rewrite Hlog; [done|apply start_in_log]).
    assert (Hg : good_header start cap f').
    { split; rewrite Hst; rewrite ?Hh2, ?Hh3; try done; [lia|]. by apply Forall_forall. }
    split; [done|]. destruct (decide (b ∈ bs)) as [Hin|Hin].
    + apply list_elem_of_lookup in Hin as [j Hj]. pose proof (lookup_lt_Some _ _ _ Hj).
      rewrite (recovered_home start cap ltac:(lia) f' j b Hg) by (by rewrite Hst, Hh3).
      rewrite Hlog by (unfold LogSpec.in_log; lia). by apply Hlg1.
    + rewrite (recovered_other start cap ltac:(lia)) by (rewrite ?Hst, ?Hh3; done). rewrite Hf'.
      rewrite after_other by (intros Hx%Hkey; done). rewrite Hot1 by done. symmetry. by apply Hclean.
  - assert (Hf' : f' = after f1 (home A bs ++ [(start, hdr [] h)])).
    { unfold f'. rewrite take_ge; [done|]. rewrite length_app. simpl. lia. }
    destruct (hdr_nil h Hh1) as [He1 He2].
    assert (Hst : f' start = hdr [] h).
    { rewrite Hf', after_snoc. simpl. by rewrite decide_True. }
    split; [apply empty_header; by rewrite Hst|].
    rewrite (recovered_empty start cap ltac:(lia)) by (by rewrite ?Hst). rewrite Hf', after_snoc. simpl.
    rewrite decide_False by (intros <-; apply Hb, start_in_log).
    destruct (decide (b ∈ bs)) as [Hin|Hin].
    + apply after_in; [by rewrite home_keys|]. unfold home. apply list_elem_of_fmap. by exists b.
    + rewrite after_other by (by rewrite home_keys). rewrite Hot1 by done. symmetry. by apply Hclean.
Qed.
End one.

Lemma take_commit_writes A bs j :
  take j (commit_writes start A bs) =
    if decide (j ≤ length bs)%nat then take j (to_log start A 0 bs)
    else (to_log start A 0 bs ++ [(start, hdr bs (view (A start)))]) ++
         take (j - S (length bs)) (home A bs ++ [(start, hdr [] (hdr bs (view (A start))))]).
Proof.
  assert (Hl : length (to_log start A 0 bs) = length bs).
  { generalize 0. induction bs as [|b bs' IH]; intros i; simpl; [done|]. by rewrite IH. }
  unfold commit_writes. case_decide.
  - rewrite take_app_le by lia. done.
  - rewrite take_app, Hl, take_ge by lia. rewrite <- app_assoc. f_equal. simpl.
    destruct (j - length bs)%nat as [|n] eqn:E; [lia|]. simpl. f_equal. f_equal. lia.
Qed.
End crash.

(** ** Properties *)

(** A commit is atomic with respect to crashes.  [commit] never panics and
    returns with the new contents of every block on disk.  Crash the machine
    after any number [k] of the disk writes made so far, boot it again, and let
    [initlog] recover: recovery never fails, and outside the log every block
    has its old contents if the crash came before the header write, and every
    block has its new contents if it came at or after it. *)
Lemma commit_crash_atomic (dev mypid start cap nlog : Z) (s : lst tdisk) (A : Z → info) (bs : list Z)
    (Hdev : 0 < dev < 2 ^ 31) (Hstart : 0 ≤ start ∧ 0 ≤ cap ≤ LOGSIZE ∧ start + cap + 1 < 2 ^ 31)
    (Hnlog : 0 ≤ nlog < 2 ^ 31) (Hr : ready dev start cap s A bs) :
  ∃ s', commit mypid s = Ok tt s' ∧
    (∀ b, ¬ in_log start cap b → disk_read (dk (lbc s')) b = view (A b)) ∧
    ∀ k, (length (t_hist (dk (lbc s))) ≤ k)%nat →
    ∃ s2, reboot dev mypid start nlog (cold (crash_at k (dk (lbc s')))) = Ok tt s2 ∧
      ∀ b, ¬ in_log start cap b → disk_read (dk (lbc s2)) b =
        if decide (k ≤ length (t_hist (dk (lbc s))) + length bs)%nat
        then disk_read (dk (lbc s)) b else view (A b).
Proof.
  destruct Hr as [Hc Hl Hq Hnd Hpin Hlen Hcap Hn Hbs Hcl Hh0 Hn0].
  destruct (wp_inv _ _ _ (commit_spec dev Hdev mypid start cap Hstart bs s A _ Hc Hl Hq Hnd Hpin Hlen Hcap Hn Hbs))
    as ([] & s' & He & _ & A' & Hc' & _).
  exists s'. split; [done|]. set (d := dk (lbc s)) in *. set (f := disk_read d) in *.
  assert (Hdk : dk (lbc s') = writes d (commit_writes start A bs)).
  { destruct Hc' as (? & _ & _ & ?). done. }
  assert (Hhome : ∀ b, b ∈ bs → 0 ≤ b < 2 ^ 31 ∧ ¬ in_log start cap b) by apply (q_home _ _ _ _ Hq).
  assert (Hns : start ∉ bs) by (by apply (start_not_home start cap Hstart f bs)).
  assert (Hhdr : view (A start) = f start) by (apply Hcl; [done|by right]).
  assert (Hcl' : ∀ b, b ∉ bs → ¬ in_log start cap b → view (A b) = f b) by (intros; apply Hcl; auto).
  assert (Hall : ∀ k b, ¬ in_log start cap b →
    let f' := disk_read (writes d (take k (commit_writes start A bs))) in
    good_header start cap f' ∧
    recovered start f' b = if decide (k ≤ length bs)%nat then f b else view (A b)).
  { intros k b Hb f'. unfold f'. rewrite tdisk_read_writes, take_commit_writes. case_decide.
    - by apply crash_before.
    - rewrite after_app. by apply crash_after. }
  split.
  - intros b Hb. rewrite Hdk, tdisk_read_writes. unfold commit_writes.
    rewrite app_assoc, after_app.
    rewrite <- (take_ge (home A bs ++ [(start, hdr [] (hdr bs (view (A start))))])
      (S (length bs))) by (rewrite length_app; unfold home; rewrite length_fmap; simpl; lia).
    destruct (crash_after start cap Hstart f A bs Hnd Hlen Hcap Hhome Hcl' Hhdr Hh0 (S (length bs)) b Hb) as [_ Hrec].
    set (g := after _ (take _ _)) in *.
    rewrite <- Hrec. symmetry. apply (recovered_empty start cap ltac:(lia)); [|done]. unfold g.
    rewrite take_ge by (rewrite length_app; unfold home; rewrite length_fmap; simpl; lia).
    rewrite after_snoc. simpl. rewrite decide_True by done.
    apply hdr_nil. rewrite Hhdr. by apply (hdr_bs start cap Hstart f bs).
  - intros k Hk. rewrite Hdk, crash_at_writes by done.
    set (j := (k - length (t_hist d))%nat).
    set (d' := writes d (take j (commit_writes start A bs))).
    assert (Hb0 : ¬ in_log start cap (-1)) by (unfold in_log; lia).
    destruct (Hall j (-1) Hb0) as [Hg _]. fold d' in Hg.
    destruct (wp_inv _ _ _ (reboot_spec dev Hdev mypid start cap Hstart nlog d' Hnlog Hg))
      as ([] & s2 & Hs2 & _ & A2 & d2 & Hc2 & Hd2 & _).
    exists s2. split; [done|]. intros b Hb. destruct (Hall j b Hb) as [_ Hrec]. fold d' in Hrec.
    assert (dk (lbc s2) = d2) as -> by (destruct Hc2 as (? & _ & _ & ?); done).
    rewrite Hd2, read_writes.
    unfold recovered in Hrec. rewrite Hrec. unfold j.
    destruct (decide (k ≤ length (t_hist d) + length bs)%nat).
    + by rewrite decide_True by lia.
    + by rewrite decide_False by lia.
Qed.

(** C19: recovery survives its own crashes.  On any disk whose log header is
    well formed, crash after any number of the writes of recovery and boot
    again: the second recovery completes and leaves every block outside the
    log with the contents the first would have left. *)
Theorem recovery_crash_safe (dev mypid start nlog : Z) (d : tdisk)
    (Hdev : 0 < dev < 2 ^ 31) (Hstart : 0 ≤ start ∧ 0 < nlog ≤ LOGSIZE + 1 ∧ start + nlog < 2 ^ 31)
    (Hg : good_header start (nlog - 1) (disk_read d)) :
  ∃ s1, reboot dev mypid start nlog (cold d) = Ok tt s1 ∧
    ∀ k, (length (t_hist d) ≤ k)%nat →
    ∃ s2, reboot dev mypid start nlog (cold (crash_at k (dk (lbc s1)))) = Ok tt s2 ∧
      ∀ b, ¬ in_log start (nlog - 1) b → disk_read (dk (lbc s2)) b = disk_read (dk (lbc s1)) b.
Proof.
  assert (HL : LOGSIZE = 30) by done. set (cap := nlog - 1) in *.
  assert (Hplace : 0 ≤ start ∧ 0 ≤ cap ≤ LOGSIZE ∧ start + cap + 1 < 2 ^ 31) by lia.
  destruct (wp_inv _ _ _ (reboot_spec dev Hdev mypid start cap Hplace nlog d ltac:(lia) Hg))
    as ([] & s1 & Hs1 & _ & A1 & d1 & Hc1 & Hd1 & _).
  assert (Hdk1 : dk (lbc s1) = d1) by (destruct Hc1 as (? & _ & _ & ?); done).
  exists s1. split; [done|]. intros k Hk. rewrite Hdk1, Hd1, crash_at_writes by done.
  set (d' := writes d _). assert (Hb0 : ¬ in_log start cap (-1)) by (unfold in_log; lia).
  assert (Hf' : disk_read d' = after (disk_read d) (take (k - length (t_hist d)) (recover_writes start (disk_read d))))
    by apply tdisk_read_writes.
  destruct (recovered_prefix start cap ltac:(lia) (disk_read d) (k - length (t_hist d)) (-1) Hg Hb0) as [Hg' _].
  rewrite <- Hf' in Hg'.
  destruct (wp_inv _ _ _ (reboot_spec dev Hdev mypid start cap Hplace nlog d' ltac:(lia) Hg'))
    as ([] & s2 & Hs2 & _ & A2 & d2 & Hc2 & Hd2 & _).
  exists s2. split; [done|]. intros b Hb.
  assert (dk (lbc s2) = d2) as -> by (destruct Hc2 as (? & _ & _ & ?); done).
  rewrite Hd2, !read_writes. fold (recovered start (disk_read d') b) (recovered start (disk_read d) b).
  destruct (recovered_prefix start cap ltac:(lia) (disk_read d) (k - length (t_hist d)) b Hg Hb) as [_ Hrec].
  rewrite <- Hf' in Hrec. exact Hrec.
Qed.

(** A disk with a log at block 2 that holds a committed transaction: block 46 is
    to become all ones. *)
Definition zero_block : list Z := replicate 1024 0.
Definition committed_disk : tdisk :=
  mkT (λ b, if b =? 2 then hdr [46] zero_block else if b =? 3 then replicate 1024 1 else zero_block) [].

Lemma committed_disk_good : good_header 2 29 (disk_read committed_disk).
Proof.
  destruct (hdr_roundtrip [46] zero_block) as (H1 & H2 & H3);
    [apply length_replicate|simpl; lia|by repeat constructor|].
  assert (He : disk_read committed_disk 2 = hdr [46] zero_block) by reflexivity.
  split; rewrite He.
  - exact H1.
  - rewrite H2. unfold LOGSIZE, MAXOPBLOCKS. simpl. lia.
  - rewrite H3. repeat constructor; unfold in_log, LOGSIZE, MAXOPBLOCKS; lia.
  - rewrite H3. apply NoDup_singleton.
Qed.

Lemma log_place : 0 ≤ 2 ∧ 0 ≤ 29 ≤ LOGSIZE ∧ 2 + 29 + 1 < 2 ^ 31.
Proof. unfold LOGSIZE, MAXOPBLOCKS. lia. Qed.

Lemma committed_disk_boots : ∃ s0, reboot 1 7 2 30 (cold committed_disk) = Ok tt s0.
Proof.
  destruct (wp_exists _ _ (λ _, True) (wp_mono _ _ _ _
    (reboot_spec 1 ltac:(lia) 7 2 29 log_place 30 committed_disk ltac:(lia) committed_disk_good)
    (λ _ _ _, I))) as (s0 & Hs0 & _).
  by exists s0.
Qed.

Lemma recovery_crash_safe_witness :
  ∃ s1, reboot 1 7 2 30 (cold committed_disk) = Ok tt s1 ∧
  ∃ s2, reboot 1 7 2 30 (cold (crash_at 1 (dk (lbc s1)))) = Ok tt s2.
Proof.
  destruct (recovery_crash_safe 1 7 2 30 committed_disk ltac:(lia) ltac:(unfold LOGSIZE, MAXOPBLOCKS; lia) committed_disk_good)
    as (s1 & H1 & Hk).
  exists s1. split; [exact H1|]. destruct (Hk 1%nat) as (s2 & H2 & _); [vm_compute; lia|].
  exists s2. exact H2.
Defined.
