(* ===== verification/LogTx.v ===== *)
(** * LogTx: building a transaction

    [begin_op], [log_write] and [end_op] of Log.v: what a transaction holds
    while system calls add blocks to it, and that it is then ready to commit. *)
From stdpp Require Import functions.
From S2P Require Import Prelude Riscv Spinlock Bio BioSpec Log LogSpec LogCrash.

(** ** Updates of blocks *)

(** A transaction's blocks once [b] is written. *)
Definition add_block (bs : list Z) (b : Z) : list Z := if decide (b ∈ bs) then bs else bs ++ [b].

(** A write: the block and what becomes of its contents. *)
Definition update : Type := Z * (list Z → list Z).

(** The contents of the blocks after the writes, and the blocks they touch. *)
Definition apply_op (v : Z → list Z) (op : update) : Z → list Z :=
  λ b, if decide (b = op.1) then op.2 (v op.1) else v b.
Definition apply_ops (v : Z → list Z) (ops : list update) : Z → list Z := foldl apply_op v ops.
Definition touched (bs : list Z) (ops : list update) : list Z := foldl add_block bs ops.*1.

Lemma apply_ops_ext ops v v' : (∀ b, v b = v' b) → ∀ b, apply_ops v ops b = apply_ops v' ops b.
Proof.
  revert v v'. induction ops as [|op ops IH]; intros v v' Hv b; simpl; [apply Hv|].
  apply IH. intros b'. unfold apply_op. by rewrite !Hv.
Qed.

Lemma touched_le bs ops : (length bs ≤ length (touched bs ops))%nat.
Proof.
  revert bs. induction ops as [|op ops IH]; intros bs; [done|].
  etransitivity; [|apply IH]. unfold add_block. case_decide; [done|]. rewrite length_app. lia.
Qed.

Lemma touched_subset bs ops b : b ∈ bs → b ∈ touched bs ops.
Proof.
  revert bs. induction ops as [|op ops IH]; intros bs Hb; [done|].
  apply IH. unfold add_block. case_decide; [done|]. apply elem_of_app. by left.
Qed.

Lemma touched_ops bs ops op : op ∈ ops → op.1 ∈ touched bs ops.
Proof.
  revert bs. induction ops as [|op' ops IH]; intros bs; [by intros ?%not_elem_of_nil|].
  intros [<-|Hin]%elem_of_cons; [|by apply IH].
  apply (touched_subset (add_block bs op.1) ops). unfold add_block. case_decide; [done|]. apply elem_of_app. right. by left.
Qed.

Lemma apply_ops_other ops v b bs : b ∉ touched bs ops → apply_ops v ops b = v b.
Proof.
  revert v. induction ops as [|op ops IH] using rev_ind; intros v Hb; [done|].
  unfold apply_ops. rewrite foldl_app. simpl. unfold apply_op at 1.
  unfold touched in Hb. rewrite fmap_app, foldl_app in Hb. simpl in Hb.
  unfold add_block in Hb. rewrite decide_False.
  - apply IH. case_decide; [done|]. rewrite not_elem_of_app in Hb. tauto.
  - intros ->. case_decide; [done|]. rewrite not_elem_of_app in Hb. destruct Hb as [_ Hb].
    apply Hb. by left.
Qed.

(** ** Reservations *)

Lemma begin_op_spec {D} (s : lst D) :
  0 ≤ lh_n (lg s) ≤ LOGSIZE → 0 ≤ l_outstanding (lg s) < 2 ^ 20 →
  begin_op s =
    if l_committing (lg s) then Sleep ChLog s
    else if decide (lh_n (lg s) + (l_outstanding (lg s) + 1) * MAXOPBLOCKS ≤ LOGSIZE)
    then Ok tt (mkLst (lbc s) (set_outstanding (l_outstanding (lg s) + 1) (lg s)))
    else Sleep ChLog s.
Proof.
  intros Hn Ho. assert (HL : LOGSIZE = 30) by done. assert (HM : MAXOPBLOCKS = 10) by done.
  unfold begin_op, bind, gets, sleep. destruct (l_committing (lg s)); [done|].
  rewrite HL, HM in *. rewrite (i32_id (l_outstanding (lg s) + 1)) by lia.
  rewrite (i32_id ((l_outstanding (lg s) + 1) * 10)) by lia. rewrite i32_id by lia.
  case_decide.
  - destruct (Z.ltb_spec 30 (lh_n (lg s) + (l_outstanding (lg s) + 1) * 10)); [lia|]. done.
  - destruct (Z.ltb_spec 30 (lh_n (lg s) + (l_outstanding (lg s) + 1) * 10)); [done|lia].
Qed.

Section LogTx.
Context {D : Type} `{Disk D}.
Context (dev : Z) (Hdev : 0 < dev < 2 ^ 31) (mypid : Z).
Context (start cap : Z) (Hstart : 0 ≤ start ∧ 0 ≤ cap ≤ LOGSIZE ∧ start + cap + 1 < 2 ^ 31).
Implicit Types (s : lst D) (A : Z → info) (d : D) (bs : list Z).
Notation in_log := (in_log start cap).

Ltac ins :=
  repeat match goal with
  | |- context [insert ?x ?v ?f ?x] => rewrite (fn_lookup_insert f x v)
  | |- context [insert ?x ?v ?f ?y] => rewrite (fn_lookup_insert_ne f x y v) by congruence
  end; cbn [refs owner view].

(** The in-memory header lists the blocks [bs]. *)
Record header (l : log) (bs : list Z) : Prop := {
  hd_log : log_ok dev start l;
  hd_n : lh_n l = Z.of_nat (length bs);
  hd_blocks : take (length bs) (lh_block l) = bs;
  hd_len : length (lh_block l) = 30%nat;
  hd_home : ∀ b, b ∈ bs → 0 ≤ b < 2 ^ 31 ∧ ¬ in_log b;
  hd_nodup : NoDup bs;
  hd_max : Z.of_nat (length bs) ≤ cap;
}.

(** A transaction with the blocks [bs], no buffer of which is locked. *)
Record tx (s : lst D) (A : Z → info) (d : D) (bs : list Z) : Prop := {
  tx_cst : cst dev (lbc s) A d;
  tx_header : header (lg s) bs;
  tx_refs : ∀ b, refs (A b) = if decide (b ∈ bs) then 1 else 0;
  tx_owner : ∀ b, owner (A b) = None;
}.

(** Neither depends on the reservation counters. *)
Lemma tx_counters s A d bs o c :
  tx s A d bs → tx (mkLst (lbc s) (set_committing c (set_outstanding o (lg s)))) A d bs.
Proof. intros [Hc [] Hr Ho]. split; [exact Hc|by split|exact Hr|exact Ho]. Qed.

Lemma log_find_spec bs i b :
  Forall (λ v, 0 ≤ v < 2 ^ 31) bs →
  (b ∉ bs ∧ log_find bs i b = i + Z.of_nat (length bs)) ∨
  (∃ j : nat, bs !! j = Some b ∧ log_find bs i b = i + Z.of_nat j).
Proof.
  revert i. induction bs as [|v bs IH]; intros i Hb; simpl.
  { left. split; [apply not_elem_of_nil|lia]. }
  apply Forall_cons in Hb as [Hv Hb]. rewrite u32_id by lia.
  destruct (Z.eqb_spec v b) as [->|Hne].
  - right. exists 0%nat. split; [done|lia].
  - destruct (IH (i + 1) Hb) as [[Hn ->]|(j & Hj & ->)].
    + left. split; [|lia]. rewrite not_elem_of_cons. auto.
    + right. exists (S j). split; [done|lia].
Qed.

(** [log_write] on a buffer the process holds: a block of the transaction is
    absorbed, a new one is appended and pinned. *)
Lemma log_write_spec s A d bs i b (Q : unit → lst D → Prop) :
  cst dev (lbc s) A d → header (lg s) bs → handle dev (lbc s) i b →
  0 ≤ b < 2 ^ 31 → ¬ in_log b → refs (A b) < 2 ^ 32 - 1 →
  0 < l_outstanding (lg s) → lh_n (lg s) < cap → lh_n (lg s) < l_size (lg s) - 1 →
  (∀ s', header (lg s') (if decide (b ∈ bs) then bs else bs ++ [b]) →
     l_outstanding (lg s') = l_outstanding (lg s) → l_size (lg s') = l_size (lg s) →
     l_committing (lg s') = l_committing (lg s) →
     cst dev (lbc s') (if decide (b ∈ bs) then A
       else <[b := mkInfo (refs (A b) + 1) (owner (A b)) (view (A b))]> A) d →
     keeps dev (lbc s) (lbc s') → Q tt s') →
  wp (log_write i) Q s.
Proof.
  intros Hc [Hl Hn Hbs Hlen Hh Hnd Hmax] Hi Hb Hnl Hr Hout Hn1 Hn2 HQ. assert (HL : LOGSIZE = 30) by done.
  unfold log_write. apply wp_step. unfold wp at 1, gets.
  destruct (Z.leb_spec LOGSIZE (lh_n (lg s))); [lia|].
  destruct (Z.leb_spec (l_size (lg s) - 1) (lh_n (lg s))); [lia|]. cbn [orb].
  destruct (Z.ltb_spec (l_outstanding (lg s)) 1); [lia|].
  apply wp_step, wp_zoom. unfold wp at 1. rewrite (cst_blockno dev _ A d i b Hc Hi).
  rewrite Hn, Nat2Z.id, Hbs. replace (mkLst (lbc s) (lg s)) with s by (by destruct s).
  assert (Hrange : Forall (λ v, 0 ≤ v < 2 ^ 31) bs) by (apply Forall_forall; intros v Hv; by apply Hh).
  rewrite i32_id by lia.
  destruct (log_find_spec bs 0 b Hrange) as [[Hnin ->]|(j & Hj & ->)].
  - rewrite Z.add_0_l. apply wp_step. unfold lh_set, wp at 1, bind, gets.
    destruct (Z.leb_spec 0 (Z.of_nat (length bs))); [|lia].
    destruct (Z.ltb_spec (Z.of_nat (length bs)) LOGSIZE); [|lia]. cbn [andb].
    unfold mlog at 1, modify at 1. rewrite Z.eqb_refl, Nat2Z.id.
    apply wp_step, wp_zoom; cbn [lbc lg]. eapply cst_bpin; [exact Hc|exact Hi|done|]. intros c1 Hc1 K1.
    unfold mlog, wp, modify; cbn [lbc lg]. rewrite i32_id by lia. apply HQ; try done.
    + simpl. rewrite decide_False by done. split; simpl; try done.
      * rewrite length_app. simpl. lia.
      * rewrite length_app. simpl. apply list_eq. intros k.
        destruct (decide (k < length bs)%nat) as [Hk|Hk].
        -- rewrite lookup_take_lt by lia. rewrite list_lookup_insert_ne by lia.
           rewrite lookup_app_l by lia. rewrite <- Hbs at 1. by rewrite lookup_take_lt.
        -- destruct (decide (k = length bs)) as [->|Hk'].
           ++ rewrite lookup_take_lt by lia. rewrite list_lookup_insert_eq by lia.
              by rewrite lookup_app_r, Nat.sub_diag by lia.
           ++ rewrite lookup_take_ge by lia. symmetry. apply lookup_ge_None_2.
              rewrite length_app. simpl. lia.
      * by rewrite length_insert.
      * intros x [Hx|Hx]%elem_of_app; [by apply Hh|]. by apply list_elem_of_singleton in Hx as ->.
      * apply NoDup_app. split; [done|]. split; [|apply NoDup_singleton].
        intros x Hx ->%list_elem_of_singleton. done.
      * rewrite length_app. simpl. lia.
    + by rewrite decide_False.
  - rewrite Z.add_0_l. pose proof (lookup_lt_Some _ _ _ Hj) as Hjl.
    assert (Hin : b ∈ bs) by (by eapply list_elem_of_lookup_2).
    apply wp_step. unfold lh_set, wp at 1, bind, gets.
    destruct (Z.leb_spec 0 (Z.of_nat j)); [|lia].
    destruct (Z.ltb_spec (Z.of_nat j) LOGSIZE); [|lia]. cbn [andb].
    unfold mlog at 1, modify at 1. destruct (Z.eqb_spec (Z.of_nat j) (Z.of_nat (length bs))); [lia|].
    rewrite Nat2Z.id, list_insert_id.
    + apply wp_ret. rewrite !decide_True in HQ by done. apply HQ; try done.
      by intros ? ?.
    + rewrite <- Hbs in Hj. by apply lookup_take_Some in Hj as [? _].
Qed.

(** The use the comment above [log_write] describes. *)
Definition write_block (b : Z) (f : list Z → list Z) : M (lst D) unit :=
  do i <- log_bread mypid b;
  lb (set_buf_data i f) ;;;
  log_write i ;;;
  lb (brelse mypid i).

Lemma write_block_spec s A d bs b f (Q : unit → lst D → Prop) :
  tx s A d bs → 0 ≤ b < 2 ^ 31 → ¬ in_log b →
  0 < l_outstanding (lg s) → lh_n (lg s) < cap → lh_n (lg s) < LOGSIZE - 1 → lh_n (lg s) < l_size (lg s) - 1 →
  (∀ s' A', tx s' A' d (add_block bs b) →
     (∀ b', view (A' b') = if decide (b' = b) then f (view (A b)) else view (A b')) →
     l_outstanding (lg s') = l_outstanding (lg s) → l_size (lg s') = l_size (lg s) →
     l_committing (lg s') = l_committing (lg s) → Q tt s') →
  wp (write_block b f) Q s.
Proof.
  intros [Hc Hhd Hr Ho] Hb Hnl Hout Hcap Hn1 Hn2 HQ. assert (HL : LOGSIZE = 30) by done.
  unfold write_block. pose proof (hd_n _ _ Hhd) as Hn.
  assert (Hrb : 0 ≤ refs (A b) ≤ 1) by (rewrite Hr; case_decide; lia).
  apply wp_step. eapply (lr_bread dev Hdev mypid start); try done; try lia.
  { apply (hd_log _ _ Hhd). }
  { right. exists bs. split; [|unfold nbuf, NBUF, MAXOPBLOCKS; lia].
    intros b'. rewrite Hr. case_decide; [done|lia]. }
  intros i c1 H1 Hi _.
  apply wp_step, wp_zoom; cbn [lbc lg]. eapply cst_set_buf_data; [exact H1|exact Hi|]. ins. intros c2 H2 K2.
  apply wp_step. eapply (log_write_spec (mkLst c2 (lg s)) _ d bs i b); [exact H2|done|by apply K2|done|done| |done|simpl; lia|done|].
  { ins. lia. }
  intros s3 Hhd3 Hout3 Hsz3 Hcm3 H3 K3. simpl in Hout3, Hsz3, Hcm3, K3.
  assert (Hrel : ∀ A3, cst dev (lbc s3) A3 d → owner (A3 b) = Some mypid → 2 ≤ refs (A3 b) →
    (∀ c4, cst dev c4 (<[b := mkInfo (refs (A3 b) - 1) None (view (A3 b))]> A3) d → Q tt (mkLst c4 (lg s3))) →
    wp (lb (brelse mypid i)) Q s3).
  { intros A3 Hc3 Ho3 Hr3 HQ3. apply wp_zoom.
    eapply (cst_brelse dev mypid _ _ _ i b); [exact Hc3|by apply K3, K2|done|lia|].
    intros c4 H4 _. by apply HQ3. }
  unfold add_block in HQ.
  destruct (decide (b ∈ bs)) as [Hin|Hin].
  - specialize (Hr b) as Hrb'. rewrite decide_True in Hrb' by done.
    eapply Hrel; [exact H3|by ins|ins; lia|]. ins. intros c4 H4.
    eapply HQ; [split; [exact H4|done|..]| |done|done|done].
    + intros b'. cbn [refs]. destruct (decide (b = b')) as [<-|]; ins; [rewrite Hrb', decide_True by done; lia|apply Hr].
    + intros b'. destruct (decide (b = b')) as [<-|]; by ins.
    + intros b'. destruct (decide (b = b')) as [<-|]; ins; [by rewrite decide_True|].
      by rewrite decide_False.
  - specialize (Hr b) as Hrb'. rewrite decide_False in Hrb' by done.
    eapply Hrel; [exact H3|by ins|ins; lia|]. ins. intros c4 H4.
    eapply HQ; [split; [exact H4|done|..]| |done|done|done].
    + intros b'. destruct (decide (b = b')) as [<-|]; ins.
      * rewrite Hrb', decide_True; [lia|]. apply elem_of_app. right. by left.
      * rewrite Hr. destruct (decide (b' ∈ bs)); [rewrite decide_True; [done|apply elem_of_app; by left]|].
        rewrite decide_False; [done|]. intros [?|?%list_elem_of_singleton]%elem_of_app; [done|congruence].
    + intros b'. destruct (decide (b = b')) as [<-|]; by ins.
    + intros b'. destruct (decide (b = b')) as [<-|]; ins; [by rewrite decide_True|].
      by rewrite decide_False.
Qed.

(** ** A system call's writes *)

Fixpoint write_blocks (ops : list update) : M (lst D) unit :=
  match ops with
  | [] => ret tt
  | op :: ops => write_block op.1 op.2 ;;; write_blocks ops
  end.

Lemma write_blocks_spec ops s A d bs (Q : unit → lst D → Prop) :
  tx s A d bs → Forall (λ op : update, 0 ≤ op.1 < 2 ^ 31 ∧ ¬ in_log op.1) ops →
  0 < l_outstanding (lg s) → Z.of_nat (length (touched bs ops)) ≤ MAXOPBLOCKS →
  MAXOPBLOCKS < cap → MAXOPBLOCKS + 1 < l_size (lg s) →
  (∀ s' A', tx s' A' d (touched bs ops) →
     (∀ b, view (A' b) = apply_ops (λ b, view (A b)) ops b) →
     l_outstanding (lg s') = l_outstanding (lg s) →
     l_committing (lg s') = l_committing (lg s) → Q tt s') →
  wp (write_blocks ops) Q s.
Proof.
  assert (HM : MAXOPBLOCKS = 10) by done. assert (HL : LOGSIZE = 30) by done.
  revert s A bs. induction ops as [|op ops IH]; intros s A bs Ht Hops Hout Hlen Hcap Hsz HQ; simpl.
  { by apply (HQ s A). }
  apply Forall_cons in Hops as [[Hb Hnl] Hops].
  pose proof (touched_le bs (op :: ops)) as Hle. pose proof (hd_n _ _ (tx_header _ _ _ _ Ht)) as Hn.
  apply wp_step. eapply write_block_spec; try done; try lia.
  intros s1 A1 Ht1 Hv1 Ho1 Hs1 Hc1. apply (IH s1 A1 (add_block bs op.1)); try done; try lia.
  intros s2 A2 Ht2 Hv2 Ho2 Hc2. apply (HQ s2 A2); try done; try congruence.
  intros b. rewrite Hv2. simpl. apply apply_ops_ext. intros b'. by rewrite Hv1.
Qed.
End LogTx.

(** ** Atomicity of a system call *)

Section atomic.
Context (dev : Z) (Hdev : 0 < dev < 2 ^ 31) (mypid : Z).
Context (start cap : Z) (Hstart : 0 ≤ start ∧ 0 ≤ cap ≤ LOGSIZE ∧ start + cap + 1 < 2 ^ 31).

(** A transaction that wrote something, its last operation over, is ready to
    commit. *)
Lemma tx_ready (s : lst tdisk) A v bs ops :
  tx dev start cap s A (dk (lbc s)) (touched bs ops) → bs = [] → ops ≠ [] →
  MAXOPBLOCKS < cap → Z.of_nat (length (touched bs ops)) ≤ MAXOPBLOCKS →
  (∀ b, view (A b) = apply_ops v ops b) → (∀ b, v b = disk_read (dk (lbc s)) b) →
  length (disk_read (dk (lbc s)) start) = 1024%nat → hdr_n (disk_read (dk (lbc s)) start) = 0 →
  ready dev start cap s A (touched bs ops).
Proof.
  intros [Hc [Hl Hn Hbs Hlen Hh Hnd Hmax] Hr Ho] -> Hne Hcap Hten HA Hv Hl0 Hn0.
  assert (HM : MAXOPBLOCKS = 10) by done.
  assert (Hrng : ∀ b, 0 ≤ refs (A b) < 2 ^ 32 - 1) by (intros b; rewrite Hr; case_decide; lia).
  assert (Hpos : ∀ b, b ∈ touched [] ops → 0 < refs (A b)) by (intros b Hb; rewrite Hr, decide_True by done; lia).
  split; try done.
  - split; [done|auto|]. exists (touched [] ops).
    split; [intros b; rewrite Hr; case_decide; [done|lia]|].
    unfold nbuf, NBUF, MAXOPBLOCKS. split; [lia|right; done].
  - destruct ops as [|op ops]; [done|].
    assert (Hx : op.1 ∈ touched [] (op :: ops)) by (apply touched_ops; by left).
    destruct (touched [] (op :: ops)); [by apply not_elem_of_nil in Hx|simpl; lia].
  - intros b Hb _. rewrite HA. by rewrite (apply_ops_other _ _ _ []).
Qed.

(** The writes of the only operation of a transaction. *)
Lemma writes_run ops (s : lst tdisk) A nlog :
  tx dev start cap s A (dk (lbc s)) [] →
  Forall (λ op : update, 0 ≤ op.1 < 2 ^ 31 ∧ ¬ in_log start cap op.1) ops →
  Z.of_nat (length (touched [] ops)) ≤ MAXOPBLOCKS →
  l_outstanding (lg s) = 1 → l_committing (lg s) = false → l_size (lg s) = nlog → MAXOPBLOCKS < cap → MAXOPBLOCKS + 1 < nlog →
  ∃ s', write_blocks mypid ops s = Ok tt s' ∧ dk (lbc s') = dk (lbc s) ∧
    l_outstanding (lg s') = 1 ∧ l_committing (lg s') = false ∧
    ∃ A', tx dev start cap s' A' (dk (lbc s)) (touched [] ops) ∧
      ∀ b, view (A' b) = apply_ops (λ b, view (A b)) ops b.
Proof.
  intros Ht Hops Hten Ho Hc Hsz Hcap Hnl.
  apply (wp_exists (write_blocks mypid ops) s (λ s', dk (lbc s') = dk (lbc s) ∧
    l_outstanding (lg s') = 1 ∧ l_committing (lg s') = false ∧
    ∃ A', tx dev start cap s' A' (dk (lbc s)) (touched [] ops) ∧
      ∀ b, view (A' b) = apply_ops (λ b, view (A b)) ops b)).
  apply (write_blocks_spec dev Hdev mypid start cap Hstart ops s A (dk (lbc s)) []); [done|done|lia|done|lia|lia|].
  intros s' A' Ht' HA' Ho' Hc'. split; [by destruct (tx_cst _ _ _ _ _ _ _ Ht') as (? & _ & _ & ?)|].
  split; [congruence|]. split; [congruence|]. by exists A'.
Qed.

(** The last [end_op] of a transaction commits it. *)
Lemma end_op_last (s : lst tdisk) (s' : lst tdisk) :
  l_committing (lg s) = false → l_outstanding (lg s) = 1 →
  commit mypid (mkLst (lbc s) (set_committing true (set_outstanding 0 (lg s)))) = Ok tt s' →
  end_op mypid s = Ok tt (mkLst (lbc s') (set_committing false (lg s'))).
Proof.
  intros Hc Ho He. unfold end_op, bind, mlog, modify, gets; cbn [lbc lg]. rewrite Ho.
  change (i32 (1 - 1)) with 0. change (l_committing (set_outstanding 0 (lg s))) with (l_committing (lg s)).
  change (l_outstanding (set_outstanding 0 (lg s))) with 0. rewrite Hc, Z.eqb_refl. cbn [lbc lg]. by rewrite He.
Qed.

(** The state [initlog] leaves: an empty transaction. *)
Lemma boot_tx nlog d s0 :
  0 ≤ nlog < 2 ^ 31 → good_header start cap (disk_read d) →
  reboot dev mypid start nlog (cold d) = Ok tt s0 →
  l_size (lg s0) = nlog ∧ l_outstanding (lg s0) = 0 ∧ l_committing (lg s0) = false ∧
  length (disk_read (dk (lbc s0)) start) = 1024%nat ∧ hdr_n (disk_read (dk (lbc s0)) start) = 0 ∧
  ∃ A, tx dev start cap s0 A (dk (lbc s0)) [] ∧ ∀ b, view (A b) = disk_read (dk (lbc s0)) b.
Proof.
  intros Hnl Hg Hs0.
  destruct (wp_run _ _ _ _ _ (reboot_spec dev Hdev mypid start cap Hstart nlog d Hnl Hg) Hs0) as ((bl & Hbl & Hlg) & A & d' & Hc & Hd' & HA).
  clear Hs0. assert (Hdk : dk (lbc s0) = d') by (destruct Hc as (? & _ & _ & ?); done).
  rewrite Hdk, Hlg. do 3 (split; [done|]).
  assert (Hst : disk_read d' start = hdr [] (disk_read d start)).
  { rewrite Hd', tdisk_read_writes. unfold recover_writes. rewrite after_snoc. simpl.
    by rewrite decide_True. }
  rewrite Hst. destruct (hdr_roundtrip [] (disk_read d start)) as (H1 & H2 & _);
    [apply Hg|simpl; lia|constructor|].
  split; [done|]. split; [done|]. exists A. split; [|intros b; apply HA].
  split; [exact Hc| | |].
  - rewrite Hlg. split; simpl; [split; reflexivity|reflexivity|reflexivity|exact Hbl| |constructor|lia].
    by intros b ?%not_elem_of_nil.
  - intros b. by destruct (HA b) as (-> & _).
  - intros b. by destruct (HA b) as (_ & -> & _).
Qed.
End atomic.

(** The file-system part of a system call that writes the blocks of [ops]. *)
Definition log_op (mypid : Z) (ops : list update) : M (lst tdisk) unit :=
  begin_op ;;; write_blocks mypid ops ;;; end_op mypid.

(** C1: a system call's writes are atomic across crashes.  Boot any disk with a
    well-formed log; then [begin_op], writes to at most MAXOPBLOCKS distinct
    blocks outside the log, and [end_op] complete, and leave the disk with all
    the writes.  Crash after any number [k] of the disk writes made since boot
    and boot again: recovery completes and every block outside the log has the
    contents of before the call, or every one has those of after. *)
Theorem transaction_atomic (dev mypid start nlog : Z) (d : tdisk) (s0 : lst tdisk) (ops : list update)
    (Hdev : 0 < dev < 2 ^ 31) (Hstart : 0 ≤ start ∧ start + nlog < 2 ^ 31)
    (Hnlog : MAXOPBLOCKS + 1 < nlog ≤ LOGSIZE + 1) (Hg : good_header start (nlog - 1) (disk_read d))
    (Hboot : reboot dev mypid start nlog (cold d) = Ok tt s0)
    (Hops : Forall (λ op : update, 0 ≤ op.1 < 2 ^ 31 ∧ ¬ in_log start (nlog - 1) op.1) ops) (Hne : ops ≠ [])
    (Hten : Z.of_nat (length (touched [] ops)) ≤ MAXOPBLOCKS) :
  let old := disk_read (dk (lbc s0)) in
  let new := apply_ops old ops in
  ∃ s', log_op mypid ops s0 = Ok tt s' ∧
    (∀ b, ¬ in_log start (nlog - 1) b → disk_read (dk (lbc s')) b = new b) ∧
    ∀ k, (length (t_hist (dk (lbc s0))) ≤ k)%nat →
    ∃ s2, reboot dev mypid start nlog (cold (crash_at k (dk (lbc s')))) = Ok tt s2 ∧
      ((∀ b, ¬ in_log start (nlog - 1) b → disk_read (dk (lbc s2)) b = old b) ∨
       (∀ b, ¬ in_log start (nlog - 1) b → disk_read (dk (lbc s2)) b = new b)).
Proof.
  intros old new. assert (HM : MAXOPBLOCKS = 10) by done. assert (HL : LOGSIZE = 30) by done.
  set (cap := nlog - 1) in *.
  assert (Hplace : 0 ≤ start ∧ 0 ≤ cap ≤ LOGSIZE ∧ start + cap + 1 < 2 ^ 31) by lia.
  destruct (boot_tx dev Hdev mypid start cap Hplace nlog d s0 ltac:(lia) Hg Hboot)
    as (Hsz & Hout & Hcm & Hl0 & Hn0 & A & Ht & HA). clear Hboot.
  pose proof (hd_n _ _ _ _ _ (tx_header _ _ _ _ _ _ _ Ht)) as Hn. simpl in Hn.
  set (s1 := mkLst (lbc s0) (set_committing false (set_outstanding 1 (lg s0)))).
  assert (Hb : begin_op s0 = Ok tt s1).
  { rewrite (begin_op_spec s0) by lia. rewrite Hcm, Hout, Hn, decide_True by (rewrite HM; lia).
    unfold s1, set_committing, set_outstanding. simpl. by rewrite Hcm. }
  assert (Ht1 : tx dev start cap s1 A (dk (lbc s1)) []) by exact (tx_counters dev start cap _ _ _ _ 1 false Ht).
  destruct (writes_run dev Hdev mypid start cap Hplace ops s1 A nlog Ht1 Hops Hten) as (s2 & Hs2 & Hdk & Ho2 & Hc2 & A2 & Ht2 & HA2);
    [done|done|done|lia|lia|].
  set (s3 := mkLst (lbc s2) (set_committing true (set_outstanding 0 (lg s2)))).
  assert (Hr : ready dev start cap s3 A2 (touched [] ops)).
  { apply (tx_ready dev start cap s3 A2 (λ b, view (A b)) [] ops); try done; try lia.
    - change (lbc s3) with (lbc s2). rewrite Hdk. exact (tx_counters dev start cap _ _ _ _ 0 true Ht2).
    - intros b. change (lbc s3) with (lbc s2). rewrite Hdk. apply HA.
    - change (lbc s3) with (lbc s2). by rewrite Hdk.
    - change (lbc s3) with (lbc s2). by rewrite Hdk. }
  destruct (commit_crash_atomic dev mypid start cap nlog s3 A2 (touched [] ops) Hdev Hplace ltac:(lia) Hr)
    as (s4 & Hs4 & Hfin & Hcrash).
  exists (mkLst (lbc s4) (set_committing false (lg s4))). change (lbc s3) with (lbc s2) in *. rewrite Hdk in *.
  assert (Hnew : ∀ b, view (A2 b) = new b) by (intros b; rewrite HA2; by apply apply_ops_ext).
  split; [|split].
  - unfold log_op. rewrite (bind_Ok _ _ _ _ _ Hb), (bind_Ok _ _ _ _ _ Hs2). by apply end_op_last.
  - intros b Hb'. cbn [lbc]. rewrite Hfin by done. apply Hnew.
  - intros k Hk. destruct (Hcrash k Hk) as (s5 & Hs5 & Hrec). exists s5. split; [done|].
    change (lbc s1) with (lbc s0) in Hrec.
    destruct (decide (k ≤ length (t_hist (dk (lbc s0))) + length (touched [] ops))%nat); [left; done|right].
    intros b Hb'. rewrite Hrec by done. apply Hnew.
Qed.

Lemma transaction_atomic_witness :
  ∃ s0, reboot 1 7 2 30 (cold committed_disk) = Ok tt s0 ∧
  ∃ s', log_op 7 [(46, λ _, replicate 1024 5); (50, λ x, x); (46, λ x, 6 :: tail x)] s0 = Ok tt s'.
Proof.
  destruct committed_disk_boots as [s0 Hs0]. exists s0. split; [exact Hs0|].
  destruct (transaction_atomic 1 7 2 30 committed_disk s0
    [(46, λ _, replicate 1024 5); (50, λ x, x); (46, λ x, 6 :: tail x)]
    ltac:(lia) ltac:(lia) ltac:(unfold LOGSIZE, MAXOPBLOCKS; lia) committed_disk_good Hs0) as (s' & Hs' & _).
  - repeat constructor; unfold in_log, LOGSIZE, MAXOPBLOCKS; simpl; lia.
  - discriminate.
  - vm_compute. discriminate.
  - exists s'. exact Hs'.
Defined.

(** [begin_op] admits an operation exactly when no commit is running and
    MAXOPBLOCKS blocks for it, for every operation in progress and for the
    blocks already logged fit the log; otherwise it waits and changes nothing. *)
Theorem begin_op_reserves {D} (s : lst D)
    (Hn : 0 ≤ lh_n (lg s) ≤ LOGSIZE) (Ho : 0 ≤ l_outstanding (lg s) < 2 ^ 20) :
  begin_op s =
    if negb (l_committing (lg s)) &&
       bool_decide (lh_n (lg s) + (l_outstanding (lg s) + 1) * MAXOPBLOCKS ≤ LOGSIZE)
    then Ok tt (mkLst (lbc s) (set_outstanding (l_outstanding (lg s) + 1) (lg s)))
    else Sleep ChLog s.
Proof.
  rewrite begin_op_spec by done. destruct (l_committing (lg s)); [done|]. simpl.
  case_decide; [by rewrite bool_decide_eq_true_2|by rewrite bool_decide_eq_false_2].
Qed.

Lemma begin_op_reserves_witness :
  begin_op (cold committed_disk) = Ok tt (mkLst (lbc (cold committed_disk))
    (mkLog 0 0 1 false 0 0 (replicate 30 0))).
Proof. rewrite (begin_op_reserves (cold committed_disk)); [reflexivity|vm_compute; split; discriminate|vm_compute; split; [discriminate|reflexivity]]. Defined.

(** The reservation does not cover the whole log.  With the log mkfs makes
    (LOGSIZE blocks, one of them the header), [begin_op] admits three
    operations that together may log 30 blocks, but with three operations in
    progress the thirtieth [log_write] panics whatever its block is. *)
Theorem reservation_exceeds_log {D} `{Disk D} (c : bcache D) (start dev : Z) (bl : list Z) (i : nat) :
  (begin_op ;;; begin_op ;;; begin_op) (mkLst c (mkLog start LOGSIZE 0 false dev 0 bl)) =
    Ok tt (mkLst c (mkLog start LOGSIZE 3 false dev 0 bl)) ∧
  29 < 3 * MAXOPBLOCKS ∧
  log_write i (mkLst c (mkLog start LOGSIZE 3 false dev 29 bl)) = Panic "too big a transaction".
Proof. repeat split. Qed.
