(* ===== verification/Proc.v ===== *)
(** * Proc: kernel/proc.c

    The process table over the physical memory of Kalloc.v and Vm.v.  The file
    system calls of [fork] and [exit] are an interface ([FileOps]).  A routine
    runs with the locks the source takes, so other CPUs see its effect at once;
    [sleep] ends a run.  [me] is [myproc()]. *)
From stdpp Require Import functions.
From S2P Require Import Prelude Riscv CString Kalloc Vm Spinlock.

Inductive procstate : Type := UNUSED | USED | SLEEPING | RUNNABLE | RUNNING | ZOMBIE.

#[export] Instance procstate_eq_dec : EqDecision procstate.
Proof. solve_decision. Defined.

(** [struct proc]; an open file or an inode is the index of its table entry,
    the saved context its [ra] and [sp]. *)
Record proc : Type := mkProc {
  p_state : procstate;
  p_chan : option chan;
  p_killed : bool;
  p_xstate : Z;
  p_pid : Z;
  p_parent : option nat;
  p_kstack : Z;
  p_sz : Z;
  p_pagetable : Z;
  p_trapframe : Z;
  p_context : Z * Z;
  p_ofile : list (option nat);
  p_cwd : option nat;
  p_name : list Z;
}.

Definition set_state (v : procstate) (p : proc) : proc :=
  mkProc v (p_chan p) (p_killed p) (p_xstate p) (p_pid p) (p_parent p) (p_kstack p) (p_sz p)
    (p_pagetable p) (p_trapframe p) (p_context p) (p_ofile p) (p_cwd p) (p_name p).
Definition set_chan (v : option chan) (p : proc) : proc :=
  mkProc (p_state p) v (p_killed p) (p_xstate p) (p_pid p) (p_parent p) (p_kstack p) (p_sz p)
    (p_pagetable p) (p_trapframe p) (p_context p) (p_ofile p) (p_cwd p) (p_name p).
Definition set_killed (v : bool) (p : proc) : proc :=
  mkProc (p_state p) (p_chan p) v (p_xstate p) (p_pid p) (p_parent p) (p_kstack p) (p_sz p)
    (p_pagetable p) (p_trapframe p) (p_context p) (p_ofile p) (p_cwd p) (p_name p).
Definition set_xstate (v : Z) (p : proc) : proc :=
  mkProc (p_state p) (p_chan p) (p_killed p) v (p_pid p) (p_parent p) (p_kstack p) (p_sz p)
    (p_pagetable p) (p_trapframe p) (p_context p) (p_ofile p) (p_cwd p) (p_name p).
Definition set_pid (v : Z) (p : proc) : proc :=
  mkProc (p_state p) (p_chan p) (p_killed p) (p_xstate p) v (p_parent p) (p_kstack p) (p_sz p)
    (p_pagetable p) (p_trapframe p) (p_context p) (p_ofile p) (p_cwd p) (p_name p).
Definition set_parent (v : option nat) (p : proc) : proc :=
  mkProc (p_state p) (p_chan p) (p_killed p) (p_xstate p) (p_pid p) v (p_kstack p) (p_sz p)
    (p_pagetable p) (p_trapframe p) (p_context p) (p_ofile p) (p_cwd p) (p_name p).
Definition set_kstack (v : Z) (p : proc) : proc :=
  mkProc (p_state p) (p_chan p) (p_killed p) (p_xstate p) (p_pid p) (p_parent p) v (p_sz p)
    (p_pagetable p) (p_trapframe p) (p_context p) (p_ofile p) (p_cwd p) (p_name p).
Definition set_sz (v : Z) (p : proc) : proc :=
  mkProc (p_state p) (p_chan p) (p_killed p) (p_xstate p) (p_pid p) (p_parent p) (p_kstack p) v
    (p_pagetable p) (p_trapframe p) (p_context p) (p_ofile p) (p_cwd p) (p_name p).
Definition set_pagetable (v : Z) (p : proc) : proc :=
  mkProc (p_state p) (p_chan p) (p_killed p) (p_xstate p) (p_pid p) (p_parent p) (p_kstack p) (p_sz p)
    v (p_trapframe p) (p_context p) (p_ofile p) (p_cwd p) (p_name p).
Definition set_trapframe (v : Z) (p : proc) : proc :=
  mkProc (p_state p) (p_chan p) (p_killed p) (p_xstate p) (p_pid p) (p_parent p) (p_kstack p) (p_sz p)
    (p_pagetable p) v (p_context p) (p_ofile p) (p_cwd p) (p_name p).
Definition set_context (v : Z * Z) (p : proc) : proc :=
  mkProc (p_state p) (p_chan p) (p_killed p) (p_xstate p) (p_pid p) (p_parent p) (p_kstack p) (p_sz p)
    (p_pagetable p) (p_trapframe p) v (p_ofile p) (p_cwd p) (p_name p).
Definition set_ofile (v : list (option nat)) (p : proc) : proc :=
  mkProc (p_state p) (p_chan p) (p_killed p) (p_xstate p) (p_pid p) (p_parent p) (p_kstack p) (p_sz p)
    (p_pagetable p) (p_trapframe p) (p_context p) v (p_cwd p) (p_name p).
Definition set_cwd (v : option nat) (p : proc) : proc :=
  mkProc (p_state p) (p_chan p) (p_killed p) (p_xstate p) (p_pid p) (p_parent p) (p_kstack p) (p_sz p)
    (p_pagetable p) (p_trapframe p) (p_context p) (p_ofile p) v (p_name p).
Definition set_name (v : list Z) (p : proc) : proc :=
  mkProc (p_state p) (p_chan p) (p_killed p) (p_xstate p) (p_pid p) (p_parent p) (p_kstack p) (p_sz p)
    (p_pagetable p) (p_trapframe p) (p_context p) (p_ofile p) (p_cwd p) v.

(** Offsets in [struct trapframe], and its size. *)
Definition TF_epc : Z := 24.
Definition TF_sp : Z := 48.
Definition TF_a0 : Z := 112.
Definition TF_size : nat := 288.

(** What [fork], [exit] and [userinit] use of the file system, with the process
    identifier of the caller where it takes locks.  Closing a pipe frees a page,
    so the operations have the physical memory. *)
Class FileOps (F : Type) : Type := {
  op_filedup : nat → M (kmem * F) unit;
  op_fileclose : Z → nat → M (kmem * F) unit;
  op_idup : nat → M (kmem * F) unit;
  op_iput : Z → nat → M (kmem * F) unit;
  op_begin : M (kmem * F) unit;
  op_end : Z → M (kmem * F) unit;
  op_root : M (kmem * F) (option nat);
}.

Record ps (F : Type) : Type := mkPs {
  km : kmem;
  procs : nat → proc;
  nextpid : Z;
  initproc : option nat;
  files : F;
}.
Arguments mkPs {F}.
Arguments km {F} _.
Arguments procs {F} _.
Arguments nextpid {F} _.
Arguments initproc {F} _.
Arguments files {F} _.

Definition nproc : nat := Z.to_nat NPROC.

Section Proc.
Context {F : Type} `{FileOps F}.
Context (kend trampoline forkret_addr : Z).
Notation MP := (M (ps F)).

Definition on_km {A} (m : M kmem A) : MP A :=
  zoom km (λ k s, mkPs k (procs s) (nextpid s) (initproc s) (files s)) m.
Definition on_files {A} (m : M (kmem * F) A) : MP A :=
  zoom (λ s, (km s, files s)) (λ f s, mkPs f.1 (procs s) (nextpid s) (initproc s) f.2) m.
Definition upd_proc (i : nat) (f : proc → proc) : MP unit := modify (λ s,
  mkPs (km s) (<[i := f (procs s i)]> (procs s)) (nextpid s) (initproc s) (files s)).
Definition get_proc (i : nat) : MP proc := gets (λ s, procs s i).

(** [for(p = proc; p < &proc[NPROC]; p++)]. *)
Definition for_procs (body : nat → MP unit) : MP unit :=
  for_loop nproc 0 (λ i, body (Z.to_nat i)).

Definition procinit : MP unit :=
  for_procs (λ i, upd_proc i (λ p, set_kstack (KSTACK (Z.of_nat i)) (set_state UNUSED p))).

Definition allocpid : MP Z :=
  do pid <- gets nextpid;
  modify (λ s, mkPs (km s) (procs s) (i32 (nextpid s + 1)) (initproc s) (files s)) ;;;
  ret pid.

Definition proc_pagetable (trapframe : Z) : M kmem Z :=
  do pagetable <- uvmcreate;
  if pagetable =? 0 then ret 0
  else
    do r <- mappages pagetable TRAMPOLINE PGSIZE trampoline (Z.lor PTE_R PTE_X);
    if r <? 0 then uvmfree kend pagetable 0 ;;; ret 0
    else
      do r <- mappages pagetable TRAPFRAME PGSIZE trapframe (Z.lor PTE_R PTE_W);
      if r <? 0 then
        uvmunmap kend pagetable TRAMPOLINE 1 false ;;; uvmfree kend pagetable 0 ;;; ret 0
      else ret pagetable.

Definition proc_freepagetable (pagetable sz : Z) : M kmem unit :=
  uvmunmap kend pagetable TRAMPOLINE 1 false ;;;
  uvmunmap kend pagetable TRAPFRAME 1 false ;;;
  uvmfree kend pagetable sz.

Definition freeproc (i : nat) : MP unit :=
  do p <- get_proc i;
  (if p_trapframe p =? 0 then ret tt else on_km (kfree kend (p_trapframe p))) ;;;
  upd_proc i (set_trapframe 0) ;;;
  (if p_pagetable p =? 0 then ret tt else on_km (proc_freepagetable (p_pagetable p) (p_sz p))) ;;;
  upd_proc i (λ p, set_state UNUSED (set_xstate 0 (set_killed false (set_chan None
    (set_name (<[0%nat := 0]> (p_name p)) (set_parent None (set_pid 0 (set_sz 0 (set_pagetable 0 p))))))))).

(** The first UNUSED slot. *)
Fixpoint find_unused (k i : nat) (t : nat → proc) : option nat :=
  match k with
  | O => None
  | S k => if decide (p_state (t i) = UNUSED) then Some i else find_unused k (S i) t
  end.

Definition allocproc : MP (option nat) :=
  do o <- gets (λ s, find_unused nproc 0 (procs s));
  match o with
  | None => ret None
  | Some i =>
      do pid <- allocpid;
      upd_proc i (λ p, set_state USED (set_pid pid p)) ;;;
      do tf <- on_km kalloc;
      upd_proc i (set_trapframe tf) ;;;
      if tf =? 0 then freeproc i ;;; ret None
      else
        do pt <- on_km (proc_pagetable tf);
        upd_proc i (set_pagetable pt) ;;;
        if pt =? 0 then freeproc i ;;; ret None
        else
          upd_proc i (λ p, set_context (forkret_addr, u64 (p_kstack p + PGSIZE)) p) ;;;
          ret (Some i)
  end.

Definition initcode : list Z :=
  [23; 5; 0; 0; 19; 5; 69; 2; 151; 5; 0; 0; 147; 133; 53; 2; 147; 8; 112; 0; 115; 0; 0; 0;
   147; 8; 32; 0; 115; 0; 0; 0; 239; 240; 159; 255; 47; 105; 110; 105; 116; 0; 0; 36; 0; 0; 0; 0;
   0; 0; 0; 0].

(** [safestrcpy] on [char name[16]]. *)
Definition copy_name (old new : list Z) : list Z :=
  to_list 16 (safestrcpy (arr_of old) (arr_of new) 16).

(** [allocproc] of an empty table with memory to spare never fails; the source
    does not check. *)
Definition userinit : MP unit :=
  do o <- allocproc;
  modify (λ s, mkPs (km s) (procs s) (nextpid s) o (files s)) ;;;
  match o with
  | None => undef
  | Some i =>
      do p <- get_proc i;
      on_km (uvmfirst (p_pagetable p) initcode) ;;;
      upd_proc i (set_sz PGSIZE) ;;;
      on_km (store_word (p_trapframe p + TF_epc) 0) ;;;
      on_km (store_word (p_trapframe p + TF_sp) PGSIZE) ;;;
      upd_proc i (λ p, set_name (copy_name (p_name p) [105; 110; 105; 116; 99; 111; 100; 101]) p) ;;;
      do cwd <- on_files op_root;
      upd_proc i (set_cwd cwd) ;;;
      upd_proc i (set_state RUNNABLE)
  end.

Definition growproc (me : nat) (n : Z) : MP Z :=
  do p <- get_proc me;
  let sz := p_sz p in
  if 0 <? n then
    do sz' <- on_km (uvmalloc kend (p_pagetable p) sz (u64 (sz + n)) PTE_W);
    if sz' =? 0 then ret (-1) else upd_proc me (set_sz sz') ;;; ret 0
  else if n <? 0 then
    do sz' <- on_km (uvmdealloc kend (p_pagetable p) sz (u64 (sz + n)));
    upd_proc me (set_sz sz') ;;; ret 0
  else upd_proc me (set_sz sz) ;;; ret 0.

(** [np->ofile[i] = filedup(p->ofile[i])] for the open descriptors. *)
Fixpoint dup_files (l : list (option nat)) (fd : nat) (np : nat) : MP unit :=
  match l with
  | [] => ret tt
  | o :: l =>
      match o with
      | None => ret tt
      | Some f => on_files (op_filedup f) ;;; upd_proc np (λ p, set_ofile (<[fd := Some f]> (p_ofile p)) p)
      end ;;;
      dup_files l (S fd) np
  end.

Definition fork (me : nat) : MP Z :=
  do o <- allocproc;
  match o with
  | None => ret (-1)
  | Some i =>
      do p <- get_proc me;
      do np <- get_proc i;
      do r <- on_km (uvmcopy kend (p_pagetable p) (p_pagetable np) (p_sz p));
      if r <? 0 then freeproc i ;;; ret (-1)
      else
        upd_proc i (set_sz (p_sz p)) ;;;
        (* copy saved user registers. *)
        on_km (modify (λ k, set_mem (write_bytes (km_mem k) (p_trapframe np)
          (read_bytes (km_mem k) (p_trapframe p) TF_size)) k)) ;;;
        (* Cause fork to return 0 in the child. *)
        on_km (store_word (p_trapframe np + TF_a0) 0) ;;;
        dup_files (p_ofile p) 0 i ;;;
        match p_cwd p with
        | None => undef
        | Some d => on_files (op_idup d) ;;; upd_proc i (set_cwd (Some d))
        end ;;;
        upd_proc i (λ q, set_name (copy_name (p_name q) (p_name p)) q) ;;;
        upd_proc i (set_parent (Some me)) ;;;
        upd_proc i (set_state RUNNABLE) ;;;
        ret (p_pid np)
  end.

(** [p->state == SLEEPING && p->chan == chan]. *)
Definition sleeps_on (c : chan) (p : proc) : bool :=
  bool_decide (p_state p = SLEEPING) && bool_decide (p_chan p = Some c).

Definition wakeup (me : option nat) (c : chan) : MP unit :=
  for_procs (λ i,
    if bool_decide (me = Some i) then ret tt
    else do p <- get_proc i; if sleeps_on c p then upd_proc i (set_state RUNNABLE) else ret tt).

Definition reparent (me : nat) : MP unit :=
  for_procs (λ i,
    do p <- get_proc i;
    if bool_decide (p_parent p = Some me) then
      do ini <- gets initproc;
      upd_proc i (set_parent ini) ;;;
      match ini with Some j => wakeup (Some me) (ChProc j) | None => ret tt end
    else ret tt).

Fixpoint close_files (pid : Z) (l : list (option nat)) (fd : nat) (me : nat) : MP unit :=
  match l with
  | [] => ret tt
  | o :: l =>
      match o with
      | None => ret tt
      | Some f => on_files (op_fileclose pid f) ;;; upd_proc me (λ p, set_ofile (<[fd := None]> (p_ofile p)) p)
      end ;;;
      close_files pid l (S fd) me
  end.

(** Up to the call of [sched], which does not return. *)
Definition exit (me : nat) (status : Z) : MP unit :=
  do ini <- gets initproc;
  if bool_decide (ini = Some me) then panic "init exiting"
  else
    do p <- get_proc me;
    close_files (p_pid p) (p_ofile p) 0 me ;;;
    on_files op_begin ;;;
    match p_cwd p with Some d => on_files (op_iput (p_pid p) d) | None => undef end ;;;
    on_files (op_end (p_pid p)) ;;;
    upd_proc me (set_cwd None) ;;;
    reparent me ;;;
    do p <- get_proc me;
    match p_parent p with Some j => wakeup (Some me) (ChProc j) | None => ret tt end ;;;
    upd_proc me (λ p, set_state ZOMBIE (set_xstate status p)).

(** The scan of [wait]: the first zombie child, and whether there is a child. *)
Fixpoint find_zombie (k i : nat) (me : nat) (t : nat → proc) (havekids : bool) : option nat * bool :=
  match k with
  | O => (None, havekids)
  | S k =>
      if decide (p_parent (t i) = Some me) then
        if decide (p_state (t i) = ZOMBIE) then (Some i, true)
        else find_zombie k (S i) me t true
      else find_zombie k (S i) me t havekids
  end.

(** One round of the loop of [wait]. *)
Definition wait (me : nat) (addr : Z) : MP Z :=
  do t <- gets procs;
  match find_zombie nproc 0 me t false with
  | (Some i, _) =>
      let pid := p_pid (t i) in
      do r <- (if addr =? 0 then ret 0
               else on_km (copyout (p_pagetable (t me)) addr (le_bytes 4 (u32 (p_xstate (t i))))));
      if r <? 0 then ret (-1) else freeproc i ;;; ret pid
  | (None, havekids) =>
      if negb havekids || p_killed (t me) then ret (-1) else sleep (ChProc me)
  end.

(** One pass of the scheduler over the table: [swtch i] is what process [i] does
    until it gives up the CPU.  The result is [found]. *)
Definition scheduler_pass (swtch : nat → MP unit) : M (ps F * bool) unit :=
  for_loop nproc 0 (λ i s,
    let i := Z.to_nat i in
    if decide (p_state (procs s.1 i) = RUNNABLE) then
      match (upd_proc i (set_state RUNNING) ;;; swtch i) s.1 with
      | Ok _ s' => Ok tt (s', true)
      | Panic e => Panic e
      | Sleep c s' => Sleep c (s', true)
      | Undef => Undef
      | NoFuel => NoFuel
      end
    else Ok tt s).

(** The checks of [sched]; [lock_held] is [holding(&p->lock)]. *)
Definition sched (lock_held : bool) (c : cpu) (p : proc) : option string :=
  if negb lock_held then Some "sched p->lock"%string
  else if negb (noff c =? 1) then Some "sched locks"%string
  else if bool_decide (p_state p = RUNNING) then Some "sched running"%string
  else if sie c then Some "sched interruptible"%string
  else None.

(** What [yield] and [sleep] do to the process before [sched], and what [sleep]
    does when it runs again. *)
Definition yield (me : nat) : MP unit := upd_proc me (set_state RUNNABLE).
Definition sleep_on (me : nat) (c : chan) : MP unit :=
  upd_proc me (λ p, set_state SLEEPING (set_chan (Some c) p)).
Definition sleep_done (me : nat) : MP unit := upd_proc me (set_chan None).

(** [forkret]: [first] is its static variable, [fsinit] the file system's. *)
Definition forkret (first : bool) (fsinit : Z → M (kmem * F) unit) : MP bool :=
  if first then on_files (fsinit ROOTDEV) ;;; ret false else ret false.

Fixpoint find_pid (k i : nat) (pid : Z) (t : nat → proc) : option nat :=
  match k with
  | O => None
  | S k => if p_pid (t i) =? pid then Some i else find_pid k (S i) pid t
  end.

Definition kill (pid : Z) : MP Z :=
  do t <- gets procs;
  match find_pid nproc 0 pid t with
  | None => ret (-1)
  | Some i =>
      upd_proc i (λ p,
        let p := set_killed true p in
        if decide (p_state p = SLEEPING) then set_state RUNNABLE p else p) ;;;
      ret 0
  end.

Definition setkilled (i : nat) : MP unit := upd_proc i (set_killed true).
Definition killed (i : nat) : MP bool := do p <- get_proc i; ret (p_killed p).
End Proc.
