(* ===== verification/VmFree.v ===== *)
(** * VmFree: giving an address space back

    [freewalk] and [uvmfree] of Vm.v, and [proc_freepagetable] of Proc.v, return
    every page of an address space, the pages of its memory and those of its page
    table, to the free list, and touch nothing else. *)
From stdpp Require Import functions.
From S2P Require Import Prelude Riscv CString Kalloc Vm VmSpec VmUser Spinlock Proc.

(** The tables at most [d] levels below the table [t]. *)
Definition node (d : nat) (m : mem) (t q : Z) : Prop :=
  ∃ path, (length path ≤ d)%nat ∧ Forall idx path ∧ tbl m t path = Some q.

Section VmFree.
Context (kend : Z).
Hypothesis Hend : KERNBASE ≤ kend.

(** A tree of tables of depth [d] below [t] without leaf entries, as [freewalk]
    expects it. *)
Record tree (d : nat) (s : kmem) (t : Z) (l : list Z) : Prop := {
  tr_kinv : kinv kend s l;
  tr_page : ∀ q, node d (km_mem s) t q → page_ok kend q ∧ q ∉ l;
  tr_inj : ∀ p1 p2 q, (length p1 ≤ d)%nat → (length p2 ≤ d)%nat → Forall idx p1 → Forall idx p2 →
    tbl (km_mem s) t p1 = Some q → tbl (km_mem s) t p2 = Some q → p1 = p2;
  tr_inner : ∀ path q i, (length path ≤ d)%nat → Forall idx path → idx i → tbl (km_mem s) t path = Some q →
    has (load64 (km_mem s) (slot q i)) PTE_V = true →
    (length path < d)%nat ∧ has (load64 (km_mem s) (slot q i)) PTE_RWX = false;
}.

Lemma node_root d m t : node d m t t.
Proof. exists []. split; [simpl; lia|done]. Qed.

Lemma node_child d m t i c q : idx i → ent m t i = Some c → node d m c q → node (S d) m t q.
Proof.
  intros Hi Hc (path & Hl & Hx & Hp). exists (i :: path). split; [simpl; lia|]. split; [by constructor|].
  cbn [tbl]. by rewrite Hc.
Qed.

Lemma node_inv d m t q : node (S d) m t q → q = t ∨ ∃ i c, idx i ∧ ent m t i = Some c ∧ node d m c q.
Proof.
  intros ([|i path] & Hl & Hx & Hp); [left; simpl in Hp; congruence|]. right.
  apply Forall_cons in Hx as [Hi Hx]. cbn [tbl] in Hp. destruct (ent m t i) as [c|] eqn:Hc; [|done].
  exists i, c. split; [done|]. split; [done|]. exists path. split; [simpl in Hl; lia|done].
Qed.

(** Memory that agrees on the tables of a tree has the same tree. *)
Lemma tbl_agree d m m' t : (∀ q x, node d m t q → in_page q x → m' x = m x) →
  ∀ path, (length path ≤ S d)%nat → Forall idx path → tbl m' t path = tbl m t path.
Proof.
  intros Hm path Hl Hx. apply tbl_ext. intros pre j suf q -> Hq. rewrite length_app in Hl. simpl in Hl.
  apply Forall_app in Hx as [Hpre [Hj _]%Forall_cons]. apply load64_ext. intros x Hx.
  apply (Hm q); [exists pre; split; [lia|done]|by eapply slot_in_page].
Qed.

(** The state of the loop of [freewalk] before entry [j]: the subtrees of the
    entries before [j] are free, the rest is as it was. *)
Record walking (d : nat) (s : kmem) (t : Z) (l : list Z) (j : Z) (s1 : kmem) (l1 : list Z) : Prop := {
  wk_kinv : kinv kend s1 l1;
  wk_free : ∀ q, q ∈ l1 ↔ q ∈ l ∨ ∃ i c, 0 ≤ i < j ∧ ent (km_mem s) t i = Some c ∧ node d (km_mem s) c q;
  wk_mem : ∀ x, ¬ in_page t x → (∀ i c q, 0 ≤ i < j → ent (km_mem s) t i = Some c → node d (km_mem s) c q → ¬ in_page q x) →
    km_mem s1 x = km_mem s x;
  wk_ents : ∀ i, j ≤ i < 512 → load64 (km_mem s1) (slot t i) = load64 (km_mem s) (slot t i);
}.

(** A subtree that is still to be walked. *)
Lemma walking_tree d s t l j s1 l1 c : tree (S d) s t l → walking d s t l j s1 l1 → 0 ≤ j < 512 → ent (km_mem s) t j = Some c →
  tree d s1 c l1 ∧ ∀ q, node d (km_mem s1) c q ↔ node d (km_mem s) c q.
Proof.
  intros [Hk Hpg Hinj Hin] [Hk1 Hf1 Hm1 He1] Hj Hc.
  assert (Hnode : ∀ q, node d (km_mem s) c q → node (S d) (km_mem s) t q) by (intros q; by apply (node_child d _ t j)).
  assert (Hsep : ∀ i c' q q', 0 ≤ i < j → ent (km_mem s) t i = Some c' → node d (km_mem s) c' q' → node d (km_mem s) c q → q' ≠ q).
  { intros i c' q q' Hi Hc' (p1 & Hl1 & Hx1 & Hp1) (p2 & Hl2 & Hx2 & Hp2) ->.
    assert (i :: p1 = j :: p2) as [= -> _]; [|lia].
    apply (Hinj _ _ q); [simpl; lia|simpl; lia|constructor; [split; lia|done]|constructor; [done|done]| |];
      cbn [tbl]; by rewrite ?Hc', ?Hc. }
  assert (Hroot : ∀ q, node d (km_mem s) c q → q ≠ t).
  { intros q (p2 & Hl2 & Hx2 & Hp2) ->.
    assert (j :: p2 = []) as [=]. apply (Hinj _ _ t); [simpl; lia|simpl; lia|by constructor|constructor| |done]. cbn [tbl]. by rewrite Hc. }
  assert (Hm : ∀ q x, node d (km_mem s) c q → in_page q x → km_mem s1 x = km_mem s x).
  { intros q x Hq Hx. destruct (Hpg q (Hnode q Hq)) as [Hqok _]. apply Hm1.
    - intros Hx'. destruct (Hpg t (node_root _ _ _)) as [Htok _].
      apply (in_page_disjoint kend q t x); try done. by apply Hroot.
    - intros i c' q' Hi Hc' Hq' Hx'. destruct (Hpg q') as [Hq'ok _]; [by apply (node_child d _ t i c'); [split; lia|..]|].
      apply (in_page_disjoint kend q q' x); try done. intros <-. by apply (Hsep i c' q q). }
  pose proof (tbl_agree d _ _ c Hm) as Ht.
  assert (Hiff : ∀ q, node d (km_mem s1) c q ↔ node d (km_mem s) c q).
  { intros q. split; intros (path & Hl & Hx & Hp); exists path; (split; [done|]; split; [done|]); [rewrite <- Ht|rewrite Ht]; (done || lia). }
  split; [|done]. split; [done|..].
  - intros q Hq%Hiff. destruct (Hpg q (Hnode q Hq)) as [Hqok Hql]. split; [done|]. rewrite Hf1.
    intros [?|(i & c' & Hi & Hc' & Hq')]; [done|]. by apply (Hsep i c' q q).
  - intros p1 p2 q Hl1 Hl2 Hx1 Hx2. rewrite !Ht by (done || lia). intros Hp1 Hp2.
    assert (j :: p1 = j :: p2) as [= ->]; [|done].
    apply (Hinj _ _ q); [simpl; lia|simpl; lia|by constructor|by constructor| |]; cbn [tbl]; by rewrite Hc.
  - intros path q i Hl Hx Hi. rewrite Ht by (done || lia). intros Hp.
    rewrite (load64_ext (km_mem s1) (km_mem s)).
    + intros HV. destruct (Hin (j :: path) q i) as [Hlt HF]; try done; [simpl; lia|by constructor|cbn [tbl]; by rewrite Hc|].
      split; [simpl in Hlt; lia|done].
    + intros x Hx'. apply (Hm q); [by exists path|by eapply slot_in_page].
Qed.

Lemma walking_0 d s t l : kinv kend s l → walking d s t l 0 s l.
Proof.
  intros Hk. split; [done| |done|done]. intros q. split; [by left|]. intros [?|(i & c & Hi & _)]; [done|lia].
Qed.

(** An entry that is not in use. *)
Lemma walking_skip d s t l j s1 l1 : walking d s t l j s1 l1 → ent (km_mem s) t j = None → walking d s t l (j + 1) s1 l1.
Proof.
  intros [Hk1 Hf1 Hm1 He1] Hc. split; [done| | |].
  - intros q. rewrite Hf1. split; (intros [?|(i & c & Hi & Hic & Hq)]; [by left|right; exists i, c; split; [|done]]); [lia|].
    destruct (decide (i = j)) as [->|]; [congruence|lia].
  - intros x Ht Hx. apply Hm1; [done|]. intros i c q Hi. apply Hx. lia.
  - intros i Hi. apply He1. lia.
Qed.

(** The subtree of entry [j] is freed and the entry cleared. *)
Lemma walking_step d s t l j s1 l1 c s2 l2 : tree (S d) s t l → walking d s t l j s1 l1 → 0 ≤ j < 512 → ent (km_mem s) t j = Some c →
  kinv kend s2 l2 → (∀ q, q ∈ l2 ↔ q ∈ l1 ∨ node d (km_mem s) c q) →
  (∀ x, (∀ q, node d (km_mem s) c q → ¬ in_page q x) → km_mem s2 x = km_mem s1 x) →
  walking d s t l (j + 1) (set_mem (store64 (km_mem s2) (slot t j) 0) s2) l2.
Proof.
  intros Htr [Hk1 Hf1 Hm1 He1] Hj Hc Hk2 Hf2 Hm2. destruct (tr_page _ _ _ _ Htr t (node_root _ _ _)) as [Htok Htl].
  assert (Hroot : ∀ i c' q, 0 ≤ i < 512 → ent (km_mem s) t i = Some c' → node d (km_mem s) c' q → q ≠ t ∧ page_ok kend q).
  { intros i c' q Hi Hc' Hq. split; [|by apply (tr_page _ _ _ _ Htr), (node_child d _ t i c')]. intros ->. destruct Hq as (p2 & Hl2 & Hx2 & Hp2).
    assert (i :: p2 = []) as [=]. apply (tr_inj _ _ _ _ Htr _ _ t); [simpl; lia|simpl; lia|by constructor|constructor| |done]. cbn [tbl]. by rewrite Hc'. }
  assert (Hf : ∀ q, q ∈ l2 ↔ q ∈ l ∨ ∃ i c, 0 ≤ i < j + 1 ∧ ent (km_mem s) t i = Some c ∧ node d (km_mem s) c q).
  { intros q. rewrite Hf2, Hf1. split.
    - intros [[?|(i & c' & Hi & Hq)]|Hq]; [by left|right; exists i, c'; split; [lia|done]|right; exists j, c; split; [lia|done]].
    - intros [?|(i & c' & Hi & Hc' & Hq)]; [tauto|]. destruct (decide (i = j)) as [->|].
      + assert (c' = c) as -> by congruence. tauto.
      + left. right. exists i, c'. split; [lia|done]. }
  split.
  - apply kinv_write; [done|]. intros q x Hq Hx. rewrite store64_out; [done|]. intros Hx'.
    assert (Hqok : page_ok kend q) by (destruct Hk2 as (_ & _ & Hok); by eapply Forall_forall in Hok).
    apply (in_page_disjoint kend q t x); try done; [|by eapply slot_in_page].
    intros ->. apply Hf in Hq as [?|(i & c' & Hi & Hc' & Hq)]; [done|]. by destruct (Hroot i c' t); [lia|..].
  - done.
  - intros x Ht Hx. cbn [set_mem km_mem]. rewrite store64_out by (intros Hx'; apply Ht; by eapply slot_in_page).
    rewrite Hm2 by (intros q Hq; apply (Hx j c); [lia|done..]). apply Hm1; [done|]. intros i c' q Hi. apply Hx. lia.
  - intros i Hi. cbn [set_mem km_mem]. rewrite load64_store64_ne by (unfold slot; lia).
    rewrite (load64_ext (km_mem s2) (km_mem s1)); [apply He1; lia|]. intros x Hx. apply Hm2. intros q Hq Hx'.
    destruct (Hroot j c q Hj Hc Hq). apply (in_page_disjoint kend q t x); try done. eapply slot_in_page; [|exact Hx]. split; lia.
Qed.

(** [freewalk] frees the tables of a tree without leaves, and only those. *)
Lemma freewalk_spec d : ∀ t s l, tree d s t l →
  wp (freewalk kend (S d) t) (λ _ s', ∃ l', kinv kend s' l' ∧
    (∀ q, q ∈ l' ↔ q ∈ l ∨ node d (km_mem s) t q) ∧
    (∀ x, (∀ q, node d (km_mem s) t q → ¬ in_page q x) → km_mem s' x = km_mem s x)) s.
Proof.
  induction d as [d IH] using (well_founded_induction Nat.lt_wf_0). intros t s l Htr.
  destruct (tr_page _ _ _ _ Htr t (node_root _ _ _)) as [Htok Htl].
  assert (Hkids : ∀ q, node d (km_mem s) t q ↔ q = t ∨ ∃ i c, 0 ≤ i < 512 ∧ ent (km_mem s) t i = Some c ∧ node (pred d) (km_mem s) c q).
  { intros q. split.
    - intros Hq. destruct d as [|d]; [|by apply node_inv in Hq]. left. destruct Hq as ([|] & Hl & _ & Hq); simpl in *; [congruence|lia].
    - intros [->|(i & c & Hi & Hc & Hq)]; [apply node_root|]. unfold ent in Hc. destruct (has _ PTE_V) eqn:HV; [|done].
      destruct (tr_inner _ _ _ _ Htr [] t i) as [Hd _]; try done; [simpl; lia|]. destruct d as [|d]; [simpl in Hd; lia|].
      apply (node_child d _ t i c); [done| |done]. unfold ent. by rewrite HV. }
  cbn [freewalk]. eapply wp_seq.
  { apply (wp_for (λ j s1, ∃ l1, walking (pred d) s t l j s1 l1)); [|exists l; apply walking_0, Htr].
    intros j s1 Hj (l1 & Hw). apply wp_step. eapply wp_intro; [done|].
    rewrite (wk_ents _ _ _ _ _ _ _ Hw j) by lia.
    destruct (has (load64 (km_mem s) (slot t j)) PTE_V) eqn:HV.
    - destruct (tr_inner _ _ _ _ Htr [] t j) as [Hd HF]; try done; [simpl; lia|].
      rewrite HF. cbn [negb andb]. destruct d as [|d]; [simpl in Hd; lia|]. cbn [pred] in *.
      assert (Hc : ent (km_mem s) t j = Some (PTE2PA (load64 (km_mem s) (slot t j)))) by (unfold ent; by rewrite HV).
      destruct (walking_tree d s t l j s1 l1 _ Htr Hw ltac:(lia) Hc) as [Htr1 Hnode].
      eapply wp_seq; [apply (IH d ltac:(lia) _ _ _ Htr1)|]. intros _ s2 (l2 & Hk2 & Hf2 & Hm2).
      eapply wp_intro; [done|]. exists l2. eapply walking_step; [exact Htr|exact Hw|lia|exact Hc|exact Hk2| |].
      + intros q. by rewrite Hf2, Hnode.
      + intros x Hx. apply Hm2. intros q Hq. by apply Hx, Hnode.
    - cbn [andb]. apply wp_ret. exists l1. apply walking_skip; [done|]. unfold ent. by rewrite HV. }
  intros _ s1 (l1 & [Hk1 Hf1 Hm1 _]). change (0 + Z.of_nat 512) with 512 in *.
  assert (Htl1 : t ∉ l1).
  { rewrite Hf1. intros [?|(i & c & Hi & Hc & Hq)]; [done|]. destruct d as [|d].
    - unfold ent in Hc. destruct (has _ PTE_V) eqn:HV; [|done].
      destruct (tr_inner _ _ _ _ Htr [] t i) as [Hd _]; try done. simpl in Hd. lia.
    - destruct Hq as (p2 & Hl2 & Hx2 & Hp2). assert (i :: p2 = []) as [=].
      apply (tr_inj _ _ _ _ Htr _ _ t); [simpl in *; lia|simpl; lia|by constructor|constructor| |done]. cbn [tbl]. by rewrite Hc. }
  eapply wp_mono; [by apply (kfree_spec kend Hend s1 l1 t)|]. intros _ s' [Hk' Hm']. exists (t :: l1). split; [done|]. split.
  - intros q. rewrite elem_of_cons, Hf1, Hkids. tauto.
  - intros x Hx. rewrite Hm' by (apply Hx, node_root). apply Hm1; [apply Hx, node_root|].
    intros i c q Hi Hc Hq. apply Hx, Hkids. right. by exists i, c.
Qed.

(** The address with given indices. *)
Lemma PX_make a b i : idx a → idx b → idx i → let va := a * 2 ^ 30 + b * 2 ^ 21 + i * 2 ^ 12 in
  PX 2 va = a ∧ PX 1 va = b ∧ PX 0 va = i.
Proof.
  intros Ha Hb Hi va. unfold idx in *. rewrite !PX_eq by lia. unfold PXSHIFT, PGSHIFT, va.
  change (2 ^ (12 + 9 * 2)) with (2 ^ 30). change (2 ^ (12 + 9 * 1)) with (2 ^ 21). change (2 ^ (12 + 9 * 0)) with (2 ^ 12).
  split_and!; zdm.
Qed.

(** A page table without valid leaf entries. *)
Lemma empty_tree s root l : vmwf kend s root l → (∀ va, 0 ≤ va < MAXVA → has (pte_at (km_mem s) root va) PTE_V = false) →
  tree 2 s root l.
Proof.
  intros [Hk Hpg Hinj Hin] Hno. split; [done| |done|].
  - intros q (path & Hl & Hx & Hq). by apply (Hpg path).
  - intros path q i Hl Hx Hi Hq HV. destruct (decide (length path = 2%nat)) as [H2|]; [|].
    2: { destruct (Hin path q i ltac:(lia) Hx Hi Hq HV) as [[HF _] _]. split; [lia|done]. }
    exfalso. destruct path as [|a [|b [|]]]; try done. apply Forall_cons in Hx as [Ha [Hb _]%Forall_cons].
    destruct (PX_make a b i Ha Hb Hi) as (E2 & E1 & E0). set (va := _ + _) in *.
    assert (Hp : pte_at (km_mem s) root va = load64 (km_mem s) (slot q i)) by (unfold pte_at; by rewrite E2, E1, E0, Hq).
    cbn [tbl] in Hq. destruct (ent (km_mem s) root a) as [t1|] eqn:Hea; [|done]. unfold ent in Hea.
    destruct (has _ PTE_V) eqn:HVa in Hea; [|done]. destruct (Hin [] root a) as [_ Hlow]; try done; [simpl; lia|]. specialize (Hlow eq_refl).
    assert (Hva : 0 ≤ va < MAXVA) by (unfold va, idx in *; rewrite MAXVA_eq; lia).
    specialize (Hno va Hva). rewrite Hp in Hno. congruence.
Qed.

Lemma uvmfree_spec s root l sz : uspace kend s root l → 0 ≤ sz ≤ TRAPFRAME →
  (∀ va, 0 ≤ va < MAXVA → has (pte_at (km_mem s) root va) PTE_V = true ↔ va < PGROUNDUP sz) →
  wp (uvmfree kend root sz) (λ _ s', ∃ l', kinv kend s' l' ∧
    (∀ q, q ∈ l' ↔ q ∈ l ∨ uses (km_mem s) root q) ∧
    (∀ q x, page_ok kend q → q ∉ l' → in_page q x → km_mem s' x = km_mem s x)) s.
Proof.
  intros Hus Hsz Hmap. assert (Htf := TRAPFRAME_eq). assert (Hmax := MAXVA_eq). unfold uvmfree.
  pose proof (PGROUNDUP_bounds sz ltac:(lia) ltac:(unfold PGSIZE; lia)) as Hb. pose proof (PGROUNDUP_aligned sz ltac:(lia) ltac:(unfold PGSIZE; lia)) as Ha.
  set (n := Z.to_nat (PGROUNDUP sz / PGSIZE)). assert (Hn : Z.of_nat n * PGSIZE = PGROUNDUP sz) by (unfold n, PGSIZE in *; zdm).
  assert (Htop : PGROUNDUP sz ≤ TRAPFRAME) by (unfold PGSIZE in *; rewrite Htf in *; zdm).
  assert (Hmp : ∀ va, mapped (km_mem s) root va ↔ 0 ≤ va < PGROUNDUP sz).
  { intros va. unfold mapped. split.
    - intros [Hr HV]. rewrite Hmap in HV by lia. lia.
    - intros Hr. rewrite Hmap by lia. lia. }
  set (pp := phys_pages (km_mem s) root 0 n).
  assert (Hpp : ∀ q, q ∈ pp ↔ ∃ va, mapped (km_mem s) root va ∧ upage (km_mem s) root va = q).
  { intros q. unfold pp. rewrite elem_phys_pages. split.
    - intros (k & Hk & ->). exists (0 + Z.of_nat k * PGSIZE). split; [|done]. apply Hmp. unfold PGSIZE in *. lia.
    - intros (va & Hva%Hmp & <-). exists (Z.to_nat (va / PGSIZE)). unfold PGSIZE in *. split; [zdm|].
      apply upage_same_page. unfold PGSIZE. zdm. }
  apply wp_step. eapply (wp_mono _ (λ _ s1, uspace kend s1 root (rev pp ++ l) ∧ (∀ va, 0 ≤ va < MAXVA → has (pte_at (km_mem s1) root va) PTE_V = false) ∧
    kept kend pp s s1 root l (rev pp ++ l) ∧ ∀ t, is_table (km_mem s1) root t ↔ is_table (km_mem s) root t)).
  { case_test.
    - rewrite <- Hn, Z.div_mul by done. eapply wp_mono; [apply (uvmunmap_pages kend Hend s root l 0 n); try done; [lia|]|].
      + intros va Hva. apply Hmp. lia.
      + intros _ s1 (Hu1 & Hp1 & Hk1 & Ht1). split; [done|]. split; [|done]. intros va Hva. rewrite Hp1 by done.
        case_decide as Hd; [done|]. apply not_true_iff_false. rewrite Hmap by done. lia.
    - assert (Hsz0 : sz = 0) by lia. assert (Hn0 : n = 0%nat) by (unfold n; rewrite Hsz0; done).
      apply wp_ret. unfold pp. rewrite Hn0. cbn [phys_pages seq fmap list_fmap rev app].
      split; [done|]. split; [|split; [apply kept_refl|done]].
      intros va Hva. apply not_true_iff_false. rewrite Hmap by done. rewrite Hsz0. change (PGROUNDUP 0) with 0. lia. }
  intros _ s1 (Hu1 & Hno & Hk1 & Ht1).
  eapply wp_mono; [apply (freewalk_spec 2 root s1 (rev pp ++ l)), empty_tree; [apply Hu1|done]|].
  intros _ s' (l' & Hk' & Hf' & Hm'). exists l'. split; [done|]. unfold uses. split.
  - intros q. rewrite Hf', elem_of_app, elem_of_rev, Hpp. change (node 2 (km_mem s1) root q) with (is_table (km_mem s1) root q). rewrite Ht1. tauto.
  - intros q x Hq Hql Hx. rewrite Hf', elem_of_app, elem_of_rev in Hql. destruct (Hk1 q) as (_ & Htq & Hmq); [done|tauto|tauto| |].
    { intros Ht%Ht1. tauto. }
    rewrite Hm'; [by apply Hmq|]. intros q' Hq' Hx'.
    apply (in_page_disjoint kend q q' x); try done; [|by intros <-].
    by destruct (is_table_ok kend s1 root _ q' (us_wf _ _ _ _ Hu1) Hq').
Qed.

(** Unmapping a page above user memory without freeing it. *)
Lemma unmap_top s root l va : uspace kend s root l → va mod PGSIZE = 0 → TRAPFRAME ≤ va → va + PGSIZE ≤ MAXVA →
  has (pte_at (km_mem s) root va) PTE_V = true → PTE_FLAGS (pte_at (km_mem s) root va) ≠ PTE_V →
  wp (uvmunmap kend root va 1 false) (λ _ s', uspace kend s' root l ∧ pte_unmap (km_mem s) (km_mem s') root va 1 ∧
    kept kend [] s s' root l l ∧ ∀ t, is_table (km_mem s') root t ↔ is_table (km_mem s) root t) s.
Proof.
  intros [Hwf Hu Hlf Hpg Hinj] Hal Hlo Hhi HV HF. assert (Htf := TRAPFRAME_eq). assert (Hmax := MAXVA_eq).
  unfold uvmunmap. rewrite Hal. simpl negb. cbv iota. rewrite u64_id by (unfold PGSIZE in *; lia). change (Z.to_nat 1) with 1%nat.
  change (1 * PGSIZE) with (Z.of_nat 1 * PGSIZE).
  eapply wp_mono; [apply (uvmunmap_loop_keep kend Hend 1 root va s l); try done; [lia|]|].
  { intros va' Hva'. rewrite (pte_at_same_page _ _ va' va) by (unfold PGSIZE in *; zdm). done. }
  intros _ s' (Hwf' & Hun & Hfr & Htb).
  assert (Hp : ∀ va', 0 ≤ va' < TRAPFRAME → pte_at (km_mem s') root va' = pte_at (km_mem s) root va').
  { intros va' Hva'. rewrite Hun by lia. by rewrite decide_False by lia. }
  assert (Hm : ∀ va', mapped (km_mem s') root va' ↔ mapped (km_mem s) root va').
  { intros va'. unfold mapped. split; intros [? HV']; (split; [done|]); [rewrite <- Hp|rewrite Hp]; done. }
  split; [split; [done|..]|split; [done|split; [|done]]].
  - intros va' (Hr & HV' & HU'). apply Hm, Hu. rewrite Hun in HV', HU' by done. case_decide; [done|]. done.
  - intros va' Hv. rewrite Hp by apply Hv. by apply Hlf, Hm.
  - intros va' Hv. unfold upage. rewrite Hp by apply Hv. rewrite Htb. by apply Hpg, Hm.
  - intros v1 v2 H1 H2. unfold upage. rewrite !Hp by (apply H1 || apply H2). apply Hinj; by apply Hm.
  - intros q Hq _ Hl Ht. split; [done|]. rewrite Htb. split; [done|]. intros x Hx. apply Hfr; [|by intros q' ?%not_elem_of_nil].
    intros t Ht' Hx'. destruct (is_table_ok kend s root l t Hwf Ht'). apply (in_page_disjoint kend t q x); try done. congruence.
Qed.

(** The memory of a process of size [sz]: user memory below [sz] and the two
    pages the kernel shares with the process at the top. *)
Record image (s : kmem) (root sz : Z) (l : list Z) : Prop := {
  im_space : uspace kend s root l;
  im_size : 0 ≤ sz ≤ TRAPFRAME;
  im_user : ∀ va, mapped (km_mem s) root va ↔ 0 ≤ va < PGROUNDUP sz;
  im_top : ∀ va, va = TRAPFRAME ∨ va = TRAMPOLINE →
    has (pte_at (km_mem s) root va) PTE_V = true ∧ PTE_FLAGS (pte_at (km_mem s) root va) ≠ PTE_V;
}.

Lemma image_unmap_top s root l sz : image s root sz l →
  wp (uvmunmap kend root TRAMPOLINE 1 false ;;; uvmunmap kend root TRAPFRAME 1 false) (λ _ s', uspace kend s' root l ∧
    (∀ va, 0 ≤ va < MAXVA → has (pte_at (km_mem s') root va) PTE_V = true ↔ va < PGROUNDUP sz) ∧
    kept kend [] s s' root l l ∧ (∀ q, uses (km_mem s') root q ↔ uses (km_mem s) root q)) s.
Proof.
  intros [Hus Hsz Hmp Htop]. assert (Htf := TRAPFRAME_eq). assert (Hmax := MAXVA_eq). assert (Htr : TRAMPOLINE = 2 ^ 38 - 4096) by done.
  pose proof (PGROUNDUP_bounds sz ltac:(lia) ltac:(unfold PGSIZE; lia)) as Hb. pose proof (PGROUNDUP_aligned sz ltac:(lia) ltac:(unfold PGSIZE; lia)) as Ha.
  assert (Hrt : PGROUNDUP sz ≤ TRAPFRAME) by (unfold PGSIZE in *; rewrite Htf in *; zdm).
  destruct (Htop TRAMPOLINE (or_intror eq_refl)) as [HV1 HF1]. destruct (Htop TRAPFRAME (or_introl eq_refl)) as [HV2 HF2].
  eapply wp_seq; [apply (unmap_top s root l TRAMPOLINE); try done; unfold PGSIZE; lia|]. intros _ s1 (Hu1 & Hp1 & Hk1 & Ht1).
  assert (Hs1 : pte_at (km_mem s1) root TRAPFRAME = pte_at (km_mem s) root TRAPFRAME).
  { rewrite Hp1 by lia. by rewrite decide_False by lia. }
  eapply wp_mono; [apply (unmap_top s1 root l TRAPFRAME); try done; rewrite ?Hs1; try done; unfold PGSIZE; lia|].
  intros _ s2 (Hu2 & Hp2 & Hk2 & Ht2). split; [done|].
  assert (Hp : ∀ va, 0 ≤ va < TRAPFRAME → pte_at (km_mem s2) root va = pte_at (km_mem s) root va).
  { intros va Hva. rewrite Hp2 by lia. rewrite decide_False by lia. rewrite Hp1 by lia. by rewrite decide_False by lia. }
  assert (Hm : ∀ va, mapped (km_mem s2) root va ↔ mapped (km_mem s) root va).
  { intros va. unfold mapped. split; intros [? HV]; (split; [done|]); [rewrite <- Hp|rewrite Hp]; done. }
  split; [|split; [by apply (kept_trans kend Hend [] [] s s1 s2 root l l l)|]].
  - intros va Hva. destruct (decide (va < TRAPFRAME)) as [Hlt|Hge].
    + transitivity (mapped (km_mem s2) root va); [|rewrite Hm, Hmp; lia]. unfold mapped. split; [by split; [lia|]|by intros [_ ?]].
    + split; [|lia]. rewrite Hp2 by lia. case_decide; [done|]. rewrite Hp1 by lia. rewrite decide_True by (unfold PGSIZE in *; lia). done.
  - intros q. unfold uses. rewrite Ht2, Ht1. apply or_iff_compat_l. split; intros (va & Hva & <-); exists va.
    + split; [by apply Hm|]. unfold upage. by rewrite Hp by apply Hva.
    + split; [by apply Hm|]. unfold upage. by rewrite Hp by apply Hva.
Qed.

Lemma freepagetable_spec s root l sz : image s root sz l →
  wp (proc_freepagetable kend root sz) (λ _ s', ∃ l', kinv kend s' l' ∧
    (∀ q, q ∈ l' ↔ q ∈ l ∨ uses (km_mem s) root q) ∧
    (∀ q x, page_ok kend q → q ∉ l' → in_page q x → km_mem s' x = km_mem s x)) s.
Proof.
  intros Him. pose proof (image_unmap_top s root l sz Him) as Hw. destruct Him as [_ Hsz _ _]. unfold proc_freepagetable.
  unfold wp. rewrite <- bind_assoc. apply wp_bind. eapply wp_mono; [exact Hw|]. intros _ s1 (Hu1 & Hv1 & Hk1 & Ho1).
  eapply wp_mono; [by apply (uvmfree_spec s1 root l sz)|]. intros _ s' (l' & Hk' & Hf' & Hm'). exists l'. split; [done|].
  assert (Hf : ∀ q, q ∈ l' ↔ q ∈ l ∨ uses (km_mem s) root q) by (intros q; by rewrite Hf', Ho1). split; [done|].
  intros q x Hq Hql Hx. rewrite (Hm' q x) by done. rewrite Hf in Hql. destruct (Hk1 q) as (_ & _ & Hmq); try done.
  - set_solver.
  - tauto.
  - unfold uses in Hql. tauto.
  - by apply Hmq.
Qed.

(** Mapping one page above user memory, not for the user. *)
Lemma map_top s root l va pa perm : uspace kend s root l → va mod PGSIZE = 0 → TRAPFRAME ≤ va → va + PGSIZE ≤ MAXVA →
  pa mod PGSIZE = 0 → 0 ≤ pa → pa + PGSIZE ≤ 2 ^ 56 → 0 ≤ perm < 1024 → Z.testbit perm 4 = false →
  has (pte_at (km_mem s) root va) PTE_V = false →
  wp (mappages root va PGSIZE pa perm) (λ r s', ∃ l', uspace kend s' root l' ∧ kept kend [] s s' root l l' ∧ conserves s s' root l l' ∧
    (r = 0 ∧ pte_map (km_mem s) (km_mem s') root va 1 pa perm ∨
     r = -1 ∧ ∀ va', 0 ≤ va' < MAXVA → pte_at (km_mem s') root va' = pte_at (km_mem s) root va')) s.
Proof.
  intros Hus Hal Hlo Hhi Hpa Hpa0 Hpat Hperm Hbit HV. assert (Htf := TRAPFRAME_eq). assert (Hmax := MAXVA_eq).
  eapply wp_mono; [apply (mappages_spec kend Hend root va PGSIZE pa perm s l); try done; [apply Hus|lia|]|].
  { intros va' Hva'. rewrite (pte_at_same_page _ _ va' va) by (unfold PGSIZE in *; zdm). done. }
  intros r s' (l' & k & Hg & Hmap & Hr). exists l'. change (PGSIZE / PGSIZE) with 1 in Hr.
  pose proof (grown_kept kend Hend s s' root l l' (us_wf _ _ _ _ Hus) Hg) as HK. destruct Hus as [Hwf Hu Hlf Hpg Hinj].
  assert (Hp : ∀ va', 0 ≤ va' < TRAPFRAME → pte_at (km_mem s') root va' = pte_at (km_mem s) root va').
  { intros va' Hva'. rewrite Hmap by lia. rewrite decide_False by lia. done. }
  assert (Hm : ∀ va', mapped (km_mem s') root va' ↔ mapped (km_mem s) root va').
  { intros va'. unfold mapped. split; intros [? HV']; (split; [done|]); [rewrite <- Hp|rewrite Hp]; done. }
  split; [split; [apply Hg|..]|split; [done|split]].
  - intros va' (Hr' & HV' & HU'). apply Hm, Hu. rewrite Hmap in HV', HU' by done. case_decide as Hd; [|done].
    exfalso. assert (Hk1 : k = 1) by (unfold PGSIZE in *; lia). rewrite has_U, testbit_mkpte in HU' by (done || unfold PGSIZE in *; zdm).
    rewrite Z.lor_spec, Hbit in HU'. done.
  - intros va' Hv. rewrite Hp by apply Hv. by apply Hlf, Hm.
  - intros va' Hv. unfold upage. rewrite Hp by apply Hv. destruct (Hpg va') as (? & ? & ?); [by apply Hm|].
    destruct (HK (upage (km_mem s) root va')) as (? & ? & _); try done. set_solver.
  - intros v1 v2 H1 H2. unfold upage. rewrite !Hp by (apply H1 || apply H2). apply Hinj; by apply Hm.
  - intros q. unfold uses. split.
    + intros [Hq|[(path & H1 & H2 & H3)|(va' & Hv & <-)]].
      * destruct (gr_used _ _ _ _ _ _ Hg q Hq); tauto.
      * right. left. exists path. split; [done|]. split; [done|]. by apply (gr_tbl _ _ _ _ _ _ Hg).
      * right. right. exists va'. split; [by apply Hm|]. unfold upage. by rewrite Hp by apply Hv.
    + destruct (gr_free _ _ _ _ _ _ Hg) as [l1 Hl1]. intros [Hq|[Hq|(va' & Hv & <-)]].
      * left. rewrite Hl1. set_solver.
      * destruct (gr_new _ _ _ _ _ _ Hg q Hq); tauto.
      * right. right. exists va'. split; [by apply Hm|]. unfold upage. by rewrite Hp by apply Hv.
  - destruct Hr as [[-> ->]|(-> & Hk & _)]; [by left|right]. assert (Hk0 : k = 0) by lia. rewrite Hk0 in Hmap.
    split; [done|]. intros va' Hva'. rewrite Hmap by done. by rewrite decide_False by lia.
Qed.

(** An address space without memory is given back entirely. *)
Lemma uvmfree_empty s root l : uspace kend s root l → (∀ va, 0 ≤ va < MAXVA → has (pte_at (km_mem s) root va) PTE_V = false) →
  wp (uvmfree kend root 0) (λ _ s', ∃ l', kinv kend s' l' ∧ (∀ q, q ∈ l' ↔ q ∈ l ∨ is_table (km_mem s) root q) ∧
    (∀ q x, page_ok kend q → q ∉ l' → in_page q x → km_mem s' x = km_mem s x)) s.
Proof.
  intros Hus Hno. eapply wp_mono; [apply (uvmfree_spec s root l 0); [done|rewrite TRAPFRAME_eq; lia|]|].
  { intros va Hva. rewrite Hno by done. change (PGROUNDUP 0) with 0. split; [done|lia]. }
  intros _ s' (l' & Hk & Hf & Hm). exists l'. split; [done|]. split; [|done]. intros q. rewrite Hf. unfold uses.
  split; [|tauto]. intros [?|[?|(va & Hva & <-)]]; [tauto|tauto|]. destruct Hva as [Hr HV]. rewrite Hno in HV; [done|].
  rewrite MAXVA_eq. rewrite TRAPFRAME_eq in Hr. lia.
Qed.

(** What is in use by others keeps its bytes and stays in use. *)
Definition stays (s s' : kmem) (l l' : list Z) (P : Z → Prop) : Prop :=
  ∀ q, page_ok kend q → q ∉ l → q ∉ l' ∧ ¬ P q ∧ ∀ x, in_page q x → km_mem s' x = km_mem s x.

Lemma proc_pagetable_spec trampoline tf s l : kinv kend s l → page_ok kend tf →
  trampoline mod PGSIZE = 0 → 0 ≤ trampoline → trampoline + PGSIZE ≤ 2 ^ 56 →
  wp (proc_pagetable kend trampoline tf) (λ r s', ∃ l', kinv kend s' l' ∧
    (r = 0 ∧ stays s s' l l' (λ _, False) ∧ (∀ q, q ∈ l ↔ q ∈ l') ∨
     r ≠ 0 ∧ image s' r 0 l' ∧ stays s s' l l' (uses (km_mem s') r) ∧ (∀ q, q ∈ l ↔ q ∈ l' ∨ uses (km_mem s') r q) ∧ pte_at (km_mem s') r TRAPFRAME = mkpte tf (Z.lor PTE_R PTE_W) ∧
       pte_at (km_mem s') r TRAMPOLINE = mkpte trampoline (Z.lor PTE_R PTE_X))) s.
Proof.
  intros Hk Htf Htr Htr0 Htrt. assert (Etf := TRAPFRAME_eq). assert (Hmax := MAXVA_eq). assert (Etr : TRAMPOLINE = 2 ^ 38 - 4096) by done.
  pose proof (page_ok_range kend Hend tf Htf) as [Htfr Htfa].
  assert (Htrl : trampoline < 2 ^ 56) by (unfold PGSIZE in *; lia).
  unfold proc_pagetable. eapply wp_seq; [apply (uvmcreate_spec kend Hend s l Hk)|]. intros root s1 Hr.
  destruct l as [|p l1].
  { destruct Hr as [-> ->]. apply wp_ret. exists []. split; [done|]. left. split; [done|]. split; [|done]. intros q Hq Hl. split; [done|]. auto. }
  destruct Hr as (-> & Hu1 & Hz & Ht1 & Hm1).
  assert (Hpok : page_ok kend p) by (destruct Hk as (_ & _ & Hok); by apply Forall_cons in Hok as [? _]).
  pose proof (page_ok_range kend Hend p Hpok). destruct (Z.eqb_spec p 0); [lia|].
  assert (Hst1 : ∀ q, page_ok kend q → q ∉ p :: l1 → q ∉ l1 ∧ ¬ is_table (km_mem s1) p q ∧ ∀ x, in_page q x → km_mem s1 x = km_mem s x).
  { intros q Hq Hl. split; [set_solver|]. split; [intros ->%Ht1; set_solver|]. intros x Hx. apply Hm1. intros Hx'.
    apply (in_page_disjoint kend q p x); try done. set_solver. }
  assert (Hc1 : ∀ q, q ∈ p :: l1 ↔ q ∈ l1 ∨ uses (km_mem s1) p q).
  { intros q. rewrite elem_of_cons. split; [intros [->|?]; [right; left; apply node_root|by left]|].
    intros [?|[->%Ht1|(va & [_ HV] & _)]]; [tauto|tauto|]. rewrite Hz in HV. done. }
  assert (Hgo : ∀ s2 l2, kept kend [] s1 s2 p l1 l2 → ∀ q, page_ok kend q → q ∉ p :: l1 →
    q ∉ l2 ∧ ¬ is_table (km_mem s2) p q ∧ ∀ x, in_page q x → km_mem s2 x = km_mem s x).
  { intros s2 l2 HK q Hq Hl. destruct (Hst1 q Hq Hl) as (H1 & H2 & H3). destruct (HK q) as (H4 & H5 & H6); try done; [set_solver|].
    split; [done|]. split; [done|]. intros x Hx. by rewrite H6, H3. }
  assert (Hfail : ∀ s2 l2, kept kend [] s1 s2 p l1 l2 → conserves s1 s2 p l1 l2 → uspace kend s2 p l2 →
    (∀ va, 0 ≤ va < MAXVA → has (pte_at (km_mem s2) p va) PTE_V = false) →
    wp (uvmfree kend p 0 ;;; ret 0) (λ r s', ∃ l', kinv kend s' l' ∧ (r = 0 ∧ stays s s' (p :: l1) l' (λ _, False) ∧ (∀ q, q ∈ p :: l1 ↔ q ∈ l'))) s2).
  { intros s2 l2 HK Hc Hu2 Hno. eapply wp_seq; [by apply (uvmfree_empty s2 p l2)|]. intros _ s' (l' & Hk' & Hf' & Hm').
    apply wp_ret. exists l'. split; [done|]. split; [done|]. split.
    2:{ intros q. rewrite (Hc1 q), (Hc q), Hf'. unfold uses. split; [|tauto].
        intros [?|[?|(va & [Hr HV] & _)]]; [tauto|tauto|]. rewrite Hno in HV; [done|lia]. }
    intros q Hq Hl. destruct (Hgo s2 l2 HK q Hq Hl) as (H4 & H5 & H6).
    assert (Hql : q ∉ l') by (rewrite Hf'; tauto). split; [done|]. split; [auto|]. intros x Hx. by rewrite (Hm' q x), H6. }
  eapply wp_seq; [apply (map_top s1 p l1 TRAMPOLINE trampoline (Z.lor PTE_R PTE_X)); try done; by rewrite Hz|].
  intros r2 s2 (l2 & Hu2 & HK2 & Hc2 & Hr2). destruct Hr2 as [[-> Hp2]|[-> Hp2]].
  2:{ cbn [Z.ltb Z.compare]. eapply wp_mono; [apply (Hfail s2 l2); [done|done|done|]|].
      - intros va Hva. by rewrite Hp2, Hz.
      - intros r s' (l' & Hk' & Hr'). exists l'. split; [done|]. by left. }
  cbn [Z.ltb Z.compare].
  assert (Hp2' : ∀ va, 0 ≤ va < MAXVA → pte_at (km_mem s2) p va = if decide (TRAMPOLINE ≤ va) then mkpte trampoline (Z.lor PTE_R PTE_X) else 0).
  { intros va Hva. rewrite Hp2 by done. rewrite Hz. repeat case_decide; try (unfold PGSIZE in *; lia).
    f_equal. unfold PGSIZE in *. zdm. }
  eapply wp_seq; [apply (map_top s2 p l2 TRAPFRAME tf (Z.lor PTE_R PTE_W)); try done; try (unfold PGSIZE in *; lia)|].
  { rewrite Hp2' by lia. by rewrite decide_False by lia. }
  intros r3 s3 (l3 & Hu3 & HK3 & Hc3 & Hr3). assert (Hc13 : conserves s1 s3 p l1 l3) by (by eapply conserves_trans). pose proof (kept_trans kend Hend [] [] s1 s2 s3 p l1 l2 l3 HK2 HK3) as HK13.
  destruct Hr3 as [[-> Hp3]|[-> Hp3]].
  2:{ cbn [Z.ltb Z.compare]. eapply wp_seq; [apply (unmap_top s3 p l3 TRAMPOLINE); try done|].
      - rewrite Hp3, Hp2', decide_True by lia. apply has_V_mkpte; [lia|done|done].
      - rewrite Hp3, Hp2', decide_True by lia. rewrite PTE_FLAGS_mkpte by (done || lia). done.
      - intros _ s4 (Hu4 & Hp4 & HK4 & Ht4). pose proof (kept_trans kend Hend [] [] s1 s3 s4 p l1 l3 l3 HK13 HK4) as HK14.
        eapply wp_mono; [apply (Hfail s4 l3); [done| |done|]|].
        + intros q. rewrite (Hc13 q). unfold uses. rewrite Ht4.
          assert (Hn3 : ∀ va, ¬ mapped (km_mem s3) p va) by (intros va [Hr HV]; rewrite Hp3, Hp2', decide_False in HV by lia; done).
          assert (Hn4 : ∀ va, ¬ mapped (km_mem s4) p va).
          { intros va [Hr HV]. apply (Hn3 va). split; [done|]. rewrite Hp4 in HV by lia. by case_decide. }
          split; (intros [?|[?|(va & Hva & _)]]; [tauto|tauto|]); [by apply Hn3 in Hva|by apply Hn4 in Hva].
        + intros va Hva. rewrite Hp4 by done. case_decide; [done|]. rewrite Hp3, Hp2' by done.
          rewrite decide_False by (unfold PGSIZE in *; lia). done.
        + intros r s' (l' & Hk' & Hr'). exists l'. split; [done|]. by left. }
  cbn [Z.ltb Z.compare]. apply wp_ret. exists l3. split; [apply Hu3|]. right. split; [done|].
  assert (Hp : ∀ va, 0 ≤ va < MAXVA → pte_at (km_mem s3) p va =
    if decide (TRAMPOLINE ≤ va) then mkpte trampoline (Z.lor PTE_R PTE_X) else if decide (TRAPFRAME ≤ va) then mkpte tf (Z.lor PTE_R PTE_W) else 0).
  { intros va Hva. rewrite Hp3, Hp2' by done. repeat case_decide; try (unfold PGSIZE in *; lia); try done.
    f_equal. unfold PGSIZE in *. zdm. }
  assert (Hno : ∀ va, ¬ mapped (km_mem s3) p va).
  { intros va [Hr HV]. rewrite Hp, !decide_False in HV by lia. done. }
  split; [split; [done|lia| |]|split; [|split; [intros q; by rewrite (Hc1 q), (Hc13 q)|split]]].
  - intros va. change (PGROUNDUP 0) with 0. split; [by intros ?%Hno|lia].
  - intros va [-> | ->].
    + rewrite Hp, decide_False, decide_True by lia. split; [apply has_V_mkpte; (done || lia)|]. rewrite PTE_FLAGS_mkpte by (done || lia). done.
    + rewrite Hp, decide_True by lia. split; [apply has_V_mkpte; (done || lia)|]. rewrite PTE_FLAGS_mkpte by (done || lia). done.
  - intros q Hq Hl. destruct (Hgo s3 l3 HK13 q Hq Hl) as (H4 & H5 & H6). split; [done|]. split; [|done].
    intros [?|(va & Hva & _)]; [done|]. by apply Hno in Hva.
  - by rewrite Hp, decide_False, decide_True by lia.
  - by rewrite Hp, decide_True by lia.
Qed.

Lemma PGROUNDUP_mono a b : 0 ≤ a ≤ b → b ≤ TRAPFRAME → PGROUNDUP a ≤ PGROUNDUP b ≤ TRAPFRAME.
Proof.
  intros Ha Hb. assert (Htf := TRAPFRAME_eq).
  pose proof (PGROUNDUP_bounds a ltac:(lia) ltac:(unfold PGSIZE; lia)). pose proof (PGROUNDUP_aligned a ltac:(lia) ltac:(unfold PGSIZE; lia)).
  pose proof (PGROUNDUP_bounds b ltac:(lia) ltac:(unfold PGSIZE; lia)). pose proof (PGROUNDUP_aligned b ltac:(lia) ltac:(unfold PGSIZE; lia)).
  unfold PGSIZE in *. rewrite Htf in *. zdm.
Qed.

(** Growing the memory of a process. *)
Lemma image_grow s root sz l newsz xperm : image s root sz l → sz ≤ newsz ≤ TRAPFRAME → 0 ≤ xperm < 1024 →
  ∃ r s' l', uvmalloc kend root sz newsz xperm s = Ok r s' ∧ kept kend [] s s' root l l' ∧ conserves s s' root l l' ∧
    (r = newsz ∧ image s' root newsz l' ∧ alloced s s' root (PGROUNDUP sz) (PGROUNDUP newsz) (Z.lor (Z.lor PTE_R PTE_U) xperm) ∨
     r = 0 ∧ image s' root sz l' ∧
       (∀ va, mapped (km_mem s) root va → uread (km_mem s') root va = uread (km_mem s) root va)).
Proof.
  intros [Hus Hsz Hmp Htop] Hnew Hx. assert (Htf := TRAPFRAME_eq). assert (Hmax := MAXVA_eq).
  assert (Etr : TRAMPOLINE = 2 ^ 38 - 4096) by done.
  pose proof (PGROUNDUP_mono sz newsz ltac:(lia) ltac:(lia)) as Hr. pose proof (PGROUNDUP_bounds sz ltac:(lia) ltac:(unfold PGSIZE; lia)) as Hb.
  destruct (uvmalloc_spec kend root sz newsz xperm s l) as (r & s' & l' & He & Hus' & HK & Hc & Hcase); try done; try lia.
  { intros va Hva. apply not_true_iff_false. intros HV. assert (Hm : mapped (km_mem s) root va) by (split; [lia|done]).
    apply Hmp in Hm. lia. }
  exists r, s', l'. split; [done|]. split; [done|]. split; [done|]. destruct Hcase as [[-> [N O R]]|(-> & Hv & Hrd)]; [left|right].
  - split; [done|]. split; [|by split]. split; [done|lia| |].
    + intros va. unfold mapped. destruct (decide (PGROUNDUP sz ≤ va < PGROUNDUP newsz)) as [Hin|Hin].
      * destruct (N va Hin) as ((_ & HV & _) & _). split; [lia|]. intros _. split; [lia|done].
      * split.
        -- intros [Hr' HV]. rewrite O in HV by lia. assert (Hm : mapped (km_mem s) root va) by done. apply Hmp in Hm. lia.
        -- intros Hva. assert (Hm : mapped (km_mem s) root va) by (apply Hmp; lia). destruct Hm as [? HV]. split; [done|]. by rewrite O by lia.
    + intros va Hva. rewrite O by (destruct Hva; lia). by apply Htop.
  - split; [done|]. split; [|done].
    assert (Hvv : ∀ va, 0 ≤ va < MAXVA → has (pte_at (km_mem s') root va) PTE_V = has (pte_at (km_mem s) root va) PTE_V ∧
      (has (pte_at (km_mem s) root va) PTE_V = true → pte_at (km_mem s') root va = pte_at (km_mem s) root va)).
    { intros va Hva. specialize (Hv va Hva). unfold vpte in Hv.
      destruct (has (pte_at (km_mem s') root va) PTE_V) eqn:E1, (has (pte_at (km_mem s) root va) PTE_V) eqn:E2; try done.
      - rewrite Hv in E1. done.
      - rewrite <- Hv in E2. done. }
    split; [done|done| |].
    + intros va. rewrite <- Hmp. unfold mapped. split; intros [? HV]; (split; [done|]); destruct (Hvv va); congruence || lia.
    + intros va Hva. destruct (Hvv va) as [_ ->]; [destruct Hva; lia| |]; by apply Htop.
Qed.
End VmFree.

(** ** Properties *)

(** C4: the memory of a process is given back entirely.  An address space is
    built with [proc_pagetable], grown to any size with [uvmalloc] and released
    with [proc_freepagetable], as [exec] does with an image it gives up.  At
    whatever point memory runs out, nothing panics, afterwards exactly the pages
    that were free are free, and no page that was in use has changed. *)
Theorem address_space_returned (kend trampoline tf sz xperm : Z) (s : kmem) (l : list Z)
    (Hend : KERNBASE ≤ kend) (Hk : kinv kend s l) (Htf : page_ok kend tf)
    (Htr : trampoline mod PGSIZE = 0 ∧ 0 ≤ trampoline ∧ trampoline + PGSIZE ≤ 2 ^ 56)
    (Hsz : 0 ≤ sz ≤ TRAPFRAME) (Hx : 0 ≤ xperm < 1024) :
  ∃ r s' l', (do root <- proc_pagetable kend trampoline tf;
              if root =? 0 then ret 0
              else
                do r <- uvmalloc kend root 0 sz xperm;
                proc_freepagetable kend root r ;;;
                ret r) s = Ok r s' ∧
    (r = 0 ∨ r = sz) ∧ kinv kend s' l' ∧ l' ≡ₚ l ∧
    (∀ q x, page_ok kend q → q ∉ l → in_page q x → km_mem s' x = km_mem s x).
Proof.
  destruct Htr as (Htr & Htr0 & Htrt).
  assert (Hperm : ∀ s' l', kinv kend s' l' → (∀ q, q ∈ l ↔ q ∈ l') → l' ≡ₚ l).
  { intros s' l' (_ & Hd' & _) Hq. destruct Hk as (_ & Hd & _). by apply NoDup_Permutation; [..|intros q; rewrite Hq]. }
  destruct (wp_inv _ _ _ (proc_pagetable_spec kend Hend trampoline tf s l Hk Htf Htr Htr0 Htrt)) as (root & s1 & E1 & l1 & Hk1 & Hr).
  rewrite (bind_Ok _ _ _ _ _ E1). destruct Hr as [(-> & Hst & Hc)|(Hne & Him & Hst & Hc & _)].
  { exists 0, s1, l1. split; [done|]. split; [by left|]. split; [done|]. split; [by apply (Hperm s1)|].
    intros q x Hq Hl. by apply (Hst q). }
  apply Z.eqb_neq in Hne as ->.
  destruct (image_grow kend Hend s1 root 0 l1 sz xperm Him ltac:(lia) Hx) as (r & s2 & l2 & E2 & HK2 & Hc2 & Hcase).
  rewrite (bind_Ok _ _ _ _ _ E2).
  assert (Him2 : image kend s2 root r l2 ∧ (r = 0 ∨ r = sz)) by (destruct Hcase as [(-> & ? & _)|(-> & ? & _)]; auto).
  destruct Him2 as [Him2 Hrr].
  destruct (wp_inv _ _ _ (freepagetable_spec kend Hend s2 root l2 r Him2)) as ([] & s3 & E3 & l3 & Hk3 & Hf3 & Hm3).
  rewrite (bind_Ok _ _ _ _ _ E3). exists r, s3, l3. split; [done|]. split; [done|]. split; [done|].
  assert (Hf : ∀ q, q ∈ l ↔ q ∈ l3) by (intros q; by rewrite Hf3, (Hc q), (Hc2 q)). split; [by apply (Hperm s3)|].
  intros q x Hq Hl Hx'. rewrite (Hm3 q x) by (done || by rewrite <- Hf).
  destruct (Hst q Hq Hl) as (Hl1 & Hu1 & Hx1). destruct (HK2 q) as (_ & _ & Hx2); try done; [set_solver|intros Ht; apply Hu1; by left|].
  by rewrite Hx2, Hx1.
Qed.

(** A process with two pages of memory, on a machine with ten free pages of which
    the first becomes its trapframe. *)
Definition demo_tf : Z := value_of 0 (kalloc demo_free).
Definition demo_tf_state : kmem := state_of demo_free (kalloc demo_free).

Lemma demo_tf_ok : ∃ l, kinv demo_kend demo_tf_state l ∧ page_ok demo_kend demo_tf.
Proof.
  destruct (wp_inv _ _ _ (kinit_spec demo_kend demo_kend_ok (mkKmem (λ _, 0) 0)
    ltac:(unfold demo_kend; lia) eq_refl)) as ([] & s1 & Hi & l & Hk & Hl & _).
  assert (Hf : demo_free = s1) by (unfold demo_free; rewrite Hi; reflexivity).
  destruct (wp_inv _ _ _ (kalloc_spec demo_kend s1 l Hk)) as (r & s2 & Ha & Hr).
  assert (Hr' : demo_tf = r) by (unfold demo_tf; rewrite Hf, Ha; reflexivity).
  assert (Hs' : demo_tf_state = s2) by (unfold demo_tf_state; rewrite Hf, Ha; reflexivity).
  rewrite Hr', Hs'. destruct l as [|p l].
  - destruct (not_elem_of_nil (PHYSTOP - 4096)). apply Hl. unfold demo_kend, page_ok, PHYSTOP, KERNBASE, PGSIZE. split; [done|lia].
  - destruct Hr as (-> & Hk' & _). exists l. split; [exact Hk'|]. destruct Hk as (_ & _ & Hok). by apply Forall_cons in Hok as [? _].
Qed.

Lemma address_space_returned_witness : ∃ r s' l l', kinv demo_kend demo_tf_state l ∧
  (do root <- proc_pagetable demo_kend KERNBASE demo_tf;
   if root =? 0 then ret 0
   else
     do r <- uvmalloc demo_kend root 0 5000 PTE_W;
     proc_freepagetable demo_kend root r ;;;
     ret r) demo_tf_state = Ok r s' ∧ kinv demo_kend s' l' ∧ l' ≡ₚ l.
Proof.
  destruct demo_tf_ok as (l & Hk & Htf).
  destruct (address_space_returned demo_kend KERNBASE demo_tf 5000 PTE_W demo_tf_state l demo_kend_ok Hk Htf) as (r & s' & l' & E & _ & Hk' & Hp & _).
  - vm_compute. intuition congruence.
  - vm_compute. intuition congruence.
  - vm_compute. intuition congruence.
  - exists r, s', l, l'. split; [exact Hk|]. split; [exact E|]. split; [exact Hk'|exact Hp].
Defined.
