(* ===== verification/UserInit.v ===== *)
(** * UserInit: the first process (userinit of kernel/proc.c)

    With the process table as [procinit] leaves it and a few free pages,
    [userinit] makes one process that will run [initcode]. *)
From stdpp Require Import functions.
From S2P Require Import Prelude Riscv CString Kalloc Vm VmSpec VmUser Kvm Spinlock Proc VmFree.

(** ** An address space of one page *)

(** The tables: those for the top of the address space and those for its first page. *)
Definition user_paths : list (list Z) := [[]; [255]; [255; 511]; [0]; [0; 0]].
Definition user_pages : nat := 6.

Definition URWX : Z := Z.lor (Z.lor (Z.lor PTE_W PTE_R) PTE_X) PTE_U.
Definition top_regions (trampoline tf : Z) : list region :=
  [mkRegion TRAPFRAME PGSIZE tf (Z.lor PTE_R PTE_W); mkRegion TRAMPOLINE PGSIZE trampoline (Z.lor PTE_R PTE_X)].
Definition first_regions (trampoline tf p : Z) : list region := mkRegion 0 PGSIZE p URWX :: top_regions trampoline tf.

Lemma user_needs va : 0 ≤ va < PGSIZE ∨ TRAPFRAME ≤ va < MAXVA → needs user_paths va.
Proof.
  intros Hva. unfold needs. rewrite !PX_eq by lia. change (2 ^ PXSHIFT 2) with 1073741824. change (2 ^ PXSHIFT 1) with 2097152.
  change MAXVA with 274877906944 in Hva. rewrite TRAPFRAME_eq in Hva. unfold PGSIZE in Hva.
  assert (E : va / 1073741824 mod 512 = 0 ∧ va / 2097152 mod 512 = 0 ∨ va / 1073741824 mod 512 = 255 ∧ va / 2097152 mod 512 = 511)
    by (destruct Hva as [?|?]; [left|right]; zdm).
  unfold user_paths. destruct E as [[-> ->]|[-> ->]]; set_solver.
Qed.

Section First.
Context (kend trampoline tf : Z).
Hypothesis Hend : KERNBASE ≤ kend.
Hypothesis Htr : trampoline mod PGSIZE = 0 ∧ 0 ≤ trampoline ∧ trampoline + PGSIZE ≤ 2 ^ 56.
Hypothesis Htf : page_ok kend tf.
Lemma first_pte p va : 0 ≤ va < MAXVA → pte_of (first_regions trampoline tf p) va =
  if decide (va < PGSIZE) then mkpte p URWX else if decide (TRAMPOLINE ≤ va) then mkpte trampoline (Z.lor PTE_R PTE_X)
  else if decide (TRAPFRAME ≤ va) then mkpte tf (Z.lor PTE_R PTE_W) else 0.
Proof.
  intros Hva. assert (Etf := TRAPFRAME_eq). assert (Emax : MAXVA = 2 ^ 38) by done. assert (Etr : TRAMPOLINE = 2 ^ 38 - 4096) by done.
  unfold first_regions, top_regions. cbn [pte_of]. unfold covers. cbn [rg_va rg_size rg_pa rg_perm].
  repeat case_decide; try (unfold PGSIZE in *; lia); try done; f_equal; unfold PGSIZE in *; zdm.
Qed.

Context (l0 : list Z) (m0 : mem).
Hypothesis Hnd : NoDup l0.
Hypothesis Hlen : (user_pages < length l0)%nat.
Notation built := (building kend user_paths l0 m0).

Lemma top_done root s l rg rs : rg :: rs `suffix_of` top_regions trampoline tf → built root s l [] rs →
  wp (mappages root (rg_va rg) (rg_size rg) (rg_pa rg) (rg_perm rg)) (λ r s', r = 0 ∧ (∀ q x, q ∈ [] → in_page q x → km_mem s' x = km_mem s x) ∧ ∃ l', built root s' l' [] (rg :: rs)) s.
Proof.
  intros Hsuf Hb. pose proof (page_ok_range kend Hend tf Htf) as [Htf0 Htf1]. destruct Htr as (T1 & T2 & T3).
  assert (Etf := TRAPFRAME_eq). assert (Emax : MAXVA = 2 ^ 38) by done. assert (Etr : TRAMPOLINE = 2 ^ 38 - 4096) by done.
  assert (Hor : rg = mkRegion TRAPFRAME PGSIZE tf (Z.lor PTE_R PTE_W) ∧ rs = [mkRegion TRAMPOLINE PGSIZE trampoline (Z.lor PTE_R PTE_X)] ∨
    rg = mkRegion TRAMPOLINE PGSIZE trampoline (Z.lor PTE_R PTE_X) ∧ rs = []).
  { unfold top_regions in Hsuf. apply suffix_cons_inv in Hsuf as [[= -> ->]|Hsuf]; [by left|].
    apply suffix_cons_inv in Hsuf as [[= -> ->]|Hsuf]; [by right|]. by apply suffix_nil_inv in Hsuf. }
  apply (mappages_done kend Hend user_paths l0 m0 root Hnd s l [] rs rg Hb).
  - destruct Hor as [[-> _]|[-> _]]; split; cbn [rg_va rg_size rg_pa rg_perm]; (repeat split; try done; unfold PGSIZE in *; lia).
  - intros va Hva. apply user_needs. right. destruct Hor as [[-> _]|[-> _]]; unfold covers in Hva; cbn [rg_va rg_size] in Hva; unfold PGSIZE in *; lia.
  - intros va Hva r' Hr'. destruct Hor as [[-> ->]|[-> ->]]; [|by apply not_elem_of_nil in Hr'].
    apply list_elem_of_singleton in Hr' as ->. unfold covers in *. cbn [rg_va rg_size] in *. unfold PGSIZE in *. lia.
  - cbn [length user_paths]. unfold user_pages in Hlen. lia.
Qed.

Lemma proc_pagetable_done s : kinv kend s l0 → km_mem s = m0 →
  wp (proc_pagetable kend trampoline tf) (λ root s', root ≠ 0 ∧ ∃ l', built root s' l' [] (top_regions trampoline tf)) s.
Proof.
  intros Hk Hm. assert (Hex : ∃ root l, l0 = root :: l) by (generalize Hlen; generalize l0; intros [|r l] Hl; [simpl in Hl; lia|by exists r, l]).
  destruct Hex as (root & l & El). assert (Hrok : page_ok kend root) by (destruct Hk as (_ & _ & Hok); rewrite El in Hok; by apply Forall_cons in Hok as [? _]).
  pose proof (page_ok_range kend Hend root Hrok) as [Hr0 _].
  unfold proc_pagetable. eapply wp_seq with (λ r s', r = root ∧ built root s' l [] []).
  { unfold uvmcreate. eapply wp_seq; [apply (new_root kend user_paths l0 m0 root l s); try done; apply list_elem_of_here|]. intros r s1 [-> Hb].
    rewrite (proj2 (Z.eqb_neq root 0)) by lia. apply wp_bind. unfold memset_page, wp at 1, modify. by apply wp_ret. }
  intros r s1 [-> Hb1]. rewrite (proj2 (Z.eqb_neq root 0)) by lia.
  eapply wp_seq; [apply (top_done root s1 l (mkRegion TRAMPOLINE PGSIZE trampoline (Z.lor PTE_R PTE_X)) []); [apply suffix_cons_r; reflexivity|done]|].
  intros r s2 (-> & _ & l2 & Hb2). cbn [Z.ltb Z.compare].
  eapply wp_seq; [apply (top_done root s2 l2 (mkRegion TRAPFRAME PGSIZE tf (Z.lor PTE_R PTE_W))) in Hb2; [exact Hb2|reflexivity]|].
  intros r s3 (-> & _ & l3 & Hb3). cbn [Z.ltb Z.compare]. apply wp_ret. split; [lia|]. by exists l3.
Qed.

(** What the page of the program holds: the bytes of [src], then zeros. *)
Definition page_of (src : list Z) (m : mem) (p : Z) : Prop := ∀ i, 0 ≤ i < PGSIZE → m (p + i) = nth (Z.to_nat i) src 0.

Lemma uvmfirst_done root s l src : built root s l [] (top_regions trampoline tf) → Z.of_nat (length src) < PGSIZE →
  wp (uvmfirst root src) (λ _ s', ∃ p l', built root s' l' [p] (first_regions trampoline tf p) ∧ page_of src (km_mem s') p ∧ p ≠ 0) s.
Proof.
  intros Hb Hsrc. assert (Hlen' := Hlen). unfold user_pages in Hlen'. unfold uvmfirst. rewrite (proj2 (Z.leb_gt PGSIZE _)) by done.
  destruct l as [|p l]; [exfalso; eapply (building_enough kend user_paths l0 m0 root Hnd); [exact Hb|cbn [length user_paths]; lia|done]|].
  eapply wp_seq; [exact (building_kalloc kend Hend user_paths l0 m0 root s p l [] _ Hb)|]. intros r s1 (-> & Hp0 & Hpok & Hb1 & _).
  assert (Hin : p ∈ [p]) by apply list_elem_of_here. pose proof (page_ok_range kend Hend p Hpok) as [Hp1 Hp2].
  apply wp_bind. unfold memset_page, wp at 1, modify.
  apply (building_write kend user_paths l0 m0 root s1 (memset (km_mem s1) p 0 PGSIZE) _ _ _ p) in Hb1; [|done|].
  2:{ intros x Hx. rewrite memset_spec by done. by rewrite decide_False. }
  set (s2 := set_mem _ s1) in *. assert (Hz : ∀ x, in_page p x → km_mem s2 x = 0) by (intros x Hx; cbn; rewrite memset_spec by done; by rewrite decide_True).
  clearbody s2. assert (Etf := TRAPFRAME_eq). assert (Emax : MAXVA = 2 ^ 38) by done. assert (Etr : TRAMPOLINE = 2 ^ 38 - 4096) by done.
  eapply wp_seq; [apply (mappages_done kend Hend user_paths l0 m0 root Hnd s2 l [p] _ (mkRegion 0 PGSIZE p URWX) Hb1)|].
  - split; cbn [rg_va rg_size rg_pa rg_perm]; repeat split; try done; unfold PGSIZE in *; lia.
  - intros va Hva. apply user_needs. left. exact Hva.
  - intros va Hva r' Hr'. unfold top_regions in Hr'. unfold covers in *. cbn [rg_va rg_size] in Hva.
    repeat (apply elem_of_cons in Hr' as [->|Hr']; [cbn [rg_va rg_size]; unfold PGSIZE in *; lia|]). by apply not_elem_of_nil in Hr'.
  - cbn [length user_paths]. lia.
  - intros r s3 (_ & Hkeep & l3 & Hb3). exists p, l3.
    split; [apply (building_write kend user_paths l0 m0 root s3 _ _ _ _ p Hb3 Hin); intros x Hx; apply write_bytes_out; unfold in_page, PGSIZE in *; lia|].
    split; [|done]. intros i Hi. cbn [km_mem set_mem]. destruct (decide (i < Z.of_nat (length src))) as [Hlt|Hge].
    + destruct (lookup_lt_is_Some_2 src (Z.to_nat i)) as [v Hv]; [lia|]. rewrite (nth_lookup_Some _ _ _ _ Hv).
      rewrite <- (write_bytes_in (km_mem s3) p src (Z.to_nat i) v Hv). by rewrite Z2Nat.id by lia.
    + rewrite write_bytes_out by lia. rewrite nth_overflow by lia. rewrite (Hkeep p) by (done || unfold in_page; lia). apply Hz. unfold in_page. lia.
Qed.

Lemma first_image root s l p : built root s l [p] (first_regions trampoline tf p) → image kend s root PGSIZE l ∧ ∀ va, mapped (km_mem s) root va → upage (km_mem s) root va = p.
Proof.
  intros [Hwf HA Hf Ht Hs Hall Hp Hm]. destruct (Hs p (list_elem_of_here _ _)) as (Hp0 & Hpl & Hpok & Hpt).
  pose proof (page_ok_range kend Hend p Hpok) as [Hr1 Hr2]. pose proof (page_ok_range kend Hend tf Htf) as [Hr3 Hr4]. destruct Htr as (T1 & T2 & T3).
  assert (Etf := TRAPFRAME_eq). assert (Emax : MAXVA = 2 ^ 38) by done. assert (Etr : TRAMPOLINE = 2 ^ 38 - 4096) by done.
  assert (Hpte : ∀ va, 0 ≤ va < MAXVA → pte_at (km_mem s) root va = pte_of (first_regions trampoline tf p) va) by done.
  assert (Hmap : ∀ va, mapped (km_mem s) root va ↔ 0 ≤ va < PGSIZE).
  { intros va. unfold mapped. split.
    - intros [Hva HV]. rewrite Hpte, first_pte in HV by lia. repeat case_decide; try lia. done.
    - intros Hva. split; [unfold PGSIZE in *; lia|]. rewrite Hpte, first_pte, decide_True by (unfold PGSIZE in *; lia). apply has_V_mkpte; [lia|done|done]. }
  assert (Hup : ∀ va, mapped (km_mem s) root va → upage (km_mem s) root va = p).
  { intros va Hva%Hmap. unfold upage. rewrite Hpte, first_pte, decide_True by (unfold PGSIZE in *; lia). apply PTE2PA_mkpte; (done || lia). }
  split; [split|done].
  - split; try done.
    + intros va (Hva & HV & HU). apply Hmap. rewrite Hpte, first_pte in HU by done. repeat case_decide; [lia| | |done];
        exfalso; rewrite has_U, testbit_mkpte in HU by (done || unfold PGSIZE in *; lia); done.
    + intros va Hva. pose proof Hva as Hva'%Hmap. rewrite Hpte, first_pte, decide_True by (unfold PGSIZE in *; lia). rewrite PTE_FLAGS_mkpte by (done || lia). done.
    + intros va Hva. rewrite (Hup va Hva). done.
    + intros va va' H1%Hmap H2%Hmap _. unfold PGSIZE in *. zdm.
  - unfold PGSIZE. lia.
  - intros va. rewrite Hmap. done.
  - intros va [-> | ->]; rewrite Hpte, first_pte by lia; unfold PGSIZE; rewrite !decide_False by lia.
    + rewrite decide_True by lia. split; [apply has_V_mkpte; (done || lia)|]. rewrite PTE_FLAGS_mkpte by (done || lia). done.
    + rewrite decide_True by lia. split; [apply has_V_mkpte; (done || unfold PGSIZE in *; lia)|]. rewrite PTE_FLAGS_mkpte by (done || unfold PGSIZE in *; lia). done.
Qed.
End First.

(** ** The process *)

Section Userinit.
Context {F : Type} `{FileOps F}.
Context (kend trampoline forkret_addr : Z).
Hypothesis Hend : KERNBASE ≤ kend.
Hypothesis Htr : trampoline mod PGSIZE = 0 ∧ 0 ≤ trampoline ∧ trampoline + PGSIZE ≤ 2 ^ 56.


(** The process that will run [initcode] when it is scheduled: through [forkret],
    which returns to user space at address 0. *)
Record first_process (s : ps F) (l : list Z) (root : option nat) : Prop := {
  fp_init : initproc s = Some 0%nat;
  fp_state : p_state (procs s 0) = RUNNABLE;
  fp_pid : p_pid (procs s 0) = 1 ∧ nextpid s = 2;
  fp_cwd : p_cwd (procs s 0) = root;
  fp_name : take 9 (p_name (procs s 0)) = [105; 110; 105; 116; 99; 111; 100; 101; 0];
  fp_context : p_context (procs s 0) = (forkret_addr, u64 (p_kstack (procs s 0) + PGSIZE));
  fp_size : p_sz (procs s 0) = PGSIZE;
  fp_image : image kend (km s) (p_pagetable (procs s 0)) PGSIZE l;
  fp_code : page_of initcode (km_mem (km s)) (upage (km_mem (km s)) (p_pagetable (procs s 0)) 0);
  fp_flags : PTE_FLAGS (pte_at (km_mem (km s)) (p_pagetable (procs s 0)) 0) = Z.lor URWX PTE_V;
  fp_tf : pte_at (km_mem (km s)) (p_pagetable (procs s 0)) TRAPFRAME = mkpte (p_trapframe (procs s 0)) (Z.lor PTE_R PTE_W);
  fp_tf_page : page_ok kend (p_trapframe (procs s 0)) ∧ p_trapframe (procs s 0) ∉ l ∧
    ¬ uses (km_mem (km s)) (p_pagetable (procs s 0)) (p_trapframe (procs s 0));
  fp_tramp : pte_at (km_mem (km s)) (p_pagetable (procs s 0)) TRAMPOLINE = mkpte trampoline (Z.lor PTE_R PTE_X);
  fp_epc : load64 (km_mem (km s)) (p_trapframe (procs s 0) + TF_epc) = 0;
  fp_sp : load64 (km_mem (km s)) (p_trapframe (procs s 0) + TF_sp) = PGSIZE;
}.

(** The result of [allocproc] on an empty table. *)
Lemma allocproc_first (s : ps F) l0 : p_state (procs s 0) = UNUSED → nextpid s = 1 → kinv kend (km s) l0 → (user_pages + 1 < length l0)%nat →
  ∃ tf l1 k0 root k1 l' t, l0 = tf :: l1 ∧ kinv kend k0 l1 ∧ page_ok kend tf ∧ tf ∉ l1 ∧
    (∀ x, ¬ in_page tf x → km_mem k0 x = km_mem (km s) x) ∧
    building kend user_paths l1 (km_mem k0) root k1 l' [] (top_regions trampoline tf) ∧
    allocproc kend trampoline forkret_addr s = Ok (Some 0%nat) (mkPs k1 t 2 (initproc s) (files s)) ∧
    t 0%nat = set_context (forkret_addr, u64 (p_kstack (procs s 0) + PGSIZE))
      (set_pagetable root (set_trapframe tf (set_state USED (set_pid 1 (procs s 0))))) ∧
    ∀ j, j ≠ 0%nat → t j = procs s j.
Proof.
  intros Hun Hpid Hk Hlen. destruct l0 as [|tf l1]; [cbn in Hlen; lia|]. pose proof Hk as (_ & Hnd & Hok).
  apply NoDup_cons in Hnd as [Htl Hnd]. apply Forall_cons in Hok as [Htf _]. pose proof (page_ok_range kend Hend tf Htf) as [Ht0 _].
  pose proof (kalloc_spec kend (km s) (tf :: l1) Hk) as Hw. unfold wp in Hw. destruct (kalloc (km s)) as [r k0| | | |] eqn:Ek; try done.
  destruct Hw as (-> & Hk0 & Hm0).
  pose proof (proc_pagetable_done kend trampoline tf Hend Htr Htf l1 (km_mem k0) Hnd ltac:(cbn [length] in Hlen; lia) k0 Hk0 eq_refl) as Hp.
  unfold wp in Hp. destruct (proc_pagetable kend trampoline tf k0) as [root k1| | | |] eqn:Ep; try done. destruct Hp as (Hr0 & l' & Hb).
  exists tf, l1, k0, root, k1, l'. eexists. do 4 (split; [done|]). split; [intros x Hx; by rewrite Hm0, decide_False|]. split; [done|].
  split.
  - unfold allocproc. erewrite bind_Ok by reflexivity. change nproc with 64%nat. cbn [find_unused]. rewrite decide_True by done.
    unfold allocpid. rewrite bind_assoc. erewrite bind_Ok by reflexivity. rewrite bind_assoc. erewrite bind_Ok by reflexivity.
    rewrite Hpid. change (i32 (1 + 1)) with 2. erewrite bind_Ok by reflexivity. erewrite bind_Ok by reflexivity. cbn [km procs nextpid initproc files].
    erewrite bind_Ok; [|unfold on_km, zoom; cbn [km]; rewrite Ek; reflexivity]. cbn [km procs nextpid initproc files].
    erewrite bind_Ok by reflexivity. rewrite (proj2 (Z.eqb_neq tf 0)) by lia. cbn [km procs nextpid initproc files].
    erewrite bind_Ok; [|unfold on_km, zoom; cbn [km]; rewrite Ep; reflexivity]. cbn [km procs nextpid initproc files].
    erewrite bind_Ok by reflexivity. rewrite (proj2 (Z.eqb_neq root 0)) by done. cbn [km procs nextpid initproc files].
    erewrite bind_Ok by reflexivity. unfold ret. cbn [km procs nextpid initproc files]. rewrite !fn_lookup_insert. reflexivity.
  - split; [rewrite fn_lookup_insert; reflexivity|intros j Hj; by rewrite !fn_lookup_insert_ne].
Qed.

(** A word of the trapframe. *)
Lemma store_frame root k l p tf m0 l1 o v : page_ok kend tf → tf ∉ l1 → 0 ≤ o → o + 8 ≤ PGSIZE →
  building kend user_paths l1 m0 root k l [p] (first_regions trampoline tf p) →
  ∃ m1, building kend user_paths l1 m1 root (set_mem (store64 (km_mem k) (tf + o) v) k) l [p] (first_regions trampoline tf p) ∧
    (∀ x, ¬ in_page tf x → m1 x = m0 x) ∧
    (∀ x, in_page p x → store64 (km_mem k) (tf + o) v x = km_mem k x).
Proof.
  intros Htf Hl Ho0 Ho1 Hb. exists (λ x, if decide (in_page tf x) then store64 (km_mem k) (tf + o) v x else m0 x). split; [|split].
  - apply (building_data kend user_paths l1 m0 _ root k _ l [p] _ tf Hb); try done.
    + intros Hin. apply Hl. by apply (bl_free _ _ _ _ _ _ _ _ _ Hb).
    + intros Hi. apply Hl. by apply (bl_table _ _ _ _ _ _ _ _ _ Hb).
    + intros x Hx. apply store64_out. unfold in_page in Hx. lia.
    + intros x Hx. case_decide as Hd; [done|]. rewrite store64_out by (unfold in_page in Hd; lia). by apply (bl_frame _ _ _ _ _ _ _ _ _ Hb).
  - intros x Hx. by rewrite decide_False.
  - intros x Hx. apply store64_out. intros Hx'. destruct (bl_stk _ _ _ _ _ _ _ _ _ Hb p (list_elem_of_here _ _)) as (Hp & _ & Hpok & _).
    apply (in_page_disjoint kend tf p x); try done; [congruence|unfold in_page; lia].
Qed.

Lemma userinit_spec (s : ps F) l0 ip f' : p_state (procs s 0) = UNUSED → nextpid s = 1 → kinv kend (km s) l0 → (user_pages + 1 < length l0)%nat →
  (∀ k, op_root (k, files s) = Ok ip (k, f')) →
  wp (userinit kend trampoline forkret_addr) (λ _ s', files s' = f' ∧ (∀ j, j ≠ 0%nat → procs s' j = procs s j) ∧ p_kstack (procs s' 0) = p_kstack (procs s 0) ∧
    (∀ x, (∀ q, q ∈ l0 → ¬ in_page q x) → km_mem (km s') x = km_mem (km s) x) ∧
    ∃ l', (∀ q, q ∈ l' → q ∈ l0) ∧ first_process s' l' ip) s.
Proof.
  intros Hun Hpid Hk Hlen Hroot.
  destruct (allocproc_first s l0 Hun Hpid Hk Hlen) as (tf & l1 & k0 & root & k1 & l' & t & -> & Hk0 & Htf & Htl & Hm0 & Hb & Ha & Ht0 & Htj).
  pose proof Hk as (_ & Hnd & _). apply NoDup_cons in Hnd as [_ Hnd].
  destruct (wp_inv _ _ _ (uvmfirst_done kend trampoline tf Hend l1 (km_mem k0) Hnd ltac:(cbn [length] in Hlen; lia) root k1 l' initcode Hb ltac:(done)))
    as ([] & k2 & Hu & p & l2 & Hb2 & Hpg & Hp0).
  destruct (store_frame root k2 l2 p tf _ l1 TF_epc 0 Htf Htl ltac:(done) ltac:(done) Hb2) as (m3 & Hb3 & Hm3 & Hpg3).
  destruct (store_frame root _ l2 p tf _ l1 TF_sp PGSIZE Htf Htl ltac:(done) ltac:(done) Hb3) as (m4 & Hb4 & Hm4 & Hpg4).
  set (k3 := set_mem _ k2) in *. set (k4 := set_mem _ k3) in *.
  eapply wp_intro.
  { unfold userinit. rewrite (bind_Ok _ _ _ _ _ Ha). erewrite bind_Ok by reflexivity. erewrite bind_Ok by reflexivity.
    cbn [km procs nextpid initproc files]. rewrite Ht0. cbn [p_pagetable p_trapframe set_context set_pagetable set_trapframe].
    erewrite bind_Ok; [|unfold on_km, zoom; cbn [km]; rewrite Hu; reflexivity]. cbn [km procs nextpid initproc files].
    do 4 (erewrite bind_Ok by reflexivity). cbn [km procs nextpid initproc files].
    fold k3. fold k4. erewrite bind_Ok; [|unfold on_files, zoom; cbn [km files]; rewrite Hroot; reflexivity]. cbn [km procs nextpid initproc files fst snd].
    erewrite bind_Ok by reflexivity. cbn [km procs nextpid initproc files]. unfold upd_proc, modify. cbn [km procs nextpid initproc files].
    rewrite !fn_lookup_insert, Ht0. reflexivity. }
  set (t' := <[0%nat := _]> _). assert (Ht' : t' 0%nat = set_state RUNNABLE (set_cwd ip (set_name (copy_name (p_name (procs s 0)) [105; 110; 105; 116; 99; 111; 100; 101])
    (set_sz PGSIZE (set_context (forkret_addr, u64 (p_kstack (procs s 0) + PGSIZE)) (set_pagetable root (set_trapframe tf (set_state USED (set_pid 1 (procs s 0))))))))))
    by (unfold t'; by rewrite fn_lookup_insert).
  assert (Htj' : ∀ j, j ≠ 0%nat → t' j = procs s j) by (intros j Hj; unfold t'; rewrite !fn_lookup_insert_ne by done; by apply Htj). clearbody t'.
  cbn [km procs nextpid initproc files]. split; [done|]. split; [done|]. split; [by rewrite Ht'|].
  destruct (first_image kend trampoline tf Hend Htr Htf l1 m4 ltac:(cbn [length] in Hlen; lia) root k4 l2 p Hb4) as [Him Hup].
  assert (Hup0 : upage (km_mem k4) root 0 = p) by (by apply Hup, (im_user _ _ _ _ _ Him)).
  split; [|exists l2; split; [intros q Hq; apply elem_of_cons; right; by apply (bl_free _ _ _ _ _ _ _ _ _ Hb4)|]].
  { intros x Hx. rewrite (bl_frame _ _ _ _ _ _ _ _ _ Hb4) by (intros q Hq; apply Hx, elem_of_cons; by right).
    assert (Hn : ¬ in_page tf x) by (apply Hx, elem_of_cons; by left). by rewrite Hm4, Hm3, Hm0. }
  assert (Hpte := bl_pte _ _ _ _ _ _ _ _ _ Hb4). assert (Etf := TRAPFRAME_eq). assert (Emax : MAXVA = 2 ^ 38) by done. assert (Etr : TRAMPOLINE = 2 ^ 38 - 4096) by done.
  split; cbn [km procs nextpid initproc files]; rewrite ?Ht'; try done; cbn [p_pagetable p_trapframe set_state set_cwd set_name set_sz set_context set_pagetable set_trapframe].
  - rewrite Hup0. intros i Hi. cbn [km_mem k4 set_mem]. rewrite Hpg4 by (unfold in_page; lia). cbn [km_mem k3 set_mem]. rewrite Hpg3 by (unfold in_page; lia). by apply Hpg.
  - rewrite Hpte, first_pte, decide_True by done. apply PTE_FLAGS_mkpte; try done; destruct (bl_stk _ _ _ _ _ _ _ _ _ Hb4 p (list_elem_of_here _ _)) as (_ & _ & Hpok & _);
      destruct (page_ok_range kend Hend p Hpok); (done || lia).
  - rewrite Hpte, first_pte by lia. unfold PGSIZE. rewrite !decide_False by lia. by rewrite decide_True by lia.
  - split; [done|]. split; [intros Hin; apply Htl; by apply (bl_free _ _ _ _ _ _ _ _ _ Hb4)|]. intros [Hi|(va & Hva & Hq)].
    + apply Htl. by apply (bl_table _ _ _ _ _ _ _ _ _ Hb4).
    + apply Htl. rewrite <- Hq, (Hup va Hva). by destruct (bl_stk _ _ _ _ _ _ _ _ _ Hb4 p (list_elem_of_here _ _)).
  - rewrite Hpte, first_pte by lia. unfold PGSIZE. rewrite !decide_False by lia. by rewrite decide_True by lia.
  - cbn [km_mem k4 set_mem]. unfold TF_epc, TF_sp in *. rewrite load64_store64_ne by lia. cbn [km_mem k3 set_mem]. by rewrite load64_store64.
  - cbn [km_mem k4 set_mem]. by rewrite load64_store64.
Qed.
End Userinit.
