(* ===== verification/ProcSpec.v ===== *)
(** * ProcSpec: the process table

    Invariants of the table that every system call keeps, and what [exit],
    [wait], [kill] and [wakeup] do. *)
From stdpp Require Import functions.
From S2P Require Import Prelude Riscv CString Kalloc Vm Spinlock Proc.

Section ProcSpec.
Context {F : Type} `{FileOps F}.
Context (kend trampoline forkret_addr : Z).
Notation S := (ps F).
Implicit Types (s : S) (i j me : nat).
Notation freeproc := (freeproc kend).
Notation allocproc := (allocproc kend trampoline forkret_addr).
Notation fork := (fork kend trampoline forkret_addr).
Notation wait := (wait kend).

(** ** Identifiers *)

(** A slot has an identifier exactly when it is in use, and no two share one. *)
Record pt_inv s : Prop := {
  pt_pid : ∀ i, p_state (procs s i) = UNUSED ↔ p_pid (procs s i) = 0;
  pt_range : ∀ i, 0 ≤ p_pid (procs s i) < nextpid s;
  pt_uniq : ∀ i j, p_pid (procs s i) = p_pid (procs s j) → p_pid (procs s i) ≠ 0 → i = j;
  pt_next : nextpid s < 2 ^ 31;
}.

Definition live i s : Prop := p_state (procs s i) ≠ UNUSED.
(** ... with the slots [L] in use and [N] the next identifier. *)
Definition inv_live (N : Z) (L : list nat) s : Prop :=
  pt_inv s ∧ (∀ i, i ∈ L → live i s) ∧ nextpid s = N.

(** Updates that keep the identifier and the use of a slot. *)
Definition tame (f : proc → proc) : Prop :=
  ∀ p, p_pid (f p) = p_pid p ∧ (p_state (f p) = UNUSED ↔ p_state p = UNUSED).

Lemma upd_here s i f p' : procs s i = p' → <[i := f (procs s i)]> (procs s) i = f p'.
Proof. intros <-. by rewrite fn_lookup_insert. Qed.

Lemma upd_inv s i f N L :
  inv_live N L s →
  p_pid (f (procs s i)) = p_pid (procs s i) →
  (p_state (f (procs s i)) = UNUSED ↔ p_state (procs s i) = UNUSED) →
  inv_live N L (mkPs (km s) (<[i := f (procs s i)]> (procs s)) (nextpid s) (initproc s) (files s)).
Proof.
  intros [[H1 H2 H3 H4] [HL HN]] Hp Hs.
  assert (E : ∀ j, p_pid (<[i := f (procs s i)]> (procs s) j) = p_pid (procs s j) ∧
    (p_state (<[i := f (procs s i)]> (procs s) j) = UNUSED ↔ p_state (procs s j) = UNUSED)).
  { intros j. destruct (decide (i = j)) as [<-|]; [by rewrite fn_lookup_insert|by rewrite fn_lookup_insert_ne]. }
  split; [split; simpl|].
  - intros j. destruct (E j) as [-> ->]. apply H1.
  - intros j. destruct (E j) as [-> _]. apply H2.
  - intros j k. destruct (E j) as [-> _], (E k) as [-> _]. apply H3.
  - done.
  - split; [|done]. intros j Hj. unfold live. simpl. destruct (E j) as [_ ->]. by apply HL.
Qed.

Lemma keeps_upd N L i f : tame f → keeps_inv (inv_live N L) (upd_proc i f : M S unit).
Proof. intros Hf s Hs. apply upd_inv; [done|apply Hf|apply Hf]. Qed.

(** A change of state of a slot in use. *)
Lemma keeps_upd_live N L i f :
  i ∈ L → (∀ p, p_pid (f p) = p_pid p ∧ p_state (f p) ≠ UNUSED) →
  keeps_inv (inv_live N L) (upd_proc i f : M S unit).
Proof.
  intros Hi Hf s Hs. apply upd_inv; [done|apply Hf|]. destruct Hs as [_ [HL _]]. specialize (HL i Hi).
  destruct (Hf (procs s i)) as [_ ?]. unfold live in HL. tauto.
Qed.

Lemma inv_live_frame N L s k fl ini :
  inv_live N L s → inv_live N L (mkPs k (procs s) (nextpid s) ini fl).
Proof. intros [[] HL]. by split. Qed.

Lemma keeps_km N L {A} (m : M kmem A) : keeps_inv (inv_live N L) (on_km m : M S A).
Proof. apply keeps_zoom. intros s t. apply inv_live_frame. Qed.
Lemma keeps_files N L {A} (m : M (kmem * F) A) : keeps_inv (inv_live N L) (on_files m : M S A).
Proof. apply keeps_zoom. intros s t. apply inv_live_frame. Qed.

Lemma tame_trapframe v : tame (set_trapframe v). Proof. done. Qed.
Lemma tame_pagetable v : tame (set_pagetable v). Proof. done. Qed.
Lemma tame_sz v : tame (set_sz v). Proof. done. Qed.
Lemma tame_cwd v : tame (set_cwd v). Proof. done. Qed.
Lemma tame_parent v : tame (set_parent v). Proof. done. Qed.
Lemma tame_chan v : tame (set_chan v). Proof. done. Qed.
Lemma tame_killed v : tame (set_killed v). Proof. done. Qed.
#[local] Hint Resolve tame_trapframe tame_pagetable tame_sz tame_cwd tame_parent tame_chan tame_killed : keeps.
#[local] Hint Resolve keeps_km keeps_files keeps_upd : keeps.
#[local] Hint Extern 1 (tame _) => (intros ?; split; reflexivity) : keeps.

Lemma keeps_get N L i : keeps_inv (inv_live N L) (get_proc i : M S proc).
Proof. apply keeps_gets. Qed.
#[local] Hint Resolve keeps_get : keeps.

(** The last update of [freeproc] gives the slot and its identifier up. *)
Lemma freed_inv s i f N L :
  inv_live N L s → i ∉ L → p_pid (f (procs s i)) = 0 → p_state (f (procs s i)) = UNUSED → 0 < nextpid s →
  inv_live N L (mkPs (km s) (<[i := f (procs s i)]> (procs s)) (nextpid s) (initproc s) (files s)).
Proof.
  intros [[H1 H2 H3 H4] [HL HN]] Hi Hp Hs Hn. split; [split; simpl|].
  - intros j. destruct (decide (i = j)) as [<-|]; [rewrite fn_lookup_insert; tauto|by rewrite fn_lookup_insert_ne].
  - intros j. destruct (decide (i = j)) as [<-|]; [rewrite fn_lookup_insert; lia|by rewrite fn_lookup_insert_ne].
  - intros j k. destruct (decide (i = j)) as [<-|], (decide (i = k)) as [<-|];
      rewrite ?fn_lookup_insert, ?fn_lookup_insert_ne by done; [done|lia|lia|apply H3].
  - done.
  - split; [|done]. intros j Hj. unfold live. simpl. rewrite fn_lookup_insert_ne; [by apply HL|]. intros <-. done.
Qed.

Lemma inv_next s N L : inv_live N L s → 0 < nextpid s.
Proof. intros [[_ H2 _ _] _]. specialize (H2 0%nat). lia. Qed.

Lemma keeps_freeproc N L i : i ∉ L → keeps_inv (inv_live N L) (freeproc i : M S unit).
Proof.
  intros Hi. unfold Proc.freeproc. apply keeps_bind; [auto with keeps|]. intros p.
  apply keeps_bind; [case_match; auto with keeps|]. intros _.
  apply keeps_bind; [auto with keeps|]. intros _.
  apply keeps_bind; [case_match; auto with keeps|]. intros _.
  intros s Hs. pose proof (inv_next s N L Hs). by apply freed_inv.
Qed.

(** ** allocproc *)

Lemma find_unused_Some k i t j : find_unused k i t = Some j → p_state (t j) = UNUSED.
Proof. revert i. induction k as [|k IH]; intros i; simpl; [done|]. case_decide; [by intros [= <-]|apply IH]. Qed.

(** A fresh identifier for an unused slot. *)
Lemma fresh_inv s i N L :
  inv_live N L s → p_state (procs s i) = UNUSED → N < 2 ^ 31 - 1 →
  inv_live (N + 1) (i :: L) (mkPs (km s) (<[i := set_state USED (set_pid N (procs s i))]> (procs s))
    (N + 1) (initproc s) (files s)).
Proof.
  intros [[H1 H2 H3 H4] [HL HN]] Hu Hlt. rewrite HN in *. split; [split; simpl|].
  - intros j. destruct (decide (i = j)) as [<-|]; [|by rewrite fn_lookup_insert_ne].
    rewrite fn_lookup_insert. simpl. pose proof (H2 i). split; [done|lia].
  - intros j. pose proof (H2 j). destruct (decide (i = j)) as [<-|]; [rewrite fn_lookup_insert; simpl; lia|].
    rewrite fn_lookup_insert_ne by done. lia.
  - intros j k. pose proof (H2 j). pose proof (H2 k).
    destruct (decide (i = j)) as [<-|], (decide (i = k)) as [<-|];
      rewrite ?fn_lookup_insert, ?fn_lookup_insert_ne by done; simpl; [done|lia|lia|apply H3].
  - lia.
  - split; [|done]. intros j [Hj|Hj]%elem_of_cons; unfold live; simpl; [subst j; by rewrite fn_lookup_insert|].
    destruct (decide (i = j)) as [<-|]; [by rewrite fn_lookup_insert|]. rewrite fn_lookup_insert_ne by done. by apply HL.
Qed.

Lemma inv_live_weaken N L L' s : (∀ i, i ∈ L' → i ∈ L) → inv_live N L s → inv_live N L' s.
Proof. intros HLL [H1 [H2 H3]]. split; [done|]. split; [|done]. intros i Hi. apply H2. by apply HLL. Qed.

Lemma inv_live_tail N i L s : inv_live N (i :: L) s → inv_live N L s.
Proof. apply inv_live_weaken. intros. by right. Qed.

(** [allocproc] uses one identifier, if it finds a slot. *)
Definition alloc_post N L s : Prop := inv_live N L s ∨ inv_live (N + 1) L s.

Lemma allocproc_inv s N L :
  inv_live N L s → N < 2 ^ 31 - 1 →
  post allocproc (λ o s', match o with
    | Some i => i ∉ L ∧ inv_live (N + 1) (i :: L) s'
    | None => alloc_post N L s'
    end) (alloc_post N L) s.
Proof.
  intros Hs HN. unfold Proc.allocproc. apply post_bind. unfold post at 1, gets.
  destruct (find_unused nproc 0 (procs s)) as [i|] eqn:E; [|by left].
  apply find_unused_Some in E.
  assert (Hi : i ∉ L). { intros Hi. destruct Hs as [_ [HL _]]. by apply (HL i Hi). }
  apply post_bind. unfold allocpid. apply post_bind. unfold post at 1, gets.
  apply post_bind. unfold post at 1, modify. unfold post at 1, ret. cbn [nextpid procs].
  assert (Hnx : nextpid s = N) by apply Hs. rewrite Hnx. rewrite i32_id by (pose proof (inv_next s N L Hs); lia).
  apply post_bind. unfold upd_proc at 1, post at 1, modify. cbn [km procs nextpid initproc files].
  pose proof (fresh_inv s i N L Hs E HN) as H1. set (s1 := mkPs _ _ _ _ _) in *. clearbody s1.
  set (Q := λ (o : option nat) (s' : S), _).
  assert (Hfree : ∀ s', inv_live (N + 1) (i :: L) s' → post (freeproc i ;;; ret None) Q (alloc_post N L) s').
  { intros s' Hs'. apply inv_live_tail in Hs'. apply post_bind.
    eapply post_mono; [by apply keeps_freeproc| |]; intros; by right. }
  assert (Hstep : ∀ {A} (m : M S A) (k : A → M S (option nat)) s', keeps_inv (inv_live (N + 1) (i :: L)) m →
    inv_live (N + 1) (i :: L) s' →
    (∀ a s', inv_live (N + 1) (i :: L) s' → post (k a) Q (alloc_post N L) s') → post (bind m k) Q (alloc_post N L) s').
  { intros A m k s' Hm Hs' Hk. apply post_bind. eapply post_mono; [by apply Hm|apply Hk|].
    intros s2 Hs2. right. by eapply inv_live_tail. }
  apply Hstep; [auto with keeps|done|]. intros tf s2 H2.
  apply Hstep; [auto with keeps|done|]. intros _ s3 H3.
  destruct (tf =? 0); [by apply Hfree|].
  apply Hstep; [auto with keeps|done|]. intros pt s4 H4.
  apply Hstep; [auto with keeps|done|]. intros _ s5 H5.
  destruct (pt =? 0); [by apply Hfree|].
  apply Hstep; [auto with keeps|done|]. intros _ s6 H6. by split.
Qed.

(** ** The calls that keep the identifiers *)

Lemma keeps_wakeup N L who c : keeps_inv (inv_live N L) (wakeup who c : M S unit).
Proof.
  unfold wakeup, for_procs. apply keeps_for_loop. intros j. case_match; [auto with keeps|].
  intros s Hs. unfold get_proc, gets. apply post_bind. unfold post at 1.
  destruct (sleeps_on c (procs s (Z.to_nat j))) eqn:E; [|done].
  unfold sleeps_on in E. apply andb_true_iff in E as [E _]. apply bool_decide_eq_true in E.
  apply upd_inv; [done|done|]. simpl. rewrite E. done.
Qed.
#[local] Hint Resolve keeps_wakeup : keeps.

Lemma keeps_match_opt {A B} N L (o : option A) (f : A → M S B) (g : M S B) :
  (∀ x, keeps_inv (inv_live N L) (f x)) → keeps_inv (inv_live N L) g →
  keeps_inv (inv_live N L) (match o with Some x => f x | None => g end).
Proof. by destruct o. Qed.

Lemma keeps_reparent N L me : keeps_inv (inv_live N L) (reparent me : M S unit).
Proof.
  unfold reparent, for_procs. apply keeps_for_loop. intros j. apply keeps_bind; [auto with keeps|]. intros p.
  case_match; [|auto with keeps]. apply keeps_bind; [auto with keeps|]. intros ini.
  apply keeps_bind; [auto with keeps|]. intros _. apply keeps_match_opt; auto with keeps.
Qed.
#[local] Hint Resolve keeps_reparent : keeps.

Lemma keeps_close_files N L pid l fd me : keeps_inv (inv_live N L) (close_files pid l fd me : M S unit).
Proof.
  revert fd. induction l as [|o l IH]; intros fd; simpl; [auto with keeps|].
  apply keeps_bind; [|auto]. apply keeps_match_opt; [|auto with keeps]. intros f.
  apply keeps_bind; [auto with keeps|]. auto with keeps.
Qed.

Lemma keeps_dup_files N L l fd i : keeps_inv (inv_live N L) (dup_files l fd i : M S unit).
Proof.
  revert fd. induction l as [|o l IH]; intros fd; simpl; [auto with keeps|].
  apply keeps_bind; [|auto]. apply keeps_match_opt; [|auto with keeps]. intros f.
  apply keeps_bind; [auto with keeps|]. auto with keeps.
Qed.
#[local] Hint Resolve keeps_close_files keeps_dup_files : keeps.

Lemma keeps_exit N L me status : me ∈ L → keeps_inv (inv_live N L) (exit me status : M S unit).
Proof.
  intros Hme. unfold exit. apply keeps_bind; [auto with keeps|]. intros ini.
  case_match; [auto with keeps|]. apply keeps_bind; [auto with keeps|]. intros p.
  do 2 (apply keeps_bind; [auto with keeps|]; intros _).
  apply keeps_bind; [apply keeps_match_opt; auto with keeps|]. intros _.
  do 3 (apply keeps_bind; [auto with keeps|]; intros _).
  apply keeps_bind; [auto with keeps|]. intros q.
  apply keeps_bind; [apply keeps_match_opt; auto with keeps|]. intros _.
  apply keeps_upd_live; [done|]. done.
Qed.

Lemma keeps_kill N L pid : keeps_inv (inv_live N L) (kill pid : M S Z).
Proof.
  unfold kill. apply keeps_bind; [auto with keeps|]. intros t. apply keeps_match_opt; [|auto with keeps].
  intros i. apply keeps_bind; [|auto with keeps]. apply keeps_upd. intros p. simpl.
  case_decide as E; simpl; [rewrite E|]; done.
Qed.

Lemma find_zombie_Some k i me t b j b' : find_zombie k i me t b = (Some j, b') →
  p_state (t j) = ZOMBIE ∧ p_parent (t j) = Some me.
Proof.
  revert i b. induction k as [|k IH]; intros i b; simpl; [done|].
  case_decide; [case_decide; [by intros [= <- _]|apply IH]|apply IH].
Qed.

(** [wait] frees the slot of a zombie, which is not the caller. *)
Lemma keeps_wait N me addr s :
  inv_live N [me] s → p_state (procs s me) ≠ ZOMBIE →
  post (wait me addr) (λ _, inv_live N [me]) (inv_live N [me]) s.
Proof.
  intros Hs Hme. unfold Proc.wait. apply post_bind. unfold post at 1, gets.
  destruct (find_zombie nproc 0 me (procs s) false) as [[i|] hk] eqn:E.
  - apply find_zombie_Some in E as [Ez _].
    assert (Hi : i ∉ [me]). { intros ->%list_elem_of_singleton. done. }
    assert (Hk : keeps_inv (inv_live N [me]) (
      do r <- (if addr =? 0 then ret 0
               else on_km (copyout (p_pagetable (procs s me)) addr (le_bytes 4 (u32 (p_xstate (procs s i))))));
      if r <? 0 then ret (-1) else freeproc i ;;; ret (p_pid (procs s i)))).
    { apply keeps_bind; [case_match; auto with keeps|]. intros r. case_match; [auto with keeps|].
      apply keeps_bind; [by apply keeps_freeproc|auto with keeps]. }
    by apply Hk.
  - case_match; done.
Qed.

Lemma fork_inv s N me :
  inv_live N [me] s → N < 2 ^ 31 - 1 → post (fork me) (λ _, alloc_post N [me]) (alloc_post N [me]) s.
Proof.
  intros Hs HN. unfold Proc.fork. apply post_bind.
  eapply post_mono; [by apply allocproc_inv| |done]. intros [i|] s1 H1; [|done]. destruct H1 as [Hi H1].
  apply post_bind. unfold post at 1, get_proc at 1, gets. apply post_bind. unfold post at 1, get_proc, gets.
  apply post_bind.
  eapply (post_mono _ (λ _, inv_live (N + 1) [i; me]) _ (inv_live (N + 1) [i; me]));
    [by apply keeps_km| |intros s' Hs'; right; by eapply inv_live_tail].
  intros r s2 H2. destruct (r <? 0).
  { apply post_bind. eapply (post_mono _ (λ _, inv_live (N + 1) [me]) _ (inv_live (N + 1) [me])).
    - apply keeps_freeproc; [exact Hi|by eapply inv_live_tail].
    - intros _ s' Hs'. by right.
    - intros s' Hs'. by right. }
  eapply (post_mono _ (λ _, inv_live (N + 1) [i; me]) _ (inv_live (N + 1) [i; me]));
    [|intros _ s' Hs'; right; by eapply inv_live_tail|intros s' Hs'; right; by eapply inv_live_tail].
  match goal with |- post ?m _ _ _ => assert (Hm : keeps_inv (inv_live (N + 1) [i; me]) m); [|by apply Hm] end.
  do 4 (apply keeps_bind; [auto with keeps|]; intros _).
  apply keeps_bind; [apply keeps_match_opt; [intros d; apply keeps_bind; auto with keeps|auto with keeps]|]. intros _.
  do 2 (apply keeps_bind; [auto with keeps|]; intros _).
  apply keeps_bind; [apply keeps_upd_live; [by left|done]|]. auto with keeps.
Qed.
End ProcSpec.
