(* ===== verification/ProcLife.v ===== *)
(** * ProcLife: the life of processes

    The system calls on the process table as steps, and what they guarantee:
    unique identifiers, [exit] that leaves no orphan and wakes the parent, and
    the effect of [kill] on identifiers nobody has. *)
From stdpp Require Import functions.
From S2P Require Import Prelude Riscv CString Kalloc Vm Spinlock Proc ProcSpec.

Section life.
Context {F : Type} `{FileOps F}.
Context (kend trampoline forkret_addr : Z).
Notation S := (ps F).
Implicit Types (s : S) (i j me : nat).

(** What a running process can ask of the process table. *)
Inductive call : Type :=
| CFork
| CExit (status : Z)
| CWait (addr : Z)
| CKill (pid : Z)
| CWakeup (c : chan)
| CSleep (c : chan)
| CYield.

Definition run_call me (c : call) : M S unit :=
  match c with
  | CFork => fork kend trampoline forkret_addr me ;;; ret tt
  | CExit status => exit me status
  | CWait addr => wait kend me addr ;;; ret tt
  | CKill pid => kill pid ;;; ret tt
  | CWakeup c => wakeup (Some me) c
  | CSleep c => sleep c
  | CYield => yield me
  end.

(** A running process makes a call, which returns or puts it to sleep; or a CPU
    picks a runnable process; or a process that slept tidies up. *)
Inductive kstep s : S → Prop :=
| KS_call me c s' : p_state (procs s me) = RUNNING → run_call me c s = Ok tt s' → kstep s s'
| KS_sleep me c ch s1 s' : p_state (procs s me) = RUNNING → run_call me c s = Sleep ch s1 →
    sleep_on me ch s1 = Ok tt s' → kstep s s'
| KS_run i s' : p_state (procs s i) = RUNNABLE → upd_proc i (set_state RUNNING) s = Ok tt s' → kstep s s'
| KS_tidy me s' : p_state (procs s me) = RUNNING → sleep_done me s = Ok tt s' → kstep s s'.

Lemma inv_of s me : pt_inv s → p_state (procs s me) = RUNNING → inv_live (nextpid s) [me] s.
Proof.
  intros Hi Hr. split; [done|]. split; [|done]. intros i ->%list_elem_of_singleton. unfold live. by rewrite Hr.
Qed.

(** A call uses at most one identifier. *)
Lemma run_call_inv s me c :
  pt_inv s → p_state (procs s me) = RUNNING → nextpid s < 2 ^ 31 - 1 →
  post (run_call me c) (λ _, alloc_post (nextpid s) [me]) (alloc_post (nextpid s) [me]) s.
Proof.
  intros Hi Hr HN. pose proof (inv_of s me Hi Hr) as Hs.
  assert (Hk : ∀ {A} (m : M S A), post m (λ _, inv_live (nextpid s) [me]) (inv_live (nextpid s) [me]) s →
    post m (λ _, alloc_post (nextpid s) [me]) (alloc_post (nextpid s) [me]) s).
  { intros A m Hm. eapply post_mono; [exact Hm| |]; intros; by left. }
  destruct c; simpl.
  - apply post_bind. eapply post_mono; [by apply fork_inv| |done]. done.
  - apply Hk. apply keeps_exit; [by left|done].
  - apply post_bind, Hk, keeps_wait; [exact Hs|by rewrite Hr].
  - apply post_bind, Hk. by apply keeps_kill.
  - apply Hk. by apply keeps_wakeup.
  - by left.
  - apply Hk. apply keeps_upd_live; [by left|done|done].
Qed.

Lemma kstep_inv s s' : kstep s s' → pt_inv s → nextpid s < 2 ^ 31 - 1 →
  pt_inv s' ∧ nextpid s ≤ nextpid s' ≤ nextpid s + 1.
Proof.
  intros Hst Hi HN.
  assert (Hal : ∀ L s', alloc_post (nextpid s) L s' → pt_inv s' ∧ nextpid s ≤ nextpid s' ≤ nextpid s + 1).
  { intros L s2 [(H1 & _ & H2)|(H1 & _ & H2)]; (split; [done|lia]). }
  destruct Hst as [me c s' Hr He|me c ch s1 s' Hr He Hsl|i s' Hr He|me s' Hr He].
  - pose proof (run_call_inv s me c Hi Hr HN) as Hp. unfold post in Hp. rewrite He in Hp. by eapply Hal.
  - pose proof (run_call_inv s me c Hi Hr HN) as Hp. unfold post in Hp. rewrite He in Hp.
    assert (Hgo : ∀ N, inv_live N [me] s1 → inv_live N [me] s').
    { intros N H1. injection Hsl as <-.
      apply (upd_inv s1 me (λ p, set_state SLEEPING (set_chan (Some ch) p))); [done|done|]. destruct H1 as [_ [HL _]].
      specialize (HL me ltac:(by left)). unfold live in HL. simpl. split; [done|tauto]. }
    apply (Hal [me]). destruct Hp as [Hp|Hp]; [left|right]; by apply Hgo.
  - injection He as <-. destruct (upd_inv s i (set_state RUNNING) (nextpid s) []) as (H1 & _ & H2).
    { split; [done|]. split; [|done]. intros j ?%not_elem_of_nil. done. }
    { done. }
    { simpl. by rewrite Hr. }
    split; [done|]. simpl. lia.
  - injection He as <-. destruct (upd_inv s me (set_chan None) (nextpid s) []) as (H1 & _ & H2); try done.
    { split; [done|]. split; [|done]. intros j ?%not_elem_of_nil. done. }
    split; [done|]. simpl. lia.
Qed.

Lemma ksteps_inv n s s' : nsteps kstep n s s' → pt_inv s → nextpid s + Z.of_nat n < 2 ^ 31 → pt_inv s'.
Proof.
  intros Hst. induction Hst as [s|n s1 s2 s3 H1 H2 IH]; intros Hi HN; [done|].
  destruct (kstep_inv _ _ H1 Hi ltac:(lia)) as [Hi2 Hn]. apply IH; [done|lia].
Qed.

(** ** wakeup and exit *)

Definition same_rest s s' : Prop := nextpid s' = nextpid s ∧ initproc s' = initproc s.

(** A process before and after [wakeup(c)]. *)
Definition woken (who : option nat) (c : chan) i (p : proc) : proc :=
  if bool_decide (who = Some i) then p else if sleeps_on c p then set_state RUNNABLE p else p.

Lemma wakeup_spec who c s :
  wp (wakeup who c) (λ _ s', same_rest s s' ∧ km s' = km s ∧ files s' = files s ∧
    ∀ i, procs s' i = if decide (i < nproc)%nat then woken who c i (procs s i) else procs s i) s.
Proof.
  unfold wakeup, for_procs.
  eapply wp_mono; [apply (wp_for (λ k s', same_rest s s' ∧ km s' = km s ∧ files s' = files s ∧
    ∀ i, procs s' i = if decide (Z.of_nat i < k) then woken who c i (procs s i) else procs s i))|].
  - intros j s1 Hj (H1 & H2 & H3 & H4). set (i := Z.to_nat j). assert (Hij : j = Z.of_nat i) by lia.
    assert (Hi : procs s1 i = procs s i) by (rewrite H4; rewrite decide_False by lia; done).
    assert (Hgoal : ∀ s2, same_rest s1 s2 → km s2 = km s1 → files s2 = files s1 →
      procs s2 i = woken who c i (procs s i) → (∀ k, k ≠ i → procs s2 k = procs s1 k) →
      same_rest s s2 ∧ km s2 = km s ∧ files s2 = files s ∧
      ∀ k, procs s2 k = if decide (Z.of_nat k < j + 1) then woken who c k (procs s k) else procs s k).
    { intros s2 [G1 G2] G3 G4 G5 G6. destruct H1. split; [split; congruence|]. split; [congruence|]. split; [congruence|].
      intros k. destruct (decide (k = i)) as [->|Hne].
      - rewrite G5. by rewrite decide_True by lia.
      - rewrite G6, H4 by done. repeat case_decide; try done; lia. }
    destruct (bool_decide (who = Some i)) eqn:E1.
    { apply wp_ret, Hgoal; try done. unfold woken. rewrite E1. exact Hi. }
    apply wp_step. unfold wp at 1, get_proc, gets. rewrite Hi.
    destruct (sleeps_on c (procs s i)) eqn:E2.
    + unfold wp, upd_proc, modify. apply Hgoal; try done; simpl.
      * rewrite fn_lookup_insert. unfold woken. by rewrite E1, Hi, E2.
      * intros k Hk. by rewrite fn_lookup_insert_ne.
    + apply wp_ret, Hgoal; try done. unfold woken. by rewrite E1, E2.
  - split; [done|]. split; [done|]. split; [done|]. intros i. by rewrite decide_False by lia.
  - intros _ s' (H1 & H2 & H3 & H4). split; [done|]. split; [done|]. split; [done|]. intros i. rewrite H4.
    unfold nproc, NPROC. repeat case_decide; try done; lia.
Qed.

(** Changes that touch neither the family of a process nor its identity. *)
Definition kin s s' : Prop :=
  same_rest s s' ∧ ∀ i, p_parent (procs s' i) = p_parent (procs s i) ∧ p_pid (procs s' i) = p_pid (procs s i) ∧
    p_xstate (procs s' i) = p_xstate (procs s i) ∧
    (p_state (procs s' i) = p_state (procs s i)) ∧ p_chan (procs s' i) = p_chan (procs s i).

Lemma kin_refl s : kin s s.
Proof. by repeat split. Qed.

Lemma kin_trans s1 s2 s3 : kin s1 s2 → kin s2 s3 → kin s1 s3.
Proof.
  intros [[A1 A2] A3] [[B1 B2] B3]. split; [split; congruence|]. intros i.
  destruct (A3 i) as (?&?&?&?&?), (B3 i) as (?&?&?&?&?). repeat split; congruence.
Qed.

Lemma kin_upd s me f :
  (∀ p, p_parent (f p) = p_parent p ∧ p_pid (f p) = p_pid p ∧ p_xstate (f p) = p_xstate p ∧
    p_state (f p) = p_state p ∧ p_chan (f p) = p_chan p) →
  wp (upd_proc me f) (λ _, kin s) s.
Proof.
  intros Hf. unfold wp, upd_proc, modify. split; [done|]. intros i. simpl.
  destruct (decide (me = i)) as [<-|]; [rewrite fn_lookup_insert; apply Hf|by rewrite fn_lookup_insert_ne].
Qed.

(** The file system calls of [exit] return from the states [P] and stay there. *)
Record files_total (P : kmem * F → Prop) : Prop := {
  ft_close : ∀ pid x f, P f → ∃ f', op_fileclose pid x f = Ok tt f' ∧ P f';
  ft_iput : ∀ pid x f, P f → ∃ f', op_iput pid x f = Ok tt f' ∧ P f';
  ft_begin : ∀ f, P f → ∃ f', op_begin f = Ok tt f' ∧ P f';
  ft_end : ∀ pid f, P f → ∃ f', op_end pid f = Ok tt f' ∧ P f';
}.

(** ... and what holds between the calls. *)
Definition kinf (P : kmem * F → Prop) s s' : Prop := kin s s' ∧ P (km s', files s').

Lemma kin_files (P : kmem * F → Prop) s0 s (m : M (kmem * F) unit) :
  (∀ f, P f → ∃ f', m f = Ok tt f' ∧ P f') → kinf P s0 s → wp (on_files m) (λ _, kinf P s0) s.
Proof.
  intros Hm [Hk HP]. apply wp_zoom. destruct (Hm (km s, files s) HP) as (f' & Hf' & HP').
  eapply wp_intro; [exact Hf'|]. split; [|by destruct f']. eapply kin_trans; [exact Hk|]. by repeat split.
Qed.

Lemma kinf_upd P s0 s me f :
  (∀ p, p_parent (f p) = p_parent p ∧ p_pid (f p) = p_pid p ∧ p_xstate (f p) = p_xstate p ∧
    p_state (f p) = p_state p ∧ p_chan (f p) = p_chan p) →
  kinf P s0 s → wp (upd_proc me f) (λ _, kinf P s0) s.
Proof.
  intros Hf [Hk HP]. unfold wp. pose proof (kin_upd s me f Hf) as Hu. unfold wp in Hu. simpl in *.
  split; [|exact HP]. exact (kin_trans _ _ _ Hk Hu).
Qed.

Lemma close_files_spec P pid l fd me s0 s :
  files_total P → kinf P s0 s → wp (close_files pid l fd me) (λ _, kinf P s0) s.
Proof.
  intros Ht. revert fd s. induction l as [|o l IH]; intros fd s Hk; simpl; [by apply wp_ret|].
  apply wp_step. destruct o as [f|]; [|apply wp_ret; by apply IH].
  apply wp_step. eapply wp_mono; [apply kin_files; [apply Ht|exact Hk]|]. intros u s1 H1.
  eapply wp_mono; [apply (kinf_upd P s0); [done|exact H1]|]. intros u' s2 H2. by apply IH.
Qed.

(** [reparent]: every child of [me] becomes a child of [init], which is woken if
    there is one. *)
Record reparented me (ini : nat) k s s' : Prop := {
  rp_rest : same_rest s s';
  rp_parent : ∀ i, p_parent (procs s' i) =
    if decide (Z.of_nat i < k ∧ p_parent (procs s i) = Some me) then Some ini else p_parent (procs s i);
  rp_ids : ∀ i, p_pid (procs s' i) = p_pid (procs s i) ∧ p_xstate (procs s' i) = p_xstate (procs s i) ∧
    p_chan (procs s' i) = p_chan (procs s i);
  rp_state : ∀ i, p_state (procs s' i) = p_state (procs s i) ∨
    (sleeps_on (ChProc ini) (procs s i) = true ∧ p_state (procs s' i) = RUNNABLE);
  rp_woken : (∃ i, Z.of_nat i < k ∧ p_parent (procs s i) = Some me) →
    ∀ j, (j < nproc)%nat → j ≠ me → sleeps_on (ChProc ini) (procs s' j) = false;
}.

Lemma woken_fields who c i p :
  p_pid (woken who c i p) = p_pid p ∧ p_xstate (woken who c i p) = p_xstate p ∧
  p_chan (woken who c i p) = p_chan p ∧ p_parent (woken who c i p) = p_parent p ∧
  (p_state (woken who c i p) = p_state p ∨ (sleeps_on c p = true ∧ p_state (woken who c i p) = RUNNABLE)).
Proof. unfold woken. case_match; [by split_and!; auto|]. destruct (sleeps_on c p) eqn:E; simpl; split_and!; auto. Qed.

Lemma sleeps_on_woken who c i p : who ≠ Some i → sleeps_on c (woken who c i p) = false.
Proof.
  intros Hw. unfold woken. rewrite bool_decide_eq_false_2 by done. destruct (sleeps_on c p) eqn:E; [|done].
  unfold sleeps_on. by rewrite bool_decide_eq_false_2.
Qed.

Lemma sleeps_on_eq c p q : p_chan p = p_chan q → p_state p = p_state q → sleeps_on c p = sleeps_on c q.
Proof. unfold sleeps_on. by intros -> ->. Qed.

Lemma reparent_spec me ini s : initproc s = Some ini → me ≠ ini →
  wp (reparent me) (λ _, reparented me ini 64 s) s.
Proof.
  intros Hini Hme. unfold reparent, for_procs.
  apply (wp_for (λ k, reparented me ini k s)); [|].
  2:{ split; [done| |done|auto|].
      - intros i. by rewrite decide_False by lia.
      - intros (i & Hi & _). lia. }
  intros k s1 Hk [R1 R2 R3 R4 R5]. set (i := Z.to_nat k). assert (Hik : k = Z.of_nat i) by lia.
  apply wp_step. unfold wp at 1, get_proc, gets.
  assert (Hpar : p_parent (procs s1 i) = p_parent (procs s i)) by (rewrite R2, decide_False by lia; done).
  destruct (bool_decide (p_parent (procs s1 i) = Some me)) eqn:E.
  - apply bool_decide_eq_true in E. apply wp_step. unfold wp at 1, gets.
    destruct R1 as [R1 R1']. rewrite R1', Hini. apply wp_step. unfold wp at 1, upd_proc, modify.
    set (s2 := mkPs _ _ _ _ _).
    eapply wp_mono; [apply (wakeup_spec (Some me) (ChProc ini) s2)|].
    intros u s3 ([W1 W1'] & _ & _ & W4).
    assert (Hs2 : ∀ j, procs s2 j = if decide (j = i) then set_parent (Some ini) (procs s1 j) else procs s1 j).
    { intros j. unfold s2. simpl. case_decide as Hj; [subst j; by rewrite fn_lookup_insert|by rewrite fn_lookup_insert_ne]. }
    assert (Hf : ∀ j, p_pid (procs s3 j) = p_pid (procs s1 j) ∧ p_xstate (procs s3 j) = p_xstate (procs s1 j) ∧
      p_chan (procs s3 j) = p_chan (procs s1 j) ∧
      p_parent (procs s3 j) = (if decide (j = i) then Some ini else p_parent (procs s1 j)) ∧
      (p_state (procs s3 j) = p_state (procs s1 j) ∨
       (sleeps_on (ChProc ini) (procs s1 j) = true ∧ p_state (procs s3 j) = RUNNABLE))).
    { intros j. rewrite W4. specialize (Hs2 j).
      destruct (woken_fields (Some me) (ChProc ini) j (procs s2 j)) as (F1 & F2 & F3 & F4 & F5).
      case_decide as Hj; rewrite ?F1, ?F2, ?F3, ?F4; rewrite Hs2 in *; case_decide; simpl in *; auto 8. }
    split.
    + split; [by rewrite W1, <- R1|]. by rewrite W1', <- R1'.
    + intros j. destruct (Hf j) as (_ & _ & _ & -> & _). destruct (decide (j = i)) as [->|Hne].
      * rewrite decide_True; [done|]. split; [lia|congruence].
      * rewrite R2. apply decide_ext. split; intros [? ?]; (split; [lia|done]).
    + intros j. destruct (Hf j) as (-> & -> & -> & _). apply R3.
    + intros j. destruct (Hf j) as (_ & _ & _ & _ & [->|[Hx ->]]); [apply R4|]. right. split; [|done].
      destruct (R4 j) as [Hst|[Hx' _]]; [|done]. rewrite <- Hx. symmetry. apply sleeps_on_eq; [|done]. apply R3.
    + intros _ j Hj Hjm. rewrite W4, decide_True by done. apply sleeps_on_woken. congruence.
  - apply bool_decide_eq_false in E. apply wp_ret. split; [done| |done|done|].
    + intros j. rewrite R2. destruct (decide (j = i)) as [->|Hne].
      * rewrite !decide_False; [done|..]; [intros [_ ?]; congruence|intros [? _]; lia].
      * apply decide_ext. split; intros [? ?]; (split; [lia|done]).
    + intros (j & Hj & Hpj). apply R5. exists j. split; [|done].
      destruct (decide (j = i)) as [->|]; [congruence|lia].
Qed.

Lemma exit_spec P me ini par d status s :
  files_total P → P (km s, files s) → initproc s = Some ini → me ≠ ini → (me < nproc)%nat →
  p_cwd (procs s me) = Some d → p_parent (procs s me) = Some par → par ≠ me →
  wp (exit me status) (λ _ s',
    p_state (procs s' me) = ZOMBIE ∧ p_xstate (procs s' me) = status ∧ p_pid (procs s' me) = p_pid (procs s me) ∧
    (∀ i, (i < nproc)%nat → p_parent (procs s' i) =
       if decide (p_parent (procs s i) = Some me) then Some ini else p_parent (procs s i)) ∧
    (∀ j, (j < nproc)%nat → sleeps_on (ChProc par) (procs s' j) = false) ∧
    ((∃ i, (i < nproc)%nat ∧ p_parent (procs s i) = Some me) →
       ∀ j, (j < nproc)%nat → sleeps_on (ChProc ini) (procs s' j) = false)) s.
Proof.
  intros Ht HP Hini Hme Hlt Hcwd Hpar Hpm. unfold exit. apply wp_step. unfold wp at 1, gets. rewrite Hini.
  rewrite bool_decide_eq_false_2 by congruence. apply wp_step. unfold wp at 1, get_proc, gets. rewrite Hcwd.
  assert (K0 : kinf P s s) by (split; [apply kin_refl|exact HP]).
  apply wp_step. eapply wp_mono; [by apply close_files_spec|]. intros u1 s1 K1.
  apply wp_step. eapply wp_mono; [apply kin_files; [apply Ht|exact K1]|]. intros u2 s2 K2.
  apply wp_step. eapply wp_mono; [apply kin_files; [apply Ht|exact K2]|]. intros u3 s3 K3.
  apply wp_step. eapply wp_mono; [apply kin_files; [apply Ht|exact K3]|]. intros u4 s4 K4.
  apply wp_step. eapply wp_mono; [apply kinf_upd; [done|exact K4]|]. intros u5 s5 [K _].
  clear K0 K1 K2 K3 K4. destruct K as [[_ Ki] K].
  apply wp_step. eapply wp_mono; [apply (reparent_spec me ini); [congruence|done]|]. intros u6 s6 [_ R2 R3 R4 R5].
  apply wp_step. unfold wp at 1, get_proc, gets.
  assert (Hp6 : p_parent (procs s6 me) = Some par).
  { rewrite R2. destruct (K me) as (-> & _). rewrite decide_False; [done|]. intros [_ ?]. congruence. }
  rewrite Hp6. apply wp_step. eapply wp_mono; [apply wakeup_spec|]. intros u7 s7 (_ & _ & _ & W).
  unfold wp, upd_proc, modify.
  assert (Hw : ∀ j, (j < nproc)%nat → procs s7 j = woken (Some me) (ChProc par) j (procs s6 j)).
  { intros j Hj. by rewrite W, decide_True. }
  assert (H64 : ∀ j, (j < nproc)%nat → Z.of_nat j < 64) by (unfold nproc, NPROC; lia).
  cbn [procs]. rewrite fn_lookup_insert. split; [done|]. split; [done|]. split; [|split; [|split]].
  - simpl. rewrite Hw by done. destruct (woken_fields (Some me) (ChProc par) me (procs s6 me)) as (-> & _).
    destruct (R3 me) as (-> & _). by destruct (K me) as (_ & -> & _).
  - intros i Hi. assert (Hpi : p_parent (procs s7 i) = if decide (p_parent (procs s i) = Some me) then Some ini else p_parent (procs s i)).
    { rewrite Hw by done. destruct (woken_fields (Some me) (ChProc par) i (procs s6 i)) as (_ & _ & _ & -> & _).
      rewrite R2. destruct (K i) as (-> & _). specialize (H64 i Hi). apply decide_ext. tauto. }
    destruct (decide (me = i)) as [<-|]; [rewrite fn_lookup_insert; exact Hpi|by rewrite fn_lookup_insert_ne].
  - intros j Hj. destruct (decide (me = j)) as [<-|]; [by rewrite fn_lookup_insert|].
    rewrite fn_lookup_insert_ne, Hw by done. apply sleeps_on_woken. congruence.
  - intros (i & Hi & Hpi) j Hj. destruct (decide (me = j)) as [<-|]; [by rewrite fn_lookup_insert|].
    rewrite fn_lookup_insert_ne, Hw by done. specialize (R5 ltac:(exists i; split; [by apply H64|by destruct (K i) as (-> & _)]) j Hj ltac:(done)).
    unfold woken. case_match; [done|]. destruct (sleeps_on (ChProc par) (procs s6 j)); [|done].
    unfold sleeps_on. by rewrite bool_decide_eq_false_2.
Qed.

(** ** kill and the unused slots *)

Lemma find_pid_unused k i t : (∀ j, p_state (t j) = UNUSED ↔ p_pid (t j) = 0) → find_pid k i 0 t = find_unused k i t.
Proof.
  intros Ht. revert i. induction k as [|k IH]; intros i; simpl; [done|].
  destruct (Z.eqb_spec (p_pid (t i)) 0) as [E|E]; case_decide as D; try done; [|].
  - apply Ht in E. done.
  - apply Ht in D. done.
Qed.

Lemma find_unused_ext n i (t t' : nat → proc) :
  (∀ k, p_state (t k) = p_state (t' k)) → find_unused n i t = find_unused n i t'.
Proof. intros Ht. revert i. induction n as [|n IH]; intros i; simpl; [done|]. rewrite Ht. case_decide; [done|apply IH]. Qed.

(** [allocproc] leaves the [killed] flag of the slot as it was. *)
Definition flag i (b : bool) s : Prop := p_killed (procs s i) = b.

Lemma keeps_flag_upd i b k f : (∀ p, p_killed (f p) = p_killed p) → keeps_inv (flag i b) (upd_proc k f : M S unit).
Proof.
  intros Hf s Hs. unfold post, upd_proc, modify, flag in *. simpl.
  destruct (decide (k = i)) as [->|]; [rewrite fn_lookup_insert; by rewrite Hf|by rewrite fn_lookup_insert_ne].
Qed.
Lemma keeps_flag_km {A} i b (m : M kmem A) : keeps_inv (flag i b) (on_km m : M S A).
Proof. by apply keeps_zoom. Qed.

Lemma allocproc_flag i b s : find_unused nproc 0 (procs s) = Some i → flag i b s →
  post (allocproc kend trampoline forkret_addr) (λ o s', ∀ j, o = Some j → j = i ∧ flag i b s') (λ _, True) s.
Proof.
  intros Hf Hs. unfold allocproc. apply post_bind. unfold post at 1, gets. rewrite Hf.
  assert (Hstep : ∀ {A} (m : M S A) (k : A → M S (option nat)) s', keeps_inv (flag i b) m → flag i b s' →
    (∀ a s', flag i b s' → post (k a) (λ o s', ∀ j, o = Some j → j = i ∧ flag i b s') (λ _, True) s') →
    post (bind m k) (λ o s', ∀ j, o = Some j → j = i ∧ flag i b s') (λ _, True) s').
  { intros A m k s' Hm Hs' Hk. apply post_bind. eapply post_mono; [by apply Hm|apply Hk|done]. }
  assert (Hnone : ∀ (m : M S unit) s', post (m ;;; ret None) (λ o s', ∀ j, o = Some j → j = i ∧ flag i b s') (λ _, True) s').
  { intros m s'. apply post_bind. unfold post. by destruct (m s'). }
  apply Hstep; [|done|].
  { unfold allocpid. apply keeps_bind; [apply keeps_gets|]. intros pid. apply keeps_bind; [|intros; apply keeps_ret].
    by intros s1 H1. }
  intros pid s1 H1. apply Hstep; [by apply keeps_flag_upd|done|]. intros _ s2 H2.
  apply Hstep; [apply keeps_flag_km|done|]. intros tf s3 H3.
  apply Hstep; [by apply keeps_flag_upd|done|]. intros _ s4 H4. destruct (tf =? 0); [apply Hnone|].
  apply Hstep; [apply keeps_flag_km|done|]. intros pt s5 H5.
  apply Hstep; [by apply keeps_flag_upd|done|]. intros _ s6 H6. destruct (pt =? 0); [apply Hnone|].
  apply Hstep; [by apply keeps_flag_upd|done|]. intros _ s7 H7. unfold post, ret. by intros j [= <-].
Qed.
End life.

(** ** Properties *)



(** Killing process 0 kills a process not yet born.  No process has
    identifier 0, but [kill(0)] succeeds: it marks the first unused slot, and
    [allocproc] hands that very slot out without clearing the mark. *)
Theorem kill_zero_marks_unborn {F} `{FileOps F} (kend trampoline forkret_addr : Z) (s : ps F) (i : nat)
    (Hs : pt_inv s) (Hi : find_unused nproc 0 (procs s) = Some i) :
  ∃ s', kill 0 s = Ok 0 s' ∧ p_state (procs s' i) = UNUSED ∧ p_killed (procs s' i) = true ∧
    ∀ j s'', allocproc kend trampoline forkret_addr s' = Ok (Some j) s'' →
      j = i ∧ p_killed (procs s'' j) = true.
Proof.
  assert (Hp : find_pid nproc 0 0 (procs s) = Some i) by (rewrite find_pid_unused; [done|apply Hs]).
  pose proof (find_unused_Some _ _ _ _ Hi) as Hu.
  unfold kill, bind, gets. rewrite Hp. eexists. split; [reflexivity|]. cbn [procs]. rewrite fn_lookup_insert.
  rewrite decide_False by (simpl; congruence). split; [done|]. split; [done|]. intros j s'' He.
  set (s' := mkPs _ _ _ _ _) in He.
  assert (Hsame : ∀ k, p_state (procs s' k) = p_state (procs s k)).
  { intros k. unfold s'. simpl. destruct (decide (i = k)) as [<-|]; [by rewrite fn_lookup_insert|by rewrite fn_lookup_insert_ne]. }
  assert (Hi' : find_unused nproc 0 (procs s') = Some i).
  { rewrite <- Hi. by apply find_unused_ext. }
  pose proof (allocproc_flag kend trampoline forkret_addr i true s' Hi') as Ha. unfold post in Ha. rewrite He in Ha.
  destruct (Ha ltac:(unfold flag, s'; simpl; by rewrite fn_lookup_insert) j eq_refl) as [-> Hfl]. by split.
Qed.

(** ** A small table: init, a shell, and its running child with a child of its
    own *)
#[local] Instance no_files : FileOps unit := {|
  op_filedup (_ : nat) := ret tt; op_fileclose (_ : Z) (_ : nat) := ret tt; op_idup (_ : nat) := ret tt;
  op_iput (_ : Z) (_ : nat) := ret tt; op_begin := ret tt; op_end (_ : Z) := ret tt; op_root := ret None;
|}.

Definition demo_proc (st : procstate) (c : option chan) (pid : Z) (parent : option nat) : proc :=
  mkProc st c false 0 pid parent 0 0 0 0 (0, 0) (replicate 16 None) (Some 0%nat) [].
Definition demo_table (i : nat) : proc :=
  match i with
  | 0%nat => demo_proc SLEEPING (Some (ChProc 0)) 1 None
  | 1%nat => demo_proc SLEEPING (Some (ChProc 1)) 2 (Some 0%nat)
  | 2%nat => demo_proc RUNNING None 3 (Some 1%nat)
  | 3%nat => demo_proc RUNNABLE None 4 (Some 2%nat)
  | _ => demo_proc UNUSED None 0 None
  end.
Definition demo_ps : ps unit := mkPs (mkKmem (λ _, 0) 0) demo_table 5 (Some 0%nat) tt.

Lemma demo_ps_inv : pt_inv demo_ps.
Proof.
  split; simpl.
  - intros [|[|[|[|i]]]]; simpl; split; (discriminate || done).
  - intros [|[|[|[|i]]]]; simpl; lia.
  - intros [|[|[|[|i]]]] [|[|[|[|j]]]]; simpl; intros; done.
  - lia.
Qed.


Lemma no_files_total : files_total (F := unit) (λ _, True).
Proof. split; intros; eexists; (split; [reflexivity|exact I]). Qed.


Lemma kill_zero_marks_unborn_witness :
  ∃ s', kill 0 demo_ps = Ok 0 s' ∧ p_killed (procs s' 4%nat) = true.
Proof.
  destruct (kill_zero_marks_unborn 0 0 0 demo_ps 4 demo_ps_inv) as (s' & H1 & _ & H2 & _); [reflexivity|].
  exists s'. split; [exact H1|exact H2].
Defined.
