(* ===== verification/Fs.v ===== *)
(** * Fs: kernel/fs.c

    Blocks, inodes, directories and path names over the buffer cache and the
    log.  A pointer to an inode is the index of its entry in [itable]; [mypid]
    is the identifier of the running process.  A destination or a source in
    memory is given by what a copy of bytes to or from it does ([put], [fetch]),
    so that a local variable of the kernel and a user buffer are treated alike. *)
From stdpp Require Import functions.
From S2P Require Import Prelude Riscv CString Spinlock Bio Log UserMem.

Definition ROOTINO : Z := 1.
Definition FSMAGIC : Z := 270544960.      (* 0x10203040 *)
Definition NDIRECT : Z := 12.
Definition NINDIRECT : Z := BSIZE / 4.
Definition MAXFILE : Z := NDIRECT + NINDIRECT.
Definition DINODE_SIZE : Z := 64.
Definition IPB : Z := BSIZE / DINODE_SIZE.
Definition BPB : Z := BSIZE * 8.
Definition DIRSIZ : Z := 14.
Definition DIRENT_SIZE : Z := 16.

Definition T_DIR : Z := 1.
Definition T_FILE : Z := 2.
Definition T_DEVICE : Z := 3.

Record superblock : Type := mkSb {
  sb_magic : Z;
  sb_size : Z;
  sb_nblocks : Z;
  sb_ninodes : Z;
  sb_nlog : Z;
  sb_logstart : Z;
  sb_inodestart : Z;
  sb_bmapstart : Z;
}.

Definition IBLOCK (i : Z) (sb : superblock) : Z := u32 (i / IPB + sb_inodestart sb).
Definition BBLOCK (b : Z) (sb : superblock) : Z := u32 (b / BPB + sb_bmapstart sb).

(** [struct dinode], the part of an inode that lives on disk. *)
Record dinode : Type := mkDinode {
  d_type : Z;
  d_major : Z;
  d_minor : Z;
  d_nlink : Z;
  d_size : Z;
  d_addrs : list Z;
}.

(** [struct inode]. *)
Record inode : Type := mkInode {
  i_dev : Z;
  i_inum : Z;
  i_ref : Z;
  i_lock : sleeplock;
  i_valid : bool;
  i_d : dinode;
}.

Definition set_ref (v : Z) (ip : inode) : inode :=
  mkInode (i_dev ip) (i_inum ip) v (i_lock ip) (i_valid ip) (i_d ip).
Definition set_ilock (v : sleeplock) (ip : inode) : inode :=
  mkInode (i_dev ip) (i_inum ip) (i_ref ip) v (i_valid ip) (i_d ip).
Definition set_ivalid (v : bool) (ip : inode) : inode :=
  mkInode (i_dev ip) (i_inum ip) (i_ref ip) (i_lock ip) v (i_d ip).
Definition set_d (v : dinode) (ip : inode) : inode :=
  mkInode (i_dev ip) (i_inum ip) (i_ref ip) (i_lock ip) (i_valid ip) v.
Definition set_type (v : Z) (d : dinode) : dinode :=
  mkDinode v (d_major d) (d_minor d) (d_nlink d) (d_size d) (d_addrs d).
Definition set_dev_numbers (major minor : Z) (d : dinode) : dinode :=
  mkDinode (d_type d) major minor (d_nlink d) (d_size d) (d_addrs d).
Definition set_nlink (v : Z) (d : dinode) : dinode :=
  mkDinode (d_type d) (d_major d) (d_minor d) v (d_size d) (d_addrs d).
Definition set_size (v : Z) (d : dinode) : dinode :=
  mkDinode (d_type d) (d_major d) (d_minor d) (d_nlink d) v (d_addrs d).
Definition set_addr (i : nat) (v : Z) (d : dinode) : dinode :=
  mkDinode (d_type d) (d_major d) (d_minor d) (d_nlink d) (d_size d) (<[i := v]> (d_addrs d)).

(** ** Layout of the structures on disk *)

Definition st16 (off : nat) (v : Z) (data : list Z) : list Z := splice data off (le_bytes 2 (u16 v)).
Definition ld16 (off : nat) (data : list Z) : Z := le_val (slice data off 2).

(** Fields in order: four shorts, the size, thirteen addresses. *)
Definition dinode_bytes (d : dinode) : list Z :=
  le_bytes 2 (u16 (d_type d)) ++ le_bytes 2 (u16 (d_major d)) ++ le_bytes 2 (u16 (d_minor d)) ++
  le_bytes 2 (u16 (d_nlink d)) ++ le_bytes 4 (u32 (d_size d)) ++
  mjoin ((λ a, le_bytes 4 (u32 a)) <$> d_addrs d).

Fixpoint ld32s (n : nat) (off : nat) (data : list Z) : list Z :=
  match n with O => [] | S n => ld32 off data :: ld32s n (off + 4) data end.

Definition dinode_at (off : nat) (data : list Z) : dinode :=
  mkDinode (i16 (ld16 off data)) (i16 (ld16 (off + 2) data)) (i16 (ld16 (off + 4) data))
    (i16 (ld16 (off + 6) data)) (ld32 (off + 8) data) (ld32s 13 (off + 12) data).

(** [(struct dinode* )bp->data + inum % IPB]. *)
Definition dinode_off (inum : Z) : nat := Z.to_nat (inum mod IPB * DINODE_SIZE).

Definition zero_dinode (type : Z) : dinode := mkDinode type 0 0 0 0 (replicate 13 0).

Record fstate (D : Type) : Type := mkFs { fl : lst D; fsb : superblock; itab : nat → inode }.
Arguments mkFs {D}.
Arguments fl {D} _.
Arguments fsb {D} _.
Arguments itab {D} _.

Definition ninode : nat := Z.to_nat NINODE.

Section Fs.
Context {D : Type} `{Disk D}.
Context (mypid : Z).
Notation MF := (M (fstate D)).

Definition flog {A} (m : M (lst D) A) : MF A := zoom fl (λ l s, mkFs l (fsb s) (itab s)) m.
Definition fbread (dev blockno : Z) : MF nat := flog (lb (bread mypid dev blockno)).
Definition fbrelse (bp : nat) : MF unit := flog (lb (brelse mypid bp)).
Definition fdata (bp : nat) : MF (list Z) := flog (lb (buf_data bp)).
Definition fset (bp : nat) (f : list Z → list Z) : MF unit := flog (lb (set_buf_data bp f)).
Definition flog_write (bp : nat) : MF unit := flog (log_write bp).
Definition get_ino (ip : nat) : MF inode := gets (λ s, itab s ip).
Definition upd_ino (ip : nat) (f : inode → inode) : MF unit :=
  modify (λ s, mkFs (fl s) (fsb s) (<[ip := f (itab s ip)]> (itab s))).
Definition upd_d (ip : nat) (f : dinode → dinode) : MF unit :=
  upd_ino ip (λ n, set_d (f (i_d n)) n).

(** ** The superblock *)

Definition sb_of (data : list Z) : superblock :=
  mkSb (ld32 0 data) (ld32 4 data) (ld32 8 data) (ld32 12 data) (ld32 16 data) (ld32 20 data)
    (ld32 24 data) (ld32 28 data).

Definition readsb (dev : Z) : MF unit :=
  do bp <- fbread dev 1;
  do data <- fdata bp;
  modify (λ s, mkFs (fl s) (sb_of data) (itab s)) ;;;
  fbrelse bp.

Definition fsinit (dev : Z) : MF unit :=
  readsb dev ;;;
  do sb <- gets fsb;
  if negb (sb_magic sb =? FSMAGIC) then panic "invalid file system"
  else flog (initlog mypid dev (sb_logstart sb) (sb_nlog sb)).

(** ** Blocks *)

Definition bzero (dev bno : Z) : MF unit :=
  do bp <- fbread dev (u32 bno);
  fset bp (λ data, replicate (length data) 0) ;;;
  flog_write bp ;;;
  fbrelse bp.

(** Bit [bi] of a bitmap block. *)
Definition bit_of (data : list Z) (bi : Z) : bool := Z.testbit (nth (Z.to_nat (bi / 8)) data 0) (bi mod 8).
(** [bp->data[bi/8] |= m] and [bp->data[bi/8] &= ~m], with [m = 1 << (bi % 8)]. *)
Definition set_bit (bi : Z) (data : list Z) : list Z :=
  <[Z.to_nat (bi / 8) := Z.lor (nth (Z.to_nat (bi / 8)) data 0) (Z.shiftl 1 (bi mod 8))]> data.
Definition clear_bit (bi : Z) (data : list Z) : list Z :=
  <[Z.to_nat (bi / 8) := Z.ldiff (nth (Z.to_nat (bi / 8)) data 0) (Z.shiftl 1 (bi mod 8))]> data.

(** The inner loop of [balloc]: the first clear bit among [n] from [bi] on. *)
Fixpoint find_clear (n : nat) (bi : Z) (data : list Z) : option Z :=
  match n with
  | O => None
  | S n => if bit_of data bi then find_clear n (bi + 1) data else Some bi
  end.

(** The variable [b] is an int: its overflow is undefined. *)
Fixpoint balloc_loop (fuel : nat) (dev b : Z) : MF Z :=
  do sb <- gets fsb;
  if b <? sb_size sb then
    match fuel with
    | O => nofuel
    | S fuel =>
        do bp <- fbread dev (BBLOCK b sb);
        do data <- fdata bp;
        match find_clear (Z.to_nat (Z.min BPB (sb_size sb - b))) 0 data with
        | Some bi =>
            fset bp (set_bit bi) ;;;
            flog_write bp ;;;
            fbrelse bp ;;;
            bzero dev (b + bi) ;;;
            ret (b + bi)
        | None =>
            fbrelse bp ;;;
            if 2147483647 <? b + BPB then undef else balloc_loop fuel dev (b + BPB)
        end
    end
  else ret 0.

(** The outer loop runs once per bitmap block; after that [b >= sb.size]. *)
Definition balloc (dev : Z) : MF Z :=
  do sb <- gets fsb;
  balloc_loop (Z.to_nat (sb_size sb / BPB + 1)) dev 0.

Definition bfree (dev b : Z) : MF unit :=
  do sb <- gets fsb;
  do bp <- fbread dev (BBLOCK b sb);
  do data <- fdata bp;
  let bi := b mod BPB in
  if negb (bit_of data bi) then panic "freeing free block"
  else
    fset bp (clear_bit bi) ;;;
    flog_write bp ;;;
    fbrelse bp.

(** ** Inodes *)

Definition iinit : MF unit :=
  for_loop ninode 0 (λ i, upd_ino (Z.to_nat i) (set_ilock initsleeplock)).

(** The loop of [iget]: an entry for the inode, or the first empty one. *)
Fixpoint iget_scan (k i : nat) (t : nat → inode) (dev inum : Z) (empty : option nat) :
    option nat * option nat :=
  match k with
  | O => (None, empty)
  | S k =>
      if (0 <? i_ref (t i)) && (i_dev (t i) =? dev) && (i_inum (t i) =? inum) then (Some i, empty)
      else
        let empty :=
          match empty with
          | None => if i_ref (t i) =? 0 then Some i else None
          | e => e
          end in
        iget_scan k (S i) t dev inum empty
  end.

Definition iget (dev inum : Z) : MF nat :=
  do t <- gets itab;
  match iget_scan ninode 0 t dev inum None with
  | (Some i, _) => upd_ino i (λ n, set_ref (i32 (i_ref n + 1)) n) ;;; ret i
  | (None, Some i) =>
      upd_ino i (λ n, mkInode dev inum 1 (i_lock n) false (i_d n)) ;;; ret i
  | (None, None) => panic "iget: no inodes"
  end.

Fixpoint ialloc_loop (k : nat) (dev type inum : Z) : MF (option nat) :=
  match k with
  | O => ret None
  | S k =>
      do sb <- gets fsb;
      do bp <- fbread dev (IBLOCK inum sb);
      do data <- fdata bp;
      if i16 (ld16 (dinode_off inum) data) =? 0 then
        fset bp (λ data, splice data (dinode_off inum) (dinode_bytes (zero_dinode type))) ;;;
        flog_write bp ;;;
        fbrelse bp ;;;
        do i <- iget dev inum;
        ret (Some i)
      else fbrelse bp ;;; ialloc_loop k dev type (inum + 1)
  end.

(** [for(inum = 1; inum < sb.ninodes; inum++)]. *)
Definition ialloc (dev type : Z) : MF (option nat) :=
  do sb <- gets fsb;
  ialloc_loop (Z.to_nat (sb_ninodes sb - 1)) dev type 1.

Definition iupdate (ip : nat) : MF unit :=
  do n <- get_ino ip;
  do sb <- gets fsb;
  do bp <- fbread (i_dev n) (IBLOCK (i_inum n) sb);
  fset bp (λ data, splice data (dinode_off (i_inum n)) (dinode_bytes (i_d n))) ;;;
  flog_write bp ;;;
  fbrelse bp.

Definition idup (ip : nat) : MF nat :=
  upd_ino ip (λ n, set_ref (i32 (i_ref n + 1)) n) ;;; ret ip.

Definition ino_lock (ip : nat) {A} (m : M sleeplock A) : MF A :=
  zoom (λ s, i_lock (itab s ip)) (λ l s, mkFs (fl s) (fsb s) (<[ip := set_ilock l (itab s ip)]> (itab s))) m.

Definition ilock (ip : nat) : MF unit :=
  do n <- get_ino ip;
  if i_ref n <? 1 then panic "ilock"
  else
    ino_lock ip (acquiresleep (ChInodeLock ip) mypid) ;;;
    do n <- get_ino ip;
    if i_valid n then ret tt
    else
      do sb <- gets fsb;
      do bp <- fbread (i_dev n) (IBLOCK (i_inum n) sb);
      do data <- fdata bp;
      upd_d ip (λ _, dinode_at (dinode_off (i_inum n)) data) ;;;
      fbrelse bp ;;;
      upd_ino ip (set_ivalid true) ;;;
      do n <- get_ino ip;
      if d_type (i_d n) =? 0 then panic "ilock: no type" else ret tt.

Definition iunlock (ip : nat) : MF unit :=
  do h <- ino_lock ip (holdingsleep mypid);
  do n <- get_ino ip;
  if negb h || (i_ref n <? 1) then panic "iunlock"
  else ino_lock ip releasesleep.

(** [ip->addrs[i]]. *)
Definition addr_of (n : inode) (i : Z) : Z := nth (Z.to_nat i) (d_addrs (i_d n)) 0.

Fixpoint itrunc_direct (k i : nat) (ip : nat) : MF unit :=
  match k with
  | O => ret tt
  | S k =>
      do n <- get_ino ip;
      let a := addr_of n (Z.of_nat i) in
      (if a =? 0 then ret tt else bfree (i_dev n) a ;;; upd_d ip (set_addr i 0)) ;;;
      itrunc_direct k (S i) ip
  end.

Fixpoint itrunc_indirect (k : nat) (j : nat) (dev : Z) (a : list Z) : MF unit :=
  match k with
  | O => ret tt
  | S k =>
      let x := ld32 (4 * j) a in
      (if x =? 0 then ret tt else bfree dev x) ;;;
      itrunc_indirect k (S j) dev a
  end.

Definition itrunc (ip : nat) : MF unit :=
  itrunc_direct (Z.to_nat NDIRECT) 0 ip ;;;
  do n <- get_ino ip;
  let ind := addr_of n NDIRECT in
  (if ind =? 0 then ret tt
   else
     do bp <- fbread (i_dev n) ind;
     do a <- fdata bp;
     itrunc_indirect (Z.to_nat NINDIRECT) 0 (i_dev n) a ;;;
     fbrelse bp ;;;
     bfree (i_dev n) ind ;;;
     upd_d ip (set_addr (Z.to_nat NDIRECT) 0)) ;;;
  upd_d ip (set_size 0) ;;;
  iupdate ip.

(** [acquiresleep] in [iput] is on a lock nobody else can hold. *)
Definition iput (ip : nat) : MF unit :=
  do n <- get_ino ip;
  (if (i_ref n =? 1) && i_valid n && (d_nlink (i_d n) =? 0) then
     ino_lock ip (acquiresleep (ChInodeLock ip) mypid) ;;;
     itrunc ip ;;;
     upd_d ip (set_type 0) ;;;
     iupdate ip ;;;
     upd_ino ip (set_ivalid false) ;;;
     ino_lock ip releasesleep
   else ret tt) ;;;
  upd_ino ip (λ n, set_ref (i32 (i_ref n - 1)) n).

Definition iunlockput (ip : nat) : MF unit := iunlock ip ;;; iput ip.

(** ** Contents *)

Definition bmap (ip : nat) (bn : Z) : MF Z :=
  do n <- get_ino ip;
  if bn <? NDIRECT then
    let addr := addr_of n bn in
    if addr =? 0 then
      do addr <- balloc (i_dev n);
      if addr =? 0 then ret 0
      else upd_d ip (set_addr (Z.to_nat bn) addr) ;;; ret addr
    else ret addr
  else
    let bn := bn - NDIRECT in
    if bn <? NINDIRECT then
      let addr := addr_of n NDIRECT in
      do addr <- (if addr =? 0 then
                    do addr <- balloc (i_dev n);
                    if addr =? 0 then ret 0
                    else upd_d ip (set_addr (Z.to_nat NDIRECT) addr) ;;; ret addr
                  else ret addr);
      if addr =? 0 then ret 0
      else
        do bp <- fbread (i_dev n) addr;
        do a <- fdata bp;
        let addr := ld32 (Z.to_nat (4 * bn)) a in
        do addr <- (if addr =? 0 then
                      do addr <- balloc (i_dev n);
                      if addr =? 0 then ret 0
                      else fset bp (st32 (Z.to_nat (4 * bn)) addr) ;;; flog_write bp ;;; ret addr
                    else ret addr);
        fbrelse bp ;;;
        ret addr
    else panic "bmap: out of range".

Record statinfo : Type := mkStat { st_dev : Z; st_ino : Z; st_type : Z; st_nlink : Z; st_size : Z }.

Definition stati (ip : nat) : MF statinfo :=
  do n <- get_ino ip;
  ret (mkStat (i32 (i_dev n)) (i_inum n) (d_type (i_d n)) (d_nlink (i_d n)) (d_size (i_d n))).

Section read.
Context {X : Type} (put : X → Z → list Z → bool * X).

(** Each iteration copies at least one byte. *)
Fixpoint readi_loop (fuel : nat) (ip : nat) (x : X) (dst off n tot : Z) : MF (Z * X) :=
  if tot <? n then
    match fuel with
    | O => nofuel
    | S fuel =>
        do addr <- bmap ip (off / BSIZE);
        if addr =? 0 then ret (i32 tot, x)
        else
          do ino <- get_ino ip;
          do bp <- fbread (i_dev ino) addr;
          let m := Z.min (n - tot) (BSIZE - off mod BSIZE) in
          do data <- fdata bp;
          let '(ok, x) := put x dst (slice data (Z.to_nat (off mod BSIZE)) (Z.to_nat m)) in
          fbrelse bp ;;;
          if ok then readi_loop fuel ip x (u64 (dst + m)) (u32 (off + m)) n (u32 (tot + m))
          else ret (-1, x)
    end
  else ret (i32 tot, x).

Definition readi (ip : nat) (x : X) (dst off n : Z) : MF (Z * X) :=
  do ino <- get_ino ip;
  let size := d_size (i_d ino) in
  if (size <? off) || (u32 (off + n) <? off) then ret (0, x)
  else
    let n := if size <? u32 (off + n) then u32 (size - off) else n in
    readi_loop (Z.to_nat n) ip x dst off n 0.
End read.

Section write.
Context (fetch : Z → Z → bool * list Z).

(** The result is [tot] and the final [off]. *)
Fixpoint writei_loop (fuel : nat) (ip : nat) (src off n tot : Z) : MF (Z * Z) :=
  if tot <? n then
    match fuel with
    | O => nofuel
    | S fuel =>
        do addr <- bmap ip (off / BSIZE);
        if addr =? 0 then ret (tot, off)
        else
          do ino <- get_ino ip;
          do bp <- fbread (i_dev ino) addr;
          let m := Z.min (n - tot) (BSIZE - off mod BSIZE) in
          let '(ok, l) := fetch src m in
          fset bp (λ data, splice data (Z.to_nat (off mod BSIZE)) l) ;;;
          if ok then
            flog_write bp ;;;
            fbrelse bp ;;;
            writei_loop fuel ip (u64 (src + m)) (u32 (off + m)) n (u32 (tot + m))
          else fbrelse bp ;;; ret (tot, off)
    end
  else ret (tot, off).

Definition writei (ip : nat) (src off n : Z) : MF Z :=
  do ino <- get_ino ip;
  if (d_size (i_d ino) <? off) || (u32 (off + n) <? off) then ret (-1)
  else if MAXFILE * BSIZE <? u32 (off + n) then ret (-1)
  else
    do r <- writei_loop (Z.to_nat n) ip src off n 0;
    let '(tot, off) := r in
    do ino <- get_ino ip;
    (if d_size (i_d ino) <? off then upd_d ip (set_size off) else ret tt) ;;;
    iupdate ip ;;;
    ret (i32 tot).
End write.

(** A local variable of the kernel as destination and as source: an array whose
    first byte is at address 0. *)
Definition put_local (x : list Z) (dst : Z) (l : list Z) : bool * list Z := (true, splice x (Z.to_nat dst) l).
Definition fetch_local (x : list Z) (src len : Z) : bool * list Z := (true, slice x (Z.to_nat src) (Z.to_nat len)).

(** ** Directories *)

Definition namecmp (s t : list Z) : Z := strncmp (arr_of s) (arr_of t) DIRSIZ.

(** A [struct dirent] is its 16 bytes. *)
Definition de_inum (de : list Z) : Z := ld16 0 de.
Definition de_name (de : list Z) : list Z := drop 2 de.

Fixpoint dirlookup_loop (fuel : nat) (dp : nat) (name de : list Z) (off : Z) :
    MF (option (nat * Z)) :=
  do ino <- get_ino dp;
  if off <? d_size (i_d ino) then
    match fuel with
    | O => nofuel
    | S fuel =>
        do r <- readi put_local dp de 0 off DIRENT_SIZE;
        let '(r, de) := r in
        if negb (r =? DIRENT_SIZE) then panic "dirlookup read"
        else if negb (de_inum de =? 0) && (namecmp name (de_name de) =? 0) then
          do i <- iget (i_dev ino) (de_inum de);
          ret (Some (i, off))
        else dirlookup_loop fuel dp name de (u32 (off + DIRENT_SIZE))
    end
  else ret None.

(** The entry's inode and its offset ([*poff]).  The local [de] holds no value
    before the first [readi]; what it holds in the model is never looked at. *)
Definition dirlookup (dp : nat) (name : list Z) : MF (option (nat * Z)) :=
  do ino <- get_ino dp;
  if negb (d_type (i_d ino) =? T_DIR) then panic "dirlookup not DIR"
  else dirlookup_loop (S (Z.to_nat (d_size (i_d ino) / DIRENT_SIZE))) dp name (replicate 16 0) 0.

(** The loop of [dirlink] that looks for an empty entry. *)
Fixpoint dirlink_loop (fuel : nat) (dp : nat) (de : list Z) (off : Z) : MF (Z * list Z) :=
  do ino <- get_ino dp;
  if u32 off <? d_size (i_d ino) then
    match fuel with
    | O => nofuel
    | S fuel =>
        do r <- readi put_local dp de 0 (u32 off) DIRENT_SIZE;
        let '(r, de) := r in
        if negb (r =? DIRENT_SIZE) then panic "dirlink read"
        else if de_inum de =? 0 then ret (off, de)
        else dirlink_loop fuel dp de (i32 (off + DIRENT_SIZE))
    end
  else ret (off, de).

Definition dirent_bytes (old name : list Z) (inum : Z) : list Z :=
  le_bytes 2 (u16 inum) ++ to_list 14 (strncpy (arr_of (de_name old)) (arr_of name) DIRSIZ).

Definition dirlink (dp : nat) (name : list Z) (inum : Z) : MF Z :=
  do o <- dirlookup dp name;
  match o with
  | Some (ip, _) => iput ip ;;; ret (-1)
  | None =>
      do ino <- get_ino dp;
      do r <- dirlink_loop (S (Z.to_nat (d_size (i_d ino) / DIRENT_SIZE))) dp (replicate 16 0) 0;
      let '(off, de) := r in
      do r <- writei (fetch_local (dirent_bytes de name inum)) dp 0 (u32 off) DIRENT_SIZE;
      if negb (r =? DIRENT_SIZE) then ret (-1) else ret 0
  end.

(** ** Paths: lists of characters without their NUL *)

Fixpoint skip_slashes (path : list Z) : list Z :=
  match path with c :: path' => if c =? 47 then skip_slashes path' else path | [] => [] end.
(** The characters before the next slash, and the rest. *)
Fixpoint span_elem (path : list Z) : list Z * list Z :=
  match path with
  | c :: path' => if c =? 47 then ([], path) else let '(s, r) := span_elem path' in (c :: s, r)
  | [] => ([], [])
  end.

(** The rest of the path and the buffer [name]; [None] when there is no element. *)
Definition skipelem (path name : list Z) : option (list Z * list Z) :=
  match skip_slashes path with
  | [] => None
  | path =>
      let '(s, path) := span_elem path in
      let name :=
        if (Z.to_nat DIRSIZ <=? length s)%nat then splice name 0 (take (Z.to_nat DIRSIZ) s)
        else splice name 0 (s ++ [0]) in
      Some (skip_slashes path, name)
  end.

(** Each element takes at least one character of the path. *)
Fixpoint namex_loop (fuel : nat) (ip : nat) (path name : list Z) (nameiparent : bool) :
    MF (option nat * list Z) :=
  match skipelem path name with
  | None => if nameiparent then iput ip ;;; ret (None, name) else ret (Some ip, name)
  | Some (path, name) =>
      match fuel with
      | O => nofuel
      | S fuel =>
          ilock ip ;;;
          do n <- get_ino ip;
          if negb (d_type (i_d n) =? T_DIR) then iunlockput ip ;;; ret (None, name)
          else if nameiparent && bool_decide (path = []) then iunlock ip ;;; ret (Some ip, name)
          else
            do o <- dirlookup ip name;
            match o with
            | None => iunlockput ip ;;; ret (None, name)
            | Some (next, _) => iunlockput ip ;;; namex_loop fuel next path name nameiparent
            end
      end
  end.

(** [cwd] is [myproc()->cwd]. *)
Definition namex (cwd : nat) (path name : list Z) (nameiparent : bool) : MF (option nat * list Z) :=
  do ip <- (match path with
            | 47 :: _ => iget ROOTDEV ROOTINO
            | _ => idup cwd
            end);
  namex_loop (length path) ip path name nameiparent.

Definition namei (cwd : nat) (path : list Z) : MF (option nat) :=
  do r <- namex cwd path (replicate 14 0) false; ret r.1.
Definition nameiparent (cwd : nat) (path name : list Z) : MF (option nat * list Z) :=
  namex cwd path name true.
End Fs.
