(* ===== verification/FsTx.v ===== *)
(** * FsTx: what a file system routine sees inside a transaction

    [ftx] presents the buffer cache and the log of a transaction as a function
    from block numbers to contents, a list of blocks written and the stack of
    buffers held.  The rules below are how Fs.v uses the layers underneath. *)
From stdpp Require Import functions.
From S2P Require Import Prelude Riscv Spinlock Bio BioSpec Log LogSpec LogCrash LogTx UserMem Fs.

Section FsTx.
Context {D : Type} `{Disk D}.
Context (dev : Z) (Hdev : 0 < dev < 2 ^ 31) (mypid : Z).
Context (start cap : Z) (Hstart : 0 ≤ start ∧ 0 ≤ cap ≤ LOGSIZE ∧ start + cap + 1 < 2 ^ 31).
Context (sb : superblock) (out : Z).
Implicit Types (s : fstate D) (d : D) (V : Z → list Z) (bs : list Z) (hs : list (nat * Z)).
Notation in_log := (in_log start cap).

(** A transaction over the disk [d] that shows the blocks as [V], has written
    the blocks [bs] and holds the buffers [hs], the last one first; the contents
    of [dirty] differ from the disk and are not yet in the log.  [out]
    operations are in progress. *)
Record ftx s d V bs hs (dirty : option Z) : Prop := {
  fx_cst : ∃ A, cst dev (lbc (fl s)) A d ∧ (∀ b, view (A b) = V b) ∧
    (∀ b, refs (A b) = (if decide (b ∈ bs) then 1 else 0) + (if decide (b ∈ hs.*2) then 1 else 0)) ∧
    (∀ b, owner (A b) = if decide (b ∈ hs.*2) then Some mypid else None);
  fx_header : header dev start cap (lg (fl s)) bs;
  fx_nodup : NoDup hs.*2;
  fx_handle : ∀ i b, (i, b) ∈ hs → handle dev (lbc (fl s)) i b;
  fx_clean : ∀ b, b ∉ bs → dirty ≠ Some b → V b = disk_read d b;
  fx_len : ∀ b, length (V b) = 1024%nat;
  fx_out : l_outstanding (lg (fl s)) = out ∧ 0 ≤ out ∧ l_committing (lg (fl s)) = false;
  fx_size : l_size (lg (fl s)) = cap + 1;
  fx_sb : fsb s = sb;
}.

(** What the rules leave alone. *)
Definition same_inodes s s' : Prop := itab s' = itab s.

Ltac ins :=
  repeat match goal with
  | |- context [insert ?x ?v ?f ?x] => rewrite (fn_lookup_insert f x v)
  | |- context [insert ?x ?v ?f ?y] => rewrite (fn_lookup_insert_ne f x y v) by congruence
  end; cbn [refs owner view].

Lemma wp_flog {A} (m : M (lst D) A) (Q : A → fstate D → Prop) s :
  wp m (λ a l, Q a (mkFs l (fsb s) (itab s))) (fl s) → wp (flog m) Q s.
Proof. intros Hm. apply wp_zoom. exact Hm. Qed.

Lemma wp_lb {A} (m : M (bcache D) A) (Q : A → lst D → Prop) (l : lst D) :
  wp m (λ a c, Q a (mkLst c (lg l))) (lbc l) → wp (lb m) Q l.
Proof. intros Hm. apply wp_zoom. exact Hm. Qed.

Lemma fx_bread s d V bs hs b (Q : nat → fstate D → Prop) :
  ftx s d V bs hs None → 0 ≤ b < 2 ^ 32 → b ∉ hs.*2 → (length bs + length hs < 30)%nat →
  (∀ i s', ftx s' d V bs ((i, b) :: hs) None → itab s' = itab s → Q i s') →
  wp (fbread mypid dev b) Q s.
Proof.
  intros [(A & Hc & HV & Hr & Ho) Hh Hnd Hhd Hcl Hlen Hout Hsz Hsb] Hb Hnb Hroom HQ.
  apply wp_flog, wp_lb. assert (Hrb := Hr b). rewrite (decide_False (P := b ∈ hs.*2)) in Hrb by done.
  eapply (cst_bread dev ltac:(lia) mypid); [exact Hc| | | |].
  - right. exists (bs ++ hs.*2). split.
    + intros b' Hp. rewrite elem_of_app. rewrite Hr in Hp. repeat case_decide; auto; lia.
    + rewrite length_app, length_fmap. unfold nbuf, NBUF, MAXOPBLOCKS. lia.
  - by rewrite Ho, decide_False.
  - rewrite Hrb. case_decide; lia.
  - intros i c' Hc' Hi K. apply HQ; [|done]. split; try done; cbn [fl lg lbc].
    + exists (<[b := mkInfo (refs (A b) + 1) (Some mypid) (view (A b))]> A). split; [exact Hc'|].
      cbn [fmap list_fmap snd]. split; [|split]; intros b'; destruct (decide (b = b')) as [<-|Hne]; ins.
      * apply HV.
      * apply HV.
      * rewrite Hrb, (decide_True (P := b ∈ b :: _)) by (by left). lia.
      * rewrite Hr. f_equal. apply decide_ext. rewrite elem_of_cons. naive_solver.
      * by rewrite (decide_True (P := b ∈ b :: _)) by (by left).
      * rewrite Ho. apply decide_ext. rewrite elem_of_cons. naive_solver.
    + cbn [fmap list_fmap snd]. by constructor.
    + intros j b' [[= -> ->]|Hj]%elem_of_cons; [exact Hi|]. by apply K, Hhd.
Qed.

Lemma fx_data s d V bs hs dirty i b (Q : list Z → fstate D → Prop) :
  ftx s d V bs hs dirty → (i, b) ∈ hs → Q (V b) s → wp (fdata i) Q s.
Proof.
  intros [(A & Hc & HV & _ & _) _ _ Hhd _ _ _ _ _] Hi HQ. apply wp_flog, wp_lb.
  eapply cst_buf_data; [exact Hc|by apply Hhd|]. rewrite HV. by destruct s as [[] ? ?].
Qed.

Lemma fx_set s d V bs hs i b f (Q : unit → fstate D → Prop) :
  ftx s d V bs ((i, b) :: hs) None → length (f (V b)) = 1024%nat →
  (∀ s', ftx s' d (<[b := f (V b)]> V) bs ((i, b) :: hs) (Some b) → itab s' = itab s → Q tt s') →
  wp (fset i f) Q s.
Proof.
  intros [(A & Hc & HV & Hr & Ho) Hh Hnd Hhd Hcl Hlen Hout Hsz Hsb] Hf HQ. apply wp_flog, wp_lb.
  eapply cst_set_buf_data; [exact Hc|apply Hhd; by left|]. intros c' Hc' K. apply HQ; [|done].
  split; try done; cbn [fl lg lbc].
  - eexists. split; [exact Hc'|]. rewrite HV. split; [|split]; intros b'; destruct (decide (b = b')) as [<-|Hne]; ins; auto.
  - intros j b' Hj. by apply K, Hhd.
  - intros b' Hb' Hne. ins. apply Hcl; [done|]. congruence.
  - intros b'. destruct (decide (b = b')) as [<-|Hne]; ins; auto.
Qed.

Lemma fx_log s d V bs hs i b dirty (Q : unit → fstate D → Prop) :
  0 < out → ftx s d V bs ((i, b) :: hs) dirty → dirty = None ∨ dirty = Some b →
  0 ≤ b < 2 ^ 31 → ¬ in_log b → Z.of_nat (length bs) < cap →
  (∀ s', ftx s' d V (add_block bs b) ((i, b) :: hs) None → itab s' = itab s → Q tt s') →
  wp (flog_write i) Q s.
Proof.
  intros Hpos [(A & Hc & HV & Hr & Ho) Hh Hnd Hhd Hcl Hlen Hout Hsz Hsb] Hd Hb Hnl Hcap HQ. apply wp_flog.
  pose proof (hd_n _ _ _ _ _ Hh) as Hn. assert (Hrb := Hr b).
  assert (Hbh : b ∈ ((i, b) :: hs).*2) by (by left). rewrite (decide_True (P := b ∈ (_ :: _).*2)) in Hrb by done.
  eapply (log_write_spec dev start cap Hstart _ A d bs i b); [exact Hc|exact Hh|apply Hhd; by left|lia|done| |lia|lia|lia|].
  { rewrite Hrb. case_decide; lia. }
  intros l' Hh' Ho' Hs' Hcm' Hc' K. apply HQ; [|done].
  split; try done; cbn [fl]; [|by intros j b' Hj; apply K, Hhd| |rewrite Ho', Hcm'; done|lia].
  - eexists. split; [exact Hc'|]. unfold add_block. destruct (decide (b ∈ bs)) as [Hin|Hin]; [done|].
    split; [|split]; intros b'; destruct (decide (b = b')) as [<-|Hne]; ins; auto.
    + rewrite Hrb. rewrite (decide_True (P := b ∈ bs ++ _)) by (rewrite elem_of_app; right; by left).
      rewrite (decide_True (P := b ∈ (_ :: _).*2)) by done. lia.
    + rewrite Hr. f_equal. apply decide_ext. rewrite elem_of_app, list_elem_of_singleton. naive_solver.
  - intros b' Hb' _. apply Hcl; unfold add_block in Hb'.
    + case_decide; [done|]. rewrite not_elem_of_app in Hb'. tauto.
    + destruct Hd as [-> | ->]; [done|]. intros [= ->]. case_decide; [done|].
      rewrite not_elem_of_app, list_elem_of_singleton in Hb'. tauto.
Qed.

Lemma fx_brelse s d V bs hs i b (Q : unit → fstate D → Prop) :
  ftx s d V bs ((i, b) :: hs) None →
  (∀ s', ftx s' d V bs hs None → itab s' = itab s → Q tt s') →
  wp (fbrelse mypid i) Q s.
Proof.
  intros [(A & Hc & HV & Hr & Ho) Hh Hnd Hhd Hcl Hlen Hout Hsz Hsb] HQ. apply wp_flog, wp_lb.
  assert (Hbh : b ∈ ((i, b) :: hs).*2) by (by left).
  cbn [fmap list_fmap snd] in Hnd. apply NoDup_cons in Hnd as [Hb Hnd].
  assert (Hrb := Hr b). rewrite (decide_True (P := b ∈ (_ :: _).*2)) in Hrb by done.
  eapply (cst_brelse dev mypid _ _ _ i b); [exact Hc|apply Hhd; by left|by rewrite Ho, decide_True| |].
  - intros Hr1. rewrite HV. apply Hcl; [|done]. intros Hin. rewrite decide_True in Hrb by done. lia.
  - intros c' Hc' K. apply HQ; [|done]. split; try done; cbn [fl lg lbc].
    + eexists. split; [exact Hc'|]. split; [|split]; intros b'; destruct (decide (b = b')) as [<-|Hne]; ins; auto.
      * rewrite Hrb, (decide_False (P := b ∈ hs.*2)) by done. lia.
      * rewrite Hr. f_equal. apply decide_ext. cbn [fmap list_fmap snd]. rewrite elem_of_cons. naive_solver.
      * by rewrite decide_False.
      * rewrite Ho. apply decide_ext. cbn [fmap list_fmap snd]. rewrite elem_of_cons. naive_solver.
    + intros j b' Hj. apply K; [apply Hhd; by right|]. left. intros ->. apply Hb.
      apply list_elem_of_fmap. by exists (j, b).
Qed.

(** Updates of the inode table. *)
Lemma ftx_itab s d V bs hs dirty t : ftx s d V bs hs dirty → ftx (mkFs (fl s) (fsb s) t) d V bs hs dirty.
Proof. intros []. by split. Qed.

Lemma wp_upd_ino ip f (Q : unit → fstate D → Prop) s :
  Q tt (mkFs (fl s) (fsb s) (<[ip := f (itab s ip)]> (itab s))) → wp (upd_ino ip f) Q s.
Proof. done. Qed.

Lemma wp_get_ino ip (Q : inode → fstate D → Prop) s : Q (itab s ip) s → wp (get_ino ip) Q s.
Proof. done. Qed.

Lemma wp_sb (Q : superblock → fstate D → Prop) s d V bs hs dirty :
  ftx s d V bs hs dirty → Q sb s → wp (gets fsb) Q s.
Proof. intros []. unfold wp, gets. congruence. Qed.
End FsTx.
