(* ===== verification/FsAlloc.v ===== *)
(** * FsAlloc: the block allocator of Fs.v

    The free bitmap as a set of blocks, and what [balloc], [bfree] and [bzero]
    do to it and to the contents of the disk. *)
From stdpp Require Import functions.
From S2P Require Import Prelude Riscv Spinlock Bio BioSpec Log LogSpec LogCrash LogTx UserMem Fs FsTx.

(** ** Bits *)

Lemma lor_bit x k j : 0 ≤ k → 0 ≤ j → Z.testbit (Z.lor x (Z.shiftl 1 k)) j = (j =? k) || Z.testbit x j.
Proof.
  intros Hk Hj. rewrite Z.lor_spec, Z.shiftl_1_l. destruct (Z.eqb_spec j k) as [->|Hne].
  - by rewrite Z.pow2_bits_true, orb_true_r.
  - by rewrite Z.pow2_bits_false, orb_false_r.
Qed.

Lemma ldiff_bit x k j : 0 ≤ k → 0 ≤ j → Z.testbit (Z.ldiff x (Z.shiftl 1 k)) j = negb (j =? k) && Z.testbit x j.
Proof.
  intros Hk Hj. rewrite Z.ldiff_spec, Z.shiftl_1_l. destruct (Z.eqb_spec j k) as [->|Hne].
  - by rewrite Z.pow2_bits_true, andb_false_r.
  - by rewrite Z.pow2_bits_false, andb_true_r.
Qed.

Lemma nth_insert (l : list Z) i j v : (i < length l)%nat → nth j (<[i := v]> l) 0 = if decide (i = j) then v else nth j l 0.
Proof.
  intros Hi. rewrite !nth_lookup. case_decide as He.
  - subst j. by rewrite list_lookup_insert_eq.
  - by rewrite list_lookup_insert_ne.
Qed.

(** A bit of a bitmap after a byte changed. *)
Lemma bit_of_byte data bi j v :
  length data = 1024%nat → 0 ≤ bi < BPB → 0 ≤ j < BPB →
  bit_of (<[Z.to_nat (bi / 8) := v]> data) j =
    if decide (bi / 8 = j / 8) then Z.testbit v (j mod 8) else bit_of data j.
Proof.
  intros Hl Hbi Hj. unfold bit_of, BPB, BSIZE in *. rewrite nth_insert by (rewrite Hl; zdm).
  repeat case_decide; try done; exfalso; zdm.
Qed.

Lemma same_bit bi j : bi / 8 = j / 8 → (j mod 8 =? bi mod 8) = bool_decide (j = bi).
Proof. intros He. case_bool_decide; [subst; apply Z.eqb_refl|]. apply Z.eqb_neq. zdm. Qed.

Lemma bit_of_set data bi j :
  length data = 1024%nat → 0 ≤ bi < BPB → 0 ≤ j < BPB →
  bit_of (set_bit bi data) j = bool_decide (j = bi) || bit_of data j.
Proof.
  intros Hl Hbi Hj. unfold set_bit. rewrite bit_of_byte by done. case_decide as He.
  - rewrite lor_bit by zdm. rewrite same_bit by done. unfold bit_of. by rewrite He.
  - by rewrite bool_decide_eq_false_2 by (intros ->; done).
Qed.

Lemma bit_of_clear data bi j :
  length data = 1024%nat → 0 ≤ bi < BPB → 0 ≤ j < BPB →
  bit_of (clear_bit bi data) j = negb (bool_decide (j = bi)) && bit_of data j.
Proof.
  intros Hl Hbi Hj. unfold clear_bit. rewrite bit_of_byte by done. case_decide as He.
  - rewrite ldiff_bit by zdm. rewrite same_bit by done. unfold bit_of. by rewrite He.
  - by rewrite bool_decide_eq_false_2 by (intros ->; done).
Qed.

Lemma length_set_bit bi data : length (set_bit bi data) = length data.
Proof. apply length_insert. Qed.
Lemma length_clear_bit bi data : length (clear_bit bi data) = length data.
Proof. apply length_insert. Qed.

(** The inner loop of [balloc]. *)
Lemma find_clear_spec n bi data :
  match find_clear n bi data with
  | Some j => bi ≤ j < bi + Z.of_nat n ∧ bit_of data j = false ∧ ∀ k, bi ≤ k < j → bit_of data k = true
  | None => ∀ k, bi ≤ k < bi + Z.of_nat n → bit_of data k = true
  end.
Proof.
  revert bi. induction n as [|n IH]; intros bi; simpl; [intros; lia|].
  destruct (bit_of data bi) eqn:E.
  - specialize (IH (bi + 1)). destruct (find_clear n (bi + 1) data) as [j|].
    + destruct IH as (H1 & H2 & H3). split; [lia|]. split; [done|]. intros k Hk.
      destruct (decide (k = bi)) as [->|]; [done|]. apply H3. lia.
    + intros k Hk. destruct (decide (k = bi)) as [->|]; [done|]. apply IH. lia.
  - split; [lia|]. split; [done|]. intros. lia.
Qed.

(** ** The allocator *)

Definition zeros : list Z := replicate 1024 0.

Section FsAlloc.
Context (start cap : Z) (sb : superblock).
Implicit Types (V : Z → list Z) (b : Z).

(** The first block after the log, the inodes and the bitmap. *)
Definition datastart : Z := sb_bmapstart sb + sb_size sb / BPB + 1.

(** The disk is laid out as mkfs does: log, inodes, bitmap, data. *)
Record geometry : Prop := {
  g_log : 0 ≤ start ∧ 0 ≤ cap ≤ LOGSIZE ∧ start + cap < sb_inodestart sb;
  g_inodes : 0 < sb_ninodes sb < 2 ^ 16 ∧ sb_inodestart sb + sb_ninodes sb / IPB + 1 ≤ sb_bmapstart sb;
  g_size : datastart ≤ sb_size sb < 2 ^ 31 - BPB;
}.
Context (Hgeo : geometry).

Lemma IPB_eq : IPB = 16. Proof. done. Qed.
Lemma BPB_eq : BPB = 8192. Proof. done. Qed.

Lemma BBLOCK_eq b : 0 ≤ b < sb_size sb → BBLOCK b sb = sb_bmapstart sb + b / BPB ∧ 0 ≤ BBLOCK b sb < datastart.
Proof.
  destruct Hgeo as [[? [? ?]] [? ?] [? ?]]. intros Hb. unfold BBLOCK, datastart in *. rewrite BPB_eq in *. rewrite IPB_eq in *.
  rewrite u32_id by zdm. zdm.
Qed.

(** The block is marked in use. *)
Definition used V b : bool := bit_of (V (BBLOCK b sb)) (b mod BPB).
Definition bitmap_block b : Prop := sb_bmapstart sb ≤ b < datastart.

(** Everything below the data is in use. *)
Definition meta_used V : Prop := ∀ b, 0 ≤ b < datastart → used V b = true.

(** The blocks after [balloc] returned [r], and after [bfree] of [b]. *)
Definition alloc_view V r : Z → list Z :=
  <[r := zeros]> (<[BBLOCK r sb := set_bit (r mod BPB) (V (BBLOCK r sb))]> V).
Definition free_view V b : Z → list Z := <[BBLOCK b sb := clear_bit (b mod BPB) (V (BBLOCK b sb))]> V.

Lemma bitmap_not_data b r : 0 ≤ b < sb_size sb → datastart ≤ r → BBLOCK b sb ≠ r.
Proof. intros Hb Hr. destruct (BBLOCK_eq b Hb). lia. Qed.

Lemma same_bitmap b r :
  0 ≤ b < sb_size sb → 0 ≤ r < sb_size sb → BBLOCK b sb = BBLOCK r sb → b mod BPB = r mod BPB → b = r.
Proof.
  intros Hb Hr. destruct (BBLOCK_eq b Hb) as [-> _], (BBLOCK_eq r Hr) as [-> _]. rewrite BPB_eq. zdm.
Qed.

Lemma mod_BPB b : 0 ≤ b mod BPB < BPB.
Proof. rewrite BPB_eq. zdm. Qed.

Lemma used_alloc V r b :
  (∀ x, length (V x) = 1024%nat) → datastart ≤ r < sb_size sb → 0 ≤ b < sb_size sb →
  used (alloc_view V r) b = bool_decide (b = r) || used V b.
Proof.
  intros Hl Hr Hb. unfold used, alloc_view.
  assert (Hr' : 0 ≤ r < sb_size sb) by (destruct (BBLOCK_eq b Hb); lia).
  rewrite fn_lookup_insert_ne by (intros He; by apply (bitmap_not_data b r Hb ltac:(lia))).
  destruct (decide (BBLOCK r sb = BBLOCK b sb)) as [He|He].
  - rewrite He, fn_lookup_insert, bit_of_set by (auto using mod_BPB). f_equal. apply bool_decide_ext.
    split; [|congruence]. intros. by apply same_bitmap.
  - rewrite fn_lookup_insert_ne by done. by rewrite bool_decide_eq_false_2 by congruence.
Qed.

Lemma used_free V r b :
  (∀ x, length (V x) = 1024%nat) → 0 ≤ r < sb_size sb → 0 ≤ b < sb_size sb →
  used (free_view V r) b = negb (bool_decide (b = r)) && used V b.
Proof.
  intros Hl Hr Hb. unfold used, free_view. destruct (decide (BBLOCK r sb = BBLOCK b sb)) as [He|He].
  - rewrite He, fn_lookup_insert, bit_of_clear by (auto using mod_BPB). f_equal. f_equal. apply bool_decide_ext.
    split; [|congruence]. intros. by apply same_bitmap.
  - rewrite fn_lookup_insert_ne by done. by rewrite bool_decide_eq_false_2 by congruence.
Qed.

Lemma alloc_view_other V r b : b ≠ r → b ≠ BBLOCK r sb → alloc_view V r b = V b.
Proof. intros. unfold alloc_view. by rewrite !fn_lookup_insert_ne. Qed.

Lemma alloc_view_len V r : (∀ x, length (V x) = 1024%nat) → ∀ x, length (alloc_view V r x) = 1024%nat.
Proof.
  intros Hl x. unfold alloc_view. destruct (decide (r = x)) as [<-|]; [by rewrite fn_lookup_insert|].
  rewrite fn_lookup_insert_ne by done. destruct (decide (BBLOCK r sb = x)) as [<-|].
  - by rewrite fn_lookup_insert, length_set_bit.
  - by rewrite fn_lookup_insert_ne.
Qed.

Lemma unused_is_data V r : meta_used V → 0 ≤ r < sb_size sb → used V r = false → datastart ≤ r.
Proof. intros Hm Hr Hu. destruct (decide (datastart ≤ r)); [done|]. rewrite Hm in Hu by lia. done. Qed.

Lemma data_not_log r : datastart ≤ r → ¬ in_log start cap r.
Proof.
  destruct Hgeo as [[? [? ?]] [? ?] [? ?]]. unfold in_log, datastart in *. rewrite IPB_eq, BPB_eq in *. zdm.
Qed.
Lemma bitmap_not_log b : 0 ≤ b < sb_size sb → 0 ≤ BBLOCK b sb < 2 ^ 31 ∧ ¬ in_log start cap (BBLOCK b sb).
Proof.
  intros Hb. destruct (BBLOCK_eq b Hb) as [He ?]. destruct Hgeo as [[? [? ?]] [? ?] [? ?]].
  unfold in_log, datastart in *. rewrite He in *. rewrite IPB_eq, BPB_eq in *. zdm.
Qed.

Section rules.
Context {D : Type} `{Disk D} (dev : Z) (Hdev : 0 < dev < 2 ^ 31) (mypid out : Z) (Hout : 0 < out).
Implicit Types (s : fstate D) (d : D) (bs : list Z) (hs : list (nat * Z)).
Notation ftx := (ftx dev mypid start cap sb out).

Lemma place : 0 ≤ start ∧ 0 ≤ cap ≤ LOGSIZE ∧ start + cap + 1 < 2 ^ 31.
Proof. destruct Hgeo as [? [? ?] [? ?]]. unfold datastart in *. rewrite BPB_eq, IPB_eq in *. zdm. Qed.

Lemma bzero_spec s d V bs hs b (Q : unit → fstate D → Prop) :
  ftx s d V bs hs None → 0 ≤ b < 2 ^ 31 → ¬ in_log start cap b → b ∉ hs.*2 →
  (length bs + length hs < 30)%nat → Z.of_nat (length bs) < cap →
  (∀ s', ftx s' d (<[b := zeros]> V) (add_block bs b) hs None → itab s' = itab s → Q tt s') →
  wp (bzero mypid dev b) Q s.
Proof.
  intros Ht Hb Hnl Hnb Hroom Hcap HQ. unfold bzero. rewrite u32_id by lia.
  apply wp_step. eapply (fx_bread dev Hdev mypid start cap place sb out); [exact Ht|lia|done|done|]. intros i s1 H1 E1.
  apply wp_step. eapply fx_set; [exact H1|by rewrite length_replicate; apply H1|]. intros s2 H2 E2.
  apply wp_step. eapply (fx_log dev Hdev mypid start cap place sb out); [done|exact H2|by right|done|done|done|]. intros s3 H3 E3.
  eapply (fx_brelse dev Hdev mypid start cap place sb out); [exact H3|]. intros s4 H4 E4. apply HQ; [|congruence].
  replace zeros with (replicate (length (V b)) 0); [done|]. unfold zeros. by rewrite (fx_len _ _ _ _ _ _ _ _ _ _ _ _ Ht).
Qed.

(** The buffers a routine may hold while it allocates or frees. *)
Definition held_ok V hs : Prop := ∀ h, h ∈ hs.*2 → 0 ≤ h < sb_size sb ∧ used V h = true ∧ ¬ bitmap_block h.

Lemma held_bitmap V hs b : held_ok V hs → 0 ≤ b < sb_size sb → BBLOCK b sb ∉ hs.*2.
Proof.
  intros Hh Hb Hin. destruct (Hh _ Hin) as (_ & _ & Hn). apply Hn. unfold bitmap_block.
  destruct (BBLOCK_eq b Hb) as [He ?]. split; [|lia]. rewrite He, BPB_eq. zdm.
Qed.

(** What [balloc] promises: the first free block, now marked and zeroed, or 0
    when there is none. *)
Definition balloc_post V bs (r : Z) V' bs' : Prop :=
  (r = 0 ∧ V' = V ∧ bs' = bs ∧ ∀ b, 0 ≤ b < sb_size sb → used V b = true) ∨
  (datastart ≤ r < sb_size sb ∧ used V r = false ∧ (∀ b, 0 ≤ b < r → used V b = true) ∧
   V' = alloc_view V r ∧ bs' = add_block (add_block bs (BBLOCK r sb)) r).

Lemma add_block_length bs b : (length (add_block bs b) ≤ S (length bs))%nat.
Proof. unfold add_block. case_decide; [lia|]. rewrite length_app. simpl. lia. Qed.

Lemma balloc_loop_spec fuel b s d V bs hs (Q : Z → fstate D → Prop) :
  ftx s d V bs hs None → meta_used V → held_ok V hs →
  (length bs + length hs + 1 < 30)%nat → Z.of_nat (length bs) + 1 < cap →
  0 ≤ b → b mod BPB = 0 → sb_size sb ≤ b + Z.of_nat fuel * BPB →
  (∀ x, 0 ≤ x < b → x < sb_size sb → used V x = true) →
  (∀ r s' V' bs', ftx s' d V' bs' hs None → balloc_post V bs r V' bs' → itab s' = itab s → Q r s') →
  wp (balloc_loop mypid fuel dev b) Q s.
Proof.
  revert b s. induction fuel as [|fuel IH]; intros b s Ht Hm Hh Hroom Hcap Hb Hal Hfuel Hbef HQ.
  all: cbn [balloc_loop]; apply wp_step; eapply wp_sb; [exact Ht|].
  all: destruct (Z.ltb_spec b (sb_size sb)) as [Hlt|Hge]; [try lia|].
  1,3: apply wp_ret; apply (HQ 0 s V bs); [done|left; split_and!; auto; intros; apply Hbef; lia|done].
  destruct (BBLOCK_eq b ltac:(lia)) as [HB HB'].
  destruct (bitmap_not_log b ltac:(lia)) as [HBr HBl]. pose proof (fx_len _ _ _ _ _ _ _ _ _ _ _ _ Ht) as Hlen.
  apply wp_step. eapply (fx_bread dev Hdev mypid start cap place sb out); [exact Ht|lia|by apply (held_bitmap V)|lia|].
  intros i s1 H1 E1. apply wp_step. eapply fx_data; [exact H1|by left|].
  assert (Hbit : ∀ k, 0 ≤ k < Z.min BPB (sb_size sb - b) → bit_of (V (BBLOCK b sb)) k = used V (b + k)).
  { intros k Hk. unfold used. destruct (BBLOCK_eq (b + k) ltac:(lia)) as [-> _]. rewrite HB.
    rewrite BPB_eq in *. replace ((b + k) / 8192) with (b / 8192) by zdm. f_equal. zdm. }
  pose proof (find_clear_spec (Z.to_nat (Z.min BPB (sb_size sb - b))) 0 (V (BBLOCK b sb))) as Hf.
  pose proof BPB_eq as HBPB.
  destruct (find_clear _ _ _) as [bi|].
  - destruct Hf as (Hr & Hc & Hpre). rewrite Z2Nat.id in Hr by lia. rewrite Hbit in Hc by lia.
    assert (Hrd : datastart ≤ b + bi) by (apply (unused_is_data V); [done|lia|done]).
    assert (HBr' : BBLOCK (b + bi) sb = BBLOCK b sb).
    { destruct (BBLOCK_eq (b + bi) ltac:(lia)) as [-> _]. rewrite HB. rewrite HBPB in *. f_equal. zdm. }
    assert (Hmod : (b + bi) mod BPB = bi) by (rewrite HBPB in *; zdm).
    apply wp_step. eapply fx_set; [exact H1|by rewrite length_set_bit|]. intros s2 H2 E2.
    apply wp_step. eapply (fx_log dev Hdev mypid start cap place sb out); [done|exact H2|by right|done|done|lia|]. intros s3 H3 E3.
    apply wp_step. eapply (fx_brelse dev Hdev mypid start cap place sb out); [exact H3|]. intros s4 H4 E4.
    pose proof (add_block_length bs (BBLOCK b sb)).
    apply wp_step. eapply bzero_spec; [exact H4| | | |lia|lia|].
    { destruct Hgeo as [_ _ [? ?]]. lia. } { by apply data_not_log. }
    { intros Hin. destruct (Hh _ Hin) as (_ & Hu & _). congruence. }
    intros s5 H5 E5. apply wp_ret. eapply (HQ (b + bi) s5); [exact H5| |congruence]. right.
    split; [lia|]. split; [done|]. split; [|unfold alloc_view; by rewrite HBr', Hmod].
    intros x Hx. destruct (decide (x < b)); [apply Hbef; lia|].
    replace x with (b + (x - b)) by lia. rewrite <- Hbit by lia. apply Hpre. lia.
  - apply wp_step. eapply (fx_brelse dev Hdev mypid start cap place sb out); [exact H1|]. intros s2 H2 E2.
    destruct (Z.ltb_spec 2147483647 (b + BPB)).
    { destruct Hgeo as [_ _ [? ?]]. lia. }
    apply (IH (b + BPB) s2); try done; try lia.
    + rewrite HBPB in *. zdm.
    + intros x Hx Hx'. destruct (decide (x < b)); [apply Hbef; lia|].
      replace x with (b + (x - b)) by lia. rewrite <- Hbit by lia. apply Hf. lia.
    + intros r s' V' bs' H' Hp E'. apply (HQ r s' V' bs'); [done|done|congruence].
Qed.

Lemma balloc_spec s d V bs hs (Q : Z → fstate D → Prop) :
  ftx s d V bs hs None → meta_used V → held_ok V hs →
  (length bs + length hs + 1 < 30)%nat → Z.of_nat (length bs) + 1 < cap →
  (∀ r s' V' bs', ftx s' d V' bs' hs None → balloc_post V bs r V' bs' → itab s' = itab s → Q r s') →
  wp (balloc mypid dev) Q s.
Proof.
  intros Ht Hm Hh Hroom Hcap HQ. unfold balloc. apply wp_step. eapply wp_sb; [exact Ht|].
  eapply balloc_loop_spec; try done; [|intros; lia]. rewrite BPB_eq. zdm.
Qed.

(** [bfree] of a block in use. *)
Lemma bfree_spec s d V bs hs b (Q : unit → fstate D → Prop) :
  ftx s d V bs hs None → 0 ≤ b < sb_size sb → used V b = true → BBLOCK b sb ∉ hs.*2 →
  (length bs + length hs < 30)%nat → Z.of_nat (length bs) < cap →
  (∀ s', ftx s' d (free_view V b) (add_block bs (BBLOCK b sb)) hs None → itab s' = itab s → Q tt s') →
  wp (bfree mypid dev b) Q s.
Proof.
  intros Ht Hb Hu Hn Hroom Hcap HQ. unfold bfree. destruct (bitmap_not_log b Hb) as [HBr HBl].
  apply wp_step. eapply wp_sb; [exact Ht|].
  apply wp_step. eapply (fx_bread dev Hdev mypid start cap place sb out); [exact Ht|lia|done|done|]. intros i s1 H1 E1.
  apply wp_step. eapply fx_data; [exact H1|by left|]. fold (used V b). rewrite Hu. cbn [negb].
  apply wp_step. eapply fx_set; [exact H1|rewrite length_clear_bit; apply H1|]. intros s2 H2 E2.
  apply wp_step. eapply (fx_log dev Hdev mypid start cap place sb out); [done|exact H2|by right|done|done|done|]. intros s3 H3 E3.
  eapply (fx_brelse dev Hdev mypid start cap place sb out); [exact H3|]. intros s4 H4 E4. apply HQ; [exact H4|congruence].
Qed.
End rules.
End FsAlloc.
