(* ===== verification/FsInode.v ===== *)
(** * FsInode: inodes on disk and in memory

    The layout of [struct dinode] in a block, the inode table, and the routines
    that move an inode between the two. *)
From stdpp Require Import functions.
From S2P Require Import Prelude Riscv Spinlock Bio BioSpec Log LogSpec LogCrash LogTx UserMem Fs FsTx FsAlloc.

(** ** Layout *)

Record dinode_wf (d : dinode) : Prop := {
  dw_type : - 2 ^ 15 ≤ d_type d < 2 ^ 15;
  dw_major : - 2 ^ 15 ≤ d_major d < 2 ^ 15;
  dw_minor : - 2 ^ 15 ≤ d_minor d < 2 ^ 15;
  dw_nlink : - 2 ^ 15 ≤ d_nlink d < 2 ^ 15;
  dw_size : 0 ≤ d_size d < 2 ^ 32;
  dw_addrs : length (d_addrs d) = 13%nat ∧ Forall (λ a, 0 ≤ a < 2 ^ 32) (d_addrs d);
}.

Lemma slice_mid {A} (l1 l2 l3 : list A) n k : length l1 = n → length l2 = k → slice (l1 ++ l2 ++ l3) n k = l2.
Proof. intros <- <-. unfold slice. by rewrite drop_app_length, take_app_length. Qed.

Lemma slice_first {A} (l1 l2 : list A) k : length l1 = k → slice (l1 ++ l2) 0 k = l1.
Proof. exact (slice_mid [] l1 l2 0 k eq_refl). Qed.

Lemma slice_slice {A} (l : list A) off n off' n' :
  (off' + n' ≤ n)%nat → slice (slice l off n) off' n' = slice l (off + off') n'.
Proof.
  intros Hn. unfold slice. rewrite skipn_firstn_comm, drop_drop. rewrite take_take. f_equal. lia.
Qed.

Lemma ld_shift off k n data : (k + 4 ≤ n)%nat → ld32 k (slice data off n) = ld32 (off + k) data.
Proof. intros. unfold ld32. by rewrite slice_slice. Qed.
Lemma ld16_shift off k n data : (k + 2 ≤ n)%nat → ld16 k (slice data off n) = ld16 (off + k) data.
Proof. intros. unfold ld16. by rewrite slice_slice. Qed.

Lemma ld32s_shift n k off m data :
  (k + 4 * n ≤ m)%nat → ld32s n k (slice data off m) = ld32s n (off + k) data.
Proof.
  revert k. induction n as [|n IH]; intros k Hk; simpl; [done|]. rewrite ld_shift by lia. f_equal.
  rewrite IH by lia. f_equal. lia.
Qed.

Lemma dinode_at_slice off data : dinode_at off data = dinode_at 0 (slice data off 64).
Proof.
  unfold dinode_at. rewrite !ld16_shift, ld_shift, ld32s_shift by lia. by rewrite !Nat.add_0_r.
Qed.

Lemma ld32s_mjoin l pre suf k :
  Forall (λ a, 0 ≤ a < 2 ^ 32) l → length pre = k →
  ld32s (length l) k (pre ++ mjoin ((λ a, le_bytes 4 (u32 a)) <$> l) ++ suf) = l.
Proof.
  revert pre k. induction l as [|a l IH]; intros pre k Hl Hk; [done|].
  apply Forall_cons in Hl as [Ha Hl]. cbn [length ld32s].
  change (mjoin ((λ a, le_bytes 4 (u32 a)) <$> a :: l)) with
    (le_bytes 4 (u32 a) ++ mjoin ((λ a, le_bytes 4 (u32 a)) <$> l)). rewrite <- app_assoc. f_equal.
  - unfold ld32. rewrite slice_mid by (rewrite ?length_le_bytes; done).
    rewrite le_val_le_bytes. change (256 ^ Z.of_nat 4) with (2 ^ 32). rewrite u32_id by lia. by apply Z.mod_small.
  - rewrite app_assoc. apply IH; [done|]. rewrite length_app, length_le_bytes. lia.
Qed.

Lemma i16_u16 x : - 2 ^ 15 ≤ x < 2 ^ 15 → i16 (u16 x mod 256 ^ Z.of_nat 2) = x.
Proof.
  intros Hx. change (256 ^ Z.of_nat 2) with (2 ^ 16). unfold i16, u16, signed. rewrite !Zmod_mod.
  pose proof (signed_id 16 x ltac:(lia) Hx) as Hs. unfold signed in Hs. done.
Qed.

Lemma length_mjoin4 l : length (mjoin ((λ a, le_bytes 4 (u32 a)) <$> l)) = (4 * length l)%nat.
Proof.
  induction l as [|a l IH]; [done|].
  change (mjoin ((λ a, le_bytes 4 (u32 a)) <$> a :: l)) with
    (le_bytes 4 (u32 a) ++ mjoin ((λ a, le_bytes 4 (u32 a)) <$> l)).
  rewrite length_app, length_le_bytes, IH. cbn [length]. lia.
Qed.

Lemma length_dinode_bytes d : length (d_addrs d) = 13%nat → length (dinode_bytes d) = 64%nat.
Proof. intros Hl. unfold dinode_bytes. rewrite !length_app, !length_le_bytes, length_mjoin4, Hl. done. Qed.

Lemma dinode_at_bytes d : dinode_wf d → dinode_at 0 (dinode_bytes d) = d.
Proof.
  intros [H1 H2 H3 H4 H5 [H6 H7]]. unfold dinode_at, dinode_bytes, ld16. destruct d as [ty ma mi nl sz ad]. cbn [d_type d_major d_minor d_nlink d_size d_addrs] in *.
  set (A1 := le_bytes 2 (u16 ty)). set (A2 := le_bytes 2 (u16 ma)). set (A3 := le_bytes 2 (u16 mi)).
  set (A4 := le_bytes 2 (u16 nl)). set (A5 := le_bytes 4 (u32 sz)). set (T := mjoin _).
  assert (Hl : ∀ v, length (le_bytes 2 v) = 2%nat) by (intros; apply length_le_bytes).
  assert (Hl5 : length A5 = 4%nat) by apply length_le_bytes.
  f_equal.
  - rewrite slice_first by apply Hl. unfold A1. rewrite le_val_le_bytes. by apply i16_u16.
  - rewrite (slice_mid A1 A2) by apply Hl. unfold A2. rewrite le_val_le_bytes. by apply i16_u16.
  - rewrite (app_assoc A1 A2), (slice_mid (A1 ++ A2) A3) by (rewrite ?length_app; unfold A1, A2, A3; rewrite ?Hl; done).
    unfold A3. rewrite le_val_le_bytes. by apply i16_u16.
  - rewrite (app_assoc A1 A2), (app_assoc _ A3), (slice_mid _ A4)
      by (rewrite ?length_app; unfold A1, A2, A3, A4; rewrite ?Hl; done).
    unfold A4. rewrite le_val_le_bytes. by apply i16_u16.
  - unfold ld32. rewrite (app_assoc A1 A2), (app_assoc _ A3), (app_assoc _ A4), (slice_mid _ A5)
      by (rewrite ?length_app; unfold A1, A2, A3, A4; rewrite ?Hl; done).
    unfold A5. rewrite le_val_le_bytes. change (256 ^ Z.of_nat 4) with (2 ^ 32). rewrite u32_id by lia. by apply Z.mod_small.
  - rewrite (app_assoc A1 A2), (app_assoc _ A3), (app_assoc _ A4), (app_assoc _ A5).
    rewrite <- (app_nil_r T), <- H6 at 1. apply ld32s_mjoin; [done|].
    rewrite !length_app, Hl5. unfold A1, A2, A3, A4. by rewrite !Hl.
Qed.

(** Offsets of dinodes in a block. *)
Lemma dinode_off_bound inum : (dinode_off inum + 64 ≤ 1024)%nat.
Proof. unfold dinode_off, IPB, BSIZE, DINODE_SIZE. change (1024 / 64) with 16. zdm. Qed.

(** Writing one dinode and reading one. *)
Lemma dinode_at_splice data i j d :
  length data = 1024%nat → dinode_wf d → 0 ≤ i → 0 ≤ j →
  dinode_at (dinode_off j) (splice data (dinode_off i) (dinode_bytes d)) =
    if decide (i mod IPB = j mod IPB) then d else dinode_at (dinode_off j) data.
Proof.
  intros Hl Hd Hi Hj. pose proof (length_dinode_bytes d (proj1 (dw_addrs d Hd))) as Hb.
  pose proof (dinode_off_bound i) as Bi. pose proof (dinode_off_bound j) as Bj.
  rewrite (dinode_at_slice _ (splice _ _ _)). case_decide as He.
  - replace (dinode_off j) with (dinode_off i) by (unfold dinode_off; by rewrite He).
    rewrite <- Hb, slice_splice by lia. by apply dinode_at_bytes.
  - rewrite slice_splice_disjoint; [by rewrite <- dinode_at_slice|lia|].
    rewrite Hb. unfold dinode_off, DINODE_SIZE in *. unfold IPB, BSIZE, DINODE_SIZE in *. change (1024 / 64) with 16 in *.
    assert (i mod 16 < j mod 16 ∨ j mod 16 < i mod 16) by lia. zdm.
Qed.

(** ** The inodes of a disk *)

Section FsInode.
Context (start cap : Z) (sb : superblock) (Hgeo : geometry start cap sb).
Implicit Types (V : Z → list Z).
Notation datastart := (datastart sb).

(** Inode [inum] on disk. *)
Definition dino V (inum : Z) : dinode := dinode_at (dinode_off inum) (V (IBLOCK inum sb)).
Definition inum_ok (inum : Z) : Prop := 0 ≤ inum < sb_ninodes sb.

(** The blocks after [iupdate]. *)
Definition put_dino V (inum : Z) (d : dinode) : Z → list Z :=
  <[IBLOCK inum sb := splice (V (IBLOCK inum sb)) (dinode_off inum) (dinode_bytes d)]> V.

Lemma IBLOCK_eq inum :
  inum_ok inum → IBLOCK inum sb = sb_inodestart sb + inum / IPB ∧ sb_inodestart sb ≤ IBLOCK inum sb < sb_bmapstart sb.
Proof.
  destruct Hgeo as [[? [? ?]] [? ?] [? ?]]. intros Hi. unfold inum_ok, IBLOCK, FsAlloc.datastart in *.
  rewrite IPB_eq, BPB_eq in *. rewrite u32_id by zdm. zdm.
Qed.

Lemma IBLOCK_range inum :
  inum_ok inum → 0 ≤ IBLOCK inum sb < 2 ^ 31 ∧ ¬ in_log start cap (IBLOCK inum sb) ∧ IBLOCK inum sb < sb_bmapstart sb.
Proof.
  intros Hi. destruct (IBLOCK_eq inum Hi) as [_ Hr]. destruct Hgeo as [[? [? ?]] [? ?] [? ?]].
  unfold in_log, FsAlloc.datastart in *. rewrite BPB_eq in *. zdm.
Qed.

Lemma dino_put V i j d :
  (∀ b, length (V b) = 1024%nat) → dinode_wf d → inum_ok i → inum_ok j →
  dino (put_dino V i d) j = if decide (i = j) then d else dino V j.
Proof.
  intros Hl Hd Hi Hj. unfold dino, put_dino.
  destruct (IBLOCK_eq i Hi) as [Ei _], (IBLOCK_eq j Hj) as [Ej _]. unfold inum_ok in *.
  destruct (decide (IBLOCK i sb = IBLOCK j sb)) as [He|He].
  - rewrite <- He, fn_lookup_insert, dinode_at_splice by (done || lia). apply decide_ext.
    split; [|by intros ->]. rewrite Ei, Ej in He. rewrite IPB_eq in *. zdm.
  - rewrite fn_lookup_insert_ne by done. rewrite decide_False; [done|congruence].
Qed.

Lemma put_dino_other V i d b : b ≠ IBLOCK i sb → put_dino V i d b = V b.
Proof. intros. unfold put_dino. by rewrite fn_lookup_insert_ne. Qed.

Lemma used_put V i d b : inum_ok i → 0 ≤ b < sb_size sb → used sb (put_dino V i d) b = used sb V b.
Proof.
  intros Hi Hb. unfold used. rewrite put_dino_other; [done|].
  destruct (BBLOCK_eq start cap sb Hgeo b Hb) as [-> _]. destruct (IBLOCK_eq i Hi). rewrite BPB_eq. zdm.
Qed.

Section rules.
Context {D : Type} `{Disk D} (dev : Z) (Hdev : 0 < dev < 2 ^ 31) (mypid out : Z).
Implicit Types (s : fstate D) (dk : D) (bs : list Z) (hs : list (nat * Z)).
Notation ftx := (ftx dev mypid start cap sb out).
Notation place := (place start cap sb Hgeo).

Ltac ins :=
  repeat match goal with
  | |- context [insert ?x ?v ?f ?x] => rewrite (fn_lookup_insert f x v)
  | |- context [insert ?x ?v ?f ?y] => rewrite (fn_lookup_insert_ne f x y v) by congruence
  end.

Lemma iupdate_spec s dk V bs hs ip (Q : unit → fstate D → Prop) :
  let n := itab s ip in
  0 < out → ftx s dk V bs hs None → i_dev n = dev → inum_ok (i_inum n) → length (d_addrs (i_d n)) = 13%nat →
  IBLOCK (i_inum n) sb ∉ hs.*2 → (length bs + length hs < 30)%nat → Z.of_nat (length bs) < cap →
  (∀ s', ftx s' dk (put_dino V (i_inum n) (i_d n)) (add_block bs (IBLOCK (i_inum n) sb)) hs None →
     itab s' = itab s → Q tt s') →
  wp (iupdate mypid ip) Q s.
Proof.
  intros n Hout Ht Hd Hi Hw Hnh Hroom Hcap HQ. unfold iupdate. destruct (IBLOCK_range _ Hi) as (Hr & Hnl & _).
  apply wp_step, wp_get_ino. fold n. apply wp_step. eapply wp_sb; [exact Ht|]. rewrite Hd.
  apply wp_step. eapply (fx_bread dev Hdev mypid start cap place sb out); [exact Ht|lia|done|done|]. intros i s1 H1 E1.
  pose proof (fx_len _ _ _ _ _ _ _ _ _ _ _ _ Ht (IBLOCK (i_inum n) sb)) as Hl.
  apply wp_step. eapply fx_set; [exact H1| |].
  { rewrite length_splice; [done|]. rewrite length_dinode_bytes, Hl by done. apply dinode_off_bound. }
  intros s2 H2 E2.
  apply wp_step. eapply (fx_log dev Hdev mypid start cap place sb out); [done|exact H2|by right|done|done|done|]. intros s3 H3 E3.
  eapply (fx_brelse dev Hdev mypid start cap place sb out); [exact H3|]. intros s4 H4 E4.
  apply HQ; [exact H4|congruence].
Qed.

Lemma wp_acquire ch (l : sleeplock) (Q : unit → sleeplock → Prop) :
  sl_locked l = 0 → Q tt (mkSleep 1 mypid) → wp (acquiresleep ch mypid) Q l.
Proof. intros Hl HQ. unfold wp, acquiresleep, bind, get. by rewrite Hl. Qed.

Lemma wp_holding (Q : bool → sleeplock → Prop) :
  Q true (mkSleep 1 mypid) → wp (holdingsleep mypid) Q (mkSleep 1 mypid).
Proof. intros HQ. unfold wp, holdingsleep, bind, get, ret. cbn. by rewrite Z.eqb_refl. Qed.

(** The table of [s'] is that of [s] with [n] at [ip]. *)
Definition itab_is s' ip (n : inode) s : Prop := ∀ j, itab s' j = if decide (ip = j) then n else itab s j.

Lemma itab_is_upd s ip n t l b :
  (∀ j, t j = if decide (ip = j) then n else itab s j) → itab_is (mkFs l b t) ip n s.
Proof. done. Qed.

(** A locked inode. *)
Definition locked_by (n : inode) : Prop := i_lock n = mkSleep 1 mypid ∧ 1 ≤ i_ref n.

(** [ilock] on a free lock: an inode not yet read is read from its block. *)
Lemma ilock_spec s dk V bs hs ip (Q : unit → fstate D → Prop) :
  let n := itab s ip in
  let d := if i_valid n then i_d n else dino V (i_inum n) in
  ftx s dk V bs hs None → i_dev n = dev → inum_ok (i_inum n) → 1 ≤ i_ref n → sl_locked (i_lock n) = 0 →
  IBLOCK (i_inum n) sb ∉ hs.*2 → (length bs + length hs < 30)%nat →
  (i_valid n = true ∨ d_type d ≠ 0) →
  (∀ s', ftx s' dk V bs hs None →
     itab_is s' ip (mkInode dev (i_inum n) (i_ref n) (mkSleep 1 mypid) true d) s → Q tt s') →
  wp (ilock mypid ip) Q s.
Proof.
  intros n d Ht Hd Hi Href Hfree Hnh Hroom Hty HQ. unfold ilock. destruct (IBLOCK_range _ Hi) as (Hr & _ & _).
  apply wp_step, wp_get_ino. fold n. destruct (Z.ltb_spec (i_ref n) 1) as [|_]; [lia|].
  apply wp_step. unfold ino_lock at 1. apply wp_zoom. fold n. apply wp_acquire; [done|].
  apply wp_step, wp_get_ino. cbn [itab fl fsb]. rewrite fn_lookup_insert. fold n. cbn [i_valid set_ilock i_dev i_inum].
  set (s0 := mkFs _ _ _).
  assert (Ht0 : ftx s0 dk V bs hs None) by (by apply ftx_itab).
  destruct (i_valid n) eqn:Ev.
  - apply wp_ret. apply HQ; [exact Ht0|]. intros j. unfold s0. cbn [itab]. fold n. unfold set_ilock. rewrite Ev, Hd.
    destruct (decide (ip = j)) as [<-|]; ins; done.
  - destruct Hty as [?|Hty]; [done|]. apply wp_step. eapply wp_sb; [exact Ht0|]. rewrite Hd.
    apply wp_step. eapply (fx_bread dev Hdev mypid start cap place sb out); [exact Ht0|lia|done|done|]. intros i s1 H1 E1.
    apply wp_step. eapply fx_data; [exact H1|by left|]. fold (dino V (i_inum n)).
    apply wp_step, wp_upd_ino. apply wp_step. eapply (fx_brelse dev Hdev mypid start cap place sb out); [by apply ftx_itab|]. intros s2 H2 E2.
    apply wp_step, wp_upd_ino. apply wp_step, wp_get_ino. cbn [itab fl fsb] in *. rewrite E2, E1.
    unfold s0. cbn [itab]. rewrite !fn_lookup_insert. cbn [i_d set_ivalid set_d set_ilock].
    fold d. destruct (Z.eqb_spec (d_type d) 0); [done|]. apply wp_ret. apply HQ; [by apply ftx_itab|].
    intros j. cbn [itab]. destruct (decide (ip = j)) as [<-|]; ins; [|done].
    fold n. unfold set_ivalid, set_d, set_ilock. cbn. by rewrite Hd.
Qed.

Lemma iunlock_spec s ip (Q : unit → fstate D → Prop) :
  locked_by (itab s ip) →
  (∀ s', fl s' = fl s → fsb s' = fsb s → itab_is s' ip (set_ilock (mkSleep 0 0) (itab s ip)) s → Q tt s') →
  wp (iunlock mypid ip) Q s.
Proof.
  intros [Hl Hr] HQ. unfold iunlock. apply wp_step. unfold ino_lock at 1. apply wp_zoom.
  rewrite Hl. apply wp_holding.
  apply wp_step, wp_get_ino. cbn [itab]. rewrite fn_lookup_insert. cbn [i_ref set_ilock negb].
  destruct (Z.ltb_spec (i_ref (itab s ip)) 1); [lia|]. cbn [orb]. apply wp_zoom. unfold wp, releasesleep, modify.
  apply HQ; [done|done|]. intros j. cbn [itab]. destruct (decide (ip = j)) as [<-|]; by ins.
Qed.
End rules.
End FsInode.
