(* ===== verification/FsFile.v ===== *)
(** * FsFile: the blocks of a file

    An inode's block map as a function from slots to blocks (slots 0 to 267 are
    the file's data blocks, slot 268 the indirect block), when the map of a file
    is well formed, how it grows, and what [bmap] does to it. *)
From stdpp Require Import functions.
From S2P Require Import Prelude Riscv Spinlock Bio BioSpec Log LogSpec LogCrash LogTx UserMem Fs FsTx FsAlloc FsInode.

Definition IND : Z := 268.

(** The block in a slot, 0 for none. *)
Definition blk (V : Z → list Z) (d : dinode) (k : Z) : Z :=
  if k <? 12 then nth (Z.to_nat k) (d_addrs d) 0
  else
    let ind := nth 12 (d_addrs d) 0 in
    if k =? IND then ind
    else if ind =? 0 then 0 else ld32 (Z.to_nat (4 * (k - 12))) (V ind).

Definition slot_ok (k : Z) : Prop := 0 ≤ k ≤ IND.

(** Byte [i] of the file. *)
Definition fbyte (V : Z → list Z) (d : dinode) (i : Z) : Z :=
  nth (Z.to_nat (i mod BSIZE)) (V (blk V d (i / BSIZE))) 0.

Lemma blk_ind V d : blk V d IND = nth 12 (d_addrs d) 0.
Proof. done. Qed.

(** The map reads one block of the disk, the indirect block. *)
Lemma blk_ext V V' d d' k :
  d_addrs d' = d_addrs d → (blk V d IND ≠ 0 → V' (blk V d IND) = V (blk V d IND)) → blk V' d' k = blk V d k.
Proof.
  intros Ha Hv. rewrite blk_ind in Hv. unfold blk. rewrite Ha. repeat case_match; try done.
  apply Z.eqb_neq in H1. by rewrite Hv.
Qed.

Lemma blk_set_addr V d (j : nat) v k :
  length (d_addrs d) = 13%nat → (j < 12)%nat → slot_ok k →
  blk V (set_addr j v d) k = if decide (k = Z.of_nat j) then v else blk V d k.
Proof.
  intros Hl Hj Hk. unfold slot_ok, blk, IND in *. cbn [set_addr d_addrs]. rewrite !nth_insert by lia.
  rewrite (decide_False (P := j = 12%nat)) by lia.
  destruct (Z.ltb_spec k 12).
  - repeat case_decide; try done; lia.
  - rewrite decide_False by lia. done.
Qed.

(** A new indirect block full of zeroes adds no data block. *)
Lemma blk_set_ind V d v k :
  length (d_addrs d) = 13%nat → blk V d IND = 0 → V v = zeros → slot_ok k →
  blk V (set_addr 12 v d) k = if decide (k = IND) then v else blk V d k.
Proof.
  intros Hl Hi Hv Hk. rewrite blk_ind in Hi. unfold slot_ok, blk, IND in *. cbn [set_addr d_addrs].
  rewrite !nth_insert by lia. rewrite (decide_True (P := 12%nat = 12%nat)) by done.
  destruct (Z.ltb_spec k 12).
  - rewrite !decide_False by lia. done.
  - destruct (Z.eqb_spec k 268) as [->|]; [by rewrite decide_True|]. rewrite decide_False by done. rewrite Hi. simpl.
    destruct (Z.eqb_spec v 0); [done|]. rewrite Hv. unfold ld32, slice, zeros.
    rewrite drop_replicate, take_replicate. rewrite Nat.min_l by lia. reflexivity.
Qed.

Lemma blk_set_entry V V' d v k j :
  blk V d IND ≠ 0 → 12 ≤ j < IND → 0 ≤ v < 2 ^ 32 → slot_ok k → length (V (blk V d IND)) = 1024%nat →
  V' (blk V d IND) = st32 (Z.to_nat (4 * (j - 12))) v (V (blk V d IND)) →
  blk V' d k = if decide (k = j) then v else blk V d k.
Proof.
  rewrite blk_ind. intros Hi Hj Hv Hk Hl He. unfold slot_ok, blk, IND in *. set (ind := nth 12 (d_addrs d) 0) in *.
  destruct (Z.ltb_spec k 12); [rewrite decide_False by lia; done|].
  destruct (Z.eqb_spec k 268) as [->|]; [rewrite decide_False by lia; done|].
  destruct (Z.eqb_spec ind 0); [done|]. rewrite He. case_decide as Hkj.
  - subst k. rewrite ld32_st32 by lia. by apply u32_id.
  - rewrite ld32_st32_other by lia. done.
Qed.

Section FsFile.
Context (start cap : Z) (sb : superblock) (Hgeo : geometry start cap sb).
Implicit Types (V : Z → list Z) (d : dinode).
Notation used := (used sb).
Notation datastart := (datastart sb).
Notation bitmap_block := (bitmap_block sb).
Notation alloc_view := (alloc_view sb).

Definition data_block (b : Z) : Prop := datastart ≤ b < sb_size sb.

(** A file: its blocks are data blocks in use, all different, and cover its size. *)
Record file_ok V d : Prop := {
  fo_addrs : length (d_addrs d) = 13%nat;
  fo_size : 0 ≤ d_size d ≤ MAXFILE * BSIZE;
  fo_blk : ∀ k, slot_ok k → blk V d k ≠ 0 → data_block (blk V d k) ∧ used V (blk V d k) = true;
  fo_inj : ∀ k k', slot_ok k → slot_ok k' → blk V d k ≠ 0 → blk V d k = blk V d k' → k = k';
  fo_full : ∀ k, 0 ≤ k → k * BSIZE < d_size d → blk V d k ≠ 0;
}.

Lemma data_pos b : data_block b → 0 < b < 2 ^ 31.
Proof.
  intros [Hb1 Hb2]. destruct Hgeo as [[? [? ?]] [? ?] [? ?]]. unfold FsAlloc.datastart in *.
  rewrite BPB_eq, IPB_eq in *. zdm.
Qed.
Lemma data_not_bitmap b : data_block b → ¬ bitmap_block b.
Proof. unfold data_block, FsAlloc.bitmap_block. lia. Qed.

(** What a step of the file [d] leaves alone: the blocks in use that are neither
    the file's nor the bitmap's. *)
Definition frame V d V' d' : Prop :=
  ∀ b, 0 ≤ b < sb_size sb → used V b = true → ¬ bitmap_block b → (∀ k, slot_ok k → b ≠ blk V d k) →
    V' b = V b ∧ used V' b = true ∧ ∀ k, slot_ok k → b ≠ blk V' d' k.

Lemma frame_refl V d : frame V d V d.
Proof. by repeat split. Qed.
Lemma frame_trans V d V1 d1 V2 d2 : frame V d V1 d1 → frame V1 d1 V2 d2 → frame V d V2 d2.
Proof.
  intros H1 H2 b Hb Hu Hn Hk. destruct (H1 b Hb Hu Hn Hk) as (E1 & U1 & K1).
  destruct (H2 b Hb U1 Hn K1) as (E2 & U2 & K2). split; [congruence|]. auto.
Qed.

(** ** Growth: slot [k] gets the fresh block [r] *)

Record grow1 V d (k r : Z) V' d' : Prop := {
  gr_slot : slot_ok k ∧ blk V d k = 0;
  gr_block : data_block r ∧ used V r = false;
  gr_same : d_type d' = d_type d ∧ d_major d' = d_major d ∧ d_minor d' = d_minor d ∧
            d_nlink d' = d_nlink d ∧ d_size d' = d_size d;
  gr_addrs : length (d_addrs d') = 13%nat;
  gr_blk : ∀ j, slot_ok j → blk V' d' j = if decide (j = k) then r else blk V d j;
  gr_used : ∀ b, 0 ≤ b < sb_size sb → used V' b = bool_decide (b = r) || used V b;
  gr_zero : V' r = zeros;
  gr_view : ∀ b, b ≠ r → ¬ bitmap_block b → (blk V d IND ≠ 0 → b ≠ blk V d IND) → V' b = V b;
  gr_len : ∀ b, length (V' b) = 1024%nat;
}.

Lemma grow1_ok V d k r V' d' : file_ok V d → grow1 V d k r V' d' → file_ok V' d'.
Proof.
  intros [F1 F2 F3 F4 F5] [[G1 G1'] [G2 G2'] (_ & _ & _ & _ & G3) G4 G5 G6 G7 G8 G9].
  pose proof (data_pos r G2) as Hr.
  assert (Hfresh : ∀ j, slot_ok j → blk V d j ≠ 0 → blk V d j ≠ r).
  { intros j Hj Hz He. destruct (F3 j Hj Hz) as [_ Hu]. congruence. }
  split; [done|lia| | |].
  - intros j Hj. rewrite G5 by done. intros Hz. case_decide as He.
    + split; [done|]. rewrite G6 by (unfold data_block in *; lia). by rewrite bool_decide_eq_true_2.
    + destruct (F3 j Hj Hz) as [Hd Hu]. split; [done|]. pose proof (data_pos _ Hd).
      rewrite G6 by (unfold data_block in *; lia). by rewrite Hu, orb_true_r.
  - intros j j' Hj Hj'. rewrite !G5 by done. repeat case_decide; intros Hz He; try congruence.
    + exfalso. apply (Hfresh j'); [done|congruence|congruence].
    + exfalso. apply (Hfresh j); [done|congruence|congruence].
    + by apply F4.
  - intros j Hj. rewrite G3. intros Hsz. rewrite G5.
    + case_decide; [lia|]. by apply F5.
    + unfold slot_ok, IND. unfold MAXFILE, NDIRECT, NINDIRECT, BSIZE in *. change (1024 / 4) with 256 in *. lia.
Qed.

Lemma grow1_frame V d k r V' d' : grow1 V d k r V' d' → frame V d V' d'.
Proof.
  intros [[G1 G1'] [G2 G2'] _ G4 G5 G6 G7 G8 G9] b Hb Hu Hn Hk.
  assert (Hbr : b ≠ r) by congruence. split; [|split].
  - apply G8; [done|done|]. intros _. apply Hk. unfold slot_ok, IND. lia.
  - rewrite G6 by done. by rewrite Hu, orb_true_r.
  - intros j Hj. rewrite G5 by done. case_decide; [done|]. by apply Hk.
Qed.

(** The data a file had is still there. *)
Lemma grow1_data V d k r V' d' j :
  file_ok V d → grow1 V d k r V' d' → slot_ok j → j ≠ IND → blk V d j ≠ 0 →
  blk V' d' j = blk V d j ∧ V' (blk V d j) = V (blk V d j).
Proof.
  intros [F1 F2 F3 F4 F5] [[G1 G1'] [G2 G2'] _ G4 G5 G6 G7 G8 G9] Hj HI Hz.
  destruct (F3 j Hj Hz) as [Hd Hu]. split; [rewrite G5 by done; case_decide; congruence|].
  apply G8; [congruence|by apply data_not_bitmap|]. intros _ He. apply HI, F4; try done.
Qed.

Inductive grow V d : (Z → list Z) → dinode → Prop :=
| grow_nil : grow V d V d
| grow_snoc k r V1 d1 V2 d2 : grow V d V1 d1 → grow1 V1 d1 k r V2 d2 → grow V d V2 d2.

Lemma grow_ok V d V' d' : grow V d V' d' → file_ok V d → file_ok V' d'.
Proof. induction 1 as [|k r V1 d1 V2 d2 _ IH Hg]; [done|]. intros Hok. exact (grow1_ok _ _ _ _ _ _ (IH Hok) Hg). Qed.
Lemma grow_frame V d V' d' : grow V d V' d' → frame V d V' d'.
Proof. induction 1; [apply frame_refl|]. eapply frame_trans; [done|by eapply grow1_frame]. Qed.
Lemma grow_same V d V' d' : grow V d V' d' →
  d_type d' = d_type d ∧ d_major d' = d_major d ∧ d_minor d' = d_minor d ∧ d_nlink d' = d_nlink d ∧ d_size d' = d_size d.
Proof.
  induction 1 as [|k r V1 d1 V2 d2 _ (?&?&?&?&?) [_ _ (?&?&?&?&?) _ _ _ _ _ _]]; [done|]. split_and!; congruence.
Qed.
Lemma grow_data V d V' d' j :
  grow V d V' d' → file_ok V d → slot_ok j → j ≠ IND → blk V d j ≠ 0 →
  blk V' d' j = blk V d j ∧ V' (blk V d j) = V (blk V d j).
Proof.
  induction 1 as [|k r V1 d1 V2 d2 Hg IH Hg1]; intros Hok Hj HI Hz; [done|].
  destruct (IH Hok Hj HI Hz) as [E1 E2].
  destruct (grow1_data V1 d1 k r V2 d2 j) as [E3 E4]; [by eapply grow_ok|done|done|done|congruence|].
  rewrite E1 in *. split; congruence.
Qed.
Lemma grow_blk V d V' d' j : grow V d V' d' → slot_ok j → blk V d j ≠ 0 → blk V' d' j = blk V d j.
Proof.
  induction 1 as [|k r V1 d1 V2 d2 _ IH [[_ G1] _ _ _ G5 _ _ _ _]]; intros Hj Hz; [done|].
  rewrite G5 by done. rewrite IH by done. case_decide; [|done]. subst k. rewrite IH in G1 by done. done.
Qed.
Lemma grow_used V d V' d' b : grow V d V' d' → 0 ≤ b < sb_size sb → used V b = true → used V' b = true.
Proof.
  induction 1 as [|k r V1 d1 V2 d2 Hg IH [_ _ _ _ _ G6 _ _ _]]; intros Hb Hu; [done|].
  rewrite G6 by done. by rewrite IH, orb_true_r.
Qed.
Lemma grow_meta V d V' d' : grow V d V' d' → meta_used sb V → meta_used sb V'.
Proof.
  intros Hg Hm b Hb. eapply grow_used; [done| |by apply Hm]. destruct Hgeo as [_ _ [? ?]]. lia.
Qed.

(** ** The two ways a file grows *)

Lemma grow1_addr V d (j : nat) r :
  file_ok V d → (∀ b, length (V b) = 1024%nat) → (j ≤ 12)%nat →
  blk V d (if decide (j = 12%nat) then IND else Z.of_nat j) = 0 → data_block r → used V r = false →
  grow1 V d (if decide (j = 12%nat) then IND else Z.of_nat j) r (alloc_view V r) (set_addr j r d).
Proof.
  intros Hok Hl Hj Hz Hr Hu. pose proof (fo_addrs V d Hok) as Ha.
  assert (Hzr : alloc_view V r r = zeros) by (unfold FsAlloc.alloc_view; by rewrite fn_lookup_insert).
  assert (Hind : blk V d IND ≠ 0 → alloc_view V r (blk V d IND) = V (blk V d IND)).
  { intros Hi. destruct (fo_blk V d Hok IND) as [Hd Hui]; [unfold slot_ok, IND; lia|done|].
    apply alloc_view_other; [congruence|]. intros He. pose proof (data_pos _ Hr).
    apply (bitmap_not_data start cap sb Hgeo r (blk V d IND)); [unfold data_block in *; lia|apply Hd|congruence]. }
  split; try done.
  - split; [|done]. unfold slot_ok, IND. case_decide; lia.
  - cbn [set_addr d_addrs]. by rewrite length_insert.
  - intros k Hk. rewrite <- (blk_ext V (alloc_view V r) d d k) by (done || apply Hind).
    destruct (decide (j = 12%nat)) as [->|Hne].
    + apply blk_set_ind; try done.
    + rewrite blk_set_addr by (done || lia). done.
  - intros b Hb. apply (used_alloc start cap); try done.
  - intros b Hb Hnb _. apply alloc_view_other; [done|]. intros ->. apply Hnb. unfold FsAlloc.bitmap_block.
    pose proof (data_pos _ Hr). destruct (BBLOCK_eq start cap sb Hgeo r) as [-> ?]; [unfold data_block in *; lia|].
    rewrite BPB_eq in *. split; [zdm|lia].
  - by apply alloc_view_len.
Qed.

Lemma grow1_entry V d j r :
  file_ok V d → (∀ b, length (V b) = 1024%nat) → 12 ≤ j < IND → blk V d IND ≠ 0 →
  blk V d j = 0 → data_block r → used V r = false →
  grow1 V d j r (<[blk V d IND := st32 (Z.to_nat (4 * (j - 12))) r (alloc_view V r (blk V d IND))]> (alloc_view V r)) d.
Proof.
  intros Hok Hl Hj Hi Hz Hr Hu. pose proof (fo_addrs V d Hok) as Ha. set (ind := blk V d IND) in *.
  destruct (fo_blk V d Hok IND) as [Hd Hui]; [unfold slot_ok, IND; lia|done|]. fold ind in Hd, Hui.
  pose proof (data_pos _ Hr) as Hrp. pose proof (data_pos _ Hd) as Hdp.
  assert (Hrs : 0 ≤ r < sb_size sb) by (unfold data_block in *; lia).
  assert (Hnb : ind ≠ BBLOCK r sb).
  { intros He. apply (bitmap_not_data start cap sb Hgeo r ind); [done|apply Hd|done]. }
  assert (Hind : alloc_view V r ind = V ind) by (apply alloc_view_other; congruence).
  split; try done.
  - split; [unfold slot_ok, IND in *; lia|done].
  - intros k Hk. apply (blk_set_entry V); try done; try lia. fold ind. by rewrite fn_lookup_insert, Hind.
  - intros b Hb. rewrite <- (used_alloc start cap sb Hgeo V r b) by done. unfold FsAlloc.used.
    rewrite fn_lookup_insert_ne; [done|]. intros He.
    apply (bitmap_not_data start cap sb Hgeo b ind); [done|apply Hd|done].
  - rewrite fn_lookup_insert_ne by congruence. unfold FsAlloc.alloc_view. by rewrite fn_lookup_insert.
  - intros b Hb Hbm Hbi. rewrite fn_lookup_insert_ne by (symmetry; by apply Hbi).
    apply alloc_view_other; [done|]. intros ->. apply Hbm. unfold FsAlloc.bitmap_block.
    destruct (BBLOCK_eq start cap sb Hgeo r Hrs) as [-> ?]. rewrite BPB_eq in *. split; [zdm|lia].
  - intros b. destruct (decide (ind = b)) as [<-|]; [|rewrite fn_lookup_insert_ne by done; by apply alloc_view_len].
    rewrite fn_lookup_insert, length_st32, Hind; [done|]. unfold IND in *. rewrite Hind, Hl. lia.
Qed.

(** ** [bmap] *)

Definition full V : Prop := ∀ b, 0 ≤ b < sb_size sb → used V b = true.

Section rules.
Context {D : Type} `{Disk D} (dev : Z) (Hdev : 0 < dev < 2 ^ 31) (mypid out : Z).
Implicit Types (s : fstate D) (dk : D) (bs : list Z) (hs : list (nat * Z)).
Notation ftx := (ftx dev mypid start cap sb out).
Notation place := (place start cap sb Hgeo).
Notation meta_used := (meta_used sb).

(** What [bmap] of slot [bn] returns and logs, from [V], [d] and [bs]. *)
Record bmap_post V d bs (bn r : Z) V' d' bs' : Prop := {
  bp_grow : grow V d V' d';
  bp_ret : r = blk V' d' bn;
  bp_full : r = 0 → full V';
  bp_new : blk V d bn = 0 → r ≠ 0 → V' r = zeros;
  bp_old : blk V d bn ≠ 0 → V' = V ∧ d' = d ∧ bs' = bs;
  bp_log : ∀ b, b ∈ bs' → b ∈ bs ∨ bitmap_block b ∨ (b = blk V' d' IND ∧ b ≠ 0) ∨ (b = blk V' d' bn ∧ b ≠ 0);
}.

Lemma elem_add_block bs b x : x ∈ add_block bs b ↔ x ∈ bs ∨ x = b.
Proof.
  unfold add_block. case_decide; [|rewrite elem_of_app, list_elem_of_singleton; done]. split; [auto|].
  intros [?| ->]; done.
Qed.

Lemma set_d_same n : set_d (i_d n) n = n.
Proof. by destruct n. Qed.

Lemma itab_is_refl s n ip : n = itab s ip → itab_is s ip n s.
Proof. intros -> j. case_decide; congruence. Qed.

Lemma BBLOCK_bitmap b : 0 ≤ b < sb_size sb → bitmap_block (BBLOCK b sb).
Proof.
  intros Hb. destruct (BBLOCK_eq start cap sb Hgeo b Hb) as [He ?]. unfold FsAlloc.bitmap_block.
  split; [rewrite He, BPB_eq; zdm|lia].
Qed.

(** [balloc] for slot [k], with the buffers [hs] held. *)
Lemma balloc_rule s dk V bs hs (Q : Z → fstate D → Prop) :
  0 < out → ftx s dk V bs hs None → meta_used V → held_ok sb V hs →
  (length bs + length hs + 1 < 30)%nat → Z.of_nat (length bs) + 1 < cap →
  (full V → ∀ s', ftx s' dk V bs hs None → itab s' = itab s → Q 0 s') →
  (∀ r s', data_block r → r ≠ 0 → used V r = false →
     ftx s' dk (alloc_view V r) (add_block (add_block bs (BBLOCK r sb)) r) hs None → itab s' = itab s → Q r s') →
  wp (balloc mypid dev) Q s.
Proof.
  intros Hout Ht Hm Hh H1 H2 Hf Ha. eapply (balloc_spec start cap sb Hgeo dev Hdev mypid out Hout); try done.
  intros r s' V' bs' Ht' [(-> & -> & -> & Hall)|(Hr & Hu & _ & -> & ->)] E; [by apply Hf|].
  apply Ha; try done. pose proof (data_pos r Hr). lia.
Qed.

Lemma held_nil V : held_ok sb V [].
Proof. by intros h ?%not_elem_of_nil. Qed.

Lemma bmap_direct s dk V bs ip bn (Q : Z → fstate D → Prop) :
  let n := itab s ip in let d := i_d n in
  ftx s dk V bs [] None → i_dev n = dev → meta_used V → file_ok V d → 0 ≤ bn < 12 → 0 < out ∨ blk V d bn ≠ 0 →
  (length bs + 6 < 30)%nat → Z.of_nat (length bs) + 4 < cap →
  (∀ r s' V' d' bs', ftx s' dk V' bs' [] None → bmap_post V d bs bn r V' d' bs' →
     itab_is s' ip (set_d d' n) s → Q r s') →
  wp (bmap mypid ip bn) Q s.
Proof.
  intros n d Ht Hd Hm Hok Hbn Hout Hl Hc HQ. unfold bmap. apply wp_step, wp_get_ino. fold n. fold d.
  destruct (Z.ltb_spec bn NDIRECT) as [_|?]; [|unfold NDIRECT in *; lia].
  assert (Hb : addr_of n bn = blk V d bn) by (unfold blk; by destruct (Z.ltb_spec bn 12); [|lia]).
  rewrite Hb. destruct (Z.eqb_spec (blk V d bn) 0) as [Hz|Hz].
  - rewrite Hd. apply wp_step. eapply balloc_rule; [tauto|exact Ht|done|apply held_nil|simpl; lia|lia| |].
    + intros Hf s1 H1 E1. simpl. apply wp_ret. apply (HQ 0 s1 V d bs); [done| |].
      * split; try done; [constructor|auto].
      * unfold d. rewrite set_d_same. intros j. rewrite E1. case_decide; [subst j|]; done.
    + intros r s1 Hr Hr0 Hu H1 E1. destruct (Z.eqb_spec r 0); [done|].
      apply wp_step, wp_upd_ino. apply wp_ret.
      pose proof (grow1_addr V d (Z.to_nat bn) r Hok (fx_len _ _ _ _ _ _ _ _ _ _ _ _ Ht) ltac:(lia)) as Hg.
      rewrite decide_False in Hg by lia. rewrite Z2Nat.id in Hg by lia. specialize (Hg Hz Hr Hu).
      eapply (HQ r _ (alloc_view V r) (set_addr (Z.to_nat bn) r d)); [by apply ftx_itab| |].
      * assert (Hrb : blk (alloc_view V r) (set_addr (Z.to_nat bn) r d) bn = r).
        { rewrite (gr_blk _ _ _ _ _ _ Hg) by (unfold slot_ok, IND; lia). by rewrite decide_True. }
        split; [by eapply grow_snoc; [constructor|]|done|done|intros _ _; apply Hg|done|].
        intros b. rewrite !elem_add_block, Hrb. intros [[?| ->]| ->]; auto 6.
        right. left. apply BBLOCK_bitmap. pose proof (data_pos r Hr). unfold data_block in Hr. lia.
      * intros j. cbn [itab]. rewrite E1. case_decide as Hj; [subst j; by rewrite fn_lookup_insert|by rewrite fn_lookup_insert_ne].
  - apply wp_ret. apply (HQ _ s V d bs); [done| |unfold d; rewrite set_d_same; by apply itab_is_refl].
    split; try done; [constructor|auto].
Qed.

(** The second half of the indirect case of [bmap]. *)
Definition bmap_entry (ind bn : Z) : M (fstate D) Z :=
  do bp <- fbread mypid dev ind;
  do a <- fdata bp;
  let addr := ld32 (Z.to_nat (4 * bn)) a in
  do addr <- (if addr =? 0 then
                do addr <- balloc mypid dev;
                if addr =? 0 then ret 0
                else fset bp (st32 (Z.to_nat (4 * bn)) addr) ;;; flog_write bp ;;; ret addr
              else ret addr);
  fbrelse mypid bp ;;;
  ret addr.

Lemma data_in_disk b : data_block b → 0 ≤ b < sb_size sb.
Proof. intros Hb. pose proof (data_pos b Hb). unfold data_block in Hb. lia. Qed.

Lemma bmap_entry_spec s dk V d bs bn (Q : Z → fstate D → Prop) :
  ftx s dk V bs [] None → meta_used V → file_ok V d → 12 ≤ bn < IND → blk V d IND ≠ 0 → 0 < out ∨ blk V d bn ≠ 0 →
  (length bs + 4 < 30)%nat → Z.of_nat (length bs) + 2 < cap →
  (∀ r s' V' bs', ftx s' dk V' bs' [] None → bmap_post V d bs bn r V' d bs' → itab s' = itab s → Q r s') →
  wp (bmap_entry (blk V d IND) (bn - 12)) Q s.
Proof.
  intros Ht Hm Hok Hbn Hi Hout Hl Hc HQ. set (ind := blk V d IND) in *. pose proof (fx_len _ _ _ _ _ _ _ _ _ _ _ _ Ht) as Hlen.
  destruct (fo_blk V d Hok IND) as [Hd Hui]; [unfold slot_ok, IND; lia|done|]. fold ind in Hd, Hui.
  pose proof (data_pos _ Hd) as Hdp. pose proof (data_in_disk _ Hd) as Hdd. unfold bmap_entry.
  apply wp_step. eapply (fx_bread dev Hdev mypid start cap place sb out); [exact Ht|lia|apply not_elem_of_nil|simpl; lia|].
  intros i s1 H1 E1. apply wp_step. eapply fx_data; [exact H1|by left|].
  assert (He : ld32 (Z.to_nat (4 * (bn - 12))) (V ind) = blk V d bn).
  { unfold blk, ind, IND in *. destruct (Z.ltb_spec bn 12); [lia|]. destruct (Z.eqb_spec bn 268); [lia|].
    change (blk V d 268) with (nth 12 (d_addrs d) 0) in *. destruct (Z.eqb_spec (nth 12 (d_addrs d) 0) 0); done. }
  cbv zeta. rewrite He. destruct (Z.eqb_spec (blk V d bn) 0) as [Hz|Hz].
  - apply wp_step, wp_step. eapply balloc_rule; [tauto|exact H1|done| |simpl; lia|lia| |].
    { intros h [-> | []%not_elem_of_nil]%elem_of_cons. split; [done|]. split; [done|]. by apply data_not_bitmap. }
    + intros Hf s2 H2 E2. simpl. apply wp_ret, wp_step.
      eapply (fx_brelse dev Hdev mypid start cap place sb out); [exact H2|]. intros s3 H3 E3. apply wp_ret.
      apply (HQ 0 s3 V bs); [done| |congruence]. split; try done; [constructor|auto].
    + intros r s2 Hr Hr0 Hu H2 E2. destruct (Z.eqb_spec r 0); [done|].
      pose proof (grow1_entry V d bn r Hok Hlen Hbn Hi Hz Hr Hu) as Hg. fold ind in Hg.
      pose proof (data_in_disk _ Hr) as Hrd.
      pose proof (add_block_length bs (BBLOCK r sb)) as L1. pose proof (add_block_length (add_block bs (BBLOCK r sb)) r) as L2.
      apply wp_step. eapply fx_set; [exact H2| |].
      { pose proof (gr_len _ _ _ _ _ _ Hg ind) as Hx. by rewrite fn_lookup_insert in Hx. }
      intros s3 H3 E3. apply wp_step.
      eapply (fx_log dev Hdev mypid start cap place sb out); [tauto|exact H3|by right|lia|by apply (data_not_log start cap sb Hgeo), Hd|lia|].
      intros s4 H4 E4. apply wp_ret, wp_step.
      eapply (fx_brelse dev Hdev mypid start cap place sb out); [exact H4|]. intros s5 H5 E5. apply wp_ret.
      eapply (HQ r s5); [exact H5| |congruence].
      assert (Hrb : blk (<[ind := st32 (Z.to_nat (4 * (bn - 12))) r (alloc_view V r ind)]> (alloc_view V r)) d bn = r).
      { rewrite (gr_blk _ _ _ _ _ _ Hg) by (unfold slot_ok, IND in *; lia). by rewrite decide_True. }
      split; [by eapply grow_snoc; [constructor|]|done|done|intros _ _; apply Hg|done|].
      intros b. rewrite !elem_add_block, Hrb. intros [[[?| ->]| ->]| ->]; auto 8.
      right. left. by apply BBLOCK_bitmap.
  - apply wp_step, wp_ret, wp_step. eapply (fx_brelse dev Hdev mypid start cap place sb out); [exact H1|]. intros s2 H2 E2.
    apply wp_ret. apply (HQ _ s2 V bs); [done| |congruence]. split; try done; [constructor|auto].
Qed.

Lemma bmap_indirect s dk V bs ip bn (Q : Z → fstate D → Prop) :
  let n := itab s ip in let d := i_d n in
  ftx s dk V bs [] None → i_dev n = dev → meta_used V → file_ok V d → 12 ≤ bn < IND → 0 < out ∨ blk V d bn ≠ 0 →
  (length bs + 6 < 30)%nat → Z.of_nat (length bs) + 4 < cap →
  (∀ r s' V' d' bs', ftx s' dk V' bs' [] None → bmap_post V d bs bn r V' d' bs' →
     itab_is s' ip (set_d d' n) s → Q r s') →
  wp (bmap mypid ip bn) Q s.
Proof.
  intros n d Ht Hd Hm Hok Hbn Hout Hl Hc HQ. unfold bmap. apply wp_step, wp_get_ino. fold n. fold d.
  destruct (Z.ltb_spec bn NDIRECT) as [?|_]; [unfold NDIRECT in *; lia|].
  change NDIRECT with 12. change NINDIRECT with 256.
  destruct (Z.ltb_spec (bn - 12) 256) as [_|?]; [|unfold IND in *; lia].
  assert (Hb : addr_of n 12 = blk V d IND) by reflexivity. rewrite Hb, Hd.
  assert (Hsl : slot_ok IND) by (unfold slot_ok, IND; lia).
  apply wp_step. destruct (Z.eqb_spec (blk V d IND) 0) as [Hz|Hz].
  - assert (Hbz : blk V d bn = 0).
    { unfold blk. destruct (Z.ltb_spec bn 12); [lia|]. destruct (Z.eqb_spec bn IND); [lia|].
      rewrite blk_ind in Hz. by rewrite Hz. }
    apply wp_step. eapply balloc_rule; [tauto|exact Ht|done|apply held_nil|simpl; lia|lia| |].
    + intros Hf s1 H1 E1. simpl. apply wp_ret. simpl. apply wp_ret. apply (HQ 0 s1 V d bs); [done| |].
      * split; try done; [constructor|auto].
      * unfold d. rewrite set_d_same. intros j. rewrite E1. case_decide; [subst j|]; done.
    + intros r s1 Hr Hr0 Hu H1 E1. destruct (Z.eqb_spec r 0); [done|].
      apply wp_step, wp_upd_ino, wp_ret. destruct (Z.eqb_spec r 0); [done|].
      pose proof (grow1_addr V d 12 r Hok (fx_len _ _ _ _ _ _ _ _ _ _ _ _ Ht) ltac:(lia)) as Hg.
      rewrite decide_True in Hg by done. specialize (Hg Hz Hr Hu). set (d1 := set_addr 12 r d) in *.
      assert (Hi1 : blk (alloc_view V r) d1 IND = r).
      { rewrite (gr_blk _ _ _ _ _ _ Hg) by done. by rewrite decide_True. }
      assert (Hgs : grow V d (alloc_view V r) d1) by (eapply grow_snoc; [constructor|exact Hg]).
      pose proof (add_block_length bs (BBLOCK r sb)) as L1. pose proof (add_block_length (add_block bs (BBLOCK r sb)) r) as L2.
      pose proof (bmap_entry_spec (mkFs (fl s1) (fsb s1) (<[ip := set_d (set_addr 12 r (i_d (itab s1 ip))) (itab s1 ip)]> (itab s1)))
        dk (alloc_view V r) d1 (add_block (add_block bs (BBLOCK r sb)) r) bn Q) as Hent.
      rewrite Hi1 in Hent. apply Hent; clear Hent.
      * by apply ftx_itab.
      * by eapply grow_meta.
      * by eapply grow1_ok.
      * done.
      * done.
      * left. tauto.
      * lia.
      * lia.
      * intros r' s2 V2 bs2 H2 [P1 P2 P3 P4 _ P5] E2. apply (HQ r' s2 V2 d1 bs2); [done| |].
        -- split; try done.
           ++ clear -Hgs P1. induction P1; [done|]. eapply grow_snoc; eauto.
           ++ intros Hz1. apply P4. rewrite (gr_blk _ _ _ _ _ _ Hg) by (unfold slot_ok, IND in *; lia).
              rewrite decide_False; [done|]. unfold IND in *. lia.
           ++ intros b Hb'. destruct (P5 b Hb') as [Hin|Hrest]; [|tauto]. rewrite !elem_add_block in Hin.
              destruct Hin as [[?| ->]| ->]; [auto|right; left; apply BBLOCK_bitmap, data_in_disk, Hr|].
              right. right. left. split; [|done]. rewrite <- Hi1. symmetry. by apply blk_ind.
        -- intros j. rewrite E2. cbn [itab]. rewrite E1.
           case_decide as Hj; [subst j; by rewrite fn_lookup_insert|by rewrite fn_lookup_insert_ne].
  - apply wp_ret. destruct (Z.eqb_spec (blk V d IND) 0); [done|].
    eapply (bmap_entry_spec s dk V d bs bn); [exact Ht|done|done|done|done|done|lia|lia|].
    intros r s' V' bs' H' Hp E. apply (HQ r s' V' d bs'); [done|done|]. unfold d. rewrite set_d_same.
    intros j. rewrite E. case_decide; [subst j|]; done.
Qed.

(** [bmap] of any slot below MAXFILE. *)
Lemma bmap_spec s dk V bs ip bn (Q : Z → fstate D → Prop) :
  let n := itab s ip in let d := i_d n in
  ftx s dk V bs [] None → i_dev n = dev → meta_used V → file_ok V d → 0 ≤ bn < IND → 0 < out ∨ blk V d bn ≠ 0 →
  (length bs + 6 < 30)%nat → Z.of_nat (length bs) + 4 < cap →
  (∀ r s' V' d' bs', ftx s' dk V' bs' [] None → bmap_post V d bs bn r V' d' bs' →
     itab_is s' ip (set_d d' n) s → Q r s') →
  wp (bmap mypid ip bn) Q s.
Proof.
  intros n d Ht Hd Hm Hok Hbn Hout Hl Hc HQ.
  destruct (decide (bn < 12)); [eapply bmap_direct|eapply bmap_indirect]; try done; lia.
Qed.
End rules.
End FsFile.
