(* ===== verification/FsRW.v ===== *)
(** * FsRW: reading and writing files

    [readi] delivers the bytes of the file, block by block, and changes nothing;
    [writei] replaces them, growing the file as needed.  Both against the view
    of FsFile.v. *)
From stdpp Require Import functions.
From S2P Require Import Prelude Riscv Spinlock Bio BioSpec Log LogSpec LogCrash LogTx UserMem Fs FsTx FsAlloc FsInode FsFile.

(** The bytes of a file from [off] on. *)
Definition fbytes (V : Z → list Z) (d : dinode) (off : Z) (n : nat) : list Z :=
  (λ i, fbyte V d (off + Z.of_nat i)) <$> seq 0 n.

(** ... in the pieces [readi] copies. *)
Fixpoint chunks (fuel : nat) (V : Z → list Z) (d : dinode) (off n : Z) : list (list Z) :=
  if n <=? 0 then []
  else match fuel with
       | O => []
       | S fuel =>
           let m := Z.min n (BSIZE - off mod BSIZE) in
           fbytes V d off (Z.to_nat m) :: chunks fuel V d (off + m) (n - m)
       end.

(** Copies of successive pieces; the boolean is false once one has failed. *)
Fixpoint puts {X} (put : X → Z → list Z → bool * X) (x : X) (dst : Z) (ls : list (list Z)) : bool * X :=
  match ls with
  | [] => (true, x)
  | l :: ls =>
      let '(ok, x) := put x dst l in
      if ok : bool then puts put x (u64 (dst + Z.of_nat (length l))) ls else (false, x)
  end.

Lemma length_fbytes V d off n : length (fbytes V d off n) = n.
Proof. unfold fbytes. by rewrite length_fmap, length_seq. Qed.

Lemma lookup_fbytes V d off n i : (i < n)%nat → fbytes V d off n !! i = Some (fbyte V d (off + Z.of_nat i)).
Proof. intros Hi. unfold fbytes. rewrite list_lookup_fmap, lookup_seq_lt by done. done. Qed.

Lemma fbytes_app V d off n m : fbytes V d off (n + m) = fbytes V d off n ++ fbytes V d (off + Z.of_nat n) m.
Proof.
  apply list_eq. intros i. destruct (decide (i < n)%nat).
  - rewrite lookup_app_l by (rewrite length_fbytes; lia). rewrite !lookup_fbytes by lia. done.
  - rewrite lookup_app_r by (rewrite length_fbytes; lia). rewrite length_fbytes.
    destruct (decide (i < n + m)%nat).
    + rewrite !lookup_fbytes by lia. do 2 f_equal. lia.
    + rewrite !lookup_ge_None_2; [done|rewrite length_fbytes; lia|rewrite length_fbytes; lia].
Qed.

Lemma BSIZE_eq : BSIZE = 1024. Proof. done. Qed.

Lemma slice_block V d off (m : nat) :
  (∀ b, length (V b) = 1024%nat) → 0 ≤ off → off mod BSIZE + Z.of_nat m ≤ BSIZE →
  slice (V (blk V d (off / BSIZE))) (Z.to_nat (off mod BSIZE)) m = fbytes V d off m.
Proof.
  intros Hl Ho Hm. rewrite BSIZE_eq in *. apply list_eq. intros i. destruct (decide (i < m)%nat) as [Hi|Hi].
  - rewrite lookup_fbytes by done. unfold fbyte. rewrite BSIZE_eq.
    replace ((off + Z.of_nat i) / 1024) with (off / 1024) by zdm.
    replace ((off + Z.of_nat i) mod 1024) with (off mod 1024 + Z.of_nat i) by zdm.
    rewrite lookup_slice by done. rewrite nth_lookup.
    replace (Z.to_nat (off mod 1024 + Z.of_nat i)) with (Z.to_nat (off mod 1024) + i)%nat by zdm.
    destruct (V (blk V d (off / 1024)) !! (Z.to_nat (off mod 1024) + i)%nat) eqn:E; [done|].
    apply lookup_ge_None_1 in E. rewrite Hl in E. zdm.
  - rewrite !lookup_ge_None_2; [done|rewrite length_fbytes; lia|].
    rewrite length_slice by (rewrite Hl; zdm). lia.
Qed.

Lemma chunks_join fuel V d off n :
  0 ≤ n → n ≤ Z.of_nat fuel → mjoin (chunks fuel V d off n) = fbytes V d off (Z.to_nat n).
Proof.
  revert off n. induction fuel as [|fuel IH]; intros off n Hn Hf; simpl.
  - destruct (Z.leb_spec n 0); [|lia]. by replace (Z.to_nat n) with 0%nat by lia.
  - destruct (Z.leb_spec n 0); [by replace (Z.to_nat n) with 0%nat by lia|].
    set (m := Z.min n (BSIZE - off mod BSIZE)).
    assert (Hm : 0 < m ≤ n) by (unfold m; rewrite BSIZE_eq; zdm).
    change (fbytes V d off (Z.to_nat m) ++ mjoin (chunks fuel V d (off + m) (n - m)) = fbytes V d off (Z.to_nat n)).
    rewrite IH by lia. replace (Z.to_nat n) with (Z.to_nat m + Z.to_nat (n - m))%nat by lia.
    rewrite fbytes_app. do 2 f_equal. lia.
Qed.

(** Pieces copied into a local array. *)
Lemma puts_local ls x dst :
  0 ≤ dst → (dst + Z.of_nat (length (mjoin ls)) < 2 ^ 64) → (Z.to_nat dst + length (mjoin ls) ≤ length x)%nat →
  puts put_local x dst ls = (true, splice x (Z.to_nat dst) (mjoin ls)).
Proof.
  revert x dst. induction ls as [|l ls IH]; intros x dst Hd H64 Hlen; simpl.
  - unfold splice. simpl. rewrite Nat.add_0_r. by rewrite take_drop.
  - change (mjoin (l :: ls)) with (l ++ mjoin ls) in *. rewrite length_app in *.
    rewrite u64_id by lia. rewrite IH; [|lia|lia|].
    + f_equal. replace (Z.to_nat (dst + Z.of_nat (length l))) with (Z.to_nat dst + length l)%nat by lia.
      apply list_eq. intros i.
      assert (Hls : length (splice x (Z.to_nat dst) l) = length x) by (apply length_splice; lia).
      destruct (decide (Z.to_nat dst ≤ i < Z.to_nat dst + length l)%nat) as [Hi|Hi].
      * rewrite (lookup_splice_old _ (Z.to_nat dst + length l)) by (rewrite ?Hls; lia).
        rewrite !lookup_splice_new by (rewrite ?length_app; lia). rewrite lookup_app_l by lia. done.
      * destruct (decide (Z.to_nat dst + length l ≤ i < Z.to_nat dst + length l + length (mjoin ls))%nat) as [Hj|Hj].
        -- rewrite !lookup_splice_new by (rewrite ?length_app, ?Hls; lia). rewrite lookup_app_r by lia. f_equal. lia.
        -- rewrite !lookup_splice_old by (rewrite ?length_app, ?Hls; lia). done.
    + rewrite length_splice by lia. lia.
Qed.

Section FsRW.
Context (start cap : Z) (sb : superblock) (Hgeo : geometry start cap sb).
Context {D : Type} `{Disk D} (dev : Z) (Hdev : 0 < dev < 2 ^ 31) (mypid out : Z).
Implicit Types (s : fstate D) (dk : D) (bs : list Z) (hs : list (nat * Z)) (V : Z → list Z) (d : dinode).
Notation ftx := (ftx dev mypid start cap sb out).
Notation place := (place start cap sb Hgeo).
Notation meta_used := (meta_used sb).
Notation file_ok := (file_ok sb).
Notation bmap_post := (bmap_post sb).

Definition same_itab s' s : Prop := ∀ j, itab s' j = itab s j.

Lemma itab_is_same s ip n s' : itab_is s' ip (set_d (i_d n) n) s → n = itab s ip → same_itab s' s.
Proof. intros Hi -> j. rewrite Hi, set_d_same. case_decide; congruence. Qed.

(** ** Reading *)

Section read.
Context {X : Type} (put : X → Z → list Z → bool * X).

Lemma readi_loop_spec fuel s dk V bs ip x dst off n tot (Q : Z * X → fstate D → Prop) :
  let d := i_d (itab s ip) in
  ftx s dk V bs [] None → i_dev (itab s ip) = dev → meta_used V → file_ok V d →
  0 ≤ off → 0 ≤ tot ≤ n → off + (n - tot) ≤ d_size d → n < 2 ^ 31 → n - tot ≤ Z.of_nat fuel →
  (length bs + 6 < 30)%nat → Z.of_nat (length bs) + 4 < cap →
  (∀ s', ftx s' dk V bs [] None → same_itab s' s →
     let '(ok, x') := puts put x dst (chunks fuel V d off (n - tot)) in Q (if ok : bool then n else -1, x') s') →
  wp (readi_loop mypid put fuel ip x dst off n tot) Q s.
Proof.
  revert s x dst off tot. induction fuel as [|fuel IH]; intros s x dst off tot d Ht Hd Hm Hok Ho Htot Hsz Hn Hf Hl Hc HQ;
    cbn [readi_loop chunks] in *.
  { destruct (Z.ltb_spec tot n); [lia|]. apply wp_ret. destruct (Z.leb_spec (n - tot) 0); [|lia].
    rewrite i32_id by lia. replace tot with n by lia. by apply HQ. }
  destruct (Z.ltb_spec tot n) as [Hlt|Hge]; cycle 1.
  { apply wp_ret. destruct (Z.leb_spec (n - tot) 0); [|lia].
    rewrite i32_id by lia. replace tot with n by lia. by apply HQ. }
  destruct (Z.leb_spec (n - tot) 0); [lia|].
  pose proof (fo_size _ _ _ Hok) as [_ Hmax].
  assert (Hmx : MAXFILE * BSIZE = 274432) by done.
  assert (Hbn : 0 ≤ off / BSIZE < IND) by (unfold IND; rewrite BSIZE_eq in *; zdm).
  assert (Hb : blk V d (off / BSIZE) ≠ 0) by (apply (fo_full _ _ _ Hok); [lia|rewrite BSIZE_eq; zdm]).
  apply wp_step. eapply (bmap_spec start cap sb Hgeo dev Hdev mypid out s dk V bs); try done; [by right|].
  intros r s1 V1 d1 bs1 H1 [P1 P2 _ _ P5 _] E1. destruct (P5 Hb) as (-> & -> & ->). clear P1 P5. fold d in P2.
  pose proof (itab_is_same s ip _ s1 E1 eq_refl) as S1.
  destruct (Z.eqb_spec r 0) as [Hr0|Hr0]; [congruence|].
  destruct (fo_blk _ _ _ Hok (off / BSIZE)) as [Hdb _]; [unfold slot_ok; lia|done|].
  pose proof (data_pos start cap sb Hgeo _ Hdb) as Hp.
  apply wp_step, wp_get_ino. rewrite (S1 ip), Hd.
  apply wp_step. eapply (fx_bread dev Hdev mypid start cap place sb out); [exact H1|rewrite P2; fold d; lia|apply not_elem_of_nil|simpl; lia|].
  intros i s2 H2 E2. apply wp_step. eapply fx_data; [exact H2|by left|].
  set (m := Z.min (n - tot) (BSIZE - off mod BSIZE)) in *.
  assert (Hmp : 0 < m ≤ n - tot) by (unfold m; rewrite BSIZE_eq; zdm).
  rewrite P2. fold d. rewrite (slice_block V d off (Z.to_nat m)); [|apply Ht|done|rewrite Z2Nat.id by lia; unfold m; lia].
  cbn [puts] in HQ. destruct (put x dst (fbytes V d off (Z.to_nat m))) as [ok x'].
  rewrite length_fbytes, Z2Nat.id in HQ by lia.
  apply wp_step. eapply (fx_brelse dev Hdev mypid start cap place sb out); [exact H2|]. intros s3 H3 E3.
  assert (S3 : same_itab s3 s) by (intros j; rewrite E3, E2; apply S1).
  destruct ok.
  - rewrite !u32_id by lia. eapply (IH s3); rewrite ?(S3 ip); fold d; try done; try lia.
    intros s4 H4 S4. replace (n - (tot + m)) with (n - tot - m) by lia.
    apply HQ; [done|]. intros j. by rewrite S4.
  - apply wp_ret. by apply HQ.
Qed.

(** [readi] of a file: nothing outside, up to the end of the file at most. *)
Lemma readi_spec s dk V bs ip x dst off n (Q : Z * X → fstate D → Prop) :
  let d := i_d (itab s ip) in
  let n' := Z.min n (d_size d - off) in
  ftx s dk V bs [] None → i_dev (itab s ip) = dev → meta_used V → file_ok V d →
  0 ≤ off ≤ d_size d → 0 ≤ n → off + n < 2 ^ 32 →
  (length bs + 6 < 30)%nat → Z.of_nat (length bs) + 4 < cap →
  (∀ s', ftx s' dk V bs [] None → same_itab s' s →
     let '(ok, x') := puts put x dst (chunks (Z.to_nat n') V d off n') in Q (if ok : bool then n' else -1, x') s') →
  wp (readi mypid put ip x dst off n) Q s.
Proof.
  intros d n' Ht Hd Hm Hok Ho Hn Hov Hl Hc HQ. unfold readi. apply wp_step, wp_get_ino. fold d.
  pose proof (fo_size _ _ _ Hok) as [_ Hmax]. assert (Hmx : MAXFILE * BSIZE = 274432) by done. fold d in Hmax.
  destruct (Z.ltb_spec (d_size d) off); [lia|]. rewrite u32_id by lia. destruct (Z.ltb_spec (off + n) off); [lia|].
  cbn [orb]. assert (Hn' : (if d_size d <? off + n then u32 (d_size d - off) else n) = n').
  { unfold n'. destruct (Z.ltb_spec (d_size d) (off + n)); [rewrite u32_id by lia; lia|lia]. }
  rewrite Hn'. eapply readi_loop_spec; try done; fold d; rewrite ?Z.sub_0_r; try (unfold n'; lia); try done.
Qed.
End read.

(** ** Writing *)

Notation used := (used sb).
Notation bitmap_block := (bitmap_block sb).
Notation frame := (frame sb).
Notation grow := (grow sb).
Notation full := (full sb).
Notation data_block := (data_block sb).

(** A write into a data block of the file. *)
Definition put_block V d (k : Z) (f : list Z → list Z) : Z → list Z :=
  <[blk V d k := f (V (blk V d k))]> V.

Lemma blk_put_block V d k f j :
  file_ok V d → slot_ok k → k ≠ IND → blk V d k ≠ 0 → blk (put_block V d k f) d j = blk V d j.
Proof.
  intros Hok Hk HI Hz. apply blk_ext; [done|]. intros Hi. unfold put_block. rewrite fn_lookup_insert_ne; [done|].
  intros He. apply HI. eapply (fo_inj _ _ _ Hok); try done.
Qed.

Lemma used_put_block V d k f b :
  file_ok V d → slot_ok k → blk V d k ≠ 0 → 0 ≤ b < sb_size sb → used (put_block V d k f) b = used V b.
Proof.
  intros Hok Hk Hz Hb. destruct (fo_blk _ _ _ Hok k Hk Hz) as [Hd _]. unfold FsAlloc.used, put_block.
  rewrite fn_lookup_insert_ne; [done|]. intros He.
  apply (bitmap_not_data start cap sb Hgeo b (blk V d k)); [done|apply Hd|done].
Qed.

Lemma put_block_ok V d k f :
  file_ok V d → slot_ok k → k ≠ IND → blk V d k ≠ 0 → file_ok (put_block V d k f) d.
Proof.
  intros Hok Hk HI Hz. assert (Hb : ∀ j, blk (put_block V d k f) d j = blk V d j) by (intros; by apply blk_put_block).
  pose proof Hok as [F1 F2 F3 F4 F5]. split; [done|done| | |].
  - intros j Hj. rewrite Hb. intros Hzj. destruct (F3 j Hj Hzj) as [? Hu]. split; [done|].
    rewrite used_put_block; try done. by apply (data_in_disk start cap sb Hgeo).
  - intros j j' Hj Hj'. rewrite !Hb. by apply F4.
  - intros j Hj Hs. rewrite Hb. by apply F5.
Qed.

Lemma put_block_frame V d k f :
  file_ok V d → slot_ok k → k ≠ IND → blk V d k ≠ 0 → frame V d (put_block V d k f) d.
Proof.
  intros Hok Hk HI Hz b Hb Hu Hn Hj. split; [|split].
  - unfold put_block. rewrite fn_lookup_insert_ne; [done|]. intros He. by apply (Hj k).
  - by rewrite used_put_block.
  - intros j Hs. rewrite blk_put_block by done. by apply Hj.
Qed.

Lemma put_block_meta V d k f :
  file_ok V d → slot_ok k → blk V d k ≠ 0 → meta_used V → meta_used (put_block V d k f).
Proof.
  intros Hok Hk Hz Hm b Hb. rewrite used_put_block; try done; [by apply Hm|].
  destruct Hgeo as [_ _ [? ?]]. lia.
Qed.

(** Byte [i] after a write of [l] at offset [o] of block [k]. *)
Lemma fbyte_put_block V d k (o : nat) l i :
  file_ok V d → slot_ok k → k ≠ IND → blk V d k ≠ 0 → length (V (blk V d k)) = 1024%nat →
  (o + length l ≤ 1024)%nat → 0 ≤ i → i / BSIZE < IND → blk V d (i / BSIZE) ≠ 0 →
  fbyte (put_block V d k (λ x, splice x o l)) d i =
    if decide (i / BSIZE = k ∧ Z.of_nat o ≤ i mod BSIZE < Z.of_nat (o + length l))
    then nth (Z.to_nat (i mod BSIZE) - o) l 0 else fbyte V d i.
Proof.
  intros Hok Hk HI Hz Hlen Ho Hi HiI Hib. unfold fbyte. rewrite blk_put_block by done. unfold put_block.
  assert (Hsl : slot_ok (i / BSIZE)) by (unfold slot_ok; rewrite BSIZE_eq in *; zdm).
  destruct (decide (i / BSIZE = k)) as [He|Hne].
  - rewrite He, fn_lookup_insert, !nth_lookup. case_decide as Hr.
    + rewrite lookup_splice_new; [done|lia|rewrite BSIZE_eq in *; zdm].
    + rewrite lookup_splice_old; [done|lia|]. rewrite BSIZE_eq in *. zdm.
  - rewrite (decide_False (P := _ ∧ _)) by tauto. rewrite fn_lookup_insert_ne; [done|].
    intros He. apply Hne. symmetry. by eapply (fo_inj _ _ _ Hok).
Qed.

(** The file [d0] with [l] written at [off]. *)
Record written V0 d0 (off : Z) (l : list Z) V d : Prop := {
  wn_ok : file_ok V d;
  wn_meta : meta_used V;
  wn_frame : frame V0 d0 V d;
  wn_same : d_type d = d_type d0 ∧ d_major d = d_major d0 ∧ d_minor d = d_minor d0 ∧
            d_nlink d = d_nlink d0 ∧ d_size d = d_size d0;
  wn_new : ∀ i, off ≤ i < off + Z.of_nat (length l) → fbyte V d i = nth (Z.to_nat (i - off)) l 0;
  wn_old : ∀ i, 0 ≤ i < d_size d0 → ¬ (off ≤ i < off + Z.of_nat (length l)) → fbyte V d i = fbyte V0 d0 i;
  wn_cover : ∀ k, 0 ≤ k → k * BSIZE < off + Z.of_nat (length l) → blk V d k ≠ 0;
}.

Lemma written_nil V d off : file_ok V d → meta_used V → 0 ≤ off ≤ d_size d → written V d off [] V d.
Proof.
  intros Hok Hm Ho. split; [done|done|apply frame_refl|done|simpl; intros; lia|done|simpl].
  intros k Hk Hb. apply (fo_full _ _ _ Hok); lia.
Qed.

Lemma written_grow V0 d0 off l V d V1 d1 :
  written V0 d0 off l V d → grow V d V1 d1 → 0 ≤ off → off + Z.of_nat (length l) ≤ 274432 →
  written V0 d0 off l V1 d1.
Proof.
  intros [W1 W2 W3 W4 W5 W6 W7] Hg Ho Hl. pose proof BSIZE_eq as HB.
  pose proof (fo_size _ _ _ W1) as [_ Hsz]. change (MAXFILE * BSIZE) with 274432 in Hsz.
  assert (Hold : ∀ i, 0 ≤ i < 274432 → blk V d (i / BSIZE) ≠ 0 → fbyte V1 d1 i = fbyte V d i).
  { intros i Hi Hz. destruct (grow_data start cap sb Hgeo V d V1 d1 (i / BSIZE) Hg W1) as [E1 E2];
      [unfold slot_ok, IND; rewrite HB in *; zdm|unfold IND; rewrite HB in *; zdm|done|]. unfold fbyte. by rewrite E1, E2. }
  split.
  - by eapply (grow_ok start cap sb Hgeo).
  - by eapply (grow_meta start cap sb Hgeo).
  - eapply frame_trans; [exact W3|by eapply (grow_frame sb)].
  - pose proof (grow_same sb V d V1 d1 Hg) as (?&?&?&?&?). destruct W4 as (?&?&?&?&?). split_and!; congruence.
  - intros i Hr. rewrite <- W5 by done. apply Hold; [lia|]. apply W7; rewrite HB in *; zdm.
  - intros i Hr Hn. destruct W4 as (_&_&_&_&W4). rewrite <- W6 by done. apply Hold; [lia|].
    apply (fo_full _ _ _ W1); [rewrite HB in *; zdm|]. rewrite W4, HB. zdm.
  - intros k Hkp Hkb. rewrite (grow_blk sb V d V1 d1 k Hg); [by apply W7|unfold slot_ok, IND; rewrite HB in *; zdm|by apply W7].
Qed.

(** One more piece, after the block it goes to was made sure of. *)
Lemma written_step V0 d0 off l V d V1 d1 p :
  let o := off + Z.of_nat (length l) in
  written V0 d0 off l V d → grow V d V1 d1 → (∀ b, length (V1 b) = 1024%nat) →
  0 ≤ off ≤ d_size d0 → o / BSIZE < IND → blk V1 d1 (o / BSIZE) ≠ 0 →
  o mod BSIZE + Z.of_nat (length p) ≤ BSIZE →
  written V0 d0 off (l ++ p) (put_block V1 d1 (o / BSIZE) (λ x, splice x (Z.to_nat (o mod BSIZE)) p)) d1.
Proof.
  intros o [W1 W2 W3 W4 W5 W6 W7] Hg Hl1 Ho HoI Hb Hp.
  pose proof (grow_ok start cap sb Hgeo V d V1 d1 Hg W1) as Hok1.
  pose proof (grow_same sb V d V1 d1 Hg) as Hs. pose proof (fo_size _ _ _ W1) as [_ Hmax].
  assert (Hmx : MAXFILE * BSIZE = 274432) by done. pose proof BSIZE_eq as HB.
  assert (Hsl : slot_ok (o / BSIZE)) by (unfold slot_ok; rewrite HB in *; zdm).
  assert (HnI : o / BSIZE ≠ IND) by lia.
  assert (Hold : ∀ i, 0 ≤ i → i / BSIZE < IND → blk V d (i / BSIZE) ≠ 0 →
    fbyte V1 d1 i = fbyte V d i ∧ blk V1 d1 (i / BSIZE) ≠ 0).
  { intros i Hi HiI Hz. destruct (grow_data start cap sb Hgeo V d V1 d1 (i / BSIZE) Hg W1) as [E1 E2];
      [unfold slot_ok; rewrite HB in *; zdm|lia|done|]. split; [|congruence]. unfold fbyte. by rewrite E1, E2. }
  assert (Hbyte : ∀ i, 0 ≤ i → i / BSIZE < IND → blk V1 d1 (i / BSIZE) ≠ 0 →
    fbyte (put_block V1 d1 (o / BSIZE) (λ x, splice x (Z.to_nat (o mod BSIZE)) p)) d1 i =
      if decide (o ≤ i < o + Z.of_nat (length p)) then nth (Z.to_nat (i - o)) p 0 else fbyte V1 d1 i).
  { intros i Hi HiI Hz. rewrite fbyte_put_block; try done; [|rewrite HB in *; zdm].
    rewrite HB in *. repeat case_decide; try done; try (exfalso; zdm). f_equal. zdm. }
  split.
  - by apply put_block_ok.
  - apply put_block_meta; try done. by eapply (grow_meta start cap sb Hgeo).
  - eapply frame_trans; [exact W3|]. eapply frame_trans; [by eapply (grow_frame sb)|]. by apply put_block_frame.
  - destruct Hs as (?&?&?&?&?), W4 as (?&?&?&?&?). split_and!; congruence.
  - intros i. rewrite length_app. intros Hi.
    assert (Hi0 : 0 ≤ i / BSIZE ≤ o / BSIZE) by (rewrite HB in *; unfold o in *; zdm).
    destruct (decide (o ≤ i)) as [Hge|Hlt].
    + assert (He : i / BSIZE = o / BSIZE) by (rewrite HB in *; unfold o in *; zdm).
      rewrite Hbyte; [|lia|lia|by rewrite He]. rewrite decide_True by (unfold o in *; lia).
      rewrite app_nth2 by (unfold o in *; lia). f_equal. unfold o in *. lia.
    + assert (Hz : blk V d (i / BSIZE) ≠ 0) by (apply W7; [lia|fold o; rewrite HB in *; zdm]).
      destruct (Hold i ltac:(lia) ltac:(lia) Hz) as [E1 Hz1].
      rewrite Hbyte; [|lia|lia|done]. rewrite decide_False by lia. rewrite E1, W5 by (unfold o in *; lia).
      rewrite app_nth1; [done|]. unfold o in *. lia.
  - intros i Hi. rewrite length_app. intros Hn.
    assert (Hz : blk V d (i / BSIZE) ≠ 0).
    { apply (fo_full _ _ _ W1); [rewrite HB; zdm|]. destruct W4 as (_&_&_&_& ->). rewrite HB. zdm. }
    assert (HiI : i / BSIZE < IND).
    { destruct W4 as (_&_&_&_& He). rewrite He in Hmax. unfold IND. rewrite HB in *. zdm. }
    destruct (Hold i ltac:(lia) HiI Hz) as [E1 Hz1].
    rewrite Hbyte; [|lia|done|done]. rewrite decide_False by (unfold o in *; lia). rewrite E1. apply W6; [done|]. lia.
  - intros k Hk. rewrite length_app. intros Hkb. rewrite blk_put_block by done.
    destruct (decide (k = o / BSIZE)) as [->|]; [done|].
    assert (Hz : blk V d k ≠ 0) by (apply W7; [done|]; fold o; rewrite HB in *; unfold o in *; zdm).
    rewrite (grow_blk sb V d V1 d1 k Hg); [done| |done]. unfold slot_ok. rewrite HB in *. unfold o in *. zdm.
Qed.

(** The blocks logged for a write to the slots from [k0] to [k1]. *)
Definition logged V d (k0 k1 : Z) bs0 bs : Prop :=
  ∀ b, b ∈ bs → b ∈ bs0 ∨ bitmap_block b ∨ (b = blk V d IND ∧ b ≠ 0) ∨
    ∃ k, k0 ≤ k < k1 ∧ b = blk V d k ∧ b ≠ 0.

Lemma logged_length V d k0 k1 bs0 bs :
  logged V d k0 k1 bs0 bs → NoDup bs → k0 ≤ k1 →
  Z.of_nat (length bs) ≤ Z.of_nat (length bs0) + (sb_size sb / BPB + 1) + 1 + (k1 - k0).
Proof.
  intros Hl Hnd Hk. set (L := bs0 ++ seqZ (sb_bmapstart sb) (sb_size sb / BPB + 1) ++ [blk V d IND] ++
    (blk V d <$> seqZ k0 (k1 - k0))).
  assert (Hs : bs ⊆+ L).
  { apply NoDup_submseteq; [done|]. intros b Hb. unfold L. rewrite !elem_of_app, list_elem_of_singleton, list_elem_of_fmap.
    destruct (Hl b Hb) as [?|[Hbm|[[-> _]|(k & Hkr & -> & _)]]]; [auto| |auto|].
    - right. left. apply elem_of_seqZ. unfold FsAlloc.bitmap_block, datastart in Hbm. lia.
    - right. right. right. exists k. split; [done|]. apply elem_of_seqZ. lia. }
  apply submseteq_length in Hs. unfold L in Hs. rewrite !length_app, length_fmap, !length_seqZ in Hs. simpl in Hs.
  destruct Hgeo as [_ _ [Hg1 Hg2]]. assert (0 ≤ sb_size sb / BPB).
  { apply Z.div_pos; [|done]. destruct Hgeo as [[? [? ?]] [? ?] _]. unfold datastart in Hg1. rewrite BPB_eq, IPB_eq in *. zdm. }
  lia.
Qed.

Lemma logged_grow V d V' d' k0 k1 bs0 bs bs' bn r :
  logged V d k0 k1 bs0 bs → bmap_post V d bs bn r V' d' bs' → k0 ≤ bn < k1 → 0 ≤ k0 → k1 ≤ IND →
  logged V' d' k0 k1 bs0 bs'.
Proof.
  intros Hl [P1 _ _ _ _ P5] Hbn Hk0 Hk1 b Hb.
  destruct (P5 b Hb) as [Hin|[?|[?|[-> ?]]]]; [|auto|auto|].
  - destruct (Hl b Hin) as [?|[?|[[-> ?]|(k & Hk & -> & ?)]]]; [auto|auto| |].
    + right. right. left. rewrite (grow_blk sb V d V' d'); try done.
    + right. right. right. exists k. split; [done|]. rewrite (grow_blk sb V d V' d'); try done. unfold slot_ok. lia.
  - right. right. right. exists bn. auto.
Qed.

Lemma logged_put V d k f k0 k1 bs0 bs :
  logged V d k0 k1 bs0 bs → file_ok V d → slot_ok k → k ≠ IND → blk V d k ≠ 0 → k0 ≤ k < k1 →
  logged (put_block V d k f) d k0 k1 bs0 (add_block bs (blk V d k)).
Proof.
  intros Hl Hok Hk HI Hz Hkk b. rewrite elem_add_block. setoid_rewrite blk_put_block; try done.
  intros [Hin| ->]; [by apply Hl|]. right. right. right. by exists k.
Qed.

Section write.
Context (fetch : Z → Z → bool * list Z) (src : Z) (data : list Z).
Hypothesis Hfetch : ∀ i m, 0 ≤ i → 0 < m → i + m ≤ Z.of_nat (length data) →
  fetch (u64 (src + i)) m = (true, slice data (Z.to_nat i) (Z.to_nat m)).
Context (s0 : fstate D) (V0 : Z → list Z) (bs0 : list Z) (ip : nat) (off : Z).
Let n := Z.of_nat (length data).
Let n0 := itab s0 ip.
Let d0 := i_d n0.
Let k0 := off / BSIZE.
Let k1 := (off + n + 1023) / BSIZE.
Hypothesis Hoff : 0 ≤ off ≤ d_size d0.
Hypothesis Hmax : off + n ≤ MAXFILE * BSIZE.
Hypothesis Hino : i_dev n0 = dev.
Hypothesis Hout : 0 < out.
Hypothesis Hroom : Z.of_nat (length bs0) + (sb_size sb / BPB + 1) + 1 + (k1 - k0) + 6 < 30.
Hypothesis Hcap : Z.of_nat (length bs0) + (sb_size sb / BPB + 1) + 1 + (k1 - k0) + 4 < cap.

Lemma slice_take (t m : nat) : take (t + m) data = take t data ++ slice data t m.
Proof. unfold slice. by rewrite take_take_drop. Qed.

Lemma writei_loop_spec fuel s dk V d bs t (Q : Z * Z → fstate D → Prop) :
  ftx s dk V bs [] None → itab_is s ip (set_d d n0) s0 → 0 ≤ t ≤ n → n - t ≤ Z.of_nat fuel →
  written V0 d0 off (take (Z.to_nat t) data) V d → logged V d k0 k1 bs0 bs →
  t = 0 ∨ t = n ∨ (off + t) mod BSIZE = 0 →
  (∀ s' V' d' bs' t, ftx s' dk V' bs' [] None → itab_is s' ip (set_d d' n0) s0 → 0 ≤ t ≤ n →
     written V0 d0 off (take (Z.to_nat t) data) V' d' → logged V' d' k0 k1 bs0 bs' →
     t = n ∨ full V' ∧ (t = 0 ∨ (off + t) mod BSIZE = 0) → Q (t, off + t) s') →
  wp (writei_loop mypid fetch fuel ip (u64 (src + t)) (off + t) n t) Q s.
Proof.
  pose proof BSIZE_eq as HB. assert (Hmx : MAXFILE * BSIZE = 274432) by done.
  revert s V d bs t. induction fuel as [|fuel IH]; intros s V d bs t Ht Hi Htn Hf Hw Hlg Hal HQ; cbn [writei_loop];
    destruct (Z.ltb_spec t n) as [Hlt|Hge]; try lia.
  1,3: apply wp_ret; apply (HQ s V d bs t); try done; left; lia.
  assert (Hlt' : length (take (Z.to_nat t) data) = Z.to_nat t) by (rewrite length_take; unfold n in *; lia).
  assert (Hk : k0 ≤ (off + t) / BSIZE < k1) by (unfold k0, k1; rewrite HB in *; zdm).
  assert (Hk01 : 0 ≤ k0 ∧ k1 ≤ IND) by (unfold k0, k1, IND; rewrite HB in *; zdm).
  pose proof (hd_nodup _ _ _ _ _ (fx_header _ _ _ _ _ _ _ _ _ _ _ _ Ht)) as Hnd.
  pose proof (logged_length V d k0 k1 bs0 bs Hlg Hnd ltac:(lia)) as Hlen.
  assert (Hip : itab s ip = set_d d n0) by (rewrite Hi; by rewrite decide_True).
  apply wp_step. eapply (bmap_spec start cap sb Hgeo dev Hdev mypid out s dk V bs ip ((off + t) / BSIZE)); rewrite ?Hip.
  { done. } { done. } { apply Hw. } { apply Hw. } { lia. } { by left. } { lia. } { lia. }
  intros r s1 V1 d1 bs1 H1 Hp E1. cbn [set_d i_d] in Hp. pose proof Hp as [P1 P2 P3 _ _ _].
  assert (Hi1 : itab_is s1 ip (set_d d1 n0) s0).
  { intros j. rewrite E1, Hi. case_decide; done. }
  pose proof (logged_grow V d V1 d1 k0 k1 bs0 bs bs1 _ r Hlg Hp Hk ltac:(lia) ltac:(lia)) as Hlg1.
  pose proof (grow_ok start cap sb Hgeo V d V1 d1 P1 (wn_ok _ _ _ _ _ _ Hw)) as Hok1.
  destruct (Z.eqb_spec r 0) as [Hr0|Hr0].
  { apply wp_ret. apply (HQ s1 V1 d1 bs1 t); try done; [|right; split; [by apply P3|destruct Hal as [?|[?|?]]; [by left|lia|by right]]].
    eapply written_grow; [exact Hw|done|lia|rewrite Hlt'; lia]. }
  assert (Hsl : slot_ok ((off + t) / BSIZE)) by (unfold slot_ok, IND in *; lia).
  destruct (fo_blk _ _ _ Hok1 ((off + t) / BSIZE) Hsl) as [Hdb _]; [congruence|]. rewrite <- P2 in Hdb.
  pose proof (data_pos start cap sb Hgeo _ Hdb) as Hdp.
  pose proof (hd_nodup _ _ _ _ _ (fx_header _ _ _ _ _ _ _ _ _ _ _ _ H1)) as Hnd1.
  pose proof (logged_length V1 d1 k0 k1 bs0 bs1 Hlg1 Hnd1 ltac:(lia)) as Hlen1.
  assert (Hip1 : itab s1 ip = set_d d1 n0) by (rewrite Hi1; by rewrite decide_True).
  apply wp_step, wp_get_ino. rewrite Hip1. change (i_dev (set_d d1 n0)) with (i_dev n0). rewrite Hino.
  apply wp_step. eapply (fx_bread dev Hdev mypid start cap place sb out); [exact H1|lia|apply not_elem_of_nil|simpl; lia|].
  intros i s2 H2 E2.
  set (m := Z.min (n - t) (BSIZE - (off + t) mod BSIZE)).
  assert (Hm : 0 < m ≤ n - t) by (unfold m; rewrite HB; zdm).
  assert (Hm' : (off + t) mod BSIZE + m ≤ BSIZE) by (unfold m; lia).
  rewrite Hfetch by (unfold n in *; lia). set (p := slice data (Z.to_nat t) (Z.to_nat m)).
  assert (Hlp : Z.of_nat (length p) = m) by (unfold p; rewrite length_slice; unfold n in *; lia).
  apply wp_step. eapply fx_set; [exact H2| |].
  { rewrite length_splice; [apply H2|]. rewrite (fx_len _ _ _ _ _ _ _ _ _ _ _ _ H2). rewrite HB in *. zdm. }
  intros s3 H3 E3. apply wp_step.
  eapply (fx_log dev Hdev mypid start cap place sb out); [done|exact H3|by right|lia|by apply (data_not_log start cap sb Hgeo), Hdb|lia|].
  intros s4 H4 E4. apply wp_step. eapply (fx_brelse dev Hdev mypid start cap place sb out); [exact H4|]. intros s5 H5 E5.
  assert (Hu : u64 (u64 (src + t) + m) = u64 (src + (t + m))).
  { unfold u64. rewrite Z.add_mod_idemp_l by done. f_equal. lia. }
  rewrite Hu, !u32_id by lia. replace (off + t + m) with (off + (t + m)) by lia.
  eapply (IH s5 (put_block V1 d1 ((off + t) / BSIZE) (λ x, splice x (Z.to_nat ((off + t) mod BSIZE)) p)) d1); try done; try lia.
  - unfold put_block. rewrite <- P2. exact H5.
  - intros j. rewrite E5, E4, E3, E2. apply Hi1.
  - replace (Z.to_nat (t + m)) with (Z.to_nat t + Z.to_nat m)%nat by lia. rewrite slice_take. fold p.
    pose proof (written_step V0 d0 off (take (Z.to_nat t) data) V d V1 d1 p) as Hst. cbv zeta in Hst.
    rewrite Hlt', Z2Nat.id in Hst by lia. apply Hst; try done.
    + apply H1.
    + rewrite HB in *. unfold IND. zdm.
    + congruence.
    + lia.
  - rewrite P2. apply logged_put; try done; [lia|congruence].
  - right. unfold m. rewrite HB in *. destruct (decide (n - t ≤ 1024 - (off + t) mod 1024)); [left; lia|right; zdm].
Qed.
End write.

(** The outcome of a whole [writei]: the inode too is in the log. *)
Record wrote V0 d0 (inum off : Z) (l : list Z) V d : Prop := {
  wo_ok : file_ok V d;
  wo_meta : meta_used V;
  wo_wf : dinode_wf d;
  wo_same : d_type d = d_type d0 ∧ d_major d = d_major d0 ∧ d_minor d = d_minor d0 ∧ d_nlink d = d_nlink d0;
  wo_size : d_size d = Z.max (d_size d0) (off + Z.of_nat (length l));
  wo_new : ∀ i, off ≤ i < off + Z.of_nat (length l) → fbyte V d i = nth (Z.to_nat (i - off)) l 0;
  wo_old : ∀ i, 0 ≤ i < d_size d0 → ¬ (off ≤ i < off + Z.of_nat (length l)) → fbyte V d i = fbyte V0 d0 i;
  wo_dino : ∀ j, inum_ok sb j → dino sb V j = if decide (inum = j) then d else dino sb V0 j;
  wo_frame : ∀ b, 0 ≤ b < sb_size sb → used V0 b = true → ¬ bitmap_block b → b ≠ IBLOCK inum sb → ¬ in_log start cap b →
    (∀ k, slot_ok k → b ≠ blk V0 d0 k) → V b = V0 b ∧ used V b = true ∧ ∀ k, slot_ok k → b ≠ blk V d k;
}.

Lemma addrs_range V d : file_ok V d → Forall (λ a, 0 ≤ a < 2 ^ 32) (d_addrs d).
Proof.
  intros Hok. apply Forall_lookup. intros i a Hi. pose proof (fo_addrs _ _ _ Hok) as Hl.
  pose proof (lookup_lt_Some _ _ _ Hi) as Hlt. rewrite Hl in Hlt.
  assert (Hz : a ≠ 0 → data_block a).
  { intros Ha. assert (Hb : blk V d (if decide (i = 12%nat) then IND else Z.of_nat i) = a).
    { apply (nth_lookup_Some _ _ 0) in Hi. unfold blk, IND. case_decide.
      - subst i. done.
      - destruct (Z.ltb_spec (Z.of_nat i) 12); [by rewrite Nat2Z.id|lia]. }
    rewrite <- Hb. apply (fo_blk _ _ _ Hok); [unfold slot_ok, IND; case_decide; lia|congruence]. }
  destruct (decide (a = 0)) as [->|Ha]; [lia|]. pose proof (data_pos start cap sb Hgeo a (Hz Ha)). lia.
Qed.

(** The file's own size does not matter to its blocks. *)
Lemma file_ok_size V d sz :
  file_ok V d → 0 ≤ sz ≤ MAXFILE * BSIZE → (∀ k, 0 ≤ k → k * BSIZE < sz → blk V d k ≠ 0) → file_ok V (set_size sz d).
Proof. intros [F1 F2 F3 F4 F5] Hs Hc. by split. Qed.

Lemma file_ok_put V d inum x : file_ok V d → inum_ok sb inum → file_ok (put_dino sb V inum x) d.
Proof.
  intros Hok Hi. destruct (IBLOCK_range start cap sb Hgeo inum Hi) as (Hr & _ & Hlt).
  assert (Hnd : ∀ b, data_block b → put_dino sb V inum x b = V b).
  { intros b Hb. apply put_dino_other. intros ->. unfold FsFile.data_block, datastart in Hb.
    destruct Hgeo as [_ _ [? ?]]. rewrite BPB_eq in *. pose proof (data_pos start cap sb Hgeo). zdm. }
  assert (Hb : ∀ k, blk (put_dino sb V inum x) d k = blk V d k).
  { intros k. apply blk_ext; [done|]. intros Hz. apply Hnd. by apply (fo_blk _ _ _ Hok). }
  pose proof Hok as [F1 F2 F3 F4 F5]. split; [done|done| | |].
  - intros k Hk. rewrite Hb. intros Hz. destruct (F3 k Hk Hz) as [Hd Hu]. split; [done|].
    rewrite (used_put start cap); try done. by apply (data_in_disk start cap sb Hgeo).
  - intros k k' Hk Hk'. rewrite !Hb. by apply F4.
  - intros k Hk Hs. rewrite Hb. by apply F5.
Qed.

Lemma dino_frame V0 d0 V d j :
  meta_used V0 → file_ok V0 d0 → frame V0 d0 V d → inum_ok sb j → V (IBLOCK j sb) = V0 (IBLOCK j sb).
Proof.
  intros Hm Hok Hf Hj. destruct (IBLOCK_range start cap sb Hgeo j Hj) as (Hr & _ & Hlt).
  assert (Hds : sb_bmapstart sb < datastart sb ≤ sb_size sb).
  { destruct Hgeo as [[? [? ?]] [? ?] [? ?]]. unfold datastart in *. rewrite BPB_eq, IPB_eq in *. zdm. }
  apply Hf; [lia|apply Hm; lia|unfold FsAlloc.bitmap_block; lia|]. intros k Hk He.
  destruct (decide (blk V0 d0 k = 0)) as [Hz|Hz].
  - rewrite Hz in He. destruct (IBLOCK_eq start cap sb Hgeo j Hj) as [_ ?]. destruct Hgeo as [[? [? ?]] _ _]. lia.
  - destruct (fo_blk _ _ _ Hok k Hk Hz) as [[? _] _]. lia.
Qed.

Lemma written_wrote V0 d0 inum off l V d :
  let d' := if d_size d <? off + Z.of_nat (length l) then set_size (off + Z.of_nat (length l)) d else d in
  written V0 d0 off l V d → meta_used V0 → file_ok V0 d0 → dinode_wf d0 → inum_ok sb inum →
  (∀ b, length (V b) = 1024%nat) → 0 ≤ off → off + Z.of_nat (length l) ≤ MAXFILE * BSIZE →
  wrote V0 d0 inum off l (put_dino sb V inum d') d'.
Proof.
  intros d' [W1 W2 W3 W4 W5 W6 W7] Hm0 Hok0 Hwf Hi Hl Ho Hmx. destruct W4 as (T1 & T2 & T3 & T4 & T5).
  assert (Hd' : d_type d' = d_type d ∧ d_major d' = d_major d ∧ d_minor d' = d_minor d ∧ d_nlink d' = d_nlink d ∧
    d_addrs d' = d_addrs d ∧ d_size d' = Z.max (d_size d0) (off + Z.of_nat (length l))).
  { unfold d'. destruct (Z.ltb_spec (d_size d) (off + Z.of_nat (length l))); cbn [set_size d_type d_major d_minor d_nlink d_addrs d_size]; split_and!; try done; lia. }
  destruct Hd' as (D1 & D2 & D3 & D4 & D5 & D6).
  assert (Hok' : file_ok V d').
  { unfold d'. destruct (Z.ltb_spec (d_size d) (off + Z.of_nat (length l))); [|done]. apply file_ok_size; [done|lia|done]. }
  assert (Hwf' : dinode_wf d').
  { destruct Hwf as [? ? ? ? ? [? ?]]. split; rewrite ?D1, ?D2, ?D3, ?D4, ?T1, ?T2, ?T3, ?T4; try done.
    - pose proof (fo_size _ _ _ Hok'). assert (Hmx' : MAXFILE * BSIZE = 274432) by done. lia.
    - split; [apply Hok'|by apply (addrs_range V)]. }
  destruct (IBLOCK_range start cap sb Hgeo inum Hi) as (Hr & _ & Hlt).
  assert (Hdat : ∀ b, data_block b → put_dino sb V inum d' b = V b).
  { intros b [Hb _]. apply put_dino_other. intros ->. unfold datastart in Hb. destruct Hgeo as [[? [? ?]] [? ?] [? ?]].
    unfold datastart in *. rewrite BPB_eq, IPB_eq in *. zdm. }
  assert (Hblk : ∀ k, blk (put_dino sb V inum d') d' k = blk V d k).
  { intros k. rewrite <- (blk_ext V V d d' k D5) by done. apply blk_ext; [done|]. intros Hz. apply Hdat.
    by apply (fo_blk _ _ _ Hok'). }
  assert (Hfb : ∀ i, 0 ≤ i < 274432 → blk V d (i / BSIZE) ≠ 0 → fbyte (put_dino sb V inum d') d' i = fbyte V d i).
  { intros i Hir Hz. unfold fbyte. rewrite Hblk, Hdat; [done|]. apply (fo_blk _ _ _ W1); [|done].
    unfold slot_ok, IND. rewrite BSIZE_eq in *. zdm. }
  pose proof (fo_size _ _ _ Hok0) as [_ Hsz0]. change (MAXFILE * BSIZE) with 274432 in *.
  split; try done.
  - by apply file_ok_put.
  - intros b Hb. rewrite (used_put start cap); try done; [by apply W2|]. destruct Hgeo as [_ _ [? ?]]. lia.
  - rewrite D1, D2, D3, D4. done.
  - intros i Hir. rewrite Hfb; [by apply W5|lia|]. apply W7; rewrite BSIZE_eq; zdm.
  - intros i Hir Hn. rewrite Hfb; [by apply W6|lia|].
    apply (fo_full _ _ _ W1); [rewrite BSIZE_eq; zdm|]. rewrite T5, BSIZE_eq. zdm.
  - intros j Hj. rewrite (dino_put start cap sb Hgeo); try done. case_decide; [done|].
    unfold dino. by rewrite (dino_frame V0 d0 V d j).
  - intros b Hb Hu Hn HnI _ Hk. destruct (W3 b Hb Hu Hn Hk) as (E1 & E2 & E3).
    rewrite put_dino_other by done. split; [done|]. split; [by rewrite (used_put start cap)|].
    intros k Hks. rewrite Hblk. by apply E3.
Qed.

Lemma writei_spec (fetch : Z → Z → bool * list Z) s dk V bs ip src data off (Q : Z → fstate D → Prop) :
  let n0 := itab s ip in let d0 := i_d n0 in let n := Z.of_nat (length data) in
  let slots := (off + n + 1023) / BSIZE - off / BSIZE in
  let most := Z.of_nat (length bs) + (sb_size sb / BPB + 1) + 1 + slots + 1 in
  (∀ i m, 0 ≤ i → 0 < m → i + m ≤ n → fetch (u64 (src + i)) m = (true, slice data (Z.to_nat i) (Z.to_nat m))) →
  0 ≤ src < 2 ^ 64 → 0 < out →
  ftx s dk V bs [] None → i_dev n0 = dev → inum_ok sb (i_inum n0) → meta_used V → file_ok V d0 → dinode_wf d0 →
  0 ≤ off ≤ d_size d0 → off + n ≤ MAXFILE * BSIZE → most + 5 < 30 → most + 3 < cap →
  (∀ s' V' d' bs' t, ftx s' dk V' bs' [] None → itab_is s' ip (set_d d' n0) s → 0 ≤ t ≤ n →
     wrote V d0 (i_inum n0) off (take (Z.to_nat t) data) V' d' → t = n ∨ full V' ∧ (t = 0 ∨ (off + t) mod BSIZE = 0) →
     IBLOCK (i_inum n0) sb ∈ bs' → Z.of_nat (length bs') ≤ most → Q t s') →
  wp (writei mypid fetch ip src off n) Q s.
Proof.
  intros n0 d0 n slots most Hfetch Hsrc Hout Ht Hd Hi Hm Hok Hwf Hoff Hmax Hroom Hcap HQ. unfold writei.
  assert (Hmx : MAXFILE * BSIZE = 274432) by done. pose proof (fo_size _ _ _ Hok) as [_ Hsz].
  assert (Hslots : 0 ≤ slots) by (unfold slots; rewrite BSIZE_eq in *; zdm).
  apply wp_step, wp_get_ino. fold n0 d0. rewrite u32_id by lia.
  destruct (Z.ltb_spec (d_size d0) off); [lia|]. destruct (Z.ltb_spec (off + n) off); [lia|]. cbn [orb].
  destruct (Z.ltb_spec (MAXFILE * BSIZE) (off + n)); [lia|].
  apply wp_step. rewrite <- (u64_id src Hsrc) at 1. rewrite <- (Z.add_0_r src) at 1. rewrite <- (Z.add_0_r off) at 1.
  eapply (writei_loop_spec fetch src data Hfetch s V bs ip off Hoff Hmax Hd Hout ltac:(unfold most, slots, n in *; lia)
    ltac:(unfold most, slots, n in *; lia) _ s dk V d0 bs 0); try done; try lia.
  { intros j. unfold d0. rewrite set_d_same. case_decide; [by subst j|done]. }
  { by apply written_nil. }
  { intros b Hb. by left. }
  intros s1 V1 d1 bs1 t Hx1 Hi1 Htn Hw Hlg Hfull.
  assert (Hlt : Z.of_nat (length (take (Z.to_nat t) data)) = t) by (rewrite length_take; unfold n in *; lia).
  assert (Hip1 : itab s1 ip = set_d d1 n0) by (rewrite Hi1; by rewrite decide_True).
  apply wp_step, wp_get_ino. rewrite Hip1. cbn [set_d i_d].
  pose proof (written_wrote V d0 (i_inum n0) off _ V1 d1 Hw Hm Hok Hwf Hi ltac:(apply Hx1) ltac:(lia) ltac:(rewrite Hlt; lia)) as Hwr.
  cbv zeta in Hwr. rewrite Hlt in Hwr. set (d2 := if d_size d1 <? off + t then set_size (off + t) d1 else d1) in *.
  pose proof (hd_nodup _ _ _ _ _ (fx_header _ _ _ _ _ _ _ _ _ _ _ _ Hx1)) as Hnd1.
  pose proof (logged_length V1 d1 _ _ bs bs1 Hlg Hnd1 ltac:(unfold slots, n in *; lia)) as Hlen1. fold n slots in Hlen1.
  assert (Hfin : ∀ s2, ftx s2 dk V1 bs1 [] None → itab_is s2 ip (set_d d2 n0) s →
    wp (iupdate mypid ip ;;; ret (i32 t)) Q s2).
  { intros s2 Hx2 Hi2. assert (Hip2 : itab s2 ip = set_d d2 n0) by (rewrite Hi2; by rewrite decide_True).
    apply wp_step. eapply (iupdate_spec start cap sb Hgeo dev Hdev mypid out); rewrite ?Hip2; try done.
    - apply Hwr.
    - apply not_elem_of_nil.
    - simpl. unfold most in *. lia.
    - unfold most in *. lia.
    - cbn [set_d i_d i_inum]. intros s3 H3 E3. apply wp_ret. rewrite i32_id by lia.
      eapply (HQ s3); [exact H3| |done|done| | |].
      + intros j. rewrite E3. apply Hi2.
      + destruct Hfull as [?|[Hf Ha]]; [by left|right]. split; [|done]. intros b Hb. rewrite (used_put start cap); try done. by apply Hf.
      + apply elem_add_block. by right.
      + pose proof (add_block_length bs1 (IBLOCK (i_inum n0) sb)). unfold most. lia. }
  apply wp_step. unfold d2 in Hfin. destruct (Z.ltb_spec (d_size d1) (off + t)).
  - apply wp_upd_ino. rewrite Hip1. apply Hfin; [by apply ftx_itab|]. intros j. cbn [itab].
    case_decide as Hj; [subst j; by rewrite fn_lookup_insert|]. rewrite fn_lookup_insert_ne by done.
    rewrite Hi1. by rewrite decide_False.
  - apply wp_ret. by apply Hfin.
Qed.

(** A write that would make the file too large is refused before it changes anything. *)
Lemma writei_too_big (fetch : Z → Z → bool * list Z) s ip src off n (Q : Z → fstate D → Prop) :
  0 ≤ off → 0 ≤ n → off + n < 2 ^ 32 → MAXFILE * BSIZE < off + n → Q (-1) s → wp (writei mypid fetch ip src off n) Q s.
Proof.
  intros Ho Hn Hlt Hbig HQ. unfold writei. apply wp_step, wp_get_ino. rewrite u32_id by lia.
  destruct (_ || _); [by apply wp_ret|]. rewrite (proj2 (Z.ltb_lt _ _) Hbig). by apply wp_ret.
Qed.

(** ** Disks that agree outside the log *)

Definition agree V V' : Prop := ∀ b, ¬ in_log start cap b → V' b = V b.

#[export] Instance agree_equivalence : Equivalence agree.
Proof.
  split; [done| |].
  - intros V V' Ha b Hb. symmetry. by apply Ha.
  - intros V1 V2 V3 H1 H2 b Hb. rewrite H2, H1; done.
Qed.

Lemma used_agree V V' b : agree V V' → 0 ≤ b < sb_size sb → used V' b = used V b.
Proof. intros Ha Hb. unfold FsAlloc.used. rewrite Ha; [done|]. by apply (bitmap_not_log start cap sb Hgeo). Qed.

Lemma dino_agree V V' j : agree V V' → inum_ok sb j → dino sb V' j = dino sb V j.
Proof. intros Ha Hj. unfold dino. rewrite Ha; [done|]. by apply (IBLOCK_range start cap sb Hgeo). Qed.

Lemma data_agree V V' b : agree V V' → data_block b → V' b = V b.
Proof. intros Ha [Hb _]. by apply Ha, (data_not_log start cap sb Hgeo). Qed.

Lemma blk_agree V V' d k : agree V V' → file_ok V d → blk V' d k = blk V d k.
Proof. intros Ha Hok. apply blk_ext; [done|]. intros Hz. apply data_agree; [done|]. by apply (fo_blk _ _ _ Hok). Qed.

Lemma meta_agree V V' : agree V V' → meta_used V → meta_used V'.
Proof.
  intros Ha Hm b Hb. rewrite (used_agree V); [by apply Hm|done|]. destruct Hgeo as [_ _ [? ?]]. lia.
Qed.

Lemma file_ok_agree V V' d : agree V V' → file_ok V d → file_ok V' d.
Proof.
  intros Ha Hok. pose proof Hok as [F1 F2 F3 F4 F5]. split; [done|done| | |]; intros k.
  - intros Hk. rewrite (blk_agree V) by done. intros Hz. destruct (F3 k Hk Hz) as [Hd Hu]. split; [done|].
    rewrite (used_agree V); [done|done|]. by apply (data_in_disk start cap sb Hgeo).
  - intros k' Hk Hk'. rewrite (blk_agree V V' d k), (blk_agree V V' d k') by done. by apply F4.
  - intros Hk Hs. rewrite (blk_agree V) by done. by apply F5.
Qed.

Lemma fbyte_agree V V' d i : agree V V' → file_ok V d → 0 ≤ i < d_size d → fbyte V' d i = fbyte V d i.
Proof.
  intros Ha Hok Hi. unfold fbyte. rewrite (blk_agree V) by done. pose proof (fo_size _ _ _ Hok) as [_ Hs].
  change (MAXFILE * BSIZE) with 274432 in Hs. rewrite data_agree with (V := V); [done|done|].
  apply (fo_blk _ _ _ Hok); [unfold slot_ok, IND; rewrite BSIZE_eq; zdm|].
  apply (fo_full _ _ _ Hok); rewrite BSIZE_eq; zdm.
Qed.

Lemma wrote_agree V0 d0 inum off l V d V' :
  agree V V' → 0 ≤ off → inum_ok sb inum → wrote V0 d0 inum off l V d → wrote V0 d0 inum off l V' d.
Proof.
  intros Ha Ho Hi [W1 W2 W3 W4 W5 W6 W7 W8 W9]. split; try done.
  - by apply (file_ok_agree V).
  - by apply (meta_agree V).
  - intros i Hir. rewrite (fbyte_agree V); [by apply W6|done|done|lia].
  - intros i Hir Hn. rewrite (fbyte_agree V); [by apply W7|done|done|lia].
  - intros j Hj. rewrite (dino_agree V) by done. by apply W8.
  - intros b Hb Hu Hn HnI Hnl Hk. destruct (W9 b) as (E1 & E2 & E3); try done.
    rewrite Ha by done. split; [done|]. split; [by rewrite (used_agree V)|].
    intros k Hks. rewrite (blk_agree V) by done. by apply E3.
Qed.

Lemma wrote_refl V d inum off :
  file_ok V d → meta_used V → dinode_wf d → dino sb V inum = d → 0 ≤ off ≤ d_size d → wrote V d inum off [] V d.
Proof.
  intros Hok Hm Hwf Hd Ho. split; try done; simpl; try lia.
  intros j Hj. case_decide; congruence.
Qed.

Lemma wrote_trans V0 d0 V1 d1 V2 d2 inum off l1 l2 :
  wrote V0 d0 inum off l1 V1 d1 → wrote V1 d1 inum (off + Z.of_nat (length l1)) l2 V2 d2 →
  0 ≤ off ≤ d_size d0 → wrote V0 d0 inum off (l1 ++ l2) V2 d2.
Proof.
  intros [A1 A2 A3 A4 A5 A6 A7 A8 A9] [B1 B2 B3 B4 B5 B6 B7 B8 B9] Ho. split; try done; rewrite ?length_app.
  - destruct A4 as (-> & -> & -> & ->) in B4. done.
  - rewrite B5, A5. lia.
  - intros i Hi. destruct (decide (i < off + Z.of_nat (length l1))).
    + rewrite B7, A6 by lia. symmetry. apply app_nth1. lia.
    + rewrite B6 by lia. rewrite app_nth2 by lia. f_equal. lia.
  - intros i Hi Hn. rewrite B7 by lia. apply A7; [done|lia].
  - intros j Hj. rewrite B8 by done. case_decide; [done|]. rewrite A8 by done. by rewrite decide_False.
  - intros b Hb Hu Hn HnI Hnl Hk. destruct (A9 b) as (E1 & E2 & E3); try done.
    destruct (B9 b) as (E4 & E5 & E6); try done. split; [congruence|done].
Qed.
Lemma fbytes_wrote V0 d0 inum off l V d : wrote V0 d0 inum off l V d → fbytes V d off (length l) = l.
Proof.
  intros Hw. apply (nth_ext _ _ 0 0); [apply length_fbytes|]. rewrite length_fbytes. intros i Hi.
  unfold fbytes. rewrite (nth_indep _ 0 (fbyte V d (off + Z.of_nat 0))) by (by rewrite length_fmap, length_seq).
  rewrite (map_nth (λ i, fbyte V d (off + Z.of_nat i))), seq_nth by done. rewrite (wo_new _ _ _ _ _ _ _ Hw) by lia. f_equal. lia.
Qed.
End FsRW.
