(* ===== verification/FsOp.v ===== *)
(** * FsOp: a file system operation from [begin_op] to [end_op]

    Between operations the log is empty and the cache shows the disk ([idle]).
    [op_begin] and [op_end] take such a state into a transaction and back; the
    commit of the transaction is atomic with respect to crashes ([commits]). *)
From stdpp Require Import functions.
From S2P Require Import Prelude Riscv Spinlock Bio BioSpec Log LogSpec LogCrash LogTx UserMem Fs FsTx FsAlloc FsInode FsFile FsRW.

Lemma after_length f ws (k : nat) :
  (∀ b, length (f b) = k) → Forall (λ w : Z * list Z, length w.2 = k) ws → ∀ b, length (after f ws b) = k.
Proof.
  intros Hf Hws. induction ws as [|w ws IH] using rev_ind; intros b; [apply Hf|].
  apply Forall_app in Hws as [Hws Hw]. inversion_clear Hw as [|? ? Hw1 _]. rewrite after_snoc. case_decide; [exact Hw1|by apply IH].
Qed.

Section FsOp.
Context (start cap : Z) (sb : superblock) (Hgeo : geometry start cap sb).
Context (dev : Z) (Hdev : 0 < dev < 2 ^ 31) (mypid : Z).
Implicit Types (s : fstate tdisk) (d : tdisk) (V : Z → list Z) (bs : list Z).
Notation ftx := (ftx dev mypid start cap sb).
Notation in_log := (in_log start cap).
Notation place := (place start cap sb Hgeo).

(** No operation in progress, an empty log, over the disk [d]. *)
Definition idle s d : Prop :=
  ftx 0 s d (disk_read d) [] [] None ∧ hdr_n (disk_read d start) = 0.

(** The disk [d'] is [d] after a transaction that makes it [V]: recovery from a
    crash at any of the transaction's disk writes gives the one or the other. *)
Record commits d V d' : Prop := {
  ct_new : ∀ b, ¬ in_log b → disk_read d' b = V b;
  ct_hist : t_base d' = t_base d ∧ t_hist d `prefix_of` t_hist d';
  ct_crash : ∀ k, (length (t_hist d) ≤ k)%nat →
    ∃ l2, reboot dev mypid start (cap + 1) (cold (crash_at k d')) = Ok tt l2 ∧
      ((∀ b, ¬ in_log b → disk_read (dk (lbc l2)) b = disk_read d b) ∨
       (∀ b, ¬ in_log b → disk_read (dk (lbc l2)) b = V b));
}.

Lemma op_begin s d (Q : unit → fstate tdisk → Prop) :
  idle s d → (∀ s', ftx 1 s' d (disk_read d) [] [] None → itab s' = itab s → Q tt s') →
  wp (flog begin_op) Q s.
Proof.
  intros [[Hc Hh Hnd Hhd Hcl Hlen (Ho & _ & Hcm) Hsz Hsb] Hn0] HQ. apply wp_flog. unfold wp.
  pose proof (hd_n _ _ _ _ _ Hh) as Hn. simpl in Hn.
  rewrite begin_op_spec by (unfold LOGSIZE, MAXOPBLOCKS; lia). rewrite Hcm, Ho, Hn, decide_True by done.
  apply HQ; [|done]. split; try done. destruct Hh. by split.
Qed.

Lemma ftx_ready s d V bs :
  ftx 1 s d V bs [] None → hdr_n (disk_read d start) = 0 → bs ≠ [] → (length bs < 29)%nat →
  ∃ A, (∀ b, view (A b) = V b) ∧ (∀ b, refs (A b) = if decide (b ∈ bs) then 1 else 0) ∧ (∀ b, owner (A b) = None) ∧
    ready dev start cap (mkLst (lbc (fl s)) (set_committing true (set_outstanding 0 (lg (fl s))))) A bs.
Proof.
  intros [(A & Hc & HV & Hr & Ho) Hh Hnd Hhd Hcl Hlen (Hout & _ & Hcm) Hsz Hsb] Hn0 Hne Hten.
  exists A. split; [done|]. pose proof place as (Hp1 & Hp2 & Hp3). destruct Hh as [Hl Hn Hbs Hlb Hhm Hnb Hmax].
  assert (Hr' : ∀ b, refs (A b) = if decide (b ∈ bs) then 1 else 0).
  { intros b. rewrite Hr. rewrite (decide_False (P := b ∈ [].*2)) by apply not_elem_of_nil. lia. }
  assert (Ho' : ∀ b, owner (A b) = None) by (intros b; by rewrite Ho, decide_False by apply not_elem_of_nil).
  split; [done|]. split; [done|].
  assert (Hdk : dk (lbc (fl s)) = d) by (destruct Hc as (? & _ & _ & ?); done).
  split; cbn [lbc lg]; rewrite ?Hdk; try done.
  - split; [done| |].
    + intros b _. rewrite Hr'. split; [done|]. case_decide; lia.
    + exists bs. split; [intros b; rewrite Hr'; case_decide; [done|lia]|]. unfold nbuf, NBUF, MAXOPBLOCKS.
      split; [lia|]. right. intros b Hb. rewrite Hr', decide_True by done. lia.
  - intros b Hb. rewrite Hr', decide_True by done. lia.
  - destruct bs; [done|simpl; lia].
  - intros b Hb _. rewrite HV. by apply Hcl.
  - rewrite <- Hcl; [apply Hlen| |done]. intros Hin. destruct (Hhm _ Hin) as [_ Hx]. apply Hx. unfold LogSpec.in_log. lia.
Qed.

Lemma commit_writes_length A bs :
  (∀ b, length (view (A b)) = 1024%nat) → (length bs ≤ 30)%nat → Forall (λ b, 0 ≤ b < 2 ^ 31) bs →
  Forall (λ w : Z * list Z, length w.2 = 1024%nat) (commit_writes start A bs).
Proof.
  intros HV Hl Hb. destruct (hdr_roundtrip bs (view (A start))) as (H1 & _ & _); try done.
  destruct (hdr_nil (hdr bs (view (A start))) H1) as [_ H2]. unfold commit_writes.
  rewrite !Forall_app, !Forall_singleton. split_and!; try done.
  - generalize 0. clear -HV. induction bs as [|b bs IH]; intros i; simpl; constructor; [apply HV|apply IH].
  - unfold home. apply Forall_fmap, Forall_true. intros b. apply HV.
Qed.

Lemma op_end s d V bs (Q : unit → fstate tdisk → Prop) :
  ftx 1 s d V bs [] None → (∀ b, length (disk_read d b) = 1024%nat) → hdr_n (disk_read d start) = 0 →
  bs ≠ [] → (length bs < 29)%nat →
  (∀ s' d', idle s' d' → itab s' = itab s → commits d V d' → Q tt s') →
  wp (flog (end_op mypid)) Q s.
Proof.
  intros Ht Hdl Hn0 Hne Hten HQ. apply wp_flog.
  destruct (ftx_ready s d V bs Ht Hn0 Hne Hten) as (A & HV & Hr & Ho & Hrdy). pose proof place as Hplace.
  destruct Ht as [(A0 & Hc0 & _) Hh Hnd Hhd Hcl Hlen (Hout & _ & Hcm) Hsz Hsb].
  assert (Hdk : dk (lbc (fl s)) = d) by (destruct Hc0 as (? & _ & _ & ?); done). clear A0 Hc0.
  destruct (commit_crash_atomic dev mypid start cap (cap + 1) _ A bs Hdev Hplace ltac:(unfold LOGSIZE, MAXOPBLOCKS in *; lia) Hrdy)
    as (s4 & Hs4 & Hfin & Hcrash).
  pose proof Hrdy as [Rc Rl Rq Rnd Rp Rlen Rcap Rn Rb Rcl Rh0 Rn0].
  destruct (wp_run _ _ _ _ _ (commit_spec dev Hdev mypid start cap Hplace bs _ A _ Rc Rl Rq Rnd Rp Rlen Rcap Rn Rb) Hs4)
    as (Hlg4 & A' & Hc4 & [C1 C2 C3]).
  cbn [lbc lg] in *. rewrite Hdk in *. set (d' := writes d (commit_writes start A bs)) in *.
  assert (Hdk4 : dk (lbc s4) = d') by (destruct Hc4 as (? & _ & _ & ?); done).
  unfold wp. rewrite (end_op_last mypid (fl s) s4 Hcm Hout Hs4). clear Hs4. rewrite Hdk4 in *.
  assert (Hlen' : ∀ b, length (disk_read d' b) = 1024%nat).
  { intros b. unfold d'. rewrite tdisk_read_writes. apply (after_length (disk_read d)).
    - exact Hdl.
    - apply commit_writes_length; [intros b'; rewrite HV; apply Hlen|lia|].
      apply Forall_forall. intros b' Hb'. by apply (hd_home _ _ _ _ _ Hh). }
  assert (Hst : hdr_n (disk_read d' start) = 0).
  { unfold d', commit_writes. rewrite tdisk_read_writes, !app_assoc, after_snoc. simpl. rewrite decide_True by done.
    apply hdr_nil, hdr_roundtrip; [rewrite HV; apply Hlen|lia|]. apply Forall_forall. intros b Hb. by apply (hd_home _ _ _ _ _ Hh). }
  assert (Hr' : ∀ b, refs (A' b) = 0) by (intros b; rewrite C1, Hr; case_decide; lia).
  apply (HQ _ d'); [split; [|done]| |].
  - split; cbn [fl lbc lg fsb]; try done.
    + exists A'. split; [exact Hc4|]. split; [|split]; intros b.
      * by apply (cst_clean dev (lbc s4)).
      * rewrite Hr', !decide_False by apply not_elem_of_nil. done.
      * rewrite decide_False by apply not_elem_of_nil. by apply C2.
    + rewrite Hlg4. destruct Hh as [Hl Hn Hbs Hlb Hhm Hnb Hmax]. split; simpl; try done; try lia. by intros b ?%not_elem_of_nil.
    + by intros i b ?%not_elem_of_nil.
    + by rewrite Hlg4.
    + by rewrite Hlg4.
  - done.
  - split.
    + intros b Hb. rewrite Hfin by done. apply HV.
    + unfold d'. rewrite writes_hist. simpl. split; [done|by apply prefix_app_r].
    + intros k Hk. destruct (Hcrash k Hk) as (s2 & Hs2 & Hrec). exists s2. split; [done|].
      destruct (decide (k ≤ length (t_hist d) + length bs)%nat); [left; done|right].
      intros b Hb. rewrite Hrec by done. apply HV.
Qed.

(** An operation that has logged no block ends without a disk write. *)
Lemma op_end_empty s d (Q : unit → fstate tdisk → Prop) :
  ftx 1 s d (disk_read d) [] [] None → hdr_n (disk_read d start) = 0 →
  (∀ s', idle s' d → itab s' = itab s → Q tt s') → wp (flog (end_op mypid)) Q s.
Proof.
  intros [Hc Hh Hnd Hhd Hcl Hlen (Hout & _ & Hcm) Hsz Hsb] Hn0 HQ. apply wp_flog.
  pose proof (hd_n _ _ _ _ _ Hh) as Hn. simpl in Hn. unfold wp.
  rewrite (end_op_last mypid (fl s) (mkLst (lbc (fl s)) (set_committing true (set_outstanding 0 (lg (fl s))))) Hcm Hout).
  - apply HQ; [|done]. split; [|done]. destruct Hh as [Hl Hn' Hbs Hlb Hhm Hnb Hmax]. by split.
  - unfold commit, bind, gets. cbn [lg set_committing set_outstanding lh_n]. by rewrite Hn.
Qed.

(** After boot no operation is in progress. *)
Lemma boot_idle (d : tdisk) (l0 : lst tdisk) t :
  (∀ b, length (disk_read d b) = 1024%nat) → good_header start cap (disk_read d) →
  reboot dev mypid start (cap + 1) (cold d) = Ok tt l0 →
  idle (mkFs l0 sb t) (dk (lbc l0)) ∧ ∀ b, disk_read (dk (lbc l0)) b = recovered start (disk_read d) b.
Proof.
  intros Hlen Hg Hb. pose proof place as Hp. assert (HL : LOGSIZE = 30) by done.
  destruct (boot_tx dev Hdev mypid start cap Hp (cap + 1) d l0 ltac:(lia) Hg Hb) as (B1 & B2 & B3 & B4 & B5 & A & [T1 T2 T3 T4] & HA).
  destruct (wp_run _ _ _ _ _ (reboot_spec dev Hdev mypid start cap Hp (cap + 1) d ltac:(lia) Hg) Hb) as (_ & A' & d' & Hc & Hd' & _).
  clear Hb. assert (Hdk : dk (lbc l0) = d') by (destruct Hc as (? & _ & _ & ?); done).
  assert (Hrd : ∀ b, disk_read (dk (lbc l0)) b = recovered start (disk_read d) b).
  { intros b. rewrite Hdk, Hd', read_writes. done. }
  split; [|done]. split; [|done]. split; try done.
  - exists A. split; [done|]. split; [done|]. split; intros b; [rewrite T3|rewrite T4, decide_False by apply not_elem_of_nil; done].
    rewrite !decide_False by apply not_elem_of_nil. done.
  - constructor.
  - by intros i b ?%not_elem_of_nil.
  - intros b. rewrite Hrd. unfold recovered, recover_writes. apply after_length; [done|]. apply Forall_app. split.
    + generalize 0. induction (hdr_blocks (disk_read d start)) as [|x bs IH]; intros i; simpl; constructor; [apply Hlen|apply IH].
    + constructor; [|constructor]. apply hdr_nil, Hlen.
Qed.
End FsOp.

(** ** A file system as mkfs lays it out

    2000 blocks, a log of 30 blocks at block 2, 200 inodes at block 32 and the
    bitmap in block 45; inode 1 is an empty directory, inode 2 an empty file. *)
Definition demo_sb : superblock := mkSb FSMAGIC 2000 1954 200 30 2 32 45.
Definition demo_dir : dinode := mkDinode 1 0 0 1 0 (replicate 13 0).
Definition demo_inode : dinode := mkDinode 2 0 0 1 0 (replicate 13 0).
Definition demo_blocks : Z → list Z :=
  put_dino demo_sb (put_dino demo_sb (λ b, if b =? 45 then [255; 255; 255; 255; 255; 63] ++ replicate 1018 0 else zero_block)
    1 demo_dir) 2 demo_inode.
Definition demo_disk : tdisk := mkT demo_blocks [].

Lemma demo_geometry : geometry 2 29 demo_sb.
Proof. split; vm_compute; repeat split; discriminate. Qed.

Lemma demo_length b : length (disk_read demo_disk b) = 1024%nat.
Proof.
  change (length (demo_blocks b) = 1024%nat). unfold demo_blocks, put_dino. change (IBLOCK 1 demo_sb) with 32. change (IBLOCK 2 demo_sb) with 32.
  destruct (decide (32 = b)) as [<-|Hb]; [rewrite fn_lookup_insert; vm_compute; done|rewrite !fn_lookup_insert_ne by done].
  destruct (b =? 45); vm_compute; done.
Qed.

Lemma demo_header : hdr_n (disk_read demo_disk 2) = 0 ∧ good_header 2 29 (disk_read demo_disk).
Proof.
  assert (Hn : hdr_n (disk_read demo_disk 2) = 0) by (vm_compute; done). split; [done|].
  split; unfold hdr_blocks; rewrite ?Hn; [apply demo_length|lia|constructor|constructor].
Qed.

Lemma demo_meta : meta_used demo_sb (disk_read demo_disk).
Proof.
  intros b Hb. change (datastart demo_sb) with 46 in Hb.
  assert (Hall : forallb (λ i, used demo_sb (disk_read demo_disk) (Z.of_nat i)) (seq 0 46) = true) by (vm_compute; done).
  rewrite forallb_forall in Hall. specialize (Hall (Z.to_nat b)). rewrite Z2Nat.id in Hall by lia.
  apply Hall, in_seq. lia.
Qed.

Lemma demo_dinode_wf : dinode_wf demo_inode ∧ dinode_wf demo_dir.
Proof. split; (split; simpl; try lia; split; [done|repeat constructor; lia]). Qed.

Lemma demo_dino : dino demo_sb (disk_read demo_disk) 2 = demo_inode.
Proof. vm_compute. done. Qed.

(** A file with no blocks. *)
Lemma demo_file_ok V d : d_addrs d = replicate 13 0 → d_size d = 0 → file_ok demo_sb V d.
Proof.
  intros Ha Hs. assert (Hz : ∀ k, blk V d k = 0).
  { intros k. unfold blk. rewrite Ha. 
    assert (Hn : ∀ j m, nth j (replicate m 0) 0 = 0) by (intros j m; revert j; induction m; intros [|j]; simpl; auto).
    rewrite !Hn. repeat case_match; done. }
  split; [by rewrite Ha|rewrite Hs; vm_compute; split; discriminate|..]; try (intros; by rewrite ?Hz in *).
  intros k Hk. rewrite Hs, BSIZE_eq. lia.
Qed.

(** The booted system, with the file in the first entry of the table and the
    directory, locked by process 7, in the second. *)
Definition demo_itab (ip : nat) : inode :=
  if decide (ip = 0%nat) then mkInode 1 2 1 (mkSleep 0 0) false (mkDinode 0 0 0 0 0 (replicate 13 0))
  else if decide (ip = 1%nat) then mkInode 1 1 1 (mkSleep 1 7) true demo_dir
  else mkInode 0 0 0 (mkSleep 0 0) false (mkDinode 0 0 0 0 0 (replicate 13 0)).

Lemma demo_fs_boot_ok :
  ∃ l0, reboot 1 7 2 30 (cold demo_disk) = Ok tt l0 ∧ idle 2 29 demo_sb 1 7 (mkFs l0 demo_sb demo_itab) (dk (lbc l0)) ∧
    agree 2 29 (disk_read demo_disk) (disk_read (dk (lbc l0))).
Proof.
  destruct demo_header as [Hn Hg].
  destruct (wp_inv _ _ _ (reboot_spec 1 ltac:(lia) 7 2 29 log_place 30 demo_disk ltac:(lia) Hg)) as ([] & l0 & Hl0 & _).
  exists l0. split; [exact Hl0|].
  destruct (boot_idle 2 29 demo_sb demo_geometry 1 ltac:(lia) 7 demo_disk l0 demo_itab demo_length Hg Hl0) as [Hi Hr].
  split; [exact Hi|]. intros b Hb. rewrite Hr. by apply (recovered_empty 2 29 ltac:(pose proof log_place; lia)).
Qed.
