(* ===== verification/FsDir.v ===== *)
(** * FsDir: the inode table and directories

    [iget] keeps one table entry per inode.  A directory is a file of 16-byte
    entries; [dlookup] is the entry a name denotes, which [dirlookup] finds and
    [dirlink] adds. *)
From stdpp Require Import functions.
From S2P Require Import Prelude Riscv CString Spinlock Bio BioSpec Log LogSpec LogCrash LogTx UserMem Fs FsTx FsAlloc FsInode FsFile FsRW FsOp.

(** ** The inode table *)

(** The entry [i] holds the inode. *)
Definition live (t : nat → inode) (dev inum : Z) (i : nat) : Prop :=
  (i < ninode)%nat ∧ 0 < i_ref (t i) ∧ i_dev (t i) = dev ∧ i_inum (t i) = inum.

Lemma iget_scan_spec k i t dev inum e :
  (∃ j, (i ≤ j < i + k)%nat ∧ 0 < i_ref (t j) ∧ i_dev (t j) = dev ∧ i_inum (t j) = inum ∧
     (iget_scan k i t dev inum e).1 = Some j) ∨
  ((∀ j, (i ≤ j < i + k)%nat → ¬ (0 < i_ref (t j) ∧ i_dev (t j) = dev ∧ i_inum (t j) = inum)) ∧
   (iget_scan k i t dev inum e).1 = None ∧
   ((iget_scan k i t dev inum e).2 = e ∧ (e = None → ∀ j, (i ≤ j < i + k)%nat → i_ref (t j) ≠ 0) ∨
    e = None ∧ ∃ j, (i ≤ j < i + k)%nat ∧ i_ref (t j) = 0 ∧ (iget_scan k i t dev inum e).2 = Some j)).
Proof.
  revert i e. induction k as [|k IH]; intros i e; cbn [iget_scan].
  - right. split; [intros; lia|]. split; [done|]. left. split; [done|]. intros _ j Hj. lia.
  - destruct ((0 <? i_ref (t i)) && (i_dev (t i) =? dev) && (i_inum (t i) =? inum)) eqn:E.
    + apply andb_true_iff in E as [E E3]. apply andb_true_iff in E as [E1 E2]. left. exists i.
      apply Z.ltb_lt in E1. apply Z.eqb_eq in E2, E3. split_and!; try done; lia.
    + assert (Hn : ¬ (0 < i_ref (t i) ∧ i_dev (t i) = dev ∧ i_inum (t i) = inum)).
      { intros (H1 & H2 & H3). apply Z.ltb_lt in H1. apply Z.eqb_eq in H2, H3. by rewrite H1, H2, H3 in E. }
      set (e' := match e with None => if i_ref (t i) =? 0 then Some i else None | e0 => e0 end).
      destruct (IH (S i) e') as [(j & Hj & H1 & H2 & H3 & H4)|(H1 & H2 & H3)].
      * left. exists j. split_and!; try done; lia.
      * right. split; [|split; [done|]].
        { intros j Hj. destruct (decide (j = i)) as [->|]; [done|]. apply H1. lia. }
        unfold e' in *. destruct e as [x|]; [|destruct (Z.eqb_spec (i_ref (t i)) 0) as [Hz|Hz]].
        -- left. destruct H3 as [[H3 _]|[? _]]; [|done]. by split.
        -- right. split; [done|]. exists i. destruct H3 as [[H3 _]|[? _]]; [|done]. split_and!; try done; lia.
        -- destruct H3 as [[H3 H4]|(_ & j & Hj & H4 & H5)].
           ++ left. split; [done|]. intros _ j Hj. destruct (decide (j = i)) as [->|]; [done|]. apply H4; [done|lia].
           ++ right. split; [done|]. exists j. split_and!; try done; lia.
Qed.

(** One entry per inode, with counts that do not overflow. *)
Record itab_ok (t : nat → inode) : Prop := {
  io_one : ∀ dev inum i j, live t dev inum i → live t dev inum j → i = j;
  io_ref : ∀ i, (i < ninode)%nat → 0 ≤ i_ref (t i) < 2 ^ 31 - 1;
}.

Lemma iget_spec {D} `{Disk D} dev inum (Q : nat → fstate D → Prop) s :
  (∃ i, (i < ninode)%nat ∧ (i_ref (itab s i) = 0 ∨ live (itab s) dev inum i)) →
  (∀ i, live (itab s) dev inum i →
     Q i (mkFs (fl s) (fsb s) (<[i := set_ref (i32 (i_ref (itab s i) + 1)) (itab s i)]> (itab s)))) →
  (∀ i, (i < ninode)%nat → i_ref (itab s i) = 0 → (∀ j, ¬ live (itab s) dev inum j) →
     Q i (mkFs (fl s) (fsb s) (<[i := mkInode dev inum 1 (i_lock (itab s i)) false (i_d (itab s i))]> (itab s)))) →
  wp (iget dev inum) Q s.
Proof.
  intros (i0 & Hi0 & Hfree) HQ1 HQ2. unfold iget. apply wp_step. unfold wp at 1, gets.
  destruct (iget_scan_spec ninode 0 (itab s) dev inum None) as [(j & Hj & H1 & H2 & H3 & H4)|(H1 & H2 & H3)];
    destruct (iget_scan ninode 0 (itab s) dev inum None) as [a b]; cbn [fst snd] in *; subst a.
  - apply wp_step, wp_upd_ino, wp_ret, HQ1. split_and!; try done; lia.
  - assert (Hno : ∀ j, ¬ live (itab s) dev inum j).
    { intros j (Hj & Hl). apply (H1 j); [lia|done]. }
    destruct H3 as [[_ H3]|(_ & j & Hj & H4 & ->)].
    + destruct Hfree as [Hf|Hf]; [|by apply Hno in Hf]. by apply (H3 eq_refl i0) in Hf; [|lia].
    + apply wp_step, wp_upd_ino, wp_ret, HQ2; [lia|done|done].
Qed.

(** C27: [iget] keeps one entry per inode.  When the inode is in the table or an
    entry is free, it returns an entry for the inode whose count it has
    increased, the same entry for every caller: no two entries in use are for
    the same inode. *)
Theorem iget_unique {D} `{Disk D} (s : fstate D) (dev inum : Z) (Ht : itab_ok (itab s))
    (Hroom : ∃ i, (i < ninode)%nat ∧ (i_ref (itab s i) = 0 ∨ live (itab s) dev inum i)) :
  ∃ i s', iget dev inum s = Ok i s' ∧ live (itab s') dev inum i ∧ fl s' = fl s ∧
    i_ref (itab s' i) = i_ref (itab s i) + 1 ∧ (∀ j, j ≠ i → itab s' j = itab s j) ∧
    ∀ dev' inum' j k, live (itab s') dev' inum' j → live (itab s') dev' inum' k → j = k.
Proof.
  destruct Ht as [H1 H2].
  assert (Hkeep : ∀ i n, (i < ninode)%nat → i_dev n = dev → i_inum n = inum →
    (∀ j, j ≠ i → ¬ live (itab s) dev inum j) →
    ∀ dev' inum' j k, live (<[i := n]> (itab s)) dev' inum' j → live (<[i := n]> (itab s)) dev' inum' k → j = k).
  { intros i n Hi Hd Hn Hno dev' inum' j k (Hj & J1 & J2 & J3) (Hk & K1 & K2 & K3).
    destruct (decide (i = j)) as [<-|Hij], (decide (i = k)) as [<-|Hik]; [done| | |].
    - rewrite fn_lookup_insert in *. rewrite fn_lookup_insert_ne in * by done. exfalso. apply (Hno k); [done|].
      split_and!; try done; congruence.
    - rewrite fn_lookup_insert in *. rewrite fn_lookup_insert_ne in * by done. exfalso. apply (Hno j); [done|].
      split_and!; try done; congruence.
    - rewrite !fn_lookup_insert_ne in * by done. by apply (H1 dev' inum'). }
  apply wp_inv. apply iget_spec; [done| |].
  - intros i Hl. pose proof Hl as (Hi & L1 & L2 & L3). cbn [itab fl]. rewrite fn_lookup_insert.
    pose proof (H2 i Hi). rewrite i32_id by lia. split; [|split; [done|split; [done|split]]].
    + split; [done|]. rewrite fn_lookup_insert. cbn [set_ref i_ref i_dev i_inum]. split; [lia|done].
    + intros j Hj. by rewrite fn_lookup_insert_ne.
    + apply Hkeep; try done. intros j Hj Hlj. apply Hj. by apply (H1 dev inum).
  - intros i Hi Hf Hno. cbn [itab fl]. rewrite fn_lookup_insert. split; [|split; [done|split; [|split]]].
    + split; [done|]. rewrite fn_lookup_insert. cbn [i_ref i_dev i_inum]. split; [lia|done].
    + cbn [i_ref]. lia.
    + intros j Hj. by rewrite fn_lookup_insert_ne.
    + by apply Hkeep.
Qed.

Lemma demo_itab_ok : itab_ok demo_itab.
Proof.
  split.
  - intros dev inum i j (_ & Hi & _ & Hi2) (_ & Hj & _ & Hj2). unfold demo_itab in *.
    repeat case_decide; simpl in *; lia.
  - intros i _. unfold demo_itab. repeat case_decide; simpl; lia.
Qed.

Lemma iget_unique_witness :
  ∃ i s', iget 1 1 (mkFs (cold demo_disk) demo_sb demo_itab) = Ok i s' ∧ live (itab s') 1 1 i.
Proof.
  destruct (iget_unique (mkFs (cold demo_disk) demo_sb demo_itab) 1 1) as (i & s' & Hs' & Hl & _).
  - exact demo_itab_ok.
  - exists 2%nat. split; [vm_compute; lia|left; reflexivity].
  - exists i, s'. split; [exact Hs'|exact Hl].
Defined.

(** ** Directories *)

Section FsDir.
Context (start cap : Z) (sb : superblock) (Hgeo : geometry start cap sb).
Context {D : Type} `{Disk D} (dev : Z) (Hdev : 0 < dev < 2 ^ 31) (mypid out : Z).
Implicit Types (s : fstate D) (dk : D) (bs : list Z) (V : Z → list Z) (d : dinode).
Notation ftx := (ftx dev mypid start cap sb out).
Notation wrote := (wrote start cap sb).

(** The entry at index [k], and the number of entries. *)
Definition ent V d (k : nat) : list Z := fbytes V d (16 * Z.of_nat k) 16.
Definition nents d : nat := Z.to_nat (d_size d / 16).

(** The entry is in use and has this name. *)
Definition matches (name de : list Z) : bool := negb (de_inum de =? 0) && (namecmp name (de_name de) =? 0).

(** The inode number and the offset of the first of [m] entries from [k] on that
    has the name. *)
Fixpoint dscan (E : nat → list Z) (name : list Z) (m k : nat) : option (Z * Z) :=
  match m with
  | O => None
  | S m => if matches name (E k) then Some (de_inum (E k), 16 * Z.of_nat k) else dscan E name m (S k)
  end.
Definition dlookup V d (name : list Z) : option (Z * Z) := dscan (ent V d) name (nents d) 0.

(** A directory whose size is a whole number of entries. *)
Record dir_ok V d : Prop := {
  do_file : file_ok sb V d;
  do_type : d_type d = T_DIR;
  do_size : d_size d mod 16 = 0;
}.

Lemma length_ent V d k : length (ent V d k) = 16%nat.
Proof. apply length_fbytes. Qed.

(** Reading one entry into a local variable. *)
Lemma read_entry s dk V bs dp de k (Q : Z * list Z → fstate D → Prop) :
  let d := i_d (itab s dp) in
  ftx s dk V bs [] None → i_dev (itab s dp) = dev → meta_used sb V → dir_ok V d →
  (k < nents d)%nat → length de = 16%nat → (length bs + 6 < 30)%nat → Z.of_nat (length bs) + 4 < cap →
  (∀ s', ftx s' dk V bs [] None → same_itab s' s → Q (16, ent V d k) s') →
  wp (readi mypid put_local dp de 0 (16 * Z.of_nat k) DIRENT_SIZE) Q s.
Proof.
  intros d Ht Hd Hm [Hok Hty Hsz] Hk Hde Hl Hc HQ. unfold nents in Hk. change DIRENT_SIZE with 16.
  pose proof (fo_size _ _ _ Hok) as Hs. change (MAXFILE * BSIZE) with 274432 in Hs.
  assert (Hend : 16 * Z.of_nat k + 16 ≤ d_size d) by zdm.
  eapply (readi_spec start cap sb Hgeo dev Hdev mypid out put_local); try done; fold d; try lia.
  intros s' H' E'. rewrite Z.min_l by lia. rewrite puts_local; rewrite ?chunks_join, ?length_fbytes by lia; [|lia|lia|].
  - cbv beta iota. replace (splice de _ _) with (ent V d k); [by apply HQ|].
    unfold splice. rewrite length_fbytes. change (Z.to_nat 0) with 0%nat. rewrite take_0, app_nil_l.
    change (0 + Z.to_nat 16)%nat with 16%nat. rewrite drop_ge by lia. by rewrite app_nil_r.
  - rewrite Hde. done.
Qed.

Lemma itab_same_eq s s' (i : nat) : same_itab s' s → itab s' i = itab s i.
Proof. intros He. apply He. Qed.

Lemma dirlookup_loop_spec fuel s dk V bs dp name de k m (Q : option (nat * Z) → fstate D → Prop) :
  let d := i_d (itab s dp) in
  ftx s dk V bs [] None → i_dev (itab s dp) = dev → meta_used sb V → dir_ok V d → length de = 16%nat →
  (length bs + 6 < 30)%nat → Z.of_nat (length bs) + 4 < cap →
  (k + m = nents d)%nat → (m < fuel)%nat →
  (∀ s', ftx s' dk V bs [] None → same_itab s' s →
     match dscan (ent V d) name m k with
     | None => Q None s'
     | Some (inum, off) => wp (do i <- iget dev inum; ret (Some (i, off))) Q s'
     end) →
  wp (dirlookup_loop mypid fuel dp name de (16 * Z.of_nat k)) Q s.
Proof.
  revert s de k m. induction fuel as [|fuel IH]; intros s de k m d Ht Hd Hm Hdir Hde Hl Hc Hkm Hf HQ; [lia|].
  pose proof Hdir as [Hok Hty Hsz]. pose proof (fo_size _ _ _ Hok) as Hs. change (MAXFILE * BSIZE) with 274432 in Hs.
  cbn [dirlookup_loop]. apply wp_step, wp_get_ino. fold d. unfold nents in Hkm.
  destruct (Z.ltb_spec (16 * Z.of_nat k) (d_size d)) as [Hlt|Hge].
  - destruct m as [|m]; [exfalso; clear -Hkm Hlt Hsz Hs; zdm|].
    apply wp_step. eapply read_entry; try done; fold d; [unfold nents; lia|].
    intros s1 H1 E1. change DIRENT_SIZE with 16. cbn [negb Z.eqb Pos.eqb]. fold (matches name (ent V d k)).
    cbn [dscan] in HQ. destruct (matches name (ent V d k)).
    + rewrite Hd. by apply HQ.
    + rewrite u32_id by lia. replace (16 * Z.of_nat k + 16) with (16 * Z.of_nat (S k)) by lia.
      eapply (IH s1 _ (S k) m); rewrite ?(E1 dp); try done; fold d.
      * unfold nents. lia.
      * lia.
      * intros s' H' E'. apply HQ; [done|]. intros j. by rewrite E', E1.
  - destruct m as [|m]; [|exfalso; clear -Hkm Hge Hsz Hs; zdm]. apply wp_ret. by apply (HQ s).
Qed.

Lemma dirlookup_spec s dk V bs dp name (Q : option (nat * Z) → fstate D → Prop) :
  let d := i_d (itab s dp) in
  ftx s dk V bs [] None → i_dev (itab s dp) = dev → meta_used sb V → dir_ok V d →
  (length bs + 6 < 30)%nat → Z.of_nat (length bs) + 4 < cap →
  (∀ s', ftx s' dk V bs [] None → same_itab s' s →
     match dlookup V d name with
     | None => Q None s'
     | Some (inum, off) => wp (do i <- iget dev inum; ret (Some (i, off))) Q s'
     end) →
  wp (dirlookup mypid dp name) Q s.
Proof.
  intros d Ht Hd Hm Hdir Hl Hc HQ. unfold dirlookup. apply wp_step, wp_get_ino. fold d.
  rewrite (do_type _ _ Hdir), Z.eqb_refl. cbn [negb].
  eapply (dirlookup_loop_spec _ s dk V bs dp name (replicate 16 0) 0 (nents d)); try done.
  unfold nents. change DIRENT_SIZE with 16. lia.
Qed.

(** The first empty entry, or the end. *)
Fixpoint dfree V d (m k : nat) : nat :=
  match m with
  | O => k
  | S m => if de_inum (ent V d k) =? 0 then k else dfree V d m (S k)
  end.

Lemma dfree_spec V d m k :
  (k ≤ dfree V d m k ≤ k + m)%nat ∧ ((dfree V d m k < k + m)%nat → de_inum (ent V d (dfree V d m k)) = 0).
Proof.
  revert k. induction m as [|m IH]; intros k; simpl; [lia|].
  destruct (Z.eqb_spec (de_inum (ent V d k)) 0); [split; [lia|done]|]. destruct (IH (S k)). split; [lia|]. intros Hlt. apply H1. lia.
Qed.

Lemma dirlink_loop_spec fuel s dk V bs dp de k m (Q : Z * list Z → fstate D → Prop) :
  let d := i_d (itab s dp) in
  ftx s dk V bs [] None → i_dev (itab s dp) = dev → meta_used sb V → dir_ok V d → length de = 16%nat →
  (length bs + 6 < 30)%nat → Z.of_nat (length bs) + 4 < cap →
  (k + m = nents d)%nat → (m < fuel)%nat →
  (∀ s' de, ftx s' dk V bs [] None → same_itab s' s → length de = 16%nat →
     Q (16 * Z.of_nat (dfree V d m k), de) s') →
  wp (dirlink_loop mypid fuel dp de (16 * Z.of_nat k)) Q s.
Proof.
  revert s de k m. induction fuel as [|fuel IH]; intros s de k m d Ht Hd Hm Hdir Hde Hl Hc Hkm Hf HQ; [lia|].
  pose proof Hdir as [Hok Hty Hsz]. pose proof (fo_size _ _ _ Hok) as Hs. change (MAXFILE * BSIZE) with 274432 in Hs.
  cbn [dirlink_loop]. apply wp_step, wp_get_ino. fold d. unfold nents in Hkm.
  rewrite u32_id by (clear -Hkm Hs; zdm).
  destruct (Z.ltb_spec (16 * Z.of_nat k) (d_size d)) as [Hlt|Hge].
  - destruct m as [|m]; [exfalso; clear -Hkm Hlt Hsz Hs; zdm|].
    apply wp_step. eapply read_entry; try done; fold d; [unfold nents; lia|].
    intros s1 H1 E1. change DIRENT_SIZE with 16. cbn [negb Z.eqb Pos.eqb].
    cbn [dfree] in HQ. destruct (Z.eqb_spec (de_inum (ent V d k)) 0) as [Hz|Hz].
    + apply wp_ret. by apply HQ.
    + rewrite i32_id by lia. replace (16 * Z.of_nat k + 16) with (16 * Z.of_nat (S k)) by lia.
      eapply (IH s1 _ (S k) m); rewrite ?(E1 dp); try done; fold d.
      * unfold nents. lia.
      * lia.
      * intros s' de' H' E'. apply HQ; [done|]. intros j. by rewrite E', E1.
  - destruct m as [|m]; [|exfalso; clear -Hkm Hge Hsz Hs; zdm]. apply wp_ret. by apply (HQ s).
Qed.

(** The name written by [dirlink] compares like the name given. *)
Lemma strncmp_strncpy_loop n p (s t : arr) i : strncmp_loop n p (strncpy_copy n i s t) i = strncmp_loop n p t i.
Proof.
  revert i s. induction n as [|n IH]; intros i s; [done|]. cbn [strncmp_loop strncpy_copy].
  destruct (Z.eqb_spec (t i) 0) as [Hz|Hz]; cbn [negb].
  - rewrite strncpy_pad_spec, decide_False by lia. rewrite upd_eq, Hz.
    destruct (Z.eqb_spec (p i) 0); simpl; [done|]. by destruct (Z.eqb_spec (p i) 0).
  - rewrite strncpy_copy_out by lia. rewrite upd_eq. destruct (negb (p i =? 0) && (p i =? t i)); [apply IH|done].
Qed.

Lemma strncmp_ext n p q q' i : (∀ j, i ≤ j < i + Z.of_nat n → q j = q' j) → strncmp_loop n p q i = strncmp_loop n p q' i.
Proof.
  revert i. induction n as [|n IH]; intros i Hq; [done|]. cbn [strncmp_loop]. rewrite (Hq i) by lia.
  destruct (_ && _); [|done]. apply IH. intros j Hj. apply Hq. lia.
Qed.

Lemma dirent_bytes_spec old name inum name' :
  length old = 16%nat →
  length (dirent_bytes old name inum) = 16%nat ∧ de_inum (dirent_bytes old name inum) = u16 inum ∧
  namecmp name' (de_name (dirent_bytes old name inum)) = namecmp name' name.
Proof.
  intros Ho. unfold dirent_bytes. split_and!.
  - rewrite length_app, length_le_bytes. unfold to_list. by rewrite length_fmap, length_seq.
  - unfold de_inum, ld16, slice. rewrite drop_0, take_app_le by (by rewrite length_le_bytes).
    rewrite take_ge by (by rewrite length_le_bytes). rewrite le_val_le_bytes. unfold u16. by rewrite Zmod_mod.
  - unfold namecmp, strncmp, de_name. rewrite drop_app_ge by (by rewrite length_le_bytes).
    rewrite length_le_bytes. change (2 - 2)%nat with 0%nat. rewrite drop_0.
    etransitivity; [|apply (strncmp_strncpy_loop _ _ (arr_of (de_name old)))]. apply strncmp_ext. intros j Hj.
    unfold arr_of at 1. change (Z.to_nat DIRSIZ) with 14%nat in *. unfold strncpy. change (Z.to_nat DIRSIZ) with 14%nat.
    unfold to_list. set (f := strncpy_copy _ _ _ _). 
    rewrite (nth_indep _ 0 (f (Z.of_nat 0))) by (rewrite length_fmap, length_seq; lia).
    rewrite (map_nth (λ i, f (Z.of_nat i))), seq_nth by lia. f_equal. lia.
Qed.

Lemma dscan_new E E' name m m' k k0 :
  dscan E name m k = None → (k ≤ k0 < k + m')%nat → (k0 ≤ k + m)%nat → (∀ j, (k ≤ j < k0)%nat → E' j = E j) →
  matches name (E' k0) = true → dscan E' name m' k = Some (de_inum (E' k0), 16 * Z.of_nat k0).
Proof.
  revert m k. induction m' as [|m' IH]; intros m k Hn Hk Hm HE Hk0; [lia|]. cbn [dscan].
  destruct (decide (k = k0)) as [->|Hne]; [by rewrite Hk0|].
  destruct m as [|m]; [lia|]. cbn [dscan] in Hn. rewrite (HE k) by lia. destruct (matches name (E k)); [done|].
  apply (IH m); try done; try lia. intros j Hj. apply HE. lia.
Qed.

Lemma dscan_other E E' name m m' k k0 :
  (∀ j, (k ≤ j < k + m)%nat → j ≠ k0 → E' j = E j) → matches name (E' k0) = false →
  ((k ≤ k0 < k + m)%nat → matches name (E k0) = false) → m' = m ∨ m' = S m ∧ k0 = (k + m)%nat →
  dscan E' name m' k = dscan E name m k.
Proof.
  revert m' k. induction m as [|m IH]; intros m' k HE H1 H2 Hm.
  - destruct Hm as [->|[-> ->]]; [done|]. cbn [dscan]. rewrite Nat.add_0_r in H1. by rewrite H1.
  - destruct m' as [|m']; [lia|]. cbn [dscan]. destruct (decide (k = k0)) as [->|Hne].
    + rewrite H1, H2 by lia. apply IH; try done; [|intros; apply H2; lia|lia]. intros j Hj. apply HE. lia.
    + rewrite (HE k) by lia. destruct (matches name (E k)); [done|].
      apply IH; try done; [|intros; apply H2; lia|lia]. intros j Hj. apply HE. lia.
Qed.

Lemma dscan_ext E E' name m k :
  (∀ j, (k ≤ j < k + m)%nat → E' j = E j) → dscan E' name m k = dscan E name m k.
Proof.
  revert k. induction m as [|m IH]; intros k HE; [done|]. cbn [dscan]. rewrite (HE k) by lia.
  destruct (matches name (E k)); [done|]. apply IH. intros j Hj. apply HE. lia.
Qed.

Lemma ent_wrote V d inum k l V' d' j :
  wrote V d inum (16 * Z.of_nat k) l V' d' → (length l = 0 ∨ length l = 16)%nat → (j < nents d)%nat → 0 ≤ d_size d →
  j ≠ k ∨ l = [] → ent V' d' j = ent V d j.
Proof.
  intros Hw Hl Hj Hs Hn. unfold ent, fbytes. apply list_fmap_ext. intros i x Hx. apply lookup_seq in Hx as [-> Hi].
  apply (wo_old _ _ _ _ _ _ _ _ _ _ Hw); unfold nents in Hj; [zdm|].
  destruct Hn as [Hn| ->]; [|simpl; lia]. lia.
Qed.

(** No entry of the directory is free and it cannot grow. *)
Definition crammed V d : Prop := dfree V d (nents d) 0 = nents d ∧ d_size d = MAXFILE * BSIZE.

(** What [dirlink] does, with result [r]. *)
Record linked_in V d name (inum : Z) (r : Z) V' d' : Prop := {
  li_dir : dir_ok V' d';
  li_meta : meta_used sb V';
  li_new : r = 0 → ∃ off, dlookup V' d' name = Some (u16 inum, off);
  li_old : ∀ name', (r = 0 → namecmp name' name ≠ 0) → dlookup V' d' name' = dlookup V d name';
  li_result : r = 0 ∧ dlookup V d name = None ∨ r = -1 ∧ (dlookup V d name ≠ None ∨ full sb V' ∨ crammed V d);
}.

Lemma wrote_linked V d name inum i k old t V' d' :
  let l := dirent_bytes old name inum in
  dir_ok V d → length old = 16%nat → 0 < u16 inum → dlookup V d name = None →
  k = dfree V d (nents d) 0 → t = 16 ∨ t = 0 ∧ full sb V' →
  wrote V d i (16 * Z.of_nat k) (take (Z.to_nat t) l) V' d' →
  linked_in V d name inum (if t =? 16 then 0 else -1) V' d'.
Proof.
  intros l [Hok Hty Hsz] Hold Hi Hnone Hk Ht Hw. pose proof (fo_size _ _ _ Hok) as [Hs0 _].
  pose proof (dirent_bytes_spec old name inum name Hold) as (L1 & L2 & L3). fold l in L1, L2, L3.
  destruct (dfree_spec V d (nents d) 0) as [F1 F2]. rewrite <- Hk in F1, F2. rewrite Nat.add_0_l in *.
  pose proof Hw as [W1 W2 W3 (W4 & _) W5 _ _ _ _]. unfold nents in *.
  destruct Ht as [->|[-> Hfull]].
  - change (Z.to_nat 16) with 16%nat in *. rewrite take_ge in Hw, W5 by lia. rewrite L1 in W5.
    assert (Hnew : ent V' d' k = l).
    { pose proof (fbytes_wrote _ _ _ _ _ _ _ _ _ _ Hw) as Hf. rewrite L1 in Hf. exact Hf. }
    assert (Hold' : ∀ j, (j < Z.to_nat (d_size d / 16))%nat → j ≠ k → ent V' d' j = ent V d j).
    { intros j Hj Hne. eapply ent_wrote; [exact Hw|right; lia|done|lia|by left]. }
    assert (Hn' : nents d' = Nat.max (Z.to_nat (d_size d / 16)) (S k)).
    { unfold nents. rewrite W5. clear -Hsz Hs0 F1. zdm. }
    rewrite Z.eqb_refl. split; [| done| | |left; done].
    + split; [done|congruence|]. rewrite W5. clear -Hsz Hs0 F1. zdm.
    + intros _. exists (16 * Z.of_nat k). unfold dlookup. rewrite Hn'.
      rewrite (dscan_new (ent V d) (ent V' d') name (Z.to_nat (d_size d / 16)) _ 0 k); rewrite ?Hnew, ?L2; try done; try lia.
      * intros j Hj. apply Hold'; lia.
      * unfold matches. rewrite L2, L3. destruct (Z.eqb_spec (u16 inum) 0); [lia|]. simpl. apply Z.eqb_eq, strncmp_loop_refl.
    + intros name' Hne. unfold dlookup. apply (dscan_other _ _ _ _ _ _ k).
      * intros j Hj Hjk. apply Hold'; [unfold nents in *; lia|done].
      * rewrite Hnew. unfold matches. pose proof (dirent_bytes_spec old name inum name' Hold) as (_ & _ & L4). fold l in L4.
        rewrite L4. apply andb_false_iff. right. apply Z.eqb_neq. by apply Hne.
      * intros [_ Hlt]. unfold matches. rewrite F2 by done. done.
      * rewrite Hn'. unfold nents. lia.
  - change (Z.to_nat 0) with 0%nat in *. rewrite take_0 in Hw, W5. simpl in W5.
    assert (Hsame : d_size d' = d_size d) by (rewrite W5; clear -F1 Hsz Hs0; zdm).
    assert (Hall : ∀ name', dlookup V' d' name' = dlookup V d name').
    { intros name'. unfold dlookup. replace (nents d') with (nents d) by (unfold nents; by rewrite Hsame).
      apply dscan_ext. intros j Hj. eapply ent_wrote; [exact Hw|by left|unfold nents in *; lia|lia|by right]. }
    change (0 =? 16) with false. split; try done; [|right; split; [done|right; by left]].
    split; [done|congruence|by rewrite Hsame].
Qed.

Lemma sb_size_pos : 0 ≤ sb_size sb / BPB.
Proof. rewrite BPB_eq. destruct Hgeo as [[? [? ?]] [? ?] [? ?]]. unfold datastart in *. rewrite IPB_eq, BPB_eq in *. zdm. Qed.

Lemma dirlink_spec s dk V bs dp name inum (Q : Z → fstate D → Prop) :
  let n := itab s dp in let d := i_d n in
  0 < out → ftx s dk V bs [] None → i_dev n = dev → inum_ok sb (i_inum n) → meta_used sb V → dir_ok V d → dinode_wf d →
  0 < u16 inum → dlookup V d name = None →
  Z.of_nat (length bs) + sb_size sb / BPB + 9 < 30 → Z.of_nat (length bs) + sb_size sb / BPB + 7 < cap →
  (∀ r s' V' d' bs', ftx s' dk V' bs' [] None → itab_is s' dp (set_d d' n) s →
     linked_in V d name inum r V' d' → Z.of_nat (length bs') ≤ Z.of_nat (length bs) + sb_size sb / BPB + 4 →
     (∀ j, inum_ok sb j → j ≠ i_inum n → dino sb V' j = dino sb V j) → (dino sb V' (i_inum n) = d' ∨ r = -1 ∧ V' = V ∧ d' = d) →
     Q r s') →
  wp (dirlink mypid dp name inum) Q s.
Proof.
  intros n d Hout Ht Hd Hi Hm Hdir Hwf Hinum Hnone Hroom Hcap HQ. unfold dirlink.
  pose proof sb_size_pos as Hsb.
  pose proof Hdir as [Hok Hty Hsz]. pose proof (fo_size _ _ _ Hok) as Hs. change (MAXFILE * BSIZE) with 274432 in *.
  apply wp_step. eapply dirlookup_spec; try done; fold n d; try lia. rewrite Hnone. intros s1 H1 E1.
  apply wp_step, wp_get_ino. rewrite (E1 dp). fold n d.
  apply wp_step. eapply (dirlink_loop_spec _ s1 dk V bs dp (replicate 16 0) 0 (nents d)); rewrite ?(E1 dp); fold n d; try done; try lia.
  { unfold nents. change DIRENT_SIZE with 16. lia. }
  intros s2 de H2 E2 Hde. set (k := dfree V d (nents d) 0).
  destruct (dfree_spec V d (nents d) 0) as [F1 _]. fold k in F1. rewrite Nat.add_0_l in F1. unfold nents in F1.
  assert (Hk16 : 16 * Z.of_nat k ≤ d_size d) by (clear -F1 Hs; zdm).
  rewrite u32_id by lia. set (l := dirent_bytes de name inum).
  destruct (dirent_bytes_spec de name inum name Hde) as (L1 & _ & _). fold l in L1.
  assert (Hn2 : itab s2 dp = n) by (rewrite (E2 dp), (E1 dp); done).
  assert (Hslots : (16 * Z.of_nat k + 16 + 1023) / BSIZE - 16 * Z.of_nat k / BSIZE = 1) by (rewrite BSIZE_eq; clear; zdm).
  assert (H16 : DIRENT_SIZE = 16) by done.
  destruct (decide (274432 < 16 * Z.of_nat k + 16)) as [Hbig|Hfits].
  { apply wp_step. rewrite H16. apply (writei_too_big mypid); [lia|lia|lia|change (MAXFILE * BSIZE) with 274432; lia|].
    change (negb (-1 =? 16)) with true. apply wp_ret. eapply (HQ _ s2 V d bs); [exact H2| | |lia|done|by right].
    - intros j. rewrite (E2 j), (E1 j). case_decide as Hj; [|done]. subst j. fold n. unfold d. by rewrite set_d_same.
    - split; try done. right. split; [done|]. right. right. change (MAXFILE * BSIZE) with 274432 in Hs.
      split; [|change (MAXFILE * BSIZE) with 274432]; fold k; unfold nents; clear -Hbig F1 Hs Hsz; zdm. }
  apply wp_step. change DIRENT_SIZE with (Z.of_nat 16). rewrite <- L1.
  eapply (writei_spec start cap sb Hgeo dev Hdev mypid out (fetch_local l) s2 dk V bs dp 0 l (16 * Z.of_nat k));
    rewrite ?Hn2, ?L1; fold d; try done; try lia.
  { intros i m Hi0 Hm0 Him. rewrite Z.add_0_l, u64_id by lia. done. }
  { change (MAXFILE * BSIZE) with 274432. lia. }
  intros s3 V3 d3 bs3 t H3 E3 Htr Hw Hfull _ Hlen. change (Z.of_nat 16) with 16 in *. rewrite Hslots in Hlen.
  assert (Ht16 : t = 16 ∨ t = 0 ∧ full sb V3).
  { destruct Hfull as [?|[Hf Ha]]; [by left|]. destruct (decide (t = 16)); [by left|right]. split; [|done].
    rewrite BSIZE_eq in Ha. clear -Ha Htr n0. zdm. }
  pose proof (wrote_linked V d name inum (i_inum n) k de t V3 d3 Hdir Hde Hinum Hnone eq_refl Ht16 Hw) as Hli.
  assert (HQ' : Q (if t =? 16 then 0 else -1) s3).
  { eapply (HQ _ s3 V3 d3 bs3); try done; [|lia| |].
    2:{ intros j Hj Hne. rewrite (wo_dino _ _ _ _ _ _ _ _ _ _ Hw) by done. by rewrite decide_False. }
    2:{ left. rewrite (wo_dino _ _ _ _ _ _ _ _ _ _ Hw) by done. by rewrite decide_True. }
    intros j. rewrite E3, (E2 j), (E1 j). done. }
  destruct (t =? 16); by apply wp_ret.
Qed.

(** A name that is there already: nothing happens. *)
Lemma dirlink_present s dk V bs dp name inum (Q : Z → fstate D → Prop) :
  let d := i_d (itab s dp) in
  ftx s dk V bs [] None → i_dev (itab s dp) = dev → meta_used sb V → dir_ok V d → itab_ok (itab s) → (∃ i, (i < ninode)%nat ∧ i_ref (itab s i) = 0) →
  (length bs + 6 < 30)%nat → Z.of_nat (length bs) + 4 < cap → dlookup V d name ≠ None →
  (∀ s', ftx s' dk V bs [] None → (∀ j, i_d (itab s' j) = i_d (itab s j)) → (∀ j, 0 < i_ref (itab s j) → itab s' j = itab s j) → Q (-1) s') →
  wp (dirlink mypid dp name inum) Q s.
Proof.
  intros d Ht Hd Hm Hdir [_ Href] (i0 & Hi0 & Hf0) Hl Hc Hsome HQ. unfold dirlink. apply wp_step. eapply dirlookup_spec; try done. fold d.
  intros s1 H1 E1. destruct (dlookup V d name) as [[num off]|]; [|done].
  assert (Hput : ∀ i n, (1 < i_ref n ∨ i_ref n = 1 ∧ i_valid n = false) → (set_ref (i32 (i_ref n - 1)) n = itab s i ∨ i_ref (itab s i) = 0 ∧ i_d n = i_d (itab s i)) →
    wp (iput mypid i ;;; ret (-1)) Q (mkFs (fl s1) (fsb s1) (<[i := n]> (itab s1)))).
  { intros i n Hn He. unfold iput. apply wp_step, wp_step, wp_get_ino. cbn [itab]. rewrite fn_lookup_insert.
    assert (Hno : (i_ref n =? 1) && i_valid n && (d_nlink (i_d n) =? 0) = false).
    { destruct Hn as [Hn|[_ ->]]; [rewrite (proj2 (Z.eqb_neq _ 1)) by lia; done|by rewrite andb_false_r]. }
    rewrite Hno. apply wp_step, wp_ret, wp_upd_ino, wp_ret. cbn [itab fl fsb]. rewrite fn_lookup_insert. apply HQ; cbn [itab].
    - by apply ftx_itab.
    - intros j. destruct (decide (i = j)) as [<-|]; [rewrite fn_lookup_insert|rewrite !fn_lookup_insert_ne by done; by rewrite (E1 j)].
      destruct He as [->|[_ He]]; done.
    - intros j Hj. destruct (decide (i = j)) as [<-|]; [rewrite fn_lookup_insert|rewrite !fn_lookup_insert_ne by done; apply E1].
      destruct He as [He|[He _]]; [done|lia]. }
  apply wp_step, iget_spec.
  - exists i0. split; [done|left]. by rewrite (E1 i0).
  - intros i (L1 & L2 & _). apply wp_ret. rewrite (E1 i) in L2 |- *. pose proof (Href i L1) as Hr. rewrite i32_id by lia.
    apply Hput; [left; cbn [set_ref i_ref]; lia|left]. cbn [set_ref i_ref]. rewrite i32_id by lia. rewrite Z.add_simpl_r. by destruct (itab s i).
  - intros i L1 L2 _. apply wp_ret. rewrite (E1 i) in L2 |- *. apply Hput; [by right|right; done].
Qed.
End FsDir.



(** Inside an operation on the file system of FsOp. *)
Lemma demo_tx : ∃ l0 s d, reboot 1 7 2 30 (cold demo_disk) = Ok tt l0 ∧ flog begin_op (mkFs l0 demo_sb demo_itab) = Ok tt s ∧
  ftx 1 7 2 29 demo_sb 1 s d (disk_read d) [] [] None ∧ itab s = demo_itab ∧ agree 2 29 (disk_read demo_disk) (disk_read d).
Proof.
  destruct demo_fs_boot_ok as (l0 & Hl0 & Hid & Ha).
  destruct (wp_inv (flog begin_op) (λ _ s, ftx 1 7 2 29 demo_sb 1 s (dk (lbc l0)) (disk_read (dk (lbc l0))) [] [] None ∧ itab s = demo_itab)
    (mkFs l0 demo_sb demo_itab)) as ([] & s & Hb & Hs & Hi).
  { eapply (op_begin 2 29 demo_sb 1 7); [exact Hid|]. intros s' Hs' E'. split; [exact Hs'|exact E']. }
  exists l0, s, (dk (lbc l0)). split; [exact Hl0|]. split; [exact Hb|]. split; [exact Hs|]. split; [exact Hi|exact Ha].
Qed.

Lemma demo_dir_ok V : dir_ok demo_sb V demo_dir.
Proof. split; [by apply demo_file_ok|done|done]. Qed.

Lemma demo_free : ∃ i, (i < ninode)%nat ∧ i_ref (demo_itab i) = 0.
Proof. exists 2%nat. split; [vm_compute; lia|reflexivity]. Qed.

Lemma demo_link_runs :
  result (reboot 1 7 2 30 (cold demo_disk)) (λ l0, result (flog begin_op (mkFs l0 demo_sb demo_itab)) (λ s, returns (dirlink 7 1 [97; 0] 2 s))) = Some 0.
Proof. vm_compute. reflexivity. Qed.

(** The same with the name a in the directory. *)
Lemma demo_linked : ∃ s d V bs off, ftx 1 7 2 29 demo_sb 1 s d V bs [] None ∧ (length bs ≤ 4)%nat ∧ i_dev (itab s 1%nat) = 1 ∧
  meta_used demo_sb V ∧ dir_ok demo_sb V (i_d (itab s 1%nat)) ∧ itab_ok (itab s) ∧ i_ref (itab s 2%nat) = 0 ∧
  dlookup V (i_d (itab s 1%nat)) [97; 0] = Some (2, off).
Proof.
  destruct demo_tx as (l0 & s & d & Hl0 & Hb & Hs & Hi & Ha).
  destruct (returns_inv _ _ (result_inv _ _ _ _ _ (result_inv _ _ _ _ _ demo_link_runs Hl0) Hb)) as [s' Hs']. clear Hl0 Hb.
  revert Hs'.
  assert (Hw : wp (dirlink 7 1 [97; 0] 2) (λ r s', r = 0 → ∃ V d' bs, ftx 1 7 2 29 demo_sb 1 s' d V bs [] None ∧ (length bs ≤ 4)%nat ∧
    itab_is s' 1 (set_d d' (demo_itab 1)) s ∧ linked_in demo_sb (disk_read d) demo_dir [97; 0] 2 0 V d') s).
  { eapply (dirlink_spec 2 29 demo_sb demo_geometry 1 ltac:(lia) 7 1 s d (disk_read d) []); rewrite ?Hi; try done.
    - apply (meta_agree 2 29 demo_sb demo_geometry (disk_read demo_disk)); [exact Ha|exact demo_meta].
    - apply demo_dir_ok.
    - apply demo_dinode_wf.
    - intros r s1 V d' bs H1 E1 Hli Hl _ _ ->. exists V, d', bs. change (sb_size demo_sb / BPB) with 0 in Hl. simpl in Hl. split_and!; try done. lia. }
  intros Hs'. destruct (wp_run _ _ _ _ _ Hw Hs' eq_refl) as (V & d' & bs & H1 & H2 & H3 & [L1 L2 L3 L4 L5]). clear Hw Hs'. destruct (L3 eq_refl) as [off Hoff].
  exists s', d, V, bs, off. assert (E1 : itab s' 1%nat = set_d d' (demo_itab 1%nat)) by (rewrite H3; reflexivity).
  assert (E2 : ∀ j, j ≠ 1%nat → itab s' j = demo_itab j) by (intros j Hj; rewrite H3, Hi; by rewrite decide_False).
  assert (Hsame : ∀ j, i_ref (itab s' j) = i_ref (demo_itab j) ∧ i_dev (itab s' j) = i_dev (demo_itab j) ∧ i_inum (itab s' j) = i_inum (demo_itab j)).
  { intros j. destruct (decide (j = 1%nat)) as [->|]; [by rewrite E1|by rewrite E2]. }
  rewrite E1. clear H3. split; [exact H1|]. split; [exact H2|]. split; [reflexivity|]. split; [exact L2|]. split; [exact L1|].
  split; [|split; [by destruct (Hsame 2%nat) as (-> & _)|exact Hoff]].
  destruct demo_itab_ok as [K1 K2]. split.
  - intros dv nm i j (A1 & A2 & A3 & A4) (B1 & B2 & B3 & B4). destruct (Hsame i) as (Si1 & Si2 & Si3), (Hsame j) as (Sj1 & Sj2 & Sj3).
    apply (K1 dv nm); (split; [done|]); (split; [congruence || lia|split; congruence]).
  - intros i Hi'. destruct (Hsame i) as (-> & _). by apply K2.
Qed.


