(* ===== verification/Find.v ===== *)
(** * Find: user/find.c and user/ls.c

    The two programs that walk directories, over the file system as the system
    calls show it: what [open] finds under a path, what [fstat] tells of it, and
    the whole directory entries that reading it gives.  The file system does not
    change while they run.  Descriptors are limited; buffers are arrays that
    must not be overrun. *)
From S2P Require Import Prelude Riscv Fs ULib UProg.

(** [struct stat], the fields that are used. *)
Record stat_t : Type := mkStat { st_type : Z; st_ino : Z; st_size : Z }.

(** What a path leads to: the answer of [fstat], and the entries read from it before
    a read is short. *)
Record node : Type := mkNode { n_stat : option stat_t; n_ents : list (Z * list Z) }.

(** What is written, in order. *)
Inductive msg : Type :=
| PathTooLong
| NoPath (path : list Z)
| UnknownPath (path : list Z)
| CannotStat (path : list Z)
| Found (path : list Z)
| Entry (name : list Z) (st : stat_t)
| Usage
| NotFound.

Record sys : Type := mkSys { fds : list (option node); out : list msg; flag : bool }.

Definition say (m : msg) : M sys unit := modify (λ s, mkSys (fds s) (out s ++ [m]) (flag s)).
Definition set_flag : M sys unit := modify (λ s, mkSys (fds s) (out s) true).

Definition SLASH : Z := 47.

(** ** Buffers *)

(** Bytes stored from index [i] on. *)
Definition store (buf : list Z) (i : nat) (new : list Z) : M sys (list Z) :=
  if (i + length new <=? length buf)%nat then ret (splice buf i new) else undef.

Definition strcpy (buf s : list Z) : M sys (list Z) := store buf 0 (s ++ [0]).
Definition strlen (buf : list Z) : nat := length (upto_nul buf).

(** The index after the last slash among the first [k] characters. *)
Fixpoint after_slash (path : list Z) (k : nat) : nat :=
  match k with
  | O => O
  | S k' => if decide (path !! k' = Some SLASH) then k else after_slash path k'
  end.

(** The name after the last slash; a short one goes to a static buffer of DIRSIZ+1
    characters, padded with [pad]. *)
Definition fmtname (pad : Z) (path : list Z) : list Z :=
  let p := drop (after_slash path (length path)) path in
  if DIRSIZ <=? Z.of_nat (length p) then p
  else upto_nul (p ++ replicate (Z.to_nat DIRSIZ - length p) pad ++ [0]).

Section Walk.
Context (look : list Z → option node) (stack : list Z).

(** ** System calls *)

Definition open (path : list Z) : M sys Z := λ s,
  match look path with
  | None => Ok (-1) s
  | Some n =>
      match fd_alloc n (fds s) with
      | Some (fd, T) => Ok (Z.of_nat fd) (mkSys T (out s) (flag s))
      | None => Ok (-1) s
      end
  end.

Definition close (fd : Z) : M sys unit :=
  modify (λ s, if fd <? 0 then s else mkSys (<[Z.to_nat fd := None]> (fds s)) (out s) (flag s)).

Definition opened (fd : Z) (s : sys) : option node := if fd <? 0 then None else mjoin (fds s !! Z.to_nat fd).

Definition fstat (fd : Z) : M sys (Z * option stat_t) := λ s,
  match opened fd s with
  | Some n => match n_stat n with Some st => Ok (0, Some st) s | None => Ok (-1, None) s end
  | None => Ok (-1, None) s
  end.

(** All that the loop [while(read(fd, &de, sizeof(de)) == sizeof(de))] reads. *)
Definition entries (fd : Z) : M sys (list (Z * list Z)) := λ s,
  match opened fd s with Some n => Ok (n_ents n) s | None => Ok [] s end.

(** The library's [stat]. *)
Definition stat_path (path : list Z) : M sys (option stat_t) :=
  do r <- stat (open path) fstat close;
  ret (if r.1 <? 0 then None else mjoin r.2).

(** ** user/find.c *)
Section find.
Context (search_exp : list Z).

(** An entry whose status is known. *)
Definition find_entry (find : list Z → M sys unit) (path : list Z) (st : stat_t) : M sys unit :=
  if st_type st =? T_FILE then
    if bool_decide (fmtname 0 path = search_exp) then set_flag ;;; say (Found path) else ret tt
  else if st_type st =? T_DIR then
    if negb (bool_decide (fmtname 0 path = [46])) && negb (bool_decide (fmtname 0 path = [46; 46])) then
      do fd2 <- open path;
      find path ;;;
      close fd2
    else ret tt
  else ret tt.

(** The loop over the entries; [p] is the index after the slash in [buf]. *)
Fixpoint find_loop (find : list Z → M sys unit) (p : nat) (buf : list Z) (des : list (Z * list Z)) : M sys unit :=
  match des with
  | [] => ret tt
  | (inum, name) :: des =>
      if inum =? 0 then find_loop find p buf des
      else
        do buf <- store buf p name;
        do buf <- store buf (p + Z.to_nat DIRSIZ) [0];
        let path := upto_nul buf in
        do st <- stat_path path;
        match st with
        | None => say (CannotStat path)
        | Some st => find_entry find path st
        end ;;;
        find_loop find p buf des
  end.

Fixpoint find (fuel : nat) (path : list Z) : M sys unit :=
  match fuel with
  | O => nofuel
  | S fuel =>
      if 512 <? Z.of_nat (length path) + 1 + DIRSIZ + 1 then say PathTooLong
      else
        do fd <- open path;
        if fd <? 0 then say (NoPath path)
        else
          do r <- fstat fd;
          if r.1 <? 0 then say (UnknownPath path) ;;; close fd
          else
            do buf <- strcpy stack path;
            let p := strlen buf in
            do buf <- store buf p [SLASH];
            do des <- entries fd;
            find_loop (find fuel) (p + 1) buf des ;;;
            close fd
  end.
End find.

Definition find_main (argv : list (list Z)) : M sys Z :=
  let argc := Z.of_nat (length argv) in
  if (argc <? 3) || (4 <? argc) then say Usage ;;; ret 1
  else
    find (nth 2 argv []) 512 (nth 1 argv []) ;;;
    do fl <- Prelude.gets flag;
    (if negb fl then say NotFound else ret tt) ;;;
    ret 0.

(** ** user/ls.c *)

Fixpoint ls_loop (p : nat) (buf : list Z) (des : list (Z * list Z)) : M sys unit :=
  match des with
  | [] => ret tt
  | (inum, name) :: des =>
      if inum =? 0 then ls_loop p buf des
      else
        do buf <- store buf p name;
        do buf <- store buf (p + Z.to_nat DIRSIZ) [0];
        let path := upto_nul buf in
        do st <- stat_path path;
        match st with
        | None => say (CannotStat path)
        | Some st => say (Entry (fmtname 32 path) st)
        end ;;;
        ls_loop p buf des
  end.

Definition ls (path : list Z) : M sys unit :=
  do fd <- open path;
  if fd <? 0 then say (NoPath path)
  else
    do r <- fstat fd;
    match r with
    | (rc, st) =>
        if rc <? 0 then say (UnknownPath path) ;;; close fd
        else
          match st with
          | None => undef
          | Some st =>
              (if (st_type st =? T_DEVICE) || (st_type st =? T_FILE) then say (Entry (fmtname 32 path) st)
               else if st_type st =? T_DIR then
                 if 512 <? Z.of_nat (length path) + 1 + DIRSIZ + 1 then say PathTooLong
                 else
                   do buf <- strcpy stack path;
                   let p := strlen buf in
                   do buf <- store buf p [SLASH];
                   do des <- entries fd;
                   ls_loop (p + 1) buf des
               else ret tt) ;;;
              close fd
          end
    end.

Fixpoint ls_args (paths : list (list Z)) : M sys unit :=
  match paths with
  | [] => ret tt
  | path :: paths => ls path ;;; ls_args paths
  end.

Definition ls_main (argv : list (list Z)) : M sys Z :=
  if Z.of_nat (length argv) <? 2 then ls [46] ;;; ret 0
  else ls_args (drop 1 argv) ;;; ret 0.
End Walk.

(** ** Names *)

(** The part of a path after its last slash. *)
Definition is_base (q nm : list Z) : Prop := SLASH ∉ nm ∧ (q = nm ∨ ∃ d, q = d ++ SLASH :: nm).

Lemma base_unique q nm nm' : is_base q nm → is_base q nm' → nm = nm'.
Proof.
  assert (Hd : ∀ d nm d' nm', SLASH ∉ nm → SLASH ∉ nm' → d ++ SLASH :: nm = d' ++ SLASH :: nm' → nm = nm').
  { intros d. induction d as [|c d IH]; intros nm1 [|c' d'] nm2 H1 H2; cbn; intros [= He]; [done|..].
    - subst. exfalso. apply H1. rewrite elem_of_app. right. left.
    - subst. exfalso. apply H2. rewrite elem_of_app. right. left.
    - eapply IH; [done|done|]. eassumption. }
  intros [H1 [-> |[d ->]]] [H2 [He|[d' He]]]; [done|..].
  - exfalso. apply H1. rewrite He, elem_of_app. right. left.
  - exfalso. apply H2. rewrite <- He, elem_of_app. right. left.
  - by eapply Hd.
Qed.

Lemma after_slash_spec path k : (k ≤ length path)%nat →
  let j := after_slash path k in
  (j ≤ k)%nat ∧ (∀ i, (j ≤ i < k)%nat → path !! i ≠ Some SLASH) ∧ (j = 0%nat ∨ ∃ j', j = S j' ∧ path !! j' = Some SLASH).
Proof.
  induction k as [|k IH]; intros Hk; cbn.
  - split; [lia|]. split; [lia|by left].
  - case_decide as Hd.
    + split; [lia|]. split; [lia|]. right. by exists k.
    + destruct IH as (H1 & H2 & H3); [lia|]. split; [lia|]. split; [|done]. intros i Hi.
      destruct (decide (i = k)) as [->|]; [done|]. apply H2. lia.
Qed.

Lemma last_part path : is_base path (drop (after_slash path (length path)) path).
Proof.
  destruct (after_slash_spec path (length path)) as (H1 & H2 & H3); [lia|]. set (j := after_slash path (length path)) in *. split.
  - intros [i Hi]%list_elem_of_lookup. rewrite lookup_drop in Hi. apply (H2 (j + i)%nat); [|done]. apply lookup_lt_Some in Hi. lia.
  - destruct H3 as [-> |(j' & -> & H3)]; [by left|right]. exists (take j' path). by rewrite take_drop_middle.
Qed.

Lemma fmtname_spec q nm : nonul q → fmtname 0 q = nm ↔ is_base q nm.
Proof.
  intros Hq. assert (Hf : fmtname 0 q = drop (after_slash q (length q)) q).
  { unfold fmtname. case_match; [done|]. rewrite upto_nul_app by by apply Forall_drop. unfold DIRSIZ.
    destruct (Z.to_nat 14 - _)%nat; cbn; by rewrite app_nil_r. }
  rewrite Hf. split; [intros <-; apply last_part|]. intros H. eapply base_unique; [apply last_part|done].
Qed.

Lemma splice_after {A} (a r new : list A) : splice (a ++ r) (length a) new = a ++ new ++ drop (length new) r.
Proof.
  unfold splice. rewrite take_app_length. f_equal. f_equal. rewrite drop_app_ge by lia. f_equal. lia.
Qed.

(** The path of an entry of a directory. *)
Definition ent_path (d name : list Z) : list Z := d ++ SLASH :: upto_nul name.

Lemma ent_nonul d name : nonul d → nonul (ent_path d name).
Proof. intros. apply Forall_app. split; [done|]. constructor; [done|]. apply upto_nul_nonul. Qed.

Lemma ent_length d name : (length d < length (ent_path d name))%nat.
Proof. unfold ent_path. rewrite length_app. cbn. lia. Qed.

(** The buffer holds the path of a directory, a slash, and room for a name. *)
Definition holds_dir (d buf : list Z) : Prop := ∃ r, buf = (d ++ [SLASH]) ++ r ∧ (15 ≤ length r)%nat.

Lemma store_name d buf name s : holds_dir d buf → length name = 14%nat → nonul d →
  ∃ buf1 buf2, store buf (length d + 1) name s = Ok buf1 s ∧ store buf1 (length d + 1 + Z.to_nat DIRSIZ) [0] s = Ok buf2 s ∧
    upto_nul buf2 = ent_path d name ∧ holds_dir d buf2.
Proof.
  intros (r & -> & Hr) Hn Hd. unfold store, DIRSIZ. replace (length d + 1)%nat with (length (d ++ [SLASH])) by (rewrite length_app; done).
  set (a := d ++ [SLASH]). eexists _, _. split.
  { rewrite (proj2 (Nat.leb_le _ _)) by (rewrite length_app; lia). done. }
  rewrite splice_after, Hn. rewrite app_assoc. change (Z.to_nat 14) with 14%nat.
  replace (length a + 14)%nat with (length (a ++ name)) by (rewrite length_app; lia). split.
  { rewrite (proj2 (Nat.leb_le _ _)); [done|]. rewrite !length_app, length_drop. cbn. lia. }
  rewrite splice_after. split.
  - unfold a, ent_path. rewrite <- !app_assoc, upto_nul_app by done. f_equal. cbn. f_equal. apply upto_nul_end.
  - exists (name ++ [0] ++ drop 1 (drop 14 r)). split; [by rewrite !app_assoc|]. rewrite length_app, Hn. cbn. lia.
Qed.

(** ** What find should do *)
Section Spec.
Context (look : list Z → option node) (stack : list Z) (search_exp : list Z).

(** A live entry of what can be opened under [d]. *)
Definition lists (d : list Z) (name : list Z) : Prop :=
  ∃ n inum, look d = Some n ∧ is_Some (n_stat n) ∧ (inum, name) ∈ n_ents n ∧ inum ≠ 0.

Definition has_type (q : list Z) (ty : Z) : Prop := ∃ n st, look q = Some n ∧ n_stat n = Some st ∧ st_type st = ty.

(** A directory that is not the entry for the directory itself or its parent. *)
Definition subdir (q : list Z) : Prop := has_type q T_DIR ∧ ¬ is_base q [46] ∧ ¬ is_base q [46; 46].

(** [q] is a file below [d] with the name that is looked for. *)
Inductive hit : list Z → list Z → Prop :=
| hit_file d name : lists d name → has_type (ent_path d name) T_FILE → is_base (ent_path d name) search_exp → hit d (ent_path d name)
| hit_below d name q : lists d name → subdir (ent_path d name) → hit (ent_path d name) q → hit d q.

(** [q] is a directory [k] levels below [d]. *)
Inductive below : nat → list Z → list Z → Prop :=
| below_0 d : below 0 d d
| below_S k d name q : lists d name → subdir (ent_path d name) → below k (ent_path d name) q → below (S k) d q.

(** Paths are short and [n] descriptors are enough for the depth of the tree. *)
Definition fits (n : nat) (d : list Z) : Prop := ∀ k q, below k d q → (length q ≤ 496)%nat ∧ (2 * k + 2 ≤ n)%nat.

Lemma fits_sub n d name : fits n d → lists d name → subdir (ent_path d name) → fits (n - 2) (ent_path d name).
Proof. intros Hf Hl Hs k q Hq. destruct (Hf (S k) q) as [? ?]; [by econstructor|]. split; [done|lia]. Qed.

(** ** The calls *)

Definition is_found (m : msg) : bool := match m with Found _ => true | _ => false end.

(** What is left of a run: the messages, and that a file was found. *)
Definition emit (outs : list msg) (s : sys) : sys := mkSys (fds s) (out s ++ outs) (flag s || existsb is_found outs).

Lemma emit_nil s : emit [] s = s.
Proof. destruct s. unfold emit. cbn. by rewrite app_nil_r, orb_false_r. Qed.

Lemma emit_emit o1 o2 s : emit o2 (emit o1 s) = emit (o1 ++ o2) s.
Proof. unfold emit. cbn. by rewrite <- app_assoc, existsb_app, orb_assoc. Qed.

Lemma say_emit m s : is_found m = false → say m s = Ok tt (emit [m] s).
Proof. intros Hm. unfold say, modify, emit. cbn. by rewrite Hm, !orb_false_r. Qed.

Lemma found_emit q s : (set_flag ;;; say (Found q)) s = Ok tt (emit [Found q] s).
Proof. unfold emit. cbn. by rewrite orb_true_r. Qed.

Definition with_fd (k : nat) (n : node) (s : sys) : sys := mkSys (<[k := Some n]> (fds s)) (out s) (flag s).

Lemma open_ok q n s : look q = Some n → (0 < nfree (fds s))%nat → ∃ k, fds s !! k = Some None ∧
  open look q s = Ok (Z.of_nat k) (with_fd k n s) ∧ nfree (fds s) = S (nfree (fds (with_fd k n s))).
Proof.
  intros Hq (k & Hk & Hf & Hn)%(fd_alloc_some n). exists k. unfold open. rewrite Hq, Hf. done.
Qed.

Lemma open_bad q s : look q = None ∨ nfree (fds s) = 0%nat → open look q s = Ok (-1) s.
Proof. unfold open. intros [-> |H]; [done|]. destruct (look q); [|done]. by rewrite fd_alloc_full. Qed.

Lemma opened_fd k n s : fds s !! k = Some None → opened (Z.of_nat k) (with_fd k n s) = Some n.
Proof.
  intros Hk. unfold opened. destruct (Z.ltb_spec (Z.of_nat k) 0); [lia|]. rewrite Nat2Z.id. cbn.
  rewrite list_lookup_insert_eq; [done|by eapply lookup_lt_Some].
Qed.

Lemma close_emit k n outs s : fds s !! k = Some None → close (Z.of_nat k) (emit outs (with_fd k n s)) = Ok tt (emit outs s).
Proof.
  intros Hk. unfold close, modify. destruct (Z.ltb_spec (Z.of_nat k) 0); [lia|]. rewrite Nat2Z.id. unfold emit. cbn.
  by rewrite fd_close.
Qed.

Lemma stat_path_run q s : stat_path look q s = Ok (if decide (nfree (fds s) = 0%nat) then None else look q ≫= n_stat) s.
Proof.
  unfold stat_path, stat. rewrite bind_assoc. case_decide as Hd.
  { erewrite bind_Ok by (apply open_bad; by right). done. }
  destruct (look q) as [n|] eqn:Hq.
  - destruct (open_ok q n s Hq) as (k & Hk & Ho & _); [lia|]. erewrite bind_Ok by exact Ho.
    destruct (Z.ltb_spec (Z.of_nat k) 0); [lia|]. rewrite bind_assoc. unfold fstat at 1. unfold bind at 1. rewrite opened_fd by done.
    pose proof (close_emit k n [] s Hk) as Hc. rewrite !emit_nil in Hc.
    destruct (n_stat n) as [st|] eqn:Hst; unfold bind; rewrite Hc; cbn; by rewrite Hst.
  - erewrite bind_Ok by (apply open_bad; by left). done.
Qed.

Hypothesis Hnames : ∀ d n inum name, look d = Some n → (inum, name) ∈ n_ents n → length name = 14%nat.
Hypothesis Hstack : length stack = 512%nat.

(** ** The search *)

(** [find] does what it should under [q]. *)
Definition finds (find : list Z → M sys unit) (q : list Z) : Prop :=
  ∀ s, ∃ outs, find q s = Ok tt (emit outs s) ∧ (∀ x, Found x ∈ outs → hit q x) ∧
    (fits (nfree (fds s)) q → ∀ x, hit q x → Found x ∈ outs).

Definition entry_hit (q x : list Z) : Prop :=
  (x = q ∧ has_type q T_FILE ∧ is_base q search_exp) ∨ (subdir q ∧ hit q x).

Lemma entry_hit_type q x st : look q ≫= n_stat = Some st → entry_hit q x →
  (st_type st = T_FILE ∧ x = q ∧ is_base q search_exp) ∨ (st_type st = T_DIR ∧ subdir q ∧ hit q x).
Proof.
  intros Hst [(-> & (n & st' & Hn & Hs & Ht) & Hb)|[[(n & st' & Hn & Hs & Ht) Hsub] Hh]]; rewrite Hn in Hst; cbn in Hst; simplify_eq.
  - by left.
  - right. split; [congruence|]. split; [|done]. split; [|done]. by exists n, st.
Qed.

Lemma find_entry_run find q st s : nonul q → look q ≫= n_stat = Some st → finds find q →
  ∃ outs, find_entry look search_exp find q st s = Ok tt (emit outs s) ∧ (∀ x, Found x ∈ outs → entry_hit q x) ∧
    ((0 < nfree (fds s))%nat → (subdir q → fits (nfree (fds s) - 1) q) → ∀ x, entry_hit q x → Found x ∈ outs).
Proof.
  intros Hq Hst Hf. assert (Hty : has_type q (st_type st)).
  { destruct (look q) as [n|] eqn:Hn; [|done]. cbn in Hst. by exists n, st. }
  assert (Hnone : (∀ x, ¬ entry_hit q x) → ∃ outs, Ok tt s = Ok tt (emit outs s) ∧ (∀ x, Found x ∈ outs → entry_hit q x) ∧
    ((0 < nfree (fds s))%nat → (subdir q → fits (nfree (fds s) - 1) q) → ∀ x, entry_hit q x → Found x ∈ outs)).
  { intros Hno. exists []. rewrite emit_nil. split; [done|]. split; [intros x Hx; by apply elem_of_nil in Hx|]. intros _ _ x Hx. by apply Hno in Hx. }
  unfold find_entry. destruct (Z.eqb_spec (st_type st) T_FILE) as [Hfile|Hfile].
  - case_bool_decide as Hb.
    + apply fmtname_spec in Hb; [|done]. exists [Found q]. split; [apply found_emit|]. rewrite Hfile in Hty. split.
      * intros x [= ->]%list_elem_of_singleton. by left.
      * intros _ _ x Hx. destruct (entry_hit_type q x st Hst Hx) as [(_ & -> & _)|(Hd & _)]; [left|by rewrite Hd in Hfile].
    + apply Hnone. intros x Hx. destruct (entry_hit_type q x st Hst Hx) as [(_ & -> & Hb')|(Hd & _)]; [|by rewrite Hd in Hfile].
      apply Hb. by apply fmtname_spec.
  - destruct (Z.eqb_spec (st_type st) T_DIR) as [Hdir|Hdir].
    + rewrite Hdir in Hty. destruct (_ && _) eqn:Hdots.
      * apply andb_true_iff in Hdots as [H1%negb_true_iff H2%negb_true_iff]. apply bool_decide_eq_false in H1, H2.
        assert (Hsub : subdir q) by (split; [done|]; split; intros Hb%fmtname_spec; done).
        destruct (decide (0 < nfree (fds s))%nat) as [Hpos|Hpos].
        -- destruct (look q) as [n|] eqn:Hn; [|done]. destruct (open_ok q n s Hn Hpos) as (k & Hk & Ho & Hfree).
           erewrite bind_Ok by exact Ho. destruct (Hf (with_fd k n s)) as (outs & Hrun & Hsound & Hall).
           erewrite bind_Ok by exact Hrun. exists outs. split; [by apply close_emit|]. split; [intros x Hx; right; split; [done|by apply Hsound]|].
           intros _ Hfit x Hx. destruct (entry_hit_type q x st) as [(Ht & _)|(_ & _ & Hh)]; [by rewrite Hn|done|done|].
           apply Hall; [|done]. specialize (Hfit Hsub). by replace (nfree (fds s) - 1)%nat with (nfree (fds (with_fd k n s))) in Hfit by lia.
        -- erewrite bind_Ok by (apply open_bad; right; lia). destruct (Hf s) as (outs & Hrun & Hsound & _).
           erewrite bind_Ok by exact Hrun. exists outs. split; [done|]. split; [intros x Hx; right; split; [done|by apply Hsound]|done].
      * apply Hnone. intros x Hx. destruct (entry_hit_type q x st Hst Hx) as [(? & _)|(_ & (_ & H1 & H2) & _)]; [done|].
        apply andb_false_iff in Hdots as [Hd|Hd]; apply negb_false_iff, bool_decide_eq_true, fmtname_spec in Hd; done.
    + apply Hnone. intros x Hx. by destruct (entry_hit_type q x st Hst Hx) as [(? & _)|(? & _)].
Qed.

Lemma find_loop_run find d des : nonul d → Forall (λ e, length e.2 = 14%nat) des → (∀ name, name ∈ des.*2 → finds find (ent_path d name)) →
  ∀ buf s, holds_dir d buf → ∃ outs, find_loop look search_exp find (length d + 1) buf des s = Ok tt (emit outs s) ∧
    (∀ x, Found x ∈ outs → ∃ i name, (i, name) ∈ des ∧ i ≠ 0 ∧ entry_hit (ent_path d name) x) ∧
    ∀ i name x, (i, name) ∈ des → i ≠ 0 → (0 < nfree (fds s))%nat →
      (subdir (ent_path d name) → fits (nfree (fds s) - 1) (ent_path d name)) → entry_hit (ent_path d name) x → Found x ∈ outs.
Proof.
  intros Hd Hlen. induction Hlen as [|[inum name] des Hname _ IH]; intros Hf buf s Hbuf.
  { exists []. rewrite emit_nil. split; [done|]. split; [intros x Hx|intros i name x Hx]; by apply elem_of_nil in Hx. }
  specialize (IH (λ nm H, Hf nm (proj2 (elem_of_cons _ _ _) (or_intror H)))). cbn [find_loop]. destruct (Z.eqb_spec inum 0) as [->|Hi].
  - destruct (IH buf s Hbuf) as (outs & Hrun & Hs & Hc). exists outs. split; [done|]. split.
    + intros x Hx. destruct (Hs x Hx) as (i & nm & Hin & H). exists i, nm. split; [apply elem_of_cons; by right|done].
    + intros i nm x [[= -> ->]|Hin]%elem_of_cons Hne; [done|]. by apply (Hc i nm x).
  - destruct (store_name d buf name s Hbuf Hname Hd) as (b1 & b2 & H1 & H2 & Hup & Hb2).
    erewrite bind_Ok by exact H1. erewrite bind_Ok by exact H2. cbv zeta. rewrite Hup. erewrite bind_Ok by apply stat_path_run.
    assert (He : ∃ o1, match (if decide (nfree (fds s) = 0%nat) then None else look (ent_path d name) ≫= n_stat) with
        | Some st => find_entry look search_exp find (ent_path d name) st
        | None => say (CannotStat (ent_path d name)) end s = Ok tt (emit o1 s) ∧ (∀ x, Found x ∈ o1 → entry_hit (ent_path d name) x) ∧
        ((0 < nfree (fds s))%nat → (subdir (ent_path d name) → fits (nfree (fds s) - 1) (ent_path d name)) → ∀ x, entry_hit (ent_path d name) x → Found x ∈ o1)).
    { case_decide as Hz.
      { exists [CannotStat (ent_path d name)]. split; [by apply say_emit|]. split; [intros x Hx%list_elem_of_singleton; done|lia]. }
      destruct (look (ent_path d name) ≫= n_stat) as [st|] eqn:Hst.
      - apply find_entry_run; [by apply ent_nonul|done|]. apply Hf. left.
      - exists [CannotStat (ent_path d name)]. split; [by apply say_emit|]. split; [intros x Hx%list_elem_of_singleton; done|].
        intros _ _ x [(_ & (n & st & Hn & Hs & _) & _)|[[(n & st & Hn & Hs & _) _] _]]; rewrite Hn in Hst; cbn in Hst; congruence. }
    destruct He as (o1 & Hr1 & Hs1 & Hc1). erewrite bind_Ok by exact Hr1.
    destruct (IH b2 (emit o1 s) Hb2) as (o2 & Hr2 & Hs2 & Hc2). exists (o1 ++ o2). split; [by rewrite Hr2, emit_emit|]. split.
    + intros x [Hx|Hx]%elem_of_app; [exists inum, name; split; [left|]; split; [done|by apply Hs1]|].
      destruct (Hs2 x Hx) as (i & nm & Hin & H). exists i, nm. split; [apply elem_of_cons; by right|done].
    + intros i nm x Hin Hne Hpos Hfit Hh. apply elem_of_app. apply elem_of_cons in Hin as [[= -> ->]|Hin]; [left; by apply Hc1|right].
      by apply (Hc2 i nm x).
Qed.

Lemma hit_entry d x : hit d x ↔ ∃ name, lists d name ∧ entry_hit (ent_path d name) x.
Proof.
  split.
  - destruct 1 as [d name Hl Ht Hb|d name q Hl Hs Hh]; exists name; (split; [done|]); [by left|by right].
  - intros (name & Hl & [(-> & Ht & Hb)|[Hs Hh]]); [by apply hit_file|by eapply hit_below].
Qed.

Lemma find_fails d m s : is_found m = false → (fits (nfree (fds s)) d → ∀ x, ¬ hit d x) →
  ∃ outs, say m s = Ok tt (emit outs s) ∧ (∀ x, Found x ∈ outs → hit d x) ∧ (fits (nfree (fds s)) d → ∀ x, hit d x → Found x ∈ outs).
Proof.
  intros Hm Hno. exists [m]. split; [by apply say_emit|]. split.
  - intros x <-%list_elem_of_singleton. done.
  - intros Hfit x Hx. by apply Hno in Hx.
Qed.

Lemma copy_path d s : (length d ≤ 496)%nat → nonul d → ∃ b1 b2, strcpy stack d s = Ok b1 s ∧ strlen b1 = length d ∧
  store b1 (length d) [SLASH] s = Ok b2 s ∧ holds_dir d b2.
Proof.
  intros Hlen Hd. unfold strcpy, store. rewrite length_app, Hstack. cbn [length].
  rewrite (proj2 (Nat.leb_le (0 + (length d + 1)) 512)) by lia. eexists _, _. split; [reflexivity|].
  change (splice stack 0 (d ++ [0])) with ((d ++ [0]) ++ drop (0 + length (d ++ [0])) stack). rewrite <- app_assoc. cbn [app].
  split; [unfold strlen; rewrite upto_nul_end, upto_nul_id by done; done|].
  rewrite splice_after. split.
  - rewrite (proj2 (Nat.leb_le _ _)); [done|]. rewrite length_app. cbn. lia.
  - eexists. split; [by rewrite app_assoc|]. change (15 ≤ length (drop (0 + length (d ++ [0%Z])) stack))%nat. rewrite length_drop, Hstack, length_app. cbn [length]. lia.
Qed.

Lemma find_run fuel : ∀ d, nonul d → (498 ≤ fuel + length d)%nat → (1 ≤ fuel)%nat → finds (find look stack search_exp fuel) d.
Proof.
  induction fuel as [|fuel IH]; intros d Hd Hfuel Hpos s; [lia|]. cbn [find]. unfold DIRSIZ.
  destruct (Z.ltb_spec 512 (Z.of_nat (length d) + 1 + 14 + 1)) as [Hlong|Hshort].
  { apply find_fails; [done|]. intros Hfit. destruct (Hfit 0%nat d (below_0 d)). lia. }
  destruct (decide (0 < nfree (fds s))%nat) as [Hfree|Hfree].
  2: { erewrite bind_Ok by (apply open_bad; right; lia). apply find_fails; [done|]. intros Hfit. destruct (Hfit 0%nat d (below_0 d)). lia. }
  destruct (look d) as [n|] eqn:Hn.
  2: { erewrite bind_Ok by (apply open_bad; by left). apply find_fails; [done|]. intros _ x (name & (n & i & Hn' & _) & _)%hit_entry. congruence. }
  destruct (open_ok d n s Hn Hfree) as (k & Hk & Ho & Hcount). erewrite bind_Ok by exact Ho.
  destruct (Z.ltb_spec (Z.of_nat k) 0); [lia|]. unfold fstat. unfold bind at 1. rewrite opened_fd by done.
  destruct (n_stat n) as [st|] eqn:Hst; cbn [fst Z.ltb Z.compare].
  2: { pose proof (say_emit (UnknownPath d) (with_fd k n s) eq_refl) as He. erewrite bind_Ok by exact He. rewrite close_emit by done.
       exists [UnknownPath d]. split; [done|]. split; [intros x Hx%list_elem_of_singleton; done|].
       intros _ x (name & (n' & i & Hn' & [st Hst'] & _) & _)%hit_entry. congruence. }
  destruct (copy_path d (with_fd k n s)) as (b1 & b2 & H1 & Hlen & H2 & Hb2); [lia|done|].
  erewrite bind_Ok by exact H1. cbv zeta. rewrite Hlen. erewrite bind_Ok by exact H2.
  unfold entries. unfold bind at 1. rewrite opened_fd by done.
  destruct (find_loop_run (find look stack search_exp fuel) d (n_ents n) Hd) with (buf := b2) (s := with_fd k n s) as (outs & Hrun & Hs & Hc); [..|done|].
  { apply Forall_forall. intros [i name] Hin. by eapply Hnames. }
  { intros name _. apply IH; [by apply ent_nonul|pose proof (ent_length d name); lia|lia]. }
  erewrite bind_Ok by exact Hrun. rewrite close_emit by done. exists outs. split; [done|]. split.
  - intros x (i & name & Hin & Hi & He)%Hs. apply hit_entry. exists name. split; [|done]. exists n, i. by rewrite Hst.
  - intros Hfit x (name & Hl & He)%hit_entry. pose proof Hl as (n' & i & Hn' & _ & Hin & Hi). rewrite Hn in Hn'. injection Hn' as <-.
    destruct (Hfit 0%nat d (below_0 d)). apply (Hc i name x Hin Hi); [lia| |done]. intros Hsub.
    replace (nfree (fds (with_fd k n s)) - 1)%nat with (nfree (fds s) - 2)%nat by lia. by apply fits_sub.
Qed.

(** C22: find finds.  On every file system, also one whose directories form a
    cycle, find ends without writing beyond its buffers and closes what it opened.
    Every path it prints is that of a file below the given directory with the name
    that is looked for; it prints all of them when the paths fit its buffer and
    there are two descriptors for every level of the tree and two more; and it says
    that nothing was found exactly if it printed none. *)
Theorem find_correct (prog path : list Z) (T : list (option node)) (Hpath : nonul path) :
  ∃ outs, find_main look stack [prog; path; search_exp] (mkSys T [] false) =
      Ok 0 (mkSys T (outs ++ if existsb is_found outs then [] else [NotFound]) (existsb is_found outs)) ∧
    (∀ x, Found x ∈ outs → hit path x) ∧
    (fits (nfree T) path → ∀ x, hit path x → Found x ∈ outs).
Proof.
  destruct (find_run 512 path Hpath ltac:(lia) ltac:(lia) (mkSys T [] false)) as (outs & Hrun & Hs & Hc).
  exists outs. split; [|done]. unfold find_main. cbv zeta. change ((_ <? 3) || (4 <? _)) with false. cbn [nth].
  erewrite bind_Ok by exact Hrun. unfold bind, emit. cbn. destruct (existsb is_found outs); cbn; [by rewrite app_nil_r|done].
Qed.
End Spec.

(** ** ls *)
Section Ls.
Context (look : list Z → option node) (stack : list Z).
Hypothesis Hnames : ∀ d n inum name, look d = Some n → (inum, name) ∈ n_ents n → length name = 14%nat.
Hypothesis Hstack : length stack = 512%nat.

(** The line for an entry of a directory. *)
Definition listing (d : list Z) (e : Z * list Z) : list msg :=
  if e.1 =? 0 then []
  else match look (ent_path d e.2) ≫= n_stat with
       | Some st => [Entry (fmtname 32 (ent_path d e.2)) st]
       | None => [CannotStat (ent_path d e.2)]
       end.

Lemma no_found_listing d es : existsb is_found (mjoin (listing d <$> es)) = false.
Proof.
  induction es as [|e es IH]; [done|]. change (mjoin (listing d <$> e :: es)) with (listing d e ++ mjoin (listing d <$> es)).
  rewrite existsb_app, IH. unfold listing. case_match; [done|]. by case_match.
Qed.

Lemma ls_loop_run d des : nonul d → Forall (λ e, length e.2 = 14%nat) des → ∀ buf s, (0 < nfree (fds s))%nat → holds_dir d buf →
  ls_loop look (length d + 1) buf des s = Ok tt (emit (mjoin (listing d <$> des)) s).
Proof.
  intros Hd Hlen. induction Hlen as [|[inum name] des Hname _ IH]; intros buf s Hfree Hbuf; [by rewrite emit_nil|].
  change (mjoin (listing d <$> (inum, name) :: des)) with (listing d (inum, name) ++ mjoin (listing d <$> des)).
  cbn [ls_loop]. unfold listing at 1. cbn [fst snd]. destruct (Z.eqb_spec inum 0); [by apply IH|].
  destruct (store_name d buf name s Hbuf Hname Hd) as (b1 & b2 & H1 & H2 & Hup & Hb2).
  erewrite bind_Ok by exact H1. erewrite bind_Ok by exact H2. cbv zeta. rewrite Hup. erewrite bind_Ok by apply stat_path_run.
  rewrite decide_False by lia. rewrite <- emit_emit.
  destruct (look (ent_path d name) ≫= n_stat) as [st|]; (erewrite bind_Ok by by apply say_emit); by apply IH.
Qed.

(** A directory is listed entry by entry, in order. *)
Lemma ls_dir d n st s : nonul d → (length d ≤ 496)%nat → look d = Some n → n_stat n = Some st → st_type st = T_DIR → (2 ≤ nfree (fds s))%nat →
  ls look stack d s = Ok tt (emit (mjoin (listing d <$> n_ents n)) s).
Proof.
  intros Hd Hlen Hn Hst Hty Hfree. unfold ls. destruct (open_ok look d n s Hn) as (k & Hk & Ho & Hcount); [lia|].
  erewrite bind_Ok by exact Ho. destruct (Z.ltb_spec (Z.of_nat k) 0); [lia|]. unfold fstat. unfold bind at 1. rewrite opened_fd by done.
  rewrite Hst. cbn [Z.ltb Z.compare]. rewrite Hty. change ((T_DIR =? T_DEVICE) || (T_DIR =? T_FILE)) with false. change (T_DIR =? T_DIR) with true. cbv iota.
  destruct (Z.ltb_spec 512 (Z.of_nat (length d) + 1 + DIRSIZ + 1)) as [Hlt|_]; [unfold DIRSIZ in Hlt; lia|].
  destruct (copy_path stack Hstack d (with_fd k n s) Hlen Hd) as (b1 & b2 & H1 & Hl & H2 & Hb2).
  rewrite bind_assoc. erewrite bind_Ok by exact H1. cbv zeta. rewrite Hl, bind_assoc. erewrite bind_Ok by exact H2.
  unfold entries. rewrite bind_assoc. unfold bind at 1. rewrite opened_fd by done. erewrite bind_Ok by (apply ls_loop_run; [done| |lia|done];
    apply Forall_forall; intros [i name] Hin; by eapply Hnames). by apply close_emit.
Qed.
End Ls.

(** ** Examples *)

(** [a] is a directory with a directory [a] in it, and so on [depth] levels down,
    where there is a file [a]. *)
Definition demo_name : list Z := 97 :: replicate 13 0.
Fixpoint demo_path (k : nat) : list Z := match k with O => [97] | S k => demo_path k ++ [47; 97] end.
Fixpoint demo_level (depth : nat) (q : list Z) : option nat :=
  if bool_decide (q = demo_path depth) then Some depth
  else match depth with O => None | S d => demo_level d q end.
Definition demo_look (depth : nat) (q : list Z) : option node :=
  match demo_level depth q with
  | None => None
  | Some k =>
      if (k =? depth)%nat then Some (mkNode (Some (mkStat T_FILE 9 0)) [])
      else Some (mkNode (Some (mkStat T_DIR 8 32)) [(8, demo_name); (0, demo_name)])
  end.
Definition demo_stack : list Z := replicate 512 85.

Lemma demo_names depth d n inum name : demo_look depth d = Some n → (inum, name) ∈ n_ents n → length name = 14%nat.
Proof.
  unfold demo_look. destruct (demo_level depth d) as [k|]; [|done]. destruct (k =? depth)%nat; intros [= <-]; cbn.
  - intros Hin. by apply elem_of_nil in Hin.
  - intros Hin. repeat (apply elem_of_cons in Hin as [[= -> ->]|Hin]; [done|]). by apply elem_of_nil in Hin.
Qed.

(** Three descriptors of sixteen are in use. *)
Definition demo_fds : list (option node) := replicate 3 (Some (mkNode None [])) ++ replicate 13 None.

Lemma demo_stack_len : length demo_stack = 512%nat.
Proof. done. Qed.

Lemma demo_nonul : nonul [97].
Proof. by repeat constructor. Qed.

Lemma demo_base_dir : is_base [97; 47; 97] [97].
Proof. split; [by rewrite list_elem_of_singleton|]. right. by exists [97]. Qed.

Lemma demo_hit : hit (demo_look 1) [97] [97] [97; 47; 97].
Proof.
  apply (hit_file (demo_look 1) [97] [97] demo_name).
  - eexists _, 8. split; [reflexivity|]. split; [by eexists|]. split; [apply elem_of_cons; by left|done].
  - eexists _, _. by repeat split.
  - exact demo_base_dir.
Qed.

Lemma find_correct_witness : ∃ outs s, find_main (demo_look 1) demo_stack [[102]; [97]; [97]] (mkSys demo_fds [] false) = Ok 0 s ∧
  Found [97; 47; 97] ∈ outs ∧ out s = outs.
Proof.
  destruct (find_correct (demo_look 1) demo_stack [97] (demo_names 1) demo_stack_len [102] [97] demo_fds demo_nonul) as (outs & Hrun & _ & Hc).
  assert (Hin : Found [97; 47; 97] ∈ outs).
  { apply Hc; [|exact demo_hit]. intros k q Hb. assert (k = 0%nat ∧ q = [97]) as [-> ->].
    { inversion Hb as [|k' d nm q' Hl Hs]; [split; reflexivity|]. exfalso.
      destruct Hs as [(n & st & Hn & Hst & Hty) _]. destruct Hl as (n' & i & Hn' & _ & Hin & Hi). injection Hn' as <-. cbn in Hin.
      apply elem_of_cons in Hin as [[= -> ->]|Hin]; [|apply list_elem_of_singleton in Hin; injection Hin as -> ->; exact (Hi eq_refl)].
      injection Hn as <-. injection Hst as <-. discriminate Hty. }
    vm_compute. split; apply Nat.leb_le; reflexivity. }
  eexists (outs ++ _), _. split; [exact Hrun|]. split; [|reflexivity]. apply elem_of_app. left. exact Hin.
Defined.

Lemma demo_lists depth k : (k < depth)%nat → demo_level depth (demo_path k) = Some k → lists (demo_look depth) (demo_path k) demo_name.
Proof.
  intros Hk Hl. unfold lists, demo_look. rewrite Hl. destruct (Nat.eqb_spec k depth); [lia|]. eexists _, 8.
  split; [reflexivity|]. split; [by eexists|]. split; [apply elem_of_cons; by left|done].
Qed.

Lemma demo_entry k : ent_path (demo_path k) demo_name = demo_path (S k).
Proof. reflexivity. Qed.

Lemma demo_base k : is_base (demo_path (S k)) [97].
Proof. split; [by rewrite list_elem_of_singleton|]. right. by exists (demo_path k). Qed.

Lemma demo_subdir depth k : (S k < depth)%nat → demo_level depth (demo_path (S k)) = Some (S k) → subdir (demo_look depth) (demo_path (S k)).
Proof.
  intros Hk Hl. split.
  - unfold has_type, demo_look. rewrite Hl. destruct (Nat.eqb_spec (S k) depth); [lia|]. by eexists _, _.
  - split; intros Hb; by pose proof (base_unique _ _ _ Hb (demo_base k)).
Qed.

(** A file seven levels down is not found by a process with the usual three
    descriptors open: each level holds two descriptors, where one would do. *)
Lemma find_depth_limit : hit (demo_look 7) [97] (demo_path 0) (demo_path 7) ∧
  ∃ s, find_main (demo_look 7) demo_stack [[102]; [97]; [97]] (mkSys demo_fds [] false) = Ok 0 s ∧ Found (demo_path 7) ∉ out s.
Proof.
  split.
  - do 6 (eapply hit_below; [apply demo_lists; [lia|by vm_compute]|rewrite demo_entry; apply demo_subdir; [lia|by vm_compute]|rewrite demo_entry]).
    rewrite <- (demo_entry 6). apply hit_file; [apply demo_lists; [lia|by vm_compute]|rewrite demo_entry; by eexists _, _|apply demo_base].
  - eexists. split; [vm_compute; reflexivity|]. cbn. intros Hin. repeat (apply elem_of_cons in Hin as [Hin|Hin]; [discriminate Hin|]). by apply elem_of_nil in Hin.
Qed.
