(* ===== verification/Mkfs.v ===== *)
(** * Mkfs: mkfs/mkfs.c, the program that builds the file system image

    The image is a function from sectors to their 1024 bytes.  A host file is
    what [read] returned for it, piece by piece.  A failed assertion and [die]
    end the program. *)
From stdpp Require Import functions.
From S2P Require Import Prelude Riscv CString Bio Log Fs.

Definition NINODES : Z := 200.
Definition nbitmap : Z := FSSIZE / BPB + 1.
Definition ninodeblocks : Z := NINODES / IPB + 1.
Definition nlog : Z := LOGSIZE.
Definition nmeta : Z := 2 + nlog + ninodeblocks + nbitmap.
Definition nblocks : Z := FSSIZE - nmeta.

Record image : Type := mkImage {
  sect : Z → list Z;
  freeinode : Z;
  freeblock : Z;
}.

Definition mk_sb : superblock :=
  mkSb FSMAGIC FSSIZE nblocks NINODES nlog 2 (2 + nlog) (2 + nlog + ninodeblocks).

(** The bytes of struct superblock. *)
Definition sb_bytes (sb : superblock) : list Z :=
  mjoin ((λ v, le_bytes 4 (u32 v)) <$>
    [sb_magic sb; sb_size sb; sb_nblocks sb; sb_ninodes sb; sb_nlog sb; sb_logstart sb; sb_inodestart sb; sb_bmapstart sb]).

Definition wsect (sec : Z) (buf : list Z) : M image unit :=
  modify (λ s, mkImage (<[sec := buf]> (sect s)) (freeinode s) (freeblock s)).

(** The image has FSSIZE sectors when the first one is read. *)
Definition rsect (sec : Z) : M image (list Z) :=
  if sec <? FSSIZE then gets (λ s, sect s sec) else panic "read".

Definition winode (inum : Z) (ip : dinode) : M image unit :=
  let bn := IBLOCK inum mk_sb in
  do buf <- rsect bn;
  wsect bn (splice buf (dinode_off inum) (dinode_bytes ip)).

Definition rinode (inum : Z) : M image dinode :=
  let bn := IBLOCK inum mk_sb in
  do buf <- rsect bn;
  ret (dinode_at (dinode_off inum) buf).

Definition ialloc (type : Z) : M image Z :=
  do inum <- gets freeinode;
  modify (λ s, mkImage (sect s) (u32 (inum + 1)) (freeblock s)) ;;;
  winode inum (mkDinode type 0 0 1 0 (replicate 13 0)) ;;;
  ret inum.

(** for(i = 0; i < used; i++) buf[i/8] = buf[i/8] | (0x1 << (i%8)); *)
Fixpoint set_bits (n : nat) (buf : list Z) : list Z :=
  match n with O => buf | S n => set_bit (Z.of_nat n) (set_bits n buf) end.

Definition balloc (used : Z) : M image unit :=
  if negb (used <? BPB) then panic "assert"
  else wsect (sb_bmapstart mk_sb) (set_bits (Z.to_nat used) (replicate 1024 0)).

(** freeblock++ *)
Definition next_block : M image Z :=
  do b <- gets freeblock;
  modify (λ s, mkImage (sect s) (freeinode s) (u32 (b + 1))) ;;;
  ret b.

(** The block for the part [fbn] of a file, allocated if there is none. *)
Definition file_block (din : dinode) (fbn : Z) : M image (dinode * Z) :=
  if fbn <? NDIRECT then
    let a := nth (Z.to_nat fbn) (d_addrs din) 0 in
    if a =? 0 then do b <- next_block; ret (set_addr (Z.to_nat fbn) b din, b) else ret (din, a)
  else
    let a := nth (Z.to_nat NDIRECT) (d_addrs din) 0 in
    do '(din, ind) <-
      (if a =? 0 then do b <- next_block; ret (set_addr (Z.to_nat NDIRECT) b din, b) else ret (din, a));
    do indirect <- rsect ind;
    let off := Z.to_nat (4 * (fbn - NDIRECT)) in
    if ld32 off indirect =? 0 then
      do b <- next_block;
      wsect ind (st32 off b indirect) ;;;
      ret (din, b)
    else ret (din, ld32 off indirect).

(** The loop of [iappend]; [p] are the bytes still to be appended. *)
Fixpoint iappend_loop (fuel : nat) (din : dinode) (off : Z) (p : list Z) : M image (dinode * Z) :=
  if Z.of_nat (length p) <=? 0 then ret (din, off)
  else match fuel with
       | O => nofuel
       | S fuel =>
           let fbn := off / BSIZE in
           if negb (fbn <? MAXFILE) then panic "assert"
           else
             do '(din, x) <- file_block din fbn;
             let n1 := Z.min (Z.of_nat (length p)) ((fbn + 1) * BSIZE - off) in
             do buf <- rsect x;
             wsect x (splice buf (Z.to_nat (off - fbn * BSIZE)) (take (Z.to_nat n1) p)) ;;;
             iappend_loop fuel din (u32 (off + n1)) (drop (Z.to_nat n1) p)
       end.

Definition iappend (inum : Z) (p : list Z) : M image unit :=
  do din <- rinode inum;
  do '(din, off) <- iappend_loop (length p) din (d_size din) p;
  winode inum (set_size off din).

(** struct dirent: strncpy fills the name with NULs *)
Definition dirent (inum : Z) (name : list Z) : list Z :=
  le_bytes 2 (u16 inum) ++ take (Z.to_nat DIRSIZ) (name ++ replicate (Z.to_nat DIRSIZ) 0).

(** The name a file gets: without user/ and a leading underscore. *)
Definition is_slash (c : Z) : bool := c =? 47.
Definition user_dir : list Z := [117; 115; 101; 114; 47].
Definition shortname (path : list Z) : option (list Z) :=
  let name := if bool_decide (take 5 path = user_dir) then drop 5 path else path in
  if existsb is_slash name then None
  else
    let name := match name with 95 :: name => name | name => name end in
    if Z.of_nat (length name) <=? DIRSIZ then Some name else None.

(** while((cc = read(fd, buf, sizeof(buf))) > 0) iappend(inum, buf, cc); *)
Fixpoint append_all (inum : Z) (pieces : list (list Z)) : M image unit :=
  match pieces with
  | [] => ret tt
  | p :: pieces => iappend inum p ;;; append_all inum pieces
  end.

Definition add_file (rootino : Z) (f : list Z * list (list Z)) : M image unit :=
  match shortname f.1 with
  | None => panic "assert"
  | Some name =>
      do inum <- ialloc T_FILE;
      iappend rootino (dirent inum name) ;;;
      append_all inum f.2
  end.

Fixpoint add_files (rootino : Z) (files : list (list Z * list (list Z))) : M image unit :=
  match files with
  | [] => ret tt
  | f :: files => add_file rootino f ;;; add_files rootino files
  end.

Definition mkfs (files : list (list Z * list (list Z))) : M image unit :=
  for_loop (Z.to_nat FSSIZE) 0 (λ i, wsect i (replicate 1024 0)) ;;;
  wsect 1 (splice (replicate 1024 0) 0 (sb_bytes mk_sb)) ;;;
  do rootino <- ialloc T_DIR;
  if negb (rootino =? ROOTINO) then panic "assert"
  else
    iappend rootino (dirent rootino [46]) ;;;
    iappend rootino (dirent rootino [46; 46]) ;;;
    add_files rootino files ;;;
    (* fix size of root inode dir *)
    do din <- rinode rootino;
    winode rootino (set_size (u32 ((d_size din / BSIZE + 1) * BSIZE)) din) ;;;
    do used <- gets freeblock;
    balloc used.

(** [freeblock] starts at [nmeta], [freeinode] at 1; no sector of the new file
    is read before it is written. *)
Definition mkfs_start : image := mkImage (λ _, replicate 1024 0) 1 nmeta.
