(* ===== verification/MkfsSpec.v ===== *)
(** * MkfsSpec: the image mkfs builds is the file system it was asked for

    The image as FsFile.v and FsDir.v see a disk: the files have the contents
    of the host files, the root directory finds them by name, no block is used
    twice, and the bitmap marks the blocks in use. *)
From stdpp Require Import functions.
From S2P Require Import Prelude Riscv CString Bio Log LogSpec LogCrash UserMem Fs FsAlloc FsInode FsFile FsRW FsDir Mkfs.

Ltac consts :=
  change FSSIZE with 2000 in *; change BSIZE with 1024 in *; change MAXFILE with 268 in *; change NDIRECT with 12 in *;
  change IND with 268 in *; change (Z.to_nat 12) with 12%nat in *.

(** ** One file *)

(** The file [d] has [nb] blocks, which hold the bytes [l] and then zeroes. *)
Record rep (V : Z → list Z) (d : dinode) (l : list Z) (nb : Z) : Prop := {
  rp_addrs : length (d_addrs d) = 13%nat ∧ Forall (λ a, 0 ≤ a < 2 ^ 32) (d_addrs d);
  rp_nb : 0 ≤ nb ≤ 268 ∧ Z.of_nat (length l) ≤ 1024 * nb;
  rp_blk : ∀ k, 0 ≤ k < 268 → blk V d k ≠ 0 ↔ k < nb;
  rp_ind : blk V d IND ≠ 0 ↔ 12 < nb;
  rp_byte : ∀ j, 0 ≤ j < 1024 * nb → fbyte V d j = nth (Z.to_nat j) l 0;
}.

Lemma rep_frame V V' d l nb : rep V d l nb → (∀ k, slot_ok k → blk V d k ≠ 0 → V' (blk V d k) = V (blk V d k)) →
  rep V' d l nb ∧ ∀ k, blk V' d k = blk V d k.
Proof.
  intros [H1 H2 H3 H4 H5] Hf. assert (Hb : ∀ k, blk V' d k = blk V d k).
  { intros k. apply blk_ext; [done|]. apply Hf. unfold slot_ok, IND. lia. }
  split; [|done]. split; try done.
  - intros k. rewrite Hb. apply H3.
  - intros j Hj. rewrite <- H5 by done. unfold fbyte. rewrite Hb. rewrite Hf; [done| |].
    + consts. unfold slot_ok, IND. zdm.
    + apply H3; consts; zdm.
Qed.

Lemma rep_nil V d : d_addrs d = replicate 13 0 → rep V d [] 0.
Proof.
  intros Ha. assert (Hb : ∀ k, blk V d k = 0).
  { intros k. unfold blk. rewrite Ha. assert (Hn : ∀ i, nth i (replicate 13 0) 0 = 0) by (intros i; do 13 (destruct i as [|i]; [done|]); by destruct i).
    rewrite !Hn. repeat case_match; done. }
  split.
  - rewrite Ha. split; [done|]. repeat (constructor; [lia|]). constructor.
  - simpl. lia.
  - intros k Hk. rewrite Hb. lia.
  - rewrite Hb. lia.
  - intros j Hj. lia.
Qed.

(** The number of blocks of [n] bytes, and with the indirect block. *)
Definition nblk (n : Z) : Z := (n + 1023) / 1024.
Definition cost (nb : Z) : Z := nb + if 12 <? nb then 1 else 0.

(** The file gets a block for its part [fbn]: new blocks come from [fb] on, and
    only the indirect block is written. *)
Record grown (V : Z → list Z) (d : dinode) (fb : Z) (l : list Z) (nb fbn : Z) (V' : Z → list Z) (d' : dinode) (fb' x : Z) : Prop := {
  gw_rep : rep V' d' l (fbn + 1);
  gw_new : ∀ k, slot_ok k → blk V' d' k = blk V d k ∨ blk V d k = 0 ∧ fb ≤ blk V' d' k < fb';
  gw_inj : ∀ k k', slot_ok k → slot_ok k' → fb ≤ blk V' d' k → blk V' d' k = blk V' d' k' → k = k';
  gw_view : ∀ b, b = 0 ∨ b ≠ blk V' d' IND → V' b = V b;
  gw_x : blk V' d' fbn = x;
  gw_fb : fb' = fb + cost (fbn + 1) - cost nb;
  gw_rest : d_type d' = d_type d ∧ d_major d' = d_major d ∧ d_minor d' = d_minor d ∧ d_nlink d' = d_nlink d ∧ d_size d' = d_size d;
  gw_len : (∀ b, length (V b) = 1024%nat) → ∀ b, length (V' b) = 1024%nat;
}.

Lemma nth_zeros i : nth i zeros 0 = 0.
Proof. unfold zeros. rewrite nth_lookup. destruct (replicate 1024 0 !! i) eqn:E; [|done]. by apply lookup_replicate in E as [-> _]. Qed.

Lemma fbyte_zero V d k : V (blk V d k) = zeros → ∀ j, j / 1024 = k → fbyte V d j = 0.
Proof.
  intros Hz j <-. unfold fbyte. consts. rewrite Hz. apply nth_zeros.
Qed.

(** One more block, empty. *)
Lemma rep_add V d l nb V' d' x : rep V d l nb → nb < 268 →
  length (d_addrs d') = 13%nat ∧ Forall (λ a, 0 ≤ a < 2 ^ 32) (d_addrs d') →
  (∀ k, 0 ≤ k < 268 → blk V' d' k = if decide (k = nb) then x else blk V d k) → (blk V' d' IND ≠ 0 ↔ 12 < nb + 1) →
  x ≠ 0 → V' x = zeros → (∀ k, 0 ≤ k < nb → V' (blk V d k) = V (blk V d k)) → rep V' d' l (nb + 1).
Proof.
  intros [H1 H2 H3 H4 H5] Hnb Ha Hb Hi Hx Hz Hf. split; [done|lia| |done|].
  - intros k Hk. rewrite Hb by done. case_decide; [lia|]. rewrite H3 by done. lia.
  - intros j Hj. destruct (decide (j / 1024 = nb)) as [He|He].
    + rewrite (fbyte_zero _ _ nb); [|rewrite Hb, decide_True by (done || lia); done|done].
      rewrite nth_overflow; [done|]. zdm.
    + assert (Hk : 0 ≤ j / 1024 < nb) by zdm. rewrite <- H5 by zdm. unfold fbyte. consts.
      rewrite Hb, decide_False by (done || lia). by rewrite Hf.
Qed.

Section Grown.
Context (V : Z → list Z) (d : dinode) (fb : Z) (l : list Z) (nb : Z).
Hypothesis Hrep : rep V d l nb.
Hypothesis Hrange : ∀ k, slot_ok k → blk V d k ≠ 0 → 46 ≤ blk V d k < fb.
Hypothesis Hzero : ∀ b, fb ≤ b < 2000 → V b = zeros.
Hypothesis Hlow : 46 ≤ fb.
Hypothesis Hinj : ∀ k k', slot_ok k → slot_ok k' → blk V d k ≠ 0 → blk V d k = blk V d k' → k = k'.

Lemma old_below k : slot_ok k → blk V d k < fb.
Proof. intros Hk. destruct (decide (blk V d k = 0)) as [->|Hne]; [lia|]. by apply Hrange. Qed.

Lemma grown_none fbn : nb = fbn + 1 → grown V d fb l nb fbn V d fb (blk V d fbn).
Proof.
  intros ->. split; try done; [by left| |lia]. intros k k' Hk _ Hge. pose proof (old_below k Hk). lia.
Qed.

Lemma addrs_set j v : (j < 13)%nat → 0 ≤ v < 2 ^ 32 →
  length (d_addrs (set_addr j v d)) = 13%nat ∧ Forall (λ a, 0 ≤ a < 2 ^ 32) (d_addrs (set_addr j v d)).
Proof.
  intros Hj Hv. destruct (rp_addrs _ _ _ _ Hrep) as [Ha Hf]. cbn [set_addr d_addrs]. rewrite length_insert. split; [done|].
  by apply Forall_insert.
Qed.

Lemma cost_step : cost (nb + 1) - cost nb = if decide (nb = 12) then 2 else 1.
Proof. unfold cost. repeat case_test; case_decide; lia. Qed.

(** Exactly the slots where the map has changed. *)
Lemma grown_slot V' d' x : rep V' d' l (nb + 1) → nb ≠ 12 → 0 ≤ nb < 268 →
  (∀ k, slot_ok k → blk V' d' k = if decide (k = nb) then fb else blk V d k) →
  (∀ b, b = 0 ∨ b ≠ blk V' d' IND → V' b = V b) → x = fb →
  d_type d' = d_type d ∧ d_major d' = d_major d ∧ d_minor d' = d_minor d ∧ d_nlink d' = d_nlink d ∧ d_size d' = d_size d →
  ((∀ b, length (V b) = 1024%nat) → ∀ b, length (V' b) = 1024%nat) →
  grown V d fb l nb nb V' d' (fb + 1) x.
Proof.
  intros Hr H12 Hnb Hb Hv -> Hd Hl. pose proof cost_step as Hc. rewrite decide_False in Hc by done.
  assert (Hz : blk V d nb = 0).
  { destruct (decide (blk V d nb = 0)) as [|Hne]; [done|]. apply (rp_blk _ _ _ _ Hrep) in Hne; lia. }
  split; try done; [| | |lia].
  - intros k Hk. rewrite Hb by done. case_decide as Hk'; [right; subst k; split; [done|lia]|by left].
  - intros k k' Hk Hk' Hge He. rewrite Hb in Hge by done. rewrite !Hb in He by done. pose proof (old_below k Hk). pose proof (old_below k' Hk').
    repeat case_decide; lia.
  - rewrite Hb by (unfold slot_ok, IND; lia). by rewrite decide_True.
Qed.

Lemma grown_direct : nb < 12 → fb < 2000 → grown V d fb l nb nb V (set_addr (Z.to_nat nb) fb d) (fb + 1) fb.
Proof.
  intros H12 Hfb. destruct (rp_nb _ _ _ _ Hrep) as [Hnb _]. pose proof (rp_addrs _ _ _ _ Hrep) as [Ha _].
  assert (Hb : ∀ k, slot_ok k → blk V (set_addr (Z.to_nat nb) fb d) k = if decide (k = nb) then fb else blk V d k).
  { intros k Hk. rewrite blk_set_addr by (done || lia). by rewrite Z2Nat.id by lia. }
  apply grown_slot; try done; try lia. apply (rep_add V d l nb V (set_addr (Z.to_nat nb) fb d) fb); try done; try lia.
  - apply addrs_set; lia.
  - intros k Hk. apply Hb. unfold slot_ok, IND. lia.
  - rewrite Hb, decide_False by (unfold slot_ok, IND; lia). rewrite (rp_ind _ _ _ _ Hrep). lia.
  - apply Hzero. lia.
Qed.

Lemma grown_entry : 12 < nb < 268 → fb < 2000 → (∀ b, length (V b) = 1024%nat) →
  grown V d fb l nb nb (<[blk V d IND := st32 (Z.to_nat (4 * (nb - 12))) fb (V (blk V d IND))]> V) d (fb + 1) fb.
Proof.
  intros H12 Hfb Hlen. set (ind := blk V d IND). set (V' := <[ind := _]> V).
  assert (Hi : ind ≠ 0) by (apply (rp_ind _ _ _ _ Hrep); lia).
  assert (Hir : 46 ≤ ind < fb) by (apply Hrange; [unfold slot_ok, IND; lia|done]).
  assert (Hb : ∀ k, slot_ok k → blk V' d k = if decide (k = nb) then fb else blk V d k).
  { intros k Hk. apply (blk_set_entry V V' d fb k nb); try done; [unfold IND; lia|lia|]. unfold V'. by rewrite fn_lookup_insert. }
  assert (Hi' : blk V' d IND = ind) by (rewrite Hb, decide_False by (unfold slot_ok, IND; lia); done).
  assert (Hv : ∀ b, b ≠ ind → V' b = V b) by (intros b Hne; unfold V'; by rewrite fn_lookup_insert_ne).
  apply grown_slot; try done; try lia.
  - apply (rep_add V d l nb V' d fb); try done; try lia; [apply Hrep| | |].
    + intros k Hk. apply Hb. unfold slot_ok, IND. lia.
    + rewrite Hv by lia. apply Hzero. lia.
    + intros k Hk. apply Hv. intros He. assert (k = IND); [|unfold IND in *; lia].
      apply Hinj; [unfold slot_ok, IND; lia|unfold slot_ok, IND; lia| |done]. rewrite He. done.
  - intros b Hne. apply Hv. intros ->. by destruct Hne as [?|Hne]; [|apply Hne; rewrite Hi'].
  - intros _ b. unfold V'. destruct (decide (ind = b)) as [<-|Hne]; [rewrite fn_lookup_insert|by rewrite fn_lookup_insert_ne].
    rewrite length_st32; [done|]. rewrite Hlen. lia.
Qed.

Lemma grown_indirect : nb = 12 → fb + 1 < 2000 → (∀ b, length (V b) = 1024%nat) →
  grown V d fb l nb nb (<[fb := st32 0 (fb + 1) (V fb)]> V) (set_addr 12 fb d) (fb + 2) (fb + 1).
Proof.
  intros H12 Hfb Hlen. set (V' := <[fb := _]> V). set (d' := set_addr 12 fb d). pose proof (rp_addrs _ _ _ _ Hrep) as [Ha _].
  assert (Hi0 : blk V d IND = 0) by (destruct (decide (blk V d IND = 0)) as [|Hne]; [done|]; apply (rp_ind _ _ _ _ Hrep) in Hne; lia).
  assert (Hz0 : blk V d 12 = 0) by (destruct (decide (blk V d 12 = 0)) as [|Hne]; [done|]; apply (rp_blk _ _ _ _ Hrep) in Hne; lia).
  assert (Hzf : V fb = zeros) by (apply Hzero; lia).
  assert (Hb1 : ∀ k, slot_ok k → blk V d' k = if decide (k = IND) then fb else blk V d k) by (intros k Hk; by apply blk_set_ind).
  assert (Hb : ∀ k, slot_ok k → blk V' d' k = if decide (k = 12) then fb + 1 else if decide (k = IND) then fb else blk V d k).
  { intros k Hk. rewrite <- Hb1 by done. assert (Hi1 : blk V d' IND = fb) by (rewrite Hb1, decide_True by (unfold slot_ok, IND; done || lia); done).
    apply (blk_set_entry V V' d' (fb + 1) k 12); rewrite ?Hi1; try done; try (unfold IND; lia). unfold V'. by rewrite fn_lookup_insert. }
  assert (Hi' : blk V' d' IND = fb) by (rewrite Hb by (unfold slot_ok, IND; lia); done).
  assert (Hv : ∀ b, b ≠ fb → V' b = V b) by (intros b Hne; unfold V'; by rewrite fn_lookup_insert_ne).
  pose proof cost_step as Hc. rewrite decide_True in Hc by done.
  split; try done; [| | | | |lia|].
  - apply (rep_add V d l nb V' d' (fb + 1)); try done; try lia; [apply addrs_set; lia| | |].
    + intros k Hk. rewrite Hb by (unfold slot_ok, IND; lia). subst nb. case_decide; [done|]. rewrite decide_False; [done|unfold IND; lia].
    + rewrite Hv by lia. apply Hzero. lia.
    + intros k Hk. apply Hv. pose proof (old_below k ltac:(unfold slot_ok, IND; lia)). lia.
  - intros k Hk. rewrite Hb by done. repeat case_decide; [right; subst k|right; subst k|by left]; split; try done; lia.
  - intros k k' Hk Hk' Hge He. rewrite Hb in Hge by done. rewrite !Hb in He by done. pose proof (old_below k Hk). pose proof (old_below k' Hk').
    repeat case_decide; lia.
  - intros b Hne. apply Hv. intros ->. destruct Hne as [?|Hne]; [lia|by apply Hne; rewrite Hi'].
  - rewrite H12, Hb by (unfold slot_ok, IND; lia). done.
  - intros _ b. unfold V'. destruct (decide (fb = b)) as [<-|Hne]; [rewrite fn_lookup_insert|by rewrite fn_lookup_insert_ne].
    rewrite length_st32; [done|]. rewrite Hlen. lia.
Qed.
End Grown.

Lemma wp_next_block V0 fi fb0 (Q : Z → image → Prop) : 0 ≤ fb0 < 2000 →
  Q fb0 (mkImage V0 fi (fb0 + 1)) → wp next_block Q (mkImage V0 fi fb0).
Proof. intros Hf HQ. unfold next_block, wp, bind, gets, modify, ret. cbn [sect freeinode freeblock]. by rewrite u32_id by lia. Qed.

Lemma wp_rsect b V0 fi fb0 (Q : list Z → image → Prop) : b < 2000 → Q (V0 b) (mkImage V0 fi fb0) → wp (rsect b) Q (mkImage V0 fi fb0).
Proof. intros Hb HQ. unfold rsect. consts. rewrite (proj2 (Z.ltb_lt _ _) Hb). exact HQ. Qed.

Lemma file_block_spec V d fb l nb fi fbn (Q : dinode * Z → image → Prop) :
  rep V d l nb → (∀ k, slot_ok k → blk V d k ≠ 0 → 46 ≤ blk V d k < fb) → (∀ b, fb ≤ b < 2000 → V b = zeros) → 46 ≤ fb →
  (∀ k k', slot_ok k → slot_ok k' → blk V d k ≠ 0 → blk V d k = blk V d k' → k = k') →
  (∀ b, length (V b) = 1024%nat) → nb = fbn ∨ nb = fbn + 1 → 0 ≤ fbn < 268 → fb + cost (fbn + 1) - cost nb ≤ 2000 →
  (∀ V' d' fb' x, grown V d fb l nb fbn V' d' fb' x → Q (d', x) (mkImage V' fi fb')) →
  wp (file_block d fbn) Q (mkImage V fi fb).
Proof.
  intros Hrep Hrange Hzero Hlow Hinj Hlen Hcase Hfbn Hfit HQ. unfold file_block. consts. pose proof (cost_step nb) as Hc.
  assert (Hbn : blk V d fbn ≠ 0 ↔ fbn < nb) by (apply (rp_blk _ _ _ _ Hrep); lia).
  destruct (Z.ltb_spec fbn 12) as [H12|H12].
  - assert (Hba : nth (Z.to_nat fbn) (d_addrs d) 0 = blk V d fbn) by (unfold blk; by rewrite (proj2 (Z.ltb_lt _ _) H12)). rewrite Hba.
    destruct Hcase as [->| ->].
    + rewrite (proj2 (Z.eqb_eq (blk V d fbn) 0)) by (destruct (decide (blk V d fbn = 0)); [done|]; lia). rewrite decide_False in Hc by lia.
      apply wp_step, wp_next_block; [lia|]. apply wp_ret, HQ, grown_direct; (done || lia).
    + rewrite (proj2 (Z.eqb_neq (blk V d fbn) 0)) by (apply Hbn; lia). apply wp_ret, HQ. by apply grown_none.
  - change (nth 12 (d_addrs d) 0) with (blk V d IND). pose proof (rp_ind _ _ _ _ Hrep) as Hind.
    destruct (decide (nb = 12)) as [He|Hne].
    + assert (nb = fbn) as -> by lia. rewrite (proj2 (Z.eqb_eq (blk V d IND) 0)) by (destruct (decide (blk V d IND = 0)); [done|]; lia).
      apply wp_step. apply wp_step, wp_next_block; [lia|]. apply wp_ret. cbv beta iota.
      apply wp_step, wp_rsect; [lia|]. subst fbn. change (Z.to_nat (4 * (12 - 12))) with 0%nat.
      rewrite (Hzero fb) by lia. change (ld32 0 zeros =? 0) with true. cbv iota.
      apply wp_step, wp_next_block; [lia|]. apply wp_step. eapply wp_intro; [done|]. apply wp_ret. cbn [sect freeinode freeblock].
      rewrite <- (Hzero fb) by lia. replace (fb + 1 + 1) with (fb + 2) by lia. apply HQ, grown_indirect; (done || lia).
    + assert (Hi : blk V d IND ≠ 0) by (apply Hind; lia). rewrite (proj2 (Z.eqb_neq (blk V d IND) 0) Hi).
      pose proof (Hrange IND ltac:(unfold slot_ok, IND; lia) Hi) as Hir. apply wp_step, wp_ret. cbv beta iota.
      assert (Hld : ld32 (Z.to_nat (4 * (fbn - 12))) (V (blk V d IND)) = blk V d fbn).
      { unfold blk at 2. rewrite (proj2 (Z.ltb_ge _ _) H12). change (nth 12 (d_addrs d) 0) with (blk V d IND).
        rewrite (proj2 (Z.eqb_neq (blk V d IND) 0) Hi). by rewrite (proj2 (Z.eqb_neq fbn IND)) by (unfold IND; lia). }
      apply wp_step, wp_rsect; [destruct Hcase as [->| ->]; lia|]. cbv zeta. rewrite Hld. destruct Hcase as [->| ->].
      * rewrite (proj2 (Z.eqb_eq (blk V d fbn) 0)) by (destruct (decide (blk V d fbn = 0)); [done|]; lia).
        apply wp_step, wp_next_block; [lia|]. apply wp_step. eapply wp_intro; [done|]. apply wp_ret. cbn [sect freeinode freeblock].
        apply HQ, grown_entry; (done || lia).
      * rewrite (proj2 (Z.eqb_neq (blk V d fbn) 0)) by (apply Hbn; lia). apply wp_ret, HQ. by apply grown_none.
Qed.

(** The bytes [p] follow the bytes of the file in its last block. *)
Lemma rep_write V d l p : let off := Z.of_nat (length l) in let x := blk V d (off / 1024) in
  rep V d l (off / 1024 + 1) → off mod 1024 + Z.of_nat (length p) ≤ 1024 → length (V x) = 1024%nat →
  (∀ k, slot_ok k → k ≠ off / 1024 → blk V d k ≠ x) →
  let V' := <[x := splice (V x) (Z.to_nat (off mod 1024)) p]> V in
  rep V' d (l ++ p) (off / 1024 + 1) ∧ ∀ k, blk V' d k = blk V d k.
Proof.
  intros off x Hr Hp Hlen Hne V'. pose proof Hr as [H1 H2 H3 H4 H5]. assert (Hoff : Z.of_nat (length l) = off) by done.
  assert (Hx : slot_ok (off / 1024)) by (unfold slot_ok, IND; zdm).
  assert (Hb : ∀ k, blk V' d k = blk V d k).
  { intros k. apply blk_ext; [done|]. intros _. unfold V'. rewrite fn_lookup_insert_ne; [done|]. intros He.
    apply (Hne IND); [unfold slot_ok, IND; lia|unfold IND; lia|done]. }
  split; [|done]. split; try done.
  - rewrite length_app. split; [lia|zdm].
  - intros k. rewrite Hb. apply H3.
  - intros j Hj. transitivity (if decide (off ≤ j < off + Z.of_nat (length p)) then nth (Z.to_nat (j - off)) p 0 else nth (Z.to_nat j) l 0).
    + rewrite <- H5 by done. unfold fbyte. consts. rewrite Hb. unfold V'.
      destruct (decide (j / 1024 = off / 1024)) as [He|He].
      * rewrite He. fold x. rewrite fn_lookup_insert, !nth_lookup. case_decide.
        -- rewrite lookup_splice_new by (rewrite ?Hlen; zdm). do 2 f_equal. zdm.
        -- rewrite lookup_splice_old by (rewrite ?Hlen; zdm). done.
      * rewrite fn_lookup_insert_ne by (intros Hx'; apply (Hne (j / 1024)); [unfold slot_ok, IND; zdm|done|done]).
        rewrite decide_False by zdm. done.
    + rewrite !nth_lookup. case_decide.
      * rewrite (lookup_app_r l p) by lia. do 2 f_equal. lia.
      * destruct (decide (j < off)); [by rewrite lookup_app_l by lia|].
        rewrite !lookup_ge_None_2 by (rewrite ?length_app; lia). done.
Qed.

(** ** All the files *)

Notation size_of l := (Z.of_nat (length l)).
Fixpoint costs (cs : list (list Z)) : Z := match cs with [] => 0 | l :: cs => cost (nblk (size_of l)) + costs cs end.

Lemma costs_insert cs i l l' : cs !! i = Some l → costs (<[i := l']> cs) = costs cs - cost (nblk (size_of l)) + cost (nblk (size_of l')).
Proof. revert i. induction cs as [|c cs IH]; intros [|i] Hi; simpl in *; simplify_eq; [lia|]. rewrite (IH i) by done. lia. Qed.

Lemma cost_mono a b : a ≤ b → cost (nblk a) ≤ cost (nblk b).
Proof. intros Hab. assert (nblk a ≤ nblk b) by (unfold nblk; zdm). unfold cost. repeat case_test; lia. Qed.

(** The files [cs], with the inodes [D], below the block [fb]. *)
Record inv (V : Z → list Z) (fb : Z) (D : nat → dinode) (cs : list (list Z)) : Prop := {
  iv_len : ∀ b, length (V b) = 1024%nat;
  iv_zero : ∀ b, fb ≤ b < 2000 → V b = zeros;
  iv_fb : fb = 46 + costs cs;
  iv_rep : ∀ i l, cs !! i = Some l → rep V (D i) l (nblk (size_of l));
  iv_range : ∀ i k, (i < length cs)%nat → slot_ok k → blk V (D i) k ≠ 0 → 46 ≤ blk V (D i) k < fb;
  iv_inj : ∀ i j k k', (i < length cs)%nat → (j < length cs)%nat → slot_ok k → slot_ok k' →
    blk V (D i) k ≠ 0 → blk V (D i) k = blk V (D j) k' → i = j ∧ k = k';
}.

Lemma costs_nonneg cs : 0 ≤ costs cs.
Proof. induction cs as [|l cs IH]; simpl; [lia|]. unfold cost, nblk. case_test; zdm. Qed.

Section Step.
Context (V : Z → list Z) (fb : Z) (D : nat → dinode) (cs : list (list Z)) (i : nat) (l p : list Z).
Hypothesis Hinv : inv V fb D cs.
Hypothesis Hi : cs !! i = Some l.
Notation off := (size_of l).
Notation fbn := (off / 1024).
Context (V1 : Z → list Z) (d1 : dinode) (fb1 x : Z).
Hypothesis Hg : grown V (D i) fb l (nblk off) fbn V1 d1 fb1 x.
Hypothesis Hp : 0 < size_of p ∧ off mod 1024 + size_of p ≤ 1024.
Hypothesis Hfbn : fbn < 268.
Notation V2 := (<[x := splice (V1 x) (Z.to_nat (off mod 1024)) p]> V1).

Lemma step_slot : slot_ok fbn.
Proof. unfold slot_ok, IND. zdm. Qed.

Lemma step_i : (i < length cs)%nat.
Proof. by apply lookup_lt_Some in Hi. Qed.

Lemma step_nblk : nblk (size_of (l ++ p)) = fbn + 1.
Proof. unfold nblk. rewrite length_app. destruct Hp. zdm. Qed.

(** A slot of the file that grows: as it was, or new. *)
Lemma step_old k : slot_ok k → blk V1 d1 k ≠ 0 → blk V1 d1 k = blk V (D i) k ∧ blk V1 d1 k < fb ∨ fb ≤ blk V1 d1 k < fb1.
Proof.
  intros Hk Hne. destruct (gw_new _ _ _ _ _ _ _ _ _ _ Hg k Hk) as [He|[_ Hr]]; [|by right].
  left. split; [done|]. rewrite He in *. pose proof step_i. by apply (iv_range _ _ _ _ Hinv i k).
Qed.

Lemma step_inj k k' : slot_ok k → slot_ok k' → blk V1 d1 k ≠ 0 → blk V1 d1 k = blk V1 d1 k' → k = k'.
Proof.
  intros Hk Hk' Hne He. destruct (step_old k Hk Hne) as [[H1 H2]|H1]; [|by apply (gw_inj _ _ _ _ _ _ _ _ _ _ Hg); try done; lia].
  destruct (step_old k' Hk') as [[H3 H4]|H3]; [by rewrite <- He| |lia]. pose proof step_i.
  apply (iv_inj _ _ _ _ Hinv i i k k'); try done; congruence.
Qed.

Lemma step_apart j k k' : (j < length cs)%nat → j ≠ i → slot_ok k → slot_ok k' → blk V (D j) k ≠ 0 → blk V (D j) k ≠ blk V1 d1 k'.
Proof.
  intros Hj Hji Hk Hk' Hne He. pose proof step_i. destruct (step_old k' Hk') as [[H1 H2]|H1]; [by rewrite <- He| |].
  - rewrite H1 in He. destruct (iv_inj _ _ _ _ Hinv j i k k'); done.
  - pose proof (iv_range _ _ _ _ Hinv j k Hj Hk Hne). lia.
Qed.

Lemma step_x : x = blk V1 d1 fbn ∧ x ≠ 0.
Proof.
  pose proof (gw_x _ _ _ _ _ _ _ _ _ _ Hg) as Hx. split; [done|]. rewrite <- Hx. apply (rp_blk _ _ _ _ (gw_rep _ _ _ _ _ _ _ _ _ _ Hg)); [zdm|lia].
Qed.

Lemma step_len b : length (V1 b) = 1024%nat.
Proof. apply (gw_len _ _ _ _ _ _ _ _ _ _ Hg), Hinv. Qed.

Lemma step_rep : rep V2 d1 (l ++ p) (fbn + 1) ∧ ∀ k, blk V2 d1 k = blk V1 d1 k.
Proof.
  destruct step_x as [Hx Hx0]. rewrite Hx. apply rep_write; [apply Hg|lia|apply step_len|].
  intros k Hk Hne He. apply Hne. apply step_inj; try done; [apply step_slot|]. rewrite He, <- Hx. done.
Qed.

(** The other files keep their blocks. *)
Lemma step_frame j k : (j < length cs)%nat → j ≠ i → slot_ok k → blk V (D j) k ≠ 0 → V2 (blk V (D j) k) = V (blk V (D j) k).
Proof.
  intros Hj Hji Hk Hne. destruct step_x as [Hx _]. rewrite fn_lookup_insert_ne.
  - apply (gw_view _ _ _ _ _ _ _ _ _ _ Hg). right. by apply step_apart.
  - rewrite Hx. intros He. symmetry in He. revert He. apply step_apart; try done. apply step_slot.
Qed.

Lemma step_ge k : slot_ok k → blk V1 d1 k ≠ 0 → 46 ≤ blk V1 d1 k < fb1.
Proof.
  intros Hk Hne. pose proof (costs_nonneg cs). pose proof (iv_fb _ _ _ _ Hinv). pose proof step_i as Hil.
  pose proof (gw_fb _ _ _ _ _ _ _ _ _ _ Hg) as Hfb. assert (cost (nblk off) ≤ cost (fbn + 1)).
  { rewrite <- step_nblk. apply cost_mono. rewrite length_app. lia. }
  destruct (step_old k Hk Hne) as [[H3 H4]|H3]; [|lia]. rewrite H3 in Hne. pose proof (iv_range _ _ _ _ Hinv i k Hil Hk Hne). lia.
Qed.

Lemma step_xr : 46 ≤ x < fb1.
Proof. destruct step_x as [Hx Hx0]. rewrite Hx. apply step_ge; [apply step_slot|by rewrite <- Hx]. Qed.

Lemma step_low b : b < 46 → V2 b = V b.
Proof.
  intros Hb. destruct step_x as [Hx Hx0]. assert (Hs : slot_ok IND) by done. rewrite fn_lookup_insert_ne.
  - apply (gw_view _ _ _ _ _ _ _ _ _ _ Hg). destruct (decide (blk V1 d1 IND = 0)) as [->|Hne]; [lia|].
    pose proof (step_ge IND Hs Hne). lia.
  - pose proof (step_ge fbn step_slot). lia.
Qed.

Lemma inv_step : inv V2 fb1 (<[i := d1]> D) (<[i := l ++ p]> cs).
Proof.
  pose proof step_i as Hil. destruct step_rep as [Hr Hb]. destruct step_x as [Hx Hx0]. pose proof (gw_fb _ _ _ _ _ _ _ _ _ _ Hg) as Hfb.
  assert (HD : ∀ j, (j < length cs)%nat → ∀ k, slot_ok k → blk V2 (<[i := d1]> D j) k = if decide (i = j) then blk V1 d1 k else blk V (D j) k).
  { intros j Hj k Hk. case_decide as Hij; [subst j; rewrite fn_lookup_insert; apply Hb|]. rewrite fn_lookup_insert_ne by done.
    apply blk_ext; [done|]. intros Hne. by apply step_frame. }
  assert (Hmon : fb ≤ fb1).
  { assert (cost (nblk off) ≤ cost (fbn + 1)); [|lia]. rewrite <- step_nblk. apply cost_mono. rewrite length_app. lia. }
  split; rewrite ?length_insert.
  - intros b. destruct (decide (x = b)) as [<-|Hne]; [rewrite fn_lookup_insert|rewrite fn_lookup_insert_ne by done; apply step_len].
    rewrite length_splice; [apply step_len|]. rewrite step_len. destruct Hp. zdm.
  - intros b Hbr. assert (Hsl : ∀ k, slot_ok k → blk V1 d1 k ≠ 0 → blk V1 d1 k ≠ b) by (intros k Hk Hne; pose proof (step_ge k Hk Hne); lia).
    rewrite fn_lookup_insert_ne by (rewrite Hx; apply Hsl; [apply step_slot|by rewrite <- Hx]).
    rewrite (gw_view _ _ _ _ _ _ _ _ _ _ Hg); [apply Hinv; lia|].
    destruct (decide (blk V1 d1 IND = 0)) as [He|Hne]; [|right; intros He; by apply (Hsl IND)].
    pose proof (costs_nonneg cs). pose proof (iv_fb _ _ _ _ Hinv). lia.
  - rewrite (costs_insert _ _ l) by done. rewrite step_nblk. pose proof (iv_fb _ _ _ _ Hinv). lia.
  - intros j l' Hj. destruct (decide (i = j)) as [<-|Hne].
    + rewrite list_lookup_insert_eq in Hj by done. injection Hj as <-. rewrite fn_lookup_insert, step_nblk. done.
    + rewrite list_lookup_insert_ne in Hj by done. rewrite fn_lookup_insert_ne by done.
      apply (rep_frame V); [by apply Hinv|]. intros k Hk. apply step_frame; [by apply lookup_lt_Some in Hj|done|done].
  - intros j k Hj Hk. rewrite HD by done. case_decide; [by apply step_ge|]. intros Hne. pose proof (iv_range _ _ _ _ Hinv j k Hj Hk Hne). lia.
  - intros j1 j2 k1 k2 Hj1 Hj2 Hk1 Hk2. rewrite !HD by done. destruct (decide (i = j1)) as [<-|N1], (decide (i = j2)) as [<-|N2].
    + intros H1 H2. split; [done|]. by apply step_inj.
    + intros H1 H2. exfalso. apply (step_apart j2 k2 k1); try done. by rewrite <- H2.
    + intros H1 H2. exfalso. by apply (step_apart j1 k1 k2).
    + by apply (iv_inj _ _ _ _ Hinv).
Qed.
End Step.

Lemma inv_ext V fb D D' cs : (∀ j, (j < length cs)%nat → D' j = D j) → inv V fb D cs → inv V fb D' cs.
Proof.
  intros HD [H1 H2 H3 H4 H5 H6]. split; try done.
  - intros j l Hj. rewrite HD by (by apply lookup_lt_Some in Hj). by apply H4.
  - intros j k Hj. rewrite HD by done. by apply H5.
  - intros j1 j2 k1 k2 Hj1 Hj2. rewrite !HD by done. by apply H6.
Qed.

(** Everything in an inode but its blocks. *)
Definition same_rest (d d' : dinode) : Prop :=
  d_type d' = d_type d ∧ d_major d' = d_major d ∧ d_minor d' = d_minor d ∧ d_nlink d' = d_nlink d ∧ d_size d' = d_size d.

Lemma iappend_loop_spec fi i (Q : dinode * Z → image → Prop) D cs0 fuel : ∀ V fb d cs l p,
  inv V fb (<[i := d]> D) cs → cs !! i = Some l → (length p ≤ fuel)%nat → size_of (l ++ p) ≤ 274432 →
  46 + costs (<[i := l ++ p]> cs) ≤ 2000 → <[i := l ++ p]> cs = cs0 →
  (∀ V' fb' d', inv V' fb' (<[i := d']> D) cs0 → same_rest d d' → (∀ b, b < 46 → V' b = V b) →
     Q (d', size_of (l ++ p)) (mkImage V' fi fb')) →
  wp (iappend_loop fuel d (size_of l) p) Q (mkImage V fi fb).
Proof.
  induction fuel as [|fuel IH]; intros V fb d cs l p Hinv Hl Hf Hmax Hfit Hcs HQ; cbn [iappend_loop].
  all: destruct (size_of p <=? 0) eqn:E0; bsimp; [|try lia].
  1, 2: apply wp_ret; assert (p = []) as -> by (destruct p; [done|simpl in E0; lia]); rewrite app_nil_r in *;
    rewrite list_insert_id in Hcs by done; subst cs0; by apply HQ.
  pose proof (lookup_lt_Some _ _ _ Hl) as Hil. pose proof (iv_rep _ _ _ _ Hinv i l Hl) as Hr. rewrite fn_lookup_insert in Hr.
  pose proof (iv_fb _ _ _ _ Hinv) as Hfb. pose proof (costs_nonneg cs) as Hcn. rewrite length_app in Hmax. consts. cbv zeta.
  set (off := size_of l) in *. set (n1 := Z.min (size_of p) ((off / 1024 + 1) * 1024 - off)).
  assert (Hn1 : 0 < n1 ≤ size_of p ∧ off mod 1024 + n1 ≤ 1024) by (unfold n1; zdm).
  assert (Hfbn : 0 ≤ off / 1024 < 268) by zdm.
  set (p1 := take (Z.to_nat n1) p). assert (Hp1 : size_of p1 = n1) by (unfold p1; rewrite length_take; lia).
  assert (Happ : (l ++ p1) ++ drop (Z.to_nat n1) p = l ++ p) by (unfold p1; rewrite <- app_assoc; by rewrite take_drop).
  assert (Hnb : nblk (size_of (l ++ p1)) = off / 1024 + 1) by (unfold nblk; rewrite length_app; zdm).
  rewrite (proj2 (Z.ltb_lt (off / 1024) 268)) by lia. cbn [negb].
  apply wp_step. eapply (file_block_spec V d fb l (nblk off) fi (off / 1024)); try done.
  - intros k Hk Hne. pose proof (iv_range _ _ _ _ Hinv i k Hil Hk) as Hg. rewrite fn_lookup_insert in Hg. by apply Hg.
  - intros b Hb. by apply Hinv.
  - lia.
  - intros k k' Hk Hk' Hne He. pose proof (iv_inj _ _ _ _ Hinv i i k k' Hil Hil Hk Hk') as Hg. rewrite !fn_lookup_insert in Hg. by apply Hg.
  - apply Hinv.
  - unfold nblk. zdm.
  - assert (Hm : cost (nblk (size_of (l ++ p1))) ≤ cost (nblk (size_of (l ++ p)))) by (apply cost_mono; rewrite !length_app; lia).
    rewrite (costs_insert _ _ l) in Hfit by done. fold off in Hfit. rewrite Hnb in Hm. lia.
  - intros V1 d1 fb1 x Hg. cbv beta iota.
    assert (Hg' : grown V (<[i := d]> D i) fb l (nblk (size_of l)) (size_of l / 1024) V1 d1 fb1 x) by (by rewrite fn_lookup_insert).
    assert (Hpp : 0 < size_of p1 ∧ size_of l mod 1024 + size_of p1 ≤ 1024) by (fold off; lia).
    assert (Hf' : size_of l / 1024 < 268) by (fold off; lia).
    pose proof (step_xr _ _ _ _ _ _ _ Hinv Hl _ _ _ _ Hg' Hpp Hf') as Hxr.
    pose proof (inv_step _ _ _ _ _ _ _ Hinv Hl _ _ _ _ Hg' Hpp Hf') as Hinv2.
    pose proof (step_low _ _ _ _ _ _ _ Hinv Hl _ _ _ _ Hg' Hpp Hf') as Hlow.
    assert (Hfit2 : 46 + costs (<[i := (l ++ p1) ++ drop (Z.to_nat n1) p]> (<[i := l ++ p1]> cs)) ≤ 2000)
      by (rewrite Happ, list_insert_insert_eq; done).
    assert (Hfb1 : fb1 ≤ 2000).
    { rewrite (iv_fb _ _ _ _ Hinv2). rewrite (costs_insert _ _ (l ++ p1)) in Hfit2 by (by apply list_lookup_insert_eq).
      pose proof (cost_mono (size_of (l ++ p1)) (size_of ((l ++ p1) ++ drop (Z.to_nat n1) p)) ltac:(rewrite (length_app (l ++ p1)); lia)). lia. }
    apply wp_step, wp_rsect; [lia|]. apply wp_step. eapply wp_intro; [done|]. cbn [sect freeinode freeblock].
    replace (off - off / 1024 * 1024) with (off mod 1024) by zdm. rewrite u32_id by lia.
    replace (off + n1) with (size_of (l ++ p1)) by (rewrite length_app; lia).
    eapply (IH _ fb1 d1 (<[i := l ++ p1]> cs)).
    + eapply inv_ext; [|exact Hinv2]. intros j _. destruct (decide (i = j)) as [<-|Hne]; [by rewrite !fn_lookup_insert|by rewrite !fn_lookup_insert_ne].
    + by apply list_lookup_insert_eq.
    + rewrite length_drop. lia.
    + rewrite Happ, length_app. lia.
    + done.
    + by rewrite Happ, list_insert_insert_eq.
    + intros V' fb' d' Hi' (G1 & G2 & G3 & G4 & G5) Hl'. rewrite Happ. apply HQ; [done| |].
      * destruct (gw_rest _ _ _ _ _ _ _ _ _ _ Hg) as (F1 & F2 & F3 & F4 & F5). split_and!; congruence.
      * intros b Hb. rewrite Hl' by done. by apply Hlow.
Qed.

(** ** The image *)

Lemma mk_geometry : geometry 2 29 mk_sb.
Proof. split; vm_compute; split_and!; done. Qed.

(** Only the addresses of the inodes and the blocks from 46 on matter. *)
Lemma rep_addrs V d d' l nb : d_addrs d' = d_addrs d → rep V d l nb → rep V d' l nb.
Proof.
  intros Ha [H1 H2 H3 H4 H5]. assert (Hb : ∀ k, blk V d' k = blk V d k) by (intros k; by apply blk_ext).
  split; try done.
  - by rewrite Ha.
  - intros k. rewrite Hb. apply H3.
  - by rewrite Hb.
  - intros j Hj. unfold fbyte. rewrite Hb. by apply H5.
Qed.

Lemma inv_change V V' fb D D' cs : inv V fb D cs → (∀ j, (j < length cs)%nat → d_addrs (D' j) = d_addrs (D j)) →
  (∀ b, 46 ≤ b → V' b = V b) → (∀ b, length (V' b) = 1024%nat) → inv V' fb D' cs.
Proof.
  intros [H1 H2 H3 H4 H5 H6] Ha Hv Hl. pose proof (costs_nonneg cs) as Hc.
  assert (Hfr : ∀ j l, cs !! j = Some l → rep V' (D j) l (nblk (size_of l)) ∧ ∀ k, blk V' (D j) k = blk V (D j) k).
  { intros j l Hj. apply rep_frame; [by apply H4|]. intros k Hk Hne. apply Hv. apply H5; try done. by apply lookup_lt_Some in Hj. }
  assert (Hb : ∀ j k, (j < length cs)%nat → blk V' (D' j) k = blk V (D j) k).
  { intros j k Hj. destruct (lookup_lt_is_Some_2 cs j Hj) as [l Hl']. rewrite <- (proj2 (Hfr j l Hl')). apply blk_ext; [by apply Ha|done]. }
  split; try done.
  - intros b Hb'. rewrite Hv by lia. by apply H2.
  - intros j l Hj. eapply rep_addrs; [apply Ha; by apply lookup_lt_Some in Hj|]. by apply Hfr.
  - intros j k Hj. rewrite Hb by done. by apply H5.
  - intros j1 j2 k1 k2 Hj1 Hj2. rewrite !Hb by done. by apply H6.
Qed.

Notation dinum i := (Z.of_nat i + 1).
Notation mdino := (dino mk_sb).

Definition sb_block : list Z := splice zeros 0 (sb_bytes mk_sb).

(** The image with the files [fs], each with its type and its bytes; inode
    [i + 1] is the [i]th.  The bitmap is still empty. *)
Record disk (s : image) (fs : list (Z * list Z)) : Prop := {
  dk_inv : inv (sect s) (freeblock s) (λ i, mdino (sect s) (dinum i)) fs.*2;
  dk_meta : ∀ i ty l, fs !! i = Some (ty, l) →
    let d := mdino (sect s) (dinum i) in dinode_wf d ∧ d = mkDinode ty 0 0 1 (size_of l) (d_addrs d);
  dk_next : freeinode s = Z.of_nat (length fs) + 1 ∧ (length fs ≤ 199)%nat;
  dk_low : ∀ b, 0 ≤ b < 32 → sect s b = if b =? 1 then sb_block else zeros;
  dk_bitmap : sect s 45 = zeros;
}.

Lemma inode_block i : (i < 199)%nat → inum_ok mk_sb (dinum i) ∧ 32 ≤ IBLOCK (dinum i) mk_sb < 45.
Proof.
  intros Hi. assert (Hok : inum_ok mk_sb (dinum i)) by (unfold inum_ok; change (sb_ninodes mk_sb) with 200; lia). split; [done|].
  exact (proj2 (IBLOCK_eq 2 29 mk_sb mk_geometry _ Hok)).
Qed.

Lemma wp_winode inum d V fi fb (Q : unit → image → Prop) : IBLOCK inum mk_sb < 2000 →
  Q tt (mkImage (put_dino mk_sb V inum d) fi fb) → wp (winode inum d) Q (mkImage V fi fb).
Proof. intros Hb HQ. unfold winode. apply wp_step, wp_rsect; [done|]. exact HQ. Qed.

Lemma wp_rinode inum V fi fb (Q : dinode → image → Prop) : IBLOCK inum mk_sb < 2000 →
  Q (mdino V inum) (mkImage V fi fb) → wp (rinode inum) Q (mkImage V fi fb).
Proof. intros Hb HQ. unfold rinode. apply wp_step, wp_rsect; [done|]. exact HQ. Qed.

Lemma length_mput V i d : (i < 199)%nat → (∀ b, length (V b) = 1024%nat) → length (d_addrs d) = 13%nat →
  ∀ b, length (put_dino mk_sb V (dinum i) d b) = 1024%nat.
Proof.
  intros Hi Hl Ha b. unfold put_dino. destruct (decide (IBLOCK (dinum i) mk_sb = b)) as [<-|Hne]; [|by rewrite fn_lookup_insert_ne].
  rewrite fn_lookup_insert, length_splice; [done|]. rewrite Hl, length_dinode_bytes by done. apply dinode_off_bound.
Qed.

Lemma put_far V i d b : (i < 199)%nat → b < 32 ∨ 45 ≤ b → put_dino mk_sb V (dinum i) d b = V b.
Proof. intros Hi Hb. apply put_dino_other. pose proof (inode_block i Hi). lia. Qed.

Lemma dino_mput V i j d : (i < 199)%nat → (j < 199)%nat → (∀ b, length (V b) = 1024%nat) → dinode_wf d →
  mdino (put_dino mk_sb V (dinum i) d) (dinum j) = if decide (i = j) then d else mdino V (dinum j).
Proof.
  intros Hi Hj Hl Hd. rewrite (dino_put 2 29 mk_sb mk_geometry) by (done || by apply inode_block). apply decide_ext. lia.
Qed.

(** A list of files with one more, or one changed. *)
Lemma lookup_snoc_case {A} (l : list A) x i y : (l ++ [x]) !! i = Some y → l !! i = Some y ∧ (i < length l)%nat ∨ i = length l ∧ y = x.
Proof.
  intros H. destruct (decide (i < length l)%nat) as [Hi|Hi]; [left; split; [|done]; by rewrite lookup_app_l in H|right].
  rewrite lookup_app_r in H by lia. destruct (i - length l)%nat eqn:E; simpl in H; [injection H as <-; split; [lia|done]|done].
Qed.

Lemma inv_snoc V fb D cs d : inv V fb D cs → d_addrs d = replicate 13 0 → D (length cs) = d → inv V fb D (cs ++ [[]]).
Proof.
  intros [H1 H2 H3 H4 H5 H6] Ha Hd. pose proof (rep_nil V d Ha) as Hnil.
  assert (Hz : ∀ k, slot_ok k → blk V (D (length cs)) k = 0).
  { intros k Hk. rewrite Hd. destruct (decide (blk V d k = 0)) as [|Hne]; [done|]. destruct (decide (k = IND)) as [->|].
    - apply (rp_ind _ _ _ _ Hnil) in Hne. lia.
    - apply (rp_blk _ _ _ _ Hnil) in Hne; unfold slot_ok, IND in *; lia. }
  split; try done; rewrite ?length_app; cbn [length].
  - rewrite H3. clear. induction cs as [|c cs IH]; [done|]. simpl. lia.
  - intros i l [[Hi _]|[-> ->]]%lookup_snoc_case; [by apply H4|]. rewrite Hd. done.
  - intros i k Hi Hk Hne. destruct (decide (i = length cs)) as [->|]; [by rewrite Hz in Hne|]. apply H5; [lia|done|done].
  - intros i j k k' Hi Hj Hk Hk' Hne He. destruct (decide (i = length cs)) as [->|]; [by rewrite Hz in Hne|].
    destruct (decide (j = length cs)) as [->|]; [by rewrite (Hz k') in He|]. apply H6; try done; lia.
Qed.

Lemma ialloc_spec s fs ty (Q : Z → image → Prop) : disk s fs → (length fs < 199)%nat → - 2 ^ 15 ≤ ty < 2 ^ 15 →
  (∀ s', disk s' (fs ++ [(ty, [])]) → Q (dinum (length fs)) s') → wp (ialloc ty) Q s.
Proof.
  intros [Hi Hm [Hn Hmax] Hlow Hbm] Hlt Hty HQ. destruct s as [V fi fb]. cbn [sect freeinode freeblock] in *.
  unfold ialloc. apply wp_step. eapply wp_intro; [done|]. apply wp_step. eapply wp_intro; [done|]. cbn [sect freeinode freeblock].
  rewrite Hn. rewrite u32_id by lia. pose proof (inode_block _ Hlt) as [Hok Hb]. apply wp_step, wp_winode; [lia|]. apply wp_ret, HQ.
  set (d := mkDinode ty 0 0 1 0 (replicate 13 0)). pose proof (iv_len _ _ _ _ Hi) as Hlen.
  assert (Hwf : dinode_wf d) by (split; cbn; try lia; split; [done|]; repeat (constructor; [lia|]); constructor).
  assert (Hd : ∀ j, (j ≤ length fs)%nat → mdino (put_dino mk_sb V (dinum (length fs)) d) (dinum j) = if decide (length fs = j) then d else mdino V (dinum j))
    by (intros j Hj; apply dino_mput; (done || lia)).
  split; cbn [sect freeinode freeblock].
  - rewrite fmap_app. cbn [fmap list_fmap snd]. apply (inv_snoc _ _ _ _ d); [|done|].
    + eapply inv_change; [exact Hi| | |].
      * intros j Hj. rewrite length_fmap in Hj. rewrite Hd, decide_False by lia. done.
      * intros b Hb'. apply put_far; [done|lia].
      * apply length_mput; try done.
    + cbn beta. rewrite length_fmap, Hd, decide_True by (done || lia). done.
  - intros i ty' l [[Hj Hj']|[-> [= -> ->]]]%lookup_snoc_case.
    + rewrite Hd, decide_False by lia. by apply Hm.
    + rewrite Hd, decide_True by (done || lia). done.
  - rewrite length_app. simpl. lia.
  - intros b Hb'. rewrite put_far by (done || lia). by apply Hlow.
  - rewrite put_far by (done || lia). done.
Qed.

Lemma iappend_spec s fs i ty l p (Q : unit → image → Prop) : disk s fs → fs !! i = Some (ty, l) → size_of (l ++ p) ≤ 274432 →
  46 + costs (<[i := l ++ p]> fs.*2) ≤ 2000 → (∀ s', disk s' (<[i := (ty, l ++ p)]> fs) → Q tt s') → wp (iappend (dinum i) p) Q s.
Proof.
  intros [Hi Hm [Hn Hmax] Hlow Hbm] Hf Hsz Hfit HQ. destruct s as [V fi fb]. cbn [sect freeinode freeblock] in *.
  pose proof (lookup_lt_Some _ _ _ Hf) as Hlt. pose proof (inode_block i ltac:(lia)) as [Hok Hb].
  destruct (Hm i ty l Hf) as [Hwf Hd]. unfold iappend. apply wp_step, wp_rinode; [lia|]. apply wp_step.
  assert (Hl2 : fs.*2 !! i = Some l) by (by rewrite list_lookup_fmap, Hf).
  replace (d_size (mdino V (dinum i))) with (size_of l) by (rewrite Hd; done).
  eapply (iappend_loop_spec fi i _ (λ i, mdino V (dinum i)) _ _ V fb (mdino V (dinum i)) fs.*2 l p); try done.
  { eapply inv_ext; [|exact Hi]. intros j _. destruct (decide (i = j)) as [<-|Hne]; [by rewrite fn_lookup_insert|by rewrite fn_lookup_insert_ne]. }
  intros V1 fb1 d1 Hi1 (G1 & G2 & G3 & G4 & G5) Hlow1. cbv beta iota. apply wp_winode; [lia|]. apply HQ.
  set (d2 := set_size (size_of (l ++ p)) d1). pose proof (iv_len _ _ _ _ Hi1) as Hlen1.
  assert (Hr1 : rep V1 d1 (l ++ p) (nblk (size_of (l ++ p)))).
  { pose proof (iv_rep _ _ _ _ Hi1 i (l ++ p)) as Hr. rewrite fn_lookup_insert in Hr. apply Hr. apply list_lookup_insert_eq. by rewrite length_fmap. }
  destruct (rp_addrs _ _ _ _ Hr1) as [Ha1 Ha2].
  assert (Hd2 : d2 = mkDinode ty 0 0 1 (size_of (l ++ p)) (d_addrs d2)).
  { unfold d2, set_size. cbn [d_type d_major d_minor d_nlink d_addrs]. rewrite G1, G2, G3, G4, Hd. done. }
  assert (Hwf2 : dinode_wf d2).
  { destruct Hwf as [W1 W2 W3 W4 W5 W6]. split; unfold d2, set_size; cbn [d_type d_major d_minor d_nlink d_size d_addrs]; try congruence; try lia. done. }
  assert (Hdj : ∀ j, (j < length fs)%nat → mdino (put_dino mk_sb V1 (dinum i) d2) (dinum j) = if decide (i = j) then d2 else mdino V (dinum j)).
  { intros j Hj. rewrite dino_mput by (done || lia). case_decide; [done|]. unfold dino. rewrite Hlow1; [done|].
    pose proof (inode_block j ltac:(lia)). lia. }
  split; cbn [sect freeinode freeblock]; rewrite ?length_insert, ?list_fmap_insert.
  - eapply inv_change; [exact Hi1| | |].
    + intros j Hj. rewrite length_insert, length_fmap in Hj. rewrite Hdj by done.
      case_decide as Hij; [subst j; by rewrite fn_lookup_insert|by rewrite fn_lookup_insert_ne].
    + intros b Hb'. apply put_far; lia.
    + apply length_mput; (done || lia).
  - intros j ty' l' Hj. assert (Hjl : (j < length fs)%nat) by (apply lookup_lt_Some in Hj; by rewrite length_insert in Hj).
    rewrite Hdj by done. case_decide as Hij.
    + subst j. rewrite list_lookup_insert_eq in Hj by done. by injection Hj as <- <-.
    + rewrite list_lookup_insert_ne in Hj by done. by apply Hm.
  - done.
  - intros b Hb'. rewrite put_far, Hlow1 by lia. by apply Hlow.
  - rewrite put_far, Hlow1 by lia. done.
Qed.

Lemma costs_grow cs i l l' : cs !! i = Some l → size_of l ≤ size_of l' → costs cs ≤ costs (<[i := l']> cs).
Proof. intros Hi Hl. rewrite (costs_insert _ _ l) by done. pose proof (cost_mono _ _ Hl). lia. Qed.

Lemma append_all_spec ps : ∀ s fs i ty l (Q : unit → image → Prop), disk s fs → fs !! i = Some (ty, l) →
  size_of (l ++ mjoin ps) ≤ 274432 → 46 + costs (<[i := l ++ mjoin ps]> fs.*2) ≤ 2000 →
  (∀ s', disk s' (<[i := (ty, l ++ mjoin ps)]> fs) → Q tt s') → wp (append_all (dinum i) ps) Q s.
Proof.
  induction ps as [|p ps IH]; intros s fs i ty l Q Hd Hf Hsz Hfit HQ.
  - apply wp_ret. change (mjoin (@nil (list Z))) with (@nil Z) in *. rewrite app_nil_r in *. apply HQ. by rewrite list_insert_id.
  - change (mjoin (p :: ps)) with (p ++ mjoin ps) in *. rewrite app_assoc in *. cbn [append_all].
    pose proof (lookup_lt_Some _ _ _ Hf) as Hlt. assert (Hl2 : (i < length fs.*2)%nat) by (by rewrite length_fmap).
    apply wp_step. apply (iappend_spec s fs i ty l p); try done.
    + rewrite length_app in Hsz. lia.
    + pose proof (costs_grow (<[i := l ++ p]> fs.*2) i (l ++ p) ((l ++ p) ++ mjoin ps)) as Hg.
      rewrite list_lookup_insert_eq, list_insert_insert_eq in Hg by done. specialize (Hg eq_refl ltac:(rewrite (length_app (l ++ p)); lia)). lia.
    + intros s' Hd'. apply (IH s' (<[i := (ty, l ++ p)]> fs) i ty (l ++ p)); try done.
      * by apply list_lookup_insert_eq.
      * by rewrite list_fmap_insert, list_insert_insert_eq.
      * by rewrite list_insert_insert_eq.
Qed.

(** The entries for the names of the inodes from [k] on. *)
Fixpoint entries (k : Z) (names : list (list Z)) : list Z :=
  match names with [] => [] | name :: names => dirent k name ++ entries (k + 1) names end.

Lemma costs_app cs cs' : costs (cs ++ cs') = costs cs + costs cs'.
Proof. induction cs as [|l cs IH]; simpl; lia. Qed.

Lemma length_dirent inum name : length (dirent inum name) = 16%nat.
Proof.
  unfold dirent. rewrite length_app, length_le_bytes, length_take, length_app, length_replicate. change (Z.to_nat DIRSIZ) with 14%nat. lia.
Qed.

Lemma length_entries k names : size_of (entries k names) = 16 * size_of names.
Proof. revert k. induction names as [|n names IH]; intros k; [done|]. cbn [entries length]. rewrite length_app, length_dirent. specialize (IH (k + 1)). lia. Qed.

Definition hostfile := (list Z * list (list Z))%type.
(** The files as the image holds them. *)
Definition contents (files : list hostfile) : list (Z * list Z) := (λ f : hostfile, (T_FILE, mjoin f.2)) <$> files.

Lemma add_files_spec files : ∀ names s r gs (Q : unit → image → Prop), disk s ((T_DIR, r) :: gs) →
  Forall2 (λ (f : hostfile) n, shortname f.1 = Some n) files names → (length gs + length files ≤ 198)%nat →
  Forall (λ f : hostfile, size_of (mjoin f.2) ≤ 274432) files →
  46 + costs ((r ++ entries (dinum (S (length gs))) names) :: gs.*2 ++ (contents files).*2) ≤ 2000 →
  (∀ s', disk s' ((T_DIR, r ++ entries (dinum (S (length gs))) names) :: gs ++ contents files) → Q tt s') →
  size_of (r ++ entries (dinum (S (length gs))) names) ≤ 274432 →
  wp (add_files ROOTINO files) Q s.
Proof.
  induction files as [|f files IH]; intros names s r gs Q Hd Hn Hlen Hsz Hfit HQ Hroot.
  - apply Forall2_nil_inv_l in Hn as ->. simpl in *. rewrite !app_nil_r in *. by apply wp_ret, HQ.
  - apply Forall2_cons_inv_l in Hn as (n & ns & Hn1 & Hn & ->). apply Forall_cons in Hsz as [Hs1 Hsz]. simpl in Hlen.
    cbn [entries contents fmap list_fmap snd] in Hfit, HQ, Hroot. fold (contents files) in Hfit, HQ. set (e := dirent (dinum (S (length gs))) n) in *.
    cbn [costs] in Hfit. rewrite costs_app in Hfit. cbn [costs] in Hfit. pose proof (costs_nonneg (contents files).*2) as Hc0.
    assert (Hc1 : cost (nblk (size_of (r ++ e))) ≤ cost (nblk (size_of (r ++ e ++ entries (dinum (S (length gs)) + 1) ns))))
      by (apply cost_mono; rewrite !length_app; lia).
    assert (Hc2 : 0 ≤ cost (nblk (size_of (mjoin f.2)))) by (pose proof (costs_nonneg [mjoin f.2]); simpl in *; lia).
    cbn [add_files]. apply wp_step. unfold add_file. rewrite Hn1. apply wp_step.
    apply (ialloc_spec s ((T_DIR, r) :: gs)); [done|simpl; lia|done|]. intros s1 Hd1. cbn [app length] in Hd1 |- *. fold e.
    apply wp_step. change ROOTINO with (dinum 0). apply (iappend_spec s1 ((T_DIR, r) :: gs ++ [(T_FILE, [])]) 0%nat T_DIR r); [exact Hd1|done| | |].
    { rewrite !length_app in Hroot. rewrite length_app. lia. }
    { cbn [fmap list_fmap snd insert list_insert costs]. rewrite fmap_app, costs_app. cbn [fmap list_fmap snd costs length].
      change (cost (nblk (Z.of_nat 0))) with 0. lia. }
    intros s2 Hd2. cbn [insert list_insert] in Hd2.
    assert (Hlk : ((T_DIR, r ++ e) :: gs ++ [(T_FILE, [])]) !! S (length gs) = Some (T_FILE, [])) by (simpl; by apply list_lookup_middle).
    assert (Hins : ∀ (x : Z * list Z) y (l : list (Z * list Z)), <[S (length l) := y]> ((T_DIR, r ++ e) :: l ++ [x]) = (T_DIR, r ++ e) :: l ++ [y])
      
      by (intros x y l; change (<[S (length l) := y]> ((T_DIR, r ++ e) :: l ++ [x])) with ((T_DIR, r ++ e) :: <[length l := y]> (l ++ [x]));
          rewrite insert_app_r_alt by done; by rewrite Nat.sub_diag).
    apply (append_all_spec f.2 s2 ((T_DIR, r ++ e) :: gs ++ [(T_FILE, [])]) (S (length gs)) T_FILE [] _ Hd2 Hlk); [done| |].
    { change ([] ++ mjoin f.2) with (T_FILE, mjoin f.2).2. rewrite <- list_fmap_insert, Hins. cbn [fmap list_fmap snd costs]. rewrite fmap_app, costs_app. simpl. lia. }
    intros s3 Hd3. rewrite Hins in Hd3. cbn [app] in Hd3.
    assert (Hk : dinum (S (length (gs ++ [(T_FILE, mjoin f.2)]))) = dinum (S (length gs)) + 1) by (rewrite length_app; simpl; lia).
    apply (IH ns s3 (r ++ e) (gs ++ [(T_FILE, mjoin f.2)])); try done; rewrite ?Hk, <- ?(app_assoc r).
    + rewrite length_app. simpl. lia.
    + cbn [costs]. rewrite fmap_app, !costs_app. cbn [fmap list_fmap snd costs]. lia.
    + rewrite <- app_assoc. exact HQ.
    + done.
Qed.

(** ** Names *)

Definition name_ok (n : list Z) : Prop := (length n ≤ 14)%nat ∧ Forall (λ c, 0 < c < 256) n.

Lemma cstr_name n name : ∀ pre tl, Forall (λ c, 0 < c < 256) name → (length name ≤ n)%nat → nth 0 tl 0 = 0 →
  cstr n (arr_of (pre ++ name ++ tl)) (size_of pre) = name.
Proof.
  revert name. induction n as [|n IH]; intros [|c name] pre tl Hf Hl Ht; simpl in Hl; try lia; [done| |]; cbn [cstr].
  - assert (Hz : arr_of (pre ++ [] ++ tl) (size_of pre) = 0).
    { unfold arr_of. rewrite Nat2Z.id, app_nth2, Nat.sub_diag by lia. done. }
    by rewrite Hz.
  - apply Forall_cons in Hf as [Hc Hf]. assert (Hz : arr_of (pre ++ (c :: name) ++ tl) (size_of pre) = c).
    { unfold arr_of. rewrite Nat2Z.id, app_nth2, Nat.sub_diag by lia. done. }
    rewrite Hz, (proj2 (Z.eqb_neq c 0)) by lia. f_equal.
    pose proof (IH name (pre ++ [c]) tl Hf ltac:(lia) Ht) as Hi. rewrite <- app_assoc, length_app in Hi. simpl in Hi.
    replace (size_of pre + 1) with (Z.of_nat (length pre + 1)) by lia. exact Hi.
Qed.

Lemma arr_byte l : Forall (λ c, 0 ≤ c < 256) l → ∀ j, 0 ≤ arr_of l j < 256.
Proof.
  intros Hl j. unfold arr_of. rewrite nth_lookup. destruct (l !! Z.to_nat j) as [c|] eqn:E; simpl; [|lia].
  rewrite Forall_forall in Hl. apply Hl. by eapply list_elem_of_lookup_2.
Qed.

Lemma dirent_name inum name : name_ok name → de_name (dirent inum name) = name ++ replicate (14 - length name) 0.
Proof.
  intros [Hl _]. unfold de_name, dirent. rewrite drop_app_ge by (by rewrite length_le_bytes). rewrite length_le_bytes, Nat.sub_diag, drop_0.
  change (Z.to_nat DIRSIZ) with 14%nat. rewrite take_app_ge by done. rewrite take_replicate. do 2 f_equal. lia.
Qed.

Lemma dirent_inum inum name : 0 ≤ inum < 2 ^ 16 → de_inum (dirent inum name) = inum.
Proof.
  intros Hi. unfold de_inum, dirent, ld16, slice. rewrite drop_0, take_app_le by (by rewrite length_le_bytes).
  rewrite take_ge by (by rewrite length_le_bytes). rewrite le_val_le_bytes, u16_id by done. by apply Z.mod_small.
Qed.

Lemma matches_dirent name name' inum : name_ok name → name_ok name' → 0 < inum < 2 ^ 16 →
  matches name (dirent inum name') = bool_decide (name = name').
Proof.
  intros [Hl Hf] Hn' Hi. unfold matches. rewrite dirent_inum, dirent_name by (done || lia). rewrite (proj2 (Z.eqb_neq inum 0)) by lia. cbn [negb andb].
  unfold namecmp. destruct Hn' as [Hl' Hf'].
  assert (Hb : ∀ n, Forall (λ c, 0 < c < 256) n → Forall (λ c, 0 ≤ c < 256) n) by (intros n Hn; eapply Forall_impl; [exact Hn|]; cbn; lia).
  assert (E1 : cstr 14 (arr_of name) 0 = name).
  { pose proof (cstr_name 14 name [] [] Hf Hl eq_refl) as H1. by rewrite app_nil_r in H1. }
  assert (E2 : cstr 14 (arr_of (name' ++ replicate (14 - length name') 0)) 0 = name').
  { apply (cstr_name 14 name' []); try done. by destruct (14 - length name')%nat. }
  assert (Hiff : strncmp (arr_of name) (arr_of (name' ++ replicate (14 - length name') 0)) DIRSIZ = 0 ↔ name = name').
  { rewrite strncmp_zero; [|by apply arr_byte, Hb|]. 2: { apply arr_byte, Forall_app. split; [by apply Hb|]. apply Forall_replicate. lia. }
    change (Z.to_nat DIRSIZ) with 14%nat. by rewrite E1, E2. }
  destruct (bool_decide_reflect (name = name')) as [He|He]; [apply Z.eqb_eq; by apply Hiff|apply Z.eqb_neq; by rewrite Hiff].
Qed.

Lemma dscan_first E name k0 m : ∀ k, (k ≤ k0 < k + m)%nat → (∀ j, (k ≤ j < k0)%nat → matches name (E j) = false) → matches name (E k0) = true →
  dscan E name m k = Some (de_inum (E k0), 16 * Z.of_nat k0).
Proof.
  induction m as [|m IH]; intros k Hk Hno Hyes; [lia|]. cbn [dscan]. destruct (decide (k = k0)) as [->|Hne]; [by rewrite Hyes|].
  rewrite Hno by lia. apply IH; [lia| |done]. intros. apply Hno. lia.
Qed.

(** ** The directory *)

Lemma slice_entries names : ∀ k j n, names !! j = Some n → slice (entries k names) (16 * j) 16 = dirent (k + Z.of_nat j) n.
Proof.
  induction names as [|m names IH]; intros k [|j] n Hn; simpl in Hn; try done; cbn [entries].
  - injection Hn as ->. rewrite Z.add_0_r. apply (slice_first (dirent k n)), length_dirent.
  - replace (k + Z.of_nat (S j)) with (k + 1 + Z.of_nat j) by lia. rewrite <- (IH (k + 1) j n Hn). unfold slice.
    rewrite drop_app_ge by (rewrite length_dirent; lia). rewrite length_dirent. do 2 f_equal. lia.
Qed.

(** What the root directory holds: its own entry, its parent's, and those of the
    files. *)
Definition root_bytes (names : list (list Z)) : list Z := dirent 1 [46] ++ dirent 1 [46; 46] ++ entries 2 names.
Definition root_names (names : list (list Z)) : list (list Z) := [46] :: [46; 46] :: names.
Definition root_inum (j : nat) : Z := if decide (j < 2)%nat then 1 else Z.of_nat j.

Lemma length_root names : size_of (root_bytes names) = 16 * size_of (root_names names).
Proof. unfold root_bytes. rewrite !length_app, !length_dirent. pose proof (length_entries 2 names). cbn [root_names length]. lia. Qed.

Lemma slice_root names j n : root_names names !! j = Some n → slice (root_bytes names) (16 * j) 16 = dirent (root_inum j) n.
Proof.
  unfold root_bytes, root_inum. destruct j as [|[|j]]; intros Hn; simpl in Hn.
  - injection Hn as <-. apply slice_first, length_dirent.
  - injection Hn as <-. by apply slice_mid.
  - rewrite decide_False by lia. replace (Z.of_nat (S (S j))) with (2 + Z.of_nat j) by lia. rewrite <- (slice_entries names 2 j n Hn).
    unfold slice. rewrite !drop_app_ge by (rewrite !length_dirent; lia). rewrite !length_dirent. do 2 f_equal. lia.
Qed.

(** Reading a file's bytes off its blocks. *)
Lemma fbytes_rep V d l nb off n : rep V d l nb → (off + n ≤ length l)%nat → fbytes V d (Z.of_nat off) n = slice l off n.
Proof.
  intros Hr Hl. apply list_eq. intros j. unfold fbytes. rewrite list_lookup_fmap.
  destruct (decide (j < n)%nat) as [Hj|Hj].
  - rewrite lookup_seq_lt by done. rewrite lookup_slice by done. simpl. rewrite (rp_byte _ _ _ _ Hr) by (destruct (rp_nb _ _ _ _ Hr); lia).
    rewrite nth_lookup. replace (Z.to_nat (Z.of_nat off + Z.of_nat j)) with (off + j)%nat by lia.
    destruct (lookup_lt_is_Some_2 l (off + j)%nat ltac:(lia)) as [x ->]. done.
  - rewrite lookup_ge_None_2 by (rewrite length_seq; lia). symmetry. apply lookup_ge_None_2. unfold slice. rewrite length_take. lia.
Qed.

(** A name is found, whatever size the directory has beyond its entries. *)
Lemma dlookup_root V d names nb j n : rep V d (root_bytes names) nb → Forall name_ok names → NoDup (root_names names) →
  root_names names !! j = Some n → size_of names ≤ 60000 → 16 * size_of (root_names names) ≤ d_size d →
  dlookup V d n = Some (root_inum j, 16 * Z.of_nat j).
Proof.
  intros Hr Hok Hnd Hj Hmax Hsz. pose proof (length_root names) as Hlr. pose proof (lookup_lt_Some _ _ _ Hj) as Hlt.
  assert (Hoks : Forall name_ok (root_names names)).
  { constructor; [split; [simpl; lia|repeat (constructor; [lia|]); constructor]|].
    constructor; [split; [simpl; lia|repeat (constructor; [lia|]); constructor]|done]. }
  assert (Hent : ∀ i m, root_names names !! i = Some m → ent V d i = dirent (root_inum i) m).
  { intros i m Hi. pose proof (lookup_lt_Some _ _ _ Hi). rewrite <- (slice_root names i m Hi). unfold ent.
    rewrite <- (fbytes_rep V d _ nb) by (done || lia). f_equal. lia. }
  assert (Hinum : ∀ i, (i < length (root_names names))%nat → 0 < root_inum i < 2 ^ 16).
  { intros i Hi. simpl in Hi. unfold root_inum. case_decide; lia. }
  rewrite Forall_lookup in Hoks.
  unfold dlookup. rewrite (dscan_first _ n j).
  - rewrite (Hent j n Hj), dirent_inum; [done|]. specialize (Hinum j Hlt). lia.
  - unfold nents. zdm.
  - intros i Hi. destruct (lookup_lt_is_Some_2 (root_names names) i ltac:(lia)) as [m Hm]. rewrite (Hent i m Hm), matches_dirent; [|by eapply Hoks|by eapply Hoks|apply Hinum; lia].
    apply bool_decide_eq_false. intros ->. pose proof (NoDup_lookup _ _ _ _ Hnd Hj Hm). lia.
  - rewrite (Hent j n Hj), matches_dirent; [by apply bool_decide_eq_true|by eapply Hoks|by eapply Hoks|by apply Hinum].
Qed.

(** ** The bitmap *)

Lemma length_set_bits n buf : length (set_bits n buf) = length buf.
Proof. induction n as [|n IH]; [done|]. cbn [set_bits]. by rewrite length_set_bit. Qed.

Lemma bit_zeros b : bit_of zeros b = false.
Proof. unfold bit_of. rewrite nth_zeros. apply Z.testbit_0_l. Qed.

Lemma set_bits_spec n b : Z.of_nat n ≤ 8192 → 0 ≤ b < 8192 → bit_of (set_bits n zeros) b = bool_decide (b < Z.of_nat n).
Proof.
  intros Hn Hb. induction n as [|n IH]; cbn [set_bits].
  - rewrite bit_zeros. symmetry. apply bool_decide_eq_false. lia.
  - rewrite bit_of_set by (rewrite ?length_set_bits, ?BPB_eq; (done || lia)). rewrite IH by lia.
    repeat case_bool_decide; simpl; try done; lia.
Qed.

(** The files are well formed once the bitmap marks the first [fb] blocks. *)
Lemma inv_file_ok V fb D cs i l : inv V fb D cs → cs !! i = Some l → fb ≤ 2000 →
  (∀ b, 0 ≤ b < 2000 → used mk_sb V b = bool_decide (b < fb)) → 0 ≤ d_size (D i) ≤ 1024 * nblk (size_of l) → file_ok mk_sb V (D i).
Proof.
  intros Hi Hl Hfb Hu Hsz. pose proof (iv_rep _ _ _ _ Hi i l Hl) as Hr. pose proof (lookup_lt_Some _ _ _ Hl) as Hlt.
  destruct (rp_nb _ _ _ _ Hr) as [Hnb _]. split.
  - apply Hr.
  - consts. lia.
  - intros k Hk Hne. pose proof (iv_range _ _ _ _ Hi i k Hlt Hk Hne) as Hb. split.
    + unfold data_block. change (datastart mk_sb) with 46. change (sb_size mk_sb) with 2000. lia.
    + rewrite Hu by lia. apply bool_decide_eq_true. lia.
  - intros k k' Hk Hk' Hne He. by apply (iv_inj _ _ _ _ Hi i i k k').
  - intros k Hk Hlt'. consts. apply (rp_blk _ _ _ _ Hr); lia.
Qed.

(** ** The program *)

Lemma sb_of_block : sb_of sb_block = mk_sb.
Proof. vm_compute. reflexivity. Qed.

Lemma mkfs_run files names (Q : unit → image → Prop) :
  Forall2 (λ (f : hostfile) n, shortname f.1 = Some n) files names → (length files ≤ 198)%nat →
  Forall (λ f : hostfile, size_of (mjoin f.2) ≤ 274432) files → 46 + costs (root_bytes names :: (contents files).*2) ≤ 2000 →
  (∀ s, disk s ((T_DIR, root_bytes names) :: contents files) →
     let d := mdino (sect s) 1 in
     Q tt (mkImage (<[45 := set_bits (Z.to_nat (freeblock s)) zeros]> (put_dino mk_sb (sect s) 1 (set_size ((d_size d / 1024 + 1) * 1024) d)))
             (freeinode s) (freeblock s))) →
  wp (mkfs files) Q mkfs_start.
Proof.
  intros Hn Hlen Hsz Hfit HQ. unfold mkfs. consts. apply wp_step.
  assert (Hroot : size_of (root_bytes names) ≤ 5000).
  { rewrite length_root. pose proof (Forall2_length _ _ _ Hn). cbn [root_names length]. lia. }
  eapply wp_mono; [apply (wp_for (λ _ s, freeinode s = 1 ∧ freeblock s = 46 ∧ ∀ b, sect s b = zeros)); [|done]|].
  { intros j s _ (H1 & H2 & H3). eapply wp_intro; [done|]. cbn [sect freeinode freeblock]. split_and!; try done.
    intros b. destruct (decide (j = b)) as [<-|]; [by rewrite fn_lookup_insert|by rewrite fn_lookup_insert_ne]. }
  intros _ [V fi fb] (H1 & H2 & H3). cbn [sect freeinode freeblock] in *. subst fi fb.
  apply wp_step. eapply wp_intro; [done|]. cbn [sect freeinode freeblock].
  apply wp_step. apply (ialloc_spec _ []).
  { split; cbn [sect freeinode freeblock fmap list_fmap length].
    - split; try done; [| |intros i k Hi; simpl in Hi; lia|intros i j k k' Hi; simpl in Hi; lia].
      + intros b. destruct (decide (1 = b)) as [<-|]; [by rewrite fn_lookup_insert|by rewrite fn_lookup_insert_ne, H3].
      + intros b Hb. rewrite fn_lookup_insert_ne, H3 by lia. done.
    - done.
    - simpl. lia.
    - intros b Hb. destruct (Z.eqb_spec b 1) as [->|]; [by rewrite fn_lookup_insert|by rewrite fn_lookup_insert_ne, H3].
    - by rewrite fn_lookup_insert_ne, H3. }
  { simpl. lia. }
  { done. }
  intros s1 Hd1. cbn [app length] in Hd1. change (dinum 0) with 1. cbn [negb Z.eqb]. change (negb (1 =? ROOTINO)) with false. cbv iota.
  set (e1 := dirent 1 [46]). set (e2 := dirent 1 [46; 46]).
  apply wp_step. change 1 with (dinum 0) at 1. apply (iappend_spec s1 _ 0%nat T_DIR [] e1 _ Hd1 eq_refl); [simpl; lia|vm_compute; done|].
  intros s2 Hd2. apply wp_step. change 1 with (dinum 0) at 1.
  apply (iappend_spec s2 _ 0%nat T_DIR e1 e2 _ Hd2 eq_refl); [simpl; lia|vm_compute; done|].
  intros s3 Hd3. apply wp_step.
  assert (Hk : dinum (S (length (@nil (Z * list Z)))) = 2) by done.
  apply (add_files_spec files names s3 (e1 ++ e2) []); rewrite ?Hk, <- ?app_assoc; try done;
    change (e1 ++ e2 ++ entries 2 names) with (root_bytes names); [|lia].
  intros s4 Hd4. cbn [app] in Hd4. specialize (HQ s4 Hd4). destruct s4 as [V4 fi4 fb4]. cbn [sect freeinode freeblock] in HQ.
  destruct Hd4 as [Hi4 Hm4 Hn4 _ _]. cbn [sect freeinode freeblock] in *.
  destruct (Hm4 0%nat T_DIR (root_bytes names) eq_refl) as [_ Hd0]. change (dinum 0) with 1 in Hd0.
  apply wp_step, wp_rinode; [vm_compute; done|]. apply wp_step, wp_winode; [vm_compute; done|].
  apply wp_step. eapply wp_intro; [done|]. cbn [freeblock]. unfold balloc.
  pose proof (iv_fb _ _ _ _ Hi4) as Hfb. cbn [fmap list_fmap snd] in Hfb. rewrite BPB_eq.
  rewrite (proj2 (Z.ltb_lt fb4 8192)) by lia. cbn [negb]. eapply wp_intro; [done|]. cbn [sect freeinode freeblock].
  change (dinum (length (@nil (Z * list Z)))) with 1.
  replace (d_size (mdino V4 1)) with (size_of (root_bytes names)) in HQ |- * by (rewrite Hd0; done).
  rewrite u32_id by zdm. exact HQ.
Qed.

(** The finished image. *)
Section Final.
Context (s : image) (names : list (list Z)) (fs : list (Z * list Z)).
Hypothesis Hd : disk s ((T_DIR, root_bytes names) :: fs).
Hypothesis Hfb : freeblock s ≤ 2000.
Hypothesis Hsmall : size_of (root_bytes names) ≤ 5000.
Notation V := (sect s).
Notation root := (mdino V 1).
Notation root' := (set_size ((d_size root / 1024 + 1) * 1024) root).
Notation V' := (<[45 := set_bits (Z.to_nat (freeblock s)) zeros]> (put_dino mk_sb V 1 root')).
Notation cs := (root_bytes names :: fs.*2).

Lemma root_facts : dinode_wf root' ∧ d_type root' = T_DIR ∧ d_size root' = 1024 * (size_of (root_bytes names) / 1024 + 1) ∧ d_addrs root' = d_addrs root.
Proof.
  destruct (dk_meta _ _ Hd 0%nat T_DIR (root_bytes names) eq_refl) as [[W1 W2 W3 W4 W5 W6] Hm]. change (dinum 0) with 1 in *.
  assert (Hs : d_size root = size_of (root_bytes names)) by (by rewrite Hm).
  assert (Hr : (d_size root / 1024 + 1) * 1024 = 1024 * (size_of (root_bytes names) / 1024 + 1)) by (rewrite Hs; lia).
  split_and!; [split; cbn [set_size d_type d_major d_minor d_nlink d_size d_addrs]; try done; rewrite Hr; clear -Hsmall; zdm| |exact Hr|done].
  cbn [set_size d_type]. by rewrite Hm.
Qed.

Lemma final_dino j : (j < S (length fs))%nat → mdino V' (dinum j) = if decide (j = 0%nat) then root' else mdino V (dinum j).
Proof.
  intros Hj. destruct (dk_next _ _ Hd) as [_ Hmax]. simpl in Hmax. pose proof (inode_block j ltac:(lia)) as [_ Hb].
  transitivity (mdino (put_dino mk_sb V 1 root') (dinum j)).
  { unfold dino. rewrite fn_lookup_insert_ne by lia. done. }
  change 1 with (dinum 0) at 1. rewrite dino_mput; [|lia|lia|apply (dk_inv _ _ Hd)|apply root_facts]. apply decide_ext. lia.
Qed.

Lemma final_inv : inv V' (freeblock s) (λ i, mdino V' (dinum i)) cs.
Proof.
  pose proof (dk_inv _ _ Hd) as Hi. destruct root_facts as (Hwf & _ & _ & Ha). eapply inv_change; [exact Hi| | |].
  - intros j Hj. cbn [fmap list_fmap length] in Hj. rewrite length_fmap in Hj. rewrite final_dino by done. case_decide; [by subst j|done].
  - intros b Hb. rewrite fn_lookup_insert_ne by lia. change 1 with (dinum 0) at 1. apply put_far; lia.
  - intros b. destruct (decide (45 = b)) as [<-|Hne]; [rewrite fn_lookup_insert; by rewrite length_set_bits|].
    rewrite fn_lookup_insert_ne by done. change 1 with (dinum 0) at 1. apply length_mput; [lia|apply Hi|apply Hwf].
Qed.

Lemma final_used b : 0 ≤ b < 2000 → used mk_sb V' b = bool_decide (b < freeblock s).
Proof.
  intros Hb. pose proof (iv_fb _ _ _ _ (dk_inv _ _ Hd)) as Hf. pose proof (costs_nonneg ((T_DIR, root_bytes names) :: fs).*2) as Hc.
  unfold used, BBLOCK. rewrite BPB_eq. change (sb_bmapstart mk_sb) with 45. rewrite u32_id by zdm. replace (b / 8192 + 45) with 45 by zdm.
  rewrite fn_lookup_insert, Z.mod_small by lia. rewrite set_bits_spec by lia. apply bool_decide_ext. lia.
Qed.

Lemma final_low b : 0 ≤ b < 32 → V' b = if b =? 1 then sb_block else zeros.
Proof. intros Hb. rewrite fn_lookup_insert_ne by lia. change 1 with (dinum 0) at 1. rewrite put_far by lia. by apply Hd. Qed.

(** The root directory is well formed unless its entries fill its last block. *)
Lemma final_root : d_type (mdino V' 1) = T_DIR ∧ d_size (mdino V' 1) = 1024 * (size_of (root_bytes names) / 1024 + 1) ∧
  (dir_ok mk_sb V' (mdino V' 1) ↔ size_of (root_bytes names) mod 1024 ≠ 0).
Proof.
  destruct root_facts as (_ & Ht & Hs & _). pose proof (final_dino 0 ltac:(lia)) as Hr. change (dinum 0) with 1 in Hr.
  rewrite decide_True in Hr by done. split; [by rewrite Hr|]. split; [by rewrite Hr|]. split.
  - intros [Hok _ _] H0. pose proof (iv_rep _ _ _ _ final_inv 0%nat (root_bytes names) eq_refl) as Hrep. cbv beta in Hrep. change (dinum 0) with 1 in Hrep.
    set (k := size_of (root_bytes names) / 1024) in *. assert (Hk : 0 ≤ k < 268) by (unfold k; clear -Hsmall; zdm).
    assert (Hsz : d_size (mdino V' 1) = 1024 * (k + 1)) by (by rewrite Hr).
    pose proof (fo_full _ _ _ Hok k ltac:(lia) ltac:(rewrite Hsz, BSIZE_eq; lia)) as Hf. apply (rp_blk _ _ _ _ Hrep k Hk) in Hf. unfold nblk, k in Hf. clear -Hf H0. zdm.
  - intros H64. split; [|by rewrite Hr|rewrite Hr, Hs; zdm].
    apply (inv_file_ok V' (freeblock s) (λ i, mdino V' (dinum i)) cs 0 (root_bytes names)); [apply final_inv|done|done|apply final_used|].
    change (dinum 0) with 1. rewrite Hr, Hs. unfold nblk. clear -H64. zdm.
Qed.

Lemma final_file i ty l : fs !! i = Some (ty, l) → let d := mdino V' (dinum (S i)) in
  d_type d = ty ∧ d_nlink d = 1 ∧ d_size d = size_of l ∧ file_ok mk_sb V' d ∧ fbytes V' d 0 (length l) = l.
Proof.
  intros Hi d. pose proof (lookup_lt_Some _ _ _ Hi) as Hlt. destruct (dk_meta _ _ Hd (S i) ty l Hi) as [_ Hm].
  assert (Hdd : d = mdino V (dinum (S i))) by (unfold d; rewrite final_dino by lia; done).
  assert (Hl : cs !! S i = Some l) by (simpl; by rewrite list_lookup_fmap, Hi).
  assert (Hs : d_size d = size_of l) by (rewrite Hdd, Hm; done).
  split_and!; [rewrite Hdd, Hm; done|rewrite Hdd, Hm; done|done| |].
  - apply (inv_file_ok V' (freeblock s) (λ i, mdino V' (dinum i)) cs (S i) l); [apply final_inv|done|done|apply final_used|].
    fold d. rewrite Hs. unfold nblk. zdm.
  - pose proof (iv_rep _ _ _ _ final_inv (S i) l Hl) as Hr. pose proof (fbytes_rep V' d l _ 0 (length l) Hr ltac:(lia)) as Hb.
    change (Z.of_nat 0) with 0 in Hb. rewrite Hb. unfold slice. rewrite drop_0. by apply take_ge.
Qed.
End Final.

Lemma lookup_contents files k f : files !! k = Some f → contents files !! k = Some (T_FILE, mjoin f.2).
Proof. intros Hf. unfold contents. rewrite list_lookup_fmap. unfold hostfile in *. by rewrite Hf. Qed.

Lemma shortname_length path n : shortname path = Some n → (length n ≤ 14)%nat.
Proof. unfold shortname. repeat case_match; intros; simplify_eq; bsimp; unfold DIRSIZ in *; lia. Qed.

Lemma meta_used_final V fb : 46 ≤ fb → (∀ b, 0 ≤ b < 2000 → used mk_sb V b = bool_decide (b < fb)) → meta_used mk_sb V.
Proof.
  intros Hfb Hu b Hb. change (datastart mk_sb) with 46 in Hb. rewrite Hu by lia. apply bool_decide_eq_true. lia.
Qed.

(** C10: mkfs builds the file system it was asked for, but for the root directory
    when its entries fill its last block.  For host files whose names are different
    and whose contents fit, it ends with an image in which the superblock describes
    the layout, the log is empty, and the blocks of the log, the inodes and the
    bitmap are marked in use.  Every file is found under its name in the root
    directory; its inode is a file with the contents of the host file, in data
    blocks marked in use; and no block belongs to two files.  The root directory is
    well formed exactly when the number of files plus two is not a multiple of 64:
    otherwise its size covers a block that is not allocated. *)
Theorem mkfs_builds (files : list hostfile) (names : list (list Z))
    (Hn : Forall2 (λ (f : hostfile) n, shortname f.1 = Some n) files names)
    (Hc : Forall (Forall (λ c, 0 < c < 256)) names) (Hnd : NoDup ([46] :: [46; 46] :: names))
    (Hcount : (length files ≤ 198)%nat)
    (Hsz : Forall (λ f : hostfile, size_of (mjoin f.2) ≤ MAXFILE * BSIZE) files)
    (Hfit : costs (root_bytes names :: (contents files).*2) ≤ nblocks) :
  ∃ s, mkfs files mkfs_start = Ok tt s ∧ let V := sect s in
    sb_of (V 1) = mk_sb ∧ geometry 2 29 mk_sb ∧ hdr_n (V 2) = 0 ∧ meta_used mk_sb V ∧
    d_type (dino mk_sb V ROOTINO) = T_DIR ∧ (dir_ok mk_sb V (dino mk_sb V ROOTINO) ↔ (size_of files + 2) mod 64 ≠ 0) ∧
    (∀ k f n, files !! k = Some f → names !! k = Some n → let inum := Z.of_nat k + 2 in let d := dino mk_sb V inum in
       dlookup V (dino mk_sb V ROOTINO) n = Some (inum, 16 * inum) ∧ d_type d = T_FILE ∧ d_nlink d = 1 ∧
       d_size d = size_of (mjoin f.2) ∧ file_ok mk_sb V d ∧ fbytes V d 0 (length (mjoin f.2)) = mjoin f.2) ∧
    (∀ i j k k', 1 ≤ i ≤ size_of files + 1 → 1 ≤ j ≤ size_of files + 1 → slot_ok k → slot_ok k' →
       blk V (dino mk_sb V i) k ≠ 0 → blk V (dino mk_sb V i) k = blk V (dino mk_sb V j) k' → i = j ∧ k = k').
Proof.
  change nblocks with 1954 in Hfit. consts. change (268 * 1024) with 274432 in Hsz.
  pose proof (Forall2_length _ _ _ Hn) as Hlen. pose proof (length_root names) as Hroot. cbn [root_names length] in Hroot.
  assert (Hw : wp (mkfs files) (λ _ s', ∃ s, disk s ((T_DIR, root_bytes names) :: contents files) ∧
     s' = mkImage (<[45 := set_bits (Z.to_nat (freeblock s)) zeros]>
       (put_dino mk_sb (sect s) 1 (set_size ((d_size (mdino (sect s) 1) / 1024 + 1) * 1024) (mdino (sect s) 1)))) (freeinode s) (freeblock s)) mkfs_start).
  { apply (mkfs_run files names); try done; [lia|]. intros s Hd d. by exists s. }
  apply wp_inv in Hw as ([] & s' & Hrun & s & Hd & Hs'). exists s'. split; [done|].
  pose proof (iv_fb _ _ _ _ (dk_inv _ _ Hd)) as Hfb. cbn [fmap list_fmap snd] in Hfb.
  assert (Hfb2 : freeblock s ≤ 2000) by lia. assert (Hsm : size_of (root_bytes names) ≤ 5000) by lia.
  assert (Hnok : Forall name_ok names).
  { clear -Hn Hc. induction Hn as [|f n files names Hn _ IH]; [constructor|]. apply Forall_cons in Hc as [H1 H2].
    constructor; [|by apply IH]. split; [by eapply shortname_length|done]. }
  pose proof (costs_nonneg (root_bytes names :: (contents files).*2)) as Hcn.
  rewrite Hs'. cbn [sect]. cbv zeta. change ROOTINO with 1.
  destruct (final_root s names _ Hd Hfb2 Hsm) as (Hr0 & Hr2 & Hr1). pose proof (final_inv s names _ Hd Hsm) as Hinv.
  pose proof (final_used s names _ Hd Hfb2) as Hused. pose proof (final_low s names _ Hd) as Hlow.
  pose proof (final_file s names _ Hd Hfb2 Hsm) as Hfile. set (V' := <[45 := _]> _) in *. clearbody V'. clear Hs' Hrun Hd.
  split; [|split; [|split; [|split; [|split; [|split; [|split]]]]]].
  - rewrite Hlow by lia. apply sb_of_block.
  - apply mk_geometry.
  - rewrite Hlow by lia. reflexivity.
  - apply (meta_used_final _ (freeblock s)); [lia|exact Hused].
  - exact Hr0.
  - rewrite Hr1, Hroot. clear -Hlen. split; zdm.
  - intros k f n Hf Hk. cbv zeta. pose proof (lookup_lt_Some _ _ _ Hf) as Hlt.
    replace (Z.of_nat k + 2) with (dinum (S k)) by lia. split.
    + pose proof (iv_rep _ _ _ _ Hinv 0%nat (root_bytes names) eq_refl) as Hrep. cbv beta in Hrep. change (dinum 0) with 1 in Hrep.
      rewrite (dlookup_root _ _ names _ (2 + k) n Hrep Hnok Hnd Hk); [|lia|cbn [root_names length]; rewrite Hr2, Hroot; zdm].
      unfold root_inum. rewrite decide_False by lia. do 2 f_equal; lia.
    + apply (Hfile k T_FILE). by apply lookup_contents.
  - intros i j k k' Hi Hj Hk Hk' Hne He.
    destruct (iv_inj _ _ _ _ Hinv (Z.to_nat (i - 1)) (Z.to_nat (j - 1)) k k') as [H1 H2];
      rewrite ?Z2Nat.id, ?Z.sub_add by lia; try done; [| |split; [lia|done]];
      cbn [length]; unfold contents; rewrite !length_fmap; lia.
Qed.

(** One program, [user/_cat], with two pieces of text. *)
Definition cat_file : hostfile := ([117; 115; 101; 114; 47; 95; 99; 97; 116], [[1; 2; 3]; [4; 5]]).

Lemma mkfs_builds_witness : ∃ s, mkfs [cat_file] mkfs_start = Ok tt s ∧ dlookup (sect s) (dino mk_sb (sect s) 1) [99; 97; 116] = Some (2, 32) ∧
  fbytes (sect s) (dino mk_sb (sect s) 2) 0 5 = [1; 2; 3; 4; 5].
Proof.
  destruct (mkfs_builds [cat_file] [[99; 97; 116]]) as (s & Hr & _ & _ & _ & _ & _ & _ & Hf & _).
  - constructor; [reflexivity|constructor].
  - repeat constructor.
  - repeat constructor; set_solver.
  - simpl. lia.
  - constructor; [vm_compute; discriminate|constructor].
  - vm_compute. discriminate.
  - destruct (Hf 0%nat cat_file [99; 97; 116] eq_refl eq_refl) as (H1 & _ & _ & _ & _ & H2).
    exists s. split; [exact Hr|]. split; [exact H1|exact H2].
Defined.
