(* ===== verification/File.v ===== *)
(** * File: kernel/file.c, and pipealloc of kernel/pipe.c

    The open-file table over inodes, pipes and devices.  An open file is the
    index of its entry in [ftable], a pipe the address of its page.  A read or
    a write of a pipe or a device may sleep, so one run of it ends with
    [Return] or [Asleep].  [io_woken] collects the channels woken. *)
From stdpp Require Import functions.
From S2P Require Import Prelude Riscv Spinlock Bio Log UserMem Pipe Kalloc Fs.

Inductive filetype : Type := FD_NONE | FD_PIPE | FD_INODE | FD_DEVICE.

#[export] Instance filetype_eq_dec : EqDecision filetype.
Proof. solve_decision. Defined.

(** [struct file]. *)
Record file : Type := mkFile {
  f_type : filetype;
  f_ref : Z;
  f_readable : bool;
  f_writable : bool;
  f_pipe : Z;
  f_ip : nat;
  f_off : Z;
  f_major : Z;
}.

Definition set_fref (v : Z) (f : file) : file :=
  mkFile (f_type f) v (f_readable f) (f_writable f) (f_pipe f) (f_ip f) (f_off f) (f_major f).
Definition set_ftype (v : filetype) (f : file) : file :=
  mkFile v (f_ref f) (f_readable f) (f_writable f) (f_pipe f) (f_ip f) (f_off f) (f_major f).
Definition set_mode (r w : bool) (f : file) : file :=
  mkFile (f_type f) (f_ref f) r w (f_pipe f) (f_ip f) (f_off f) (f_major f).
Definition set_fpipe (v : Z) (f : file) : file :=
  mkFile (f_type f) (f_ref f) (f_readable f) (f_writable f) v (f_ip f) (f_off f) (f_major f).
Definition set_fip (v : nat) (f : file) : file :=
  mkFile (f_type f) (f_ref f) (f_readable f) (f_writable f) (f_pipe f) v (f_off f) (f_major f).
Definition set_off (v : Z) (f : file) : file :=
  mkFile (f_type f) (f_ref f) (f_readable f) (f_writable f) (f_pipe f) (f_ip f) v (f_major f).
Definition set_fmajor (v : Z) (f : file) : file :=
  mkFile (f_type f) (f_ref f) (f_readable f) (f_writable f) (f_pipe f) (f_ip f) (f_off f) v.

(** One entry of [devsw]: a null pointer is [None].  The read routine is given
    [killed(myproc())]; [user_dst] and [user_src] are 1. *)
Record devsw (C U : Type) : Type := mkDevsw {
  dev_read : option (bool → U → Z → Z → C → outcome C (run_end * U));
  dev_write : option (U → Z → Z → C → outcome C run_end);
}.
Arguments mkDevsw {C U}.
Arguments dev_read {C U} _.
Arguments dev_write {C U} _.

(** What a system call needs of memory besides [UserMem]: whole pages. *)
Class PageMem (U : Type) : Type := {
  page_alloc : M U Z;
  page_free : Z → M U unit;
}.

#[export] Instance vm_pages (kend : Z) : PageMem uproc := {|
  page_alloc := zoom um_mem (λ k u, mkU k (um_root u)) kalloc;
  page_free (pa : Z) := zoom um_mem (λ k u, mkU k (um_root u)) (kfree kend pa);
|}.

(** The file side of the kernel, and the same with the memory of the process
    that runs. *)
Record fstuff (D C : Type) : Type := mkFst {
  io_fs : fstate D;
  io_file : nat → file;
  io_pipe : Z → pipe;
  io_dev : C;
  io_woken : list chan;
}.
Arguments mkFst {D C}.
Arguments io_fs {D C} _.
Arguments io_file {D C} _.
Arguments io_pipe {D C} _.
Arguments io_dev {D C} _.
Arguments io_woken {D C} _.

Definition io (D C U : Type) : Type := fstuff D C * U.

Definition nfile : nat := Z.to_nat NFILE.
(** Offset of [data] in [struct pipe]. *)
Definition PIPE_data : Z := 24.

Section File.
Context {D C U : Type} `{Disk D, UserMem U, PageMem U}.
Context (mypid : Z) (devs : Z → devsw C U).
Notation MI := (M (io D C U)).

Definition on_fs {A} (m : M (fstate D) A) : MI A :=
  zoom (λ s, io_fs s.1)
    (λ f s, (mkFst f (io_file s.1) (io_pipe s.1) (io_dev s.1) (io_woken s.1), s.2)) m.
Definition on_mem {A} (m : M U A) : MI A := zoom snd (λ u s, (s.1, u)) m.
Definition get_file (f : nat) : MI file := gets (λ s, io_file s.1 f).
Definition upd_file (f : nat) (g : file → file) : MI unit := modify (λ s,
  (mkFst (io_fs s.1) (<[f := g (io_file s.1 f)]> (io_file s.1)) (io_pipe s.1) (io_dev s.1) (io_woken s.1), s.2)).
Definition get_pipe (pi : Z) : MI pipe := gets (λ s, io_pipe s.1 pi).
Definition put_pipe (pi : Z) (p : pipe) : MI unit := modify (λ s,
  (mkFst (io_fs s.1) (io_file s.1) (<[pi := p]> (io_pipe s.1)) (io_dev s.1) (io_woken s.1), s.2)).
Definition put_dev (c : C) : MI unit := modify (λ s,
  (mkFst (io_fs s.1) (io_file s.1) (io_pipe s.1) c (io_woken s.1), s.2)).
Definition wake (w : list chan) : MI unit := modify (λ s,
  (mkFst (io_fs s.1) (io_file s.1) (io_pipe s.1) (io_dev s.1) (io_woken s.1 ++ w), s.2)).
Definition fbegin_op : MI unit := on_fs (flog begin_op).
Definition fend_op : MI unit := on_fs (flog (end_op mypid)).

(** The first entry with no reference. *)
Fixpoint find_file (k i : nat) (t : nat → file) : option nat :=
  match k with
  | O => None
  | S k => if f_ref (t i) =? 0 then Some i else find_file k (S i) t
  end.

Definition filealloc : MI (option nat) :=
  do o <- gets (λ s, find_file nfile 0 (io_file s.1));
  match o with
  | None => ret None
  | Some f => upd_file f (set_fref 1) ;;; ret (Some f)
  end.

Definition filedup (f : nat) : MI nat :=
  do x <- get_file f;
  if f_ref x <? 1 then panic "filedup"
  else upd_file f (set_fref (i32 (f_ref x + 1))) ;;; ret f.

Definition fileclose (f : nat) : MI unit :=
  do x <- get_file f;
  if f_ref x <? 1 then panic "fileclose"
  else
    upd_file f (set_fref (i32 (f_ref x - 1))) ;;;
    if 0 <? f_ref x - 1 then ret tt
    else
      do ff <- get_file f;
      upd_file f (λ x, set_ftype FD_NONE (set_fref 0 x)) ;;;
      match f_type ff with
      | FD_PIPE =>
          do p <- get_pipe (f_pipe ff);
          let '(w, gone, p) := pipeclose (f_pipe ff) (f_writable ff) p in
          put_pipe (f_pipe ff) p ;;;
          wake w ;;;
          if gone then on_mem (page_free (f_pipe ff)) else ret tt
      | FD_INODE | FD_DEVICE => fbegin_op ;;; on_fs (iput mypid (f_ip ff)) ;;; fend_op
      | FD_NONE => ret tt
      end.

(** The bytes of [struct stat]; [pad] fills the hole between [nlink] and [size]. *)
Definition stat_bytes (pad : list Z) (st : statinfo) : list Z :=
  le_bytes 4 (u32 (st_dev st)) ++ le_bytes 4 (u32 (st_ino st)) ++ le_bytes 2 (u16 (st_type st)) ++
  le_bytes 2 (u16 (st_nlink st)) ++ pad ++ le_bytes 8 (st_size st).

Definition filestat (pad : list Z) (f : nat) (addr : Z) : MI Z :=
  do x <- get_file f;
  match f_type x with
  | FD_INODE | FD_DEVICE =>
      on_fs (ilock mypid (f_ip x)) ;;;
      do st <- on_fs (stati (f_ip x));
      on_fs (iunlock mypid (f_ip x)) ;;;
      do u <- gets snd;
      let '(ok, u) := uout u addr (stat_bytes pad st) in
      on_mem (λ _, Ok tt u) ;;;
      if ok then ret 0 else ret (-1)
  | _ => ret (-1)
  end.

(** [readi] and [writei] with a buffer of the process. *)
Definition put_user (u : U) (dst : Z) (l : list Z) : bool * U := either_copyout true u dst l.
Definition readi_user (ip : nat) (dst off n : Z) : MI Z :=
  do u <- gets snd;
  do r <- on_fs (readi mypid put_user ip u dst off n);
  on_mem (λ _, Ok tt r.2) ;;;
  ret r.1.
Definition writei_user (ip : nat) (src off n : Z) : MI Z :=
  do u <- gets snd;
  on_fs (writei mypid (either_copied true u) ip src off n).

Definition fileread (killed : bool) (f : nat) (addr n : Z) : MI run_end :=
  do x <- get_file f;
  if negb (f_readable x) then ret (Return (-1))
  else
    match f_type x with
    | FD_PIPE =>
        do p <- get_pipe (f_pipe x);
        do u <- gets snd;
        let '(r, w, _, u, p) := piperead (f_pipe x) killed u addr n p in
        put_pipe (f_pipe x) p ;;;
        wake w ;;;
        on_mem (λ _, Ok tt u) ;;;
        ret r
    | FD_DEVICE =>
        if (f_major x <? 0) || (NDEV <=? f_major x) then ret (Return (-1))
        else
          match dev_read (devs (f_major x)) with
          | None => ret (Return (-1))
          | Some rd =>
              do u <- gets snd;
              do r <- zoom (λ s : io D C U, io_dev s.1)
                        (λ c s, (mkFst (io_fs s.1) (io_file s.1) (io_pipe s.1) c (io_woken s.1), s.2))
                        (rd killed u addr n);
              on_mem (λ _, Ok tt r.2) ;;;
              ret r.1
          end
    | FD_INODE =>
        on_fs (ilock mypid (f_ip x)) ;;;
        do x <- get_file f;
        do r <- readi_user (f_ip x) addr (f_off x) (u32 n);
        (if 0 <? r then upd_file f (set_off (u32 (f_off x + r))) else ret tt) ;;;
        on_fs (iunlock mypid (f_ip x)) ;;;
        ret (Return r)
    | FD_NONE => panic "fileread"
    end.

(** [max]: the bytes one transaction of [filewrite] may write. *)
Definition filewrite_max : Z := (MAXOPBLOCKS - 1 - 1 - 2) / 2 * BSIZE.

(** The loop on an inode; an iteration that goes on has written a byte. *)
Fixpoint filewrite_loop (fuel : nat) (f : nat) (addr n i : Z) : MI Z :=
  if i <? n then
    match fuel with
    | O => nofuel
    | S fuel =>
        let n1 := Z.min (n - i) filewrite_max in
        fbegin_op ;;;
        do x <- get_file f;
        on_fs (ilock mypid (f_ip x)) ;;;
        do x <- get_file f;
        do r <- writei_user (f_ip x) (u64 (addr + i)) (f_off x) n1;
        (if 0 <? r then upd_file f (set_off (u32 (f_off x + r))) else ret tt) ;;;
        on_fs (iunlock mypid (f_ip x)) ;;;
        fend_op ;;;
        if negb (r =? n1) then ret i else filewrite_loop fuel f addr n (i + r)
    end
  else ret i.

Definition filewrite (killed : Z → bool) (f : nat) (addr n : Z) : MI run_end :=
  do x <- get_file f;
  if negb (f_writable x) then ret (Return (-1))
  else
    match f_type x with
    | FD_PIPE =>
        do p <- get_pipe (f_pipe x);
        do u <- gets snd;
        let '(r, w, _, p) := pipewrite (f_pipe x) killed u addr n 0 p in
        put_pipe (f_pipe x) p ;;;
        wake w ;;;
        ret r
    | FD_DEVICE =>
        if (f_major x <? 0) || (NDEV <=? f_major x) then ret (Return (-1))
        else
          match dev_write (devs (f_major x)) with
          | None => ret (Return (-1))
          | Some wr =>
              do u <- gets snd;
              zoom (λ s : io D C U, io_dev s.1)
                (λ c s, (mkFst (io_fs s.1) (io_file s.1) (io_pipe s.1) c (io_woken s.1), s.2))
                (wr u addr n)
          end
    | FD_INODE =>
        do i <- filewrite_loop (Z.to_nat n) f addr n 0;
        ret (Return (if i =? n then n else -1))
    | FD_NONE => panic "filewrite"
    end.

(** [None] is the error return: what was allocated is given back.  The label
    [bad] is never reached with a pipe. *)
Definition pipealloc : MI (option (nat * nat)) :=
  do f0 <- filealloc;
  match f0 with
  | None => ret None
  | Some f0 =>
      do f1 <- filealloc;
      match f1 with
      | None => fileclose f0 ;;; ret None
      | Some f1 =>
          do pi <- on_mem page_alloc;
          if pi =? 0 then fileclose f0 ;;; fileclose f1 ;;; ret None
          else
            do u <- gets snd;
            put_pipe pi (pipe_init (kin u (pi + PIPE_data) 512)) ;;;
            upd_file f0 (λ x, set_fpipe pi (set_mode true false (set_ftype FD_PIPE x))) ;;;
            upd_file f1 (λ x, set_fpipe pi (set_mode false true (set_ftype FD_PIPE x))) ;;;
            ret (Some (f0, f1))
      end
  end.
End File.
