(* ===== verification/FileSpec.v ===== *)
(** * FileSpec: reading and writing open files

    [fileread] and [filewrite] of File.v on a file of the file system: what
    they do to the file, what they return, and what a crash leaves. *)
From stdpp Require Import functions.
From S2P Require Import Prelude Riscv Spinlock Bio BioSpec Log LogSpec LogCrash LogTx UserMem Fs FsTx FsAlloc FsInode FsFile FsRW FsOp File.

(** The bytes [data] at the address [a] of the process. *)
Definition holds {U} `{UserMem U} (u : U) (a : Z) (data : list Z) : Prop :=
  ∀ i m, 0 ≤ i → 0 < m → i + m ≤ Z.of_nat (length data) →
    uin u (u64 (a + i)) m = Some (slice data (Z.to_nat i) (Z.to_nat m)).

Section FileSpec.
Context (start cap : Z) (sb : superblock) (Hgeo : geometry start cap sb).
Context (dev : Z) (Hdev : 0 < dev < 2 ^ 31) (mypid : Z).
Context {C U : Type} `{UserMem U, PageMem U} (devs : Z → devsw C U).
Implicit Types (s : io tdisk C U) (V : Z → list Z) (d : dinode).
Notation idle := (idle start cap sb dev mypid).
Notation wrote := (wrote start cap sb).

Lemma wp_on_fs {A} (m : M (fstate tdisk) A) (Q : A → io tdisk C U → Prop) f t p c w u :
  wp m (λ a f', Q a (mkFst f' t p c w, u)) f → wp (on_fs m) Q (mkFst f t p c w, u).
Proof. intros Hm. apply wp_zoom. exact Hm. Qed.

Lemma wp_get_file i (Q : file → io tdisk C U → Prop) s : Q (io_file s.1 i) s → wp (get_file i) Q s.
Proof. done. Qed.

Lemma wp_upd_file i g (Q : unit → io tdisk C U → Prop) f t p c w u :
  Q tt (mkFst f (<[i := g (t i)]> t) p c w, u) → wp (upd_file i g) Q (mkFst f t p c w, u).
Proof. done. Qed.

(** An inode of the table that no process has locked; [d] is its contents. *)
Record in_table (f : fstate tdisk) (ip : nat) (inum : Z) d : Prop := {
  it_dev : i_dev (itab f ip) = dev;
  it_inum : i_inum (itab f ip) = inum;
  it_ref : 1 ≤ i_ref (itab f ip);
  it_free : sl_locked (i_lock (itab f ip)) = 0;
  it_valid : i_valid (itab f ip) = true → i_d (itab f ip) = d;
}.

(** How far a write of [data] at the offset of the file [f] has come: [i] bytes
    are written and the disk is [dsk].  A crash at any of the disk writes made so
    far leaves, after recovery, a prefix of [data] written. *)
Record progress s0 s (f : nat) (data : list Z) (dsk0 : tdisk) d0 (i : Z) (dsk : tdisk) d : Prop := {
  pg_idle : idle (io_fs s.1) dsk;
  pg_ino : in_table (io_fs s.1) (f_ip (io_file s0.1 f)) (i_inum (itab (io_fs s0.1) (f_ip (io_file s0.1 f)))) d;
  pg_wrote : wrote (disk_read dsk0) d0 (i_inum (itab (io_fs s0.1) (f_ip (io_file s0.1 f)))) (f_off (io_file s0.1 f))
    (take (Z.to_nat i) data) (disk_read dsk) d;
  pg_file : io_file s.1 f = set_off (f_off (io_file s0.1 f) + i) (io_file s0.1 f);
  pg_files : ∀ g, g ≠ f → io_file s.1 g = io_file s0.1 g;
  pg_inodes : ∀ j, j ≠ f_ip (io_file s0.1 f) → itab (io_fs s.1) j = itab (io_fs s0.1) j;
  pg_rest : s.2 = s0.2 ∧ io_pipe s.1 = io_pipe s0.1 ∧ io_dev s.1 = io_dev s0.1;
  pg_hist : t_base dsk = t_base dsk0 ∧ t_hist dsk0 `prefix_of` t_hist dsk;
  pg_crash : ∀ k, (length (t_hist dsk0) ≤ k)%nat →
    ∃ l2 j d2, reboot dev mypid start (cap + 1) (cold (crash_at k dsk)) = Ok tt l2 ∧ 0 ≤ j ≤ i ∧
      wrote (disk_read dsk0) d0 (i_inum (itab (io_fs s0.1) (f_ip (io_file s0.1 f)))) (f_off (io_file s0.1 f))
        (take (Z.to_nat j) data) (disk_read (dk (lbc l2))) d2;
}.

(** A crash between transactions. *)
Lemma idle_crash fs (d : tdisk) (k : nat) :
  idle fs d → (length (t_hist d) ≤ k)%nat →
  ∃ l2, reboot dev mypid start (cap + 1) (cold (crash_at k d)) = Ok tt l2 ∧
    agree start cap (disk_read d) (disk_read (dk (lbc l2))).
Proof.
  intros [Ht Hn] Hk. pose proof (place start cap sb Hgeo) as Hp. assert (HL : LOGSIZE = 30) by done.
  assert (Hcr : crash_at k d = d) by (destruct d; unfold crash_at; simpl in *; by rewrite take_ge).
  rewrite Hcr. assert (Hg : good_header start cap (disk_read d)).
  { split; unfold hdr_blocks; rewrite ?Hn; [apply Ht|lia|constructor|constructor]. }
  destruct (wp_inv _ _ _ (reboot_spec dev Hdev mypid start cap (place start cap sb Hgeo) (cap + 1) d ltac:(lia) Hg))
    as ([] & l2 & Hl2 & _ & A & d' & Hc & Hd' & _).
  exists l2. split; [done|]. intros b Hb.
  assert (dk (lbc l2) = d') as -> by (destruct Hc as (? & _ & _ & ?); done).
  rewrite Hd', read_writes. by apply (recovered_empty start cap ltac:(lia) (disk_read d)).
Qed.

(** The write of one transaction extends [progress]. *)
Lemma progress_step s0 s f data dsk0 d0 i dsk d s' V t dsk' d' :
  let x := io_file s0.1 f in let inum := i_inum (itab (io_fs s0.1) (f_ip x)) in
  progress s0 s f data dsk0 d0 i dsk d → inum_ok sb inum → 0 ≤ f_off x ≤ d_size d0 →
  0 ≤ i → 0 ≤ t → i + t ≤ Z.of_nat (length data) →
  wrote (disk_read dsk) d inum (f_off x + i) (slice data (Z.to_nat i) (Z.to_nat t)) V d' →
  commits start cap dev mypid dsk V dsk' → idle (io_fs s'.1) dsk' → in_table (io_fs s'.1) (f_ip x) inum d' →
  io_file s'.1 f = set_off (f_off x + (i + t)) x → (∀ g, g ≠ f → io_file s'.1 g = io_file s.1 g) →
  (∀ j, j ≠ f_ip x → itab (io_fs s'.1) j = itab (io_fs s.1) j) →
  s'.2 = s.2 ∧ io_pipe s'.1 = io_pipe s.1 ∧ io_dev s'.1 = io_dev s.1 →
  progress s0 s' f data dsk0 d0 (i + t) dsk' d'.
Proof.
  intros x inum [P1 P2 P3 P4 P5 P6 P7 P8 P9] Hi Hoff Hi0 Ht Hit Hw [T1 [T2 T3] T4] Hid Hin Hf Hg Hj Hr.
  fold x inum in P2, P3, P4, P6, P9.
  assert (Hall : wrote (disk_read dsk0) d0 inum (f_off x) (take (Z.to_nat (i + t)) data) V d').
  { rewrite Z2Nat.inj_add, slice_take by lia. eapply (wrote_trans start cap sb); [exact P3| |done].
    rewrite length_take_le by lia. by rewrite Z2Nat.id by lia. }
  assert (Hbefore : ∀ j V0 d1, wrote (disk_read dsk0) d0 inum (f_off x) (take (Z.to_nat j) data) V0 d1 → ∀ V1, agree start cap V0 V1 →
    wrote (disk_read dsk0) d0 inum (f_off x) (take (Z.to_nat j) data) V1 d1).
  { intros j V0 d1 Hw0 V1 Ha. eapply (wrote_agree start cap sb Hgeo); [exact Ha|lia|done|done]. }
  split; try done.
  - eapply Hbefore; [exact Hall|exact T1].
  - intros g Hgf. rewrite Hg by done. by apply P5.
  - intros j Hjp. rewrite Hj by done. by apply P6.
  - destruct Hr as (-> & -> & ->). done.
  - destruct P8 as [-> Hpre] in T2 |- *. split; [done|]. by etransitivity.
  - intros k Hk. destruct (decide (length (t_hist dsk) ≤ k)%nat) as [Hge|Hlt].
    + destruct (T4 k Hge) as (l2 & Hl2 & [Ho|Hn]).
      * exists l2, i, d. split; [done|]. split; [lia|]. by eapply Hbefore.
      * exists l2, (i + t), d'. split; [done|]. split; [lia|]. by eapply Hbefore.
    + destruct (P9 k Hk) as (l2 & j & d2 & Hl2 & Hj2 & Hw2). exists l2, j, d2.
      assert (Heq : crash_at k dsk' = crash_at k dsk).
      { destruct T3 as [ws Hws]. unfold crash_at. rewrite T2, Hws. f_equal. rewrite take_app_le by lia. done. }
      rewrite Heq. split; [done|]. split; [lia|done].
Qed.

(** Locking and unlocking the inode is no progress, but no harm either. *)
Lemma progress_same s0 s f data dsk0 d0 i dsk d s' :
  progress s0 s f data dsk0 d0 i dsk d → idle (io_fs s'.1) dsk →
  in_table (io_fs s'.1) (f_ip (io_file s0.1 f)) (i_inum (itab (io_fs s0.1) (f_ip (io_file s0.1 f)))) d →
  io_file s'.1 = io_file s.1 → (∀ j, j ≠ f_ip (io_file s0.1 f) → itab (io_fs s'.1) j = itab (io_fs s.1) j) →
  s'.2 = s.2 ∧ io_pipe s'.1 = io_pipe s.1 ∧ io_dev s'.1 = io_dev s.1 →
  progress s0 s' f data dsk0 d0 i dsk d.
Proof.
  intros [P1 P2 P3 P4 P5 P6 P7 P8 P9] Hid Hin Hf Hj (R1 & R2 & R3). split; try done; rewrite ?Hf; try done.
  - intros j Hne. rewrite Hj by done. by apply P6.
  - by rewrite R1, R2, R3.
Qed.

(** The offset of an open file after [r] bytes. *)
Lemma wp_advance i r x (Q : unit → io tdisk C U → Prop) f t p c w u :
  t i = x → 0 ≤ r → 0 ≤ f_off x → f_off x + r < 2 ^ 32 →
  (∀ t', t' i = set_off (f_off x + r) x → (∀ g, g ≠ i → t' g = t g) → Q tt (mkFst f t' p c w, u)) →
  wp (if 0 <? r then upd_file i (set_off (u32 (f_off x + r))) else ret tt) Q (mkFst f t p c w, u).
Proof.
  intros Hx Hr H1 H2 HQ. destruct (Z.ltb_spec 0 r).
  - apply wp_upd_file. rewrite u32_id by lia. apply HQ; [by rewrite fn_lookup_insert, Hx|].
    intros g Hg. by rewrite fn_lookup_insert_ne.
  - apply wp_ret. apply HQ; [|done]. rewrite Hx. replace (f_off x + r) with (f_off x) by lia. by destruct x.
Qed.

Lemma full_agree V V' : agree start cap V V' → full sb V → full sb V'.
Proof. intros Ha Hf b Hb. rewrite (used_agree start cap sb Hgeo V); [by apply Hf|done|done]. Qed.

Section write.
Context (s0 : io tdisk C U) (f : nat) (addr : Z) (data : list Z) (dsk0 : tdisk) (d0 : dinode).
Let x := io_file s0.1 f.
Let ip := f_ip x.
Let inum := i_inum (itab (io_fs s0.1) ip).
Let n := Z.of_nat (length data).
Hypothesis Hsmall : sb_size sb < 4 * BPB.
Hypothesis Hcap : 13 < cap.
Hypothesis Hinum : inum_ok sb inum.
Hypothesis Hoff : 0 ≤ f_off x ≤ d_size d0.
Hypothesis Hint : n < 2 ^ 31.
Hypothesis Htype : d_type d0 ≠ 0.
Hypothesis Hbuf : holds s0.2 addr data.

Lemma holds_slice i m j k :
  0 ≤ i → i + m ≤ n → 0 ≤ j → 0 < k → j + k ≤ m →
  either_copied true s0.2 (u64 (u64 (addr + i) + j)) k =
    (true, slice (slice data (Z.to_nat i) (Z.to_nat m)) (Z.to_nat j) (Z.to_nat k)).
Proof.
  intros Hi Him Hj Hk Hjk. unfold either_copied, either_copyin.
  replace (u64 (u64 (addr + i) + j)) with (u64 (addr + (i + j))).
  - rewrite Hbuf by (unfold n in *; lia). f_equal. unfold slice. rewrite Z2Nat.inj_add, <- drop_drop by lia.
    rewrite skipn_firstn_comm, take_take. f_equal. lia.
  - unfold u64. rewrite Zplus_mod_idemp_l. f_equal. lia.
Qed.

(** Why a write stops after [i] bytes: all are written, no block is free, or the
    file would grow beyond its largest size. *)
Definition stopped (i : Z) (dsk : tdisk) : Prop :=
  i = n ∨ full sb (disk_read dsk) ∨ MAXFILE * BSIZE < f_off x + i + Z.min (n - i) filewrite_max.

Lemma filewrite_loop_spec fuel s i dsk d (Q : Z → io tdisk C U → Prop) :
  progress s0 s f data dsk0 d0 i dsk d → 0 ≤ i ≤ n → n - i ≤ Z.of_nat fuel →
  (∀ r s' i' dsk' d', progress s0 s' f data dsk0 d0 i' dsk' d' → 0 ≤ i' ≤ n →
     (r =? n) = (i' =? n) → stopped i' dsk' → Q r s') →
  wp (filewrite_loop mypid fuel f addr n i) Q s.
Proof.
  revert s i dsk d. induction fuel as [|fuel IH]; intros s i dsk d Hp Hi Hf HQ; cbn [filewrite_loop];
    destruct (Z.ltb_spec i n) as [Hlt|Hge]; try lia.
  1,3: apply wp_ret; eapply (HQ i s i dsk d); [done|done|done|left; lia].
  pose proof BSIZE_eq as HB. assert (HM : filewrite_max = 3072) by done. rewrite HM.
  assert (HB' : BPB = 8192) by done. assert (HX : MAXFILE * BSIZE = 274432) by done.
  set (n1 := Z.min (n - i) 3072). pose proof Hp as [P1 P2 P3 P4 P5 P6 P7 P8 P9].
  destruct s as [[fs t p c w] u]. cbn [io_fs io_file io_pipe io_dev io_woken fst snd] in *. fold x ip inum in P2, P3, P4, P6.
  pose proof P1 as [Px1 Pn1]. destruct P3 as [W1 W2 W3 (W4 & _) W5 W6 W7 W8 W9].
  assert (Hl1 : length (take (Z.to_nat i) data) = Z.to_nat i) by (rewrite length_take; unfold n in *; lia).
  rewrite Hl1, Z2Nat.id in W5 by lia.
  apply wp_step. unfold fbegin_op. apply wp_on_fs. eapply (op_begin start cap sb dev mypid); [exact P1|]. intros fs1 H1 E1.
  apply wp_step, wp_get_file. cbn [io_fs io_file fst snd]. rewrite P4. change (f_ip (set_off _ x)) with ip.
  destruct P2 as [I1 I2 I3 I4 I5].
  apply wp_step, wp_on_fs. eapply (ilock_spec start cap sb Hgeo dev Hdev mypid 1); rewrite ?E1; try done.
  { by rewrite I2. } { apply not_elem_of_nil. } { simpl. lia. }
  { destruct (i_valid (itab fs ip)) eqn:Ev; [by left|right]. rewrite I2, W8 by done. rewrite decide_True by done. congruence. }
  rewrite I2. intros fs2 H2 E2.
  assert (Hd2 : (if i_valid (itab fs ip) then i_d (itab fs ip) else dino sb (disk_read dsk) inum) = d).
  { destruct (i_valid (itab fs ip)); [by apply I5|]. rewrite W8 by done. by rewrite decide_True. }
  rewrite Hd2 in E2. set (m0 := mkInode dev inum (i_ref (itab fs ip)) (mkSleep 1 mypid) true d) in *.
  assert (Hm0 : itab fs2 ip = m0) by (rewrite E2; by rewrite decide_True).
  apply wp_step, wp_get_file. cbn [io_fs io_file fst snd]. rewrite P4. change (f_ip (set_off _ x)) with ip.
  change (f_off (set_off ?v x)) with v.
  destruct (decide (274432 < f_off x + i + n1)) as [Hbig|Hfits].
  { apply wp_step. unfold writei_user. apply wp_step. unfold wp at 1, gets. apply wp_on_fs.
    apply (writei_too_big mypid); [lia|unfold n1; lia|pose proof (fo_size _ _ _ W1); unfold n1 in *; lia|lia|].
    apply wp_step. change (0 <? -1) with false. apply wp_ret.
    apply wp_step, wp_on_fs. apply (iunlock_spec mypid); rewrite Hm0; [by split|]. intros fs3 F1 F2 E3.
    assert (H3 : ftx dev mypid start cap sb 1 fs3 dsk (disk_read dsk) [] [] None).
    { destruct fs3 as [l3 b3 t3]. cbn in F1, F2. subst l3 b3. by apply (ftx_itab dev mypid start cap sb 1 fs2). }
    apply wp_step. unfold fend_op. apply wp_on_fs. eapply (op_end_empty start cap sb dev mypid); [exact H3|exact Pn1|]. intros fs4 H4 E4.
    rewrite (proj2 (Z.eqb_neq (-1) n1)) by (unfold n1; lia). cbn [negb]. apply wp_ret.
    assert (Hm4 : itab fs4 ip = set_ilock (mkSleep 0 0) m0) by (rewrite E4, E3; by rewrite decide_True).
    eapply (HQ i _ i dsk d); [|done|done|right; right; unfold stopped; rewrite HM; fold n1; lia].
    apply (progress_same _ (mkFst fs t p c w, u)); try done.
    - split; cbn [io_fs fst]; fold x ip inum; rewrite Hm4; done.
    - intros j Hj. cbn [io_fs fst]. rewrite E4, E3, E2, E1. by rewrite !decide_False. }
  set (l := slice data (Z.to_nat i) (Z.to_nat n1)).
  assert (Hll : Z.of_nat (length l) = n1) by (unfold l, slice; rewrite length_take, length_drop; unfold n1, n in *; lia).
  apply wp_step. unfold writei_user. apply wp_step. unfold wp at 1, gets. cbn [snd]. apply wp_on_fs.
  destruct P7 as (P7 & P7'). subst u. rewrite <- Hll.
  eapply (writei_spec start cap sb Hgeo dev Hdev mypid 1 _ fs2 dsk _ []); rewrite ?Hm0, ?Hll; cbn [length].
  { intros j k Hj Hk Hjk. apply holds_slice; unfold n1 in *; lia. }
  { apply u64_range. } { lia. } { exact H2. } { done. } { done. } { done. } { done. } { done. }
  { cbn [m0 i_d]. lia. } { unfold n1 in *. lia. }
  1-2: rewrite HB, HB' in *; unfold n1 in *; zdm.
  intros fs3 V3 d3 bs3 r H3 E3 Hr Hw Hfull Hin3 Hlen3. cbn [m0 i_d i_inum] in *.
  apply wp_step. eapply (wp_advance f r (set_off (f_off x + i) x)); [exact P4|lia|cbn [set_off f_off]; lia|cbn [set_off f_off]; unfold n1 in *; lia|].
  intros t' Ht1 Ht2.
  assert (Hm3 : itab fs3 ip = set_d d3 m0) by (rewrite E3; by rewrite decide_True).
  apply wp_step, wp_on_fs. apply (iunlock_spec mypid); rewrite Hm3; [by split|]. intros fs4 F1 F2 E4.
  assert (H4 : ftx dev mypid start cap sb 1 fs4 dsk V3 bs3 [] None).
  { destruct fs4 as [l4 b4 t4]. cbn in F1, F2. subst l4 b4. by apply (ftx_itab dev mypid start cap sb 1 fs3). }
  apply wp_step. unfold fend_op. apply wp_on_fs.
  eapply (op_end start cap sb Hgeo dev Hdev mypid); [exact H4|apply Px1|done| | |].
  { intros ->. by apply not_elem_of_nil in Hin3. }
  { rewrite HB, HB' in *; unfold n1 in *; zdm. }
  intros fs5 dsk5 H5 E5 Hcm.
  assert (Hp5 : progress s0 (mkFst fs5 t' p c w, s0.2) f data dsk0 d0 (i + r) dsk5 d3).
  { eapply progress_step; [exact Hp|..]; fold x ip inum; try done; try (unfold n1, n in *; lia).
    - replace (slice data (Z.to_nat i) (Z.to_nat r)) with (take (Z.to_nat r) l); [done|].
      unfold l, slice. rewrite take_take. f_equal. lia.
    - assert (Hm5 : itab fs5 ip = set_ilock (mkSleep 0 0) (set_d d3 m0)) by (rewrite E5, E4; by rewrite decide_True).
      split; cbn [io_fs fst]; rewrite Hm5; done.
    - cbn [io_file fst]. rewrite Ht1. unfold set_off; cbn. f_equal. lia.
    - intros j Hj. cbn [io_fs fst]. rewrite E5, E4, E3, E2, E1. by rewrite !decide_False. }
  destruct (Z.eqb_spec r n1) as [->|Hne]; cbn [negb].
  - eapply IH; [exact Hp5|unfold n1 in *; lia|unfold n1 in *; lia|exact HQ].
  - apply wp_ret. eapply (HQ i); [exact Hp5|unfold n1 in *; lia| |right; left].
    + destruct (Z.eqb_spec i n), (Z.eqb_spec (i + r) n); unfold n1 in *; lia || done.
    + eapply full_agree; [exact (ct_new _ _ _ _ _ _ _ Hcm)|]. by destruct Hfull as [?|[? _]].
Qed.

Lemma filewrite_spec killed (Q : run_end → io tdisk C U → Prop) :
  idle (io_fs s0.1) dsk0 → in_table (io_fs s0.1) ip inum d0 → dino sb (disk_read dsk0) inum = d0 →
  file_ok sb (disk_read dsk0) d0 → meta_used sb (disk_read dsk0) → dinode_wf d0 →
  f_writable x = true → f_type x = FD_INODE →
  (∀ s' t dsk' d', progress s0 s' f data dsk0 d0 t dsk' d' → 0 ≤ t ≤ n → stopped t dsk' →
     Q (Return (if t =? n then n else -1)) s') →
  wp (filewrite mypid devs killed f addr n) Q s0.
Proof.
  intros Hid Hin Hd Hok Hm Hwf Hw Ht HQ. unfold filewrite. apply wp_step, wp_get_file. fold x. rewrite Hw, Ht. cbn [negb].
  assert (Hwr : wrote (disk_read dsk0) d0 inum (f_off x) [] (disk_read dsk0) d0) by (apply wrote_refl; done).
  apply wp_step. eapply (filewrite_loop_spec (Z.to_nat n) s0 0 dsk0 d0); [|unfold n; lia|unfold n; lia|].
  - split; fold x ip inum; try done.
    + rewrite Z.add_0_r. fold x. by destruct x.
    + intros k Hk. destruct (idle_crash _ dsk0 k Hid Hk) as (l2 & Hl2 & Ha). exists l2, 0, d0.
      split; [exact Hl2|]. clear Hl2. split; [lia|]. eapply (wrote_agree start cap sb Hgeo); [exact Ha|lia|done|exact Hwr].
  - intros r s' i' dsk' d' Hp Hi Hr Hf. apply wp_ret. rewrite Hr. by eapply HQ.
Qed.
End write.

(** [fileread] on an inode copies the bytes at the offset, up to the end of the
    file, and advances the offset; outside the table nothing changes. *)
Lemma fileread_spec s f addr n dsk d killed (Q : run_end → io tdisk C U → Prop) :
  let x := io_file s.1 f in let ip := f_ip x in let inum := i_inum (itab (io_fs s.1) ip) in
  let m := Z.min n (d_size d - f_off x) in
  10 < cap → idle (io_fs s.1) dsk → in_table (io_fs s.1) ip inum d → inum_ok sb inum →
  dino sb (disk_read dsk) inum = d → file_ok sb (disk_read dsk) d → meta_used sb (disk_read dsk) → d_type d ≠ 0 →
  f_readable x = true → f_type x = FD_INODE → 0 ≤ f_off x ≤ d_size d → 0 ≤ n < 2 ^ 31 →
  (∀ s' ok, idle (io_fs s'.1) dsk → in_table (io_fs s'.1) ip inum d →
     puts put_user s.2 addr (chunks (Z.to_nat m) (disk_read dsk) d (f_off x) m) = (ok, s'.2) →
     io_file s'.1 f = set_off (f_off x + if ok then m else 0) x → (∀ g, g ≠ f → io_file s'.1 g = io_file s.1 g) →
     (∀ j, j ≠ ip → itab (io_fs s'.1) j = itab (io_fs s.1) j) → io_pipe s'.1 = io_pipe s.1 → io_dev s'.1 = io_dev s.1 →
     Q (Return (if ok then m else -1)) s') →
  wp (fileread mypid devs killed f addr n) Q s.
Proof.
  intros x ip inum m Hcap Hid [I1 I2 I3 I4 I5] Hinum Hd Hok Hm Hty Hrd Hft Hoff Hn HQ.
  assert (HX : MAXFILE * BSIZE = 274432) by done. pose proof (fo_size _ _ _ Hok) as [_ Hsz].
  destruct s as [[fs t p c w] u]. cbn [io_fs io_file io_pipe io_dev io_woken fst snd] in *.
  unfold fileread. apply wp_step, wp_get_file. cbn [io_file fst]. fold x. rewrite Hrd, Hft. cbn [negb]. fold ip.
  pose proof Hid as [Hx0 Hn0].
  apply wp_step, wp_on_fs. eapply (ilock_spec start cap sb Hgeo dev Hdev mypid 0); try done; fold inum.
  { apply not_elem_of_nil. } { simpl. lia. } { destruct (i_valid (itab fs ip)); [by left|right]. by rewrite Hd. }
  intros fs1 H1 E1.
  assert (Hd1 : (if i_valid (itab fs ip) then i_d (itab fs ip) else dino sb (disk_read dsk) inum) = d).
  { destruct (i_valid (itab fs ip)); [by apply I5|done]. }
  rewrite Hd1 in E1. set (m0 := mkInode dev inum (i_ref (itab fs ip)) (mkSleep 1 mypid) true d) in *.
  assert (Hm0 : itab fs1 ip = m0) by (rewrite E1; by rewrite decide_True).
  apply wp_step, wp_get_file. cbn [io_file fst]. fold x ip. rewrite u32_id by lia.
  apply wp_step. unfold readi_user. apply wp_step. unfold wp at 1, gets. cbn [snd]. apply wp_step, wp_on_fs.
  eapply (readi_spec start cap sb Hgeo dev Hdev mypid 0 put_user fs1 dsk _ []); rewrite ?Hm0; cbn [length m0 i_d i_dev]; try done; try lia.
  intros fs2 H2 E2. destruct (puts put_user u addr _) as [ok u'] eqn:Eputs. apply wp_step. unfold on_mem. apply wp_zoom.
  unfold wp at 1. apply wp_ret. cbn [fst snd]. fold m.
  apply wp_step. set (r := if ok then m else -1).
  assert (Hadv : ∀ Q', (∀ t', t' f = set_off (f_off x + if ok then m else 0) x → (∀ g, g ≠ f → t' g = t g) →
      Q' tt (mkFst fs2 t' p c w, u')) →
    wp (if 0 <? r then upd_file f (set_off (u32 (f_off x + r))) else ret tt) Q' (mkFst fs2 t p c w, u')).
  { intros Q' HQ'. destruct ok; unfold r.
    - apply (wp_advance f m x); [done|lia|lia|lia|exact HQ'].
    - apply wp_ret, HQ'; [|done]. rewrite Z.add_0_r. unfold x. by destruct (t f). }
  apply Hadv. intros t' Ht1 Ht2.
  apply wp_step, wp_on_fs. apply (iunlock_spec mypid); rewrite (E2 ip), Hm0; [by split|]. intros fs3 F1 F2 E3. apply wp_ret.
  apply HQ; cbn [io_fs io_file io_pipe io_dev fst snd]; try done.
  - split; [|done]. destruct fs3 as [l3 b3 t3]. cbn in F1, F2. subst l3 b3. by apply (ftx_itab dev mypid start cap sb 0 fs2).
  - assert (Hm3 : itab fs3 ip = set_ilock (mkSleep 0 0) m0) by (rewrite E3; by rewrite decide_True).
    split; rewrite Hm3; done.
  - intros j Hj. rewrite E3, (E2 j), E1. by rewrite !decide_False.
Qed.

(** The file [f] is open on an inode of a consistent file system, between
    operations; [d] is the inode's contents. *)
Record open_file s (f : nat) (dsk : tdisk) d : Prop := {
  of_idle : idle (io_fs s.1) dsk;
  of_type : f_type (io_file s.1 f) = FD_INODE;
  of_ino : in_table (io_fs s.1) (f_ip (io_file s.1 f)) (i_inum (itab (io_fs s.1) (f_ip (io_file s.1 f)))) d;
  of_inum : inum_ok sb (i_inum (itab (io_fs s.1) (f_ip (io_file s.1 f))));
  of_dino : dino sb (disk_read dsk) (i_inum (itab (io_fs s.1) (f_ip (io_file s.1 f)))) = d;
  of_file : file_ok sb (disk_read dsk) d;
  of_meta : meta_used sb (disk_read dsk);
  of_wf : dinode_wf d ∧ d_type d ≠ 0;
  of_off : 0 ≤ f_off (io_file s.1 f) ≤ d_size d;
}.

(** What a write leaves is again a consistent file system, for any file open on
    the inode within its size. *)
Lemma progress_open s s' f g data dsk0 d0 i dsk d :
  open_file s f dsk0 d0 → progress s s' f data dsk0 d0 i dsk d → f_type (io_file s'.1 g) = FD_INODE →
  f_ip (io_file s'.1 g) = f_ip (io_file s.1 f) → 0 ≤ f_off (io_file s'.1 g) ≤ d_size d →
  i_inum (itab (io_fs s'.1) (f_ip (io_file s'.1 g))) = i_inum (itab (io_fs s.1) (f_ip (io_file s.1 f))) ∧
  open_file s' g dsk d.
Proof.
  intros [O1 O2 O3 O4 O5 O6 O7 [O8 O9] O10] [P1 P2 P3 P4 P5 P6 P7 P8 P9] Ht Hip Hoff. rewrite Hip.
  pose proof (it_inum _ _ _ _ P2) as Hi. split; [done|].
  destruct P3 as [W1 W2 W3 (W4 & _) W5 W6 W7 W8 W9]. split; rewrite ?Hip, ?Hi; try done.
  - rewrite W8 by done. by rewrite decide_True.
  - split; [done|congruence].
Qed.
End FileSpec.

(** ** A run on a concrete file system *)

Lemma fin_slice u a n data : fin u a n = Some data → ∀ i m, (i + m ≤ n)%nat → fin u (a + Z.of_nat i) m = Some (slice data i m).
Proof.
  assert (Htake : ∀ n a data m, fin u a n = Some data → (m ≤ n)%nat → fin u a m = Some (take m data)).
  { clear. induction n as [|n IH]; intros a data m Hd Hm; simpl in Hd.
    - injection Hd as <-. destruct m; [done|lia].
    - destruct (u !! a) as [v|] eqn:Ev; [|done]. destruct (fin u (a + 1) n) as [l|] eqn:El; [|done]. injection Hd as <-.
      destruct m as [|m]; [done|]. simpl. rewrite Ev. by rewrite (IH (a + 1) l m El) by lia. }
  revert a data. induction n as [|n IH]; intros a data Hd i m Him.
  - destruct i, m; try lia. by destruct data.
  - destruct i as [|i]; [rewrite Z.add_0_r; by apply (Htake (S n))|]. simpl in Hd.
    destruct (u !! a) as [v|] eqn:Ev; [|done]. destruct (fin u (a + 1) n) as [l|] eqn:El; [|done]. injection Hd as <-.
    replace (a + Z.of_nat (S i)) with (a + 1 + Z.of_nat i) by lia. change (slice (v :: l) (S i) m) with (slice l i m).
    apply IH; [done|lia].
Qed.

Lemma fin_holds (u : fmem) a data :
  fin u a (length data) = Some data → 0 ≤ a → a + Z.of_nat (length data) < 2 ^ 64 → holds u a data.
Proof.
  intros Hd Ha Hb i m Hi Hm Him. rewrite u64_id by lia. simpl.
  rewrite <- (fin_slice u a _ data Hd (Z.to_nat i) (Z.to_nat m)) by lia. by rewrite Z2Nat.id by lia.
Qed.

#[local] Instance demo_pages : PageMem fmem := {| page_alloc := ret 0; page_free _ := ret tt |}.
Definition demo_mem : fmem := {[ 4096 := 104; 4097 := 105; 4098 := 10; 8192 := 0; 8193 := 0; 8194 := 0 ]}.
Definition demo_bytes : list Z := [104; 105; 10].
Definition demo_devs (_ : Z) : devsw unit fmem := mkDevsw None None.
(** Two files open on the first inode of the table. *)
Definition demo_files (i : nat) : file :=
  if decide (i < 2)%nat then mkFile FD_INODE 1 true true 0 0 0 0 else mkFile FD_NONE 0 false false 0 0 0 0.
Definition demo_io (l0 : lst tdisk) : io tdisk unit fmem :=
  (mkFst (mkFs l0 demo_sb demo_itab) demo_files (λ _, Pipe.pipe_init []) tt [], demo_mem).

Lemma demo_holds : holds demo_mem 4096 demo_bytes.
Proof. apply fin_holds; [vm_compute; done|lia|simpl; lia]. Qed.

Lemma demo_open_file :
  ∃ l0, reboot 1 7 2 30 (cold demo_disk) = Ok tt l0 ∧ open_file 2 29 demo_sb 1 7 (demo_io l0) 0 (dk (lbc l0)) demo_inode.
Proof.
  destruct demo_fs_boot_ok as (l0 & Hl0 & Hid & Ha). exists l0. split; [exact Hl0|]. clear Hl0.
  assert (Hi : inum_ok demo_sb 2) by (split; vm_compute; [discriminate|reflexivity]).
  split; cbn [demo_io fst snd io_fs io_file itab]; change (f_ip (demo_files 0)) with 0%nat;
    change (i_inum (demo_itab 0)) with 2; try done.
  - rewrite (dino_agree 2 29 demo_sb demo_geometry (disk_read demo_disk)) by done. exact demo_dino.
  - by apply demo_file_ok.
  - apply (meta_agree 2 29 demo_sb demo_geometry (disk_read demo_disk)); [done|exact demo_meta].
  - split; [apply demo_dinode_wf|done].
Qed.

(** The write on this file system fits. *)
Definition demo_write (l0 : lst tdisk) : outcome (io tdisk unit fmem) run_end :=
  filewrite 7 demo_devs (λ _, false) 0 4096 3 (demo_io l0).

Lemma demo_write_runs : result (reboot 1 7 2 30 (cold demo_disk)) (λ l0, returns (demo_write l0)) = Some (Return 3).
Proof. vm_compute. reflexivity. Qed.

Lemma demo_write_ok l0 : reboot 1 7 2 30 (cold demo_disk) = Ok tt l0 → ∃ s', demo_write l0 = Ok (Return 3) s'.
Proof. intros Hl0. apply returns_inv. exact (result_inv _ _ _ _ _ demo_write_runs Hl0). Qed.



(** C18: what was written is read back.  After a [filewrite] that returned [n],
    a read of [n] bytes through any file open for reading on the same inode at
    the offset of the write copies exactly the bytes written to the caller,
    piece by piece, and returns [n] (or -1 when the caller's memory refuses a
    piece). *)
Theorem write_then_read {C U : Type} `{UserMem U, PageMem U} (devs : Z → devsw C U) (killed : Z → bool) (killed' : bool)
    (start cap dev mypid addr addr' : Z) (sb : superblock) (s s' : io tdisk C U) (f g : nat) (data : list Z) (dsk : tdisk) (d : dinode)
    (Hdev : 0 < dev < 2 ^ 31) (Hgeo : geometry start cap sb) (Hsize : sb_size sb < 4 * BPB) (Hcap : 13 < cap)
    (Hf : open_file start cap sb dev mypid s f dsk d) (Hw : f_writable (io_file s.1 f) = true)
    (Hint : Z.of_nat (length data) < 2 ^ 31) (Hbuf : holds s.2 addr data)
    (Hgf : g ≠ f) (Hgt : f_type (io_file s.1 g) = FD_INODE) (Hgr : f_readable (io_file s.1 g) = true)
    (Hgi : f_ip (io_file s.1 g) = f_ip (io_file s.1 f)) (Hgo : f_off (io_file s.1 g) = f_off (io_file s.1 f))
    (Hrun : filewrite mypid devs killed f addr (Z.of_nat (length data)) s = Ok (Return (Z.of_nat (length data))) s') :
  ∃ s2 ok pieces,
    fileread mypid devs killed' g addr' (Z.of_nat (length data)) s' =
      Ok (Return (if ok : bool then Z.of_nat (length data) else -1)) s2 ∧
    mjoin pieces = data ∧ puts put_user s'.2 addr' pieces = (ok, s2.2).
Proof.
  set (n := Z.of_nat (length data)) in *. pose proof Hf as [O1 O2 O3 O4 O5 O6 O7 [O8 O9] O10].
  assert (HX : MAXFILE * BSIZE = 274432) by done.
  assert (Hwp : wp (filewrite mypid devs killed f addr n)
    (λ r s', r = Return n → ∃ dsk' d', progress start cap sb dev mypid s s' f data dsk d n dsk' d') s).
  { eapply (filewrite_spec start cap sb Hgeo dev Hdev mypid devs s f addr data dsk d); try done.
    intros s1 t dsk' d' Hp Ht _ Hx. fold n in Hx. destruct (Z.eqb_spec t n) as [->|]; [by exists dsk', d'|]. injection Hx. unfold n in *. lia. }
  destruct (wp_run _ _ _ _ _ Hwp Hrun eq_refl) as (dsk' & d' & Hp). clear Hwp Hrun.
  pose proof (fbytes_wrote _ _ _ _ _ _ _ _ _ _ (pg_wrote _ _ _ _ _ _ _ _ _ _ _ _ _ _ Hp)) as Hfb.
  pose proof (wo_size _ _ _ _ _ _ _ _ _ _ (pg_wrote _ _ _ _ _ _ _ _ _ _ _ _ _ _ Hp)) as Hsz.
  unfold n in Hfb, Hsz. rewrite Nat2Z.id, firstn_all in Hfb, Hsz. fold n in Hsz.
  pose proof (pg_files _ _ _ _ _ _ _ _ _ _ _ _ _ _ Hp g Hgf) as Hg.
  destruct (progress_open start cap sb dev mypid s s' f g data dsk d n dsk' d' Hf Hp) as [Hi [Q1 Q2 Q3 Q4 Q5 Q6 Q7 [Q8 Q9] Q10]];
    [by rewrite Hg|by rewrite Hg|rewrite Hg, Hgo; unfold n in *; lia|].
  assert (Hwp : wp (fileread mypid devs killed' g addr' n)
    (λ r s2, ∃ ok pieces, r = Return (if ok : bool then n else -1) ∧ mjoin pieces = data ∧
       puts put_user s'.2 addr' pieces = (ok, s2.2)) s').
  { eapply (fileread_spec start cap sb Hgeo dev Hdev mypid devs s' g addr' n dsk' d'); try done; try (unfold n in *; lia).
    - by rewrite Hg.
    - intros s2 ok _ _ Hputs _ _ _ _ _. rewrite Hg, Hgo in *. 
      replace (Z.min n (d_size d' - f_off (io_file s.1 f))) with n in * by lia.
      eexists ok, _. split; [done|]. split; [|exact Hputs].
      rewrite chunks_join by (unfold n; lia). unfold n. rewrite Nat2Z.id. exact Hfb. }
  destruct (wp_inv _ _ _ Hwp) as (r & s2 & Hs2 & ok & pieces & -> & Hj & Hpu). by exists s2, ok, pieces.
Qed.

Lemma write_then_read_witness :
  ∃ s' s2 ok pieces,
    fileread 7 demo_devs false 1 8192 3 s' = Ok (Return (if ok : bool then 3 else -1)) s2 ∧
    mjoin pieces = demo_bytes ∧ puts put_user s'.2 8192 pieces = (ok, s2.2).
Proof.
  destruct demo_open_file as (l0 & Hl0 & Ho). destruct (demo_write_ok l0 Hl0) as (s' & Hs'). exists s'.
  exact (write_then_read demo_devs (λ _, false) false 2 29 1 7 4096 8192 demo_sb (demo_io l0) s' 0 1 demo_bytes (dk (lbc l0)) demo_inode
    ltac:(lia) demo_geometry ltac:(vm_compute; done) ltac:(lia) Ho eq_refl ltac:(vm_compute; reflexivity) demo_holds
    ltac:(discriminate) eq_refl eq_refl eq_refl eq_refl Hs').
Defined.
