(* ===== verification/Sysfile.v ===== *)
(** * Sysfile: kernel/sysfile.c and the argument fetching of kernel/syscall.c

    The system calls on files.  The state is that of File.v with the process
    that makes the call; its arguments are in the trapframe page.  A path is
    the string in the user's memory, without its NUL. *)
From stdpp Require Import functions.
From S2P Require Import Prelude Riscv CString Spinlock Bio Log UserMem Pipe Fs File Proc.

Definition O_RDONLY : Z := 0.
Definition O_WRONLY : Z := 1.
Definition O_RDWR : Z := 2.
Definition O_CREATE : Z := 512.
Definition O_TRUNC : Z := 1024.

Definition nofile : nat := Z.to_nat NOFILE.

Section Sysfile.
Context {D C U : Type} `{Disk D, UserMem U, PageMem U}.
Context (devs : Z → devsw C U).
Notation MS := (M (io D C U * proc)).

Definition on_io {A} (m : M (io D C U) A) : MS A := zoom fst (λ i s, (i, s.2)) m.
Definition ofs {A} (m : M (fstate D) A) : MS A := on_io (on_fs m).
Definition myproc : MS proc := gets snd.
Definition upd_me (f : proc → proc) : MS unit := modify (λ s, (s.1, f s.2)).
Definition mem_of : MS U := gets (λ s, s.1.2).
Definition pid_of : MS Z := do p <- myproc; ret (p_pid p).
(** A routine of the file system, run by the process that makes the call. *)
Definition by_me {A} (m : Z → M (fstate D) A) : MS A := do pid <- pid_of; ofs (m pid).
Definition sbegin_op : MS unit := on_io fbegin_op.
Definition send_op : MS unit := do pid <- pid_of; on_io (fend_op pid).

(** ** Arguments *)

Definition fetchaddr (addr : Z) : MS (option Z) :=
  do p <- myproc;
  if (p_sz p <=? addr) || (p_sz p <? u64 (addr + 8)) then ret None
  else
    do u <- mem_of;
    match uin u addr 8 with Some l => ret (Some (le_val l)) | None => ret None end.

(** The string; the source returns its length and leaves it in the buffer. *)
Definition fetchstr (addr max : Z) : MS (option (list Z)) :=
  do u <- mem_of; ret (ustr u addr max).

Definition argraw (n : Z) : MS Z :=
  if (0 <=? n) && (n <=? 5) then
    do p <- myproc;
    do u <- mem_of;
    ret (le_val (kin u (p_trapframe p + TF_a0 + 8 * n) 8))
  else panic "argraw".

Definition argint (n : Z) : MS Z := do v <- argraw n; ret (i32 v).
Definition argaddr (n : Z) : MS Z := argraw n.
Definition argstr (n max : Z) : MS (option (list Z)) := do a <- argaddr n; fetchstr a max.

(** ** File descriptors *)

Definition argfd (n : Z) : MS (option (Z * nat)) :=
  do fd <- argint n;
  do p <- myproc;
  if (fd <? 0) || (NOFILE <=? fd) then ret None
  else
    match p_ofile p !! Z.to_nat fd with
    | Some (Some f) => ret (Some (fd, f))
    | _ => ret None
    end.

(** The first unused descriptor. *)
Fixpoint find_fd (k fd : nat) (l : list (option nat)) : option nat :=
  match k with
  | O => None
  | S k => match l !! fd with Some None => Some fd | _ => find_fd k (S fd) l end
  end.

Definition set_fd (fd : nat) (o : option nat) (p : proc) : proc := set_ofile (<[fd := o]> (p_ofile p)) p.

Definition fdalloc (f : nat) : MS Z :=
  do p <- myproc;
  match find_fd nofile 0 (p_ofile p) with
  | Some fd => upd_me (set_fd fd (Some f)) ;;; ret (Z.of_nat fd)
  | None => ret (-1)
  end.

Definition sys_dup : MS Z :=
  do a <- argfd 0;
  match a with
  | None => ret (-1)
  | Some (_, f) =>
      do fd <- fdalloc f;
      if fd <? 0 then ret (-1)
      else on_io (filedup f) ;;; ret fd
  end.

Definition sys_read : MS run_end :=
  do p <- argaddr 1;
  do n <- argint 2;
  do a <- argfd 0;
  match a with
  | None => ret (Return (-1))
  | Some (_, f) => do me <- myproc; on_io (fileread (p_pid me) devs (p_killed me) f p n)
  end.

(** [killed] is the flag at each iteration of a write to a pipe. *)
Definition sys_write (killed : Z → bool) : MS run_end :=
  do p <- argaddr 1;
  do n <- argint 2;
  do a <- argfd 0;
  match a with
  | None => ret (Return (-1))
  | Some (_, f) => do me <- myproc; on_io (filewrite (p_pid me) devs killed f p n)
  end.

Definition sys_close : MS Z :=
  do a <- argfd 0;
  match a with
  | None => ret (-1)
  | Some (fd, f) =>
      upd_me (set_fd (Z.to_nat fd) None) ;;;
      do pid <- pid_of;
      on_io (fileclose pid f) ;;;
      ret 0
  end.

Definition sys_fstat (pad : list Z) : MS Z :=
  do st <- argaddr 1;
  do a <- argfd 0;
  match a with
  | None => ret (-1)
  | Some (_, f) => do pid <- pid_of; on_io (filestat pid pad f st)
  end.

(** ** Names *)

Definition s_ilock (ip : nat) : MS unit := by_me (λ pid, ilock pid ip).
Definition s_iunlock (ip : nat) : MS unit := by_me (λ pid, iunlock pid ip).
Definition s_iput (ip : nat) : MS unit := by_me (λ pid, iput pid ip).
Definition s_iunlockput (ip : nat) : MS unit := by_me (λ pid, iunlockput pid ip).
Definition s_iupdate (ip : nat) : MS unit := by_me (λ pid, iupdate pid ip).
Definition s_inode (ip : nat) : MS inode := ofs (get_ino ip).
Definition s_itype (ip : nat) : MS Z := do n <- s_inode ip; ret (d_type (i_d n)).
Definition s_upd (ip : nat) (f : dinode → dinode) : MS unit := ofs (upd_d ip f).
Definition s_dirlink (dp : nat) (name : list Z) (inum : Z) : MS Z := by_me (λ pid, dirlink pid dp name inum).

(** The current directory is never null while the process runs. *)
Definition cwd_of : MS nat :=
  do p <- myproc; match p_cwd p with Some d => ret d | None => undef end.
Definition s_namei (path : list Z) : MS (option nat) :=
  do cwd <- cwd_of; by_me (λ pid, namei pid cwd path).
(** With the buffer [name[DIRSIZ]], which holds no value before. *)
Definition s_nameiparent (path : list Z) : MS (option nat * list Z) :=
  do cwd <- cwd_of; by_me (λ pid, nameiparent pid cwd path (replicate 14 0)).

Definition inc_nlink (d : dinode) : dinode := set_nlink (i16 (d_nlink d + 1)) d.
Definition dec_nlink (d : dinode) : dinode := set_nlink (i16 (d_nlink d - 1)) d.

(** The label [bad] of [sys_link]. *)
Definition link_bad (ip : nat) : MS Z :=
  s_ilock ip ;;;
  s_upd ip dec_nlink ;;;
  s_iupdate ip ;;;
  s_iunlockput ip ;;;
  send_op ;;;
  ret (-1).

Definition sys_link : MS Z :=
  do old <- argstr 0 MAXPATH;
  match old with
  | None => ret (-1)
  | Some old =>
  do new <- argstr 1 MAXPATH;
  match new with
  | None => ret (-1)
  | Some new =>
  sbegin_op ;;;
  do o <- s_namei old;
  match o with
  | None => send_op ;;; ret (-1)
  | Some ip =>
      s_ilock ip ;;;
      do ty <- s_itype ip;
      if ty =? T_DIR then s_iunlockput ip ;;; send_op ;;; ret (-1)
      else
        s_upd ip inc_nlink ;;;
        s_iupdate ip ;;;
        s_iunlock ip ;;;
        do r <- s_nameiparent new;
        match r with
        | (None, _) => link_bad ip
        | (Some dp, name) =>
            s_ilock dp ;;;
            do nd <- s_inode dp;
            do ni <- s_inode ip;
            do bad <- (if negb (i_dev nd =? i_dev ni) then ret true
                       else do r <- s_dirlink dp name (i_inum ni); ret (r <? 0));
            if bad : bool then s_iunlockput dp ;;; link_bad ip
            else s_iunlockput dp ;;; s_iput ip ;;; send_op ;;; ret 0
        end
  end
  end
  end.

(** Every entry from the third on has number 0. *)
Fixpoint isdirempty_loop (mypid : Z) (fuel : nat) (dp : nat) (de : list Z) (off : Z) : M (fstate D) bool :=
  do n <- get_ino dp;
  if u32 off <? d_size (i_d n) then
    match fuel with
    | O => nofuel
    | S fuel =>
        do r <- readi mypid put_local dp de 0 (u32 off) DIRENT_SIZE;
        let '(r, de) := r in
        if negb (r =? DIRENT_SIZE) then panic "isdirempty: readi"
        else if negb (de_inum de =? 0) then ret false
        else isdirempty_loop mypid fuel dp de (i32 (off + DIRENT_SIZE))
    end
  else ret true.

Definition isdirempty (mypid : Z) (dp : nat) : M (fstate D) bool :=
  do n <- get_ino dp;
  isdirempty_loop mypid (S (Z.to_nat (d_size (i_d n) / DIRENT_SIZE))) dp (replicate 16 0) (2 * DIRENT_SIZE).

(** The label [bad] of [sys_unlink]. *)
Definition unlink_bad (dp : nat) : MS Z := s_iunlockput dp ;;; send_op ;;; ret (-1).

Definition sys_unlink : MS Z :=
  do path <- argstr 0 MAXPATH;
  match path with
  | None => ret (-1)
  | Some path =>
  sbegin_op ;;;
  do r <- s_nameiparent path;
  match r with
  | (None, _) => send_op ;;; ret (-1)
  | (Some dp, name) =>
      s_ilock dp ;;;
      if (namecmp name [46; 0] =? 0) || (namecmp name [46; 46; 0] =? 0) then unlink_bad dp
      else
        do o <- by_me (λ pid, dirlookup pid dp name);
        match o with
        | None => unlink_bad dp
        | Some (ip, off) =>
            s_ilock ip ;;;
            do n <- s_inode ip;
            if d_nlink (i_d n) <? 1 then panic "unlink: nlink < 1"
            else
              do full <- (if d_type (i_d n) =? T_DIR
                          then do e <- by_me (λ pid, isdirempty pid ip); ret (negb e)
                          else ret false);
              if full : bool then s_iunlockput ip ;;; unlink_bad dp
              else
                do r <- by_me (λ pid, writei pid (fetch_local (replicate 16 0)) dp 0 off DIRENT_SIZE);
                if negb (r =? DIRENT_SIZE) then panic "unlink: writei"
                else
                  do ty <- s_itype ip;
                  (if ty =? T_DIR then s_upd dp dec_nlink ;;; s_iupdate dp else ret tt) ;;;
                  s_iunlockput dp ;;;
                  s_upd ip dec_nlink ;;;
                  s_iupdate ip ;;;
                  s_iunlockput ip ;;;
                  send_op ;;;
                  ret 0
        end
  end
  end.

(** The label [fail] of [create]. *)
Definition create_fail (ip dp : nat) : MS (option nat) :=
  s_upd ip (set_nlink 0) ;;;
  s_iupdate ip ;;;
  s_iunlockput ip ;;;
  s_iunlockput dp ;;;
  ret None.

Definition create (path : list Z) (type major minor : Z) : MS (option nat) :=
  do r <- s_nameiparent path;
  match r with
  | (None, _) => ret None
  | (Some dp, name) =>
      s_ilock dp ;;;
      do o <- by_me (λ pid, dirlookup pid dp name);
      match o with
      | Some (ip, _) =>
          s_iunlockput dp ;;;
          s_ilock ip ;;;
          do ty <- s_itype ip;
          if (type =? T_FILE) && ((ty =? T_FILE) || (ty =? T_DEVICE)) then ret (Some ip)
          else s_iunlockput ip ;;; ret None
      | None =>
          do nd <- s_inode dp;
          do o <- by_me (λ pid, ialloc pid (i_dev nd) type);
          match o with
          | None => s_iunlockput dp ;;; ret None
          | Some ip =>
              s_ilock ip ;;;
              s_upd ip (set_dev_numbers major minor) ;;;
              s_upd ip (set_nlink 1) ;;;
              s_iupdate ip ;;;
              do ni <- s_inode ip;
              do bad <- (if type =? T_DIR then
                           do r <- s_dirlink ip [46; 0] (i_inum ni);
                           if r <? 0 then ret true
                           else
                             do nd <- s_inode dp;
                             do r <- s_dirlink ip [46; 46; 0] (i_inum nd); ret (r <? 0)
                         else ret false);
              if bad : bool then create_fail ip dp
              else
                do r <- s_dirlink dp name (i_inum ni);
                if r <? 0 then create_fail ip dp
                else
                  (if type =? T_DIR then s_upd dp inc_nlink ;;; s_iupdate dp else ret tt) ;;;
                  s_iunlockput dp ;;;
                  ret (Some ip)
          end
      end
  end.

(** The error exit of [sys_open] with an inode locked. *)
Definition open_bad (ip : nat) : MS Z := s_iunlockput ip ;;; send_op ;;; ret (-1).

(** [sys_open] from the locked inode on. *)
Definition open_inode (ip : nat) (omode : Z) : MS Z :=
  do n <- s_inode ip;
  let ty := d_type (i_d n) in
  let major := d_major (i_d n) in
  if (ty =? T_DEVICE) && ((major <? 0) || (NDEV <=? major)) then open_bad ip
  else
    do f <- on_io filealloc;
    match f with
    | None => open_bad ip
    | Some f =>
        do fd <- fdalloc f;
        if fd <? 0 then do pid <- pid_of; on_io (fileclose pid f) ;;; open_bad ip
        else
          (if ty =? T_DEVICE then on_io (upd_file f (λ x, set_fmajor major (set_ftype FD_DEVICE x)))
           else on_io (upd_file f (λ x, set_off 0 (set_ftype FD_INODE x)))) ;;;
          on_io (upd_file f (set_fip ip)) ;;;
          on_io (upd_file f (set_mode (Z.land omode O_WRONLY =? 0)
            (negb (Z.land omode O_WRONLY =? 0) || negb (Z.land omode O_RDWR =? 0)))) ;;;
          (if negb (Z.land omode O_TRUNC =? 0) && (ty =? T_FILE) then by_me (λ pid, itrunc pid ip) else ret tt) ;;;
          s_iunlock ip ;;;
          send_op ;;;
          ret fd
    end.

Definition sys_open : MS Z :=
  do omode <- argint 1;
  do path <- argstr 0 MAXPATH;
  match path with
  | None => ret (-1)
  | Some path =>
      sbegin_op ;;;
      if negb (Z.land omode O_CREATE =? 0) then
        do o <- create path T_FILE 0 0;
        match o with
        | None => send_op ;;; ret (-1)
        | Some ip => open_inode ip omode
        end
      else
        do o <- s_namei path;
        match o with
        | None => send_op ;;; ret (-1)
        | Some ip =>
            s_ilock ip ;;;
            do ty <- s_itype ip;
            if (ty =? T_DIR) && negb (omode =? O_RDONLY) then open_bad ip
            else open_inode ip omode
        end
  end.

(** The common end of [sys_mkdir] and [sys_mknod]. *)
Definition made (o : option nat) : MS Z :=
  match o with
  | None => send_op ;;; ret (-1)
  | Some ip => s_iunlockput ip ;;; send_op ;;; ret 0
  end.

Definition sys_mkdir : MS Z :=
  sbegin_op ;;;
  do path <- argstr 0 MAXPATH;
  match path with
  | None => made None
  | Some path => do o <- create path T_DIR 0 0; made o
  end.

(** [create] takes shorts. *)
Definition sys_mknod : MS Z :=
  sbegin_op ;;;
  do major <- argint 1;
  do minor <- argint 2;
  do path <- argstr 0 MAXPATH;
  match path with
  | None => made None
  | Some path => do o <- create path T_DEVICE (i16 major) (i16 minor); made o
  end.

Definition sys_chdir : MS Z :=
  sbegin_op ;;;
  do path <- argstr 0 MAXPATH;
  do o <- (match path with None => ret None | Some path => s_namei path end);
  match o with
  | None => send_op ;;; ret (-1)
  | Some ip =>
      s_ilock ip ;;;
      do ty <- s_itype ip;
      if negb (ty =? T_DIR) then s_iunlockput ip ;;; send_op ;;; ret (-1)
      else
        s_iunlock ip ;;;
        do cwd <- cwd_of;
        s_iput cwd ;;;
        send_op ;;;
        upd_me (set_cwd (Some ip)) ;;;
        ret 0
  end.

(** [exec] is Exec.v's.  The loop that copies the arguments in: the pages they
    are in, the null terminator left out, and whether it reached the end. *)
Fixpoint exec_args (k : nat) (uargv : Z) (i : Z) (argv : list Z) : MS (bool * list Z) :=
  match k with
  | O => ret (false, argv)
  | S k =>
      do a <- fetchaddr (u64 (uargv + 8 * i));
      match a with
      | None => ret (false, argv)
      | Some uarg =>
          if uarg =? 0 then ret (true, argv)
          else
            do pa <- on_io (on_mem page_alloc);
            if pa =? 0 then ret (false, argv)
            else
              do s <- fetchstr uarg PGSIZE;
              match s with
              | None => ret (false, argv ++ [pa])
              | Some s =>
                  on_io (on_mem (modify (λ u, kout u pa (s ++ [0])))) ;;;
                  exec_args k uargv (i + 1) (argv ++ [pa])
              end
      end
  end.

Fixpoint free_args (argv : list Z) : MS unit :=
  match argv with [] => ret tt | pa :: argv => on_io (on_mem (page_free pa)) ;;; free_args argv end.

Definition sys_exec (exec : list Z → list Z → MS Z) : MS Z :=
  do uargv <- argaddr 1;
  do path <- argstr 0 MAXPATH;
  match path with
  | None => ret (-1)
  | Some path =>
      do r <- exec_args (Z.to_nat MAXARG) uargv 0 [];
      let '(ok, argv) := r in
      if ok : bool then
        do r <- exec path argv;
        free_args argv ;;;
        ret r
      else free_args argv ;;; ret (-1)
  end.

(** The stores of the two descriptors; the boolean is false after a failure. *)
Definition store_int (addr v : Z) : MS bool :=
  do u <- mem_of;
  let '(ok, u) := uout u addr (le_bytes 4 (u32 v)) in
  on_io (on_mem (λ _, Ok tt u)) ;;;
  ret ok.

Definition sys_pipe : MS Z :=
  do fdarray <- argaddr 0;
  do pid <- pid_of;
  do o <- on_io (pipealloc pid);
  match o with
  | None => ret (-1)
  | Some (rf, wf) =>
      let close2 := on_io (fileclose pid rf) ;;; on_io (fileclose pid wf) ;;; ret (-1) in
      do fd0 <- fdalloc rf;
      if fd0 <? 0 then close2
      else
        do fd1 <- fdalloc wf;
        if fd1 <? 0 then upd_me (set_fd (Z.to_nat fd0) None) ;;; close2
        else
          do ok <- store_int fdarray fd0;
          do ok <- (if ok : bool then store_int (u64 (fdarray + 4)) fd1 else ret false);
          if ok : bool then ret 0
          else
            upd_me (set_fd (Z.to_nat fd0) None) ;;;
            upd_me (set_fd (Z.to_nat fd1) None) ;;;
            close2
  end.
End Sysfile.
