(* ===== verification/Exec.v ===== *)
(** * Exec: kernel/exec.c

    Loading a program: a new page table is built from the ELF file, the
    arguments are pushed on the new stack, and only then is the process's image
    replaced.  [argv] is the list of the kernel pages that hold the argument
    strings, without the null terminator. *)
From stdpp Require Import functions.
From S2P Require Import Prelude Riscv CString Kalloc Vm Spinlock Bio Log UserMem Fs File Proc Sysfile.

Definition ELF_MAGIC : Z := 1179403647.     (* 0x464C457F *)
Definition ELF_PROG_LOAD : Z := 1.
Definition ELFHDR_SIZE : Z := 64.
Definition PROGHDR_SIZE : Z := 56.

Definition ld64 (off : nat) (data : list Z) : Z := le_val (slice data off 8).

(** The fields [exec] uses. *)
Record elfhdr : Type := mkElf { e_magic : Z; e_entry : Z; e_phoff : Z; e_phnum : Z }.
Definition elfhdr_of (l : list Z) : elfhdr := mkElf (ld32 0 l) (ld64 24 l) (ld64 32 l) (ld16 56 l).
Record proghdr : Type := mkPh {
  ph_type : Z; ph_flags : Z; ph_off : Z; ph_vaddr : Z; ph_filesz : Z; ph_memsz : Z }.
Definition proghdr_of (l : list Z) : proghdr :=
  mkPh (ld32 0 l) (ld32 4 l) (ld64 8 l) (ld64 16 l) (ld64 32 l) (ld64 40 l).

Definition flags2perm (flags : Z) : Z :=
  let perm := if negb (Z.land flags 1 =? 0) then PTE_X else 0 in
  if negb (Z.land flags 2 =? 0) then Z.lor perm PTE_W else perm.

(** The part of the path after its last slash. *)
Fixpoint last_elem (last s : list Z) : list Z :=
  match s with
  | [] => last
  | c :: s => last_elem (if c =? 47 then s else last) s
  end.

Section Exec.
Context {D C : Type} `{Disk D}.
Context (kend trampoline : Z).
#[local] Existing Instance vm_pages.
Notation MX := (M (io D C uproc * proc)).

Definition on_kmem {A} (m : M kmem A) : MX A :=
  zoom (λ s, um_mem s.1.2) (λ k s, ((s.1.1, mkU k (um_root s.1.2)), s.2)) m.

Definition put_kernel (u : uproc) (dst : Z) (l : list Z) : bool * uproc := either_copyout false u dst l.

(** [readi] into kernel memory, and into a local variable. *)
Definition readi_kernel (ip : nat) (dst off n : Z) : MX Z :=
  do u <- mem_of;
  do r <- by_me (λ pid, readi pid put_kernel ip u dst off n);
  on_io (on_mem (λ _, Ok tt r.2)) ;;;
  ret r.1.
Definition readi_var (ip : nat) (off n : Z) : MX (Z * list Z) :=
  by_me (λ pid, readi pid put_local ip (replicate (Z.to_nat n) 0) 0 off n).

Fixpoint loadseg_loop (fuel : nat) (pagetable va : Z) (ip : nat) (offset sz i : Z) : MX Z :=
  if i <? sz then
    match fuel with
    | O => nofuel
    | S fuel =>
        do pa <- on_kmem (walkaddr pagetable (u64 (va + i)));
        if pa =? 0 then panic "loadseg: address should exist"
        else
          let n := if sz - i <? PGSIZE then sz - i else PGSIZE in
          do r <- readi_kernel ip pa (u32 (offset + i)) n;
          if negb (u32 r =? n) then ret (-1)
          else loadseg_loop fuel pagetable va ip offset sz (u32 (i + PGSIZE))
    end
  else ret 0.

Definition loadseg (pagetable va : Z) (ip : nat) (offset sz : Z) : MX Z :=
  loadseg_loop (S (Z.to_nat (sz / PGSIZE))) pagetable va ip offset sz 0.

(** The label [bad]: [pagetable] and [ip] as they are there. *)
Definition exec_bad (pagetable sz : Z) (ip : option nat) : MX Z :=
  (if pagetable =? 0 then ret tt else on_kmem (proc_freepagetable kend pagetable sz)) ;;;
  match ip with
  | Some ip => s_iunlockput ip ;;; send_op
  | None => ret tt
  end ;;;
  ret (-1).

(** The loop over the program headers: the size reached, and false after a
    jump to [bad].  [k] is the number of headers left. *)
Fixpoint load_segments (k : nat) (pagetable : Z) (ip : nat) (off sz : Z) : MX (bool * Z) :=
  match k with
  | O => ret (true, sz)
  | S k =>
      do r <- readi_var ip (u32 off) PROGHDR_SIZE;
      let '(r, l) := r in
      let ph := proghdr_of l in
      let off' := i32 (off + PROGHDR_SIZE) in
      if negb (u32 r =? PROGHDR_SIZE) then ret (false, sz)
      else if negb (ph_type ph =? ELF_PROG_LOAD) then load_segments k pagetable ip off' sz
      else if ph_memsz ph <? ph_filesz ph then ret (false, sz)
      else if u64 (ph_vaddr ph + ph_memsz ph) <? ph_vaddr ph then ret (false, sz)
      else if negb (ph_vaddr ph mod PGSIZE =? 0) then ret (false, sz)
      else
        do sz1 <- on_kmem (uvmalloc kend pagetable sz (u64 (ph_vaddr ph + ph_memsz ph)) (flags2perm (ph_flags ph)));
        if sz1 =? 0 then ret (false, sz)
        else
          do r <- loadseg pagetable (ph_vaddr ph) ip (u32 (ph_off ph)) (u32 (ph_filesz ph));
          if r <? 0 then ret (false, sz1) else load_segments k pagetable ip off' sz1
  end.

(** [argv[argc]] with its NUL. *)
Definition arg_string (u : uproc) (pa : Z) : option (list Z) :=
  let m := km_mem (um_mem u) in
  match strlen (Z.to_nat PGSIZE) (at_ptr m pa) with
  | Some n => Some (read_bytes m pa (Z.to_nat n + 1))
  | None => None
  end.

(** Push the strings: the stack pointer and [ustack], or [None] at [bad]. *)
Fixpoint push_args (argv : list Z) (pagetable stackbase sp : Z) (ustack : list Z) :
    MX (option (Z * list Z)) :=
  match argv with
  | [] => ret (Some (sp, ustack))
  | pa :: argv =>
      if MAXARG <=? Z.of_nat (length ustack) then ret None
      else
        do u <- mem_of;
        match arg_string u pa with
        | None => undef
        | Some s =>
            let sp := u64 (sp - Z.of_nat (length s)) in
            let sp := sp - sp mod 16 in
            if sp <? stackbase then ret None
            else
              do r <- on_kmem (copyout pagetable sp s);
              if r <? 0 then ret None
              else push_args argv pagetable stackbase sp (ustack ++ [sp])
        end
  end.

(** From the end of loading on: the stack, the arguments, the new image.
    [ustack] has MAXARG elements, so its terminator fits only below that. *)
Definition exec_stack (path : list Z) (argv : list Z) (elf : elfhdr) (pagetable sz : Z) : MX Z :=
  do p <- myproc;
  let oldsz := p_sz p in
  let sz := PGROUNDUP sz in
  do sz1 <- on_kmem (uvmalloc kend pagetable sz (u64 (sz + (USERSTACK + 1) * PGSIZE)) PTE_W);
  if sz1 =? 0 then exec_bad pagetable sz None
  else
    let sz := sz1 in
    on_kmem (uvmclear pagetable (u64 (sz - (USERSTACK + 1) * PGSIZE))) ;;;
    let stackbase := u64 (sz - USERSTACK * PGSIZE) in
    do r <- push_args argv pagetable stackbase sz [];
    match r with
    | None => exec_bad pagetable sz None
    | Some (sp, ustack) =>
        let argc := Z.of_nat (length ustack) in
        if MAXARG <=? argc then undef
        else
          let sp := u64 (sp - (argc + 1) * 8) in
          let sp := sp - sp mod 16 in
          if sp <? stackbase then exec_bad pagetable sz None
          else
            do r <- on_kmem (copyout pagetable sp (mjoin (le_bytes 8 <$> (ustack ++ [0]))));
            if r <? 0 then exec_bad pagetable sz None
            else
              on_kmem (store_word (p_trapframe p + TF_a0 + 8) sp) ;;;
              upd_me (λ p, set_name (copy_name (p_name p) (last_elem path path)) p) ;;;
              let oldpagetable := p_pagetable p in
              upd_me (λ p, set_sz sz (set_pagetable pagetable p)) ;;;
              on_io (on_mem (modify (λ u, mkU (um_mem u) pagetable))) ;;;
              on_kmem (store_word (p_trapframe p + TF_epc) (e_entry elf)) ;;;
              on_kmem (store_word (p_trapframe p + TF_sp) sp) ;;;
              on_kmem (proc_freepagetable kend oldpagetable oldsz) ;;;
              ret (i32 argc)
    end.

Definition exec (path : list Z) (argv : list Z) : MX Z :=
  sbegin_op ;;;
  do o <- s_namei path;
  match o with
  | None => send_op ;;; ret (-1)
  | Some ip =>
      s_ilock ip ;;;
      do r <- readi_var ip 0 ELFHDR_SIZE;
      let '(r, l) := r in
      let elf := elfhdr_of l in
      if negb (u32 r =? ELFHDR_SIZE) then exec_bad 0 0 (Some ip)
      else if negb (e_magic elf =? ELF_MAGIC) then exec_bad 0 0 (Some ip)
      else
        do p <- myproc;
        do pagetable <- on_kmem (proc_pagetable kend trampoline (p_trapframe p));
        if pagetable =? 0 then exec_bad 0 0 (Some ip)
        else
          do r <- load_segments (Z.to_nat (e_phnum elf)) pagetable ip (i32 (e_phoff elf)) 0;
          let '(ok, sz) := r in
          if negb ok then exec_bad pagetable sz (Some ip)
          else
            s_iunlockput ip ;;;
            send_op ;;;
            exec_stack path argv elf pagetable sz
  end.
End Exec.
