(* ===== verification/ExecSpec.v ===== *)
(** * ExecSpec: replacing the image of a process

    The second half of [exec] of Exec.v, from the loaded program on: the stack,
    the arguments, the change of image.  Two address spaces, the old image and the
    new one, live over one page allocator. *)
From stdpp Require Import functions.
From S2P Require Import Prelude Riscv CString Kalloc Vm VmSpec VmUser VmCopy Spinlock Bio Log UserMem Fs File Proc VmFree Sysfile Exec.

(** ** Clearing the user flag *)

Definition no_user (v : Z) : Z := Z.land v (u64 (Z.lnot PTE_U)).

Lemma testbit_no_user v k : 0 ≤ k → Z.testbit (no_user v) k = Z.testbit v k && (k <? 64) && negb (k =? 4).
Proof.
  intros Hk. unfold no_user. rewrite Z.land_spec, <- andb_assoc. f_equal. unfold u64, PTE_U.
  destruct (Z.ltb_spec k 64).
  - rewrite Z.mod_pow2_bits_low, Z.lnot_spec by lia. rewrite Z.shiftl_spec by lia. cbn [andb]. f_equal.
    destruct (Z.eqb_spec k 4) as [->|]; [done|]. destruct (Z.ltb_spec k 4); [by rewrite Z.testbit_neg_r by lia|].
    rewrite (Z.bits_above_log2 1 (k - 4)); [done|lia|cbn; lia].
  - rewrite Z.mod_pow2_bits_high by lia. done.
Qed.

Lemma no_user_range v : 0 ≤ no_user v < 2 ^ 64.
Proof.
  unfold no_user. rewrite Z.land_comm. pose proof (u64_range (Z.lnot PTE_U)) as [H1 H2].
  split; [by apply Z.land_nonneg; left|]. apply Z.le_lt_trans with (u64 (Z.lnot PTE_U)); [|lia].
  destruct (Z.land_nonneg (u64 (Z.lnot PTE_U)) v) as [_ H]. specialize (H (or_introl H1)).
  apply Z.ldiff_le; [done|]. rewrite Z.land_comm, Z.ldiff_land. apply Z.bits_inj'. intros n Hn.
  rewrite !Z.land_spec, Z.lnot_spec, Z.bits_0 by done. by destruct (Z.testbit v n), (Z.testbit (u64 _) n).
Qed.

Lemma no_user_flags v : has (no_user v) PTE_V = has v PTE_V ∧ has (no_user v) PTE_U = false ∧ has (no_user v) PTE_R = has v PTE_R.
Proof.
  rewrite !has_V, !has_U, !has_R, !testbit_no_user by lia. cbn. by rewrite !andb_true_r, andb_false_r.
Qed.

Lemma no_user_page v : PTE2PA (no_user v) = PTE2PA v.
Proof.
  unfold PTE2PA, u64. apply Z.bits_inj'. intros n Hn. destruct (Z.ltb_spec n 64) as [Hlt|]; [|by rewrite !Z.mod_pow2_bits_high by lia].
  rewrite !Z.mod_pow2_bits_low, !Z.shiftl_spec by lia. destruct (Z.ltb_spec n 12); [by rewrite !Z.testbit_neg_r by lia|].
  rewrite !Z.shiftr_spec, testbit_no_user by lia. rewrite (proj2 (Z.ltb_lt (n - 12 + 10) 64)) by lia.
  rewrite (proj2 (Z.eqb_neq (n - 12 + 10) 4)) by lia. by rewrite !andb_true_r.
Qed.

Lemma R_not_V v : has v PTE_R = true → PTE_FLAGS v ≠ PTE_V.
Proof.
  rewrite has_R. intros HR Hf. apply (f_equal (λ x, Z.testbit x 1)) in Hf. unfold PTE_FLAGS in Hf. rewrite Z.land_spec, HR in Hf. done.
Qed.

Section ExecMem.
Context (kend : Z).
Hypothesis Hend : KERNBASE ≤ kend.

(** ** Two images *)

Lemma uses_ok s root l q : uspace kend s root l → uses (km_mem s) root q → page_ok kend q ∧ q ∉ l.
Proof.
  intros Hus [Ht|(va & Hva & <-)]; [by eapply is_table_ok; [apply Hus|]|].
  destruct (us_page _ _ _ _ Hus va Hva) as (? & ? & _). done.
Qed.

(** While [root] is worked on, what is in use by others stays theirs and keeps its
    bytes. *)
Definition theirs (s s' : kmem) (root : Z) (l l' : list Z) : Prop :=
  ∀ q, page_ok kend q → q ∉ l → ¬ uses (km_mem s) root q →
    q ∉ l' ∧ ¬ uses (km_mem s') root q ∧ ∀ x, in_page q x → km_mem s' x = km_mem s x.

Lemma theirs_refl s root l : theirs s s root l l.
Proof. by intros q. Qed.

Lemma theirs_trans s1 s2 s3 root l1 l2 l3 : theirs s1 s2 root l1 l2 → theirs s2 s3 root l2 l3 → theirs s1 s3 root l1 l3.
Proof.
  intros H1 H2 q Hq Hl Hu. destruct (H1 q Hq Hl Hu) as (Hl2 & Hu2 & Hx2). destruct (H2 q Hq Hl2 Hu2) as (Hl3 & Hu3 & Hx3).
  split; [done|]. split; [done|]. intros x Hx. by rewrite Hx3, Hx2.
Qed.

Lemma kept_theirs s s' root l l' : kept kend [] s s' root l l' → conserves s s' root l l' → theirs s s' root l l'.
Proof.
  intros HK Hc q Hq Hl Hu. destruct (HK q) as (Hl' & _ & Hx); [done|apply not_elem_of_nil|done|intros Ht; apply Hu; by left|].
  split; [done|]. split; [|done]. intros Hu'. destruct (proj2 (Hc q) (or_intror Hu')); done.
Qed.

(** An image whose pages nobody touches. *)
Lemma bystander s s' root sz l l' : image kend s root sz l → kinv kend s' l' →
  (∀ q, uses (km_mem s) root q → q ∉ l' ∧ ∀ x, in_page q x → km_mem s' x = km_mem s x) →
  image kend s' root sz l' ∧ undisturbed s s' root.
Proof.
  intros [Hus Hsz Hmp Htop] Hk Hq. destruct (uspace_change kend s s' root l l' Hus Hk) as (Hus' & Hp & Ht).
  - intros t x Ht. apply Hq. by left.
  - intros t Ht. apply Hq. by left.
  - intros va Hm. apply Hq. right. by exists va.
  - assert (HU : undisturbed s s' root).
    { split; [done|done|]. intros va Hm. unfold uread.
      replace (phys (km_mem s') root va) with (phys (km_mem s) root va) by (unfold phys, upage; by rewrite Hp).
      apply (Hq (upage (km_mem s) root va)); [right; by exists va|]. apply phys_in_page. }
    split; [|done]. split; [done|done| |].
    + intros va. rewrite <- Hmp. by apply undisturbed_mapped.
    + intros va Hva. rewrite Hp. by apply Htop.
Qed.

(** The pages of two images are different pages. *)
Definition apart (m : mem) (r1 r2 : Z) : Prop := ∀ q, uses m r1 q → ¬ uses m r2 q.

(** The old image while the new one is worked on. *)
Lemma other_image s s' old osz new l l' : image kend s old osz l → apart (km_mem s) old new → theirs s s' new l l' → kinv kend s' l' →
  image kend s' old osz l' ∧ undisturbed s s' old ∧ apart (km_mem s') old new.
Proof.
  intros Him Hap Hth Hk.
  assert (Hq : ∀ q, uses (km_mem s) old q → q ∉ l' ∧ ¬ uses (km_mem s') new q ∧ ∀ x, in_page q x → km_mem s' x = km_mem s x).
  { intros q Hq. destruct (uses_ok s old l q (im_space _ _ _ _ _ Him) Hq). apply Hth; auto. }
  destruct (bystander s s' old osz l l' Him Hk) as [Him' HU]; [intros q Hu; destruct (Hq q Hu) as (? & _ & ?); done|].
  split; [done|]. split; [done|]. intros q Hu%(undisturbed_uses s s' old q HU). by destruct (Hq q Hu) as (_ & ? & _).
Qed.

(** ** uvmclear *)

Lemma uvmclear_spec s root sz l va : image kend s root sz l → va mod PGSIZE = 0 → 0 ≤ va → va + PGSIZE ≤ PGROUNDUP sz →
  has (pte_at (km_mem s) root va) PTE_R = true →
  wp (uvmclear root va) (λ _ s', image kend s' root sz l ∧ theirs s s' root l l ∧ (∀ q, uses (km_mem s') root q ↔ uses (km_mem s) root q) ∧
    (∀ va', 0 ≤ va' < MAXVA → pte_at (km_mem s') root va' =
       if decide (va' / PGSIZE = va / PGSIZE) then no_user (pte_at (km_mem s) root va') else pte_at (km_mem s) root va') ∧
    (∀ va', mapped (km_mem s) root va' → uread (km_mem s') root va' = uread (km_mem s) root va')) s.
Proof.
  intros [Hus Hsz Hmp Htop] Hal Hlo Hhi HR. assert (Htf := TRAPFRAME_eq). assert (Hmax := MAXVA_eq). assert (Etr : TRAMPOLINE = 2 ^ 38 - 4096) by done.
  pose proof (PGROUNDUP_mono sz sz ltac:(lia) ltac:(lia)) as Hr.
  assert (Hmva : mapped (km_mem s) root va) by (apply Hmp; unfold PGSIZE in *; lia). destruct Hus as [Hwf Hu Hlf Hpg Hinj].
  assert (Hva : 0 ≤ va < MAXVA) by (unfold PGSIZE in *; lia).
  destruct (valid_leaf_table _ _ _ (proj2 Hmva)) as [t Ht]. destruct (map_step kend Hend s root l va t Hwf) as [Hld Hpos]; [done..|].
  unfold uvmclear. apply wp_bind. unfold wp at 1. rewrite walk_noalloc by lia. rewrite Ht. destruct (Z.eqb_spec (slot t (PX 0 va)) 0); [lia|].
  apply wp_bind. unfold load_word, wp at 1, gets. rewrite Hld. unfold wp, store_word, modify. fold (no_user (pte_at (km_mem s) root va)).
  destruct (leaf_store kend Hend s root l va t (no_user (pte_at (km_mem s) root va)) Hwf Hva (no_user_range _) Ht) as (Hg & Hp & Htb).
  set (s' := set_mem (store64 (km_mem s) (slot t (PX 0 va)) (no_user (pte_at (km_mem s) root va))) s) in *.
  assert (Hpt : ∀ va', 0 ≤ va' < MAXVA → pte_at (km_mem s') root va' =
    if decide (va' / PGSIZE = va / PGSIZE) then no_user (pte_at (km_mem s) root va') else pte_at (km_mem s) root va').
  { intros va' Hva'. rewrite Hp by done. case_decide as Hd; [|done]. by rewrite (pte_at_same_page _ _ va' va). }
  assert (Hrng : ∀ va', 0 ≤ va' < TRAPFRAME → 0 ≤ va' < MAXVA) by (intros; lia).
  assert (HV : ∀ va', 0 ≤ va' < MAXVA → has (pte_at (km_mem s') root va') PTE_V = has (pte_at (km_mem s) root va') PTE_V).
  { intros va' Hva'. rewrite Hpt by done. case_decide; [|done]. by destruct (no_user_flags (pte_at (km_mem s) root va')) as [-> _]. }
  assert (Hup : ∀ va', 0 ≤ va' < MAXVA → upage (km_mem s') root va' = upage (km_mem s) root va').
  { intros va' Hva'. unfold upage. rewrite Hpt by done. case_decide; [apply no_user_page|done]. }
  assert (Hm : ∀ va', mapped (km_mem s') root va' ↔ mapped (km_mem s) root va').
  { intros va'. unfold mapped. split; intros [? H']; (split; [done|]); [rewrite <- HV|rewrite HV]; auto. }
  assert (Htab : ∀ q, is_table (km_mem s') root q ↔ is_table (km_mem s) root q).
  { intros q. unfold is_table. split; intros (path & ? & ? & Hq); exists path; (split; [done|]); (split; [done|]); [rewrite <- Htb|rewrite Htb]; done. }
  assert (Huse : ∀ q, uses (km_mem s') root q ↔ uses (km_mem s) root q).
  { intros q. unfold uses. rewrite Htab. apply or_iff_compat_l. split; intros (va' & Hva' & <-); exists va'; (split; [by apply Hm|]).
    - symmetry. apply Hup, Hrng. apply Hva'.
    - apply Hup, Hrng. apply Hva'. }
  assert (HK : kept kend [] s s' root l l) by by apply grown_kept.
  split; [split; [split; [apply Hg|..]|done|..]|split; [|split; [done|split; [done|]]]].
  - intros va' (Hv & HV' & HU). apply Hm, Hu. split; [done|]. rewrite HV in HV' by done. split; [done|]. rewrite Hpt in HU by done.
    case_decide; [|done]. destruct (no_user_flags (pte_at (km_mem s) root va')) as (_ & H' & _). congruence.
  - intros va' Hv. rewrite Hpt by (apply Hrng, Hv). case_decide as Hd; [|by apply Hlf, Hm]. apply R_not_V.
    destruct (no_user_flags (pte_at (km_mem s) root va')) as (_ & _ & ->). by rewrite (pte_at_same_page _ _ va' va).
  - intros va' Hv. rewrite Hup by (apply Hrng, Hv). rewrite Htab. by apply Hpg, Hm.
  - intros v1 v2 H1 H2. rewrite !Hup by (apply Hrng; apply H1 || apply H2). apply Hinj; by apply Hm.
  - intros va'. rewrite Hm. apply Hmp.
  - intros va' Hv. rewrite Hpt by (destruct Hv; lia). rewrite decide_False; [by apply Htop|]. unfold PGSIZE in *. destruct Hv; zdm.
  - apply kept_theirs; [done|]. intros q. by rewrite Huse.
  - intros va' Hv. unfold uread. replace (phys (km_mem s') root va') with (phys (km_mem s) root va') by (unfold phys; rewrite Hup by (apply Hrng, Hv); done).
    destruct (Hpg va' Hv) as (? & ? & ?). destruct (HK (upage (km_mem s) root va')) as (_ & _ & Hx); try done; [apply not_elem_of_nil|]. apply Hx, phys_in_page.
Qed.

(** ** Storing bytes in an image *)

Lemma store_image s root sz l dst src : image kend s root sz l → 0 ≤ dst < 2 ^ 64 →
  (∀ va, dst ≤ va < dst + Z.of_nat (length src) → uwritable (km_mem s) root va) →
  ∃ s', copyout root dst src s = Ok 0 s' ∧ image kend s' root sz l ∧ theirs s s' root l l ∧ (∀ q, uses (km_mem s') root q ↔ uses (km_mem s) root q) ∧
    (∀ va, pte_at (km_mem s') root va = pte_at (km_mem s) root va) ∧
    (∀ va, umapped (km_mem s) root va → uread (km_mem s') root va =
       if decide (dst ≤ va < dst + Z.of_nat (length src)) then nth (Z.to_nat (va - dst)) src 0 else uread (km_mem s) root va).
Proof.
  intros [Hus Hsz Hmp Htop] Hdst Hw.
  destruct (wp_inv _ _ _ (copyout_spec kend Hend root dst src s l Hus Hdst)) as (r & s' & He & Hus' & k & Hk & [Hp _ Hrd Hfr] & Hr).
  destruct Hr as [[-> ->]|(_ & Hlt & Hno)]; [|exfalso; apply Hno, Hw; lia].
  assert (Hout : ∀ q x, page_ok kend q → (¬ ∃ va, mapped (km_mem s) root va ∧ upage (km_mem s) root va = q) → in_page q x → km_mem s' x = km_mem s x).
  { intros q x Hq Hno Hx. apply Hfr. intros va Hva ->. destruct (Hw va Hva) as [Hum _]. pose proof (us_user _ _ _ _ Hus va Hum) as Hm.
    destruct (us_page _ _ _ _ Hus va Hm) as (Hpk & _). apply Hno. exists va. split; [done|].
    destruct (decide (upage (km_mem s) root va = q)) as [|Hne]; [done|]. exfalso.
    by apply (in_page_disjoint kend (upage (km_mem s) root va) q (phys (km_mem s) root va)); [..|apply phys_in_page|]. }
  destruct (uspace_change kend s s' root l l Hus) as (_ & _ & Ht).
  - apply Hus'.
  - intros t x Ht Hx. destruct (is_table_ok kend s root l t (us_wf _ _ _ _ Hus) Ht) as [Htk _]. apply (Hout t); [done| |done].
    intros (va & Hm & <-). by destruct (us_page _ _ _ _ Hus va Hm) as (_ & _ & ?).
  - intros t Ht. by destruct (is_table_ok kend s root l t (us_wf _ _ _ _ Hus) Ht).
  - intros va Hm. by destruct (us_page _ _ _ _ Hus va Hm) as (_ & ? & _).
  - assert (Hm : ∀ va, mapped (km_mem s') root va ↔ mapped (km_mem s) root va) by (intros va; unfold mapped; by rewrite Hp).
    assert (Huse : ∀ q, uses (km_mem s') root q ↔ uses (km_mem s) root q).
    { intros q. apply uses_same; [by intros|done]. }
    exists s'. split; [done|]. split; [|split; [|split; [done|split; [done|done]]]].
    + split; [done|done| |].
      * intros va. rewrite Hm. apply Hmp.
      * intros va Hva. rewrite Hp. by apply Htop.
    + intros q Hq Hl Hu. split; [done|]. rewrite Huse. split; [done|]. intros x Hx. apply (Hout q); [done| |done].
      intros Hex. apply Hu. by right.
Qed.

(** ** Strings in pages of the kernel *)

(** The page at [pa] holds the string [str], whose last byte is its NUL. *)
Definition kstring (m : mem) (pa : Z) (str : list Z) : Prop :=
  ∃ n, strlen (Z.to_nat PGSIZE) (at_ptr m pa) = Some n ∧ str = read_bytes m pa (Z.to_nat n + 1).

Lemma strlen_loop_bound fuel a : ∀ i n, strlen_loop fuel a i = Some n → i ≤ n < i + Z.of_nat fuel.
Proof.
  induction fuel as [|fuel IH]; intros i n H; [done|]. cbn in H. case_match; [apply IH in H; lia|]. simplify_eq. lia.
Qed.

Lemma strlen_loop_same fuel a b : ∀ i, (∀ j, i ≤ j < i + Z.of_nat fuel → a j = b j) → strlen_loop fuel a i = strlen_loop fuel b i.
Proof.
  induction fuel as [|fuel IH]; intros i H; [done|]. cbn. rewrite (H i) by lia. case_match; [|done]. apply IH. intros j Hj. apply H. lia.
Qed.

Lemma strlen_fuel N a n : 0 ≤ N → strlen (Z.to_nat N) a = Some n → 0 ≤ n < N.
Proof. intros HN Hn. apply strlen_loop_bound in Hn. rewrite Z2Nat.id in Hn by done. lia. Qed.

Lemma strlen_page a n : strlen (Z.to_nat PGSIZE) a = Some n → 0 ≤ n < PGSIZE.
Proof. apply strlen_fuel. done. Qed.

Lemma kstring_length m pa str : kstring m pa str → 1 ≤ Z.of_nat (length str) ≤ PGSIZE.
Proof. intros (n & Hn%strlen_page & ->). rewrite length_read_bytes. lia. Qed.

Lemma kstring_same m m' pa str : (∀ x, in_page pa x → m' x = m x) → kstring m pa str → kstring m' pa str.
Proof.
  intros Hm (n & Hn & ->). exists n. pose proof (strlen_page _ _ Hn) as Hb. split.
  - rewrite <- Hn. apply strlen_loop_same. intros j Hj. rewrite Z2Nat.id in Hj by done. apply Hm. unfold in_page. lia.
  - apply read_bytes_ext. intros x Hx. symmetry. apply Hm. unfold in_page. lia.
Qed.

Lemma arg_string_spec s r pa str : kstring (km_mem s) pa str → arg_string (mkU s r) pa = Some str.
Proof. intros (n & Hn & ->). unfold arg_string. cbn [um_mem]. by rewrite Hn. Qed.

(** ** The layout of the stack *)

(** [sp], rounded down to 16 bytes, after [len] bytes have been pushed. *)
Definition pushed (sp len : Z) : Z := (sp - len) - (sp - len) mod 16.

(** Where the strings go below [sp], and the stack pointer afterwards. *)
Fixpoint layout (strs : list (list Z)) (base sp : Z) : option (Z * list Z) :=
  match strs with
  | [] => Some (sp, [])
  | str :: strs =>
      let sp := pushed sp (Z.of_nat (length str)) in
      if sp <? base then None
      else match layout strs base sp with Some (e, ps) => Some (e, sp :: ps) | None => None end
  end.

Lemma pushed_le sp len : pushed sp len + len ≤ sp.
Proof. unfold pushed. pose proof (Z.mod_pos_bound (sp - len) 16). lia. Qed.

Lemma layout_bounds strs base : ∀ sp e ps, layout strs base sp = Some (e, ps) → base ≤ sp → base ≤ e ≤ sp ∧ Forall (λ q, e ≤ q) ps ∧ length ps = length strs.
Proof.
  induction strs as [|str strs IH]; intros sp e ps H Hb; cbn in H; [simplify_eq; split; [lia|by split]|].
  pose proof (pushed_le sp (Z.of_nat (length str))). destruct (Z.ltb_spec (pushed sp (Z.of_nat (length str))) base); [done|].
  destruct (layout strs base _) as [[e' ps']|] eqn:E; [|done]. simplify_eq. apply IH in E as (? & ? & ?); [|lia].
  split; [lia|]. split; [constructor; [lia|done]|]. cbn. congruence.
Qed.

(** What is known of the new image after any number of steps on it. *)
Record stage (s0 s : kmem) (root top : Z) (l0 l : list Z) : Prop := {
  sg_image : image kend s root top l;
  sg_theirs : theirs s0 s root l0 l;
  sg_conserves : conserves s0 s root l0 l;
}.

(** The stack of the new image from [base] to [top] can be written. *)
Definition stack_ok (m : mem) (root base top : Z) : Prop := ∀ va, base ≤ va < top → uwritable m root va.

Lemma stage_store s0 s root top l0 l dst src base : stage s0 s root top l0 l → stack_ok (km_mem s) root base top → 0 ≤ base → top ≤ TRAPFRAME →
  base ≤ dst → dst + Z.of_nat (length src) ≤ top →
  ∃ s', copyout root dst src s = Ok 0 s' ∧ stage s0 s' root top l0 l ∧ stack_ok (km_mem s') root base top ∧
    (∀ va, pte_at (km_mem s') root va = pte_at (km_mem s) root va) ∧
    (∀ va, umapped (km_mem s) root va → uread (km_mem s') root va =
       if decide (dst ≤ va < dst + Z.of_nat (length src)) then nth (Z.to_nat (va - dst)) src 0 else uread (km_mem s) root va).
Proof.
  intros [Him Hth Hco] Hst Hb Htop Hd1 Hd2. assert (Htf := TRAPFRAME_eq).
  destruct (store_image s root top l dst src Him) as (s' & He & Him' & Hth' & Hu & Hp & Hr); [lia|intros va Hva; apply Hst; lia|].
  exists s'. split; [done|]. split; [split; [done|by eapply theirs_trans|]|].
  - intros q. rewrite Hu. apply Hco.
  - split; [|by split]. intros va Hva. unfold uwritable, umapped. rewrite Hp. by apply Hst.
Qed.

Lemma ubytes_is m root va str : (∀ i c, str !! i = Some c → uread m root (va + Z.of_nat i) = c) → ubytes m root va (length str) = str.
Proof.
  intros H. apply list_eq. intros i. destruct (str !! i) as [c|] eqn:E.
  - rewrite lookup_ubytes by by eapply lookup_lt_Some. f_equal. by apply H.
  - apply lookup_ge_None_2. rewrite length_ubytes. by apply lookup_ge_None.
Qed.

(** ** push_args *)
Section Push.
Context {D C : Type} `{Disk D}.

(** The state of the call: everything but memory is fixed. *)
Definition here (f : fstuff D C) (r0 : Z) (p : proc) (s : kmem) : io D C uproc * proc := ((f, mkU s r0), p).

Lemma on_kmem_ok {A} (m : M kmem A) f r0 p s a s' : m s = Ok a s' → on_kmem m (here f r0 p s) = Ok a (here f r0 p s').
Proof. intros Hm. unfold on_kmem, zoom, here. cbn. by rewrite Hm. Qed.

(** The page at [pa] belongs neither to the image nor to the free list and holds a
    string. *)
Definition arg_page (s : kmem) (root : Z) (l : list Z) (pa : Z) (str : list Z) : Prop :=
  page_ok kend pa ∧ pa ∉ l ∧ ¬ uses (km_mem s) root pa ∧ kstring (km_mem s) pa str.

Context (f : fstuff D C) (r0 : Z) (p : proc) (s0 : kmem) (root base top : Z) (l0 l : list Z).
Hypothesis Hbase : PGSIZE ≤ base.
Hypothesis Htop : top ≤ TRAPFRAME.

Lemma push_args_spec argv strs : Forall2 (arg_page s0 root l0) argv strs → ∀ s sp ustack,
  stage s0 s root top l0 l → stack_ok (km_mem s) root base top → base ≤ sp ≤ top → Z.of_nat (length ustack + length argv) ≤ MAXARG →
  ∃ s', push_args argv root base sp ustack (here f r0 p s) =
      Ok (match layout strs base sp with Some (e, ps) => Some (e, ustack ++ ps) | None => None end) (here f r0 p s') ∧
    stage s0 s' root top l0 l ∧ stack_ok (km_mem s') root base top ∧
    (∀ va, pte_at (km_mem s') root va = pte_at (km_mem s) root va) ∧
    (∀ va, umapped (km_mem s) root va → ¬ (base ≤ va < sp) → uread (km_mem s') root va = uread (km_mem s) root va) ∧
    (∀ e ps, layout strs base sp = Some (e, ps) →
      Forall2 (λ q str, ubytes (km_mem s') root q (length str) = str ∧ q + Z.of_nat (length str) ≤ sp) ps strs).
Proof.
  induction 1 as [|pa str argv strs (Hpk & Hpl & Hpu & Hstr) Hrest IH]; intros s sp ustack Hsg Hst Hsp Hlen; cbn [push_args layout].
  { exists s. rewrite app_nil_r. split; [done|]. repeat (split; [done|]). intros e ps [= <- <-]. constructor. }
  cbn [length] in Hlen. destruct (Z.leb_spec MAXARG (Z.of_nat (length ustack))); [lia|].
  assert (Hstr' : kstring (km_mem s) pa str).
  { apply (kstring_same (km_mem s0)); [|done]. destruct (sg_theirs _ _ _ _ _ _ Hsg pa Hpk Hpl Hpu) as (_ & _ & Hx). exact Hx. }
  pose proof (kstring_length _ _ _ Hstr') as Hsl. assert (Htf := TRAPFRAME_eq).
  unfold mem_of, gets. unfold bind at 1. unfold here at 1. cbn [fst snd]. rewrite (arg_string_spec s r0 pa str Hstr').
  rewrite u64_id by (unfold PGSIZE in *; lia). fold (pushed sp (Z.of_nat (length str))). cbv zeta.
  pose proof (pushed_le sp (Z.of_nat (length str))) as Hple. set (sp1 := pushed sp (Z.of_nat (length str))) in *.
  destruct (Z.ltb_spec sp1 base) as [Hlt|Hge].
  { exists s. split; [done|]. repeat (split; [done|]). done. }
  destruct (stage_store s0 s root top l0 l sp1 str base Hsg Hst) as (s1 & He1 & Hsg1 & Hst1 & Hp1 & Hr1); [unfold PGSIZE in *; lia|done|done|lia|].
  erewrite bind_Ok by (by apply on_kmem_ok). cbn [Z.ltb Z.compare].
  destruct (IH s1 sp1 (ustack ++ [sp1]) Hsg1 Hst1) as (s2 & He2 & Hsg2 & Hst2 & Hp2 & Hr2 & Hps2); [lia|rewrite length_app; cbn [length]; lia|].
  assert (Hum : ∀ va, umapped (km_mem s1) root va ↔ umapped (km_mem s) root va) by (intros va; unfold umapped; by rewrite Hp1).
  exists s2. split.
  { rewrite He2. destruct (layout strs base sp1) as [[e ps]|]; [by rewrite <- app_assoc|done]. }
  split; [done|]. split; [done|]. split; [intros va; by rewrite Hp2|]. split.
  - intros va Hva Hnot. rewrite Hr2 by (lia || by apply Hum). rewrite Hr1 by done. by rewrite decide_False by lia.
  - intros e ps He. destruct (layout strs base sp1) as [[e' ps']|]; [|done]. injection He as <- <-. constructor.
    + split; [|lia]. apply ubytes_is. intros i c Hi. pose proof (lookup_lt_Some _ _ _ Hi) as Hlt.
      assert (Hw : umapped (km_mem s) root (sp1 + Z.of_nat i)) by (apply Hst; lia).
      rewrite Hr2 by (lia || by apply Hum). rewrite Hr1, decide_True by (done || lia).
      replace (Z.to_nat (sp1 + Z.of_nat i - sp1)) with i by lia. by apply nth_lookup_Some.
    + eapply Forall2_impl; [apply (Hps2 e' ps' eq_refl)|]. intros q str' [Hq1 Hq2]. split; [done|lia].
Qed.
End Push.

(** ** Giving up the new image *)

(** A page that neither the new image nor the free list has. *)
Definition outside (s : kmem) (root : Z) (l : list Z) (q : Z) : Prop := page_ok kend q ∧ q ∉ l ∧ ¬ uses (km_mem s) root q.

Lemma give_back s0 s root n l0 l : stage s0 s root n l0 l →
  ∃ s' l', proc_freepagetable kend root n s = Ok tt s' ∧ kinv kend s' l' ∧ (∀ q, q ∈ l' ↔ q ∈ l0 ∨ uses (km_mem s0) root q) ∧
    (∀ q, outside s0 root l0 q → q ∉ l' ∧ ∀ x, in_page q x → km_mem s' x = km_mem s0 x).
Proof.
  intros [Him Hth Hco]. destruct (wp_inv _ _ _ (freepagetable_spec kend Hend s root l n Him)) as ([] & s' & He & l' & Hk & Hl & Hm).
  assert (Hl' : ∀ q, q ∈ l' ↔ q ∈ l0 ∨ uses (km_mem s0) root q) by (intros q; rewrite Hl; symmetry; apply Hco).
  exists s', l'. split; [done|]. split; [done|]. split; [done|]. intros q (Hq & Hq0 & Hu). destruct (Hth q Hq Hq0 Hu) as (Hql & Huq & Hx).
  assert (Hout : q ∉ l') by (rewrite Hl'; tauto). split; [done|]. intros x Hin. rewrite (Hm q x) by done. by apply Hx.
Qed.

Lemma old_outside s old osz new l q : image kend s old osz l → apart (km_mem s) old new → uses (km_mem s) old q → outside s new l q.
Proof. intros Him Hap Hq. destruct (uses_ok s old l q (im_space _ _ _ _ _ Him) Hq). split; [done|]. split; [done|]. by apply Hap. Qed.

(** ** Taking the new image *)

Lemma store_tf s a v q x tf : page_ok kend tf → page_ok kend q → q ≠ tf → tf ≤ a → a + 8 ≤ tf + PGSIZE → in_page q x → km_mem (set_mem (store64 (km_mem s) a v) s) x = km_mem s x.
Proof.
  intros Htf Hq Hne Ha1 Ha2 Hx. cbn. apply store64_out. intros Hr. apply (in_page_disjoint kend q tf x); try done. unfold in_page. lia.
Qed.

(** The three registers of the trap frame that [exec] sets. *)
Definition set_regs (s : kmem) (tf a1 epc sp : Z) : kmem :=
  let s := set_mem (store64 (km_mem s) (tf + TF_a0 + 8) a1) s in
  let s := set_mem (store64 (km_mem s) (tf + TF_epc) epc) s in
  set_mem (store64 (km_mem s) (tf + TF_sp) sp) s.

Lemma set_regs_out s tf a1 epc sp q x : page_ok kend tf → page_ok kend q → q ≠ tf → in_page q x → km_mem (set_regs s tf a1 epc sp) x = km_mem s x.
Proof.
  intros Htf Hq Hne Hx. unfold set_regs. cbv zeta. rewrite !(store_tf _ _ _ q x tf) by (done || (unfold TF_a0, TF_epc, TF_sp, PGSIZE; lia)). done.
Qed.

Lemma set_regs_in s tf a1 epc sp : let m := km_mem (set_regs s tf a1 epc sp) in
  load64 m (tf + TF_a0 + 8) = u64 a1 ∧ load64 m (tf + TF_epc) = u64 epc ∧ load64 m (tf + TF_sp) = u64 sp.
Proof.
  unfold set_regs, TF_a0, TF_epc, TF_sp. cbn [km_mem set_mem].
  split_and!; repeat first [rewrite load64_store64; reflexivity|rewrite load64_store64_ne by lia].
Qed.

Lemma take_image s old osz new top l tf a1 epc sp : image kend s old osz l → image kend s new top l → apart (km_mem s) old new →
  outside s old l tf → ¬ uses (km_mem s) new tf →
  ∃ s' l', proc_freepagetable kend old osz (set_regs s tf a1 epc sp) = Ok tt s' ∧ image kend s' new top l' ∧ undisturbed s s' new ∧
    (∀ q, q ∈ l' ↔ q ∈ l ∨ uses (km_mem s) old q) ∧
    load64 (km_mem s') (tf + TF_a0 + 8) = u64 a1 ∧ load64 (km_mem s') (tf + TF_epc) = u64 epc ∧ load64 (km_mem s') (tf + TF_sp) = u64 sp.
Proof.
  intros Hio Hin Hap (Htf & Htl & Hto) Htn. set (s5 := set_regs s tf a1 epc sp).
  assert (Hk5 : kinv kend s5 l).
  { destruct (us_wf _ _ _ _ (im_space _ _ _ _ _ Hin)) as [Hk _ _ _]. unfold s5, set_regs. cbv zeta.
    assert (Hst : ∀ s1 a v, kinv kend s1 l → tf ≤ a → a + 8 ≤ tf + PGSIZE → kinv kend (set_mem (store64 (km_mem s1) a v) s1) l).
    { intros s1 a v Hk1 Ha1 Ha2. apply kinv_write; [done|]. intros q x Hq Hx. symmetry. apply (store_tf s1 a v q x tf); try done.
      - destruct Hk1 as (_ & _ & Hok). by eapply Forall_forall in Hok.
      - congruence. }
    repeat apply Hst; try done; unfold TF_a0, TF_epc, TF_sp, PGSIZE; lia. }
  destruct (bystander s s5 old osz l l Hio Hk5) as [Hio5 Huo5].
  { intros q Hq. destruct (uses_ok s old l q (im_space _ _ _ _ _ Hio) Hq). split; [done|]. intros x Hx. apply (set_regs_out s tf a1 epc sp q x); congruence. }
  assert (Hn5 : ∀ q, uses (km_mem s) new q → page_ok kend q ∧ q ∉ l ∧ ∀ x, in_page q x → km_mem s5 x = km_mem s x).
  { intros q Hq. destruct (uses_ok s new l q (im_space _ _ _ _ _ Hin) Hq). split; [done|]. split; [done|]. intros x Hx. apply (set_regs_out s tf a1 epc sp q x); congruence. }
  destruct (wp_inv _ _ _ (freepagetable_spec kend Hend s5 old l osz Hio5)) as ([] & s6 & He & l6 & Hk6 & Hl6 & Hm6).
  assert (Hl : ∀ q, q ∈ l6 ↔ q ∈ l ∨ uses (km_mem s) old q) by (intros q; by rewrite Hl6, (undisturbed_uses s s5 old q Huo5)).
  destruct (bystander s s6 new top l l6 Hin Hk6) as [Hin6 Hun6].
  { intros q Hq. destruct (Hn5 q Hq) as (Hqk & Hql & Hqx). assert (Hq6 : q ∉ l6) by (rewrite Hl; intros [?|Ho]; [done|by apply (Hap q)]).
    split; [done|]. intros x Hx. rewrite (Hm6 q x) by done. by apply Hqx. }
  exists s6, l6. split; [done|]. split; [done|]. split; [done|]. split; [done|].
  assert (Htf6 : ∀ off, 0 ≤ off → off + 8 ≤ PGSIZE → load64 (km_mem s6) (tf + off) = load64 (km_mem s5) (tf + off)).
  { intros off H1 H2. apply load64_ext. intros x Hx. apply (Hm6 tf); [done|rewrite Hl; tauto|]. unfold in_page. lia. }
  pose proof (set_regs_in s tf a1 epc sp) as (H1 & H2 & H3). unfold TF_a0, TF_epc, TF_sp, PGSIZE in *.
  rewrite <- Z.add_assoc. split_and!; rewrite Htf6 by lia; rewrite ?Z.add_assoc; done.
Qed.

(** ** The stack *)

Lemma has_flags v k : Z.land 1023 k = k → has v k = has (PTE_FLAGS v) k.
Proof. intros Hk. unfold has, PTE_FLAGS. by rewrite <- Z.land_assoc, Hk. Qed.

Lemma image_round s root sz l : image kend s root sz l → PGROUNDUP sz ≤ TRAPFRAME → image kend s root (PGROUNDUP sz) l.
Proof.
  intros [Hus Hsz Hmp Htop] Hr. assert (Htf := TRAPFRAME_eq).
  pose proof (PGROUNDUP_bounds sz ltac:(lia) ltac:(unfold PGSIZE; lia)). pose proof (PGROUNDUP_aligned sz ltac:(lia) ltac:(unfold PGSIZE; lia)).
  split; [done|lia| |done]. intros va. rewrite Hmp, (PGROUNDUP_of_aligned (PGROUNDUP sz)) by (done || unfold PGSIZE; lia). done.
Qed.

(** [uvmalloc] for the guard page and the stack, and [uvmclear]. *)
Lemma make_stack s root n l : image kend s root n l → n mod PGSIZE = 0 → n + 3 * PGSIZE ≤ TRAPFRAME →
  ∃ r s1 l1, uvmalloc kend root n (n + 3 * PGSIZE) PTE_W s = Ok r s1 ∧
    (r = 0 ∧ stage s s1 root n l l1 ∨
     r = n + 3 * PGSIZE ∧ ∃ s2, uvmclear root n s1 = Ok tt s2 ∧ stage s s2 root (n + 3 * PGSIZE) l l1 ∧
       stack_ok (km_mem s2) root (n + PGSIZE) (n + 3 * PGSIZE) ∧
       (∀ va, n ≤ va < n + PGSIZE → ¬ umapped (km_mem s2) root va) ∧
       (∀ va, 0 ≤ va < n → pte_at (km_mem s2) root va = pte_at (km_mem s) root va ∧ uread (km_mem s2) root va = uread (km_mem s) root va)).
Proof.
  intros Him Hal Htop. assert (Htf := TRAPFRAME_eq). assert (Hmax := MAXVA_eq). destruct Him as [Hus Hsz Hmp Htp] eqn:Heq. clear Heq.
  assert (Hrn : PGROUNDUP n = n) by (apply PGROUNDUP_of_aligned; unfold PGSIZE in *; lia || done).
  assert (Hrt : PGROUNDUP (n + 3 * PGSIZE) = n + 3 * PGSIZE) by (apply PGROUNDUP_of_aligned; unfold PGSIZE in *; (lia || zdm)).
  destruct (image_grow kend Hend s root n l (n + 3 * PGSIZE) PTE_W) as (r & s1 & l1 & He & HK & Hc & Hr); [by split|unfold PGSIZE in *; lia|done|].
  pose proof (kept_theirs s s1 root l l1 HK Hc) as Hth. exists r, s1, l1. split; [done|]. destruct Hr as [(-> & Him1 & Hal1)|(-> & Him1 & _)]; [right|left; split; [done|by split]].
  split; [done|]. destruct Hal1 as [N O R]. rewrite Hrn, Hrt in *.
  assert (HR : has (pte_at (km_mem s1) root n) PTE_R = true).
  { destruct (N n ltac:(unfold PGSIZE; lia)) as (_ & Hf & _). rewrite has_flags by done. rewrite Hf. done. }
  destruct (wp_inv _ _ _ (uvmclear_spec s1 root (n + 3 * PGSIZE) l1 n Him1 Hal ltac:(lia) ltac:(rewrite Hrt; unfold PGSIZE; lia) HR))
    as ([] & s2 & He2 & Him2 & Hth2 & Hu2 & Hp2 & Hr2).
  exists s2. split; [done|]. split; [split; [done|by eapply theirs_trans|intros q; rewrite Hu2; apply Hc]|]. split_and!.
  - intros va Hva. destruct (N va ltac:(unfold PGSIZE in *; lia)) as (Hum & Hf & _). unfold uwritable, umapped.
    rewrite Hp2 by (unfold PGSIZE in *; lia). rewrite decide_False by (unfold PGSIZE in *; zdm). split; [done|]. rewrite has_flags by done. by rewrite Hf.
  - intros va Hva (_ & _ & HU). rewrite Hp2 in HU by (unfold PGSIZE in *; lia). rewrite decide_True in HU by (unfold PGSIZE in *; zdm).
    destruct (no_user_flags (pte_at (km_mem s1) root va)) as (_ & H' & _). congruence.
  - intros va Hva. assert (Hm : mapped (km_mem s) root va) by (apply Hmp; lia).
    assert (Hp1 : pte_at (km_mem s1) root va = pte_at (km_mem s) root va) by (apply O; unfold PGSIZE in *; lia).
    split; [rewrite Hp2 by (unfold PGSIZE in *; lia); by rewrite decide_False by (unfold PGSIZE in *; zdm)|].
    rewrite Hr2; [by apply R|]. unfold mapped. by rewrite Hp1.
Qed.

(** ** exec_stack *)

Lemma length_words (ws : list Z) : length (mjoin (le_bytes 8 <$> ws)) = (8 * length ws)%nat.
Proof.
  induction ws as [|w ws IH]; [done|]. change (mjoin (le_bytes 8 <$> w :: ws)) with (le_bytes 8 w ++ mjoin (le_bytes 8 <$> ws)).
  rewrite length_app, IH, length_le_bytes. cbn [length]. lia.
Qed.

(** The stack pointer and the addresses of the strings of a new process. *)
Definition stack_layout (strs : list (list Z)) (base top : Z) : option (Z * list Z) :=
  match layout strs base top with
  | None => None
  | Some (e, ps) =>
      let sp := pushed e ((Z.of_nat (length ps) + 1) * 8) in
      if sp <? base then None else Some (sp, ps)
  end.

(** The image that a program starts with: the loaded program below [n], a page that
    it cannot touch, and on its stack the arguments: the strings, and at [sp] the
    array of their addresses, ended by 0. *)
Record started (s s' : kmem) (new n sp : Z) (ps : list Z) (strs : list (list Z)) : Prop := {
  sd_program : ∀ va, umapped (km_mem s) new va → va < n → umapped (km_mem s') new va ∧ uread (km_mem s') new va = uread (km_mem s) new va;
  sd_guard : ∀ va, n ≤ va < n + PGSIZE → ¬ umapped (km_mem s') new va;
  sd_strings : Forall2 (λ q str, ubytes (km_mem s') new q (length str) = str) ps strs;
  sd_argv : ubytes (km_mem s') new sp (8 * S (length ps)) = mjoin (le_bytes 8 <$> (ps ++ [0]));
  sd_sp : n + PGSIZE ≤ sp < n + 3 * PGSIZE ∧ sp mod 16 = 0;
}.

Lemma ubytes_same m m' root va k : (∀ a, va ≤ a < va + Z.of_nat k → uread m' root a = uread m root a) → ubytes m' root va k = ubytes m root va k.
Proof. intros Hr. unfold ubytes. apply list_fmap_ext. intros i x Hx. apply lookup_seq in Hx as [-> Hi]. cbn. apply Hr. lia. Qed.

(** Where the strings and the array are. *)
Definition in_stack (base top sp : Z) (ps : list Z) (strs : list (list Z)) : Prop :=
  Forall2 (λ q str, base ≤ q ∧ q + Z.of_nat (length str) ≤ top) ps strs ∧ base ≤ sp ∧ sp + Z.of_nat (8 * S (length ps)) ≤ top.

Lemma started_same s s1 s2 new n sp ps strs l : started s s1 new n sp ps strs → uspace kend s1 new l → undisturbed s1 s2 new →
  stack_ok (km_mem s1) new (n + PGSIZE) (n + 3 * PGSIZE) → in_stack (n + PGSIZE) (n + 3 * PGSIZE) sp ps strs → started s s2 new n sp ps strs.
Proof.
  intros [Hp Hg Hs Ha Hsp] Hus HU Hst (Hps & Hb1 & Hb2).
  assert (Hum : ∀ va, umapped (km_mem s2) new va ↔ umapped (km_mem s1) new va) by (intros va; unfold umapped; by rewrite (ud_pte _ _ _ HU)).
  assert (Hrd : ∀ va, umapped (km_mem s1) new va → uread (km_mem s2) new va = uread (km_mem s1) new va) by (intros va Hva; apply (ud_read _ _ _ HU), (us_user _ _ _ _ Hus), Hva).
  split; [| | | |done].
  - intros va Hva Hlt. destruct (Hp va Hva Hlt) as [H1 H2]. split; [by apply Hum|]. rewrite <- H2. by apply Hrd.
  - intros va Hva Hm. by apply (Hg va Hva), Hum.
  - apply Forall2_same_length_lookup. split; [by eapply Forall2_length|]. intros i q str Hq Hstr.
    destruct (Forall2_lookup_lr _ _ _ _ _ _ Hps Hq Hstr) as [H1 H2]. pose proof (Forall2_lookup_lr _ _ _ _ _ _ Hs Hq Hstr) as Hb. cbn beta in Hb.
    rewrite <- Hb at 2. apply ubytes_same. intros a Hva. apply Hrd, Hst. lia.
  - rewrite <- Ha. apply ubytes_same. intros a Hva. apply Hrd, Hst. lia.
Qed.

Section Stack.
Context {D C : Type} `{Disk D}.
Context (f : fstuff D C) (r0 : Z) (p : proc) (s0 : kmem) (root n : Z) (l0 l : list Z).
Hypothesis Hn : 0 ≤ n.
Hypothesis Htop : n + 3 * PGSIZE ≤ TRAPFRAME.
Notation base := (n + PGSIZE).
Notation top := (n + 3 * PGSIZE).

(** The strings and the array of their addresses are stored. *)
Lemma push_all argv strs s e ps : Forall2 (arg_page s0 root l0) argv strs → Z.of_nat (length argv) < MAXARG →
  stage s0 s root top l0 l → stack_ok (km_mem s) root base top → layout strs base top = Some (e, ps) →
  let sp := pushed e ((Z.of_nat (length ps) + 1) * 8) in base ≤ sp →
  ∃ s1 s2, push_args argv root base top [] (here f r0 p s) = Ok (Some (e, ps)) (here f r0 p s1) ∧
    copyout root sp (mjoin (le_bytes 8 <$> (ps ++ [0]))) s1 = Ok 0 s2 ∧ stage s0 s2 root top l0 l ∧ stack_ok (km_mem s2) root base top ∧
    in_stack base top sp ps strs ∧
    ((∀ va, umapped (km_mem s0) root va → va < n → umapped (km_mem s) root va ∧ uread (km_mem s) root va = uread (km_mem s0) root va) →
     (∀ va, n ≤ va < base → ¬ umapped (km_mem s) root va) → started s0 s2 root n sp ps strs).
Proof.
  intros Hargs Hlen Hsg Hst Hlay sp Hsp. assert (Htf := TRAPFRAME_eq).
  destruct (push_args_spec f r0 p s0 root base top l0 l ltac:(unfold PGSIZE in *; lia) ltac:(lia) argv strs Hargs s top [] Hsg Hst ltac:(unfold PGSIZE in *; lia) ltac:(cbn; lia))
    as (s1 & He1 & Hsg1 & Hst1 & Hp1 & Hr1 & Hps1). rewrite Hlay in He1. specialize (Hps1 e ps Hlay).
  destruct (layout_bounds strs base top e ps Hlay ltac:(unfold PGSIZE in *; lia)) as (Heb & Hge & Hlps).
  assert (Hwl : Z.of_nat (length (mjoin (le_bytes 8 <$> (ps ++ [0])))) = (Z.of_nat (length ps) + 1) * 8) by (rewrite length_words, length_app; cbn [length]; lia).
  pose proof (pushed_le e ((Z.of_nat (length ps) + 1) * 8)) as Hple. fold sp in Hple.
  destruct (stage_store s0 s1 root top l0 l sp (mjoin (le_bytes 8 <$> (ps ++ [0]))) base Hsg1 Hst1) as (s2 & He2 & Hsg2 & Hst2 & Hp2 & Hr2); [unfold PGSIZE in *; lia|lia|lia|lia|].
  assert (Hps : Forall2 (λ q str, e ≤ q ∧ q + Z.of_nat (length str) ≤ top ∧ ubytes (km_mem s1) root q (length str) = str) ps strs).
  { apply Forall2_same_length_lookup. split; [done|]. intros i q str Hq Hstr. pose proof (Forall_lookup_1 _ _ _ _ Hge Hq).
    destruct (Forall2_lookup_lr _ _ _ _ _ _ Hps1 Hq Hstr) as [? ?]. done. }
  exists s1, s2. split; [done|]. split; [done|]. split; [done|]. split; [done|]. split.
  { split; [eapply Forall2_impl; [exact Hps|]; intros q str (? & ? & _); lia|]. lia. }
  assert (Hum1 : ∀ va, umapped (km_mem s1) root va ↔ umapped (km_mem s) root va) by (intros va; unfold umapped; by rewrite Hp1).
  assert (Hum2 : ∀ va, umapped (km_mem s2) root va ↔ umapped (km_mem s) root va) by (intros va; unfold umapped; by rewrite Hp2, Hp1).
  intros Hprog Hguard. split.
  - intros va Hva Hlt. destruct (Hprog va Hva Hlt) as [Hm Hr]. split; [by apply Hum2|]. rewrite Hr2 by by apply Hum1.
    rewrite decide_False by (unfold PGSIZE in *; lia). rewrite Hr1 by (done || (unfold PGSIZE in *; lia)). done.
  - intros va Hva Hm. apply (Hguard va Hva). by apply Hum2.
  - eapply Forall2_impl; [exact Hps|]. intros q str (Hq1 & Hq2 & Hb). cbn beta. rewrite <- Hb at 2. apply ubytes_same. intros a Ha.
    rewrite Hr2 by (apply Hst1; lia). by rewrite decide_False by lia.
  - replace (8 * S (length ps))%nat with (length (mjoin (le_bytes 8 <$> (ps ++ [0])))) by lia. apply ubytes_is. intros i c Hi.
    pose proof (lookup_lt_Some _ _ _ Hi). rewrite Hr2 by (apply Hst1; lia). rewrite decide_True by lia.
    replace (Z.to_nat (sp + Z.of_nat i - sp)) with i by lia. by apply nth_lookup_Some.
  - split; [lia|]. unfold sp, pushed. zdm.
Qed.
End Stack.

Lemma root_pos s root sz l : image kend s root sz l → root ≠ 0.
Proof.
  intros Him ->. destruct (uses_ok s 0 l 0 (im_space _ _ _ _ _ Him)) as [Hok _]; [left; exists []; split; [cbn; lia|by split]|].
  pose proof (page_ok_range kend Hend 0 Hok). lia.
Qed.

Section Commit.
Context {D C : Type} `{Disk D}.
Context (f : fstuff D C) (r0 : Z) (p : proc) (s0 : kmem) (new sz : Z) (l0 : list Z).
Notation old := (p_pagetable p).
Notation tf := (p_trapframe p).
Hypothesis Hold : image kend s0 old (p_sz p) l0.
Hypothesis Hap : apart (km_mem s0) old new.
Hypothesis Htf : outside s0 old l0 tf.
Hypothesis Htn : ¬ uses (km_mem s0) new tf.

(** The process is as it was and the pages of the new image are free. *)
Definition gave_up (s' : kmem) (l' : list Z) : Prop :=
  image kend s' old (p_sz p) l' ∧ undisturbed s0 s' old ∧ (∀ x, in_page tf x → km_mem s' x = km_mem s0 x) ∧
  ∀ q, q ∈ l' ↔ q ∈ l0 ∨ uses (km_mem s0) new q.

Lemma exec_bad_run s m l : stage s0 s new m l0 l → ∃ s' l', exec_bad kend new m None (here f r0 p s) = Ok (-1) (here f r0 p s') ∧ gave_up s' l'.
Proof.
  intros Hsg. destruct (give_back s0 s new m l0 l Hsg) as (s' & l' & He & Hk & Hl & Hout). exists s', l'. unfold exec_bad.
  rewrite (proj2 (Z.eqb_neq new 0)) by (by eapply root_pos, Hsg). split; [by erewrite bind_Ok by (by apply on_kmem_ok)|].
  destruct (bystander s0 s' old (p_sz p) l0 l' Hold Hk) as [Him HU]; [intros q Hq; by eapply Hout, old_outside|].
  split; [done|]. split; [done|]. split; [|done]. destruct Htf as (? & ? & _). by apply (Hout tf).
Qed.

(** The process runs the new image, and the pages of the old one are free. *)
Definition took (s' : kmem) (l' : list Z) (sp entry top : Z) : Prop :=
  image kend s' new top l' ∧
  load64 (km_mem s') (tf + TF_a0 + 8) = u64 sp ∧ load64 (km_mem s') (tf + TF_epc) = u64 entry ∧ load64 (km_mem s') (tf + TF_sp) = u64 sp ∧
  ∀ q, q ∈ l' ∨ uses (km_mem s') new q ↔ q ∈ l0 ∨ uses (km_mem s0) new q ∨ uses (km_mem s0) old q.

Lemma commit_run s top l sp entry : stage s0 s new top l0 l →
  ∃ s' l', proc_freepagetable kend old (p_sz p) (set_regs s tf sp entry sp) = Ok tt s' ∧ took s' l' sp entry top ∧ undisturbed s s' new.
Proof.
  intros [Him Hth Hco]. destruct (us_wf _ _ _ _ (im_space _ _ _ _ _ Him)) as [Hk _ _ _].
  destruct (other_image s0 s old (p_sz p) new l0 l Hold Hap Hth Hk) as (Hio & HU & Hap').
  destruct Htf as (Ht1 & Ht2 & Ht3). destruct (Hth tf Ht1 Ht2 Htn) as (Ht4 & Ht5 & _).
  destruct (take_image s old (p_sz p) new top l tf sp entry sp Hio Him Hap') as (s' & l' & He & Him' & HU' & Hl & Hr1 & Hr2 & Hr3); [|done|].
  { split; [done|]. split; [done|]. by rewrite (undisturbed_uses s0 s old tf HU). }
  exists s', l'. split; [done|]. split; [|done]. split; [done|]. repeat (split; [done|]). intros q. rewrite (undisturbed_uses s s' new q HU'), Hl.
  rewrite (undisturbed_uses s0 s old q HU). specialize (Hco q). tauto.
Qed.

Lemma exec_stack_spec path argv strs elf : image kend s0 new sz l0 → Forall2 (arg_page s0 new l0) argv strs → Z.of_nat (length argv) < MAXARG →
  PGROUNDUP sz + 3 * PGSIZE ≤ TRAPFRAME → let n := PGROUNDUP sz in let top := n + 3 * PGSIZE in
  (∃ s' l', exec_stack kend path argv elf new sz (here f r0 p s0) = Ok (-1) (here f r0 p s') ∧ gave_up s' l' ∧
     ((∃ s1, uvmalloc kend new n top PTE_W s0 = Ok 0 s1) ∨ stack_layout strs (n + PGSIZE) top = None)) ∨
  (∃ s' l' sp ps, exec_stack kend path argv elf new sz (here f r0 p s0) =
       Ok (Z.of_nat (length argv)) (here f new (set_sz top (set_pagetable new (set_name (copy_name (p_name p) (last_elem path path)) p))) s') ∧
     stack_layout strs (n + PGSIZE) top = Some (sp, ps) ∧ took s' l' sp (e_entry elf) top ∧ started s0 s' new n sp ps strs).
Proof.
  intros Hnew Hargs Hlen Htop n top. fold n in Htop. assert (Htfe := TRAPFRAME_eq). pose proof (im_size _ _ _ _ _ Hnew) as Hsz.
  assert (Hnal : n mod PGSIZE = 0) by (apply PGROUNDUP_aligned; unfold PGSIZE; lia).
  assert (Hn0 : 0 ≤ n) by (pose proof (PGROUNDUP_bounds sz ltac:(lia) ltac:(unfold PGSIZE; lia)); unfold n; lia).
  pose proof (image_round s0 new sz l0 Hnew ltac:(fold n; unfold PGSIZE in *; lia)) as Him. fold n in Him.
  destruct (make_stack s0 new n l0 Him Hnal Htop) as (r & s1 & l1 & Hua & Hr). unfold exec_stack.
  erewrite (bind_Ok myproc) by reflexivity. cbv zeta. fold n.
  replace (u64 (n + (USERSTACK + 1) * PGSIZE)) with top by (unfold USERSTACK, top; rewrite u64_id; unfold PGSIZE in *; lia).
  erewrite bind_Ok by (apply on_kmem_ok; exact Hua). destruct Hr as [(-> & Hsg)|(-> & s2 & Huc & Hsg & Hst & Hguard & Hprog)].
  { cbn [Z.eqb]. destruct (exec_bad_run s1 n l1 Hsg) as (s' & l' & He & Hg). left. exists s', l'. split; [done|]. split; [done|]. left. by exists s1. }
  fold top in Hua, Hsg, Hst |- *. destruct (Z.eqb_spec top 0); [unfold top, PGSIZE in *; lia|].
  replace (u64 (top - (USERSTACK + 1) * PGSIZE)) with n by (unfold USERSTACK, top; rewrite u64_id; unfold PGSIZE in *; lia).
  replace (u64 (top - USERSTACK * PGSIZE)) with (n + PGSIZE) by (unfold USERSTACK, top; rewrite u64_id; unfold PGSIZE in *; lia).
  erewrite bind_Ok by (apply on_kmem_ok; exact Huc).
  assert (Hbad : ∀ s3 r', stage s0 s3 new top l0 l1 → stack_layout strs (n + PGSIZE) top = None → r' = exec_bad kend new top None (here f r0 p s3) →
    ∃ s' l', r' = Ok (-1) (here f r0 p s') ∧ gave_up s' l' ∧ ((∃ s1, uvmalloc kend new n top PTE_W s0 = Ok 0 s1) ∨ stack_layout strs (n + PGSIZE) top = None)).
  { intros s3 r' Hsg3 Hno ->. destruct (exec_bad_run s3 top l1 Hsg3) as (s' & l' & He & Hg). exists s', l'. split; [done|]. split; [done|]. by right. }
  destruct (layout strs (n + PGSIZE) top) as [[e ps]|] eqn:Hlay.
  2: { left. destruct (push_args_spec f r0 p s0 new (n + PGSIZE) top l0 l1 ltac:(lia) ltac:(unfold top; lia) argv strs Hargs s2 top [] Hsg Hst ltac:(unfold top, PGSIZE in *; lia) ltac:(cbn; lia))
         as (s3 & He3 & Hsg3 & _). rewrite Hlay in He3. erewrite bind_Ok by exact He3. apply (Hbad s3); [done|unfold stack_layout; by rewrite Hlay|done]. }
  pose proof (layout_bounds strs (n + PGSIZE) top e ps Hlay ltac:(unfold top, PGSIZE in *; lia)) as (Heb & _ & Hlps).
  assert (Hla : length ps = length argv) by (rewrite Hlps; symmetry; by eapply Forall2_length).
  set (sp := pushed e ((Z.of_nat (length ps) + 1) * 8)).
  assert (Hsl : stack_layout strs (n + PGSIZE) top = if sp <? n + PGSIZE then None else Some (sp, ps)) by (unfold stack_layout; by rewrite Hlay).
  assert (Hsp64 : u64 (e - (Z.of_nat (length ps) + 1) * 8) = e - (Z.of_nat (length ps) + 1) * 8) by (apply u64_id; unfold MAXARG, top, PGSIZE in *; lia).
  destruct (Z.ltb_spec sp (n + PGSIZE)) as [Hlow|Hok].
  { left. destruct (push_args_spec f r0 p s0 new (n + PGSIZE) top l0 l1 ltac:(lia) ltac:(unfold top; lia) argv strs Hargs s2 top [] Hsg Hst ltac:(unfold top, PGSIZE in *; lia) ltac:(cbn; lia))
      as (s3 & He3 & Hsg3 & _). rewrite Hlay in He3. erewrite bind_Ok by exact He3. cbn [app]. destruct (Z.leb_spec MAXARG (Z.of_nat (length ps))); [lia|].
    rewrite Hsp64. fold (pushed e ((Z.of_nat (length ps) + 1) * 8)). fold sp. rewrite (proj2 (Z.ltb_lt sp (n + PGSIZE))) by done. by apply (Hbad s3). }
  right. destruct (push_all f r0 p s0 new n l0 l1 Hn0 Htop argv strs s2 e ps Hargs Hlen Hsg Hst Hlay Hok) as (s3 & s4 & He3 & He4 & Hsg4 & Hst4 & Hins & Hstd).
  fold sp in He4, Hins, Hstd. erewrite bind_Ok by exact He3. cbv beta iota zeta. rewrite (proj2 (Z.leb_gt MAXARG (Z.of_nat (length ps)))) by lia.
  rewrite Hsp64. fold (pushed e ((Z.of_nat (length ps) + 1) * 8)). fold sp. rewrite (proj2 (Z.ltb_ge sp (n + PGSIZE))) by done.
  erewrite bind_Ok by (apply on_kmem_ok; exact He4). cbn [Z.ltb Z.compare].
  destruct (commit_run s4 top l1 sp (e_entry elf) Hsg4) as (s' & l' & Hfree & Htook & HU).
  exists s', l', sp, ps. split; [|split; [done|split; [done|]]].
  - erewrite (bind_Ok (on_kmem _)) by (by apply on_kmem_ok). erewrite (bind_Ok (upd_me _)) by reflexivity. erewrite (bind_Ok (upd_me _)) by reflexivity.
    erewrite (bind_Ok (on_io _)) by reflexivity. erewrite (bind_Ok (on_kmem _)) by reflexivity. erewrite (bind_Ok (on_kmem _)) by reflexivity.
    erewrite (bind_Ok (on_kmem _)) by (apply on_kmem_ok; exact Hfree). rewrite i32_id by (unfold MAXARG in *; lia). by rewrite Hla.
  - eapply started_same; [|apply Hsg4|exact HU|exact Hst4|exact Hins]. apply Hstd; [|done].
    intros va Hva Hlt. destruct (Hprog va) as [H1 H2]; [destruct Hva; lia|]. unfold umapped. by rewrite H1.
Qed.
End Commit.
End ExecMem.

(** ** A process and a new image beside it *)

Lemma two_images kend trampoline tf s l : KERNBASE ≤ kend → kinv kend s l → page_ok kend tf → tf ∉ l →
  trampoline mod PGSIZE = 0 → 0 ≤ trampoline → trampoline + PGSIZE ≤ 2 ^ 56 →
  ∀ old new s1 s2, proc_pagetable kend trampoline tf s = Ok old s1 → old ≠ 0 → proc_pagetable kend trampoline tf s1 = Ok new s2 → new ≠ 0 →
  ∃ l2, image kend s2 old 0 l2 ∧ image kend s2 new 0 l2 ∧ apart (km_mem s2) old new ∧
    ∀ q, page_ok kend q → q ∉ l → outside kend s2 old l2 q ∧ ¬ uses (km_mem s2) new q.
Proof.
  intros Hend Hk Htf Htl Htr1 Htr2 Htr3 old new s1 s2 E1 Ho E2 Hn.
  destruct (wp_inv _ _ _ (proc_pagetable_spec kend Hend trampoline tf s l Hk Htf Htr1 Htr2 Htr3)) as (r1 & s1' & E1' & l1 & Hk1 & H1).
  rewrite E1 in E1'. injection E1' as <- <-. destruct H1 as [(? & _)|(_ & Him1 & Hst1 & _)]; [done|].
  destruct (wp_inv _ _ _ (proc_pagetable_spec kend Hend trampoline tf s1 l1 Hk1 Htf Htr1 Htr2 Htr3)) as (r2 & s2' & E2' & l2 & Hk2 & H2).
  rewrite E2 in E2'. injection E2' as <- <-. destruct H2 as [(? & _)|(_ & Him2 & Hst2 & _)]; [done|].
  assert (Hold : ∀ q, uses (km_mem s1) old q → q ∉ l2 ∧ ¬ uses (km_mem s2) new q ∧ ∀ x, in_page q x → km_mem s2 x = km_mem s1 x).
  { intros q Hq. destruct (uses_ok kend s1 old l1 q (im_space _ _ _ _ _ Him1) Hq). by apply Hst2. }
  destruct (bystander kend s1 s2 old 0 l1 l2 Him1 Hk2) as [Him HU]; [intros q Hq; destruct (Hold q Hq) as (? & _ & ?); done|].
  exists l2. split; [done|]. split; [done|]. split; [intros q Hq%(undisturbed_uses s1 s2 old q HU); by destruct (Hold q Hq) as (_ & ? & _)|].
  intros q Hq Hl. destruct (Hst1 q Hq Hl) as (Hl1 & Hu1 & _). destruct (Hst2 q Hq Hl1) as (Hl2 & Hu2 & _).
  split; [|done]. split; [done|]. split; [done|]. by rewrite (undisturbed_uses s1 s2 old q HU).
Qed.

(** C9: [exec] replaces the image of a process or leaves everything as it was.
    From the point where the program has been loaded: if there is no memory for
    the stack, or the arguments do not fit it, -1 is returned, the process, its
    memory and its trap frame are as before, and the free pages are those that
    were free and those of the image that is given up.  Otherwise the process has
    the new image: the program as it was loaded, below the stack a page that it
    cannot touch, on the stack the argument strings and the array of their
    addresses ended by 0; the registers hold the entry point, the stack pointer
    and the address of the array; and the pages that are free or in the new image
    are those that were free, or in the new image, or in the old one. *)
Theorem exec_replaces_image (D C : Type) (HD : Disk D) (kend : Z) (f : fstuff D C) (r0 : Z) (p : proc) (s : kmem) (l : list Z)
    (path argv : list Z) (strs : list (list Z)) (elf : elfhdr) (new sz : Z)
    (Hend : KERNBASE ≤ kend) (Hold : image kend s (p_pagetable p) (p_sz p) l) (Hnew : image kend s new sz l)
    (Hap : apart (km_mem s) (p_pagetable p) new)
    (Htf : outside kend s (p_pagetable p) l (p_trapframe p)) (Htn : ¬ uses (km_mem s) new (p_trapframe p))
    (Hargs : Forall2 (arg_page kend s new l) argv strs) (Hlen : Z.of_nat (length argv) < MAXARG)
    (Htop : PGROUNDUP sz + 3 * PGSIZE ≤ TRAPFRAME) :
  let n := PGROUNDUP sz in
  let top := n + 3 * PGSIZE in
  (∃ s' l', exec_stack kend path argv elf new sz (here f r0 p s) = Ok (-1) (here f r0 p s') ∧ gave_up kend p s new l s' l' ∧
     ((∃ s1, uvmalloc kend new n top PTE_W s = Ok 0 s1) ∨ stack_layout strs (n + PGSIZE) top = None)) ∨
  (∃ s' l' sp ps, exec_stack kend path argv elf new sz (here f r0 p s) =
       Ok (Z.of_nat (length argv)) (here f new (set_sz top (set_pagetable new (set_name (copy_name (p_name p) (last_elem path path)) p))) s') ∧
     stack_layout strs (n + PGSIZE) top = Some (sp, ps) ∧ took kend p s new l s' l' sp (e_entry elf) top ∧ started s s' new n sp ps strs).
Proof. exact (exec_stack_spec kend Hend f r0 p s new sz l Hold Hap Htf Htn path argv strs elf Hnew Hargs Hlen Htop). Qed.

(** A machine with sixteen free pages: the first is a trap frame, the second holds
    the argument, then a process and a new image are made. *)
Definition ex_kend : Z := PHYSTOP - 65536.
Definition ex_boot : kmem := state_of (mkKmem (λ _, 0) 0) (kinit ex_kend (mkKmem (λ _, 0) 0)).
Definition ex_tf : Z := value_of 0 (kalloc ex_boot).
Definition ex_1 : kmem := state_of ex_boot (kalloc ex_boot).
Definition ex_arg : Z := value_of 0 (kalloc ex_1).
Definition ex_2 : kmem := state_of ex_boot (kalloc ex_1).
Definition ex_3 : kmem := set_mem (upd (km_mem ex_2) (ex_arg + 1) 0) ex_2.
Definition ex_old : Z := value_of 0 (proc_pagetable ex_kend KERNBASE ex_tf ex_3).
Definition ex_4 : kmem := state_of ex_boot (proc_pagetable ex_kend KERNBASE ex_tf ex_3).
Definition ex_new : Z := value_of 0 (proc_pagetable ex_kend KERNBASE ex_tf ex_4).
Definition ex_5 : kmem := state_of ex_boot (proc_pagetable ex_kend KERNBASE ex_tf ex_4).
Definition ex_proc : proc := mkProc RUNNING None false 0 4 None 274877898752 0 ex_old ex_tf (0, 0) (replicate 16 None) None [].
Definition ex_files : fstuff (Z → list Z) unit :=
  mkFst (mkFs (mkLst (mkCache (λ _, mkBuf false 0 0 (mkSleep 0 0) 0 0 0 []) (λ _, [])) (mkLog 0 0 0 false 0 0 []))
    (mkSb 0 0 0 0 0 0 0 0) (λ _, mkInode 0 0 0 (mkSleep 0 0) false (mkDinode 0 0 0 0 0 [])))
    (λ _, mkFile FD_NONE 0 false false 0 0 0 0) (λ _, Pipe.pipe_init []) tt [].

Lemma ex_kend_ok : KERNBASE ≤ ex_kend.
Proof. unfold ex_kend, PHYSTOP. lia. Qed.

Lemma ex_free : ∃ l, kinv ex_kend ex_3 l ∧ page_ok ex_kend ex_tf ∧ ex_tf ∉ l ∧ page_ok ex_kend ex_arg ∧ ex_arg ∉ l.
Proof.
  destruct (wp_inv _ _ _ (kinit_spec ex_kend ex_kend_ok (mkKmem (λ _, 0) 0) ltac:(unfold ex_kend; lia) eq_refl)) as ([] & s0 & Hi & l & Hk & Hl & _).
  assert (Hb : ex_boot = s0) by (unfold ex_boot; rewrite Hi; reflexivity).
  destruct (wp_inv _ _ _ (kalloc_spec ex_kend s0 l Hk)) as (r1 & s1 & Ha1 & Hr1). rewrite <- Hb in Ha1.
  assert (Hs1 : ex_1 = s1) by (unfold ex_1; rewrite Ha1; reflexivity). assert (Hv1 : ex_tf = r1) by (unfold ex_tf; rewrite Ha1; reflexivity).
  assert (Hin : ∀ k, 0 ≤ k < 16 → PHYSTOP - 4096 * (k + 1) ∈ l) by (intros k Hk'; apply Hl; unfold page_ok, ex_kend, PHYSTOP, KERNBASE, PGSIZE; split; [zdm|lia]).
  destruct l as [|p1 [|p2 l]]; [exfalso; exact (not_elem_of_nil _ (Hin 0 ltac:(lia)))| |].
  { pose proof (Hin 0 ltac:(lia)) as H0%list_elem_of_singleton. pose proof (Hin 1 ltac:(lia)) as H1%list_elem_of_singleton. lia. }
  destruct Hr1 as (-> & Hk1 & _). rewrite <- Hs1 in Hk1.
  destruct (wp_inv _ _ _ (kalloc_spec ex_kend ex_1 (p2 :: l) Hk1)) as (r2 & s2 & Ha2 & Hr2).
  assert (Hs2 : ex_2 = s2) by (unfold ex_2; rewrite Ha2; reflexivity). assert (Hv2 : ex_arg = r2) by (unfold ex_arg; rewrite Ha2; reflexivity). destruct Hr2 as (-> & Hk2 & _). rewrite <- Hs2 in Hk2.
  destruct Hk as (_ & Hnd & Hok). apply NoDup_cons in Hnd as [Hn1 [Hn2 _]%NoDup_cons]. apply Forall_cons in Hok as [Ho1 [Ho2 Hol]%Forall_cons].
  assert (Hn3 : p1 ∉ l) by (intros H'; apply Hn1, elem_of_cons; right; exact H').
  exists l. rewrite Hv1, Hv2. split; [|exact (conj Ho1 (conj Hn3 (conj Ho2 Hn2)))].
  unfold ex_3. rewrite Hv2. apply kinv_write; [exact Hk2|]. clear - Hol Ho2 Hn2. intros q x Hq Hx. symmetry. apply upd_ne. intros ->.
  apply (in_page_disjoint ex_kend q p2 (p2 + 1)); [by eapply Forall_forall in Hol|done|congruence|done|unfold in_page, PGSIZE; lia].
Qed.

Lemma ex_old_run : proc_pagetable ex_kend KERNBASE ex_tf ex_3 = Ok ex_old ex_4 ∧ ex_old ≠ 0.
Proof.
  unfold ex_old, ex_4. assert (Hv : value_of 0 (proc_pagetable ex_kend KERNBASE ex_tf ex_3) ≠ 0) by (vm_compute; discriminate).
  split; [|exact Hv]. destruct (proc_pagetable ex_kend KERNBASE ex_tf ex_3); done.
Qed.

Lemma ex_new_run : proc_pagetable ex_kend KERNBASE ex_tf ex_4 = Ok ex_new ex_5 ∧ ex_new ≠ 0.
Proof.
  unfold ex_new, ex_5. assert (Hv : value_of 0 (proc_pagetable ex_kend KERNBASE ex_tf ex_4) ≠ 0) by (vm_compute; discriminate).
  split; [|exact Hv]. destruct (proc_pagetable ex_kend KERNBASE ex_tf ex_4); done.
Qed.

Lemma ex_string : kstring (km_mem ex_5) ex_arg [5; 0].
Proof. exists 1. split; vm_compute; reflexivity. Qed.

Lemma ex_alloc : value_of 1 (uvmalloc ex_kend ex_new 0 12288 PTE_W ex_5) = 12288.
Proof. vm_compute. reflexivity. Qed.

Lemma ex_images : ∃ l, image ex_kend ex_5 ex_old 0 l ∧ image ex_kend ex_5 ex_new 0 l ∧ apart (km_mem ex_5) ex_old ex_new ∧
  outside ex_kend ex_5 ex_old l ex_tf ∧ ¬ uses (km_mem ex_5) ex_new ex_tf ∧ Forall2 (arg_page ex_kend ex_5 ex_new l) [ex_arg] [[5; 0]].
Proof.
  destruct ex_free as (l & Hk & Ht & Htl & Ha & Hal). destruct ex_old_run as [Eo Ho]. destruct ex_new_run as [En Hn].
  destruct (two_images ex_kend KERNBASE ex_tf ex_3 l ex_kend_ok Hk Ht Htl ltac:(reflexivity) ltac:(discriminate) ltac:(discriminate)
    ex_old ex_new ex_4 ex_5 Eo Ho En Hn) as (l2 & Hio & Hin & Hap & Hq).
  destruct (Hq _ Ht Htl) as [Hot Hut]. destruct (Hq _ Ha Hal) as [(_ & Hal2 & _) Hua].
  exists l2. split; [exact Hio|]. split; [exact Hin|]. split; [exact Hap|]. split; [exact Hot|]. split; [exact Hut|].
  constructor; [|constructor]. exact (conj Ha (conj Hal2 (conj Hua ex_string))).
Qed.

Lemma exec_replaces_image_witness :
  ∃ l s' l' sp ps, exec_stack ex_kend [115; 104] [ex_arg] (mkElf ELF_MAGIC 64 0 0) ex_new 0 (here ex_files ex_old ex_proc ex_5) =
      Ok 1 (here ex_files ex_new (set_sz 12288 (set_pagetable ex_new (set_name (copy_name [] [115; 104]) ex_proc))) s') ∧
    took ex_kend ex_proc ex_5 ex_new l s' l' sp 64 12288 ∧ started ex_5 s' ex_new 0 sp ps [[5; 0]].
Proof.
  destruct ex_images as (l & Hio & Hin & Hap & Hot & Hut & Hargs). exists l.
  destruct (exec_replaces_image _ _ _ ex_kend ex_files ex_old ex_proc ex_5 l [115; 104] [ex_arg] [[5; 0]] (mkElf ELF_MAGIC 64 0 0) ex_new 0
    ex_kend_ok Hio Hin Hap Hot Hut Hargs ltac:(reflexivity) ltac:(discriminate))
    as [(s' & l' & _ & _ & [[s1 Hz]|Hz])|(s' & l' & sp & ps & Hrun & _ & Htook & Hst)].
  - exfalso. pose proof ex_alloc as Hal. change (PGROUNDUP 0 + 3 * PGSIZE) with 12288 in Hz. change (PGROUNDUP 0) with 0 in Hz.
    rewrite Hz in Hal. discriminate Hal.
  - exfalso. vm_compute in Hz. discriminate Hz.
  - exists s', l', sp, ps. exact (conj Hrun (conj Htook Hst)).
Defined.
