(* ===== verification/Syscall.v ===== *)
(** * Syscall: kernel/syscall.c and kernel/sysproc.c

    The kernel's state put together: the process table of Proc.v over the files
    of File.v, which are its [FileOps].  A system call of the process [me] sees
    its own slot, the physical memory and the files. *)
From stdpp Require Import functions.
From S2P Require Import Prelude Riscv CString Kalloc Vm Spinlock Bio Log UserMem Pipe Fs File Proc Sysfile Exec.

(** [num], [name] of kernel/syscall.h. *)
Inductive sysno : Type :=
| SYS_fork | SYS_exit | SYS_wait | SYS_pipe | SYS_read | SYS_kill | SYS_exec | SYS_fstat
| SYS_chdir | SYS_dup | SYS_getpid | SYS_sbrk | SYS_sleep | SYS_uptime | SYS_open | SYS_write
| SYS_mknod | SYS_unlink | SYS_link | SYS_mkdir | SYS_close.

#[export] Instance sysno_eq_dec : EqDecision sysno.
Proof. solve_decision. Defined.

(** The numbers start at 1. *)
Definition sysnos : list sysno :=
  [SYS_fork; SYS_exit; SYS_wait; SYS_pipe; SYS_read; SYS_kill; SYS_exec; SYS_fstat;
   SYS_chdir; SYS_dup; SYS_getpid; SYS_sbrk; SYS_sleep; SYS_uptime; SYS_open; SYS_write;
   SYS_mknod; SYS_unlink; SYS_link; SYS_mkdir; SYS_close].

(** [num > 0 && num < NELEM(syscalls) && syscalls[num]]. *)
Definition sysno_of (num : Z) : option sysno :=
  if 0 <? num then sysnos !! Z.to_nat (num - 1) else None.

(** How a run of a system call ends: with its value for [a0], asleep with a
    local variable to resume from, or never to return. *)
Inductive callend : Type := CReturn (v : Z) | CAsleep (i : Z) | CGone.

Definition of_run (r : run_end) : callend :=
  match r with Return v => CReturn v | Asleep i => CAsleep i end.

Record kern (D C : Type) : Type := mkKern { k_ps : ps (fstuff D C); k_ticks : Z }.
Arguments mkKern {D C}.
Arguments k_ps {D C} _.
Arguments k_ticks {D C} _.

Definition TF_a7 : Z := 168.

Section Syscall.
Context {D C : Type} `{Disk D}.
Context (kend trampoline forkret_addr : Z) (devs : Z → devsw C uproc).

(** File.v as what Proc.v needs; no user memory is involved. *)
Definition with_files {A} (m : M (io D C uproc) A) : M (kmem * fstuff D C) A :=
  zoom (λ s, (s.2, mkU s.1 0)) (λ i s, (um_mem i.2, i.1)) m.

#[export] Instance fstuff_ops : FileOps (fstuff D C) := {|
  op_filedup (f : nat) := with_files (filedup f ;;; ret tt);
  op_fileclose (pid : Z) (f : nat) := with_files (fileclose (H1 := vm_pages kend) pid f);
  op_idup (ip : nat) := with_files (on_fs (idup ip) ;;; ret tt);
  op_iput (pid : Z) (ip : nat) := with_files (on_fs (iput pid ip));
  op_begin := with_files fbegin_op;
  op_end (pid : Z) := with_files (fend_op pid);
  op_root := with_files (on_fs (namei 0 0 [47]));
|}.

Notation MK := (M (kern D C)).

Definition on_ps {A} (m : M (ps (fstuff D C)) A) : MK A := zoom k_ps (λ p s, mkKern p (k_ticks s)) m.

(** What Sysfile.v and Exec.v work on. *)
Definition sys_get (me : nat) (s : ps (fstuff D C)) : io D C uproc * proc :=
  ((files s, mkU (km s) (p_pagetable (procs s me))), procs s me).
Definition sys_put (me : nat) (x : io D C uproc * proc) (s : ps (fstuff D C)) : ps (fstuff D C) :=
  mkPs (um_mem x.1.2) (<[me := x.2]> (procs s)) (nextpid s) (initproc s) x.1.1.
Definition on_sys (me : nat) {A} (m : M (io D C uproc * proc) A) : MK A :=
  on_ps (zoom (sys_get me) (sys_put me) m).

(** ** kernel/sysproc.c *)

Definition arg_int (me : nat) (n : Z) : MK Z := on_sys me (argint n).

Definition sys_exit (me : nat) : MK callend :=
  do n <- arg_int me 0;
  on_ps (exit me n) ;;;
  ret CGone.

Definition sys_getpid (me : nat) : MK callend :=
  do p <- on_ps (get_proc me); ret (CReturn (p_pid p)).

Definition sys_fork (me : nat) : MK callend :=
  do r <- on_ps (fork kend trampoline forkret_addr me); ret (CReturn r).

Definition sys_wait (me : nat) : MK callend :=
  do p <- on_sys me (argaddr 0);
  do r <- on_ps (wait kend me p); ret (CReturn r).

Definition sys_sbrk (me : nat) : MK callend :=
  do n <- arg_int me 0;
  do p <- on_ps (get_proc me);
  do r <- on_ps (growproc kend me n);
  ret (CReturn (if r <? 0 then -1 else p_sz p)).

(** One run of the loop of [sys_sleep] that began at [ticks0]. *)
Definition sleep_run (me : nat) (n ticks0 : Z) : MK callend :=
  do t <- gets k_ticks;
  if u32 (t - ticks0) <? n then
    do k <- on_ps (killed me);
    ret (if k : bool then CReturn (-1) else CAsleep ticks0)
  else ret (CReturn 0).

Definition sys_sleep (me : nat) : MK callend :=
  do n <- arg_int me 0;
  do t <- gets k_ticks;
  sleep_run me (if n <? 0 then 0 else n) t.

Definition sys_kill (me : nat) : MK callend :=
  do pid <- arg_int me 0;
  do r <- on_ps (kill pid); ret (CReturn r).

Definition sys_uptime : MK callend := do t <- gets k_ticks; ret (CReturn t).

(** ** Dispatch *)

#[local] Existing Instance vm_pages.
Definition file_call (me : nat) (m : M (io D C uproc * proc) Z) : MK callend :=
  do r <- on_sys me m; ret (CReturn r).
Definition run_call (me : nat) (m : M (io D C uproc * proc) run_end) : MK callend :=
  do r <- on_sys me m; ret (of_run r).

(** The table [syscalls].  [wkilled] is the killed flag as a write to a pipe
    sees it, [pad] the padding of [struct stat]. *)
Definition syscalls (me : nat) (wkilled : Z → bool) (pad : list Z) (n : sysno) : MK callend :=
  match n with
  | SYS_fork => sys_fork me
  | SYS_exit => sys_exit me
  | SYS_wait => sys_wait me
  | SYS_pipe => file_call me (sys_pipe (H1 := vm_pages kend))
  | SYS_read => run_call me (sys_read devs)
  | SYS_kill => sys_kill me
  | SYS_exec => file_call me (sys_exec (H1 := vm_pages kend) (exec kend trampoline))
  | SYS_fstat => file_call me (sys_fstat pad)
  | SYS_chdir => file_call me sys_chdir
  | SYS_dup => file_call me sys_dup
  | SYS_getpid => sys_getpid me
  | SYS_sbrk => sys_sbrk me
  | SYS_sleep => sys_sleep me
  | SYS_uptime => sys_uptime
  | SYS_open => file_call me (sys_open (H1 := vm_pages kend))
  | SYS_write => run_call me (sys_write devs wkilled)
  | SYS_mknod => file_call me sys_mknod
  | SYS_unlink => file_call me sys_unlink
  | SYS_link => file_call me sys_link
  | SYS_mkdir => file_call me sys_mkdir
  | SYS_close => file_call me (sys_close (H1 := vm_pages kend))
  end.

(** [p->trapframe->x] and its assignment. *)
Definition tf_get (me : nat) (off : Z) : MK Z :=
  do p <- on_ps (get_proc me); on_ps (on_km (load_word (p_trapframe p + off))).
Definition tf_set (me : nat) (off v : Z) : MK unit :=
  do p <- on_ps (get_proc me); on_ps (on_km (store_word (p_trapframe p + off) (u64 v))).

Definition syscall (me : nat) (wkilled : Z → bool) (pad : list Z) : MK callend :=
  do a7 <- tf_get me TF_a7;
  match sysno_of (i32 a7) with
  | Some n =>
      do r <- syscalls me wkilled pad n;
      match r with
      | CReturn v => tf_set me TF_a0 v ;;; ret (CReturn v)
      | r => ret r
      end
  | None => tf_set me TF_a0 (-1) ;;; ret (CReturn (-1))
  end.
End Syscall.
