(* ===== verification/Plic.v ===== *)
(** * Plic: kernel/plic.c, the interrupt controller

    A device is what reads and writes of its 32-bit registers do; Virtio.v uses
    the same interface. *)
From S2P Require Import Prelude Riscv.

(** Memory-mapped device registers; a read may change the device. *)
Class Mmio (V : Type) : Type := {
  reg_read : Z → V → Z * V;
  reg_write : Z → Z → V → V;
}.

Section Plic.
Context {V : Type} `{Mmio V}.

Definition PLIC_SENABLE (hart : Z) : Z := PLIC + 8320 + hart * 256.
Definition PLIC_SPRIORITY (hart : Z) : Z := PLIC + 2101248 + hart * 8192.
Definition PLIC_SCLAIM (hart : Z) : Z := PLIC + 2101252 + hart * 8192.

Definition write_reg (a v : Z) : M V unit := modify (reg_write a (u32 v)).
Definition read_reg (a : Z) : M V Z := λ s, let '(v, s) := reg_read a s in Ok (u32 v) s.

Definition plicinit : M V unit :=
  write_reg (PLIC + UART0_IRQ * 4) 1 ;;; write_reg (PLIC + VIRTIO0_IRQ * 4) 1.

Definition plicinithart (hart : Z) : M V unit :=
  write_reg (PLIC_SENABLE hart) (Z.lor (Z.shiftl 1 UART0_IRQ) (Z.shiftl 1 VIRTIO0_IRQ)) ;;;
  write_reg (PLIC_SPRIORITY hart) 0.

Definition plic_claim (hart : Z) : M V Z := do v <- read_reg (PLIC_SCLAIM hart); ret (i32 v).
Definition plic_complete (hart irq : Z) : M V unit := write_reg (PLIC_SCLAIM hart) irq.
End Plic.
