(* ===== verification/Trap.v ===== *)
(** * Trap: kernel/trap.c

    Interrupts, exceptions and system calls on one hart that runs the process
    [me].  The supervisor registers the code reads and writes are a record; the
    interrupt controller is that of Plic.v.  The handlers of the two devices
    are parameters ([uartintr] is modelled in Console.v, [virtio_disk_intr] in
    Virtio.v). *)
From stdpp Require Import functions.
From S2P Require Import Prelude Riscv CString Kalloc Vm Spinlock Bio Log UserMem Pipe Fs File Proc Sysfile Exec Syscall Plic.

(** The registers of a hart; [h_tp] is the hart's number. *)
Record hart : Type := mkHart {
  h_sstatus : Z;
  h_scause : Z;
  h_sepc : Z;
  h_stvec : Z;
  h_satp : Z;
  h_tp : Z;
  h_time : Z;
  h_stimecmp : Z;
}.

Definition w_sstatus (v : Z) (h : hart) : hart :=
  mkHart v (h_scause h) (h_sepc h) (h_stvec h) (h_satp h) (h_tp h) (h_time h) (h_stimecmp h).
Definition w_sepc (v : Z) (h : hart) : hart :=
  mkHart (h_sstatus h) (h_scause h) v (h_stvec h) (h_satp h) (h_tp h) (h_time h) (h_stimecmp h).
Definition w_stvec (v : Z) (h : hart) : hart :=
  mkHart (h_sstatus h) (h_scause h) (h_sepc h) v (h_satp h) (h_tp h) (h_time h) (h_stimecmp h).
Definition w_stimecmp (v : Z) (h : hart) : hart :=
  mkHart (h_sstatus h) (h_scause h) (h_sepc h) (h_stvec h) (h_satp h) (h_tp h) (h_time h) v.

(** Offsets in the trapframe. *)
Definition TF_kernel_satp : Z := 0.
Definition TF_kernel_sp : Z := 8.
Definition TF_kernel_trap : Z := 16.
Definition TF_kernel_hartid : Z := 32.

(** [scause] of an external and of a timer interrupt. *)
Definition EXTERNAL : Z := 2 ^ 63 + 9.
Definition TIMER : Z := 2 ^ 63 + 5.

(** How a trap from user space ends: back in user space with this [satp], with
    the CPU given up (the process resumes in [usertrapret]), asleep in a system
    call, or with the process gone. *)
Inductive trapend : Type := TUser (satp : Z) | TYield | TAsleep | TGone.

Record tstate (D C V : Type) : Type := mkT { t_k : kern D C; t_h : hart; t_plic : V }.
Arguments mkT {D C V}.
Arguments t_k {D C V} _.
Arguments t_h {D C V} _.
Arguments t_plic {D C V} _.

Section Trap.
Context {D C V : Type} `{Disk D, Mmio V}.
Context (kend trampoline forkret_addr : Z) (devs : Z → devsw C uproc).
(** Addresses of [kernelvec], [usertrap], [uservec] and [userret]. *)
Context (kernelvec usertrap_addr uservec userret : Z).
Context (uartintr virtio_disk_intr : M (kern D C) unit).
Notation MT := (M (tstate D C V)).

Definition on_k {A} (m : M (kern D C) A) : MT A := zoom t_k (λ k s, mkT k (t_h s) (t_plic s)) m.
Definition on_h (f : hart → hart) : MT unit := modify (λ s, mkT (t_k s) (f (t_h s)) (t_plic s)).
Definition reg (f : hart → Z) : MT Z := gets (λ s, f (t_h s)).
Definition on_plic {A} (m : M V A) : MT A := zoom t_plic (λ v s, mkT (t_k s) (t_h s) v) m.

Definition h_intr_on : MT unit := on_h (λ h, w_sstatus (Z.lor (h_sstatus h) SSTATUS_SIE) h).
Definition h_intr_off : MT unit := on_h (λ h, w_sstatus (Z.ldiff (h_sstatus h) SSTATUS_SIE) h).

Definition trapinithart : MT unit := on_h (w_stvec kernelvec).

Definition clockintr : MT unit :=
  do id <- reg h_tp;
  (if id =? 0 then
     on_k (modify (λ k, mkKern (k_ps k) (u32 (k_ticks k + 1)))) ;;;
     on_k (on_ps (wakeup None ChTicks))
   else ret tt) ;;;
  on_h (λ h, w_stimecmp (u64 (h_time h + 1000000)) h).

Definition devintr : MT Z :=
  do scause <- reg h_scause;
  if scause =? EXTERNAL then
    do id <- reg h_tp;
    do irq <- on_plic (plic_claim id);
    (if irq =? UART0_IRQ then on_k uartintr
     else if irq =? VIRTIO0_IRQ then on_k virtio_disk_intr
     else ret tt) ;;;
    (if irq =? 0 then ret tt else on_plic (plic_complete id irq)) ;;;
    ret 1
  else if scause =? TIMER then clockintr ;;; ret 2
  else ret 0.

Definition tf_put (me : nat) (off v : Z) : MT unit := on_k (tf_set me off v).

Definition usertrapret (me : nat) : MT trapend :=
  h_intr_off ;;;
  on_h (w_stvec (u64 (TRAMPOLINE + (uservec - trampoline)))) ;;;
  do satp <- reg h_satp;
  tf_put me TF_kernel_satp satp ;;;
  do p <- on_k (on_ps (get_proc me));
  tf_put me TF_kernel_sp (p_kstack p + PGSIZE) ;;;
  tf_put me TF_kernel_trap usertrap_addr ;;;
  do id <- reg h_tp;
  tf_put me TF_kernel_hartid id ;;;
  on_h (λ h, w_sstatus (Z.lor (Z.ldiff (h_sstatus h) SSTATUS_SPP) SSTATUS_SPIE) h) ;;;
  do epc <- on_k (tf_get me TF_epc);
  on_h (w_sepc epc) ;;;
  ret (TUser (MAKE_SATP (p_pagetable p))).

(** [exit(-1)], which does not return. *)
Definition gone (me : nat) : MT trapend := on_k (on_ps (exit (H := fstuff_ops kend) me (-1))) ;;; ret TGone.

(** The end of [usertrap]. *)
Definition usertrap_end (me : nat) (which_dev : Z) : MT trapend :=
  do k <- on_k (on_ps (killed me));
  if k : bool then gone me
  else if which_dev =? 2 then on_k (on_ps (yield me)) ;;; ret TYield
  else usertrapret me.

Definition usertrap (me : nat) (wkilled : Z → bool) (pad : list Z) : MT trapend :=
  do sstatus <- reg h_sstatus;
  if has sstatus SSTATUS_SPP then panic "usertrap: not from user mode"
  else
    on_h (w_stvec kernelvec) ;;;
    do sepc <- reg h_sepc;
    tf_put me TF_epc sepc ;;;
    do scause <- reg h_scause;
    if scause =? 8 then
      do k <- on_k (on_ps (killed me));
      if k : bool then gone me
      else
        do epc <- on_k (tf_get me TF_epc);
        tf_put me TF_epc (epc + 4) ;;;
        h_intr_on ;;;
        do r <- on_k (syscall kend trampoline forkret_addr devs me wkilled pad);
        match r with
        | CReturn _ => usertrap_end me 0
        | CAsleep _ => ret TAsleep
        | CGone => ret TGone
        end
    else
      do which_dev <- devintr;
      (if which_dev =? 0 then on_k (on_ps (setkilled me)) else ret tt) ;;;
      usertrap_end me which_dev.

(** [me] is [None] when no process runs on this hart. *)
Definition kerneltrap (me : option nat) : MT unit :=
  do sepc <- reg h_sepc;
  do sstatus <- reg h_sstatus;
  if negb (has sstatus SSTATUS_SPP) then panic "kerneltrap: not from supervisor mode"
  else if has sstatus SSTATUS_SIE then panic "kerneltrap: interrupts enabled"
  else
    do which_dev <- devintr;
    if which_dev =? 0 then panic "kerneltrap"
    else
      match me with
      | Some me => if which_dev =? 2 then on_k (on_ps (yield me)) else ret tt
      | None => ret tt
      end ;;;
      on_h (w_sepc sepc) ;;;
      on_h (w_sstatus sstatus).
End Trap.
