(* ===== verification/TrapSpec.v ===== *)
(** * TrapSpec: a system call from user space and back

    The path [usertrap], [syscall], [usertrapret] of a process that executes
    [ecall]: what the user program finds when it resumes. *)
From stdpp Require Import functions.
From S2P Require Import Prelude Riscv CString Kalloc Vm Spinlock Bio Log UserMem Pipe Fs File Proc Sysfile Exec Syscall Plic Trap.

Ltac tfw := unfold TF_kernel_satp, TF_kernel_sp, TF_kernel_trap, TF_kernel_hartid, TF_epc, TF_a0, TF_a7 in *.

Section TrapSpec.
Context {D C V : Type} `{Disk D, Mmio V}.
Context (kend trampoline forkret_addr : Z) (devs : Z → devsw C uproc).
Context (kernelvec usertrap_addr uservec : Z) (uartintr virtio_disk_intr : M (kern D C) unit).
Notation MT := (M (tstate D C V)).
Implicit Types (s : tstate D C V).

(** The process [me], its trapframe and the kernel's memory. *)
Definition t_proc s (me : nat) : proc := procs (k_ps (t_k s)) me.
Definition t_mem s : mem := km_mem (km (k_ps (t_k s))).
Definition tf s (me : nat) : Z := p_trapframe (t_proc s me).
Definition put_mem (m : mem) s : tstate D C V :=
  let p := k_ps (t_k s) in
  mkT (mkKern (mkPs (set_mem m (km p)) (procs p) (nextpid p) (initproc p) (files p)) (k_ticks (t_k s))) (t_h s) (t_plic s).

Lemma wp_tf_put me off v (Q : unit → tstate D C V → Prop) s :
  Q tt (put_mem (store64 (t_mem s) (tf s me + off) (u64 v)) s) → wp (tf_put me off v) Q s.
Proof. done. Qed.

Lemma wp_tf_get me off (Q : Z → tstate D C V → Prop) s :
  Q (load64 (t_mem s) (tf s me + off)) s → wp (on_k (tf_get me off)) Q s.
Proof. intros HQ. destruct s as [[[] ?] ? ?]. exact HQ. Qed.

Lemma wp_tf_get_k me off (Q : Z → kern D C → Prop) k :
  Q (load64 (km_mem (km (k_ps k))) (p_trapframe (procs (k_ps k) me) + off)) k → wp (tf_get me off) Q k.
Proof. intros HQ. destruct k as [[] ?]. exact HQ. Qed.

Lemma wp_killed me (Q : bool → tstate D C V → Prop) s :
  Q (p_killed (t_proc s me)) s → wp (on_k (on_ps (killed me))) Q s.
Proof. intros HQ. destruct s as [[[] ?] ? ?]. exact HQ. Qed.

Lemma wp_reg f (Q : Z → tstate D C V → Prop) s : Q (f (t_h s)) s → wp (reg f) Q s.
Proof. done. Qed.

Lemma wp_on_h f (Q : unit → tstate D C V → Prop) s : Q tt (mkT (t_k s) (f (t_h s)) (t_plic s)) → wp (on_h f) Q s.
Proof. done. Qed.

(** What [usertrapret] stores in the trapframe, in order. *)
Definition resume_mem (m : mem) (a satp sp hartid : Z) : mem :=
  store64 (store64 (store64 (store64 m (a + TF_kernel_satp) (u64 satp)) (a + TF_kernel_sp) (u64 sp))
    (a + TF_kernel_trap) (u64 usertrap_addr)) (a + TF_kernel_hartid) (u64 hartid).

Lemma usertrapret_spec me (Q : trapend → tstate D C V → Prop) s :
  let h := t_h s in let a := tf s me in
  let m := resume_mem (t_mem s) a (h_satp h) (p_kstack (t_proc s me) + PGSIZE) (h_tp h) in
  Q (TUser (MAKE_SATP (p_pagetable (t_proc s me))))
    (put_mem m (mkT (t_k s)
      (mkHart (Z.lor (Z.ldiff (Z.ldiff (h_sstatus h) SSTATUS_SIE) SSTATUS_SPP) SSTATUS_SPIE) (h_scause h)
        (load64 m (a + TF_epc)) (u64 (TRAMPOLINE + (uservec - trampoline))) (h_satp h) (h_tp h) (h_time h) (h_stimecmp h)) (t_plic s))) →
  wp (usertrapret trampoline usertrap_addr uservec me) Q s.
Proof.
  intros h a m HQ. unfold usertrapret. destruct s as [[[k pr np ip fl] tk] hh pl].
  apply wp_step, wp_on_h. apply wp_step, wp_on_h. apply wp_step, wp_reg. apply wp_step, wp_tf_put.
  apply wp_step. unfold wp at 1. apply wp_step, wp_tf_put. apply wp_step, wp_tf_put. apply wp_step, wp_reg. apply wp_step, wp_tf_put.
  apply wp_step, wp_on_h. apply wp_step, wp_tf_get. apply wp_step, wp_on_h. apply wp_ret. exact HQ.
Qed.

(** The calls whose value depends on the caller and the clock alone, and the
    numbers that are no calls. *)
Definition call_value s (me : nat) (num : Z) : option Z :=
  match sysno_of num with
  | None => Some (-1)
  | Some SYS_getpid => Some (p_pid (t_proc s me))
  | Some SYS_uptime => Some (k_ticks (t_k s))
  | Some _ => None
  end.

Lemma wp_syscall me wkilled pad v (Q : callend → tstate D C V → Prop) s :
  call_value s me (i32 (load64 (t_mem s) (tf s me + TF_a7))) = Some v →
  Q (CReturn v) (put_mem (store64 (t_mem s) (tf s me + TF_a0) (u64 v)) s) →
  wp (on_k (syscall kend trampoline forkret_addr devs me wkilled pad)) Q s.
Proof.
  destruct s as [[[k pr np ip fl] tk] hh pl]. unfold call_value, t_mem, tf, t_proc. cbn [t_k t_h t_plic k_ps k_ticks km procs].
  intros Hv HQ. unfold on_k. apply wp_zoom. unfold syscall. apply wp_step, wp_tf_get_k. cbn [t_k t_h t_plic k_ps km procs].
  destruct (sysno_of (i32 (load64 (km_mem k) (p_trapframe (pr me) + TF_a7)))) as [[]|]; try discriminate Hv;
    injection Hv as <-; exact HQ.
Qed.

(** A word of the trapframe of [me]. *)
Definition tf_word s (me : nat) (off : Z) : Z := load64 (t_mem s) (tf s me + off).

Lemma resume_mem_other m a satp sp hartid off :
  off = TF_epc ∨ TF_kernel_hartid + 8 ≤ off →
  load64 (resume_mem m a satp sp hartid) (a + off) = load64 m (a + off).
Proof. tfw. intros Ho. unfold resume_mem. tfw. by rewrite !load64_store64_ne by lia. Qed.

Lemma usertrap_ecall me wkilled pad v (Q : trapend → tstate D C V → Prop) s :
  let h := t_h s in let a := tf s me in
  has (h_sstatus h) SSTATUS_SPP = false → h_scause h = 8 → p_killed (t_proc s me) = false →
  call_value s me (i32 (tf_word s me TF_a7)) = Some v →
  let m1 := store64 (store64 (t_mem s) (a + TF_epc) (u64 (h_sepc h))) (a + TF_epc) (u64 (u64 (h_sepc h) + 4)) in
  let m2 := resume_mem (store64 m1 (a + TF_a0) (u64 v)) a (h_satp h) (p_kstack (t_proc s me) + PGSIZE) (h_tp h) in
  Q (TUser (MAKE_SATP (p_pagetable (t_proc s me))))
    (put_mem m2 (mkT (t_k s)
      (mkHart (Z.lor (Z.ldiff (Z.ldiff (Z.lor (h_sstatus h) SSTATUS_SIE) SSTATUS_SIE) SSTATUS_SPP) SSTATUS_SPIE) (h_scause h)
        (load64 m2 (a + TF_epc)) (u64 (TRAMPOLINE + (uservec - trampoline))) (h_satp h) (h_tp h) (h_time h) (h_stimecmp h)) (t_plic s))) →
  wp (usertrap kend trampoline forkret_addr devs kernelvec usertrap_addr uservec uartintr virtio_disk_intr me wkilled pad) Q s.
Proof.
  intros h a Hspp Hsc Hk Hv m1 m2 HQ. unfold usertrap.
  apply wp_step, wp_reg. fold h. rewrite Hspp. apply wp_step, wp_on_h. apply wp_step, wp_reg. apply wp_step, wp_tf_put.
  apply wp_step, wp_reg. cbn [t_h w_stvec h_scause put_mem]. fold h. rewrite Hsc. cbn [Z.eqb Pos.eqb].
  apply wp_step, wp_killed. change (t_proc _ me) with (t_proc s me). rewrite Hk.
  apply wp_step, wp_tf_get. cbn [t_mem put_mem t_k k_ps km km_mem set_mem tf t_proc procs].
  unfold tf at 1 2. change (p_trapframe (t_proc _ me)) with a. rewrite load64_store64, (u64_id (u64 _)) by apply u64_range.
  apply wp_step, wp_tf_put. unfold h_intr_on. apply wp_step, wp_on_h.
  apply wp_step. eapply (wp_syscall me wkilled pad v).
  { unfold call_value, t_mem, tf, t_proc in *. cbn [put_mem t_k k_ps km km_mem set_mem procs k_ticks].
    unfold tf_word, t_mem, tf, t_proc in Hv. fold a. unfold a, tf, t_proc. tfw. rewrite !load64_store64_ne by lia. exact Hv. }
  unfold usertrap_end. apply wp_step, wp_killed. change (t_proc _ me) with (t_proc s me). rewrite Hk. cbn [Z.eqb].
  apply usertrapret_spec. exact HQ.
Qed.
End TrapSpec.

Lemma wp_value {S A} (m : M S A) a (P : S → Prop) s : wp m (λ r s', r = a ∧ P s') s → ∃ s', m s = Ok a s' ∧ P s'.
Proof. intros Hw. destruct (wp_inv _ _ _ Hw) as (r & s' & He & -> & HP). by exists s'. Qed.

Lemma user_sstatus x :
  let y := Z.lor (Z.ldiff (Z.ldiff x SSTATUS_SIE) SSTATUS_SPP) SSTATUS_SPIE in
  has y SSTATUS_SPP = false ∧ has y SSTATUS_SPIE = true ∧ has y SSTATUS_SIE = false.
Proof.
  intros y. change (has y SSTATUS_SPP) with (has y (2 ^ 8)). change (has y SSTATUS_SPIE) with (has y (2 ^ 5)).
  change (has y SSTATUS_SIE) with (has y (2 ^ 1)). rewrite (has_testbit y 8), (has_testbit y 5), (has_testbit y 1) by lia. unfold y.
  rewrite !Z.lor_spec, !Z.ldiff_spec. change (Z.testbit SSTATUS_SPP 8) with true. change (Z.testbit SSTATUS_SPIE 8) with false.
  change (Z.testbit SSTATUS_SPIE 5) with true. change (Z.testbit SSTATUS_SIE 1) with true. change (Z.testbit SSTATUS_SPIE 1) with false.
  change (Z.testbit SSTATUS_SPP 1) with false. simpl. rewrite !andb_false_r, orb_true_r. done.
Qed.

(** A system call returns to the instruction after the [ecall] with its
    result in [a0].  For [getpid], for [uptime] and for every number that is not
    a system call (result -1), [usertrap] of a process that is not killed goes
    back to user space on the process's own page table, in user mode with
    interrupts enabled there and disabled until then; [sepc] is 4 past the
    [ecall], [a0] is the result, every other saved user register is as it was,
    and the trapframe has what the next trap needs of the kernel.  No memory
    outside the trapframe changes. *)
Theorem ecall_returns {D C V} `{Disk D, Mmio V} (kend trampoline forkret_addr : Z) (devs : Z → devsw C uproc)
    (kernelvec usertrap_addr uservec : Z) (uartintr virtio_disk_intr : M (kern D C) unit)
    (s : tstate D C V) (me : nat) (wkilled : Z → bool) (pad : list Z) (v : Z)
    (Hspp : has (h_sstatus (t_h s)) SSTATUS_SPP = false) (Hsc : h_scause (t_h s) = 8)
    (Hk : p_killed (t_proc s me) = false) (Hv : call_value s me (i32 (tf_word s me TF_a7)) = Some v) :
  ∃ s', usertrap kend trampoline forkret_addr devs kernelvec usertrap_addr uservec uartintr virtio_disk_intr me wkilled pad s =
      Ok (TUser (MAKE_SATP (p_pagetable (t_proc s me)))) s' ∧
    h_sepc (t_h s') = u64 (h_sepc (t_h s) + 4) ∧ tf_word s' me TF_a0 = u64 v ∧
    (∀ off, TF_kernel_hartid + 8 ≤ off → off + 8 ≤ TF_a0 ∨ TF_a0 + 8 ≤ off → tf_word s' me off = tf_word s me off) ∧
    (has (h_sstatus (t_h s')) SSTATUS_SPP = false ∧ has (h_sstatus (t_h s')) SSTATUS_SPIE = true ∧
     has (h_sstatus (t_h s')) SSTATUS_SIE = false) ∧
    h_stvec (t_h s') = u64 (TRAMPOLINE + (uservec - trampoline)) ∧
    tf_word s' me TF_kernel_satp = u64 (h_satp (t_h s)) ∧ tf_word s' me TF_kernel_sp = u64 (p_kstack (t_proc s me) + PGSIZE) ∧
    tf_word s' me TF_kernel_trap = u64 usertrap_addr ∧ tf_word s' me TF_kernel_hartid = u64 (h_tp (t_h s)) ∧
    procs (k_ps (t_k s')) = procs (k_ps (t_k s)) ∧ files (k_ps (t_k s')) = files (k_ps (t_k s)) ∧
    ∀ x, ¬ (tf s me ≤ x < tf s me + 288) → t_mem s' x = t_mem s x.
Proof.
  apply wp_value. eapply (usertrap_ecall kend trampoline forkret_addr devs kernelvec usertrap_addr uservec uartintr virtio_disk_intr me wkilled pad v); try done.
  unfold tf_word, tf, t_proc, t_mem. cbn [put_mem t_k t_h k_ps km km_mem set_mem procs files h_sepc h_sstatus h_stvec].
  set (a := p_trapframe (procs (k_ps (t_k s)) me)). set (m := km_mem (km (k_ps (t_k s)))). split_and!.
  - done.
  - rewrite resume_mem_other by (by left). rewrite load64_store64_ne by (tfw; lia). rewrite load64_store64.
    rewrite (u64_id (u64 _)) by apply u64_range. unfold u64. by rewrite Zplus_mod_idemp_l.
  - rewrite resume_mem_other by (right; done). rewrite load64_store64, u64_id by apply u64_range. done.
  - intros off Ho Ha. rewrite resume_mem_other by (by right). tfw. rewrite !load64_store64_ne by lia. done.
  - apply user_sstatus.
  - apply user_sstatus.
  - apply user_sstatus.
  - done.
  - unfold resume_mem. tfw. rewrite !load64_store64_ne by lia. rewrite load64_store64, u64_id by apply u64_range. done.
  - unfold resume_mem. tfw. rewrite !load64_store64_ne by lia. rewrite load64_store64, u64_id by apply u64_range. done.
  - unfold resume_mem. tfw. rewrite !load64_store64_ne by lia. rewrite load64_store64, u64_id by apply u64_range. done.
  - unfold resume_mem. tfw. rewrite load64_store64, u64_id by apply u64_range. done.
  - done.
  - done.
  - intros x Hx. unfold resume_mem. tfw. rewrite !store64_out by lia. done.
Qed.

(** Process 4 in slot 0, about to call [getpid] (number 11). *)
#[local] Instance no_regs : Mmio unit := {| reg_read _ v := (0, v); reg_write _ _ v := v |}.
Definition demo_caller : proc :=
  mkProc RUNNING None false 0 4 None 274877898752 4096 2147491840 2147487744 (0, 0) (replicate 16 None) None [].
Definition demo_fs : fstate (Z → list Z) :=
  mkFs (mkLst (mkCache (λ _, mkBuf false 0 0 (mkSleep 0 0) 0 0 0 []) (λ _, [])) (mkLog 0 0 0 false 0 0 []))
    (mkSb 0 0 0 0 0 0 0 0) (λ _, mkInode 0 0 0 (mkSleep 0 0) false (mkDinode 0 0 0 0 0 [])).
Definition demo_trap : tstate (Z → list Z) unit unit :=
  mkT (mkKern (mkPs (mkKmem (store64 (λ _, 0) (2147487744 + TF_a7) 11) 0) (λ _, demo_caller) 5 None
      (mkFst demo_fs (λ _, mkFile FD_NONE 0 false false 0 0 0 0) (λ _, pipe_init []) tt [])) 100)
    (mkHart 0 8 4096 0 0 0 0 0) tt.

Lemma ecall_returns_witness :
  ∃ s', usertrap 0 0 0 (λ _, mkDevsw None None) 0 0 0 (ret tt) (ret tt) 0 (λ _, false) [] demo_trap =
      Ok (TUser (MAKE_SATP 2147491840)) s' ∧ h_sepc (t_h s') = 4100 ∧ tf_word s' 0 TF_a0 = 4.
Proof.
  destruct (ecall_returns 0 0 0 (λ _, mkDevsw None None) 0 0 0 (ret tt) (ret tt) demo_trap 0 (λ _, false) [] 4)
    as (s' & Hs' & H1 & H2 & _).
  - reflexivity.
  - reflexivity.
  - reflexivity.
  - vm_compute. reflexivity.
  - exists s'. split; [exact Hs'|]. split; [exact H1|exact H2].
Defined.
