(* ===== verification/UserTrap.v ===== *)
(** * UserTrap: from user space into the kernel and back

    The whole path of a system call: [ecall] on the hart of Isa.v, [uservec] of
    trampoline.S under the process's page table, [usertrap] of Trap.v under the
    kernel's, [userret] and [sret].  The page tables are those of Vm.v, read by the
    hardware walk. *)
From stdpp Require Import functions.
From S2P Require Import Prelude Riscv CString Kalloc Vm VmSpec VmUser Spinlock Bio Log UserMem Pipe Fs File Proc VmFree Sysfile Exec ExecSpec Syscall Plic Trap TrapSpec Isa Asm Mmu.

(** ** The trampoline and the trapframe in an address space *)

Section Spaces.
Context (kend : Z).
Hypothesis Hend : KERNBASE ≤ kend.

(** The leaf [mkpte pa perm] under the hart. *)
Lemma translate_leaf s root l cs k va pa perm o n :
  vmwf kend s root l → cs CSR_satp = MAKE_SATP root → pmp_open cs → pte_at (km_mem s) root va = mkpte pa perm → 0 ≤ perm < 1024 →
  va mod PGSIZE = 0 → 0 ≤ va → va + PGSIZE ≤ MAXVA → 0 ≤ pa → pa + PGSIZE ≤ 2 ^ 56 - 4 → pa mod PGSIZE = 0 →
  0 ≤ o → o + n ≤ PGSIZE → 0 < n → o mod n = 0 → PGSIZE mod n = 0 →
  Z.testbit (Z.lor perm PTE_V) 1 = true → Z.testbit (Z.lor perm PTE_V) 4 = false →
  Z.testbit (Z.lor perm PTE_V) (match k with Fetch => 3 | Load => 1 | Store => 2 end) = true →
  translate PrvS cs (km_mem s) k (va + o) n = Some (pa + o).
Proof.
  intros Hwf Hsatp Hpmp Hpte Hperm Hva H0 Hmax Hpa Hpa' Hpal Ho Hon Hn Hoal Hnal HR HU Hk. assert (Hb : va + o < MAXVA) by lia.
  assert (Hpg : (va + o) / PGSIZE = va / PGSIZE) by (unfold PGSIZE in *; zdm).
  assert (Hmo : (va + o) mod PGSIZE = o) by (unfold PGSIZE in *; zdm).
  assert (Hmod : (va + o) mod n = 0).
  { apply Z.mod_divide in Hva, Hnal, Hoal; [|lia..|done]. apply Z.mod_divide; [lia|]. apply Z.divide_add_r; [|done]. by etrans. }
  rewrite (translate_perm kend Hend s root l cs k (va + o) n pa perm) by (done || (rewrite (pte_at_same_page _ _ (va + o) va Hpg); done) || (rewrite Hmo; done) || lia). by rewrite Hk, Hmo.
Qed.

(** The page table at [root] maps the trampoline, and the page [tf] is neither one of
    its tables nor free. *)
Record tramp_in (tramp tf : Z) (s : kmem) (root : Z) (l : list Z) : Prop := {
  ti_wf : vmwf kend s root l;
  ti_pte : pte_at (km_mem s) root TRAMPOLINE = mkpte tramp (Z.lor PTE_R PTE_X);
  ti_free : tf ∉ l;
  ti_table : ¬ is_table (km_mem s) root tf;
}.

(** The page table of a process maps its trapframe besides. *)
Record frame_in (tramp tf : Z) (s : kmem) (root : Z) (l : list Z) : Prop := {
  fi_tramp : tramp_in tramp tf s root l;
  fi_pte : pte_at (km_mem s) root TRAPFRAME = mkpte tf (Z.lor PTE_R PTE_W);
}.

(** Memory that differs from [m] in the trapframe only. *)
Definition but_frame (tf : Z) (m m' : mem) : Prop := ∀ x, ¬ in_page tf x → m' x = m x.

Lemma but_frame_store tf m m' o v : but_frame tf m m' → 0 ≤ o → o + 8 ≤ tf_size → but_frame tf m (store64 m' (tf + o) v).
Proof. intros H H0 H1 x Hx. rewrite store64_out; [by apply H|]. unfold in_page, tf_size, PGSIZE in *. lia. Qed.

Lemma tramp_in_write tramp tf s root l m' : page_ok kend tf → tramp_in tramp tf s root l → but_frame tf (km_mem s) m' → tramp_in tramp tf (set_mem m' s) root l.
Proof.
  intros Htf [Hwf Hp Hl Ht] Hm. assert (Hsame : ∀ t x, page_ok kend t → t ≠ tf → in_page t x → m' x = km_mem s x).
  { intros t x Hok Hne Hx. apply Hm. intros Hx'. by apply (in_page_disjoint kend t tf x). }
  assert (Htab : ∀ t x, is_table (km_mem s) root t → in_page t x → km_mem (set_mem m' s) x = km_mem s x).
  { intros t x Hist Hx. destruct (is_table_ok kend s root l t Hwf Hist). apply (Hsame t); [done|congruence|done]. }
  destruct (data_write _ _ root Htab) as [Hpath Hpte]. split.
  - apply (vmwf_data_write kend s _ root l l Hwf); [|intros t Hist; by destruct (is_table_ok kend s root l t Hwf Hist)|done].
    apply kinv_write; [apply Hwf|]. intros q x Hq Hx. symmetry. apply (Hsame q); [|congruence|done].
    destruct (vm_kinv _ _ _ _ Hwf) as (_ & _ & Hok). by eapply Forall_forall in Hok.
  - by rewrite Hpte.
  - done.
  - by rewrite (is_table_same (km_mem s)).
Qed.

Lemma frame_in_write tramp tf s root l m' : page_ok kend tf → frame_in tramp tf s root l → but_frame tf (km_mem s) m' → frame_in tramp tf (set_mem m' s) root l.
Proof.
  intros Htf [Hti Hp] Hm. split; [by apply tramp_in_write|]. destruct Hti as [Hwf _ Hl Ht]. rewrite <- Hp.
  apply (data_write (km_mem s)). intros t x Hist Hx. destruct (is_table_ok kend s root l t Hwf Hist). apply Hm. intros Hx'.
  apply (in_page_disjoint kend t tf x); [done|done|congruence|done|done].
Qed.

Context (tramp tf : Z) (code : Z → option instr).
Hypothesis Htr : 0 ≤ tramp.
Hypothesis Htr' : tramp + PGSIZE ≤ 2 ^ 56 - 4.
Hypothesis Htra : tramp mod PGSIZE = 0.
Hypothesis Hcode : loaded code tramp trampoline_page.
Hypothesis Htf : page_ok kend tf.

Lemma runs_tramp s root l cs : tramp_in tramp tf s root l → cs CSR_satp = MAKE_SATP root → pmp_open cs →
  runs_at code PrvS cs (but_frame tf (km_mem s)) TRAMPOLINE tramp trampoline_page.
Proof.
  intros Hti Hsatp Hpmp. split; [done| |done|done]. intros m i Hm Hi. change (Z.of_nat (length trampoline_page)) with 78 in Hi.
  destruct (tramp_in_write _ _ _ _ _ m Htf Hti Hm) as [Hwf Hp _ _].
  eapply (translate_leaf (set_mem m s) root l cs Fetch TRAMPOLINE tramp (Z.lor PTE_R PTE_X) (4 * i) 4); try done; try lia; [unfold PGSIZE; lia|zdm].
Qed.

Lemma sees_frame s root l cs k : k ≠ Fetch → frame_in tramp tf s root l → cs CSR_satp = MAKE_SATP root → pmp_open cs →
  sees PrvS cs (but_frame tf (km_mem s)) k TRAPFRAME tf tf_size.
Proof.
  intros Hk Hfi Hsatp Hpmp m o Hm H0 H1 Hal. destruct (frame_in_write _ _ _ _ _ m Htf Hfi Hm) as [[Hwf _ _ _] Hp].
  pose proof (page_ok_range kend Hend tf Htf) as [Hr Ha]. unfold tf_size in H1.
  eapply (translate_leaf (set_mem m s) root l cs k TRAPFRAME tf (Z.lor PTE_R PTE_W) o 8); try done; try (unfold PGSIZE in *; lia). by destruct k.
Qed.

Lemma tramp_split cs P : runs_at code PrvS cs P TRAMPOLINE tramp trampoline_page →
  runs_at code PrvS cs P TRAMPOLINE tramp uservec ∧ runs_at code PrvS cs P (TRAMPOLINE + userret_off) (tramp + userret_off) userret.
Proof. apply runs_at_app. Qed.
End Spaces.

(** ** Into the kernel *)

(** The machine in user mode at an [ecall], with the trap vector and the trapframe as
    [usertrapret] leaves them: [kroot] is the kernel's page table, [ksp] the top of the
    kernel stack. *)
Record in_user (kend tramp tf : Z) (code : Z → option instr) (s : kmem) (root kroot l_sp hartid usertrap_addr : Z) (l : list Z) (st : mach) : Prop := {
  iu_mode : prv st = PrvU;
  iu_ecall : fetch code st = Some ECALL;
  iu_deleg : has (csrs st CSR_medeleg) (2 ^ 8) = true;
  iu_stvec : csrs st CSR_stvec = TRAMPOLINE;
  iu_satp : csrs st CSR_satp = MAKE_SATP root;
  iu_pmp : pmp_open (csrs st);
  iu_regs : ∀ r, w64 (regs st r);
  iu_zero : regs st ZERO = 0;
  iu_ram : ram st = km_mem s;
  iu_user : frame_in kend tramp tf s root l;
  iu_kernel : tramp_in kend tramp tf s kroot l;
  iu_ksatp : load64 (km_mem s) (tf + TF_kernel_satp) = MAKE_SATP kroot;
  iu_ksp : load64 (km_mem s) (tf + TF_kernel_sp) = l_sp;
  iu_ktrap : load64 (km_mem s) (tf + TF_kernel_trap) = usertrap_addr;
  iu_khart : load64 (km_mem s) (tf + TF_kernel_hartid) = hartid;
}.

(** What [usertrap] finds. *)
Record in_kernel (tf kroot ksp hartid usertrap_addr : Z) (st st1 : mach) : Prop := {
  ik_mode : prv st1 = PrvS;
  ik_pc : pc st1 = usertrap_addr;
  ik_sp : regs st1 SP = ksp;
  ik_tp : regs st1 TP = hartid;
  ik_satp : csrs st1 CSR_satp = MAKE_SATP kroot;
  ik_cause : csrs st1 CSR_scause = 8;
  ik_sepc : csrs st1 CSR_sepc = pc st;
  ik_spp : has (csr_get CSR_sstatus (csrs st1)) SSTATUS_SPP = false;
  ik_sie : has (csr_get CSR_sstatus (csrs st1)) SSTATUS_SIE = false;
  ik_pmp : pmp_open (csrs st1);
  ik_frame : ∀ r o, (r, o) ∈ tf_all → load64 (ram st1) (tf + o) = regs st r;
  ik_words : ∀ o, o mod 8 = 0 → o ∉ tf_all.*2 → load64 (ram st1) (tf + o) = load64 (ram st) (tf + o);
  ik_rest : ∀ x, ¬ (tf ≤ x < tf + tf_size) → ram st1 x = ram st x;
}.

Lemma sstatus_view x k : 0 ≤ k → Z.testbit SSTATUS_VIEW k = true → Z.testbit (Z.land x SSTATUS_VIEW) k = Z.testbit x k.
Proof. intros Hk Hv. rewrite Z.land_spec, Hv. apply andb_true_r. Qed.

Lemma with_bit_testbit x j b k : 0 ≤ j → 0 ≤ k → Z.testbit (with_bit x (2 ^ j) b) k = if decide (k = j) then b else Z.testbit x k.
Proof.
  intros Hj Hk. unfold with_bit. case_decide as E; [subst k|]; destruct b.
  - rewrite Z.lor_spec, Z.pow2_bits_true by done. apply orb_true_r.
  - rewrite Z.ldiff_spec, Z.pow2_bits_true by done. apply andb_false_r.
  - rewrite Z.lor_spec, Z.pow2_bits_false by done. apply orb_false_r.
  - rewrite Z.ldiff_spec, Z.pow2_bits_false by done. apply andb_true_r.
Qed.

Lemma enter_kernel kend tramp tf code s root kroot ksp hartid usertrap_addr l st :
  KERNBASE ≤ kend → 0 ≤ tramp → tramp + PGSIZE ≤ 2 ^ 56 - 4 → tramp mod PGSIZE = 0 → loaded code tramp trampoline_page → page_ok kend tf →
  w64 ksp → w64 hartid → w64 usertrap_addr → usertrap_addr mod 2 = 0 →
  in_user kend tramp tf code s root kroot ksp hartid usertrap_addr l st →
  ∃ st1, run code (S (length uservec)) st = Some st1 ∧ in_kernel tf kroot ksp hartid usertrap_addr st st1.
Proof.
  intros Hend Htr Htr' Htra Hcode Htf Wsp Wh Wt Heven [Hmode Hec Hdel Hstvec Hsatp Hpmp Hw Hz Hram Hus Hker Kst Ksp Ktr Kh].
  destruct st as [f c p cs m]. cbn [prv csrs regs ram pc] in *. subst p m.
  set (cs1 := csrs (trap 8 (mkMach f c PrvU cs (km_mem s)))).
  assert (Hother : ∀ r, r ≠ CSR_mstatus → r ≠ CSR_scause → r ≠ CSR_sepc → cs1 r = cs r) by (intros r ? ? ?; unfold cs1, trap; cbn [csrs]; by rewrite !fn_lookup_insert_ne).
  assert (Hsatp1 : cs1 CSR_satp = MAKE_SATP root) by by rewrite Hother.
  assert (Hpmp1 : pmp_open cs1) by (unfold pmp_open; by rewrite !Hother).
  destruct (tramp_split tramp code cs1 _ (runs_tramp kend Hend tramp tf code Htr Htr' Htra Hcode Htf s root l cs1 (fi_tramp _ _ _ _ _ _ Hus) Hsatp1 Hpmp1)) as [Huv _].
  set (m' := save_all (km_mem s) tf f tf_all).
  assert (Hwords : ∀ o, o mod 8 = 0 → o ∉ tf_all.*2 → load64 m' (tf + o) = load64 (km_mem s) (tf + o)) by (intros o Ho Hn; by apply (load_save_other _ _ _ _ tf_size _ tf_all_ok)).
  assert (Hnot : ∀ o, o ∈ [0; 8; 16; 32] → o mod 8 = 0 ∧ o ∉ tf_all.*2).
  { intros o Ho. apply Forall_forall with (x := o) (2 := Ho). apply (bool_decide_unpack _). vm_compute. exact I. }
  assert (Hk : ∀ o v, o ∈ [0; 8; 16; 32] → load64 (km_mem s) (tf + o) = v → load64 m' (tf + o) = v) by (intros o v Ho <-; destruct (Hnot o Ho); by apply Hwords).
  assert (Wk : w64 (MAKE_SATP kroot)).
  { destruct (root_table kend Hend s kroot l (ti_wf _ _ _ _ _ _ Hker)). by apply satp_w64. }
  unfold TF_kernel_satp, TF_kernel_sp, TF_kernel_trap, TF_kernel_hartid in *.
  pose proof (Hk 0 _ ltac:(set_solver) Kst) as K0. pose proof (Hk 8 _ ltac:(set_solver) Ksp) as K8. pose proof (Hk 16 _ ltac:(set_solver) Ktr) as K16.
  pose proof (Hk 32 _ ltac:(set_solver) Kh) as K32. clear Hk Kst Ksp Ktr Kh.
  set (cs2 := uservec_csrs m' tf f cs1). assert (Hsatp2 : cs2 CSR_satp = MAKE_SATP kroot).
  { unfold cs2, uservec_csrs. rewrite fn_lookup_insert. rewrite Z.add_0_r in K0. rewrite K0. by apply u64_id. }
  assert (Hother2 : ∀ r, r ≠ CSR_satp → r ≠ CSR_sscratch → cs2 r = cs1 r) by (intros r ? ?; unfold cs2, uservec_csrs; by rewrite !fn_lookup_insert_ne).
  assert (Hpmp2 : pmp_open cs2) by (unfold pmp_open; by rewrite !Hother2).
  destruct (tramp_split tramp code cs2 _ (runs_tramp kend Hend tramp tf code Htr Htr' Htra Hcode Htf s kroot l cs2 Hker Hsatp2 Hpmp2)) as [Huv2 _].
  destruct (run_uservec code cs1 (but_frame tf (km_mem s)) TRAMPOLINE tramp f (km_mem s) tf Hw Huv
    (sees_frame kend Hend tramp tf Htf s root l cs1 Store ltac:(done) Hus Hsatp1 Hpmp1)
    (sees_frame kend Hend tramp tf Htf s root l cs1 Load ltac:(done) Hus Hsatp1 Hpmp1)
    (λ m o v Hm H0 H1, but_frame_store tf (km_mem s) m o v Hm H0 H1) (λ x _, eq_refl) Huv2) as [Hrun _].
  fold m' cs2 in Hrun. eexists. split.
  { cbn [run]. unfold step. rewrite Hec. cbn [execute prv csrs]. rewrite Hdel. unfold trap at 1. cbn [regs pc prv csrs ram].
    rewrite Hstvec. change (TRAMPOLINE - TRAMPOLINE mod 4) with TRAMPOLINE. exact Hrun. }
  assert (Hreg : ∀ r o, (r, o) ∈ tf_kernel → uservec_regs m' tf f r = u64 (load64 m' (tf + o))) by (intros r o Ho; by apply (load_all_in _ _ _ _ tf_size r o tf_kernel_ok)).
  assert (Hst : ∀ k, 0 ≤ k → Z.testbit SSTATUS_VIEW k = true → Z.testbit (csr_get CSR_sstatus cs2) k = Z.testbit (cs1 CSR_mstatus) k).
  { intros k H0 Hk. cbn [csr_get]. rewrite Hother2 by done. by apply sstatus_view. }
  split; cbn [prv pc regs csrs ram]; try done.
  - rewrite K16, u64_id by done. by apply ldiff_even.
  - rewrite (Hreg SP 8), K8 by member. by apply u64_id.
  - rewrite (Hreg TP 32), K32 by member. by apply u64_id.
  - change SSTATUS_SPP with (2 ^ 8). rewrite has_testbit by lia. rewrite Hst by done. unfold cs1, trap. cbn [csrs prv]. rewrite fn_lookup_insert.
    change SSTATUS_SPP with (2 ^ 8). by rewrite with_bit_testbit by lia.
  - change SSTATUS_SIE with (2 ^ 1). rewrite has_testbit by lia. rewrite Hst by done. unfold cs1, trap. cbn [csrs prv]. rewrite fn_lookup_insert.
    change SSTATUS_SPP with (2 ^ 8). change SSTATUS_SIE with (2 ^ 1). rewrite with_bit_testbit by lia. rewrite decide_False by lia. by rewrite with_bit_testbit by lia.
  - intros r o Ho. unfold m'. rewrite (load_save _ _ _ _ tf_size r o tf_all_ok Ho). apply u64_id, Hw.
  - intros x Hx. by apply (save_all_out _ _ _ _ tf_size _ tf_all_ok).
Qed.

(** ** In the kernel *)

Lemma wp_eq {S A} (m m' : M S A) (Q : A → S → Prop) s s' : m s = m' s' → wp m' Q s' → wp m Q s.
Proof. unfold wp. by intros ->. Qed.

Section Kernel.
Context {D C V : Type} `{Disk D, Mmio V}.
Context (kend trampoline forkret_addr : Z) (devs : Z → devsw C uproc).
Context (kernelvec usertrap_addr uservec : Z) (uartintr virtio_disk_intr : M (kern D C) unit).
Implicit Types (s : tstate D C V).

(** The state in which [syscall] is called: the saved program counter is past the
    [ecall], traps go to [kernelvec], interrupts are on. *)
Definition at_syscall s (me : nat) : tstate D C V :=
  let h := t_h s in let a := tf s me in
  put_mem (store64 (store64 (t_mem s) (a + TF_epc) (u64 (h_sepc h))) (a + TF_epc) (u64 (u64 (h_sepc h) + 4)))
    (mkT (t_k s) (mkHart (Z.lor (h_sstatus h) SSTATUS_SIE) (h_scause h) (h_sepc h) kernelvec (h_satp h) (h_tp h) (h_time h) (h_stimecmp h)) (t_plic s)).

(** The state in which a process that was killed before its [ecall] exits. *)
Definition at_entry s (me : nat) : tstate D C V :=
  let h := t_h s in
  put_mem (store64 (t_mem s) (tf s me + TF_epc) (u64 (h_sepc h)))
    (mkT (t_k s) (mkHart (h_sstatus h) (h_scause h) (h_sepc h) kernelvec (h_satp h) (h_tp h) (h_time h) (h_stimecmp h)) (t_plic s)).

Notation trap := (usertrap kend trampoline forkret_addr devs kernelvec usertrap_addr uservec uartintr virtio_disk_intr).

Lemma reg_eq f s : reg f s = Ok (f (t_h s)) s.
Proof. done. Qed.
Lemma on_h_eq f s : on_h f s = Ok tt (mkT (t_k s) (f (t_h s)) (t_plic s)).
Proof. done. Qed.
Lemma tf_put_eq me off v s : tf_put me off v s = Ok tt (put_mem (store64 (t_mem s) (tf s me + off) (u64 v)) s).
Proof. done. Qed.
Lemma tf_get_eq me off s : on_k (tf_get me off) s = Ok (load64 (t_mem s) (tf s me + off)) s.
Proof. by destruct s as [[[] ?] ? ?]. Qed.
Lemma killed_eq me s : on_k (on_ps (killed me)) s = Ok (p_killed (t_proc s me)) s.
Proof. by destruct s as [[[] ?] ? ?]. Qed.

(** Up to the first look at the flag [killed]. *)
Lemma usertrap_entry me wkilled pad s :
  has (h_sstatus (t_h s)) SSTATUS_SPP = false → h_scause (t_h s) = 8 →
  trap me wkilled pad s =
    if p_killed (t_proc s me) then gone kend me (at_entry s me)
    else (do r <- on_k (syscall kend trampoline forkret_addr devs me wkilled pad);
          match r with
          | CReturn _ => usertrap_end kend trampoline usertrap_addr uservec me 0
          | CAsleep _ => ret TAsleep
          | CGone => ret TGone
          end) (at_syscall s me).
Proof.
  intros Hspp Hsc. unfold usertrap. rewrite (bind_Ok _ _ _ _ _ (reg_eq h_sstatus s)), Hspp.
  rewrite (bind_Ok _ _ _ _ _ (on_h_eq _ s)). rewrite (bind_Ok _ _ _ _ _ (reg_eq h_sepc _)). rewrite (bind_Ok _ _ _ _ _ (tf_put_eq me TF_epc _ _)).
  rewrite (bind_Ok _ _ _ _ _ (reg_eq h_scause _)). cbn [t_h Trap.w_stvec h_scause put_mem]. rewrite Hsc. cbn [Z.eqb Pos.eqb].
  rewrite (bind_Ok _ _ _ _ _ (killed_eq me _)). change (t_proc _ me) with (t_proc s me). destruct (p_killed (t_proc s me)); [done|].
  rewrite (bind_Ok _ _ _ _ _ (tf_get_eq me TF_epc _)). rewrite (bind_Ok _ _ _ _ _ (tf_put_eq me TF_epc _ _)). unfold h_intr_on. rewrite (bind_Ok _ _ _ _ _ (on_h_eq _ _)).
  apply (f_equal (bind _ _)). cbn [t_mem put_mem t_k k_ps km km_mem set_mem]. change (tf _ me) with (tf s me).
  rewrite load64_store64, (u64_id (u64 _)) by apply u64_range. reflexivity.
Qed.

Lemma usertrap_after me wkilled pad v s k2 :
  has (h_sstatus (t_h s)) SSTATUS_SPP = false → h_scause (t_h s) = 8 → p_killed (t_proc s me) = false →
  syscall kend trampoline forkret_addr devs me wkilled pad (t_k (at_syscall s me)) = Ok (CReturn v) k2 →
  trap me wkilled pad s = if p_killed (procs (k_ps k2) me) then gone kend me (mkT k2 (t_h (at_syscall s me)) (t_plic s))
    else usertrapret trampoline usertrap_addr uservec me (mkT k2 (t_h (at_syscall s me)) (t_plic s)).
Proof.
  intros Hspp Hsc Hk Hsys. rewrite (usertrap_entry me wkilled pad s Hspp Hsc), Hk. unfold bind at 1, on_k at 1, zoom at 1. rewrite Hsys.
  unfold usertrap_end. rewrite (bind_Ok _ _ _ _ _ (killed_eq me _)). unfold t_proc. cbn [t_k]. destruct (p_killed (procs (k_ps k2) me)); reflexivity.
Qed.

Lemma usertrap_returns me wkilled pad v s k2 (Q : trapend → tstate D C V → Prop) :
  has (h_sstatus (t_h s)) SSTATUS_SPP = false → h_scause (t_h s) = 8 → p_killed (t_proc s me) = false →
  syscall kend trampoline forkret_addr devs me wkilled pad (t_k (at_syscall s me)) = Ok (CReturn v) k2 → p_killed (procs (k_ps k2) me) = false →
  wp (usertrapret trampoline usertrap_addr uservec me) Q (mkT k2 (t_h (at_syscall s me)) (t_plic s)) → wp (trap me wkilled pad) Q s.
Proof.
  intros Hspp Hsc Hk Hsys Hk2 HQ. pose proof (usertrap_after me wkilled pad v s k2 Hspp Hsc Hk Hsys) as E. rewrite Hk2 in E.
  exact (wp_eq _ _ Q _ _ E HQ).
Qed.
End Kernel.

(** ** Back to user space *)

(** The registers that the kernel's C code sees, and the machine with the values that
    it has given them. *)
Definition hart_of (st : mach) : hart :=
  let cs := csrs st in
  mkHart (csr_get CSR_sstatus cs) (cs CSR_scause) (cs CSR_sepc) (cs CSR_stvec) (cs CSR_satp) (regs st TP) (cs CSR_time) (cs CSR_stimecmp).
Definition put_hart (h : hart) (cs : csr → Z) : csr → Z :=
  csr_put CSR_sstatus (h_sstatus h) (csr_put CSR_sepc (h_sepc h) (csr_put CSR_stvec (h_stvec h) (csr_put CSR_stimecmp (h_stimecmp h) cs))).

(** User mode again, with the registers of the trapframe. *)
Record back_in_user (tf root stvec sepc : Z) (m : mem) (st : mach) : Prop := {
  bu_mode : prv st = PrvU;
  bu_pc : pc st = sepc;
  bu_regs : ∀ r o, (r, o) ∈ tf_all → regs st r = u64 (load64 m (tf + o));
  bu_zero : regs st ZERO = 0;
  bu_satp : csrs st CSR_satp = MAKE_SATP root;
  bu_stvec : csrs st CSR_stvec = stvec;
  bu_intr : has (csrs st CSR_mstatus) SSTATUS_SIE = true;
  bu_ram : ram st = m;
}.

Lemma testbit_merge mask old new k : 0 ≤ k → Z.testbit (merge mask old new) k = if Z.testbit mask k then Z.testbit new k else Z.testbit old k.
Proof. intros Hk. unfold merge. rewrite Z.lor_spec, Z.ldiff_spec, Z.land_spec. destruct (Z.testbit mask k), (Z.testbit old k), (Z.testbit new k); done. Qed.

Lemma leave_kernel kend tramp tf code s root kroot l h cs g :
  KERNBASE ≤ kend → 0 ≤ tramp → tramp + PGSIZE ≤ 2 ^ 56 - 4 → tramp mod PGSIZE = 0 → loaded code tramp trampoline_page → page_ok kend tf →
  frame_in kend tramp tf s root l → tramp_in kend tramp tf s kroot l → cs CSR_satp = MAKE_SATP kroot → pmp_open cs →
  has (h_sstatus h) SSTATUS_SPP = false → has (h_sstatus h) SSTATUS_SPIE = true → h_sepc h mod 2 = 0 → g A0 = MAKE_SATP root → g ZERO = 0 →
  ∃ st, run code (length userret) (mkMach g (TRAMPOLINE + userret_off) PrvS (put_hart h cs) (km_mem s)) = Some st ∧
    back_in_user tf root (h_stvec h) (h_sepc h) (km_mem s) st.
Proof.
  intros Hend Htr Htr' Htra Hcode Htf Hus Hker Hsatp Hpmp Hspp Hspie Hev Hg Hz. set (cs1 := put_hart h cs).
  assert (Hother : ∀ r, r ∉ [CSR_mstatus; CSR_sepc; CSR_stvec; CSR_stimecmp] → cs1 r = cs r).
  { intros r Hr. unfold cs1, put_hart. cbn [csr_put]. rewrite !not_elem_of_cons in Hr. destruct Hr as (? & ? & ? & ? & _). by rewrite !fn_lookup_insert_ne. }
  assert (Hs1 : cs1 CSR_satp = MAKE_SATP kroot) by (rewrite Hother; [done|set_solver]).
  assert (Hp1 : pmp_open cs1) by (unfold pmp_open; rewrite !Hother by set_solver; done).
  destruct (tramp_split tramp code cs1 _ (runs_tramp kend Hend tramp tf code Htr Htr' Htra Hcode Htf s kroot l cs1 Hker Hs1 Hp1)) as [_ Hr1].
  set (cs2 := <[CSR_satp := g A0]> cs1). assert (Hs2 : cs2 CSR_satp = MAKE_SATP root) by (unfold cs2; by rewrite fn_lookup_insert).
  assert (Hp2 : pmp_open cs2) by done.
  destruct (tramp_split tramp code cs2 _ (runs_tramp kend Hend tramp tf code Htr Htr' Htra Hcode Htf s root l cs2 (fi_tramp _ _ _ _ _ _ Hus) Hs2 Hp2)) as [_ Hr2].
  destruct (run_userret code cs1 _ _ _ g (km_mem s) tf Hr1 Hr2 (sees_frame kend Hend tramp tf Htf s root l cs2 Load ltac:(done) Hus Hs2 Hp2) (λ x _, eq_refl))
    as (f & Hrun & Hfz & Hf).
  exists (sret (mkMach f (TRAMPOLINE + userret_off + 140) PrvS cs2 (km_mem s))). split; [exact Hrun|].
  assert (Hst : ∀ k, 0 ≤ k → Z.testbit SSTATUS_VIEW k = true → Z.testbit (cs2 CSR_mstatus) k = Z.testbit (h_sstatus h) k).
  { intros k Hk Hv. unfold cs2. rewrite fn_lookup_insert_ne by done. unfold cs1, put_hart. cbn [csr_put]. rewrite fn_lookup_insert, testbit_merge by done. by rewrite Hv. }
  change SSTATUS_SPP with (2 ^ 8) in Hspp. change SSTATUS_SPIE with (2 ^ 5) in Hspie. rewrite has_testbit in Hspp, Hspie by lia.
  split; unfold sret; cbn [prv pc regs csrs ram]; try done.
  - change SSTATUS_SPP with (2 ^ 8). rewrite has_testbit by lia. by rewrite Hst, Hspp.
  - unfold cs2. rewrite fn_lookup_insert_ne by done. unfold cs1, put_hart. cbn [csr_put]. rewrite fn_lookup_insert_ne, fn_lookup_insert by done. by apply ldiff_even.
  - by rewrite Hfz.
  - rewrite fn_lookup_insert. change SSTATUS_SIE with (2 ^ 1). change SSTATUS_SPIE with (2 ^ 5). change SSTATUS_SPP with (2 ^ 8).
    rewrite (has_testbit _ 1) by lia. rewrite Z.ldiff_spec, Z.pow2_bits_false by done. rewrite andb_true_r. rewrite !with_bit_testbit by lia.
    cbn [decide]. rewrite decide_False, decide_True by lia. rewrite has_testbit by lia. by rewrite Hst.
Qed.

(** ** The whole system call *)

Section Whole.
Context {D C V : Type} `{Disk D, Mmio V}.
Context (kend tramp forkret_addr : Z) (devs : Z → devsw C uproc) (kvec usertrap_addr : Z) (uartintr virtio_disk_intr : M (kern D C) unit).
Context (code : Z → option instr) (tf kroot : Z).
Hypothesis Hend : KERNBASE ≤ kend.
Hypothesis Htr : 0 ≤ tramp.
Hypothesis Htr' : tramp + PGSIZE ≤ 2 ^ 56 - 4.
Hypothesis Htra : tramp mod PGSIZE = 0.
Hypothesis Hcode : loaded code tramp trampoline_page.
Hypothesis Htf : page_ok kend tf.
Implicit Types (t : tstate D C V).

(** The kernel's state when [usertrap] is called from the machine [st1]. *)
Definition trapped t (st1 : mach) : tstate D C V := put_mem (ram st1) (mkT (t_k t) (hart_of st1) (t_plic t)).

(** What the system call leaves: the process is alive, its trapframe is where it was,
    and its page table [root], new or old, maps what a return needs. *)
Record may_return (k : kern D C) (me : nat) (root : Z) (l : list Z) : Prop := {
  mr_alive : p_killed (procs (k_ps k) me) = false;
  mr_frame : p_trapframe (procs (k_ps k) me) = tf;
  mr_root : p_pagetable (procs (k_ps k) me) = root;
  mr_user : frame_in kend tramp tf (km (k_ps k)) root l;
  mr_kernel : tramp_in kend tramp tf (km (k_ps k)) kroot l;
  mr_even : load64 (km_mem (km (k_ps k))) (tf + TF_epc) mod 2 = 0;
}.

Lemma but_frame_resume m satp sp hartid : but_frame tf m (resume_mem usertrap_addr m tf satp sp hartid).
Proof. intros x Hx. unfold resume_mem. tfw. unfold in_page, PGSIZE in Hx. rewrite !store64_out by lia. done. Qed.

Lemma return_to_user t ksp hartid st st1 me wkilled pad v k2 root l :
  in_kernel tf kroot ksp hartid usertrap_addr st st1 →
  p_trapframe (t_proc t me) = tf → p_killed (t_proc t me) = false →
  syscall kend tramp forkret_addr devs me wkilled pad (t_k (at_syscall kvec (trapped t st1) me)) = Ok (CReturn v) k2 → may_return k2 me root l →
  ∃ t2, usertrap kend tramp forkret_addr devs kvec usertrap_addr tramp uartintr virtio_disk_intr me wkilled pad (trapped t st1) = Ok (TUser (MAKE_SATP root)) t2 ∧
    t_mem t2 = resume_mem usertrap_addr (km_mem (km (k_ps k2))) tf (MAKE_SATP kroot) (p_kstack (procs (k_ps k2) me) + PGSIZE) hartid ∧
    ∀ g, g A0 = MAKE_SATP root → g ZERO = 0 →
      ∃ st2, run code (length userret) (mkMach g (TRAMPOLINE + userret_off) PrvS (put_hart (t_h t2) (csrs st1)) (t_mem t2)) = Some st2 ∧
        back_in_user tf root TRAMPOLINE (load64 (km_mem (km (k_ps k2))) (tf + TF_epc)) (t_mem t2) st2.
Proof.
  intros [Hmode Hpc Hsp Htp Hsatp Hcause Hsepc Hspp Hsie Hpmp _ _ _] Hptf Hk Hsys [Hk2 Htf2 Hroot Hu2 Hker2 Hev].
  set (t1 := trapped t st1) in *. set (k := km_mem (km (k_ps k2))) in *.
  assert (Hw : wp (usertrap kend tramp forkret_addr devs kvec usertrap_addr tramp uartintr virtio_disk_intr me wkilled pad)
    (λ r t2, r = TUser (MAKE_SATP root) ∧ t_mem t2 = resume_mem usertrap_addr k tf (MAKE_SATP kroot) (p_kstack (procs (k_ps k2) me) + PGSIZE) hartid ∧
       h_stvec (t_h t2) = TRAMPOLINE ∧ h_sepc (t_h t2) = load64 k (tf + TF_epc) ∧ has (h_sstatus (t_h t2)) SSTATUS_SPP = false ∧
       has (h_sstatus (t_h t2)) SSTATUS_SPIE = true ∧ km (k_ps (t_k t2)) = set_mem (t_mem t2) (km (k_ps k2))) t1).
  { eapply usertrap_returns; [exact Hspp|exact Hcause|exact Hk|exact Hsys|exact Hk2|]. apply usertrapret_spec.
    unfold tf_word, TrapSpec.tf, t_proc, t_mem. cbn [put_mem t_k t_h k_ps km km_mem set_mem procs h_sepc h_sstatus h_stvec h_satp h_tp at_syscall trapped t1 hart_of].
    rewrite Hroot, Htf2, Hsatp, Htp, Z.sub_diag, Z.add_0_r. fold k. split; [done|]. split; [done|]. split; [done|].
    split; [apply resume_mem_other; by left|]. destruct (user_sstatus (Z.lor (csr_get CSR_sstatus (csrs st1)) SSTATUS_SIE)) as (? & ? & _). done. }
  destruct (wp_inv _ _ _ Hw) as (r & t2 & He & -> & Hm & Hsv & Hse & Hp & Hpie & Hkm). exists t2. split; [done|]. split; [done|]. intros g Hg Hz.
  pose proof (but_frame_resume k (MAKE_SATP kroot) (p_kstack (procs (k_ps k2) me) + PGSIZE) hartid) as Hbf. rewrite <- Hm in Hbf.
  pose proof (frame_in_write kend tramp tf _ _ _ _ Htf Hu2 Hbf) as Hfi. pose proof (tramp_in_write kend tramp tf _ _ _ _ Htf Hker2 Hbf) as Hti.
  destruct (leave_kernel kend tramp tf code _ root kroot l (t_h t2) (csrs st1) g Hend Htr Htr' Htra Hcode Htf Hfi Hti Hsatp Hpmp Hp Hpie) as (st2 & Hrun & Hb); [by rewrite Hse|done|done|].
  exists st2. split; [exact Hrun|]. by rewrite Hsv, Hse in Hb.
Qed.

(** The word of the trapframe at [o] in the kernel's state. *)
Definition frame_word (k : kern D C) (o : Z) : Z := load64 (km_mem (km (k_ps k))) (tf + o).

(** The call left the saved registers alone, but for its result. *)
Definition frame_kept (k k2 : kern D C) (v : Z) : Prop :=
  frame_word k2 TF_a0 = u64 v ∧ ∀ o, o = TF_epc ∨ o ∈ tf_all.*2 → o ≠ TF_a0 → frame_word k2 o = frame_word k o.

Lemma tf_all_a0 r o : (r, o) ∈ tf_all → (r = A0 ↔ o = TF_a0) ∧ o ≠ TF_epc.
Proof.
  intros Ho. assert (Hall : Forall (λ x, (x.1 = A0 ↔ x.2 = TF_a0) ∧ x.2 ≠ TF_epc) tf_all) by (apply (bool_decide_unpack _); vm_compute; exact I).
  exact (proj1 (Forall_forall _ _) Hall (r, o) Ho).
Qed.

Lemma words_restored t ksp hartid st st1 me m2 k2 v root st2 sepc :
  in_kernel tf kroot ksp hartid usertrap_addr st st1 → p_trapframe (t_proc t me) = tf → (∀ r, w64 (regs st r)) → regs st ZERO = 0 →
  back_in_user tf root TRAMPOLINE sepc m2 st2 → sepc = frame_word k2 TF_epc → (∀ r o, (r, o) ∈ tf_all → load64 m2 (tf + o) = frame_word k2 o) →
  frame_kept (t_k (at_syscall kvec (trapped t st1) me)) k2 v →
  pc st2 = u64 (pc st + 4) ∧ ∀ r, regs st2 r = if decide (r = A0) then u64 v else regs st r.
Proof.
  intros Hik Hptf Hw Hz Hb -> Hm [Ha Hkept].
  set (k1 := t_k (at_syscall kvec (trapped t st1) me)) in *.
  assert (Hepc : frame_word k1 TF_epc = u64 (pc st + 4)).
  { unfold frame_word, k1, at_syscall. cbn [put_mem t_k k_ps km km_mem set_mem]. change (TrapSpec.tf _ me) with (p_trapframe (t_proc t me)). rewrite Hptf.
    rewrite load64_store64. rewrite u64_id by apply u64_range. cbn [trapped put_mem t_h hart_of h_sepc]. rewrite (ik_sepc _ _ _ _ _ _ _ Hik).
    unfold u64. by rewrite Zplus_mod_idemp_l. }
  assert (Hreg : ∀ r o, (r, o) ∈ tf_all → frame_word k1 o = regs st r).
  { intros r o Ho. rewrite <- (ik_frame _ _ _ _ _ _ _ Hik r o Ho). unfold frame_word, k1, at_syscall. cbn [put_mem t_k k_ps km km_mem set_mem].
    change (TrapSpec.tf _ me) with (p_trapframe (t_proc t me)). rewrite Hptf. change (t_mem (trapped t st1)) with (ram st1).
    pose proof (proj1 (Forall_forall _ _) (proj2 (proj2 tf_all_ok)) _ Ho) as Hoff. cbn in Hoff.
    destruct (tf_all_a0 r o Ho) as [_ Hne].
    rewrite !load64_store64_ne; [done|..]; unfold TF_epc in *; zdm. }
  split; [rewrite (bu_pc _ _ _ _ _ _ Hb), <- Hepc; apply Hkept; [by left|done]|].
  assert (Hall : ∀ r, r ≠ ZERO → ∃ o, (r, o) ∈ tf_all) by (intros [] ?; try done; unfold tf_all, tf_regs; cbn [app]; eexists; member; fail).
  intros r. destruct (decide (r = ZERO)) as [->|Hnz]; [by rewrite (bu_zero _ _ _ _ _ _ Hb), Hz|]. destruct (Hall r Hnz) as [o Ho].
  rewrite (bu_regs _ _ _ _ _ _ Hb r o Ho), (Hm r o Ho). destruct (tf_all_a0 r o Ho) as [Hiff Hne]. case_decide as Hr.
  - rewrite (proj1 Hiff Hr), Ha. apply u64_id, u64_range.
  - rewrite Hkept; [|right; apply list_elem_of_fmap; exact (ex_intro _ (r, o) (conj eq_refl Ho))|tauto]. rewrite (Hreg r o Ho). apply u64_id, Hw.
Qed.
End Whole.


(** The system call [getpid], for example, returns and keeps what a return needs. *)
Section Getpid.
Context {D C V : Type} `{Disk D, Mmio V}.
Context (kend tramp forkret_addr : Z) (devs : Z → devsw C uproc) (kvec usertrap_addr tf kroot : Z) (t : tstate D C V) (ksp hartid : Z) (st st1 : mach) (me : nat).
Hypothesis Htf : page_ok kend tf.
Hypothesis Hik : in_kernel tf kroot ksp hartid usertrap_addr st st1.
Hypothesis Hptf : p_trapframe (t_proc t me) = tf.
Notation t1 := (at_syscall kvec (trapped t st1) me).

Lemma at_syscall_mem : t_mem t1 = store64 (store64 (ram st1) (tf + TF_epc) (u64 (pc st))) (tf + TF_epc) (u64 (u64 (pc st) + 4)).
Proof.
  unfold at_syscall, t_mem. cbn [put_mem t_k k_ps km km_mem set_mem]. change (TrapSpec.tf _ me) with (p_trapframe (t_proc t me)). rewrite Hptf.
  change (t_mem (trapped t st1)) with (ram st1). change (h_sepc (t_h (trapped t st1))) with (csrs st1 CSR_sepc). by rewrite (ik_sepc _ _ _ _ _ _ _ Hik).
Qed.

Lemma getpid_call wkilled pad : regs st A7 = 11 →
  ∃ k2, syscall kend tramp forkret_addr devs me wkilled pad (t_k t1) = Ok (CReturn (p_pid (t_proc t me))) k2 ∧
    procs (k_ps k2) = procs (k_ps (t_k t)) ∧ km (k_ps k2) = set_mem (store64 (t_mem t1) (tf + TF_a0) (u64 (p_pid (t_proc t me)))) (km (k_ps (t_k t))).
Proof.
  intros Ha. assert (Ha7 : load64 (t_mem t1) (tf + TF_a7) = 11).
  { rewrite at_syscall_mem. tfw. rewrite !load64_store64_ne by lia. rewrite <- Ha. apply (ik_frame _ _ _ _ _ _ _ Hik). unfold tf_all, tf_regs. cbn [app]. member. }
  assert (Hw : wp (on_k (syscall kend tramp forkret_addr devs me wkilled pad))
    (λ r s', r = CReturn (p_pid (t_proc t me)) ∧ s' = put_mem (store64 (t_mem t1) (TrapSpec.tf t1 me + TF_a0) (u64 (p_pid (t_proc t me)))) t1) t1).
  { eapply wp_syscall; [|split; reflexivity]. change (TrapSpec.tf t1 me) with (p_trapframe (t_proc t me)). rewrite Hptf, Ha7. reflexivity. }
  destruct (wp_inv _ _ _ Hw) as (r & s' & He & -> & ->).
  change (TrapSpec.tf t1 me) with (p_trapframe (t_proc t me)) in He. rewrite Hptf in He.
  unfold on_k, zoom in He. destruct (syscall _ _ _ _ _ _ _ (t_k t1)) as [r k2| | | |] eqn:E; try discriminate He. injection He as -> Hk.
  exists k2. split; [done|]. rewrite Hk. done.
Qed.

Lemma getpid_may_return root l k2 v :
  p_killed (t_proc t me) = false → p_pagetable (t_proc t me) = root → ram st = km_mem (km (k_ps (t_k t))) → u64 (pc st + 4) mod 2 = 0 →
  frame_in kend tramp tf (km (k_ps (t_k t))) root l → tramp_in kend tramp tf (km (k_ps (t_k t))) kroot l →
  procs (k_ps k2) = procs (k_ps (t_k t)) → km (k_ps k2) = set_mem (store64 (t_mem t1) (tf + TF_a0) (u64 v)) (km (k_ps (t_k t))) →
  may_return kend tramp tf kroot k2 me root l ∧ frame_kept tf (t_k t1) k2 v.
Proof.
  intros Hk Hroot Hram Hev Hfi Hti Hp Hkm.
  assert (Hbf : but_frame tf (km_mem (km (k_ps (t_k t)))) (store64 (t_mem t1) (tf + TF_a0) (u64 v))).
  { intros x Hx. rewrite at_syscall_mem. unfold in_page, PGSIZE in Hx. tfw. rewrite !store64_out by lia. rewrite <- Hram. apply (ik_rest _ _ _ _ _ _ _ Hik). unfold tf_size. lia. }
  assert (Hword : ∀ o, o mod 8 = 0 → o ≠ TF_a0 → frame_word tf k2 o = frame_word tf (t_k t1) o).
  { intros o Ho Hne. unfold frame_word. rewrite Hkm. cbn [set_mem km_mem]. change (km_mem (km (k_ps (t_k t1)))) with (t_mem t1). apply load64_store64_ne. unfold TF_a0 in *. zdm. }
  split; [split|split].
  - rewrite Hp. exact Hk.
  - rewrite Hp. exact Hptf.
  - rewrite Hp. exact Hroot.
  - rewrite Hkm. by apply frame_in_write.
  - rewrite Hkm. by apply tramp_in_write.
  - fold (frame_word tf k2 TF_epc). rewrite Hword by done. unfold frame_word. change (km_mem (km (k_ps (t_k t1)))) with (t_mem t1). rewrite at_syscall_mem, load64_store64.
    rewrite u64_id by apply u64_range. unfold u64 in *. by rewrite Zplus_mod_idemp_l.
  - unfold frame_word. rewrite Hkm. cbn [set_mem km_mem]. rewrite load64_store64. apply u64_id, u64_range.
  - intros o Ho Hne. apply Hword; [|done]. destruct Ho as [->|([r o'] & -> & Hin)%list_elem_of_fmap]; [done|].
    pose proof (proj1 (Forall_forall _ _) (proj2 (proj2 tf_all_ok)) _ Hin) as Hoff. cbn in Hoff |- *. tauto.
Qed.
End Getpid.

#[local] Instance ut_mmio : Mmio unit := {| reg_read _ v := (0, v); reg_write _ _ v := v |}.

(** A process with one page, whose program is an [ecall] for [getpid]. *)
Definition ut_6 : kmem := state_of ex_boot (uvmalloc ex_kend ex_old 0 4096 PTE_X ex_5).
Definition ut_mem : mem :=
  store64 (store64 (store64 (store64 (km_mem ut_6) (ex_tf + 0) (MAKE_SATP ex_new)) (ex_tf + 8) 274877898752) (ex_tf + 16) 2147484672) (ex_tf + 32) 0.
Definition ut_7 : kmem := set_mem ut_mem ut_6.
Definition ut_page : Z := upage (km_mem ut_6) ex_old 0.
Definition ut_code (pa : Z) : option instr :=
  if (KERNBASE <=? pa) && (pa <? KERNBASE + 312) then trampoline_page !! Z.to_nat ((pa - KERNBASE) / 4)
  else if pa =? ut_page then Some ECALL else None.
Definition ut_regs : xreg → Z := <[A7 := 11]> (<[S3 := 33]> (λ _, 0)).
Definition ut_csrs : csr → Z :=
  <[CSR_satp := MAKE_SATP ex_old]> (<[CSR_stvec := TRAMPOLINE]> (<[CSR_medeleg := 63487]> (<[CSR_pmpcfg0 := 15]> (<[CSR_pmpaddr0 := 2 ^ 54 - 1]> (λ _, 0))))).
Definition ut_st : mach := mkMach ut_regs 0 PrvU ut_csrs ut_mem.
Definition ut_proc : proc := mkProc RUNNING None false 0 4 None 274877894656 4096 ex_old ex_tf (0, 0) (replicate 16 None) None [].
Definition ut_t : tstate (Z → list Z) unit unit := mkT (mkKern (mkPs ut_7 (λ _, ut_proc) 5 None ex_files) 100) (mkHart 0 0 0 0 0 0 0 0) tt.

Lemma ut_alloc : value_of 1 (uvmalloc ex_kend ex_old 0 4096 PTE_X ex_5) = 4096.
Proof. vm_compute. reflexivity. Qed.

Lemma quadruple {A B} (a a' b b' c c' : A) (d d' : B) : (a, b, c, d) = (a', b', c', d') → a = a' ∧ b = b' ∧ c = c' ∧ d = d'.
Proof. by intros [= -> -> -> ->]. Qed.

Lemma ut_facts : (pte_at (km_mem ut_6) ex_old TRAPFRAME, pte_at (km_mem ut_6) ex_old TRAMPOLINE, pte_at (km_mem ut_6) ex_new TRAMPOLINE, fetch ut_code ut_st) =
  (mkpte ex_tf (Z.lor PTE_R PTE_W), mkpte KERNBASE (Z.lor PTE_R PTE_X), mkpte KERNBASE (Z.lor PTE_R PTE_X), Some ECALL).
Proof. vm_compute. reflexivity. Qed.

Lemma ut_fetch : fetch ut_code ut_st = Some ECALL.
Proof. destruct (quadruple _ _ _ _ _ _ _ _ ut_facts) as (_ & _ & _ & H). exact H. Qed.

Lemma ut_spaces : ∃ l, page_ok ex_kend ex_tf ∧ frame_in ex_kend KERNBASE ex_tf ut_6 ex_old l ∧ tramp_in ex_kend KERNBASE ex_tf ut_6 ex_new l.
Proof.
  destruct ex_images as (l & Hio & Hin & Hap & (Htok & Htl & Htu) & Hut & _).
  destruct (image_grow ex_kend ex_kend_ok ex_5 ex_old 0 l 4096 PTE_X Hio ltac:(split; [discriminate|discriminate]) ltac:(split; [discriminate|reflexivity]))
    as (r & s' & l' & He & Hkept & Hcon & Hcase).
  assert (Es : ut_6 = s') by (unfold ut_6; rewrite He; reflexivity). pose proof (kept_theirs ex_kend _ _ _ _ _ Hkept Hcon) as Hth.
  assert (Him : image ex_kend s' ex_old 4096 l').
  { destruct Hcase as [(_ & Him & _)|(Hr & _)]; [exact Him|]. exfalso. pose proof ut_alloc as Hv. rewrite He, Hr in Hv. discriminate Hv. }
  clear Hcase. assert (Hap' : apart (km_mem ex_5) ex_new ex_old) by (intros q Hq Hq'; exact (Hap q Hq' Hq)).
  destruct (other_image ex_kend ex_5 s' ex_new 0 ex_old l l' Hin Hap' Hth (vm_kinv _ _ _ _ (us_wf _ _ _ _ (im_space _ _ _ _ _ Him)))) as (Hin' & HU & _).
  destruct (Hth ex_tf Htok Htl Htu) as (Htl' & Htu' & _). destruct (quadruple _ _ _ _ _ _ _ _ ut_facts) as (P1 & P2 & P3 & _).
  exists l'. rewrite Es in P1, P2, P3. rewrite Es. split; [exact Htok|]. split.
  - split; [|exact P1]. split; [exact (us_wf _ _ _ _ (im_space _ _ _ _ _ Him))|exact P2|exact Htl'|].
    intros Ht. apply Htu'. left. exact Ht.
  - split; [exact (us_wf _ _ _ _ (im_space _ _ _ _ _ Hin'))|exact P3|exact Htl'|].
    intros Ht. exact (Hut (proj1 (undisturbed_uses ex_5 s' ex_new ex_tf HU) (or_introl Ht))).
Qed.

Lemma ut_words m a v : let m' := store64 (store64 (store64 (store64 m (a + 0) v) (a + 8) 274877898752) (a + 16) 2147484672) (a + 32) 0 in
  load64 m' (a + 0) = u64 v ∧ load64 m' (a + 8) = 274877898752 ∧ load64 m' (a + 16) = 2147484672 ∧ load64 m' (a + 32) = 0.
Proof. intros m'. unfold m'. split_and!; rewrite ?load64_store64_ne by lia; rewrite load64_store64; reflexivity. Qed.

Lemma ut_loaded : loaded ut_code KERNBASE trampoline_page.
Proof.
  intros i ins Hi. assert (Hl : (i < length trampoline_page)%nat) by (by eapply lookup_lt_Some). change (length trampoline_page) with 78%nat in Hl.
  unfold ut_code. rewrite (proj2 (Z.leb_le _ _)), (proj2 (Z.ltb_lt _ _)) by lia. cbn [andb]. rewrite <- Hi. f_equal. zdm.
Qed.

Lemma ut_satp : ut_csrs CSR_satp = MAKE_SATP ex_old.
Proof. unfold ut_csrs. apply fn_lookup_insert. Qed.

Lemma ut_in_user : ∃ l, page_ok ex_kend ex_tf ∧ in_user ex_kend KERNBASE ex_tf ut_code ut_7 ex_old ex_new 274877898752 0 2147484672 l ut_st.
Proof.
  destruct ut_spaces as (l & Htok & Hfi & Hti). exists l. split; [exact Htok|].
  assert (Hbf : but_frame ex_tf (km_mem ut_6) ut_mem).
  { unfold ut_mem. generalize ex_tf (MAKE_SATP ex_new). intros a v x Hx. unfold in_page, PGSIZE in Hx. rewrite !store64_out by lia. reflexivity. }
  destruct (ut_words (km_mem ut_6) ex_tf (MAKE_SATP ex_new)) as (W0 & W8 & W16 & W32).
  assert (Wk : u64 (MAKE_SATP ex_new) = MAKE_SATP ex_new).
  { destruct (root_table ex_kend ex_kend_ok ut_6 ex_new l (ti_wf _ _ _ _ _ _ Hti)) as [Hr _]. exact (u64_id _ (satp_w64 ex_new Hr)). }
  split.
  - exact (eq_refl PrvU).
  - exact ut_fetch.
  - reflexivity.
  - reflexivity.
  - exact ut_satp.
  - split; reflexivity.
  - intros []; vm_compute; (split; [discriminate|reflexivity]).
  - reflexivity.
  - reflexivity.
  - exact (frame_in_write ex_kend KERNBASE ex_tf ut_6 ex_old l ut_mem Htok Hfi Hbf).
  - exact (tramp_in_write ex_kend KERNBASE ex_tf ut_6 ex_new l ut_mem Htok Hti Hbf).
  - rewrite <- Wk. exact W0.
  - exact W8.
  - exact W16.
  - exact W32.
Qed.


Definition ut_g : xreg → Z := <[A0 := MAKE_SATP ex_old]> (λ _, 0).
Lemma ut_g_a0 : ut_g A0 = MAKE_SATP ex_old.
Proof. apply fn_lookup_insert. Qed.
Lemma ut_g_zero : ut_g ZERO = 0.
Proof. unfold ut_g. rewrite fn_lookup_insert_ne by discriminate. reflexivity. Qed.

