(* ===== verification/Virtio.v ===== *)
(** * Virtio: kernel/virtio_disk.c

    The driver of the disk: a table of NUM descriptors, a ring of requests for
    the device and a ring of requests it has finished.  The addresses the driver
    puts into descriptors point to its own tables or to the data of a buffer,
    and are modelled as such.  The device is in VirtioSpec.v. *)
From stdpp Require Import functions.
From S2P Require Import Prelude Riscv Kalloc Bio Plic.

Definition NUM : Z := 8.
Definition VRING_DESC_F_NEXT : Z := 1.
Definition VRING_DESC_F_WRITE : Z := 2.
Definition VIRTIO_BLK_T_IN : Z := 0.
Definition VIRTIO_BLK_T_OUT : Z := 1.

Inductive dma : Type :=
| DNull
| DOps (i : nat)        (* &disk.ops[i] *)
| DData (b : nat)       (* bcache.buf[b].data *)
| DStatus (i : nat).    (* &disk.info[i].status *)

(** [struct virtq_desc], [struct virtio_blk_req], an element of [disk.info]. *)
Record virtq_desc : Type := mkDesc { vd_addr : dma; vd_len : Z; vd_flags : Z; vd_next : Z }.
Record blk_req : Type := mkReq { rq_type : Z; rq_reserved : Z; rq_sector : Z }.
Record vinfo : Type := mkInfo { in_b : option nat; in_status : Z }.

(** [disk], with the two rings.  The buffers' [data] and [disk] fields are
    [bdata] and [bdisk], their block numbers [bno]. *)
Record vdisk : Type := mkVd {
  v_desc : nat → virtq_desc;
  v_ring : nat → Z;           (* avail->ring *)
  v_avail : Z;                (* avail->idx *)
  v_used : nat → Z;           (* used->ring[].id *)
  v_uidx : Z;                 (* used->idx *)
  v_free : nat → bool;
  v_used_idx : Z;
  v_info : nat → vinfo;
  v_ops : nat → blk_req;
  bdata : nat → list Z;
  bdisk : nat → bool;
  bno : nat → Z;
  v_woken : list chan;
}.

Definition set_desc i x s := mkVd (<[i := x]> (v_desc s)) (v_ring s) (v_avail s) (v_used s) (v_uidx s)
  (v_free s) (v_used_idx s) (v_info s) (v_ops s) (bdata s) (bdisk s) (bno s) (v_woken s).
Definition set_free i x s := mkVd (v_desc s) (v_ring s) (v_avail s) (v_used s) (v_uidx s)
  (<[i := x]> (v_free s)) (v_used_idx s) (v_info s) (v_ops s) (bdata s) (bdisk s) (bno s) (v_woken s).
Definition set_ops i x s := mkVd (v_desc s) (v_ring s) (v_avail s) (v_used s) (v_uidx s)
  (v_free s) (v_used_idx s) (v_info s) (<[i := x]> (v_ops s)) (bdata s) (bdisk s) (bno s) (v_woken s).
Definition set_info i x s := mkVd (v_desc s) (v_ring s) (v_avail s) (v_used s) (v_uidx s)
  (v_free s) (v_used_idx s) (<[i := x]> (v_info s)) (v_ops s) (bdata s) (bdisk s) (bno s) (v_woken s).
Definition set_bdisk b x s := mkVd (v_desc s) (v_ring s) (v_avail s) (v_used s) (v_uidx s)
  (v_free s) (v_used_idx s) (v_info s) (v_ops s) (bdata s) (<[b := x]> (bdisk s)) (bno s) (v_woken s).
Definition set_ring i x s := mkVd (v_desc s) (<[i := x]> (v_ring s)) (v_avail s) (v_used s) (v_uidx s)
  (v_free s) (v_used_idx s) (v_info s) (v_ops s) (bdata s) (bdisk s) (bno s) (v_woken s).
Definition set_avail x s := mkVd (v_desc s) (v_ring s) x (v_used s) (v_uidx s)
  (v_free s) (v_used_idx s) (v_info s) (v_ops s) (bdata s) (bdisk s) (bno s) (v_woken s).
Definition set_used_idx x s := mkVd (v_desc s) (v_ring s) (v_avail s) (v_used s) (v_uidx s)
  (v_free s) x (v_info s) (v_ops s) (bdata s) (bdisk s) (bno s) (v_woken s).
Definition vwake c s := mkVd (v_desc s) (v_ring s) (v_avail s) (v_used s) (v_uidx s)
  (v_free s) (v_used_idx s) (v_info s) (v_ops s) (bdata s) (bdisk s) (bno s) (v_woken s ++ [c]).

Notation MV := (M vdisk).

(** ** The driver *)

Fixpoint find_free (k i : nat) (f : nat → bool) : option nat :=
  match k with
  | O => None
  | S k => if f i then Some i else find_free k (S i) f
  end.

(** The index of a descriptor, or -1. *)
Definition alloc_desc : MV Z :=
  do o <- gets (λ s, find_free (Z.to_nat NUM) 0 (v_free s));
  match o with
  | Some i => modify (set_free i false) ;;; ret (Z.of_nat i)
  | None => ret (-1)
  end.

Definition free_desc (i : Z) : MV unit :=
  if NUM <=? i then panic "free_desc 1"
  else
    let i := Z.to_nat i in
    do f <- gets (λ s, v_free s i);
    if f : bool then panic "free_desc 2"
    else
      modify (set_desc i (mkDesc DNull 0 0 0)) ;;;
      modify (set_free i true) ;;;
      modify (vwake ChDiskFree).

(** A chain has at most NUM descriptors. *)
Fixpoint free_chain_loop (fuel : nat) (i : Z) : MV unit :=
  match fuel with
  | O => nofuel
  | S fuel =>
      do d <- gets (λ s, v_desc s (Z.to_nat i));
      free_desc i ;;;
      if negb (Z.land (vd_flags d) VRING_DESC_F_NEXT =? 0) then free_chain_loop fuel (vd_next d) else ret tt
  end.

Definition free_chain (i : Z) : MV unit := free_chain_loop (Z.to_nat NUM) i.

(** [idx[0..2]], or [None] with everything given back. *)
Definition alloc3_desc : MV (option (Z * Z * Z)) :=
  do i0 <- alloc_desc;
  if i0 <? 0 then ret None
  else
    do i1 <- alloc_desc;
    if i1 <? 0 then free_desc i0 ;;; ret None
    else
      do i2 <- alloc_desc;
      if i2 <? 0 then free_desc i0 ;;; free_desc i1 ;;; ret None
      else ret (Some (i0, i1, i2)).

(** The first part of [virtio_disk_rw]: allocate the descriptors (or sleep),
    format the request and tell the device.  The result is [idx[0]]. *)
Definition rw_submit (b : nat) (write : bool) : MV Z :=
  do no <- gets (λ s, bno s b);
  let sector := u32 (no * (BSIZE / 512)) in
  do o <- alloc3_desc;
  match o with
  | None => sleep ChDiskFree
  | Some (i0, i1, i2) =>
      let n0 := Z.to_nat i0 in
      modify (set_ops n0 (mkReq (if write then VIRTIO_BLK_T_OUT else VIRTIO_BLK_T_IN) 0 sector)) ;;;
      modify (set_desc n0 (mkDesc (DOps n0) 16 VRING_DESC_F_NEXT i1)) ;;;
      modify (set_desc (Z.to_nat i1)
        (mkDesc (DData b) BSIZE (Z.lor (if write then 0 else VRING_DESC_F_WRITE) VRING_DESC_F_NEXT) i2)) ;;;
      modify (λ s, set_info n0 (mkInfo (in_b (v_info s n0)) 255) s) ;;;
      modify (set_desc (Z.to_nat i2) (mkDesc (DStatus n0) 1 VRING_DESC_F_WRITE 0)) ;;;
      modify (set_bdisk b true) ;;;
      modify (λ s, set_info n0 (mkInfo (Some b) (in_status (v_info s n0))) s) ;;;
      modify (λ s, set_ring (Z.to_nat (v_avail s mod NUM)) i0 s) ;;;
      modify (λ s, set_avail (u16 (v_avail s + 1)) s) ;;;
      (* *R(VIRTIO_MMIO_QUEUE_NOTIFY) = 0 *)
      ret i0
  end.

(** The second part: [while(b->disk == 1) sleep(b)], then clean up. *)
Definition rw_finish (b : nat) (i0 : Z) : MV unit :=
  do d <- gets (λ s, bdisk s b);
  if d : bool then sleep (ChBuf b)
  else
    modify (λ s, set_info (Z.to_nat i0) (mkInfo None (in_status (v_info s (Z.to_nat i0)))) s) ;;;
    free_chain i0.

(** The loop of [virtio_disk_intr]; it stops once it has seen [used->idx]. *)
Fixpoint intr_loop (fuel : nat) : MV unit :=
  do ui <- gets v_used_idx;
  do di <- gets v_uidx;
  if ui =? di then ret tt
  else
    match fuel with
    | O => nofuel
    | S fuel =>
        do id <- gets (λ s, v_used s (Z.to_nat (ui mod NUM)));
        do x <- gets (λ s, v_info s (Z.to_nat id));
        if negb (in_status x =? 0) then panic "virtio_disk_intr status"
        else
          match in_b x with
          | None => undef
          | Some b =>
              modify (set_bdisk b false) ;;;
              modify (vwake (ChBuf b)) ;;;
              modify (set_used_idx (u16 (ui + 1))) ;;;
              intr_loop fuel
          end
    end.

(** The acknowledgement of the interrupt is a write to a register. *)
Definition virtio_disk_intr : MV unit := intr_loop (Z.to_nat NUM).

(** ** Initialisation *)

Definition VIRTIO_MMIO_MAGIC_VALUE : Z := 0.
Definition VIRTIO_MMIO_VERSION : Z := 4.
Definition VIRTIO_MMIO_DEVICE_ID : Z := 8.
Definition VIRTIO_MMIO_VENDOR_ID : Z := 12.
Definition VIRTIO_MMIO_DEVICE_FEATURES : Z := 16.
Definition VIRTIO_MMIO_DRIVER_FEATURES : Z := 32.
Definition VIRTIO_MMIO_QUEUE_SEL : Z := 48.
Definition VIRTIO_MMIO_QUEUE_NUM_MAX : Z := 52.
Definition VIRTIO_MMIO_QUEUE_NUM : Z := 56.
Definition VIRTIO_MMIO_QUEUE_READY : Z := 68.
Definition VIRTIO_MMIO_STATUS : Z := 112.
Definition VIRTIO_MMIO_QUEUE_DESC_LOW : Z := 128.
Definition VIRTIO_MMIO_DRIVER_DESC_LOW : Z := 144.
Definition VIRTIO_MMIO_DEVICE_DESC_LOW : Z := 160.

Definition VIRTIO_CONFIG_S_ACKNOWLEDGE : Z := 1.
Definition VIRTIO_CONFIG_S_DRIVER : Z := 2.
Definition VIRTIO_CONFIG_S_DRIVER_OK : Z := 4.
Definition VIRTIO_CONFIG_S_FEATURES_OK : Z := 8.

(** [~(1 << k)] for the feature bits RO, SCSI, CONFIG_WCE, MQ, ANY_LAYOUT,
    EVENT_IDX and INDIRECT_DESC. *)
Definition feature_bits : list Z := [5; 7; 11; 12; 27; 29; 28].
Definition clear_features (features : Z) : Z :=
  foldl (λ f k, Z.ldiff f (Z.shiftl 1 k)) features feature_bits.

Section Init.
Context {V : Type} `{Mmio V}.
Notation MI := (M (kmem * vdisk * V)).
Definition on_reg {A} (m : M V A) : MI A := zoom snd (λ v s, (s.1, v)) m.
Definition R (r : Z) : MI Z := on_reg (read_reg (VIRTIO0 + r)).
Definition W (r v : Z) : MI unit := on_reg (write_reg (VIRTIO0 + r) v).
Definition on_alloc {A} (m : M kmem A) : MI A := zoom (λ s, s.1.1) (λ k s, (k, s.1.2, s.2)) m.
Definition on_vd (f : vdisk → vdisk) : MI unit := modify (λ s, (s.1.1, f s.1.2, s.2)).

(** The three queue pages are zeroed: descriptors null, indices 0. *)
Definition zero_queues (s : vdisk) : vdisk :=
  mkVd (λ _, mkDesc DNull 0 0 0) (λ _, 0) 0 (λ _, 0) 0 (v_free s) (v_used_idx s) (v_info s)
    (v_ops s) (bdata s) (bdisk s) (bno s) (v_woken s).

(** A 64-bit address in two registers, the high half at [r + 4]. *)
Definition write_addr (r a : Z) : MI unit := W r a ;;; W (r + 4) (Z.shiftr a 32).

Definition virtio_disk_init : MI unit :=
  do magic <- R VIRTIO_MMIO_MAGIC_VALUE;
  do bad <- (if negb (magic =? 1953655158) then ret true
             else do v <- R VIRTIO_MMIO_VERSION;
                  if negb (v =? 2) then ret true
                  else do d <- R VIRTIO_MMIO_DEVICE_ID;
                       if negb (d =? 2) then ret true
                       else do v <- R VIRTIO_MMIO_VENDOR_ID; ret (negb (v =? 1431127377)));
  if bad : bool then panic "could not find virtio disk"
  else
    W VIRTIO_MMIO_STATUS 0 ;;;
    let status := VIRTIO_CONFIG_S_ACKNOWLEDGE in
    W VIRTIO_MMIO_STATUS status ;;;
    let status := Z.lor status VIRTIO_CONFIG_S_DRIVER in
    W VIRTIO_MMIO_STATUS status ;;;
    do features <- R VIRTIO_MMIO_DEVICE_FEATURES;
    W VIRTIO_MMIO_DRIVER_FEATURES (clear_features features) ;;;
    let status := Z.lor status VIRTIO_CONFIG_S_FEATURES_OK in
    W VIRTIO_MMIO_STATUS status ;;;
    do status <- R VIRTIO_MMIO_STATUS;
    if Z.land status VIRTIO_CONFIG_S_FEATURES_OK =? 0 then panic "virtio disk FEATURES_OK unset"
    else
      W VIRTIO_MMIO_QUEUE_SEL 0 ;;;
      do ready <- R VIRTIO_MMIO_QUEUE_READY;
      if negb (ready =? 0) then panic "virtio disk should not be ready"
      else
        do max <- R VIRTIO_MMIO_QUEUE_NUM_MAX;
        if max =? 0 then panic "virtio disk has no queue 0"
        else if max <? NUM then panic "virtio disk max queue too short"
        else
          do desc <- on_alloc kalloc;
          do avail <- on_alloc kalloc;
          do used <- on_alloc kalloc;
          if (desc =? 0) || (avail =? 0) || (used =? 0) then panic "virtio disk kalloc"
          else
            on_alloc (memset_page desc 0) ;;;
            on_alloc (memset_page avail 0) ;;;
            on_alloc (memset_page used 0) ;;;
            on_vd zero_queues ;;;
            W VIRTIO_MMIO_QUEUE_NUM NUM ;;;
            write_addr VIRTIO_MMIO_QUEUE_DESC_LOW desc ;;;
            write_addr VIRTIO_MMIO_DRIVER_DESC_LOW avail ;;;
            write_addr VIRTIO_MMIO_DEVICE_DESC_LOW used ;;;
            W VIRTIO_MMIO_QUEUE_READY 1 ;;;
            for_loop (Z.to_nat NUM) 0 (λ i, on_vd (set_free (Z.to_nat i) true)) ;;;
            W VIRTIO_MMIO_STATUS (Z.lor status VIRTIO_CONFIG_S_DRIVER_OK).
End Init.
