(* ===== verification/VirtioSpec.v ===== *)
(** * VirtioSpec: the disk driver with its device

    Threads submit requests for buffers they have locked, the device takes them
    from the ring and performs them in any order, the interrupt handler tells
    the threads.  Every request is performed once, on the block it names. *)
From stdpp Require Import functions.
From S2P Require Import Prelude Riscv Kalloc Bio Plic Virtio.

(** ** The device

    The disk is an array of 512-byte sectors. *)
Definition block_of (dsk : Z → list Z) (n : Z) : list Z := dsk (2 * n) ++ dsk (2 * n + 1).
Definition put_sectors (sec : Z) (data : list Z) (dsk : Z → list Z) : Z → list Z :=
  <[sec + 1 := drop 512 data]> (<[sec := take 512 data]> dsk).

Definition has_flag (d : virtq_desc) (f : Z) : bool := negb (Z.land (vd_flags d) f =? 0).

(** What the device does with the chain that starts at descriptor [id]; [None]
    when the chain is not the one of a block request: a request header the
    device reads, 1024 bytes of data that it reads or writes according to the
    request's type, and a status byte it writes. *)
Definition device_do (id : nat) (s : vdisk) (dsk : Z → list Z) : option (vdisk * (Z → list Z)) :=
  let d0 := v_desc s id in
  let d1 := v_desc s (Z.to_nat (vd_next d0)) in
  let d2 := v_desc s (Z.to_nat (vd_next d1)) in
  match vd_addr d0, vd_addr d1, vd_addr d2 with
  | DOps k, DData b, DStatus j =>
      let rq := v_ops s k in
      if has_flag d0 VRING_DESC_F_NEXT && negb (has_flag d0 VRING_DESC_F_WRITE) && (vd_len d0 =? 16) &&
         has_flag d1 VRING_DESC_F_NEXT && (vd_len d1 =? 1024) &&
         negb (has_flag d2 VRING_DESC_F_NEXT) && has_flag d2 VRING_DESC_F_WRITE && (vd_len d2 =? 1) then
        let s' := set_info j (mkInfo (in_b (v_info s j)) 0) s in
        if (rq_type rq =? VIRTIO_BLK_T_OUT) && negb (has_flag d1 VRING_DESC_F_WRITE) then
          Some (s', put_sectors (rq_sector rq) (bdata s b) dsk)
        else if (rq_type rq =? VIRTIO_BLK_T_IN) && has_flag d1 VRING_DESC_F_WRITE then
          Some (mkVd (v_desc s') (v_ring s') (v_avail s') (v_used s') (v_uidx s') (v_free s') (v_used_idx s') (v_info s')
            (v_ops s') (<[b := dsk (rq_sector rq) ++ dsk (rq_sector rq + 1)]> (bdata s')) (bdisk s') (bno s') (v_woken s'), dsk)
        else None
      else None
  | _, _, _ => None
  end.

(** The device adds [id] to the ring of finished requests. *)
Definition push_used (id : nat) (s : vdisk) : vdisk :=
  mkVd (v_desc s) (v_ring s) (v_avail s) (<[Z.to_nat (v_uidx s mod NUM) := Z.of_nat id]> (v_used s)) (u16 (v_uidx s + 1))
    (v_free s) (v_used_idx s) (v_info s) (v_ops s) (bdata s) (bdisk s) (bno s) (v_woken s).

(** ** The system *)

(** A request in progress: its first descriptor, its direction, and the contents
    of the buffer and of the block when it was submitted. *)
Record client : Type := mkCl { c_id : nat; c_write : bool; c_data : list Z; c_block : list Z }.

Record vsys : Type := mkVs {
  vs_d : vdisk;
  vs_seen : Z;              (* the device's position in the ring of requests *)
  vs_taken : list nat;      (* requests the device works on *)
  vs_disk : Z → list Z;
  vs_cl : nat → option client;
}.

(** A thread may use buffer [b] for block [no]: nobody else has the block. *)
Definition may_submit (s : vsys) (b : nat) : Prop :=
  vs_cl s b = None ∧ 0 ≤ bno (vs_d s) b < 2 ^ 31 ∧
  ∀ b' c, vs_cl s b' = Some c → bno (vs_d s) b' ≠ bno (vs_d s) b.

Inductive vstep : vsys → vsys → Prop :=
| VBuf s b no data :
    vs_cl s b = None → length data = 1024%nat →
    vstep s (mkVs (mkVd (v_desc (vs_d s)) (v_ring (vs_d s)) (v_avail (vs_d s)) (v_used (vs_d s)) (v_uidx (vs_d s))
        (v_free (vs_d s)) (v_used_idx (vs_d s)) (v_info (vs_d s)) (v_ops (vs_d s)) (<[b := data]> (bdata (vs_d s)))
        (bdisk (vs_d s)) (<[b := no]> (bno (vs_d s))) (v_woken (vs_d s)))
      (vs_seen s) (vs_taken s) (vs_disk s) (vs_cl s))
| VSubmit s b w i0 d' :
    may_submit s b → rw_submit b w (vs_d s) = Ok i0 d' →
    vstep s (mkVs d' (vs_seen s) (vs_taken s) (vs_disk s)
      (<[b := Some (mkCl (Z.to_nat i0) w (bdata (vs_d s) b) (block_of (vs_disk s) (bno (vs_d s) b)))]> (vs_cl s)))
| VWait s b w ch d' :
    may_submit s b → rw_submit b w (vs_d s) = Sleep ch d' →
    vstep s (mkVs d' (vs_seen s) (vs_taken s) (vs_disk s) (vs_cl s))
| VTake s :
    vs_seen s ≠ v_avail (vs_d s) →
    vstep s (mkVs (vs_d s) (u16 (vs_seen s + 1))
      (vs_taken s ++ [Z.to_nat (v_ring (vs_d s) (Z.to_nat (vs_seen s mod NUM)))]) (vs_disk s) (vs_cl s))
| VDone s l1 id l2 d' dsk' :
    vs_taken s = l1 ++ id :: l2 → device_do id (vs_d s) (vs_disk s) = Some (d', dsk') →
    vstep s (mkVs (push_used id d') (vs_seen s) (l1 ++ l2) dsk' (vs_cl s))
| VIntr s d' :
    virtio_disk_intr (vs_d s) = Ok tt d' →
    vstep s (mkVs d' (vs_seen s) (vs_taken s) (vs_disk s) (vs_cl s))
| VFinish s b c d' :
    vs_cl s b = Some c → rw_finish b (Z.of_nat (c_id c)) (vs_d s) = Ok tt d' →
    vstep s (mkVs d' (vs_seen s) (vs_taken s) (vs_disk s) (<[b := None]> (vs_cl s))).

(** The steps among these of the device and the handler, which is run when the
    device has reported something. *)
Inductive dstep : vsys → vsys → Prop :=
| DTake s :
    vs_seen s ≠ v_avail (vs_d s) →
    dstep s (mkVs (vs_d s) (u16 (vs_seen s + 1))
      (vs_taken s ++ [Z.to_nat (v_ring (vs_d s) (Z.to_nat (vs_seen s mod NUM)))]) (vs_disk s) (vs_cl s))
| DDone s l1 id l2 d' dsk' :
    vs_taken s = l1 ++ id :: l2 → device_do id (vs_d s) (vs_disk s) = Some (d', dsk') →
    dstep s (mkVs (push_used id d') (vs_seen s) (l1 ++ l2) dsk' (vs_cl s))
| DIntr s d' :
    v_used_idx (vs_d s) ≠ v_uidx (vs_d s) → virtio_disk_intr (vs_d s) = Ok tt d' →
    dstep s (mkVs d' (vs_seen s) (vs_taken s) (vs_disk s) (vs_cl s)).

Lemma dstep_vstep s s' : dstep s s' → vstep s s'.
Proof. destruct 1; econstructor; eassumption. Qed.

(** After [virtio_disk_init]: empty rings, every descriptor free. *)
Definition vinit (s : vsys) : Prop :=
  v_avail (vs_d s) = 0 ∧ v_uidx (vs_d s) = 0 ∧ v_used_idx (vs_d s) = 0 ∧ vs_seen s = 0 ∧ vs_taken s = [] ∧
  (∀ i, (i < 8)%nat → v_free (vs_d s) i = true) ∧ (∀ b, vs_cl s b = None) ∧
  (∀ b, length (bdata (vs_d s) b) = 1024%nat) ∧ ∀ n, length (vs_disk s n) = 512%nat.

Definition vreach (s : vsys) : Prop := ∃ s0, vinit s0 ∧ rtc vstep s0 s.

(** ** The invariant *)

(** The descriptors of a request. *)
Definition chain_ids (d : vdisk) (c : client) : list nat :=
  let i1 := Z.to_nat (vd_next (v_desc d (c_id c))) in
  [c_id c; i1; Z.to_nat (vd_next (v_desc d i1))].

Record chain_ok (d : vdisk) (b : nat) (c : client) : Prop := {
  co_desc : ∃ i1 i2,
    v_desc d (c_id c) = mkDesc (DOps (c_id c)) 16 VRING_DESC_F_NEXT (Z.of_nat i1) ∧
    v_desc d i1 = mkDesc (DData b) BSIZE (Z.lor (if c_write c then 0 else VRING_DESC_F_WRITE) VRING_DESC_F_NEXT) (Z.of_nat i2) ∧
    v_desc d i2 = mkDesc (DStatus (c_id c)) 1 VRING_DESC_F_WRITE 0;
  co_nodup : NoDup (chain_ids d c);
  co_range : ∀ i, i ∈ chain_ids d c → (i < 8)%nat ∧ v_free d i = false;
  co_ops : v_ops d (c_id c) = mkReq (if c_write c then VIRTIO_BLK_T_OUT else VIRTIO_BLK_T_IN) 0 (2 * bno d b);
  co_info : in_b (v_info d (c_id c)) = Some b;
  co_bno : 0 ≤ bno d b < 2 ^ 31;
}.

(** The ring of requests holds [pend] from [seen] on, the ring of finished ones
    [fin] from [used_idx] on. *)
Record rings (s : vsys) (pend fin : list nat) : Prop := {
  rg_seen : 0 ≤ vs_seen s < 2 ^ 16 ∧ v_avail (vs_d s) = u16 (vs_seen s + Z.of_nat (length pend));
  rg_pend : ∀ k id, pend !! k = Some id → v_ring (vs_d s) (Z.to_nat ((vs_seen s + Z.of_nat k) mod NUM)) = Z.of_nat id;
  rg_used : 0 ≤ v_used_idx (vs_d s) < 2 ^ 16 ∧ v_uidx (vs_d s) = u16 (v_used_idx (vs_d s) + Z.of_nat (length fin));
  rg_fin : ∀ k id, fin !! k = Some id → v_used (vs_d s) (Z.to_nat ((v_used_idx (vs_d s) + Z.of_nat k) mod NUM)) = Z.of_nat id;
}.

(** The effect of a request, before and after the device has performed it. *)
Definition effect (s : vsys) (b : nat) (c : client) (done : bool) : Prop :=
  bdata (vs_d s) b = (if c_write c then c_data c else if done then c_block c else c_data c) ∧
  block_of (vs_disk s) (bno (vs_d s) b) = (if c_write c then (if done then c_data c else c_block c) else c_block c).

Record vinv (s : vsys) (pend fin : list nat) : Prop := {
  vi_chain : ∀ b c, vs_cl s b = Some c → chain_ok (vs_d s) b c;
  vi_disj : ∀ b c b' c' i, vs_cl s b = Some c → vs_cl s b' = Some c' →
    i ∈ chain_ids (vs_d s) c → i ∈ chain_ids (vs_d s) c' → b = b';
  vi_leak : ∀ i, (i < 8)%nat → v_free (vs_d s) i = false → ∃ b c, vs_cl s b = Some c ∧ i ∈ chain_ids (vs_d s) c;
  vi_block : ∀ b c b' c', vs_cl s b = Some c → vs_cl s b' = Some c' → bno (vs_d s) b = bno (vs_d s) b' → b = b';
  vi_rings : rings s pend fin;
  vi_nodup : NoDup (pend ++ vs_taken s ++ fin);
  vi_busy : ∀ id, id ∈ pend ++ vs_taken s ++ fin ↔ ∃ b c, vs_cl s b = Some c ∧ c_id c = id ∧ bdisk (vs_d s) b = true;
  vi_todo : ∀ b c, vs_cl s b = Some c → c_id c ∈ pend ++ vs_taken s → effect s b c false;
  vi_done : ∀ b c, vs_cl s b = Some c → c_id c ∉ pend ++ vs_taken s → effect s b c true;
  vi_status : ∀ id, id ∈ fin → in_status (v_info (vs_d s) id) = 0;
  vi_len : (∀ b, length (bdata (vs_d s) b) = 1024%nat) ∧ ∀ n, length (vs_disk s n) = 512%nat;
}.

(** ** Descriptors *)

Lemma find_free_spec k i f :
  match find_free k i f with
  | Some j => (i ≤ j < i + k)%nat ∧ f j = true
  | None => ∀ j, (i ≤ j < i + k)%nat → f j = false
  end.
Proof.
  revert i. induction k as [|k IH]; intros i; simpl; [intros j Hj; lia|].
  destruct (f i) eqn:E; [split; [lia|done]|]. specialize (IH (S i)). destruct (find_free k (S i) f).
  - destruct IH. split; [lia|done].
  - intros j Hj. destruct (decide (j = i)) as [->|]; [done|]. apply IH. lia.
Qed.

Lemma alloc_desc_spec (Q : Z → vdisk → Prop) s :
  (∀ j, (j < 8)%nat → v_free s j = true → Q (Z.of_nat j) (set_free j false s)) → Q (-1) s → wp alloc_desc Q s.
Proof.
  intros H1 H2. unfold alloc_desc. apply wp_step. unfold wp at 1, gets.
  pose proof (find_free_spec 8 0 (v_free s)) as Hf. change (Z.to_nat NUM) with 8%nat.
  destruct (find_free 8 0 (v_free s)) as [j|]; [|by apply wp_ret]. destruct Hf as [Hj Hf].
  apply wp_step. unfold wp at 1, modify. apply wp_ret. apply H1; [lia|done].
Qed.

Definition freed (i : nat) (s : vdisk) : vdisk := vwake ChDiskFree (set_free i true (set_desc i (mkDesc DNull 0 0 0) s)).

Lemma free_desc_spec i (Q : unit → vdisk → Prop) s :
  (i < 8)%nat → v_free s i = false → Q tt (freed i s) → wp (free_desc (Z.of_nat i)) Q s.
Proof.
  intros Hi Hf HQ. unfold free_desc. destruct (Z.leb_spec NUM (Z.of_nat i)); [unfold NUM in *; lia|].
  rewrite Nat2Z.id. unfold wp, bind, gets, modify. by rewrite Hf.
Qed.

(** States that differ in the contents of free descriptors only. *)
Record same_free (s s' : vdisk) : Prop := {
  sf_desc : ∀ i, v_free s i = false → v_desc s' i = v_desc s i;
  sf_free : ∀ i, v_free s' i = v_free s i;
  sf_rest : v_ring s' = v_ring s ∧ v_avail s' = v_avail s ∧ v_used s' = v_used s ∧ v_uidx s' = v_uidx s ∧
    v_used_idx s' = v_used_idx s ∧ v_info s' = v_info s ∧ v_ops s' = v_ops s ∧ bdata s' = bdata s ∧ bdisk s' = bdisk s ∧ bno s' = bno s;
}.

Lemma same_free_refl s : same_free s s.
Proof. by split. Qed.

Ltac fins :=
  repeat match goal with
  | |- context [insert ?x ?v ?f ?x] => rewrite (fn_lookup_insert f x v)
  | |- context [insert ?x ?v ?f ?y] => rewrite (fn_lookup_insert_ne f x y v) by congruence
  end.

Lemma nodup3 (i j k : nat) : i ≠ j → j ≠ k → i ≠ k → NoDup [i; j; k].
Proof. intros. repeat (constructor; [set_solver|]). constructor. Qed.

Lemma alloc3_spec (Q : option (Z * Z * Z) → vdisk → Prop) s :
  (∀ i0 i1 i2, (i0 < 8)%nat → (i1 < 8)%nat → (i2 < 8)%nat → v_free s i0 = true → v_free s i1 = true → v_free s i2 = true →
     NoDup [i0; i1; i2] →
     Q (Some (Z.of_nat i0, Z.of_nat i1, Z.of_nat i2)) (set_free i2 false (set_free i1 false (set_free i0 false s)))) →
  (∀ s', same_free s s' → Q None s') → wp alloc3_desc Q s.
Proof.
  intros HS HN. unfold alloc3_desc. apply wp_step, alloc_desc_spec; [|simpl; apply wp_ret, HN, same_free_refl].
  intros i0 L0 F0. destruct (Z.ltb_spec (Z.of_nat i0) 0); [lia|].
  apply wp_step, alloc_desc_spec.
  - intros i1 L1 F1. simpl in F1. destruct (Z.ltb_spec (Z.of_nat i1) 0); [lia|].
    assert (N1 : i0 ≠ i1) by (intros ->; by rewrite fn_lookup_insert in F1). rewrite fn_lookup_insert_ne in F1 by done.
    apply wp_step, alloc_desc_spec.
    + intros i2 L2 F2. simpl in F2. destruct (Z.ltb_spec (Z.of_nat i2) 0); [lia|].
      assert (N2 : i1 ≠ i2) by (intros ->; by rewrite fn_lookup_insert in F2). rewrite fn_lookup_insert_ne in F2 by done.
      assert (N3 : i0 ≠ i2) by (intros ->; by rewrite fn_lookup_insert in F2). rewrite fn_lookup_insert_ne in F2 by done.
      apply wp_ret. apply HS; try done. by apply nodup3.
    + simpl. apply wp_step, free_desc_spec; [done|by simpl; fins|]. apply wp_step, free_desc_spec; [done|by simpl; fins|].
      apply wp_ret, HN. split; simpl; [| |done].
      * intros j Hj. assert (i0 ≠ j) by congruence. assert (i1 ≠ j) by congruence. by fins.
      * intros j. destruct (decide (i0 = j)) as [<-|]; [by fins|]. destruct (decide (i1 = j)) as [<-|]; by fins.
  - simpl. apply wp_step, free_desc_spec; [done|by simpl; fins|]. apply wp_ret, HN. split; simpl; [| |done].
    + intros j Hj. assert (i0 ≠ j) by congruence. by fins.
    + intros j. destruct (decide (i0 = j)) as [<-|]; by fins.
Qed.

(** ** Submitting a request *)

(** The state after [rw_submit] with the descriptors [i0], [i1] and [i2]. *)
Record submitted (s : vdisk) (b : nat) (w : bool) (i0 i1 i2 : nat) (s' : vdisk) : Prop := {
  sm_fresh : v_free s i0 = true ∧ v_free s i1 = true ∧ v_free s i2 = true ∧ (i0 < 8)%nat ∧ (i1 < 8)%nat ∧ (i2 < 8)%nat ∧
    NoDup [i0; i1; i2];
  sm_d0 : v_desc s' i0 = mkDesc (DOps i0) 16 VRING_DESC_F_NEXT (Z.of_nat i1);
  sm_d1 : v_desc s' i1 = mkDesc (DData b) BSIZE (Z.lor (if w then 0 else VRING_DESC_F_WRITE) VRING_DESC_F_NEXT) (Z.of_nat i2);
  sm_d2 : v_desc s' i2 = mkDesc (DStatus i0) 1 VRING_DESC_F_WRITE 0;
  sm_desc : ∀ i, v_free s i = false → v_desc s' i = v_desc s i;
  sm_free : ∀ i, v_free s' i = if decide (i ∈ [i0; i1; i2]) then false else v_free s i;
  sm_ops : v_ops s' i0 = mkReq (if w then VIRTIO_BLK_T_OUT else VIRTIO_BLK_T_IN) 0 (2 * bno s b) ∧
    ∀ i, i ≠ i0 → v_ops s' i = v_ops s i;
  sm_info : v_info s' i0 = mkInfo (Some b) 255 ∧ ∀ i, i ≠ i0 → v_info s' i = v_info s i;
  sm_ring : v_ring s' = <[Z.to_nat (v_avail s mod NUM) := Z.of_nat i0]> (v_ring s) ∧ v_avail s' = u16 (v_avail s + 1);
  sm_bdisk : bdisk s' b = true ∧ ∀ b', b' ≠ b → bdisk s' b' = bdisk s b';
  sm_rest : v_used s' = v_used s ∧ v_uidx s' = v_uidx s ∧ v_used_idx s' = v_used_idx s ∧ bdata s' = bdata s ∧ bno s' = bno s;
}.

Lemma decide_in3 (i i0 i1 i2 : nat) {A} (x y : A) :
  (if decide (i ∈ [i0; i1; i2]) then x else y) =
  if decide (i2 = i) then x else if decide (i1 = i) then x else if decide (i0 = i) then x else y.
Proof. repeat case_decide; set_solver. Qed.

Lemma rw_submit_cases s b w :
  0 ≤ bno s b < 2 ^ 31 →
  (∃ i0 i1 i2 s', rw_submit b w s = Ok (Z.of_nat i0) s' ∧ submitted s b w i0 i1 i2 s') ∨
  (∃ s', rw_submit b w s = Sleep ChDiskFree s' ∧ same_free s s').
Proof.
  intros Hb. destruct (wp_inv alloc3_desc (λ o s', match o with
    | None => same_free s s'
    | Some (a0, a1, a2) => ∃ i0 i1 i2, a0 = Z.of_nat i0 ∧ a1 = Z.of_nat i1 ∧ a2 = Z.of_nat i2 ∧
        s' = set_free i2 false (set_free i1 false (set_free i0 false s)) ∧
        (v_free s i0 = true ∧ v_free s i1 = true ∧ v_free s i2 = true ∧ (i0 < 8)%nat ∧ (i1 < 8)%nat ∧ (i2 < 8)%nat ∧ NoDup [i0; i1; i2])
    end) s) as (o & s1 & Ho & Hs1).
  { apply alloc3_spec; [|done]. intros i0 i1 i2 ? ? ? ? ? ? ?. by exists i0, i1, i2. }
  unfold rw_submit. rewrite (bind_Ok _ _ _ _ _ (eq_refl : gets (λ s, bno s b) s = Ok (bno s b) s)).
  rewrite (bind_Ok _ _ _ _ _ Ho). destruct o as [[[a0 a1] a2]|]; [left|right; by exists s1].
  destruct Hs1 as (i0 & i1 & i2 & -> & -> & -> & -> & Hf). exists i0, i1, i2. eexists. split; [reflexivity|].
  destruct Hf as (F0 & F1 & F2 & L0 & L1 & L2 & Hnd).
  assert (N01 : i0 ≠ i1) by (intros ->; rewrite !NoDup_cons in Hnd; set_solver).
  assert (N02 : i0 ≠ i2) by (intros ->; rewrite !NoDup_cons in Hnd; set_solver).
  assert (N12 : i1 ≠ i2) by (intros ->; rewrite !NoDup_cons in Hnd; set_solver).
  split; simpl; rewrite ?Nat2Z.id; try done; fins; try done.
  - intros i Hi. assert (i0 ≠ i) by congruence. assert (i1 ≠ i) by congruence. assert (i2 ≠ i) by congruence. by fins.
  - intros i. rewrite decide_in3. repeat (case_decide; [subst; by fins|]). by fins.
  - split; [|intros i Hi; by fins]. f_equal. change (BSIZE / 512) with 2. rewrite u32_id by lia. lia.
  - split; [done|]. intros i Hi. by fins.
  - split; [done|]. intros b' Hb'. by fins.
Qed.

(** ** The invariant is kept *)

Lemma chain_ids_eq d c i1 i2 :
  vd_next (v_desc d (c_id c)) = Z.of_nat i1 → vd_next (v_desc d i1) = Z.of_nat i2 → chain_ids d c = [c_id c; i1; i2].
Proof. intros H1 H2. unfold chain_ids. by rewrite H1, Nat2Z.id, H2, Nat2Z.id. Qed.

Lemma chain_head d c : c_id c ∈ chain_ids d c.
Proof. by left. Qed.

Lemma chain_frame d d' b c :
  chain_ok d b c → (∀ i, i ∈ chain_ids d c → v_desc d' i = v_desc d i ∧ v_free d' i = false) →
  v_ops d' (c_id c) = v_ops d (c_id c) → in_b (v_info d' (c_id c)) = in_b (v_info d (c_id c)) → bno d' b = bno d b →
  chain_ok d' b c ∧ chain_ids d' c = chain_ids d c.
Proof.
  intros [(i1 & i2 & D0 & D1 & D2) Hnd Hr Hops Hin Hb] Hd Ho Hi Hbn.
  assert (Hids : chain_ids d c = [c_id c; i1; i2]) by (apply chain_ids_eq; [by rewrite D0|by rewrite D1]).
  assert (E0 : v_desc d' (c_id c) = v_desc d (c_id c)) by (apply Hd; rewrite Hids; set_solver).
  assert (E1 : v_desc d' i1 = v_desc d i1) by (apply Hd; rewrite Hids; set_solver).
  assert (E2 : v_desc d' i2 = v_desc d i2) by (apply Hd; rewrite Hids; set_solver).
  assert (Hids' : chain_ids d' c = [c_id c; i1; i2]) by (apply chain_ids_eq; [by rewrite E0, D0|by rewrite E1, D1]).
  split; [|congruence]. split; rewrite ?Hids', <- ?Hids, ?Ho, ?Hi, ?Hbn; try done.
  - exists i1, i2. rewrite E0, E1, E2. done.
  - intros i Hin'. split; [by apply Hr|by apply Hd].
Qed.

Lemma nodup_bound (l : list nat) n : NoDup l → (∀ x, x ∈ l → (x < n)%nat) → (length l ≤ n)%nat.
Proof.
  intros Hnd Hb. rewrite <- (length_seq n 0). apply submseteq_length, NoDup_submseteq; [done|].
  intros x Hx. apply elem_of_seq. specialize (Hb x Hx). lia.
Qed.

Lemma wp_inv_eq {S A} (m : M S A) s a s' : wp m (λ a1 s1, a1 = a ∧ s1 = s') s → m s = Ok a s'.
Proof. intros Hw. destruct (wp_inv _ _ _ Hw) as (a1 & s1 & -> & -> & ->). done. Qed.

Section vinv.
Context (s : vsys) (pend fin : list nat) (Hv : vinv s pend fin).
Notation d := (vs_d s).

Lemma busy_client id : id ∈ pend ++ vs_taken s ++ fin → ∃ b c, vs_cl s b = Some c ∧ c_id c = id ∧ bdisk d b = true.
Proof. apply (vi_busy _ _ _ Hv). Qed.

Lemma busy_range id : id ∈ pend ++ vs_taken s ++ fin → (id < 8)%nat ∧ v_free d id = false.
Proof.
  intros (b & c & Hc & <- & _)%busy_client. apply (co_range _ _ _ (vi_chain _ _ _ Hv b c Hc)), chain_head.
Qed.

Lemma one_client b c b' c' : vs_cl s b = Some c → vs_cl s b' = Some c' → c_id c = c_id c' → b = b' ∧ c = c'.
Proof.
  intros Hc Hc' He. assert (b = b') as <-.
  { apply (vi_disj _ _ _ Hv b c b' c' (c_id c)); try done; [apply chain_head|rewrite He; apply chain_head]. }
  split; [done|congruence].
Qed.

Lemma vinv_short l : NoDup l → (∀ x, x ∈ l → x ∈ pend ++ vs_taken s ++ fin) → (length l ≤ 8)%nat.
Proof. intros Hn Hl. apply nodup_bound; [done|]. intros x Hx. by apply busy_range, Hl. Qed.

(** A change that leaves every request alone. *)
Lemma vinv_frame d' :
  (∀ i, v_free d i = false → v_desc d' i = v_desc d i) → (∀ i, v_free d' i = v_free d i) →
  v_ring d' = v_ring d → v_avail d' = v_avail d → v_used d' = v_used d → v_uidx d' = v_uidx d → v_used_idx d' = v_used_idx d →
  v_info d' = v_info d → v_ops d' = v_ops d → bdisk d' = bdisk d →
  (∀ b c, vs_cl s b = Some c → bdata d' b = bdata d b ∧ bno d' b = bno d b) → (∀ b, length (bdata d' b) = 1024%nat) →
  vinv (mkVs d' (vs_seen s) (vs_taken s) (vs_disk s) (vs_cl s)) pend fin.
Proof.
  intros H1 H2 H3 H4 H5 H6 H7 H8 H9 H10 H11 H12.
  assert (Hch : ∀ b c, vs_cl s b = Some c → chain_ok d' b c ∧ chain_ids d' c = chain_ids d c).
  { intros b c Hc. pose proof (vi_chain _ _ _ Hv b c Hc) as Hok. apply (chain_frame d); try done.
    - intros i Hi. destruct (co_range _ _ _ Hok i Hi) as [_ Hf]. rewrite H2. auto.
    - by rewrite H9.
    - by rewrite H8.
    - by apply (H11 b c). }
  assert (Heff : ∀ b c x, vs_cl s b = Some c → effect s b c x → effect (mkVs d' (vs_seen s) (vs_taken s) (vs_disk s) (vs_cl s)) b c x).
  { intros b c x Hc. destruct (H11 b c Hc) as [E1 E2]. unfold effect; simpl. by rewrite E1, E2. }
  destruct Hv as [V1 V2 V3 V4 [R1 R2 R3 R4] V6 V7 V8 V9 V10 V11]. split; simpl.
  - intros b c Hc. by apply Hch.
  - intros b c b' c' i Hc Hc'. rewrite (proj2 (Hch b c Hc)), (proj2 (Hch b' c' Hc')). by apply V2.
  - intros i Hi. rewrite H2. intros Hf. destruct (V3 i Hi Hf) as (b & c & Hc & Hin). exists b, c. split; [done|].
    by rewrite (proj2 (Hch b c Hc)).
  - intros b c b' c' Hc Hc'. destruct (H11 b c Hc) as [_ ->], (H11 b' c' Hc') as [_ ->]. by apply (V4 b c b' c').
  - split; simpl; rewrite ?H3, ?H4, ?H5, ?H6, ?H7; done.
  - done.
  - intros id. rewrite H10. apply V7.
  - intros b c Hc Hin. by apply Heff, V8.
  - intros b c Hc Hin. by apply Heff, V9.
  - intros id. rewrite H8. apply V10.
  - split; [done|apply V11].
Qed.

Lemma ring_pos (a : Z) (m k : nat) :
  0 ≤ a → (k < m)%nat → (m < 8)%nat → Z.to_nat (u16 (a + Z.of_nat m) mod NUM) ≠ Z.to_nat ((a + Z.of_nat k) mod NUM).
Proof. intros Ha Hk Hm. unfold u16, NUM. zdm. Qed.

Lemma ring_end (a : Z) (m : nat) : Z.to_nat (u16 (a + Z.of_nat m) mod NUM) = Z.to_nat ((a + Z.of_nat m) mod NUM).
Proof. unfold u16, NUM. zdm. Qed.

Lemma u16_succ a : u16 (u16 a + 1) = u16 (a + 1).
Proof. unfold u16. by rewrite Zplus_mod_idemp_l. Qed.

Ltac mem := repeat match goal with
  | H : context [_ ∈ _ ++ _] |- _ => rewrite elem_of_app in H
  | H : context [_ ∈ [_]] |- _ => rewrite list_elem_of_singleton in H
  end; rewrite ?elem_of_app, ?list_elem_of_singleton; tauto.

Lemma vinv_submit b w i0 i1 i2 d' :
  may_submit s b → submitted d b w i0 i1 i2 d' →
  vinv (mkVs d' (vs_seen s) (vs_taken s) (vs_disk s)
    (<[b := Some (mkCl i0 w (bdata d b) (block_of (vs_disk s) (bno d b)))]> (vs_cl s))) (pend ++ [i0]) fin.
Proof.
  intros (Hnone & Hbno & Hother) [(F0 & F1 & F2 & L0 & L1 & L2 & Hnd) D0 D1 D2 Hdesc Hfree [O1 O2] [I1 I2] [G1 G2] [B1 B2] (R1 & R2 & R3 & R4 & R5)].
  set (c0 := mkCl i0 w _ _).
  assert (Hids0 : chain_ids d' c0 = [i0; i1; i2]) by (apply chain_ids_eq; change (c_id c0) with i0; [by rewrite D0|by rewrite D1]).
  assert (Hnew : ∀ i, i ∈ [i0; i1; i2] → v_free d i = true).
  { intros i. rewrite !elem_of_cons, elem_of_nil. intros [->|[->|[->|[]]]]; done. }
  assert (Hch : ∀ b' c, vs_cl s b' = Some c → chain_ok d' b' c ∧ chain_ids d' c = chain_ids d c ∧ c_id c ≠ i0 ∧ b' ≠ b).
  { intros b' c Hc. pose proof (vi_chain _ _ _ Hv b' c Hc) as Hok.
    assert (Hni : ∀ i, i ∈ chain_ids d c → v_free d i = false) by (intros i Hi; by apply (co_range _ _ _ Hok)).
    assert (c_id c ≠ i0) by (intros He; pose proof (Hni _ (chain_head d c)); congruence).
    destruct (chain_frame d d' b' c) as [Hok' Hids']; try done.
    - intros i Hi. split; [apply Hdesc; auto|]. rewrite Hfree, decide_False; [by apply Hni|].
      intros Hx%Hnew. specialize (Hni i Hi). congruence.
    - by apply O2.
    - by rewrite I2.
    - by rewrite R5.
    - split_and!; try done. intros ->. congruence. }
  assert (Hfresh : i0 ∉ pend ++ vs_taken s ++ fin) by (intros Hx%busy_range; destruct Hx; congruence).
  destruct Hv as [V1 V2 V3 V4 [P1 P2 P3 P4] V6 V7 V8 V9 V10 V11].
  assert (Hlen : (length pend < 8)%nat).
  { assert (Hl : (length (i0 :: pend) ≤ 8)%nat); [|simpl in Hl; lia]. apply nodup_bound.
    - constructor; [mem|]. exact (proj1 (proj1 (NoDup_app _ _) V6)).
    - intros x [->|Hx]%elem_of_cons; [done|]. eapply busy_range. mem. }
  assert (Hlook : ∀ b' c, <[b := Some c0]> (vs_cl s) b' = Some c → b' = b ∧ c = c0 ∨ b' ≠ b ∧ vs_cl s b' = Some c).
  { intros b' c. destruct (decide (b = b')) as [<-|]; fins; [intros [= <-]; by left|right; split; [congruence|done]]. }
  split; simpl.
  - intros b' c [[-> ->]|[Hne Hc]]%Hlook; [|by apply Hch].
    split; rewrite ?Hids0; cbn [c0 c_id c_write]; try done.
    + exists i1, i2. done.
    + intros i Hi. rewrite Hfree, decide_True by done. split; [|done]. rewrite !elem_of_cons, elem_of_nil in Hi.
      destruct Hi as [->|[->|[->|[]]]]; done.
    + by rewrite O1, R5.
    + by rewrite I1.
    + by rewrite R5.
  - intros b1 c1 b2 c2 i [[-> ->]|[N1 E1]]%Hlook [[-> ->]|[N2 E2]]%Hlook; [done| | |].
    + rewrite Hids0, (proj1 (proj2 (Hch b2 c2 E2))). intros Hi%Hnew Hi2. apply (co_range _ _ _ (V1 b2 c2 E2)) in Hi2 as [_ ?]. congruence.
    + rewrite Hids0, (proj1 (proj2 (Hch b1 c1 E1))). intros Hi1 Hi%Hnew. apply (co_range _ _ _ (V1 b1 c1 E1)) in Hi1 as [_ ?]. congruence.
    + rewrite (proj1 (proj2 (Hch b1 c1 E1))), (proj1 (proj2 (Hch b2 c2 E2))). by apply V2.
  - intros i Hi. rewrite Hfree. case_decide as Hin; intros Hf.
    + exists b, c0. fins. split; [done|]. by rewrite Hids0.
    + destruct (V3 i Hi Hf) as (b' & c & Hc & Hic). destruct (Hch b' c Hc) as (_ & Hids & _ & Hne). exists b', c.
      rewrite fn_lookup_insert_ne by congruence. by rewrite Hids.
  - rewrite R5. intros b1 c1 b2 c2 [[-> ->]|[N1 E1]]%Hlook [[-> ->]|[N2 E2]]%Hlook He; [done| | |by apply (V4 b1 c1 b2 c2)].
    + exfalso. by apply (Hother b2 c2).
    + exfalso. by apply (Hother b1 c1).
  - destruct P1 as [P1 P1']. split; simpl.
    + split; [done|]. rewrite G2, P1', u16_succ, length_app. simpl. f_equal. lia.
    + intros k id Hk. rewrite G1, P1'. rewrite lookup_app in Hk. destruct (pend !! k) as [x|] eqn:Ek.
      * injection Hk as ->. pose proof (lookup_lt_Some _ _ _ Ek). rewrite fn_lookup_insert_ne; [by apply P2|].
        apply ring_pos; lia.
      * apply list_lookup_singleton_Some in Hk as [Hk <-]. apply lookup_ge_None in Ek.
        replace k with (length pend) by lia. by rewrite <- ring_end, fn_lookup_insert.
    + by rewrite R2, R3.
    + rewrite R1, R3. done.
  - rewrite <- app_assoc. simpl. rewrite <- Permutation_middle. by constructor.
  - intros id. rewrite !elem_of_app, list_elem_of_singleton, <- !elem_of_app. split.
    + intros [[Hp|Hp]|Hp].
      * destruct (proj1 (V7 id)) as (b' & c & Hc & Hid & Hb); [mem|]. destruct (Hch b' c Hc) as (_ & _ & _ & Hne).
        exists b', c. rewrite fn_lookup_insert_ne by congruence. by rewrite B2.
      * exists b, c0. fins. by subst.
      * destruct (proj1 (V7 id)) as (b' & c & Hc & Hid & Hb); [mem|]. destruct (Hch b' c Hc) as (_ & _ & _ & Hne).
        exists b', c. rewrite fn_lookup_insert_ne by congruence. by rewrite B2.
    + intros (b' & c & [[-> ->]|[Hne Hc]]%Hlook & <- & Hb); [by left; right|]. rewrite B2 in Hb by done.
      assert (Hin : c_id c ∈ pend ++ vs_taken s ++ fin) by (apply V7; eauto). mem.
  - intros b' c [[-> ->]|[Hne Hc]]%Hlook Hin.
    + split; simpl; rewrite ?R4, ?R5; by destruct w.
    + destruct (Hch b' c Hc) as (_ & _ & Hne0 & _). destruct (V8 b' c Hc) as [E1 E2]; [mem|].
      split; simpl; rewrite ?R4, ?R5; done.
  - intros b' c [[-> ->]|[Hne Hc]]%Hlook Hin; [exfalso; apply Hin; rewrite !elem_of_app, list_elem_of_singleton; by left; right|].
    destruct (V9 b' c Hc) as [E1 E2]; [rewrite !elem_of_app in *; tauto|]. split; simpl; rewrite ?R4, ?R5; done.
  - intros id Hid. rewrite I2; [by apply V10|]. intros ->. apply Hfresh. rewrite !elem_of_app. auto.
  - rewrite R4. exact V11.
Qed.

(** The device takes the request at the head of the ring. *)
Lemma vinv_take :
  vs_seen s ≠ v_avail d →
  ∃ id pend', pend = id :: pend' ∧ Z.to_nat (v_ring d (Z.to_nat (vs_seen s mod NUM))) = id ∧
    vinv (mkVs d (u16 (vs_seen s + 1)) (vs_taken s ++ [id]) (vs_disk s) (vs_cl s)) pend' fin.
Proof.
  intros Hne. destruct Hv as [V1 V2 V3 V4 [[P1 P1'] P2 P3 P4] V6 V7 V8 V9 V10 V11].
  destruct pend as [|id pend'].
  { exfalso. apply Hne. rewrite P1'. simpl. unfold u16. rewrite Z.add_0_r, Z.mod_small; lia. }
  exists id, pend'. split; [done|].
  assert (Hr : v_ring d (Z.to_nat (vs_seen s mod NUM)) = Z.of_nat id).
  { rewrite <- (P2 0%nat id eq_refl). by rewrite Z.add_0_r. }
  split; [by rewrite Hr, Nat2Z.id|].
  assert (Hp : pend' ++ (vs_taken s ++ [id]) ++ fin ≡ₚ (id :: pend') ++ vs_taken s ++ fin).
  { simpl. rewrite <- app_assoc. simpl. rewrite <- Permutation_middle, app_assoc, <- Permutation_middle. by rewrite <- app_assoc. }
  assert (Hin : ∀ x, x ∈ pend' ++ vs_taken s ++ [id] ↔ x ∈ (id :: pend') ++ vs_taken s).
  { intros x. simpl. rewrite !elem_of_cons, !elem_of_app, list_elem_of_singleton. tauto. }
  split; simpl; try done.
  - split; simpl; try done.
    + split; [apply Z.mod_pos_bound; done|]. rewrite P1'. simpl. unfold u16. rewrite Zplus_mod_idemp_l. f_equal. lia.
    + intros k x Hk. rewrite <- (P2 (S k) x Hk). do 2 f_equal. unfold u16, NUM. zdm.
  - by rewrite Hp.
  - intros x. rewrite Hp. apply V7.
  - intros b c Hc Hi. destruct (V8 b c Hc) as [E1 E2]; [by apply Hin|]. by split.
  - intros b c Hc Hi. destruct (V9 b c Hc) as [E1 E2]; [by rewrite <- Hin|]. by split.
Qed.

(** What the device does with a well-formed chain. *)
Lemma device_do_spec b c :
  vs_cl s b = Some c →
  device_do (c_id c) d (vs_disk s) = Some (
    if c_write c
    then (set_info (c_id c) (mkInfo (Some b) 0) d, put_sectors (2 * bno d b) (bdata d b) (vs_disk s))
    else (mkVd (v_desc d) (v_ring d) (v_avail d) (v_used d) (v_uidx d) (v_free d) (v_used_idx d)
        (<[c_id c := mkInfo (Some b) 0]> (v_info d)) (v_ops d) (<[b := block_of (vs_disk s) (bno d b)]> (bdata d))
        (bdisk d) (bno d) (v_woken d), vs_disk s)).
Proof.
  intros Hc. destruct (vi_chain _ _ _ Hv b c Hc) as [(i1 & i2 & D0 & D1 & D2) _ _ Ho Hi _].
  unfold device_do. rewrite D0. cbn [vd_next]. rewrite Nat2Z.id, D1. cbn [vd_next]. rewrite Nat2Z.id, D2. cbn [vd_addr]. rewrite Ho, Hi.
  by destruct (c_write c).
Qed.

Lemma block_put n m data :
  length data = 1024%nat → block_of (put_sectors (2 * n) data (vs_disk s)) m = if decide (m = n) then data else block_of (vs_disk s) m.
Proof.
  intros Hl. unfold block_of, put_sectors. case_decide as Hm.
  - subst m. rewrite fn_lookup_insert_ne, !fn_lookup_insert by lia. apply take_drop.
  - rewrite !fn_lookup_insert_ne by lia. done.
Qed.

Lemma length_put n data :
  length data = 1024%nat → ∀ m, length (put_sectors n data (vs_disk s) m) = 512%nat.
Proof.
  intros Hl m. unfold put_sectors. destruct (decide (n + 1 = m)) as [<-|]; fins; [rewrite length_drop; lia|].
  destruct (decide (n = m)) as [<-|]; fins; [rewrite length_take; lia|apply Hv].
Qed.

(** The device finishes a request. *)
Lemma vinv_done l1 id l2 :
  vs_taken s = l1 ++ id :: l2 →
  ∃ d' dsk', device_do id d (vs_disk s) = Some (d', dsk') ∧
    vinv (mkVs (push_used id d') (vs_seen s) (l1 ++ l2) dsk' (vs_cl s)) pend (fin ++ [id]).
Proof.
  intros Ht. destruct (busy_client id) as (b & c & Hc & Hid & Hb); [rewrite Ht, !elem_of_app; right; left; right; by left|].
  subst id. rewrite (device_do_spec b c Hc).
  set (r := if c_write c then _ else _). exists r.1, r.2. split; [by destruct r|].
  assert (Hinfo : ∀ i, v_info r.1 i = if decide (c_id c = i) then mkInfo (Some b) 0 else v_info d i).
  { intros i. unfold r. destruct (c_write c); simpl; case_decide as Hi; try subst i; by fins. }
  assert (Hdata : ∀ x, bdata r.1 x = if decide (b = x) then (if c_write c then bdata d b else block_of (vs_disk s) (bno d b)) else bdata d x).
  { intros x. unfold r. destruct (c_write c); simpl; case_decide as Hi; try subst x; by fins. }
  assert (Hrest : v_desc r.1 = v_desc d ∧ v_ring r.1 = v_ring d ∧ v_avail r.1 = v_avail d ∧ v_used r.1 = v_used d ∧ v_uidx r.1 = v_uidx d ∧
    v_free r.1 = v_free d ∧ v_used_idx r.1 = v_used_idx d ∧ v_ops r.1 = v_ops d ∧ bdisk r.1 = bdisk d ∧ bno r.1 = bno d).
  { unfold r. by destruct (c_write c). }
  pose proof Hv as [V1 V2 V3 V4 [P1 P2 [P3 P3'] P4] V6 V7 V8 V9 V10 [V11 V12]].
  assert (Hblk : ∀ m, block_of r.2 m = if decide (m = bno d b) then (if c_write c then bdata d b else block_of (vs_disk s) m) else block_of (vs_disk s) m).
  { intros m. unfold r. destruct (c_write c); simpl; [|by case_decide]. by rewrite block_put by apply V11. }
  assert (Hlen : ∀ m, length (r.2 m) = 512%nat).
  { intros m. unfold r. destruct (c_write c); simpl; [|apply V12]. by apply length_put. }
  clearbody r. destruct r as [d' dsk']. cbn [fst snd] in *.
  destruct Hrest as (R1 & R2 & R3 & R4 & R5 & R6 & R7 & R8 & R9 & R10).
  assert (Hp : pend ++ (l1 ++ l2) ++ fin ++ [c_id c] ≡ₚ pend ++ vs_taken s ++ fin).
  { rewrite Ht. apply Permutation_app_head. rewrite <- (Permutation_middle l1 l2), (Permutation_app_comm fin). simpl.
    rewrite <- Permutation_middle. done. }
  assert (Hin : ∀ x, x ∈ pend ++ vs_taken s ↔ x = c_id c ∨ x ∈ pend ++ l1 ++ l2).
  { intros x. rewrite Ht, !elem_of_app, elem_of_cons. tauto. }
  assert (Hout : c_id c ∉ pend ++ l1 ++ l2 ++ fin).
  { rewrite Ht in V6. assert (Hq : pend ++ (l1 ++ c_id c :: l2) ++ fin ≡ₚ c_id c :: pend ++ l1 ++ l2 ++ fin).
    { rewrite <- app_assoc. simpl. by rewrite !(app_assoc pend l1), <- Permutation_middle, <- app_assoc. }
    rewrite Hq in V6. by apply NoDup_cons in V6 as [? _]. }
  assert (Hfin : (length fin < 8)%nat).
  { assert (Hl : (length (c_id c :: fin) ≤ 8)%nat); [|simpl in Hl; lia]. apply vinv_short.
    - constructor; [intros Hx; apply Hout; rewrite !elem_of_app; tauto|]. rewrite app_assoc in V6. apply NoDup_app in V6 as (_ & _ & ?). done.
    - intros x [->|Hx]%elem_of_cons; rewrite ?Ht, !elem_of_app, ?elem_of_cons; tauto. }
  assert (Hch : ∀ b1 c1, vs_cl s b1 = Some c1 → chain_ok (push_used (c_id c) d') b1 c1 ∧ chain_ids (push_used (c_id c) d') c1 = chain_ids d c1).
  { intros b1 c1 Hc1. pose proof (V1 b1 c1 Hc1) as Hok. apply (chain_frame d); try done; simpl.
    - intros i Hi. rewrite R1, R6. split; [done|]. by apply (co_range _ _ _ Hok).
    - by rewrite R8.
    - rewrite Hinfo. case_decide as He; [|done]. destruct (one_client b c b1 c1 Hc Hc1 He) as [-> ->]. simpl. by rewrite (co_info _ _ _ Hok).
    - by rewrite R10. }
  split; simpl.
  - intros b1 c1 Hc1. by apply Hch.
  - intros b1 c1 b2 c2 i E1 E2. rewrite (proj2 (Hch b1 c1 E1)), (proj2 (Hch b2 c2 E2)). by apply V2.
  - intros i Hi. rewrite R6. intros Hf. destruct (V3 i Hi Hf) as (b1 & c1 & E1 & Hi1). exists b1, c1. by rewrite (proj2 (Hch b1 c1 E1)).
  - rewrite R10. exact V4.
  - split; simpl; rewrite ?R2, ?R3, ?R4, ?R5, ?R7; try done.
    + split; [done|]. rewrite P3', u16_succ, length_app. simpl. f_equal. lia.
    + intros k id Hk. rewrite P3'. rewrite lookup_app in Hk. destruct (fin !! k) as [x|] eqn:Ek.
      * injection Hk as ->. pose proof (lookup_lt_Some _ _ _ Ek). rewrite fn_lookup_insert_ne; [by apply P4|]. apply ring_pos; lia.
      * apply list_lookup_singleton_Some in Hk as [Hk <-]. apply lookup_ge_None in Ek.
        replace k with (length fin) by lia. by rewrite <- ring_end, fn_lookup_insert.
  - by rewrite Hp.
  - intros x. rewrite Hp, R9. apply V7.
  - intros b1 c1 E1 Hi1. assert (Hne : c_id c ≠ c_id c1) by (intros He; apply Hout; rewrite He, !elem_of_app in *; tauto).
    assert (Hbb : b ≠ b1) by (intros ->; congruence).
    destruct (V8 b1 c1 E1) as [G1 G2]; [apply Hin; by right|]. split; simpl; rewrite ?R10, ?Hdata, ?Hblk.
    + by rewrite decide_False.
    + rewrite decide_False; [done|]. intros He. by apply Hbb, (V4 b c b1 c1).
  - intros b1 c1 E1 Hi1. destruct (decide (b = b1)) as [<-|Hbb].
    + replace c1 with c by congruence. destruct (V8 b c Hc) as [G1 G2]; [apply Hin; by left|].
      split; simpl; rewrite ?R10, ?Hdata, ?Hblk, !decide_True by done; destruct (c_write c); congruence.
    + destruct (V9 b1 c1 E1) as [G1 G2].
      { rewrite Hin. intros [He|He]; [|done]. by destruct (one_client b c b1 c1 Hc E1 (eq_sym He)). }
      split; simpl; rewrite ?R10, ?Hdata, ?Hblk.
      * by rewrite decide_False.
      * rewrite decide_False; [done|]. intros He. by apply Hbb, (V4 b c b1 c1).
  - intros x Hx. rewrite Hinfo. case_decide; [done|]. apply V10. apply elem_of_app in Hx as [?|Hx]; [done|].
    apply list_elem_of_singleton in Hx. congruence.
  - split; [|done]. intros x. rewrite Hdata. case_decide; [|apply V11]. destruct (c_write c); [apply V11|].
    unfold block_of. by rewrite length_app, !V12.
Qed.

(** One round of the interrupt handler's loop. *)
Definition notified (b : nat) : vdisk := set_used_idx (u16 (v_used_idx d + 1)) (vwake (ChBuf b) (set_bdisk b false d)).

Lemma vinv_notify id fin' :
  fin = id :: fin' →
  v_used_idx d ≠ v_uidx d ∧ Z.to_nat (v_used d (Z.to_nat (v_used_idx d mod NUM))) = id ∧ in_status (v_info d id) = 0 ∧
  ∃ b, in_b (v_info d id) = Some b ∧ vinv (mkVs (notified b) (vs_seen s) (vs_taken s) (vs_disk s) (vs_cl s)) pend fin'.
Proof.
  intros Hf. pose proof Hv as [V1 V2 V3 V4 [P1 P2 [P3 P3'] P4] V6 V7 V8 V9 V10 V11].
  assert (Hlen : (length fin ≤ 8)%nat).
  { apply vinv_short; [rewrite app_assoc in V6; by apply NoDup_app in V6 as (_ & _ & ?)|]. intros x Hx. rewrite !elem_of_app. tauto. }
  destruct (busy_client id) as (b & c & Hc & Hid & Hb); [rewrite Hf, !elem_of_app; right; right; by left|]. subst id.
  split; [rewrite P3'; rewrite Hf in Hlen |- *; simpl in *; unfold u16; zdm|].
  split; [rewrite Hf in P4; specialize (P4 0%nat _ eq_refl); rewrite Z.add_0_r in P4; by rewrite P4, Nat2Z.id|].
  split; [apply V10; rewrite Hf; by left|].
  exists b. split; [by apply (co_info _ _ _ (V1 b c Hc))|]. rewrite Hf in V6, V7, V10, P3', P4.
  assert (Hp : pend ++ vs_taken s ++ c_id c :: fin' ≡ₚ c_id c :: pend ++ vs_taken s ++ fin').
  { by rewrite !app_assoc, <- Permutation_middle. }
  rewrite Hp in V6. apply NoDup_cons in V6 as [Hnin V6].
  split; simpl; try done.
  - intros b1 c1 E1. destruct (V1 b1 c1 E1). by split.
  - split; simpl; try done.
    + split; [apply Z.mod_pos_bound; done|]. rewrite P3'. simpl. unfold u16. rewrite Zplus_mod_idemp_l. f_equal. lia.
    + intros k x Hk. rewrite <- (P4 (S k) x Hk). do 2 f_equal. unfold u16, NUM. zdm.
  - intros x. split.
    + intros Hx. destruct (proj1 (V7 x)) as (b1 & c1 & E1 & Hid1 & Hb1); [rewrite Hp; by right|]. exists b1, c1.
      assert (b ≠ b1) by (intros ->; apply Hnin; congruence). by fins.
    + intros (b1 & c1 & E1 & <- & Hb1). destruct (decide (b = b1)) as [<-|]; [by rewrite fn_lookup_insert in Hb1|].
      rewrite fn_lookup_insert_ne in Hb1 by done. assert (Hx : c_id c1 ∈ pend ++ vs_taken s ++ c_id c :: fin') by (apply V7; eauto).
      rewrite Hp in Hx. apply elem_of_cons in Hx as [Hx|Hx]; [|done]. by destruct (one_client b c b1 c1 Hc E1 (eq_sym Hx)).
  - intros x Hx. apply V10. by right.
Qed.

(** The thread of buffer [b] wakes up and frees the descriptors. *)
Lemma vinv_finish b c :
  vs_cl s b = Some c → bdisk d b = false →
  c_id c ∉ pend ++ vs_taken s ++ fin ∧
  ∃ d', rw_finish b (Z.of_nat (c_id c)) d = Ok tt d' ∧
    vinv (mkVs d' (vs_seen s) (vs_taken s) (vs_disk s) (<[b := None]> (vs_cl s))) pend fin.
Proof.
  intros Hc Hb. pose proof Hv as [V1 V2 V3 V4 [P1 P2 P3 P4] V6 V7 V8 V9 V10 V11].
  assert (Hnin : c_id c ∉ pend ++ vs_taken s ++ fin).
  { intros (b1 & c1 & E1 & He & Hb1)%busy_client. destruct (one_client b c b1 c1 Hc E1 (eq_sym He)) as [-> ->]. congruence. }
  split; [done|]. pose proof (V1 b c Hc) as Hok. destruct Hok as [(i1 & i2 & D0 & D1 & D2) Hnd Hr Ho Hi Hbn].
  assert (Hids : chain_ids d c = [c_id c; i1; i2]) by (apply chain_ids_eq; [by rewrite D0|by rewrite D1]). rewrite Hids in Hnd, Hr.
  destruct (Hr (c_id c)) as [L0 F0]; [by left|]. destruct (Hr i1) as [L1 F1]; [right; by left|].
  destruct (Hr i2) as [L2 F2]; [right; right; by left|]. set (i0 := c_id c) in *.
  rewrite !NoDup_cons, !not_elem_of_cons in Hnd. destruct Hnd as ((N01 & N02 & _) & (N12 & _) & _).
  set (d0 := set_info i0 (mkInfo None (in_status (v_info d i0))) d).
  assert (Hrun : rw_finish b (Z.of_nat i0) d = Ok tt (freed i2 (freed i1 (freed i0 d0)))).
  { apply (wp_inv_eq (rw_finish b (Z.of_nat i0))). unfold rw_finish. apply wp_step. unfold wp at 1, gets. rewrite Hb.
    apply wp_step. unfold wp at 1, modify. rewrite Nat2Z.id. fold d0. unfold free_chain. change (Z.to_nat NUM) with 8%nat.
    cbn [free_chain_loop]. apply wp_step. unfold wp at 1, gets. rewrite Nat2Z.id. change (v_desc d0 i0) with (v_desc d i0). rewrite D0.
    apply wp_step, free_desc_spec; [done|done|]. cbn [vd_flags vd_next]. change (negb (Z.land VRING_DESC_F_NEXT VRING_DESC_F_NEXT =? 0)) with true.
    cbv iota. apply wp_step. unfold wp at 1, gets. rewrite Nat2Z.id. cbn [freed vwake set_free set_desc v_desc v_free]. fins.
    change (v_desc d0 i1) with (v_desc d i1). rewrite D1.
    apply wp_step, free_desc_spec; [done|by cbn [freed vwake set_free set_desc v_desc v_free]; fins|]. cbn [vd_flags vd_next].
    assert (Hfl : negb (Z.land (Z.lor (if c_write c then 0 else VRING_DESC_F_WRITE) VRING_DESC_F_NEXT) VRING_DESC_F_NEXT =? 0) = true) by (by destruct (c_write c)).
    rewrite Hfl. apply wp_step. unfold wp at 1, gets. rewrite Nat2Z.id. cbn [freed vwake set_free set_desc v_desc v_free]. fins.
    change (v_desc d0 i2) with (v_desc d i2). rewrite D2.
    apply wp_step, free_desc_spec; [done|by cbn [freed vwake set_free set_desc v_desc v_free]; fins|]. cbn [vd_flags vd_next].
    change (negb (Z.land VRING_DESC_F_WRITE VRING_DESC_F_NEXT =? 0)) with false. cbv iota. by apply wp_ret. }
  eexists. split; [exact Hrun|]. clear Hrun. set (d' := freed i2 _).
  assert (Hdesc : ∀ i, i ∉ [i0; i1; i2] → v_desc d' i = v_desc d i).
  { intros i. rewrite !not_elem_of_cons. intros (? & ? & ? & _). unfold d', d0; simpl. by fins. }
  assert (Hfree : ∀ i, v_free d' i = if decide (i ∈ [i0; i1; i2]) then true else v_free d i).
  { intros i. rewrite decide_in3. unfold d', d0; simpl. repeat (case_decide; [subst; by fins|]). by fins. }
  assert (Hinfo : ∀ i, i ≠ i0 → v_info d' i = v_info d i) by (intros i Hne; unfold d', d0; simpl; by fins).
  assert (Hrest : v_ring d' = v_ring d ∧ v_avail d' = v_avail d ∧ v_used d' = v_used d ∧ v_uidx d' = v_uidx d ∧ v_used_idx d' = v_used_idx d ∧
    v_ops d' = v_ops d ∧ bdata d' = bdata d ∧ bdisk d' = bdisk d ∧ bno d' = bno d) by done.
  clearbody d'. destruct Hrest as (R1 & R2 & R3 & R4 & R5 & R6 & R7 & R8 & R9).
  assert (Hlook : ∀ b' c', <[b := None]> (vs_cl s) b' = Some c' → b' ≠ b ∧ vs_cl s b' = Some c').
  { intros b' c'. destruct (decide (b = b')) as [<-|]; fins; [done|split; [congruence|done]]. }
  assert (Hch : ∀ b1 c1, b1 ≠ b → vs_cl s b1 = Some c1 → chain_ok d' b1 c1 ∧ chain_ids d' c1 = chain_ids d c1 ∧ c_id c1 ≠ i0).
  { intros b1 c1 Hne E1. assert (Hdis : ∀ i, i ∈ chain_ids d c1 → i ∉ [i0; i1; i2]).
    { intros i Hi1 Hi2. apply Hne. symmetry. rewrite <- Hids in Hi2. by apply (V2 b c b1 c1 i). }
    assert (c_id c1 ≠ i0) by (intros He; apply (Hdis (c_id c1)); [apply chain_head|rewrite He; by left]).
    destruct (chain_frame d d' b1 c1) as [? ?]; rewrite ?R6, ?R9, ?Hinfo by done; auto.
    intros i Hi1. rewrite Hdesc, Hfree, decide_False by auto. split; [done|]. by apply (co_range _ _ _ (V1 b1 c1 E1)). }
  assert (Heff : ∀ b1 c1 x, effect s b1 c1 x → effect (mkVs d' (vs_seen s) (vs_taken s) (vs_disk s) (<[b := None]> (vs_cl s))) b1 c1 x).
  { intros b1 c1 x. unfold effect; simpl. by rewrite R7, R9. }
  split; simpl.
  - intros b1 c1 [Hne E1]%Hlook. by apply Hch.
  - intros b1 c1 b2 c2 i [N1 E1]%Hlook [N2 E2]%Hlook. destruct (Hch b1 c1 N1 E1) as (_ & -> & _), (Hch b2 c2 N2 E2) as (_ & -> & _).
    by apply V2.
  - intros i Hil. rewrite Hfree. case_decide as Hin; [done|]. intros Hf. destruct (V3 i Hil Hf) as (b1 & c1 & E1 & Hi1).
    assert (Hne : b1 ≠ b) by (intros ->; rewrite E1 in Hc; injection Hc as ->; rewrite Hids in Hi1; done).
    exists b1, c1. rewrite fn_lookup_insert_ne by congruence. destruct (Hch b1 c1 Hne E1) as (_ & -> & _). done.
  - rewrite R9. intros b1 c1 b2 c2 [N1 E1]%Hlook [N2 E2]%Hlook. by apply (V4 b1 c1 b2 c2).
  - split; simpl; rewrite ?R1, ?R2, ?R3, ?R4, ?R5; done.
  - done.
  - intros x. rewrite R8, V7. split.
    + intros (b1 & c1 & E1 & Hid & Hb1). exists b1, c1. assert (b ≠ b1) by (intros ->; congruence). by fins.
    + intros (b1 & c1 & [Hne E1]%Hlook & Hrest). by exists b1, c1.
  - intros b1 c1 [Hne E1]%Hlook Hin. by apply Heff, V8.
  - intros b1 c1 [Hne E1]%Hlook Hin. by apply Heff, V9.
  - intros x Hx. rewrite Hinfo; [by apply V10|]. intros ->. apply Hnin. rewrite !elem_of_app. tauto.
  - rewrite R7. exact V11.
Qed.
End vinv.

(** The interrupt handler notifies the thread of every finished request. *)
Lemma vinv_intr fin : ∀ s pend fuel, vinv s pend fin → (length fin ≤ fuel)%nat →
  ∃ d', intr_loop fuel (vs_d s) = Ok tt d' ∧ vinv (mkVs d' (vs_seen s) (vs_taken s) (vs_disk s) (vs_cl s)) pend [].
Proof.
  induction fin as [|id fin IH]; intros s pend fuel Hv Hl.
  - exists (vs_d s). split; [|by destruct s]. destruct (rg_used _ _ _ (vi_rings _ _ _ Hv)) as [Hr Hu]. simpl in Hu.
    rewrite Z.add_0_r in Hu. assert (He : v_used_idx (vs_d s) = v_uidx (vs_d s)) by (rewrite Hu; unfold u16; by rewrite Z.mod_small).
    apply wp_inv_eq. destruct fuel; cbn [intr_loop]; apply wp_step; unfold wp at 1, gets; apply wp_step; unfold wp at 1, gets;
      rewrite He, Z.eqb_refl; by apply wp_ret.
  - destruct fuel as [|fuel]; simpl in Hl; [lia|].
    destruct (vinv_notify s pend (id :: fin) Hv id fin eq_refl) as (H1 & H2 & H3 & b & H4 & Hv').
    destruct (IH _ _ fuel Hv' ltac:(lia)) as (d' & Hd' & Hv2). exists d'. split; [|exact Hv2].
    cbn [intr_loop]. cbn [vs_d] in Hd'. unfold bind, gets, modify. destruct (Z.eqb_spec (v_used_idx (vs_d s)) (v_uidx (vs_d s))); [done|].
    rewrite H2, H3, H4. exact Hd'.
Qed.

Lemma vinv_fin_short s pend fin : vinv s pend fin → (length fin ≤ 8)%nat.
Proof.
  intros Hv. apply (vinv_short s pend fin Hv).
  - pose proof (vi_nodup _ _ _ Hv) as Hn. rewrite app_assoc in Hn. by apply NoDup_app in Hn as (_ & _ & ?).
  - intros x Hx. rewrite !elem_of_app. tauto.
Qed.

Lemma vinit_inv s : vinit s → vinv s [] [].
Proof.
  intros (I1 & I2 & I3 & I4 & I5 & I6 & I7 & I8 & I9). split; try (intros b c; rewrite I7; done).
  - intros i Hi. by rewrite I6.
  - split; rewrite ?I1, ?I2, ?I3, ?I4; done.
  - rewrite I5. constructor.
  - intros id. rewrite I5. simpl. rewrite elem_of_nil. split; [done|]. intros (b & c & Hc & _). by rewrite I7 in Hc.
  - by intros id ?%not_elem_of_nil.
  - done.
Qed.

Lemma vstep_inv s s' pend fin : vinv s pend fin → vstep s s' → ∃ pend' fin', vinv s' pend' fin'.
Proof.
  intros Hv Hs. destruct Hs as [s b no data Hb Hl|s b w i0 d' Hm Hr|s b w ch d' Hm Hr|s Hne|s l1 id l2 d' dsk' Ht Hd|s d' Hi|s b c d' Hc Hf].
  - exists pend, fin. apply (vinv_frame s pend fin Hv); try done; simpl.
    + intros b' c Hc. assert (b ≠ b') by congruence. by fins.
    + intros b'. destruct (decide (b = b')) as [<-|]; fins; [done|apply Hv].
  - destruct (rw_submit_cases (vs_d s) b w) as [(j0 & j1 & j2 & s1 & He & Hsub)|(s1 & He & _)]; [apply Hm| |congruence].
    assert (i0 = Z.of_nat j0 ∧ d' = s1) as [-> ->] by (rewrite He in Hr; by injection Hr). rewrite Nat2Z.id.
    exists (pend ++ [j0]), fin. eapply vinv_submit; done.
  - destruct (rw_submit_cases (vs_d s) b w) as [(j0 & j1 & j2 & s1 & He & _)|(s1 & He & [S1 S2 S3])]; [apply Hm|congruence|].
    assert (d' = s1) as -> by (rewrite He in Hr; by injection Hr). destruct S3 as (T1 & T2 & T3 & T4 & T5 & T6 & T7 & T8 & T9 & T10).
    exists pend, fin. apply (vinv_frame s pend fin Hv); try done; rewrite ?T8, ?T10; [done|apply Hv].
  - destruct (vinv_take s pend fin Hv Hne) as (id & pend' & -> & -> & Hv'). by exists pend', fin.
  - destruct (vinv_done s pend fin Hv l1 id l2 Ht) as (d1 & dsk1 & He & Hv'). rewrite Hd in He. injection He as -> ->.
    by exists pend, (fin ++ [id]).
  - destruct (vinv_intr fin s pend 8 Hv (vinv_fin_short _ _ _ Hv)) as (d1 & He & Hv').
    unfold virtio_disk_intr in Hi. change (Z.to_nat NUM) with 8%nat in Hi. rewrite He in Hi. injection Hi as ->. by exists pend, [].
  - destruct (bdisk (vs_d s) b) eqn:Hb.
    + unfold rw_finish, bind, gets in Hf. by rewrite Hb in Hf.
    + destruct (vinv_finish s pend fin Hv b c Hc Hb) as (_ & d1 & He & Hv'). rewrite Hf in He. injection He as ->. by exists pend, fin.
Qed.

Lemma vreach_inv s : vreach s → ∃ pend fin, vinv s pend fin.
Proof.
  intros (s0 & Hi & Hr). assert (H0 : ∃ pend fin, vinv s0 pend fin) by (exists [], []; by apply vinit_inv).
  clear Hi. induction Hr as [|s1 s2 s3 Hs _ IH]; [done|]. destruct H0 as (pend & fin & Hv). apply IH. by eapply vstep_inv.
Qed.

(** What is left to do for the device and the handler: a request is taken,
    performed and reported. *)
Definition todo (s : vsys) (pend fin : list nat) : nat := (3 * length pend + 2 * length (vs_taken s) + length fin)%nat.

Lemma dstep_inv s s' pend fin : vinv s pend fin → dstep s s' →
  ∃ pend' fin', vinv s' pend' fin' ∧ (todo s' pend' fin' < todo s pend fin)%nat ∧ vs_cl s' = vs_cl s.
Proof.
  intros Hv Hs. destruct Hs as [s Hne|s l1 id l2 d' dsk' Ht Hd|s d' Hne Hi].
  - destruct (vinv_take s pend fin Hv Hne) as (id & pend' & -> & -> & Hv'). exists pend', fin. split; [done|].
    unfold todo. cbn [vs_taken vs_cl length]. rewrite length_app. cbn [length]. split; [lia|done].
  - destruct (vinv_done s pend fin Hv l1 id l2 Ht) as (d1 & dsk1 & He & Hv'). rewrite Hd in He. injection He as -> ->.
    exists pend, (fin ++ [id]). split; [done|]. unfold todo. cbn [vs_taken vs_cl]. rewrite Ht, !length_app. cbn [length]. split; [lia|done].
  - destruct (vinv_intr fin s pend 8 Hv (vinv_fin_short _ _ _ Hv)) as (d1 & He & Hv').
    unfold virtio_disk_intr in Hi. change (Z.to_nat NUM) with 8%nat in Hi. rewrite He in Hi. injection Hi as ->.
    exists pend, []. split; [done|]. unfold todo. cbn [vs_taken vs_cl length]. split; [|done].
    destruct fin as [|id fin]; [|simpl; lia]. exfalso. apply Hne. destruct (rg_used _ _ _ (vi_rings _ _ _ Hv)) as [Hr ->].
    simpl. rewrite Z.add_0_r. unfold u16. by rewrite Z.mod_small.
Qed.

Lemma dstep_sn n : ∀ s pend fin, vinv s pend fin → todo s pend fin = n → sn dstep s.
Proof.
  induction n as [n IH] using lt_wf_ind. intros s pend fin Hv Hn. constructor. intros s' Hs.
  destruct (dstep_inv s s' pend fin Hv Hs) as (pend' & fin' & Hv' & Hlt & _). eapply IH; [|exact Hv'|done]. lia.
Qed.

Lemma dsteps_inv s s' pend fin : rtc dstep s s' → vinv s pend fin → (∃ pend' fin', vinv s' pend' fin') ∧ vs_cl s' = vs_cl s.
Proof.
  intros Hr. revert pend fin. induction Hr as [s|s s1 s' Hs _ IH]; intros pend fin Hv; [eauto|].
  destruct (dstep_inv s s1 pend fin Hv Hs) as (pend' & fin' & Hv' & _ & Hc). destruct (IH _ _ Hv') as [H1 H2]. split; [done|congruence].
Qed.

(** When the device and the handler have nothing to do, nothing is pending. *)
Lemma dstep_stuck s pend fin : vinv s pend fin → (∀ s', ¬ dstep s s') → pend = [] ∧ vs_taken s = [] ∧ fin = [].
Proof.
  intros Hv Hno. split_and!.
  - destruct pend as [|id pend]; [done|]. exfalso. eapply Hno, DTake.
    destruct (rg_seen _ _ _ (vi_rings _ _ _ Hv)) as [Hr ->]. assert (Hl : (length (id :: pend) ≤ 8)%nat).
    { apply (vinv_short s (id :: pend) fin Hv); [|intros x Hx; rewrite !elem_of_app; tauto].
      pose proof (vi_nodup _ _ _ Hv) as Hn. by apply NoDup_app in Hn as (? & _). }
    simpl in *. unfold u16. zdm.
  - destruct (vs_taken s) as [|id l] eqn:Ht; [done|]. exfalso.
    destruct (vinv_done s pend fin Hv [] id l Ht) as (d' & dsk' & Hd & _). by eapply Hno, (DDone s [] id l).
  - destruct fin as [|id fin]; [done|]. exfalso. destruct (vinv_notify s pend (id :: fin) Hv id fin eq_refl) as (Hne & _).
    destruct (vinv_intr _ s pend 8 Hv (vinv_fin_short _ _ _ Hv)) as (d1 & He & _). by eapply Hno, (DIntr s d1).
Qed.

(** C5: the disk driver is correct with any device that follows the queue
    protocol.  In every reachable state of threads, device and interrupt
    handler: submitting a request succeeds or waits for descriptors, the
    interrupt handler never panics, the device finds a well-formed request in
    every chain it has taken, and a thread whose buffer the handler released
    frees its descriptors and finds its request performed exactly as asked: a
    read leaves the block's contents in the buffer and the block unchanged, a
    write leaves the buffer's contents on the block.  Without requests in
    progress no descriptor is in use. *)
Theorem virtio_disk_correct (s : vsys) (Hr : vreach s) :
  (∀ b w, may_submit s b →
     (∃ i d', rw_submit b w (vs_d s) = Ok i d') ∨ (∃ d', rw_submit b w (vs_d s) = Sleep ChDiskFree d')) ∧
  (∃ d', virtio_disk_intr (vs_d s) = Ok tt d') ∧
  (∀ id, id ∈ vs_taken s → ∃ r, device_do id (vs_d s) (vs_disk s) = Some r) ∧
  (∀ b c, vs_cl s b = Some c →
     rw_finish b (Z.of_nat (c_id c)) (vs_d s) = Sleep (ChBuf b) (vs_d s) ∨
     (∃ d', rw_finish b (Z.of_nat (c_id c)) (vs_d s) = Ok tt d') ∧
     bdata (vs_d s) b = (if c_write c then c_data c else c_block c) ∧
     block_of (vs_disk s) (bno (vs_d s) b) = bdata (vs_d s) b) ∧
  ((∀ b, vs_cl s b = None) → ∀ i, (i < 8)%nat → v_free (vs_d s) i = true).
Proof.
  destruct (vreach_inv s Hr) as (pend & fin & Hv). split_and!.
  - intros b w (_ & Hb & _). destruct (rw_submit_cases (vs_d s) b w Hb) as [(i0 & i1 & i2 & d' & He & _)|(d' & He & _)]; eauto.
  - destruct (vinv_intr fin s pend 8 Hv (vinv_fin_short _ _ _ Hv)) as (d1 & He & _). by exists d1.
  - intros id Hid. destruct (busy_client s pend fin Hv id) as (b & c & Hc & <- & _); [rewrite !elem_of_app; tauto|].
    eexists. by apply (device_do_spec s pend fin Hv).
  - intros b c Hc. destruct (bdisk (vs_d s) b) eqn:Hb.
    + left. unfold rw_finish, bind, gets. by rewrite Hb.
    + right. destruct (vinv_finish s pend fin Hv b c Hc Hb) as (Hn & d' & He & _). split; [by exists d'|].
      destruct (vi_done _ _ _ Hv b c Hc) as [E1 E2]; [rewrite !elem_of_app in *; tauto|].
      rewrite E2, E1. by destruct (c_write c).
  - intros Hn i Hi. destruct (v_free (vs_d s) i) eqn:Hf; [done|]. destruct (vi_leak _ _ _ Hv i Hi Hf) as (b & c & Hc & _).
    by rewrite Hn in Hc.
Qed.

(** C25: every request completes when the device and the interrupt handler run.
    From any reachable state, their steps alone, in whatever order, come to an end;
    they are steps of the system and leave the waiting threads waiting for the same
    requests; and when neither has anything left to do, every thread that waits for
    a request finds it finished and returns from [virtio_disk_rw]. *)
Theorem virtio_disk_progress (s : vsys) (Hr : vreach s) :
  sn dstep s ∧
  ∀ s', rtc dstep s s' → rtc vstep s s' ∧ vs_cl s' = vs_cl s ∧
    ((∀ s'', ¬ dstep s' s'') → ∀ b c, vs_cl s b = Some c → ∃ d', rw_finish b (Z.of_nat (c_id c)) (vs_d s') = Ok tt d').
Proof.
  destruct (vreach_inv s Hr) as (pend & fin & Hv). split; [by eapply dstep_sn|]. intros s' Hs.
  destruct (dsteps_inv s s' pend fin Hs Hv) as [(pend' & fin' & Hv') Hcl].
  split; [eapply rtc_subrel; [exact dstep_vstep|exact Hs]|]. split; [done|]. intros Hno b c Hc.
  destruct (dstep_stuck s' pend' fin' Hv' Hno) as (-> & Ht & ->). rewrite <- Hcl in Hc.
  destruct (bdisk (vs_d s') b) eqn:Hb.
  - assert (Hx : c_id c ∈ [] ++ vs_taken s' ++ []) by (apply (vi_busy _ _ _ Hv'); eauto).
    simpl in Hx. rewrite Ht in Hx. by apply not_elem_of_nil in Hx.
  - destruct (vinv_finish s' [] [] Hv' b c Hc Hb) as (_ & d' & Hf & _). by exists d'.
Qed.

(** ** A request on a fresh disk *)

Definition demo_vd : vdisk :=
  mkVd (λ _, mkDesc DNull 0 0 0) (λ _, 0) 0 (λ _, 0) 0 (λ _, true) 0 (λ _, mkInfo None 0) (λ _, mkReq 0 0 0)
    (λ _, replicate 1024 7) (λ _, false) (λ _, 33) [].
Definition demo_vs : vsys := mkVs demo_vd 0 [] (λ _, replicate 512 0) (λ _, None).

Lemma demo_vs_reach : ∃ s c, vreach s ∧ vs_cl s 5%nat = Some c.
Proof.
  assert (Hrun : match rw_submit 5 true demo_vd with Ok _ _ => true | _ => false end = true) by (vm_compute; reflexivity).
  destruct (rw_submit 5 true demo_vd) as [i d'| | | |] eqn:E; try discriminate Hrun.
  eexists _, _. split; [exists demo_vs; split; [by repeat split|]; apply rtc_once, (VSubmit demo_vs 5 true i d'); [|exact E]|].
  - split; [done|]. split; [simpl; lia|done].
  - simpl. rewrite fn_lookup_insert. reflexivity.
Qed.

Lemma virtio_disk_correct_witness : ∃ s c, vs_cl s 5%nat = Some c ∧ ∃ d', virtio_disk_intr (vs_d s) = Ok tt d'.
Proof.
  destruct demo_vs_reach as (s & c & Hr & Hc). exists s, c. split; [exact Hc|]. exact (proj1 (proj2 (virtio_disk_correct s Hr))).
Defined.

Lemma virtio_disk_progress_witness :
  ∃ s c, vs_cl s 5%nat = Some c ∧ sn dstep s ∧
    ∀ s', rtc dstep s s' → (∀ s'', ¬ dstep s' s'') → ∃ d', rw_finish 5 (Z.of_nat (c_id c)) (vs_d s') = Ok tt d'.
Proof.
  destruct demo_vs_reach as (s & c & Hr & Hc). exists s, c. split; [exact Hc|].
  destruct (virtio_disk_progress s Hr) as [H1 H2]. split; [exact H1|]. intros s' Hs Hno.
  exact (proj2 (proj2 (H2 s' Hs)) Hno 5%nat c Hc).
Defined.
