(* ===== verification/Main.v ===== *)
(** * Main: kernel/main.c

    The harts in [main]: hart 0 initialises the kernel while the others wait for
    [started], then each turns on paging and traps for itself and enters the
    scheduler.  A call of an initialisation routine is one step; the harts'
    steps are interleaved. *)
From stdpp Require Import functions.
From S2P Require Import Prelude Riscv CString Kalloc Vm VmSpec VmUser Isa Asm Mmu Kvm Ring Spinlock UserMem Uart Console Printf Bio BioSpec Log Fs File Proc VmFree UserInit Syscall Plic Virtio Boot.

(** The whole machine; the memory is in the allocator's state, each hart has its
    registers. *)
Record board (D C U V : Type) : Type := mkBoard {
  bd_ps : ps (fstuff D C);
  bd_con : con U;
  bd_locking : bool;             (* pr.locking *)
  bd_bus : V;
  bd_vd : vdisk;
  kernel_pagetable : Z;
  started : Z;
  bd_regs : nat → xreg → Z;
  bd_csrs : nat → csr → Z;
}.
Arguments mkBoard {D C U V}.
Arguments bd_ps {D C U V} _.
Arguments bd_con {D C U V} _.
Arguments bd_locking {D C U V} _.
Arguments bd_bus {D C U V} _.
Arguments bd_vd {D C U V} _.
Arguments kernel_pagetable {D C U V} _.
Arguments started {D C U V} _.
Arguments bd_regs {D C U V} _.
Arguments bd_csrs {D C U V} _.

Section Main.
Context {D C U V : Type} `{Disk D, UartDev U, Mmio V}.
Context (kend etext trampoline forkret_addr kernelvec : Z) (fuel : nat).
Notation BD := (board D C U V).
Notation MB := (M BD).

(** ** The parts of the machine *)

Definition with_ps {A} (m : M (ps (fstuff D C)) A) : MB A :=
  zoom bd_ps (λ p b, mkBoard p (bd_con b) (bd_locking b) (bd_bus b) (bd_vd b) (kernel_pagetable b) (started b) (bd_regs b) (bd_csrs b)) m.
Definition with_con {A} (m : M (con U) A) : MB A :=
  zoom bd_con (λ c b, mkBoard (bd_ps b) c (bd_locking b) (bd_bus b) (bd_vd b) (kernel_pagetable b) (started b) (bd_regs b) (bd_csrs b)) m.
Definition with_bus {A} (m : M V A) : MB A :=
  zoom bd_bus (λ v b, mkBoard (bd_ps b) (bd_con b) (bd_locking b) v (bd_vd b) (kernel_pagetable b) (started b) (bd_regs b) (bd_csrs b)) m.
Definition set_km (k : kmem) (p : ps (fstuff D C)) : ps (fstuff D C) := mkPs k (procs p) (nextpid p) (initproc p) (files p).
Definition with_disk {A} (m : M (kmem * vdisk * V) A) : MB A :=
  zoom (λ b, (km (bd_ps b), bd_vd b, bd_bus b))
    (λ x b, mkBoard (set_km x.1.1 (bd_ps b)) (bd_con b) (bd_locking b) x.2 x.1.2 (kernel_pagetable b) (started b) (bd_regs b) (bd_csrs b)) m.
Definition with_fs {A} (m : M (fstate D) A) : MB A :=
  with_ps (zoom (λ p, io_fs (files p))
    (λ f p, mkPs (km p) (procs p) (nextpid p) (initproc p)
      (mkFst f (io_file (files p)) (io_pipe (files p)) (io_dev (files p)) (io_woken (files p)))) m).
(** Code of hart [h] that uses its control registers; it does not write memory. *)
Definition with_hart (h : nat) {A} (m : M mach A) : MB A :=
  zoom (λ b, mkMach (bd_regs b h) 0 PrvS (bd_csrs b h) (km_mem (km (bd_ps b))))
    (λ s b, mkBoard (bd_ps b) (bd_con b) (bd_locking b) (bd_bus b) (bd_vd b) (kernel_pagetable b) (started b) (<[h := regs s]> (bd_regs b))
      (<[h := csrs s]> (bd_csrs b))) m.

(** ** kernel/proc.c: cpuid *)

Definition cpuid (h : nat) : MB Z := do tp <- gets (λ b, bd_regs b h TP); ret (i32 tp).

(** ** kernel/vm.c: kvminit, kvminithart *)

Definition kvminit : MB unit :=
  do kpt <- with_ps (on_km (kvmmake etext trampoline));
  modify (λ b, mkBoard (bd_ps b) (bd_con b) (bd_locking b) (bd_bus b) (bd_vd b) kpt (started b) (bd_regs b) (bd_csrs b)).

Definition kvminithart (h : nat) : MB unit :=
  do kpt <- gets kernel_pagetable;
  with_hart h (sfence_vma ;;; w_satp (MAKE_SATP kpt) ;;; sfence_vma).

(** ** kernel/printf.c: printfinit, and the characters of a printf *)

Definition printfinit : MB unit :=
  modify (λ b, mkBoard (bd_ps b) (bd_con b) true (bd_bus b) (bd_vd b) (kernel_pagetable b) (started b) (bd_regs b) (bd_csrs b)).

Fixpoint putchars (l : list Z) : M (con U) unit :=
  match l with [] => ret tt | c :: l => consputc fuel c ;;; putchars l end.
Definition kprintf (fmt : list Z) (ap : list arg) : MB unit :=
  match printf fmt ap with Some l => with_con (putchars l) | None => undef end.

(** ** What the other routines of main do on this state *)

Definition trapinithart (h : nat) : MB unit := with_hart h (Isa.w_stvec kernelvec).
Definition plicinithart_of (h : nat) : MB unit := do hart <- cpuid h; with_bus (plicinithart hart).
(** The locks that [trapinit] and [fileinit] initialise are not part of the state. *)
Definition trapinit : MB unit := ret tt.
Definition fileinit : MB unit := ret tt.

(** "xv6 kernel is booting" and "hart %d starting", with their newlines. *)
Definition booting : list Z :=
  [120; 118; 54; 32; 107; 101; 114; 110; 101; 108; 32; 105; 115; 32; 98; 111; 111; 116; 105; 110; 103; 10].
Definition starting : list Z :=
  [104; 97; 114; 116; 32; 37; 100; 32; 115; 116; 97; 114; 116; 105; 110; 103; 10].

(** ** kernel/main.c *)

Definition set_started : MB unit :=
  modify (λ b, mkBoard (bd_ps b) (bd_con b) (bd_locking b) (bd_bus b) (bd_vd b) (kernel_pagetable b) 1 (bd_regs b) (bd_csrs b)).

(** What hart 0 does. *)
Definition main_first (h : nat) : list (MB unit) :=
  [with_con consoleinit;
   printfinit;
   kprintf [10] []; kprintf booting []; kprintf [10] [];
   with_ps (on_km (kinit kend));
   kvminit;
   kvminithart h;
   with_ps procinit;
   trapinit;
   trapinithart h;
   with_bus plicinit;
   plicinithart_of h;
   with_fs (flog (lb binit));
   with_fs iinit;
   fileinit;
   with_disk virtio_disk_init;
   with_ps (userinit (H := fstuff_ops kend) kend trampoline forkret_addr);
   set_started].

(** What the others do when [started] is set. *)
Definition main_other (h : nat) : list (MB unit) :=
  [(do id <- cpuid h; kprintf starting [AWord id]);
   kvminithart h;
   trapinithart h;
   plicinithart_of h].

(** Where a hart is in [main]. *)
Inductive hpos : Type := Enter | Spin | Todo (rest : list (MB unit)) | Scheduling.

Record world : Type := mkWorld { w_bd : BD; w_pos : nat → hpos }.

(** One step of hart [h]: the test of [cpuid()], a look at [started], a call, or
    the call of [scheduler]. *)
Inductive mstep (h : nat) : world → world → Prop :=
| m_first w : w_pos w h = Enter → cpuid h (w_bd w) = Ok 0 (w_bd w) → mstep h w (mkWorld (w_bd w) (<[h := Todo (main_first h)]> (w_pos w)))
| m_other w id : w_pos w h = Enter → cpuid h (w_bd w) = Ok id (w_bd w) → id ≠ 0 → mstep h w (mkWorld (w_bd w) (<[h := Spin]> (w_pos w)))
| m_go w : w_pos w h = Spin → started (w_bd w) ≠ 0 → mstep h w (mkWorld (w_bd w) (<[h := Todo (main_other h)]> (w_pos w)))
| m_call w b a rest : w_pos w h = Todo (a :: rest) → a (w_bd w) = Ok tt b → mstep h w (mkWorld b (<[h := Todo rest]> (w_pos w)))
| m_sched w : w_pos w h = Todo [] → mstep h w (mkWorld (w_bd w) (<[h := Scheduling]> (w_pos w))).

(** ** What is assumed of the devices *)

(** A UART whose transmitter becomes idle within [fuel] looks at its status, whatever
    has been written to it. *)
Record uart_live (P : U → Prop) : Prop := {
  ul_write : ∀ r v d, P d → P (Uart.write_reg r v d);
  ul_read : ∀ r d, P d → P (Uart.read_reg r d).2;
  ul_idle : ∀ d, P d → ∃ n, (n < fuel)%nat ∧ has (Uart.read_reg LSR (Nat.iter n (λ d, (Uart.read_reg LSR d).2) d)).1 LSR_TX_IDLE = true;
}.

(** A virtio disk that has not been set up, as its specification describes it: it
    says what it is, keeps the status that the driver writes, and its queue, which is
    long enough, is not in use.  The rest of the bus has no influence on it. *)
Record virtio_present (P : V → Prop) : Prop := {
  vp_write : ∀ a v d, P d → a ≠ VIRTIO0 + VIRTIO_MMIO_QUEUE_READY → P (reg_write a v d);
  vp_read : ∀ a d, P d → P (reg_read a d).2;
  vp_magic : ∀ d, P d → (reg_read (VIRTIO0 + VIRTIO_MMIO_MAGIC_VALUE) d).1 = 1953655158;
  vp_version : ∀ d, P d → (reg_read (VIRTIO0 + VIRTIO_MMIO_VERSION) d).1 = 2;
  vp_device : ∀ d, P d → (reg_read (VIRTIO0 + VIRTIO_MMIO_DEVICE_ID) d).1 = 2;
  vp_vendor : ∀ d, P d → (reg_read (VIRTIO0 + VIRTIO_MMIO_VENDOR_ID) d).1 = 1431127377;
  vp_status : ∀ v d, P d → (reg_read (VIRTIO0 + VIRTIO_MMIO_STATUS) (reg_write (VIRTIO0 + VIRTIO_MMIO_STATUS) v d)).1 = v;
  vp_ready : ∀ d, P d → (reg_read (VIRTIO0 + VIRTIO_MMIO_QUEUE_READY) d).1 = 0;
  vp_max : ∀ d, P d → NUM ≤ (reg_read (VIRTIO0 + VIRTIO_MMIO_QUEUE_NUM_MAX) d).1 < 2 ^ 32;
}.

(** ** The console *)

Definition con_ok (P : U → Prop) (c : con U) : Prop := u_panicked (ua c) = false ∧ P (u_dev (ua c)).

Section Con.
Context (P : U → Prop) (HP : uart_live P).

Lemma spin_idle_ok n u : u_panicked u = false → P (u_dev u) →
  (∃ k, (k < n)%nat ∧ has (Uart.read_reg LSR (Nat.iter k (λ d, (Uart.read_reg LSR d).2) (u_dev u))).1 LSR_TX_IDLE = true) →
  wp (spin_idle n) (λ _ u', u_panicked u' = false ∧ P (u_dev u')) u.
Proof.
  revert u. induction n as [|n IH]; intros u Hp Hd (k & Hk & Hi); [lia|]. cbn [spin_idle]. apply wp_bind. unfold wp at 1, ReadReg.
  destruct (Uart.read_reg LSR (u_dev u)) as [v d] eqn:E. assert (Hd' : P d) by (pose proof (ul_read P HP LSR (u_dev u) Hd) as Hx; by rewrite E in Hx).
  destruct (Z.eqb_spec (Z.land v LSR_TX_IDLE) 0) as [Ez|Ez]; [|by apply wp_ret].
  apply IH; [done|done|]. destruct k as [|k]; [exfalso; cbn [Nat.iter nat_rect] in Hi; rewrite E in Hi; unfold has in Hi; cbn [fst] in Hi; by rewrite Ez in Hi|].
  exists k. split; [lia|]. cbn [u_dev]. rewrite Nat.iter_succ_r in Hi. by rewrite E in Hi.
Qed.

Lemma consputc_ok c s : con_ok P s → c ≠ BACKSPACE → wp (consputc fuel c) (λ _, con_ok P) s.
Proof.
  intros [Hp Hd] Hc. unfold consputc. rewrite (proj2 (Z.eqb_neq c BACKSPACE)) by done. unfold on_uart. apply wp_zoom.
  unfold uartputc_sync. apply wp_bind. unfold wp at 1, get. rewrite Hp.
  eapply wp_seq; [apply (spin_idle_ok fuel (ua s)); try done; by apply (ul_idle P HP)|]. intros _ u [Hp' Hd'].
  unfold WriteReg, modify, wp, con_ok. cbn [ua u_panicked u_dev]. split; [done|]. by apply (ul_write P HP).
Qed.

Lemma putchars_ok l s : con_ok P s → BACKSPACE ∉ l → wp (putchars l) (λ _, con_ok P) s.
Proof.
  revert s. induction l as [|c l IH]; intros s Hs Hl; [by apply wp_ret|]. apply not_elem_of_cons in Hl as [Hc Hl]. cbn [putchars].
  eapply wp_seq; [apply consputc_ok; [done|congruence]|]. intros ? s' Hs'. by apply IH.
Qed.

Lemma consoleinit_ok s : con_ok P s → wp consoleinit (λ _, con_ok P) s.
Proof.
  intros [Hp Hd]. unfold consoleinit, on_uart. apply wp_zoom. unfold uartinit, WriteReg, bind, modify, wp. unfold con_ok. cbn [ua u_panicked u_dev].
  split; [done|]. repeat apply (ul_write P HP). done.
Qed.
End Con.

(** ** The disk *)

Section VirtioInit.
Context (P : V → Prop) (HP : virtio_present P).
Notation VS := (kmem * vdisk * V)%type.

Lemma R_spec r (s : VS) : P s.2 → wp (R r) (λ v s', v = u32 (reg_read (VIRTIO0 + r) s.2).1 ∧ s'.1 = s.1 ∧ P s'.2) s.
Proof.
  intros Hs. unfold R, on_reg. apply wp_zoom. unfold read_reg, wp. pose proof (vp_read P HP (VIRTIO0 + r) s.2 Hs) as Hx. by destruct (reg_read (VIRTIO0 + r) s.2).
Qed.

Lemma W_spec r v (s : VS) : P s.2 → r ≠ VIRTIO_MMIO_QUEUE_READY → wp (W r v) (λ _ s', s'.1 = s.1 ∧ P s'.2) s.
Proof. intros Hs Hr. unfold W, on_reg. apply wp_zoom. unfold write_reg, modify, wp. split; [done|]. apply (vp_write P HP); [done|lia]. Qed.

Lemma status_spec v (s : VS) : P s.2 → 0 ≤ v < 2 ^ 32 →
  wp (W VIRTIO_MMIO_STATUS v ;;; R VIRTIO_MMIO_STATUS) (λ x s', x = v ∧ s'.1 = s.1 ∧ P s'.2) s.
Proof.
  intros Hs Hv. apply wp_bind. unfold W at 1, on_reg at 1. apply wp_zoom. unfold write_reg, modify, wp at 1.
  eapply wp_mono; [apply R_spec; cbn [snd]; by apply (vp_write P HP)|]. intros x s' (-> & E1 & E2). split; [|done].
  cbn [snd]. rewrite (u32_id v) by done. rewrite (vp_status P HP) by done. by apply u32_id.
Qed.

(** A page for a queue; [got] are the pages that have been taken. *)
Definition queues (k0 : kmem) (l0 : list Z) (k : kmem) (l : list Z) : Prop :=
  kinv kend k l ∧ (∃ got, l0 = got ++ l) ∧ ∀ x, (∀ q, q ∈ l0 → ¬ in_page q x) → km_mem k x = km_mem k0 x.

Lemma queue_page k0 l0 p l (s : VS) : KERNBASE ≤ kend → queues k0 l0 s.1.1 (p :: l) → P s.2 →
  wp (on_alloc kalloc) (λ r s', r = p ∧ p ≠ 0 ∧ p ∉ l ∧ page_ok kend p ∧ p ∈ l0 ∧ queues k0 l0 s'.1.1 l ∧ P s'.2 ∧ s'.1.2 = s.1.2) s.
Proof.
  intros Hend (Hk & [got Hg] & Hf) Hs. unfold on_alloc. apply wp_zoom. pose proof Hk as (_ & Hnd & Hok). apply NoDup_cons in Hnd as [Hpl _]. apply Forall_cons in Hok as [Hpok _].
  pose proof (page_ok_range kend Hend p Hpok) as [Hp _]. eapply wp_mono; [apply (kalloc_spec kend s.1.1 (p :: l) Hk)|]. intros r k' (-> & Hk' & Hm').
  cbn [fst snd]. assert (Hin : p ∈ l0) by (rewrite Hg; set_solver). split; [done|]. split; [lia|]. do 3 (split; [done|]). split; [|done]. split; [done|]. split; [exists (got ++ [p]); by rewrite <- app_assoc|].
  intros x Hx. rewrite Hm', decide_False by (by apply Hx). by apply Hf.
Qed.

Lemma queue_clear k0 l0 p l (s : VS) : queues k0 l0 s.1.1 l → P s.2 → page_ok kend p → p ∉ l → p ∈ l0 →
  wp (on_alloc (memset_page p 0)) (λ _ s', queues k0 l0 s'.1.1 l ∧ P s'.2 ∧ s'.1.2 = s.1.2) s.
Proof.
  intros (Hk & Hg & Hf) Hs Hpok Hpl Hp0. unfold on_alloc. apply wp_zoom. unfold memset_page, modify, wp. cbn [fst snd]. split; [|done]. split; [|split; [done|]].
  - apply kinv_write; [done|]. intros q x Hq Hx. rewrite memset_spec by done. rewrite decide_False; [done|]. intros Hx'. destruct Hk as (_ & _ & Hok).
    apply (in_page_disjoint kend q p x); try done; [by eapply Forall_forall in Hok|congruence].
  - intros x Hx. cbn [km_mem set_mem]. rewrite memset_spec by done. rewrite decide_False by (by apply Hx). by apply Hf.
Qed.

(** The driver's state as the driver starts with it: the rings are empty and every
    descriptor is free. *)
Definition disk_ready (d : vdisk) : Prop := v_avail d = 0 ∧ v_uidx d = 0 ∧ v_used_idx d = 0 ∧ ∀ i, (i < 8)%nat → v_free d i = true.

Lemma free_all_spec (s : VS) : v_avail s.1.2 = 0 → v_uidx s.1.2 = 0 → v_used_idx s.1.2 = 0 →
  wp (for_loop (Z.to_nat NUM) 0 (λ i, on_vd (set_free (Z.to_nat i) true))) (λ _ s', s'.1.1 = s.1.1 ∧ disk_ready s'.1.2 ∧ s'.2 = s.2) s.
Proof.
  intros Ha0 Hu0 Hd0. set (I := λ (i : Z) (s' : VS), s'.1.1 = s.1.1 ∧ s'.2 = s.2 ∧ v_avail s'.1.2 = 0 ∧ v_uidx s'.1.2 = 0 ∧ v_used_idx s'.1.2 = 0 ∧ ∀ j, (Z.of_nat j < i) → v_free s'.1.2 j = true).
  eapply wp_mono; [apply (wp_for I)|].
  - intros i s' Hi (E1 & E2 & E3 & E4 & E6 & E5). unfold on_vd, modify, wp, I, set_free. cbn [fst snd v_avail v_uidx v_used_idx v_free]. do 5 (split; [done|]).
    intros j Hj. destruct (decide (j = Z.to_nat i)) as [->|Hne]; [by rewrite fn_lookup_insert|]. rewrite fn_lookup_insert_ne by done. apply E5. lia.
  - do 5 (split; [done|]). intros j Hj. lia.
  - intros _ s' (E1 & E2 & E3 & E4 & E6 & E5). split; [done|]. split; [|done]. do 3 (split; [done|]). intros i Hi. apply E5. change (Z.of_nat (Z.to_nat NUM)) with 8. lia.
Qed.

Lemma W_keeps r v (s : VS) : wp (W r v) (λ _ s', s'.1 = s.1) s.
Proof. done. Qed.

Lemma write_addr_spec r a (s : VS) : P s.2 → r ≠ VIRTIO_MMIO_QUEUE_READY → r + 4 ≠ VIRTIO_MMIO_QUEUE_READY → wp (write_addr r a) (λ _ s', s'.1 = s.1 ∧ P s'.2) s.
Proof.
  intros Hs Hr Hr'. unfold write_addr. eapply wp_seq; [by apply W_spec|]. intros _ s1 [E1 P1]. eapply wp_mono; [by apply W_spec|]. intros _ s2 [E2 P2]. by rewrite E2, E1.
Qed.

Ltac other := let E := fresh in intros E; vm_compute in E; discriminate E.
Ltac wr := eapply wp_seq; [first [apply W_spec; [eassumption|other] | apply write_addr_spec; [eassumption|other..]]|]; intros ? ? [? ?].

Lemma virtio_disk_init_spec (s : VS) l : KERNBASE ≤ kend → P s.2 → kinv kend s.1.1 l → (3 ≤ length l)%nat → v_used_idx s.1.2 = 0 →
  wp virtio_disk_init (λ _ s', (∃ l', queues s.1.1 l s'.1.1 l' ∧ length l = (3 + length l')%nat) ∧ disk_ready s'.1.2) s.
Proof.
  intros Hend Hs Hk Hlen Hused. destruct l as [|p1 [|p2 [|p3 l]]]; try (cbn in Hlen; lia). unfold virtio_disk_init.
  eapply wp_seq; [by apply R_spec|]. intros ? s1 (-> & E1 & P1). rewrite (vp_magic P HP) by done. cbn [Z.eqb Pos.eqb negb]. change (u32 1953655158 =? 1953655158) with true. cbn [negb].
  eapply wp_seq with (λ bad s', bad = false ∧ s'.1 = s.1 ∧ P s'.2).
  { eapply wp_seq; [by apply R_spec|]. intros ? s2 (-> & E2 & P2). rewrite (vp_version P HP) by done. cbn [negb].
    eapply wp_seq; [by apply R_spec|]. intros ? s3 (-> & E3 & P3). rewrite (vp_device P HP) by done.
    eapply wp_seq; [by apply R_spec|]. intros ? s4 (-> & E4 & P4). rewrite (vp_vendor P HP) by done. apply wp_ret. split; [done|]. by rewrite E4, E3, E2, E1. }
  intros ? s2 (-> & E2 & P2). clear s1 E1 P1. do 3 wr.
  eapply wp_seq; [by apply R_spec|]. intros ? s3 (-> & E3 & P3). wr.
  unfold wp. rewrite <- bind_assoc. eapply wp_seq; [apply status_spec; [eassumption|done]|]. intros ? s4 (-> & E4 & P4).
  change (Z.land _ VIRTIO_CONFIG_S_FEATURES_OK =? 0) with false. wr.
  eapply wp_seq; [by apply R_spec|]. intros ? s5 (-> & E5 & P5). rewrite (vp_ready P HP) by done. change (u32 0 =? 0) with true. cbn [negb].
  eapply wp_seq; [by apply R_spec|]. intros ? s6 (-> & E6 & P6). destruct (vp_max P HP s5.2 P5) as [M1 M2]. unfold NUM in M1. rewrite u32_id by lia.
  rewrite (proj2 (Z.eqb_neq _ 0)), (proj2 (Z.ltb_ge _ NUM)) by (unfold NUM; lia).
  assert (E : s6.1 = s.1) by congruence. clear - E P6 Hend Hk HP Hlen Hused H1.
  assert (Q6 : queues s.1.1 (p1 :: p2 :: p3 :: l) s6.1.1 (p1 :: p2 :: p3 :: l)) by (rewrite E; split; [done|]; split; [by exists []|done]).
  eapply wp_seq; [by apply (queue_page _ _ _ _ s6 Hend Q6)|]. intros ? s7 (-> & N1 & D1 & K1 & I1 & Q7 & P7 & F7).
  eapply wp_seq; [by apply (queue_page _ _ _ _ s7 Hend Q7)|]. intros ? s8 (-> & N2 & D2 & K2 & I2 & Q8 & P8 & F8).
  eapply wp_seq; [by apply (queue_page _ _ _ _ s8 Hend Q8)|]. intros ? s9 (-> & N3 & D3 & K3 & I3 & Q9 & P9 & F9).
  rewrite !(proj2 (Z.eqb_neq _ 0)) by done. cbn [orb].
  eapply wp_seq; [apply (queue_clear _ _ p1 _ s9 Q9); (done || set_solver)|]. intros ? s10 (Q10 & P10 & F10).
  eapply wp_seq; [apply (queue_clear _ _ p2 _ s10 Q10); (done || set_solver)|]. intros ? s11 (Q11 & P11 & F11).
  eapply wp_seq; [apply (queue_clear _ _ p3 _ s11 Q11); (done || set_solver)|]. intros ? s12 (Q12 & P12 & F12).
  assert (Hu12 : v_used_idx s12.1.2 = 0) by (rewrite F12, F11, F10, F9, F8, F7, E; exact Hused).
  eapply wp_seq with (λ _ s', s'.1.1 = s12.1.1 ∧ v_avail s'.1.2 = 0 ∧ v_uidx s'.1.2 = 0 ∧ v_used_idx s'.1.2 = 0 ∧ P s'.2); [done|]. intros _ s13 (E13 & A13 & U13 & V13 & P13).
  do 4 wr. eapply wp_seq; [apply W_keeps|]. intros ? s14 E14. assert (Es : s14.1 = s13.1) by congruence.
  eapply wp_seq; [apply free_all_spec; by rewrite Es|]. intros ? s15 (E15 & D15 & _). eapply wp_mono; [apply W_keeps|]. intros ? s16 E16.
  rewrite E16. split; [|done]. exists l. rewrite E15, Es, E13. split; [done|]. cbn [length]. lia.
Qed.
End VirtioInit.

(** ** The kernel's page table *)

(** The table at [root] maps the kernel, its devices and the stacks [stk]; the pages
    of [l] are free. *)
Record kernel_table (k : kmem) (l : list Z) (root : Z) (stk : list Z) : Prop := {
  kt_wf : vmwf kend k root l;
  kt_pte : ∀ va, 0 ≤ va < MAXVA → pte_at (km_mem k) root va = pte_of (kernel_regions etext trampoline stk) va;
  kt_stk : length stk = 64%nat ∧ NoDup stk ∧ ∀ q, q ∈ stk → page_ok kend q ∧ q ∉ l ∧ ¬ is_table (km_mem k) root q;
}.

Lemma built_kernel_table k l root stk l0 m0 : building kend kernel_paths l0 m0 root k l stk (kernel_regions etext trampoline stk) →
  length stk = 64%nat → NoDup stk → kernel_table k l root stk.
Proof.
  intros [Hwf _ _ _ Hs _ Hp _] Hl Hn. split; try done. split; [done|]. split; [done|]. intros q Hq. destruct (Hs q Hq) as (_ & ? & ? & ?). done.
Qed.

(** Using up free pages leaves the table as it is. *)
Lemma kernel_table_frame k k' l l' root stk : kernel_table k l root stk → kinv kend k' l' → (∀ q, q ∈ l' → q ∈ l) →
  (∀ x, (∀ q, q ∈ l → ¬ in_page q x) → km_mem k' x = km_mem k x) → kernel_table k' l' root stk.
Proof.
  intros [Hwf Hp (Hs1 & Hs2 & Hs3)] Hk' Hl Hm. pose proof (vm_kinv _ _ _ _ Hwf) as (_ & _ & Hok).
  assert (Htab : ∀ t x, is_table (km_mem k) root t → in_page t x → km_mem k' x = km_mem k x).
  { intros t x Hi Hx. apply Hm. intros q Hq Hx'. destruct (is_table_ok kend k root _ t Hwf Hi) as [Ht Hn].
    apply (in_page_disjoint kend t q x); try done; [by eapply Forall_forall in Hok|congruence]. }
  destruct (data_write _ _ root Htab) as [Hpath Hpte].
  assert (Hist : ∀ t, is_table (km_mem k') root t ↔ is_table (km_mem k) root t) by (intros t; by apply is_table_same). split.
  - apply (vmwf_data_write kend k k' root l l' Hwf Hk'); [|done]. intros t Hi Ht%Hl. by destruct (is_table_ok kend k root _ t Hwf Hi).
  - intros va Hva. rewrite Hpte. by apply Hp.
  - split; [done|]. split; [done|]. intros q Hq. destruct (Hs3 q Hq) as (? & ? & ?). split; [done|]. split; [by intros ?%Hl|]. by rewrite Hist.
Qed.

(** ** Process table, inode table *)

Lemma procinit_spec {F} (s : ps F) : wp procinit (λ _ s', km s' = km s ∧ files s' = files s ∧ nextpid s' = nextpid s ∧
  ∀ i, (i < 64)%nat → p_state (procs s' i) = UNUSED ∧ p_kstack (procs s' i) = KSTACK (Z.of_nat i)) s.
Proof.
  set (I := λ (i : Z) (s' : ps F), km s' = km s ∧ files s' = files s ∧ nextpid s' = nextpid s ∧
    ∀ j, (Z.of_nat j < i) → p_state (procs s' j) = UNUSED ∧ p_kstack (procs s' j) = KSTACK (Z.of_nat j)).
  eapply wp_mono; [apply (wp_for I)|].
  - intros i s' Hi (E1 & E2 & E3 & E4). unfold upd_proc, modify, wp, I. cbn [km files nextpid procs]. do 3 (split; [done|]). intros j Hj.
    destruct (decide (j = Z.to_nat i)) as [->|Hne]; [by rewrite fn_lookup_insert|]. rewrite fn_lookup_insert_ne by done. apply E4. lia.
  - split; [done|]. split; [done|]. split; [done|]. intros j Hj. lia.
  - intros ? s' (E1 & E2 & E3 & E4). do 3 (split; [done|]). intros i Hi. apply E4. change (Z.of_nat nproc) with 64. lia.
Qed.

Lemma iget_scan_empty k i t dev inum e : (∀ j, i_ref (t j) = 0) →
  iget_scan k i t dev inum e = (None, match e with Some j => Some j | None => match k with O => None | S _ => Some i end end).
Proof.
  intros Ht. revert i e. induction k as [|k IH]; intros i e; cbn [iget_scan]; [by destruct e|]. rewrite Ht. cbn [Z.ltb Z.compare andb Z.eqb].
  destruct e; rewrite IH; done.
Qed.

(** The directory that the first process starts in. *)
Definition root_entry (f : fstuff D C) : Prop :=
  let n := itab (io_fs f) 0 in i_dev n = ROOTDEV ∧ i_inum n = ROOTINO ∧ i_ref n = 1.

Lemma op_root_spec (f : fstuff D C) : (∀ j, i_ref (itab (io_fs f) j) = 0) →
  ∃ f', (∀ k, op_root (FileOps := fstuff_ops kend) (k, f) = Ok (Some 0%nat) (k, f')) ∧ root_entry f' ∧ fl (io_fs f') = fl (io_fs f).
Proof.
  intros Ht. set (n := itab (io_fs f) 0).
  exists (mkFst (mkFs (fl (io_fs f)) (fsb (io_fs f)) (<[0%nat := mkInode ROOTDEV ROOTINO 1 (i_lock n) false (i_d n)]> (itab (io_fs f))))
    (io_file f) (io_pipe f) (io_dev f) (io_woken f)). split; [|split].
  - intros k. cbn [op_root fstuff_ops]. unfold with_files, zoom, on_fs. cbn [fst snd]. unfold zoom. cbn [fst snd]. unfold namei, namex, iget, bind, gets.
    rewrite iget_scan_empty by done. change ninode with 50%nat. unfold upd_ino, modify, ret. cbn [length namex_loop].
    change (skipelem [47] (replicate 14 0)) with (@None (list Z * list Z)). cbn [fst snd um_mem]. reflexivity.
  - unfold root_entry. cbn [io_fs itab]. by rewrite fn_lookup_insert.
  - done.
Qed.

Lemma iinit_spec (s : fstate D) : wp iinit (λ _ s', fl s' = fl s ∧ fsb s' = fsb s ∧ ∀ j, i_ref (itab s' j) = i_ref (itab s j)) s.
Proof.
  set (I := λ (i : Z) (s' : fstate D), fl s' = fl s ∧ fsb s' = fsb s ∧ ∀ j, i_ref (itab s' j) = i_ref (itab s j)).
  apply (wp_for I).
  - intros i s' Hi (E1 & E2 & E3). unfold upd_ino, modify, wp, I. cbn [fl fsb itab]. do 2 (split; [done|]). intros j.
    destruct (decide (j = Z.to_nat i)) as [->|Hne]; [rewrite fn_lookup_insert; apply E3|]. by rewrite fn_lookup_insert_ne.
  - done.
Qed.

(** ** The harts *)

Definition on_paging (b : BD) (h : nat) : Prop := bd_csrs b h CSR_satp = MAKE_SATP (kernel_pagetable b).
Definition on_traps (b : BD) (h : nat) : Prop := bd_csrs b h CSR_stvec = kernelvec.

(** The parts of the machine that the harts share. *)
Record same_shared (b b' : BD) : Prop := {
  ss_ps : bd_ps b' = bd_ps b;
  ss_vd : bd_vd b' = bd_vd b;
  ss_kpt : kernel_pagetable b' = kernel_pagetable b;
  ss_started : started b' = started b;
  ss_locking : bd_locking b' = bd_locking b;
}.

Lemma kvminithart_spec h b : w64 (MAKE_SATP (kernel_pagetable b)) →
  wp (kvminithart h) (λ _ b', same_shared b b' ∧ bd_con b' = bd_con b ∧ bd_bus b' = bd_bus b ∧ (∀ j, bd_regs b' j = bd_regs b j) ∧ on_paging b' h ∧
    (∀ j, j ≠ h → bd_csrs b' j = bd_csrs b j) ∧ ∀ c, c ≠ CSR_satp → bd_csrs b' h c = bd_csrs b h c) b.
Proof.
  intros Hw. unfold kvminithart. apply wp_bind. unfold wp at 1, gets. unfold with_hart. apply wp_zoom.
  unfold sfence_vma, bind, ret, w_satp, csrw, wp. cbn [prv csr_ok csrs set_csrs regs]. split; [done|]. do 2 (split; [done|]). unfold on_paging. cbn [bd_regs bd_csrs kernel_pagetable csr_put].
  split; [|split; [|split]].
  - intros j. destruct (decide (j = h)) as [->|]; [by rewrite fn_lookup_insert|by rewrite fn_lookup_insert_ne].
  - rewrite !fn_lookup_insert. by apply u64_w.
  - intros j Hj. by rewrite fn_lookup_insert_ne.
  - intros c Hc. rewrite fn_lookup_insert. by rewrite fn_lookup_insert_ne.
Qed.

Lemma trapinithart_spec h b : w64 kernelvec →
  wp (trapinithart h) (λ _ b', same_shared b b' ∧ bd_con b' = bd_con b ∧ bd_bus b' = bd_bus b ∧ (∀ j, bd_regs b' j = bd_regs b j) ∧ on_traps b' h ∧
    (∀ j, j ≠ h → bd_csrs b' j = bd_csrs b j) ∧ ∀ c, c ≠ CSR_stvec → bd_csrs b' h c = bd_csrs b h c) b.
Proof.
  intros Hw. unfold trapinithart, with_hart. apply wp_zoom.
  unfold Isa.w_stvec, csrw, wp. cbn [prv csr_ok csrs set_csrs regs]. split; [done|]. do 2 (split; [done|]). unfold on_traps. cbn [bd_regs bd_csrs csr_put].
  split; [|split; [|split]].
  - intros j. destruct (decide (j = h)) as [->|]; [by rewrite fn_lookup_insert|by rewrite fn_lookup_insert_ne].
  - rewrite !fn_lookup_insert. by apply u64_w.
  - intros j Hj. by rewrite fn_lookup_insert_ne.
  - intros c Hc. rewrite fn_lookup_insert. by rewrite fn_lookup_insert_ne.
Qed.

(** ** What hart 0 does *)

Fixpoint run_list (l : list (MB unit)) : MB unit := match l with [] => ret tt | a :: l => a ;;; run_list l end.

Lemma wp_cons a l Q b : wp a (λ _, wp (run_list l) Q) b → wp (run_list (a :: l)) Q b.
Proof. intros Ha. cbn [run_list]. eapply wp_seq; [exact Ha|]. by intros ?. Qed.

Context (Pu : U → Prop) (Pv : V → Prop).
(** A machine as the harts find it in [main]: zeroed static data, devices that work. *)
Record boot_state (b : BD) : Prop := {
  bs_con : con_ok Pu (bd_con b);
  bs_bus : Pv (bd_bus b);
  bs_free : km_freelist (km (bd_ps b)) = 0;
  bs_pid : nextpid (bd_ps b) = 1;
  bs_bufs : ∀ i, zeroed (bufs (lbc (fl (io_fs (files (bd_ps b))))) i);
  bs_inodes : ∀ i, i_ref (itab (io_fs (files (bd_ps b))) i) = 0;
  bs_started : started b = 0;
  bs_tp : ∀ h, (h < 8)%nat → bd_regs b h TP = Z.of_nat h;
  bs_used : v_used_idx (bd_vd b) = 0;
}.

(** The kernel when it is initialised: its page table, one process, which is
    RUNNABLE, an empty buffer cache over the disk, the root directory in use, and the
    disk driver ready for requests. *)
Record initialised (b : BD) : Prop := {
  in_memory : ∃ l stk, kernel_table (km (bd_ps b)) l (kernel_pagetable b) stk ∧ first_process kend trampoline forkret_addr (bd_ps b) l (Some 0%nat);
  in_kstack : p_kstack (procs (bd_ps b) 0) = KSTACK 0;
  in_others : ∀ i, (0 < i < 64)%nat → p_state (procs (bd_ps b) i) = UNUSED ∧ p_kstack (procs (bd_ps b) i) = KSTACK (Z.of_nat i);
  in_cache : let c := lbc (fl (io_fs (files (bd_ps b)))) in BioSpec.cst ROOTDEV c (λ n, BioSpec.mkInfo 0 None (disk_read (dk c) n)) (dk c);
  in_root : root_entry (files (bd_ps b));
  in_disk : disk_ready (bd_vd b);
  in_locking : bd_locking b = true;
}.

Context (Hu : uart_live Pu) (Hv : virtio_present Pv).
Hypothesis Hend : KERNBASE ≤ kend.
Hypothesis Hroom : kend + 200 * PGSIZE ≤ PHYSTOP.
Hypothesis Hetext : KERNBASE < etext < PHYSTOP.
Hypothesis Hetext_al : etext mod PGSIZE = 0.
Hypothesis Htramp : KERNBASE ≤ trampoline ∧ trampoline + PGSIZE ≤ PHYSTOP.
Hypothesis Htramp_al : trampoline mod PGSIZE = 0.
Hypothesis Hkvec : w64 kernelvec.

Lemma enough_free k l : kinv kend k l → (∀ q, q ∈ l ↔ page_ok kend q) → (199 ≤ length l)%nat.
Proof.
  intros (_ & Hnd & _) Hall. set (top := (λ i : nat, PHYSTOP - 4096 * (Z.of_nat i + 1)) <$> seq 0 199).
  assert (Hsub : top ⊆+ l).
  { apply NoDup_submseteq.
    - apply NoDup_fmap_2_strong; [|apply NoDup_seq]. intros i j _ _ E. lia.
    - intros q (i & -> & Hi%elem_of_seq)%list_elem_of_fmap. apply Hall. unfold page_ok. unfold PHYSTOP, KERNBASE, PGSIZE in *. split; [zdm|lia]. }
  apply submseteq_length in Hsub. unfold top in Hsub. by rewrite length_fmap, length_seq in Hsub.
Qed.

Lemma kprintf_ok fmt ap out b Q : printf fmt ap = Some out → BACKSPACE ∉ out → con_ok Pu (bd_con b) →
  (∀ c, con_ok Pu c → Q tt (mkBoard (bd_ps b) c (bd_locking b) (bd_bus b) (bd_vd b) (kernel_pagetable b) (started b) (bd_regs b) (bd_csrs b))) →
  wp (kprintf fmt ap) Q b.
Proof.
  intros Hp Hb Hc HQ. unfold kprintf. rewrite Hp. unfold with_con. apply wp_zoom. eapply wp_mono; [by apply (putchars_ok Pu Hu)|]. intros [] c Hc'. by apply HQ.
Qed.

(** With paging on, before the rest of the initialisation. *)
Record half (b : BD) : Prop := {
  hf_con : con_ok Pu (bd_con b);
  hf_bus : Pv (bd_bus b);
  hf_memory : ∃ l stk, kernel_table (km (bd_ps b)) l (kernel_pagetable b) stk ∧ (33 ≤ length l)%nat;
  hf_pid : nextpid (bd_ps b) = 1;
  hf_bufs : ∀ i, zeroed (bufs (lbc (fl (io_fs (files (bd_ps b))))) i);
  hf_inodes : ∀ i, i_ref (itab (io_fs (files (bd_ps b))) i) = 0;
  hf_tp : ∀ h, (h < 8)%nat → bd_regs b h TP = Z.of_nat h;
  hf_paging : on_paging b 0;
  hf_locking : bd_locking b = true;
  hf_used : v_used_idx (bd_vd b) = 0;
}.

Lemma kernel_table_satp k l root stk : kernel_table k l root stk → w64 (MAKE_SATP root).
Proof.
  intros [Hwf _ _]. apply satp_w64. destruct (is_table_ok kend k root l root Hwf) as [Hr _]; [exists []; split; [simpl; lia|done]|].
  destruct (page_ok_range kend Hend root Hr). lia.
Qed.

Lemma run_cons a l P Q b : wp a (λ _, P) b → (∀ b', P b' → wp (run_list l) Q b') → wp (run_list (a :: l)) Q b.
Proof. intros Ha Hl. apply wp_cons. eapply wp_mono; [exact Ha|]. intros ?. apply Hl. Qed.

(** Before memory is set up: the machine is as it was, up to the console. *)
Definition early (b : BD) (b' : BD) : Prop := boot_state b' ∧ bd_ps b' = bd_ps b.

Lemma early_con b b' c : early b b' → con_ok Pu c →
  early b (mkBoard (bd_ps b') c (bd_locking b') (bd_bus b') (bd_vd b') (kernel_pagetable b') (started b') (bd_regs b') (bd_csrs b')).
Proof. intros [[] ?] ?. by split. Qed.

Lemma consoleinit_early b b' : early b b' → wp (with_con consoleinit) (λ _, early b) b'.
Proof.
  intros He. unfold with_con. apply wp_zoom. eapply wp_mono; [apply (consoleinit_ok Pu Hu); apply He|]. intros ? c Hc. by apply early_con.
Qed.

Lemma kprintf_early fmt ap out b b' : printf fmt ap = Some out → BACKSPACE ∉ out → early b b' → bd_locking b' = true →
  wp (kprintf fmt ap) (λ _ b2, early b b2 ∧ bd_locking b2 = true) b'.
Proof. intros Hp Hb He Hl. eapply kprintf_ok; try done; [apply He|]. intros c Hc. split; [by apply early_con|done]. Qed.

(** After [kinit] and [kvminit]. *)
Lemma kinit_kvminit b : boot_state b → bd_locking b = true →
  wp (run_list [with_ps (on_km (kinit kend)); kvminit; kvminithart 0]) (λ _, half) b.
Proof.
  intros [Hc Hb Hf Hp Hbf Hin Hs Htp Hvu] Hlk.
  destruct (wp_inv _ _ _ (kinit_spec kend Hend (km (bd_ps b)) ltac:(unfold PGSIZE, PHYSTOP, KERNBASE in *; lia) Hf)) as ([] & k1 & Ek1 & l1 & Hk1 & Hl1 & _).
  pose proof (enough_free k1 l1 Hk1 Hl1) as Hlen. pose proof Hk1 as (_ & Hnd & _).
  destruct (wp_inv _ _ _ (kvmmake_spec kend etext trampoline Hend Hetext Hetext_al Htramp Htramp_al l1 (km_mem k1) Hnd ltac:(unfold kernel_pages; lia) k1 Hk1 eq_refl))
    as (root & k2 & Ek2 & l2 & stk & Hs1 & Hs2 & Hbd).
  pose proof (building_length kend kernel_paths l1 (km_mem k1) root Hnd _ _ _ _ Hbd) as Hl2. change (length kernel_paths) with 102%nat in Hl2.
  pose proof (built_kernel_table k2 l2 root stk l1 (km_mem k1) Hbd Hs1 Hs2) as Hkt.
  set (b1 := mkBoard (set_km k1 (bd_ps b)) (bd_con b) (bd_locking b) (bd_bus b) (bd_vd b) (kernel_pagetable b) (started b) (bd_regs b) (bd_csrs b)).
  apply (run_cons _ _ (λ b', b' = b1)); [unfold wp, with_ps, zoom, on_km, zoom; by rewrite Ek1|]. intros ? ->.
  set (b2 := mkBoard (set_km k2 (bd_ps b)) (bd_con b) (bd_locking b) (bd_bus b) (bd_vd b) root (started b) (bd_regs b) (bd_csrs b)).
  apply (run_cons _ _ (λ b', b' = b2)); [unfold wp, kvminit, bind, with_ps, zoom, on_km, zoom, b1, set_km; cbn [bd_ps km]; by rewrite Ek2|]. intros ? ->.
  eapply run_cons; [apply kvminithart_spec; cbn [kernel_pagetable b2]; by eapply kernel_table_satp|].
  intros b' ([E1 E2 E3 E4 E5] & E6 & E7 & E8 & E9 & _). cbn [b2 bd_ps bd_con bd_locking bd_bus bd_vd kernel_pagetable started bd_regs bd_csrs] in *.
  apply wp_ret. split; rewrite ?E1, ?E2, ?E3, ?E4, ?E5, ?E6, ?E7; cbn [km nextpid files set_km]; try done.
  - exists l2, stk. split; [done|lia].
  - intros h Hh. rewrite E8. by apply Htp.
Qed.

Lemma first_half b : boot_state b → wp (run_list (take 8 (main_first 0))) (λ _, half) b.
Proof.
  intros Hb. unfold main_first. cbn [take]. eapply run_cons; [apply (consoleinit_early b b); by split|]. intros b1 H1'.
  eapply (run_cons _ _ (λ b', early b b' ∧ bd_locking b' = true)); [by destruct H1' as [[] ?]|]. intros b2 [H2 L2].
  do 3 (eapply run_cons; [eapply kprintf_early; [reflexivity|apply (bool_decide_unpack _); vm_compute; exact I|eassumption|eassumption]|]; intros ? [? ?]).
  apply kinit_kvminit; [|done]. by match goal with H : early b ?x |- boot_state ?x => destruct H end.
Qed.

(** The rest of the initialisation, up to the file system. *)
Record core (b : BD) : Prop := {
  cr_con : con_ok Pu (bd_con b);
  cr_bus : Pv (bd_bus b);
  cr_memory : ∃ l stk, kernel_table (km (bd_ps b)) l (kernel_pagetable b) stk ∧ (33 ≤ length l)%nat;
  cr_pid : nextpid (bd_ps b) = 1;
  cr_procs : ∀ i, (i < 64)%nat → p_state (procs (bd_ps b) i) = UNUSED ∧ p_kstack (procs (bd_ps b) i) = KSTACK (Z.of_nat i);
  cr_tp : ∀ h, (h < 8)%nat → bd_regs b h TP = Z.of_nat h;
  cr_paging : on_paging b 0;
  cr_traps : on_traps b 0;
  cr_locking : bd_locking b = true;
  cr_used : v_used_idx (bd_vd b) = 0;
}.

Definition clean_fs (b : BD) : Prop :=
  (∀ i, zeroed (bufs (lbc (fl (io_fs (files (bd_ps b))))) i)) ∧ ∀ i, i_ref (itab (io_fs (files (bd_ps b))) i) = 0.
Definition cache_fs (b : BD) : Prop :=
  (let c := lbc (fl (io_fs (files (bd_ps b)))) in BioSpec.cst ROOTDEV c (λ n, BioSpec.mkInfo 0 None (disk_read (dk c) n)) (dk c)) ∧
  ∀ i, i_ref (itab (io_fs (files (bd_ps b))) i) = 0.

Lemma procs_traps b : half b → wp (run_list [with_ps procinit; trapinit; trapinithart 0]) (λ _ b', core b' ∧ clean_fs b') b.
Proof.
  intros [Hc Hb Hm Hp Hbf Hin Htp Hpg Hlk Hvu].
  destruct (wp_inv _ _ _ (procinit_spec (bd_ps b))) as ([] & p1 & Ep & F1 & F2 & F3 & F4).
  set (b1 := mkBoard p1 (bd_con b) (bd_locking b) (bd_bus b) (bd_vd b) (kernel_pagetable b) (started b) (bd_regs b) (bd_csrs b)).
  apply (run_cons _ _ (λ b', b' = b1)); [unfold wp, with_ps, zoom; by rewrite Ep|]. intros ? ->.
  apply (run_cons _ _ (λ b', b' = b1)); [done|]. intros ? ->.
  eapply run_cons; [by apply (trapinithart_spec 0 b1)|]. intros b' ([E1 E2 E3 E4 E5] & E6 & E7 & E8 & E9 & E10 & E11).
  apply wp_ret. cbn [b1 bd_ps bd_con bd_locking bd_bus bd_vd kernel_pagetable started bd_regs bd_csrs] in *. split; [split|split]; rewrite ?E1, ?E2, ?E3, ?E4, ?E5, ?E6, ?E7, ?F1, ?F2, ?F3; try done.
  - intros h Hh. rewrite E8. by apply Htp.
  - unfold on_paging. rewrite E3, E11 by done. exact Hpg.
Qed.

(** [plicinithart] on hart [h] does not disturb the disk. *)
Lemma plicinithart_of_spec h b : bd_regs b h TP = Z.of_nat h → (h < 8)%nat →
  wp (plicinithart_of h) (λ _ b', ∃ v, b' = mkBoard (bd_ps b) (bd_con b) (bd_locking b) v (bd_vd b) (kernel_pagetable b) (started b) (bd_regs b) (bd_csrs b) ∧
    (Pv (bd_bus b) → Pv v)) b.
Proof.
  intros Htp Hh. unfold plicinithart_of, cpuid, bind, gets, ret, with_bus, zoom, plicinithart, bind, write_reg, modify, wp. rewrite Htp, i32_id by lia.
  eexists. split; [reflexivity|]. intros Hb.
  apply (vp_write Pv Hv); [apply (vp_write Pv Hv); [done|]|]; unfold PLIC_SENABLE, PLIC_SPRIORITY, PLIC, VIRTIO0, VIRTIO_MMIO_QUEUE_READY; lia.
Qed.

Lemma core_bus b v : core b → Pv v → core (mkBoard (bd_ps b) (bd_con b) (bd_locking b) v (bd_vd b) (kernel_pagetable b) (started b) (bd_regs b) (bd_csrs b)).
Proof. intros [] ?. by split. Qed.

Lemma plic_inits b : core b → clean_fs b → wp (run_list [with_bus plicinit; plicinithart_of 0]) (λ _ b', core b' ∧ clean_fs b') b.
Proof.
  intros Hc Hf. pose proof (cr_bus b Hc) as Hb.
  eapply (run_cons _ _ (λ b', core b' ∧ clean_fs b')).
  { unfold with_bus, plicinit. apply wp_zoom. unfold bind, write_reg, modify, wp. split; [|done]. apply core_bus; [done|]. by repeat apply (vp_write Pv Hv). }
  clear b Hc Hf Hb. intros b [Hc Hf]. pose proof (cr_bus b Hc) as Hb. eapply (run_cons _ _ (λ b', core b' ∧ clean_fs b')); [|by intros; apply wp_ret].
  eapply wp_mono; [apply (plicinithart_of_spec 0); [apply (cr_tp b Hc); lia|lia]|]. intros ? b' (v & -> & Hv'). split; [apply core_bus; auto|done].
Qed.

Lemma core_files b f : core b → core (mkBoard (mkPs (km (bd_ps b)) (procs (bd_ps b)) (nextpid (bd_ps b)) (initproc (bd_ps b)) f)
  (bd_con b) (bd_locking b) (bd_bus b) (bd_vd b) (kernel_pagetable b) (started b) (bd_regs b) (bd_csrs b)).
Proof. intros []. by split. Qed.

Lemma fs_inits b : core b → clean_fs b → wp (run_list [with_fs (flog (lb binit)); with_fs iinit; fileinit]) (λ _ b', core b' ∧ cache_fs b') b.
Proof.
  intros Hc [Hf1 Hf2]. eapply (run_cons _ _ (λ b', core b' ∧ cache_fs b')).
  { unfold with_fs, with_ps, flog, lb. do 4 apply wp_zoom. eapply wp_mono; [apply (binit_spec ROOTDEV ltac:(done) _ Hf1)|]. intros ? c (Hd & [order Ho] & Ha).
    split; [by apply core_files|]. split; [|done]. cbn [bd_ps files io_fs fl lbc]. exists order. split; [done|]. split; [|done]. rewrite Hd. exact Ha. }
  clear b Hc Hf1 Hf2. intros b [Hc [Hf1 Hf2]]. eapply (run_cons _ _ (λ b', core b' ∧ cache_fs b')).
  { unfold with_fs, with_ps. do 2 apply wp_zoom. eapply wp_mono; [apply iinit_spec|]. intros ? c (Hd & _ & Ha).
    split; [by apply core_files|]. split; cbn [bd_ps files io_fs]; [by rewrite Hd|]. intros i. by rewrite Ha. }
  clear b Hc Hf1 Hf2. intros b Hb. eapply (run_cons _ _ (λ b', core b' ∧ cache_fs b')); [done|]. intros. by apply wp_ret.
Qed.

(** What hart 0 leaves for the scheduler. *)
Definition done_first (b : BD) : Prop :=
  initialised b ∧ con_ok Pu (bd_con b) ∧ started b = 1 ∧ on_paging b 0 ∧ on_traps b 0 ∧ ∀ h, (h < 8)%nat → bd_regs b h TP = Z.of_nat h.

Lemma disk_user b : core b → cache_fs b →
  wp (run_list [with_disk virtio_disk_init; with_ps (userinit (H := fstuff_ops kend) kend trampoline forkret_addr); set_started]) (λ _, done_first) b.
Proof.
  intros [Hc Hb (l & stk & Hkt & Hl) Hpid Hpr Htp Hpg Htr Hlk Hvu] [Hca Hin].
  pose proof (vm_kinv _ _ _ _ (kt_wf _ _ _ _ Hkt)) as Hk.
  destruct (wp_inv _ _ _ (virtio_disk_init_spec Pv Hv (km (bd_ps b), bd_vd b, bd_bus b) l Hend Hb Hk ltac:(lia) Hvu)) as ([] & [[k1 d1] v1] & Ev & (l1 & (Hk1 & [got Hgot] & Hm1) & Hlen) & Hd).
  cbn [fst snd] in *.
  assert (Hsub : ∀ q, q ∈ l1 → q ∈ l) by (intros q Hq; rewrite Hgot; apply elem_of_app; by right).
  pose proof (kernel_table_frame _ k1 l l1 _ stk Hkt Hk1 Hsub Hm1) as Hkt1.
  set (b1 := mkBoard (set_km k1 (bd_ps b)) (bd_con b) (bd_locking b) v1 d1 (kernel_pagetable b) (started b) (bd_regs b) (bd_csrs b)).
  apply (run_cons _ _ (λ b', b' = b1)); [unfold wp, with_disk, zoom; by rewrite Ev|]. intros ? ->.
  destruct (op_root_spec (files (bd_ps b)) Hin) as (f' & Hroot & Hent & Hfl).
  destruct (wp_inv _ _ _ (userinit_spec (H := fstuff_ops kend) kend trampoline forkret_addr Hend ltac:(unfold PHYSTOP, KERNBASE, PGSIZE in *; lia)
    (set_km k1 (bd_ps b)) l1 (Some 0%nat) f' ltac:(apply Hpr; lia) Hpid Hk1 ltac:(unfold user_pages; lia) Hroot))
    as ([] & p2 & Eu & Ef & Ej & Eks & Em & l2 & Hl2 & Hfp).
  set (b2 := mkBoard p2 (bd_con b) (bd_locking b) v1 d1 (kernel_pagetable b) (started b) (bd_regs b) (bd_csrs b)).
  apply (run_cons _ _ (λ b', b' = b2)); [unfold wp, with_ps, zoom; cbn [b1 bd_ps]; by rewrite Eu|]. intros ? ->.
  apply (run_cons _ _ done_first); [|intros; by apply wp_ret]. unfold wp, set_started, modify. split; [|done].
  split; cbn [b2 bd_ps bd_con bd_locking bd_bus bd_vd kernel_pagetable started bd_regs bd_csrs]; try done.
  - exists l2, stk. split; [|done]. apply (kernel_table_frame k1 (km p2) l1 l2); try done. apply (vm_kinv _ _ _ _ (us_wf _ _ _ _ (im_space _ _ _ _ _ (fp_image _ _ _ _ _ _ Hfp)))).
  - rewrite Eks. apply (Hpr 0%nat). lia.
  - intros i Hi. rewrite Ej by lia. apply Hpr. lia.
  - rewrite Ef, Hfl. exact Hca.
  - by rewrite Ef.
Qed.

Lemma run_app l1 l2 P Q b : wp (run_list l1) (λ _, P) b → (∀ b', P b' → wp (run_list l2) Q b') → wp (run_list (l1 ++ l2)) Q b.
Proof.
  revert b. induction l1 as [|a l1 IH]; intros b H1' H2'; [by apply H2'|]. cbn [app run_list] in *. unfold wp, bind in *. destruct (a b); try done. by apply IH.
Qed.

Lemma first_inits b : boot_state b → wp (run_list (main_first 0)) (λ _, done_first) b.
Proof.
  intros Hb. rewrite <- (take_drop 8 (main_first 0)). eapply run_app; [by apply first_half|]. intros b1 H1'.
  rewrite <- (take_drop 3 (drop 8 (main_first 0))). eapply run_app; [by apply procs_traps|]. intros b2 [C2 F2].
  rewrite <- (take_drop 2 (drop 3 (drop 8 (main_first 0)))). eapply run_app; [by apply plic_inits|]. intros b3 [C3 F3].
  rewrite <- (take_drop 3 (drop 2 (drop 3 (drop 8 (main_first 0))))). eapply run_app; [by apply fs_inits|]. intros b4 [C4 F4].
  by apply disk_user.
Qed.

Lemma first_done b b' : boot_state b → run_list (main_first 0) b = Ok tt b' → done_first b'.
Proof. intros Hb E. exact (wp_run _ _ b tt b' (first_inits b Hb) E). Qed.

(** Until [started] is set, the flag and the numbers of the harts stay as they are. *)
Definition quiet (a : MB unit) : Prop := ∀ b b', a b = Ok tt b' → started b' = started b ∧ ∀ h, bd_regs b' h TP = bd_regs b h TP.

Lemma quiet_zoom {T} (g : BD → T) p (m : M T unit) :
  (∀ x b, started (p x b) = started b ∧ bd_regs (p x b) = bd_regs b) → quiet (zoom g p m).
Proof.
  intros Hp b b' E. unfold zoom in E. destruct (m (g b)); simplify_eq. destruct (Hp s b) as [-> ->]. done.
Qed.

Lemma quiet_csr h c v : quiet (with_hart h (csrw c v)).
Proof.
  intros b b' E. unfold with_hart, zoom, csrw in E. cbn [prv] in E. destruct (csr_ok PrvS _ c); simplify_eq. cbn [started bd_regs set_csrs regs]. split; [done|].
  intros j. destruct (decide (j = h)) as [->|]; [by rewrite fn_lookup_insert|by rewrite fn_lookup_insert_ne].
Qed.

Lemma quiet_first : Forall quiet (take 18 (main_first 0)).
Proof.
  unfold main_first. cbn [take].
  assert (Hps : ∀ m : M (ps (fstuff D C)) unit, quiet (with_ps m)) by (intros m; by apply quiet_zoom).
  assert (Hfs : ∀ m : M (fstate D) unit, quiet (with_fs m)) by (intros m; apply Hps).
  assert (Hcon : ∀ m : M (con U) unit, quiet (with_con m)) by (intros m; by apply quiet_zoom).
  assert (Hbus : ∀ m : M V unit, quiet (with_bus m)) by (intros m; by apply quiet_zoom).
  assert (Hpr : ∀ fmt ap, quiet (kprintf fmt ap)) by (intros fmt ap; unfold kprintf; destruct (printf fmt ap); [apply Hcon|by intros ???]).
  repeat (apply Forall_cons; split); try done.
  - intros b b' E. unfold printfinit, modify in E. by simplify_eq.
  - intros b b' E. unfold kvminit, bind in E. destruct (with_ps (on_km (kvmmake etext trampoline)) b) as [k b1| | | |] eqn:E1; try done.
    unfold modify in E. simplify_eq. cbn [started bd_regs]. unfold with_ps, zoom in E1. destruct (on_km _ _); by simplify_eq.
  - intros b b' E. apply (quiet_csr 0 CSR_satp (MAKE_SATP (kernel_pagetable b)) b b'). exact E.
  - intros b b' E. unfold trapinit, ret in E. by simplify_eq.
  - apply quiet_csr.
  - intros b b' E. by apply (Hbus (plicinithart (i32 (bd_regs b 0%nat TP))) b b').
  - intros b b' E. unfold fileinit, ret in E. by simplify_eq.
  - by apply quiet_zoom.
Qed.

(** ** The harts together *)

Lemma cpuid_eq h b : bd_regs b h TP = Z.of_nat h → (h < 8)%nat → cpuid h b = Ok (Z.of_nat h) b.
Proof. intros Htp Hh. unfold cpuid, bind, gets, ret. by rewrite Htp, i32_id by lia. Qed.

(** What hart [h] has done when [p] is ahead of it. *)
Definition other_ok (b : BD) (h : nat) (p : hpos) : Prop :=
  match p with
  | Enter | Spin => True
  | Todo rest => ∃ dn, main_other h = dn ++ rest ∧ ((2 ≤ length dn)%nat → on_paging b h) ∧ ((3 ≤ length dn)%nat → on_traps b h)
  | Scheduling => on_paging b h ∧ on_traps b h
  end.

(** Hart 0 is initialising and the others have not passed their loop, or hart 0 is
    through. *)
Inductive winv (b0 : BD) (w : world) : Prop :=
| w_start (Hp : w_pos w 0%nat = Enter) (Hb : w_bd w = b0) (Ho : ∀ h, (0 < h < 8)%nat → w_pos w h = Enter ∨ w_pos w h = Spin)
| w_busy dn rest (Hp : w_pos w 0%nat = Todo rest) (Hr : rest ≠ []) (Hl : main_first 0 = dn ++ rest) (Hb : run_list dn b0 = Ok tt (w_bd w))
    (Ho : ∀ h, (0 < h < 8)%nat → w_pos w h = Enter ∨ w_pos w h = Spin)
| w_done (Hp : w_pos w 0%nat = Todo [] ∨ w_pos w 0%nat = Scheduling) (Hd : done_first (w_bd w))
    (Ho : ∀ h, (0 < h < 8)%nat → other_ok (w_bd w) h (w_pos w h)).

Lemma run_list_snoc l (a : MB unit) b b1 b2 : run_list l b = Ok tt b1 → a b1 = Ok tt b2 → run_list (l ++ [a]) b = Ok tt b2.
Proof.
  revert b. induction l as [|x l IH]; intros b E1 E2; cbn [app run_list] in *.
  - unfold ret in E1. simplify_eq. unfold bind. by rewrite E2.
  - unfold bind in *. destruct (x b) as [[] b'| | | |]; try done. by apply IH.
Qed.

Lemma run_list_next l (a : MB unit) rest b b1 Q : run_list l b = Ok tt b1 → wp (run_list (l ++ a :: rest)) Q b → ∃ b2, a b1 = Ok tt b2.
Proof.
  revert b. induction l as [|x l IH]; intros b E Hw; cbn [app run_list] in *.
  - unfold ret in E. simplify_eq. unfold wp, bind in Hw. destruct (a b1) as [[] b2| | | |]; try done. by exists b2.
  - unfold wp, bind in *. destruct (x b) as [[] b'| | | |]; try done. by apply (IH b').
Qed.

Lemma run_list_quiet l b b' : Forall quiet l → run_list l b = Ok tt b' → started b' = started b ∧ ∀ h, bd_regs b' h TP = bd_regs b h TP.
Proof.
  revert b. induction l as [|x l IH]; intros b Hq E; cbn [run_list] in E; [unfold ret in E; by simplify_eq|]. apply Forall_cons in Hq as [Hx Hq].
  unfold bind in E. destruct (x b) as [[] b1| | | |] eqn:E1; try done. destruct (Hx b b1 E1) as [S1 R1]. destruct (IH b1 Hq E) as [S2 R2].
  split; [congruence|]. intros h. by rewrite R2, R1.
Qed.

(** While hart 0 is busy nobody sees [started]. *)
Lemma busy_quiet b0 b dn rest : main_first 0 = dn ++ rest → rest ≠ [] → run_list dn b0 = Ok tt b → started b = started b0 ∧ ∀ h, bd_regs b h TP = bd_regs b0 h TP.
Proof.
  intros El Hr E. apply (run_list_quiet dn b0 b); [|done]. assert (Hlen : (length dn ≤ 18)%nat).
  { apply (f_equal length) in El. rewrite length_app in El. change (length (main_first 0)) with 19%nat in El. destruct rest; [done|]. cbn [length] in El. lia. }
  pose proof quiet_first as Hq. rewrite El in Hq. rewrite take_app_ge in Hq by done. by apply Forall_app in Hq as [? _].
Qed.

(** The steps of a hart after [started]. *)
Lemma done_first_same b b' : done_first b → same_shared b b' → con_ok Pu (bd_con b') → (∀ h, bd_regs b' h TP = bd_regs b h TP) →
  on_paging b' 0 → on_traps b' 0 → done_first b'.
Proof.
  intros ([] & _ & Hs & _ & _ & Ht) [E1 E2 E3 E4 E5] Hc Hr Hp Htr. split; [split; by rewrite ?E1, ?E2, ?E3, ?E5|]. split; [done|]. split; [congruence|]. split; [done|]. split; [done|].
  intros h Hh. rewrite Hr. by apply Ht.
Qed.

(** What a call of hart [h] leaves alone: the kernel, and the registers of the others. *)
Definition aside (h : nat) (b b' : BD) : Prop :=
  same_shared b b' ∧ con_ok Pu (bd_con b') ∧ (∀ j, bd_regs b' j TP = bd_regs b j TP) ∧ ∀ j, j ≠ h → bd_csrs b' j = bd_csrs b j.

Lemma starting_out h : (h < 8)%nat → ∃ out, printf starting [AWord (Z.of_nat h)] = Some out ∧ BACKSPACE ∉ out.
Proof.
  intros Hh. do 8 (destruct h as [|h]; [eexists; split; [reflexivity|apply (bool_decide_unpack _); vm_compute; exact I]|]). lia.
Qed.

Lemma other_call h b (a : MB unit) dn rest : (0 < h < 8)%nat → done_first b → main_other h = dn ++ a :: rest → other_ok b h (Todo (a :: rest)) →
  ∃ b', a b = Ok tt b' ∧ aside h b b' ∧ other_ok b' h (Todo rest).
Proof.
  intros Hh Hd El (dn' & El' & Hp & Ht). assert (dn' = dn) as -> by (rewrite El in El'; by apply app_inv_tail in El').
  destruct Hd as (Hi & Hc & Hs & _ & _ & Htp). pose proof (Htp h ltac:(lia)) as Hth.
  assert (Hfour : ∀ P : Prop, (dn = [] → a = (do id <- cpuid h; kprintf starting [AWord id]) → P) →
    (length dn = 1%nat → a = kvminithart h → P) → (length dn = 2%nat → a = trapinithart h → P) → (length dn = 3%nat → a = plicinithart_of h → P) → P).
  { intros P P1 P2 P3 P4. unfold main_other in El. destruct dn as [|? [|? [|? [|? [|? ?]]]]]; simplify_eq/=; auto. }
  assert (Hlen : main_other h = (dn ++ [a]) ++ rest) by (by rewrite <- app_assoc).
  apply Hfour.
  - intros -> ->. destruct (starting_out h) as (out & Ho & Hb); [lia|].
    assert (Hw : wp (kprintf starting [AWord (Z.of_nat h)]) (λ _ b', aside h b b') b) by (eapply kprintf_ok; try done; intros c Hc'; by repeat split).
    destruct (wp_inv _ _ _ Hw) as ([] & b' & E & Ha). exists b'. split; [unfold bind; rewrite cpuid_eq by (done || lia); exact E|]. split; [done|].
    eexists. split; [exact Hlen|]. cbn [length app]. split; intros ?; lia.
  - intros Hl ->. destruct Hi as [(l & stk & Hkt & _) _ _ _ _ _ _].
    destruct (wp_inv _ _ _ (kvminithart_spec h b (kernel_table_satp _ _ _ _ Hkt))) as ([] & b' & E & Hss & E6 & E7 & E8 & E9 & E10 & _).
    exists b'. split; [done|]. split; [split; [done|]; split; [by rewrite E6|]; split; [intros j; by rewrite E8|done]|].
    eexists. split; [exact Hlen|]. rewrite length_app, Hl. cbn [length]. split; [done|]. intros ?. lia.
  - intros Hl ->. destruct (wp_inv _ _ _ (trapinithart_spec h b Hkvec)) as ([] & b' & E & Hss & E6 & E7 & E8 & E9 & E10 & E11).
    exists b'. split; [done|]. split; [split; [done|]; split; [by rewrite E6|]; split; [intros j; by rewrite E8|done]|].
    eexists. split; [exact Hlen|]. split; [|done]. intros _. unfold on_paging. rewrite E11 by done. rewrite (ss_kpt _ _ Hss). apply Hp. lia.
  - intros Hl ->. destruct (wp_inv _ _ _ (plicinithart_of_spec h b Hth ltac:(lia))) as ([] & b' & E & v & -> & _).
    eexists. split; [exact E|]. split; [split; [by split|done]|]. eexists. split; [exact Hlen|]. split; intros _; [apply Hp|apply Ht]; lia.
Qed.

Lemma aside_done h b b' : (0 < h)%nat → done_first b → aside h b b' → done_first b'.
Proof.
  intros Hh Hd (Hs & Hc & Hr & Ho). apply (done_first_same b b'); try done; destruct Hd as (_ & _ & _ & Hp & Ht & _);
    [unfold on_paging in *; by rewrite (ss_kpt _ _ Hs), Ho by lia|unfold on_traps in *; by rewrite Ho by lia].
Qed.

Lemma aside_other h b b' j p : aside h b b' → j ≠ h → other_ok b j p → other_ok b' j p.
Proof.
  intros (Hs & Hc & Hr & Ho) Hj.
  assert (Hp : on_paging b j → on_paging b' j) by (unfold on_paging; by rewrite (ss_kpt _ _ Hs), Ho by done).
  assert (Ht : on_traps b j → on_traps b' j) by (unfold on_traps; by rewrite Ho by done).
  destruct p; cbn [other_ok]; try done; [intros (dn & ? & ? & ?); exists dn; auto|intros [? ?]; auto].
Qed.

Section Harts.
Context (b0 : BD) (Hboot : boot_state b0).

Definition hstep (w w' : world) : Prop := ∃ h, (h < 8)%nat ∧ mstep h w w'.

(** A hart whose number is not 0 does not initialise. *)
Lemma first_is_0 h w w' : (h < 8)%nat → bd_regs (w_bd w) h TP = Z.of_nat h → w_pos w h = Enter → mstep h w w' →
  w' = mkWorld (w_bd w) (<[h := if decide (h = 0%nat) then Todo (main_first 0) else Spin]> (w_pos w)).
Proof.
  intros Hh Htp Hp Hs. destruct Hs as [w Hp' Hc|w id Hp' Hc Hid|w Hp' _|w b a rest Hp' _|w Hp']; try congruence;
    rewrite cpuid_eq in Hc by done; simplify_eq.
  - assert (h = 0%nat) as -> by lia. done.
  - rewrite decide_False by lia. done.
Qed.

Lemma waiting_step h w w' : (0 < h < 8)%nat → started (w_bd w) = 0 → bd_regs (w_bd w) h TP = Z.of_nat h → w_pos w h = Enter ∨ w_pos w h = Spin →
  mstep h w w' → w' = mkWorld (w_bd w) (<[h := Spin]> (w_pos w)).
Proof.
  intros Hh Hs0 Htp [Hp|Hp] Hs; [apply first_is_0 in Hs as ->; try done; [|lia]; by rewrite decide_False by lia|].
  destruct Hs; congruence.
Qed.

Lemma winv_step_start h w w' : (h < 8)%nat → mstep h w w' → w_pos w 0%nat = Enter → w_bd w = b0 →
  (∀ j, (0 < j < 8)%nat → w_pos w j = Enter ∨ w_pos w j = Spin) → winv b0 w'.
Proof.
  intros Hh Hs Hp Hb Ho.
  assert (Htp := bs_tp b0 Hboot). rewrite <- Hb in Htp. destruct (decide (h = 0%nat)) as [->|Hne].
  + apply first_is_0 in Hs as ->; [|lia|by apply Htp|done]. rewrite decide_True by done. apply (w_busy _ _ [] (main_first 0)); cbn [w_pos w_bd]; [by rewrite fn_lookup_insert|done|done|by rewrite Hb|].
    intros j Hj. rewrite fn_lookup_insert_ne by lia. by apply Ho.
  + apply waiting_step in Hs as ->; [|lia|rewrite Hb; apply Hboot|by apply Htp|by apply Ho; lia]. apply w_start; cbn [w_pos w_bd]; [by rewrite fn_lookup_insert_ne|done|].
    intros j Hj. destruct (decide (j = h)) as [->|]; [rewrite fn_lookup_insert; by right|]. rewrite fn_lookup_insert_ne by done. by apply Ho.
Qed.

Lemma winv_step_busy h w w' dn rest : (h < 8)%nat → mstep h w w' → w_pos w 0%nat = Todo rest → rest ≠ [] → main_first 0 = dn ++ rest →
  run_list dn b0 = Ok tt (w_bd w) → (∀ j, (0 < j < 8)%nat → w_pos w j = Enter ∨ w_pos w j = Spin) → winv b0 w'.
Proof.
  intros Hh Hs Hp Hr Hl Hb Ho.
  destruct (busy_quiet b0 (w_bd w) dn rest Hl Hr Hb) as [Hst Htp]. destruct (decide (h = 0%nat)) as [->|Hne].
  + destruct Hs as [w Hp' _|w id Hp' _ _|w Hp' _|w b a rest' Hp' Ha|w Hp']; try congruence. assert (rest = a :: rest') as -> by congruence.
    pose proof (run_list_snoc dn a b0 (w_bd w) b Hb Ha) as Hb'. destruct rest' as [|a' rest'].
    * apply w_done; cbn [w_pos w_bd]; [left; by rewrite fn_lookup_insert| |].
      -- apply (first_done b0); [done|]. rewrite Hl. exact Hb'.
      -- intros j Hj. rewrite fn_lookup_insert_ne by lia. by destruct (Ho j Hj) as [-> | ->].
    * apply (w_busy _ _ (dn ++ [a]) (a' :: rest')); cbn [w_pos w_bd]; [by rewrite fn_lookup_insert|done|by rewrite <- app_assoc|done|].
      intros j Hj. rewrite fn_lookup_insert_ne by lia. by apply Ho.
  + apply waiting_step in Hs as ->; [|lia|rewrite Hst; apply Hboot|rewrite Htp; by apply Hboot|by apply Ho; lia].
    apply (w_busy _ _ dn rest); cbn [w_pos w_bd]; [by rewrite fn_lookup_insert_ne|done|done|done|].
    intros j Hj. destruct (decide (j = h)) as [->|]; [rewrite fn_lookup_insert; by right|]. rewrite fn_lookup_insert_ne by done. by apply Ho.
Qed.

Lemma winv_step_done h w w' : (h < 8)%nat → mstep h w w' → w_pos w 0%nat = Todo [] ∨ w_pos w 0%nat = Scheduling → done_first (w_bd w) →
  (∀ j, (0 < j < 8)%nat → other_ok (w_bd w) j (w_pos w j)) → winv b0 w'.
Proof.
  intros Hh Hs Hp Hd Ho.
  pose proof Hd as (_ & _ & Hst & _ & _ & Htp). destruct (decide (h = 0%nat)) as [->|Hne].
  + destruct Hs as [w Hp' _|w id Hp' _ _|w Hp' _|w b a rest' Hp' Ha|w Hp']; try (destruct Hp; congruence).
    apply w_done; cbn [w_pos w_bd]; [right; by rewrite fn_lookup_insert|done|]. intros j Hj. rewrite fn_lookup_insert_ne by lia. by apply Ho.
  + specialize (Ho h ltac:(lia)) as Hoh. assert (Hkeep : ∀ p, other_ok (w_bd w) h p → winv b0 (mkWorld (w_bd w) (<[h := p]> (w_pos w)))).
    { intros p Hok. apply w_done; cbn [w_pos w_bd]; [by rewrite fn_lookup_insert_ne|done|]. intros j Hj.
      destruct (decide (j = h)) as [->|]; [by rewrite fn_lookup_insert|]. rewrite fn_lookup_insert_ne by done. by apply Ho. }
    destruct Hs as [w Hp' Hc|w id Hp' Hc Hid|w Hp' Hgo|w b a rest' Hp' Ha|w Hp'].
    * rewrite cpuid_eq in Hc by (done || apply Htp; lia). simplify_eq. lia.
    * by apply Hkeep.
    * apply Hkeep. exists []. split; [done|]. cbn [length]. split; intros ?; lia.
    * rewrite Hp' in Hoh. pose proof Hoh as (dn & El & _). destruct (other_call h (w_bd w) a dn rest') as (b' & Eb & Has & Hok); try done; [lia|].
      assert (b' = b) as -> by congruence. apply w_done; cbn [w_pos w_bd]; [by rewrite fn_lookup_insert_ne|apply (aside_done h (w_bd w)); (done || lia)|].
      intros j Hj. destruct (decide (j = h)) as [->|]; [by rewrite fn_lookup_insert|]. rewrite fn_lookup_insert_ne by done. apply (aside_other h (w_bd w)); [done|done|by apply Ho].
    * apply Hkeep. rewrite Hp' in Hoh. destruct Hoh as (dn & El & H2' & H3'). rewrite app_nil_r in El. rewrite <- El in H2', H3'. split; [apply H2'|apply H3']; cbn [length main_other]; lia.
Qed.

Lemma winv_step h w w' : (h < 8)%nat → mstep h w w' → winv b0 w → winv b0 w'.
Proof.
  intros Hh Hs [Hp Hb Ho|dn rest Hp Hr Hl Hb Ho|Hp Hd Ho];
    [by eapply winv_step_start|by eapply winv_step_busy|by eapply winv_step_done].
Qed.

(** The call that a hart is about to make returns. *)
Lemma winv_calls w : winv b0 w → ∀ h a rest, (h < 8)%nat → w_pos w h = Todo (a :: rest) → ∃ b, a (w_bd w) = Ok tt b.
Proof.
  intros [Hp Hb Ho|dn rest' Hp Hr Hl Hb Ho|Hp Hd Ho] h a rest Hh E; destruct (decide (h = 0%nat)) as [->|Hne];
    try (destruct (Ho h ltac:(lia)); congruence).
  - congruence.
  - pose proof (first_inits b0 Hboot) as Hw. rewrite Hl in Hw. assert (rest' = a :: rest) as -> by congruence. by eapply run_list_next.
  - destruct Hp; congruence.
  - specialize (Ho h ltac:(lia)) as Hoh. rewrite E in Hoh. pose proof Hoh as (dn & El & _).
    destruct (other_call h (w_bd w) a dn rest) as (b' & Eb & _); try done; [lia|]. by exists b'.
Qed.

(** Some hart can go on unless all are in the scheduler. *)
Lemma winv_progress w : winv b0 w → (∀ h, (h < 8)%nat → w_pos w h = Scheduling) ∨ ∃ w', hstep w w'.
Proof.
  intros [Hp Hb Ho|dn rest Hp Hr Hl Hb Ho|Hp Hd Ho].
  - right. eexists. exists 0%nat. split; [lia|]. apply m_first; [done|]. rewrite Hb. apply (cpuid_eq 0); [apply Hboot; lia|lia].
  - right. destruct rest as [|a rest]; [done|]. pose proof (first_inits b0 Hboot) as Hw. rewrite Hl in Hw.
    destruct (run_list_next dn a rest b0 (w_bd w) _ Hb Hw) as [b2 Ha]. eexists. exists 0%nat. split; [lia|]. by eapply m_call.
  - pose proof Hd as (_ & _ & Hst & _ & _ & Htp).
    assert (Hall : ∀ n, (n ≤ 8)%nat → (∀ h, (h < n)%nat → w_pos w h = Scheduling) ∨ ∃ w', hstep w w').
    { induction n as [|n IH]; intros Hn; [left; intros; lia|]. destruct IH as [IH|IH]; [lia| |by right].
      destruct (decide (n = 0%nat)) as [->|Hne].
      { destruct Hp as [Hp|Hp]; [right; eexists; exists 0%nat; split; [lia|by apply m_sched]|left; intros h Hh; by replace h with 0%nat by lia]. }
      specialize (Ho n ltac:(lia)) as Hon. destruct (w_pos w n) as [| |[|a rest]|] eqn:E.
      - right. eexists. exists n. split; [lia|]. eapply m_other; [done|apply cpuid_eq; [apply Htp; lia|lia]|lia].
      - right. eexists. exists n. split; [lia|]. apply m_go; [done|lia].
      - right. eexists. exists n. split; [lia|]. by apply m_sched.
      - right. pose proof Hon as (dn & El & _). destruct (other_call n (w_bd w) a dn rest) as (b' & Eb & _); try done; [lia|].
        eexists. exists n. split; [lia|]. by eapply m_call.
      - left. intros h Hh. destruct (decide (h = n)) as [->|]; [done|]. apply IH. lia. }
    by apply Hall.
Qed.

(** The steps that a hart has ahead of it. *)
Definition rank (h : nat) (p : hpos) : nat :=
  match p with Enter => if decide (h = 0%nat) then 21%nat else 7%nat | Spin => 6%nat | Todo rest => S (length rest) | Scheduling => 0%nat end.
Definition total (w : world) : nat := sum_list ((λ h, rank h (w_pos w h)) <$> seq 0 8).

Lemma sum_cons x l : sum_list (x :: l) = (x + sum_list l)%nat.
Proof. done. Qed.

Lemma sum_step (f g : nat → nat) h l : NoDup l → h ∈ l → f h = S (g h) → (∀ j, j ≠ h → f j = g j) → sum_list (f <$> l) = S (sum_list (g <$> l)).
Proof.
  intros Hn Hin Hh Hj. induction l as [|x l IH]; [by apply not_elem_of_nil in Hin|]. apply NoDup_cons in Hn as [Hx Hn]. rewrite !fmap_cons, !sum_cons.
  destruct (decide (x = h)) as [->|Hne].
  - rewrite Hh. assert (E : f <$> l = g <$> l) by (apply list_fmap_ext; intros i y Hy; apply Hj; intros ->; apply Hx; by eapply list_elem_of_lookup_2). rewrite E. lia.
  - rewrite Hj by done. apply elem_of_cons in Hin as [->|Hin]; [done|]. rewrite IH by done. lia.
Qed.

Lemma total_step w w' : winv b0 w → hstep w w' → total w = S (total w').
Proof.
  intros Hw (h & Hh & Hs). assert (Htp : bd_regs (w_bd w) h TP = Z.of_nat h).
  { destruct Hw as [Hp Hb Ho|dn rest Hp Hr Hl Hb Ho|Hp Hd Ho]; [rewrite Hb; by apply Hboot| |by apply Hd].
    destruct (busy_quiet b0 (w_bd w) dn rest Hl Hr Hb) as [_ ->]. by apply Hboot. }
  assert (Hc : w_pos w h = Enter → rank h (w_pos w' h) = if decide (h = 0%nat) then 20%nat else 6%nat).
  { intros Hp. rewrite (first_is_0 h w w' Hh Htp Hp Hs). cbn [w_pos]. rewrite fn_lookup_insert. by case_decide. }
  apply (sum_step _ _ h); [apply NoDup_seq|apply elem_of_seq; lia| |].
  - destruct (w_pos w h) eqn:Ep; [rewrite Hc by done; cbn [rank]; by case_decide|..];
      destruct Hs as [? Hp|? ? Hp|? Hp|? ? ? ? Hp|? Hp]; rewrite Ep in Hp; simplify_eq; cbn [w_pos]; by rewrite fn_lookup_insert.
  - intros j Hj. by destruct Hs; cbn [w_pos]; rewrite fn_lookup_insert_ne by done.
Qed.

Lemma winv_steps n w w' : nsteps hstep n w w' → winv b0 w → winv b0 w' ∧ total w = (n + total w')%nat.
Proof.
  induction 1 as [w|n w w1 w' Hs Hn IH]; intros Hw; [done|]. pose proof (total_step w w1 Hw Hs) as Ht. destruct Hs as (h & Hh & Hs).
  destruct IH as [Hw' Ht']; [by eapply winv_step|]. split; [done|]. lia.
Qed.

Lemma winv_completes w : winv b0 w → ∃ w', nsteps hstep (total w) w w' ∧ ∀ h, (h < 8)%nat → w_pos w' h = Scheduling.
Proof.
  remember (total w) as n eqn:En. revert w En. induction n as [|n IH]; intros w En Hw; destruct (winv_progress w Hw) as [Hall|[w1 Hs]].
  - exists w. split; [constructor|done].
  - pose proof (total_step w w1 Hw Hs). lia.
  - exfalso. assert (total w = 0%nat); [|lia]. unfold total. assert (E : (λ h, rank h (w_pos w h)) <$> seq 0 8 = (λ _, 0%nat) <$> seq 0 8); [|by rewrite E].
    apply list_fmap_ext. intros i y Hy%lookup_seq. rewrite Hall by lia. done.
  - pose proof (total_step w w1 Hw Hs) as Ht. destruct (IH w1) as (w' & Hn & Hall); [lia|destruct Hs as (h & Hh & Hs); by eapply winv_step|].
    exists w'. split; [by econstructor|done].
Qed.
End Harts.
End Main.


(** C7: the machine boots.  The harts of a machine whose static data is zero and whose
    UART and disk answer as they should enter [main]; their steps are interleaved in
    any way.  No call panics, sleeps or is undefined, whenever its hart makes it.  From
    every state that is reached the machine can go on until all eight harts are in the
    scheduler, and whatever the order, that takes 70 steps, where a hart's wait for
    [started] is one step.  No hart gets past its loop on [started], and none is
    in the scheduler, before the kernel is initialised: it has its page table, one
    process that is RUNNABLE with pid 1 and will run [initcode] at address 0 on a
    page of its own, an empty buffer cache over the disk, the root directory as
    working directory, and a disk driver that is ready.  A hart in the scheduler
    runs on the kernel's page table and takes its traps at [kernelvec]. *)
Theorem main_boots {D C U V} `{Disk D, UartDev U, Mmio V} (kend etext trampoline forkret_addr kernelvec : Z) (fuel : nat) (Pu : U → Prop) (Pv : V → Prop)
    (b0 : board D C U V) (n : nat) (w : world)
    (Huart : uart_live fuel Pu) (Hdisk : virtio_present Pv) (Hend : KERNBASE ≤ kend) (Hroom : kend + 200 * PGSIZE ≤ PHYSTOP)
    (Hetext : KERNBASE < etext < PHYSTOP) (Hetext_al : etext mod PGSIZE = 0)
    (Htramp : KERNBASE ≤ trampoline ∧ trampoline + PGSIZE ≤ PHYSTOP) (Htramp_al : trampoline mod PGSIZE = 0) (Hkvec : w64 kernelvec)
    (Hboot : boot_state Pu Pv b0)
    (Hrun : nsteps (hstep kend etext trampoline forkret_addr kernelvec fuel) n (mkWorld b0 (λ _, Enter)) w) :
  (∀ h, (h < 8)%nat → w_pos w h = Scheduling →
     initialised kend etext trampoline forkret_addr (w_bd w) ∧ on_paging (w_bd w) h ∧ on_traps kernelvec (w_bd w) h) ∧
  (∀ h rest, (0 < h < 8)%nat → w_pos w h = Todo rest → initialised kend etext trampoline forkret_addr (w_bd w)) ∧
  (∀ h a rest, (h < 8)%nat → w_pos w h = Todo (a :: rest) → ∃ b, a (w_bd w) = Ok tt b) ∧
  ∃ k w', nsteps (hstep kend etext trampoline forkret_addr kernelvec fuel) k w w' ∧ (n + k = 70)%nat ∧ ∀ h, (h < 8)%nat → w_pos w' h = Scheduling.
Proof.
  assert (Hinit : winv kend etext trampoline forkret_addr kernelvec fuel Pu b0 (mkWorld b0 (λ _, Enter))) by (apply w_start; auto).
  destruct (winv_steps kend etext trampoline forkret_addr kernelvec fuel Pu Pv Huart Hdisk Hend Hroom Hetext Hetext_al Htramp Htramp_al Hkvec b0 Hboot n _ w Hrun Hinit) as [Hw Ht].
  change (total _) with 70%nat in Ht at 1. split; [|split; [|split]].
  - intros h Hh Hs. destruct Hw as [Hp Hb Ho|dn rest Hp Hr Hl Hb Ho|Hp Hd Ho].
    + destruct (decide (h = 0%nat)) as [->|]; [congruence|]. destruct (Ho h ltac:(lia)); congruence.
    + destruct (decide (h = 0%nat)) as [->|]; [congruence|]. destruct (Ho h ltac:(lia)); congruence.
    + split; [apply Hd|]. destruct (decide (h = 0%nat)) as [->|]; [split; apply Hd|]. specialize (Ho h ltac:(lia)). by rewrite Hs in Ho.
  - intros h rest Hh Hs. destruct Hw as [Hp Hb Ho|dn rest' Hp Hr Hl Hb Ho|Hp Hd Ho]; [destruct (Ho h Hh); congruence..|apply Hd].
  - exact (winv_calls kend etext trampoline forkret_addr kernelvec fuel Pu Pv Huart Hdisk Hend Hroom Hetext Hetext_al Htramp Htramp_al Hkvec b0 Hboot w Hw).
  - destruct (winv_completes kend etext trampoline forkret_addr kernelvec fuel Pu Pv Huart Hdisk Hend Hroom Hetext Hetext_al Htramp Htramp_al Hkvec b0 Hboot w Hw) as (w' & Hn & Hall).
    exists (total w), w'. split; [done|]. split; [lia|done].
Qed.

(** A machine with a UART that is always idle and a disk that keeps its status. *)
#[local] Instance demo_uart : UartDev unit := {| Uart.read_reg _ d := (LSR_TX_IDLE, d); Uart.write_reg _ _ d := d |}.
#[local] Instance demo_bus : Mmio Z := {|
  reg_read a d :=
    (if a =? VIRTIO0 + VIRTIO_MMIO_MAGIC_VALUE then 1953655158 else if a =? VIRTIO0 + VIRTIO_MMIO_VERSION then 2
     else if a =? VIRTIO0 + VIRTIO_MMIO_DEVICE_ID then 2 else if a =? VIRTIO0 + VIRTIO_MMIO_VENDOR_ID then 1431127377
     else if a =? VIRTIO0 + VIRTIO_MMIO_STATUS then d else if a =? VIRTIO0 + VIRTIO_MMIO_QUEUE_NUM_MAX then 1024 else 0, d);
  reg_write a v d := if a =? VIRTIO0 + VIRTIO_MMIO_STATUS then v else d |}.

Definition demo_files : fstuff (Z → list Z) unit :=
  mkFst (mkFs (mkLst (mkCache (λ _, mkBuf false 0 0 (mkSleep 0 0) 0 0 0 []) (λ _, [])) (mkLog 0 0 0 false 0 0 []))
    (mkSb 0 0 0 0 0 0 0 0) (λ _, mkInode 0 0 0 (mkSleep 0 0) false (mkDinode 0 0 0 0 0 [])))
    (λ _, mkFile FD_NONE 0 false false 0 0 0 0) (λ _, Pipe.pipe_init []) tt [].
Definition demo_board : board (Z → list Z) unit unit Z :=
  mkBoard (mkPs (mkKmem (λ _, 0) 0) (λ _, mkProc UNUSED None false 0 0 None 0 0 0 0 (0, 0) (replicate 16 None) None (replicate 16 0)) 1 None demo_files)
    (mkCon (mkCons [] 0 0 0) (mkUart [] 0 0 false tt [] []) []) false 0
    (mkVd (λ _, mkDesc DNull 0 0 0) (λ _, 0) 0 (λ _, 0) 0 (λ _, false) 0 (λ _, Virtio.mkInfo None 0) (λ _, mkReq 0 0 0) (λ _, []) (λ _, false) (λ _, 0) [])
    0 0 (λ h, <[TP := Z.of_nat h]> (λ _, 0)) (λ _ _, 0).

Lemma main_boots_witness : ∃ w' : world (D := Z → list Z) (C := unit) (U := unit) (V := Z),
  nsteps (hstep (KERNBASE + 131072) (KERNBASE + 32768) (KERNBASE + 28672) (KERNBASE + 4096) (KERNBASE + 8192) 1) 70 (mkWorld demo_board (λ _, Enter)) w' ∧
  ∀ h, (h < 8)%nat → w_pos w' h = Scheduling.
Proof.
  destruct (main_boots (KERNBASE + 131072) (KERNBASE + 32768) (KERNBASE + 28672) (KERNBASE + 4096) (KERNBASE + 8192) 1 (λ _ : unit, True) (λ _ : Z, True)
    demo_board 0 (mkWorld demo_board (λ _, Enter))) as (_ & _ & _ & k & w' & Hn & Hk & Hall); try done.
  - split; try done. intros d _. exists 0%nat. split; [lia|done].
  - constructor.
  - exists w'. by assert (k = 70%nat) as -> by lia.
Defined.
